(* ===== verification/_CoqProject ===== *)
-Q . S2P
Prelude.v
Limbs.v
BigLoops.v
Uint512.v
Int512.v
BigText.v
Crc16.v
Names.v
Hash.v
VirtualBuffer.v
Input.v
LongDouble.v
Lexer.v
LexerTotal.v
LexerText.v
LexerStrings.v
LexerLayout.v
Bytes.v
SortedMap.v
StructTypes.v
Convert.v
ConvertText.v
ConvertProps.v
Cell.v
CellProps.v
Structure.v
StructLayout.v
StructAccess.v
StructUpdate.v
StructParse.v
StructDefaults.v
StructArrays.v
StructProps.v
JournalFile.v
JournalLayout.v
Journal.v
JournalIndex.v
JournalRep.v
JournalChanges.v
JournalStatus.v
JournalAdd.v
JournalLoad.v
JournalReload.v
JournalEvents.v
JournalSettings.v
JournalProps.v
Nodes.v
Functions.v
As2js.v
Expression.v
ExprDemo.v
LexerTypes.v
IntegerTypes.v
ExprTypes.v
ActionTypes.v
ExprTotal.v
ExprGrammar.v
ExprParse.v
ExprProps.v
Command.v
Parser.v
ParserTotal.v
ParserGrammar.v
ParserProps.v
IndirectIndex.v
IndirectIndexProps.v
FreeSpace.v
FreeSpaceMemory.v
FreeSpaceLists.v
FreeSpaceProps.v
Rows.v
RowsProps.v
EntryIndex.v
EntryIndexProps.v
PrimaryIndex.v
