(* ===== verification/Prelude.v ===== *)
(** * Verification of the core of prinbee

    Prinbee is a database server in C++.  This library models the parts of its
    library that hold its own logic, function by function, and proves what they
    promise.  A function of the code is a function here: an object is a record,
    a method takes the object and returns the new one, and a method that may
    throw returns a [result] ([Ok] or [Throw] with the exception).  Integers are
    numbers kept in the range of their C++ type by [wrap] and [signed], strings
    are lists of character codes, and the two outcomes [undefined_behavior] and
    [fuel_exhausted] stand for what C++ gives no meaning to and for a loop that
    ran out of the fuel of its model; the theorems show that neither happens, or
    say when it does.

    ** Parts

    This file has what all the parts share: [result] and its notation, machine
    integers, literals of characters and strings, Horner's rule, [span].

    - Big integers (prinbee/bigint): [Limbs] is the assembly (add.s, sub.s,
      add512.s, sub512.s) and the shift loops, [BigLoops] the multiplication and
      division loops over the interface [BigintOps], [Uint512] and [Int512] the
      two classes, which discharge its laws, [BigText] from_string() and
      to_string().  The theorems give every operation as arithmetic on the number
      of the object, and say where the code departs from it (shifts of negative
      numbers, division of negative dividends, conversion to floating point).
    - Small functions: [Crc16] (network/crc16.cpp), [Names] (utils.h), [Hash]
      (file/hash.cpp): the table against the polynomial, the languages of names,
      and a hash that does not depend on how the input is cut into calls.
    - Virtual buffers (data/virtual_buffer.cpp): [VirtualBuffer].  The deque of
      pieces, over blocks and vectors, refines one sequence of bytes: reads,
      writes, insertions, erasures and shifts, with the errors.
    - Structures (data/structure.cpp, data/structure.h): [StructTypes] has the
      types and descriptions, [Structure] the fields, the parsing of descriptions
      and every accessor, over [VirtualBuffer].  [StructLayout] says which values
      a tree of fields represents and how these are encoded ([represents] is in
      [StructAccess]); [StructAccess], [StructUpdate], [StructParse],
      [StructDefaults] and [StructArrays] prove the operations against it, and
      [StructProps] has the theorems: after any operation the tree, the bytes and
      the offsets agree again, and one value has changed.
    - Conversions of values (data/convert.cpp): [Convert], with the lemmas of
      [ConvertText] and the theorems of [ConvertProps]: which texts are numbers
      and sizes, the ranges of the types, and round trips.  [Structure] uses them
      for default values.
    - Cells of rows (database/cell.cpp): [Cell], with the theorems of [CellProps]:
      the binary form of the values of every type and its order, the accessors,
      and copies between columns of different types.
    - Indexes (block, database/table.cpp): [IndirectIndex] is the tree that gives
      the reference of a row from its number, in the pages of the file of a table,
      with the allocation of these pages (data/dbfile.cpp); [IndirectIndexProps]
      proves that it refines a list of references, however many rows are inserted.
      The pages are those of the list of free pages, or of the growth of the file:
      both the sparse growth, which gives as many pages as wanted, and the one of
      other files, which is not in step with the list of free pages, are modelled,
      so that the theorems ask for the number of pages that are free or a sparse
      file.  The creation of a file throws, and they start from a table that is
      well formed.
      [EntryIndex] is the sorted entries of an EIDX block and the search of a TIDX
      block, and [EntryIndexProps] proves the search and the insertion against a
      sorted map.  [FreeSpace] is the allocation of the space of rows in the pages
      of data; [FreeSpaceMemory] sees the bytes of these pages as disjoint spaces,
      [FreeSpaceLists] the links of the free spaces as lists by size, and
      [FreeSpaceProps] proves which space is given.  [Rows] puts the two together,
      the insertion and the reading of a row, and [RowsProps] proves that a table
      is the list of its rows.  [PrimaryIndex] is the table of the primary index, by the last
      bits of the keys, with its theorem.
    - Journal (journal/journal.cpp): [JournalFile] is the files and locations,
      [Journal] the class journal.  The abstract specification is the map of the
      events by identifier, related to the files and the index by [journal_rep]
      ([JournalIndex], [JournalLayout], [JournalRep]); [JournalChanges],
      [JournalStatus], [JournalAdd], [JournalLoad], [JournalReload],
      [JournalEvents] and [JournalSettings] prove the operations against it, and
      [JournalProps] has the theorems: adding, changing the status, replaying,
      opening again, compressing, and the invariant of all reachable states.
    - Query language (pbql): [Input] (input.cpp, location.cpp), [Lexer]
      (lexer.cpp) with [LongDouble] for strtold(), [Nodes], [As2js] (node.cpp),
      [Functions], [Expression] (parse_expression.cpp).  [LexerTotal] shows that
      every token ends, [LexerText], [LexerStrings] and [LexerLayout] which
      characters are which tokens; [LexerTypes], [IntegerTypes], [ExprTypes] and
      [ActionTypes] that the trees have the children their scripts need,
      [ExprTotal] that the parser ends, [ExprGrammar] and [ExprParse] that it
      reads the expressions of a grammar; [ExprDemo] has concrete libraries and
      examples, [ExprProps] the theorems.  [Command] (command.cpp) is the commands
      and their parameters, [Parser] (parser.cpp) the statements; [ParserTotal]
      shows that parsing a script ends and what it keeps true of the commands,
      [ParserGrammar] reads a SELECT from its tokens, and [ParserProps] has the
      theorems.

    The lower parts are used by the upper ones as in the code: the lexer reads
    numbers with [Uint512], the expressions compute with [Int512], the statements
    read expressions, structures call the virtual buffer and the conversions,
    cells call the conversions, and these the big integers.  [Bytes] (integers in memory and in files) and [SortedMap]
    (std::map) are shared.

    ** Libraries

    Code that is not in the repository is a parameter: snapdev, libutf8, libm,
    std::regex, the clock, the functions of the C library on dates and floating
    point numbers, and the growth of vectors.  What is assumed of it is a class
    next to its users ([HexdigitLaws], [VectorLaws], the hypotheses of the
    sections), with a concrete instance in the witnesses.

    ** Fuel

    The loops that are not structural take a fuel, and the theorems show that
    what is given is enough: 512 turns for the bits of a big integer and for the
    digits of its text, one turn per block for the shift of a file, the number of
    bytes for the hash, the number of characters left and two for the lexer, 14
    calls per character and token for the expressions ([14 * S n + 12] turns for
    the statements of a script of [n] characters), 257 levels for the tree of the
    indirect index (a level is a number of eight bits), the number of entries and
    one for the search of a block, the number of sizes in a page and one for the
    search of a free space, the size of a file, the
    number of events or of bytes and one for the loops of the journal, the length
    of a table and one for a binary search, the length of a name and one for the
    search of a field and for the flags of a bit field.

    ** Not modelled

    The schema is loaded from XML by a library, and contexts are directories and
    locks.  Rows and cursors put together cells and indexes by the columns of a
    schema, and many of their operations throw not_yet_implemented.  The other
    blocks and the header of a file are accessors of the fields of a structure
    over memory-mapped pages.  The daemon, the proxy, the connections and the user
    interfaces are callbacks of an event dispatcher; the exceptions are the
    constructors of [error].  In the parts that are modelled: the errors and the
    buffering of streams, messages and debug output, attachments of the journal
    given by the name of a file, the configuration file of the journal, the
    entry of the index of the keys that row_insert() adds from the state of a
    cursor, and release_space(), which computes with the address at which a page
    is mapped. *)

From stdpp Require Export base numbers list strings gmap pretty.
From Stdlib Require Export ZArith Lia.
From Stdlib Require Ascii String.
Open Scope Z_scope.

(** ** Exceptions and fallible code *)

(** The exceptions the modelled code throws (prinbee/exception.h) and the one of
    std::regex, plus two model-only outcomes: [undefined_behavior] for an
    operation the C++ standard gives no meaning to (a write outside of an object),
    and [fuel_exhausted] for a loop that did not end within the fuel given to its
    model. *)
Inductive error : Type :=
  | logic_error
  | not_yet_implemented
  | out_of_range
  | conversion_unavailable
  | corrupted_data
  | fatal_error
  | field_not_found
  | file_not_found
  | file_still_in_use
  | full
  | invalid_entity
  | invalid_name
  | invalid_number
  | invalid_parameter
  | invalid_size
  | invalid_token
  | invalid_type
  | io_error
  | out_of_bounds
  | regex_error
  | type_mismatch
  | type_not_found
  | unexpected_token
  | undefined_behavior
  | fuel_exhausted.

#[export] Instance error_eq_dec : EqDecision error.
Proof. solve_decision. Defined.

Inductive result (A : Type) : Type :=
  | Ok (a : A)
  | Throw (e : error).
Arguments Ok {A} a.
Arguments Throw {A} e.

Definition result_bind {A B} (r : result A) (k : A -> result B) : result B :=
  match r with
  | Ok a => k a
  | Throw e => Throw e
  end.

Declare Scope prinbee_scope.
Delimit Scope prinbee_scope with prinbee.
Notation "'let!' x := r 'in' k" := (result_bind r (fun x => k))
  (at level 10, x name, r at level 100, k at level 200)
  : prinbee_scope.
Notation "'let!' ' p := r 'in' k" := (result_bind r (fun x => match x with p => k end))
  (at level 10, p pattern, r at level 100, k at level 200)
  : prinbee_scope.
Open Scope prinbee_scope.

(** [throws r] is decidable: useful in statements about error paths. *)
Definition throws {A} (r : result A) : bool :=
  match r with Ok _ => false | Throw _ => true end.

Lemma result_bind_ok {A B} (r : result A) (k : A -> result B) b :
  result_bind r k = Ok b <-> exists a, r = Ok a /\ k a = Ok b.
Proof.
  destruct r; simpl.
  - split; [eauto | by intros (? & [= ->] & ?)].
  - split; [done | by intros (? & ? & ?)].
Qed.

(** What a computation returns satisfies [Q], or it throws one of the exceptions
    of [E]. *)
Definition outcome {A} (E : error -> Prop) (r : result A) (Q : A -> Prop) : Prop :=
  match r with Ok a => Q a | Throw e => E e end.

Lemma outcome_bind {A B} E (r : result A) (k : A -> result B) P Q :
  outcome E r P -> (forall a, P a -> outcome E (k a) Q) -> outcome E (result_bind r k) Q.
Proof. destruct r; cbn; auto. Qed.

Lemma outcome_weaken {A} (E E' : error -> Prop) (r : result A) (P Q : A -> Prop) :
  outcome E r P -> (forall e, E e -> E' e) -> (forall a, P a -> Q a) -> outcome E' r Q.
Proof. destruct r; cbn; auto. Qed.

(** ** Unsigned machine integers *)

(** [wrap w z] is the value a [w]-bit unsigned object holds after it is
    assigned [z]; [uword w x] says that [x] is such a value. *)
Definition wrap (w z : Z) : Z := z mod 2 ^ w.
Definition uword (w x : Z) : Prop := 0 <= x < 2 ^ w.
Definition byte (x : Z) : Prop := uword 8 x.

#[export] Instance uword_dec w x : Decision (uword w x).
Proof. unfold uword. apply _. Defined.

(** [signed w x] reads the bits of the [w]-bit word [x] as two's complement. *)
Definition signed (w x : Z) : Z := if decide (x < 2 ^ (w - 1)) then x else x - 2 ^ w.

Create HintDb word discriminated.

Lemma pow2_pos n : 0 <= n -> 0 < 2 ^ n.
Proof. intros. apply Z.pow_pos_nonneg; lia. Qed.

Lemma wrap_uword w z : 0 <= w -> uword w (wrap w z).
Proof. intros. unfold uword, wrap. apply Z.mod_pos_bound, pow2_pos; lia. Qed.

Lemma wrap_small w z : uword w z -> wrap w z = z.
Proof. unfold uword, wrap. intros. apply Z.mod_small; lia. Qed.

Lemma uword_0 w : 0 <= w -> uword w 0.
Proof. intros. pose proof (pow2_pos w). unfold uword. lia. Qed.

#[export] Hint Resolve wrap_uword uword_0 : word.
#[export] Hint Extern 5 (0 <= _) => lia : word.
#[export] Hint Extern 5 (_ <= _ < _) => lia : word.
#[export] Hint Extern 5 (uword _ _) => (unfold uword; lia) : word.

Lemma mod_unique_pow n x q r : 0 <= r < 2 ^ n -> x = 2 ^ n * q + r -> x mod 2 ^ n = r.
Proof. intros. symmetry. by apply Z.mod_unique_pos with q. Qed.

Lemma div_unique_pow n x q r : 0 <= r < 2 ^ n -> x = 2 ^ n * q + r -> x / 2 ^ n = q.
Proof. intros. symmetry. by apply Z.div_unique_pos with r. Qed.

Lemma pow2_split a b : 0 <= a <= b -> 2 ^ b = 2 ^ a * 2 ^ (b - a).
Proof. intros. rewrite <- Z.pow_add_r by lia. f_equal. lia. Qed.

(** A disjoint bitwise or is a sum. *)
Lemma lor_low_high n hi lo : 0 <= n -> 0 <= lo < 2 ^ n -> Z.lor (hi * 2 ^ n) lo = hi * 2 ^ n + lo.
Proof.
  intros Hn Hlo.
  assert (Z.land (hi * 2 ^ n) lo = 0) as Hdisj; [|by rewrite Z.add_nocarry_lxor, Z.lxor_lor].
  apply Z.bits_inj'. intros i Hi. rewrite Z.land_spec, Z.bits_0.
  destruct (decide (i < n)).
  - rewrite Z.mul_pow2_bits_low by lia. done.
  - rewrite <- (Z.mod_small lo (2 ^ n)) by lia.
    rewrite Z.mod_pow2_bits_high by lia. by rewrite andb_false_r.
Qed.

Lemma land_ones_pow x n : 0 <= n -> Z.land x (2 ^ n - 1) = x mod 2 ^ n.
Proof. intros. rewrite <- Z.land_ones by lia. f_equal. rewrite Z.ones_equiv. lia. Qed.

(** ** Tactics *)

(** Proves a closed decidable proposition by computing its decision. *)
Ltac closed_decide := apply (bool_decide_unpack _); vm_compute; exact I.

(** ** Characters and strings *)

(** A string is the list of its character codes; a literal is written
    [(str: "abc")], a character [(chr: "a")], both computed when parsed. *)
Definition codes_of_string (s : string) : list Z :=
  map (fun a => Z.of_N (Ascii.N_of_ascii a)) (String.list_ascii_of_string s).

Notation "( 'chr:' c )" :=
  (ltac:(let r := eval vm_compute in (default 0 (head (codes_of_string c%string))) in exact r)) (only parsing).
Notation "( 'str:' s )" :=
  (ltac:(let r := eval vm_compute in (codes_of_string s%string) in exact r)) (only parsing).

(** [std::to_string()] of an integer *)
Definition decimal_text (n : Z) : list Z := codes_of_string (pretty n).

(** The control characters the code names. *)
Abbreviation NUL := 0 (only parsing).
Abbreviation BS := 8 (only parsing).
Abbreviation HT := 9 (only parsing).
Abbreviation LF := 10 (only parsing).
Abbreviation VT := 11 (only parsing).
Abbreviation FF := 12 (only parsing).
Abbreviation CR := 13 (only parsing).
Abbreviation QUOTE := 39 (only parsing).
Abbreviation BACKSLASH := 92 (only parsing).

(** Horner's rule: the number a list of digits denotes, the first one being the
    most significant. *)
Definition horner (base : Z) (ds : list Z) : Z := foldl (fun a d => a * base + d) 0 ds.
Arguments horner : simpl never.

Lemma horner_app base ds d : horner base (ds ++ [d]) = horner base ds * base + d.
Proof. unfold horner. by rewrite foldl_app. Qed.

Lemma foldl_horner base a ds :
  foldl (fun a d => a * base + d) a ds = a * base ^ Z.of_nat (length ds) + horner base ds.
Proof.
  unfold horner. revert a. induction ds as [|d ds IH]; intros a; [cbn; lia|]. cbn [foldl length].
  rewrite (IH (a * base + d)), (IH (0 * base + d)), Nat2Z.inj_succ, Z.pow_succ_r by lia. ring.
Qed.

Lemma horner_cons base d ds : horner base (d :: ds) = d * base ^ Z.of_nat (length ds) + horner base ds.
Proof. unfold horner at 1. cbn [foldl]. rewrite foldl_horner. lia. Qed.

Lemma horner_nonneg base ds : 0 <= base -> Forall (fun d => 0 <= d) ds -> 0 <= horner base ds.
Proof.
  intros Hb Hds. induction Hds as [|d ds Hd Hds IH]; [done|]. rewrite horner_cons.
  pose proof (Z.pow_nonneg base (Z.of_nat (length ds))). nia.
Qed.

(** stdpp's [reverse] is the [rev] of the Standard Library. *)
Lemma rev_reverse {A} (l : list A) : rev l = reverse l.
Proof. apply rev_alt. Qed.

(** The longest prefix of a list whose elements satisfy [p], and what follows. *)
Fixpoint span {A} (p : A -> bool) (l : list A) : list A * list A :=
  match l with
  | [] => ([], [])
  | x :: l' => if p x then let '(a, b) := span p l' in (x :: a, b) else ([], l)
  end.

Lemma span_spec {A} (p : A -> bool) l :
  l = (span p l).1 ++ (span p l).2 /\ Forall (fun x => p x = true) (span p l).1 /\
  (forall x, head (span p l).2 = Some x -> p x = false).
Proof.
  induction l as [|x l IH]; [done|]. cbn. destruct (p x) eqn:E; [|split_and!; [done..|by intros ? [= <-]]].
  destruct (span p l) as [a b]. cbn in *. destruct IH as (-> & Ha & Hb). auto.
Qed.

Lemma span_app {A} (p : A -> bool) a b : Forall (fun x => p x = true) a ->
  (forall x, head b = Some x -> p x = false) -> span p (a ++ b) = (a, b).
Proof.
  intros Ha Hb. induction Ha as [|x a Hx Ha IH]; cbn.
  - destruct b as [|y b]; [done|]. cbn. by rewrite (Hb y).
  - by rewrite Hx, IH.
Qed.
