(* ===== verification/Limbs.v ===== *)
(** * Multi-word arithmetic: the assembly routines and the shift loops

    The big integers of prinbee/bigint are arrays of 64-bit words, least
    significant word first.  This file models what [uint512_t] and [int512_t]
    share: the amd64 carry chains (add.s, sub.s, add512.s, sub512.s) and the
    word-by-word shift loops, over lists of words of any length, and proves
    them against the number [eval] the words denote. *)

From S2P Require Import Prelude.

Abbreviation limb := (uword 64).
Abbreviation limbs := (Forall (uword 64)).

(** The number an array of words denotes. *)
Fixpoint eval (l : list Z) : Z :=
  match l with
  | [] => 0
  | x :: r => x + 2 ^ 64 * eval r
  end.

(** The modulus of [n] words. *)
Definition modulus (n : nat) : Z := 2 ^ (64 * Z.of_nat n).

(** ** Carry chains *)

(** One ADC instruction: destination, source, carry flag. *)
Definition adc (a b cf : Z) : Z * Z := (wrap 64 (a + b + cf), (a + b + cf) / 2 ^ 64).

(** One SBB instruction: the carry flag is the borrow. *)
Definition sbb (a b cf : Z) : Z * Z := (wrap 64 (a - b - cf), if decide (a < b + cf) then 1 else 0).

(** The loop of add.s: [count] words, carry out in the flag. *)
Fixpoint add_loop (src1 src2 : list Z) (cf : Z) : list Z * Z :=
  match src1, src2 with
  | x :: xs, y :: ys =>
      let '(s, cf1) := adc x y cf in
      let '(r, cf2) := add_loop xs ys cf1 in
      (s :: r, cf2)
  | _, _ => ([], cf)
  end.

(** The loop of sub.s. *)
Fixpoint sub_loop (src1 src2 : list Z) (cf : Z) : list Z * Z :=
  match src1, src2 with
  | x :: xs, y :: ys =>
      let '(s, cf1) := sbb x y cf in
      let '(r, cf2) := sub_loop xs ys cf1 in
      (s :: r, cf2)
  | _, _ => ([], cf)
  end.

(** [int add(dst, src1, src2, count)]: the words of [dst] and the result. *)
Definition asm_add (src1 src2 : list Z) (count : nat) : list Z * Z :=
  add_loop (take count src1) (take count src2) 0.

(** [int sub(dst, src1, src2, count)] *)
Definition asm_sub (src1 src2 : list Z) (count : nat) : list Z * Z :=
  sub_loop (take count src1) (take count src2) 0.

(** [void add512(dst, src)]: an ADD then seven ADC, the last carry is lost. *)
Definition asm_add512 (dst src : list Z) : list Z := fst (add_loop (take 8 dst) (take 8 src) 0).

(** [void sub512(dst, src)]: a SUB then seven SBB. *)
Definition asm_sub512 (dst src : list Z) : list Z := fst (sub_loop (take 8 dst) (take 8 src) 0).

(** ** Block moves over an array *)

(** [memmove(l + dst, l + src, n)] on whole elements. *)
Definition memmove {A} (l : list A) (dst src n : nat) : list A :=
  take dst l ++ take n (drop src l) ++ drop (dst + n) l.

(** [memset(l + pos, v, n)] on whole elements. *)
Definition memset {A} (l : list A) (pos : nat) (v : A) (n : nat) : list A :=
  take pos l ++ replicate n v ++ drop (pos + n) l.

(** ** Shift loops *)

(** The loop of [lsl()]: from the lowest word up, [extra] holds the bits
    pushed out of the previous word. *)
Fixpoint lsl_loop (shift extra : Z) (l : list Z) : list Z :=
  match l with
  | [] => []
  | x :: r =>
      let next := Z.shiftr x (64 - shift) in
      Z.lor (wrap 64 (Z.shiftl x shift)) extra :: lsl_loop shift next r
  end.

(** The loop of [lsr()] and [asr()]: from the highest word down; the second
    component is the final value of [extra]. *)
Fixpoint lsr_loop (shift extra : Z) (l : list Z) : list Z * Z :=
  match l with
  | [] => ([], extra)
  | x :: r =>
      let '(r', extra') := lsr_loop shift extra r in
      let next := wrap 64 (Z.shiftl x (64 - shift)) in
      (Z.lor (Z.shiftr x shift) extra' :: r', next)
  end.

(** ** Scans from the highest word down *)

(** [for(int idx(n - 1); idx >= 0; --idx)] comparing two arrays. *)
Fixpoint compare_loop (n : nat) (a b : list Z) : Z :=
  match n with
  | O => 0
  | S idx =>
      if decide (a !!! idx <> b !!! idx)
      then (if decide (a !!! idx > b !!! idx) then 1 else -1)
      else compare_loop idx a b
  end.

(** [__builtin_clzll()], defined for a non zero word. *)
Definition clzll (x : Z) : Z := 63 - Z.log2 x.

(** ** The value of an array *)

Lemma modulus_pos n : 0 < modulus n.
Proof. apply pow2_pos. lia. Qed.

Lemma modulus_0 : modulus 0 = 1.
Proof. done. Qed.

Lemma modulus_S n : modulus (S n) = 2 ^ 64 * modulus n.
Proof. unfold modulus. rewrite <- Z.pow_add_r by lia. f_equal. lia. Qed.

Lemma modulus_add m n : modulus (m + n) = modulus m * modulus n.
Proof. unfold modulus. rewrite <- Z.pow_add_r by lia. f_equal. lia. Qed.

Lemma eval_app a b : eval (a ++ b) = eval a + modulus (length a) * eval b.
Proof.
  induction a as [|x a IH]; [cbn [app eval length]; rewrite modulus_0; lia|].
  cbn [app eval length]. rewrite IH, modulus_S. ring.
Qed.

Lemma eval_bound l : limbs l -> 0 <= eval l < modulus (length l).
Proof.
  induction 1 as [|x l Hx _ IH]; [by vm_compute|].
  cbn [eval length]. rewrite modulus_S. unfold uword in Hx. nia.
Qed.

Lemma eval_replicate_0 n : eval (replicate n 0) = 0.
Proof. induction n as [|n IH]; [done|]. cbn [replicate eval]. lia. Qed.

Lemma eval_inj a b : limbs a -> limbs b -> length a = length b -> eval a = eval b -> a = b.
Proof.
  intros Ha. revert b. induction Ha as [|x a Hx Ha IH]; intros [|y b] Hb Hlen Heq; try done.
  inversion Hb as [|?? Hy Hb']; subst. cbn [eval] in Heq. unfold uword in *.
  assert (x = y) by lia. subst. f_equal. apply IH; auto. lia.
Qed.

Lemma eval_take_drop n l : (n <= length l)%nat -> eval l = eval (take n l) + modulus n * eval (drop n l).
Proof.
  intros. rewrite <- (take_drop n l) at 1. rewrite eval_app, length_take.
  by rewrite Nat.min_l by lia.
Qed.

#[export] Hint Resolve Forall_app_2 Forall_take Forall_drop : word.

(** ** Correctness of the carry chains *)

Lemma add_loop_spec a b cf r cf' :
  limbs a -> limbs b -> length a = length b -> 0 <= cf <= 1 ->
  add_loop a b cf = (r, cf') ->
  limbs r /\ length r = length a /\ 0 <= cf' <= 1 /\
  eval r + modulus (length a) * cf' = eval a + eval b + cf.
Proof.
  intros Ha. revert b cf r cf'. induction Ha as [|x a Hx Ha IH]; intros [|y b] cf r cf' Hb Hlen Hcf; simpl;
    try done; intros Heq.
  - simplify_eq. cbn [eval length]. rewrite modulus_0. repeat split; [constructor|lia..].
  - inversion Hb as [|?? Hy Hb']; subst.
    destruct (add_loop a b _) as [r1 cf1] eqn:E. simplify_eq.
    unfold uword in Hx, Hy.
    assert (0 <= (x + y + cf) / 2 ^ 64 <= 1).
    { split; [apply Z.div_pos; lia|]. apply Z.lt_succ_r, Z.div_lt_upper_bound; lia. }
    destruct (IH b ((x + y + cf) / 2 ^ 64) r1 cf') as (? & ? & ? & Hev); auto.
    repeat split; [constructor; auto with word | simpl; lia | lia | lia |].
    cbn [eval length]. rewrite modulus_S.
    pose proof (Z.div_mod (x + y + cf) (2 ^ 64)). unfold wrap. nia.
Qed.

Lemma sub_loop_spec a b cf r cf' :
  limbs a -> limbs b -> length a = length b -> 0 <= cf <= 1 ->
  sub_loop a b cf = (r, cf') ->
  limbs r /\ length r = length a /\ 0 <= cf' <= 1 /\
  eval r = eval a - eval b - cf + modulus (length a) * cf'.
Proof.
  intros Ha. revert b cf r cf'. induction Ha as [|x a Hx Ha IH]; intros [|y b] cf r cf' Hb Hlen Hcf; simpl;
    try done; intros Heq.
  - simplify_eq. cbn [eval length]. rewrite modulus_0. repeat split; [constructor|lia..].
  - inversion Hb as [|?? Hy Hb']; subst.
    destruct (sub_loop a b _) as [r1 cf1] eqn:E. simplify_eq.
    unfold uword in Hx, Hy.
    set (bw := if decide (x < y + cf) then 1 else 0) in *.
    assert (wrap 64 (x - y - cf) = x - y - cf + 2 ^ 64 * bw) as Hw.
    { unfold wrap, bw. destruct (decide _);
        [apply mod_unique_pow with (q := -1) | apply mod_unique_pow with (q := 0)]; lia. }
    assert (0 <= bw <= 1) by (unfold bw; destruct (decide _); lia).
    destruct (IH b bw r1 cf') as (? & ? & ? & Hev); auto.
    repeat split; [constructor; auto with word | simpl; lia | lia | lia |].
    cbn [eval length]. rewrite modulus_S, Hw, Hev. ring.
Qed.

Lemma asm_add_spec a b n r cf :
  limbs a -> limbs b -> length a = n -> length b = n -> asm_add a b n = (r, cf) ->
  limbs r /\ length r = n /\ 0 <= cf <= 1 /\ eval r + modulus n * cf = eval a + eval b.
Proof.
  intros Ha Hb <- Hlen Heq. unfold asm_add in Heq.
  rewrite !take_ge in Heq by lia.
  apply add_loop_spec in Heq as (? & ? & ? & ?); [|auto with lia..]. repeat split; auto; lia.
Qed.

Lemma asm_sub_spec a b n r cf :
  limbs a -> limbs b -> length a = n -> length b = n -> asm_sub a b n = (r, cf) ->
  limbs r /\ length r = n /\ 0 <= cf <= 1 /\ eval r = eval a - eval b + modulus n * cf.
Proof.
  intros Ha Hb <- Hlen Heq. unfold asm_sub in Heq.
  rewrite !take_ge in Heq by lia.
  apply sub_loop_spec in Heq as (? & ? & ? & ?); [|auto with lia..]. repeat split; auto; lia.
Qed.

(** The in-place 512-bit routines compute the same words as the generic ones. *)
Lemma asm_add512_asm_add a b : asm_add512 a b = fst (asm_add a b 8).
Proof. done. Qed.

Lemma asm_sub512_asm_sub a b : asm_sub512 a b = fst (asm_sub a b 8).
Proof. done. Qed.

Lemma asm_add_mod a b n r cf :
  limbs a -> limbs b -> length a = n -> length b = n -> asm_add a b n = (r, cf) ->
  eval r = (eval a + eval b) mod modulus n.
Proof.
  intros. destruct (asm_add_spec a b n r cf) as (Hr & Hl & ? & Heq); auto.
  apply eval_bound in Hr. rewrite Hl in Hr.
  apply Z.mod_unique_pos with cf; lia.
Qed.

Lemma asm_sub_mod a b n r cf :
  limbs a -> limbs b -> length a = n -> length b = n -> asm_sub a b n = (r, cf) ->
  eval r = (eval a - eval b) mod modulus n.
Proof.
  intros. destruct (asm_sub_spec a b n r cf) as (Hr & Hl & ? & Heq); auto.
  apply eval_bound in Hr. rewrite Hl in Hr.
  apply Z.mod_unique_pos with (- cf); lia.
Qed.

(** ** Correctness of the shift loops *)

(** One word of a left shift: the low part and the bits pushed out. *)
Lemma lsl_word x s e :
  limb x -> 0 < s < 64 -> 0 <= e < 2 ^ s ->
  limb (Z.lor (wrap 64 (Z.shiftl x s)) e) /\
  0 <= Z.shiftr x (64 - s) < 2 ^ s /\
  Z.lor (wrap 64 (Z.shiftl x s)) e + 2 ^ 64 * Z.shiftr x (64 - s) = x * 2 ^ s + e.
Proof.
  unfold uword. intros Hx Hs He.
  rewrite Z.shiftl_mul_pow2, Z.shiftr_div_pow2 by lia. unfold wrap.
  pose proof (pow2_split s 64 ltac:(lia)) as H64.
  pose proof (pow2_pos s ltac:(lia)). pose proof (pow2_pos (64 - s) ltac:(lia)).
  pose proof (Z.div_mod x (2 ^ (64 - s)) ltac:(lia)).
  pose proof (Z.mod_pos_bound x (2 ^ (64 - s)) ltac:(lia)).
  assert ((x * 2 ^ s) mod 2 ^ 64 = (x mod 2 ^ (64 - s)) * 2 ^ s) as ->.
  { rewrite H64, (Z.mul_comm (2 ^ s)). rewrite Z.mul_mod_distr_r by lia. done. }
  rewrite lor_low_high by lia.
  assert (0 <= x / 2 ^ (64 - s) < 2 ^ s).
  { split; [apply Z.div_pos; lia|]. apply Z.div_lt_upper_bound; [lia|]. nia. }
  repeat split; try lia; nia.
Qed.

Lemma lsl_loop_spec s e l :
  limbs l -> 0 < s < 64 -> 0 <= e < 2 ^ s ->
  limbs (lsl_loop s e l) /\ length (lsl_loop s e l) = length l /\
  eval (lsl_loop s e l) = (eval l * 2 ^ s + e) mod modulus (length l).
Proof.
  intros Hl Hs. revert e. induction Hl as [|x l Hx Hl IH]; intros e He.
  - cbn [lsl_loop eval length]. rewrite modulus_0, Z.mod_1_r. done.
  - cbn [lsl_loop eval length].
    destruct (lsl_word x s e) as (Hw & Hn & Heq); auto.
    destruct (IH (Z.shiftr x (64 - s))) as (? & ? & Hev); auto.
    split; [by constructor|]. split; [lia|].
    rewrite Hev, modulus_S. unfold uword in Hw.
    pose proof (modulus_pos (length l)).
    set (y := eval l * 2 ^ s + Z.shiftr x (64 - s)) in *.
    pose proof (Z.div_mod y (modulus (length l)) ltac:(lia)).
    pose proof (Z.mod_pos_bound y (modulus (length l)) ltac:(lia)).
    apply Z.mod_unique_pos with (y / modulus (length l)); [nia|].
    unfold y in *. nia.
Qed.

(** One word of a right shift; [t] are the bits that enter from above. *)
Lemma lsr_word x s t :
  limb x -> 0 < s < 64 -> 0 <= t < 2 ^ s ->
  limb (Z.lor (Z.shiftr x s) (t * 2 ^ (64 - s))) /\
  wrap 64 (Z.shiftl x (64 - s)) = x mod 2 ^ s * 2 ^ (64 - s) /\
  Z.lor (Z.shiftr x s) (t * 2 ^ (64 - s)) * 2 ^ s + x mod 2 ^ s = x + 2 ^ 64 * t.
Proof.
  unfold uword. intros Hx Hs Ht.
  rewrite Z.shiftl_mul_pow2, Z.shiftr_div_pow2 by lia. unfold wrap.
  pose proof (pow2_split s 64 ltac:(lia)) as H64.
  pose proof (pow2_pos s ltac:(lia)). pose proof (pow2_pos (64 - s) ltac:(lia)).
  pose proof (Z.div_mod x (2 ^ s) ltac:(lia)).
  pose proof (Z.mod_pos_bound x (2 ^ s) ltac:(lia)).
  assert (0 <= x / 2 ^ s < 2 ^ (64 - s)).
  { split; [apply Z.div_pos; lia|]. apply Z.div_lt_upper_bound; lia. }
  rewrite Z.lor_comm, lor_low_high by lia.
  split; [nia|]. split; [|nia].
  rewrite H64. by rewrite Z.mul_mod_distr_r by lia.
Qed.

Lemma lsr_loop_spec s t l r e :
  limbs l -> 0 < s < 64 -> 0 <= t < 2 ^ s ->
  lsr_loop s (t * 2 ^ (64 - s)) l = (r, e) ->
  limbs r /\ length r = length l /\
  e = (eval l + t * modulus (length l)) mod 2 ^ s * 2 ^ (64 - s) /\
  eval r = (eval l + t * modulus (length l)) / 2 ^ s.
Proof.
  intros Hl Hs Ht. revert r e. induction Hl as [|x l Hx Hl IH]; intros r e Heq.
  - cbn [lsr_loop] in Heq. simplify_eq. cbn [eval length]. rewrite modulus_0.
    rewrite Z.add_0_l, Z.mul_1_r, Z.mod_small, Z.div_small by lia. done.
  - cbn [lsr_loop] in Heq.
    destruct (lsr_loop s (t * 2 ^ (64 - s)) l) as [r1 e1] eqn:E.
    destruct (IH r1 e1) as (Hr & Hlen & He1 & Hev); [done|]. simplify_eq.
    pose proof (pow2_pos s ltac:(lia)).
    set (y := eval l + t * modulus (length l)) in *.
    pose proof (Z.div_mod y (2 ^ s) ltac:(lia)) as Hy.
    pose proof (Z.mod_pos_bound y (2 ^ s) ltac:(lia)) as Hym.
    destruct (lsr_word x s (y mod 2 ^ s)) as (Hw & Hn & Hd); auto.
    pose proof (Z.mod_pos_bound x (2 ^ s) ltac:(lia)) as Hxm.
    split; [by constructor|]. split; [simpl; lia|].
    cbn [eval length]. rewrite modulus_S, Hn, Hev.
    set (w := Z.lor _ _) in *.
    assert (x + 2 ^ 64 * eval l + t * (2 ^ 64 * modulus (length l))
            = 2 ^ s * (w + 2 ^ 64 * (y / 2 ^ s)) + x mod 2 ^ s) as Htot.
    { transitivity (x + 2 ^ 64 * y); [unfold y; ring|]. nia. }
    split; [f_equal; symmetry|symmetry].
    + eapply mod_unique_pow; eauto.
    + eapply div_unique_pow; eauto.
Qed.

(** ** Correctness of the scans *)

Lemma take_S_total (l : list Z) n : (n < length l)%nat -> take (S n) l = take n l ++ [l !!! n].
Proof. intros. apply take_S_r. by apply list_lookup_lookup_total_lt. Qed.

Lemma limbs_lookup_total l n : limbs l -> (n < length l)%nat -> limb (l !!! n).
Proof.
  intros Hl Hn. rewrite Forall_lookup in Hl. eapply Hl. by apply list_lookup_lookup_total_lt.
Qed.

Lemma eval_take_S l n :
  (n < length l)%nat -> eval (take (S n) l) = eval (take n l) + modulus n * (l !!! n).
Proof.
  intros. rewrite take_S_total, eval_app, length_take_le by lia. cbn [eval]. lia.
Qed.

Lemma eval_take_bound l n : limbs l -> (n <= length l)%nat -> 0 <= eval (take n l) < modulus n.
Proof.
  intros Hl Hn. pose proof (eval_bound (take n l) ltac:(auto with word)) as H.
  by rewrite length_take_le in H by lia.
Qed.

Lemma compare_loop_spec n a b :
  limbs a -> limbs b -> (n <= length a)%nat -> (n <= length b)%nat ->
  compare_loop n a b = Z.sgn (eval (take n a) - eval (take n b)).
Proof.
  intros Ha Hb. induction n as [|n IH]; intros; [done|]. cbn [compare_loop].
  rewrite !eval_take_S by lia.
  pose proof (eval_take_bound a n Ha ltac:(lia)).
  pose proof (eval_take_bound b n Hb ltac:(lia)).
  pose proof (modulus_pos n).
  destruct (decide (a !!! n <> b !!! n)).
  - destruct (decide (a !!! n > b !!! n)); symmetry; [apply Z.sgn_pos|apply Z.sgn_neg]; nia.
  - assert (a !!! n = b !!! n) as -> by lia. rewrite IH by lia. f_equal. lia.
Qed.

(** A word is found by its most significant bit. *)
Lemma clzll_spec x : 0 < x < 2 ^ 64 -> 0 <= clzll x < 64 /\ 64 - clzll x = Z.log2 x + 1.
Proof.
  intros. unfold clzll. assert (Z.log2 x < 64) by (apply Z.log2_lt_pow2; lia).
  pose proof (Z.log2_nonneg x). lia.
Qed.

Lemma log2_top_word x m lo : 0 < x -> 0 <= m -> 0 <= lo < 2 ^ m -> Z.log2 (lo + 2 ^ m * x) = m + Z.log2 x.
Proof.
  intros. apply Z.log2_unique; [pose proof (Z.log2_nonneg x); lia|].
  pose proof (Z.log2_spec x ltac:(lia)) as Hx. pose proof (Z.log2_nonneg x).
  rewrite Z.pow_add_r by lia.
  replace (Z.succ (m + Z.log2 x)) with (m + Z.succ (Z.log2 x)) by lia.
  rewrite Z.pow_add_r by lia. nia.
Qed.

(** ** Block moves that shift whole words *)

Lemma length_memmove {A} (l : list A) dst src n :
  (dst + n <= length l)%nat -> (src + n <= length l)%nat -> length (memmove l dst src n) = length l.
Proof. intros. unfold memmove. rewrite !length_app, !length_take, !length_drop. lia. Qed.

Lemma length_memset {A} (l : list A) pos (v : A) n :
  (pos + n <= length l)%nat -> length (memset l pos v n) = length l.
Proof. intros. unfold memset. rewrite !length_app, length_take, length_replicate, length_drop. lia. Qed.

Lemma limbs_memmove l dst src n : limbs l -> limbs (memmove l dst src n).
Proof. unfold memmove. auto with word. Qed.

Lemma limbs_memset l pos v n : limbs l -> limb v -> limbs (memset l pos v n).
Proof. unfold memset. intros. apply Forall_app_2; [|apply Forall_app_2]; auto using Forall_replicate with word. Qed.

#[export] Hint Resolve limbs_memmove limbs_memset : word.

(** Move up by [m] words and clear the lowest [m] ones. *)
Lemma move_up_words {A} (l : list A) (z : A) m :
  (m <= length l)%nat -> memset (memmove l m 0 (length l - m)) 0 z m = replicate m z ++ take (length l - m) l.
Proof.
  intros Hm. unfold memset, memmove. rewrite take_0, drop_0. cbn [app]. f_equal.
  replace (m + (length l - m))%nat with (length l) by lia.
  rewrite drop_all, app_nil_r. apply drop_app_length'. rewrite length_take. lia.
Qed.

(** Move down by [m] words and fill the highest [m] ones. *)
Lemma move_down_words {A} (l : list A) (z : A) m :
  (m <= length l)%nat ->
  memset (memmove l 0 m (length l - m)) (length l - m) z m = drop m l ++ replicate m z.
Proof.
  intros Hm. unfold memset, memmove. rewrite take_0. cbn [app].
  rewrite (take_ge (drop m l)) by (rewrite length_drop; lia).
  rewrite take_app_length' by (rewrite length_drop; lia).
  rewrite (drop_ge (_ ++ _)), app_nil_r; [done|].
  rewrite length_app, !length_drop. lia.
Qed.

(** ** Whole shifts: words moved, then the loop over the remaining bits *)

Lemma eval_drop l n : limbs l -> (n <= length l)%nat -> eval (drop n l) = eval l / modulus n.
Proof.
  intros Hl Hn. pose proof (eval_take_bound l n Hl Hn).
  apply Z.div_unique_pos with (eval (take n l)); [done|].
  rewrite (eval_take_drop n l) at 1 by lia. lia.
Qed.

Lemma limbs_replicate_0 n : limbs (replicate n 0).
Proof. apply Forall_replicate. apply uword_0. lia. Qed.

#[export] Hint Resolve limbs_replicate_0 : word.

Lemma lsl_words_spec (w w1 w2 : list Z) n move shift :
  limbs w -> length w = n -> (move <= n)%nat -> 0 <= shift < 64 ->
  w1 = replicate move 0 ++ take (n - move) w ->
  w2 = (if decide (shift <> 0) then take move w1 ++ lsl_loop shift 0 (drop move w1) else w1) ->
  limbs w2 /\ length w2 = n /\
  eval w2 = (eval w * 2 ^ (64 * Z.of_nat move + shift)) mod modulus n.
Proof.
  intros Hw Hlen Hmove Hshift Hw1 Hw2.
  set (u := take (n - move) w) in *.
  assert (limbs u /\ length u = (n - move)%nat) as [Hu Hul].
  { split; [unfold u; auto with word|]. unfold u. rewrite length_take. lia. }
  assert (limbs w1 /\ length w1 = n) as [Hw1l Hw1len].
  { subst w1. split; [auto with word|]. rewrite length_app, length_replicate. lia. }
  assert (w2 = replicate move 0 ++ (if decide (shift <> 0) then lsl_loop shift 0 u else u)) as ->.
  { rewrite Hw2, Hw1. destruct (decide _); [|done].
    rewrite take_app_length', drop_app_length' by (by rewrite length_replicate). done. }
  assert (limbs (if decide (shift <> 0) then lsl_loop shift 0 u else u) /\
          length (if decide (shift <> 0) then lsl_loop shift 0 u else u) = (n - move)%nat /\
          eval (if decide (shift <> 0) then lsl_loop shift 0 u else u)
          = (eval u * 2 ^ shift) mod modulus (n - move)) as (Hl & Hll & Hev).
  { destruct (decide (shift <> 0)).
    - destruct (lsl_loop_spec shift 0 u) as (? & ? & ?); auto; [lia|split; [lia|apply pow2_pos; lia]|].
      rewrite Z.add_0_r in *. rewrite <- Hul. auto.
    - assert (shift = 0) as -> by lia. rewrite Z.mul_1_r. split_and!; auto.
      rewrite <- Hul, Z.mod_small; [done|]. by apply eval_bound. }
  split; [auto with word|]. split; [rewrite length_app, length_replicate; lia|].
  rewrite eval_app, eval_replicate_0, length_replicate, Hev, Z.add_0_l.
  rewrite (eval_take_drop (n - move) w) by lia. fold u.
  rewrite Z.pow_add_r by lia. fold (modulus move).
  assert (modulus n = modulus move * modulus (n - move)) as -> by (rewrite <- modulus_add; f_equal; lia).
  pose proof (modulus_pos move). pose proof (modulus_pos (n - move)).
  rewrite <- Z.mul_mod_distr_l by lia.
  apply Z.mod_unique_pos with ((modulus move * (eval u * 2 ^ shift)) / (modulus move * modulus (n - move))
                               + eval (drop (n - move) w) * 2 ^ shift).
  - apply Z.mod_pos_bound. nia.
  - pose proof (Z.div_mod (modulus move * (eval u * 2 ^ shift)) (modulus move * modulus (n - move))). nia.
Qed.

Lemma lsr_words_spec (w w1 w2 : list Z) n move shift :
  limbs w -> length w = n -> (move <= n)%nat -> 0 <= shift < 64 ->
  w1 = drop move w ++ replicate move 0 ->
  w2 = (if decide (shift <> 0)
        then fst (lsr_loop shift 0 (take (n - move) w1)) ++ drop (n - move) w1 else w1) ->
  limbs w2 /\ length w2 = n /\ eval w2 = eval w / 2 ^ (64 * Z.of_nat move + shift).
Proof.
  intros Hw Hlen Hmove Hshift Hw1 Hw2.
  set (u := drop move w) in *.
  assert (limbs u /\ length u = (n - move)%nat) as [Hu Hul].
  { split; [unfold u; auto with word|]. unfold u. rewrite length_drop. lia. }
  assert (w2 = (if decide (shift <> 0) then fst (lsr_loop shift 0 u) else u) ++ replicate move 0) as ->.
  { rewrite Hw2, Hw1. destruct (decide _); [|done].
    by rewrite take_app_length', drop_app_length' by lia. }
  assert (limbs (if decide (shift <> 0) then fst (lsr_loop shift 0 u) else u) /\
          length (if decide (shift <> 0) then fst (lsr_loop shift 0 u) else u) = (n - move)%nat /\
          eval (if decide (shift <> 0) then fst (lsr_loop shift 0 u) else u) = eval u / 2 ^ shift)
    as (Hl & Hll & Hev).
  { destruct (decide (shift <> 0)).
    - destruct (lsr_loop shift 0 u) as [r e] eqn:E.
      pose proof (pow2_pos shift).
      destruct (lsr_loop_spec shift 0 u r e) as (? & ? & _ & Hr); auto; [lia..|].
      rewrite Z.mul_0_l, Z.add_0_r in Hr. cbn [fst]. split_and!; auto. lia.
    - assert (shift = 0) as -> by lia. rewrite Z.div_1_r. auto. }
  split; [auto with word|]. split; [rewrite length_app, length_replicate; lia|].
  rewrite eval_app, eval_replicate_0, Hev, Z.mul_0_r, Z.add_0_r.
  unfold u. rewrite eval_drop by (auto; lia).
  rewrite Z.pow_add_r by lia. pose proof (modulus_pos move). pose proof (pow2_pos shift).
  by rewrite Z.div_div by (try apply modulus_pos; lia).
Qed.

(** ** Word-wise bitwise operators *)

Lemma testbit_split n x a i :
  0 <= n -> 0 <= x < 2 ^ n -> 0 <= i ->
  Z.testbit (x + 2 ^ n * a) i = if decide (i < n) then Z.testbit x i else Z.testbit a (i - n).
Proof.
  intros Hn Hx Hi. rewrite Z.add_comm, Z.mul_comm, <- lor_low_high by lia.
  rewrite Z.lor_spec. destruct (decide (i < n)).
  - by rewrite Z.mul_pow2_bits_low by lia.
  - rewrite Z.mul_pow2_bits by lia. rewrite <- (Z.mod_small x (2 ^ n)) by lia.
    by rewrite Z.mod_pow2_bits_high, orb_false_r by lia.
Qed.

Lemma testbit_word x a i :
  limb x -> 0 <= i -> Z.testbit (x + 2 ^ 64 * a) i = if decide (i < 64) then Z.testbit x i else Z.testbit a (i - 64).
Proof. unfold uword. intros. by apply testbit_split. Qed.

(** A binary operator on words that acts bit by bit acts bit by bit on the
    number of the array. *)
Section BitwiseOperator.
Context (op : Z -> Z -> Z) (f : bool -> bool -> bool).
Context (op_spec : forall a b i, 0 <= i -> Z.testbit (op a b) i = f (Z.testbit a i) (Z.testbit b i)).
Context (op_limb : forall a b, limb a -> limb b -> limb (op a b)).

Lemma limbs_zip_with a b : limbs a -> limbs b -> limbs (zip_with op a b).
Proof.
  intros Ha. revert b. induction Ha; intros b Hb; destruct Hb; simpl; constructor; auto.
Qed.

Lemma eval_zip_with a b :
  limbs a -> limbs b -> length a = length b -> op 0 0 = 0 -> eval (zip_with op a b) = op (eval a) (eval b).
Proof.
  intros Ha. revert b. induction Ha as [|x a Hx Ha IH]; intros b Hb Hlen H0; destruct Hb as [|y b Hy Hb];
    try done. cbn [zip_with eval]. rewrite IH by auto.
  apply Z.bits_inj'. intros i Hi. rewrite (op_spec (x + _)), !testbit_word by auto.
  destruct (decide (i < 64)); by rewrite op_spec by lia.
Qed.
End BitwiseOperator.

Lemma limb_bits a b (op : Z -> Z -> Z) f :
  (forall a b i, 0 <= i -> Z.testbit (op a b) i = f (Z.testbit a i) (Z.testbit b i)) ->
  f false false = false -> 0 <= op a b -> limb a -> limb b -> limb (op a b).
Proof.
  intros Hop Hf Hnn Ha Hb. unfold uword in *. split; [done|].
  destruct (decide (op a b = 0)) as [->|]; [done|]. apply Z.log2_lt_pow2; [lia|].
  apply Z.nle_gt. intros Hge.
  pose proof (Z.bit_log2 (op a b) ltac:(lia)) as Hbit. rewrite Hop in Hbit by apply Z.log2_nonneg.
  assert (forall x, 0 <= x < 2 ^ 64 -> Z.testbit x (Z.log2 (op a b)) = false) as Hhigh.
  { intros x Hx. rewrite <- (Z.mod_small x (2 ^ 64)) by lia. apply Z.mod_pow2_bits_high. lia. }
  rewrite !Hhigh, Hf in Hbit by lia. done.
Qed.

Lemma limb_land a b : limb a -> limb b -> limb (Z.land a b).
Proof.
  intros Ha Hb. apply (limb_bits a b Z.land andb); auto; [intros; apply Z.land_spec|].
  apply Z.land_nonneg. unfold uword in *. lia.
Qed.

Lemma limb_lor a b : limb a -> limb b -> limb (Z.lor a b).
Proof.
  intros Ha Hb. apply (limb_bits a b Z.lor orb); auto; [intros; apply Z.lor_spec|].
  apply Z.lor_nonneg. unfold uword in *. lia.
Qed.

Lemma limb_lxor a b : limb a -> limb b -> limb (Z.lxor a b).
Proof.
  intros Ha Hb. apply (limb_bits a b Z.lxor xorb); auto; [intros; apply Z.lxor_spec|].
  apply Z.lxor_nonneg. unfold uword in *. lia.
Qed.

Lemma limb_lnot x : limb x -> wrap 64 (Z.lnot x) = 2 ^ 64 - 1 - x.
Proof.
  unfold uword, wrap. intros. apply mod_unique_pow with (-1); [lia|]. unfold Z.lnot. lia.
Qed.

Lemma eval_lnot l :
  limbs l -> limbs ((fun x => wrap 64 (Z.lnot x)) <$> l) /\
  eval ((fun x => wrap 64 (Z.lnot x)) <$> l) = modulus (length l) - 1 - eval l.
Proof.
  induction 1 as [|x l Hx Hl [IHl IH]]; [done|]. rewrite fmap_cons. split.
  - constructor; auto with word.
  - cbn [eval length]. rewrite IH, limb_lnot, modulus_S by done. ring.
Qed.
