(* ===== verification/BigLoops.v ===== *)
(** * The multiplication and division loops of the big integers

    [uint512_t] and [int512_t] multiply and divide with the same shift-and-add
    and shift-and-subtract loops, written over the methods of each class.  The
    loops are modelled once, over the interface [BigintOps]; their theorems are
    proved against the laws an implementation promises ([ModularLaws] for the
    multiplication, [MagnitudeLaws] for the division), which Uint512.v and
    Int512.v discharge for the two classes. *)

From S2P Require Import Prelude Limbs.

(** The methods the loops call. *)
Class BigintOps (T : Type) := {
  big_zero : T;
  big_one : T;
  big_lsl : T -> Z -> result T;
  big_shr : T -> Z -> result T;
  big_is_zero : T -> bool;
  big_low_bit : T -> Z;
  big_compare : T -> T -> Z;
  big_add_assign : T -> T -> T;
  big_sub_assign : T -> T -> T;
}.

Section Loops.
Context {T : Type} `{BigintOps T}.

(** The endless loop of [operator *=], left once [factor] is zero. *)
Fixpoint mul_loop (fuel : nat) (v lhs factor : T) : result T :=
  match fuel with
  | O => Throw fuel_exhausted
  | S fuel =>
      let! factor := big_shr factor 1 in
      if big_is_zero factor then Ok v
      else
        let! lhs := big_lsl lhs 1 in
        let v := if decide (big_low_bit factor <> 0) then big_add_assign v lhs else v in
        mul_loop fuel v lhs factor
  end.

(** [operator *=]; a factor has 512 bits, hence the fuel. *)
Definition mul_assign (v rhs : T) : result T :=
  let lhs := v in
  let factor := rhs in
  let v := if decide (big_low_bit factor = 0) then big_zero else v in
  mul_loop 512 v lhs factor.

(** The loop of [div()]: [gap] iterations on the quotient, the remainder and
    the divisor. *)
Fixpoint div_loop (gap : nat) (q remainder divisor : T) : result (T * T) :=
  match gap with
  | O => Ok (q, remainder)
  | S gap =>
      let! q := big_lsl q 1 in
      let c := big_compare remainder divisor in
      let '(q, remainder) :=
        if decide (c >= 0)
        then (big_add_assign q big_one, big_sub_assign remainder divisor)
        else (q, remainder) in
      let! divisor := big_shr divisor 1 in
      div_loop gap q remainder divisor
  end.
End Loops.

(** ** The promise behind the multiplication: arithmetic modulo 2^512 *)

Class ModularLaws (T : Type) `{BigintOps T} := {
  mod_ok : T -> Prop;
  mod_num : T -> Z;
  mod_range v : mod_ok v -> 0 <= mod_num v < 2 ^ 512;
  mod_zero : mod_ok big_zero /\ mod_num big_zero = 0;
  mod_lsl v : mod_ok v -> exists r, big_lsl v 1 = Ok r /\ mod_ok r /\ mod_num r = (mod_num v * 2) mod 2 ^ 512;
  mod_shr v : mod_ok v -> exists r, big_shr v 1 = Ok r /\ mod_ok r /\ mod_num r = mod_num v / 2;
  mod_is_zero v : mod_ok v -> big_is_zero v = true <-> mod_num v = 0;
  mod_low_bit v : mod_ok v -> big_low_bit v = mod_num v mod 2;
  mod_add v w : mod_ok v -> mod_ok w ->
    mod_ok (big_add_assign v w) /\ mod_num (big_add_assign v w) = (mod_num v + mod_num w) mod 2 ^ 512;
}.

Section MulCorrect.
Context {T : Type} `{ModularLaws T}.

Lemma mul_loop_value fuel v l f :
  mod_ok v -> mod_ok l -> mod_ok f -> (0 < fuel)%nat -> mod_num f < 2 ^ Z.of_nat fuel ->
  exists r, mul_loop fuel v l f = Ok r /\ mod_ok r /\
            mod_num r = (mod_num v + mod_num l * (2 * (mod_num f / 2))) mod 2 ^ 512.
Proof.
  revert v l f. induction fuel as [|fuel IH]; intros v l f Hv Hl Hf Hfuel Hbound; [lia|].
  cbn [mul_loop].
  destruct (mod_shr f Hf) as (f' & -> & Hf' & Hfv). cbn [result_bind].
  pose proof (mod_range f' Hf') as Hfb. pose proof (mod_range v Hv) as Hvb.
  destruct (big_is_zero f') eqn:Hz.
  - apply mod_is_zero in Hz; [|done]. exists v. split_and!; [done..|].
    rewrite <- Hfv, Hz, !Z.mul_0_r, Z.add_0_r, Z.mod_small; done.
  - assert (mod_num f' <> 0) as Hnz by (rewrite <- mod_is_zero by done; by rewrite Hz).
    destruct (mod_lsl l Hl) as (l' & -> & Hl' & Hlv). cbn [result_bind].
    rewrite mod_low_bit by done. rewrite Nat2Z.inj_succ, Z.pow_succ_r in Hbound by lia.
    set (v' := if decide _ then _ else _).
    assert (mod_ok v' /\ mod_num v' = (mod_num v + (mod_num f' mod 2) * mod_num l') mod 2 ^ 512) as [Hv' Hvv].
    { unfold v'. pose proof (Z.mod_pos_bound (mod_num f') 2 ltac:(lia)). destruct (decide _).
      - destruct (mod_add v l') as [? ->]; auto.
        split; [done|]. f_equal. replace (mod_num f' mod 2) with 1 by lia. lia.
      - split; [done|]. replace (mod_num f' mod 2) with 0 by lia.
        rewrite Z.mul_0_l, Z.add_0_r, Z.mod_small; done. }
    pose proof (Z.div_mod (mod_num f) 2 ltac:(lia)) as Hd. pose proof (Z.mod_pos_bound (mod_num f) 2 ltac:(lia)).
    destruct (IH v' l' f') as (r & -> & Hr & Hrv); auto; [destruct fuel; [|lia]|lia|].
    { change (2 ^ Z.of_nat 0) with 1 in Hbound. lia. }
    exists r. split_and!; [done..|]. rewrite Hrv, Hvv, Hlv, <- Hfv.
    rewrite Zplus_mod_idemp_l.
    rewrite <- Z.add_assoc. rewrite <- (Zplus_mod_idemp_r (_ + _)).
    replace (mod_num f' mod 2 * ((mod_num l * 2) mod 2 ^ 512) + (mod_num l * 2) mod 2 ^ 512 * (2 * (mod_num f' / 2)))
      with ((mod_num l * 2) mod 2 ^ 512 * mod_num f').
    2:{ pose proof (Z.div_mod (mod_num f') 2 ltac:(lia)) as Hd'. rewrite Hd' at 1. ring. }
    rewrite Zmult_mod_idemp_l, Zplus_mod_idemp_r. f_equal. ring.
Qed.

Lemma mul_assign_value v w :
  mod_ok v -> mod_ok w ->
  exists r, mul_assign v w = Ok r /\ mod_ok r /\ mod_num r = (mod_num v * mod_num w) mod 2 ^ 512.
Proof.
  intros Hv Hw. unfold mul_assign. rewrite mod_low_bit by done.
  set (v0 := if decide _ then _ else _).
  assert (mod_ok v0 /\ mod_num v0 = (mod_num w mod 2) * mod_num v) as [Hv0 Hvv].
  { unfold v0. pose proof (Z.mod_pos_bound (mod_num w) 2 ltac:(lia)). destruct (decide _) as [->|].
    - apply mod_zero.
    - split; [done|]. replace (mod_num w mod 2) with 1 by lia. lia. }
  pose proof (mod_range w Hw).
  destruct (mul_loop_value 512 v0 v w) as (r & -> & Hr & Hrv); auto; [lia|lia|].
  exists r. split_and!; [done..|]. rewrite Hrv, Hvv. f_equal.
  pose proof (Z.div_mod (mod_num w) 2 ltac:(lia)) as Hd. rewrite Hd at 3. ring.
Qed.
End MulCorrect.

(** ** The promise behind the division: exact arithmetic below a limit *)

Class MagnitudeLaws (T : Type) `{BigintOps T} := {
  mag_ok : T -> Prop;
  mag_num : T -> Z;
  mag_limit : Z;
  mag_range v : mag_ok v -> 0 <= mag_num v < mag_limit;
  mag_one : mag_ok big_one /\ mag_num big_one = 1;
  mag_lsl v : mag_ok v -> mag_num v * 2 < mag_limit ->
    exists r, big_lsl v 1 = Ok r /\ mag_ok r /\ mag_num r = mag_num v * 2;
  mag_shr v : mag_ok v -> exists r, big_shr v 1 = Ok r /\ mag_ok r /\ mag_num r = mag_num v / 2;
  mag_compare v w : mag_ok v -> mag_ok w -> big_compare v w = Z.sgn (mag_num v - mag_num w);
  mag_add v w : mag_ok v -> mag_ok w -> mag_num v + mag_num w < mag_limit ->
    mag_ok (big_add_assign v w) /\ mag_num (big_add_assign v w) = mag_num v + mag_num w;
  mag_sub v w : mag_ok v -> mag_ok w -> mag_num w <= mag_num v ->
    mag_ok (big_sub_assign v w) /\ mag_num (big_sub_assign v w) = mag_num v - mag_num w;
}.

Section DivCorrect.
Context {T : Type} `{MagnitudeLaws T}.

Lemma div_rem_step b d q R g D :
  0 < b -> D = b * 2 ^ g -> 0 <= g -> 0 <= R - d * D ->
  (2 * q + d) * 2 ^ g + (R - d * D) / b = q * 2 ^ (g + 1) + R / b /\ (R - d * D) mod b = R mod b.
Proof.
  intros Hb -> Hg HR. rewrite Z.pow_add_r by lia.
  replace (R - d * (b * 2 ^ g)) with (R + (- (d * 2 ^ g)) * b) by ring.
  rewrite Z.div_add, Z.mod_add by lia. split; [ring|done].
Qed.

(** One iteration subtracts the divisor at most once. *)
Lemma div_step_spec q R D :
  mag_ok q -> mag_ok R -> mag_ok D -> mag_num q + 1 < mag_limit ->
  exists d q2 R2,
    (if decide (big_compare R D >= 0) then (big_add_assign q big_one, big_sub_assign R D) else (q, R)) = (q2, R2) /\
    0 <= d <= 1 /\ mag_ok q2 /\ mag_ok R2 /\ mag_num q2 = mag_num q + d /\
    mag_num R2 = mag_num R - d * mag_num D /\ (mag_num R < 2 * mag_num D -> mag_num R2 < mag_num D).
Proof.
  intros Hq HR HD Hlim. rewrite mag_compare by done. destruct mag_one as [Hone Hone1].
  pose proof (Z.sgn_spec (mag_num R - mag_num D)) as Hsgn.
  destruct (decide _) as [Hs|Hs]; eexists _, _, _; (split; [reflexivity|]).
  - destruct (mag_add q big_one) as [? ->]; [done..|lia|].
    destruct (mag_sub R D) as [? ->]; [done..|lia|]. rewrite Hone1.
    instantiate (1 := 1). split_and!; auto; lia.
  - instantiate (1 := 0). split_and!; auto; lia.
Qed.

Lemma div_loop_value g b q R D :
  mag_ok q -> mag_ok R -> mag_ok D -> 0 < b ->
  (g <> 0%nat -> mag_num D = b * 2 ^ (Z.of_nat g - 1)) ->
  mag_num R < b * 2 ^ Z.of_nat g -> (mag_num q + 1) * 2 ^ Z.of_nat g <= mag_limit ->
  exists q' r', div_loop g q R D = Ok (q', r') /\ mag_ok q' /\ mag_ok r' /\
    mag_num q' = mag_num q * 2 ^ Z.of_nat g + mag_num R / b /\ mag_num r' = mag_num R mod b.
Proof.
  revert q R D. induction g as [|g IH]; intros q R D Hq HR HD Hb HDv HRb Hqb.
  - exists q, R. cbn [div_loop]. change (2 ^ Z.of_nat 0) with 1 in *.
    pose proof (mag_range R HR). rewrite Z.div_small, Z.mod_small by lia. split_and!; auto. lia.
  - specialize (HDv ltac:(lia)). replace (Z.of_nat (S g) - 1) with (Z.of_nat g) in HDv by lia.
    rewrite Nat2Z.inj_succ, Z.pow_succ_r in HRb, Hqb by lia.
    pose proof (pow2_pos (Z.of_nat g) ltac:(lia)). pose proof (mag_range q Hq). pose proof (mag_range R HR).
    cbn [div_loop].
    destruct (mag_lsl q) as (q1 & -> & Hq1 & Hq1v); [done|nia|]. cbn [result_bind].
    destruct (mag_shr D HD) as (D1 & -> & HD1 & HD1v).
    destruct (div_step_spec q1 R D) as (d & q2 & R2 & -> & Hd & Hq2 & HR2 & Hq2v & HR2v & HR2b); [done..|nia|].
    cbn [result_bind]. specialize (HR2b ltac:(nia)). pose proof (mag_range R2 HR2).
    destruct (div_rem_step b d (mag_num q) (mag_num R) (Z.of_nat g) (mag_num D)) as [E1 E2]; [lia..|].
    destruct (IH q2 R2 D1) as (q' & r' & -> & ? & ? & Hqv & Hrv); auto.
    { intros Hg. rewrite HD1v, HDv. replace (Z.of_nat g) with (Z.of_nat g - 1 + 1) at 1 by lia.
      rewrite Z.pow_add_r, Z.mul_assoc by lia. apply Z.div_mul. lia. }
    { lia. }
    { rewrite Hq2v. nia. }
    exists q', r'. split_and!; auto; rewrite ?Hqv, ?Hrv, ?Hq2v, ?HR2v; [|done].
    rewrite Hq1v, (Z.mul_comm (mag_num q) 2), E1. by replace (Z.of_nat (S g)) with (Z.of_nat g + 1) by lia.
Qed.
End DivCorrect.

(** ** Number of significant bits *)

Definition bits (x : Z) : Z := if decide (x = 0) then 0 else Z.log2 x + 1.

Lemma bits_spec x : 0 <= x -> 0 <= bits x /\ x < 2 ^ bits x /\ (x <> 0 -> 2 ^ (bits x - 1) <= x).
Proof.
  intros. unfold bits. destruct (decide (x = 0)) as [->|]; [done|].
  pose proof (Z.log2_spec x). pose proof (Z.log2_nonneg x).
  replace (Z.log2 x + 1 - 1) with (Z.log2 x) by lia. unfold Z.succ in *. lia.
Qed.

Lemma bits_mono x y : 0 <= x <= y -> bits x <= bits y.
Proof.
  intros. unfold bits. pose proof (Z.log2_nonneg y).
  destruct (decide (x = 0)), (decide (y = 0)); try lia.
  pose proof (Z.log2_le_mono x y). lia.
Qed.

Lemma bits_pos x : 0 < x -> 0 < bits x.
Proof. intros. unfold bits. rewrite decide_False by lia. pose proof (Z.log2_nonneg x). lia. Qed.

Lemma bits_le x n : 0 <= n -> 0 <= x < 2 ^ n -> bits x <= n.
Proof.
  intros. unfold bits. destruct (decide (x = 0)); [lia|].
  assert (Z.log2 x < n) by (apply Z.log2_lt_pow2; lia). lia.
Qed.

(** The set-up of the division loop: the divisor aligned on the dividend. *)
Lemma div_gap a b n :
  0 < b < a -> a < 2 ^ n -> 0 <= n ->
  let gap := bits a - bits b in
  0 <= gap /\ b * 2 ^ gap < 2 ^ n /\ a < b * 2 ^ (gap + 1) /\ 2 ^ (gap + 1) <= 2 ^ n.
Proof.
  intros Hb Ha Hn gap. pose proof (bits_mono b a ltac:(lia)). pose proof (bits_le a n Hn ltac:(lia)).
  pose proof (bits_pos b ltac:(lia)).
  pose proof (bits_spec a ltac:(lia)) as (_ & Ha1 & _). pose proof (bits_spec b ltac:(lia)) as (_ & Hb1 & Hb2).
  specialize (Hb2 ltac:(lia)). assert (0 <= gap) by lia. pose proof (pow2_pos gap ltac:(lia)).
  pose proof (pow2_pos (gap + 1) ltac:(lia)). pose proof (Z.pow_le_mono_r 2 (bits a) n).
  assert (2 ^ bits a = 2 ^ bits b * 2 ^ gap) by (rewrite <- Z.pow_add_r by lia; f_equal; lia).
  assert (2 ^ bits a = 2 ^ (bits b - 1) * 2 ^ (gap + 1)) by (rewrite <- Z.pow_add_r by lia; f_equal; lia).
  split_and!; [lia | nia | nia |]. apply Z.pow_le_mono_r; lia.
Qed.
