(* ===== verification/Uint512.v ===== *)
(** * uint512_t: unsigned 512-bit integers (prinbee/bigint/uint512.cpp)

    An object is its array of eight 64-bit words.  A method that changes the
    object returns the new object; a method that may throw returns a [result].
    The theorems relate every operation to the number [uval] of the object. *)

From S2P Require Import Prelude Limbs BigLoops.

(** ** The object *)

Record uint512_t := Uint512 { uf_value : list Z }.

#[export] Instance uint512_eq_dec : EqDecision uint512_t.
Proof. solve_decision. Defined.

(** Eight words of 64 bits. *)
Definition uint512_wf (v : uint512_t) : Prop := length (uf_value v) = 8%nat /\ limbs (uf_value v).

#[export] Instance uint512_wf_dec v : Decision (uint512_wf v).
Proof. unfold uint512_wf. apply _. Defined.

(** The number an object denotes. *)
Definition uval (v : uint512_t) : Z := eval (uf_value v).

(** ** Constructors *)

(** [uint512_t()] and [zero()] *)
Definition uint512_zero : uint512_t := Uint512 (replicate 8 0).

(** [uint512_t(std::initializer_list<std::uint64_t>)] *)
Definition uint512_of_list (rhs : list Z) : result uint512_t :=
  if decide (8 < length rhs)%nat then Throw out_of_range
  else Ok (Uint512 (rhs ++ replicate (8 - length rhs) 0)).

(** [uint512_t(std::uint64_t)] *)
Definition uint512_of_u64 (rhs : Z) : uint512_t := Uint512 (rhs :: replicate 7 0).

(** ** Bits and shifts *)

(** The loop of [bit_size()], from the highest word down. *)
Fixpoint uint512_bit_size_loop (idx : nat) (result : Z) (w : list Z) : Z :=
  match idx with
  | O => 0
  | S i =>
      let result := result - 64 in
      if decide (w !!! i <> 0) then (64 - clzll (w !!! i)) + result
      else uint512_bit_size_loop i result w
  end.

Definition uint512_bit_size (v : uint512_t) : Z := uint512_bit_size_loop 8 512 (uf_value v).

Definition uint512_lsl (v : uint512_t) (count : Z) : result uint512_t :=
  if decide (count < 0) then Throw out_of_range
  else if decide (count >= 512) then Ok uint512_zero
  else if decide (count = 0) then Ok v
  else
    let move := Z.to_nat (count / 64) in
    let shift := count mod 64 in
    let w := uf_value v in
    let w := if decide (0 < move)%nat
             then
               let pos := (8 - move)%nat in
               let w := if decide (move < 8)%nat then memmove w move 0 pos else w in
               memset w 0 0 move
             else w in
    let w := if decide (shift <> 0)
             then take move w ++ lsl_loop shift 0 (drop move w)
             else w in
    Ok (Uint512 w).

Definition uint512_lsr (v : uint512_t) (count : Z) : result uint512_t :=
  if decide (count < 0) then Throw out_of_range
  else if decide (count >= 512) then Ok uint512_zero
  else if decide (count = 0) then Ok v
  else
    let move := Z.to_nat (count / 64) in
    let shift := count mod 64 in
    let pos := (8 - move)%nat in
    let w := uf_value v in
    let w := if decide (0 < move)%nat
             then
               let w := if decide (move < 8)%nat then memmove w 0 move pos else w in
               memset w pos 0 move
             else w in
    let w := if decide (shift <> 0)
             then fst (lsr_loop shift 0 (take pos w)) ++ drop pos w
             else w in
    Ok (Uint512 w).

Definition uint512_is_zero (v : uint512_t) : bool := forallb (Z.eqb 0) (take 8 (uf_value v)).

Definition uint512_compare (v rhs : uint512_t) : Z := compare_loop 8 (uf_value v) (uf_value rhs).

(** ** Additions and subtractions *)

(** [operator + (uint512_t const &)], by the generic routine. *)
Definition uint512_add (v rhs : uint512_t) : uint512_t :=
  Uint512 (fst (asm_add (uf_value v) (uf_value rhs) 8)).

(** [operator += (uint512_t const &)], by the in-place routine. *)
Definition uint512_add_assign (v rhs : uint512_t) : uint512_t :=
  Uint512 (asm_add512 (uf_value v) (uf_value rhs)).

(** [operator += (std::uint64_t)] *)
Definition uint512_add_assign_u64 (v : uint512_t) (rhs : Z) : uint512_t :=
  uint512_add_assign v (uint512_of_u64 rhs).

Definition uint512_sub (v rhs : uint512_t) : uint512_t :=
  Uint512 (fst (asm_sub (uf_value v) (uf_value rhs) 8)).

Definition uint512_sub_assign (v rhs : uint512_t) : uint512_t :=
  Uint512 (asm_sub512 (uf_value v) (uf_value rhs)).

(** [operator - () const] *)
Definition uint512_neg (v : uint512_t) : uint512_t := uint512_sub_assign uint512_zero v.

(** ** Multiplication and division *)

(** The lowest bit of the object: [f_value[0] & 1]. *)
Definition uint512_low_bit (v : uint512_t) : Z := Z.land (uf_value v !!! 0%nat) 1.

(** The methods the loops of the two operators call. *)
#[export] Instance uint512_ops : BigintOps uint512_t := {
  big_zero := uint512_zero;
  big_one := uint512_of_u64 1;
  big_lsl := uint512_lsl;
  big_shr := uint512_lsr;
  big_is_zero := uint512_is_zero;
  big_low_bit := uint512_low_bit;
  big_compare := uint512_compare;
  big_add_assign := uint512_add_assign;
  big_sub_assign := uint512_sub_assign;
}.

(** [operator *=] *)
Definition uint512_mul_assign (v rhs : uint512_t) : result uint512_t := mul_assign v rhs.

(** [operator *= (std::uint64_t)] *)
Definition uint512_mul_assign_u64 (v : uint512_t) (rhs : Z) : result uint512_t :=
  uint512_mul_assign v (uint512_of_u64 rhs).

(** [div(rhs, remainder)]: the quotient (the new object) and the remainder. *)
Definition uint512_div (v rhs : uint512_t) : result (uint512_t * uint512_t) :=
  if uint512_is_zero rhs then Throw logic_error
  else
    let c := uint512_compare v rhs in
    if decide (c = -1) then Ok (uint512_zero, v)
    else if decide (c = 0) then Ok (uint512_of_u64 1, uint512_zero)
    else
      let lhs_size := uint512_bit_size v in
      let rhs_size := uint512_bit_size rhs in
      let gap := lhs_size - rhs_size in
      let! divisor := uint512_lsl rhs gap in
      div_loop (Z.to_nat (gap + 1)) uint512_zero v divisor.

(** [operator /] and [operator /=]: the quotient only. *)
Definition uint512_quot (v rhs : uint512_t) : result uint512_t :=
  let! '(q, _) := uint512_div v rhs in Ok q.

(** [operator %=]: the remainder only. *)
Definition uint512_mod_assign (v rhs : uint512_t) : result uint512_t :=
  let! '(_, remainder) := uint512_div v rhs in Ok remainder.

(** ** Bitwise operators *)

Definition uint512_not (v : uint512_t) : uint512_t :=
  Uint512 ((fun x => wrap 64 (Z.lnot x)) <$> uf_value v).
Definition uint512_and (v rhs : uint512_t) : uint512_t := Uint512 (zip_with Z.land (uf_value v) (uf_value rhs)).
Definition uint512_or (v rhs : uint512_t) : uint512_t := Uint512 (zip_with Z.lor (uf_value v) (uf_value rhs)).
Definition uint512_xor (v rhs : uint512_t) : uint512_t := Uint512 (zip_with Z.lxor (uf_value v) (uf_value rhs)).

(** [operator & (std::uint64_t)]: the higher words of the result are zero. *)
Definition uint512_and_u64 (v : uint512_t) (rhs : Z) : uint512_t :=
  Uint512 (Z.land (uf_value v !!! 0%nat) rhs :: replicate 7 0).
Definition uint512_or_u64 (v : uint512_t) (rhs : Z) : uint512_t :=
  Uint512 (<[0%nat := Z.lor (uf_value v !!! 0%nat) rhs]> (uf_value v)).
Definition uint512_xor_u64 (v : uint512_t) (rhs : Z) : uint512_t :=
  Uint512 (<[0%nat := Z.lxor (uf_value v !!! 0%nat) rhs]> (uf_value v)).

(** ** Comparisons *)

Definition uint512_eqb (v rhs : uint512_t) : bool :=
  forallb (fun idx => Z.eqb (uf_value v !!! idx) (uf_value rhs !!! idx)) (seq 0 8).
Definition uint512_eqb_u64 (v : uint512_t) (rhs : Z) : bool :=
  Z.eqb (uf_value v !!! 0%nat) rhs && forallb (fun idx => Z.eqb (uf_value v !!! idx) 0) (seq 1 7).
Definition uint512_neb (v rhs : uint512_t) : bool :=
  existsb (fun idx => negb (Z.eqb (uf_value v !!! idx) (uf_value rhs !!! idx))) (seq 0 8).
Definition uint512_neb_u64 (v : uint512_t) (rhs : Z) : bool :=
  negb (Z.eqb (uf_value v !!! 0%nat) rhs) || existsb (fun idx => negb (Z.eqb (uf_value v !!! idx) 0)) (seq 1 7).
Definition uint512_ltb (v rhs : uint512_t) : bool := bool_decide (uint512_compare v rhs < 0).
Definition uint512_leb (v rhs : uint512_t) : bool := bool_decide (uint512_compare v rhs <= 0).
Definition uint512_gtb (v rhs : uint512_t) : bool := bool_decide (uint512_compare v rhs > 0).
Definition uint512_geb (v rhs : uint512_t) : bool := bool_decide (uint512_compare v rhs >= 0).

Example uint512_div_small :
  uint512_div (uint512_of_u64 1000) (uint512_of_u64 7) = Ok (uint512_of_u64 142, uint512_of_u64 6).
Proof. vm_compute. reflexivity. Qed.

Example uint512_mul_small :
  uint512_mul_assign (uint512_of_u64 (2 ^ 63)) (uint512_of_u64 6) = uint512_of_list [0; 3].
Proof. vm_compute. reflexivity. Qed.

(** ** Well-formedness and values *)

Lemma modulus_8 : modulus 8 = 2 ^ 512.
Proof. done. Qed.

Lemma uval_bound v : uint512_wf v -> 0 <= uval v < 2 ^ 512.
Proof. intros [Hlen Hl]. pose proof (eval_bound _ Hl) as H. by rewrite Hlen, modulus_8 in H. Qed.

Lemma uval_inj v w : uint512_wf v -> uint512_wf w -> uval v = uval w -> v = w.
Proof.
  destruct v as [a], w as [b]. intros [? ?] [? ?] ?. f_equal.
  apply eval_inj; auto. cbn [uf_value] in *. congruence.
Qed.

Lemma uint512_zero_wf : uint512_wf uint512_zero.
Proof. closed_decide. Qed.

Lemma uint512_of_u64_wf x : uword 64 x -> uint512_wf (uint512_of_u64 x).
Proof. intros. split; [done|]. constructor; [done | apply limbs_replicate_0]. Qed.

Lemma uval_of_u64 x : uval (uint512_of_u64 x) = x.
Proof. unfold uval, uint512_of_u64. cbn [uf_value eval replicate]. lia. Qed.

#[export] Hint Resolve uint512_zero_wf uint512_of_u64_wf : word.

Lemma uint512_of_list_spec l v :
  limbs l -> uint512_of_list l = Ok v -> uint512_wf v /\ uval v = eval l.
Proof.
  unfold uint512_of_list. intros Hl. destruct (decide _); [done|]. intros [= <-].
  split.
  - split; cbn [uf_value]; [rewrite length_app, length_replicate; lia | auto with word].
  - unfold uval. cbn [uf_value]. rewrite eval_app, eval_replicate_0. lia.
Qed.

Lemma mul_pow2_mod_512 x n : 512 <= n -> (x * 2 ^ n) mod 2 ^ 512 = 0.
Proof.
  intros. rewrite (pow2_split 512 n) by lia.
  rewrite (Z.mul_comm (2 ^ 512)), Z.mul_assoc. apply Z.mod_mul. lia.
Qed.

Lemma div_pow2_512 x n : 0 <= x < 2 ^ 512 -> 512 <= n -> x / 2 ^ n = 0.
Proof.
  intros. apply Z.div_small. pose proof (Z.pow_le_mono_r 2 512 n). lia.
Qed.

(** The two shifts, for every non negative count. *)
Lemma uint512_lsl_value v n :
  uint512_wf v -> 0 <= n ->
  exists r, uint512_lsl v n = Ok r /\ uint512_wf r /\ uval r = (uval v * 2 ^ n) mod 2 ^ 512.
Proof.
  intros [Hlen Hl] Hn. unfold uint512_lsl.
  rewrite decide_False by lia. destruct (decide (n >= 512)).
  { eexists. split; [done|]. split; [auto with word|]. rewrite mul_pow2_mod_512 by lia. done. }
  destruct (decide (n = 0)) as [->|].
  { exists v. rewrite Z.mul_1_r, Z.mod_small by (by apply uval_bound). done. }
  set (m := Z.to_nat (n / 64)). eexists. split; [done|].
  pose proof (Z.div_mod n 64 ltac:(lia)). pose proof (Z.mod_pos_bound n 64 ltac:(lia)).
  assert (m < 8)%nat by (unfold m; lia).
  edestruct (lsl_words_spec (uf_value v)) with (n := 8%nat) (move := m) (shift := n mod 64)
    as (Hwr & Hlr & Hvr); [auto..|lia|lia| |reflexivity|].
  2:{ split; [by split|]. unfold uval. cbn [uf_value]. rewrite Hvr, modulus_8.
      repeat f_equal. unfold m. lia. }
  destruct (decide (0 < m)%nat).
  - rewrite decide_True by done. rewrite <- Hlen. apply move_up_words. lia.
  - assert (m = 0%nat) as -> by lia. symmetry. apply take_ge. lia.
Qed.

Lemma uint512_lsr_value v n :
  uint512_wf v -> 0 <= n ->
  exists r, uint512_lsr v n = Ok r /\ uint512_wf r /\ uval r = uval v / 2 ^ n.
Proof.
  intros Hv Hn. pose proof (uval_bound v Hv) as Hb. destruct Hv as [Hlen Hl]. unfold uint512_lsr.
  rewrite decide_False by lia. destruct (decide (n >= 512)).
  { eexists. split; [done|]. split; [auto with word|]. by rewrite div_pow2_512 by lia. }
  destruct (decide (n = 0)) as [->|].
  { exists v. by rewrite Z.div_1_r. }
  set (m := Z.to_nat (n / 64)). eexists. split; [done|].
  pose proof (Z.div_mod n 64 ltac:(lia)). pose proof (Z.mod_pos_bound n 64 ltac:(lia)).
  assert (m < 8)%nat by (unfold m; lia).
  edestruct (lsr_words_spec (uf_value v)) with (n := 8%nat) (move := m) (shift := n mod 64)
    as (Hwr & Hlr & Hvr); [auto..|lia|lia| |reflexivity|].
  2:{ split; [by split|]. unfold uval. cbn [uf_value]. rewrite Hvr.
      repeat f_equal. unfold m. lia. }
  destruct (decide (0 < m)%nat).
  - rewrite decide_True by done. rewrite <- Hlen. apply move_down_words. lia.
  - assert (m = 0%nat) as -> by lia. rewrite drop_0. symmetry. apply app_nil_r.
Qed.

(** ** Comparisons, zero and bit size *)

Lemma uint512_compare_value v w :
  uint512_wf v -> uint512_wf w -> uint512_compare v w = Z.sgn (uval v - uval w).
Proof.
  intros [Hv ?] [Hw ?]. unfold uint512_compare, uval. rewrite compare_loop_spec by (auto; lia).
  by rewrite !take_ge by lia.
Qed.

Lemma eval_zero_iff l : limbs l -> eval l = 0 <-> forallb (Z.eqb 0) l = true.
Proof.
  induction 1 as [|x l Hx Hl IH]; [done|]. cbn [eval forallb].
  pose proof (eval_bound l Hl) as [? _]. unfold uword in Hx. rewrite andb_true_iff, <- IH. lia.
Qed.

Lemma uint512_is_zero_value v : uint512_wf v -> uint512_is_zero v = true <-> uval v = 0.
Proof.
  intros [Hv ?]. unfold uint512_is_zero, uval. rewrite take_ge by lia. by rewrite eval_zero_iff.
Qed.

Lemma uint512_is_zero_false v : uint512_wf v -> uint512_is_zero v = false <-> uval v <> 0.
Proof. intros. rewrite <- uint512_is_zero_value by done. by rewrite not_true_iff_false. Qed.

Lemma uint512_bit_size_loop_spec n w :
  limbs w -> (n <= length w)%nat ->
  uint512_bit_size_loop n (64 * Z.of_nat n) w = bits (eval (take n w)).
Proof.
  intros Hw. induction n as [|n IH]; intros Hn; [done|]. cbn [uint512_bit_size_loop].
  replace (64 * Z.of_nat (S n) - 64) with (64 * Z.of_nat n) by lia.
  rewrite eval_take_S by lia. pose proof (eval_take_bound w n Hw ltac:(lia)) as Hb.
  pose proof (limbs_lookup_total w n Hw ltac:(lia)) as Hx. unfold uword in Hx.
  destruct (decide (w !!! n <> 0)).
  - pose proof (clzll_spec (w !!! n)). unfold bits, modulus in *. rewrite decide_False by nia.
    rewrite log2_top_word by lia. lia.
  - assert (w !!! n = 0) as -> by lia. rewrite Z.mul_0_r, Z.add_0_r. apply IH. lia.
Qed.

Lemma uint512_bit_size_value v : uint512_wf v -> uint512_bit_size v = bits (uval v).
Proof.
  intros [Hv ?]. unfold uint512_bit_size, uval.
  rewrite <- (take_ge (uf_value v) 8) at 2 by lia.
  apply uint512_bit_size_loop_spec; auto. lia.
Qed.

(** ** Additions and subtractions *)

Lemma uint512_add_value v w :
  uint512_wf v -> uint512_wf w ->
  uint512_wf (uint512_add v w) /\ uval (uint512_add v w) = (uval v + uval w) mod 2 ^ 512.
Proof.
  intros [Hv1 Hv2] [Hw1 Hw2]. unfold uint512_add, uval, uint512_wf. cbn [uf_value].
  destruct (asm_add _ _ 8) as [r cf] eqn:E. cbn [fst].
  pose proof (asm_add_mod _ _ _ _ _ Hv2 Hw2 Hv1 Hw1 E) as ->.
  destruct (asm_add_spec _ _ _ _ _ Hv2 Hw2 Hv1 Hw1 E) as (? & ? & _).
  by rewrite modulus_8.
Qed.

Lemma uint512_sub_value v w :
  uint512_wf v -> uint512_wf w ->
  uint512_wf (uint512_sub v w) /\ uval (uint512_sub v w) = (uval v - uval w) mod 2 ^ 512.
Proof.
  intros [Hv1 Hv2] [Hw1 Hw2]. unfold uint512_sub, uval, uint512_wf. cbn [uf_value].
  destruct (asm_sub _ _ 8) as [r cf] eqn:E. cbn [fst].
  pose proof (asm_sub_mod _ _ _ _ _ Hv2 Hw2 Hv1 Hw1 E) as ->.
  destruct (asm_sub_spec _ _ _ _ _ Hv2 Hw2 Hv1 Hw1 E) as (? & ? & _).
  by rewrite modulus_8.
Qed.

Lemma uint512_add_assign_add v w : uint512_add_assign v w = uint512_add v w.
Proof. done. Qed.

Lemma uint512_sub_assign_sub v w : uint512_sub_assign v w = uint512_sub v w.
Proof. done. Qed.

(** ** Multiplication and division: the laws behind the loops *)

Lemma land_1_mod x : Z.land x 1 = x mod 2.
Proof. exact (land_ones_pow x 1 ltac:(lia)). Qed.

Lemma eval_mod_2 l : (0 < length l)%nat -> Z.land (l !!! 0%nat) 1 = eval l mod 2.
Proof.
  rewrite land_1_mod. destruct l as [|x l]; [simpl; lia|]. intros _. cbn [eval].
  change (2 ^ 64) with (2 * 2 ^ 63). rewrite <- Z.mul_assoc, (Z.mul_comm 2 (_ * _)).
  by rewrite Z.mod_add by lia.
Qed.

#[export] Program Instance uint512_modular : ModularLaws uint512_t := {
  mod_ok := uint512_wf;
  mod_num := uval;
}.
Next Obligation. exact uval_bound. Qed.
Next Obligation. split; [exact uint512_zero_wf | done]. Qed.
Next Obligation. intros v Hv. exact (uint512_lsl_value v 1 Hv ltac:(lia)). Qed.
Next Obligation. intros v Hv. exact (uint512_lsr_value v 1 Hv ltac:(lia)). Qed.
Next Obligation. exact uint512_is_zero_value. Qed.
Next Obligation. intros v [Hlen _]. apply eval_mod_2. lia. Qed.
Next Obligation. exact uint512_add_value. Qed.

#[export] Program Instance uint512_magnitude : MagnitudeLaws uint512_t := {
  mag_ok := uint512_wf;
  mag_num := uval;
  mag_limit := 2 ^ 512;
}.
Next Obligation. exact uval_bound. Qed.
Next Obligation. split; [apply uint512_of_u64_wf; unfold uword; lia | apply uval_of_u64]. Qed.
Next Obligation.
  intros v Hv Hlim. destruct (uint512_lsl_value v 1 Hv ltac:(lia)) as (r & ? & ? & Hr).
  pose proof (uval_bound v Hv). exists r. rewrite Hr, Z.mod_small by lia. auto.
Qed.
Next Obligation. intros v Hv. exact (uint512_lsr_value v 1 Hv ltac:(lia)). Qed.
Next Obligation. exact uint512_compare_value. Qed.
Next Obligation.
  intros v w Hv Hw Hlim. destruct (uint512_add_value v w Hv Hw) as [? Hr].
  pose proof (uval_bound v Hv). pose proof (uval_bound w Hw).
  split; [done|]. transitivity (uval (uint512_add v w)); [done|]. rewrite Hr. apply Z.mod_small. lia.
Qed.
Next Obligation.
  intros v w Hv Hw Hle. destruct (uint512_sub_value v w Hv Hw) as [? Hr].
  pose proof (uval_bound v Hv). pose proof (uval_bound w Hw).
  split; [done|]. transitivity (uval (uint512_sub v w)); [done|]. rewrite Hr. apply Z.mod_small. lia.
Qed.

Lemma uint512_mul_assign_value v w :
  uint512_wf v -> uint512_wf w ->
  exists r, uint512_mul_assign v w = Ok r /\ uint512_wf r /\ uval r = (uval v * uval w) mod 2 ^ 512.
Proof. exact (mul_assign_value v w). Qed.

Lemma uint512_div_value v w :
  uint512_wf v -> uint512_wf w -> uval w <> 0 ->
  exists q r, uint512_div v w = Ok (q, r) /\ uint512_wf q /\ uint512_wf r /\
    uval q = uval v / uval w /\ uval r = uval v mod uval w.
Proof.
  intros Hv Hw Hnz. pose proof (uval_bound v Hv) as Hvb. pose proof (uval_bound w Hw) as Hwb.
  unfold uint512_div. rewrite (proj2 (uint512_is_zero_false w Hw)) by done.
  rewrite uint512_compare_value by done. pose proof (Z.sgn_spec (uval v - uval w)) as Hsgn.
  destruct (decide (Z.sgn (uval v - uval w) = -1)) as [Hc|Hc].
  { eexists _, _. split; [done|]. rewrite Z.div_small, Z.mod_small by lia. split_and!; auto with word. }
  destruct (decide (Z.sgn (uval v - uval w) = 0)) as [Hc'|Hc'].
  { eexists _, _. split; [done|].
    replace (uval v) with (uval w) by lia. rewrite Z.div_same, Z.mod_same by done. split_and!; auto with word. }
  rewrite !uint512_bit_size_value by done.
  destruct (div_gap (uval v) (uval w) 512) as (Hg & HD512 & HvD & Hlim); [lia..|].
  set (gap := bits (uval v) - bits (uval w)) in *. pose proof (pow2_pos gap Hg).
  destruct (uint512_lsl_value w gap) as (D & -> & HD & HDv); [done|lia|]. cbn [result_bind].
  rewrite Z.mod_small in HDv by lia.
  destruct (div_loop_value (Z.to_nat (gap + 1)) (uval w) uint512_zero v D)
    as (q & r & Heq & Hq & Hr & Hqv & Hrv);
    [exact uint512_zero_wf | exact Hv | exact HD | lia | | | |]; rewrite ?Z2Nat.id by lia.
  - intros _. replace (gap + 1 - 1) with gap by lia. exact HDv.
  - exact HvD.
  - change ((0 + 1) * 2 ^ (gap + 1) <= 2 ^ 512). lia.
  - exists q, r. rewrite Heq. split_and!; auto.
Qed.

(** ** Equality *)

Lemma uint512_eqb_iff v w : uint512_wf v -> uint512_wf w -> uint512_eqb v w = true <-> v = w.
Proof.
  destruct v as [a], w as [b]. intros [Ha _] [Hb _]. unfold uint512_eqb. cbn [uf_value] in *.
  rewrite forallb_forall. split; [|by intros [= ->] ? ?; apply Z.eqb_refl].
  intros H. f_equal. apply list_eq_same_length with 8%nat; [done..|].
  intros i x y Hi Hx Hy.
  assert (Z.eqb (a !!! i) (b !!! i) = true) as Heq by (apply H, in_seq; lia).
  apply Z.eqb_eq in Heq. by rewrite (list_lookup_total_correct _ _ _ Hx), (list_lookup_total_correct _ _ _ Hy) in Heq.
Qed.

Lemma uint512_neb_negb v w : uint512_neb v w = negb (uint512_eqb v w).
Proof.
  unfold uint512_neb, uint512_eqb. induction (seq 0 8) as [|i l IH]; [done|].
  cbn [existsb forallb]. by rewrite IH, negb_andb.
Qed.

Lemma uint512_eqb_u64_eqb v x : uint512_eqb_u64 v x = uint512_eqb v (uint512_of_u64 x).
Proof. done. Qed.

Lemma uint512_neb_u64_neb v x : uint512_neb_u64 v x = uint512_neb v (uint512_of_u64 x).
Proof. done. Qed.

(** ** Bitwise operators *)

Lemma uint512_and_value v w :
  uint512_wf v -> uint512_wf w -> uint512_wf (uint512_and v w) /\ uval (uint512_and v w) = Z.land (uval v) (uval w).
Proof.
  intros [Hv1 Hv2] [Hw1 Hw2]. unfold uint512_and, uval, uint512_wf. cbn [uf_value].
  rewrite length_zip_with, Hv1, Hw1.
  split_and!; [done | by apply limbs_zip_with; [apply limb_land|..] |].
  apply eval_zip_with with andb; auto using limb_land; [by intros; apply Z.land_spec | congruence].
Qed.

Lemma uint512_or_value v w :
  uint512_wf v -> uint512_wf w -> uint512_wf (uint512_or v w) /\ uval (uint512_or v w) = Z.lor (uval v) (uval w).
Proof.
  intros [Hv1 Hv2] [Hw1 Hw2]. unfold uint512_or, uval, uint512_wf. cbn [uf_value].
  rewrite length_zip_with, Hv1, Hw1.
  split_and!; [done | by apply limbs_zip_with; [apply limb_lor|..] |].
  apply eval_zip_with with orb; auto using limb_lor; [by intros; apply Z.lor_spec | congruence].
Qed.

Lemma uint512_xor_value v w :
  uint512_wf v -> uint512_wf w -> uint512_wf (uint512_xor v w) /\ uval (uint512_xor v w) = Z.lxor (uval v) (uval w).
Proof.
  intros [Hv1 Hv2] [Hw1 Hw2]. unfold uint512_xor, uval, uint512_wf. cbn [uf_value].
  rewrite length_zip_with, Hv1, Hw1.
  split_and!; [done | by apply limbs_zip_with; [apply limb_lxor|..] |].
  apply eval_zip_with with xorb; auto using limb_lxor; [by intros; apply Z.lxor_spec | congruence].
Qed.

Lemma uint512_not_value v :
  uint512_wf v -> uint512_wf (uint512_not v) /\ uval (uint512_not v) = 2 ^ 512 - 1 - uval v.
Proof.
  intros [Hlen Hl]. destruct (eval_lnot _ Hl) as [? Hev]. unfold uint512_not, uval, uint512_wf. cbn [uf_value].
  rewrite length_fmap, Hev, Hlen, modulus_8. done.
Qed.

(** The operators that take a 64-bit operand agree with the 512-bit ones. *)
Lemma uint512_and_u64_value v x :
  uint512_wf v -> uword 64 x -> uint512_and_u64 v x = uint512_and v (uint512_of_u64 x).
Proof.
  destruct v as [a]. intros [Hlen Hl] Hx. unfold uint512_and_u64, uint512_and, uint512_of_u64.
  cbn [uf_value] in *. f_equal. do 9 (destruct a as [|? a]; try done).
  cbn [zip_with replicate]. by rewrite !Z.land_0_r.
Qed.

Lemma uint512_or_u64_value v x :
  uint512_wf v -> uword 64 x -> uint512_or_u64 v x = uint512_or v (uint512_of_u64 x).
Proof.
  destruct v as [a]. intros [Hlen Hl] Hx. unfold uint512_or_u64, uint512_or, uint512_of_u64.
  cbn [uf_value] in *. f_equal. do 9 (destruct a as [|? a]; try done).
  cbn [zip_with replicate]. by rewrite !Z.lor_0_r.
Qed.

Lemma uint512_xor_u64_value v x :
  uint512_wf v -> uword 64 x -> uint512_xor_u64 v x = uint512_xor v (uint512_of_u64 x).
Proof.
  destruct v as [a]. intros [Hlen Hl] Hx. unfold uint512_xor_u64, uint512_xor, uint512_of_u64.
  cbn [uf_value] in *. f_equal. do 9 (destruct a as [|? a]; try done).
  cbn [zip_with replicate]. by rewrite !Z.lxor_0_r.
Qed.

Lemma uint512_neg_value v :
  uint512_wf v -> uint512_wf (uint512_neg v) /\ uval (uint512_neg v) = (- uval v) mod 2 ^ 512.
Proof.
  intros Hv. unfold uint512_neg. rewrite uint512_sub_assign_sub.
  destruct (uint512_sub_value uint512_zero v) as [? ->]; auto with word.
Qed.

(** ** Main theorems *)

(** C39: the additive operators and the multiplication of [uint512_t] compute
    modulo 2^512 and keep the object well formed; the in-place routine of [+=]
    and the generic one of [+] agree (same for the subtraction), and the
    multiplication ends. *)
Theorem uint512_ring_operations v w :
  uint512_wf v -> uint512_wf w ->
  (uint512_wf (uint512_add v w) /\ uval (uint512_add v w) = (uval v + uval w) mod 2 ^ 512) /\
  (uint512_wf (uint512_sub v w) /\ uval (uint512_sub v w) = (uval v - uval w) mod 2 ^ 512) /\
  uint512_add_assign v w = uint512_add v w /\ uint512_sub_assign v w = uint512_sub v w /\
  (uint512_wf (uint512_neg v) /\ uval (uint512_neg v) = (- uval v) mod 2 ^ 512) /\
  exists p, uint512_mul_assign v w = Ok p /\ uint512_wf p /\ uval p = (uval v * uval w) mod 2 ^ 512.
Proof.
  intros. split_and!; try done; try by apply uint512_add_value.
  - by apply uint512_sub_value.
  - by apply uint512_sub_value.
  - by apply uint512_neg_value.
  - by apply uint512_neg_value.
  - by apply uint512_mul_assign_value.
Qed.

Lemma uint512_ring_operations_witness :
  let v := Uint512 [2 ^ 64 - 1; 5; 0; 0; 0; 0; 0; 2 ^ 63] in
  let w := Uint512 [3; 2 ^ 64 - 7; 0; 0; 0; 0; 0; 2 ^ 63 + 1] in
  uint512_add_assign v w = uint512_add v w /\ uval (uint512_add v w) = (uval v + uval w) mod 2 ^ 512.
Proof.
  intros v w.
  assert (uint512_wf v) as Hv by closed_decide.
  assert (uint512_wf w) as Hw by closed_decide.
  destruct (uint512_ring_operations v w Hv Hw) as ([_ H1] & _ & H2 & _). split; [exact H2 | exact H1].
Defined.

(** [lsl] and [lsr] refuse a negative count, and otherwise multiply modulo
    2^512 and divide by a power of two, for every count (512 and more too). *)
Theorem uint512_shifts v n :
  uint512_wf v ->
  (n < 0 -> uint512_lsl v n = Throw out_of_range /\ uint512_lsr v n = Throw out_of_range) /\
  (0 <= n ->
   (exists r, uint512_lsl v n = Ok r /\ uint512_wf r /\ uval r = (uval v * 2 ^ n) mod 2 ^ 512) /\
   (exists r, uint512_lsr v n = Ok r /\ uint512_wf r /\ uval r = uval v / 2 ^ n)).
Proof.
  intros Hv. split; intros Hn.
  - unfold uint512_lsl, uint512_lsr. by rewrite !decide_True by done.
  - split; [by apply uint512_lsl_value | by apply uint512_lsr_value].
Qed.

Lemma uint512_shifts_witness :
  exists r, uint512_lsl (uint512_of_u64 (2 ^ 63 + 1)) 130 = Ok r /\ uint512_wf r /\
            uval r = ((2 ^ 63 + 1) * 2 ^ 130) mod 2 ^ 512.
Proof.
  assert (uint512_wf (uint512_of_u64 (2 ^ 63 + 1))) as Hv by closed_decide.
  destruct (uint512_shifts (uint512_of_u64 (2 ^ 63 + 1)) 130 Hv) as [_ H].
  destruct (H ltac:(lia)) as [(r & H1 & H2 & H3) _]. exists r. split; [exact H1|]. split; [exact H2|].
  rewrite H3. reflexivity.
Defined.

(** C40: the division ends, throws only for a zero divisor, and returns the
    Euclidean quotient and remainder; [/], [/=] and [%=] select them. *)
Theorem uint512_division v w :
  uint512_wf v -> uint512_wf w ->
  (uval w = 0 -> uint512_div v w = Throw logic_error) /\
  (uval w <> 0 ->
   exists q r, uint512_div v w = Ok (q, r) /\ uint512_wf q /\ uint512_wf r /\
     uval q = uval v / uval w /\ uval r = uval v mod uval w /\
     uint512_quot v w = Ok q /\ uint512_mod_assign v w = Ok r).
Proof.
  intros Hv Hw. split; intros Hz.
  - unfold uint512_div. by rewrite (proj2 (uint512_is_zero_value w Hw) Hz).
  - destruct (uint512_div_value v w) as (q & r & Heq & ?); auto.
    exists q, r. unfold uint512_quot, uint512_mod_assign. rewrite Heq. cbn [result_bind]. intuition auto.
Qed.

Lemma uint512_division_witness :
  exists q r, uint512_div (Uint512 [5; 7; 0; 0; 0; 0; 0; 9]) (uint512_of_u64 1000) = Ok (q, r) /\
    uval q = eval [5; 7; 0; 0; 0; 0; 0; 9] / 1000.
Proof.
  assert (uint512_wf (Uint512 [5; 7; 0; 0; 0; 0; 0; 9])) as Hv by closed_decide.
  assert (uint512_wf (uint512_of_u64 1000)) as Hw by closed_decide.
  destruct (uint512_division _ _ Hv Hw) as [_ H].
  destruct (H ltac:(vm_compute; discriminate)) as (q & r & H1 & _ & _ & H2 & _).
  exists q, r. split; [exact H1 | rewrite H2; reflexivity].
Defined.

(** [compare()] is the sign of the difference of the two numbers, the six
    relational operators decide the order and the equality of the numbers, and
    [bit_size()] is the least number of bits that can hold the number. *)
Theorem uint512_comparisons v w :
  uint512_wf v -> uint512_wf w ->
  uint512_compare v w = Z.sgn (uval v - uval w) /\
  (uint512_ltb v w = true <-> uval v < uval w) /\ (uint512_leb v w = true <-> uval v <= uval w) /\
  (uint512_gtb v w = true <-> uval v > uval w) /\ (uint512_geb v w = true <-> uval v >= uval w) /\
  (uint512_eqb v w = true <-> uval v = uval w) /\ uint512_neb v w = negb (uint512_eqb v w) /\
  (forall n, 0 <= n -> uint512_bit_size v <= n <-> uval v < 2 ^ n).
Proof.
  intros Hv Hw. pose proof (Z.sgn_spec (uval v - uval w)) as Hsgn.
  unfold uint512_ltb, uint512_leb, uint512_gtb, uint512_geb.
  rewrite !bool_decide_eq_true, !uint512_compare_value by done.
  split; [done|]. do 4 (split; [lia|]). split; [|split; [apply uint512_neb_negb|]].
  - rewrite uint512_eqb_iff by done. split; [by intros ->|by apply uval_inj].
  - intros n Hn. rewrite uint512_bit_size_value by done. pose proof (uval_bound v Hv).
    pose proof (bits_spec (uval v) ltac:(lia)) as (Hb0 & Hb1 & Hb2). split; intros Hlt.
    + pose proof (Z.pow_le_mono_r 2 (bits (uval v)) n). lia.
    + destruct (decide (uval v = 0)) as [->|Hnz]; [unfold bits; by rewrite decide_True by done|].
      specialize (Hb2 Hnz). apply Z.nlt_ge. intros Hgt.
      pose proof (Z.pow_le_mono_r 2 n (bits (uval v) - 1)). lia.
Qed.

Lemma uint512_comparisons_witness :
  uint512_ltb (uint512_of_u64 (2 ^ 64 - 1)) (Uint512 [0; 1; 0; 0; 0; 0; 0; 0]) = true.
Proof.
  assert (uint512_wf (uint512_of_u64 (2 ^ 64 - 1))) as Hv by closed_decide.
  assert (uint512_wf (Uint512 [0; 1; 0; 0; 0; 0; 0; 0])) as Hw by closed_decide.
  destruct (uint512_comparisons _ _ Hv Hw) as (_ & H & _). apply H. vm_compute. reflexivity.
Defined.

(** The bitwise operators act on the bits of the numbers, and the forms that
    take a 64-bit operand agree with those that take a 512-bit one. *)
Theorem uint512_bitwise v w x :
  uint512_wf v -> uint512_wf w -> uword 64 x ->
  uval (uint512_and v w) = Z.land (uval v) (uval w) /\ uval (uint512_or v w) = Z.lor (uval v) (uval w) /\
  uval (uint512_xor v w) = Z.lxor (uval v) (uval w) /\ uval (uint512_not v) = 2 ^ 512 - 1 - uval v /\
  uval (uint512_and_u64 v x) = Z.land (uval v) x /\ uval (uint512_or_u64 v x) = Z.lor (uval v) x /\
  uval (uint512_xor_u64 v x) = Z.lxor (uval v) x.
Proof.
  intros Hv Hw Hx. rewrite uint512_and_u64_value, uint512_or_u64_value, uint512_xor_u64_value by done.
  pose proof (uint512_of_u64_wf x Hx) as Hx'.
  pose proof (proj2 (uint512_and_value v _ Hv Hx')) as H1.
  pose proof (proj2 (uint512_or_value v _ Hv Hx')) as H2.
  pose proof (proj2 (uint512_xor_value v _ Hv Hx')) as H3.
  rewrite uval_of_u64 in H1, H2, H3.
  split; [by apply uint512_and_value|]. split; [by apply uint512_or_value|].
  split; [by apply uint512_xor_value|]. split; [by apply uint512_not_value|]. done.
Qed.

Lemma uint512_bitwise_witness :
  uval (uint512_xor_u64 (Uint512 [12; 1; 0; 0; 0; 0; 0; 0]) 10) = Z.lxor (12 + 2 ^ 64) 10.
Proof.
  assert (uint512_wf (Uint512 [12; 1; 0; 0; 0; 0; 0; 0])) as Hv by closed_decide.
  destruct (uint512_bitwise _ _ 10 Hv Hv ltac:(unfold uword; lia)) as (_ & _ & _ & _ & _ & _ & H).
  rewrite H. reflexivity.
Defined.
