(* ===== verification/Int512.v ===== *)
(** * int512_t: signed 512-bit integers (prinbee/bigint/int512.cpp)

    The object is seven unsigned words followed by a signed one.  The code often
    handles it as one array of eight words (the assembly routines and the block
    moves run over [f_value] and continue in [f_high_value], and so does the
    loop of [asr()], whose first index is one past the end of [f_value]); the
    model follows the amd64 memory layout: [int512_words] is that array and
    [int512_of_words] the object it is the image of.  [sval] is the signed number
    of the object, [int512_uval] the unsigned number of its eight words. *)

From S2P Require Import Prelude Limbs BigLoops Uint512.

(** ** The object *)

Record int512_t := Int512 { if_value : list Z; if_high_value : Z }.

#[export] Instance int512_eq_dec : EqDecision int512_t.
Proof. solve_decision. Defined.

(** Seven words of 64 bits and a signed 64-bit one. *)
Definition int512_wf (v : int512_t) : Prop :=
  length (if_value v) = 7%nat /\ limbs (if_value v) /\ - 2 ^ 63 <= if_high_value v < 2 ^ 63.

#[export] Instance int512_wf_dec v : Decision (int512_wf v).
Proof. unfold int512_wf. apply _. Defined.

Definition sval (v : int512_t) : Z := eval (if_value v) + modulus 7 * if_high_value v.

(** The memory image. *)
Definition int512_words (v : int512_t) : list Z := if_value v ++ [wrap 64 (if_high_value v)].
Definition int512_of_words (w : list Z) : int512_t := Int512 (take 7 w) (signed 64 (w !!! 7%nat)).
Definition int512_uval (v : int512_t) : Z := eval (int512_words v).

(** ** Constructors and assignments *)

(** [int512_t()] and [zero()] *)
Definition int512_zero : int512_t := Int512 (replicate 7 0) 0.

(** [int512_t(uint512_t const &)] *)
Definition int512_of_uint512 (rhs : uint512_t) : int512_t :=
  Int512 (take 7 (uf_value rhs)) (signed 64 (uf_value rhs !!! 7%nat)).

(** [uint512_t(int512_t const &)] and the assignment (uint512.cpp) *)
Definition uint512_of_int512 (rhs : int512_t) : uint512_t :=
  Uint512 (if_value rhs ++ [wrap 64 (if_high_value rhs)]).

(** [int512_t(std::initializer_list<std::uint64_t>)]: an eighth word is copied
    past [f_value], onto [f_high_value]. *)
Definition int512_of_list (rhs : list Z) : result int512_t :=
  if decide (7 + 1 < length rhs)%nat then Throw out_of_range
  else Ok (int512_of_words (rhs ++ replicate (8 - length rhs) 0)).

(** [int512_t(std::int64_t)] *)
Definition int512_of_i64 (rhs : Z) : int512_t :=
  Int512 (wrap 64 rhs :: replicate 6 (if decide (rhs < 0) then 2 ^ 64 - 1 else 0))
         (if decide (rhs < 0) then -1 else 0).

(** [operator = (std::int64_t)] *)
Definition int512_assign_i64 (rhs : Z) : int512_t :=
  let fill := if decide (rhs < 0) then -1 else 0 in
  Int512 (wrap 64 rhs :: replicate 6 (wrap 64 fill)) fill.

Definition int512_min : int512_t := Int512 (replicate 7 0) (- 2 ^ 63).
Definition int512_max : int512_t := Int512 (replicate 7 (2 ^ 64 - 1)) (2 ^ 63 - 1).

Definition int512_is_positive (v : int512_t) : bool := bool_decide (if_high_value v >= 0).
Definition int512_is_negative (v : int512_t) : bool := bool_decide (if_high_value v < 0).
Definition int512_is_zero (v : int512_t) : bool :=
  forallb (Z.eqb 0) (take 7 (if_value v)) && Z.eqb (if_high_value v) 0.

Definition int512_compare (v rhs : int512_t) : Z :=
  if decide (if_high_value v <> if_high_value rhs)
  then (if decide (if_high_value v > if_high_value rhs) then 1 else -1)
  else compare_loop 7 (if_value v) (if_value rhs).

(** ** Additions and subtractions: over the eight words *)

Definition int512_add_assign (v rhs : int512_t) : int512_t :=
  int512_of_words (asm_add512 (int512_words v) (int512_words rhs)).
Definition int512_sub_assign (v rhs : int512_t) : int512_t :=
  int512_of_words (asm_sub512 (int512_words v) (int512_words rhs)).
Definition int512_neg (v : int512_t) : int512_t := int512_sub_assign int512_zero v.
Definition int512_abs (v : int512_t) : int512_t :=
  if decide (if_high_value v < 0) then int512_neg v else v.
Definition int512_add_assign_i64 (v : int512_t) (rhs : Z) : int512_t := int512_add_assign v (int512_of_i64 rhs).
Definition int512_sub_assign_i64 (v : int512_t) (rhs : Z) : int512_t := int512_sub_assign v (int512_of_i64 rhs).
(** [operator ++] and [operator --] *)
Definition int512_incr (v : int512_t) : int512_t := int512_add_assign_i64 v 1.
Definition int512_decr (v : int512_t) : int512_t := int512_sub_assign_i64 v 1.

(** ** Bits and shifts *)

(** The loop of [bit_size()] below the high word. *)
Fixpoint int512_bit_size_loop (idx : nat) (result : Z) (w : list Z) : Z :=
  match idx with
  | O => 0
  | S i =>
      let result := result - 64 in
      if decide (w !!! i <> 0) then Z.lxor (clzll (w !!! i)) 63 + result
      else int512_bit_size_loop i result w
  end.

Definition int512_bit_size (v : int512_t) : Z :=
  let p := if int512_is_negative v then int512_sub_assign int512_zero v else v in
  if int512_is_negative v && int512_is_negative p then 512
  else if decide (if_high_value p <> 0)
  then (64 - clzll (if_high_value p)) + 7 * 64
  else int512_bit_size_loop 7 (512 - 63) (if_value p).

(** The value of [extra] when the loop of [lsl()] reaches [f_high_value]. *)
Fixpoint lsl_extra (shift extra : Z) (l : list Z) : Z :=
  match l with
  | [] => extra
  | x :: r => lsl_extra shift (Z.shiftr x (64 - shift)) r
  end.

Definition int512_lsl (v : int512_t) (count : Z) : result int512_t :=
  if decide (count < 0) then Throw out_of_range
  else if decide (count >= 512) then Ok int512_zero
  else if decide (count = 0) then Ok v
  else
    let move := Z.to_nat (count / 64) in
    let shift := count mod 64 in
    let w := int512_words v in
    let w := if decide (0 < move)%nat
             then
               let pos := (8 - move)%nat in
               let w := if decide (move < 8)%nat then memmove w move 0 pos else w in
               memset w 0 0 move
             else w in
    let v := int512_of_words w in
    if decide (shift <> 0)
    then
      let low := if_value v in
      let extra := lsl_extra shift 0 (drop move low) in
      Ok (Int512 (take move low ++ lsl_loop shift 0 (drop move low))
                 (signed 64 (Z.lor (wrap 64 (Z.shiftl (if_high_value v) shift)) extra)))
    else Ok v.

(** [asr()].  The test is for [pos == 7] in the source: when no word was moved
    ([pos == 8]) the loop starts in [f_high_value] and shifts it as an unsigned
    word; when one word was moved, the word at index 6 is left as it is. *)
Definition int512_asr (v : int512_t) (count : Z) : result int512_t :=
  if decide (count < 0) then Throw out_of_range
  else
    let negative := int512_is_negative v in
    if decide (count >= 512)
    then Ok (if negative then Int512 (replicate 7 (2 ^ 64 - 1)) (-1) else int512_zero)
    else if decide (count = 0) then Ok v
    else
      let move := Z.to_nat (count / 64) in
      let shift := count mod 64 in
      let pos := (8 - move)%nat in
      let fill := if negative then 2 ^ 64 - 1 else 0 in
      let w := int512_words v in
      let w := if decide (0 < move)%nat
               then
                 let w := if decide (move < 8)%nat then memmove w 0 move pos else w in
                 memset w pos fill move
               else w in
      if decide (shift <> 0)
      then
        if decide (pos = 7%nat)
        then
          let v := int512_of_words w in
          let pos := 6%nat in
          let extra := wrap 64 (Z.shiftl (if_high_value v) (64 - shift)) in
          Ok (Int512 (fst (lsr_loop shift extra (take pos (if_value v))) ++ drop pos (if_value v))
                     (Z.shiftr (if_high_value v) shift))
        else Ok (int512_of_words (fst (lsr_loop shift 0 (take pos w)) ++ drop pos w))
      else Ok (int512_of_words w).

(** ** Multiplication and division *)

Definition int512_low_bit (v : int512_t) : Z := Z.land (if_value v !!! 0%nat) 1.

(** [one.f_value[0] = 1] on a zero object. *)
Definition int512_one : int512_t := Int512 (1 :: replicate 6 0) 0.

#[export] Instance int512_ops : BigintOps int512_t := {
  big_zero := int512_zero;
  big_one := int512_one;
  big_lsl := int512_lsl;
  big_shr := int512_asr;
  big_is_zero := int512_is_zero;
  big_low_bit := int512_low_bit;
  big_compare := int512_compare;
  big_add_assign := int512_add_assign;
  big_sub_assign := int512_sub_assign;
}.

Definition int512_mul_assign (v rhs : int512_t) : result int512_t := mul_assign v rhs.
Definition int512_mul_assign_i64 (v : int512_t) (rhs : Z) : result int512_t := int512_mul_assign v (int512_of_i64 rhs).

(** [div(const_rhs, remainder)]: the quotient and the remainder. *)
Definition int512_div (v const_rhs : int512_t) : result (int512_t * int512_t) :=
  if int512_is_zero const_rhs then Throw logic_error
  else
    let negative := int512_is_negative v in
    let lhs := if negative then int512_neg v else v in
    let rhs := if int512_is_negative const_rhs then int512_neg const_rhs else const_rhs in
    if int512_is_negative lhs || int512_is_negative rhs then Throw invalid_number
    else
      let c := int512_compare lhs rhs in
      if decide (c = -1) then Ok (int512_zero, v)
      else if decide (c = 0)
      then Ok (if negative then int512_neg int512_one else int512_one, int512_zero)
      else
        let lhs_size := int512_bit_size lhs in
        let rhs_size := int512_bit_size rhs in
        let gap := lhs_size - rhs_size in
        let! divisor := int512_lsl rhs gap in
        let! '(q, remainder) := div_loop (Z.to_nat (gap + 1)) int512_zero v divisor in
        Ok (if negative then int512_neg q else q, remainder).

Definition int512_quot (v rhs : int512_t) : result int512_t :=
  let! '(q, _) := int512_div v rhs in Ok q.
Definition int512_mod (v rhs : int512_t) : result int512_t :=
  let! '(_, remainder) := int512_div v rhs in Ok remainder.

(** ** Bitwise operators *)

(** [f(high, rhs.high)] on the signed words is [f] on their bits. *)
Definition int512_and (v rhs : int512_t) : int512_t :=
  Int512 (zip_with Z.land (if_value v) (if_value rhs)) (Z.land (if_high_value v) (if_high_value rhs)).
Definition int512_or (v rhs : int512_t) : int512_t :=
  Int512 (zip_with Z.lor (if_value v) (if_value rhs)) (Z.lor (if_high_value v) (if_high_value rhs)).
Definition int512_xor (v rhs : int512_t) : int512_t :=
  Int512 (zip_with Z.lxor (if_value v) (if_value rhs)) (Z.lxor (if_high_value v) (if_high_value rhs)).

(** ** Comparisons *)

Definition int512_eqb (v rhs : int512_t) : bool :=
  forallb (fun idx => Z.eqb (if_value v !!! idx) (if_value rhs !!! idx)) (seq 0 7)
  && Z.eqb (if_high_value v) (if_high_value rhs).
Definition int512_eqb_i64 (v : int512_t) (rhs : Z) : bool :=
  let fill := if decide (rhs < 0) then 2 ^ 64 - 1 else 0 in
  Z.eqb (if_value v !!! 0%nat) (wrap 64 rhs)
  && forallb (fun idx => Z.eqb (if_value v !!! idx) fill) (seq 1 6)
  && Z.eqb (if_high_value v) (if decide (rhs < 0) then -1 else 0).
Definition int512_neb (v rhs : int512_t) : bool :=
  existsb (fun idx => negb (Z.eqb (if_value v !!! idx) (if_value rhs !!! idx))) (seq 0 7)
  || negb (Z.eqb (if_high_value v) (if_high_value rhs)).
Definition int512_neb_i64 (v : int512_t) (rhs : Z) : bool :=
  let fill := if decide (rhs < 0) then 2 ^ 64 - 1 else 0 in
  negb (Z.eqb (if_value v !!! 0%nat) (wrap 64 rhs))
  || existsb (fun idx => negb (Z.eqb (if_value v !!! idx) fill)) (seq 1 6)
  || negb (Z.eqb (if_high_value v) (if decide (rhs < 0) then -1 else 0)).
Definition int512_ltb (v rhs : int512_t) : bool := bool_decide (int512_compare v rhs < 0).
Definition int512_leb (v rhs : int512_t) : bool := bool_decide (int512_compare v rhs <= 0).
Definition int512_gtb (v rhs : int512_t) : bool := bool_decide (int512_compare v rhs > 0).
Definition int512_geb (v rhs : int512_t) : bool := bool_decide (int512_compare v rhs >= 0).

(** [operator < (std::int64_t)] *)
Definition int512_ltb_i64 (v : int512_t) (rhs : Z) : bool :=
  if decide (rhs < 0)
  then
    if int512_is_positive v then false
    else if existsb (fun idx => negb (Z.eqb (if_value v !!! idx) (2 ^ 64 - 1))) (seq 1 6)
            || negb (Z.eqb (if_high_value v) (-1)) then true
    else bool_decide (if_value v !!! 0%nat < wrap 64 rhs)
  else
    if int512_is_negative v then true
    else if existsb (fun idx => negb (Z.eqb (if_value v !!! idx) 0)) (seq 1 6)
            || negb (Z.eqb (if_high_value v) 0) then false
    else bool_decide (if_value v !!! 0%nat < wrap 64 rhs).

(** ** Conversion to long double *)

(** The two words of the union with a [long double] (x86 extended precision):
    the mantissa, and the sign with the biased exponent. *)
Definition int512_to_floating_point (v : int512_t) : result (Z * Z) :=
  if int512_is_zero v then Ok (0, 0)
  else
    let positive := int512_abs v in
    let data1 := if int512_is_negative v then Z.shiftl 1 15 else 0 in
    let sz := int512_bit_size positive in
    let! positive :=
      if decide (sz < 63) then int512_lsl positive (64 - sz)
      else if decide (sz > 64) then int512_asr positive (sz - 64)
      else Ok positive in
    Ok (if_value positive !!! 0%nat, Z.lor data1 (16382 + sz)).

Example int512_div_pos :
  int512_div (int512_of_i64 1000) (int512_of_i64 (-7)) = Ok (int512_of_i64 142, int512_of_i64 6).
Proof. vm_compute. reflexivity. Qed.

Example int512_div_neg :
  int512_div (int512_of_i64 (-1000)) (int512_of_i64 7) = Ok (int512_zero, int512_of_i64 (-1000)).
Proof. vm_compute. reflexivity. Qed.

Example int512_mul_neg :
  int512_mul_assign (int512_of_i64 (-1000)) (int512_of_i64 7) = Ok (int512_of_i64 (-7000)).
Proof. vm_compute. reflexivity. Qed.

(** ** The memory image *)

Lemma signed_64_range x : limb x -> - 2 ^ 63 <= signed 64 x < 2 ^ 63.
Proof. unfold uword, signed. change (64 - 1) with 63. intros. destruct (decide _); lia. Qed.

Lemma wrap_signed_64 x : limb x -> wrap 64 (signed 64 x) = x.
Proof.
  unfold uword, signed, wrap. intros. destruct (decide _); [apply Z.mod_small; lia|].
  apply mod_unique_pow with (-1); lia.
Qed.

Lemma signed_wrap_64 h : - 2 ^ 63 <= h < 2 ^ 63 -> signed 64 (wrap 64 h) = h.
Proof.
  unfold signed, wrap. change (64 - 1) with 63. intros. destruct (decide (0 <= h)).
  - rewrite Z.mod_small by lia. rewrite decide_True by lia. done.
  - replace (h mod 2 ^ 64) with (h + 2 ^ 64) by (symmetry; apply mod_unique_pow with (-1); lia).
    rewrite decide_False by lia. lia.
Qed.

Lemma wrap_shiftl_signed x s : limb x -> 0 <= s -> wrap 64 (Z.shiftl (signed 64 x) s) = wrap 64 (Z.shiftl x s).
Proof.
  intros Hx Hs. rewrite !Z.shiftl_mul_pow2 by lia. rewrite <- (wrap_signed_64 x Hx) at 2.
  unfold wrap. by rewrite Z.mul_mod_idemp_l by lia.
Qed.

Lemma int512_words_wf v : int512_wf v -> length (int512_words v) = 8%nat /\ limbs (int512_words v).
Proof.
  intros (Hlen & Hl & Hh). unfold int512_words. rewrite length_app, Hlen. split; [done|].
  apply Forall_app_2; [done|]. constructor; auto with word.
Qed.

Lemma int512_of_words_words v : int512_wf v -> int512_of_words (int512_words v) = v.
Proof.
  destruct v as [l h]. intros (Hlen & Hl & Hh). unfold int512_of_words, int512_words. cbn [if_value if_high_value] in *.
  rewrite take_app_length' by done. rewrite lookup_total_app_r by lia. rewrite Hlen. cbn. f_equal.
  by apply signed_wrap_64.
Qed.

(** Eight words are seven words and a last one. *)
Lemma words_split w : length w = 8%nat -> limbs w ->
  exists l x, w = l ++ [x] /\ length l = 7%nat /\ limbs l /\ limb x.
Proof.
  intros Hlen Hw. exists (take 7 w), (w !!! 7%nat). split_and!.
  - rewrite <- take_S_total by lia. symmetry. apply take_ge. lia.
  - rewrite length_take. lia.
  - auto with word.
  - apply limbs_lookup_total; [done|lia].
Qed.

Lemma int512_of_words_app l x : length l = 7%nat -> int512_of_words (l ++ [x]) = Int512 l (signed 64 x).
Proof.
  intros Hl. unfold int512_of_words. rewrite take_app_length' by done.
  rewrite lookup_total_app_r by lia. by rewrite Hl.
Qed.

Lemma int512_of_words_wf w : length w = 8%nat -> limbs w -> int512_wf (int512_of_words w).
Proof.
  intros Hlen Hw. destruct (words_split w Hlen Hw) as (l & x & -> & Hl & Hlw & Hx).
  rewrite int512_of_words_app by done. split_and!; try done; by apply signed_64_range.
Qed.

Lemma int512_words_of_words w : length w = 8%nat -> limbs w -> int512_words (int512_of_words w) = w.
Proof.
  intros Hlen Hw. destruct (words_split w Hlen Hw) as (l & x & -> & Hl & Hlw & Hx).
  rewrite int512_of_words_app by done. unfold int512_words. cbn [if_value if_high_value].
  by rewrite wrap_signed_64.
Qed.

(** [int512_t] and [uint512_t] have the same memory images. *)
Lemma uint512_of_int512_wf v : int512_wf v -> uint512_wf (uint512_of_int512 v).
Proof. exact (int512_words_wf v). Qed.

Lemma uval_of_int512 v : uval (uint512_of_int512 v) = int512_uval v.
Proof. done. Qed.

(** The object whose memory image is that of an unsigned integer. *)
Lemma int512_of_uint512_words u : int512_of_uint512 u = int512_of_words (uf_value u).
Proof. done. Qed.

Lemma int512_of_uint512_wf u : uint512_wf u -> int512_wf (int512_of_uint512 u) /\ int512_uval (int512_of_uint512 u) = uval u.
Proof.
  intros [Hlen Hl]. rewrite int512_of_uint512_words. split; [by apply int512_of_words_wf|].
  unfold int512_uval. by rewrite int512_words_of_words.
Qed.

Lemma modulus_7 : modulus 7 = 2 ^ 448.
Proof. done. Qed.

Lemma int512_uval_sval v : int512_wf v ->
  - 2 ^ 511 <= sval v < 2 ^ 511 /\ int512_uval v = sval v mod 2 ^ 512 /\
  (if_high_value v < 0 <-> sval v < 0).
Proof.
  intros (Hlen & Hl & Hh). unfold int512_uval, int512_words, sval. rewrite eval_app, Hlen, modulus_7. cbn [eval].
  pose proof (eval_bound _ Hl) as Hb. rewrite Hlen, modulus_7 in Hb.
  split_and!; [lia | lia | | lia].
  unfold wrap. symmetry. apply mod_unique_pow with (if_high_value v / 2 ^ 64);
    pose proof (Z.div_mod (if_high_value v) (2 ^ 64)); pose proof (Z.mod_pos_bound (if_high_value v) (2 ^ 64)); lia.
Qed.

(** The signed number is the signed reading of the unsigned one. *)
Lemma sval_of_uval v : int512_wf v ->
  sval v = if decide (int512_uval v < 2 ^ 511) then int512_uval v else int512_uval v - 2 ^ 512.
Proof.
  intros Hv. destruct (int512_uval_sval v Hv) as (Hb & Hu & _). rewrite Hu. destruct (decide (0 <= sval v)).
  - rewrite Z.mod_small by lia. rewrite decide_True by lia. done.
  - replace (sval v mod 2 ^ 512) with (sval v + 2 ^ 512) by (symmetry; apply mod_unique_pow with (-1); lia).
    rewrite decide_False by lia. lia.
Qed.

Lemma sval_inj v w : int512_wf v -> int512_wf w -> sval v = sval w -> v = w.
Proof.
  intros Hv Hw Heq. rewrite <- (int512_of_words_words v Hv), <- (int512_of_words_words w Hw). f_equal.
  destruct (int512_words_wf v Hv), (int512_words_wf w Hw). apply eval_inj; auto; [congruence|].
  destruct (int512_uval_sval v Hv) as (_ & Hvu & _). destruct (int512_uval_sval w Hw) as (_ & Hwu & _).
  change (int512_uval v = int512_uval w). congruence.
Qed.

(** A signed number is known from its residue. *)
Lemma sval_unique v x : int512_wf v -> - 2 ^ 511 <= x < 2 ^ 511 -> int512_uval v = x mod 2 ^ 512 -> sval v = x.
Proof.
  intros Hv Hx Heq. rewrite sval_of_uval, Heq by done. destruct (decide (0 <= x)).
  - rewrite Z.mod_small by lia. rewrite decide_True by lia. done.
  - replace (x mod 2 ^ 512) with (x + 2 ^ 512) by (symmetry; apply mod_unique_pow with (-1); lia).
    rewrite decide_False by lia. lia.
Qed.

Lemma int512_zero_wf : int512_wf int512_zero.
Proof. closed_decide. Qed.
Lemma int512_one_wf : int512_wf int512_one.
Proof. closed_decide. Qed.
#[export] Hint Resolve int512_zero_wf int512_one_wf : word.

(** ** Additions and subtractions *)

Lemma int512_add_uval v w : int512_wf v -> int512_wf w ->
  int512_wf (int512_add_assign v w) /\
  int512_uval (int512_add_assign v w) = (int512_uval v + int512_uval w) mod 2 ^ 512.
Proof.
  intros Hv Hw. change (int512_add_assign v w)
    with (int512_of_uint512 (uint512_add (uint512_of_int512 v) (uint512_of_int512 w))).
  destruct (uint512_add_value (uint512_of_int512 v) (uint512_of_int512 w)) as [Hwf Hu]; [by apply uint512_of_int512_wf..|].
  destruct (int512_of_uint512_wf _ Hwf) as [? ->]. by rewrite Hu, !uval_of_int512.
Qed.

Lemma int512_sub_uval v w : int512_wf v -> int512_wf w ->
  int512_wf (int512_sub_assign v w) /\
  int512_uval (int512_sub_assign v w) = (int512_uval v - int512_uval w) mod 2 ^ 512.
Proof.
  intros Hv Hw. change (int512_sub_assign v w)
    with (int512_of_uint512 (uint512_sub (uint512_of_int512 v) (uint512_of_int512 w))).
  destruct (uint512_sub_value (uint512_of_int512 v) (uint512_of_int512 w)) as [Hwf Hu]; [by apply uint512_of_int512_wf..|].
  destruct (int512_of_uint512_wf _ Hwf) as [? ->]. by rewrite Hu, !uval_of_int512.
Qed.

(** [x] reduced to the range of a signed 512-bit number. *)
Definition smod (x : Z) : Z := signed 512 (x mod 2 ^ 512).

Lemma smod_spec x : - 2 ^ 511 <= smod x < 2 ^ 511 /\ smod x mod 2 ^ 512 = x mod 2 ^ 512.
Proof.
  unfold smod, signed. change (512 - 1) with 511. pose proof (Z.mod_pos_bound x (2 ^ 512) ltac:(lia)).
  destruct (decide _).
  - rewrite Z.mod_mod by lia. lia.
  - split; [lia|]. apply mod_unique_pow with (-1); lia.
Qed.

Lemma smod_small x : - 2 ^ 511 <= x < 2 ^ 511 -> smod x = x.
Proof.
  unfold smod, signed. change (512 - 1) with 511. intros. destruct (decide (0 <= x)).
  - rewrite Z.mod_small by lia. rewrite decide_True by lia. done.
  - replace (x mod 2 ^ 512) with (x + 2 ^ 512) by (symmetry; apply mod_unique_pow with (-1); lia).
    rewrite decide_False by lia. lia.
Qed.

Lemma sval_smod v x : int512_wf v -> int512_uval v = x mod 2 ^ 512 -> sval v = smod x.
Proof.
  intros Hv Hu. destruct (smod_spec x) as [? Hs]. apply sval_unique; auto. congruence.
Qed.

Lemma int512_uval_mod v : int512_wf v -> int512_uval v = sval v mod 2 ^ 512.
Proof. intros Hv. by destruct (int512_uval_sval v Hv) as (_ & ? & _). Qed.

Lemma int512_add_value v w : int512_wf v -> int512_wf w ->
  int512_wf (int512_add_assign v w) /\ sval (int512_add_assign v w) = smod (sval v + sval w).
Proof.
  intros Hv Hw. destruct (int512_add_uval v w Hv Hw) as [Hwf Hu]. split; [done|]. apply sval_smod; [done|].
  rewrite Hu, !int512_uval_mod by done. by rewrite <- Z.add_mod by lia.
Qed.

Lemma int512_sub_value v w : int512_wf v -> int512_wf w ->
  int512_wf (int512_sub_assign v w) /\ sval (int512_sub_assign v w) = smod (sval v - sval w).
Proof.
  intros Hv Hw. destruct (int512_sub_uval v w Hv Hw) as [Hwf Hu]. split; [done|]. apply sval_smod; [done|].
  rewrite Hu, !int512_uval_mod by done. by rewrite <- Zminus_mod.
Qed.

Lemma int512_neg_value v : int512_wf v -> int512_wf (int512_neg v) /\ sval (int512_neg v) = smod (- sval v).
Proof. intros Hv. exact (int512_sub_value int512_zero v int512_zero_wf Hv). Qed.

(** The negation is exact but for the least number, which it leaves as it is. *)
Lemma int512_neg_exact v : int512_wf v ->
  sval (int512_neg v) = if decide (sval v = - 2 ^ 511) then - 2 ^ 511 else - sval v.
Proof.
  intros Hv. destruct (int512_neg_value v Hv) as [_ ->]. destruct (int512_uval_sval v Hv) as (Hb & _ & _).
  destruct (decide _) as [->|]; [done|]. apply smod_small. lia.
Qed.

Lemma int512_is_negative_iff v : int512_wf v -> int512_is_negative v = true <-> sval v < 0.
Proof.
  intros Hv. unfold int512_is_negative. rewrite bool_decide_eq_true.
  by destruct (int512_uval_sval v Hv) as (_ & _ & ?).
Qed.

Lemma int512_is_negative_false v : int512_wf v -> int512_is_negative v = false <-> 0 <= sval v.
Proof.
  intros Hv. rewrite <- not_true_iff_false, int512_is_negative_iff by done. lia.
Qed.

(** ** Comparisons *)

Lemma int512_compare_value v w : int512_wf v -> int512_wf w -> int512_compare v w = Z.sgn (sval v - sval w).
Proof.
  intros (Hvl & Hv & Hvh) (Hwl & Hw & Hwh). unfold int512_compare, sval.
  pose proof (eval_bound _ Hv) as Hvb. pose proof (eval_bound _ Hw) as Hwb. rewrite Hvl in Hvb. rewrite Hwl in Hwb.
  pose proof (modulus_pos 7). destruct (decide _).
  - destruct (decide _); symmetry; [apply Z.sgn_pos|apply Z.sgn_neg]; nia.
  - rewrite compare_loop_spec, !take_ge by (auto; lia). f_equal.
    assert (if_high_value v = if_high_value w) as -> by lia. lia.
Qed.

Lemma int512_is_zero_value v : int512_wf v -> int512_is_zero v = true <-> sval v = 0.
Proof.
  intros (Hl & Hv & Hh). unfold int512_is_zero, sval. rewrite take_ge by lia.
  rewrite andb_true_iff, <- eval_zero_iff, Z.eqb_eq by done.
  pose proof (eval_bound _ Hv) as Hb. rewrite Hl in Hb. pose proof (modulus_pos 7). split; [intros []; nia|].
  intros. assert (if_high_value v = 0) by nia. split; nia.
Qed.

(** ** Left shift *)

Lemma lsl_loop_app s e a x :
  lsl_loop s e (a ++ [x]) = lsl_loop s e a ++ [Z.lor (wrap 64 (Z.shiftl x s)) (lsl_extra s e a)].
Proof. revert e. induction a as [|y a IH]; intros e; [done|]. cbn [lsl_loop app lsl_extra]. by rewrite IH. Qed.

Lemma int512_lsl_uint512 v n : int512_wf v ->
  exists r, int512_lsl v n = r /\
  match uint512_lsl (uint512_of_int512 v) n, r with
  | Ok u, Ok i => i = int512_of_uint512 u
  | Throw e, Throw e' => e = e'
  | _, _ => False
  end.
Proof.
  intros Hv. eexists. split; [done|]. destruct (int512_words_wf v Hv) as [Hlen Hl].
  unfold int512_lsl, uint512_lsl. destruct (decide (n < 0)); [done|]. destruct (decide (n >= 512)); [done|].
  destruct (decide (n = 0)); [by symmetry; apply int512_of_words_words|].
  change (uf_value (uint512_of_int512 v)) with (int512_words v).
  set (m := Z.to_nat (n / 64)).
  pose proof (Z.div_mod n 64 ltac:(lia)). pose proof (Z.mod_pos_bound n 64 ltac:(lia)).
  assert (m < 8)%nat by (unfold m; lia).
  rewrite (decide_True (P := (m < 8)%nat)) by done.
  set (w := if decide (0 < m)%nat then _ else _).
  assert (length w = 8%nat /\ limbs w) as [Hwl Hw].
  { unfold w. destruct (decide _); [|done]. rewrite length_memset, length_memmove by (rewrite ?length_memmove; lia).
    auto with word. }
  destruct (words_split w Hwl Hw) as (l & x & Hweq & Hll & Hlw & Hx). rewrite Hweq.
  destruct (decide (n mod 64 <> 0)); [|by rewrite int512_of_uint512_words].
  rewrite int512_of_uint512_words. cbn [uf_value].
  rewrite int512_of_words_app by done. cbn [if_value if_high_value].
  rewrite take_app_le, drop_app_le by lia. rewrite lsl_loop_app, app_assoc.
  rewrite int512_of_words_app.
  - by rewrite wrap_shiftl_signed by (done || lia).
  - rewrite length_app, length_take. 
    assert (forall s e a, length (lsl_loop s e a) = length a) as ->.
    { intros s e a. revert e. induction a as [|y a IH]; intros e; [done|]. cbn [lsl_loop length]. by rewrite IH. }
    rewrite length_drop. lia.
Qed.

Lemma int512_lsl_value v n : int512_wf v -> 0 <= n ->
  exists r, int512_lsl v n = Ok r /\ int512_wf r /\ int512_uval r = (int512_uval v * 2 ^ n) mod 2 ^ 512.
Proof.
  intros Hv Hn. destruct (int512_lsl_uint512 v n Hv) as (r & -> & Hr).
  destruct (uint512_lsl_value (uint512_of_int512 v) n) as (u & Hu & Hwf & Hval); [by apply uint512_of_int512_wf|done|].
  rewrite Hu in Hr. destruct r as [i|]; [|done]. subst i. exists (int512_of_uint512 u).
  destruct (int512_of_uint512_wf u Hwf) as [? ->]. by rewrite Hval, uval_of_int512.
Qed.

(** ** Right shift *)

(** The words [asr()] fills the top with. *)
Definition asr_fill (v : int512_t) : Z := if int512_is_negative v then 2 ^ 64 - 1 else 0.

(** Out of the case [pos == 7], [asr()] is a move of words and the loop. *)
Lemma int512_asr_words v n move shift :
  int512_wf v -> 0 < n < 512 -> move = Z.to_nat (n / 64) -> shift = n mod 64 ->
  (move <> 1%nat \/ shift = 0) ->
  int512_asr v n =
    let w1 := drop move (int512_words v) ++ replicate move (asr_fill v) in
    Ok (int512_of_words (if decide (shift <> 0)
                         then fst (lsr_loop shift 0 (take (8 - move) w1)) ++ drop (8 - move) w1 else w1)).
Proof.
  intros Hv Hn Hmove Hshift Hcase. destruct (int512_words_wf v Hv) as [Hlen Hl].
  unfold int512_asr. rewrite decide_False by lia. rewrite decide_False by lia. rewrite decide_False by lia.
  rewrite <- Hmove, <- Hshift.
  pose proof (Z.div_mod n 64 ltac:(lia)). pose proof (Z.mod_pos_bound n 64 ltac:(lia)).
  assert (move < 8)%nat by lia.
  rewrite (decide_True (P := (move < 8)%nat)) by done. fold (asr_fill v).
  assert ((if decide (0 < move)%nat then memset (memmove (int512_words v) 0 move (8 - move)) (8 - move) (asr_fill v) move
           else int512_words v) = drop move (int512_words v) ++ replicate move (asr_fill v)) as ->.
  { destruct (decide (0 < move)%nat).
    - rewrite <- Hlen at 1 2. apply move_down_words. lia.
    - assert (move = 0%nat) as -> by lia. rewrite drop_0. cbn. by rewrite app_nil_r. }
  cbv zeta. destruct (decide (shift <> 0)); [|done]. rewrite decide_False by lia. done.
Qed.

(** The shift is the unsigned one when no word moves, and when the number is not
    negative (but for a move by exactly one word and some bits). *)
Lemma int512_asr_logical v n :
  int512_wf v -> 0 <= n -> (n < 64 \/ (0 <= sval v /\ (n <= 64 \/ 128 <= n))) ->
  exists r, int512_asr v n = Ok r /\ int512_wf r /\ int512_uval r = int512_uval v / 2 ^ n.
Proof.
  intros Hv Hn Hcase. destruct (int512_words_wf v Hv) as [Hlen Hl].
  destruct (decide (n = 0)) as [->|].
  { exists v. rewrite Z.div_1_r. split_and!; auto. }
  destruct (decide (n >= 512)).
  { assert (int512_is_negative v = false) as Hneg by (apply int512_is_negative_false; [done|lia]).
    exists int512_zero. unfold int512_asr. rewrite Hneg. rewrite decide_False by lia. rewrite decide_True by lia.
    split_and!; [done|auto with word|].
    pose proof (uval_bound (uint512_of_int512 v) (uint512_of_int512_wf v Hv)).
    symmetry. apply div_pow2_512; [done|lia]. }
  pose proof (Z.div_mod n 64 ltac:(lia)). pose proof (Z.mod_pos_bound n 64 ltac:(lia)).
  rewrite (int512_asr_words v n (Z.to_nat (n / 64)) (n mod 64)); [|done|lia|done..|lia].
  assert (replicate (Z.to_nat (n / 64)) (asr_fill v) = replicate (Z.to_nat (n / 64)) 0) as ->.
  { destruct Hcase as [?|[Hnn _]]; [by replace (Z.to_nat (n / 64)) with 0%nat by lia|].
    unfold asr_fill. by rewrite (proj2 (int512_is_negative_false v Hv) Hnn). }
  cbv zeta. eexists. split; [done|].
  edestruct (lsr_words_spec (int512_words v)) with (n := 8%nat) (move := Z.to_nat (n / 64)) (shift := n mod 64)
    as (Hwr & Hlr & Hvr); [auto..|lia|lia|reflexivity|reflexivity|].
  split; [by apply int512_of_words_wf|].
  unfold int512_uval. rewrite int512_words_of_words by done. rewrite Hvr. repeat f_equal. lia.
Qed.

Lemma eval_replicate_ones n : eval (replicate n (2 ^ 64 - 1)) = modulus n - 1.
Proof. induction n as [|n IH]; [done|]. cbn [replicate eval]. rewrite IH, modulus_S. lia. Qed.

(** A shift by whole words is the arithmetic one, for every sign. *)
Lemma int512_asr_whole_words v n :
  int512_wf v -> 0 <= n -> n mod 64 = 0 ->
  exists r, int512_asr v n = Ok r /\ int512_wf r /\ sval r = sval v / 2 ^ n.
Proof.
  intros Hv Hn Hmod. destruct (int512_uval_sval v Hv) as (Hb & Hu & _). destruct (int512_words_wf v Hv) as [Hlen Hl].
  destruct (decide (n = 0)) as [->|]; [exists v; by rewrite Z.div_1_r|].
  destruct (decide (n >= 512)).
  { pose proof (Z.pow_le_mono_r 2 512 n ltac:(lia) ltac:(lia)).
    unfold int512_asr. rewrite decide_False by lia. rewrite decide_True by lia. eexists. split; [done|].
    destruct (int512_is_negative v) eqn:Hneg.
    - apply int512_is_negative_iff in Hneg; [|done]. split; [closed_decide|].
      apply Z.div_unique_pos with (sval v + 2 ^ n); [lia|]. change (sval (Int512 _ _)) with (-1). lia.
    - apply int512_is_negative_false in Hneg; [|done]. split; [auto with word|].
      symmetry. change (sval int512_zero) with 0. apply Z.div_small. lia. }
  pose proof (Z.div_mod n 64 ltac:(lia)).
  rewrite (int512_asr_words v n (Z.to_nat (n / 64)) 0); [|done|lia|done|done|auto].
  cbv zeta. rewrite decide_False by lia. eexists. split; [done|].
  set (m := Z.to_nat (n / 64)). assert (m <= 8)%nat by lia.
  assert (2 ^ n = modulus m) as Hnm by (unfold modulus; f_equal; lia).
  set (w1 := drop m _ ++ _).
  assert (length w1 = 8%nat /\ limbs w1) as [Hw1l Hw1].
  { unfold w1. rewrite length_app, length_drop, length_replicate. split; [lia|].
    apply Forall_app_2; [auto with word|]. apply Forall_replicate. unfold asr_fill. destruct (int512_is_negative v); unfold uword; lia. }
  split; [by apply int512_of_words_wf|].
  pose proof (modulus_pos m). pose proof (modulus_pos (8 - m)).
  assert (modulus m * modulus (8 - m) = 2 ^ 512) as Hmm by (rewrite <- modulus_add; unfold modulus; f_equal; lia).
  assert (- 2 ^ 511 <= sval v / 2 ^ n < 2 ^ 511).
  { rewrite Hnm. pose proof (Z.div_mod (sval v) (modulus m)). pose proof (Z.mod_pos_bound (sval v) (modulus m)). nia. }
  apply sval_unique; [by apply int512_of_words_wf|done|].
  unfold int512_uval at 1. rewrite int512_words_of_words by done.
  unfold w1. rewrite eval_app, length_drop, Hlen. rewrite eval_drop by (done || lia).
  fold (int512_uval v). rewrite Hnm, Hu. unfold asr_fill.
  destruct (int512_is_negative v) eqn:Hneg.
  - apply int512_is_negative_iff in Hneg; [|done]. rewrite eval_replicate_ones.
    replace (sval v mod 2 ^ 512) with (sval v + 2 ^ 512) by (symmetry; apply mod_unique_pow with (-1); lia).
    assert ((sval v + 2 ^ 512) / modulus m = sval v / modulus m + modulus (8 - m)) as ->.
    { rewrite <- Hmm, (Z.mul_comm (modulus m)), Z.div_add by lia. done. }
    symmetry. apply mod_unique_pow with (-1); [|lia].
    pose proof (Z.div_mod (sval v) (modulus m)). pose proof (Z.mod_pos_bound (sval v) (modulus m)). nia.
  - apply int512_is_negative_false in Hneg; [|done].
    rewrite eval_replicate_0, Z.mul_0_r, Z.add_0_r, (Z.mod_small (sval v)) by lia.
    symmetry. apply Z.mod_small. split; [apply Z.div_pos; lia|]. rewrite <- Hnm. lia.
Qed.

(** ** The laws behind the loops *)

#[export] Program Instance int512_modular : ModularLaws int512_t := {
  mod_ok := int512_wf;
  mod_num := int512_uval;
}.
Next Obligation. intros v Hv. exact (uval_bound _ (uint512_of_int512_wf v Hv)). Qed.
Next Obligation. split; [exact int512_zero_wf | done]. Qed.
Next Obligation. intros v Hv. exact (int512_lsl_value v 1 Hv ltac:(lia)). Qed.
Next Obligation. intros v Hv. exact (int512_asr_logical v 1 Hv ltac:(lia) ltac:(lia)). Qed.
Next Obligation.
  intros v Hv. rewrite int512_uval_mod by done. destruct (int512_uval_sval v Hv) as (Hb & _ & _).
  etransitivity; [exact (int512_is_zero_value v Hv)|]. split; [by intros ->|]. intros Hz.
  apply Z.mod_divide in Hz as [k Hk]; lia.
Qed.
Next Obligation.
  intros v (Hlen & _). transitivity (eval (if_value v) mod 2); [apply eval_mod_2; lia|].
  unfold int512_uval, int512_words. rewrite eval_app, Hlen, modulus_7.
  change (2 ^ 448) with (2 ^ 447 * 2).
  replace (2 ^ 447 * 2 * eval [wrap 64 (if_high_value v)])
    with (2 ^ 447 * eval [wrap 64 (if_high_value v)] * 2) by ring.
  by rewrite Z.mod_add by lia.
Qed.
Next Obligation. exact int512_add_uval. Qed.

(** For the division: the objects that are not negative. *)
Definition int512_nonneg (v : int512_t) : Prop := int512_wf v /\ 0 <= sval v.

Lemma int512_nonneg_uval v : int512_nonneg v -> int512_uval v = sval v.
Proof.
  intros [Hv Hnn]. rewrite int512_uval_mod by done. destruct (int512_uval_sval v Hv) as (? & _).
  apply Z.mod_small. lia.
Qed.

(** A result below 2^511 is not negative. *)
Lemma int512_nonneg_intro v x : int512_wf v -> 0 <= x < 2 ^ 511 -> int512_uval v = x mod 2 ^ 512 ->
  int512_nonneg v /\ sval v = x.
Proof. intros Hv Hx Hu. assert (sval v = x) by (apply sval_unique; auto; lia). split; [split|]; auto; lia. Qed.

#[export] Program Instance int512_magnitude : MagnitudeLaws int512_t := {
  mag_ok := int512_nonneg;
  mag_num := sval;
  mag_limit := 2 ^ 511;
}.
Next Obligation. intros v [Hv Hnn]. destruct (int512_uval_sval v Hv) as (? & _). lia. Qed.
Next Obligation. split; [split; [exact int512_one_wf|by vm_compute] | done]. Qed.
Next Obligation.
  intros v Hv Hlim. destruct (int512_lsl_value v 1 (proj1 Hv) ltac:(lia)) as (r & ? & Hr & Hu).
  rewrite (int512_nonneg_uval v Hv) in Hu. destruct Hv as [? ?].
  destruct (int512_nonneg_intro r (sval v * 2)) as [? ?]; eauto. lia.
Qed.
Next Obligation.
  intros v Hv. destruct (int512_asr_logical v 1 (proj1 Hv) ltac:(lia) ltac:(lia)) as (r & ? & Hr & Hu).
  rewrite (int512_nonneg_uval v Hv) in Hu. destruct Hv as [Hwf ?]. destruct (int512_uval_sval v Hwf) as (? & _).
  assert (0 <= sval v / 2 < 2 ^ 511) by (split; [apply Z.div_pos; lia | apply Z.div_lt_upper_bound; lia]).
  change (2 ^ 1) with 2 in Hu.
  destruct (int512_nonneg_intro r (sval v / 2)) as [? ?]; eauto. rewrite Hu. symmetry. apply Z.mod_small. lia.
Qed.
Next Obligation. intros v w [Hv _] [Hw _]. by apply int512_compare_value. Qed.
Next Obligation.
  intros v w [Hv Hvn] [Hw Hwn] Hlim. destruct (int512_add_value v w Hv Hw) as [Hwf Hr]. rewrite smod_small in Hr by lia.
  refine (conj (conj Hwf _) Hr). refine (eq_ind_r (fun z => 0 <= z) _ Hr). lia.
Qed.
Next Obligation.
  intros v w [Hv Hvn] [Hw Hwn] Hle. destruct (int512_sub_value v w Hv Hw) as [Hwf Hr].
  destruct (int512_uval_sval v Hv) as (? & _). rewrite smod_small in Hr by lia.
  refine (conj (conj Hwf _) Hr). refine (eq_ind_r (fun z => 0 <= z) _ Hr). lia.
Qed.

Lemma int512_mul_assign_value v w : int512_wf v -> int512_wf w ->
  exists r, int512_mul_assign v w = Ok r /\ int512_wf r /\ sval r = smod (sval v * sval w).
Proof.
  intros Hv Hw. destruct (@mul_assign_value _ _ int512_modular v w Hv Hw) as (r & Heq & Hr & Hu).
  exists r. split_and!; [done..|]. apply sval_smod; [done|].
  transitivity ((int512_uval v * int512_uval w) mod 2 ^ 512); [done|].
  rewrite !int512_uval_mod by done. by rewrite <- Z.mul_mod by lia.
Qed.

(** ** Bit size *)

Lemma lxor_63 c : 0 <= c < 64 -> Z.lxor c 63 = 63 - c.
Proof.
  intros Hc. assert (forallb (fun k => Z.lxor (Z.of_nat k) 63 =? 63 - Z.of_nat k) (seq 0 64) = true) as Hall
    by (by vm_compute).
  rewrite forallb_forall in Hall. specialize (Hall (Z.to_nat c)).
  rewrite Z2Nat.id in Hall by lia. apply Z.eqb_eq, Hall, in_seq. lia.
Qed.

Lemma int512_bit_size_loop_spec n w :
  limbs w -> (n <= length w)%nat -> int512_bit_size_loop n (64 * Z.of_nat n + 1) w = bits (eval (take n w)).
Proof.
  intros Hw. induction n as [|n IH]; intros Hn; [done|]. cbn [int512_bit_size_loop].
  replace (64 * Z.of_nat (S n) + 1 - 64) with (64 * Z.of_nat n + 1) by lia.
  rewrite eval_take_S by lia. pose proof (eval_take_bound w n Hw ltac:(lia)) as Hb.
  pose proof (limbs_lookup_total w n Hw ltac:(lia)) as Hx. unfold uword in Hx.
  destruct (decide (w !!! n <> 0)).
  - pose proof (clzll_spec (w !!! n)). rewrite lxor_63 by lia.
    unfold bits, modulus in *. rewrite decide_False by nia. rewrite log2_top_word by lia. lia.
  - assert (w !!! n = 0) as -> by lia. rewrite Z.mul_0_r, Z.add_0_r. apply IH. lia.
Qed.

(** The tail of [bit_size()], on an object that is not negative. *)
Lemma int512_bit_size_nonneg p : int512_nonneg p ->
  (if decide (if_high_value p <> 0) then 64 - clzll (if_high_value p) + 7 * 64
   else int512_bit_size_loop 7 (512 - 63) (if_value p)) = bits (sval p).
Proof.
  intros [Hp Hpn]. destruct (int512_uval_sval p Hp) as (_ & _ & Hsign). destruct Hp as (Hpl & Hplw & Hph).
  pose proof (eval_bound _ Hplw) as Hpb. unfold sval. rewrite Hpl, modulus_7 in *.
  destruct (decide (if_high_value p <> 0)).
  - assert (0 < if_high_value p) by lia. pose proof (clzll_spec (if_high_value p)).
    unfold bits. rewrite decide_False by lia. rewrite log2_top_word by lia. lia.
  - assert (if_high_value p = 0) as -> by lia.
    pose proof (int512_bit_size_loop_spec 7 (if_value p) Hplw ltac:(lia)) as Hloop. rewrite take_ge in Hloop by lia.
    rewrite Z.mul_0_r, Z.add_0_r. exact Hloop.
Qed.

Lemma int512_bit_size_value v : int512_wf v ->
  int512_bit_size v = if decide (sval v = - 2 ^ 511) then 512 else bits (Z.abs (sval v)).
Proof.
  intros Hv. unfold int512_bit_size. change (int512_sub_assign int512_zero v) with (int512_neg v).
  pose proof (int512_neg_exact v Hv) as Hneg. destruct (int512_neg_value v Hv) as [Hnwf _].
  destruct (int512_uval_sval v Hv) as (Hb & _ & _).
  destruct (int512_is_negative v) eqn:Hn.
  - apply int512_is_negative_iff in Hn; [|done]. destruct (decide (sval v = - 2 ^ 511)).
    + by rewrite (proj2 (int512_is_negative_iff _ Hnwf)) by lia.
    + rewrite (proj2 (int512_is_negative_false _ Hnwf)) by lia. cbn [andb].
      rewrite int512_bit_size_nonneg by (split; [done|lia]). f_equal. lia.
  - apply int512_is_negative_false in Hn; [|done]. cbn [andb].
    rewrite int512_bit_size_nonneg by done. rewrite decide_False by lia. f_equal. lia.
Qed.

(** ** Division *)

Lemma int512_neg_zero : int512_neg int512_zero = int512_zero.
Proof. vm_compute. reflexivity. Qed.

Lemma sval_one : sval int512_one = 1.
Proof. vm_compute. reflexivity. Qed.

Lemma sval_neg_one : sval (int512_neg int512_one) = -1.
Proof. vm_compute. reflexivity. Qed.

(** The operand [div()] works with: its absolute value. *)
Definition int512_magnitude_of (v : int512_t) : int512_t :=
  if int512_is_negative v then int512_neg v else v.

Lemma int512_magnitude_of_value v : int512_wf v -> - 2 ^ 511 < sval v ->
  int512_nonneg (int512_magnitude_of v) /\ sval (int512_magnitude_of v) = Z.abs (sval v).
Proof.
  intros Hv Hmin. unfold int512_magnitude_of. destruct (int512_is_negative v) eqn:Hn.
  - apply int512_is_negative_iff in Hn; [|done]. destruct (int512_neg_value v Hv) as [Hwf _].
    pose proof (int512_neg_exact v Hv) as He. rewrite decide_False in He by lia.
    split; [split; [done|]|]; lia.
  - apply int512_is_negative_false in Hn; [|done]. split; [split; [done|]|]; lia.
Qed.

Lemma int512_magnitude_of_min v : int512_wf v ->
  int512_is_negative (int512_magnitude_of v) = true <-> sval v = - 2 ^ 511.
Proof.
  intros Hv. destruct (int512_uval_sval v Hv) as (Hb & _).
  destruct (decide (sval v = - 2 ^ 511)) as [Hmin|Hmin].
  - unfold int512_magnitude_of. rewrite (proj2 (int512_is_negative_iff v Hv)) by lia.
    destruct (int512_neg_value v Hv) as [Hwf _]. pose proof (int512_neg_exact v Hv) as He.
    rewrite decide_True in He by done. rewrite int512_is_negative_iff by done. lia.
  - destruct (int512_magnitude_of_value v Hv ltac:(lia)) as [[Hwf Hnn] _].
    rewrite int512_is_negative_iff by done. lia.
Qed.

(** The aligned divisor. *)
Lemma int512_div_divisor a b : int512_nonneg a -> int512_nonneg b -> 0 < sval b < sval a ->
  let gap := int512_bit_size a - int512_bit_size b in
  exists D, int512_lsl b gap = Ok D /\ int512_nonneg D /\ sval D = sval b * 2 ^ gap /\
    0 <= gap /\ sval a < sval b * 2 ^ (gap + 1) /\ 2 ^ (gap + 1) <= 2 ^ 511.
Proof.
  intros [Ha Han] [Hb Hbn] Hlt. cbv zeta. rewrite !int512_bit_size_value by done.
  destruct (int512_uval_sval a Ha) as (Hab & _).
  rewrite !decide_False by lia. rewrite !Z.abs_eq by lia.
  destruct (div_gap (sval a) (sval b) 511) as (Hg & HD & HvD & Hlim); [lia..|].
  set (gap := bits (sval a) - bits (sval b)) in *. pose proof (pow2_pos gap Hg).
  destruct (int512_lsl_value b gap Hb Hg) as (D & -> & HDw & HDv).
  rewrite (int512_nonneg_uval b (conj Hb Hbn)) in HDv.
  destruct (int512_nonneg_intro D (sval b * 2 ^ gap)) as [? ?]; [done|nia|done|].
  exists D. split_and!; auto.
Qed.

(** A negative remainder is below every divisor: the loop never subtracts. *)
Lemma int512_div_loop_negative g R D : int512_wf R -> sval R < 0 -> int512_nonneg D ->
  div_loop g int512_zero R D = Ok (int512_zero, R).
Proof.
  intros HR Hneg. revert D. induction g as [|g IH]; intros D HD; [done|]. cbn [div_loop].
  change (big_lsl int512_zero 1) with (int512_lsl int512_zero 1).
  assert (int512_lsl int512_zero 1 = Ok int512_zero) as -> by (vm_compute; reflexivity). cbn [result_bind].
  destruct HD as [HDw HDn]. change (big_compare R D) with (int512_compare R D).
  rewrite int512_compare_value by done. pose proof (Z.sgn_spec (sval R - sval D)).
  rewrite decide_False by lia.
  destruct (@mag_shr _ _ int512_magnitude D (conj HDw HDn)) as (D1 & -> & HD1 & _). cbn [result_bind]. apply IH, HD1.
Qed.

(** The loop proper, by the sign of the dividend. *)
Lemma int512_div_loop_value v w :
  int512_wf v -> int512_nonneg w -> 0 < sval w < Z.abs (sval v) -> - 2 ^ 511 < sval v ->
  let gap := int512_bit_size (int512_magnitude_of v) - int512_bit_size w in
  exists D q r, int512_lsl w gap = Ok D /\
    div_loop (Z.to_nat (gap + 1)) int512_zero v D = Ok (q, r) /\ int512_nonneg q /\ int512_wf r /\
    sval q = (if decide (sval v < 0) then 0 else sval v / sval w) /\
    sval r = (if decide (sval v < 0) then sval v else sval v mod sval w).
Proof.
  intros Hv Hw Hlt Hmin. destruct (int512_magnitude_of_value v Hv Hmin) as [Ha Hav]. cbv zeta.
  destruct (int512_div_divisor (int512_magnitude_of v) w Ha Hw ltac:(lia)) as (D & HD & HDn & HDv & Hg & HvD & Hlim).
  set (gap := int512_bit_size (int512_magnitude_of v) - int512_bit_size w) in *. exists D.
  assert (int512_nonneg int512_zero) as Hz by (split; [exact int512_zero_wf | by vm_compute]).
  destruct (decide (sval v < 0)) as [Hneg|Hneg].
  - exists int512_zero, v. rewrite int512_div_loop_negative by done. split_and!; done.
  - destruct (@div_loop_value _ _ int512_magnitude (Z.to_nat (gap + 1)) (sval w) int512_zero v D)
      as (q & r & Heq & Hq & Hr & Hqv & Hrv);
      [exact Hz | split; [done|lia] | exact HDn | lia | | | |]; rewrite ?Z2Nat.id by lia.
    + intros _. replace (gap + 1 - 1) with gap by lia. exact HDv.
    + change (sval v < sval w * 2 ^ (gap + 1)). lia.
    + change ((0 + 1) * 2 ^ (gap + 1) <= 2 ^ 511). lia.
    + exists q, r. split_and!; try done. by destruct Hr.
Qed.

(** The cases of [div()] that return a result. *)
Lemma int512_div_value v w :
  int512_wf v -> int512_wf w -> sval w <> 0 -> - 2 ^ 511 < sval v -> - 2 ^ 511 < sval w ->
  exists q r, int512_div v w = Ok (q, r) /\ int512_wf q /\ int512_wf r /\
    sval q = (if decide (0 <= sval v) then sval v / Z.abs (sval w)
              else if decide (sval v = - Z.abs (sval w)) then -1 else 0) /\
    sval r = (if decide (0 <= sval v) then sval v mod Z.abs (sval w)
              else if decide (sval v = - Z.abs (sval w)) then 0 else sval v).
Proof.
  intros Hv Hw Hnz Hvmin Hwmin. unfold int512_div.
  assert (int512_is_zero w = false) as -> by (apply not_true_iff_false; rewrite int512_is_zero_value by done; done).
  cbv zeta.
  change (if int512_is_negative v then int512_neg v else v) with (int512_magnitude_of v).
  change (if int512_is_negative w then int512_neg w else w) with (int512_magnitude_of w).
  pose proof (int512_magnitude_of_min v Hv) as Hmv. pose proof (int512_magnitude_of_min w Hw) as Hmw.
  rewrite (proj1 (not_true_iff_false (int512_is_negative (int512_magnitude_of v)))) by (intros ?%Hmv; lia).
  rewrite (proj1 (not_true_iff_false (int512_is_negative (int512_magnitude_of w)))) by (intros ?%Hmw; lia).
  destruct (int512_magnitude_of_value v Hv Hvmin) as [Ha Hav].
  destruct (int512_magnitude_of_value w Hw Hwmin) as [Hb Hbv].
  pose proof int512_zero_wf. pose proof int512_one_wf. pose proof (int512_neg_value int512_one int512_one_wf) as [? _].
  cbn [orb]. rewrite int512_compare_value by (apply Ha || apply Hb). rewrite Hav, Hbv.
  pose proof (Z.sgn_spec (Z.abs (sval v) - Z.abs (sval w))) as Hsgn.
  pose proof (int512_is_negative_iff v Hv) as Hneg.
  destruct (decide (Z.sgn _ = -1)) as [Hlt|Hlt].
  { exists int512_zero, v. rewrite !(decide_False (P := sval v = - Z.abs (sval w))) by lia. change (sval int512_zero) with 0.
    split_and!; try done; destruct (decide (0 <= sval v)); try done;
      [rewrite Z.div_small | rewrite Z.mod_small]; lia. }
  destruct (decide (Z.sgn _ = 0)) as [Heq|Heq].
  { eexists _, _. split; [done|]. split; [by destruct (int512_is_negative v)|]. split; [done|].
    change (sval int512_zero) with 0. destruct (int512_is_negative v).
    - rewrite !(decide_False (P := 0 <= sval v)) by (pose proof (proj1 Hneg eq_refl); lia).
      rewrite !decide_True by lia. split; [exact sval_neg_one|done].
    - assert (0 <= sval v) by (apply Z.nlt_ge; intros ?; by assert (false = true) by (apply Hneg; lia)).
      rewrite !decide_True by lia. replace (Z.abs (sval w)) with (sval v) by lia.
      rewrite Z.div_same, Z.mod_same by lia. split; [exact sval_one|done]. }
  destruct (int512_div_loop_value v (int512_magnitude_of w) Hv Hb) as (D & q & r & HD & Hloop & [Hq _] & Hr & Hqv & Hrv);
    [lia|lia|]. cbv zeta in HD, Hloop. rewrite HD. cbn [result_bind]. rewrite Hloop. cbn [result_bind].
  rewrite Hbv in Hqv, Hrv. eexists _, r. split; [done|].
  destruct (decide (sval v < 0)) as [Hlt0|Hlt0].
  - rewrite (proj2 Hneg Hlt0). rewrite !(decide_False (P := 0 <= sval v)) by lia.
    rewrite !(decide_False (P := sval v = _)) by lia.
    assert (q = int512_zero) as -> by (apply sval_inj; done). rewrite int512_neg_zero. done.
  - rewrite (proj1 (not_true_iff_false (int512_is_negative v))) by (intros ?%Hneg; lia).
    rewrite !(decide_True (P := 0 <= sval v)) by lia. done.
Qed.

(** ** Bitwise operators *)

(** The bits of the signed number: those of the seven words, then those of the
    signed word. *)
Lemma sval_testbit v i : int512_wf v -> 0 <= i ->
  Z.testbit (sval v) i = if decide (i < 448) then Z.testbit (eval (if_value v)) i else Z.testbit (if_high_value v) (i - 448).
Proof.
  intros (Hlen & Hl & _) Hi. unfold sval. rewrite modulus_7.
  pose proof (eval_bound _ Hl) as Hb. rewrite Hlen, modulus_7 in Hb. by apply testbit_split.
Qed.

(** An operator acting bit by bit on the words acts bit by bit on the numbers. *)
Lemma sval_bitwise (op : Z -> Z -> Z) (f : bool -> bool -> bool) v w :
  (forall a b i, 0 <= i -> Z.testbit (op a b) i = f (Z.testbit a i) (Z.testbit b i)) ->
  (forall a b, limb a -> limb b -> limb (op a b)) -> op 0 0 = 0 ->
  (forall a b, - 2 ^ 63 <= a < 2 ^ 63 -> - 2 ^ 63 <= b < 2 ^ 63 -> - 2 ^ 63 <= op a b < 2 ^ 63) ->
  int512_wf v -> int512_wf w ->
  let r := Int512 (zip_with op (if_value v) (if_value w)) (op (if_high_value v) (if_high_value w)) in
  int512_wf r /\ sval r = op (sval v) (sval w).
Proof.
  intros Hop Hlimb H0 Hsigned Hv Hw r. pose proof Hv as (Hvl & Hvw & Hvh). pose proof Hw as (Hwl & Hww & Hwh).
  assert (int512_wf r) as Hr.
  { split_and!; cbn; [rewrite length_zip_with; lia| |by apply Hsigned|by apply Hsigned]. by apply limbs_zip_with. }
  split; [done|]. apply Z.bits_inj'. intros i Hi.
  rewrite Hop, !sval_testbit by done. cbn [r if_value if_high_value].
  rewrite (eval_zip_with op f) by (assumption || lia).
  destruct (decide (i < 448)); by rewrite Hop by lia.
Qed.

Lemma testbit_above x n i : 0 <= n <= i -> 0 <= x < 2 ^ n -> Z.testbit x i = false.
Proof. intros. rewrite <- (Z.mod_small x (2 ^ n)) by lia. apply Z.mod_pow2_bits_high. lia. Qed.

(** Signed words are closed under an operator that acts bit by bit: their bits
    from 63 on are all the sign. *)
Lemma signed_testbit a i : - 2 ^ 63 <= a < 2 ^ 63 -> 63 <= i -> Z.testbit a i = bool_decide (a < 0).
Proof.
  intros Ha Hi. destruct (decide (a < 0)).
  - rewrite bool_decide_eq_true_2 by done. rewrite <- (Z.lnot_involutive a), Z.lnot_spec by lia.
    rewrite (testbit_above _ 63) by (unfold Z.lnot; lia). done.
  - rewrite bool_decide_eq_false_2 by done. apply (testbit_above _ 63); lia.
Qed.

Lemma signed_of_bits x s : (forall i, 63 <= i -> Z.testbit x i = s) -> - 2 ^ 63 <= x < 2 ^ 63.
Proof.
  intros Hx. assert (Z.shiftr x 63 = if s then -1 else 0) as Hsh.
  { apply Z.bits_inj'. intros i Hi. rewrite Z.shiftr_spec, Hx by lia. destruct s; [by rewrite Z.bits_m1|by rewrite Z.bits_0]. }
  rewrite Z.shiftr_div_pow2 in Hsh by lia. pose proof (Z.div_mod x (2 ^ 63)). pose proof (Z.mod_pos_bound x (2 ^ 63)).
  destruct s; lia.
Qed.

Lemma signed_bitwise (op : Z -> Z -> Z) (f : bool -> bool -> bool) a b :
  (forall a b i, 0 <= i -> Z.testbit (op a b) i = f (Z.testbit a i) (Z.testbit b i)) ->
  - 2 ^ 63 <= a < 2 ^ 63 -> - 2 ^ 63 <= b < 2 ^ 63 -> - 2 ^ 63 <= op a b < 2 ^ 63.
Proof.
  intros Hop Ha Hb. apply signed_of_bits with (f (bool_decide (a < 0)) (bool_decide (b < 0))).
  intros i Hi. by rewrite Hop, !signed_testbit by lia.
Qed.

Lemma int512_and_value v w : int512_wf v -> int512_wf w ->
  int512_wf (int512_and v w) /\ sval (int512_and v w) = Z.land (sval v) (sval w).
Proof.
  apply (sval_bitwise Z.land andb); auto using limb_land; [intros; apply Z.land_spec|].
  intros a b. apply (signed_bitwise Z.land andb). intros. apply Z.land_spec.
Qed.

Lemma int512_or_value v w : int512_wf v -> int512_wf w ->
  int512_wf (int512_or v w) /\ sval (int512_or v w) = Z.lor (sval v) (sval w).
Proof.
  apply (sval_bitwise Z.lor orb); auto using limb_lor; [intros; apply Z.lor_spec|].
  intros a b. apply (signed_bitwise Z.lor orb). intros. apply Z.lor_spec.
Qed.

Lemma int512_xor_value v w : int512_wf v -> int512_wf w ->
  int512_wf (int512_xor v w) /\ sval (int512_xor v w) = Z.lxor (sval v) (sval w).
Proof.
  apply (sval_bitwise Z.lxor xorb); auto using limb_lxor; [intros; apply Z.lxor_spec|].
  intros a b. apply (signed_bitwise Z.lxor xorb). intros. apply Z.lxor_spec.
Qed.

(** ** Comparisons with 64-bit operands *)

Lemma int512_of_i64_value x : - 2 ^ 63 <= x < 2 ^ 63 -> int512_wf (int512_of_i64 x) /\ sval (int512_of_i64 x) = x.
Proof.
  intros Hx. unfold int512_of_i64. destruct (decide (x < 0)).
  - assert (wrap 64 x = x + 2 ^ 64) as -> by (apply mod_unique_pow with (-1); lia).
    split; [|unfold sval; cbn [if_value if_high_value replicate eval]; rewrite modulus_7; lia].
    split; [done|]. split; [|cbn; lia]. cbn [if_value replicate]. repeat constructor; lia.
  - assert (wrap 64 x = x) as -> by (apply Z.mod_small; lia).
    split; [|unfold sval; cbn [if_value if_high_value replicate eval]; rewrite modulus_7; lia].
    split; [done|]. split; [|cbn; lia]. cbn [if_value replicate]. repeat constructor; lia.
Qed.

(** The words above the first one, and the first word. *)
Lemma sval_first_word v : int512_wf v ->
  exists x0 x1 x2 x3 x4 x5 x6, if_value v = [x0; x1; x2; x3; x4; x5; x6] /\
  0 <= x0 < 2 ^ 64 /\ 0 <= x1 < 2 ^ 64 /\ 0 <= x2 < 2 ^ 64 /\ 0 <= x3 < 2 ^ 64 /\ 0 <= x4 < 2 ^ 64 /\
  0 <= x5 < 2 ^ 64 /\ 0 <= x6 < 2 ^ 64 /\
  sval v = x0 + 2 ^ 64 * (x1 + 2 ^ 64 * (x2 + 2 ^ 64 * (x3 + 2 ^ 64 * (x4 + 2 ^ 64 * (x5 + 2 ^ 64 * (x6
           + 2 ^ 64 * if_high_value v)))))).
Proof.
  destruct v as [l h]. intros (Hlen & Hl & _). cbn [if_value] in *. do 8 (destruct l as [|? l]; try done).
  rewrite !Forall_cons in Hl. unfold uword in Hl. eexists _, _, _, _, _, _, _. split; [done|].
  split_and!; try lia. unfold sval. cbn [if_value if_high_value eval]. rewrite modulus_7. lia.
Qed.

Lemma int512_eqb_i64_iff v x : int512_wf v -> - 2 ^ 63 <= x < 2 ^ 63 ->
  int512_eqb_i64 v x = true <-> sval v = x.
Proof.
  intros Hv Hx. destruct (sval_first_word v Hv) as (x0 & x1 & x2 & x3 & x4 & x5 & x6 & Hl & Hb).
  destruct Hv as (_ & _ & Hh). unfold int512_eqb_i64. rewrite Hl. cbn [forallb seq].
  cbn -[Z.pow Z.eqb]. rewrite !andb_true_iff, !Z.eqb_eq. unfold wrap. destruct (decide (x < 0)).
  - replace (x mod 2 ^ 64) with (x + 2 ^ 64) by (symmetry; apply mod_unique_pow with (-1); lia). lia.
  - rewrite Z.mod_small by lia. lia.
Qed.

Lemma int512_neb_i64_negb v x : int512_neb_i64 v x = negb (int512_eqb_i64 v x).
Proof.
  unfold int512_neb_i64, int512_eqb_i64. rewrite !negb_andb. do 2 f_equal.
  induction (seq 1 6) as [|i l IH]; [done|]. cbn [existsb forallb]. by rewrite IH, negb_andb.
Qed.

Lemma int512_neb_negb v w : int512_neb v w = negb (int512_eqb v w).
Proof.
  unfold int512_neb, int512_eqb. rewrite negb_andb. f_equal.
  induction (seq 0 7) as [|i l IH]; [done|]. cbn [existsb forallb]. by rewrite IH, negb_andb.
Qed.

Lemma int512_eqb_iff v w : int512_wf v -> int512_wf w -> int512_eqb v w = true <-> v = w.
Proof.
  intros (Hv & _) (Hw & _). destruct v as [a h], w as [b k]. unfold int512_eqb. cbn [if_value if_high_value] in *.
  rewrite andb_true_iff, Z.eqb_eq, forallb_forall. split; [|by intros [= -> ->]; split; [intros ? ?; apply Z.eqb_refl|]].
  intros [H ->]. f_equal. apply list_eq_same_length with 7%nat; [done..|].
  intros i x y Hi Hx Hy.
  assert (Z.eqb (a !!! i) (b !!! i) = true) as Heq by (apply H, in_seq; lia).
  apply Z.eqb_eq in Heq. by rewrite (list_lookup_total_correct _ _ _ Hx), (list_lookup_total_correct _ _ _ Hy) in Heq.
Qed.

Lemma existsb_neq_true (w : list Z) c idxs :
  existsb (fun i => negb (Z.eqb (w !!! i) c)) idxs = negb (forallb (fun i => Z.eqb (w !!! i) c) idxs).
Proof. induction idxs as [|i l IH]; [done|]. cbn [existsb forallb]. by rewrite IH, negb_andb. Qed.

Lemma int512_ltb_i64_iff v x : int512_wf v -> - 2 ^ 63 <= x < 2 ^ 63 ->
  int512_ltb_i64 v x = true <-> sval v < x.
Proof.
  intros Hv Hx. destruct (sval_first_word v Hv) as (x0 & x1 & x2 & x3 & x4 & x5 & x6 & Hl & Hb).
  destruct Hv as (_ & _ & Hh). unfold int512_ltb_i64, int512_is_positive, int512_is_negative.
  rewrite !existsb_neq_true, Hl. cbn -[Z.pow Z.eqb]. unfold wrap.
  rewrite <- !negb_andb. destruct (decide (x < 0)).
  - replace (x mod 2 ^ 64) with (x + 2 ^ 64) by (symmetry; apply mod_unique_pow with (-1); lia).
    destruct (bool_decide_reflect (if_high_value v >= 0)); [by split; [|lia]|].
    destruct (negb _) eqn:E; revert E;
      rewrite ?negb_true_iff, ?negb_false_iff, ?andb_false_iff, ?andb_true_iff, ?Z.eqb_eq, ?Z.eqb_neq; intros E;
      [split; [intros _|done]|rewrite bool_decide_eq_true]; lia.
  - rewrite (Z.mod_small x) by lia.
    destruct (bool_decide_reflect (if_high_value v < 0)); [split; [lia|done]|].
    destruct (negb _) eqn:E; revert E;
      rewrite ?negb_true_iff, ?negb_false_iff, ?andb_false_iff, ?andb_true_iff, ?Z.eqb_eq, ?Z.eqb_neq; intros E;
      [split; [done|]|rewrite bool_decide_eq_true]; lia.
Qed.

(** ** The low word of a right shift *)

Lemma eval_first_word w : (0 < length w)%nat -> limbs w -> w !!! 0%nat = eval w mod 2 ^ 64.
Proof.
  intros Hlen Hw. destruct Hw as [|x w Hx Hw]; [cbn in Hlen; lia|]. cbn [eval]. unfold uword in Hx.
  change (x = (x + 2 ^ 64 * eval w) mod 2 ^ 64). rewrite (Z.mul_comm (2 ^ 64)), Z.mod_add by lia.
  by rewrite Z.mod_small by lia.
Qed.

Lemma div_mod_low a b c t : 0 < b -> ((a + t * (b * c * 2 ^ 64)) / b) mod 2 ^ 64 = (a / b) mod 2 ^ 64.
Proof.
  intros Hb. replace (a + t * (b * c * 2 ^ 64)) with (a + t * c * 2 ^ 64 * b) by ring.
  rewrite Z.div_add by lia. apply Z.mod_add. lia.
Qed.

(** In the case [pos == 7] the word 0 is right, only the top words are not. *)
Lemma int512_asr_low_64_127 v n : int512_wf v -> 0 <= sval v -> 64 < n < 128 ->
  exists r, int512_asr v n = Ok r /\ if_value r !!! 0%nat = (int512_uval v / 2 ^ n) mod 2 ^ 64.
Proof.
  intros Hv Hnn Hn. destruct (int512_words_wf v Hv) as [Hlen Hl].
  assert (n / 64 = 1 /\ n mod 64 = n - 64) as [Hd Hm].
  { split; [symmetry; apply Z.div_unique with (n - 64)|symmetry; apply Z.mod_unique with 1]; lia. }
  assert (int512_is_negative v = false) as Hneg by (apply int512_is_negative_false; done).
  unfold int512_asr. rewrite Hneg, Hd, Hm. change (Z.to_nat 1) with 1%nat.
  rewrite (decide_False (P := n < 0)), (decide_False (P := n >= 512)), (decide_False (P := n = 0)) by lia.
  rewrite (decide_True (P := n - 64 <> 0)) by lia. cbn [Nat.sub]. rewrite !decide_True by (done || lia).
  pose proof (move_down_words (int512_words v) 0 1 ltac:(lia)) as Hmove. rewrite Hlen in Hmove. cbn [Nat.sub] in Hmove.
  rewrite Hmove. cbn [replicate]. set (w := drop 1 (int512_words v) ++ [0]).
  eexists. split; [reflexivity|]. cbn [if_value].
  assert (take 6 (if_value (int512_of_words w)) = take 6 (drop 1 (int512_words v))) as ->.
  { unfold int512_of_words. cbn [if_value]. rewrite take_take. unfold w. by rewrite take_app_le by (rewrite length_drop; lia). }
  set (u := take 6 (drop 1 (int512_words v))). set (hi := if_high_value (int512_of_words w)).
  assert (limbs u /\ length u = 6%nat) as [Hu Hul] by (split; [unfold u; auto with word|unfold u; rewrite length_take, length_drop; lia]).
  assert (wrap 64 (Z.shiftl hi (64 - (n - 64))) = hi mod 2 ^ (n - 64) * 2 ^ (64 - (n - 64))) as ->.
  { unfold wrap. rewrite Z.shiftl_mul_pow2 by lia. replace (2 ^ 64) with (2 ^ (n - 64) * 2 ^ (64 - (n - 64))) by
      (rewrite <- Z.pow_add_r by lia; f_equal; lia). apply Z.mul_mod_distr_r; apply Z.pow_nonzero; lia. }
  set (t := hi mod 2 ^ (n - 64)).
  destruct (lsr_loop (n - 64) (t * 2 ^ (64 - (n - 64))) u) as [r e] eqn:E.
  pose proof (pow2_pos (n - 64) ltac:(lia)).
  destruct (lsr_loop_spec (n - 64) t u r e) as (Hr & Hrl & _ & Hrv); [done|lia|apply Z.mod_pos_bound; lia|done|].
  cbn [fst]. rewrite lookup_total_app_l by lia. rewrite eval_first_word by (done || lia). rewrite Hrv, Hul.
  assert (modulus 6 = 2 ^ (n - 64) * 2 ^ (320 - (n - 64)) * 2 ^ 64) as ->.
  { unfold modulus. rewrite <- !Z.pow_add_r by lia. f_equal. lia. }
  rewrite div_mod_low by lia.
  assert (int512_uval v / 2 ^ 64 = eval u + modulus 6 * eval (drop 7 (int512_words v))) as Hsplit.
  { change (2 ^ 64) with (modulus 1). unfold int512_uval. rewrite <- eval_drop by (done || lia).
    rewrite <- (take_drop 6 (drop 1 (int512_words v))), eval_app, drop_drop. fold u. by rewrite Hul. }
  replace (2 ^ n) with (2 ^ 64 * 2 ^ (n - 64)) by (rewrite <- Z.pow_add_r by lia; f_equal; lia).
  rewrite <- Z.div_div by lia. rewrite Hsplit.
  assert (modulus 6 = 2 ^ (n - 64) * 2 ^ (320 - (n - 64)) * 2 ^ 64) as ->.
  { unfold modulus. rewrite <- !Z.pow_add_r by lia. f_equal. lia. }
  rewrite (Z.mul_comm (_ * _ * _)). symmetry. by apply div_mod_low.
Qed.

Lemma int512_asr_low v n : int512_wf v -> 0 <= sval v -> 0 <= n ->
  exists r, int512_asr v n = Ok r /\ if_value r !!! 0%nat = (sval v / 2 ^ n) mod 2 ^ 64.
Proof.
  intros Hv Hnn Hn. rewrite <- (int512_nonneg_uval v (conj Hv Hnn)).
  destruct (decide (64 < n < 128)); [by apply int512_asr_low_64_127|].
  destruct (int512_asr_logical v n Hv Hn ltac:(lia)) as (r & -> & Hr & Hu).
  exists r. split; [done|]. rewrite <- Hu. destruct (int512_words_wf r Hr) as [Hlen Hl]. destruct Hr as (Hrl & _).
  unfold int512_uval. rewrite <- eval_first_word by (done || lia).
  unfold int512_words. by rewrite lookup_total_app_l by lia.
Qed.

(** ** Conversion to long double *)

(** The significand of a positive number: its 64 upper bits. *)
Definition significand (x : Z) : Z :=
  if decide (bits x <= 64) then x * 2 ^ (64 - bits x) else x / 2 ^ (bits x - 64).

Lemma significand_range x : 0 < x -> 2 ^ 63 <= significand x < 2 ^ 64.
Proof.
  intros Hx. pose proof (bits_spec x ltac:(lia)) as (H0 & H1 & H2). specialize (H2 ltac:(lia)).
  unfold significand. destruct (decide _).
  - pose proof (pow2_pos (64 - bits x) ltac:(lia)).
    assert (2 ^ 64 = 2 ^ bits x * 2 ^ (64 - bits x)) as -> by (rewrite <- Z.pow_add_r by lia; f_equal; lia).
    pose proof (bits_pos x Hx).
    assert (2 ^ 63 = 2 ^ (bits x - 1) * 2 ^ (64 - bits x)) as -> by (rewrite <- Z.pow_add_r by lia; f_equal; lia). nia.
  - pose proof (pow2_pos (bits x - 64) ltac:(lia)). split.
    + apply Z.div_le_lower_bound; [done|]. rewrite <- Z.pow_add_r by lia.
      by replace (bits x - 64 + 63) with (bits x - 1) by lia.
    + apply Z.div_lt_upper_bound; [done|]. rewrite <- Z.pow_add_r by lia.
      by replace (bits x - 64 + 64) with (bits x) by lia.
Qed.

Lemma int512_abs_min v : int512_wf v -> sval v = - 2 ^ 511 -> int512_abs v = v.
Proof.
  intros Hv Hmin. destruct (int512_neg_value v Hv) as [Hwf Hn]. unfold int512_abs.
  destruct (decide _); [|done]. apply sval_inj; [done..|]. rewrite (int512_neg_exact v Hv), decide_True by done. done.
Qed.

Lemma lor_sign_exponent (s : bool) e : 0 <= e < 2 ^ 15 ->
  Z.lor (if s then Z.shiftl 1 15 else 0) e = (if s then 2 ^ 15 else 0) + e.
Proof.
  intros He. destruct s; [|done]. change (Z.shiftl 1 15) with (1 * 2 ^ 15). by rewrite lor_low_high by lia.
Qed.

Lemma int512_to_floating_point_value v : int512_wf v -> sval v <> 0 ->
  int512_to_floating_point v =
    Ok (if decide (bits (Z.abs (sval v)) = 63) then Z.abs (sval v) else significand (Z.abs (sval v)),
        (if int512_is_negative v then 2 ^ 15 else 0) + 16382 + bits (Z.abs (sval v))).
Proof.
  intros Hv Hnz. destruct (decide (sval v = - 2 ^ 511)) as [Hmin|Hmin].
  { assert (v = int512_min) as -> by (apply sval_inj; [done|closed_decide|done]). vm_compute. reflexivity. }
  unfold int512_to_floating_point.
  assert (int512_is_zero v = false) as -> by (apply not_true_iff_false; rewrite int512_is_zero_value by done; done).
  destruct (int512_uval_sval v Hv) as (Hb & _ & Hsign).
  assert (int512_abs v = int512_magnitude_of v) as ->.
  { unfold int512_abs, int512_magnitude_of, int512_is_negative. by destruct (decide _); rewrite ?bool_decide_eq_true_2, ?bool_decide_eq_false_2 by done. }
  destruct (int512_magnitude_of_value v Hv ltac:(lia)) as [[Ha Han] Hav].
  set (p := int512_magnitude_of v) in *. cbv zeta.
  rewrite int512_bit_size_value by done. rewrite (decide_False (P := sval p = - 2 ^ 511)) by lia. rewrite (Z.abs_eq (sval p)), Hav by lia.
  set (x := Z.abs (sval v)) in *. pose proof (bits_spec x ltac:(lia)) as (H0 & H1 & _).
  pose proof (bits_le x 511 ltac:(lia) ltac:(lia)). pose proof (significand_range x ltac:(lia)) as Hsig.
  rewrite lor_sign_exponent by lia. rewrite Z.add_assoc. unfold significand in *.
  destruct (decide (bits x < 63)) as [Hlt|Hlt].
  - rewrite (decide_True (P := bits x <= 64)) in * by lia. rewrite (decide_False (P := bits x = 63)) by lia.
    destruct (int512_lsl_value p (64 - bits x) Ha ltac:(lia)) as (r & -> & Hr & Hu). cbn [result_bind].
    destruct (int512_words_wf r Hr) as [Hlen Hl]. destruct Hr as (Hrl & _).
    rewrite (int512_nonneg_uval p (conj Ha Han)), Hav, Z.mod_small in Hu by lia.
    do 2 f_equal. rewrite <- (Z.mod_small (x * _) (2 ^ 64)) by lia. rewrite <- Hu. unfold int512_uval.
    rewrite <- eval_first_word by (done || lia). unfold int512_words. by rewrite lookup_total_app_l by lia.
  - destruct (decide (bits x > 64)) as [Hgt|Hgt].
    + rewrite (decide_False (P := bits x <= 64)) in * by lia. rewrite (decide_False (P := bits x = 63)) by lia.
      destruct (int512_asr_low p (bits x - 64) Ha Han ltac:(lia)) as (r & -> & Hr). cbn [result_bind].
      do 2 f_equal. rewrite Hr, Hav. apply Z.mod_small. lia.
    + cbn [result_bind]. assert (if_value p !!! 0%nat = x) as ->.
      { destruct (int512_asr_low p 0 Ha Han ltac:(lia)) as (r & Hr & Hrv). injection Hr as <-.
        rewrite Hrv, Hav, Z.div_1_r. apply Z.mod_small. pose proof (Z.pow_le_mono_r 2 (bits x) 64). lia. }
      rewrite (decide_True (P := bits x <= 64)) by lia. do 2 f_equal. destruct (decide (bits x = 63)); [done|].
      replace (64 - bits x) with 0 by lia. lia.
Qed.

(** ** Main theorems *)

(** The additive operators and the multiplication of [int512_t] compute the
    signed result modulo 2^512, keep the object well formed, and the
    multiplication ends; the negation is exact but for the smallest number, which
    is its own opposite. *)
Theorem int512_ring_operations v w :
  int512_wf v -> int512_wf w ->
  (int512_wf (int512_add_assign v w) /\ sval (int512_add_assign v w) = smod (sval v + sval w)) /\
  (int512_wf (int512_sub_assign v w) /\ sval (int512_sub_assign v w) = smod (sval v - sval w)) /\
  sval (int512_neg v) = (if decide (sval v = - 2 ^ 511) then - 2 ^ 511 else - sval v) /\
  sval (int512_incr v) = smod (sval v + 1) /\ sval (int512_decr v) = smod (sval v - 1) /\
  exists p, int512_mul_assign v w = Ok p /\ int512_wf p /\ sval p = smod (sval v * sval w).
Proof.
  intros Hv Hw. destruct (int512_of_i64_value 1 ltac:(lia)) as [H1 Hs1].
  split; [by apply int512_add_value|]. split; [by apply int512_sub_value|]. split; [by apply int512_neg_exact|].
  split; [|split; [|by apply int512_mul_assign_value]].
  - rewrite <- Hs1. by apply int512_add_value.
  - rewrite <- Hs1. by apply int512_sub_value.
Qed.

Lemma int512_ring_operations_witness :
  sval (int512_incr int512_max) = - 2 ^ 511 /\ sval (int512_neg int512_min) = - 2 ^ 511.
Proof.
  assert (int512_wf int512_max) as Hv by closed_decide.
  assert (int512_wf int512_min) as Hw by closed_decide.
  destruct (int512_ring_operations int512_max int512_max Hv Hv) as (_ & _ & _ & H1 & _).
  destruct (int512_ring_operations int512_min int512_min Hw Hw) as (_ & _ & H2 & _).
  split; [rewrite H1; vm_compute; reflexivity | rewrite H2; vm_compute; reflexivity].
Defined.

(** [compare()] is the sign of the difference of the signed numbers, the
    relational operators decide their order and equality, those that take a
    64-bit operand too, and [bit_size()] is the size of the absolute value (512
    for the smallest number). *)
Theorem int512_comparisons v w x :
  int512_wf v -> int512_wf w -> - 2 ^ 63 <= x < 2 ^ 63 ->
  int512_compare v w = Z.sgn (sval v - sval w) /\
  (int512_ltb v w = true <-> sval v < sval w) /\ (int512_leb v w = true <-> sval v <= sval w) /\
  (int512_gtb v w = true <-> sval v > sval w) /\ (int512_geb v w = true <-> sval v >= sval w) /\
  (int512_eqb v w = true <-> sval v = sval w) /\ int512_neb v w = negb (int512_eqb v w) /\
  (int512_eqb_i64 v x = true <-> sval v = x) /\ int512_neb_i64 v x = negb (int512_eqb_i64 v x) /\
  (int512_ltb_i64 v x = true <-> sval v < x) /\
  int512_bit_size v = (if decide (sval v = - 2 ^ 511) then 512 else bits (Z.abs (sval v))).
Proof.
  intros Hv Hw Hx. pose proof (Z.sgn_spec (sval v - sval w)) as Hsgn.
  unfold int512_ltb, int512_leb, int512_gtb, int512_geb.
  rewrite !bool_decide_eq_true, !int512_compare_value by done.
  split; [done|]. do 4 (split; [lia|]).
  split; [rewrite int512_eqb_iff by done; split; [by intros ->|by apply sval_inj]|].
  split; [apply int512_neb_negb|]. split; [by apply int512_eqb_i64_iff|]. split; [apply int512_neb_i64_negb|].
  split; [by apply int512_ltb_i64_iff|by apply int512_bit_size_value].
Qed.

Lemma int512_comparisons_witness :
  int512_ltb_i64 (int512_of_i64 (-5)) (-4) = true /\ int512_bit_size int512_min = 512.
Proof.
  assert (int512_wf (int512_of_i64 (-5))) as Hv by closed_decide.
  assert (int512_wf int512_min) as Hw by closed_decide.
  destruct (int512_comparisons _ _ (-4) Hv Hw ltac:(lia)) as (_ & _ & _ & _ & _ & _ & _ & _ & _ & H1 & _).
  destruct (int512_comparisons _ _ (-4) Hw Hv ltac:(lia)) as (_ & _ & _ & _ & _ & _ & _ & _ & _ & _ & H2).
  split; [apply H1; vm_compute; reflexivity | rewrite H2; vm_compute; reflexivity].
Defined.

(** [lsl] multiplies by a power of two modulo 2^512.  [asr] is the arithmetic
    shift when the number is not negative and the count is not strictly between
    64 and 128, and for every sign when whole words are shifted or the count
    reaches 512; below 64 it shifts the eight words as an unsigned number,
    whatever the sign.  Both refuse a negative count. *)
Theorem int512_shifts v n :
  int512_wf v ->
  (n < 0 -> int512_lsl v n = Throw out_of_range /\ int512_asr v n = Throw out_of_range) /\
  (0 <= n -> exists r, int512_lsl v n = Ok r /\ int512_wf r /\ sval r = smod (sval v * 2 ^ n)) /\
  (0 <= n -> 0 <= sval v /\ (n <= 64 \/ 128 <= n) \/ n mod 64 = 0 \/ 512 <= n ->
   exists r, int512_asr v n = Ok r /\ int512_wf r /\ sval r = sval v / 2 ^ n) /\
  (0 <= n < 64 -> exists r, int512_asr v n = Ok r /\ int512_wf r /\ int512_uval r = int512_uval v / 2 ^ n).
Proof.
  intros Hv. split; [|split; [|split]].
  - intros Hn. unfold int512_lsl, int512_asr. by rewrite !decide_True by done.
  - intros Hn. destruct (int512_lsl_value v n Hv Hn) as (r & ? & Hr & Hu). exists r. split_and!; [done..|].
    apply sval_smod; [done|]. rewrite Hu, int512_uval_mod by done. by rewrite Z.mul_mod_idemp_l by lia.
  - intros Hn Hcase. destruct (int512_uval_sval v Hv) as (Hb & _).
    destruct (decide (512 <= n)).
    { assert (n mod 64 = 0 \/ n mod 64 <> 0) as [?|?] by lia; [by apply int512_asr_whole_words|].
      destruct (int512_asr_whole_words v 512 Hv ltac:(lia) eq_refl) as (r & Hr & Hwf & Hs).
      exists r. split_and!; [|done|].
      - rewrite <- Hr. unfold int512_asr. by rewrite !(decide_False (P := _ < 0)), !(decide_True (P := _ >= 512)) by lia.
      - rewrite Hs. pose proof (Z.pow_le_mono_r 2 512 n ltac:(lia) ltac:(lia)). destruct (decide (0 <= sval v)).
        + rewrite !Z.div_small by lia. done.
        + rewrite <- (Z.div_unique_pos (sval v) (2 ^ 512) (-1) (sval v + 2 ^ 512)) by lia.
          apply Z.div_unique_pos with (sval v + 2 ^ n); lia. }
    destruct Hcase as [[Hnn Hrange]|[Hmod|?]]; [|by apply int512_asr_whole_words|lia].
    destruct (int512_asr_logical v n Hv Hn ltac:(lia)) as (r & ? & Hr & Hu). exists r. split_and!; [done..|].
    pose proof (pow2_pos n Hn). assert (0 <= sval v / 2 ^ n < 2 ^ 511).
    { split; [apply Z.div_pos; lia|]. apply Z.div_lt_upper_bound; [done|]. nia. }
    apply sval_unique; [done|lia|]. rewrite Hu, (int512_nonneg_uval v (conj Hv Hnn)). symmetry. apply Z.mod_small. lia.
  - intros Hn. apply int512_asr_logical; auto; lia.
Qed.

Lemma int512_shifts_witness :
  exists r, int512_asr (int512_of_i64 (-5)) 128 = Ok r /\ sval r = -1.
Proof.
  assert (int512_wf (int512_of_i64 (-5))) as Hv by closed_decide.
  destruct (int512_shifts _ 128 Hv) as (_ & _ & H & _).
  destruct (H ltac:(lia) ltac:(right; left; reflexivity)) as (r & H1 & _ & H2).
  exists r. split; [exact H1|]. rewrite H2. vm_compute. reflexivity.
Defined.

(** What the test for [pos == 7] costs: -8 shifted by one bit is a huge positive
    number, and 2^511 - 1 shifted by 65 bits keeps the low bit of a word that was
    not shifted. *)
Lemma int512_asr_defect :
  (exists r, int512_asr (int512_of_i64 (-8)) 1 = Ok r /\ sval r = 2 ^ 511 - 4) /\
  (exists r, int512_asr int512_max 65 = Ok r /\ sval r <> sval int512_max / 2 ^ 65).
Proof.
  split; eexists; (split; [vm_compute; reflexivity|]); vm_compute; [reflexivity|discriminate].
Qed.

(** Every case of [div()]: it throws for a zero divisor and for an operand
    that has no opposite; with a dividend that is not negative it returns the
    quotient and the remainder by the absolute value of the divisor; with a
    negative dividend it returns -1 and 0 when the magnitudes are equal, and
    otherwise 0 and the dividend itself, the loop running over a negative
    remainder. *)
Theorem int512_division v w :
  int512_wf v -> int512_wf w ->
  (sval w = 0 -> int512_div v w = Throw logic_error) /\
  (sval w <> 0 -> sval v = - 2 ^ 511 \/ sval w = - 2 ^ 511 -> int512_div v w = Throw invalid_number) /\
  (sval w <> 0 -> - 2 ^ 511 < sval v -> - 2 ^ 511 < sval w ->
   exists q r, int512_div v w = Ok (q, r) /\ int512_wf q /\ int512_wf r /\
     sval q = (if decide (0 <= sval v) then sval v / Z.abs (sval w)
               else if decide (sval v = - Z.abs (sval w)) then -1 else 0) /\
     sval r = (if decide (0 <= sval v) then sval v mod Z.abs (sval w)
               else if decide (sval v = - Z.abs (sval w)) then 0 else sval v)).
Proof.
  intros Hv Hw. split; [|split; [|by apply int512_div_value]].
  - intros Hz. unfold int512_div. by rewrite (proj2 (int512_is_zero_value w Hw) Hz).
  - intros Hnz Hmin. unfold int512_div.
    assert (int512_is_zero w = false) as -> by (apply not_true_iff_false; rewrite int512_is_zero_value by done; done).
    cbv zeta. change (if int512_is_negative v then int512_neg v else v) with (int512_magnitude_of v).
    change (if int512_is_negative w then int512_neg w else w) with (int512_magnitude_of w).
    destruct Hmin as [Hmin|Hmin].
    + by rewrite (proj2 (int512_magnitude_of_min v Hv) Hmin).
    + by rewrite (proj2 (int512_magnitude_of_min w Hw) Hmin), orb_true_r.
Qed.

Lemma int512_division_witness :
  exists q r, int512_div (int512_of_i64 1000) (int512_of_i64 (-7)) = Ok (q, r) /\ sval q = 142 /\ sval r = 6.
Proof.
  assert (int512_wf (int512_of_i64 1000)) as Hv by closed_decide.
  assert (int512_wf (int512_of_i64 (-7))) as Hw by closed_decide.
  destruct (int512_division _ _ Hv Hw) as (_ & _ & H).
  destruct (H ltac:(vm_compute; discriminate) ltac:(vm_compute; reflexivity) ltac:(vm_compute; reflexivity))
    as (q & r & H1 & _ & _ & H2 & H3).
  exists q, r. split; [exact H1|]. rewrite H2, H3. vm_compute. split; reflexivity.
Defined.

(** The bitwise operators act on the bits of the infinite two's complement
    expansions of the signed numbers. *)
Theorem int512_bitwise v w :
  int512_wf v -> int512_wf w ->
  (int512_wf (int512_and v w) /\ sval (int512_and v w) = Z.land (sval v) (sval w)) /\
  (int512_wf (int512_or v w) /\ sval (int512_or v w) = Z.lor (sval v) (sval w)) /\
  (int512_wf (int512_xor v w) /\ sval (int512_xor v w) = Z.lxor (sval v) (sval w)).
Proof.
  intros Hv Hw. auto using int512_and_value, int512_or_value, int512_xor_value.
Qed.

Lemma int512_bitwise_witness : sval (int512_and (int512_of_i64 (-8)) int512_max) = 2 ^ 511 - 8.
Proof.
  assert (int512_wf (int512_of_i64 (-8))) as Hv by closed_decide.
  assert (int512_wf int512_max) as Hw by closed_decide.
  destruct (int512_bitwise _ _ Hv Hw) as ([_ H] & _). rewrite H. vm_compute. reflexivity.
Defined.

(** [to_floating_point()] never throws; it writes the sign, the biased
    exponent of the most significant bit and the 64 upper bits of the absolute
    value, truncated, the leading one in the top bit; a number of exactly 63 bits
    is the exception, its significand is not normalized. *)
Theorem int512_to_long_double v :
  int512_wf v ->
  (sval v = 0 -> int512_to_floating_point v = Ok (0, 0)) /\
  (sval v <> 0 ->
   exists m, int512_to_floating_point v =
     Ok (m, (if decide (sval v < 0) then 2 ^ 15 else 0) + 16382 + bits (Z.abs (sval v))) /\
   (bits (Z.abs (sval v)) <> 63 -> m = significand (Z.abs (sval v)) /\ 2 ^ 63 <= m < 2 ^ 64) /\
   (bits (Z.abs (sval v)) = 63 -> m = Z.abs (sval v) /\ m < 2 ^ 63)).
Proof.
  intros Hv. split.
  - intros Hz. unfold int512_to_floating_point. by rewrite (proj2 (int512_is_zero_value v Hv) Hz).
  - intros Hnz. rewrite int512_to_floating_point_value by done.
    pose proof (significand_range (Z.abs (sval v)) ltac:(lia)).
    pose proof (bits_spec (Z.abs (sval v)) ltac:(lia)) as (_ & Hlt & _).
    assert ((if int512_is_negative v then 2 ^ 15 else 0) = (if decide (sval v < 0) then 2 ^ 15 else 0)) as ->.
    { pose proof (int512_is_negative_iff v Hv). pose proof (int512_is_negative_false v Hv).
      destruct (int512_is_negative v), (decide (sval v < 0)); try done; intuition lia. }
    destruct (decide (bits (Z.abs (sval v)) = 63)) as [He|He]; eexists; (split; [reflexivity|]); split; try done.
    intros _. rewrite He in Hlt. done.
Qed.

Lemma int512_to_long_double_witness :
  exists m, int512_to_floating_point (int512_of_i64 (-3)) = Ok (m, 2 ^ 15 + 16384) /\ m = 3 * 2 ^ 62.
Proof.
  assert (int512_wf (int512_of_i64 (-3))) as Hv by closed_decide.
  destruct (int512_to_long_double _ Hv) as [_ H].
  destruct (H ltac:(vm_compute; discriminate)) as (m & H1 & H2 & _). exists m. split; [exact H1|].
  destruct (H2 ltac:(vm_compute; discriminate)) as [H3 _]. rewrite H3. vm_compute. reflexivity.
Defined.
