(* ===== verification/BigText.v ===== *)
(** * Text forms of the big integers (from_string() and to_string() of
    prinbee/bigint/uint512.cpp and prinbee/bigint/int512.cpp)

    A string is the list of its character codes.  The hexadecimal helpers come
    from the snapdev library, whose code is not part of the repository: they are
    the parameters [is_hexdigit] and [hexdigit_to_number], of which the theorems
    assume the documented behaviour ([HexdigitLaws]). *)

From S2P Require Import Prelude Limbs BigLoops Uint512 Int512.

Section FromString.
  Context (is_hexdigit : Z -> bool) (hexdigit_to_number : Z -> Z).

(** The three loops over the digits that follow "0b", "0o" and "0x": the number
    is shifted by [shift] and the digit is added. *)
Fixpoint from_string_shift (is_digit : Z -> bool) (value : Z -> Z) (shift : Z) (v : uint512_t) (s : list Z) : result uint512_t :=
  match s with
  | [] => Ok v
  | c :: s =>
      if negb (is_digit c) then Throw unexpected_token
      else
        let! v := uint512_lsl v shift in
        from_string_shift is_digit value shift (uint512_add_assign_u64 v (wrap 64 (value c))) s
  end.

(** The loop over decimal digits. *)
Fixpoint from_string_decimal (v : uint512_t) (s : list Z) : result uint512_t :=
  match s with
  | [] => Ok v
  | c :: s =>
      if decide (c < (chr: "0") \/ c > (chr: "9")) then Throw unexpected_token
      else
        let! v := uint512_mul_assign_u64 v 10 in
        from_string_decimal (uint512_add_assign_u64 v (wrap 64 (c - (chr: "0")))) s
  end.

(** [uint512_t::from_string()].  The branch for octal digits has no [return]:
    the decimal loop runs after it, over the whole string. *)
Definition uint512_from_string (s : list Z) : result uint512_t :=
  let v := uint512_zero in
  match s with
  | s0 :: s1 :: ((_ :: _) as digits) =>
      if decide (s0 = (chr: "0") /\ (s1 = (chr: "b") \/ s1 = (chr: "B")))
      then from_string_shift (fun c => negb (bool_decide (c < (chr: "0") \/ c > (chr: "1")))) (fun c => c - (chr: "0")) 1 v digits
      else if decide (s0 = (chr: "0") /\ (s1 = (chr: "o") \/ s1 = (chr: "O")))
      then
        let! v := from_string_shift (fun c => negb (bool_decide (c < (chr: "0") \/ c > (chr: "7")))) (fun c => c - (chr: "0")) 3 v digits in
        from_string_decimal v s
      else if decide (s0 = (chr: "0") /\ (s1 = (chr: "x") \/ s1 = (chr: "X")))
      then from_string_shift is_hexdigit hexdigit_to_number 4 v digits
      else from_string_decimal v s
  | _ => from_string_decimal v s
  end.

(** [int512_t::from_string()] *)
Definition int512_from_string (s : list Z) : result int512_t :=
  let! '(v, negate) :=
    match s with
    | [] => Ok (uint512_zero, false)
    | s0 :: rest =>
        if decide (s0 = (chr: "+")) then let! v := uint512_from_string rest in Ok (v, false)
        else if decide (s0 = (chr: "-")) then let! v := uint512_from_string rest in Ok (v, true)
        else let! v := uint512_from_string s in Ok (v, false)
    end in
  let r := Int512 (take 7 (uf_value v)) (signed 64 (uf_value v !!! 7%nat)) in
  Ok (if (negate : bool) then int512_neg r else r).
End FromString.

(** ** to_string() *)

(** A digit, from its value. *)
Definition digit_char (uppercase : bool) (d : Z) : Z :=
  if decide (d >= 10) then d + ((if uppercase then (chr: "A") else (chr: "a")) - 10) else d + (chr: "0").

(** The loops of the bases 2, 8 and 16: the digit is the low bits of the first
    word; the digits are produced in reverse. *)
Fixpoint to_string_shift (fuel : nat) (uppercase : bool) (shift : Z) (v : uint512_t) (acc : list Z) : result (list Z) :=
  if uint512_is_zero v then Ok acc
  else
    match fuel with
    | O => Throw fuel_exhausted
    | S fuel =>
        let acc := acc ++ [digit_char uppercase (Z.land (uf_value v !!! 0%nat) (2 ^ shift - 1))] in
        let! v := uint512_lsr v shift in
        to_string_shift fuel uppercase shift v acc
    end.

(** The loop of the other bases. *)
Fixpoint to_string_div (fuel : nat) (uppercase : bool) (divisor : uint512_t) (v : uint512_t) (acc : list Z) : result (list Z) :=
  if uint512_is_zero v then Ok acc
  else
    match fuel with
    | O => Throw fuel_exhausted
    | S fuel =>
        let! '(v, remainder) := uint512_div v divisor in
        to_string_div fuel uppercase divisor v (acc ++ [digit_char uppercase (uf_value remainder !!! 0%nat)])
    end.

(** The digits of a non-zero [std::uint64_t] as a stream writes them. *)
Fixpoint ostream_digits (fuel : nat) (base : Z) (uppercase : bool) (x : Z) (acc : list Z) : list Z :=
  match fuel with
  | O => acc
  | S fuel =>
      if decide (x = 0) then acc
      else ostream_digits fuel base uppercase (x / base) (digit_char uppercase (x mod base) :: acc)
  end.

(** [ss << std::showbase << std::uppercase << std::setbase(base) << x], for a
    non-zero [x] *)
Definition ostream_u64 (base : Z) (showbase uppercase : bool) (x : Z) : list Z :=
  (if showbase
   then if decide (base = 8) then (str: "0")
        else if decide (base = 16) then (if uppercase then (str: "0X") else (str: "0x"))
        else []
   else []) ++ ostream_digits 64 base uppercase x [].

(** The introducer of [to_string()]. *)
Definition to_string_intro (base : Z) (uppercase : bool) : list Z :=
  if decide (base = 2) then (if uppercase then (str: "0B") else (str: "0b"))
  else if decide (base = 8) then (str: "0")
  else if decide (base = 16) then (if uppercase then (str: "0X") else (str: "0x"))
  else [].

Definition uint512_to_string (v : uint512_t) (base : Z) (introducer uppercase : bool) : result (list Z) :=
  let small := forallb (fun idx => Z.eqb (uf_value v !!! idx) 0) (seq 1 7) in
  if small && Z.eqb (uf_value v !!! 0%nat) 0 then Ok (str: "0")
  else if small && bool_decide (base = 8 \/ base = 10 \/ base = 16)
  then Ok (ostream_u64 base introducer uppercase (uf_value v !!! 0%nat))
  else
    let! result :=
      if decide (base = 2) then to_string_shift 512 uppercase 1 v []
      else if decide (base = 8) then to_string_shift 512 uppercase 3 v []
      else if decide (base = 16) then to_string_shift 512 uppercase 4 v []
      else if decide (base < 2 \/ base > 36) then Throw conversion_unavailable
      else to_string_div 512 uppercase (uint512_of_u64 base) v [] in
    let result := rev result in
    Ok (if introducer then to_string_intro base uppercase ++ result else result).

(** [int512_t::to_string()] *)
Definition int512_to_string (i : int512_t) (base : Z) (introducer uppercase : bool) : result (list Z) :=
  let v := uint512_of_int512 i in
  let v' := if int512_is_negative i then uint512_neg v else v in
  let! r := uint512_to_string v' base introducer uppercase in
  Ok ((if int512_is_negative i then (str: "-") else []) ++ r).

Example to_string_1 : uint512_to_string (Uint512 [0; 1; 0; 0; 0; 0; 0; 0]) 16 true false = Ok (str: "0x10000000000000000").
Proof. vm_compute. reflexivity. Qed.

Example to_string_2 : int512_to_string (int512_of_i64 (-1234567)) 10 true false = Ok (str: "-1234567").
Proof. vm_compute. reflexivity. Qed.

Example to_string_3 : uint512_to_string (uint512_of_u64 8) 8 true false = Ok (str: "010").
Proof. vm_compute. reflexivity. Qed.

(** ** Numerals *)

(** [ds] is the numeral of [x]: digits of the base, no leading zero. *)
Definition is_numeral (base x : Z) (ds : list Z) : Prop :=
  Forall (fun d => 0 <= d < base) ds /\ horner base ds = x /\ head ds <> Some 0.

Lemma is_numeral_snoc base x ds : 2 <= base -> 0 < x ->
  is_numeral base (x / base) ds -> is_numeral base x (ds ++ [x mod base]).
Proof.
  intros Hb Hx (Hds & Hh & Hhead). pose proof (Z.mod_pos_bound x base ltac:(lia)).
  pose proof (Z.div_mod x base ltac:(lia)). split_and!.
  - apply Forall_app_2; [done|]. by constructor.
  - rewrite horner_app, Hh. lia.
  - destruct ds as [|d ds]; [|done]. change (0 = x / base) in Hh. cbn. intros [= Hz]. lia.
Qed.

(** The digit of a base a character stands for. *)
Definition digit_of (base c : Z) : option Z :=
  let d := if decide ((chr: "0") <= c <= (chr: "9")) then Some (c - (chr: "0"))
           else if decide ((chr: "a") <= c <= (chr: "z")) then Some (c - (chr: "a") + 10)
           else if decide ((chr: "A") <= c <= (chr: "Z")) then Some (c - (chr: "A") + 10)
           else None in
  match d with
  | Some d => if decide (d < base) then Some d else None
  | None => None
  end.

Lemma digit_of_range base c d : digit_of base c = Some d -> 0 <= d < base /\ d < 36.
Proof.
  unfold digit_of. intros Hd.
  repeat (destruct (decide _) in Hd; [|]); simplify_eq; try lia; repeat case_decide; simplify_eq; lia.
Qed.

Lemma digit_of_char u base d : base <= 36 -> 0 <= d < base -> digit_of base (digit_char u d) = Some d.
Proof.
  intros Hb Hd. unfold digit_char, digit_of. destruct (decide (d >= 10)).
  - destruct u; rewrite decide_False by lia.
    + rewrite decide_False by lia. rewrite !decide_True by lia. f_equal. lia.
    + rewrite !decide_True by lia. f_equal. lia.
  - rewrite !decide_True by lia. f_equal. lia.
Qed.

Lemma mapM_digit_of_chars u base ds : base <= 36 -> Forall (fun d => 0 <= d < base) ds ->
  mapM (digit_of base) (digit_char u <$> ds) = Some ds.
Proof.
  intros Hb Hds. induction Hds as [|d ds Hd Hds IH]; [done|]. cbn. rewrite digit_of_char by done. cbn. by rewrite IH.
Qed.

(** ** Reading *)

(** One digit more, modulo [m]. *)
Lemma horner_step_mod m u base d n h : 0 < m ->
  ((((u * base) mod m + d) mod m) * base ^ Z.of_nat n + h) mod m
  = (u * base ^ Z.of_nat (S n) + (d * base ^ Z.of_nat n + h)) mod m.
Proof.
  intros Hm. rewrite Nat2Z.inj_succ, Z.pow_succ_r by lia.
  rewrite Z.add_mod_idemp_l by lia. rewrite (Z.mod_eq (u * base + d)) by lia.
  set (k := (u * base + d) / m). set (B := base ^ Z.of_nat n).
  replace ((u * base + d - m * k) * B + h) with (u * (base * B) + (d * B + h) + (- k * B) * m) by ring.
  by rewrite Z.mod_add by lia.
Qed.

Lemma uint512_add_u64_value v d : uint512_wf v -> uword 64 d ->
  uint512_wf (uint512_add_assign_u64 v d) /\ uval (uint512_add_assign_u64 v d) = (uval v + d) mod 2 ^ 512.
Proof.
  intros Hv Hd. unfold uint512_add_assign_u64. rewrite uint512_add_assign_add.
  rewrite <- (uval_of_u64 d) at 3. apply uint512_add_value; [done|]. by apply uint512_of_u64_wf.
Qed.

Section FromStringCorrect.
Context (is_digit : Z -> bool) (value : Z -> Z) (base : Z).
Context (is_digit_spec : forall c, is_digit c = bool_decide (is_Some (digit_of base c))).
Context (value_spec : forall c d, digit_of base c = Some d -> value c = d).

Lemma from_string_shift_value shift v s : 0 <= shift -> base = 2 ^ shift -> uint512_wf v ->
  match mapM (digit_of base) s with
  | Some ds =>
      exists r, from_string_shift is_digit value shift v s = Ok r /\ uint512_wf r /\
        uval r = (uval v * base ^ Z.of_nat (length ds) + horner base ds) mod 2 ^ 512
  | None => from_string_shift is_digit value shift v s = Throw unexpected_token
  end.
Proof.
  intros Hshift Hbase. revert v. induction s as [|c s IH]; intros v Hv.
  { cbn. exists v. split_and!; [done..|]. pose proof (uval_bound v Hv). rewrite Z.mul_1_r, Z.add_0_r, Z.mod_small; done. }
  cbn [mapM from_string_shift]. rewrite is_digit_spec.
  destruct (digit_of base c) as [d|] eqn:Hd; [|by rewrite bool_decide_eq_false_2 by (intros [? [=]])].
  rewrite bool_decide_eq_true_2 by done. cbn [negb].
  rewrite (value_spec c d Hd). pose proof (digit_of_range base c d Hd) as [Hdr Hd36].
  destruct (uint512_lsl_value v shift Hv Hshift) as (v1 & -> & Hv1 & Hv1v). cbn [result_bind].
  rewrite (wrap_small 64 d) by (unfold uword; lia).
  destruct (uint512_add_u64_value v1 d Hv1 ltac:(unfold uword; lia)) as [Hv2 Hv2v].
  specialize (IH _ Hv2). cbn. destruct (mapM (digit_of base) s) as [ds|]; [|done]. cbn.
  destruct IH as (r & Hr & Hrw & Hrv). exists r. split_and!; [done..|].
  rewrite Hrv, Hv2v, Hv1v, horner_cons, <- Hbase. by apply horner_step_mod.
Qed.
End FromStringCorrect.

Lemma from_string_decimal_value v s : uint512_wf v ->
  match mapM (digit_of 10) s with
  | Some ds =>
      exists r, from_string_decimal v s = Ok r /\ uint512_wf r /\
        uval r = (uval v * 10 ^ Z.of_nat (length ds) + horner 10 ds) mod 2 ^ 512
  | None => from_string_decimal v s = Throw unexpected_token
  end.
Proof.
  revert v. induction s as [|c s IH]; intros v Hv.
  { cbn. exists v. split_and!; [done..|]. pose proof (uval_bound v Hv). rewrite Z.mul_1_r, Z.add_0_r, Z.mod_small; done. }
  cbn [mapM from_string_decimal].
  destruct (decide (c < (chr: "0") \/ c > (chr: "9"))) as [Hc|Hc].
  { assert (digit_of 10 c = None) as ->; [|done]. unfold digit_of.
    repeat (destruct (decide _); try lia); done. }
  assert (digit_of 10 c = Some (c - (chr: "0"))) as -> by (unfold digit_of; by rewrite !decide_True by lia).
  destruct (uint512_mul_assign_value v (uint512_of_u64 10) Hv) as (v1 & Hmul & Hv1 & Hv1v); [apply uint512_of_u64_wf; unfold uword; lia|].
  unfold uint512_mul_assign_u64. rewrite Hmul. cbn [result_bind]. rewrite uval_of_u64 in Hv1v.
  rewrite (wrap_small 64) by (unfold uword; lia).
  destruct (uint512_add_u64_value v1 (c - (chr: "0")) Hv1 ltac:(unfold uword; lia)) as [Hv2 Hv2v].
  specialize (IH _ Hv2). cbn. destruct (mapM (digit_of 10) s) as [ds|]; [|done]. cbn.
  destruct IH as (r & Hr & Hrw & Hrv). exists r. split_and!; [done..|].
  rewrite Hrv, Hv2v, Hv1v, horner_cons. by apply horner_step_mod.
Qed.

(** The base a literal is read in, and its digits. *)
Definition literal_parts (s : list Z) : Z * list Z :=
  match s with
  | s0 :: s1 :: ((_ :: _) as digits) =>
      if decide (s0 = (chr: "0") /\ (s1 = (chr: "b") \/ s1 = (chr: "B"))) then (2, digits)
      else if decide (s0 = (chr: "0") /\ (s1 = (chr: "x") \/ s1 = (chr: "X"))) then (16, digits)
      else (10, s)
  | _ => (10, s)
  end.

(** The value of a literal: all its characters must be digits of the base. *)
Definition literal_value (s : list Z) : option Z :=
  let '(base, digits) := literal_parts s in horner base <$> mapM (digit_of base) digits.

(** What the snapdev helpers are documented to do. *)
Class HexdigitLaws (is_hexdigit : Z -> bool) (hexdigit_to_number : Z -> Z) : Prop := {
  is_hexdigit_iff c : is_hexdigit c = true <->
    (chr: "0") <= c <= (chr: "9") \/ (chr: "a") <= c <= (chr: "f") \/ (chr: "A") <= c <= (chr: "F");
  hexdigit_decimal c : (chr: "0") <= c <= (chr: "9") -> hexdigit_to_number c = c - (chr: "0");
  hexdigit_lower c : (chr: "a") <= c <= (chr: "f") -> hexdigit_to_number c = c - (chr: "a") + 10;
  hexdigit_upper c : (chr: "A") <= c <= (chr: "F") -> hexdigit_to_number c = c - (chr: "A") + 10;
}.

Lemma digit_of_low base c : 0 <= base <= 10 ->
  digit_of base c = if decide ((chr: "0") <= c < (chr: "0") + base) then Some (c - (chr: "0")) else None.
Proof. intros. unfold digit_of. repeat (destruct (decide _); try lia); done. Qed.

Lemma low_digit_test base c t : 0 <= base <= 10 -> t = (chr: "0") + base - 1 ->
  negb (bool_decide (c < (chr: "0") \/ c > t)) = bool_decide (is_Some (digit_of base c)).
Proof.
  intros Hb ->. rewrite digit_of_low by done. destruct (decide _).
  - rewrite (bool_decide_eq_true_2 (is_Some _)) by done. rewrite bool_decide_eq_false_2 by lia. done.
  - rewrite (bool_decide_eq_false_2 (is_Some _)) by (intros [? [=]]). rewrite bool_decide_eq_true_2 by lia. done.
Qed.

Lemma low_digit_value base c d : 0 <= base <= 10 -> digit_of base c = Some d -> c - (chr: "0") = d.
Proof. intros Hb. rewrite digit_of_low by done. case_decide; [|done]. by intros [= <-]. Qed.

Lemma from_string_shift_low shift t s : 0 <= shift <= 3 -> t = (chr: "0") + 2 ^ shift - 1 ->
  let r := from_string_shift (fun c => negb (bool_decide (c < (chr: "0") \/ c > t))) (fun c => c - (chr: "0"))
             shift uint512_zero s in
  match horner (2 ^ shift) <$> mapM (digit_of (2 ^ shift)) s with
  | Some x => exists v, r = Ok v /\ uint512_wf v /\ uval v = x mod 2 ^ 512
  | None => r = Throw unexpected_token
  end.
Proof.
  intros Hs Ht r. assert (0 <= 2 ^ shift <= 10).
  { pose proof (Z.pow_le_mono_r 2 shift 3). pose proof (pow2_pos shift). lia. }
  pose proof (from_string_shift_value (fun c => negb (bool_decide (c < (chr: "0") \/ c > t))) (fun c => c - (chr: "0"))
    (2 ^ shift) (fun c => low_digit_test _ c t ltac:(done) Ht) (fun c d => low_digit_value _ c d ltac:(done))
    shift uint512_zero s ltac:(lia) eq_refl uint512_zero_wf) as Hv.
  by destruct (mapM (digit_of (2 ^ shift)) s).
Qed.

Section ReadCorrect.
Context (is_hexdigit : Z -> bool) (hexdigit_to_number : Z -> Z) `{HexdigitLaws is_hexdigit hexdigit_to_number}.

Lemma is_hexdigit_digit_of c : is_hexdigit c = bool_decide (is_Some (digit_of 16 c)).
Proof.
  apply eq_bool_prop_intro. rewrite !Is_true_true, bool_decide_eq_true, is_hexdigit_iff.
  unfold digit_of. repeat (destruct (decide _); try lia); split; intros Hc; try done; try lia; by destruct Hc.
Qed.

Lemma hexdigit_digit_of c d : digit_of 16 c = Some d -> hexdigit_to_number c = d.
Proof.
  unfold digit_of. repeat (destruct (decide _); try lia); intros [= <-].
  - by apply hexdigit_decimal.
  - apply hexdigit_lower. lia.
  - apply hexdigit_upper. lia.
Qed.

Lemma uint512_from_string_value s :
  match literal_value s with
  | Some x => exists r, uint512_from_string is_hexdigit hexdigit_to_number s = Ok r /\
                        uint512_wf r /\ uval r = x mod 2 ^ 512
  | None => uint512_from_string is_hexdigit hexdigit_to_number s = Throw unexpected_token
  end.
Proof.
  pose proof uint512_zero_wf as Hz.
  assert (forall t, match horner 10 <$> mapM (digit_of 10) t with
    | Some x => exists r, from_string_decimal uint512_zero t = Ok r /\ uint512_wf r /\ uval r = x mod 2 ^ 512
    | None => from_string_decimal uint512_zero t = Throw unexpected_token end) as Hdec.
  { intros t. pose proof (from_string_decimal_value uint512_zero t Hz) as Ht.
    by destruct (mapM (digit_of 10) t). }
  unfold literal_value, literal_parts, uint512_from_string.
  destruct s as [|s0 [|s1 [|s2 s]]]; [apply Hdec..|]. set (t := s2 :: s).
  destruct (decide _) as [Hb|Hb].
  { exact (from_string_shift_low 1 _ t ltac:(lia) eq_refl). }
  destruct (decide (s0 = (chr: "0") /\ (s1 = (chr: "o") \/ _))) as [Ho|Ho].
  { rewrite decide_False by lia.
    assert (mapM (digit_of 10) (s0 :: s1 :: t) = None) as Hnone.
    { cbn [mapM]. destruct Ho as [-> [-> | ->]]; done. }
    rewrite Hnone. cbn [fmap option_fmap option_map].
    pose proof (from_string_shift_low 3 _ t ltac:(lia) eq_refl) as Ht. cbv zeta in Ht.
    destruct (horner _ <$> _).
    - destruct Ht as (r & Hr & Hrw & _). setoid_rewrite Hr. cbn [result_bind].
      pose proof (from_string_decimal_value r (s0 :: s1 :: t) Hrw) as Hd. by rewrite Hnone in Hd.
    - by setoid_rewrite Ht. }
  destruct (decide _) as [Hx|Hx]; [|apply Hdec].
  pose proof (from_string_shift_value is_hexdigit hexdigit_to_number 16 is_hexdigit_digit_of
    hexdigit_digit_of 4 uint512_zero t ltac:(lia) eq_refl Hz) as Ht.
  by destruct (mapM (digit_of 16) t).
Qed.
End ReadCorrect.

(** ** Writing *)

Lemma rev_snoc_chars (f : Z -> Z) ds d acc :
  (acc ++ [f d]) ++ rev (f <$> ds) = acc ++ rev (f <$> (ds ++ [d])).
Proof. by rewrite fmap_app, rev_app_distr, <- app_assoc. Qed.

Lemma land_low_word w shift : (0 < length w)%nat -> limbs w -> 0 <= shift <= 64 ->
  Z.land (w !!! 0%nat) (2 ^ shift - 1) = eval w mod 2 ^ shift.
Proof.
  intros Hlen Hw Hs. rewrite land_ones_pow by lia. rewrite eval_first_word by done.
  rewrite (pow2_split shift 64) by lia. rewrite Z.rem_mul_r by (pose proof (pow2_pos shift); pose proof (pow2_pos (64 - shift)); lia).
  rewrite Z.mul_comm, Z.mod_add by (pose proof (pow2_pos shift); lia). apply Z.mod_mod. pose proof (pow2_pos shift); lia.
Qed.

Lemma numeral_zero base : is_numeral base 0 [].
Proof. split_and!; done. Qed.

(** The fuel is enough when the base to its power is over the number. *)
Lemma fuel_step base fuel x : 2 <= base -> 0 <= x < base ^ Z.of_nat (S fuel) -> x / base < base ^ Z.of_nat fuel.
Proof. intros Hb. rewrite Nat2Z.inj_succ, Z.pow_succ_r by lia. intros. apply Z.div_lt_upper_bound; lia. Qed.

Lemma to_string_shift_value fuel u shift v acc : 1 <= shift <= 4 -> uint512_wf v ->
  uval v < (2 ^ shift) ^ Z.of_nat fuel ->
  exists ds, to_string_shift fuel u shift v acc = Ok (acc ++ rev (digit_char u <$> ds)) /\
             is_numeral (2 ^ shift) (uval v) ds.
Proof.
  intros Hshift. assert (2 <= 2 ^ shift) by (pose proof (Z.pow_le_mono_r 2 1 shift); lia).
  revert v acc. induction fuel as [|fuel IH]; intros v acc Hv Hlt; cbn [to_string_shift];
    pose proof (uint512_is_zero_value v Hv) as Hz; pose proof (uval_bound v Hv) as Hb; destruct (uint512_is_zero v) eqn:E.
  - exists []. rewrite (proj1 Hz eq_refl), app_nil_r. split; [done|apply numeral_zero].
  - assert (uval v = 0) as H0 by (change ((2 ^ shift) ^ Z.of_nat 0) with 1 in Hlt; lia). by apply Hz in H0.
  - exists []. rewrite (proj1 Hz eq_refl), app_nil_r. split; [done|apply numeral_zero].
  - assert (0 < uval v) by (assert (uval v <> 0) by (intros ?%Hz; congruence); lia).
    destruct (uint512_lsr_value v shift Hv ltac:(lia)) as (v1 & -> & Hv1 & Hv1v). cbn [result_bind].
    destruct (IH v1 (acc ++ [digit_char u (Z.land (uf_value v !!! 0%nat) (2 ^ shift - 1))]) Hv1) as (ds & -> & Hds).
    { rewrite Hv1v. apply fuel_step; lia. }
    exists (ds ++ [uval v mod 2 ^ shift]). destruct Hv as [Hlen Hl]. rewrite land_low_word by (done || lia).
    rewrite rev_snoc_chars. split; [done|]. rewrite Hv1v in Hds. by apply is_numeral_snoc.
Qed.

Lemma to_string_div_value fuel u base v acc : 2 <= base <= 36 -> uint512_wf v ->
  uval v < base ^ Z.of_nat fuel ->
  exists ds, to_string_div fuel u (uint512_of_u64 base) v acc = Ok (acc ++ rev (digit_char u <$> ds)) /\
             is_numeral base (uval v) ds.
Proof.
  intros Hbase. assert (uint512_wf (uint512_of_u64 base)) as Hd by (apply uint512_of_u64_wf; unfold uword; lia).
  revert v acc. induction fuel as [|fuel IH]; intros v acc Hv Hlt; cbn [to_string_div];
    pose proof (uint512_is_zero_value v Hv) as Hz; pose proof (uval_bound v Hv) as Hb; destruct (uint512_is_zero v) eqn:E.
  - exists []. rewrite (proj1 Hz eq_refl), app_nil_r. split; [done|apply numeral_zero].
  - assert (uval v = 0) as H0 by (change (base ^ Z.of_nat 0) with 1 in Hlt; lia). by apply Hz in H0.
  - exists []. rewrite (proj1 Hz eq_refl), app_nil_r. split; [done|apply numeral_zero].
  - assert (0 < uval v) by (assert (uval v <> 0) by (intros ?%Hz; congruence); lia).
    destruct (uint512_div_value v (uint512_of_u64 base) Hv Hd) as (q & r & -> & Hq & Hr & Hqv & Hrv);
      [rewrite uval_of_u64; lia|]. cbn [result_bind]. rewrite uval_of_u64 in Hqv, Hrv.
    destruct (IH q (acc ++ [digit_char u (uf_value r !!! 0%nat)]) Hq) as (ds & -> & Hds).
    { rewrite Hqv. apply fuel_step; lia. }
    exists (ds ++ [uval v mod base]). destruct Hr as [Hlen Hl]. rewrite eval_first_word by (done || lia).
    fold (uval r). pose proof (Z.mod_pos_bound (uval v) base ltac:(lia)).
    rewrite Hrv, (Z.mod_small (_ mod _)) by lia.
    rewrite rev_snoc_chars. split; [done|]. rewrite Hqv in Hds. apply is_numeral_snoc; lia || done.
Qed.

Lemma ostream_digits_value fuel base u x acc : 2 <= base -> 0 <= x < base ^ Z.of_nat fuel ->
  exists ds, ostream_digits fuel base u x acc = (digit_char u <$> ds) ++ acc /\ is_numeral base x ds.
Proof.
  intros Hb. revert x acc. induction fuel as [|fuel IH]; intros x acc Hx; cbn [ostream_digits].
  - change (base ^ Z.of_nat 0) with 1 in Hx. exists []. replace x with 0 by lia. split; [done|apply numeral_zero].
  - destruct (decide (x = 0)) as [->|Hnz]; [exists []; split; [done|apply numeral_zero]|].
    destruct (IH (x / base) (digit_char u (x mod base) :: acc)) as (ds & -> & Hds).
    { split; [apply Z.div_pos; lia|]. apply fuel_step; lia. }
    exists (ds ++ [x mod base]). rewrite fmap_app, <- app_assoc. split; [done|]. apply is_numeral_snoc; lia || done.
Qed.

(** The numeral of a number that fits a word: the shortcut through a stream. *)
Lemma ostream_u64_value base sb u x : base = 8 \/ base = 10 \/ base = 16 -> 0 <= x < 2 ^ 64 ->
  exists ds, ostream_u64 base sb u x = (if sb then to_string_intro base u else []) ++ (digit_char u <$> ds) /\
             is_numeral base x ds.
Proof.
  intros Hb Hx. destruct (ostream_digits_value 64 base u x []) as (ds & Hds & Hn); [lia| |].
  { pose proof (Z.pow_le_mono_l 2 base 64). lia. }
  exists ds. unfold ostream_u64. rewrite Hds, app_nil_r. split; [|done]. f_equal. destruct sb; [|done].
  destruct Hb as [-> | [-> | ->]]; by destruct u.
Qed.

Lemma uint512_small v : uint512_wf v ->
  (forallb (fun idx => Z.eqb (uf_value v !!! idx) 0) (seq 1 7) = true <-> uval v < 2 ^ 64) /\
  (forallb (fun idx => Z.eqb (uf_value v !!! idx) 0) (seq 1 7) = true -> uf_value v !!! 0%nat = uval v).
Proof.
  intros [Hlen Hl]. destruct v as [l]. unfold uval. cbn [uf_value] in *. do 9 (destruct l as [|? l]; try done).
  rewrite !Forall_cons in Hl. unfold uword in Hl. cbn -[Z.pow Z.eqb Z.add Z.mul].
  rewrite !andb_true_iff, !Z.eqb_eq. split; [split; intros; lia|]. intros Hz.
  change (z = z + 2 ^ 64 * (z0 + 2 ^ 64 * (z1 + 2 ^ 64 * (z2 + 2 ^ 64 * (z3 + 2 ^ 64 * (z4 + 2 ^ 64 * (z5 + 2 ^ 64 * (z6 + 2 ^ 64 * 0)))))))). lia.
Qed.

Lemma uint512_to_string_value v base introducer u : uint512_wf v -> uval v <> 0 -> 2 <= base <= 36 ->
  exists ds, uint512_to_string v base introducer u =
      Ok ((if introducer then to_string_intro base u else []) ++ (digit_char u <$> ds)) /\
    is_numeral base (uval v) ds.
Proof.
  intros Hv Hnz Hbase. destruct (uint512_small v Hv) as [Hsmall Hfirst]. pose proof (uval_bound v Hv) as Hb.
  unfold uint512_to_string. set (small := forallb _ _) in *.
  assert (small && Z.eqb (uf_value v !!! 0%nat) 0 = false) as ->.
  { destruct small; [|done]. rewrite Hfirst by done. by apply Z.eqb_neq. }
  destruct (small && bool_decide (base = 8 \/ base = 10 \/ base = 16)) eqn:Hstream.
  { apply andb_true_iff in Hstream as [Hs Hbs%bool_decide_eq_true]. pose proof (proj1 Hsmall Hs).
    rewrite Hfirst by done. destruct (ostream_u64_value base introducer u (uval v) Hbs ltac:(lia)) as (ds & -> & ?). eauto. }
  assert (exists ds, (if decide (base = 2) then to_string_shift 512 u 1 v []
      else if decide (base = 8) then to_string_shift 512 u 3 v []
      else if decide (base = 16) then to_string_shift 512 u 4 v []
      else if decide (base < 2 \/ base > 36) then Throw conversion_unavailable
      else to_string_div 512 u (uint512_of_u64 base) v []) = Ok (rev (digit_char u <$> ds)) /\ is_numeral base (uval v) ds)
    as (ds & -> & Hds).
  { assert (forall b, 2 <= b -> uval v < b ^ Z.of_nat 512) as Hfuel.
    { intros b Hb2. pose proof (Z.pow_le_mono_l 2 b 512). change (Z.of_nat 512) with 512. lia. }
    destruct (decide (base = 2)) as [->|]; [apply (to_string_shift_value 512 u 1 v []); auto; lia|].
    destruct (decide (base = 8)) as [->|]; [apply (to_string_shift_value 512 u 3 v []); auto; lia|].
    destruct (decide (base = 16)) as [->|]; [apply (to_string_shift_value 512 u 4 v []); auto; lia|].
    rewrite decide_False by lia. apply (to_string_div_value 512 u base v []); auto. apply Hfuel. lia. }
  cbn [result_bind]. cbv zeta. rewrite rev_involutive. exists ds. by destruct introducer.
Qed.

(** ** Signed numbers *)

(** The sign of a literal and the literal that follows it. *)
Definition literal_sign (s : list Z) : bool * list Z :=
  match s with
  | [] => (false, [])
  | s0 :: rest =>
      if decide (s0 = (chr: "+")) then (false, rest)
      else if decide (s0 = (chr: "-")) then (true, rest)
      else (false, s)
  end.

Definition signed_literal_value (s : list Z) : option Z :=
  let '(negative, t) := literal_sign s in
  (fun x => if (negative : bool) then - x else x) <$> literal_value t.

Section SignedReadCorrect.
Context (is_hexdigit : Z -> bool) (hexdigit_to_number : Z -> Z) `{HexdigitLaws is_hexdigit hexdigit_to_number}.

Lemma int512_of_uint512_sval v : uint512_wf v ->
  int512_wf (int512_of_uint512 v) /\ sval (int512_of_uint512 v) = smod (uval v).
Proof.
  intros Hv. destruct (int512_of_uint512_wf v Hv) as [Hwf Hu]. split; [done|].
  apply sval_smod; [done|]. rewrite Hu. pose proof (uval_bound v Hv). symmetry. by apply Z.mod_small.
Qed.

Lemma smod_mod x : smod (x mod 2 ^ 512) = smod x.
Proof. unfold smod. by rewrite Z.mod_mod by lia. Qed.

Lemma smod_opp_smod x : smod (- smod x) = smod (- x).
Proof.
  unfold smod at 1 3. f_equal. destruct (smod_spec x) as [_ Hx].
  rewrite <- !(Z.sub_0_l), Zminus_mod, Hx, <- Zminus_mod. done.
Qed.

Lemma int512_from_string_split s :
  int512_from_string is_hexdigit hexdigit_to_number s =
    let! v := uint512_from_string is_hexdigit hexdigit_to_number (snd (literal_sign s)) in
    Ok (if fst (literal_sign s) then int512_neg (int512_of_uint512 v) else int512_of_uint512 v).
Proof.
  unfold int512_from_string, literal_sign. destruct s as [|s0 s]; [done|].
  destruct (decide (s0 = (chr: "+"))); [by cbn [snd fst]; destruct (uint512_from_string _ _ _)|].
  destruct (decide (s0 = (chr: "-"))); by cbn [snd fst]; destruct (uint512_from_string _ _ _).
Qed.

Lemma int512_from_string_value s :
  match signed_literal_value s with
  | Some x => exists r, int512_from_string is_hexdigit hexdigit_to_number s = Ok r /\
                        int512_wf r /\ sval r = smod x
  | None => int512_from_string is_hexdigit hexdigit_to_number s = Throw unexpected_token
  end.
Proof.
  rewrite int512_from_string_split. unfold signed_literal_value. destruct (literal_sign s) as [neg t]. cbn [fst snd].
  pose proof (uint512_from_string_value is_hexdigit hexdigit_to_number t) as Ht.
  destruct (literal_value t) as [x|]; cbn [fmap option_fmap option_map]; [|by rewrite Ht].
  destruct Ht as (v & -> & Hv & Hx). cbn [result_bind]. eexists. split; [done|].
  destruct (int512_of_uint512_sval v Hv) as [Hwf Hs]. rewrite Hx, smod_mod in Hs. destruct neg; [|done].
  destruct (int512_neg_value _ Hwf) as [? Hn]. split; [done|]. by rewrite Hn, Hs, smod_opp_smod.
Qed.
End SignedReadCorrect.

(** ** Reading back what was written *)

Lemma digit_char_range u d : 0 <= d < 36 -> (chr: "0") <= digit_char u d <= (chr: "z").
Proof. intros. unfold digit_char. destruct u; repeat case_decide; lia. Qed.

Lemma digit_char_not_zero u d : 0 < d < 36 -> digit_char u d <> (chr: "0").
Proof. intros. unfold digit_char. destruct u; repeat case_decide; lia. Qed.

Lemma literal_value_numeral base u x ds : base = 2 \/ base = 10 \/ base = 16 -> is_numeral base x ds -> x <> 0 ->
  literal_value (to_string_intro base u ++ (digit_char u <$> ds)) = Some x.
Proof.
  intros Hb (Hds & Hh & Hhead) Hx. destruct ds as [|d ds]; [by cbn in Hh|]. unfold literal_value.
  assert (forall b, b = base -> horner b <$> mapM (digit_of b) (digit_char u <$> d :: ds) = Some x) as Hval.
  { intros b ->. rewrite (mapM_digit_of_chars u base (d :: ds)) by (done || lia). cbn. by rewrite Hh. }
  destruct Hb as [-> | [-> | ->]]; [by destruct u; apply (Hval 2)| |by destruct u; apply (Hval 16)].
  change (to_string_intro 10 u ++ (digit_char u <$> d :: ds)) with (digit_char u <$> d :: ds).
  assert (literal_parts (digit_char u <$> d :: ds) = (10, digit_char u <$> d :: ds)) as ->; [|by apply Hval].
  apply Forall_cons in Hds as [Hd Hds]. pose proof (digit_char_not_zero u d).
  assert (d <> 0) by (intros ->; by apply Hhead).
  unfold literal_parts. destruct ds as [|d1 [|d2 ds]]; [done..|]. cbn [fmap list_fmap].
  by rewrite !decide_False by (intros [? _]; lia).
Qed.

Lemma to_string_first base u ds s0 rest : 0 <= base <= 36 -> Forall (fun d => 0 <= d < base) ds ->
  to_string_intro base u ++ (digit_char u <$> ds) = s0 :: rest -> s0 <> (chr: "+") /\ s0 <> (chr: "-").
Proof.
  intros Hb Hds. unfold to_string_intro.
  repeat (destruct (decide _); [destruct u; cbn; intros [= <- _]; done|]). cbn.
  destruct Hds as [|d ds Hd Hds]; [done|]. cbn. intros [= <- _].
  pose proof (digit_char_range u d ltac:(lia)). lia.
Qed.

Section RoundTrip.
Context (is_hexdigit : Z -> bool) (hexdigit_to_number : Z -> Z) `{HexdigitLaws is_hexdigit hexdigit_to_number}.

(** The texts that can be read back: base 10, and 2 and 16 with their introducer. *)
Definition readable (base : Z) (introducer : bool) : Prop :=
  base = 10 \/ (base = 2 \/ base = 16) /\ introducer = true.

Lemma uint512_is_zero_text v base introducer u : uint512_wf v -> uval v = 0 ->
  uint512_to_string v base introducer u = Ok (str: "0").
Proof. intros Hv H0. assert (v = uint512_zero) as -> by (apply uval_inj; auto with word). done. Qed.

Lemma uint512_text_value v base introducer u : uint512_wf v -> readable base introducer ->
  exists s, uint512_to_string v base introducer u = Ok s /\ literal_value s = Some (uval v) /\
    fst (literal_sign s) = false /\ snd (literal_sign s) = s.
Proof.
  intros Hv Hr. destruct (decide (uval v = 0)) as [H0|H0].
  { rewrite uint512_is_zero_text by done. exists (str: "0"). by rewrite H0. }
  destruct (uint512_to_string_value v base introducer u Hv H0) as (ds & -> & Hds); [unfold readable in Hr; lia|].
  assert ((if introducer then to_string_intro base u else []) = to_string_intro base u) as ->.
  { destruct Hr as [Hr|Hr]; [rewrite Hr; by destruct introducer|by destruct Hr as [_ Hr]; rewrite Hr]. }
  eexists. split; [done|]. split; [apply literal_value_numeral; auto; unfold readable in Hr; intuition auto|].
  destruct (to_string_intro base u ++ (digit_char u <$> ds)) as [|s0 rest] eqn:E; [done|].
  apply to_string_first in E as [? ?]; [|unfold readable in Hr; lia|by destruct Hds].
  unfold literal_sign. by rewrite !decide_False by done.
Qed.

Lemma uint512_round_trip v base introducer u : uint512_wf v -> readable base introducer ->
  exists s, uint512_to_string v base introducer u = Ok s /\
    uint512_from_string is_hexdigit hexdigit_to_number s = Ok v.
Proof.
  intros Hv Hr. destruct (uint512_text_value v base introducer u Hv Hr) as (s & -> & Hs & _).
  exists s. split; [done|]. pose proof (uint512_from_string_value is_hexdigit hexdigit_to_number s) as Hread.
  rewrite Hs in Hread. destruct Hread as (r & -> & Hwf & Hu). f_equal. apply uval_inj; [done..|].
  pose proof (uval_bound v Hv). rewrite Hu. by apply Z.mod_small.
Qed.

Lemma int512_round_trip_value v base introducer u : int512_wf v -> readable base introducer ->
  exists s, int512_to_string v base introducer u = Ok s /\
    int512_from_string is_hexdigit hexdigit_to_number s = Ok v.
Proof.
  intros Hv Hr. unfold int512_to_string. pose proof (uint512_of_int512_wf v Hv) as Hu.
  destruct (int512_uval_sval v Hv) as (Hb & Hum & _).
  set (m := if int512_is_negative v then _ else _).
  assert (uint512_wf m /\ uval m = Z.abs (sval v)) as [Hm Hmv].
  { unfold m. destruct (int512_is_negative v) eqn:E.
    - apply int512_is_negative_iff in E; [|done]. destruct (uint512_neg_value _ Hu) as [? Hn]. split; [done|].
      rewrite Hn, uval_of_int512, Hum. apply mod_unique_pow with (- ((sval v) mod 2 ^ 512 - sval v) / 2 ^ 512 ); [lia|].
      replace (sval v mod 2 ^ 512) with (sval v + 2 ^ 512) by (symmetry; apply mod_unique_pow with (-1); lia).
      replace (- (sval v + 2 ^ 512 - sval v)) with ((-1) * 2 ^ 512) by lia. rewrite Z.div_mul by lia. lia.
    - apply int512_is_negative_false in E; [|done]. split; [done|]. rewrite uval_of_int512, Hum, Z.mod_small; lia. }
  destruct (uint512_text_value m base introducer u Hm Hr) as (s & -> & Hs & Hpos & Hrest). cbn [result_bind].
  eexists. split; [done|].
  set (t := (if int512_is_negative v then _ else _) ++ s).
  assert (signed_literal_value t = Some (sval v)) as Ht.
  { unfold signed_literal_value, t. destruct (int512_is_negative v) eqn:E.
    - change (literal_sign ((str: "-") ++ s)) with (true, s). cbv iota beta. rewrite Hs.
      apply int512_is_negative_iff in E; [|done].
      cbn [fmap option_fmap option_map]. f_equal. lia.
    - cbn [app]. destruct (literal_sign s) as [n r]. cbn in Hpos, Hrest. subst. rewrite Hs. cbn [fmap option_fmap option_map].
      apply int512_is_negative_false in E; [|done]. f_equal. lia. }
  pose proof (int512_from_string_value is_hexdigit hexdigit_to_number t) as Hread. rewrite Ht in Hread.
  destruct Hread as (r & -> & Hwf & Hsv). f_equal. apply sval_inj; [done..|]. rewrite Hsv. by apply smod_small.
Qed.
End RoundTrip.

(** ** Main theorems *)

(** Reading a text never fails but with [unexpected_token]: it succeeds
    exactly when every character after the introducer (0b, 0x) is a digit of the
    base, and yields the number of the numeral modulo 2^512, with its sign for
    [int512_t].  A text with the octal introducer is read as a decimal numeral,
    so it always fails. *)
Theorem bigint_from_string is_hexdigit hexdigit_to_number (laws : HexdigitLaws is_hexdigit hexdigit_to_number) s :
  match literal_value s with
  | Some x => exists r, uint512_from_string is_hexdigit hexdigit_to_number s = Ok r /\
                        uint512_wf r /\ uval r = x mod 2 ^ 512
  | None => uint512_from_string is_hexdigit hexdigit_to_number s = Throw unexpected_token
  end /\
  match signed_literal_value s with
  | Some x => exists r, int512_from_string is_hexdigit hexdigit_to_number s = Ok r /\
                        int512_wf r /\ sval r = smod x
  | None => int512_from_string is_hexdigit hexdigit_to_number s = Throw unexpected_token
  end.
Proof. split; [by apply uint512_from_string_value | by apply int512_from_string_value]. Qed.

(** The helpers of snapdev, for the examples. *)
Definition ascii_is_hexdigit (c : Z) : bool :=
  bool_decide ((chr: "0") <= c <= (chr: "9") \/ (chr: "a") <= c <= (chr: "f") \/ (chr: "A") <= c <= (chr: "F")).
Definition ascii_hexdigit_to_number (c : Z) : Z :=
  if decide (c <= (chr: "9")) then c - (chr: "0")
  else if decide (c <= (chr: "F")) then c - (chr: "A") + 10 else c - (chr: "a") + 10.

#[export] Instance ascii_hexdigit_laws : HexdigitLaws ascii_is_hexdigit ascii_hexdigit_to_number.
Proof.
  split; intros c; unfold ascii_is_hexdigit, ascii_hexdigit_to_number.
  - apply bool_decide_eq_true.
  - intros. by rewrite decide_True by lia.
  - intros. by rewrite !decide_False by lia.
  - intros. rewrite decide_False by lia. by rewrite decide_True by lia.
Qed.

Lemma bigint_from_string_witness :
  exists r, uint512_from_string ascii_is_hexdigit ascii_hexdigit_to_number (str: "0xFf10") = Ok r /\ uval r = 65296.
Proof.
  destruct (bigint_from_string _ _ ascii_hexdigit_laws (str: "0xFf10")) as [H _].
  assert (literal_value (str: "0xFf10") = Some 65296) as E by (vm_compute; reflexivity).
  rewrite E in H. destruct H as (r & H1 & _ & H2). exists r. split; [exact H1|]. rewrite H2. reflexivity.
Defined.

(** The octal branch falls through to the decimal loop: its result is lost. *)
Lemma octal_never_read is_hexdigit hexdigit_to_number (laws : HexdigitLaws is_hexdigit hexdigit_to_number) c digits :
  c = (chr: "o") \/ c = (chr: "O") ->
  uint512_from_string is_hexdigit hexdigit_to_number ((chr: "0") :: c :: digits) = Throw unexpected_token.
Proof.
  intros Hc. pose proof (uint512_from_string_value is_hexdigit hexdigit_to_number ((chr: "0") :: c :: digits)) as Hread.
  assert (literal_value ((chr: "0") :: c :: digits) = None) as Hnone.
  { unfold literal_value, literal_parts. destruct digits as [|d digits]; destruct Hc as [-> | ->]; done. }
  by rewrite Hnone in Hread.
Qed.

(** [uint512_t::to_string()] ends; zero is always "0"; any other number is
    written, for a base from 2 to 36, as the introducer followed by the digits of
    its numeral in that base (each below the base, no leading zero), whatever path
    is taken (stream, shifts or divisions); other bases are refused. *)
Theorem uint512_numeral v base introducer uppercase :
  uint512_wf v ->
  (uval v = 0 -> uint512_to_string v base introducer uppercase = Ok (str: "0")) /\
  (uval v <> 0 -> 2 <= base <= 36 ->
   exists ds, uint512_to_string v base introducer uppercase =
       Ok ((if introducer then to_string_intro base uppercase else []) ++ (digit_char uppercase <$> ds)) /\
     Forall (fun d => 0 <= d < base) ds /\ horner base ds = uval v /\ head ds <> Some 0) /\
  (uval v <> 0 -> ~ 2 <= base <= 36 ->
   uint512_to_string v base introducer uppercase = Throw conversion_unavailable).
Proof.
  intros Hv. split; [|split].
  - intros. by apply uint512_is_zero_text.
  - intros. by apply uint512_to_string_value.
  - intros Hnz Hbase. destruct (uint512_small v Hv) as [_ Hfirst]. unfold uint512_to_string.
    set (small := forallb _ _) in *.
    assert (small && Z.eqb (uf_value v !!! 0%nat) 0 = false) as ->.
    { destruct small; [|done]. rewrite Hfirst by done. by apply Z.eqb_neq. }
    rewrite bool_decide_eq_false_2, andb_false_r by lia.
    rewrite !(decide_False (P := base = _)) by lia. by rewrite decide_True by lia.
Qed.

Lemma uint512_numeral_witness :
  exists ds, uint512_to_string (Uint512 [0; 0; 0; 0; 0; 0; 0; 7]) 36 false true = Ok (digit_char true <$> ds) /\
    horner 36 ds = 7 * 2 ^ 448.
Proof.
  assert (uint512_wf (Uint512 [0; 0; 0; 0; 0; 0; 0; 7])) as Hv by closed_decide.
  destruct (uint512_numeral _ 36 false true Hv) as (_ & H & _).
  destruct (H ltac:(vm_compute; discriminate) ltac:(lia)) as (ds & H1 & _ & H2 & _).
  exists ds. split; [exact H1|]. rewrite H2. vm_compute. reflexivity.
Defined.

(** Reading back the text of a number, signed or not, gives the number, for
    base 10 and for the bases 2 and 16 written with their introducer. *)
Theorem bigint_text_round_trip is_hexdigit hexdigit_to_number (laws : HexdigitLaws is_hexdigit hexdigit_to_number)
    u i base introducer uppercase :
  uint512_wf u -> int512_wf i -> readable base introducer ->
  (exists s, uint512_to_string u base introducer uppercase = Ok s /\
             uint512_from_string is_hexdigit hexdigit_to_number s = Ok u) /\
  (exists s, int512_to_string i base introducer uppercase = Ok s /\
             int512_from_string is_hexdigit hexdigit_to_number s = Ok i).
Proof. intros. split; [by apply uint512_round_trip | by apply int512_round_trip_value]. Qed.

Lemma bigint_text_round_trip_witness :
  exists s, int512_to_string int512_min 10 false false = Ok s /\
            int512_from_string ascii_is_hexdigit ascii_hexdigit_to_number s = Ok int512_min.
Proof.
  assert (uint512_wf uint512_zero) as Hu by closed_decide.
  assert (int512_wf int512_min) as Hi by closed_decide.
  exact (proj2 (bigint_text_round_trip _ _ ascii_hexdigit_laws uint512_zero int512_min 10 false false Hu Hi (or_introl eq_refl))).
Defined.
