(* ===== verification/Crc16.v ===== *)
(** * CRC of the network messages (prinbee/network/crc16.cpp)

    The table of the source, the step [next_crc] and the loop of
    [crc16_compute()], against the bit-by-bit definition of the checksum (the
    polynomial 0x8005, reflected: 0xA001) and what the messages rely on: a
    message followed by its checksum has checksum zero, and a burst of errors
    over two adjacent bytes changes the checksum. *)

From S2P Require Import Prelude.

Definition g_crc16_tbl : list Z :=
  [
    0x0000; 0xC0C1; 0xC181; 0x0140; 0xC301; 0x03C0; 0x0280; 0xC241;
    0xC601; 0x06C0; 0x0780; 0xC741; 0x0500; 0xC5C1; 0xC481; 0x0440;
    0xCC01; 0x0CC0; 0x0D80; 0xCD41; 0x0F00; 0xCFC1; 0xCE81; 0x0E40;
    0x0A00; 0xCAC1; 0xCB81; 0x0B40; 0xC901; 0x09C0; 0x0880; 0xC841;
    0xD801; 0x18C0; 0x1980; 0xD941; 0x1B00; 0xDBC1; 0xDA81; 0x1A40;
    0x1E00; 0xDEC1; 0xDF81; 0x1F40; 0xDD01; 0x1DC0; 0x1C80; 0xDC41;
    0x1400; 0xD4C1; 0xD581; 0x1540; 0xD701; 0x17C0; 0x1680; 0xD641;
    0xD201; 0x12C0; 0x1380; 0xD341; 0x1100; 0xD1C1; 0xD081; 0x1040;
    0xF001; 0x30C0; 0x3180; 0xF141; 0x3300; 0xF3C1; 0xF281; 0x3240;
    0x3600; 0xF6C1; 0xF781; 0x3740; 0xF501; 0x35C0; 0x3480; 0xF441;
    0x3C00; 0xFCC1; 0xFD81; 0x3D40; 0xFF01; 0x3FC0; 0x3E80; 0xFE41;
    0xFA01; 0x3AC0; 0x3B80; 0xFB41; 0x3900; 0xF9C1; 0xF881; 0x3840;
    0x2800; 0xE8C1; 0xE981; 0x2940; 0xEB01; 0x2BC0; 0x2A80; 0xEA41;
    0xEE01; 0x2EC0; 0x2F80; 0xEF41; 0x2D00; 0xEDC1; 0xEC81; 0x2C40;
    0xE401; 0x24C0; 0x2580; 0xE541; 0x2700; 0xE7C1; 0xE681; 0x2640;
    0x2200; 0xE2C1; 0xE381; 0x2340; 0xE101; 0x21C0; 0x2080; 0xE041;
    0xA001; 0x60C0; 0x6180; 0xA141; 0x6300; 0xA3C1; 0xA281; 0x6240;
    0x6600; 0xA6C1; 0xA781; 0x6740; 0xA501; 0x65C0; 0x6480; 0xA441;
    0x6C00; 0xACC1; 0xAD81; 0x6D40; 0xAF01; 0x6FC0; 0x6E80; 0xAE41;
    0xAA01; 0x6AC0; 0x6B80; 0xAB41; 0x6900; 0xA9C1; 0xA881; 0x6840;
    0x7800; 0xB8C1; 0xB981; 0x7940; 0xBB01; 0x7BC0; 0x7A80; 0xBA41;
    0xBE01; 0x7EC0; 0x7F80; 0xBF41; 0x7D00; 0xBDC1; 0xBC81; 0x7C40;
    0xB401; 0x74C0; 0x7580; 0xB541; 0x7700; 0xB7C1; 0xB681; 0x7640;
    0x7200; 0xB2C1; 0xB381; 0x7340; 0xB101; 0x71C0; 0x7080; 0xB041;
    0x5000; 0x90C1; 0x9181; 0x5140; 0x9301; 0x53C0; 0x5280; 0x9241;
    0x9601; 0x56C0; 0x5780; 0x9741; 0x5500; 0x95C1; 0x9481; 0x5440;
    0x9C01; 0x5CC0; 0x5D80; 0x9D41; 0x5F00; 0x9FC1; 0x9E81; 0x5E40;
    0x5A00; 0x9AC1; 0x9B81; 0x5B40; 0x9901; 0x59C0; 0x5880; 0x9841;
    0x8801; 0x48C0; 0x4980; 0x8941; 0x4B00; 0x8BC1; 0x8A81; 0x4A40;
    0x4E00; 0x8EC1; 0x8F81; 0x4F40; 0x8D01; 0x4DC0; 0x4C80; 0x8C41;
    0x4400; 0x84C1; 0x8581; 0x4540; 0x8701; 0x47C0; 0x4680; 0x8641;
    0x8201; 0x42C0; 0x4380; 0x8341; 0x4100; 0x81C1; 0x8081; 0x4040
  ].

(** [next_crc(crc, byte)]: [crc] is a 16-bit word, [byte] an 8-bit one. *)
Definition next_crc (crc byte : Z) : Z :=
  let index := Z.lxor (Z.land crc 0xFF) byte in
  let crc16int := g_crc16_tbl !!! Z.to_nat index in
  Z.lxor (Z.shiftr crc 8) crc16int.

Definition crc16_compute (data : list Z) : Z := foldl next_crc 0 data.

(** The two bytes a message ends with: [crc16] and [crc16 >> 8], as bytes. *)
Definition crc16_bytes (crc : Z) : list Z := [wrap 8 crc; wrap 8 (Z.shiftr crc 8)].

(** ** The reference: one bit at a time *)

Definition crc_bit (x : Z) : Z :=
  if Z.odd x then Z.lxor (Z.shiftr x 1) 0xA001 else Z.shiftr x 1.

Definition crc_byte (x : Z) : Z := Nat.iter 8 crc_bit x.

Definition crc16_reference (data : list Z) : Z := foldl (fun crc b => crc_byte (Z.lxor crc b)) 0 data.

Example crc16_of_123456789 : crc16_compute (str: "123456789") = 0xBB3D.
Proof. vm_compute. reflexivity. Qed.

(** ** Words and exclusive or *)

Lemma lxor_uword n a b : 0 <= n -> uword n a -> uword n b -> uword n (Z.lxor a b).
Proof.
  unfold uword. intros Hn Ha Hb. split; [apply Z.lxor_nonneg; lia|].
  destruct (decide (Z.lxor a b = 0)) as [->|]; [by apply pow2_pos|].
  assert (0 <= Z.lxor a b) by (apply Z.lxor_nonneg; lia).
  apply Z.log2_lt_pow2; [lia|]. pose proof (Z.log2_lxor a b ltac:(lia) ltac:(lia)).
  assert (forall x, 0 <= x < 2 ^ n -> Z.log2 x < n \/ x = 0) as Hlog.
  { intros x Hx. destruct (decide (x = 0)); [by right|]. left. apply Z.log2_lt_pow2; lia. }
  destruct (Hlog a Ha), (Hlog b Hb); subst; rewrite ?Z.lxor_0_l, ?Z.lxor_0_r in *; try lia.
  all: exfalso; lia.
Qed.

Lemma crc_bit_lxor a b : crc_bit (Z.lxor a b) = Z.lxor (crc_bit a) (crc_bit b).
Proof.
  unfold crc_bit. rewrite <- !Z.bit0_odd, Z.lxor_spec, Z.shiftr_lxor.
  apply Z.bits_inj'. intros i Hi.
  destruct (Z.testbit a 0), (Z.testbit b 0); cbn [xorb]; rewrite !Z.lxor_spec;
    by destruct (Z.testbit _ i), (Z.testbit (Z.shiftr b 1) i), (Z.testbit 0xA001 i).
Qed.

Lemma crc_bit_uword x : uword 16 x -> uword 16 (crc_bit x).
Proof.
  unfold crc_bit. intros Hx. assert (uword 16 (Z.shiftr x 1)).
  { unfold uword in *. rewrite Z.shiftr_div_pow2 by lia. split; [apply Z.div_pos; lia|].
    apply Z.div_lt_upper_bound; lia. }
  destruct (Z.odd x); [|done]. apply lxor_uword; [lia|done|unfold uword; lia].
Qed.

(** A step of the register loses nothing. *)
Lemma crc_bit_zero x : uword 16 x -> crc_bit x = 0 -> x = 0.
Proof.
  unfold crc_bit, uword. intros Hx. pose proof (Zdiv2_odd_eqn x) as Hd. rewrite Z.div2_spec in Hd.
  destruct (Z.odd x); intros H0.
  - apply Z.lxor_eq in H0. lia.
  - lia.
Qed.

Lemma crc_iter_lxor n a b : Nat.iter n crc_bit (Z.lxor a b) = Z.lxor (Nat.iter n crc_bit a) (Nat.iter n crc_bit b).
Proof. induction n as [|n IH]; [done|]. rewrite !Nat.iter_succ, IH. apply crc_bit_lxor. Qed.

Lemma crc_iter_uword n x : uword 16 x -> uword 16 (Nat.iter n crc_bit x).
Proof. intros Hx. induction n as [|n IH]; [done|]. by apply crc_bit_uword. Qed.

Lemma crc_iter_zero n x : uword 16 x -> Nat.iter n crc_bit x = 0 -> x = 0.
Proof.
  intros Hx. induction n as [|n IH]; [done|]. intros H0. apply IH, crc_bit_zero; [|done]. by apply crc_iter_uword.
Qed.

(** ** The table *)

(** The low byte and the high byte of a word. *)
Lemma word_lxor_split x : uword 16 x ->
  x = Z.lxor (Z.shiftl (Z.shiftr x 8) 8) (Z.land x 0xFF) /\ byte (Z.shiftr x 8) /\ byte (Z.land x 0xFF).
Proof.
  unfold byte, uword. intros Hx. change 0xFF with (2 ^ 8 - 1). rewrite land_ones_pow by lia. split_and!.
  - change (2 ^ 8) with 256 at 1. apply Z.bits_inj'. intros i Hi.
    rewrite Z.lxor_spec, Z.shiftl_spec by lia. destruct (decide (i < 8)).
    + rewrite (Z.testbit_neg_r _ (i - 8)), xorb_false_l by lia. change 256 with (2 ^ 8). by rewrite Z.mod_pow2_bits_low by lia.
    + rewrite Z.shiftr_spec by lia. change 256 with (2 ^ 8). rewrite Z.mod_pow2_bits_high, xorb_false_r by lia. f_equal; lia.
  - rewrite Z.shiftr_div_pow2 by lia. apply Z.div_pos; lia.
  - rewrite Z.shiftr_div_pow2 by lia. apply Z.div_lt_upper_bound; lia.
  - apply Z.mod_pos_bound. lia.
  - apply Z.mod_pos_bound. lia.
Qed.

Lemma forall_bytes (P : Z -> bool) : forallb (fun k => P (Z.of_nat k)) (seq 0 256) = true -> forall b, byte b -> P b = true.
Proof.
  intros Hall b Hb. rewrite forallb_forall in Hall. unfold byte, uword in Hb.
  rewrite <- (Z2Nat.id b) by lia. apply Hall, in_seq. lia.
Qed.

Lemma crc_table_entry b : byte b -> g_crc16_tbl !!! Z.to_nat b = crc_byte b.
Proof. intros Hb. apply Z.eqb_eq. revert b Hb. apply forall_bytes. by vm_compute. Qed.

Lemma crc_high_byte b : byte b -> crc_byte (Z.shiftl b 8) = b.
Proof. intros Hb. apply Z.eqb_eq. revert b Hb. apply forall_bytes. by vm_compute. Qed.

Lemma byte_lxor a b : byte a -> byte b -> byte (Z.lxor a b).
Proof. by apply lxor_uword. Qed.

Lemma byte_uword16 b : byte b -> uword 16 b.
Proof. unfold byte, uword. lia. Qed.

Lemma next_crc_reference crc b : uword 16 crc -> byte b -> next_crc crc b = crc_byte (Z.lxor crc b).
Proof.
  intros Hcrc Hb. destruct (word_lxor_split crc Hcrc) as (Hsplit & Hhi & Hlo). unfold next_crc. cbv zeta.
  rewrite crc_table_entry by (by apply byte_lxor).
  rewrite Hsplit at 3. rewrite Z.lxor_assoc. unfold crc_byte at 2. rewrite crc_iter_lxor.
  f_equal. symmetry. exact (crc_high_byte _ Hhi).
Qed.

Lemma next_crc_uword crc b : uword 16 crc -> byte b -> uword 16 (next_crc crc b).
Proof.
  intros Hcrc Hb. rewrite next_crc_reference by done. apply crc_iter_uword, lxor_uword; [lia|done|by apply byte_uword16].
Qed.

Lemma crc_fold_uword crc data : uword 16 crc -> Forall byte data -> uword 16 (foldl next_crc crc data).
Proof.
  intros Hcrc Hd. revert crc Hcrc. induction Hd as [|b data Hb Hd IH]; intros crc Hcrc; [done|].
  cbn [foldl]. by apply IH, next_crc_uword.
Qed.

Lemma crc_fold_reference crc data : uword 16 crc -> Forall byte data ->
  foldl next_crc crc data = foldl (fun crc b => crc_byte (Z.lxor crc b)) crc data.
Proof.
  intros Hcrc Hd. revert crc Hcrc. induction Hd as [|b data Hb Hd IH]; intros crc Hcrc; [done|].
  cbn [foldl]. rewrite <- next_crc_reference by done. by apply IH, next_crc_uword.
Qed.

(** ** Two bytes are one word *)

Definition word_of_bytes (lo hi : Z) : Z := Z.lxor lo (Z.shiftl hi 8).

Lemma word_of_bytes_uword lo hi : byte lo -> byte hi -> uword 16 (word_of_bytes lo hi).
Proof.
  unfold word_of_bytes. intros Hlo Hhi. apply lxor_uword; [lia|by apply byte_uword16|].
  unfold byte, uword in *. rewrite Z.shiftl_mul_pow2 by lia. lia.
Qed.

Lemma crc16_bytes_word c : uword 16 c -> exists lo hi, crc16_bytes c = [lo; hi] /\ byte lo /\ byte hi /\ word_of_bytes lo hi = c.
Proof.
  intros Hc. destruct (word_lxor_split c Hc) as (Hsplit & Hhi & Hlo). unfold crc16_bytes.
  exists (wrap 8 c), (wrap 8 (Z.shiftr c 8)). rewrite (wrap_small 8 (Z.shiftr c 8)) by done. unfold wrap.
  rewrite <- land_ones_pow by lia. split_and!; [done..|]. unfold word_of_bytes. rewrite Z.lxor_comm. symmetry. exact Hsplit.
Qed.

Lemma word_of_bytes_inj lo hi lo' hi' : byte lo -> byte hi -> byte lo' -> byte hi' ->
  word_of_bytes lo hi = word_of_bytes lo' hi' -> lo = lo' /\ hi = hi'.
Proof.
  unfold byte, uword, word_of_bytes. intros Hlo Hhi Hlo' Hhi'.
  assert (forall l h, 0 <= l < 2 ^ 8 -> 0 <= h < 2 ^ 8 -> Z.lxor l (Z.shiftl h 8) = h * 2 ^ 8 + l) as Hw.
  { intros l h Hl Hh. rewrite Z.shiftl_mul_pow2 by lia. rewrite <- lor_low_high by lia.
    rewrite <- Z.lxor_lor; [apply Z.lxor_comm|]. apply Z.bits_inj'. intros i Hi. rewrite Z.land_spec, Z.bits_0.
    destruct (decide (i < 8)); [by rewrite Z.mul_pow2_bits_low by lia|].
    rewrite <- (Z.mod_small l (2 ^ 8)) by lia. by rewrite Z.mod_pow2_bits_high, andb_false_r by lia. }
  rewrite !Hw by done. lia.
Qed.

Lemma next_crc_pair c lo hi : uword 16 c -> byte lo -> byte hi ->
  next_crc (next_crc c lo) hi = Nat.iter 16 crc_bit (Z.lxor c (word_of_bytes lo hi)).
Proof.
  intros Hc Hlo Hhi. rewrite next_crc_reference by (try apply next_crc_uword; done).
  rewrite (next_crc_reference c lo) by done. rewrite <- (crc_high_byte hi Hhi) at 1.
  unfold crc_byte at 2 3. rewrite <- crc_iter_lxor. unfold crc_byte. rewrite <- Nat.iter_add.
  unfold word_of_bytes. by rewrite Z.lxor_assoc.
Qed.

Lemma next_crc_inj c c' b : uword 16 c -> uword 16 c' -> byte b -> next_crc c b = next_crc c' b -> c = c'.
Proof.
  intros Hc Hc' Hb. rewrite !next_crc_reference by done. intros Heq. apply Z.lxor_eq.
  apply (crc_iter_zero 8); [by apply lxor_uword|].
  replace (Z.lxor c c') with (Z.lxor (Z.lxor c b) (Z.lxor c' b)).
  - rewrite crc_iter_lxor. unfold crc_byte in Heq. rewrite Heq. apply Z.lxor_nilpotent.
  - rewrite (Z.lxor_comm c' b), Z.lxor_assoc, <- (Z.lxor_assoc b b), Z.lxor_nilpotent, Z.lxor_0_l. done.
Qed.

Lemma crc_fold_inj c c' data : uword 16 c -> uword 16 c' -> Forall byte data ->
  foldl next_crc c data = foldl next_crc c' data -> c = c'.
Proof.
  intros Hc Hc' Hd. revert c c' Hc Hc'. induction Hd as [|b data Hb Hd IH]; intros c c' Hc Hc' Heq; [done|].
  cbn [foldl] in Heq. apply IH in Heq; [|by apply next_crc_uword..]. by apply next_crc_inj in Heq.
Qed.

(** ** Main theorems *)

(** The table-driven checksum is the bit-by-bit one, on every sequence of
    bytes; two bytes appended to the data give the checksum zero exactly when they
    are the two bytes of the checksum of the data. *)
Theorem crc16_accepts data lo hi :
  Forall byte data -> byte lo -> byte hi ->
  crc16_compute data = crc16_reference data /\ uword 16 (crc16_compute data) /\
  (crc16_compute (data ++ [lo; hi]) = 0 <-> [lo; hi] = crc16_bytes (crc16_compute data)).
Proof.
  intros Hd Hlo Hhi. assert (uword 16 0) as H0 by (unfold uword; lia).
  pose proof (crc_fold_uword 0 data H0 Hd) as Hc. fold (crc16_compute data) in Hc.
  split; [by apply crc_fold_reference|]. split; [done|].
  unfold crc16_compute at 1. rewrite foldl_app. fold (crc16_compute data). cbn [foldl].
  rewrite next_crc_pair by done. pose proof (word_of_bytes_uword lo hi Hlo Hhi).
  destruct (crc16_bytes_word _ Hc) as (lo' & hi' & -> & Hlo' & Hhi' & Hw). split.
  - intros Hz. apply crc_iter_zero in Hz; [|by apply lxor_uword]. apply Z.lxor_eq in Hz.
    rewrite <- Hw in Hz. by apply word_of_bytes_inj in Hz as [-> ->].
  - intros [= -> ->]. rewrite Hw, Z.lxor_nilpotent. by vm_compute.
Qed.

Lemma crc16_accepts_witness : crc16_compute ((str: "123456789") ++ [0x3D; 0xBB]) = 0.
Proof.
  assert (Forall byte (str: "123456789")) as Hd by closed_decide.
  apply (crc16_accepts _ 0x3D 0xBB Hd ltac:(unfold byte, uword; lia) ltac:(unfold byte, uword; lia)).
  vm_compute. reflexivity.
Defined.

(** No change confined to two adjacent bytes goes undetected: two messages
    of the same length that differ only there have different checksums. *)
Theorem crc16_detects_bursts before a b a' b' after :
  Forall byte before -> byte a -> byte b -> byte a' -> byte b' -> Forall byte after ->
  crc16_compute (before ++ [a; b] ++ after) = crc16_compute (before ++ [a'; b'] ++ after) ->
  a = a' /\ b = b'.
Proof.
  intros Hbefore Ha Hb Ha' Hb' Hafter. unfold crc16_compute. rewrite !foldl_app. cbn [foldl].
  assert (uword 16 0) as H0 by (unfold uword; lia). pose proof (crc_fold_uword 0 before H0 Hbefore) as Hc.
  set (c := foldl next_crc 0 before) in *. intros Heq.
  apply crc_fold_inj in Heq; [|by repeat apply next_crc_uword..|done]. rewrite !next_crc_pair in Heq by done.
  pose proof (word_of_bytes_uword a b Ha Hb) as Hw. pose proof (word_of_bytes_uword a' b' Ha' Hb') as Hw'.
  apply word_of_bytes_inj; [done..|]. apply Z.lxor_eq. apply (crc_iter_zero 16); [by apply lxor_uword|].
  replace (Z.lxor (word_of_bytes a b) (word_of_bytes a' b'))
    with (Z.lxor (Z.lxor c (word_of_bytes a b)) (Z.lxor c (word_of_bytes a' b'))).
  - rewrite crc_iter_lxor, Heq. apply Z.lxor_nilpotent.
  - rewrite (Z.lxor_comm c (word_of_bytes a b)), Z.lxor_assoc, <- (Z.lxor_assoc c c), Z.lxor_nilpotent, Z.lxor_0_l. done.
Qed.

Lemma crc16_detects_bursts_witness : crc16_compute [1; 2; 3; 4] <> crc16_compute [1; 0x80; 0x03; 4].
Proof.
  intros Heq.
  assert (2 = 0x80 /\ 3 = 0x03) as [H _]; [|discriminate H].
  apply (crc16_detects_bursts [1] 2 3 0x80 0x03 [4]); try (unfold byte, uword; lia); try closed_decide. exact Heq.
Defined.
