(* ===== verification/Names.v ===== *)
(** * Rounding and name checks (prinbee/utils.h)

    A name is a C string: [None] for a null pointer, otherwise the codes of the
    characters before the terminator.  The functions that throw return a
    [result]. *)

From S2P Require Import Prelude.

(** ** Rounding, on std::uint64_t *)

Definition round_down (value multiple : Z) : result Z :=
  if decide (multiple = 0) then Throw undefined_behavior
  else Ok (wrap 64 (value - value mod multiple)).

Definition round_up (value multiple : Z) : result Z :=
  let adjusted := wrap 64 (value + multiple - 1) in
  round_down adjusted multiple.

Definition divide_rounded_up (value multiple : Z) : result Z :=
  if decide (multiple = 0) then Throw undefined_behavior
  else Ok (wrap 64 (value + multiple - 1) / multiple).

(** ** Name checks *)

(** The tests of the first character of a name and of the other ones. *)
Definition name_start_char (c : Z) : bool :=
  negb (bool_decide ((c < (chr: "a") \/ c > (chr: "z")) /\ (c < (chr: "A") \/ c > (chr: "Z")) /\ c <> (chr: "_"))).
Definition name_char (c : Z) : bool :=
  negb (bool_decide ((c < (chr: "a") \/ c > (chr: "z")) /\ (c < (chr: "A") \/ c > (chr: "Z"))
                     /\ (c < (chr: "0") \/ c > (chr: "9")) /\ c <> (chr: "_"))).
Definition digit_char_test (c : Z) : bool := negb (bool_decide (c < (chr: "0") \/ c > (chr: "9"))).

Definition validate_name (name : option (list Z)) (max_length : Z) : result bool :=
  if decide (max_length = 0) then Throw logic_error
  else
    match default [] name with
    | [] => Ok false
    | c :: rest =>
        if decide (Z.of_nat (length (c :: rest)) > max_length) then Ok false
        else if negb (name_start_char c) then Ok false
        else Ok (forallb name_char rest)
    end.

(** The loop over the characters of the field name: where it stops, the last
    character read and the characters after it. *)
Fixpoint name_loop (idx : Z) (c : Z) (s : list Z) : Z * Z * list Z :=
  match s with
  | [] => (idx, c, [])
  | c' :: s => if name_char c' then name_loop (idx + 1) c' s else (idx, c', s)
  end.

Definition validate_char_field_name (name : option (list Z)) (max_length : Z) : result bool :=
  if decide (max_length = 0) then Throw logic_error
  else
    match default [] name with
    | [] => Ok false
    | c :: rest =>
        if negb (name_start_char c) then Ok false
        else
          let '(idx, c, after) := name_loop 1 c rest in
          if decide (c <> (chr: "=") \/ idx > max_length \/ idx + 1 = Z.of_nat (length (default [] name))) then Ok false
          else Ok (forallb digit_char_test after)
    end.

(** The state machine over the flags of a bit field. *)
Fixpoint bit_field_loop (max_length : Z) (state name_start idx : Z) (s : list Z) : bool :=
  match s with
  | [] => negb (bool_decide (state = 0 \/ state = 2 \/ (state = 1 /\ idx - name_start > max_length)))
  | c :: s =>
      if decide (state = 0) then
        if negb (name_start_char c) then false
        else bit_field_loop max_length 1 idx (idx + 1) s
      else if decide (state = 1) then
        if decide (c = (chr: ":")) then
          if decide (idx - name_start > max_length) then false
          else bit_field_loop max_length 2 name_start (idx + 1) s
        else if decide (c = (chr: "/")) then
          if decide (idx - name_start > max_length) then false
          else bit_field_loop max_length 0 name_start (idx + 1) s
        else if negb (name_char c) then false
        else bit_field_loop max_length 1 name_start (idx + 1) s
      else
        if decide (c = (chr: "/")) then
          if decide (state = 2) then false
          else bit_field_loop max_length 0 name_start (idx + 1) s
        else if negb (digit_char_test c) then false
        else bit_field_loop max_length 3 name_start (idx + 1) s
  end.

Definition validate_bit_field_name (name : option (list Z)) (max_length : Z) : result bool :=
  if decide (max_length = 0) then Throw logic_error
  else
    match default [] name with
    | [] => Ok false
    | c :: rest =>
        if negb (name_start_char c) then Ok false
        else
          let '(idx, c, after) := name_loop 1 c rest in
          if decide (c <> (chr: "=") \/ idx > max_length) then Ok false
          else Ok (bit_field_loop max_length 0 0 (idx + 1) after)
    end.

(** A conjunction of tests of characters, at the given positions. *)
Definition chars_at (get : nat -> Z) (tests : list (nat * Z)) : bool :=
  forallb (fun '(idx, c) => Z.eqb (get idx) c) tests.

(** [e[-1]], [e[-2]], ... are the characters of the reversed name. *)
Definition verify_node_name (name : option (list Z)) : bool :=
  match name with
  | None => false
  | Some name =>
      let at_ idx := nth idx (name ++ [0]) 0 in
      let e idx := nth (idx - 1) (rev name) 0 in
      if chars_at at_ [(0, (chr: "p")); (1, (chr: "r")); (2, (chr: "o")); (3, (chr: "x")); (4, (chr: "y")); (5, 0%Z)]%nat
      then false
      else if chars_at at_ [(0, (chr: "c")); (1, (chr: "l")); (2, (chr: "i")); (3, (chr: "e")); (4, (chr: "n"));
                            (5, (chr: "t")); (6, 0%Z)]%nat
      then false
      else if decide (length name < 6)%nat then true
      else if chars_at e [(1, (chr: "y")); (2, (chr: "x")); (3, (chr: "o")); (4, (chr: "r")); (5, (chr: "p")); (6, (chr: "_"))]%nat
      then false
      else if decide (length name < 7)%nat then true
      else if chars_at e [(1, (chr: "t")); (2, (chr: "n")); (3, (chr: "e")); (4, (chr: "i")); (5, (chr: "l")); (6, (chr: "c"));
                          (7, (chr: "_"))]%nat
      then false
      else true
  end.

(** ** The languages the checks decide *)

Definition is_letter (c : Z) : Prop :=
  (chr: "a") <= c <= (chr: "z") \/ (chr: "A") <= c <= (chr: "Z") \/ c = (chr: "_").
Definition is_digit (c : Z) : Prop := (chr: "0") <= c <= (chr: "9").

(** [[A-Za-z_][A-Za-z_0-9]*] *)
Definition identifier (s : list Z) : Prop :=
  exists c w, s = c :: w /\ is_letter c /\ Forall (fun c => is_letter c \/ is_digit c) w.
(** [[0-9]+] *)
Definition number (s : list Z) : Prop := s <> [] /\ Forall is_digit s.

(** One flag: a name of at most [n] characters and an optional size. *)
Definition bit_flag (n : Z) (s : list Z) : Prop :=
  exists name, identifier name /\ Z.of_nat (length name) <= n /\
    (s = name \/ exists size, number size /\ s = name ++ (chr: ":") :: size).

Inductive bit_flags (n : Z) : list Z -> Prop :=
  | bit_flags_last s : bit_flag n s -> bit_flags n s
  | bit_flags_more s rest : bit_flag n s -> bit_flags n rest -> bit_flags n (s ++ (chr: "/") :: rest).

(** ** Characters *)

Lemma name_start_char_iff c : name_start_char c = true <-> is_letter c.
Proof. unfold name_start_char, is_letter. rewrite negb_true_iff, bool_decide_eq_false. lia. Qed.

Lemma name_char_iff c : name_char c = true <-> is_letter c \/ is_digit c.
Proof. unfold name_char, is_letter, is_digit. rewrite negb_true_iff, bool_decide_eq_false. lia. Qed.

Lemma digit_char_test_iff c : digit_char_test c = true <-> is_digit c.
Proof. unfold digit_char_test, is_digit. rewrite negb_true_iff, bool_decide_eq_false. lia. Qed.

Lemma forallb_Forall {A} (f : A -> bool) (P : A -> Prop) l :
  (forall x, f x = true <-> P x) -> forallb f l = true <-> Forall P l.
Proof. intros Hf. rewrite forallb_forall, Forall_forall. setoid_rewrite Hf. by setoid_rewrite list_elem_of_In. Qed.

(** Punctuation is not part of a name. *)
Lemma punctuation_not_name c : c = (chr: "=") \/ c = (chr: "/") \/ c = (chr: ":") -> name_char c = false.
Proof. by intros [-> | [-> | ->]]. Qed.

Lemma name_loop_spec idx c s idx' c' after :
  name_loop idx c s = (idx', c', after) ->
  (exists w, s = w ++ c' :: after /\ Forall (fun c => name_char c = true) w /\ name_char c' = false /\
             idx' = idx + Z.of_nat (length w)) \/
  (after = [] /\ Forall (fun c => name_char c = true) s /\ (s = [] /\ c' = c \/ name_char c' = true)).
Proof.
  revert idx c. induction s as [|c0 s IH]; intros idx c Hl; cbn [name_loop] in Hl.
  - simplify_eq. right. split_and!; [done|by constructor|by left].
  - destruct (name_char c0) eqn:E.
    + destruct (IH _ _ Hl) as [(w & -> & Hw & Hc & ->)|(-> & Hs & Hc)].
      * left. exists (c0 :: w). split_and!; [done|by constructor|done|cbn; lia].
      * right. split_and!; [done|by constructor|]. right. by destruct Hc as [[_ ->]|].
    + simplify_eq. left. exists []. split_and!; [done..|cbn; lia].
Qed.

(** ** The state machine of the bit fields *)

Section BitFields.
Context (n : Z).

(** What may follow a size, and what may follow the name of a flag. *)
Definition after_size (t : list Z) : Prop := t = [] \/ exists r, t = (chr: "/") :: r /\ bit_flags n r.
Definition after_name (t : list Z) : Prop :=
  after_size t \/ exists d r, t = (chr: ":") :: d ++ r /\ number d /\ after_size r.

Lemma bit_flags_parts s : bit_flags n s <->
  exists c w t, s = c :: w ++ t /\ is_letter c /\ Forall (fun c => is_letter c \/ is_digit c) w /\
    1 + Z.of_nat (length w) <= n /\ after_name t.
Proof.
  assert (forall f r, bit_flag n f -> after_size r ->
    exists c w t, f ++ r = c :: w ++ t /\ is_letter c /\ Forall (fun c => is_letter c \/ is_digit c) w /\
      1 + Z.of_nat (length w) <= n /\ after_name t) as Hflag.
  { intros f r (name & (c & w & -> & Hc & Hw) & Hn & Hf) Hr. cbn [length] in Hn.
    destruct Hf as [->|(size & Hsize & ->)].
    - exists c, w, r. split_and!; try done; [lia|by left].
    - exists c, w, ((chr: ":") :: size ++ r). split_and!; try done; [|lia|right; eauto].
      cbn. f_equal. by rewrite <- app_assoc. }
  split.
  - intros [f Hf|f rest Hf Hrest].
    + pose proof (Hflag f [] Hf (or_introl eq_refl)) as Hp. by rewrite app_nil_r in Hp.
    + apply Hflag; [done|]. right. eauto.
  - intros (c & w & t & -> & Hc & Hw & Hn & Ht).
    assert (identifier (c :: w) /\ Z.of_nat (length (c :: w)) <= n) as [Hid Hlen].
    { split; [by exists c, w|cbn [length]; lia]. }
    change (c :: w ++ t) with ((c :: w) ++ t). destruct Ht as [[->|(r & -> & Hr)]|(d & r & -> & Hd & Hr)].
    + rewrite app_nil_r. apply bit_flags_last. exists (c :: w). auto.
    + apply bit_flags_more; [|done]. exists (c :: w). auto.
    + assert (bit_flag n ((c :: w) ++ (chr: ":") :: d)) as Hb by (exists (c :: w); split_and!; eauto).
      replace ((c :: w) ++ (chr: ":") :: d ++ r) with (((c :: w) ++ (chr: ":") :: d) ++ r) by (by rewrite <- app_assoc).
      destruct Hr as [->|(r' & -> & Hr)]; [rewrite app_nil_r; by apply bit_flags_last|by apply bit_flags_more].
Qed.

Definition state_language (state used : Z) (s : list Z) : Prop :=
  if decide (state = 0) then bit_flags n s
  else if decide (state = 1) then
    exists w t, s = w ++ t /\ Forall (fun c => is_letter c \/ is_digit c) w /\
      used + Z.of_nat (length w) <= n /\ after_name t
  else exists d t, s = d ++ t /\ Forall is_digit d /\ (state = 2 -> d <> []) /\ after_size t.

Lemma state_language_0 used s : state_language 0 used s = bit_flags n s.
Proof. reflexivity. Qed.

Lemma state_language_1 used s : state_language 1 used s =
  exists w t, s = w ++ t /\ Forall (fun c => is_letter c \/ is_digit c) w /\
    used + Z.of_nat (length w) <= n /\ after_name t.
Proof. reflexivity. Qed.

Lemma state_language_size state used s : state = 2 \/ state = 3 -> state_language state used s =
  exists d t, s = d ++ t /\ Forall is_digit d /\ (state = 2 -> d <> []) /\ after_size t.
Proof. by intros [-> | ->]. Qed.

Lemma after_size_head c s : after_size (c :: s) -> c = (chr: "/") /\ bit_flags n s.
Proof. intros [|(r & [= -> ->] & Hr)]; done. Qed.

Lemma after_name_head c s : after_name (c :: s) ->
  c = (chr: "/") /\ bit_flags n s \/ c = (chr: ":") /\ exists d r, s = d ++ r /\ number d /\ after_size r.
Proof. intros [H%after_size_head|(d & r & [= -> ->] & Hd & Hr)]; [by left|right; eauto 10]. Qed.

Lemma bit_field_loop_nil state ns idx : 0 <= state <= 3 ->
  bit_field_loop n state ns idx [] = true <-> state_language state (idx - ns) [].
Proof.
  intros Hs. cbn [bit_field_loop]. rewrite negb_true_iff, bool_decide_eq_false. unfold state_language.
  destruct (decide (state = 0)) as [->|H0].
  { split; [lia|]. intros (c & w & t & [=] & _)%bit_flags_parts. }
  destruct (decide (state = 1)) as [->|H1].
  { split.
    - intros Hn. exists [], []. split_and!; [done..|cbn; lia|by left; left].
    - intros (w & t & Hnil & _ & Hn & _). symmetry in Hnil. apply app_eq_nil in Hnil as [-> ->]. cbn in Hn. lia. }
  split.
  - intros Hn. exists [], []. split_and!; [done..|lia|by left].
  - intros (d & t & Hnil & _ & Hd & _). symmetry in Hnil. apply app_eq_nil in Hnil as [-> ->].
    intros [?|[?|[? _]]]; try lia. by apply Hd.
Qed.

Lemma start_step c s : state_language 1 1 s /\ is_letter c <-> bit_flags n (c :: s).
Proof.
  rewrite bit_flags_parts. rewrite state_language_1. split.
  - intros [(w & t & -> & Hw & Hn & Ht) Hc]. eauto 10.
  - intros (c' & w & t & [= <- ->] & Hc & Hw & Hn & Ht). eauto 10.
Qed.

Lemma name_step c s used : c <> (chr: "/") -> c <> (chr: ":") ->
  state_language 1 used (c :: s) <-> (is_letter c \/ is_digit c) /\ state_language 1 (used + 1) s.
Proof.
  intros Hs Hc. rewrite !state_language_1. split.
  - intros (w & t & Heq & Hw & Hn & Ht). destruct w as [|c' w].
    + cbn in Heq. subst t. apply after_name_head in Ht as [[? _]|[? _]]; done.
    + cbn in Heq. simplify_eq. apply Forall_cons in Hw as [Hc' Hw]. cbn [length] in Hn.
      split; [done|]. exists w, t. split_and!; [done..|lia|done].
  - intros [Hc' (w & t & -> & Hw & Hn & Ht)]. exists (c :: w), t. split_and!; [done|by constructor|cbn [length]; lia|done].
Qed.

Lemma name_end_step c s used : c = (chr: "/") \/ c = (chr: ":") ->
  state_language 1 used (c :: s) <-> used <= n /\ state_language (if decide (c = (chr: ":")) then 2 else 0) 0 s.
Proof.
  intros Hc. assert (~ (is_letter c \/ is_digit c)) as Hnot.
  { rewrite <- name_char_iff, punctuation_not_name by tauto. done. }
  rewrite state_language_1.
  assert ((exists w t, c :: s = w ++ t /\ Forall (fun c => is_letter c \/ is_digit c) w /\
             used + Z.of_nat (length w) <= n /\ after_name t) <-> used <= n /\ after_name (c :: s)) as ->.
  { split.
    - intros (w & t & Heq & Hw & Hn & Ht). destruct w as [|c' w].
      + cbn in Heq. subst t. cbn [length] in Hn. split; [lia|done].
      + cbn in Heq. simplify_eq. by apply Forall_cons in Hw as [? _].
    - intros [Hn Ht]. exists [], (c :: s). cbn. split_and!; [done..|lia|done]. }
  apply and_iff_compat_l. split.
  - intros [[-> Hr]|[-> (d & r & -> & [Hd0 Hd] & Hr)]]%after_name_head; [done|].
    rewrite decide_True, state_language_size by auto. eauto 10.
  - destruct Hc as [-> | ->].
    + rewrite decide_False, state_language_0 by done. intros Hr. left. right. eauto.
    + rewrite decide_True, state_language_size by auto.
      intros (d & t & -> & Hd & Hd0 & Ht). right. exists d, t. split_and!; [done|split; auto|done].
Qed.

Lemma size_step c s state used : state = 2 \/ state = 3 ->
  state_language state used (c :: s) <->
    (if decide (c = (chr: "/")) then state = 3 /\ bit_flags n s else is_digit c /\ state_language 3 used s).
Proof.
  intros Hs. rewrite !state_language_size by lia. split.
  - intros (d & t & Heq & Hd & Hd0 & Ht). destruct d as [|c' d].
    + cbn in Heq. subst t. apply after_size_head in Ht as [-> Hr]. rewrite decide_True by done.
      split; [|done]. destruct Hs as [->|]; [|done]. by destruct Hd0.
    + cbn in Heq. simplify_eq. apply Forall_cons in Hd as [Hc' Hd]. rewrite decide_False by (intros ->; by apply digit_char_test_iff in Hc').
      split; [done|]. exists d, t. split_and!; [done..|lia|done].
  - destruct (decide (c = (chr: "/"))) as [->|Hc].
    + intros [-> Hr]. exists [], ((chr: "/") :: s). split_and!; [done..|lia|right; eauto].
    + intros [Hc' (d & t & -> & Hd & _ & Ht)]. exists (c :: d), t. split_and!; [done|by constructor|done|done].
Qed.

Lemma bit_field_loop_spec s state ns idx : 0 <= state <= 3 ->
  bit_field_loop n state ns idx s = true <-> state_language state (idx - ns) s.
Proof.
  revert state ns idx. induction s as [|c s IH]; intros state ns idx Hs; [by apply bit_field_loop_nil|].
  cbn [bit_field_loop]. destruct (decide (state = 0)) as [->|H0].
  { change (state_language 0 (idx - ns) (c :: s)) with (bit_flags n (c :: s)). rewrite <- start_step, <- name_start_char_iff.
    destruct (name_start_char c); cbn [negb]; [|by split; [|intros [_ ?]]].
    rewrite IH by lia. replace (idx + 1 - idx) with 1 by lia. tauto. }
  destruct (decide (state = 1)) as [->|H1].
  { destruct (decide (c = (chr: ":") \/ c = (chr: "/"))) as [Hc|Hc].
    - rewrite name_end_step by tauto. destruct (decide (c = (chr: ":"))) as [E|E]; [|rewrite decide_True by tauto];
        (destruct (decide (idx - ns > n)); [split; [done|lia]|]); rewrite IH by lia; rewrite ?state_language_0, ?state_language_size by lia;
        (split; [intros ?; split; [lia|done]|by intros [_ ?]]).
    - rewrite !decide_False by tauto. rewrite name_step, <- name_char_iff by tauto.
      destruct (name_char c); cbn [negb]; [|by split; [|intros [? _]]].
      rewrite IH by lia. replace (idx + 1 - ns) with (idx - ns + 1) by lia. tauto. }
  rewrite size_step by lia. destruct (decide (c = (chr: "/"))).
  - destruct (decide (state = 2)); [split; [done|lia]|]. rewrite IH, state_language_0 by lia.
    split; [intros ?; split; [lia|done]|by intros [_ ?]].
  - rewrite <- digit_char_test_iff. destruct (digit_char_test c); cbn [negb]; [|by split; [|intros [? _]]].
    rewrite IH by lia. rewrite !state_language_size by lia. tauto.
Qed.
End BitFields.

(** ** Whole names and suffixes *)

Lemma chars_at_seq k f g t : (forall i, (i < length t)%nat -> f (k + i)%nat = g i) ->
  chars_at f (zip (seq k (length t)) t) = true <-> forall i, (i < length t)%nat -> g i = nth i t 0.
Proof.
  revert k g. induction t as [|c t IH]; intros k g Hfg; cbn [length].
  { split; [intros _ i Hi; lia|done]. }
  cbn [seq zip zip_with chars_at forallb]. rewrite andb_true_iff, Z.eqb_eq.
  change (forallb _ ?l) with (chars_at f l). rewrite (IH (S k) (fun i => g (S i))).
  - pose proof (Hfg 0%nat ltac:(cbn; lia)) as H0. rewrite Nat.add_0_r in H0. rewrite H0. split.
    + intros [Hc Ht] [|i] Hi; [done|]. apply Ht. lia.
    + intros Hi. split; [apply (Hi 0%nat); lia|]. intros i Hlt. apply (Hi (S i)). lia.
  - intros i Hi. rewrite <- (Hfg (S i)) by (cbn; lia). f_equal. lia.
Qed.

(** The test of a whole name, up to the terminator. *)
Lemma chars_at_whole name t : Forall (fun c => c <> 0) name -> Forall (fun c => c <> 0) t ->
  chars_at (fun idx => nth idx (name ++ [0]) 0) (zip (seq 0 (length (t ++ [0]))) (t ++ [0])) = true <-> name = t.
Proof.
  intros Hn Ht. rewrite (chars_at_seq 0 _ (fun i => nth i (name ++ [0]) 0)) by done. split; [|by intros ->].
  revert t Ht. induction Hn as [|c name Hc Hn IH]; intros t Ht Hi.
  - destruct Ht as [|c t Hc Ht]; [done|]. specialize (Hi 0%nat ltac:(cbn; lia)). cbn in Hi. congruence.
  - pose proof (Hi 0%nat ltac:(rewrite length_app; cbn; lia)) as H0. destruct Ht as [|c' t Hc' Ht]; [done|].
    cbn in H0. f_equal; [done|]. apply IH; [done|]. intros i Hlt. apply (Hi (S i)). cbn. lia.
Qed.

Lemma nth_prefix (a b : list Z) : (length a <= length b)%nat ->
  (forall i, (i < length a)%nat -> nth i b 0 = nth i a 0) <-> a `prefix_of` b.
Proof.
  revert b. induction a as [|x a IH]; intros b Hlen; [split; [intros _; apply prefix_nil|intros _ i Hi; cbn in Hi; lia]|].
  destruct b as [|y b]; [cbn in Hlen; lia|]. cbn [length] in *. split.
  - intros Hi. pose proof (Hi 0%nat ltac:(lia)) as H0. cbn in H0. subst y. apply prefix_cons, IH; [lia|].
    intros i Hlt. apply (Hi (S i)). lia.
  - intros [p [= -> ->]] [|i] Hi; [done|]. cbn. rewrite app_nth1 by lia. done.
Qed.

(** The test of the last characters, backwards. *)
Lemma chars_at_suffix name t : (length t <= length name)%nat ->
  chars_at (fun idx => nth (idx - 1) (rev name) 0) (zip (seq 1 (length (rev t))) (rev t)) = true <-> t `suffix_of` name.
Proof.
  intros Hlen. rewrite (chars_at_seq 1 _ (fun i => nth i (rev name) 0)).
  - rewrite nth_prefix by (by rewrite !length_rev). split.
    + intros [p Hp]. exists (rev p). rewrite <- (rev_involutive name), Hp, rev_app_distr, rev_involutive. done.
    + intros [p ->]. rewrite rev_app_distr. by apply prefix_app_r.
  - intros i _. f_equal. lia.
Qed.

Lemma verify_node_name_spec name : Forall (fun c => c <> 0) name ->
  verify_node_name (Some name) = true <->
  name <> (str: "proxy") /\ name <> (str: "client") /\
  ~ (str: "_proxy") `suffix_of` name /\ ~ (str: "_client") `suffix_of` name.
Proof.
  intros Hn. unfold verify_node_name. cbv zeta.
  pose proof (chars_at_whole name (str: "proxy") Hn ltac:(closed_decide)) as Hp.
  pose proof (chars_at_whole name (str: "client") Hn ltac:(closed_decide)) as Hc.
  pose proof (suffix_length (str: "_proxy") name) as Hlp. pose proof (suffix_length (str: "_client") name) as Hlc.
  pose proof (chars_at_suffix name (str: "_proxy")) as Hsp. pose proof (chars_at_suffix name (str: "_client")) as Hsc.
  cbn [length app rev seq zip zip_with] in *.
  destruct (chars_at _ _) in Hp |- *; [by split; [|intros [[] _]; apply Hp]|].
  destruct (chars_at _ _) in Hc |- *; [by split; [|intros (_ & [] & _); apply Hc]|].
  assert (name <> (str: "proxy")) by (intros ?%Hp; done). assert (name <> (str: "client")) by (intros ?%Hc; done).
  destruct (decide (length name < 6)%nat) as [H6|H6]; [split; [intros _|done]; split_and!; try done; intros Hs; [apply Hlp in Hs|apply Hlc in Hs]; lia|].
  specialize (Hsp ltac:(lia)).
  destruct (chars_at _ _) in Hsp |- *; [by split; [|intros (_ & _ & [] & _); apply Hsp]|].
  assert (~ (str: "_proxy") `suffix_of` name) by (intros ?%Hsp; done).
  destruct (decide (length name < 7)%nat) as [H7|H7]; [split; [intros _|done]; split_and!; try done; intros Hs%Hlc; lia|].
  specialize (Hsc ltac:(lia)).
  destruct (chars_at _ _) in Hsc |- *; [by split; [|intros (_ & _ & _ & []); apply Hsc]|].
  split; [intros _|done]. split_and!; try done. by intros ?%Hsc.
Qed.

(** ** The field name before the equal sign *)

Lemma name_loop_stop idx c w c' r : Forall (fun c => name_char c = true) w -> name_char c' = false ->
  name_loop idx c (w ++ c' :: r) = (idx + Z.of_nat (length w), c', r).
Proof.
  intros Hw Hc'. revert idx c. induction Hw as [|c0 w Hc0 Hw IH]; intros idx c; cbn [app name_loop length].
  - rewrite Hc'. do 2 f_equal. lia.
  - rewrite Hc0, IH. do 2 f_equal. lia.
Qed.

Lemma name_loop_equal c rest idx c' after (P : list Z -> Prop) n :
  name_loop 1 c rest = (idx, c', after) ->
  (exists s r, c :: rest = s ++ (chr: "=") :: r /\ identifier s /\ Z.of_nat (length s) <= n /\ P r) <->
  is_letter c /\ c' = (chr: "=") /\ idx <= n /\ Z.of_nat (length (c :: rest)) = idx + 1 + Z.of_nat (length after) /\ P after.
Proof.
  intros Hl. split.
  - intros (s & r & Heq & (c0 & w & -> & Hc0 & Hw) & Hn & Hr). cbn in Heq. injection Heq as <- ->.
    rewrite name_loop_stop in Hl; [|by eapply Forall_impl; [exact Hw|]; intros x; rewrite name_char_iff|done].
    injection Hl as <- <- <-. cbn [length] in *. rewrite length_app. cbn [length]. split_and!; try done; lia.
  - intros (Hc & -> & Hn & _ & Hp). apply name_loop_spec in Hl as [(w & -> & Hw & _ & ->)|(_ & _ & [[_ He]|He])].
    + exists (c :: w), after. split; [done|]. split; [|split; [cbn [length]; lia|done]].
      exists c, w. split_and!; [done..|]. eapply Forall_impl; [exact Hw|]. intros x. by rewrite name_char_iff.
    + unfold is_letter in Hc. lia.
    + done.
Qed.

(** ** Main theorems *)

(** Rounding fails for a zero multiple only (a division by zero in the
    code); otherwise [round_down] gives the greatest multiple not above the value,
    and, when the sum with the multiple does not wrap, [round_up] gives the least
    multiple not below it and [divide_rounded_up] its quotient. *)
Theorem rounding value multiple :
  uword 64 value -> uword 64 multiple ->
  (multiple = 0 -> round_down value 0 = Throw undefined_behavior /\ round_up value 0 = Throw undefined_behavior /\
                   divide_rounded_up value 0 = Throw undefined_behavior) /\
  (multiple <> 0 ->
   exists d, round_down value multiple = Ok d /\ d mod multiple = 0 /\ d <= value < d + multiple /\ uword 64 d) /\
  (multiple <> 0 -> value + multiple - 1 < 2 ^ 64 ->
   exists u q, round_up value multiple = Ok u /\ divide_rounded_up value multiple = Ok q /\
     u = q * multiple /\ u - multiple < value <= u /\ uword 64 u).
Proof.
  unfold uword. intros Hv Hm.
  assert (forall x, 0 <= x < 2 ^ 64 -> multiple <> 0 ->
    exists d, round_down x multiple = Ok d /\ d = x / multiple * multiple /\ d <= x < d + multiple /\ 0 <= d < 2 ^ 64) as Hdown.
  { intros x Hx Hnz. unfold round_down. rewrite decide_False by done.
    pose proof (Z.div_mod x multiple Hnz). pose proof (Z.mod_pos_bound x multiple ltac:(lia)).
    assert (0 <= x / multiple) by (apply Z.div_pos; lia).
    eexists. split; [done|]. unfold wrap. rewrite Z.mod_small by nia. nia. }
  split; [|split].
  - intros ->. unfold round_up, divide_rounded_up, round_down. by rewrite !decide_True by done.
  - intros Hnz. destruct (Hdown value Hv Hnz) as (d & Hd & -> & Hb & Hr). exists (value / multiple * multiple).
    split_and!; try done; try lia. apply Z.mod_mul. done.
  - intros Hnz Hsum. unfold round_up, divide_rounded_up. rewrite decide_False by done.
    unfold wrap. rewrite Z.mod_small by lia.
    destruct (Hdown (value + multiple - 1) ltac:(lia) Hnz) as (u & Hu & -> & Hb & Hr).
    eexists _, _. split; [exact Hu|]. split; [done|]. split; [done|]. lia.
Qed.

Lemma rounding_witness : exists u q, round_up 4097 4096 = Ok u /\ divide_rounded_up 4097 4096 = Ok q /\ u = q * 4096 /\
  u - 4096 < 4097 <= u.
Proof.
  destruct (rounding 4097 4096 ltac:(unfold uword; lia) ltac:(unfold uword; lia)) as (_ & _ & H).
  destruct (H ltac:(lia) ltac:(lia)) as (u & q & H1 & H2 & H3 & H4 & _).
  exists u, q. split; [exact H1|]. split; [exact H2|]. split; [exact H3|exact H4].
Defined.

(** The three checks of field names decide their languages, and throw for a
    zero length only: an identifier of at most [n] characters; an identifier of
    at most [n] characters, an equal sign and a number; an identifier of at most
    [n] characters, an equal sign and slash-separated flags, each an identifier of
    at most [n] characters with an optional size. *)
Theorem field_name_checks name n :
  0 <= n ->
  (n = 0 -> validate_name name n = Throw logic_error /\ validate_char_field_name name n = Throw logic_error /\
            validate_bit_field_name name n = Throw logic_error) /\
  (n <> 0 ->
   exists b1 b2 b3, validate_name name n = Ok b1 /\ validate_char_field_name name n = Ok b2 /\
     validate_bit_field_name name n = Ok b3 /\
     (b1 = true <-> exists s, name = Some s /\ identifier s /\ Z.of_nat (length s) <= n) /\
     (b2 = true <-> exists s size, name = Some (s ++ (chr: "=") :: size) /\ identifier s /\
                                   Z.of_nat (length s) <= n /\ number size) /\
     (b3 = true <-> exists s flags, name = Some (s ++ (chr: "=") :: flags) /\ identifier s /\
                                    Z.of_nat (length s) <= n /\ bit_flags n flags)).
Proof.
  intros Hn0. split; [by intros ->|]. intros Hn. unfold validate_name, validate_char_field_name, validate_bit_field_name.
  rewrite !(decide_False (P := n = 0)) by done.
  assert (~ identifier []) as Hnil by (intros (? & ? & [=] & _)).
  destruct (default [] name) as [|c rest] eqn:Hname.
  { exists false, false, false. assert (name = None \/ name = Some []) as Hno by (destruct name as [[]|]; naive_solver).
    do 3 (split; [done|]). split; [|split]; (split; [done|]).
    - intros (s & Hs & Hid & _). by destruct Hno; simplify_eq.
    - intros (s & size & Hs & Hid & _). destruct Hno; simplify_eq; by destruct s.
    - intros (s & flags & Hs & Hid & _). destruct Hno; simplify_eq; by destruct s. }
  assert (name = Some (c :: rest)) as -> by (destruct name; naive_solver). clear Hname.
  destruct (name_loop 1 c rest) as [[idx c'] after] eqn:Hl.
  pose proof (name_loop_equal c rest idx c' after (fun r => number r) n Hl) as Hnum.
  pose proof (name_loop_equal c rest idx c' after (bit_flags n) n Hl) as Hbits.
  pose proof (name_start_char_iff c) as Hstart.
  exists (bool_decide (Z.of_nat (length (c :: rest)) <= n) && name_start_char c && forallb name_char rest).
  exists (name_start_char c && bool_decide (c' = (chr: "=") /\ idx <= n /\ idx + 1 <> Z.of_nat (length (c :: rest)))
          && forallb digit_char_test after).
  exists (name_start_char c && bool_decide (c' = (chr: "=") /\ idx <= n) && bit_field_loop n 0 0 (idx + 1) after).
  split; [|split; [|split; [|split; [|split]]]].
  - destruct (decide _) as [Hd|Hd]; [by rewrite bool_decide_eq_false_2 by lia|].
    rewrite bool_decide_eq_true_2 by lia. by destruct (name_start_char c).
  - destruct (name_start_char c); [|done]. cbn [negb default andb].
    destruct (decide _) as [Hd|Hd]; [by rewrite bool_decide_eq_false_2 by lia|by rewrite bool_decide_eq_true_2 by lia].
  - destruct (name_start_char c); [|done]. cbn [negb andb].
    destruct (decide _) as [Hd|Hd]; [by rewrite bool_decide_eq_false_2 by lia|by rewrite bool_decide_eq_true_2 by lia].
  - rewrite !andb_true_iff, bool_decide_eq_true, Hstart, (forallb_Forall _ _ _ name_char_iff). split.
    + intros [[Hlen Hc] Hr]. exists (c :: rest). split_and!; [done|by exists c, rest|done].
    + intros (s & [= <-] & (c0 & w & [= <- <-] & Hc & Hw) & Hlen). done.
  - rewrite !andb_true_iff, bool_decide_eq_true, Hstart, (forallb_Forall _ _ _ digit_char_test_iff). split.
    + intros [[Hc (Hc' & Hi & Hmax)] Ha]. destruct after as [|a after'] eqn:E.
      * apply name_loop_spec in Hl as [(w & -> & _ & _ & ->)|(_ & _ & [[_ He]|He])].
        -- cbn [length] in Hmax. rewrite length_app in Hmax. cbn [length] in Hmax. lia.
        -- unfold is_letter in Hc. lia.
        -- by rewrite Hc' in He.
      * destruct (proj2 Hnum) as (s & r & Heq & ?); [|by exists s, r; rewrite Heq].
        apply name_loop_spec in Hl as [(w & -> & _ & _ & ->)|(? & _)]; [|done].
        cbn [length]. rewrite length_app. cbn [length]. split_and!; try done; lia.
    + intros (s & size & [= Heq] & Hrest). destruct (proj1 Hnum) as (? & ? & ? & Hlen & [Hnz Hd]); [by exists s, size|].
      split; [|done]. split; [done|]. split_and!; [done..|]. destruct after; [done|]. cbn [length] in *. lia.
  - rewrite !andb_true_iff, bool_decide_eq_true, Hstart, bit_field_loop_spec, state_language_0 by lia. split.
    + intros [[Hc (Hc' & Hi)] Ha]. destruct (proj2 Hbits) as (s & r & Heq & ?); [|by exists s, r; rewrite Heq].
      apply name_loop_spec in Hl as [(w & -> & _ & _ & ->)|(_ & _ & [[_ He]|He])].
      * cbn [length]. rewrite length_app. cbn [length]. split_and!; try done; lia.
      * unfold is_letter in Hc. lia.
      * by rewrite Hc' in He.
    + intros (s & flags & [= Heq] & Hrest). destruct (proj1 Hbits) as (? & ? & ? & Hlen & ?); [by exists s, flags|]. done.
Qed.

Lemma field_name_checks_witness :
  exists s flags, Some (str: "flags=a:3/bc") = Some (s ++ (chr: "=") :: flags) /\ identifier s /\ bit_flags 255 flags.
Proof.
  destruct (field_name_checks (Some (str: "flags=a:3/bc")) 255 ltac:(lia)) as [_ H].
  destruct (H ltac:(lia)) as (b1 & b2 & b3 & _ & _ & H3 & _ & _ & Hb).
  assert (validate_bit_field_name (Some (str: "flags=a:3/bc")) 255 = Ok true) as E by (vm_compute; reflexivity).
  rewrite E in H3. injection H3 as <-. destruct (proj1 Hb eq_refl) as (s & flags & Hs & Hid & _ & Hf).
  exists s, flags. split; [exact Hs|]. split; [exact Hid|exact Hf].
Defined.

(** A node name is accepted exactly when it is neither "proxy" nor "client"
    and ends neither with "_proxy" nor with "_client"; a null pointer is refused. *)
Theorem node_name_check name :
  Forall (fun c => c <> 0) (default [] name) ->
  verify_node_name name = true <->
  exists s, name = Some s /\ s <> (str: "proxy") /\ s <> (str: "client") /\
    ~ (exists p, s = p ++ (str: "_proxy")) /\ ~ (exists p, s = p ++ (str: "_client")).
Proof.
  destruct name as [s|]; cbn [default]; [|split; [done|by intros (? & [=] & _)]].
  intros Hs. change (default [] (Some s)) with s in Hs. rewrite verify_node_name_spec by done. split; [by eauto|].
  by intros (s' & [= <-] & ?).
Qed.

Lemma node_name_check_witness : verify_node_name (Some (str: "my_proxy1")) = true.
Proof.
  apply (node_name_check (Some (str: "my_proxy1")) ltac:(closed_decide)).
  exists (str: "my_proxy1"). split; [reflexivity|]. split; [discriminate|]. split; [discriminate|].
  split; intros [p Hp]; apply (f_equal (fun l => nth 0 (rev l) 0)) in Hp; rewrite rev_app_distr in Hp; discriminate Hp.
Defined.
