(* ===== verification/Hash.v ===== *)
(** * The streaming hash (prinbee/file/hash.cpp)

    An object is the hash of the blocks of eight bytes read so far, the bytes
    that do not fill a block yet ([f_temp], in reverse order), and, while [add()]
    runs, the bytes of its buffer that are not read yet ([f_input] stands for the
    pointer [f_buffer] and the size [f_size]).  [hash_t] is a 32-bit unsigned
    integer.  The operands of the sums of [get_64bits()] are evaluated from left
    to right.  The theorems relate the object to [hash_of], the hash of the
    whole sequence of bytes. *)

From S2P Require Import Prelude Limbs.

Record hash := Hash {
  f_hash : Z;
  f_total_size : Z;
  f_input : list Z;
  f_temp : list Z;
  f_temp_size : nat;
}.

#[export] Instance hash_eq_dec : EqDecision hash.
Proof. solve_decision. Defined.

(** [hash::hash(seed)] *)
Definition hash_init (seed : Z) : hash := Hash seed 0 [] (replicate 8 0) 0.

Definition buffer_size (h : hash) : nat := f_temp_size h + length (f_input h).

(** [NOT_REACHED()] is the outcome [undefined_behavior]. *)
Definition get_byte (h : hash) : result (Z * hash) :=
  if decide (0 < f_temp_size h)%nat
  then
    let size := (f_temp_size h - 1)%nat in
    Ok (f_temp h !!! size, Hash (f_hash h) (f_total_size h) (f_input h) (f_temp h) size)
  else
    match f_input h with
    | v :: input => Ok (v, Hash (f_hash h) (f_total_size h) input (f_temp h) (f_temp_size h))
    | [] => Throw undefined_behavior
    end.

Definition peek_byte (h : hash) (pos : nat) : result Z :=
  if decide (pos < f_temp_size h)%nat then Ok (f_temp h !!! (f_temp_size h - pos - 1)%nat)
  else Throw undefined_behavior.

(** [(b0 << 24) + (b1 << 16) + (b2 << 8) + (b3 << 0)] *)
Definition bytes_value (b0 b1 b2 b3 : Z) : Z :=
  wrap 32 (Z.shiftl b0 24 + Z.shiftl b1 16 + Z.shiftl b2 8 + b3).

Definition get_64bits (h : hash) : result (Z * Z * hash) :=
  let b idx := f_input h !!! idx in
  if decide (f_temp_size h = 0%nat /\ (8 <= length (f_input h))%nat)
  then Ok (bytes_value (b 0%nat) (b 1%nat) (b 2%nat) (b 3%nat), bytes_value (b 4%nat) (b 5%nat) (b 6%nat) (b 7%nat),
           Hash (f_hash h) (f_total_size h) (drop 8 (f_input h)) (f_temp h) (f_temp_size h))
  else if decide (8 <= buffer_size h)%nat
  then
    let! '(b0, h) := get_byte h in
    let! '(b1, h) := get_byte h in
    let! '(b2, h) := get_byte h in
    let! '(b3, h) := get_byte h in
    let! '(b4, h) := get_byte h in
    let! '(b5, h) := get_byte h in
    let! '(b6, h) := get_byte h in
    let! '(b7, h) := get_byte h in
    Ok (bytes_value b0 b1 b2 b3, bytes_value b4 b5 b6 b7, h)
  else Throw undefined_behavior.

(** The bytes that are left: [v1] has up to four of them, [v2] up to three. *)
Definition peek_64bits (h : hash) : result (Z * Z) :=
  let p := peek_byte h in
  match buffer_size h with
  | 7%nat =>
      let! p0 := p 0%nat in let! p1 := p 1%nat in let! p2 := p 2%nat in let! p3 := p 3%nat in
      let! p4 := p 4%nat in let! p5 := p 5%nat in let! p6 := p 6%nat in
      Ok (bytes_value p0 p1 p2 p3, bytes_value 0 p4 p5 p6)
  | 6%nat =>
      let! p0 := p 0%nat in let! p1 := p 1%nat in let! p2 := p 2%nat in let! p3 := p 3%nat in
      let! p4 := p 4%nat in let! p5 := p 5%nat in
      Ok (bytes_value p0 p1 p2 p3, bytes_value 0 0 p4 p5)
  | 5%nat =>
      let! p0 := p 0%nat in let! p1 := p 1%nat in let! p2 := p 2%nat in let! p3 := p 3%nat in
      let! p4 := p 4%nat in
      Ok (bytes_value p0 p1 p2 p3, bytes_value 0 0 0 p4)
  | 4%nat =>
      let! p0 := p 0%nat in let! p1 := p 1%nat in let! p2 := p 2%nat in let! p3 := p 3%nat in
      Ok (bytes_value p0 p1 p2 p3, 0)
  | 3%nat => let! p0 := p 0%nat in let! p1 := p 1%nat in let! p2 := p 2%nat in Ok (bytes_value 0 p0 p1 p2, 0)
  | 2%nat => let! p0 := p 0%nat in let! p1 := p 1%nat in Ok (bytes_value 0 0 p0 p1, 0)
  | 1%nat => let! p0 := p 0%nat in Ok (bytes_value 0 0 0 p0, 0)
  | _ => Throw undefined_behavior
  end.

(** [~x] on 32 bits. *)
Definition not32 (x : Z) : Z := 2 ^ 32 - 1 - x.

(** The update of [f_hash] by a block. *)
Definition hash_mix (f v1 v2 : Z) : Z :=
  Z.lxor f
    (Z.lxor (Z.lxor (wrap 32 (Z.shiftl f 7)) (wrap 32 (v1 * Z.shiftr f 3)))
            (not32 (wrap 32 (wrap 32 (Z.shiftl f 11) + Z.lxor v2 (Z.shiftr f 5))))).

(** The two updates of [get()]. *)
Definition hash_mix_even (h v : Z) : Z :=
  Z.lxor h (not32 (wrap 32 (wrap 32 (Z.shiftl h 11) + Z.lxor v (Z.shiftr h 5)))).
Definition hash_mix_odd (h v : Z) : Z :=
  Z.lxor h (Z.lxor (wrap 32 (Z.shiftl h 7)) (wrap 32 (v * Z.shiftr h 3))).

(** The loop of [process_buffer()]. *)
Fixpoint process_loop (fuel : nat) (h : hash) : result hash :=
  if decide (8 <= buffer_size h)%nat
  then
    match fuel with
    | O => Throw fuel_exhausted
    | S fuel =>
        let! '(v1, v2, h) := get_64bits h in
        process_loop fuel (Hash (hash_mix (f_hash h) v1 v2) (f_total_size h) (f_input h) (f_temp h) (f_temp_size h))
    end
  else Ok h.

(** The loop that saves the last bytes, from the last one. *)
Fixpoint save_bytes (size : nat) (idx : nat) (temp input : list Z) : list Z :=
  match size with
  | O => temp
  | S size => save_bytes size (S idx) (<[idx := input !!! size]> temp) input
  end.

Definition process_buffer (h : hash) : result hash :=
  let! h := process_loop (buffer_size h) h in
  let size := length (f_input h) in
  let temp :=
    if decide (0 < f_temp_size h /\ 0 < size)%nat then memmove (f_temp h) size 0 (f_temp_size h) else f_temp h in
  Ok (Hash (f_hash h) (f_total_size h) [] (save_bytes size 0 temp (f_input h)) (f_temp_size h + size)%nat).

Definition hash_add (h : hash) (v : list Z) : result hash :=
  process_buffer (Hash (f_hash h) (wrap 64 (f_total_size h + Z.of_nat (length v))) v (f_temp h) (f_temp_size h)).

(** [get()]; [loop] counts the updates. *)
Definition hash_get (s : hash) : result Z :=
  let h := f_hash s in
  let sz := buffer_size s in
  if decide (0 < sz)%nat
  then
    let! '(v1, v2) := peek_64bits s in
    let '(h, loop, sz, v1) :=
      if decide (4 <= sz)%nat then (hash_mix_even h v1, 1, (sz - 4)%nat, v2) else (h, 0, sz, v1) in
    let '(h, loop, sz, v1) :=
      if decide (3 <= sz)%nat
      then
        let v2 := Z.shiftr v1 8 in
        (if decide (loop <> 0) then hash_mix_odd h v2 else hash_mix_even h v2, loop + 1, 1%nat, Z.land v1 255)
      else if decide (sz = 2%nat)
      then (if decide (loop <> 0) then hash_mix_odd h v1 else hash_mix_even h v1, loop, 0%nat, v1)
      else (h, loop, sz, v1) in
    Ok (if decide (0 < sz)%nat then wrap 32 (h + (Z.lxor v1 (wrap 32 (h * 0xA5A5A5A5)) + loop)) else h)
  else Ok h.

Definition hash_size (h : hash) : Z := f_total_size h.

Example hash_split :
  (let! h := hash_add (hash_init 7) [1; 2; 3; 4; 5] in
   let! h := hash_add h [6; 7; 8; 9; 10; 11] in hash_get h)
  = (let! h := hash_add (hash_init 7) [1; 2; 3; 4; 5; 6; 7; 8; 9; 10; 11] in hash_get h).
Proof. vm_compute. reflexivity. Qed.

(** ** The reference: the hash of a whole sequence *)

(** The hash after the complete blocks of a sequence, and the bytes after them. *)
Fixpoint hash_blocks (f : Z) (s : list Z) : Z * list Z :=
  match s with
  | b0 :: b1 :: b2 :: b3 :: b4 :: b5 :: b6 :: b7 :: rest =>
      hash_blocks (hash_mix f (bytes_value b0 b1 b2 b3) (bytes_value b4 b5 b6 b7)) rest
  | _ => (f, s)
  end.

(** The last bytes (fewer than eight). *)
Definition hash_tail (f : Z) (s : list Z) : Z :=
  let odd3 h loop a b c :=
    let h := (if decide (loop = 1) then hash_mix_odd else hash_mix_even) h (bytes_value 0 0 a b) in
    wrap 32 (h + (Z.lxor c (wrap 32 (h * 0xA5A5A5A5)) + (loop + 1))) in
  match s with
  | [] => f
  | [a] => wrap 32 (f + (Z.lxor a (wrap 32 (f * 0xA5A5A5A5)) + 0))
  | [a; b] => hash_mix_even f (bytes_value 0 0 a b)
  | [a; b; c] => odd3 f 0 a b c
  | a :: b :: c :: d :: rest =>
      let h := hash_mix_even f (bytes_value a b c d) in
      match rest with
      | [] => h
      | [a] => wrap 32 (h + (Z.lxor a (wrap 32 (h * 0xA5A5A5A5)) + 1))
      | [a; b] => hash_mix_odd h (bytes_value 0 0 a b)
      | a :: b :: c :: _ => odd3 h 1 a b c
      end
  end.

Definition hash_of (seed : Z) (s : list Z) : Z :=
  let '(f, rest) := hash_blocks seed s in hash_tail f rest.

(** ** Blocks *)

Lemma hash_blocks_short f s : (length s < 8)%nat -> hash_blocks f s = (f, s).
Proof. intros Hs. do 8 (destruct s as [|? s]; [done|]). cbn [length] in Hs. lia. Qed.

Lemma eight_elements {A} (s : list A) : (8 <= length s)%nat ->
  exists b0 b1 b2 b3 b4 b5 b6 b7 rest, s = b0 :: b1 :: b2 :: b3 :: b4 :: b5 :: b6 :: b7 :: rest.
Proof. intros Hs. do 8 (destruct s as [|? s]; [cbn [length] in Hs; lia|]). by eexists _, _, _, _, _, _, _, _, _. Qed.

Lemma hash_blocks_app f s t :
  hash_blocks f (s ++ t) = let '(f', r) := hash_blocks f s in hash_blocks f' (r ++ t).
Proof.
  remember (length s) as n eqn:Hn. revert f s Hn. induction (lt_wf n) as [n _ IH]. intros f s ->.
  destruct (decide (length s < 8)%nat) as [Hlt|Hge]; [by rewrite (hash_blocks_short f s)|].
  destruct (eight_elements s ltac:(lia)) as (b0 & b1 & b2 & b3 & b4 & b5 & b6 & b7 & rest & ->).
  cbn [app hash_blocks]. apply (IH (length rest)); [cbn [length]; lia|done].
Qed.

Lemma hash_blocks_rest f s f' r : hash_blocks f s = (f', r) -> (length r < 8)%nat.
Proof.
  remember (length s) as n eqn:Hn. revert f s Hn. induction (lt_wf n) as [n _ IH]. intros f s ->.
  destruct (decide (length s < 8)%nat) as [Hlt|Hge]; [rewrite hash_blocks_short by done; by intros [= _ <-]|].
  destruct (eight_elements s ltac:(lia)) as (b0 & b1 & b2 & b3 & b4 & b5 & b6 & b7 & rest & ->).
  cbn [hash_blocks]. apply (IH (length rest)); [cbn [length]; lia|done].
Qed.

(** ** The object *)

(** The bytes that are not hashed yet, in order. *)
Definition pending (h : hash) : list Z := rev (take (f_temp_size h) (f_temp h)) ++ f_input h.

Definition hash_ok (h : hash) : Prop := length (f_temp h) = 8%nat /\ (f_temp_size h < 8)%nat.

Lemma length_pending h : hash_ok h -> length (pending h) = buffer_size h.
Proof. intros [Ht Hs]. unfold pending, buffer_size. rewrite length_app, length_rev, length_take. lia. Qed.

Lemma get_byte_spec h b rest : hash_ok h -> pending h = b :: rest ->
  exists h', get_byte h = Ok (b, h') /\ hash_ok h' /\ pending h' = rest /\ f_hash h' = f_hash h /\
    f_total_size h' = f_total_size h.
Proof.
  intros [Ht Hs] Hp. unfold get_byte. unfold pending in Hp. destruct (decide (0 < f_temp_size h)%nat) as [Hpos|Hpos].
  - destruct (f_temp_size h) as [|n] eqn:E; [lia|]. replace (S n - 1)%nat with n by lia.
    rewrite take_S_total in Hp by lia. rewrite rev_app_distr in Hp. cbn in Hp. injection Hp as <- <-.
    eexists. split; [done|]. split_and!; try done. unfold hash_ok. cbn. lia.
  - replace (f_temp_size h) with 0%nat in Hp by lia. rewrite take_0 in Hp. cbn in Hp. rewrite Hp.
    eexists. split; [done|]. split_and!; try done. unfold pending. cbn. by replace (f_temp_size h) with 0%nat by lia.
Qed.

Lemma get_64bits_spec h b0 b1 b2 b3 b4 b5 b6 b7 rest : hash_ok h ->
  pending h = b0 :: b1 :: b2 :: b3 :: b4 :: b5 :: b6 :: b7 :: rest ->
  exists h', get_64bits h = Ok (bytes_value b0 b1 b2 b3, bytes_value b4 b5 b6 b7, h') /\ hash_ok h' /\
    pending h' = rest /\ f_hash h' = f_hash h /\ f_total_size h' = f_total_size h.
Proof.
  intros Hok Hp. pose proof (length_pending h Hok) as Hlen. rewrite Hp in Hlen. cbn [length] in Hlen.
  unfold get_64bits. destruct (decide _) as [[H0 H8]|_].
  - unfold pending in Hp. rewrite H0, take_0 in Hp. cbn in Hp. rewrite Hp. eexists. split; [reflexivity|].
    split_and!; try done. unfold pending. cbn. by rewrite H0, take_0.
  - rewrite decide_True by lia.
    destruct (get_byte_spec h _ _ Hok Hp) as (h1 & -> & Hok1 & Hp1 & Hf1 & Hs1). cbn [result_bind].
    destruct (get_byte_spec h1 _ _ Hok1 Hp1) as (h2 & -> & Hok2 & Hp2 & Hf2 & Hs2). cbn [result_bind].
    destruct (get_byte_spec h2 _ _ Hok2 Hp2) as (h3 & -> & Hok3 & Hp3 & Hf3 & Hs3). cbn [result_bind].
    destruct (get_byte_spec h3 _ _ Hok3 Hp3) as (h4 & -> & Hok4 & Hp4 & Hf4 & Hs4). cbn [result_bind].
    destruct (get_byte_spec h4 _ _ Hok4 Hp4) as (h5 & -> & Hok5 & Hp5 & Hf5 & Hs5). cbn [result_bind].
    destruct (get_byte_spec h5 _ _ Hok5 Hp5) as (h6 & -> & Hok6 & Hp6 & Hf6 & Hs6). cbn [result_bind].
    destruct (get_byte_spec h6 _ _ Hok6 Hp6) as (h7 & -> & Hok7 & Hp7 & Hf7 & Hs7). cbn [result_bind].
    destruct (get_byte_spec h7 _ _ Hok7 Hp7) as (h8 & -> & Hok8 & Hp8 & Hf8 & Hs8). cbn [result_bind].
    exists h8. split_and!; try done; congruence.
Qed.

Lemma process_loop_spec fuel h : hash_ok h -> (buffer_size h <= fuel)%nat ->
  exists h', process_loop fuel h = Ok h' /\ hash_ok h' /\ f_total_size h' = f_total_size h /\
    hash_blocks (f_hash h) (pending h) = (f_hash h', pending h').
Proof.
  revert h. induction fuel as [|fuel IH]; intros h Hok Hfuel; cbn [process_loop];
    pose proof (length_pending h Hok) as Hlen; destruct (decide (8 <= buffer_size h)%nat) as [H8|H8].
  - lia.
  - exists h. rewrite hash_blocks_short by lia. done.
  - destruct (eight_elements (pending h) ltac:(lia)) as (b0 & b1 & b2 & b3 & b4 & b5 & b6 & b7 & rest & Hp).
    destruct (get_64bits_spec h _ _ _ _ _ _ _ _ _ Hok Hp) as (h1 & -> & Hok1 & Hp1 & Hf1 & Hs1). cbn [result_bind].
    set (h2 := Hash _ _ _ _ _). assert (hash_ok h2) as Hok2 by exact Hok1.
    pose proof (length_pending h1 Hok1) as Hlen1. assert (buffer_size h2 = buffer_size h1) as Hb by done.
    rewrite Hp in Hlen. rewrite Hp1 in Hlen1. cbn [length] in Hlen.
    destruct (IH h2 Hok2 ltac:(lia)) as (h' & Hl & Hok' & Hs' & Hb').
    exists h'. split_and!; [exact Hl|done|by rewrite Hs'|]. rewrite Hp. cbn [hash_blocks]. rewrite <- Hb'.
    change (pending h2) with (pending h1). by rewrite Hp1, <- Hf1.
  - exists h. rewrite hash_blocks_short by lia. done.
Qed.

Lemma save_bytes_spec size idx temp input : (size <= length input)%nat -> (idx + size <= length temp)%nat ->
  save_bytes size idx temp input = take idx temp ++ rev (take size input) ++ drop (idx + size) temp.
Proof.
  revert idx temp. induction size as [|size IH]; intros idx temp Hs Hi; cbn [save_bytes].
  - rewrite take_0, Nat.add_0_r. cbn. by rewrite take_drop.
  - rewrite IH by (rewrite ?length_insert; lia).
    rewrite (take_S_total input) by lia. rewrite rev_app_distr. cbn [rev app].
    rewrite take_S_total by (rewrite length_insert; lia).
    rewrite list_lookup_total_insert_eq by lia. rewrite take_insert_ge by lia. rewrite drop_insert_lt by lia.
    rewrite <- app_assoc. cbn [app]. by replace (S idx + size)%nat with (idx + S size)%nat by lia.
Qed.

Lemma process_buffer_spec h : hash_ok h ->
  exists h', process_buffer h = Ok h' /\ hash_ok h' /\ f_total_size h' = f_total_size h /\ f_input h' = [] /\
    hash_blocks (f_hash h) (pending h) = (f_hash h', pending h').
Proof.
  intros Hok. unfold process_buffer.
  destruct (process_loop_spec (buffer_size h) h Hok ltac:(lia)) as (h1 & -> & Hok1 & Hs1 & Hb1). cbn [result_bind].
  pose proof (hash_blocks_rest _ _ _ _ Hb1) as Hshort. rewrite length_pending in Hshort by done. unfold buffer_size in Hshort.
  destruct Hok1 as [Ht1 Hts1]. eexists. split; [reflexivity|]. cbn [f_total_size f_input f_hash].
  set (ts := f_temp_size h1) in *. set (n := length (f_input h1)) in *.
  set (temp := if decide _ then _ else _).
  assert (length temp = 8%nat /\ take ts (drop n temp) = take ts (f_temp h1)) as [Hlt Hdrop].
  { unfold temp. destruct (decide _) as [[Hp1 Hp2]|Hnp].
    - unfold memmove. split.
      + rewrite !length_app, !length_take, !length_drop. lia.
      + rewrite drop_app_length' by (rewrite length_take; lia). rewrite drop_0.
        by rewrite take_app_length' by (rewrite length_take; lia).
    - split; [done|]. destruct (decide (ts = 0)%nat) as [->|]; [by rewrite !take_0|].
      assert (n = 0%nat) as -> by lia. by rewrite drop_0. }
  assert (save_bytes n 0 temp (f_input h1) = rev (f_input h1) ++ drop n temp) as Hsave.
  { rewrite save_bytes_spec by lia. rewrite take_0. cbn. by rewrite (take_ge (f_input h1)) by lia. }
  split; [|split; [done|split; [done|]]].
  - unfold hash_ok. cbn [f_temp f_temp_size]. rewrite Hsave, length_app, length_rev, length_drop. fold n. lia.
  - rewrite Hb1. f_equal. unfold pending. cbn [f_temp f_temp_size f_input]. rewrite Hsave, app_nil_r. fold ts.
    rewrite (Nat.add_comm ts n).
    assert (n = length (rev (f_input h1))) as En by (by rewrite length_rev).
    rewrite En at 1. rewrite take_app_add. rewrite rev_app_distr, rev_involutive, Hdrop. done.
Qed.

Lemma hash_add_spec h v : hash_ok h -> f_input h = [] ->
  exists h', hash_add h v = Ok h' /\ hash_ok h' /\ f_input h' = [] /\
    f_total_size h' = wrap 64 (f_total_size h + Z.of_nat (length v)) /\
    hash_blocks (f_hash h) (pending h ++ v) = (f_hash h', pending h').
Proof.
  intros Hok Hin. unfold hash_add. set (h0 := Hash _ _ v _ _). assert (hash_ok h0) as Hok0 by exact Hok.
  destruct (process_buffer_spec h0 Hok0) as (h' & -> & Hok' & Hs & Hi & Hb). exists h'. split_and!; try done.
  rewrite <- Hb. f_equal. unfold pending. by rewrite Hin, app_nil_r.
Qed.

(** ** get() *)

Lemma peek_byte_spec h i b : hash_ok h -> f_input h = [] -> pending h !! i = Some b -> peek_byte h i = Ok b.
Proof.
  intros [Ht Hs] Hin Hp. unfold pending in Hp. rewrite Hin, app_nil_r in Hp.
  pose proof (lookup_lt_Some _ _ _ Hp) as Hlt. rewrite length_rev, length_take in Hlt.
  unfold peek_byte. rewrite decide_True by lia. f_equal.
  rewrite rev_reverse in Hp. rewrite reverse_lookup in Hp by (rewrite length_take; lia). rewrite length_take in Hp.
  rewrite lookup_take_lt in Hp by lia. apply list_lookup_total_correct. rewrite <- Hp. f_equal. lia.
Qed.

Lemma bytes_value_low a b c : byte a -> byte b -> byte c ->
  Z.shiftr (bytes_value 0 a b c) 8 = bytes_value 0 0 a b /\ Z.land (bytes_value 0 a b c) 255 = c.
Proof.
  unfold byte, uword, bytes_value. intros Ha Hb Hc. change 255 with (2 ^ 8 - 1). rewrite land_ones_pow by lia.
  rewrite !Z.shiftl_mul_pow2 by lia. rewrite Z.shiftr_div_pow2 by lia. unfold wrap.
  rewrite !(Z.mod_small _ (2 ^ 32)) by lia. split.
  - symmetry. apply Z.div_unique_pos with c; lia.
  - symmetry. apply Z.mod_unique_pos with (a * 2 ^ 8 + b); lia.
Qed.

Lemma bytes_value_one a : byte a -> bytes_value 0 0 0 a = a.
Proof. unfold byte, uword, bytes_value. intros. cbn [Z.shiftl]. apply Z.mod_small. cbn. lia. Qed.

Lemma hash_get_spec h : hash_ok h -> f_input h = [] -> Forall byte (pending h) ->
  hash_get h = Ok (hash_tail (f_hash h) (pending h)).
Proof.
  intros Hok Hin Hbytes. pose proof (length_pending h Hok) as Hlen. pose proof (peek_byte_spec h) as Hpeek.
  assert (forall i b, pending h !! i = Some b -> peek_byte h i = Ok b) as Hp by eauto. clear Hpeek.
  unfold hash_get, peek_64bits. cbv zeta. rewrite <- Hlen.
  assert (length (pending h) < 8)%nat as H8.
  { rewrite Hlen. unfold buffer_size. rewrite Hin. destruct Hok. cbn. lia. }
  destruct (pending h) as [|a [|b [|c [|d [|e [|f [|g [|? l]]]]]]]]; cbn [length] in H8; try lia; cbn [length];
    rewrite ?Forall_cons in Hbytes;
    repeat match goal with
      | |- context [peek_byte h ?i] => rewrite (Hp i _ eq_refl); cbn [result_bind]
    end; rewrite ?decide_True, ?decide_False by lia; cbn -[Z.lxor Z.shiftl Z.shiftr Z.land bytes_value hash_mix_odd hash_mix_even];
    unfold hash_tail; rewrite ?bytes_value_one by tauto;
    repeat match goal with |- context [bytes_value 0 ?x ?y ?z] =>
      progress (destruct (bytes_value_low x y z) as [-> ->]; [tauto..|]) end; try done.
Qed.

(** ** Streaming *)

(** Successive calls of [add()]. *)
Fixpoint hash_adds (h : hash) (chunks : list (list Z)) : result hash :=
  match chunks with
  | [] => Ok h
  | v :: chunks => let! h := hash_add h v in hash_adds h chunks
  end.

Lemma hash_adds_spec h chunks : hash_ok h -> f_input h = [] ->
  exists h', hash_adds h chunks = Ok h' /\ hash_ok h' /\ f_input h' = [] /\
    hash_blocks (f_hash h) (pending h ++ concat chunks) = (f_hash h', pending h') /\
    (0 <= f_total_size h < 2 ^ 64 -> f_total_size h' = wrap 64 (f_total_size h + Z.of_nat (length (concat chunks)))).
Proof.
  revert h. induction chunks as [|v chunks IH]; intros h Hok Hin; cbn [hash_adds concat].
  - exists h. rewrite app_nil_r. split_and!; try done.
    + rewrite hash_blocks_short; [done|]. rewrite length_pending by done. unfold buffer_size. rewrite Hin.
      destruct Hok. cbn. lia.
    + intros. cbn. rewrite Z.add_0_r, wrap_small; done.
  - destruct (hash_add_spec h v Hok Hin) as (h1 & -> & Hok1 & Hin1 & Hs1 & Hb1). cbn [result_bind].
    destruct (IH h1 Hok1 Hin1) as (h' & -> & Hok' & Hin' & Hb' & Hs'). exists h'. split_and!; try done.
    + by rewrite app_assoc, hash_blocks_app, Hb1.
    + intros Hr. rewrite Hs', Hs1 by (rewrite Hs1; apply wrap_uword; lia).
      unfold wrap. rewrite Z.add_mod_idemp_l by lia. f_equal. rewrite length_app. lia.
Qed.

Lemma hash_blocks_suffix f s f' r : hash_blocks f s = (f', r) -> exists p, s = p ++ r.
Proof.
  remember (length s) as n eqn:Hn. revert f s Hn. induction (lt_wf n) as [n _ IH]. intros f s ->.
  destruct (decide (length s < 8)%nat) as [Hlt|Hge]; [rewrite hash_blocks_short by done; intros [= _ <-]; by exists []|].
  destruct (eight_elements s ltac:(lia)) as (b0 & b1 & b2 & b3 & b4 & b5 & b6 & b7 & rest & ->).
  cbn [hash_blocks]. intros Hb. destruct (IH (length rest) ltac:(cbn [length]; lia) _ rest eq_refl Hb) as [p ->].
  by exists (b0 :: b1 :: b2 :: b3 :: b4 :: b5 :: b6 :: b7 :: p).
Qed.

(** ** Main theorem *)

(** C38: however a sequence of bytes is cut into calls of [add()], no call fails,
    [get()] returns the hash of the whole sequence and [size()] its length (modulo
    2^64). *)
Theorem hash_streaming seed chunks :
  Forall (Forall byte) chunks ->
  exists h, hash_adds (hash_init seed) chunks = Ok h /\
    hash_get h = Ok (hash_of seed (concat chunks)) /\
    hash_size h = wrap 64 (Z.of_nat (length (concat chunks))).
Proof.
  intros Hbytes. assert (hash_ok (hash_init seed)) as Hok by (split; cbn; lia).
  destruct (hash_adds_spec (hash_init seed) chunks Hok eq_refl) as (h & Hadds & Hok' & Hin & Hb & Hs).
  change (pending (hash_init seed) ++ concat chunks) with (concat chunks) in Hb.
  exists h. split; [done|]. split.
  - unfold hash_of. change (f_hash (hash_init seed)) with seed in Hb. rewrite Hb. apply hash_get_spec; [done..|].
    assert (Forall byte (concat chunks)) as Hall by (clear -Hbytes; induction Hbytes; [done|by apply Forall_app_2]).
    destruct (hash_blocks_suffix _ _ _ _ Hb) as [p Hp]. rewrite Hp in Hall. by apply Forall_app in Hall as [_ ?].
  - unfold hash_size. rewrite Hs by done. done.
Qed.

Lemma hash_streaming_witness :
  exists h, hash_adds (hash_init 5) [[1; 2; 3]; []; [4; 5; 6; 7; 8; 9; 10; 11]; [12; 13]] = Ok h /\
    hash_get h = Ok (hash_of 5 [1; 2; 3; 4; 5; 6; 7; 8; 9; 10; 11; 12; 13]).
Proof.
  assert (Forall (Forall byte) [[1; 2; 3]; []; [4; 5; 6; 7; 8; 9; 10; 11]; [12; 13]]) as Hb by closed_decide.
  destruct (hash_streaming 5 _ Hb) as (h & H1 & H2 & _). exists h. split; [exact H1|exact H2].
Defined.
