(* ===== verification/VirtualBuffer.v ===== *)
(** * virtual_buffer: a sequence of bytes over blocks and memory
    (prinbee/data/virtual_buffer.cpp)

    A virtual buffer is a deque of pieces; the bytes of a piece are in a block of
    a table (a part of it, from [f_offset]) or in a vector.  The blocks are shared
    with the rest of the database: they are a store of byte arrays, indexed by
    block, that the methods read and write.  An access outside of a block or of a
    vector, and the use of an iterator that [deque::insert()] invalidated, are the
    outcome [undefined_behavior].

    The capacity of a vector is decided by the C++ library: [copy_capacity] is the
    capacity of a copy and [insert_capacity] the one after an insertion; they are
    only assumed to hold the data and to be below [max_size()] ([VectorLaws]).

    The theorems state what the pieces implement: one sequence of bytes,
    [contents], that the methods read, overwrite, extend, cut and shift. *)

From S2P Require Import Prelude.

(** ** Vectors of bytes *)

(** [memcpy(dst, src + pos, n)]: the bytes copied. *)
Definition read_at (src : list Z) (pos n : Z) : result (list Z) :=
  if decide (0 <= pos /\ 0 <= n /\ pos + n <= Z.of_nat (length src))
  then Ok (take (Z.to_nat n) (drop (Z.to_nat pos) src))
  else Throw undefined_behavior.

(** [memcpy(dst + pos, bytes, size of bytes)]: the new destination. *)
Definition write_at (dst : list Z) (pos : Z) (bytes : list Z) : result (list Z) :=
  if decide (0 <= pos /\ pos + Z.of_nat (length bytes) <= Z.of_nat (length dst))
  then Ok (take (Z.to_nat pos) dst ++ bytes ++ drop (Z.to_nat pos + length bytes) dst)
  else Throw undefined_behavior.

(** [v.resize(n)] *)
Definition resize_bytes (v : list Z) (n : Z) : list Z :=
  take (Z.to_nat n) v ++ replicate (Z.to_nat n - length v) 0.

(** The value a method that returns an [int] makes of a size. *)
Definition to_int (n : Z) : Z := signed 32 (wrap 32 n).

(** What the library promises of the capacities. *)
Class VectorLaws (copy_capacity : Z -> Z) (insert_capacity : Z -> Z -> Z) : Prop := {
  copy_capacity_holds size : 0 <= size < 2 ^ 63 -> size <= copy_capacity size < 2 ^ 63;
  insert_capacity_holds capacity size : 0 <= size < 2 ^ 63 -> size <= insert_capacity capacity size < 2 ^ 63;
}.

(** ** The object *)

Record vbuf_t := Vbuf {
  f_block : option nat;
  f_data : list Z;
  f_capacity : Z;        (** [f_data.capacity()] *)
  f_offset : Z;
  f_size : Z;
}.

Record virtual_buffer := VirtualBuffer {
  f_buffers : list vbuf_t;
  f_total_size : Z;
  f_modified : bool;
}.

(** The blocks and their data. *)
Definition block_store : Type := gmap nat (list Z).

Definition virtual_buffer_empty : virtual_buffer := VirtualBuffer [] 0 false.

(** The bytes a piece gives access to: the array and where the piece starts. *)
Definition vbuf_source (blocks : block_store) (b : vbuf_t) : list Z :=
  match f_block b with
  | Some id => default [] (blocks !! id)
  | None => f_data b
  end.
Definition vbuf_base (b : vbuf_t) : Z := match f_block b with Some _ => f_offset b | None => 0 end.

Section VirtualBuffer.
  Context (copy_capacity : Z -> Z) (insert_capacity : Z -> Z -> Z).

(** A vector that holds [data] once the piece was copied in the deque. *)
Definition new_vbuf (data : list Z) : vbuf_t :=
  Vbuf None data (copy_capacity (Z.of_nat (length data))) 0 (Z.of_nat (length data)).

(** [load_file()]: [file] is the content of the file, [None] when it cannot be
    opened. *)
Definition load_file (vb : virtual_buffer) (file : option (list Z)) (required : bool) : result virtual_buffer :=
  if f_modified vb || negb (bool_decide (f_buffers vb = [])) then Throw logic_error
  else
    match file with
    | None => if required then Throw file_not_found else Ok vb
    | Some data => Ok (VirtualBuffer (f_buffers vb ++ [new_vbuf data]) (Z.of_nat (length data)) (f_modified vb))
    end.

Definition add_buffer (vb : virtual_buffer) (b : option nat) (offset size : Z) : result virtual_buffer :=
  if f_modified vb then Throw logic_error
  else Ok (VirtualBuffer (f_buffers vb ++ [Vbuf b [] 0 offset size]) (wrap 64 (f_total_size vb + size)) (f_modified vb)).

(** The bytes [save_file()] writes, piece after piece: always from [f_data]. *)
Fixpoint save_loop (bufs : list vbuf_t) : result (list Z) :=
  match bufs with
  | [] => Ok []
  | data :: bufs =>
      let! bytes := read_at (f_data data) 0 (f_size data) in
      let! rest := save_loop bufs in
      Ok (bytes ++ rest)
  end.

(** [save_file()]: what is written to the file ([None]: the file is left alone)
    and the new object. *)
Definition save_file (vb : virtual_buffer) : result (option (list Z) * virtual_buffer) :=
  if negb (f_modified vb) then Ok (None, vb)
  else
    let! bytes := save_loop (f_buffers vb) in
    Ok (Some bytes, VirtualBuffer (f_buffers vb) (f_total_size vb) false).

Definition count_buffers (vb : virtual_buffer) : nat := length (f_buffers vb).
Definition size (vb : virtual_buffer) : Z := f_total_size vb.
Definition start_offset (vb : virtual_buffer) : Z :=
  match f_buffers vb with [] => 0 | b :: _ => f_offset b end.

(** [offset + size <= f_total_size], on 64 bits *)
Definition is_data_available (vb : virtual_buffer) (offset size : Z) : bool :=
  bool_decide (wrap 64 (offset + size) <= f_total_size vb).

(** ** pread() *)

Fixpoint pread_loop (blocks : block_store) (bufs : list vbuf_t) (size offset : Z) (buf : list Z) : result (list Z) :=
  match bufs with
  | [] => Ok buf
  | b :: bufs =>
      if decide (offset >= f_size b) then pread_loop blocks bufs size (offset - f_size b) buf
      else
        let sz := if decide (size > f_size b - offset) then f_size b - offset else size in
        let! bytes := read_at (vbuf_source blocks b) (vbuf_base b + offset) sz in
        let size := size - sz in
        let buf := buf ++ bytes in
        if decide (size = 0) then Ok buf else pread_loop blocks bufs size 0 buf
  end.

(** The bytes read and the value returned. *)
Definition pread (blocks : block_store) (vb : virtual_buffer) (size offset : Z) (full : bool) : result (list Z * Z) :=
  if decide (size = 0) then Ok ([], 0)
  else if full && negb (is_data_available vb offset size) then Throw invalid_size
  else
    let! buf := pread_loop blocks (f_buffers vb) size offset [] in
    Ok (buf, to_int (Z.of_nat (length buf))).

(** ** pwrite() *)

(** A write in a piece.  In a block, it is done at [offset]: [f_offset] is not
    added. *)
Definition vbuf_write (blocks : block_store) (b : vbuf_t) (offset : Z) (bytes : list Z) : result (block_store * vbuf_t) :=
  match f_block b with
  | Some id =>
      let! data := write_at (default [] (blocks !! id)) offset bytes in
      Ok (<[id := data]> blocks, b)
  | None =>
      let! data := write_at (f_data b) offset bytes in
      Ok (blocks, Vbuf None data (f_capacity b) (f_offset b) (f_size b))
  end.

(** The loop over the pieces: the blocks, the pieces and what is left to write. *)
Fixpoint pwrite_loop (blocks : block_store) (bufs : list vbuf_t) (offset : Z) (input : list Z)
    : result (block_store * list vbuf_t * list Z) :=
  match bufs with
  | [] => Ok (blocks, [], input)
  | b :: bufs =>
      if decide (offset >= f_size b)
      then
        let! '(blocks, bufs, rest) := pwrite_loop blocks bufs (offset - f_size b) input in
        Ok (blocks, b :: bufs, rest)
      else
        let size := Z.of_nat (length input) in
        let sz := if decide (size > f_size b - offset) then f_size b - offset else size in
        let! '(blocks, b) := vbuf_write blocks b offset (take (Z.to_nat sz) input) in
        let rest := drop (Z.to_nat sz) input in
        if decide (size - sz = 0) then Ok (blocks, b :: bufs, rest)
        else
          let! '(blocks, bufs, rest) := pwrite_loop blocks bufs 0 rest in
          Ok (blocks, b :: bufs, rest)
  end.

(** What is written at the end of the last piece, when it is a vector with room
    left: the pieces, what is left to write and the number of bytes added. *)
Definition grow_last (bufs : list vbuf_t) (input : list Z) : result (list vbuf_t * list Z * Z) :=
  match last bufs with
  | Some b =>
      match f_block b with
      | None =>
          let available := wrap 64 (f_capacity b - f_size b) in
          if decide (available > 0)
          then
            let sz := Z.min available (Z.of_nat (length input)) in
            let! data := write_at (resize_bytes (f_data b) (f_size b + sz)) (f_size b) (take (Z.to_nat sz) input) in
            Ok (take (length bufs - 1) bufs ++ [Vbuf None data (f_capacity b) (f_offset b) (f_size b + sz)],
                drop (Z.to_nat sz) input, sz)
          else Ok (bufs, input, 0)
      | Some _ => Ok (bufs, input, 0)
      end
  | None => Ok (bufs, input, 0)
  end.

(** The end of [pwrite()], past the last piece: the pieces and the total size. *)
Definition pwrite_grow (bufs : list vbuf_t) (total : Z) (rest : list Z) : result (list vbuf_t * Z) :=
  let! '(bufs, rest, added) := grow_last bufs rest in
  let total := wrap 64 (total + added) in
  if decide (rest = []) then Ok (bufs, total)
  else Ok (bufs ++ [new_vbuf rest], wrap 64 (total + Z.of_nat (length rest))).

(** [pwrite()]: the blocks, the new object and the value returned. *)
Definition pwrite (blocks : block_store) (vb : virtual_buffer) (input : list Z) (offset : Z) (allow_growth : bool)
    : result (block_store * virtual_buffer * Z) :=
  let size := Z.of_nat (length input) in
  if decide (size = 0) then Ok (blocks, vb, 0)
  else if negb allow_growth && negb (is_data_available vb offset size) then Throw invalid_size
  else
    let! '(blocks, bufs, rest) := pwrite_loop blocks (f_buffers vb) offset input in
    if decide (rest = [])
    then Ok (blocks, VirtualBuffer bufs (f_total_size vb) true, to_int size)
    else
      let! '(bufs, total) := pwrite_grow bufs (f_total_size vb) rest in
      Ok (blocks, VirtualBuffer bufs total true, to_int size).

(** ** pinsert() *)

(** [f_data.insert(f_data.begin() + offset, in, in + size)] and the update of
    [f_size]. *)
Definition vbuf_insert (b : vbuf_t) (offset : Z) (input : list Z) : result vbuf_t :=
  if decide (0 <= offset <= Z.of_nat (length (f_data b)))
  then
    let data := take (Z.to_nat offset) (f_data b) ++ input ++ drop (Z.to_nat offset) (f_data b) in
    let len := Z.of_nat (length data) in
    let capacity := if decide (len <= f_capacity b) then f_capacity b else insert_capacity (f_capacity b) len in
    Ok (Vbuf None data capacity (f_offset b) (f_size b + Z.of_nat (length input)))
  else Throw undefined_behavior.

(** The loop over the pieces; [None] when the end is reached, with the offset
    left.  In a block, the deque is changed and the iterator used after that: it
    is no longer valid; and the bytes are copied in an empty vector. *)
Fixpoint pinsert_loop (bufs : list vbuf_t) (offset : Z) (input : list Z) : result (option (list vbuf_t) * Z) :=
  match bufs with
  | [] => Ok (None, offset)
  | b :: bufs =>
      if decide (offset >= f_size b)
      then
        let! '(r, offset) := pinsert_loop bufs (offset - f_size b) input in
        Ok (cons b <$> r, offset)
      else
        match f_block b with
        | Some _ => Throw undefined_behavior
        | None =>
            let! b := vbuf_insert b offset input in
            Ok (Some (b :: bufs), offset)
        end
  end.

Definition pinsert (blocks : block_store) (vb : virtual_buffer) (input : list Z) (offset : Z)
    : result (block_store * virtual_buffer * Z) :=
  let size := Z.of_nat (length input) in
  if decide (size = 0) then Ok (blocks, vb, 0)
  else if decide (offset >= f_total_size vb) then pwrite blocks vb input offset true
  else
    let total := wrap 64 (f_total_size vb + size) in
    let! '(r, offset) := pinsert_loop (f_buffers vb) offset input in
    match r with
    | Some bufs => Ok (blocks, VirtualBuffer bufs total true, to_int size)
    | None =>
        if decide (offset = 0)
        then
          match last (f_buffers vb) with
          | Some (Vbuf None data capacity base sz) =>
              let data := data ++ input in
              Ok (blocks, VirtualBuffer (take (length (f_buffers vb) - 1) (f_buffers vb) ++
                    [Vbuf None data (insert_capacity capacity (Z.of_nat (length data))) base sz]) total true, to_int size)
          | _ => Throw undefined_behavior
          end
        else Throw logic_error
    end.

(** ** perase() *)

(** The loop over the pieces: the pieces that are left, the bytes erased and the
    bytes still to be erased.  In the middle of a block, the deque is changed and
    the iterator used after that. *)
Fixpoint perase_loop (bufs : list vbuf_t) (size offset : Z) : result (list vbuf_t * Z) :=
  match bufs with
  | [] => Ok ([], 0)
  | it :: bufs =>
      if decide (size > 0)
      then
        if decide (offset >= f_size it)
        then
          let! '(bufs, erased) := perase_loop bufs size (offset - f_size it) in
          Ok (it :: bufs, erased)
        else if decide (offset + size >= f_size it)
        then
          if decide (offset = 0)
          then
            let! '(bufs, erased) := perase_loop bufs (size - f_size it) offset in
            Ok (bufs, erased + f_size it)
          else
            let sz := f_size it - offset in
            let! '(bufs, erased) := perase_loop bufs (size - sz) 0 in
            Ok (Vbuf (f_block it) (f_data it) (f_capacity it) (f_offset it) offset :: bufs, erased + sz)
        else if decide (offset = 0)
        then
          match f_block it with
          | Some id =>
              Ok (Vbuf (Some id) (f_data it) (f_capacity it) (f_offset it + size) (f_size it - size) :: bufs, size)
          | None =>
              let! moved := read_at (f_data it) size (f_size it - size) in
              let! data := write_at (f_data it) 0 moved in
              Ok (Vbuf None data (f_capacity it) (f_offset it) (f_size it - size) :: bufs, size)
          end
        else
          match f_block it with
          | Some id => Throw undefined_behavior
          | None =>
              let! moved := read_at (f_data it) (offset + size) (f_size it - offset - size) in
              let! data := write_at (f_data it) offset moved in
              Ok (Vbuf None data (f_capacity it) (f_offset it) (f_size it - size) :: bufs, size)
          end
      else Ok (it :: bufs, 0)
  end.

Definition perase (vb : virtual_buffer) (size offset : Z) : result (virtual_buffer * Z) :=
  if decide (size = 0) then Ok (vb, 0)
  else if decide (offset >= f_total_size vb) then Ok (vb, 0)
  else
    let size := if decide (size > f_total_size vb - offset) then f_total_size vb - offset else size in
    let! '(bufs, bytes_erased) := perase_loop (f_buffers vb) size offset in
    Ok (VirtualBuffer bufs (wrap 64 (f_total_size vb - bytes_erased)) (f_modified vb || negb (bool_decide (bytes_erased = 0))),
        to_int bytes_erased).

(** ** pshift(), to the left only *)

(** The loop that moves the bytes, 4096 at a time; [moved] counts them. *)
Fixpoint pshift_move (fuel : nat) (blocks : block_store) (vb : virtual_buffer) (shift offset total moved : Z)
    : result (block_store * virtual_buffer * Z * Z) :=
  if decide (total > 0)
  then
    match fuel with
    | O => Throw fuel_exhausted
    | S fuel =>
        let sz := Z.min 4096 total in
        let! '(buf, n) := pread blocks vb sz (wrap 64 (offset + shift)) true in
        if decide (n <> sz) then Throw io_error
        else
          let! '(blocks, vb, n) := pwrite blocks vb buf offset false in
          if decide (n <> sz) then Throw io_error
          else pshift_move fuel blocks vb shift (wrap 64 (offset + sz)) (total - sz) (moved + sz)
    end
  else Ok (blocks, vb, offset, moved).

(** The loop that fills the end. *)
Fixpoint pshift_fill (fuel : nat) (blocks : block_store) (vb : virtual_buffer) (offset : Z) (fill : Z) (moved : Z)
    : result (block_store * virtual_buffer * Z) :=
  if decide (offset < f_total_size vb)
  then
    match fuel with
    | O => Throw fuel_exhausted
    | S fuel =>
        let sz := Z.min 4096 (f_total_size vb - offset) in
        let! '(blocks, vb, n) := pwrite blocks vb (replicate (Z.to_nat sz) fill) offset false in
        if decide (n <> sz) then Throw io_error
        else pshift_fill fuel blocks vb (wrap 64 (offset + sz)) fill (moved + sz)
    end
  else Ok (blocks, vb, moved).

(** Each iteration handles 4096 bytes but for the last one, hence the fuel. *)
Definition pshift (blocks : block_store) (vb : virtual_buffer) (size offset : Z) (fill : Z)
    : result (block_store * virtual_buffer * Z) :=
  if decide (size = 0) then Ok (blocks, vb, 0)
  else if decide (size > 0) then Throw invalid_size
  else
    let size := - size in
    let total_size := wrap 64 (f_total_size vb - offset - size) in
    let fuel := Z.to_nat (f_total_size vb / 4096 + 1) in
    let! '(blocks, vb, offset, moved) := pshift_move fuel blocks vb size offset total_size 0 in
    let! '(blocks, vb, moved) := pshift_fill fuel blocks vb offset fill moved in
    Ok (blocks, vb, to_int moved).
End VirtualBuffer.

(** ** The sequence of bytes *)

Definition vbuf_contents (blocks : block_store) (b : vbuf_t) : list Z :=
  take (Z.to_nat (f_size b)) (drop (Z.to_nat (vbuf_base b)) (vbuf_source blocks b)).

Definition contents (blocks : block_store) (bufs : list vbuf_t) : list Z :=
  concat (vbuf_contents blocks <$> bufs).

(** A piece lies inside of its bytes. *)
Definition vbuf_ok (blocks : block_store) (b : vbuf_t) : Prop :=
  0 <= f_size b /\ 0 <= vbuf_base b /\ vbuf_base b + f_size b <= Z.of_nat (length (vbuf_source blocks b)).

(** A piece in memory. *)
Definition memory_ok (b : vbuf_t) : Prop :=
  f_block b = None /\ 0 <= f_size b <= Z.of_nat (length (f_data b)) /\ Z.of_nat (length (f_data b)) <= f_capacity b < 2 ^ 63.

(** The object: its pieces, and the total size. *)
Definition buffer_ok (blocks : block_store) (vb : virtual_buffer) : Prop :=
  Forall (vbuf_ok blocks) (f_buffers vb) /\ f_total_size vb = Z.of_nat (length (contents blocks (f_buffers vb))) /\
  f_total_size vb < 2 ^ 63.

Definition memory_buffer (blocks : block_store) (vb : virtual_buffer) : Prop :=
  Forall memory_ok (f_buffers vb) /\ f_total_size vb = Z.of_nat (length (contents blocks (f_buffers vb))) /\
  f_total_size vb < 2 ^ 63.

#[export] Instance memory_ok_dec b : Decision (memory_ok b).
Proof. unfold memory_ok. apply _. Defined.

#[export] Instance memory_buffer_dec blocks vb : Decision (memory_buffer blocks vb).
Proof. unfold memory_buffer. apply _. Defined.

Lemma contents_cons blocks b bufs : contents blocks (b :: bufs) = vbuf_contents blocks b ++ contents blocks bufs.
Proof. done. Qed.

Lemma contents_app blocks bufs bufs' : contents blocks (bufs ++ bufs') = contents blocks bufs ++ contents blocks bufs'.
Proof. unfold contents. by rewrite fmap_app, concat_app. Qed.

Lemma memory_ok_vbuf_ok blocks b : memory_ok b -> vbuf_ok blocks b.
Proof. intros (Hb & Hs & _). unfold vbuf_ok, vbuf_base, vbuf_source. rewrite Hb. lia. Qed.

Lemma memory_buffer_ok blocks vb : memory_buffer blocks vb -> buffer_ok blocks vb.
Proof.
  intros (Hm & Ht & Hb). split; [|done]. eapply Forall_impl; [exact Hm|]. intros. by apply memory_ok_vbuf_ok.
Qed.

Lemma memory_contents blocks b : memory_ok b -> vbuf_contents blocks b = take (Z.to_nat (f_size b)) (f_data b).
Proof. intros (Hb & _). unfold vbuf_contents, vbuf_base, vbuf_source. rewrite Hb. by rewrite drop_0. Qed.

Lemma length_vbuf_contents blocks b : vbuf_ok blocks b -> length (vbuf_contents blocks b) = Z.to_nat (f_size b).
Proof. unfold vbuf_ok, vbuf_contents. intros. rewrite length_take, length_drop. lia. Qed.

Lemma write_at_ok dst pos bytes : 0 <= pos -> pos + Z.of_nat (length bytes) <= Z.of_nat (length dst) ->
  write_at dst pos bytes = Ok (take (Z.to_nat pos) dst ++ bytes ++ drop (Z.to_nat pos + length bytes) dst).
Proof. intros. unfold write_at. by rewrite decide_True by lia. Qed.

Lemma read_at_ok src pos n : 0 <= pos -> 0 <= n -> pos + n <= Z.of_nat (length src) ->
  read_at src pos n = Ok (take (Z.to_nat n) (drop (Z.to_nat pos) src)).
Proof. intros. unfold read_at. by rewrite decide_True by lia. Qed.

(** ** pread() *)

Lemma vbuf_read blocks b offset sz : vbuf_ok blocks b -> 0 <= offset -> 0 <= sz -> offset + sz <= f_size b ->
  read_at (vbuf_source blocks b) (vbuf_base b + offset) sz
  = Ok (take (Z.to_nat sz) (drop (Z.to_nat offset) (vbuf_contents blocks b))).
Proof.
  intros (H1 & H2 & H3) Ho Hs Hle. rewrite read_at_ok by lia. f_equal. unfold vbuf_contents.
  rewrite skipn_firstn_comm, take_take, drop_drop. f_equal; [lia|]. f_equal. lia.
Qed.

Lemma pread_loop_spec blocks bufs size offset buf : Forall (vbuf_ok blocks) bufs -> 0 < size -> 0 <= offset ->
  pread_loop blocks bufs size offset buf
  = Ok (buf ++ take (Z.to_nat size) (drop (Z.to_nat offset) (contents blocks bufs))).
Proof.
  intros Hok. revert size offset buf. induction Hok as [|b bufs Hb Hok IH]; intros size offset buf Hs Ho; cbn [pread_loop].
  { unfold contents. cbn. by rewrite drop_nil, take_nil, app_nil_r. }
  pose proof (length_vbuf_contents blocks b Hb) as Hlen. destruct Hb as (Hb1 & Hb2 & Hb3). rewrite contents_cons.
  destruct (decide (offset >= f_size b)) as [Hge|Hge].
  - rewrite IH by lia. rewrite (drop_app_ge (vbuf_contents blocks b)) by lia. do 3 f_equal. f_equal. lia.
  - set (sz := if decide _ then _ else _).
    assert (sz = Z.min size (f_size b - offset)) as Hsz by (unfold sz; destruct (decide _); lia).
    rewrite vbuf_read by (split_and! || lia; lia). cbn [result_bind]. rewrite drop_app_le by lia.
    destruct (decide (size - sz = 0)) as [Hend|Hend].
    + rewrite take_app_le by (rewrite length_drop; lia). do 3 f_equal. lia.
    + rewrite IH by lia. rewrite drop_0, <- app_assoc. do 2 f_equal.
      rewrite take_app_ge by (rewrite length_drop; lia). rewrite length_drop. f_equal; [|f_equal; lia].
      apply take_ge. rewrite length_drop. lia.
Qed.

(** ** pwrite() *)

(** The write of [input] over [c] from [o]: what is overwritten, what is left to
    write. *)
Definition overwrite (c : list Z) (o : nat) (input : list Z) : list Z :=
  take o c ++ take (length c - o) input ++ drop (o + length input) c.

Lemma overwrite_app_skip a c o input : (length a <= o)%nat ->
  overwrite (a ++ c) o input = a ++ overwrite c (o - length a) input.
Proof.
  intros Ho. unfold overwrite. rewrite take_app_ge, drop_app_ge by lia. rewrite length_app, <- app_assoc.
  do 2 f_equal. f_equal; f_equal; lia.
Qed.

Lemma overwrite_app_inside a c o input : (o < length a)%nat -> (length a - o <= length input)%nat ->
  overwrite (a ++ c) o input = (take o a ++ take (length a - o) input) ++ overwrite c 0 (drop (length a - o) input).
Proof.
  intros Ho Hi. unfold overwrite. rewrite take_app_le by lia. rewrite drop_app_ge by lia. rewrite length_app, take_0.
  cbn [app]. rewrite <- !app_assoc. f_equal. rewrite (app_assoc (take _ input)). f_equal.
  - replace (length a + length c - o)%nat with ((length a - o) + length c)%nat by lia.
    rewrite <- (take_drop (length a - o) input) at 1.
    rewrite take_app_ge by (rewrite length_take; lia). rewrite length_take.
    do 2 f_equal. lia.
  - f_equal. rewrite length_drop. lia.
Qed.

Lemma overwrite_app_end a c o input : (o + length input <= length a)%nat -> (o < length a)%nat ->
  overwrite (a ++ c) o input = (take o a ++ input ++ drop (o + length input) a) ++ c.
Proof.
  intros Hi Ho. unfold overwrite. rewrite take_app_le, drop_app_le by lia. rewrite length_app, (take_ge input) by lia.
  by rewrite <- !app_assoc.
Qed.

(** A write in a piece in memory. *)
Lemma memory_write blocks b offset bytes : memory_ok b -> 0 <= offset -> offset + Z.of_nat (length bytes) <= f_size b ->
  exists b', vbuf_write blocks b offset bytes = Ok (blocks, b') /\ memory_ok b' /\ f_size b' = f_size b /\
    vbuf_contents blocks b' = take (Z.to_nat offset) (vbuf_contents blocks b) ++ bytes ++
                              drop (Z.to_nat offset + length bytes) (vbuf_contents blocks b).
Proof.
  intros Hok Ho Hle. pose proof Hok as (Hb & Hs & Hc). unfold vbuf_write. rewrite Hb. rewrite write_at_ok by lia.
  cbn [result_bind]. eexists. split; [reflexivity|]. set (b' := Vbuf _ _ _ _ _).
  assert (memory_ok b') as Hok'.
  { unfold memory_ok, b'. cbn. rewrite !length_app, length_take, length_drop. split_and!; [done|lia..]. }
  split; [done|]. split; [done|]. rewrite !memory_contents by done. unfold b'. cbn [f_size f_data].
  set (n := Z.to_nat (f_size b)). rewrite take_app_ge by (rewrite length_take; lia). rewrite length_take.
  rewrite take_app_ge by lia. rewrite take_take. do 2 f_equal; [lia|].
  rewrite skipn_firstn_comm. f_equal. lia.
Qed.

Lemma pwrite_loop_spec blocks bufs offset input : Forall memory_ok bufs -> 0 <= offset -> input <> [] ->
  exists bufs', pwrite_loop blocks bufs offset input
      = Ok (blocks, bufs', drop (length (contents blocks bufs) - Z.to_nat offset) input) /\
    Forall memory_ok bufs' /\ contents blocks bufs' = overwrite (contents blocks bufs) (Z.to_nat offset) input.
Proof.
  intros Hok. revert offset input. induction Hok as [|b bufs Hb Hok IH]; intros offset input Ho Hin; cbn [pwrite_loop].
  { exists []. split; [done|]. split; [done|]. unfold overwrite, contents. cbn. by rewrite take_nil, drop_nil. }
  pose proof (length_vbuf_contents blocks b (memory_ok_vbuf_ok _ _ Hb)) as Hlen. rewrite contents_cons.
  assert (0 < length input)%nat by (destruct input; [done|cbn; lia]). pose proof Hb as (_ & Hsize & _).
  destruct (decide (offset >= f_size b)) as [Hge|Hge].
  - destruct (IH (offset - f_size b) input) as (bufs' & -> & Hok' & Hc'); [lia|done|]. cbn [result_bind].
    exists (b :: bufs'). split; [|split; [by constructor|]].
    + rewrite length_app, Hlen. replace (Z.to_nat (f_size b) + length (contents blocks bufs) - Z.to_nat offset)%nat
        with (length (contents blocks bufs) - Z.to_nat (offset - f_size b))%nat by lia. done.
    + rewrite contents_cons, Hc', overwrite_app_skip by lia. do 2 f_equal. lia.
  - destruct Hb as (Hb1 & Hb2 & Hb3). set (sz := if decide _ then _ else _).
    assert (sz = Z.min (Z.of_nat (length input)) (f_size b - offset)) as Hsz by (unfold sz; destruct (decide _); lia).
    destruct (memory_write blocks b offset (take (Z.to_nat sz) input)) as (b' & -> & Hb' & Hs' & Hc');
      [done|lia|rewrite length_take; lia|]. cbn [result_bind].
    pose proof (length_vbuf_contents blocks b' (memory_ok_vbuf_ok _ _ Hb')) as Hlen'.
    destruct (decide (Z.of_nat (length input) - sz = 0)) as [Hend|Hend].
    + exists (b' :: bufs). split; [|split; [by constructor|]].
      * by rewrite !drop_ge by (rewrite ?length_app; lia).
      * rewrite contents_cons, Hc', overwrite_app_end by lia. rewrite (take_ge input) by lia. done.
    + destruct (IH 0 (drop (Z.to_nat sz) input)) as (bufs' & -> & Hok' & Hc''); [lia| |].
      { intros Hnil. apply (f_equal length) in Hnil. rewrite length_drop in Hnil. cbn in Hnil. lia. }
      cbn [result_bind]. exists (b' :: bufs'). split; [|split; [by constructor|]].
      * rewrite drop_drop, length_app, Hlen.
        by replace (Z.to_nat (f_size b) + length (contents blocks bufs) - Z.to_nat offset)%nat
          with (Z.to_nat sz + (length (contents blocks bufs) - Z.to_nat 0))%nat by lia.
      * rewrite contents_cons, Hc', Hc'', overwrite_app_inside by lia.
        rewrite Hlen. replace (Z.to_nat (f_size b) - Z.to_nat offset)%nat with (Z.to_nat sz) by lia. f_equal. f_equal.
        rewrite drop_ge by (rewrite length_take; lia). by rewrite app_nil_r.
Qed.

Section VirtualBufferCorrect.
Context (copy_capacity : Z -> Z) (insert_capacity : Z -> Z -> Z) `{VectorLaws copy_capacity insert_capacity}.

Lemma new_vbuf_ok blocks data : Z.of_nat (length data) < 2 ^ 63 ->
  memory_ok (new_vbuf copy_capacity data) /\ vbuf_contents blocks (new_vbuf copy_capacity data) = data.
Proof.
  intros Hd. assert (memory_ok (new_vbuf copy_capacity data)) as Hok.
  { unfold memory_ok, new_vbuf. cbn [f_block f_size f_data f_capacity].
    pose proof (copy_capacity_holds (Z.of_nat (length data)) ltac:(lia)). split_and!; [done|lia..]. }
  split; [done|]. rewrite memory_contents by done. unfold new_vbuf. cbn. by rewrite Nat2Z.id, take_ge by lia.
Qed.

Lemma resize_bytes_grow v a b : 0 <= a <= Z.of_nat (length v) -> 0 <= b ->
  Z.of_nat (length (resize_bytes v (a + b))) = a + b /\
  take (Z.to_nat a) (resize_bytes v (a + b)) = take (Z.to_nat a) v.
Proof.
  intros Ha Hb. unfold resize_bytes. rewrite length_app, length_take, length_replicate. split; [lia|].
  rewrite take_app_le by (rewrite length_take; lia). rewrite take_take. f_equal. lia.
Qed.

(** What is added to the last piece. *)
Lemma grow_last_spec blocks bufs input : Forall memory_ok bufs ->
  exists bufs' n, grow_last bufs input = Ok (bufs', drop n input, Z.of_nat n) /\ (n <= length input)%nat /\
    Forall memory_ok bufs' /\ contents blocks bufs' = contents blocks bufs ++ take n input.
Proof.
  intros Hok. unfold grow_last. destruct (last bufs) as [b|] eqn:Hlast.
  2:{ exists bufs, 0%nat. rewrite drop_0, take_0, app_nil_r. split_and!; [done|lia|done|done]. }
  apply last_Some in Hlast as [init ->]. apply Forall_app in Hok as [Hinit Hb]. rewrite Forall_singleton in Hb.
  pose proof Hb as (Hblock & Hs & Hcap). rewrite Hblock.
  assert (wrap 64 (f_capacity b - f_size b) = f_capacity b - f_size b) as -> by (apply wrap_small; unfold uword; lia).
  destruct (decide (f_capacity b - f_size b > 0)) as [Hpos|Hpos].
  2:{ exists (init ++ [b]), 0%nat. rewrite drop_0, take_0, app_nil_r. split_and!; [done|lia|by apply Forall_app_2; [|constructor]|done]. }
  set (sz := Z.min _ _). assert (0 <= sz <= f_capacity b - f_size b /\ sz <= Z.of_nat (length input)) as Hsz by lia.
  destruct (resize_bytes_grow (f_data b) (f_size b) sz ltac:(lia) ltac:(lia)) as [Hrl Hrt].
  rewrite write_at_ok by (rewrite ?length_take; lia). cbn [result_bind]. rewrite Hrt.
  rewrite drop_ge by (rewrite length_take; lia). rewrite app_nil_r.
  set (b' := Vbuf _ _ _ _ _). exists (init ++ [b']), (Z.to_nat sz). split_and!.
  - rewrite length_app. cbn [length]. replace (length init + 1 - 1)%nat with (length init) by lia.
    rewrite take_app_length. rewrite Z2Nat.id by lia. done.
  - lia.
  - apply Forall_app_2; [done|]. constructor; [|done]. unfold memory_ok, b'. cbn.
    rewrite length_app, !length_take. split_and!; [done|lia..].
  - rewrite !contents_app, <- app_assoc. f_equal. unfold contents. cbn [fmap list_fmap concat]. rewrite !app_nil_r.
    rewrite !memory_contents; [|done|unfold memory_ok, b'; cbn; rewrite length_app, !length_take; split_and!; [done|lia..]].
    unfold b'. cbn [f_size f_data]. rewrite take_ge; [done|]. rewrite length_app, !length_take. lia.
Qed.

Lemma to_int_small n : 0 <= n < 2 ^ 31 -> to_int n = n.
Proof. intros. unfold to_int, wrap, signed. rewrite Z.mod_small by lia. rewrite decide_True by (change (32 - 1) with 31; lia). done. Qed.

(** Past the last piece, the bytes are appended. *)
Lemma pwrite_grow_spec blocks bufs rest :
  Forall memory_ok bufs -> Z.of_nat (length (contents blocks bufs)) + Z.of_nat (length rest) < 2 ^ 63 ->
  exists bufs', pwrite_grow copy_capacity bufs (Z.of_nat (length (contents blocks bufs))) rest
      = Ok (bufs', Z.of_nat (length (contents blocks bufs'))) /\
    Forall memory_ok bufs' /\ contents blocks bufs' = contents blocks bufs ++ rest.
Proof.
  intros Hok Hbound. unfold pwrite_grow.
  destruct (grow_last_spec blocks bufs rest Hok) as (bufs2 & n & -> & Hn & Hok2 & Hc2). cbn [result_bind].
  assert (length (contents blocks bufs2) = (length (contents blocks bufs) + n)%nat) as Hl2.
  { rewrite Hc2, length_app, length_take. lia. }
  assert (wrap 64 (Z.of_nat (length (contents blocks bufs)) + Z.of_nat n) = Z.of_nat (length (contents blocks bufs2))) as ->.
  { rewrite wrap_small by (unfold uword; lia). lia. }
  destruct (decide (drop n rest = [])) as [Hend|Hend].
  - exists bufs2. split_and!; [done..|]. rewrite Hc2. f_equal. rewrite <- (take_drop n rest) at 2. by rewrite Hend, app_nil_r.
  - destruct (new_vbuf_ok blocks (drop n rest)) as [Hnew Hnewc]; [rewrite length_drop; lia|].
    exists (bufs2 ++ [new_vbuf copy_capacity (drop n rest)]).
    assert (contents blocks (bufs2 ++ [new_vbuf copy_capacity (drop n rest)]) = contents blocks bufs ++ rest) as Hc3.
    { rewrite contents_app, Hc2. unfold contents at 2. cbn [fmap list_fmap concat].
      by rewrite Hnewc, app_nil_r, <- app_assoc, take_drop. }
    split_and!; [|by apply Forall_app_2; [|constructor]|done].
    rewrite Hc3, wrap_small; rewrite ?length_app, ?length_drop; [|unfold uword; lia].
    do 2 f_equal. lia.
Qed.

Lemma drop_nil_iff {A} n (l : list A) : drop n l = [] <-> (length l <= n)%nat.
Proof.
  split; [|apply drop_ge]. intros Hd. apply (f_equal length) in Hd. rewrite length_drop in Hd. cbn in Hd. lia.
Qed.

(** [pwrite()] when it is not refused: the bytes are replaced from the offset,
    or from the end when the offset is past it, and the buffer grows. *)
Lemma pwrite_value blocks vb input offset allow_growth :
  memory_buffer blocks vb -> 0 <= offset -> input <> [] ->
  f_total_size vb + Z.of_nat (length input) < 2 ^ 63 ->
  allow_growth = true \/ is_data_available vb offset (Z.of_nat (length input)) = true ->
  let c := contents blocks (f_buffers vb) in
  exists vb', pwrite copy_capacity blocks vb input offset allow_growth = Ok (blocks, vb', to_int (Z.of_nat (length input))) /\
    memory_buffer blocks vb' /\ f_modified vb' = true /\
    contents blocks (f_buffers vb') = take (Z.to_nat offset) c ++ input ++ drop (Z.to_nat offset + length input) c.
Proof.
  intros (Hok & Ht & Hmax) Ho Hin Hbound Hallow c. unfold pwrite. fold c in Ht.
  assert (0 < length input)%nat as Hlen by (destruct input; [done|cbn; lia]). rewrite decide_False by lia.
  assert (negb allow_growth && negb (is_data_available vb offset (Z.of_nat (length input))) = false) as ->.
  { destruct Hallow as [-> | ->]; [done|by rewrite andb_false_r]. }
  destruct (pwrite_loop_spec blocks (f_buffers vb) offset input Hok Ho Hin) as (bufs & -> & Hok' & Hc'). fold c in Hc' |- *.
  cbn [result_bind]. set (k := (length c - Z.to_nat offset)%nat) in *.
  unfold overwrite in Hc'. fold k in Hc'.
  destruct (decide (drop k input = [])) as [Hend%drop_nil_iff|Hend].
  - eexists. split; [reflexivity|]. unfold memory_buffer. cbn [f_buffers f_total_size f_modified].
    rewrite (take_ge input) in Hc' by lia. rewrite Hc'. split_and!; try done.
    rewrite !length_app, length_take, length_drop. lia.
  - rewrite drop_nil_iff in Hend. rewrite (drop_ge c), app_nil_r in * by lia.
    assert (f_total_size vb = Z.of_nat (length (contents blocks bufs))) as Ht'.
    { rewrite Hc', length_app, !length_take. lia. }
    rewrite Ht'. destruct (pwrite_grow_spec blocks bufs (drop k input) Hok') as (bufs2 & -> & Hok2 & Hc2).
    { rewrite length_drop. lia. }
    cbn [result_bind]. eexists. split; [reflexivity|]. unfold memory_buffer. cbn [f_buffers f_total_size f_modified].
    rewrite Hc', <- app_assoc, take_drop in Hc2. rewrite Hc2. split_and!; try done.
    rewrite length_app, length_take. lia.
Qed.

(** ** pinsert() *)

(** The vectors have room for [n] more bytes below [max_size()]. *)
Definition room_for (vb : virtual_buffer) (n : Z) : Prop :=
  Forall (fun b => Z.of_nat (length (f_data b)) + n < 2 ^ 63) (f_buffers vb).

Lemma vbuf_insert_spec blocks b offset input : memory_ok b -> 0 <= offset < f_size b ->
  Z.of_nat (length (f_data b)) + Z.of_nat (length input) < 2 ^ 63 ->
  exists b', vbuf_insert insert_capacity b offset input = Ok b' /\ memory_ok b' /\
    vbuf_contents blocks b' = take (Z.to_nat offset) (vbuf_contents blocks b) ++ input ++
                              drop (Z.to_nat offset) (vbuf_contents blocks b).
Proof.
  intros Hok Ho Hroom. pose proof Hok as (Hb & Hs & Hc). unfold vbuf_insert. rewrite decide_True by lia.
  set (data := take _ _ ++ _). cbv zeta.
  assert (Z.of_nat (length data) = Z.of_nat (length (f_data b)) + Z.of_nat (length input)) as Hlen.
  { unfold data. rewrite !length_app, length_take, length_drop. lia. }
  eexists. split; [reflexivity|]. set (b' := Vbuf _ _ _ _ _).
  assert (memory_ok b') as Hok'.
  { split; [done|]. change (f_data b') with data. change (f_size b') with (f_size b + Z.of_nat (length input)).
    split; [lia|]. change (f_capacity b') with (if decide (Z.of_nat (length data) <= f_capacity b) then f_capacity b
      else insert_capacity (f_capacity b) (Z.of_nat (length data))).
    destruct (decide (Z.of_nat (length data) <= f_capacity b)); [lia|]. apply insert_capacity_holds. lia. }
  split; [done|]. rewrite !memory_contents by done. unfold b'. cbn [f_size f_data]. unfold data.
  rewrite take_app_ge by (rewrite length_take; lia). rewrite length_take.
  rewrite take_app_ge by lia. rewrite take_take. f_equal; [f_equal; lia|]. f_equal.
  rewrite skipn_firstn_comm. f_equal. lia.
Qed.

Lemma pinsert_loop_spec blocks bufs offset input : Forall memory_ok bufs ->
  Forall (fun b => Z.of_nat (length (f_data b)) + Z.of_nat (length input) < 2 ^ 63) bufs ->
  0 <= offset < Z.of_nat (length (contents blocks bufs)) ->
  exists bufs' o, pinsert_loop insert_capacity bufs offset input = Ok (Some bufs', o) /\ Forall memory_ok bufs' /\
    contents blocks bufs' = take (Z.to_nat offset) (contents blocks bufs) ++ input ++
                            drop (Z.to_nat offset) (contents blocks bufs).
Proof.
  intros Hok. revert offset. induction Hok as [|b bufs Hb Hok IH]; intros offset Hroom Ho; cbn [pinsert_loop].
  { cbn in Ho. lia. }
  rewrite Forall_cons in Hroom. destruct Hroom as [Hr Hroom].
  pose proof (length_vbuf_contents blocks b (memory_ok_vbuf_ok _ _ Hb)) as Hlen. pose proof Hb as (Hblock & Hsize & _).
  rewrite contents_cons in *. rewrite length_app in Ho. destruct (decide (offset >= f_size b)) as [Hge|Hge].
  - destruct (IH (offset - f_size b) Hroom ltac:(lia)) as (bufs' & o & -> & Hok' & Hc'). cbn [result_bind fmap option_fmap option_map].
    exists (b :: bufs'), o. split_and!; [done|by constructor|].
    rewrite contents_cons, Hc', take_app_ge, drop_app_ge by lia. rewrite <- app_assoc.
    replace (Z.to_nat offset - length (vbuf_contents blocks b))%nat with (Z.to_nat (offset - f_size b)) by lia. done.
  - rewrite Hblock. destruct (vbuf_insert_spec blocks b offset input Hb ltac:(lia) Hr) as (b' & -> & Hb' & Hc').
    cbn [result_bind]. exists (b' :: bufs), offset. split_and!; [done|by constructor|].
    rewrite contents_cons, Hc', take_app_le, drop_app_le by lia. by rewrite <- !app_assoc.
Qed.

Lemma pinsert_value blocks vb input offset :
  memory_buffer blocks vb -> 0 <= offset -> input <> [] ->
  f_total_size vb + Z.of_nat (length input) < 2 ^ 63 -> room_for vb (Z.of_nat (length input)) ->
  let c := contents blocks (f_buffers vb) in
  exists vb', pinsert copy_capacity insert_capacity blocks vb input offset
      = Ok (blocks, vb', to_int (Z.of_nat (length input))) /\
    memory_buffer blocks vb' /\ f_modified vb' = true /\
    contents blocks (f_buffers vb') = take (Z.to_nat offset) c ++ input ++ drop (Z.to_nat offset) c.
Proof.
  intros Hvb Ho Hin Hbound Hroom c. pose proof Hvb as (Hok & Ht & Hmax). fold c in Ht. unfold pinsert.
  assert (0 < length input)%nat as Hlen by (destruct input; [done|cbn; lia]). rewrite decide_False by lia.
  destruct (decide (offset >= f_total_size vb)) as [Hge|Hge].
  - destruct (pwrite_value blocks vb input offset true Hvb Ho Hin Hbound) as (vb' & -> & Hvb' & Hm & Hc'); [by left|].
    exists vb'. split_and!; [done..|]. rewrite Hc'. fold c. by rewrite !(drop_ge c) by lia.
  - destruct (pinsert_loop_spec blocks (f_buffers vb) offset input Hok Hroom) as (bufs & o & -> & Hok' & Hc'); [fold c; lia|].
    fold c in Hc'. cbn [result_bind]. eexists. split; [reflexivity|]. unfold memory_buffer.
    cbn [f_buffers f_total_size f_modified]. rewrite wrap_small by (unfold uword; lia).
    split_and!; try done. rewrite Hc', !length_app, length_take, length_drop. lia.
Qed.

(** ** perase() *)

(** The bytes of a piece, cut at the end or inside. *)
Lemma memory_cut blocks b n : memory_ok b -> 0 <= n <= f_size b ->
  let b' := Vbuf (f_block b) (f_data b) (f_capacity b) (f_offset b) n in
  memory_ok b' /\ vbuf_contents blocks b' = take (Z.to_nat n) (vbuf_contents blocks b).
Proof.
  intros Hok Hn b'. pose proof Hok as (Hb & Hs & Hc).
  assert (memory_ok b') as Hok' by (unfold memory_ok, b'; cbn; split_and!; [done|lia..]).
  split; [done|]. rewrite !memory_contents by done. unfold b'. cbn [f_size f_data]. rewrite take_take. f_equal. lia.
Qed.

Lemma memory_remove blocks b offset sz : memory_ok b -> 0 <= offset -> 0 < sz -> offset + sz < f_size b ->
  exists moved data, read_at (f_data b) (offset + sz) (f_size b - offset - sz) = Ok moved /\
    write_at (f_data b) offset moved = Ok data /\
    let b' := Vbuf None data (f_capacity b) (f_offset b) (f_size b - sz) in
    memory_ok b' /\ vbuf_contents blocks b' =
      take (Z.to_nat offset) (vbuf_contents blocks b) ++ drop (Z.to_nat (offset + sz)) (vbuf_contents blocks b).
Proof.
  intros Hok Ho Hsz Hlt. pose proof Hok as (Hb & Hs & Hc). rewrite read_at_ok by lia. eexists _, _. split; [reflexivity|].
  rewrite write_at_ok by (rewrite ?length_take, ?length_drop; lia). split; [reflexivity|]. cbv zeta. set (b' := Vbuf _ _ _ _ _).
  assert (memory_ok b') as Hok'.
  { unfold memory_ok, b'. cbn. rewrite !length_app, !length_take, !length_drop. split_and!; [done|lia..]. }
  split; [done|]. rewrite !memory_contents by done. unfold b'. cbn [f_size f_data].
  rewrite take_app_ge by (rewrite length_take; lia). rewrite length_take, take_take. f_equal; [f_equal; lia|].
  rewrite take_app_le by (rewrite length_take, length_drop; lia). rewrite take_take, skipn_firstn_comm. f_equal. lia.
Qed.

Lemma perase_loop_spec blocks bufs size offset : Forall memory_ok bufs -> 0 <= size -> 0 <= offset ->
  offset + size <= Z.of_nat (length (contents blocks bufs)) ->
  exists bufs', perase_loop bufs size offset = Ok (bufs', size) /\ Forall memory_ok bufs' /\
    contents blocks bufs' = take (Z.to_nat offset) (contents blocks bufs) ++
                            drop (Z.to_nat (offset + size)) (contents blocks bufs).
Proof.
  intros Hok. revert size offset. induction Hok as [|b bufs Hb Hok IH]; intros size offset Hs Ho Hle; cbn [perase_loop].
  { cbn in Hle. replace size with 0 by lia. exists []. split_and!; [done..|]. unfold contents. cbn. by rewrite take_nil, drop_nil. }
  pose proof (length_vbuf_contents blocks b (memory_ok_vbuf_ok _ _ Hb)) as Hlen. pose proof Hb as (Hblock & Hsize & _).
  set (cb := vbuf_contents blocks b) in *. rewrite contents_cons in Hle |- *. fold cb in Hle |- *. rewrite length_app in Hle.
  destruct (decide (size > 0)) as [Hpos|Hpos].
  2:{ replace size with 0 by lia. exists (b :: bufs). rewrite Z.add_0_r, take_drop. split_and!; [done|by constructor|done]. }
  destruct (decide (offset >= f_size b)) as [Hge|Hge].
  { destruct (IH size (offset - f_size b)) as (bufs' & -> & Hok' & Hc'); [lia..|]. cbn [result_bind].
    exists (b :: bufs'). split_and!; [done|by constructor|]. rewrite contents_cons, Hc', take_app_ge, drop_app_ge by lia.
    rewrite <- app_assoc. fold cb. do 2 f_equal; f_equal; lia. }
  destruct (decide (offset + size >= f_size b)) as [Hend|Hend].
  - rewrite (drop_app_ge cb) by lia. destruct (decide (offset = 0)) as [->|Hnz].
    + destruct (IH (size - f_size b) 0) as (bufs' & -> & Hok' & Hc'); [lia..|]. cbn [result_bind].
      exists bufs'. split_and!; [f_equal; f_equal; lia|done|]. rewrite Hc', !take_0. cbn [app]. f_equal. lia.
    + destruct (IH (size - (f_size b - offset)) 0) as (bufs' & -> & Hok' & Hc'); [lia..|]. cbn [result_bind].
      destruct (memory_cut blocks b offset Hb ltac:(lia)) as [Hb' Hcb']. fold cb in Hcb'.
      eexists. split; [f_equal; f_equal; lia|]. split; [by constructor|].
      rewrite contents_cons, Hcb', Hc', take_0, take_app_le by lia. cbn [app]. do 2 f_equal. lia.
  - destruct (memory_remove blocks b offset size Hb ltac:(lia) ltac:(lia) ltac:(lia))
      as (moved & data & Hmoved & Hdata & Hb' & Hcb'). fold cb in Hcb'.
    rewrite Hblock. destruct (decide (offset = 0)) as [->|Hnz].
    + replace (f_size b - 0 - size) with (f_size b - size) in Hmoved by lia. rewrite Z.add_0_l in Hmoved.
      rewrite Hmoved. cbn [result_bind]. rewrite Hdata. cbn [result_bind]. eexists. split; [reflexivity|].
      split; [by constructor|]. rewrite contents_cons, Hcb', drop_app_le, take_app_le by lia. by rewrite <- app_assoc.
    + rewrite Hmoved. cbn [result_bind]. rewrite Hdata. cbn [result_bind]. eexists. split; [reflexivity|].
      split; [by constructor|]. rewrite contents_cons, Hcb', drop_app_le, take_app_le by lia. by rewrite <- app_assoc.
Qed.

Lemma perase_value blocks vb size offset : memory_buffer blocks vb -> 0 <= offset -> 0 <= size ->
  let c := contents blocks (f_buffers vb) in
  exists vb' n, perase vb size offset = Ok (vb', to_int n) /\ n = Z.max 0 (Z.min size (f_total_size vb - offset)) /\
    memory_buffer blocks vb' /\ (f_modified vb' = true <-> f_modified vb = true \/ n <> 0) /\
    contents blocks (f_buffers vb') = take (Z.to_nat offset) c ++ drop (Z.to_nat (offset + size)) c.
Proof.
  intros Hvb Ho Hs c.
  pose proof Hvb as (Hok & Ht & Hmax). fold c in Ht. unfold perase.
  destruct (decide (size = 0)) as [->|Hnz].
  { exists vb, 0. rewrite Z.add_0_r, take_drop. split; [done|]. split; [lia|]. split; [done|]. split; [|done].
    split; [by left|by intros [|]]. }
  destruct (decide (offset >= f_total_size vb)) as [Hge|Hlt].
  { exists vb, 0. rewrite take_ge, drop_ge, app_nil_r by lia. split; [done|]. split; [lia|]. split; [done|]. split; [|done].
    split; [by left|by intros [|]]. }
  set (sz := if decide _ then _ else _).
  assert (sz = Z.min size (f_total_size vb - offset)) as Hsz by (unfold sz; destruct (decide _); lia).
  destruct (perase_loop_spec blocks (f_buffers vb) sz offset Hok) as (bufs & -> & Hok' & Hc'); [lia..|fold c; lia|].
  fold c in Hc'. cbn [result_bind]. eexists _, sz. split; [reflexivity|]. split; [lia|]. unfold memory_buffer.
  cbn [f_buffers f_total_size f_modified].
  assert (drop (Z.to_nat (offset + sz)) c = drop (Z.to_nat (offset + size)) c) as Hdrop.
  { destruct (decide (size > f_total_size vb - offset)); [rewrite !drop_ge by lia; done|]. by replace sz with size by lia. }
  rewrite Hdrop in Hc'. rewrite Hc'. split; [|split; [|done]].
  - split; [done|]. rewrite wrap_small by (unfold uword; lia). split; [|lia].
    rewrite <- Hdrop, length_app, length_take, length_drop. lia.
  - rewrite orb_true_iff, negb_true_iff, bool_decide_eq_false. tauto.
Qed.

(** ** pshift() *)

Lemma pread_value blocks vb n offset :
  buffer_ok blocks vb -> 0 < n -> 0 <= offset -> offset + n <= f_total_size vb ->
  pread blocks vb n offset true
  = Ok (take (Z.to_nat n) (drop (Z.to_nat offset) (contents blocks (f_buffers vb))), to_int n).
Proof.
  intros (Hok & Ht & Hmax) Hn Ho Hle. unfold pread, is_data_available. rewrite decide_False by lia.
  rewrite wrap_small by (unfold uword; lia). rewrite bool_decide_eq_true_2 by lia. cbn [negb andb].
  rewrite pread_loop_spec by (done || lia). cbn [result_bind app]. do 3 f_equal.
  rewrite length_take, length_drop. lia.
Qed.

(** A write inside of the buffer. *)
Lemma pwrite_inside blocks vb input offset :
  memory_buffer blocks vb -> 0 <= offset -> input <> [] -> offset + Z.of_nat (length input) <= f_total_size vb ->
  f_total_size vb + 4096 < 2 ^ 63 -> (length input <= 4096)%nat ->
  let c := contents blocks (f_buffers vb) in
  exists vb', pwrite copy_capacity blocks vb input offset false = Ok (blocks, vb', Z.of_nat (length input)) /\
    memory_buffer blocks vb' /\ f_total_size vb' = f_total_size vb /\
    contents blocks (f_buffers vb') = take (Z.to_nat offset) c ++ input ++ drop (Z.to_nat offset + length input) c.
Proof.
  intros Hvb Ho Hin Hle Hmax Hlen c.
  destruct (pwrite_value blocks vb input offset false Hvb Ho Hin ltac:(lia)) as (vb' & -> & Hvb' & _ & Hc').
  { right. unfold is_data_available. rewrite wrap_small by (unfold uword; lia). apply bool_decide_eq_true_2. lia. }
  rewrite to_int_small by lia. exists vb'. split_and!; [done..| |done].
  pose proof Hvb as (_ & Ht & _). pose proof Hvb' as (_ & Ht' & _). fold c in Ht, Hc'.
  rewrite Ht', Hc', Ht, !length_app, length_take, length_drop. lia.
Qed.

Lemma pshift_move_spec fuel blocks vb shift offset total moved :
  memory_buffer blocks vb -> f_total_size vb + 4096 < 2 ^ 63 -> 0 < shift -> 0 <= offset -> 0 <= total ->
  offset + shift + total = f_total_size vb -> total <= 4096 * Z.of_nat fuel ->
  let c := contents blocks (f_buffers vb) in
  exists vb', pshift_move copy_capacity fuel blocks vb shift offset total moved
      = Ok (blocks, vb', offset + total, moved + total) /\
    memory_buffer blocks vb' /\ f_total_size vb' = f_total_size vb /\
    contents blocks (f_buffers vb') = take (Z.to_nat offset) c ++
      take (Z.to_nat total) (drop (Z.to_nat (offset + shift)) c) ++ drop (Z.to_nat (offset + total)) c.
Proof.
  revert vb offset total moved. induction fuel as [|fuel IH]; intros vb offset total moved Hvb Hmax Hs Ho Ht Hsum Hfuel c;
    cbn [pshift_move]; (destruct (decide (total > 0)) as [Hpos|Hpos];
      [|replace total with 0 by lia; exists vb; rewrite take_0, !Z.add_0_r; cbn [app]; rewrite take_drop; done]); [lia|].
  set (sz := Z.min 4096 total). assert (0 < sz <= 4096 /\ sz <= total) as Hsz by lia.
  pose proof Hvb as (_ & Htot & _). fold c in Htot.
  rewrite (wrap_small 64 (offset + shift)) by (unfold uword; lia).
  rewrite pread_value by (try apply memory_buffer_ok; done || lia). cbn [result_bind]. fold c.
  rewrite to_int_small by lia. rewrite decide_False by lia.
  set (buf := take (Z.to_nat sz) (drop (Z.to_nat (offset + shift)) c)).
  assert (length buf = Z.to_nat sz) as Hbuf by (unfold buf; rewrite length_take, length_drop; lia).
  destruct (pwrite_inside blocks vb buf offset) as (vb1 & -> & Hvb1 & Ht1 & Hc1);
    [done|lia|intros Hnil; rewrite Hnil in Hbuf; cbn in Hbuf; lia|lia..|]. cbn [result_bind]. fold c in Hc1.
  rewrite Hbuf, Z2Nat.id in * by lia. rewrite decide_False by lia. rewrite (wrap_small 64 (offset + sz)) by (unfold uword; lia).
  destruct (IH vb1 (offset + sz) (total - sz) (moved + sz)) as (vb' & -> & Hvb' & Ht' & Hc'); [done|lia..|].
  exists vb'. replace (offset + sz + (total - sz)) with (offset + total) in * by lia.
  replace (moved + sz + (total - sz)) with (moved + total) by lia.
  split; [done|]. split; [done|]. split; [lia|]. rewrite Hc', Hc1.
  assert (length (take (Z.to_nat offset) c ++ buf) = Z.to_nat (offset + sz)) as Hpre by (rewrite length_app, length_take; lia).
  rewrite (app_assoc (take (Z.to_nat offset) c) buf), take_app_length' by done.
  rewrite !drop_app_ge by lia. rewrite Hpre, !drop_drop, <- !app_assoc. f_equal.
  rewrite app_assoc. f_equal; [|f_equal; lia].
  unfold buf. rewrite <- (take_drop (Z.to_nat sz) (take (Z.to_nat total) _)), take_take, skipn_firstn_comm, drop_drop.
  f_equal; [f_equal; lia|]. f_equal; [lia|f_equal; lia].
Qed.

Lemma pshift_fill_spec fuel blocks vb offset fill moved :
  memory_buffer blocks vb -> f_total_size vb + 4096 < 2 ^ 63 -> 0 <= offset <= f_total_size vb ->
  f_total_size vb - offset <= 4096 * Z.of_nat fuel ->
  let n := f_total_size vb - offset in
  exists vb', pshift_fill copy_capacity fuel blocks vb offset fill moved = Ok (blocks, vb', moved + n) /\
    memory_buffer blocks vb' /\
    contents blocks (f_buffers vb') = take (Z.to_nat offset) (contents blocks (f_buffers vb)) ++ replicate (Z.to_nat n) fill.
Proof.
  revert vb offset moved. induction fuel as [|fuel IH]; intros vb offset moved Hvb Hmax Ho Hfuel n; cbn [pshift_fill];
    pose proof Hvb as (_ & Htot & _); set (c := contents blocks (f_buffers vb)) in *;
    (destruct (decide (offset < f_total_size vb)) as [Hlt|Hlt];
      [|assert (n = 0) as -> by lia; exists vb; rewrite Z.add_0_r, app_nil_r, take_ge by lia; done]); [lia|].
  set (sz := Z.min 4096 _). set (buf := replicate _ fill).
  assert (length buf = Z.to_nat sz) as Hbuf by (apply length_replicate).
  destruct (pwrite_inside blocks vb buf offset) as (vb1 & -> & Hvb1 & Ht1 & Hc1);
    [done|lia|intros Hnil; rewrite Hnil in Hbuf; cbn in Hbuf; lia|lia..|]. cbn [result_bind]. fold c in Hc1.
  rewrite Hbuf, Z2Nat.id in * by lia. rewrite decide_False by lia. rewrite (wrap_small 64 (offset + sz)) by (unfold uword; lia).
  destruct (IH vb1 (offset + sz) (moved + sz)) as (vb' & -> & Hvb' & Hc'); [done|lia..|].
  exists vb'. replace (moved + sz + (f_total_size vb1 - (offset + sz))) with (moved + n) by lia.
  split; [done|]. split; [done|]. rewrite Hc', Hc1, Ht1.
  assert (length (take (Z.to_nat offset) c ++ buf) = Z.to_nat (offset + sz)) as Hpre by (rewrite length_app, length_take; lia).
  rewrite (app_assoc (take (Z.to_nat offset) c) buf), take_app_length' by done. rewrite <- app_assoc. f_equal. unfold buf.
  rewrite <- replicate_add. f_equal. lia.
Qed.

Lemma pshift_value blocks vb n offset fill :
  memory_buffer blocks vb -> f_total_size vb + 4096 < 2 ^ 63 -> 0 < n -> 0 <= offset -> offset + n <= f_total_size vb ->
  let c := contents blocks (f_buffers vb) in
  exists vb', pshift copy_capacity blocks vb (- n) offset fill = Ok (blocks, vb', to_int (f_total_size vb - offset)) /\
    memory_buffer blocks vb' /\
    contents blocks (f_buffers vb') = take (Z.to_nat offset) c ++ drop (Z.to_nat (offset + n)) c ++ replicate (Z.to_nat n) fill.
Proof.
  intros Hvb Hmax Hn Ho Hle c. pose proof Hvb as (_ & Htot & _). fold c in Htot. unfold pshift.
  rewrite decide_False by lia. rewrite decide_False by lia. rewrite Z.opp_involutive.
  rewrite wrap_small by (unfold uword; lia). set (fuel := Z.to_nat _).
  assert (f_total_size vb <= 4096 * Z.of_nat fuel) as Hfuel.
  { unfold fuel. pose proof (Z.div_mod (f_total_size vb) 4096 ltac:(lia)).
    pose proof (Z.mod_pos_bound (f_total_size vb) 4096 ltac:(lia)). lia. }
  set (t := f_total_size vb - offset - n).
  destruct (pshift_move_spec fuel blocks vb n offset t 0) as (vb1 & -> & Hvb1 & Ht1 & Hc1); [done|lia..|].
  cbn [result_bind]. fold c in Hc1.
  destruct (pshift_fill_spec fuel blocks vb1 (offset + t) fill (0 + t)) as (vb' & -> & Hvb' & Hc'); [done|lia..|].
  cbn [result_bind]. exists vb'. split; [do 2 f_equal; f_equal; lia|]. split; [done|]. rewrite Hc', Hc1.
  assert (take (Z.to_nat t) (drop (Z.to_nat (offset + n)) c) = drop (Z.to_nat (offset + n)) c) as ->.
  { apply take_ge. rewrite length_drop. lia. }
  rewrite (app_assoc (take (Z.to_nat offset) c)).
  rewrite take_app_length' by (rewrite length_app, length_take, length_drop; lia).
  rewrite <- app_assoc. do 3 f_equal. lia.
Qed.

Lemma save_loop_spec blocks bufs : Forall memory_ok bufs -> save_loop bufs = Ok (contents blocks bufs).
Proof.
  intros Hok. induction Hok as [|b bufs Hb Hok IH]; [done|]. cbn [save_loop].
  pose proof Hb as (_ & Hs & _). rewrite read_at_ok by lia. cbn [result_bind]. rewrite IH. cbn [result_bind].
  by rewrite contents_cons, memory_contents, drop_0 by done.
Qed.
(** ** The room of the vectors *)

Definition data_length (b : vbuf_t) : nat := length (f_data b).

Lemma room_lengths bufs bufs' n : data_length <$> bufs' = data_length <$> bufs ->
  Forall (fun b => Z.of_nat (length (f_data b)) + n < 2 ^ 63) bufs ->
  Forall (fun b => Z.of_nat (length (f_data b)) + n < 2 ^ 63) bufs'.
Proof.
  intros Hl Hr. revert bufs' Hl. induction Hr as [|b bufs Hb Hr IH]; intros [|b' bufs'] Hl; cbn in Hl; try done.
  injection Hl as Hb' Hl. constructor; [|by apply IH]. unfold data_length in Hb'. lia.
Qed.

Lemma room_for_le vb m n : m <= n -> room_for vb n -> room_for vb m.
Proof. intros Hle Hr. eapply Forall_impl; [exact Hr|]. cbn. lia. Qed.

Lemma write_at_length dst pos bytes dst' : write_at dst pos bytes = Ok dst' -> length dst' = length dst.
Proof.
  unfold write_at. destruct (decide _) as [Hd|]; [|done]. intros [= <-]. rewrite !length_app, length_take, length_drop. lia.
Qed.

Lemma vbuf_write_length blocks b offset bytes blocks' b' :
  vbuf_write blocks b offset bytes = Ok (blocks', b') -> data_length b' = data_length b.
Proof.
  unfold vbuf_write. destruct (f_block b); destruct (write_at _ _ _) eqn:Hat; intros; simplify_eq/=; [done|].
  unfold data_length. cbn. by eapply write_at_length.
Qed.

(** A write in the pieces does not change the length of the vectors. *)
Lemma pwrite_loop_lengths blocks bufs offset input blocks' bufs' rest :
  pwrite_loop blocks bufs offset input = Ok (blocks', bufs', rest) ->
  data_length <$> bufs' = data_length <$> bufs /\ (length rest <= length input)%nat.
Proof.
  revert blocks offset input blocks' bufs' rest. induction bufs as [|b bufs IH];
    intros blocks offset input blocks' bufs' rest; cbn [pwrite_loop]; [by intros [= <- <- <-]|].
  destruct (decide _).
  - destruct (pwrite_loop blocks bufs _ input) as [[[? ?] ?]|] eqn:Hl; [|done]. cbn. intros [= <- <- <-].
    destruct (IH _ _ _ _ _ _ Hl) as [Hb ?]. cbn. by rewrite Hb.
  - destruct (vbuf_write _ _ _ _) as [[blocks1 b1]|] eqn:Hw; [|done]. cbn [result_bind]. apply vbuf_write_length in Hw.
    destruct (decide _); [intros [= <- <- <-]; cbn; rewrite Hw, length_drop; split; [done|lia]|].
    destruct (pwrite_loop blocks1 bufs _ _) as [[[? ?] ?]|] eqn:Hl; [|done]. cbn. intros [= <- <- <-].
    destruct (IH _ _ _ _ _ _ Hl) as [Hb Hle]. cbn. rewrite Hb, Hw. rewrite length_drop in Hle. split; [done|lia].
Qed.

Lemma grow_last_room bufs input bufs' rest k n : Forall memory_ok bufs -> 0 <= n ->
  grow_last bufs input = Ok (bufs', rest, k) ->
  Forall (fun b => Z.of_nat (length (f_data b)) + (Z.of_nat (length input) + n) < 2 ^ 63) bufs ->
  Forall (fun b => Z.of_nat (length (f_data b)) + n < 2 ^ 63) bufs' /\ (length rest <= length input)%nat.
Proof.
  intros Hok Hn Hg Hroom. assert (Forall (fun b => Z.of_nat (length (f_data b)) + n < 2 ^ 63) bufs) as Hweak.
  { eapply Forall_impl; [exact Hroom|]. cbn. lia. }
  unfold grow_last in Hg. destruct (last bufs) as [b|] eqn:Hlast; [|by simplify_eq].
  apply last_Some in Hlast as [init ->]. destruct (f_block b); [by simplify_eq|]. destruct (decide _); [|by simplify_eq].
  destruct (write_at _ _ _) as [data|] eqn:Hw; [|done]. cbn [result_bind] in Hg. simplify_eq.
  apply write_at_length in Hw. rewrite length_drop. split; [|lia].
  rewrite length_app, Nat.add_sub, take_app_length. apply Forall_app in Hroom as [_ Hb].
  apply Forall_app in Hweak as [Hinit _]. apply Forall_app in Hok as [_ Hok].
  rewrite Forall_singleton in Hb, Hok. apply Forall_app_2; [done|]. constructor; [|done]. cbn [f_data].
  destruct Hok as (_ & Hs & _). rewrite Hw. unfold resize_bytes. rewrite length_app, length_take, length_replicate. lia.
Qed.

(** Writing takes at most the room of the bytes. *)
Lemma pwrite_room blocks vb input offset allow_growth blocks' vb' k n : memory_buffer blocks vb -> 0 <= offset -> 0 <= n ->
  Z.of_nat (length input) + n < 2 ^ 63 ->
  pwrite copy_capacity blocks vb input offset allow_growth = Ok (blocks', vb', k) ->
  room_for vb (Z.of_nat (length input) + n) -> room_for vb' n.
Proof.
  intros (Hok & Ht & Hmax) Ho Hn Hbound Hw Hroom. unfold room_for in *.
  unfold pwrite in Hw. destruct (decide _) as [|Hne]; [simplify_eq; by apply (room_for_le vb' n (Z.of_nat (length input) + n)); [lia|]|].
  destruct (negb allow_growth && _); [done|].
  destruct (pwrite_loop_spec blocks (f_buffers vb) offset input Hok Ho) as (bufs1 & Hl & Hok1 & _); [by intros ->|].
  rewrite Hl in Hw. cbn [result_bind] in Hw. set (rest := drop _ input) in *.
  destruct (pwrite_loop_lengths _ _ _ _ _ _ _ Hl) as [Hlen Hrest]. pose proof (room_lengths _ _ _ Hlen Hroom) as Hroom1.
  destruct (decide (rest = [])); [simplify_eq; eapply Forall_impl; [exact Hroom1|cbn; lia]|].
  unfold pwrite_grow in Hw. destruct (grow_last bufs1 rest) as [[[bufs2 rest2] added]|] eqn:Hg; [|done]. cbn [result_bind] in Hw.
  apply grow_last_room with (n := n) in Hg as [Hroom2 Hrest2]; [|done|done|eapply Forall_impl; [exact Hroom1|cbn; lia]].
  destruct (decide (rest2 = [])); [by simplify_eq/=|]. simplify_eq/=. apply Forall_app_2; [done|].
  constructor; [|done]. cbn [new_vbuf f_data]. lia.
Qed.

(** Inside of the buffer, it takes none. *)
Lemma pwrite_within blocks vb input offset : memory_buffer blocks vb -> 0 <= offset ->
  offset + Z.of_nat (length input) <= f_total_size vb ->
  let c := contents blocks (f_buffers vb) in
  exists vb', pwrite copy_capacity blocks vb input offset false = Ok (blocks, vb', to_int (Z.of_nat (length input))) /\
    memory_buffer blocks vb' /\ (forall n, room_for vb n -> room_for vb' n) /\
    contents blocks (f_buffers vb') = take (Z.to_nat offset) c ++ input ++ drop (Z.to_nat offset + length input) c.
Proof.
  intros Hvb Ho Hle c. pose proof Hvb as (Hok & Ht & Hmax). fold c in Ht. unfold pwrite.
  destruct (decide (Z.of_nat (length input) = 0)) as [Hz|Hne].
  { destruct input; [|done]. exists vb. rewrite Nat.add_0_r. cbn [app]. by rewrite take_drop. }
  unfold is_data_available. rewrite wrap_small by (unfold uword; lia). rewrite bool_decide_eq_true_2 by lia. cbn [negb andb].
  destruct (pwrite_loop_spec blocks (f_buffers vb) offset input Hok Ho) as (bufs1 & Hl & Hok1 & Hc1); [by intros ->|].
  rewrite Hl. cbn [result_bind]. fold c in Hl, Hc1 |- *. rewrite drop_ge by lia. rewrite decide_True by done.
  unfold overwrite in Hc1. rewrite (take_ge input) in Hc1 by lia.
  eexists. split; [done|]. unfold memory_buffer, room_for. cbn [f_buffers f_total_size]. split_and!; try done.
  - rewrite Hc1, !length_app, length_take, length_drop. lia.
  - apply pwrite_loop_lengths in Hl as [Hlen _]. intros n. by apply room_lengths.
Qed.

Lemma pinsert_loop_room bufs offset input bufs' o n :
  pinsert_loop insert_capacity bufs offset input = Ok (Some bufs', o) -> 0 <= n ->
  Forall (fun b => Z.of_nat (length (f_data b)) + (Z.of_nat (length input) + n) < 2 ^ 63) bufs ->
  Forall (fun b => Z.of_nat (length (f_data b)) + n < 2 ^ 63) bufs'.
Proof.
  revert offset bufs' o. induction bufs as [|b bufs IH]; intros offset bufs' o; cbn [pinsert_loop]; [done|].
  intros Hl Hn [Hb Hroom]%Forall_cons. destruct (decide _).
  - destruct (pinsert_loop _ bufs _ _) as [[[r|] o']|] eqn:Hr; simplify_eq/=. constructor; [lia|]. by eapply IH.
  - destruct (f_block b); [done|]. unfold vbuf_insert in Hl. destruct (decide _); [|done]. cbn [result_bind] in Hl. simplify_eq.
    constructor; [|eapply Forall_impl; [exact Hroom|cbn; lia]]. cbn [f_data]. rewrite !length_app, length_take, length_drop. lia.
Qed.

Lemma pinsert_room blocks vb input offset blocks' vb' k n : memory_buffer blocks vb -> 0 <= offset -> 0 <= n ->
  Z.of_nat (length input) + n < 2 ^ 63 ->
  pinsert copy_capacity insert_capacity blocks vb input offset = Ok (blocks', vb', k) ->
  room_for vb (Z.of_nat (length input) + n) -> room_for vb' n.
Proof.
  intros Hvb Ho Hn Hbound Hi Hroom. pose proof Hvb as (Hok & Ht & Hmax). unfold pinsert in Hi.
  destruct (decide _) as [|Hne]; [simplify_eq; by apply (room_for_le vb' n (Z.of_nat (length input) + n)); [lia|]|].
  destruct (decide _) as [Hge|Hlt]; [by apply (pwrite_room blocks vb input offset true blocks' vb' k)|].
  destruct (pinsert_loop_spec blocks (f_buffers vb) offset input Hok) as (bufs' & o & Hl & _); [|lia|].
  { eapply Forall_impl; [exact Hroom|cbn; lia]. }
  rewrite Hl in Hi. cbn [result_bind] in Hi. simplify_eq. by eapply pinsert_loop_room.
Qed.

Lemma perase_loop_room bufs size offset bufs' e n : perase_loop bufs size offset = Ok (bufs', e) ->
  Forall (fun b => Z.of_nat (length (f_data b)) + n < 2 ^ 63) bufs ->
  Forall (fun b => Z.of_nat (length (f_data b)) + n < 2 ^ 63) bufs'.
Proof.
  revert size offset bufs' e. induction bufs as [|b bufs IH]; intros size offset bufs' e; cbn [perase_loop]; [by intros [= <- <-]|].
  intros Hl [Hb Hroom]%Forall_cons.
  assert (forall d, length d = length (f_data b) -> forall blk cap o sz bufs',
    Forall (fun b => Z.of_nat (length (f_data b)) + n < 2 ^ 63) bufs' ->
    Forall (fun b => Z.of_nat (length (f_data b)) + n < 2 ^ 63) (Vbuf blk d cap o sz :: bufs')) as Hcons.
  { intros d Hd blk cap o sz bufs1 Hr. constructor; [cbn [f_data]; lia|done]. }
  destruct (decide (size > 0)); [|simplify_eq; by constructor].
  destruct (decide (offset >= f_size b)).
  { destruct (perase_loop bufs _ _) as [[bufs1 e1]|] eqn:Hr; simplify_eq/=. constructor; [done|]. by eapply IH. }
  destruct (decide (offset + size >= f_size b)).
  { destruct (decide (offset = 0)).
    - destruct (perase_loop bufs _ _) as [[bufs1 e1]|] eqn:Hr; simplify_eq/=. by eapply IH.
    - destruct (perase_loop bufs _ _) as [[bufs1 e1]|] eqn:Hr; simplify_eq/=. apply Hcons; [done|]. by eapply IH. }
  destruct (decide (offset = 0)); destruct (f_block b); try done; simplify_eq/=; try by apply Hcons.
  all: destruct (read_at _ _ _) as [moved|]; [|done]; cbn [result_bind] in Hl.
  all: destruct (write_at _ _ _) as [data|] eqn:Hw; [|done]; simplify_eq/=; apply Hcons; [by eapply write_at_length|done].
Qed.

Lemma perase_room vb size offset vb' k n : perase vb size offset = Ok (vb', k) -> room_for vb n -> room_for vb' n.
Proof.
  unfold perase, room_for. intros He Hroom. destruct (decide _); [by simplify_eq|]. destruct (decide _); [by simplify_eq|].
  destruct (perase_loop _ _ _) as [[bufs e]|] eqn:Hl; [|done]. cbn [result_bind] in He. simplify_eq. by eapply perase_loop_room.
Qed.
End VirtualBufferCorrect.

(** ** Main theorems *)

(** The library of the examples: a copy has no spare room, an insertion doubles. *)
Definition example_copy_capacity (n : Z) : Z := n.
Definition example_insert_capacity (c n : Z) : Z := Z.max n (Z.min (2 * c) (2 ^ 62)).

#[export] Instance example_vector_laws : VectorLaws example_copy_capacity example_insert_capacity.
Proof. split; unfold example_copy_capacity, example_insert_capacity; intros; lia. Qed.

(** Two vectors, the second one with stale bytes and spare room. *)
Definition example_buffer : virtual_buffer :=
  VirtualBuffer [Vbuf None [1; 2; 3] 3 0 3; Vbuf None [4; 5; 6; 99] 8 0 3] 6 true.

(** C35: reading from a buffer of blocks and vectors never goes out of them; it
    returns the bytes of the sequence from the offset on, as many as there are up
    to the size, and it is refused exactly when all the bytes are required and the
    64-bit end of the range is past the end. *)
Theorem virtual_buffer_pread blocks vb size offset full :
  buffer_ok blocks vb -> 0 <= size -> 0 <= offset ->
  (full = true -> size <> 0 -> f_total_size vb < wrap 64 (offset + size) ->
   pread blocks vb size offset full = Throw invalid_size) /\
  (full = false \/ size = 0 \/ wrap 64 (offset + size) <= f_total_size vb ->
   let bytes := take (Z.to_nat size) (drop (Z.to_nat offset) (contents blocks (f_buffers vb))) in
   pread blocks vb size offset full = Ok (bytes, to_int (Z.of_nat (length bytes)))).
Proof.
  intros (Hok & _) Hs Ho. split.
  - intros -> Hnz Hlt. unfold pread, is_data_available. rewrite decide_False by done.
    rewrite bool_decide_eq_false_2 by lia. done.
  - intros Hcase bytes. unfold pread. destruct (decide (size = 0)) as [->|Hnz]; [done|].
    assert (full && negb (is_data_available vb offset size) = false) as ->.
    { unfold is_data_available. destruct Hcase as [-> | [?|?]]; [done|lia|].
      rewrite bool_decide_eq_true_2 by done. by destruct full. }
    by rewrite pread_loop_spec by (done || lia).
Qed.

Lemma virtual_buffer_pread_witness :
  pread {[ 7%nat := [0; 0; 10; 11; 12] ]} (VirtualBuffer [Vbuf None [1; 2] 2 0 2; Vbuf (Some 7%nat) [] 0 2 3] 5 false) 3 1 true
  = Ok ([2; 10; 11], 3).
Proof.
  assert (buffer_ok {[ 7%nat := [0; 0; 10; 11; 12] ]}
            (VirtualBuffer [Vbuf None [1; 2] 2 0 2; Vbuf (Some 7%nat) [] 0 2 3] 5 false)) as Hok.
  { split; [|split; vm_compute; reflexivity]. repeat constructor; vm_compute; intros [=]. }
  destruct (virtual_buffer_pread _ _ 3 1 true Hok ltac:(lia) ltac:(lia)) as [_ H].
  rewrite H; [reflexivity|]. right. right. vm_compute. intros [=].
Defined.

(** C36: writing to a buffer in memory: without growth, a range past the end is
    refused; otherwise all the bytes are written, over the bytes from the offset
    on and past the end when there are not enough of them (at the end when the
    offset itself is past it), nothing else changes, the buffer stays well formed
    and is marked as modified. *)
Theorem virtual_buffer_pwrite copy_capacity insert_capacity (laws : VectorLaws copy_capacity insert_capacity)
    blocks vb input offset allow_growth :
  memory_buffer blocks vb -> 0 <= offset -> input <> [] -> f_total_size vb + Z.of_nat (length input) < 2 ^ 63 ->
  let c := contents blocks (f_buffers vb) in
  (allow_growth = false -> f_total_size vb < wrap 64 (offset + Z.of_nat (length input)) ->
   pwrite copy_capacity blocks vb input offset allow_growth = Throw invalid_size) /\
  (allow_growth = true \/ wrap 64 (offset + Z.of_nat (length input)) <= f_total_size vb ->
   exists vb', pwrite copy_capacity blocks vb input offset allow_growth = Ok (blocks, vb', to_int (Z.of_nat (length input))) /\
     memory_buffer blocks vb' /\ f_modified vb' = true /\
     contents blocks (f_buffers vb') = take (Z.to_nat offset) c ++ input ++ drop (Z.to_nat offset + length input) c).
Proof.
  intros Hvb Ho Hin Hbound c. split.
  - intros -> Hlt. unfold pwrite, is_data_available. rewrite decide_False by (destruct input; [done|cbn; lia]).
    by rewrite bool_decide_eq_false_2 by lia.
  - intros Hcase. apply pwrite_value with insert_capacity; try done.
    destruct Hcase as [->|Hle]; [by left|right]. unfold is_data_available. by apply bool_decide_eq_true_2.
Qed.

Lemma virtual_buffer_pwrite_witness :
  exists vb', pwrite example_copy_capacity ∅ example_buffer [20; 21; 22; 23; 24; 25; 26; 27; 28; 29] 2 true = Ok (∅, vb', 10) /\
    contents ∅ (f_buffers vb') = [1; 2; 20; 21; 22; 23; 24; 25; 26; 27; 28; 29].
Proof.
  assert (memory_buffer ∅ example_buffer) as Hok by closed_decide.
  destruct (virtual_buffer_pwrite _ _ example_vector_laws ∅ example_buffer [20; 21; 22; 23; 24; 25; 26; 27; 28; 29] 2 true
    Hok ltac:(lia) ltac:(discriminate) ltac:(vm_compute; reflexivity)) as [_ H].
  destruct (H (or_introl eq_refl)) as (vb' & H1 & _ & _ & H2). exists vb'. split; [exact H1|]. rewrite H2. vm_compute. reflexivity.
Defined.

(** C37: inserting in a buffer in memory puts the bytes at the offset (at the end
    when the offset is past it); erasing removes the bytes of the range that
    exist and returns their number; both keep the buffer well formed. *)
Theorem virtual_buffer_insert_erase copy_capacity insert_capacity (laws : VectorLaws copy_capacity insert_capacity)
    blocks vb input size offset :
  memory_buffer blocks vb -> 0 <= offset -> 0 <= size -> input <> [] ->
  f_total_size vb + Z.of_nat (length input) < 2 ^ 63 -> room_for vb (Z.of_nat (length input)) ->
  let c := contents blocks (f_buffers vb) in
  (exists vb', pinsert copy_capacity insert_capacity blocks vb input offset = Ok (blocks, vb', to_int (Z.of_nat (length input))) /\
     memory_buffer blocks vb' /\ f_modified vb' = true /\
     contents blocks (f_buffers vb') = take (Z.to_nat offset) c ++ input ++ drop (Z.to_nat offset) c) /\
  (exists vb' n, perase vb size offset = Ok (vb', to_int n) /\ n = Z.max 0 (Z.min size (f_total_size vb - offset)) /\
     memory_buffer blocks vb' /\ (f_modified vb' = true <-> f_modified vb = true \/ n <> 0) /\
     contents blocks (f_buffers vb') = take (Z.to_nat offset) c ++ drop (Z.to_nat (offset + size)) c).
Proof.
  intros Hvb Ho Hs Hin Hbound Hroom c. split; [by apply pinsert_value|by apply perase_value].
Qed.

Lemma virtual_buffer_insert_erase_witness :
  exists vb' n, perase example_buffer 3 2 = Ok (vb', to_int n) /\ n = 3 /\ contents ∅ (f_buffers vb') = [1; 2; 6].
Proof.
  assert (memory_buffer ∅ example_buffer) as Hok by closed_decide.
  destruct (virtual_buffer_insert_erase _ _ example_vector_laws ∅ example_buffer [0] 3 2
    Hok ltac:(lia) ltac:(lia) ltac:(discriminate) ltac:(vm_compute; reflexivity) ltac:(closed_decide)) as [_ H].
  destruct H as (vb' & n & H1 & H2 & _ & _ & H3). exists vb', n. split; [exact H1|]. split; [rewrite H2; reflexivity|].
  rewrite H3. vm_compute. reflexivity.
Defined.

(** Shifting the end of a buffer in memory to the left by [n] bytes ends,
    drops the [n] bytes at the offset, moves what follows down and fills the end;
    the size does not change; shifting to the right is refused. *)
Theorem virtual_buffer_pshift copy_capacity insert_capacity (laws : VectorLaws copy_capacity insert_capacity)
    blocks vb n offset fill :
  memory_buffer blocks vb -> f_total_size vb + 4096 < 2 ^ 63 -> 0 < n -> 0 <= offset -> offset + n <= f_total_size vb ->
  let c := contents blocks (f_buffers vb) in
  pshift copy_capacity blocks vb n offset fill = Throw invalid_size /\
  exists vb', pshift copy_capacity blocks vb (- n) offset fill = Ok (blocks, vb', to_int (f_total_size vb - offset)) /\
    memory_buffer blocks vb' /\ f_total_size vb' = f_total_size vb /\
    contents blocks (f_buffers vb') = take (Z.to_nat offset) c ++ drop (Z.to_nat (offset + n)) c ++ replicate (Z.to_nat n) fill.
Proof.
  intros Hvb Hmax Hn Ho Hle c. split.
  - unfold pshift. rewrite decide_False by lia. by rewrite decide_True by lia.
  - destruct (pshift_value copy_capacity insert_capacity blocks vb n offset fill) as (vb' & ? & Hvb' & Hc'); [done..|].
    fold c in Hc'. exists vb'. split_and!; try done. pose proof Hvb as (_ & Ht & _). pose proof Hvb' as (_ & Ht' & _).
    fold c in Ht. rewrite Ht', Hc', !length_app, length_take, length_drop, length_replicate. lia.
Qed.

Lemma virtual_buffer_pshift_witness :
  exists vb', pshift example_copy_capacity ∅ example_buffer (-2) 1 0 = Ok (∅, vb', 5) /\
    contents ∅ (f_buffers vb') = [1; 4; 5; 6; 0; 0].
Proof.
  assert (memory_buffer ∅ example_buffer) as Hok by closed_decide.
  destruct (virtual_buffer_pshift _ _ example_vector_laws ∅ example_buffer 2 1 0
    Hok ltac:(vm_compute; reflexivity) ltac:(lia) ltac:(lia) ltac:(vm_compute; discriminate)) as (_ & vb' & H1 & _ & _ & H2).
  exists vb'. split; [exact H1|]. rewrite H2. vm_compute. reflexivity.
Defined.

(** A file is loaded only in a new object, whose sequence it becomes; the
    object is saved only when it was modified, and then the file receives exactly
    the sequence of bytes and the object is no longer modified. *)
Theorem virtual_buffer_files copy_capacity insert_capacity (laws : VectorLaws copy_capacity insert_capacity)
    blocks vb file required :
  memory_buffer blocks vb -> Z.of_nat (length (default [] file)) < 2 ^ 63 ->
  (f_modified vb = true \/ f_buffers vb <> [] -> load_file copy_capacity vb file required = Throw logic_error) /\
  (f_modified vb = false -> f_buffers vb = [] ->
   match file with
   | None => load_file copy_capacity vb file required = (if required then Throw file_not_found else Ok vb)
   | Some data => exists vb', load_file copy_capacity vb file required = Ok vb' /\ memory_buffer blocks vb' /\
                              contents blocks (f_buffers vb') = data /\ size vb' = Z.of_nat (length data)
   end) /\
  exists vb', save_file vb = Ok (if f_modified vb then Some (contents blocks (f_buffers vb)) else None, vb') /\
    f_modified vb' = false /\ memory_buffer blocks vb' /\ contents blocks (f_buffers vb') = contents blocks (f_buffers vb).
Proof.
  intros Hvb Hfile. pose proof Hvb as (Hok & Ht & Hmax). unfold load_file. split; [|split].
  - intros [-> |Hne]; [done|]. rewrite bool_decide_eq_false_2 by done. by rewrite orb_true_r.
  - intros -> Hnil. rewrite Hnil. rewrite bool_decide_eq_true_2 by done. cbn [orb negb app].
    destruct file as [data|]; [|done]. cbn [default] in Hfile. change (default [] (Some data)) with data in Hfile.
    destruct (new_vbuf_ok copy_capacity insert_capacity blocks data Hfile) as [Hnew Hnewc].
    eexists. split; [reflexivity|]. unfold memory_buffer, contents. cbn [f_buffers f_total_size fmap list_fmap concat].
    rewrite Hnewc, app_nil_r. split_and!; [by constructor|done..].
  - unfold save_file. destruct (f_modified vb) eqn:Hm; cbn [negb]; [|by exists vb].
    rewrite (save_loop_spec blocks) by done. cbn [result_bind]. by eexists.
Qed.

Lemma virtual_buffer_files_witness : exists vb', save_file example_buffer = Ok (Some [1; 2; 3; 4; 5; 6], vb').
Proof.
  assert (memory_buffer ∅ example_buffer) as Hok by closed_decide.
  destruct (virtual_buffer_files _ _ example_vector_laws ∅ example_buffer None false Hok ltac:(vm_compute; reflexivity))
    as (_ & _ & vb' & H & _). exists vb'. exact H.
Defined.

(** A write in a piece of a block ignores [f_offset], that a read adds: what was
    written is not what is read back. *)
Lemma pwrite_in_block_misplaced :
  let blocks : block_store := {[ 7%nat := [0; 0; 10; 11; 12] ]} in
  let vb := VirtualBuffer [Vbuf (Some 7%nat) [] 0 2 3] 3 false in
  exists blocks' vb', pwrite example_copy_capacity blocks vb [99] 0 false = Ok (blocks', vb', 1) /\
    blocks' !! 7%nat = Some [99; 0; 10; 11; 12] /\ pread blocks' vb' 1 0 true = Ok ([10], 1).
Proof. eexists _, _. split; [vm_compute; reflexivity|]. split; vm_compute; reflexivity. Qed.
