(* ===== verification/Input.v ===== *)
(** * Characters of a script, with their location (prinbee/pbql/input.cpp and
    prinbee/pbql/location.cpp)

    The UTF-8 decoder is the libutf8 library: the model starts from the sequence
    of code points it produces, and takes the value [EOS] it returns at the end
    as a parameter, which is only assumed not to be a code point of a script.

    An input is the code points that were not read yet, the characters that were
    put back (the last one first), and the location of the reader.  [stream] is
    what the input still gives: a client sees a sequence of characters whose new
    lines are all [\n]. *)

From S2P Require Import Prelude.

Record location := Location { f_filename : list Z; f_line : Z; f_column : Z }.

#[export] Instance location_eq_dec : EqDecision location.
Proof. solve_decision. Defined.

Definition next_column (l : location) : location := Location (f_filename l) (f_line l) (f_column l + 1).
Definition next_line (l : location) : location := Location (f_filename l) (f_line l + 1) 1.

Record input := Input { f_input : list Z; f_location : location; f_ungetc : list Z }.

#[export] Instance input_eq_dec : EqDecision input.
Proof. solve_decision. Defined.

Definition input_init (script filename : list Z) : input := Input script (Location filename 1 1) [].

(** What the code relies on: the end marker is not a character of a script. *)
Class EndOfScript (EOS : Z) : Prop := { eos_not_character : EOS <= 0 \/ 0x10FFFF < EOS }.

Section Input.
Context (EOS : Z).

Definition getc (i : input) : Z * input :=
  match f_ungetc i with
  | c :: ungetc => (c, Input (f_input i) (f_location i) ungetc)
  | [] =>
      let c := default EOS (head (f_input i)) in
      let loc := if decide (c <> EOS) then next_column (f_location i) else f_location i in
      let rest := tail (f_input i) in
      let '(c, rest) :=
        if decide (c = CR)
        then
          let c := default EOS (head rest) in
          if decide (c = LF) then (c, tail rest) else (LF, rest)
        else (c, rest) in
      let loc := if decide (c = LF) then next_line loc else loc in
      (c, Input rest loc [])
  end.

(** [f_ungetc] holds three characters. *)
Definition ungetc (i : input) (c : Z) : result input :=
  if decide (c = EOS) then Ok i
  else if decide (3 <= length (f_ungetc i))%nat then Throw out_of_range
  else Ok (Input (f_input i) (f_location i) (c :: f_ungetc i)).

(** ** The sequence of characters an input gives *)

(** The two-character and the one-character line ends become [LF]. *)
Fixpoint newlines (l : list Z) : list Z :=
  match l with
  | [] => []
  | c :: l =>
      if decide (c = CR)
      then LF :: match l with
                 | d :: l' => if decide (d = LF) then newlines l' else newlines l
                 | [] => []
                 end
      else c :: newlines l
  end.

Definition stream (i : input) : list Z := f_ungetc i ++ newlines (f_input i).

(** [i] still gives the characters [s], of which at most [n] were put back. *)
Record gives (n : nat) (i : input) (s : list Z) : Prop := {
  gives_stream : stream i = s;
  gives_depth : (length (f_ungetc i) <= n)%nat;
  gives_input : EOS ∉ f_input i;
  gives_ungetc : EOS ∉ f_ungetc i;
}.

Context {eos : EndOfScript EOS}.

Lemma eos_char c : 0 < c <= 0x10FFFF -> c <> EOS.
Proof. pose proof eos_not_character. lia. Qed.

Lemma gives_init script filename : EOS ∉ script -> gives 0 (input_init script filename) (newlines script).
Proof. intros. split; try done. apply not_elem_of_nil. Qed.

Lemma gives_weaken n m i s : (n <= m)%nat -> gives n i s -> gives m i s.
Proof. intros ? []. split; auto. lia. Qed.

Lemma newlines_length l : (length (newlines l) <= length l)%nat.
Proof.
  induction l as [l IH] using (induction_ltof1 _ length). unfold ltof in IH.
  destruct l as [|c l]; [done|]. cbn [newlines]. destruct (decide (c = CR)).
  - destruct l as [|d l]; [done|]. destruct (decide (d = LF)).
    + specialize (IH l). cbn [length] in *. lia.
    + specialize (IH (d :: l)). cbn [length] in *. lia.
  - specialize (IH l). cbn [length] in *. lia.
Qed.

Lemma newlines_elem c l : c ∈ newlines l -> c = LF \/ c ∈ l.
Proof.
  induction l as [l IH] using (induction_ltof1 _ length). unfold ltof in IH.
  destruct l as [|a l]; [auto|]. cbn [newlines]. destruct (decide (a = CR)) as [->|].
  - intros [->|H]%elem_of_cons; [auto|]. destruct l as [|d l]; [by apply not_elem_of_nil in H|].
    destruct (decide (d = LF)).
    + destruct (IH l) as [|]; [cbn; lia|done|auto|]. right. do 2 apply list_elem_of_further. done.
    + destruct (IH (d :: l)) as [|]; [cbn; lia|done|auto|]. right. by apply list_elem_of_further.
  - intros [->|H]%elem_of_cons; [right; apply elem_of_cons; auto|].
    destruct (IH l) as [|]; [cbn; lia|done|auto|]. right. by apply list_elem_of_further.
Qed.

(** The characters left in the script bound what the input gives. *)
Definition input_size (i : input) : nat := length (f_ungetc i) + length (f_input i).

Lemma stream_size n i s : gives n i s -> (length s <= input_size i)%nat.
Proof.
  intros [<- _ _ _]. unfold stream, input_size. rewrite length_app.
  pose proof (newlines_length (f_input i)). lia.
Qed.

Lemma gives_not_eos n i s c : gives n i s -> c ∈ s -> c <> EOS.
Proof.
  intros [<- _ Hi Hu] [Hin|Hin]%elem_of_app ->; [done|].
  apply newlines_elem in Hin as [Hl|Hin]; [|done]. pose proof (eos_char LF ltac:(lia)). congruence.
Qed.

Lemma getc_gives n i s : gives n i s ->
  fst (getc i) = default EOS (head s) /\ gives (n - 1) (snd (getc i)) (tail s).
Proof.
  intros [<- Hd Hi Hu]. unfold stream, getc. destruct (f_ungetc i) as [|c u] eqn:E.
  2:{ apply not_elem_of_cons in Hu as [_ Hu]. cbn in *. split; [done|]. split; cbn; auto. lia. }
  cbn [app]. destruct (f_input i) as [|c rest]; cbn [head tail default from_option id].
  { rewrite (decide_False (P := EOS <> EOS)) by congruence. rewrite (decide_False (P := EOS = CR)) by (pose proof (eos_char CR); lia).
    rewrite (decide_False (P := EOS = LF)) by (pose proof (eos_char LF); lia).
    cbn. split; [done|]. split; cbn; auto; lia. }
  apply not_elem_of_cons in Hi as [Hc Hr]. cbn [newlines]. destruct (decide (c = CR)) as [->|Hcr].
  2:{ cbn. split; [done|]. split; cbn; auto; lia. }
  destruct rest as [|d rest]; cbn [head tail default from_option id].
  { rewrite (decide_False (P := EOS = LF)) by (pose proof (eos_char LF); lia).
    split; [done|]. split; cbn; auto; lia. }
  apply not_elem_of_cons in Hr as Hr'. destruct (decide (d = LF)) as [->|].
  all: split; [done|]; split; cbn; try done; try lia; try tauto; apply not_elem_of_nil.
Qed.

Lemma ungetc_gives n i s c : gives n i s -> c <> EOS -> (n < 3)%nat ->
  exists i', ungetc i c = Ok i' /\ gives (S n) i' (c :: s).
Proof.
  intros [<- Hd Hi Hu] Hc Hn. unfold ungetc. rewrite decide_False by done.
  rewrite decide_False by lia. eexists. split; [done|]. split; cbn; auto; [lia|].
  by apply not_elem_of_cons.
Qed.

(** Putting back the character that was just read. *)
Lemma getc_ungetc n i s : gives n i s -> (n <= 3)%nat ->
  exists i', ungetc (snd (getc i)) (fst (getc i)) = Ok i' /\ gives (Nat.max 1 n) i' s.
Proof.
  intros Hg Hn. destruct (getc_gives n i s Hg) as [-> Hg'].
  destruct s as [|c s]; cbn [head tail default from_option id] in *.
  - unfold ungetc. rewrite decide_True by done. eexists. split; [done|].
    eapply gives_weaken; [|done]. lia.
  - destruct (ungetc_gives _ _ _ c Hg' ltac:(by eapply gives_not_eos; [|left]) ltac:(lia)) as (i' & -> & Hi').
    eexists. split; [done|]. eapply gives_weaken; [|done]. lia.
Qed.
End Input.
