(* ===== verification/LongDouble.v ===== *)
(** * Extended precision numbers, as strtold() reads them

    The [long double] of the platform is the 80-bit extended format: a
    significand of 64 bits and an exponent.  [strtold] is the Standard C function
    on the texts the lexer builds: decimal digits, a period, decimal digits and
    an optional exponent; it rounds to the nearest number, to the even one when
    two are as close.  [None] is the case where the lexer rejects the text:
    [errno] is [ERANGE], or a character is left unread. *)

From S2P Require Import Prelude.

(** [LongDouble m e] is m * 2 ^ e. *)
Record long_double := LongDouble { ld_significand : Z; ld_exponent : Z }.

#[export] Instance long_double_eq_dec : EqDecision long_double.
Proof. solve_decision. Defined.

Definition long_double_zero : long_double := LongDouble 0 0.

(** The unit of the last place of the quotient [p / q]: 64 bits of significand,
    less below the least normal number. *)
Definition unit_exponent (p q : Z) : Z :=
  let k := Z.log2 p - Z.log2 q in
  let k := if decide (p * 2 ^ Z.max 0 (- k) < q * 2 ^ Z.max 0 k) then k - 1 else k in
  Z.max (k - 63) (-16445).

(** The quotient to the nearest, to even. *)
Definition div_nearest (a b : Z) : Z :=
  let m := a / b in
  let r := a mod b in
  if decide (2 * r < b) then m
  else if decide (b < 2 * r) then m + 1
  else if Z.even m then m else m + 1.

Definition long_double_of_quotient (p q : Z) : option long_double :=
  if decide (p = 0) then Some long_double_zero
  else
    let e := unit_exponent p q in
    let a := p * 2 ^ Z.max 0 (- e) in
    let b := q * 2 ^ Z.max 0 e in
    let m := div_nearest a b in
    if decide (2 ^ 16384 <= m * 2 ^ e) then None
    else if decide (e = -16445 /\ m < 2 ^ 63 /\ a mod b <> 0) then None
    else Some (LongDouble m e).

Definition is_decimal (c : Z) : bool := bool_decide ((chr: "0") <= c <= (chr: "9")).

Definition decimal_value (s : list Z) : Z := horner 10 ((fun c => c - (chr: "0")) <$> s).

(** The exponent, and whether the whole text was read. *)
Definition read_exponent (s : list Z) : option Z :=
  match s with
  | [] => Some 0
  | c :: s =>
      if decide (c = (chr: "e") \/ c = (chr: "E"))
      then
        let '(neg, s) :=
          match s with
          | c :: s' => if decide (c = (chr: "-")) then (true, s') else if decide (c = (chr: "+")) then (false, s') else (false, s)
          | [] => (false, [])
          end in
        match span is_decimal s with
        | (d :: ds, []) => Some (if neg : bool then - decimal_value (d :: ds) else decimal_value (d :: ds))
        | _ => None
        end
      else None
  end.

Definition strtold (text : list Z) : option long_double :=
  let '(whole, s) := span is_decimal text in
  match s with
  | c :: s =>
      if decide (c = (chr: "."))
      then
        let '(fraction, s) := span is_decimal s in
        e ← read_exponent s;
        let m := decimal_value (whole ++ fraction) in
        let e := e - Z.of_nat (length fraction) in
        long_double_of_quotient (m * 10 ^ Z.max 0 e) (10 ^ Z.max 0 (- e))
      else None
  | [] => None
  end.

Example strtold_1 : strtold (str: "3.75") = Some (LongDouble (15 * 2 ^ 60) (-62)).
Proof. vm_compute. reflexivity. Qed.

Example strtold_2 : strtold (str: "0.1e1") = Some (LongDouble (2 ^ 63) (-63)).
Proof. vm_compute. reflexivity. Qed.

Example strtold_3 : strtold (str: "1.5e+") = None.
Proof. vm_compute. reflexivity. Qed.

Example strtold_4 : strtold (str: "0.1") = Some (LongDouble 0xcccccccccccccccd (-67)).
Proof. vm_compute. reflexivity. Qed.

(** ** The rounding is to the nearest *)

Lemma div_nearest_error a b : 0 < b -> 0 <= a -> - b <= 2 * (a - div_nearest a b * b) <= b.
Proof.
  intros Hb Ha. unfold div_nearest. pose proof (Z.div_mod a b ltac:(lia)). pose proof (Z.mod_pos_bound a b Hb).
  repeat (destruct (decide _)); [nia|nia|]. destruct (Z.even (a / b)); nia.
Qed.

(** The value of the result, over a common denominator: within half a unit. *)
Lemma long_double_of_quotient_error p q r : 0 <= p -> 0 < q -> long_double_of_quotient p q = Some r ->
  let e := ld_exponent r in
  0 <= ld_significand r /\
  Z.abs (p * 2 ^ Z.max 0 (- e) - ld_significand r * (q * 2 ^ Z.max 0 e)) * 2 <= q * 2 ^ Z.max 0 e.
Proof.
  intros Hp Hq. unfold long_double_of_quotient. destruct (decide (p = 0)) as [->|Hnz].
  { intros [= <-]. cbn. lia. }
  set (e := unit_exponent p q). cbv zeta. do 2 (destruct (decide _) as [|_]; [done|]). intros [= <-]. cbn.
  assert (0 < 2 ^ Z.max 0 e) by (apply pow2_pos; lia).
  assert (0 < 2 ^ Z.max 0 (- e)) by (apply pow2_pos; lia).
  pose proof (div_nearest_error (p * 2 ^ Z.max 0 (- e)) (q * 2 ^ Z.max 0 e) ltac:(nia) ltac:(nia)).
  split; [|lia]. unfold div_nearest. pose proof (Z.div_pos (p * 2 ^ Z.max 0 (- e)) (q * 2 ^ Z.max 0 e) ltac:(nia) ltac:(nia)).
  repeat (destruct (decide _)); try lia. destruct (Z.even _); lia.
Qed.
