(* ===== verification/Lexer.v ===== *)
(** * The lexer of the query language (prinbee/pbql/lexer.cpp)

    [get_next_token] is the method of that name; its loops are the functions
    above it, each with the input as a state.  A loop takes a fuel; every turn
    reads a character, so that one more than the number of characters left is
    enough ([lexer_total]).  The gotos that enter the parsing of strings and of
    numbers from a letter followed by a quote are calls of the same functions.

    The tests of hexadecimal digits (snapdev) and the encoding of a character as
    UTF-8 (libutf8) are parameters. *)

From S2P Require Import Prelude Limbs BigLoops Uint512 Int512 BigText Input LongDouble.

(** ** Tokens and nodes (prinbee/pbql/node.h) *)

Definition TOKEN_EOF := -1.
Definition TOKEN_MINUS := (chr: "-").
Definition TOKEN_DIVIDE := (chr: "/").
Definition TOKEN_COLON := (chr: ":").
Definition TOKEN_LESS := (chr: "<").
Definition TOKEN_GREATER := (chr: ">").
Definition TOKEN_BITWISE_OR := (chr: "|").
Definition TOKEN_IDENTIFIER := 1001.
Definition TOKEN_STRING := 1002.
Definition TOKEN_INTEGER := 1003.
Definition TOKEN_FLOATING_POINT := 1004.
Definition TOKEN_NOT_EQUAL := 1005.
Definition TOKEN_LESS_EQUAL := 1006.
Definition TOKEN_GREATER_EQUAL := 1007.
Definition TOKEN_SQUARE_ROOT := 1008.
Definition TOKEN_CUBE_ROOT := 1009.
Definition TOKEN_SCOPE := 1010.
Definition TOKEN_SHIFT_LEFT := 1011.
Definition TOKEN_SHIFT_RIGHT := 1012.
Definition TOKEN_UNMATCHED_REGULAR_EXPRESSION := 1013.
Definition TOKEN_STRING_CONCAT := 1014.

(** The members the lexer sets. *)
Record node := Node {
  f_token : Z;
  f_node_location : location;
  f_string : list Z;
  f_integer : int512_t;
  f_floating_point : long_double;
}.

(** The members of a new node. *)
Definition node_of_token (token : Z) (l : location) : node := Node token l [] int512_zero long_double_zero.

(** The tokens of the parser come after those of the lexer, up to [TOKEN_TYPE]. *)
Definition TOKEN_TYPE := 1029.

Definition valid_token (token : Z) : bool :=
  bool_decide (token = TOKEN_EOF \/ token ∈ (str: "#%&()*+,-./:;=@[]^|~<>")
    \/ TOKEN_IDENTIFIER <= token <= TOKEN_TYPE).

(** The constructor refuses the other tokens. *)
Definition new_node (token : Z) (l : location) : result node :=
  if valid_token token then Ok (node_of_token token l) else Throw invalid_token.

Definition set_string (n : node) (s : list Z) : node :=
  Node (f_token n) (f_node_location n) s (f_integer n) (f_floating_point n).
Definition set_integer (n : node) (i : int512_t) : node :=
  Node (f_token n) (f_node_location n) (f_string n) i (f_floating_point n).
Definition set_floating_point (n : node) (d : long_double) : node :=
  Node (f_token n) (f_node_location n) (f_string n) (f_integer n) d.

(** ** Classes of characters *)

Definition is_space (c : Z) : bool := bool_decide (c ∈ [(chr: " "); LF; HT; FF; VT]).
Definition is_single (c : Z) : bool := bool_decide (c ∈ (str: "%&()[]*+,.;@^=~")).
Definition is_octal (c : Z) : bool := bool_decide ((chr: "0") <= c <= (chr: "7")).
Definition is_letter (c : Z) : bool :=
  bool_decide ((chr: "a") <= c <= (chr: "z") \/ (chr: "A") <= c <= (chr: "Z") \/ c = (chr: "_")).
Definition is_identifier_char (c : Z) : bool := is_letter c || is_decimal c.
(** Either case of a letter. *)
Definition is_either (a b c : Z) : bool := bool_decide (c = a \/ c = b).

(** One turn of the main loop returns a node or skips what it read. *)
Inductive step : Type :=
  | Token (n : node) (i : input)
  | Skip (i : input).

(** The inner loops of a C-like comment either reach its end or go on. *)
Inductive comment_step : Type :=
  | FoundEnd (i : input)
  | Continue (count c : Z) (i : input).

Section Lexer.
Context (EOS : Z) (is_hexdigit : Z -> bool) (hexdigit_to_number : Z -> Z) (to_u8string : Z -> result (list Z)).

(** ** Comments *)

(** Up to the end of the line. *)
Fixpoint skip_line (fuel : nat) (i : input) : result input :=
  match fuel with
  | O => Throw fuel_exhausted
  | S fuel =>
      let '(c, i) := getc EOS i in
      if decide (c = LF \/ c = EOS) then Ok i else skip_line fuel i
  end.

(** The lines that start with a [#], when the first one does. *)
Fixpoint skip_hash_lines (fuel : nat) (i : input) : result input :=
  match fuel with
  | O => Throw fuel_exhausted
  | S fuel =>
      let! i := skip_line fuel i in
      let '(c, i) := getc EOS i in
      if decide (c = (chr: "#")) then skip_hash_lines fuel i else ungetc EOS i c
  end.

(** [while(c == '*')] *)
Fixpoint closing_loop (fuel : nat) (count c : Z) (i : input) : result comment_step :=
  if decide (c = (chr: "*"))
  then
    match fuel with
    | O => Throw fuel_exhausted
    | S fuel =>
        let '(c, i) := getc EOS i in
        if decide (c = (chr: "/"))
        then
          let count := count - 1 in
          if decide (count = 0) then Ok (FoundEnd i)
          else let '(c, i) := getc EOS i in closing_loop fuel count c i
        else closing_loop fuel count c i
    end
  else Ok (Continue count c i).

(** [while(c == '/')] *)
Fixpoint opening_loop (fuel : nat) (count c : Z) (i : input) : result (Z * Z * input) :=
  if decide (c = (chr: "/"))
  then
    match fuel with
    | O => Throw fuel_exhausted
    | S fuel =>
        let '(c, i) := getc EOS i in
        if decide (c = (chr: "*"))
        then let '(c, i) := getc EOS i in opening_loop fuel (count + 1) c i
        else opening_loop fuel count c i
    end
  else Ok (count, c, i).

Fixpoint comment_loop (fuel : nat) (count : Z) (i : input) : result input :=
  match fuel with
  | O => Throw fuel_exhausted
  | S fuel =>
      let '(c, i) := getc EOS i in
      let! r := closing_loop fuel count c i in
      match r with
      | FoundEnd i => Ok i
      | Continue count c i =>
          let! '(count, c, i) := opening_loop fuel count c i in
          if decide (c = EOS) then Throw invalid_token else comment_loop fuel count i
      end
  end.

(** ** Strings *)

(** The digits of a hexadecimal escape; [n] more are allowed. *)
Fixpoint hex_char_loop (n : nat) (c idx : Z) (i : input) : result (Z * Z * input) :=
  match n with
  | O => Ok (c, idx, i)
  | S n =>
      let '(d, i) := getc EOS i in
      if is_hexdigit d
      then hex_char_loop n (wrap 32 (wrap 32 (Z.shiftl c 4) + hexdigit_to_number d)) (idx + 1) i
      else let! i := ungetc EOS i d in Ok (c, idx, i)
  end.

Definition parse_hex_char (count : Z) (i : input) : result (Z * input) :=
  let! '(c, idx, i) := hex_char_loop (Z.to_nat count) 0 0 i in
  if decide (idx <> count /\ (idx <> 1 \/ count <> 2)) then Throw invalid_token else Ok (c, i).

(** Up to two more octal digits. *)
Definition parse_octal_char (c : Z) (i : input) : result (Z * input) :=
  let c := c - (chr: "0") in
  let '(d, i) := getc EOS i in
  if is_octal d
  then
    let c := Z.shiftl c 3 + (d - (chr: "0")) in
    let '(d, i) := getc EOS i in
    if is_octal d then Ok (Z.shiftl c 3 + (d - (chr: "0")), i)
    else let! i := ungetc EOS i d in Ok (c, i)
  else let! i := ungetc EOS i d in Ok (c, i).

(** [append_unicode] *)
Definition append_unicode (s : list Z) (c : Z) : result (list Z) :=
  if decide (c = 0) then Throw unexpected_token
  else let! u := to_u8string c in Ok (s ++ u).

(** What follows a backslash, and the string with it.  [s += c] keeps the low
    byte of the character. *)
Definition parse_escape (s : list Z) (i : input) : result (list Z * input) :=
  let '(c, i) := getc EOS i in
  if decide (c = (chr: "b")) then Ok (s ++ [BS], i)
  else if decide (c = (chr: "f")) then Ok (s ++ [FF], i)
  else if decide (c = (chr: "n")) then Ok (s ++ [LF], i)
  else if decide (c = (chr: "r")) then Ok (s ++ [CR], i)
  else if decide (c = (chr: "t")) then Ok (s ++ [HT], i)
  else if is_octal c then
    let! '(c, i) := parse_octal_char c i in
    let! s := append_unicode s c in Ok (s, i)
  else if is_either (chr: "x") (chr: "X") c || bool_decide (c = (chr: "u")) || bool_decide (c = (chr: "U")) then
    let count := if decide (c = (chr: "u")) then 4 else if decide (c = (chr: "U")) then 8 else 2 in
    let! '(c, i) := parse_hex_char count i in
    let! s := append_unicode s c in Ok (s, i)
  else Ok (s ++ [wrap 8 c], i).

(** The rest of a turn for a character [c] that does not end the string;
    [continue] is the next turn. *)
Definition string_char (continue : list Z -> input -> result (list Z * input)) (escape_string : bool) (s : list Z) (c : Z) (i : input) : result (list Z * input) :=
  if decide (c = EOS) then Throw invalid_token
  else if decide (c = LF) then Throw invalid_token
  else if escape_string && bool_decide (c = BACKSLASH)
  then let! '(s, i) := parse_escape s i in continue s i
  else continue (s ++ [wrap 8 c]) i.

(** [parse_string], after the opening quote *)
Fixpoint parse_string (fuel : nat) (escape_string : bool) (s : list Z) (i : input) : result (list Z * input) :=
  match fuel with
  | O => Throw fuel_exhausted
  | S fuel =>
      let '(c, i) := getc EOS i in
      if decide (c = QUOTE)
      then
        let '(c, i) := getc EOS i in
        if decide (c <> QUOTE)
        then let! i := ungetc EOS i c in Ok (s, i)
        else string_char (parse_string fuel escape_string) escape_string s c i
      else string_char (parse_string fuel escape_string) escape_string s c i
  end.

(** ** Numbers *)

(** The end of a number: a number in quotes takes the closing one, otherwise the
    character is left in the input. *)
Definition number_end (number_string found : bool) (value : uint512_t) (c : Z) (i : input) : result (uint512_t * input) :=
  if number_string
  then
    if decide (c <> QUOTE) then Throw invalid_number
    else if found then Ok (value, i) else Throw invalid_number
  else
    let! i := ungetc EOS i c in
    if found then Ok (value, i) else Throw invalid_number.

Fixpoint parse_binary_number (fuel : nat) (number_string found : bool) (value : uint512_t) (i : input) : result (uint512_t * input) :=
  match fuel with
  | O => Throw fuel_exhausted
  | S fuel =>
      let '(c, i) := getc EOS i in
      if decide (c = (chr: "0")) then
        let! value := uint512_mul_assign_u64 value 2 in
        parse_binary_number fuel number_string true value i
      else if decide (c = (chr: "1")) then
        let! value := uint512_mul_assign_u64 value 2 in
        parse_binary_number fuel number_string true (uint512_add_assign_u64 value 1) i
      else if decide ((chr: "2") <= c <= (chr: "9")) then Throw invalid_number
      else number_end number_string found value c i
  end.

Fixpoint parse_hexadecimal_number (fuel : nat) (number_string found : bool) (value : uint512_t) (i : input) : result (uint512_t * input) :=
  match fuel with
  | O => Throw fuel_exhausted
  | S fuel =>
      let '(c, i) := getc EOS i in
      if is_hexdigit c then
        let! value := uint512_mul_assign_u64 value 16 in
        parse_hexadecimal_number fuel number_string true
          (uint512_add_assign_u64 value (wrap 64 (hexdigit_to_number c))) i
      else number_end number_string found value c i
  end.

Fixpoint parse_octal_number (fuel : nat) (number_string found : bool) (value : uint512_t) (i : input) : result (uint512_t * input) :=
  match fuel with
  | O => Throw fuel_exhausted
  | S fuel =>
      let '(c, i) := getc EOS i in
      if is_octal c then
        let! value := uint512_mul_assign_u64 value 8 in
        parse_octal_number fuel number_string true (uint512_add_assign_u64 value (wrap 64 (c - (chr: "0")))) i
      else if decide (c = (chr: "8") \/ c = (chr: "9")) then Throw invalid_number
      else number_end number_string found value c i
  end.

(** The digits of a decimal number; the character that ends them is returned. *)
Fixpoint decimal_loop (fuel : nat) (value : uint512_t) (i : input) : result (uint512_t * Z * input) :=
  match fuel with
  | O => Throw fuel_exhausted
  | S fuel =>
      let '(c, i) := getc EOS i in
      if is_decimal c then
        let! value := uint512_mul_assign_u64 value 10 in
        decimal_loop fuel (uint512_add_assign_u64 value (wrap 64 (c - (chr: "0")))) i
      else Ok (value, c, i)
  end.

(** The digits from [c] on are added to [number]. *)
Fixpoint digits_loop (fuel : nat) (number : list Z) (c : Z) (i : input) : result (list Z * Z * input) :=
  if is_decimal c
  then
    match fuel with
    | O => Throw fuel_exhausted
    | S fuel => let '(d, i) := getc EOS i in digits_loop fuel (number ++ [c]) d i
    end
  else Ok (number, c, i).

(** What follows the period. *)
Definition parse_floating_point (fuel : nat) (l : location) (value : uint512_t) (i : input) : result step :=
  let! number := uint512_to_string value 10 false false in
  let '(c, i) := getc EOS i in
  let! '(number, c, i) := digits_loop fuel (number ++ (str: ".")) c i in
  let! '(number, c, i) :=
    if is_either (chr: "e") (chr: "E") c
    then
      let number := number ++ (str: "e") in
      let '(c, i) := getc EOS i in
      if is_either (chr: "+") (chr: "-") c
      then let '(d, i) := getc EOS i in digits_loop fuel (number ++ [c]) d i
      else digits_loop fuel number c i
    else Ok (number, c, i) in
  let! i := ungetc EOS i c in
  let! n := new_node TOKEN_FLOATING_POINT l in
  match strtold number with
  | Some fp => Ok (Token (set_floating_point n fp) i)
  | None => Throw invalid_number
  end.

Definition integer_token (l : location) (r : result (uint512_t * input)) : result step :=
  let! '(value, i) := r in
  let! n := new_node TOKEN_INTEGER l in
  Ok (Token (set_integer n (int512_of_uint512 value)) i).

Definition string_token (l : location) (r : result (list Z * input)) : result step :=
  let! '(s, i) := r in
  let! n := new_node TOKEN_STRING l in
  Ok (Token (set_string n s) i).

(** The digits and, after a period, the rest of a floating point number. *)
Definition parse_decimal_number (fuel : nat) (l : location) (c : Z) (i : input) : result step :=
  let! '(value, c, i) := decimal_loop fuel (uint512_of_u64 (c - (chr: "0"))) i in
  if decide (c = (chr: "."))
  then parse_floating_point fuel l value i
  else
    let! i := ungetc EOS i c in
    let! n := new_node TOKEN_INTEGER l in
    Ok (Token (set_integer n (int512_of_uint512 value)) i).

(** [case '0'] to [case '9'] *)
Definition parse_number (fuel : nat) (l : location) (c : Z) (i : input) : result step :=
  if decide (c = (chr: "0"))
  then
    let '(c, i) := getc EOS i in
    if is_either (chr: "b") (chr: "B") c then integer_token l (parse_binary_number fuel false false uint512_zero i)
    else if is_either (chr: "x") (chr: "X") c then integer_token l (parse_hexadecimal_number fuel false false uint512_zero i)
    else if is_either (chr: "o") (chr: "O") c then integer_token l (parse_octal_number fuel false false uint512_zero i)
    else let! i := ungetc EOS i c in parse_decimal_number fuel l (chr: "0") i
  else parse_decimal_number fuel l c i.

(** ** Identifiers *)

(** [do ... while]: [c] is a letter, the loop returns the first character that
    cannot be part of an identifier. *)
Fixpoint identifier_loop (fuel : nat) (identifier : list Z) (c : Z) (i : input) : result (list Z * Z * input) :=
  match fuel with
  | O => Throw fuel_exhausted
  | S fuel =>
      let identifier := identifier ++ [c] in
      let '(c, i) := getc EOS i in
      if is_identifier_char c then identifier_loop fuel identifier c i else Ok (identifier, c, i)
  end.

Definition parse_identifier (fuel : nat) (l : location) (c : Z) (i : input) : result step :=
  if is_letter c
  then
    let! '(identifier, c, i) := identifier_loop fuel [] c i in
    let! i := ungetc EOS i c in
    let! n := new_node TOKEN_IDENTIFIER l in
    Ok (Token (set_string n identifier) i)
  else let! _ := to_u8string c in Throw unexpected_token.

(** The [default] case: the letters that introduce a quoted number or a string
    with escapes. *)
Definition parse_other (fuel : nat) (l : location) (c : Z) (i : input) : result step :=
  if is_either (chr: "b") (chr: "B") c || is_either (chr: "e") (chr: "E") c
     || is_either (chr: "o") (chr: "O") c || is_either (chr: "x") (chr: "X") c
  then
    let '(quote, i) := getc EOS i in
    if decide (quote = QUOTE)
    then
      if is_either (chr: "b") (chr: "B") c then integer_token l (parse_binary_number fuel true false uint512_zero i)
      else if is_either (chr: "e") (chr: "E") c then string_token l (parse_string fuel true [] i)
      else if is_either (chr: "o") (chr: "O") c then integer_token l (parse_octal_number fuel true false uint512_zero i)
      else integer_token l (parse_hexadecimal_number fuel true false uint512_zero i)
    else let! i := ungetc EOS i quote in parse_identifier fuel l c i
  else parse_identifier fuel l c i.

(** ** The main loop *)

Definition token (t : Z) (l : location) (i : input) : result step :=
  let! n := new_node t l in Ok (Token n i).

(** The second character of an operator was not one of those expected. *)
Definition short_token (t : Z) (l : location) (c : Z) (i : input) : result step :=
  let! i := ungetc EOS i c in token t l i.

(** One turn: the switch on the first character. *)
Definition lex_step (fuel : nat) (i : input) : result step :=
  let l := f_location i in
  let '(c, i) := getc EOS i in
  if decide (c = EOS) then token TOKEN_EOF l i
  else if is_space c then Ok (Skip i)
  else if is_single c then token c l i
  else if decide (c = (chr: "!")) then
    let '(c, i) := getc EOS i in
    if decide (c = (chr: "~")) then token TOKEN_UNMATCHED_REGULAR_EXPRESSION l i
    else let! _ := ungetc EOS i c in Throw unexpected_token
  else if decide (c = (chr: ":")) then
    let '(c, i) := getc EOS i in
    if decide (c = (chr: ":")) then token TOKEN_SCOPE l i else short_token TOKEN_COLON l c i
  else if decide (c = (chr: "#")) then
    if decide (f_line l = 1 /\ f_column l = 1)
    then let! i := skip_hash_lines fuel i in Ok (Skip i)
    else token c l i
  else if decide (c = (chr: "/")) then
    let '(c, i) := getc EOS i in
    if decide (c = (chr: "*")) then let! i := comment_loop fuel 1 i in Ok (Skip i)
    else short_token TOKEN_DIVIDE l c i
  else if decide (c = (chr: "-")) then
    let '(c, i) := getc EOS i in
    if decide (c = (chr: "-")) then let! i := skip_line fuel i in Ok (Skip i)
    else short_token TOKEN_MINUS l c i
  else if decide (c = (chr: "<")) then
    let '(c, i) := getc EOS i in
    if decide (c = (chr: "=")) then token TOKEN_LESS_EQUAL l i
    else if decide (c = (chr: "<")) then token TOKEN_SHIFT_LEFT l i
    else if decide (c = (chr: ">")) then token TOKEN_NOT_EQUAL l i
    else short_token TOKEN_LESS l c i
  else if decide (c = (chr: ">")) then
    let '(c, i) := getc EOS i in
    if decide (c = (chr: "=")) then token TOKEN_GREATER_EQUAL l i
    else if decide (c = (chr: ">")) then token TOKEN_SHIFT_RIGHT l i
    else short_token TOKEN_GREATER l c i
  else if decide (c = (chr: "|")) then
    let '(c, i) := getc EOS i in
    if decide (c = (chr: "/")) then token TOKEN_SQUARE_ROOT l i
    else if decide (c = (chr: "|")) then
      let '(c, i) := getc EOS i in
      if decide (c = (chr: "/")) then token TOKEN_CUBE_ROOT l i else short_token TOKEN_STRING_CONCAT l c i
    else short_token TOKEN_BITWISE_OR l c i
  else if decide (c = QUOTE) then string_token l (parse_string fuel false [] i)
  else if is_decimal c then parse_number fuel l c i
  else parse_other fuel l c i.

Fixpoint token_loop (fuel : nat) (i : input) : result (node * input) :=
  match fuel with
  | O => Throw fuel_exhausted
  | S fuel =>
      let! r := lex_step fuel i in
      match r with
      | Token n i => Ok (n, i)
      | Skip i => token_loop fuel i
      end
  end.

(** A lexer, which may have no input yet. *)
Definition lexer := option input.
Definition set_input (_ : lexer) (in' : input) : lexer := Some in'.
Definition get_next_token (fuel : nat) (f_input : lexer) : result (node * lexer) :=
  match f_input with
  | None => Throw logic_error
  | Some i => let! '(n, i) := token_loop fuel i in Ok (n, Some i)
  end.
End Lexer.
