(* ===== verification/LexerTotal.v ===== *)
(** * Every call of the lexer ends with a token or one of its errors

    [post r Q] is the specification of a fallible step: a result satisfies [Q],
    an exception is one the lexer is meant to throw.  Each loop gets a lemma of
    this form, with the characters the input still gives as the measure. *)

From S2P Require Import Prelude Limbs BigLoops Uint512 Int512 BigText Input LongDouble Lexer.

Lemma is_either_true a b c : c = a \/ c = b -> is_either a b c = true.
Proof. apply bool_decide_eq_true. Qed.

Lemma is_either_false a b c : c <> a -> c <> b -> is_either a b c = false.
Proof. intros. apply bool_decide_eq_false. tauto. Qed.

(** The nodes of the tokens that carry a value. *)
Definition string_node (token : Z) (l : location) (s : list Z) : node := Node token l s int512_zero long_double_zero.
Definition integer_node (l : location) (i : int512_t) : node := Node TOKEN_INTEGER l [] i long_double_zero.
Definition floating_point_node (l : location) (d : long_double) : node := Node TOKEN_FLOATING_POINT l [] int512_zero d.

(** The tokens of the lexer are valid. *)
Lemma single_valid c : is_single c = true -> valid_token c = true.
Proof.
  intros Hc%bool_decide_eq_true. apply bool_decide_eq_true. right. left.
  rewrite !elem_of_cons, elem_of_nil in *. lia.
Qed.

Lemma token_valid t l i : valid_token t = true -> token t l i = Ok (Token (node_of_token t l) i).
Proof. intros Ht. unfold token, new_node. by rewrite Ht. Qed.

Section LexerTotal.
Context (EOS : Z) (is_hexdigit : Z -> bool) (hexdigit_to_number : Z -> Z) (to_u8string : Z -> result (list Z)).
Context {eos : EndOfScript EOS} {laws : HexdigitLaws is_hexdigit hexdigit_to_number}.

#[local] Abbreviation gives := (gives EOS).

(** The exceptions of the lexer; the last case is the encoder's own. *)
Definition lex_error (e : error) : Prop :=
  e ∈ [invalid_token; unexpected_token; invalid_number] \/ exists c, to_u8string c = Throw e.

Definition post {A} (r : result A) (Q : A -> Prop) : Prop :=
  match r with Ok a => Q a | Throw e => lex_error e end.

Lemma post_bind {A B} (r : result A) (k : A -> result B) P Q :
  post r P -> (forall a, P a -> post (k a) Q) -> post (result_bind r k) Q.
Proof. destruct r; cbn; auto. Qed.

Lemma post_throw {A} e (Q : A -> Prop) : e ∈ [invalid_token; unexpected_token; invalid_number] -> post (Throw e) Q.
Proof. intros. by left. Qed.

Ltac throw := apply post_throw, (bool_decide_unpack _); vm_compute; exact I.

Lemma post_weaken {A} (r : result A) P Q : post r P -> (forall a, P a -> Q a) -> post r Q.
Proof. destruct r; cbn; auto. Qed.

(** The input gives an end of [s]. *)
Definition rest (n : nat) (s : list Z) (i : input) : Prop := exists t, gives n i t /\ t `suffix_of` s.

Lemma rest_weaken n m s t i : rest n t i -> t `suffix_of` s -> (n <= m)%nat -> rest m s i.
Proof.
  intros (u & Hu & Hs) Ht Hn. exists u. split; [by eapply gives_weaken|]. by etrans.
Qed.

Lemma tail_suffix {A} (s : list A) : tail s `suffix_of` s.
Proof. destruct s; [done|]. by apply suffix_cons_r. Qed.

(** One character, at the end of the script or before. *)
Lemma post_getc {A} n i s (k : Z -> input -> result A) Q : gives n i s -> (n <= 1)%nat ->
  (forall i', s = [] -> gives 0 i' [] -> post (k EOS i') Q) ->
  (forall c t i', s = c :: t -> c <> EOS -> gives 0 i' t -> post (k c i') Q) ->
  post (let '(c, i') := getc EOS i in k c i') Q.
Proof.
  intros Hg Hn H0 H1. destruct (getc_gives EOS n i s Hg) as [Hc Ht].
  destruct (getc EOS i) as [c i']. cbn in *. subst c. replace (n - 1)%nat with 0%nat in Ht by lia.
  destruct s as [|c t]; cbn in *; [by apply H0|]. apply (H1 c t); [done| |done].
  eapply gives_not_eos; [done| |by left]. exact Hg.
Qed.

Lemma is_decimal_spec c : is_decimal c = bool_decide (is_Some (digit_of 10 c)).
Proof.
  unfold is_decimal. apply bool_decide_ext. rewrite digit_of_low by lia.
  destruct (decide _); split; try lia; [eauto|by intros [? [=]]].
Qed.

Lemma rest_cons n c t i s : rest n t i -> c :: t `suffix_of` s -> rest n s i.
Proof. intros. eapply rest_weaken; [done| |done]. etrans; [|done]. by apply suffix_cons_r. Qed.

Lemma gives_rest n i s : gives n i s -> rest n s i.
Proof. intros. by exists s. Qed.

Lemma rest_0_1 s i : rest 0 s i -> rest 1 s i.
Proof. intros. eapply rest_weaken; [done..|lia]. Qed.

Lemma gives_0_1 i s : gives 0 i s -> gives 1 i s.
Proof. intros. eapply gives_weaken; [|done]. lia. Qed.

(** Reads a character: the end of the script first, then a character. *)
Ltac read := match goal with Hg : Input.gives EOS _ ?i _ |- post (let '(_, _) := getc EOS ?i in _) _ =>
  eapply post_getc; [exact Hg | lia | intros ? -> ?; clear Hg | intros ? ? ? -> ? ?; clear Hg] end.

Ltac suffix := solve [reflexivity | apply suffix_nil | assumption | apply suffix_cons_r; suffix].
Ltac in_rest := match goal with
  | Hg : Input.gives EOS ?m ?i ?t |- rest ?n ?s ?i => exists t; split; [by apply (gives_weaken EOS m); [lia|] | suffix]
  | Hr : rest ?m ?t ?i |- rest ?n ?s ?i => eapply (rest_weaken m n s t); [exact Hr | suffix | lia]
  end.

(** ** Comments *)

Lemma skip_line_ends fuel i s : gives 1 i s -> (length s < fuel)%nat -> post (skip_line EOS fuel i) (rest 0 s).
Proof.
  revert i s. induction fuel as [|fuel IH]; intros i s Hg Hf; [lia|]. cbn [skip_line]. read.
  - rewrite decide_True by auto. cbn. in_rest.
  - destruct (decide _); [cbn; in_rest|]. cbn [length] in Hf.
    eapply post_weaken; [apply IH; [by apply gives_0_1|lia]|]. intros i1 Hr. in_rest.
Qed.

Lemma suffix_cons_length {A} (c : A) t s : c :: t `suffix_of` s -> (length t < length s)%nat.
Proof. intros H%suffix_length. cbn in H. lia. Qed.

(** The character that was read is put back. *)
Lemma post_unread i n c t s : gives 0 i t -> c <> EOS -> c :: t `suffix_of` s -> (1 <= n)%nat ->
  post (ungetc EOS i c) (rest n s).
Proof.
  intros Hg Hc Hs Hn. destruct (ungetc_gives EOS 0 i t c Hg Hc ltac:(lia)) as (i' & -> & Hi').
  exists (c :: t). split; [|done]. by eapply gives_weaken.
Qed.

Lemma post_unread_eos i n s : rest n s i -> post (ungetc EOS i EOS) (rest n s).
Proof. unfold ungetc. by rewrite decide_True. Qed.

Lemma skip_hash_lines_ends fuel i s : gives 1 i s -> (S (length s) < fuel)%nat ->
  post (skip_hash_lines EOS fuel i) (rest 1 s).
Proof.
  revert i s. induction fuel as [|fuel IH]; intros i s Hg Hf; [lia|]. cbn [skip_hash_lines].
  eapply post_bind; [apply skip_line_ends; [done|lia]|]. intros i1 (t & Ht & Hs).
  read.
  - rewrite decide_False by (intros E; pose proof (eos_char EOS (chr: "#")); lia).
    apply post_unread_eos. eapply rest_weaken; [by apply gives_rest|done|lia].
  - destruct (decide _).
    + apply suffix_cons_length in Hs as Hl.
      eapply post_weaken; [apply IH; [by apply gives_0_1|lia]|]. intros i2 Hr. by eapply rest_cons.
    + by eapply post_unread; [..|lia].
Qed.

(** A loop that ends with the last character it read, at the end of the script
    or before. *)
Definition last_read (s : list Z) (c : Z) (i : input) : Prop := rest 0 s i /\ (c = EOS -> gives 0 i []).

Lemma eos_not (c : Z) : 0 < c <= 0x10FFFF -> EOS <> c.
Proof. intros ? <-. by apply (eos_char EOS EOS). Qed.

Lemma last_read_weaken s t c i : last_read t c i -> t `suffix_of` s -> last_read s c i.
Proof. intros [? ?] ?. split; [|done]. by eapply rest_weaken. Qed.

Lemma last_read_here t c i : gives 0 i t -> (c = EOS -> t = []) -> last_read t c i.
Proof. intros Hg Hc. split; [by apply gives_rest|]. intros E. by rewrite <- (Hc E). Qed.

Definition comment_rest (s : list Z) (r : comment_step) : Prop :=
  match r with FoundEnd i => rest 0 s i | Continue _ c i => last_read s c i end.

Lemma comment_rest_weaken s t r : comment_rest t r -> t `suffix_of` s -> comment_rest s r.
Proof. destruct r; cbn; intros; [by eapply rest_weaken|by eapply last_read_weaken]. Qed.

Lemma closing_loop_ends fuel count c i t : gives 0 i t -> (c = EOS -> t = []) -> c = EOS \/ (length t < fuel)%nat ->
  post (closing_loop EOS fuel count c i) (comment_rest t).
Proof.
  revert count c i t. induction fuel as [|fuel IH]; intros count c i t Hg Hc Hf; cbn [closing_loop];
    (destruct (decide (c = _)) as [->|]; [|by apply last_read_here]).
  { destruct Hf as [E|]; [by apply (eos_char EOS) in E|lia]. }
  assert (length t < S fuel)%nat as Hl by (destruct Hf as [E|]; [by apply (eos_char EOS) in E|lia]).
  read.
  { rewrite decide_False by (by apply eos_not). by apply IH; auto. }
  cbn [length] in Hl. destruct (decide _).
  2:{ eapply post_weaken; [apply IH; [done|done|right; lia]|]. intros. eapply comment_rest_weaken; [done|suffix]. }
  destruct (decide _); [cbn; in_rest|]. read.
  { eapply post_weaken; [by apply IH; auto|]. intros. eapply comment_rest_weaken; [done|suffix]. }
  cbn [length] in Hl. eapply post_weaken; [apply IH; [done|done|right; lia]|].
  intros. eapply comment_rest_weaken; [done|suffix].
Qed.

Lemma opening_loop_ends fuel count c i t : gives 0 i t -> (c = EOS -> t = []) -> c = EOS \/ (length t < fuel)%nat ->
  post (opening_loop EOS fuel count c i) (fun '(_, c, i) => last_read t c i).
Proof.
  revert count c i t. induction fuel as [|fuel IH]; intros count c i t Hg Hc Hf; cbn [opening_loop];
    (destruct (decide (c = _)) as [->|]; [|by apply last_read_here]).
  { destruct Hf as [E|]; [by apply (eos_char EOS) in E|lia]. }
  assert (length t < S fuel)%nat as Hl by (destruct Hf as [E|]; [by apply (eos_char EOS) in E|lia]).
  read.
  { rewrite decide_False by (by apply eos_not). by apply IH; auto. }
  cbn [length] in Hl. destruct (decide _).
  2:{ eapply post_weaken; [apply IH; [done|done|right; lia]|]. intros [[? ?] ?] ?. eapply last_read_weaken; [done|suffix]. }
  read.
  { eapply post_weaken; [by apply IH; auto|]. intros [[? ?] ?] ?. eapply last_read_weaken; [done|suffix]. }
  cbn [length] in Hl. eapply post_weaken; [apply IH; [done|done|right; lia]|].
  intros [[? ?] ?] ?. eapply last_read_weaken; [done|suffix].
Qed.

Lemma last_read_length c i s : last_read s c i -> exists t, gives 0 i t /\ t `suffix_of` s /\ (c = EOS -> t = []) /\ (length t <= length s)%nat.
Proof.
  intros [(t & Ht & Hs) Hc]. exists t. apply suffix_length in Hs as Hl. split_and!; [done..| |done].
  intros E. destruct (Hc E) as [Hn _ _ _], Ht as [Ht _ _ _]. congruence.
Qed.

Lemma closing_loop_eos fuel count i : closing_loop EOS fuel count EOS i = Ok (Continue count EOS i).
Proof. destruct fuel; cbn; by rewrite decide_False by (by apply eos_not). Qed.

Lemma opening_loop_eos fuel count i : opening_loop EOS fuel count EOS i = Ok (count, EOS, i).
Proof. destruct fuel; cbn; by rewrite decide_False by (by apply eos_not). Qed.

Lemma comment_loop_ends fuel count i s : gives 1 i s -> (length s < fuel)%nat ->
  post (comment_loop EOS fuel count i) (rest 0 s).
Proof.
  revert count i s. induction fuel as [|fuel IH]; intros count i s Hg Hf; [lia|]. cbn [comment_loop]. read.
  { rewrite closing_loop_eos. cbn [result_bind]. rewrite opening_loop_eos. cbn [result_bind].
    rewrite decide_True by done. apply post_throw. set_solver. }
  cbn [length] in Hf. eapply post_bind; [apply closing_loop_ends; [done|done|right; lia]|].
  intros [i1|count1 c1 i1]; cbn [comment_rest]; [intros; cbn; in_rest|].
  intros (t1 & Ht1 & Hs1 & Hc1 & Hl1)%last_read_length.
  eapply post_bind; [apply opening_loop_ends; [exact Ht1|done|right; lia]|].
  intros [[count2 c2] i2] (t2 & Ht2 & Hs2 & Hc2 & Hl2)%last_read_length.
  destruct (decide _); [throw|].
  eapply post_weaken; [apply (IH _ _ t2); [by apply gives_0_1|lia]|].
  intros i3 Hr. eapply rest_weaken; [done| |lia]. apply suffix_cons_r. by etrans.
Qed.

(** Puts a character back before a result is returned. *)
Ltac unread := eapply post_bind;
  [ first [ apply (post_unread_eos _ 1), gives_rest, gives_0_1; eassumption
          | eapply (post_unread _ 1); [eassumption|eassumption|reflexivity|lia] ]
  | intros; cbn; in_rest ].

(** ** Strings *)

Lemma is_hexdigit_eos : is_hexdigit EOS = false.
Proof.
  apply not_true_iff_false. intros H%is_hexdigit_iff. pose proof (@eos_not_character EOS eos). lia.
Qed.

Lemma hex_char_loop_ends n c idx i s : gives 1 i s ->
  post (hex_char_loop EOS is_hexdigit hexdigit_to_number n c idx i) (fun '(_, _, i) => rest 1 s i).
Proof.
  revert c idx i s. induction n as [|n IH]; intros c idx i s Hg; [by apply gives_rest|]. cbn [hex_char_loop]. read.
  - rewrite is_hexdigit_eos. unread.
  - destruct (is_hexdigit _).
    + eapply post_weaken; [apply IH; by apply gives_0_1|]. intros [[? ?] ?] ?. in_rest.
    + unread.
Qed.

Lemma parse_hex_char_ends count i s : gives 1 i s ->
  post (parse_hex_char EOS is_hexdigit hexdigit_to_number count i) (fun '(_, i) => rest 1 s i).
Proof.
  intros Hg. unfold parse_hex_char. eapply post_bind; [by apply hex_char_loop_ends|].
  intros [[c idx] i'] Hr. destruct (decide _); [throw|done].
Qed.

Lemma is_octal_eos : is_octal EOS = false.
Proof. apply bool_decide_eq_false. pose proof (@eos_not_character EOS eos). lia. Qed.

Lemma parse_octal_char_ends c i s : gives 1 i s -> post (parse_octal_char EOS c i) (fun '(_, i) => rest 1 s i).
Proof.
  intros Hg. unfold parse_octal_char. cbv zeta. read.
  { rewrite is_octal_eos. unread. }
  destruct (is_octal _).
  2:{ unread. }
  read.
  { rewrite is_octal_eos. unread. }
  destruct (is_octal _); [cbn; in_rest|].
  unread.
Qed.

Lemma append_unicode_ends s c : post (append_unicode to_u8string s c) (fun _ => True).
Proof.
  unfold append_unicode. destruct (decide _); [throw|].
  destruct (to_u8string c) eqn:E; cbn; [done|]. right. by exists c.
Qed.

Lemma parse_escape_ends text i s : gives 1 i s ->
  post (parse_escape EOS is_hexdigit hexdigit_to_number to_u8string text i) (fun '(_, i) => rest 1 s i).
Proof.
  intros Hg. unfold parse_escape.
  assert (forall (r : result (Z * input)), post r (fun '(_, i) => rest 1 s i) ->
    post (let! '(c, i) := r in let! s := append_unicode to_u8string text c in Ok (s, i)) (fun '(_, i) => rest 1 s i)) as Hunicode.
  { intros r Hr. eapply post_bind; [done|]. intros [c1 i1] Hr1. eapply post_bind; [apply append_unicode_ends|]. done. }
  read.
  all: repeat (destruct (decide _); [cbn; in_rest|]).
  - rewrite is_octal_eos. destruct (_ || _); [|cbn; in_rest]. apply Hunicode, parse_hex_char_ends. by apply gives_0_1.
  - destruct (is_octal _); [|destruct (_ || _); [|cbn; in_rest]]; apply Hunicode.
    + eapply post_weaken; [apply parse_octal_char_ends; by apply gives_0_1|]. intros [? ?] ?. in_rest.
    + eapply post_weaken; [apply parse_hex_char_ends; by apply gives_0_1|]. intros [? ?] ?. in_rest.
Qed.

Lemma parse_string_ends fuel escape text i s : gives 1 i s -> (length s < fuel)%nat ->
  post (parse_string EOS is_hexdigit hexdigit_to_number to_u8string fuel escape text i) (fun '(_, i) => rest 1 s i).
Proof.
  revert text i s. induction fuel as [|fuel IH]; intros text i s Hg Hf; [lia|]. cbn [parse_string].
  set (next := string_char _ _ _ _ (parse_string _ _ _ _ fuel escape) escape text).
  assert (forall c t i', rest 1 t i' -> c = EOS \/ (length t < fuel)%nat -> t `suffix_of` s ->
    post (next c i') (fun '(_, i) => rest 1 s i)) as Hnext.
  { intros c t i' (t1 & Ht1 & Hs1) Hl Hs. unfold next, string_char. destruct (decide (c = EOS)); [throw|].
    destruct Hl as [?|Hl]; [done|]. destruct (decide _); [throw|].
    apply suffix_length in Hs1 as Hl1. destruct (_ && _).
    - eapply post_bind; [by apply parse_escape_ends|]. intros [text2 i2] (t2 & Ht2 & Hs2).
      apply suffix_length in Hs2 as Hl2. eapply post_weaken; [apply (IH _ _ t2 Ht2); lia|].
      intros [? ?] ?. eapply rest_weaken; [done| |lia]. do 2 (etrans; [done|]). done.
    - eapply post_weaken; [apply (IH _ _ t1 Ht1); lia|].
      intros [? ?] ?. eapply rest_weaken; [done| |lia]. etrans; done. }
  clearbody next. read.
  { rewrite decide_False by (by apply eos_not). apply (Hnext EOS []); [in_rest|by left|done]. }
  cbn [length] in Hf. destruct (decide _).
  2:{ eapply Hnext; [by apply gives_rest, gives_0_1|right; lia|suffix]. }
  read.
  { rewrite decide_True by (by apply eos_not). unread. }
  cbn [length] in Hf. destruct (decide _); [unread|].
  eapply Hnext; [by apply gives_rest, gives_0_1|right; lia|suffix].
Qed.


(** ** Numbers *)

(** The digits at the start of a text. *)
Lemma span_digits base s : exists text ds t,
  s = text ++ t /\ mapM (digit_of base) text = Some ds /\ (forall c, head t = Some c -> digit_of base c = None).
Proof.
  induction s as [|c s (text & ds & t & -> & Hds & Ht)]; [by exists [], [], []|].
  destruct (digit_of base c) as [d|] eqn:E.
  - exists (c :: text), (d :: ds), t. cbn. rewrite E. cbn. rewrite Hds. done.
  - exists [], [], (c :: text ++ t). split_and!; [done..|]. by intros ? [= <-].
Qed.

Section DigitLoop.
Context {A : Type} (loop : nat -> bool -> uint512_t -> input -> result A) (base : Z).
Context (turn : forall fuel found v i c d s, gives 1 i (c :: s) -> digit_of base c = Some d -> uint512_wf v ->
  exists v' i', loop (S fuel) found v i = loop fuel true v' i' /\ gives 0 i' s /\
    uint512_wf v' /\ uval v' = ((uval v * base) mod 2 ^ 512 + d) mod 2 ^ 512).

(** The loop reads the digits at the start of the input. *)
Lemma digit_loop_reads text ds fuel found v i s : mapM (digit_of base) text = Some ds ->
  gives 1 i (text ++ s) -> (length (text ++ s) < fuel)%nat -> uint512_wf v ->
  exists fuel' v' i', loop fuel found v i = loop fuel' (found || negb (bool_decide (text = []))) v' i' /\
    gives 1 i' s /\ (length s < fuel')%nat /\ uint512_wf v' /\
    uval v' = (uval v * base ^ Z.of_nat (length ds) + horner base ds) mod 2 ^ 512.
Proof using turn eos.
  revert ds fuel found v i. induction text as [|c text IH]; intros ds fuel found v i Hds Hg Hf Hv.
  { injection Hds as <-. exists fuel, v, i. rewrite orb_false_r. split_and!; [done..|].
    pose proof (uval_bound v Hv). cbn. rewrite Z.mul_1_r, Z.add_0_r, Z.mod_small; done. }
  cbn in Hds. destruct (digit_of base c) as [d|] eqn:Ed; [|done]. cbn in Hds.
  destruct (mapM (digit_of base) text) as [ds1|] eqn:Eds; [|done]. injection Hds as <-.
  destruct fuel as [|fuel]; [cbn in Hf; lia|]. cbn [app length] in *.
  destruct (turn fuel found v i c d (text ++ s) Hg Ed Hv) as (v1 & i1 & -> & Hg1 & Hv1 & Hval1).
  destruct (IH ds1 fuel true v1 i1) as (fuel' & v' & i' & -> & Hg' & Hf' & Hv' & Hval');
    [done|by apply gives_0_1|lia|done|].
  exists fuel', v', i'. rewrite orb_true_r. split_and!; [done..|].
  rewrite Hval', Hval1, horner_cons. apply horner_step_mod. lia.
Qed.
End DigitLoop.

Lemma mul_add_value v base d : uint512_wf v -> uword 64 base -> uword 64 d ->
  exists v1, uint512_mul_assign_u64 v base = Ok v1 /\ uint512_wf (uint512_add_assign_u64 v1 d) /\
    uval (uint512_add_assign_u64 v1 d) = ((uval v * base) mod 2 ^ 512 + d) mod 2 ^ 512.
Proof.
  intros Hv Hb Hd. destruct (uint512_mul_assign_value v (uint512_of_u64 base) Hv) as (v1 & Hmul & Hv1 & Hval1);
    [by apply uint512_of_u64_wf|]. rewrite uval_of_u64 in Hval1.
  exists v1. destruct (uint512_add_u64_value v1 d Hv1 Hd) as [Hw Hval]. split; [exact Hmul|]. split; [done|].
  by rewrite Hval, Hval1.
Qed.

(** The character that is read when the input gives at least one. *)
Lemma getc_cons n i c s : gives n i (c :: s) -> (n <= 1)%nat -> exists i', getc EOS i = (c, i') /\ gives 0 i' s.
Proof.
  intros Hg Hn. destruct (getc_gives EOS n i _ Hg) as [Hc Ht]. destruct (getc EOS i) as [c1 i']. cbn in *. subst.
  exists i'. split; [done|]. eapply gives_weaken; [|done]. lia.
Qed.

Lemma getc_nil n i : gives n i [] -> (n <= 1)%nat -> exists i', getc EOS i = (EOS, i') /\ gives 0 i' [].
Proof.
  intros Hg Hn. destruct (getc_gives EOS n i _ Hg) as [Hc Ht]. destruct (getc EOS i) as [c1 i']. cbn in *. subst.
  exists i'. split; [done|]. eapply gives_weaken; [|done]. lia.
Qed.

Lemma digit_of_binary c d : digit_of 2 c = Some d -> c = (chr: "0") /\ d = 0 \/ c = (chr: "1") /\ d = 1.
Proof. rewrite digit_of_low by lia. destruct (decide _); [|done]. intros [= <-]. lia. Qed.

Lemma binary_turn number_string fuel found v i c d s : gives 1 i (c :: s) -> digit_of 2 c = Some d -> uint512_wf v ->
  exists v' i', parse_binary_number EOS (S fuel) number_string found v i
      = parse_binary_number EOS fuel number_string true v' i' /\
    gives 0 i' s /\ uint512_wf v' /\ uval v' = ((uval v * 2) mod 2 ^ 512 + d) mod 2 ^ 512.
Proof.
  intros Hg Hd Hv. destruct (getc_cons 1 i c s Hg ltac:(lia)) as (i' & Hi & Hg').
  cbn [parse_binary_number]. rewrite Hi.
  destruct (digit_of_binary c d Hd) as [[-> ->]|[-> ->]].
  - destruct (uint512_mul_assign_value v (uint512_of_u64 2) Hv) as (v1 & Hmul & Hv1 & Hval1);
      [by apply uint512_of_u64_wf|]. rewrite uval_of_u64 in Hval1.
    exists v1, i'. rewrite decide_True by done. unfold uint512_mul_assign_u64. rewrite Hmul.
    split_and!; [done..|]. rewrite Hval1, Z.add_0_r, Z.mod_mod; done.
  - destruct (mul_add_value v 2 1 Hv) as (v1 & Hmul & Hv1 & Hval1); [done..|].
    exists (uint512_add_assign_u64 v1 1), i'. rewrite decide_False, decide_True by done. by rewrite Hmul.
Qed.

Lemma hexadecimal_turn number_string fuel found v i c d s : gives 1 i (c :: s) -> digit_of 16 c = Some d -> uint512_wf v ->
  exists v' i', parse_hexadecimal_number EOS is_hexdigit hexdigit_to_number (S fuel) number_string found v i
      = parse_hexadecimal_number EOS is_hexdigit hexdigit_to_number fuel number_string true v' i' /\
    gives 0 i' s /\ uint512_wf v' /\ uval v' = ((uval v * 16) mod 2 ^ 512 + d) mod 2 ^ 512.
Proof using laws eos.
  intros Hg Hd Hv. destruct (getc_cons 1 i c s Hg ltac:(lia)) as (i' & Hi & Hg').
  cbn [parse_hexadecimal_number]. rewrite Hi, (is_hexdigit_digit_of is_hexdigit hexdigit_to_number), Hd.
  rewrite bool_decide_eq_true_2 by done. rewrite (hexdigit_digit_of is_hexdigit hexdigit_to_number c d Hd).
  pose proof (digit_of_range 16 c d Hd). rewrite wrap_small by (unfold uword; lia).
  destruct (mul_add_value v 16 d Hv) as (v1 & Hmul & Hv1 & Hval1); [done|unfold uword; lia|].
  exists (uint512_add_assign_u64 v1 d), i'. by rewrite Hmul.
Qed.

Lemma is_octal_digit_of c : is_octal c = bool_decide (is_Some (digit_of 8 c)).
Proof.
  unfold is_octal. apply bool_decide_ext. rewrite digit_of_low by lia.
  destruct (decide _); split; try lia; [eauto|by intros [? [=]]].
Qed.

Lemma octal_turn number_string fuel found v i c d s : gives 1 i (c :: s) -> digit_of 8 c = Some d -> uint512_wf v ->
  exists v' i', parse_octal_number EOS (S fuel) number_string found v i
      = parse_octal_number EOS fuel number_string true v' i' /\
    gives 0 i' s /\ uint512_wf v' /\ uval v' = ((uval v * 8) mod 2 ^ 512 + d) mod 2 ^ 512.
Proof.
  intros Hg Hd Hv. destruct (getc_cons 1 i c s Hg ltac:(lia)) as (i' & Hi & Hg').
  cbn [parse_octal_number]. rewrite Hi, is_octal_digit_of, Hd. rewrite bool_decide_eq_true_2 by done.
  rewrite (low_digit_value 8 c d) by (done || lia).
  pose proof (digit_of_range 8 c d Hd). rewrite wrap_small by (unfold uword; lia).
  destruct (mul_add_value v 8 d Hv) as (v1 & Hmul & Hv1 & Hval1); [done|unfold uword; lia|].
  exists (uint512_add_assign_u64 v1 d), i'. by rewrite Hmul.
Qed.

Lemma decimal_turn fuel (found : bool) v i c d s : gives 1 i (c :: s) -> digit_of 10 c = Some d -> uint512_wf v ->
  exists v' i', decimal_loop EOS (S fuel) v i = decimal_loop EOS fuel v' i' /\
    gives 0 i' s /\ uint512_wf v' /\ uval v' = ((uval v * 10) mod 2 ^ 512 + d) mod 2 ^ 512.
Proof.
  intros Hg Hd Hv. destruct (getc_cons 1 i c s Hg ltac:(lia)) as (i' & Hi & Hg').
  cbn [decimal_loop]. rewrite Hi, is_decimal_spec, Hd. rewrite bool_decide_eq_true_2 by done.
  rewrite (low_digit_value 10 c d) by (done || lia).
  pose proof (digit_of_range 10 c d Hd). rewrite wrap_small by (unfold uword; lia).
  destruct (mul_add_value v 10 d Hv) as (v1 & Hmul & Hv1 & Hval1); [done|unfold uword; lia|].
  exists (uint512_add_assign_u64 v1 d), i'. by rewrite Hmul.
Qed.

Lemma number_end_eos number_string found v i s : gives 0 i [] ->
  post (number_end EOS number_string found v EOS i) (fun '(_, i) => rest 1 s i).
Proof.
  intros Hg. unfold number_end. assert (rest 1 s i) by in_rest.
  destruct number_string; [rewrite decide_True by (by apply eos_not); throw|].
  eapply post_bind; [by apply (post_unread_eos _ 1)|]. intros i1 Hr. destruct found; [done|throw].
Qed.

Lemma number_end_char number_string found v c i t s : gives 0 i t -> c <> EOS -> c :: t `suffix_of` s ->
  post (number_end EOS number_string found v c i) (fun '(_, i) => rest 1 s i).
Proof.
  intros Hg Hc Hs. unfold number_end. destruct number_string.
  - destruct (decide _); [throw|]. destruct found; [|throw]. cbn. exists t. split; [by apply gives_0_1|].
    etrans; [|done]. by apply suffix_cons_r.
  - eapply post_bind; [by apply (post_unread i 1 c t s); [..|lia]|]. intros i1 Hr. destruct found; [done|throw].
Qed.

(** A loop over digits that ends as [number_end] does, or refuses a character. *)
Lemma digit_loop_ends (loop : nat -> bool -> uint512_t -> input -> result (uint512_t * input)) base number_string fuel v i s :
  (forall fuel found v i c d s, gives 1 i (c :: s) -> digit_of base c = Some d -> uint512_wf v ->
    exists v' i', loop (S fuel) found v i = loop fuel true v' i' /\ gives 0 i' s /\
      uint512_wf v' /\ uval v' = ((uval v * base) mod 2 ^ 512 + d) mod 2 ^ 512) ->
  (forall fuel found v i, gives 1 i [] -> exists i', gives 0 i' [] /\ loop (S fuel) found v i = number_end EOS number_string found v EOS i') ->
  (forall fuel found v i c s, gives 1 i (c :: s) -> digit_of base c = None ->
    exists i', gives 0 i' s /\
      (loop (S fuel) found v i = number_end EOS number_string found v c i' \/ loop (S fuel) found v i = Throw invalid_number)) ->
  gives 1 i s -> (length s < fuel)%nat -> uint512_wf v ->
  post (loop fuel false v i) (fun '(_, i) => rest 1 s i).
Proof.
  intros Hturn Hend Hstop Hg Hf Hv. destruct (span_digits base s) as (text & ds & t & -> & Hds & Ht).
  destruct (digit_loop_reads loop base Hturn text ds fuel false v i t Hds Hg Hf Hv) as (fuel' & v' & i' & -> & Hg' & Hf' & _).
  destruct fuel' as [|fuel']; [lia|]. destruct t as [|c t].
  - destruct (Hend fuel' (false || negb (bool_decide (text = []))) v' i' Hg') as (i1 & Hg1 & ->). by apply number_end_eos.
  - destruct (Hstop fuel' (false || negb (bool_decide (text = []))) v' i' c t Hg') as (i1 & Hg1 & [-> | ->]); [by apply Ht| |throw].
    eapply number_end_char; [done|eapply gives_not_eos; [done|exact Hg'|by left]|]. by apply suffix_app_r.
Qed.

Lemma digit_of_none_binary c : digit_of 2 c = None -> c <> (chr: "0") /\ c <> (chr: "1").
Proof. rewrite digit_of_low by lia. destruct (decide _); [done|]. lia. Qed.

Lemma parse_binary_number_ends fuel number_string v i s : gives 1 i s -> (length s < fuel)%nat -> uint512_wf v ->
  post (parse_binary_number EOS fuel number_string false v i) (fun '(_, i) => rest 1 s i).
Proof.
  apply (digit_loop_ends (fun fuel => parse_binary_number EOS fuel number_string) 2 number_string).
  - intros. by eapply binary_turn.
  - intros fuel' found v' i' Hg. destruct (getc_nil 1 i' Hg ltac:(lia)) as (i1 & Hi & Hg1). exists i1.
    cbn [parse_binary_number]. rewrite Hi. pose proof (@eos_not_character EOS eos).
    by rewrite !decide_False by lia.
  - intros fuel' found v' i' c t Hg Hc. destruct (getc_cons 1 i' c t Hg ltac:(lia)) as (i1 & Hi & Hg1).
    exists i1. split; [done|]. cbn [parse_binary_number]. rewrite Hi. apply digit_of_none_binary in Hc as [? ?].
    rewrite (decide_False (P := c = _)), (decide_False (P := c = _)) by done. destruct (decide _); auto.
Qed.

Lemma parse_hexadecimal_number_ends fuel number_string v i s : gives 1 i s -> (length s < fuel)%nat -> uint512_wf v ->
  post (parse_hexadecimal_number EOS is_hexdigit hexdigit_to_number fuel number_string false v i) (fun '(_, i) => rest 1 s i).
Proof.
  apply (digit_loop_ends (fun fuel => parse_hexadecimal_number EOS is_hexdigit hexdigit_to_number fuel number_string) 16 number_string).
  - intros. by eapply hexadecimal_turn.
  - intros fuel' found v' i' Hg. destruct (getc_nil 1 i' Hg ltac:(lia)) as (i1 & Hi & Hg1). exists i1.
    cbn [parse_hexadecimal_number]. rewrite Hi. by rewrite is_hexdigit_eos.
  - intros fuel' found v' i' c t Hg Hc. destruct (getc_cons 1 i' c t Hg ltac:(lia)) as (i1 & Hi & Hg1).
    exists i1. split; [done|]. cbn [parse_hexadecimal_number]. left.
    by rewrite Hi, (is_hexdigit_digit_of is_hexdigit hexdigit_to_number), Hc.
Qed.

Lemma parse_octal_number_ends fuel number_string v i s : gives 1 i s -> (length s < fuel)%nat -> uint512_wf v ->
  post (parse_octal_number EOS fuel number_string false v i) (fun '(_, i) => rest 1 s i).
Proof.
  apply (digit_loop_ends (fun fuel => parse_octal_number EOS fuel number_string) 8 number_string).
  - intros. by eapply octal_turn.
  - intros fuel' found v' i' Hg. destruct (getc_nil 1 i' Hg ltac:(lia)) as (i1 & Hi & Hg1). exists i1.
    cbn [parse_octal_number]. rewrite Hi, is_octal_eos. pose proof (@eos_not_character EOS eos).
    by rewrite decide_False by lia.
  - intros fuel' found v' i' c t Hg Hc. destruct (getc_cons 1 i' c t Hg ltac:(lia)) as (i1 & Hi & Hg1).
    exists i1. split; [done|]. cbn [parse_octal_number]. rewrite Hi, is_octal_digit_of, Hc. cbn. destruct (decide _); auto.
Qed.

(** [c] was read from an input that gave [s]. *)
Definition reading (c : Z) (i : input) (s : list Z) : Prop :=
  c = default EOS (head s) /\ gives 0 i (tail s) /\ EOS ∉ s.

Lemma gives_no_eos n i s : gives n i s -> EOS ∉ s.
Proof. intros Hg Hin. by eapply gives_not_eos. Qed.

Lemma getc_reading n i s : gives n i s -> (n <= 1)%nat -> exists c i', getc EOS i = (c, i') /\ reading c i' s.
Proof.
  intros Hg Hn. destruct (getc_gives EOS n i s Hg) as [Hc Ht]. destruct (getc EOS i) as [c i']. cbn in *.
  exists c, i'. split; [done|]. split_and!; [done| |by eapply gives_no_eos]. eapply gives_weaken; [|done]. lia.
Qed.

Lemma ungetc_reading c i s : reading c i s -> exists i', ungetc EOS i c = Ok i' /\ gives 1 i' s.
Proof.
  intros (-> & Hg & He). destruct s as [|c s]; cbn in *.
  - exists i. unfold ungetc. rewrite decide_True by done. split; [done|]. by apply gives_0_1.
  - apply ungetc_gives; [done| |lia]. intros ->. apply He. by left.
Qed.

Lemma is_decimal_eos : is_decimal EOS = false.
Proof. apply bool_decide_eq_false. pose proof (@eos_not_character EOS eos). lia. Qed.

(** The decimal digits at the start of the input. *)
Lemma digits_loop_reads text fuel number c i s : reading c i (text ++ s) ->
  Forall (fun c => is_decimal c = true) text -> (forall c, head s = Some c -> is_decimal c = false) ->
  (length text <= fuel)%nat ->
  exists c' i', digits_loop EOS fuel number c i = Ok (number ++ text, c', i') /\ reading c' i' s.
Proof.
  revert fuel number c i. induction text as [|d text IH]; intros fuel number c i Hr Ht Hs Hf.
  - exists c, i. rewrite app_nil_r. split; [|done]. destruct Hr as (-> & _ & _).
    assert (is_decimal (default EOS (head s)) = false) as E.
    { destruct s as [|d s]; [apply is_decimal_eos|]. by apply Hs. }
    by destruct fuel; cbn [digits_loop app]; rewrite E.
  - destruct fuel as [|fuel]; [cbn in Hf; lia|]. destruct Hr as (-> & Hg & _). cbn in Hg.
    apply Forall_cons in Ht as [Hd Ht]. cbn [digits_loop app head default from_option id]. rewrite Hd.
    destruct (getc_reading 0 i (text ++ s) Hg ltac:(lia)) as (d1 & i1 & -> & Hr1).
    destruct (IH fuel (number ++ [d]) d1 i1 Hr1 Ht Hs) as (c' & i' & -> & Hr'); [cbn in Hf; lia|].
    exists c', i'. by rewrite <- app_assoc.
Qed.

Lemma decimal_loop_reads text ds fuel v i s : mapM (digit_of 10) text = Some ds ->
  (forall c, head s = Some c -> is_decimal c = false) ->
  gives 1 i (text ++ s) -> (length (text ++ s) < fuel)%nat -> uint512_wf v ->
  exists v' c i', decimal_loop EOS fuel v i = Ok (v', c, i') /\ reading c i' s /\ uint512_wf v' /\
    uval v' = (uval v * 10 ^ Z.of_nat (length ds) + horner 10 ds) mod 2 ^ 512.
Proof.
  intros Hds Hs Hg Hf Hv.
  destruct (digit_loop_reads (fun fuel _ => decimal_loop EOS fuel) 10
    (fun fuel found v i c d s => decimal_turn fuel found v i c d s) text ds fuel true v i s Hds Hg Hf Hv)
    as ([|fuel'] & v' & i' & -> & Hg' & Hf' & Hv' & Hval); [lia|].
  destruct (getc_reading 1 i' s Hg' ltac:(lia)) as (c & i1 & Hi & Hr). exists v', c, i1. split; [|done].
  cbn [decimal_loop]. rewrite Hi. assert (is_decimal c = false) as ->; [|done].
  destruct Hr as (-> & _). destruct s; [apply is_decimal_eos|]. by apply Hs.
Qed.

Lemma uint512_decimal_text v : uint512_wf v -> exists text, uint512_to_string v 10 false false = Ok text.
Proof.
  intros Hv. destruct (decide (uval v = 0)).
  - eexists. by apply uint512_is_zero_text.
  - destruct (uint512_to_string_value v 10 false false Hv) as (ds & H & _); [done|lia|]. by eexists.
Qed.

Lemma span_decimal_text s : exists text ds t, s = text ++ t /\ mapM (digit_of 10) text = Some ds /\
  Forall (fun c => is_decimal c = true) text /\ (forall c, head t = Some c -> is_decimal c = false).
Proof.
  destruct (span_digits 10 s) as (text & ds & t & -> & Hds & Ht). exists text, ds, t. split_and!; [done..| |].
  - apply mapM_Some in Hds. apply Forall_lookup. intros k c Hc.
    destruct (Forall2_lookup_l _ _ _ _ _ Hds Hc) as (d & _ & Hd). rewrite is_decimal_spec, Hd.
    by apply bool_decide_eq_true.
  - intros c Hc. rewrite is_decimal_spec, (Ht c Hc). by apply bool_decide_eq_false.
Qed.

Definition is_e (c : Z) : bool := is_either (chr: "e") (chr: "E") c.
Definition is_sign (c : Z) : bool := is_either (chr: "+") (chr: "-") c.

(** The exponent at the start of a text: what the lexer hands to [strtold], and
    what follows. *)
Inductive exponent_text : list Z -> list Z -> list Z -> Prop :=
  | exponent_none s : (forall c, head s = Some c -> is_e c = false) -> exponent_text s [] s
  | exponent_unsigned e digits s : is_e e = true -> Forall (fun c => is_decimal c = true) digits ->
      (forall c, head s = Some c -> is_decimal c = false) -> (forall c, head (digits ++ s) = Some c -> is_sign c = false) ->
      exponent_text (e :: digits ++ s) ((chr: "e") :: digits) s
  | exponent_signed e sign digits s : is_e e = true -> is_sign sign = true -> Forall (fun c => is_decimal c = true) digits ->
      (forall c, head s = Some c -> is_decimal c = false) ->
      exponent_text (e :: sign :: digits ++ s) ((chr: "e") :: sign :: digits) s.

Lemma exponent_text_exists s : exists text s', exponent_text s text s'.
Proof.
  destruct s as [|e s]; [exists [], []; by constructor|].
  destruct (is_e e) eqn:Ee; [|exists [], (e :: s); constructor; by intros ? [= <-]].
  destruct s as [|sign s].
  { exists [(chr: "e")], []. by apply (exponent_unsigned e [] []). }
  destruct (is_sign sign) eqn:Es.
  - destruct (span_decimal_text s) as (ds & _ & t & -> & _ & Hds & Ht). eexists _, t. by apply exponent_signed.
  - destruct (span_decimal_text (sign :: s)) as (ds & _ & t & Hst & _ & Hds & Ht). rewrite Hst.
    eexists _, t. apply exponent_unsigned; [done..|]. intros c. rewrite <- Hst. by intros [= <-].
Qed.

Lemma exponent_text_suffix s text s' : exponent_text s text s' -> s' `suffix_of` s.
Proof. destruct 1; [done|apply suffix_cons_r; by apply suffix_app_r|do 2 apply suffix_cons_r; by apply suffix_app_r]. Qed.

Lemma is_e_eos : is_e EOS = false.
Proof. apply bool_decide_eq_false. pose proof (@eos_not_character EOS eos). lia. Qed.

Lemma is_sign_eos : is_sign EOS = false.
Proof. apply bool_decide_eq_false. pose proof (@eos_not_character EOS eos). lia. Qed.

Lemma reading_class (p : Z -> bool) c i s : reading c i s -> p EOS = false -> (forall c, head s = Some c -> p c = false) -> p c = false.
Proof. intros (-> & _) Hp Hs. destruct s; [done|]. by apply Hs. Qed.

(** The text of a floating point number: the digits read before the period, as
    [to_string()] writes them, the period, the fraction and the exponent. *)
Lemma parse_floating_point_reads fuel l v i whole fraction exponent s s' : uint512_wf v -> gives 1 i (fraction ++ s) ->
  (length (fraction ++ s) < fuel)%nat -> Forall (fun c => is_decimal c = true) fraction ->
  (forall c, head s = Some c -> is_decimal c = false) -> exponent_text s exponent s' ->
  uint512_to_string v 10 false false = Ok whole ->
  exists i', gives 1 i' s' /\
    parse_floating_point EOS fuel l v i =
      match strtold ((whole ++ (str: ".")) ++ fraction ++ exponent) with
      | Some fp => Ok (Token (floating_point_node l fp) i')
      | None => Throw invalid_number
      end.
Proof.
  intros Hv Hg Hf Hfr Hs He Hw. unfold parse_floating_point. rewrite Hw. cbn [result_bind].
  rewrite length_app in Hf.
  destruct (getc_reading 1 i _ Hg ltac:(lia)) as (c & i1 & -> & Hr).
  destruct (digits_loop_reads fraction fuel (whole ++ (str: ".")) c i1 s Hr Hfr Hs ltac:(lia)) as (c2 & i2 & -> & Hr2).
  cbn [result_bind]. destruct He as [s He|e digits s He Hd Hs' Hns|e sign digits s He Hsg Hd Hs'].
  - pose proof (reading_class is_e c2 i2 s Hr2 is_e_eos He) as E. unfold is_e in E. rewrite E. cbn [result_bind].
    destruct (ungetc_reading c2 i2 s Hr2) as (i' & -> & Hg'). exists i'. split; [done|]. by rewrite app_nil_r.
  - destruct Hr2 as (-> & Hg2 & _). cbn in Hg2. cbn [head default from_option id]. unfold is_e in He. rewrite He.
    destruct (getc_reading 0 i2 _ Hg2 ltac:(lia)) as (c3 & i3 & -> & Hr3).
    pose proof (reading_class is_sign c3 i3 _ Hr3 is_sign_eos Hns) as E. unfold is_sign in E. rewrite E.
    cbn [length] in Hf. rewrite length_app in Hf.
    destruct (digits_loop_reads digits fuel (((whole ++ (str: ".")) ++ fraction) ++ (str: "e")) c3 i3 s Hr3 Hd Hs' ltac:(lia)) as (c4 & i4 & -> & Hr4).
    cbn [result_bind]. destruct (ungetc_reading c4 i4 s Hr4) as (i' & -> & Hg'). exists i'. split; [done|].
    by rewrite <- !app_assoc.
  - destruct Hr2 as (-> & Hg2 & _). cbn in Hg2. cbn [head default from_option id]. unfold is_e in He. rewrite He.
    destruct (getc_reading 0 i2 _ Hg2 ltac:(lia)) as (c3 & i3 & -> & Hr3). destruct Hr3 as (-> & Hg3 & _). cbn in Hg3.
    cbn [head default from_option id]. unfold is_sign in Hsg. rewrite Hsg.
    destruct (getc_reading 0 i3 _ Hg3 ltac:(lia)) as (c4 & i4 & -> & Hr4). cbn [length] in Hf. rewrite length_app in Hf.
    destruct (digits_loop_reads digits fuel ((((whole ++ (str: ".")) ++ fraction) ++ (str: "e")) ++ [sign]) c4 i4 s Hr4 Hd Hs' ltac:(lia)) as (c5 & i5 & -> & Hr5).
    cbn [result_bind]. destruct (ungetc_reading c5 i5 s Hr5) as (i' & -> & Hg'). exists i'. split; [done|].
    by rewrite <- !app_assoc.
Qed.

(** A step returns a token or skips something; the rest is an end of [s]. *)
Definition step_rest (s : list Z) (r : step) : Prop :=
  match r with Token _ i => rest 1 s i | Skip i => rest 1 s i end.

Lemma step_rest_weaken s t r : step_rest t r -> t `suffix_of` s -> step_rest s r.
Proof. destruct r; cbn; intros; by eapply rest_weaken. Qed.

Lemma integer_token_ends l r s : post r (fun '(_, i) => rest 1 s i) -> post (integer_token l r) (step_rest s).
Proof. intros. eapply post_bind; [done|]. by intros [? ?]. Qed.

Lemma string_token_ends l r s : post r (fun '(_, i) => rest 1 s i) -> post (string_token l r) (step_rest s).
Proof. intros. eapply post_bind; [done|]. by intros [? ?]. Qed.

Lemma parse_decimal_number_ends fuel l c i s : gives 1 i s -> (length s < fuel)%nat -> is_decimal c = true ->
  post (parse_decimal_number EOS fuel l c i) (step_rest s).
Proof.
  intros Hg Hf Hc. destruct (span_decimal_text s) as (text & ds & t & -> & Hds & _ & Ht).
  unfold parse_decimal_number. apply bool_decide_eq_true in Hc.
  destruct (decimal_loop_reads text ds fuel (uint512_of_u64 (c - (chr: "0"))) i t Hds Ht Hg Hf) as (v & c1 & i1 & -> & Hr1 & Hv & _).
  { apply uint512_of_u64_wf. unfold uword. lia. }
  cbn [result_bind]. destruct (decide _) as [->|].
  - destruct t as [|d t]; [destruct Hr1 as (Heq & _); cbn in Heq; by apply (eos_char EOS) in Heq|].
    destruct Hr1 as (_ & Hg1 & _). cbn in Hg1. destruct (uint512_decimal_text v Hv) as [whole Hw].
    destruct (span_decimal_text t) as (fraction & _ & t1 & -> & _ & Hfr & Ht1).
    destruct (exponent_text_exists t1) as (exponent & t2 & He).
    destruct (parse_floating_point_reads fuel l v i1 whole fraction exponent t1 t2 Hv) as (i2 & Hg2 & ->);
      [by apply gives_0_1|rewrite length_app in Hf; cbn in Hf; lia|done..|].
    destruct (strtold _); cbn [result_bind]; [|throw]. exists t2. split; [done|].
    apply exponent_text_suffix in He. apply suffix_app_r. apply suffix_cons_r. by apply suffix_app_r.
  - destruct (ungetc_reading c1 i1 t Hr1) as (i2 & -> & Hg2). exists t. split; [done|]. by apply suffix_app_r.
Qed.

Lemma is_either_eos a b : 0 < a <= 0x10FFFF -> 0 < b <= 0x10FFFF -> is_either a b EOS = false.
Proof. intros. apply bool_decide_eq_false. pose proof (@eos_not_character EOS eos). lia. Qed.

Lemma parse_number_ends fuel l c i s : gives 1 i s -> (length s < fuel)%nat -> is_decimal c = true ->
  post (parse_number EOS is_hexdigit hexdigit_to_number fuel l c i) (step_rest s).
Proof.
  intros Hg Hf Hc. unfold parse_number. destruct (decide _); [|by apply parse_decimal_number_ends].
  destruct (getc_reading 1 i s Hg ltac:(lia)) as (c1 & i1 & -> & Hr1).
  assert (rest 0 s i1) as Hrest by (destruct Hr1 as (_ & Hg1 & _); exists (tail s); split; [done|apply tail_suffix]).
  destruct Hrest as (t & Ht & Hs). apply suffix_length in Hs as Hl. apply gives_0_1 in Ht.
  assert (forall r, post r (fun '(_, i) => rest 1 t i) -> post (integer_token l r) (step_rest s)) as Htoken.
  { intros r Hr. apply integer_token_ends. eapply post_weaken; [done|]. intros [? ?] ?. by eapply rest_weaken. }
  destruct (is_either _ _ _); [apply Htoken, parse_binary_number_ends; [done|lia|apply uint512_zero_wf]|].
  destruct (is_either _ _ _); [apply Htoken, parse_hexadecimal_number_ends; [done|lia|apply uint512_zero_wf]|].
  destruct (is_either _ _ _); [apply Htoken, parse_octal_number_ends; [done|lia|apply uint512_zero_wf]|].
  destruct (ungetc_reading c1 i1 s Hr1) as (i2 & -> & Hg2). by apply parse_decimal_number_ends.
Qed.

Lemma is_identifier_char_eos : is_identifier_char EOS = false.
Proof.
  unfold is_identifier_char, is_letter. rewrite is_decimal_eos, orb_false_r.
  apply bool_decide_eq_false. pose proof (@eos_not_character EOS eos). lia.
Qed.

(** The identifier whose first character is [c]. *)
Lemma identifier_loop_reads text fuel acc c i s : gives 1 i (text ++ s) ->
  Forall (fun c => is_identifier_char c = true) text -> (forall c, head s = Some c -> is_identifier_char c = false) ->
  (length text < fuel)%nat ->
  exists c' i', identifier_loop EOS fuel acc c i = Ok (acc ++ c :: text, c', i') /\ reading c' i' s.
Proof.
  revert fuel acc c i. induction text as [|d text IH]; intros fuel acc c i Hg Ht Hs Hf;
    (destruct fuel as [|fuel]; [cbn in Hf; lia|]); cbn [identifier_loop].
  - destruct (getc_reading 1 i s Hg ltac:(lia)) as (c1 & i1 & -> & Hr1).
    rewrite (reading_class is_identifier_char c1 i1 s Hr1 is_identifier_char_eos Hs). by exists c1, i1.
  - apply Forall_cons in Ht as [Hd Ht]. cbn [app] in Hg.
    destruct (getc_cons 1 i d _ Hg ltac:(lia)) as (i1 & -> & Hg1). rewrite Hd.
    destruct (IH fuel (acc ++ [c]) d i1) as (c' & i' & -> & Hr'); [by apply gives_0_1|done|done|cbn in Hf; lia|].
    exists c', i'. by rewrite <- app_assoc.
Qed.

Lemma parse_identifier_ends fuel l c i s : gives 1 i s -> (length s < fuel)%nat ->
  post (parse_identifier EOS to_u8string fuel l c i) (step_rest s).
Proof.
  intros Hg Hf. unfold parse_identifier. destruct (is_letter c).
  - pose proof (span_spec is_identifier_char s) as (Hs & Ha & Hb).
    destruct (span is_identifier_char s) as [text t]. cbn in *. subst s.
    destruct (identifier_loop_reads text fuel [] c i t Hg Ha Hb) as (c1 & i1 & -> & Hr1).
    { rewrite length_app in Hf. lia. }
    cbn [result_bind]. destruct (ungetc_reading c1 i1 t Hr1) as (i2 & -> & Hg2).
    exists t. split; [done|]. by apply suffix_app_r.
  - destruct (to_u8string c) eqn:E; cbn [result_bind]; [throw|]. right. by exists c.
Qed.

Lemma parse_other_ends fuel l c i s : gives 1 i s -> (length s < fuel)%nat ->
  post (parse_other EOS is_hexdigit hexdigit_to_number to_u8string fuel l c i) (step_rest s).
Proof.
  intros Hg Hf. unfold parse_other. destruct (_ || _); [|by apply parse_identifier_ends].
  destruct (getc_reading 1 i s Hg ltac:(lia)) as (c1 & i1 & -> & Hr1).
  assert (rest 0 s i1) as Hrest by (destruct Hr1 as (_ & Hg1 & _); exists (tail s); split; [done|apply tail_suffix]).
  destruct Hrest as (t & Ht & Hs). apply suffix_length in Hs as Hl. apply gives_0_1 in Ht.
  destruct (decide _); [|destruct (ungetc_reading c1 i1 s Hr1) as (i2 & -> & Hg2); by apply parse_identifier_ends].
  apply (post_weaken _ (step_rest t)); [|intros; by eapply step_rest_weaken].
  destruct (is_either _ _ _); [apply integer_token_ends, parse_binary_number_ends; [done|lia|apply uint512_zero_wf]|].
  destruct (is_either _ _ _); [apply string_token_ends, parse_string_ends; [done|lia]|].
  destruct (is_either _ _ _); [apply integer_token_ends, parse_octal_number_ends; [done|lia|apply uint512_zero_wf]|].
  apply integer_token_ends, parse_hexadecimal_number_ends; [done|lia|apply uint512_zero_wf].
Qed.

(** ** The main loop *)

Lemma short_token_ends t l c i s u : reading c i s -> s `suffix_of` u -> post (short_token EOS t l c i) (step_rest u).
Proof.
  intros Hr Hs. unfold short_token, token, new_node. destruct (ungetc_reading c i s Hr) as (i' & -> & Hg). cbn [result_bind].
  destruct (valid_token t); [by exists s|throw].
Qed.

Lemma token_ends t l i s u : gives 0 i s -> s `suffix_of` u -> post (token t l i) (step_rest u).
Proof.
  intros Hg Hs. unfold token, new_node. destruct (valid_token t); [|throw].
  exists s. split; [by apply gives_0_1|done].
Qed.

Lemma skip_ends (r : result input) n s u : post r (rest n s) -> (n <= 1)%nat -> s `suffix_of` u ->
  post (let! i := r in Ok (Skip i)) (step_rest u).
Proof. intros. eapply post_bind; [done|]. intros i Hr. cbn. by eapply rest_weaken. Qed.

(** The second character of an operator. *)
Ltac second := match goal with Hg : Input.gives EOS 0 ?i ?s |- post (let '(_, _) := getc EOS ?i in _) _ =>
  let c := fresh "c" in let i' := fresh "i" in let Hr := fresh "Hr" in
  destruct (getc_reading 0 i s Hg ltac:(lia)) as (c & i' & -> & Hr);
  assert (exists t, gives 0 i' t /\ t `suffix_of` s /\ (length t <= length s)%nat) as (? & ? & ? & ?)
    by (destruct Hr as (_ & ? & _); exists (tail s); split_and!; [done|apply tail_suffix|destruct s; cbn; lia]) end.

Ltac operator := solve
  [ eapply token_ends; [eassumption|reflexivity]
  | eapply token_ends; [eassumption|assumption]
  | eapply token_ends; [eassumption|etrans; eassumption]
  | eapply short_token_ends; [eassumption|reflexivity]
  | eapply short_token_ends; [eassumption|assumption] ].

Lemma lex_step_ends fuel i s : gives 1 i s -> (length s < fuel)%nat ->
  post (lex_step EOS is_hexdigit hexdigit_to_number to_u8string fuel i) (fun r =>
    match r with
    | Token n i => s = [] /\ f_token n = TOKEN_EOF /\ gives 1 i [] \/ step_rest (tail s) (Token n i) /\ s <> []
    | Skip i => rest 1 (tail s) i /\ s <> []
    end).
Proof.
  intros Hg Hf. unfold lex_step. cbv zeta. read.
  { rewrite decide_True by done. cbn. left. split_and!; [done..|]. by apply gives_0_1. }
  rewrite decide_False by done. cbn [tail length] in *.
  apply (post_weaken _ (step_rest t)); [|intros []; cbn; auto].
  destruct (is_space c); [cbn; in_rest|]. destruct (is_single c); [operator|].
  destruct (decide _).
  { second. destruct (decide _); [operator|]. destruct (ungetc_reading _ _ _ Hr) as (? & -> & _). throw. }
  destruct (decide _); [second; destruct (decide _); operator|].
  destruct (decide _).
  { destruct (decide _); [|operator]. eapply (skip_ends _ 1); [apply skip_hash_lines_ends; [by apply gives_0_1|lia]|done..]. }
  destruct (decide _).
  { second. destruct (decide _); [|operator].
    eapply (skip_ends _ 0); [apply comment_loop_ends; [by apply gives_0_1|lia]|lia|done]. }
  destruct (decide _).
  { second. destruct (decide _); [|operator].
    eapply (skip_ends _ 0); [apply skip_line_ends; [by apply gives_0_1|lia]|lia|done]. }
  destruct (decide _); [second; repeat (destruct (decide _); [operator|]); operator|].
  destruct (decide _); [second; repeat (destruct (decide _); [operator|]); operator|].
  destruct (decide _).
  { second. destruct (decide _); [operator|]. destruct (decide _); [|operator].
    second. destruct (decide _); [operator|]. eapply short_token_ends; [eassumption|]. done. }
  destruct (decide _); [apply string_token_ends, parse_string_ends; [by apply gives_0_1|lia]|].
  destruct (is_decimal c) eqn:E; [apply parse_number_ends; [by apply gives_0_1|lia|done]|].
  apply parse_other_ends; [by apply gives_0_1|lia].
Qed.

Lemma token_loop_ends fuel i s : gives 1 i s -> (S (length s) < fuel)%nat ->
  post (token_loop EOS is_hexdigit hexdigit_to_number to_u8string fuel i) (fun '(n, i) =>
    s = [] /\ f_token n = TOKEN_EOF /\ gives 1 i [] \/
    exists t, gives 1 i t /\ t `suffix_of` s /\ ((length t < length s)%nat \/ f_token n = TOKEN_EOF /\ t = [])).
Proof.
  revert i s. induction fuel as [|fuel IH]; intros i s Hg Hf; [lia|]. cbn [token_loop].
  eapply post_bind; [apply lex_step_ends; [done|lia]|]. intros [n i1|i1].
  - intros [?|[(t & Ht & Hs) Hn]]; cbn; [auto|]. right. exists t. destruct s as [|c s]; [done|].
    split_and!; [done|by apply suffix_cons_r|]. left. apply suffix_length in Hs. cbn in *. lia.
  - intros [(t & Ht & Hs) Hn]. destruct s as [|c s]; [done|]. cbn [tail length] in *.
    apply suffix_length in Hs as Hl.
    eapply post_weaken; [apply (IH i1 t Ht); lia|]. intros [n i2] [(-> & ? & ?)|(u & Hu & Hsu & Hlu)].
    + right. exists []. split_and!; [done|apply suffix_nil|by right].
    + right. exists u. split_and!; [done|apply suffix_cons_r; by etrans|]. destruct Hlu; [left; lia|by right].
Qed.
End LexerTotal.

(** C32: with one unit of fuel more than the characters left, and one for the end,
    [get_next_token()] always ends, whatever the script: with a node, and the input then gives an end of
    what it gave, strictly shorter unless the node is the end of the script; or
    with an exception that says what is wrong with the script (or that the
    encoder threw).  It never puts back more than one character, so that the
    buffer of the input never overflows. A lexer without input is an error. *)
Theorem lexer_total EOS is_hexdigit hexdigit_to_number to_u8string
    (eos : EndOfScript EOS) (laws : HexdigitLaws is_hexdigit hexdigit_to_number) fuel i s :
  gives EOS 1 i s -> (S (length s) < fuel)%nat ->
  match get_next_token EOS is_hexdigit hexdigit_to_number to_u8string fuel (Some i) with
  | Ok (n, Some i') =>
      exists t, gives EOS 1 i' t /\ t `suffix_of` s /\
        ((length t < length s)%nat \/ f_token n = TOKEN_EOF /\ t = [])
  | Ok (n, None) => False
  | Throw e => lex_error to_u8string e
  end /\
  get_next_token EOS is_hexdigit hexdigit_to_number to_u8string fuel None = Throw logic_error.
Proof.
  intros Hg Hf. split; [|done]. unfold get_next_token.
  pose proof (token_loop_ends EOS is_hexdigit hexdigit_to_number to_u8string fuel i s Hg Hf) as H.
  destruct (token_loop _ _ _ _ _ _) as [[n i']|e]; cbn in *; [|done].
  destruct H as [(-> & Hn & Hi)|H]; [|done]. exists []. auto.
Qed.

(** The parameters, as the libraries document them, for scripts in ASCII. *)
Definition example_eos : Z := 2 ^ 32 - 1.
#[export] Instance example_end_of_script : EndOfScript example_eos.
Proof. constructor. right. done. Qed.
Definition example_to_u8string (c : Z) : result (list Z) := Ok [c].

Definition example_token (s : list Z) : result (node * lexer) :=
  get_next_token example_eos ascii_is_hexdigit ascii_hexdigit_to_number example_to_u8string
    100 (set_input None (input_init s [])).

Lemma lexer_total_witness :
  match example_token (str: "/* one */ 0x1F + 2") with
  | Ok (n, Some i') =>
      exists t, gives example_eos 1 i' t /\ t `suffix_of` (str: "/* one */ 0x1F + 2") /\
        ((length t < 18)%nat \/ f_token n = TOKEN_EOF /\ t = [])
  | Ok (n, None) => False
  | Throw e => lex_error example_to_u8string e
  end.
Proof.
  apply (lexer_total example_eos ascii_is_hexdigit ascii_hexdigit_to_number example_to_u8string
    example_end_of_script ascii_hexdigit_laws 100 (input_init (str: "/* one */ 0x1F + 2") []) (str: "/* one */ 0x1F + 2")).
  - apply (gives_weaken _ 0); [lia|]. apply gives_init. closed_decide.
  - apply Nat.ltb_lt. vm_compute. reflexivity.
Defined.
