(* ===== verification/LexerText.v ===== *)
(** * What the tokens of the query language are

    The texts of numbers, strings, identifiers, operators and of what is skipped
    between tokens, each with the node [get_next_token()] returns and the
    characters it leaves. *)

From S2P Require Import Prelude Limbs BigLoops Uint512 Int512 BigText Input LongDouble Lexer LexerTotal.

Section LexerText.
Context (EOS : Z) (is_hexdigit : Z -> bool) (hexdigit_to_number : Z -> Z) (to_u8string : Z -> result (list Z)).
Context {eos : EndOfScript EOS} {laws : HexdigitLaws is_hexdigit hexdigit_to_number}.

#[local] Abbreviation gives := (gives EOS).
#[local] Abbreviation reading := (reading EOS).
#[local] Abbreviation lex_step := (lex_step EOS is_hexdigit hexdigit_to_number to_u8string).
#[local] Abbreviation get_next_token := (get_next_token EOS is_hexdigit hexdigit_to_number to_u8string).

(** The next token of [i] is the node [n], and [s] follows. *)
Definition lexes (fuel : nat) (i : input) (n : node) (s : list Z) : Prop :=
  exists i', get_next_token fuel (Some i) = Ok (n, Some i') /\ gives 1 i' s.

(** The switch on the first character. *)
Ltac not_in := apply bool_decide_eq_false; rewrite ?elem_of_cons, ?elem_of_nil; lia.

Lemma lex_step_number fuel i c s : gives 1 i (c :: s) -> is_decimal c = true ->
  exists i', lex_step fuel i = parse_number EOS is_hexdigit hexdigit_to_number fuel (f_location i) c i' /\ gives 0 i' s.
Proof.
  intros Hg Hc. destruct (getc_cons EOS 1 i c s Hg ltac:(lia)) as (i' & Hi & Hg'). exists i'. split; [|done].
  unfold Lexer.lex_step. cbv zeta. rewrite Hi, Hc. apply bool_decide_eq_true in Hc.
  pose proof (@eos_not_character EOS eos).
  assert (is_space c = false) as -> by not_in. assert (is_single c = false) as -> by not_in.
  by rewrite !decide_False by lia.
Qed.

Lemma lex_step_other fuel i c s : gives 1 i (c :: s) -> is_letter c = true ->
  exists i', lex_step fuel i = parse_other EOS is_hexdigit hexdigit_to_number to_u8string fuel (f_location i) c i' /\ gives 0 i' s.
Proof.
  intros Hg Hc. destruct (getc_cons EOS 1 i c s Hg ltac:(lia)) as (i' & Hi & Hg'). exists i'. split; [|done].
  unfold Lexer.lex_step. cbv zeta. rewrite Hi. apply bool_decide_eq_true in Hc.
  pose proof (@eos_not_character EOS eos).
  assert (is_space c = false) as -> by not_in. assert (is_single c = false) as -> by not_in.
  assert (is_decimal c = false) as -> by (apply bool_decide_eq_false; lia).
  by rewrite !decide_False by lia.
Qed.

Lemma lexes_step fuel i i' r n s : lex_step fuel i = r -> r = Ok (Token n i') -> gives 1 i' s -> lexes (S fuel) i n s.
Proof. intros <- Hr Hg. exists i'. split; [|done]. unfold Lexer.get_next_token. cbn [token_loop]. by rewrite Hr. Qed.

(** ** Integers *)

Lemma number_end_value (number_string : bool) v c i t s : reading c i t ->
  (if number_string then t = QUOTE :: s else t = s) ->
  exists i', number_end EOS number_string true v c i = Ok (v, i') /\ gives 1 i' s.
Proof.
  intros Hr Ht. unfold number_end. destruct number_string; subst t.
  - destruct Hr as (-> & Hg & _). cbn in *. exists i. split; [done|]. by apply gives_0_1.
  - destruct (ungetc_reading EOS c i s Hr) as (i' & -> & Hg'). by exists i'.
Qed.

(** No digit of the base, nor a decimal digit, comes first. *)
Definition no_digit (base : Z) (s : list Z) : Prop := forall c, head s = Some c -> digit_of (Z.max 10 base) c = None.

Lemma digit_loop_value (loop : nat -> bool -> uint512_t -> input -> result (uint512_t * input)) base (number_string : bool) text ds fuel i t s :
  base <= 16 ->
  (forall fuel found v i c d s, gives 1 i (c :: s) -> digit_of base c = Some d -> uint512_wf v ->
    exists v' i', loop (S fuel) found v i = loop fuel true v' i' /\ gives 0 i' s /\
      uint512_wf v' /\ uval v' = ((uval v * base) mod 2 ^ 512 + d) mod 2 ^ 512) ->
  (forall fuel found v i s c i', getc EOS i = (c, i') -> reading c i' s -> no_digit base s ->
    loop (S fuel) found v i = number_end EOS number_string found v c i') ->
  mapM (digit_of base) text = Some ds -> ds <> [] -> gives 1 i (text ++ t) -> (length (text ++ t) < fuel)%nat ->
  (if number_string then t = QUOTE :: s else t = s /\ no_digit base s) ->
  exists v i', loop fuel false uint512_zero i = Ok (v, i') /\ gives 1 i' s /\ uint512_wf v /\
    uval v = (horner base ds) mod 2 ^ 512.
Proof.
  intros Hbase Hturn Hstop Hds Hne Hg Hf Ht.
  destruct (digit_loop_reads EOS loop base Hturn text ds fuel false uint512_zero i t Hds Hg Hf uint512_zero_wf)
    as ([|fuel'] & v & i1 & -> & Hg1 & Hf1 & Hv & Hval); [lia|].
  rewrite bool_decide_eq_false_2 by (intros ->; injection Hds as <-; done). cbn [orb negb].
  destruct (getc_reading EOS 1 i1 t Hg1 ltac:(lia)) as (c & i2 & Hi & Hr).
  rewrite (Hstop fuel' true v i1 t c i2 Hi Hr).
  - destruct (number_end_value number_string v c i2 t s Hr) as (i3 & -> & Hg3); [by destruct number_string, Ht|].
    exists v, i3. split_and!; [done..|]. by rewrite Hval.
  - destruct number_string; [|by destruct Ht as [-> ?]]. subst t. intros ? [= <-].
    unfold digit_of. by rewrite !decide_False by lia.
Qed.

Lemma digit_of_decimal c : digit_of 10 c = None -> ~ (chr: "0") <= c <= (chr: "9").
Proof. rewrite digit_of_low by lia. destruct (decide _); [done|]. lia. Qed.

Lemma reading_eos_or c i s base : reading c i s -> no_digit base s -> c = EOS \/ digit_of (Z.max 10 base) c = None.
Proof. intros (-> & _) Hs. destruct s as [|d s]; [by left|]. right. by apply Hs. Qed.

Lemma binary_value (number_string : bool) text ds fuel i t s : mapM (digit_of 2) text = Some ds -> ds <> [] ->
  gives 1 i (text ++ t) -> (length (text ++ t) < fuel)%nat ->
  (if number_string then t = QUOTE :: s else t = s /\ no_digit 2 s) ->
  exists v i', parse_binary_number EOS fuel number_string false uint512_zero i = Ok (v, i') /\ gives 1 i' s /\ uint512_wf v /\
    uval v = horner 2 ds mod 2 ^ 512.
Proof.
  apply (digit_loop_value (fun fuel => parse_binary_number EOS fuel number_string)); [lia|intros; by eapply binary_turn|].
  intros fuel' found v i1 s1 c i2 Hi Hr Hs. cbn [parse_binary_number]. rewrite Hi.
  assert (~ (chr: "0") <= c <= (chr: "9")).
  { pose proof (@eos_not_character EOS eos). destruct (reading_eos_or c i2 s1 2 Hr Hs) as [->|?%digit_of_decimal]; [lia|done]. }
  by rewrite !decide_False by lia.
Qed.

Lemma octal_value (number_string : bool) text ds fuel i t s : mapM (digit_of 8) text = Some ds -> ds <> [] ->
  gives 1 i (text ++ t) -> (length (text ++ t) < fuel)%nat ->
  (if number_string then t = QUOTE :: s else t = s /\ no_digit 8 s) ->
  exists v i', parse_octal_number EOS fuel number_string false uint512_zero i = Ok (v, i') /\ gives 1 i' s /\ uint512_wf v /\
    uval v = horner 8 ds mod 2 ^ 512.
Proof.
  apply (digit_loop_value (fun fuel => parse_octal_number EOS fuel number_string)); [lia|intros; by eapply octal_turn|].
  intros fuel' found v i1 s1 c i2 Hi Hr Hs. cbn [parse_octal_number]. rewrite Hi.
  assert (~ (chr: "0") <= c <= (chr: "9")).
  { pose proof (@eos_not_character EOS eos). destruct (reading_eos_or c i2 s1 8 Hr Hs) as [->|?%digit_of_decimal]; [lia|done]. }
  assert (is_octal c = false) as -> by (apply bool_decide_eq_false; lia). by rewrite !decide_False by lia.
Qed.

Lemma hexadecimal_value (number_string : bool) text ds fuel i t s : mapM (digit_of 16) text = Some ds -> ds <> [] ->
  gives 1 i (text ++ t) -> (length (text ++ t) < fuel)%nat ->
  (if number_string then t = QUOTE :: s else t = s /\ no_digit 16 s) ->
  exists v i', parse_hexadecimal_number EOS is_hexdigit hexdigit_to_number fuel number_string false uint512_zero i = Ok (v, i') /\
    gives 1 i' s /\ uint512_wf v /\ uval v = horner 16 ds mod 2 ^ 512.
Proof using laws eos.
  apply (digit_loop_value (fun fuel => parse_hexadecimal_number EOS is_hexdigit hexdigit_to_number fuel number_string));
    [lia|intros; by eapply hexadecimal_turn|].
  intros fuel' found v i1 s1 c i2 Hi Hr Hs. cbn [parse_hexadecimal_number]. rewrite Hi.
  destruct (reading_eos_or c i2 s1 16 Hr Hs) as [->|Hc].
  - by rewrite (is_hexdigit_eos EOS is_hexdigit hexdigit_to_number).
  - change (Z.max 10 16) with 16 in Hc. by rewrite (is_hexdigit_digit_of is_hexdigit hexdigit_to_number), Hc.
Qed.

(** [integer_text text s x]: [text], when [s] follows, is an integer of value
    [x]: digits after a prefix, digits in quotes after a letter, or decimal
    digits. *)
Definition bases : list (Z * Z * Z) :=
  [(2, (chr: "b"), (chr: "B")); (8, (chr: "o"), (chr: "O")); (16, (chr: "x"), (chr: "X"))].

Inductive integer_text : list Z -> list Z -> Z -> Prop :=
  | prefixed_integer base lower upper p digits ds s :
      (base, lower, upper) ∈ bases -> p ∈ [lower; upper] ->
      mapM (digit_of base) digits = Some ds -> ds <> [] -> no_digit base s ->
      integer_text ((chr: "0") :: p :: digits) s (horner base ds)
  | quoted_integer base lower upper p digits ds s :
      (base, lower, upper) ∈ bases -> p ∈ [lower; upper] ->
      mapM (digit_of base) digits = Some ds -> ds <> [] ->
      integer_text (p :: QUOTE :: digits ++ [QUOTE]) s (horner base ds)
  | decimal_integer digits ds s :
      mapM (digit_of 10) digits = Some ds -> ds <> [] -> no_digit 10 s -> head s <> Some (chr: ".") ->
      (digits = (str: "0") -> forall c, head s = Some c -> c ∉ (str: "bBoOxX")) ->
      integer_text digits s (horner 10 ds).

(** What is true of an integer token. *)
Definition integer_token_of (i : input) (n : node) (x : Z) : Prop :=
  f_token n = TOKEN_INTEGER /\ f_node_location n = f_location i /\ int512_wf (f_integer n) /\ sval (f_integer n) = smod x.

Lemma integer_token_value i l r v i' x : l = f_location i -> r = Ok (v, i') -> uint512_wf v -> uval v = x mod 2 ^ 512 ->
  exists n, integer_token l r = Ok (Token n i') /\ integer_token_of i n x.
Proof.
  intros -> -> Hv Hx. eexists. split; [done|]. destruct (int512_of_uint512_sval v Hv) as [Hw Hs].
  split_and!; [done..|]. cbn. by rewrite Hs, Hx, smod_mod.
Qed.

(** The branch of a prefix, of a letter. *)
Lemma in_bases base lower upper p : (base, lower, upper) ∈ bases -> p ∈ [lower; upper] ->
  (base = 2 /\ (p = (chr: "b") \/ p = (chr: "B"))) \/ (base = 8 /\ (p = (chr: "o") \/ p = (chr: "O"))) \/
  (base = 16 /\ (p = (chr: "x") \/ p = (chr: "X"))).
Proof.
  unfold bases. rewrite !elem_of_cons, !elem_of_nil. intros [[= -> -> ->]|[[= -> -> ->]|[[= -> -> ->]|[]]]] Hp; intuition lia.
Qed.

Ltac either := first [rewrite is_either_true by lia | rewrite is_either_false by lia].

Lemma prefixed_integer_step fuel i base lower upper p digits ds s :
  (base, lower, upper) ∈ bases -> p ∈ [lower; upper] -> mapM (digit_of base) digits = Some ds -> ds <> [] -> no_digit base s ->
  gives 1 i ((chr: "0") :: p :: digits ++ s) -> (length (digits ++ s) < fuel)%nat ->
  exists n i', lex_step fuel i = Ok (Token n i') /\ gives 1 i' s /\ integer_token_of i n (horner base ds).
Proof.
  intros Hb Hp Hds Hne Hs Hg Hf. destruct (lex_step_number fuel i _ _ Hg) as (i1 & -> & Hg1); [done|].
  unfold parse_number. rewrite decide_True by done.
  destruct (getc_cons EOS 0 i1 _ _ Hg1 ltac:(lia)) as (i2 & -> & Hg2). apply gives_0_1 in Hg2.
  destruct (in_bases base lower upper p Hb Hp) as [[-> Hp']|[[-> Hp']|[-> Hp']]]; clear Hb Hp; repeat either.
  - destruct (binary_value false digits ds fuel i2 s s) as (v & i3 & Hr & Hg3 & Hv & Hval); [done..|].
    destruct (integer_token_value i _ _ v i3 _ eq_refl Hr Hv Hval) as (n & Hn & Hint). by exists n, i3.
  - destruct (octal_value false digits ds fuel i2 s s) as (v & i3 & Hr & Hg3 & Hv & Hval); [done..|].
    destruct (integer_token_value i _ _ v i3 _ eq_refl Hr Hv Hval) as (n & Hn & Hint). by exists n, i3.
  - destruct (hexadecimal_value false digits ds fuel i2 s s) as (v & i3 & Hr & Hg3 & Hv & Hval); [done..|].
    destruct (integer_token_value i _ _ v i3 _ eq_refl Hr Hv Hval) as (n & Hn & Hint). by exists n, i3.
Qed.

Lemma quoted_integer_step fuel i base lower upper p digits ds s :
  (base, lower, upper) ∈ bases -> p ∈ [lower; upper] -> mapM (digit_of base) digits = Some ds -> ds <> [] ->
  gives 1 i (p :: QUOTE :: digits ++ QUOTE :: s) -> (length (digits ++ QUOTE :: s) < fuel)%nat ->
  exists n i', lex_step fuel i = Ok (Token n i') /\ gives 1 i' s /\ integer_token_of i n (horner base ds).
Proof.
  intros Hb Hp Hds Hne Hg Hf. pose proof (in_bases base lower upper p Hb Hp) as Hp'. clear Hb Hp.
  destruct (lex_step_other fuel i _ _ Hg) as (i1 & -> & Hg1); [apply bool_decide_eq_true; lia|].
  unfold parse_other. destruct (getc_cons EOS 0 i1 _ _ Hg1 ltac:(lia)) as (i2 & -> & Hg2). apply gives_0_1 in Hg2.
  destruct Hp' as [[-> Hp']|[[-> Hp']|[-> Hp']]]; repeat either; cbn [orb]; rewrite decide_True by done; repeat either.
  - destruct (binary_value true digits ds fuel i2 (QUOTE :: s) s) as (v & i3 & Hr & Hg3 & Hv & Hval); [done..|].
    destruct (integer_token_value i _ _ v i3 _ eq_refl Hr Hv Hval) as (n & Hn & Hint). by exists n, i3.
  - destruct (octal_value true digits ds fuel i2 (QUOTE :: s) s) as (v & i3 & Hr & Hg3 & Hv & Hval); [done..|].
    destruct (integer_token_value i _ _ v i3 _ eq_refl Hr Hv Hval) as (n & Hn & Hint). by exists n, i3.
  - destruct (hexadecimal_value true digits ds fuel i2 (QUOTE :: s) s) as (v & i3 & Hr & Hg3 & Hv & Hval); [done..|].
    destruct (integer_token_value i _ _ v i3 _ eq_refl Hr Hv Hval) as (n & Hn & Hint). by exists n, i3.
Qed.

(** The character after a leading zero is not the letter of a base. *)
Definition no_prefix (s : list Z) : Prop := forall c, head s = Some c -> c ∉ (str: "bBoOxX").

Lemma reading_no_prefix c i s : reading c i s -> no_prefix s -> c ∉ (str: "bBoOxX").
Proof.
  intros (-> & _) Hs. destruct s as [|d s]; [|by apply Hs]. cbn [head default from_option id].
  pose proof (@eos_not_character EOS eos). rewrite !elem_of_cons, elem_of_nil. lia.
Qed.

Lemma decimal_start fuel i c s : gives 1 i (c :: s) -> is_decimal c = true -> (c = (chr: "0") -> no_prefix s) ->
  exists i', lex_step fuel i = parse_decimal_number EOS fuel (f_location i) c i' /\ gives 1 i' s.
Proof.
  intros Hg Hc Hs. destruct (lex_step_number fuel i c s Hg Hc) as (i1 & -> & Hg1). unfold parse_number.
  destruct (decide _) as [->|]; [|exists i1; split; [done|by apply gives_0_1]].
  destruct (getc_reading EOS 0 i1 s Hg1 ltac:(lia)) as (c1 & i2 & -> & Hr).
  pose proof (reading_no_prefix c1 i2 s Hr (Hs eq_refl)) as Hc1. rewrite !elem_of_cons, elem_of_nil in Hc1.
  repeat either. destruct (ungetc_reading EOS c1 i2 s Hr) as (i3 & -> & Hg3). by exists i3.
Qed.

Lemma no_digit_decimal s : no_digit 10 s <-> forall c, head s = Some c -> is_decimal c = false.
Proof.
  split; intros H c Hc; specialize (H c Hc); change (Z.max 10 10) with 10 in *.
  - rewrite is_decimal_spec, H. by apply bool_decide_eq_false.
  - rewrite is_decimal_spec in H. apply bool_decide_eq_false in H. by apply eq_None_not_Some.
Qed.

(** The value of the digits, the first of which was read before the loop. *)
Lemma decimal_digits_read fuel c digits ds i s : mapM (digit_of 10) (c :: digits) = Some ds -> no_digit 10 s ->
  gives 1 i (digits ++ s) -> (length (digits ++ s) < fuel)%nat ->
  exists v c' i', decimal_loop EOS fuel (uint512_of_u64 (c - (chr: "0"))) i = Ok (v, c', i') /\ reading c' i' s /\
    uint512_wf v /\ uval v = horner 10 ds mod 2 ^ 512.
Proof.
  intros Hds Hs Hg Hf. cbn in Hds. destruct (digit_of 10 c) as [d|] eqn:Ed; [|done]. cbn in Hds.
  destruct (mapM (digit_of 10) digits) as [ds1|] eqn:Eds; [|done]. injection Hds as <-.
  pose proof (digit_of_range 10 c d Ed) as [Hd _]. rewrite (low_digit_value 10 c d) by (done || lia).
  destruct (decimal_loop_reads EOS digits ds1 fuel (uint512_of_u64 d) i s Eds) as (v & c' & i' & Hl & Hr & Hv & Hval);
    [by apply no_digit_decimal|done|done|apply uint512_of_u64_wf; unfold uword; lia|].
  exists v, c', i'. split_and!; [done..|]. by rewrite Hval, uval_of_u64, horner_cons.
Qed.

Lemma decimal_is_decimal base digits ds : base <= 10 -> 0 <= base -> mapM (digit_of base) digits = Some ds ->
  Forall (fun c => is_decimal c = true) digits.
Proof.
  intros Hb H0 Hds. apply mapM_Some in Hds. apply Forall_lookup. intros k c Hc.
  destruct (Forall2_lookup_l _ _ _ _ _ Hds Hc) as (d & _ & Hd). rewrite digit_of_low in Hd by lia.
  destruct (decide _); [|done]. apply bool_decide_eq_true. lia.
Qed.

(** What follows a leading zero in a longer text is a digit. *)
Lemma zero_no_prefix digits s : Forall (fun c => is_decimal c = true) digits -> (digits = [] -> no_prefix s) -> no_prefix (digits ++ s).
Proof.
  intros Hd Hs. destruct digits as [|c digits]; [by apply Hs|]. intros ? [= <-].
  apply Forall_cons in Hd as [Hc _]. apply bool_decide_eq_true in Hc. rewrite !elem_of_cons, elem_of_nil. lia.
Qed.

Lemma decimal_integer_step fuel i digits ds s : mapM (digit_of 10) digits = Some ds -> ds <> [] -> no_digit 10 s ->
  head s <> Some (chr: ".") -> (digits = (str: "0") -> no_prefix s) ->
  gives 1 i (digits ++ s) -> (length (digits ++ s) < fuel)%nat ->
  exists n i', lex_step fuel i = Ok (Token n i') /\ gives 1 i' s /\ integer_token_of i n (horner 10 ds).
Proof.
  intros Hds Hne Hs Hdot Hzero Hg Hf. pose proof (decimal_is_decimal 10 digits ds ltac:(lia) ltac:(lia) Hds) as Hdec.
  destruct digits as [|c digits]; [by injection Hds as <-|]. apply Forall_cons in Hdec as [Hc Hdec]. cbn [app length] in *.
  destruct (decimal_start fuel i c (digits ++ s) Hg Hc) as (i1 & -> & Hg1).
  { intros ->. apply zero_no_prefix; [done|]. intros ->. by apply Hzero. }
  unfold parse_decimal_number.
  destruct (decimal_digits_read fuel c digits ds i1 s Hds Hs Hg1 ltac:(lia)) as (v & c1 & i2 & -> & Hr & Hv & Hval).
  cbn [result_bind]. rewrite decide_False.
  2:{ intros ->. destruct Hr as (Hr & _). destruct s as [|d s]; cbn in Hr; [by apply (eos_char EOS) in Hr|]. by subst d. }
  destruct (ungetc_reading EOS c1 i2 s Hr) as (i3 & -> & Hg3). cbn [result_bind].
  eexists _, i3. split; [done|]. split; [done|]. destruct (int512_of_uint512_sval v Hv) as [Hw Hsv].
  split_and!; [done..|]. cbn. by rewrite Hsv, Hval, smod_mod.
Qed.

Lemma integer_text_step fuel i text s x : integer_text text s x -> gives 1 i (text ++ s) -> (length (text ++ s) < fuel)%nat ->
  exists n i', lex_step fuel i = Ok (Token n i') /\ gives 1 i' s /\ integer_token_of i n x.
Proof.
  intros [base lower upper p digits ds s1|base lower upper p digits ds s1|digits ds s1] Hg Hf.
  - eapply prefixed_integer_step; try done. cbn in Hf. lia.
  - cbn [app] in Hg, Hf. rewrite <- app_assoc in Hg, Hf. eapply quoted_integer_step; try done. cbn in Hf |- *. lia.
  - by eapply decimal_integer_step.
Qed.

(** ** Floating point numbers *)

(** The number a text denotes, as [strtold] rounds it: the whole part is
    [whole], which the lexer keeps modulo 2 ^ 512. *)
Definition floating_value (whole : Z) (fraction exponent : list Z) : option long_double :=
  e ← read_exponent exponent;
  let e := e - Z.of_nat (length fraction) in
  long_double_of_quotient
    ((whole mod 2 ^ 512 * 10 ^ Z.of_nat (length fraction) + decimal_value fraction) * 10 ^ Z.max 0 e) (10 ^ Z.max 0 (- e)).

Lemma decimal_value_app a b : decimal_value (a ++ b) = decimal_value a * 10 ^ Z.of_nat (length b) + decimal_value b.
Proof.
  unfold decimal_value, horner. rewrite fmap_app, foldl_app, foldl_horner, length_fmap. done.
Qed.

Lemma decimal_text_value v : uint512_wf v ->
  exists text, uint512_to_string v 10 false false = Ok text /\ Forall (fun c => is_decimal c = true) text /\ decimal_value text = uval v.
Proof.
  intros Hv. destruct (decide (uval v = 0)) as [E|].
  - exists (str: "0"). split_and!; [by apply uint512_is_zero_text|by repeat constructor|done].
  - destruct (uint512_to_string_value v 10 false false Hv) as (ds & H & Hds & Hh & _); [done|lia|].
    eexists. split; [exact H|]. cbn [app]. assert (forall d, 0 <= d < 10 -> digit_char false d = d + (chr: "0")) as Hc.
    { intros d Hd. unfold digit_char. by rewrite decide_False by lia. }
    split.
    + apply Forall_fmap. eapply Forall_impl; [done|]. intros d Hd. cbn in Hd |- *. rewrite (Hc d Hd). apply bool_decide_eq_true. lia.
    + unfold decimal_value. rewrite <- list_fmap_compose. rewrite <- Hh. f_equal.
      rewrite <- (list_fmap_id ds) at 2. apply list_fmap_ext. intros k d Hk. cbn.
      rewrite (Hc d (proj1 (Forall_lookup _ _) Hds k d Hk)). lia.
Qed.

Lemma exponent_text_head s exponent s' c : exponent_text s exponent s' -> head exponent = Some c -> c = (chr: "e").
Proof. intros [] Hh; [done|by injection Hh|by injection Hh]. Qed.

Lemma strtold_text whole fraction exponent s s' : Forall (fun c => is_decimal c = true) whole ->
  Forall (fun c => is_decimal c = true) fraction -> exponent_text s exponent s' ->
  strtold ((whole ++ (str: ".")) ++ fraction ++ exponent) =
    (e ← read_exponent exponent;
     let e := e - Z.of_nat (length fraction) in
     long_double_of_quotient (decimal_value (whole ++ fraction) * 10 ^ Z.max 0 e) (10 ^ Z.max 0 (- e))).
Proof.
  intros Hw Hf He. unfold strtold. rewrite <- app_assoc. cbn [app].
  rewrite (span_app is_decimal whole) by (done || by intros ? [= <-]). rewrite decide_True by done.
  rewrite (span_app is_decimal fraction exponent); [done..|]. intros c Hc. by rewrite (exponent_text_head s exponent s' c He Hc).
Qed.

Lemma floating_step fuel i whole ws fraction exponent s s' : mapM (digit_of 10) whole = Some ws -> ws <> [] ->
  Forall (fun c => is_decimal c = true) fraction -> no_digit 10 s -> exponent_text s exponent s' ->
  gives 1 i (whole ++ (chr: ".") :: fraction ++ s) -> (length (whole ++ (chr: ".") :: fraction ++ s) < fuel)%nat ->
  exists i', gives 1 i' s' /\ lex_step fuel i =
    match floating_value (horner 10 ws) fraction exponent with
    | Some fp => Ok (Token (floating_point_node (f_location i) fp) i')
    | None => Throw invalid_number
    end.
Proof.
  intros Hws Hne Hfr Hs He Hg Hf. pose proof (decimal_is_decimal 10 whole ws ltac:(lia) ltac:(lia) Hws) as Hdec.
  destruct whole as [|c whole]; [by injection Hws as <-|]. apply Forall_cons in Hdec as [Hc Hdec]. cbn [app length] in *.
  destruct (decimal_start fuel i c _ Hg Hc) as (i1 & -> & Hg1).
  { intros ->. apply zero_no_prefix; [done|]. intros ->. intros ? [= <-]. by apply (bool_decide_unpack _). }
  unfold parse_decimal_number.
  destruct (decimal_digits_read fuel c whole ws i1 ((chr: ".") :: fraction ++ s) Hws)
    as (v & c1 & i2 & -> & Hr & Hv & Hval); [by intros ? [= <-]|done|lia|].
  cbn [result_bind]. destruct Hr as (-> & Hg2 & _). cbn [head default from_option id tail] in *.
  rewrite decide_True by done. destruct (decimal_text_value v Hv) as (text & Htext & Hdt & Htv).
  rewrite length_app in Hf. cbn [length] in Hf.
  destruct (parse_floating_point_reads EOS fuel (f_location i) v i2 text fraction exponent s s' Hv) as (i3 & Hg3 & ->);
    [by apply gives_0_1|lia|done|by apply no_digit_decimal|done..|].
  exists i3. split; [done|]. rewrite (strtold_text text fraction exponent s s') by done.
  unfold floating_value. destruct (read_exponent exponent) as [e|]; cbn [mbind option_bind]; [|done].
  rewrite decimal_value_app, Htv, Hval. by destruct (long_double_of_quotient _ _).
Qed.

(** [fp] is within half a unit of its last place of n * 10 ^ e. *)
Definition nearest_to (fp : long_double) (n e : Z) : Prop :=
  let p := n * 10 ^ Z.max 0 e in
  let q := 10 ^ Z.max 0 (- e) in
  let x := ld_exponent fp in
  0 <= ld_significand fp /\
  Z.abs (p * 2 ^ Z.max 0 (- x) - ld_significand fp * (q * 2 ^ Z.max 0 x)) * 2 <= q * 2 ^ Z.max 0 x.

Lemma decimal_value_nonneg s : Forall (fun c => is_decimal c = true) s -> 0 <= decimal_value s.
Proof.
  intros Hs. apply horner_nonneg; [lia|]. apply Forall_fmap. eapply Forall_impl; [done|].
  intros c Hc%bool_decide_eq_true. cbn. lia.
Qed.

Lemma floating_value_nearest whole fraction exponent fp : Forall (fun c => is_decimal c = true) fraction ->
  floating_value whole fraction exponent = Some fp ->
  exists e, read_exponent exponent = Some e /\
    nearest_to fp (whole mod 2 ^ 512 * 10 ^ Z.of_nat (length fraction) + decimal_value fraction) (e - Z.of_nat (length fraction)).
Proof.
  intros Hf. unfold floating_value. destruct (read_exponent exponent) as [e|]; [|done]. cbn. intros Hq.
  exists e. split; [done|]. apply long_double_of_quotient_error; [| |exact Hq].
  - pose proof (decimal_value_nonneg fraction Hf). pose proof (Z.mod_pos_bound whole (2 ^ 512) ltac:(lia)).
    pose proof (Z.pow_nonneg 10 (Z.of_nat (length fraction)) ltac:(lia)).
    pose proof (Z.pow_nonneg 10 (Z.max 0 (e - Z.of_nat (length fraction))) ltac:(lia)).
    repeat apply Z.mul_nonneg_nonneg || apply Z.add_nonneg_nonneg; lia.
  - apply Z.pow_pos_nonneg; lia.
Qed.
End LexerText.

(** C34: [text] followed by [s] is an integer of value [x]: the next token is an
    integer node with the location of the input, whose value is [x] reduced to 512 bits in two's complement, and [s] is what follows. Digits, a
    period, a fraction and an exponent are a floating point node whose value is
    within half a unit of the last place of the number the text denotes, the
    whole part taken modulo 2 ^ 512; the text is refused when the exponent has no
    digits or the number is out of range. *)
Theorem lexer_numbers EOS is_hexdigit hexdigit_to_number to_u8string
    (eos : EndOfScript EOS) (laws : HexdigitLaws is_hexdigit hexdigit_to_number) fuel i :
  (forall text s x, integer_text text s x -> gives EOS 1 i (text ++ s) -> (length (text ++ s) < fuel)%nat ->
    exists n, lexes EOS is_hexdigit hexdigit_to_number to_u8string (S fuel) i n s /\ integer_token_of i n x) /\
  (forall whole ws fraction exponent s s', mapM (digit_of 10) whole = Some ws -> ws <> [] ->
    Forall (fun c => is_decimal c = true) fraction -> no_digit 10 s -> exponent_text s exponent s' ->
    gives EOS 1 i (whole ++ (chr: ".") :: fraction ++ s) -> (length (whole ++ (chr: ".") :: fraction ++ s) < fuel)%nat ->
    match floating_value (horner 10 ws) fraction exponent with
    | Some fp =>
        lexes EOS is_hexdigit hexdigit_to_number to_u8string (S fuel) i (floating_point_node (f_location i) fp) s' /\
        exists e, read_exponent exponent = Some e /\
          nearest_to fp (horner 10 ws mod 2 ^ 512 * 10 ^ Z.of_nat (length fraction) + decimal_value fraction)
            (e - Z.of_nat (length fraction))
    | None => get_next_token EOS is_hexdigit hexdigit_to_number to_u8string (S fuel) (Some i) = Throw invalid_number
    end).
Proof.
  split.
  - intros text s x Ht Hg Hf.
    destruct (integer_text_step EOS is_hexdigit hexdigit_to_number to_u8string fuel i text s x Ht Hg Hf) as (n & i' & Hr & Hg' & Hn).
    exists n. split; [|done]. by eapply lexes_step.
  - intros whole ws fraction exponent s s' Hws Hne Hfr Hs He Hg Hf.
    destruct (floating_step EOS is_hexdigit hexdigit_to_number to_u8string fuel i whole ws fraction exponent s s') as (i' & Hg' & Hr); [done..|].
    destruct (floating_value _ _ _) as [fp|] eqn:E.
    + split; [by eapply lexes_step|]. by apply (floating_value_nearest _ _ exponent).
    + unfold get_next_token. cbn [token_loop]. by rewrite Hr.
Qed.

Lemma lexer_numbers_witness :
  exists n i', example_token (str: "x'1F'+2") = Ok (n, Some i') /\ sval (f_integer n) = 31.
Proof.
  destruct (lexer_numbers example_eos ascii_is_hexdigit ascii_hexdigit_to_number example_to_u8string _ _ 99
    (input_init (str: "x'1F'+2") [])) as [H _].
  destruct (H (str: "x'1F'") (str: "+2") 31) as (n & (i' & Hn & _) & (_ & _ & _ & Hv)).
  - apply (quoted_integer 16 (chr: "x") (chr: "X") (chr: "x") (str: "1F") [1; 15]); closed_decide || done.
  - apply (gives_weaken _ 0); [lia|]. apply gives_init. closed_decide.
  - apply Nat.ltb_lt. vm_compute. reflexivity.
  - exists n, i'. split; [exact Hn|]. rewrite Hv. vm_compute. reflexivity.
Defined.
