(* ===== verification/LexerStrings.v ===== *)
(** * Strings and identifiers of the query language

    [string_text escape text tail bytes]: the characters [text] of a string, when
    [tail] follows, stand for the bytes [bytes]; [escape] is whether the string
    is of the form E'...'. *)

From S2P Require Import Prelude Limbs BigLoops Uint512 Int512 BigText Input LongDouble Lexer LexerTotal LexerText.

Section LexerStrings.
Context (EOS : Z) (is_hexdigit : Z -> bool) (hexdigit_to_number : Z -> Z) (to_u8string : Z -> result (list Z)).
Context {eos : EndOfScript EOS} {laws : HexdigitLaws is_hexdigit hexdigit_to_number}.

#[local] Abbreviation gives := (gives EOS).
#[local] Abbreviation reading := (reading EOS).
#[local] Abbreviation lex_step := (lex_step EOS is_hexdigit hexdigit_to_number to_u8string).
#[local] Abbreviation parse_string := (parse_string EOS is_hexdigit hexdigit_to_number to_u8string).

(** [s] does not start with a digit of the base. *)
Definition stops (base : Z) (s : list Z) : Prop := forall c, head s = Some c -> digit_of base c = None.

Definition escape_letters : list (Z * Z) :=
  [((chr: "b"), BS); ((chr: "f"), FF); ((chr: "n"), LF); ((chr: "r"), CR); ((chr: "t"), HT)].

(** What follows a backslash, before [next], and the bytes it stands for. *)
Inductive escape_text : list Z -> list Z -> list Z -> Prop :=
  | escape_letter l v next : (l, v) ∈ escape_letters -> escape_text [l] next [v]
  | escape_octal os ds next u : mapM (digit_of 8) os = Some ds -> (0 < length os <= 3)%nat ->
      (length os = 3%nat \/ stops 8 next) -> horner 8 ds <> 0 -> to_u8string (horner 8 ds) = Ok u -> escape_text os next u
  | escape_hex x hs ds next u : x ∈ (str: "xX") -> mapM (digit_of 16) hs = Some ds ->
      (length hs = 2%nat \/ length hs = 1%nat /\ stops 16 next) -> horner 16 ds <> 0 ->
      to_u8string (horner 16 ds) = Ok u -> escape_text (x :: hs) next u
  | escape_unicode x hs ds next u : (x = (chr: "u") /\ length hs = 4%nat \/ x = (chr: "U") /\ length hs = 8%nat) ->
      mapM (digit_of 16) hs = Some ds -> horner 16 ds <> 0 -> to_u8string (horner 16 ds) = Ok u -> escape_text (x :: hs) next u
  | escape_other c next : c ∉ (str: "bfnrtxXuU01234567") -> c <> EOS -> escape_text [c] next [wrap 8 c].

Inductive string_text (escape : bool) : list Z -> list Z -> list Z -> Prop :=
  | string_end tail : string_text escape [] tail []
  | string_plain c t tail b : c <> QUOTE -> c <> LF -> (escape = true -> c <> BACKSLASH) ->
      string_text escape t tail b -> string_text escape (c :: t) tail (wrap 8 c :: b)
  | string_quote t tail b : string_text escape t tail b -> string_text escape (QUOTE :: QUOTE :: t) tail (QUOTE :: b)
  | string_escape e v t tail b : escape = true -> escape_text e (t ++ tail) v ->
      string_text escape t tail b -> string_text escape (BACKSLASH :: e ++ t) tail (v ++ b).

(** ** Escape sequences *)

Lemma horner_bound base ds : 0 <= base -> Forall (fun d => 0 <= d < base) ds ->
  0 <= horner base ds < base ^ Z.of_nat (length ds).
Proof.
  intros Hb Hds. induction Hds as [|d ds Hd Hds IH]; [by cbn|]. rewrite horner_cons. cbn [length].
  rewrite Nat2Z.inj_succ, Z.pow_succ_r by lia. pose proof (Z.pow_nonneg base (Z.of_nat (length ds)) Hb). nia.
Qed.

Lemma digits_range base text ds : mapM (digit_of base) text = Some ds ->
  Forall (fun d => 0 <= d < base) ds /\ length ds = length text.
Proof.
  intros Hds. apply mapM_Some in Hds. split; [|symmetry; by eapply Forall2_length].
  apply Forall_lookup. intros k d Hd. destruct (Forall2_lookup_r _ _ _ _ _ Hds Hd) as (c & _ & Hc).
  by destruct (digit_of_range base c d Hc).
Qed.

Lemma reading_stops c i s base : reading c i s -> base <= 16 -> stops base s -> digit_of base c = None.
Proof.
  intros (-> & _) Hb Hs. destruct s as [|d s]; [|by apply Hs]. cbn [head default from_option id].
  pose proof (@eos_not_character EOS eos). unfold digit_of.
  rewrite (decide_False (P := (chr: "0") <= EOS <= (chr: "9"))) by lia.
  rewrite (decide_False (P := (chr: "a") <= EOS <= (chr: "z"))) by lia.
  by rewrite (decide_False (P := (chr: "A") <= EOS <= (chr: "Z"))) by lia.
Qed.

Lemma hex_char_loop_reads n hs ds c idx i s : mapM (digit_of 16) hs = Some ds -> gives 1 i (hs ++ s) ->
  length hs = n \/ (length hs < n)%nat /\ stops 16 s -> 0 <= c ->
  c * 16 ^ Z.of_nat (length ds) + horner 16 ds < 2 ^ 32 ->
  exists i', hex_char_loop EOS is_hexdigit hexdigit_to_number n c idx i
      = Ok (c * 16 ^ Z.of_nat (length ds) + horner 16 ds, idx + Z.of_nat (length hs), i') /\ gives 1 i' s.
Proof.
  revert n ds c idx i. induction hs as [|h hs IH]; intros n ds c idx i Hds Hg Hn Hc Hb.
  - injection Hds as <-. cbn [length] in *. change (Z.of_nat 0) with 0. rewrite Z.mul_1_r, !Z.add_0_r.
    destruct n as [|n]; [exists i; split; [done|by apply Hg]|]. destruct Hn as [|[_ Hs]]; [lia|].
    cbn [hex_char_loop]. destruct (getc_reading EOS 1 i s Hg ltac:(lia)) as (d & i1 & -> & Hr).
    rewrite (is_hexdigit_digit_of is_hexdigit hexdigit_to_number), (reading_stops d i1 s 16 Hr ltac:(lia) Hs).
    rewrite bool_decide_eq_false_2 by (intros [? [=]]).
    destruct (ungetc_reading EOS d i1 s Hr) as (i2 & -> & Hg2). by exists i2.
  - cbn in Hds. destruct (digit_of 16 h) as [d|] eqn:Ed; [|done]. cbn in Hds.
    destruct (mapM (digit_of 16) hs) as [ds1|] eqn:Eds; [|done]. injection Hds as <-.
    destruct n as [|n]; [cbn in Hn; lia|]. cbn [app] in Hg.
    destruct (getc_cons EOS 1 i h _ Hg ltac:(lia)) as (i1 & Hi & Hg1). apply gives_0_1 in Hg1.
    destruct (digits_range 16 hs ds1 Eds) as [Hrange Hlen]. pose proof (horner_bound 16 ds1 ltac:(lia) Hrange).
    pose proof (digit_of_range 16 h d Ed) as [Hd _]. pose proof (pow2_pos (4 * Z.of_nat (length ds1)) ltac:(lia)) as Hp.
    rewrite Z.pow_mul_r in Hp by lia. change (2 ^ 4) with 16 in Hp. rewrite horner_cons in Hb |- *. cbn [length] in *.
    rewrite Nat2Z.inj_succ, Z.pow_succ_r in Hb |- * by lia. set (B := 16 ^ Z.of_nat (length ds1)) in *.
    cbn [hex_char_loop]. rewrite Hi, (is_hexdigit_digit_of is_hexdigit hexdigit_to_number), Ed, bool_decide_eq_true_2 by done.
    rewrite (hexdigit_digit_of is_hexdigit hexdigit_to_number h d Ed), Z.shiftl_mul_pow2 by lia. change (2 ^ 4) with 16.
    assert (c * 16 + d < 2 ^ 32) by nia. rewrite (wrap_small 32 (c * 16)), (wrap_small 32 (c * 16 + d)) by (unfold uword; lia).
    destruct (IH n ds1 (c * 16 + d) (idx + 1) i1 eq_refl Hg1) as (i2 & -> & Hg2); [cbn in Hn; intuition lia|lia|fold B; nia|].
    exists i2. split; [|done]. fold B. f_equal. f_equal. f_equal; lia.
Qed.

Lemma append_unicode_ok s c u : c <> 0 -> to_u8string c = Ok u -> append_unicode to_u8string s c = Ok (s ++ u).
Proof. intros Hc Hu. unfold append_unicode. rewrite decide_False by done. by rewrite Hu. Qed.

Lemma parse_hex_char_reads (count : Z) hs ds i s : mapM (digit_of 16) hs = Some ds -> gives 1 i (hs ++ s) ->
  (Z.of_nat (length hs) = count \/ count = 2 /\ length hs = 1%nat /\ stops 16 s) -> count <= 8 ->
  exists i', parse_hex_char EOS is_hexdigit hexdigit_to_number count i = Ok (horner 16 ds, i') /\ gives 1 i' s.
Proof.
  intros Hds Hg Hn Hc. destruct (digits_range 16 hs ds Hds) as [Hrange Hlen]. pose proof (horner_bound 16 ds ltac:(lia) Hrange).
  assert (16 ^ Z.of_nat (length ds) <= 16 ^ 8) by (apply Z.pow_le_mono_r; lia).
  destruct (hex_char_loop_reads (Z.to_nat count) hs ds 0 0 i s Hds Hg) as (i' & Hl & Hg'); [destruct Hn as [?|(?&?&?)]; [left; lia|right; split; [lia|done]]|lia|lia|].
  exists i'. split; [|done]. unfold parse_hex_char. rewrite Hl. cbn [result_bind]. rewrite decide_False by lia.
  by rewrite Z.mul_0_l, Z.add_0_l.
Qed.

Lemma octal_class c : is_octal c = bool_decide (is_Some (digit_of 8 c)).
Proof. apply is_octal_digit_of. Qed.

Lemma octal_stop c i s : reading c i s -> stops 8 s -> is_octal c = false.
Proof. intros Hr Hs. rewrite octal_class, (reading_stops c i s 8 Hr) by (lia || done). by apply bool_decide_eq_false_2; intros [? [=]]. Qed.

Lemma octal_digit c d : digit_of 8 c = Some d -> is_octal c = true /\ c - (chr: "0") = d.
Proof. intros Hd. rewrite octal_class, Hd, (low_digit_value 8 c d) by (done || lia). by rewrite bool_decide_eq_true_2. Qed.

Lemma parse_octal_char_reads o os d ds i s : digit_of 8 o = Some d -> mapM (digit_of 8) os = Some ds -> (length os <= 2)%nat ->
  (length os = 2%nat \/ stops 8 s) -> gives 1 i (os ++ s) ->
  exists i', parse_octal_char EOS o i = Ok (horner 8 (d :: ds), i') /\ gives 1 i' s.
Proof.
  intros Ho Hds Hl Hs Hg. unfold parse_octal_char. destruct (octal_digit o d Ho) as [_ ->]. cbv zeta.
  destruct os as [|o1 os].
  { injection Hds as <-. destruct Hs as [|Hs]; [done|]. destruct (getc_reading EOS 1 i s Hg ltac:(lia)) as (c & i1 & -> & Hr).
    rewrite (octal_stop c i1 s Hr Hs). destruct (ungetc_reading EOS c i1 s Hr) as (i2 & -> & Hg2). by exists i2. }
  cbn in Hds. destruct (digit_of 8 o1) as [d1|] eqn:E1; [|done]. cbn in Hds.
  destruct (mapM (digit_of 8) os) as [ds1|] eqn:Eds; [|done]. injection Hds as <-. cbn [app] in Hg.
  destruct (getc_cons EOS 1 i o1 _ Hg ltac:(lia)) as (i1 & -> & Hg1). destruct (octal_digit o1 d1 E1) as [-> ->].
  destruct os as [|o2 os].
  { injection Eds as <-. destruct Hs as [|Hs]; [done|]. destruct (getc_reading EOS 0 i1 s Hg1 ltac:(lia)) as (c & i2 & -> & Hr).
    rewrite (octal_stop c i2 s Hr Hs). destruct (ungetc_reading EOS c i2 s Hr) as (i3 & -> & Hg3). exists i3. split; [|done].
    cbn [result_bind]. by rewrite Z.shiftl_mul_pow2 by lia. }
  destruct os; [|cbn in Hl; lia]. cbn in Eds. destruct (digit_of 8 o2) as [d2|] eqn:E2; [|done]. injection Eds as <-.
  destruct (getc_cons EOS 0 i1 o2 _ Hg1 ltac:(lia)) as (i2 & -> & Hg2). destruct (octal_digit o2 d2 E2) as [-> ->].
  rewrite !Z.shiftl_mul_pow2 by lia. exists i2. split; [done|]. by apply gives_0_1.
Qed.

(** A letter and the digits it announces. *)
Definition hex_count (x : Z) : Z := if decide (x = (chr: "u")) then 4 else if decide (x = (chr: "U")) then 8 else 2.

Lemma hex_escape_reads x hs ds u acc i s : x ∈ (str: "xXuU") -> mapM (digit_of 16) hs = Some ds -> to_u8string (horner 16 ds) = Ok u ->
  (Z.of_nat (length hs) = hex_count x \/ hex_count x = 2 /\ length hs = 1%nat /\ stops 16 s) ->
  horner 16 ds <> 0 -> gives 1 i ((x :: hs) ++ s) ->
  exists i', parse_escape EOS is_hexdigit hexdigit_to_number to_u8string acc i = Ok (acc ++ u, i') /\ gives 1 i' s.
Proof.
  intros Hx Hds Hu Hn Hnz Hg. cbn [app] in Hg. unfold parse_escape.
  destruct (getc_cons EOS 1 i x _ Hg ltac:(lia)) as (i1 & -> & Hg1). apply gives_0_1 in Hg1.
  rewrite !elem_of_cons, elem_of_nil in Hx.
  rewrite (decide_False (P := x = (chr: "b"))), (decide_False (P := x = (chr: "f"))), (decide_False (P := x = (chr: "n"))),
    (decide_False (P := x = (chr: "r"))), (decide_False (P := x = (chr: "t"))) by lia.
  assert (is_octal x = false) as -> by (apply bool_decide_eq_false; lia).
  assert (is_either (chr: "x") (chr: "X") x || bool_decide (x = (chr: "u")) || bool_decide (x = (chr: "U")) = true) as ->
    by (destruct Hx as [-> |[-> |[-> |[-> |[]]]]]; done).
  destruct (parse_hex_char_reads (hex_count x) hs ds i1 s Hds Hg1 Hn) as (i2 & Hp & Hg2).
  { unfold hex_count. repeat destruct (decide _); lia. }
  unfold hex_count in Hp. rewrite Hp. cbn [result_bind]. rewrite (append_unicode_ok acc _ u) by done. by exists i2.
Qed.

Lemma parse_escape_reads e next v acc i s : escape_text e next v -> head s = head next -> gives 1 i (e ++ s) ->
  exists i', parse_escape EOS is_hexdigit hexdigit_to_number to_u8string acc i = Ok (acc ++ v, i') /\ gives 1 i' s.
Proof.
  intros He Hh Hg. assert (forall base, stops base next -> stops base s) as Hstop by (intros base H c; rewrite Hh; apply H).
  unfold parse_escape. destruct He as [l v next Hl|os ds next u Hds Hlen Hn Hnz Hu|x hs ds next u Hx Hds Hn Hnz Hu|x hs ds next u Hx Hds Hnz Hu|c next Hc _].
  - destruct (getc_cons EOS 1 i l s Hg ltac:(lia)) as (i1 & -> & Hg1). exists i1. split; [|by apply gives_0_1].
    unfold escape_letters in Hl. rewrite !elem_of_cons, elem_of_nil in Hl.
    destruct Hl as [[= -> ->]|[[= -> ->]|[[= -> ->]|[[= -> ->]|[[= -> ->]|[]]]]]]; repeat (rewrite decide_True by done || rewrite decide_False by done); done.
  - destruct os as [|o os]; [cbn in Hlen; lia|]. cbn [app] in Hg. destruct (getc_cons EOS 1 i o _ Hg ltac:(lia)) as (i1 & -> & Hg1).
    cbn in Hds. destruct (digit_of 8 o) as [d|] eqn:Ed; [|done]. cbn in Hds.
    destruct (mapM (digit_of 8) os) as [ds1|] eqn:Eds; [|done]. injection Hds as <-.
    destruct (octal_digit o d Ed) as [Ho _]. rewrite Ho. apply bool_decide_eq_true in Ho. rewrite !decide_False by lia.
    destruct (parse_octal_char_reads o os d ds1 i1 s Ed Eds) as (i2 & -> & Hg2); [cbn in Hlen; lia|destruct Hn; [left; cbn in *; lia|right; auto]|by apply gives_0_1|].
    cbn [result_bind]. rewrite (append_unicode_ok acc _ u) by done. by exists i2.
  - apply (hex_escape_reads x hs ds); try done.
    + revert Hx. rewrite !elem_of_cons. intuition.
    + assert (hex_count x = 2) as -> by (rewrite !elem_of_cons, elem_of_nil in Hx; by destruct Hx as [-> |[-> |[]]]).
      destruct Hn as [-> |[? ?]]; auto.
  - apply (hex_escape_reads x hs ds); try done.
    + rewrite !elem_of_cons. intuition.
    + left. by destruct Hx as [[-> ->]|[-> ->]].
  - destruct (getc_cons EOS 1 i c s Hg ltac:(lia)) as (i1 & -> & Hg1). exists i1. split; [|by apply gives_0_1].
    rewrite !elem_of_cons, elem_of_nil in Hc. rewrite !decide_False by lia.
    assert (is_octal c = false) as -> by (apply bool_decide_eq_false; lia).
    unfold is_either. by rewrite !bool_decide_eq_false_2 by lia.
Qed.

(** ** Strings *)

Lemma string_char_plain (continue : list Z -> input -> result (list Z * input)) escape s c i : c <> EOS -> c <> LF -> (escape = true -> c <> BACKSLASH) ->
  string_char EOS is_hexdigit hexdigit_to_number to_u8string continue escape s c i = continue (s ++ [wrap 8 c]) i.
Proof.
  intros He Hl Hb. unfold string_char. rewrite !decide_False by done.
  destruct escape; cbn [andb]; [|done]. by rewrite bool_decide_eq_false_2 by auto.
Qed.

(** The loop reads the characters of a string up to [tail]. *)
Lemma parse_string_reads escape text tail bytes : string_text escape text tail bytes ->
  forall fuel acc i, gives 1 i (text ++ tail) -> (length (text ++ tail) < fuel)%nat ->
  exists fuel' i', parse_string fuel escape acc i = parse_string fuel' escape (acc ++ bytes) i' /\
    gives 1 i' tail /\ (length tail < fuel')%nat.
Proof.
  induction 1 as [tail|c t tail b Hq Hl Hb Ht IH|t tail b Ht IH|e v t tail b -> He Ht IH]; intros fuel acc i Hg Hf.
  - exists fuel, i. by rewrite app_nil_r.
  - destruct fuel as [|fuel]; [lia|]. cbn [app length Lexer.parse_string] in *.
    destruct (getc_cons EOS 1 i c _ Hg ltac:(lia)) as (i1 & -> & Hg1). rewrite decide_False by done.
    rewrite string_char_plain; [|by eapply (gives_not_eos EOS); [exact Hg|left]|done..].
    destruct (IH fuel (acc ++ [wrap 8 c]) i1) as (fuel' & i' & -> & Hg' & Hf'); [by apply gives_0_1|lia|].
    exists fuel', i'. by rewrite <- app_assoc.
  - destruct fuel as [|fuel]; [lia|]. cbn [app length Lexer.parse_string] in *.
    destruct (getc_cons EOS 1 i _ _ Hg ltac:(lia)) as (i1 & -> & Hg1). rewrite decide_True by done.
    destruct (getc_cons EOS 0 i1 _ _ Hg1 ltac:(lia)) as (i2 & -> & Hg2). rewrite decide_False by tauto.
    rewrite string_char_plain by (done || apply (eos_char EOS); lia).
    destruct (IH fuel (acc ++ [wrap 8 QUOTE]) i2) as (fuel' & i' & -> & Hg' & Hf'); [by apply gives_0_1|lia|].
    exists fuel', i'. by rewrite <- app_assoc.
  - destruct fuel as [|fuel]; [lia|]. cbn [app length Lexer.parse_string] in *. rewrite <- app_assoc in Hg, Hf.
    destruct (getc_cons EOS 1 i _ _ Hg ltac:(lia)) as (i1 & -> & Hg1). rewrite decide_False by done.
    unfold string_char. rewrite !decide_False by (done || by apply (eos_char EOS)). rewrite bool_decide_eq_true_2 by done. cbn [andb].
    destruct (parse_escape_reads e (t ++ tail) v acc i1 (t ++ tail) He eq_refl) as (i2 & -> & Hg2); [by apply gives_0_1|].
    cbn [result_bind]. rewrite length_app in Hf.
    destruct (IH fuel (acc ++ v) i2 Hg2) as (fuel' & i' & -> & Hg' & Hf'); [lia|].
    exists fuel', i'. by rewrite <- app_assoc.
Qed.

(** The end of a string, or what makes it wrong. *)
Lemma parse_string_end escape text bytes fuel i s : string_text escape text (QUOTE :: s) bytes -> head s <> Some QUOTE ->
  gives 1 i (text ++ QUOTE :: s) -> (length (text ++ QUOTE :: s) < fuel)%nat ->
  exists i', parse_string fuel escape [] i = Ok (bytes, i') /\ gives 1 i' s.
Proof.
  intros Ht Hs Hg Hf. destruct (parse_string_reads escape text _ bytes Ht fuel [] i Hg Hf) as ([|fuel'] & i1 & -> & Hg1 & Hf1); [lia|].
  cbn [Lexer.parse_string app]. destruct (getc_cons EOS 1 i1 _ _ Hg1 ltac:(lia)) as (i2 & -> & Hg2). rewrite decide_True by done.
  destruct (getc_reading EOS 0 i2 s Hg2 ltac:(lia)) as (c & i3 & -> & Hr). rewrite decide_True.
  - destruct (ungetc_reading EOS c i3 s Hr) as (i4 & -> & Hg4). by exists i4.
  - destruct Hr as (-> & _). destruct s as [|d s]; [by apply (eos_not EOS)|]. cbn in *. congruence.
Qed.

Lemma parse_string_unclosed escape text tail bytes fuel i : string_text escape text tail bytes -> tail = [] \/ head tail = Some LF ->
  gives 1 i (text ++ tail) -> (length (text ++ tail) < fuel)%nat -> parse_string fuel escape [] i = Throw invalid_token.
Proof.
  intros Ht Htail Hg Hf. destruct (parse_string_reads escape text _ bytes Ht fuel [] i Hg Hf) as ([|fuel'] & i1 & -> & Hg1 & Hf1); [lia|].
  cbn [Lexer.parse_string]. destruct tail as [|c tail].
  - destruct (getc_nil EOS 1 i1 Hg1 ltac:(lia)) as (i2 & -> & _). rewrite decide_False by (by apply (eos_not EOS)).
    unfold string_char. by rewrite decide_True.
  - destruct Htail as [|[= ->]]; [done|]. destruct (getc_cons EOS 1 i1 _ _ Hg1 ltac:(lia)) as (i2 & -> & _).
    rewrite decide_False by done. unfold string_char. rewrite decide_False by (by apply (eos_char EOS)). by rewrite decide_True.
Qed.

(** A string with its quotes: '...' or E'...'. *)
Definition opening (escape : bool) (e : Z) : list Z := if escape then [e; QUOTE] else [QUOTE].

(** The turn of the main loop that meets the opening of a string. *)
Lemma string_start fuel escape e i s : e ∈ (str: "eE") -> gives 1 i (opening escape e ++ s) ->
  exists i', lex_step fuel i = string_token (f_location i) (parse_string fuel escape [] i') /\ gives 1 i' s.
Proof.
  intros He Hg. destruct escape; cbn [opening app] in Hg.
  - rewrite !elem_of_cons, elem_of_nil in He.
    destruct (lex_step_other EOS is_hexdigit hexdigit_to_number to_u8string fuel i e _ Hg) as (i1 & -> & Hg1);
      [apply bool_decide_eq_true; lia|].
    unfold parse_other. destruct (getc_cons EOS 0 i1 _ _ Hg1 ltac:(lia)) as (i2 & -> & Hg2).
    rewrite (is_either_false (chr: "b") (chr: "B")) by lia. rewrite (is_either_true (chr: "e") (chr: "E")) by lia.
    cbn [orb]. rewrite decide_True by done. exists i2. split; [done|]. by apply gives_0_1.
  - destruct (getc_cons EOS 1 i _ _ Hg ltac:(lia)) as (i1 & Hi & Hg1). exists i1. split; [|by apply gives_0_1].
    unfold Lexer.lex_step. cbv zeta. rewrite Hi. rewrite decide_False by (by apply (eos_char EOS)).
    cbn. by rewrite !decide_False by done.
Qed.

(** ** Identifiers *)

Lemma identifier_step fuel i c text s : is_letter c = true -> Forall (fun c => is_identifier_char c = true) text ->
  (forall d, head s = Some d -> is_identifier_char d = false) ->
  (text = [] -> c ∈ (str: "bBeEoOxX") -> head s <> Some QUOTE) ->
  gives 1 i (c :: text ++ s) -> (length (text ++ s) < fuel)%nat ->
  exists i', lex_step fuel i = Ok (Token (string_node TOKEN_IDENTIFIER (f_location i) (c :: text)) i') /\ gives 1 i' s.
Proof.
  intros Hc Ht Hs Hq Hg Hf. rewrite length_app in Hf.
  destruct (lex_step_other EOS is_hexdigit hexdigit_to_number to_u8string fuel i c _ Hg Hc) as (i1 & -> & Hg1).
  assert (forall i2, gives 1 i2 (text ++ s) -> exists i',
    parse_identifier EOS to_u8string fuel (f_location i) c i2
      = Ok (Token (string_node TOKEN_IDENTIFIER (f_location i) (c :: text)) i') /\ gives 1 i' s) as Hident.
  { intros i2 Hg2. unfold parse_identifier. rewrite Hc.
    destruct (identifier_loop_reads EOS text fuel [] c i2 s Hg2 Ht Hs ltac:(lia)) as (c' & i3 & -> & Hr).
    cbn [result_bind]. destruct (ungetc_reading EOS c' i3 s Hr) as (i4 & -> & Hg4). by exists i4. }
  unfold parse_other. destruct (_ || _) eqn:E; [|by apply Hident, gives_0_1].
  destruct (getc_reading EOS 0 i1 _ Hg1 ltac:(lia)) as (q & i2 & -> & Hr). rewrite decide_False.
  - destruct (ungetc_reading EOS q i2 _ Hr) as (i3 & -> & Hg3). by apply Hident.
  - destruct Hr as (-> & _). destruct text as [|d text]; cbn [app head default from_option id].
    + destruct s as [|d s]; [by apply (eos_not EOS)|]. intros Hd. cbn in Hd. subst d. apply Hq; [done| |done].
      unfold is_either in E. rewrite !elem_of_cons. rewrite !orb_true_iff, !bool_decide_eq_true in E. intuition.
    + apply Forall_cons in Ht as [Hd _]. intros ->. done.
Qed.

(** ** Quoting *)

(** Writes a string between quotes. *)
Definition quote_text (s : list Z) : list Z := concat ((fun c => if decide (c = QUOTE) then [QUOTE; QUOTE] else [c]) <$> s).

(** Writes a string for E'...'. *)
Definition escape_string_text (s : list Z) : list Z :=
  concat ((fun c => if decide (c = QUOTE) then [QUOTE; QUOTE]
                    else if decide (c = BACKSLASH) then [BACKSLASH; BACKSLASH]
                    else if decide (c = LF) then [BACKSLASH; (chr: "n")]
                    else if decide (c = CR) then [BACKSLASH; (chr: "r")]
                    else [c]) <$> s).

Lemma wrap_byte s : Forall byte s -> wrap 8 <$> s = s.
Proof. induction 1 as [|c s Hc Hs IH]; [done|]. cbn. by rewrite wrap_small, IH. Qed.

Lemma quote_text_string s tail : LF ∉ s -> string_text false (quote_text s) tail (wrap 8 <$> s).
Proof.
  induction s as [|c s IH]; [constructor|]. intros [Hc Hs]%not_elem_of_cons. unfold quote_text. cbn.
  destruct (decide (c = QUOTE)) as [->|]; [by apply (string_quote _ (quote_text s)), IH|].
  apply string_plain; [done..|]. by apply IH.
Qed.

Lemma escape_string_text_string s tail : string_text true (escape_string_text s) tail (wrap 8 <$> s).
Proof.
  induction s as [|c s IH]; [constructor|]. unfold escape_string_text. cbn. fold (escape_string_text s).
  destruct (decide (c = QUOTE)) as [->|]; [by apply (string_quote _ (escape_string_text s))|].
  destruct (decide (c = BACKSLASH)) as [->|].
  { apply (string_escape true [BACKSLASH] [BACKSLASH]); [done| |done]. apply (escape_other BACKSLASH).
    - by apply (bool_decide_unpack _).
    - by apply (eos_char EOS). }
  destruct (decide (c = LF)) as [->|].
  { apply (string_escape true [(chr: "n")] [LF]); [done| |done]. apply escape_letter. by apply (bool_decide_unpack _). }
  destruct (decide (c = CR)) as [->|].
  { apply (string_escape true [(chr: "r")] [CR]); [done| |done]. apply escape_letter. by apply (bool_decide_unpack _). }
  by apply string_plain.
Qed.
End LexerStrings.

(** C33: the node of a string holds the bytes its text stands for: each
    character as its low byte, a doubled quote as one, and with E'...' each
    escape sequence as documented, octal and hexadecimal ones encoded as UTF-8.
    A string that the end of the script or a new line cuts is refused. Reading back a
    string of bytes that was written with its quotes doubled (if it has no new
    line), or with the escapes of E'...', gives the string. *)
Theorem lexer_strings EOS is_hexdigit hexdigit_to_number to_u8string
    (eos : EndOfScript EOS) (laws : HexdigitLaws is_hexdigit hexdigit_to_number) fuel i escape e :
  e ∈ (str: "eE") ->
  (forall text s bytes, string_text EOS to_u8string escape text (QUOTE :: s) bytes -> head s <> Some QUOTE ->
    gives EOS 1 i (opening escape e ++ text ++ QUOTE :: s) -> (length (text ++ QUOTE :: s) < fuel)%nat ->
    lexes EOS is_hexdigit hexdigit_to_number to_u8string (S fuel) i (string_node TOKEN_STRING (f_location i) bytes) s) /\
  (forall text tail bytes, string_text EOS to_u8string escape text tail bytes -> tail = [] \/ head tail = Some LF ->
    gives EOS 1 i (opening escape e ++ text ++ tail) -> (length (text ++ tail) < fuel)%nat ->
    get_next_token EOS is_hexdigit hexdigit_to_number to_u8string (S fuel) (Some i) = Throw invalid_token) /\
  (forall bytes s, Forall byte bytes -> escape = true \/ LF ∉ bytes -> head s <> Some QUOTE ->
    let text := if escape then escape_string_text bytes else quote_text bytes in
    gives EOS 1 i (opening escape e ++ text ++ QUOTE :: s) -> (length (text ++ QUOTE :: s) < fuel)%nat ->
    lexes EOS is_hexdigit hexdigit_to_number to_u8string (S fuel) i (string_node TOKEN_STRING (f_location i) bytes) s).
Proof.
  intros He.
  assert (forall text s bytes, string_text EOS to_u8string escape text (QUOTE :: s) bytes -> head s <> Some QUOTE ->
    gives EOS 1 i (opening escape e ++ text ++ QUOTE :: s) -> (length (text ++ QUOTE :: s) < fuel)%nat ->
    lexes EOS is_hexdigit hexdigit_to_number to_u8string (S fuel) i (string_node TOKEN_STRING (f_location i) bytes) s) as Hread.
  { intros text s bytes Ht Hs Hg Hf.
    destruct (string_start EOS is_hexdigit hexdigit_to_number to_u8string fuel escape e i _ He Hg) as (i1 & Hr & Hg1).
    destruct (parse_string_end EOS is_hexdigit hexdigit_to_number to_u8string escape text bytes fuel i1 s Ht Hs Hg1 Hf) as (i2 & Hp & Hg2).
    eapply lexes_step; [exact Hr| |exact Hg2]. by rewrite Hp. }
  split_and!; [exact Hread| |].
  - intros text tail bytes Ht Htail Hg Hf.
    destruct (string_start EOS is_hexdigit hexdigit_to_number to_u8string fuel escape e i _ He Hg) as (i1 & Hr & Hg1).
    unfold get_next_token. cbn [token_loop]. rewrite Hr. by rewrite (parse_string_unclosed EOS _ _ _ escape text tail bytes).
  - intros bytes s Hb Hl Hs text Hg Hf. apply (Hread text s bytes); [|done..]. subst text.
    replace bytes with (wrap 8 <$> bytes) at 3 by (by apply wrap_byte).
    destruct escape; [by apply escape_string_text_string|].
    destruct Hl as [|Hl]; [done|]. by apply quote_text_string.
Qed.

Lemma lexer_strings_witness :
  exists n i', example_token (str: "E'it''s \\ x' ") = Ok (n, Some i') /\ f_string n = (str: "it's \ x").
Proof.
  destruct (lexer_strings example_eos ascii_is_hexdigit ascii_hexdigit_to_number example_to_u8string _ _ 99
    (input_init (str: "E'it''s \\ x' ") []) true (chr: "E")) as (_ & _ & H).
  - by apply (bool_decide_unpack _).
  - destruct (H (str: "it's \ x") (str: " ")) as (i' & Hn & _).
    + by apply (bool_decide_unpack _).
    + by left.
    + done.
    + apply (gives_weaken _ 0); [lia|]. apply gives_init. closed_decide.
    + apply Nat.ltb_lt. vm_compute. reflexivity.
    + eexists _, i'. split; [exact Hn|done].
Defined.

(** A character outside of ASCII is cut to its low byte: the euro sign. *)
Example string_truncates : exists i', example_token [QUOTE; 0x20AC; QUOTE] = Ok (string_node TOKEN_STRING (Location [] 1 1) [0xAC], Some i').
Proof. eexists. vm_compute. reflexivity. Qed.
