(* ===== verification/LexerLayout.v ===== *)
(** * Spaces, comments, operators and identifiers of the query language *)

From S2P Require Import Prelude Limbs BigLoops Uint512 Int512 BigText Input LongDouble Lexer LexerTotal LexerText LexerStrings.

(** The inside of a C-like comment.  Comments nest; the parser needs the first
    character of an inner comment to be another than a star, and looks at the
    character that follows a star or a slash. *)
Inductive comment_body : list Z -> Prop :=
  | body_end : comment_body []
  | body_char c t : c <> (chr: "*") -> c <> (chr: "/") -> comment_body t -> comment_body (c :: t)
  | body_star t : head t <> Some (chr: "/") -> comment_body t -> comment_body ((chr: "*") :: t)
  | body_slash c t : c <> (chr: "*") -> comment_body (c :: t) -> comment_body ((chr: "/") :: c :: t)
  | body_nested c inner t : c <> (chr: "*") -> comment_body (c :: inner) -> comment_body t ->
      comment_body ((str: "/*") ++ (c :: inner) ++ (str: "*/") ++ t).

(** What is skipped between tokens. *)
Inductive layout : list Z -> Prop :=
  | layout_end : layout []
  | layout_space c t : is_space c = true -> layout t -> layout (c :: t)
  | layout_line l t : LF ∉ l -> layout t -> layout ((str: "--") ++ l ++ LF :: t)
  | layout_comment b t : comment_body b -> layout t -> layout ((str: "/*") ++ b ++ (str: "*/") ++ t).

(** The operators: their characters, their token, and the characters that would
    make them longer. *)
Definition operators : list (list Z * Z * list Z) :=
  [((str: "!~"), TOKEN_UNMATCHED_REGULAR_EXPRESSION, []);
   ((str: "::"), TOKEN_SCOPE, []); ((str: ":"), TOKEN_COLON, (str: ":"));
   ((str: "/"), TOKEN_DIVIDE, (str: "*")); ((str: "-"), TOKEN_MINUS, (str: "-"));
   ((str: "<="), TOKEN_LESS_EQUAL, []); ((str: "<<"), TOKEN_SHIFT_LEFT, []); ((str: "<>"), TOKEN_NOT_EQUAL, []);
   ((str: "<"), TOKEN_LESS, (str: "=<>"));
   ((str: ">="), TOKEN_GREATER_EQUAL, []); ((str: ">>"), TOKEN_SHIFT_RIGHT, []); ((str: ">"), TOKEN_GREATER, (str: "=>"));
   ((str: "|/"), TOKEN_SQUARE_ROOT, []); ((str: "||/"), TOKEN_CUBE_ROOT, []);
   ((str: "||"), TOKEN_STRING_CONCAT, (str: "/")); ((str: "|"), TOKEN_BITWISE_OR, (str: "/|"))].

(** Chooses the branch of a known character. *)
Ltac branch := repeat match goal with
  | |- context [if is_space ?c then _ else _] => rewrite (eq_refl : is_space c = false)
  | |- context [if is_single ?c then _ else _] => rewrite (eq_refl : is_single c = false)
  | |- context [if decide (?c = ?d) then _ else _] =>
      first [rewrite (decide_False (P := c = d)) by done | rewrite (decide_True (P := c = d)) by done]
  end.

Section LexerLayout.
Context (EOS : Z) (is_hexdigit : Z -> bool) (hexdigit_to_number : Z -> Z) (to_u8string : Z -> result (list Z)).
Context {eos : EndOfScript EOS}.

#[local] Abbreviation gives := (gives EOS).
#[local] Abbreviation reading := (reading EOS).
#[local] Abbreviation lex_step := (lex_step EOS is_hexdigit hexdigit_to_number to_u8string).
#[local] Abbreviation token_loop := (token_loop EOS is_hexdigit hexdigit_to_number to_u8string).

(** ** Comments *)

(** What is left of a turn of the loop over a comment once a character was read;
    the loops may have different fuels. *)
Definition comment_turn (f1 f2 f3 : nat) (count c : Z) (i : input) : result input :=
  let! r := closing_loop EOS f1 count c i in
  match r with
  | FoundEnd i => Ok i
  | Continue count c i =>
      let! '(count, c, i) := opening_loop EOS f2 count c i in
      if decide (c = EOS) then Throw invalid_token else comment_loop EOS f3 count i
  end.

Lemma comment_loop_turn f count i s : gives 1 i s ->
  exists c i', comment_loop EOS (S f) count i = comment_turn f f f count c i' /\ reading c i' s.
Proof.
  intros Hg. destruct (getc_reading EOS 1 i s Hg ltac:(lia)) as (c & i' & Hi & Hr). exists c, i'. split; [|done].
  cbn [comment_loop]. by rewrite Hi.
Qed.

Lemma closing_other f count c i : c <> (chr: "*") -> closing_loop EOS f count c i = Ok (Continue count c i).
Proof. intros Hc. destruct f; cbn [closing_loop]; by rewrite decide_False. Qed.

Lemma opening_other f count c i : c <> (chr: "/") -> opening_loop EOS f count c i = Ok (count, c, i).
Proof. intros Hc. destruct f; cbn [opening_loop]; by rewrite decide_False. Qed.

Lemma reading_next c i d s : reading c i (d :: s) -> c = d /\ gives 0 i s /\ c <> EOS.
Proof. intros (-> & Hg & He). split_and!; [done..|]. cbn. intros ->. apply He. by left. Qed.

(** One turn, for each kind of character. *)
Lemma turn_plain f1 f2 f3 count d i s : d <> (chr: "*") -> d <> (chr: "/") -> d <> EOS -> gives 0 i s ->
  exists c i', comment_turn f1 f2 (S f3) count d i = comment_turn f3 f3 f3 count c i' /\ reading c i' s.
Proof.
  intros Hs Hl He Hg. destruct (comment_loop_turn f3 count i s) as (c1 & i1 & Hturn & Hr1); [by apply gives_0_1|].
  exists c1, i1. split; [|done]. unfold comment_turn. rewrite closing_other by done. cbn [result_bind].
  rewrite opening_other by done. cbn [result_bind]. by rewrite decide_False.
Qed.

Lemma turn_star f1 f2 f3 count i s : gives 0 i s -> s <> [] -> head s <> Some (chr: "/") ->
  exists c i', comment_turn (S f1) f2 f3 count (chr: "*") i = comment_turn f1 f2 f3 count c i' /\ reading c i' s.
Proof.
  intros Hg Hn Hs. destruct (getc_reading EOS 0 i _ Hg ltac:(lia)) as (c1 & i1 & Hi & Hr1). exists c1, i1. split; [|done].
  destruct Hr1 as (-> & _). destruct s as [|d s]; [done|]. cbn [head default from_option id] in *.
  unfold comment_turn. cbn [closing_loop]. rewrite decide_True by done. rewrite Hi. by rewrite decide_False by congruence.
Qed.

Lemma turn_slash f1 f2 f3 count i d s : gives 0 i (d :: s) -> d <> (chr: "*") ->
  exists c i', comment_turn f1 (S f2) f3 count (chr: "/") i = comment_turn f1 f2 f3 count c i' /\ reading c i' (d :: s).
Proof.
  intros Hg Hd. destruct (getc_reading EOS 0 i _ Hg ltac:(lia)) as (c1 & i1 & Hi & Hr1). exists c1, i1. split; [|done].
  destruct Hr1 as (-> & _). cbn [head default from_option id] in *. unfold comment_turn. rewrite !closing_other by done.
  cbn [result_bind opening_loop]. rewrite decide_True by done. rewrite Hi. by rewrite decide_False by done.
Qed.

Lemma turn_open f1 f2 f3 count i d s : gives 0 i ((chr: "*") :: d :: s) -> d <> (chr: "*") ->
  exists c i', comment_turn f1 (S f2) f3 count (chr: "/") i = comment_turn f1 f2 f3 (count + 1) c i' /\ reading c i' (d :: s).
Proof.
  intros Hg Hd. destruct (getc_cons EOS 0 i _ _ Hg ltac:(lia)) as (i1 & Hi & Hg1).
  destruct (getc_reading EOS 0 i1 _ Hg1 ltac:(lia)) as (c2 & i2 & Hi1 & Hr2). exists c2, i2. split; [|done].
  destruct Hr2 as (-> & _). cbn [head default from_option id] in *. unfold comment_turn. rewrite !closing_other by done.
  cbn [result_bind opening_loop]. rewrite decide_True by done. rewrite Hi, decide_True by done. by rewrite Hi1.
Qed.

Lemma turn_close f1 f2 f3 count i s : 1 <= count -> gives 0 i ((chr: "/") :: s) ->
  exists c i', comment_turn (S f1) f2 f3 (count + 1) (chr: "*") i = comment_turn f1 f2 f3 count c i' /\ reading c i' s.
Proof.
  intros Hc Hg. destruct (getc_cons EOS 0 i _ _ Hg ltac:(lia)) as (i1 & Hi & Hg1).
  destruct (getc_reading EOS 0 i1 _ Hg1 ltac:(lia)) as (c2 & i2 & Hi1 & Hr2). exists c2, i2. split; [|done].
  unfold comment_turn. cbn [closing_loop]. rewrite decide_True by done. rewrite Hi, decide_True by done.
  rewrite decide_False by lia. rewrite Hi1. by replace (count + 1 - 1) with count by lia.
Qed.

(** The loop over the inside of a comment; all the fuels stay large enough. *)
Lemma comment_body_reads b : comment_body b -> forall f1 f2 f3 count c i s, 1 <= count -> reading c i (b ++ s) ->
  (length (b ++ s) <= Nat.min f1 (Nat.min f2 f3))%nat -> s <> [] -> head s <> Some (chr: "/") ->
  exists f1' f2' f3' c' i', comment_turn f1 f2 f3 count c i = comment_turn f1' f2' f3' count c' i' /\ reading c' i' s /\
    (length s <= Nat.min f1' (Nat.min f2' f3'))%nat.
Proof.
  induction 1 as [|d t Hs Hl Hb IH|t Hh Hb IH|d t Hd Hb IH|d inner t Hd Hin IHin Hb IH]; intros f1 f2 f3 count c i s Hc Hr Hf Hn Hhead.
  { by exists f1, f2, f3, c, i. }
  all: destruct (reading_next c i _ _ Hr) as (-> & Hg & He); cbn [app length] in Hf; clear Hr.
  - destruct f3 as [|f3]; [lia|]. destruct (turn_plain f1 f2 f3 count d i (t ++ s)) as (c1 & i1 & -> & Hr1); [done..|].
    apply IH; [done|done|lia|done..].
  - destruct f1 as [|f1]; [lia|]. destruct (turn_star f1 f2 f3 count i (t ++ s) Hg) as (c1 & i1 & -> & Hr1).
    { by intros [_ ?]%app_eq_nil. }
    { destruct t; [done|]. by cbn in *. }
    apply IH; [done|done|lia|done..].
  - destruct f2 as [|f2]; [lia|]. destruct (turn_slash f1 f2 f3 count i d (t ++ s) Hg Hd) as (c1 & i1 & -> & Hr1).
    apply IH; [done|done|cbn [app length]; lia|done..].
  - fold (@app Z) in Hg. rewrite <- !app_assoc in Hg. cbn [app] in Hg.
    rewrite !length_app in Hf. cbn [length] in Hf.
    destruct f2 as [|f2]; [lia|].
    destruct (turn_open f1 f2 f3 count i d (inner ++ (str: "*/") ++ t ++ s) Hg Hd) as (c1 & i1 & -> & Hr1).
    destruct (IHin f1 f2 f3 (count + 1) c1 i1 ((str: "*/") ++ t ++ s)) as (g1 & g2 & g3 & c3 & i3 & -> & Hr3 & Hf3);
      [lia|done|cbn [app length]; rewrite !length_app; cbn [length]; rewrite !length_app; lia|done..|].
    cbn [app length] in Hr3, Hf3. destruct (reading_next c3 i3 _ _ Hr3) as (-> & Hg3 & _). destruct g1 as [|g1]; [lia|].
    destruct (turn_close g1 g2 g3 count i3 (t ++ s) Hc Hg3) as (c5 & i5 & -> & Hr5).
    apply IH; [done|done|rewrite length_app in *; lia|done..].
Qed.

(** The end of the comment that is not nested. *)
Lemma comment_reads b fuel i s : comment_body b -> gives 1 i (b ++ (str: "*/") ++ s) -> (length (b ++ (str: "*/") ++ s) < fuel)%nat ->
  exists i', comment_loop EOS fuel 1 i = Ok i' /\ gives 0 i' s.
Proof.
  intros Hb Hg Hf. destruct fuel as [|fuel]; [lia|]. destruct (comment_loop_turn fuel 1 i _ Hg) as (c & i1 & -> & Hr).
  destruct (comment_body_reads b Hb fuel fuel fuel 1 c i1 _ ltac:(lia) Hr ltac:(lia)) as (f1 & f2 & f3 & c' & i2 & -> & Hr2 & Hf2); [done..|].
  cbn [app length] in *. destruct (reading_next c' i2 _ _ Hr2) as (-> & Hg2 & _). destruct f1 as [|f1]; [lia|].
  destruct (getc_cons EOS 0 i2 _ _ Hg2 ltac:(lia)) as (i3 & Hi2 & Hg3). exists i3. split; [|done].
  unfold comment_turn. cbn [closing_loop]. by rewrite decide_True, Hi2, !decide_True by done.
Qed.

(** ** Lines *)

Lemma skip_line_reads l fuel i s : LF ∉ l -> gives 1 i (l ++ LF :: s) -> (length (l ++ LF :: s) < fuel)%nat ->
  exists i', skip_line EOS fuel i = Ok i' /\ gives 0 i' s.
Proof.
  revert fuel i. induction l as [|c l IH]; intros fuel i Hl Hg Hf; (destruct fuel as [|fuel]; [cbn in Hf; lia|]);
    cbn [skip_line app length] in *; destruct (getc_cons EOS 1 i _ _ Hg ltac:(lia)) as (i1 & -> & Hg1).
  - rewrite decide_True by auto. by exists i1.
  - apply not_elem_of_cons in Hl as [Hc Hl]. rewrite decide_False.
    + apply IH; [done|by apply gives_0_1|lia].
    + intros [|]; [done|]. by eapply (gives_not_eos EOS); [exact Hg|left|].
Qed.

(** ** Turns of the main loop that skip *)

Lemma layout_step fuel i t s : layout t -> t <> [] -> gives 1 i (t ++ s) -> (length (t ++ s) < fuel)%nat ->
  exists t' i', layout t' /\ (length t' < length t)%nat /\ lex_step fuel i = Ok (Skip i') /\ gives 1 i' (t' ++ s).
Proof.
  intros Ht Hn Hg Hf. destruct Ht as [|c t Hc Ht|l t Hl Ht|b t Hb Ht]; [done|..].
  - exists t. cbn [app] in Hg. destruct (getc_cons EOS 1 i _ _ Hg ltac:(lia)) as (i1 & Hi & Hg1). exists i1.
    split_and!; [done|cbn; lia| |by apply gives_0_1]. unfold Lexer.lex_step. cbv zeta. rewrite Hi, Hc.
    by rewrite decide_False by (eapply (gives_not_eos EOS); [exact Hg|left]).
  - exists t. rewrite <- !app_assoc in Hg, Hf. cbn [app length] in Hg, Hf.
    destruct (getc_cons EOS 1 i _ _ Hg ltac:(lia)) as (i1 & Hi & Hg1).
    destruct (getc_cons EOS 0 i1 _ _ Hg1 ltac:(lia)) as (i2 & Hi1 & Hg2).
    destruct (skip_line_reads l fuel i2 (t ++ s) Hl) as (i3 & Hskip & Hg3); [by apply gives_0_1|lia|]. exists i3.
    split_and!; [done|rewrite !length_app; cbn; lia| |by apply gives_0_1].
    unfold Lexer.lex_step. cbv zeta. rewrite Hi. rewrite decide_False by (by apply (eos_char EOS)). cbn.
    by rewrite Hi1, Hskip.
  - exists t. rewrite <- !app_assoc in Hg, Hf. cbn [app length] in Hg, Hf.
    destruct (getc_cons EOS 1 i _ _ Hg ltac:(lia)) as (i1 & Hi & Hg1).
    destruct (getc_cons EOS 0 i1 _ _ Hg1 ltac:(lia)) as (i2 & Hi1 & Hg2).
    destruct (comment_reads b fuel i2 (t ++ s) Hb) as (i3 & Hskip & Hg3); [by apply gives_0_1|cbn [app]; lia|]. exists i3.
    split_and!; [done|rewrite !length_app; cbn; lia| |by apply gives_0_1].
    unfold Lexer.lex_step. cbv zeta. rewrite Hi. rewrite decide_False by (by apply (eos_char EOS)). cbn.
    by rewrite Hi1, Hskip.
Qed.

Lemma layout_reads t fuel i s : layout t -> gives 1 i (t ++ s) -> (S (length (t ++ s)) < fuel)%nat ->
  exists fuel' i', token_loop fuel i = token_loop fuel' i' /\ gives 1 i' s /\ (S (length s) < fuel')%nat.
Proof.
  revert fuel i. induction t as [t IH] using (induction_ltof1 _ length). unfold ltof in IH. intros fuel i Ht Hg Hf.
  destruct (decide (t = [])) as [->|Hn]; [by exists fuel, i|]. destruct fuel as [|fuel]; [lia|].
  destruct (layout_step fuel i t s Ht Hn Hg ltac:(lia)) as (t' & i' & Ht' & Hl & Hr & Hg').
  destruct (IH t' Hl fuel i' Ht' Hg') as (fuel'' & i'' & Hloop & ?); [rewrite length_app in *; lia|].
  exists fuel'', i''. split; [|done]. cbn [Lexer.token_loop]. by rewrite Hr.
Qed.

(** The lines that start with a [#], at the start of the script. *)
Definition hash_lines (ls : list (list Z)) : list Z := concat ((fun l => (chr: "#") :: l ++ [LF]) <$> ls).

Lemma hash_lines_reads l ls fuel i s : LF ∉ l -> Forall (fun l => LF ∉ l) ls -> head s <> Some (chr: "#") ->
  gives 1 i (l ++ [LF] ++ hash_lines ls ++ s) -> (length (l ++ [LF] ++ hash_lines ls ++ s) < fuel)%nat ->
  exists i', skip_hash_lines EOS (S fuel) i = Ok i' /\ gives 1 i' s.
Proof.
  revert l fuel i. induction ls as [|l1 ls IH]; intros l fuel i Hl Hls Hs Hg Hf; cbn [skip_hash_lines].
  - destruct (skip_line_reads l fuel i s Hl Hg Hf) as (i1 & -> & Hg1). cbn [result_bind].
    destruct (getc_reading EOS 0 i1 s Hg1 ltac:(lia)) as (c & i2 & -> & Hr). rewrite decide_False.
    + apply (ungetc_reading EOS c i2 s Hr).
    + destruct Hr as (-> & _). destruct s as [|d s]; [by apply (eos_not EOS)|]. cbn in *. congruence.
  - apply Forall_cons in Hls as [Hl1 Hls]. unfold hash_lines in Hg, Hf. cbn [fmap list_fmap concat app] in Hg, Hf.
    fold (hash_lines ls) in Hg, Hf. rewrite <- !app_assoc in Hg, Hf. rewrite length_app in Hf. cbn [length] in Hf.
    destruct (skip_line_reads l fuel i _ Hl Hg) as (i1 & -> & Hg1); [rewrite length_app; cbn [length]; lia|]. cbn [result_bind].
    destruct (getc_cons EOS 0 i1 _ _ Hg1 ltac:(lia)) as (i2 & -> & Hg2). rewrite decide_True by done.
    destruct fuel as [|fuel]; [lia|]. apply (IH l1); [done..|by apply gives_0_1|lia].
Qed.

(** ** Operators *)

Lemma short_token_reads t l c i s : valid_token t = true -> reading c i s ->
  exists i', short_token EOS t l c i = Ok (Token (node_of_token t l) i') /\ gives 1 i' s.
Proof.
  intros Ht Hr. unfold short_token. destruct (ungetc_reading EOS c i s Hr) as (i' & -> & Hg). exists i'.
  split; [|done]. by apply token_valid.
Qed.

Lemma reading_not_in c i s l : reading c i s -> Forall (fun f => 0 < f <= 0x10FFFF) l ->
  (forall d, head s = Some d -> d ∉ l) -> c ∉ l.
Proof.
  intros (-> & _) Hl Hs. destruct s as [|d s]; [|by apply Hs]. cbn. intros Hin.
  by apply (eos_char EOS EOS (proj1 (Forall_forall _ _) Hl _ Hin)).
Qed.

(** Reads the next character, when it is known. *)
Ltac known := match goal with Hg : Input.gives EOS ?n ?i (?c :: ?s) |- context [getc EOS ?i] =>
  let i' := fresh "i" in let Hi := fresh "Hi" in let Hg' := fresh "Hg" in
  destruct (getc_cons EOS n i c s Hg ltac:(lia)) as (i' & Hi & Hg'); rewrite Hi; clear Hi Hg end.

(** The character after an operator is not one that makes it longer. *)
Ltac follow Hs := match type of Hs with forall c, head ?s = Some c -> c ∉ ?l =>
  match goal with Hg : Input.gives EOS ?n ?i s |- context [getc EOS ?i] =>
  let c := fresh "c" in let i' := fresh "i" in let Hr := fresh "Hr" in let Hn := fresh "Hn" in
  let Hl := fresh "Hl" in
  assert (Forall (fun f => 0 < f <= 0x10FFFF) l) as Hl by closed_decide;
  destruct (getc_reading EOS n i s Hg ltac:(lia)) as (c & i' & -> & Hr);
  pose proof (reading_not_in c i' s l Hr Hl Hs) as Hn;
  rewrite ?elem_of_cons, ?elem_of_nil in Hn; rewrite !decide_False by lia; by apply short_token_reads end end.

Ltac complete := eexists; split; [reflexivity|by apply gives_0_1].

Lemma operator_reads fuel i text token forbidden s : (text, token, forbidden) ∈ operators ->
  (forall c, head s = Some c -> c ∉ forbidden) -> gives 1 i (text ++ s) ->
  exists i', lex_step fuel i = Ok (Token (node_of_token token (f_location i)) i') /\ gives 1 i' s.
Proof.
  intros Hop Hs Hg. unfold operators in Hop. unfold Lexer.lex_step. cbv zeta.
  repeat (apply elem_of_cons in Hop as [[= -> -> ->]|Hop]; [
    cbn [app] in Hg; known; rewrite (decide_False (P := _ = EOS)) by (by apply (eos_char EOS)); branch;
    first [follow Hs | known; branch; first [complete | follow Hs | known; branch; complete]] |]).
  by apply not_elem_of_nil in Hop.
Qed.

Lemma single_reads fuel i c s : is_single c = true \/ c = (chr: "#") /\ ~ (f_line (f_location i) = 1 /\ f_column (f_location i) = 1) ->
  gives 1 i (c :: s) ->
  exists i', lex_step fuel i = Ok (Token (node_of_token c (f_location i)) i') /\ gives 1 i' s.
Proof.
  intros Hc Hg. unfold Lexer.lex_step. cbv zeta. assert (c <> EOS) by (eapply (gives_not_eos EOS); [exact Hg|left]).
  known. rewrite decide_False by done. destruct Hc as [Hc|[-> Hc]].
  - assert (is_space c = false) as ->; [|rewrite Hc, token_valid by (by apply single_valid); complete].
    apply bool_decide_eq_true in Hc. apply bool_decide_eq_false. rewrite !elem_of_cons, elem_of_nil in *. lia.
  - branch. rewrite (decide_False (P := _ /\ _)) by done. complete.
Qed.
End LexerLayout.

(** Spaces, lines that start with two dashes and C-like comments, which
    nest, are skipped before a token; so are, at the start of a script, the
    lines that start with a [#]. *)
Theorem lexer_layout EOS is_hexdigit hexdigit_to_number to_u8string (eos : EndOfScript EOS) fuel i s :
  (forall t, layout t -> gives EOS 1 i (t ++ s) -> (S (length (t ++ s)) < fuel)%nat ->
    exists fuel' i', gives EOS 1 i' s /\ (S (length s) < fuel')%nat /\
      get_next_token EOS is_hexdigit hexdigit_to_number to_u8string fuel (Some i) =
      get_next_token EOS is_hexdigit hexdigit_to_number to_u8string fuel' (Some i')) /\
  (forall l ls, Forall (fun l => LF ∉ l) (l :: ls) -> head s <> Some (chr: "#") ->
    f_line (f_location i) = 1 -> f_column (f_location i) = 1 -> gives EOS 1 i (hash_lines (l :: ls) ++ s) ->
    (S (length (hash_lines (l :: ls) ++ s)) < fuel)%nat ->
    exists fuel' i', gives EOS 1 i' s /\ (S (length s) < fuel')%nat /\
      get_next_token EOS is_hexdigit hexdigit_to_number to_u8string fuel (Some i) =
      get_next_token EOS is_hexdigit hexdigit_to_number to_u8string fuel' (Some i')).
Proof.
  split.
  - intros t Ht Hg Hf.
    destruct (layout_reads EOS is_hexdigit hexdigit_to_number to_u8string t fuel i s Ht Hg Hf) as (fuel' & i' & Hl & Hg' & Hf').
    exists fuel', i'. split_and!; [done..|]. unfold get_next_token. by rewrite Hl.
  - intros l ls [Hl Hls]%Forall_cons Hs Hline Hcol Hg Hf. unfold hash_lines in Hg, Hf. cbn [fmap list_fmap concat app] in Hg, Hf.
    fold (hash_lines ls) in Hg, Hf. rewrite <- !app_assoc in Hg, Hf. cbn [length] in Hf.
    destruct fuel as [|[|fuel]]; [lia..|]. destruct (getc_cons EOS 1 i _ _ Hg ltac:(lia)) as (i1 & Hi & Hg1).
    destruct (hash_lines_reads EOS l ls fuel i1 s Hl Hls Hs) as (i2 & Hskip & Hg2); [by apply gives_0_1|lia|].
    exists (S fuel), i2. rewrite !length_app in Hf. cbn [length] in Hf. split_and!; [done|lia|].
    unfold get_next_token. cbn [token_loop]. unfold lex_step at 1. cbv zeta. rewrite Hi.
    rewrite decide_False by (by apply (eos_char EOS)). branch. rewrite (decide_True (P := _ /\ _)) by done. by rewrite Hskip.
Qed.

Lemma lexer_layout_witness :
  exists fuel' i', gives example_eos 1 i' (str: "x") /\ (2 < fuel')%nat /\
    example_token (str: "  /* a /* b */ ** */ x") =
    get_next_token example_eos ascii_is_hexdigit ascii_hexdigit_to_number example_to_u8string fuel' (Some i').
Proof.
  destruct (lexer_layout example_eos ascii_is_hexdigit ascii_hexdigit_to_number example_to_u8string _ 100
    (input_init (str: "  /* a /* b */ ** */ x") []) (str: "x")) as [H _].
  apply (H (str: "  /* a /* b */ ** */ ")).
  - do 2 (apply layout_space; [done|]).
    apply (layout_comment (str: " a /* b */ ** ") (str: " ")); [|by apply layout_space; [|constructor]].
    do 3 (apply body_char; [done..|]). apply (body_nested (chr: " ") (str: "b ") (str: " ** ")); [done|by repeat constructor|].
    apply body_char; [done..|]. do 2 (apply body_star; [done|]). by repeat constructor.
  - apply (gives_weaken _ 0); [lia|]. apply gives_init. closed_decide.
  - apply Nat.ltb_lt. vm_compute. reflexivity.
Defined.

(** An empty comment inside of a comment is not seen: its closing is read as the
    start of another comment, which is never closed. *)
Example nested_empty_comment : example_token (str: "/* /**/ */ x") = Throw invalid_token.
Proof. vm_compute. reflexivity. Qed.

(** A word starts with a letter or an underscore and goes on with letters,
    digits and underscores, as far as possible (a word of one letter that
    announces a quoted number or string is not one when a quote follows); an
    operator is as long as possible; the token has the location of the input, and
    what follows is left in the input. The end of the script is a token, and an
    exclamation mark without tilde is refused. *)
Theorem lexer_words EOS is_hexdigit hexdigit_to_number to_u8string
    (eos : EndOfScript EOS) fuel i s :
  (forall c text, is_letter c = true -> Forall (fun c => is_identifier_char c = true) text ->
    (forall d, head s = Some d -> is_identifier_char d = false) ->
    (text = [] -> c ∈ (str: "bBeEoOxX") -> head s <> Some QUOTE) ->
    gives EOS 1 i (c :: text ++ s) -> (length (text ++ s) < fuel)%nat ->
    lexes EOS is_hexdigit hexdigit_to_number to_u8string (S fuel) i (string_node TOKEN_IDENTIFIER (f_location i) (c :: text)) s) /\
  (forall text token forbidden, (text, token, forbidden) ∈ operators -> (forall c, head s = Some c -> c ∉ forbidden) ->
    gives EOS 1 i (text ++ s) ->
    lexes EOS is_hexdigit hexdigit_to_number to_u8string (S fuel) i (node_of_token token (f_location i)) s) /\
  (forall c, is_single c = true \/ c = (chr: "#") /\ ~ (f_line (f_location i) = 1 /\ f_column (f_location i) = 1) ->
    gives EOS 1 i (c :: s) ->
    lexes EOS is_hexdigit hexdigit_to_number to_u8string (S fuel) i (node_of_token c (f_location i)) s) /\
  (gives EOS 1 i [] ->
    lexes EOS is_hexdigit hexdigit_to_number to_u8string (S fuel) i (node_of_token TOKEN_EOF (f_location i)) []) /\
  (gives EOS 1 i ((chr: "!") :: s) -> head s <> Some (chr: "~") ->
    get_next_token EOS is_hexdigit hexdigit_to_number to_u8string (S fuel) (Some i) = Throw unexpected_token).
Proof.
  split_and!.
  - intros c text Hc Ht Hs Hq Hg Hf.
    destruct (identifier_step EOS is_hexdigit hexdigit_to_number to_u8string fuel i c text s Hc Ht Hs Hq Hg Hf) as (i' & Hr & Hg').
    by eapply lexes_step.
  - intros text token forbidden Hop Hs Hg.
    destruct (operator_reads EOS is_hexdigit hexdigit_to_number to_u8string fuel i text token forbidden s Hop Hs Hg) as (i' & Hr & Hg').
    by eapply lexes_step.
  - intros c Hc Hg. destruct (single_reads EOS is_hexdigit hexdigit_to_number to_u8string fuel i c s Hc Hg) as (i' & Hr & Hg').
    by eapply lexes_step.
  - intros Hg. destruct (getc_nil EOS 1 i Hg ltac:(lia)) as (i1 & Hi & Hg1). exists i1. split; [|by apply gives_0_1].
    unfold get_next_token. cbn [token_loop]. unfold lex_step. cbv zeta. rewrite Hi. by rewrite decide_True by done.
  - intros Hg Hs. destruct (getc_cons EOS 1 i _ _ Hg ltac:(lia)) as (i1 & Hi & Hg1).
    unfold get_next_token. cbn [token_loop]. unfold lex_step. cbv zeta. rewrite Hi.
    rewrite decide_False by (by apply (eos_char EOS)). branch.
    destruct (getc_reading EOS 0 i1 s Hg1 ltac:(lia)) as (c & i2 & -> & Hr). rewrite decide_False.
    + by destruct (ungetc_reading EOS c i2 s Hr) as (i3 & -> & _).
    + destruct Hr as (-> & _). destruct s as [|d s]; [by apply (eos_not EOS)|]. cbn in *. congruence.
Qed.

Lemma lexer_words_witness :
  exists i', example_token (str: "||a") = Ok (node_of_token TOKEN_STRING_CONCAT (Location [] 1 1), Some i').
Proof.
  destruct (lexer_words example_eos ascii_is_hexdigit ascii_hexdigit_to_number example_to_u8string _ 99
    (input_init (str: "||a") []) (str: "a")) as (_ & H & _).
  destruct (H (str: "||") TOKEN_STRING_CONCAT (str: "/")) as (i' & Hr & _).
  - by apply (bool_decide_unpack _).
  - intros c [= <-]. by apply (bool_decide_unpack _).
  - apply (gives_weaken _ 0); [lia|]. apply gives_init. closed_decide.
  - exists i'. exact Hr.
Defined.

(** The location does not go back when a character is put back: the plus sign of
    this script is in column 2. *)
Example location_after_ungetc :
  (let! '(_, l) := example_token (str: "a+b") in
   let! '(n, _) := get_next_token example_eos ascii_is_hexdigit ascii_hexdigit_to_number example_to_u8string 10 l in
   Ok (f_token n, f_column (f_node_location n))) = Ok ((chr: "+"), 3).
Proof. vm_compute. reflexivity. Qed.
