(* ===== verification/Bytes.v ===== *)
(** * Bytes in memory and in files

    Little-endian integers (the platform's), and the effect of a write at a
    position of a file. *)

From S2P Require Import Prelude.

Fixpoint le (n : nat) (x : Z) : list Z :=
  match n with
  | O => []
  | S n => x mod 256 :: le n (x / 256)
  end.

Fixpoint of_le (l : list Z) : Z :=
  match l with
  | [] => 0
  | b :: l => b + 256 * of_le l
  end.

Lemma length_le n x : length (le n x) = n.
Proof. revert x. induction n as [|n IH]; intros x; [done|]. cbn. by rewrite IH. Qed.

Lemma of_le_le n x : of_le (le n x) = wrap (8 * Z.of_nat n) x.
Proof.
  unfold wrap. revert x. induction n as [|n IH]; intros x; [cbn; by rewrite Z.mod_1_r|].
  cbn [le of_le]. rewrite IH. replace (8 * Z.of_nat (S n)) with (8 + 8 * Z.of_nat n) by lia.
  rewrite Z.pow_add_r by lia. change (2 ^ 8) with 256. rewrite Z.rem_mul_r; [lia|lia|apply pow2_pos; lia].
Qed.

Lemma of_le_le_small n x : uword (8 * Z.of_nat n) x -> of_le (le n x) = x.
Proof. intros. rewrite of_le_le. by apply wrap_small. Qed.

(** ** Parts of a file *)

(** The [n] bytes at [pos], if they are all there. *)
Definition bytes_at (c : list Z) (pos n : Z) : option (list Z) :=
  if decide (n = 0) then Some []
  else if decide (0 <= pos /\ pos + n <= Z.of_nat (length c)) then Some (take (Z.to_nat n) (drop (Z.to_nat pos) c)) else None.

(** A write at [pos]; past the end, the gap is filled with zeros. *)
Definition overwrite (c : list Z) (pos : Z) (bs : list Z) : list Z :=
  match bs with
  | [] => c
  | _ =>
      take (Z.to_nat pos) (c ++ replicate (Z.to_nat pos - length c) 0) ++ bs ++ drop (Z.to_nat pos + length bs) c
  end.

Lemma overwrite_split a b x y : length b = length y -> overwrite (a ++ b ++ x) (Z.of_nat (length a)) y = a ++ y ++ x.
Proof.
  intros Hl. destruct y as [|y0 y]; [by destruct b|]. unfold overwrite. rewrite Nat2Z.id.
  replace (length a - length (a ++ b ++ x))%nat with 0%nat by (rewrite length_app; lia). cbn [replicate]. rewrite app_nil_r.
  rewrite take_app_length. f_equal. f_equal. rewrite <- drop_drop, drop_app_length, <- Hl.
  by rewrite drop_app_length.
Qed.

Lemma overwrite_over a x y : overwrite (a ++ x) (Z.of_nat (length a)) y = a ++ y ++ drop (length y) x.
Proof.
  destruct y as [|y0 y]; [done|]. unfold overwrite. rewrite Nat2Z.id.
  replace (length a - length (a ++ x))%nat with 0%nat by (rewrite length_app; lia). cbn [replicate]. rewrite app_nil_r.
  rewrite take_app_length. f_equal. f_equal. by rewrite <- drop_drop, drop_app_length.
Qed.

(** Writing at the end of what was just written. *)
Lemma overwrite_app c pos x y : 0 <= pos <= Z.of_nat (length c) ->
  overwrite (overwrite c pos x) (pos + Z.of_nat (length x)) y = overwrite c pos (x ++ y).
Proof.
  intros Hp. rewrite <- (take_drop (Z.to_nat pos) c). set (a := take _ c). set (r := drop _ c).
  assert (Z.of_nat (length a) = pos) as Ha by (subst a; rewrite length_take; lia). rewrite <- Ha.
  rewrite !overwrite_over, !app_assoc. rewrite <- Nat2Z.inj_add, <- length_app. rewrite overwrite_over.
  rewrite !app_assoc, length_app, drop_drop. by rewrite <- !app_assoc.
Qed.

Lemma length_overwrite c pos x : 0 <= pos <= Z.of_nat (length c) ->
  length (overwrite c pos x) = Nat.max (length c) (Z.to_nat pos + length x).
Proof.
  intros Hp. rewrite <- (take_drop (Z.to_nat pos) c) at 1 2. rewrite length_app.
  set (a := take _ c). set (r := drop _ c).
  assert (Z.of_nat (length a) = pos) as Ha by (subst a; rewrite length_take; lia). rewrite <- Ha at 1.
  rewrite overwrite_over, !length_app, length_drop. lia.
Qed.

Lemma bytes_at_split a b x : bytes_at (a ++ b ++ x) (Z.of_nat (length a)) (Z.of_nat (length b)) = Some b.
Proof.
  unfold bytes_at. destruct (decide _); [by destruct b|].
  rewrite decide_True by (rewrite !length_app; lia). rewrite !Nat2Z.id, drop_app_length.
  by rewrite take_app_length.
Qed.

Lemma bytes_at_length c pos n bs : 0 <= n -> bytes_at c pos n = Some bs -> length bs = Z.to_nat n.
Proof.
  intros Hn. unfold bytes_at. destruct (decide _) as [->|]; [by intros [= <-]|].
  destruct (decide _); [|done]. intros [= <-]. rewrite length_take, length_drop. lia.
Qed.

(** ** Buffers *)

(** The [n] bytes at [pos] of a buffer; reading or writing out of it is undefined
    behaviour. *)
Definition read_buffer (buffer : list Z) (pos n : Z) : result (list Z) :=
  match bytes_at buffer pos n with Some b => Ok b | None => Throw undefined_behavior end.
Definition write_buffer (buffer : list Z) (pos : Z) (bytes : list Z) : result (list Z) :=
  if decide (0 <= pos /\ pos + Z.of_nat (length bytes) <= Z.of_nat (length buffer)) then Ok (overwrite buffer pos bytes)
  else Throw undefined_behavior.
