(* ===== verification/SortedMap.v ===== *)
(** * std::map as a sorted association list

    The keys are compared with a strict order given as a boolean function, as
    [std::less] is.  An iterator is the key of its entry, or [None] for end(). *)

From S2P Require Import Prelude.

Class KeyOrder {K : Type} (ltb : K -> K -> bool) : Prop := {
  ltb_irrefl k : ltb k k = false;
  ltb_trans a b c : ltb a b = true -> ltb b c = true -> ltb a c = true;
  ltb_total a b : ltb a b = false -> ltb b a = false -> a = b;
}.

Section SortedMap.
Context {K V : Type} (ltb : K -> K -> bool).

Definition smap : Type := list (K * V).

Fixpoint find_key (k : K) (m : smap) : option V :=
  match m with
  | [] => None
  | (k', v) :: m => if ltb k k' then None else if ltb k' k then find_key k m else Some v
  end.

Fixpoint put (k : K) (v : V) (m : smap) : smap :=
  match m with
  | [] => [(k, v)]
  | (k', v') :: m' =>
      if ltb k k' then (k, v) :: m else if ltb k' k then (k', v') :: put k v m' else (k, v) :: m'
  end.

Fixpoint erase (k : K) (m : smap) : smap :=
  match m with
  | [] => []
  | (k', v') :: m' =>
      if ltb k k' then m else if ltb k' k then (k', v') :: erase k m' else m'
  end.

Definition contains (k : K) (m : smap) : bool := match find_key k m with Some _ => true | None => false end.

(** begin(), and the entry after the one of key [k]. *)
Definition begin (m : smap) : option K := fst <$> head m.

Fixpoint next_key (k : K) (m : smap) : option K :=
  match m with
  | [] => None
  | (k', _) :: m => if ltb k k' then Some k' else next_key k m
  end.

(** Each key is below the ones that follow. *)
Fixpoint sorted (m : smap) : Prop :=
  match m with
  | [] => True
  | (k, _) :: m => Forall (fun e => ltb k (fst e) = true) m /\ sorted m
  end.

Context {order : KeyOrder ltb}.

Lemma ltb_asym a b : ltb a b = true -> ltb b a = false.
Proof.
  intros H. destruct (ltb b a) eqn:E; [|done]. by rewrite <- (ltb_irrefl (ltb := ltb) a), (ltb_trans (ltb := ltb) a b a).
Qed.

Lemma Forall_ltb_put k k' v m : ltb k' k = true -> Forall (fun e => ltb k' (fst e) = true) m ->
  Forall (fun e => ltb k' (fst e) = true) (put k v m).
Proof.
  intros Hk Hm. induction Hm as [|[k1 v1] m H1 Hm IH]; cbn; [by repeat constructor|].
  destruct (ltb k k1); [by repeat constructor|]. destruct (ltb k1 k); by constructor.
Qed.

Lemma sorted_put k v m : sorted m -> sorted (put k v m).
Proof.
  induction m as [|[k' v'] m IH]; cbn; [done|]. intros [Hf Hs].
  destruct (ltb k k') eqn:E1; cbn.
  { split; [|done]. constructor; [done|]. eapply Forall_impl; [exact Hf|]. intros e He. by eapply (ltb_trans (ltb := ltb)). }
  destruct (ltb k' k) eqn:E2; cbn.
  - split; [by apply Forall_ltb_put|auto].
  - split; [|done]. by rewrite (ltb_total (ltb := ltb) k k' E1 E2).
Qed.

Lemma Forall_erase (P : K * V -> Prop) k m : Forall P m -> Forall P (erase k m).
Proof.
  induction 1 as [|[k1 v1] m H1 Hm IH]; cbn; [done|].
  destruct (ltb k k1); [by constructor|]. destruct (ltb k1 k); [by constructor|done].
Qed.

Lemma sorted_erase k m : sorted m -> sorted (erase k m).
Proof.
  induction m as [|[k' v'] m IH]; cbn; [done|]. intros [Hf Hs].
  destruct (ltb k k'); [done|]. destruct (ltb k' k); cbn; [|done]. split; [by apply Forall_erase|auto].
Qed.

Lemma find_above k m : Forall (fun e => ltb k (fst e) = true) m -> find_key k m = None.
Proof. destruct m as [|[k' v'] m]; [done|]. intros [H _]%Forall_cons. cbn in *. by rewrite H. Qed.

Lemma find_put_eq k v m : find_key k (put k v m) = Some v.
Proof.
  induction m as [|[k' v'] m IH]; cbn; [by rewrite (ltb_irrefl (ltb := ltb))|].
  destruct (ltb k k') eqn:E1; cbn; [by rewrite (ltb_irrefl (ltb := ltb))|].
  destruct (ltb k' k) eqn:E2; cbn; [by rewrite E1, E2|by rewrite (ltb_irrefl (ltb := ltb))].
Qed.

Lemma find_put_ne k k' v m : k <> k' -> find_key k (put k' v m) = find_key k m.
Proof.
  intros Hne. induction m as [|[k1 v1] m IH]; cbn.
  - destruct (ltb k k') eqn:E1; [done|]. destruct (ltb k' k) eqn:E2; [done|]. by apply (ltb_total (ltb := ltb)) in E1.
  - destruct (ltb k' k1) eqn:E1; cbn.
    + destruct (ltb k k') eqn:E3.
      * by rewrite (ltb_trans (ltb := ltb) k k' k1).
      * destruct (ltb k' k) eqn:E4; [done|]. by apply (ltb_total (ltb := ltb)) in E3.
    + destruct (ltb k1 k') eqn:E2; cbn.
      * by rewrite IH.
      * rewrite <- (ltb_total (ltb := ltb) k' k1 E1 E2). destruct (ltb k k') eqn:E3; [done|].
        destruct (ltb k' k) eqn:E4; [done|]. by apply (ltb_total (ltb := ltb)) in E3.
Qed.

Lemma find_erase_eq k m : sorted m -> find_key k (erase k m) = None.
Proof.
  induction m as [|[k' v'] m IH]; cbn; [done|]. intros [Hf Hs].
  destruct (ltb k k') eqn:E1; cbn; [by rewrite E1|]. destruct (ltb k' k) eqn:E2; cbn; [rewrite E1, E2; auto|].
  apply find_above. by rewrite (ltb_total (ltb := ltb) k k' E1 E2).
Qed.

Lemma find_erase_ne k k' m : sorted m -> k <> k' -> find_key k (erase k' m) = find_key k m.
Proof.
  intros Hs Hne. induction m as [|[k1 v1] m IH]; cbn; [done|]. destruct Hs as [Hf Hs].
  destruct (ltb k' k1) eqn:E1; [done|]. destruct (ltb k1 k') eqn:E2; cbn.
  - by rewrite IH.
  - rewrite (ltb_total (ltb := ltb) k' k1 E1 E2) in *. destruct (ltb k k1) eqn:E3.
    + apply find_above. eapply Forall_impl; [exact Hf|]. intros e He. by eapply (ltb_trans (ltb := ltb)).
    + destruct (ltb k1 k) eqn:E4; [done|]. by apply (ltb_total (ltb := ltb)) in E3.
Qed.

Lemma find_elem k v m : sorted m -> find_key k m = Some v <-> (k, v) ∈ m.
Proof.
  induction m as [|[k' v'] m IH]; cbn; [intros _; split; [done|by intros ?%not_elem_of_nil]|].
  intros [Hf Hs]. rewrite elem_of_cons. destruct (ltb k k') eqn:E1.
  - split; [done|]. intros [[= -> ->]|Hin]; [by rewrite (ltb_irrefl (ltb := ltb)) in E1|].
    rewrite Forall_forall in Hf. apply Hf in Hin. cbn in Hin. by rewrite (ltb_asym k' k) in E1.
  - destruct (ltb k' k) eqn:E2.
    + rewrite IH by done. split; [auto|]. intros [[= -> ->]|?]; [by rewrite (ltb_irrefl (ltb := ltb)) in E2|done].
    + rewrite (ltb_total (ltb := ltb) k k' E1 E2) in *. split; [intros [= ->]; auto|]. intros [[= ->]|Hin]; [done|].
      rewrite Forall_forall in Hf. apply Hf in Hin. cbn in Hin. by rewrite (ltb_irrefl (ltb := ltb)) in Hin.
Qed.

(** The entry that follows in the list is the next one of an iterator. *)
Lemma next_key_split m1 k v m2 : sorted (m1 ++ (k, v) :: m2) -> next_key k (m1 ++ (k, v) :: m2) = begin m2.
Proof.
  induction m1 as [|[k1 v1] m1 IH]; cbn.
  - intros [Hf Hs]. rewrite (ltb_irrefl (ltb := ltb)). destruct m2 as [|[k2 v2] m2]; [done|].
    apply Forall_cons in Hf as [H _]. cbn in *. by rewrite H.
  - intros [Hf Hs]. apply Forall_app in Hf as [_ [H _]%Forall_cons]. cbn in H.
    rewrite (ltb_asym k1 k H). auto.
Qed.

Lemma find_split m1 k v m2 : sorted (m1 ++ (k, v) :: m2) -> find_key k (m1 ++ (k, v) :: m2) = Some v.
Proof. intros Hs. apply find_elem; [done|]. apply elem_of_app. right. by left. Qed.

Lemma length_put k v m : find_key k m = None -> length (put k v m) = S (length m).
Proof.
  induction m as [|[k' v'] m IH]; cbn; [done|]. destruct (ltb k k'); [done|].
  destruct (ltb k' k); [intros; cbn; by rewrite IH|done].
Qed.

Lemma length_erase k v m : find_key k m = Some v -> length m = S (length (erase k m)).
Proof.
  induction m as [|[k' v'] m IH]; cbn; [done|]. destruct (ltb k k'); [done|].
  destruct (ltb k' k); [intros; cbn; by rewrite IH|done].
Qed.
End SortedMap.

Arguments smap : clear implicits.

(** ** Orders of keys *)

#[export] Instance Z_key_order : KeyOrder Z.ltb.
Proof. split; intros; lia. Qed.

(** The order of strings: bytes are compared from the first one. *)
Fixpoint string_ltb (a b : list Z) : bool :=
  match a, b with
  | _, [] => false
  | [], _ :: _ => true
  | x :: a, y :: b => (x <? y) || ((x =? y) && string_ltb a b)
  end.

#[export] Instance string_key_order : KeyOrder string_ltb.
Proof.
  split.
  - intros k. induction k as [|x k IH]; [done|]. cbn. rewrite IH. lia.
  - intros a. induction a as [|x a IH]; intros [|y b] [|z c]; cbn; try done.
    rewrite !orb_true_iff, !andb_true_iff. intros [?|[? ?]] [?|[? ?]]; [left; lia..|].
    right. split; [lia|]. by apply (IH b c).
  - intros a. induction a as [|x a IH]; intros [|y b]; cbn; try done.
    rewrite !orb_false_iff, !andb_false_iff. intros [? Ha] [? Hb]. assert (x = y) as -> by lia.
    f_equal. apply IH; [destruct Ha; [lia|done]|destruct Hb; [lia|done]].
Qed.
