(* ===== verification/StructTypes.v ===== *)
(** * Types and descriptions of the fields of a structure
    (prinbee/data/structure.h, prinbee/data/structure.cpp)

    A structure is described by an array of fields that ends with an END entry:
    here, the list of the entries before it.  [struct_type_t] has the types, with
    the size of their values and of the count some start with; [version_t] the
    versions; [flag_definition] the bits of a bit field.  [define_description] is
    the check a description goes through when it is compiled. *)

From S2P Require Import Prelude Names SortedMap.

(** ** Versions *)

Record version_t := Version { f_major : Z; f_minor : Z }.

#[export] Instance version_eq_dec : EqDecision version_t.
Proof. solve_decision. Defined.

Definition version_null : version_t := Version 0 0.
Definition max_version : version_t := Version 65535 65535.

Definition version_of_ints (major minor : Z) : result version_t :=
  if decide (major < 0 \/ major >= 65536 \/ minor < 0 \/ minor >= 65536) then Throw invalid_parameter
  else Ok (Version major minor).

Definition version_of_binary (v : Z) : version_t := Version (wrap 16 (Z.shiftr v 16)) (wrap 16 v).

Definition version_text (v : version_t) : list Z := decimal_text (f_major v) ++ (str: ".") ++ decimal_text (f_minor v).

Definition to_binary (v : version_t) : Z := wrap 32 (wrap 32 (Z.shiftl (f_major v) 16) + f_minor v).

Definition version_is_null (v : version_t) : bool := bool_decide (f_major v = 0 /\ f_minor v = 0).

Definition next_branch (v : version_t) : version_t := Version (wrap 16 (f_major v + 1)) 0.
Definition next_revision (v : version_t) : version_t :=
  let minor := wrap 16 (f_minor v + 1) in
  Version (if decide (minor = 0) then wrap 16 (f_major v + 1) else f_major v) minor.

Definition version_ltb (a b : version_t) : bool :=
  bool_decide (f_major a < f_major b \/ (f_major a = f_major b /\ f_minor a < f_minor b)).
Definition version_leb (a b : version_t) : bool :=
  bool_decide (f_major a < f_major b \/ (f_major a = f_major b /\ f_minor a <= f_minor b)).
Definition version_gtb (a b : version_t) : bool :=
  bool_decide (f_major a > f_major b \/ (f_major a = f_major b /\ f_minor a > f_minor b)).
Definition version_geb (a b : version_t) : bool :=
  bool_decide (f_major a > f_major b \/ (f_major a = f_major b /\ f_minor a >= f_minor b)).

(** ** Types of fields *)

Inductive struct_type_t : Type :=
  | STRUCT_TYPE_END
  | STRUCT_TYPE_VOID
  | STRUCT_TYPE_BITS8
  | STRUCT_TYPE_BITS16
  | STRUCT_TYPE_BITS32
  | STRUCT_TYPE_BITS64
  | STRUCT_TYPE_BITS128
  | STRUCT_TYPE_BITS256
  | STRUCT_TYPE_BITS512
  | STRUCT_TYPE_INT8
  | STRUCT_TYPE_UINT8
  | STRUCT_TYPE_INT16
  | STRUCT_TYPE_UINT16
  | STRUCT_TYPE_INT32
  | STRUCT_TYPE_UINT32
  | STRUCT_TYPE_INT64
  | STRUCT_TYPE_UINT64
  | STRUCT_TYPE_INT128
  | STRUCT_TYPE_UINT128
  | STRUCT_TYPE_INT256
  | STRUCT_TYPE_UINT256
  | STRUCT_TYPE_INT512
  | STRUCT_TYPE_UINT512
  | STRUCT_TYPE_FLOAT32
  | STRUCT_TYPE_FLOAT64
  | STRUCT_TYPE_FLOAT128
  | STRUCT_TYPE_MAGIC
  | STRUCT_TYPE_STRUCTURE_VERSION
  | STRUCT_TYPE_VERSION
  | STRUCT_TYPE_TIME
  | STRUCT_TYPE_MSTIME
  | STRUCT_TYPE_USTIME
  | STRUCT_TYPE_NSTIME
  | STRUCT_TYPE_CHAR
  | STRUCT_TYPE_P8STRING
  | STRUCT_TYPE_P16STRING
  | STRUCT_TYPE_P32STRING
  | STRUCT_TYPE_STRUCTURE
  | STRUCT_TYPE_UNION
  | STRUCT_TYPE_ARRAY8
  | STRUCT_TYPE_ARRAY16
  | STRUCT_TYPE_ARRAY32
  | STRUCT_TYPE_UNION_ARRAY8
  | STRUCT_TYPE_UNION_ARRAY16
  | STRUCT_TYPE_UNION_ARRAY32
  | STRUCT_TYPE_BUFFER8
  | STRUCT_TYPE_BUFFER16
  | STRUCT_TYPE_BUFFER32
  | STRUCT_TYPE_REFERENCE
  | STRUCT_TYPE_OID
  | STRUCT_TYPE_RENAMED.

#[export] Instance struct_type_eq_dec : EqDecision struct_type_t.
Proof. solve_decision. Defined.

Definition INVALID_SIZE : Z := -1.
Definition VARIABLE_SIZE : Z := -2.

(** [g_struct_type_sizes]: the size of a value, and of the count it starts with. *)
Definition g_struct_type_sizes (t : struct_type_t) : Z * Z :=
  match t with
  | STRUCT_TYPE_END => (INVALID_SIZE, 0)
  | STRUCT_TYPE_VOID => (0, 0)
  | STRUCT_TYPE_BITS8 => (1, 0)
  | STRUCT_TYPE_BITS16 => (2, 0)
  | STRUCT_TYPE_BITS32 => (4, 0)
  | STRUCT_TYPE_BITS64 => (8, 0)
  | STRUCT_TYPE_BITS128 => (16, 0)
  | STRUCT_TYPE_BITS256 => (32, 0)
  | STRUCT_TYPE_BITS512 => (64, 0)
  | STRUCT_TYPE_INT8 | STRUCT_TYPE_UINT8 => (1, 0)
  | STRUCT_TYPE_INT16 | STRUCT_TYPE_UINT16 => (2, 0)
  | STRUCT_TYPE_INT32 | STRUCT_TYPE_UINT32 => (4, 0)
  | STRUCT_TYPE_INT64 | STRUCT_TYPE_UINT64 => (8, 0)
  | STRUCT_TYPE_INT128 | STRUCT_TYPE_UINT128 => (16, 0)
  | STRUCT_TYPE_INT256 | STRUCT_TYPE_UINT256 => (32, 0)
  | STRUCT_TYPE_INT512 | STRUCT_TYPE_UINT512 => (64, 0)
  | STRUCT_TYPE_FLOAT32 => (4, 0)
  | STRUCT_TYPE_FLOAT64 => (8, 0)
  | STRUCT_TYPE_FLOAT128 => (16, 0)
  | STRUCT_TYPE_MAGIC => (4, 0)
  | STRUCT_TYPE_STRUCTURE_VERSION => (4, 0)
  | STRUCT_TYPE_VERSION => (4, 0)
  | STRUCT_TYPE_TIME => (8, 0)
  | STRUCT_TYPE_MSTIME => (8, 0)
  | STRUCT_TYPE_USTIME => (8, 0)
  | STRUCT_TYPE_NSTIME => (16, 0)
  | STRUCT_TYPE_CHAR => (INVALID_SIZE, 0)
  | STRUCT_TYPE_P8STRING => (VARIABLE_SIZE, 1)
  | STRUCT_TYPE_P16STRING => (VARIABLE_SIZE, 2)
  | STRUCT_TYPE_P32STRING => (VARIABLE_SIZE, 4)
  | STRUCT_TYPE_STRUCTURE => (VARIABLE_SIZE, 0)
  | STRUCT_TYPE_UNION => (VARIABLE_SIZE, 0)
  | STRUCT_TYPE_ARRAY8 => (VARIABLE_SIZE, 1)
  | STRUCT_TYPE_ARRAY16 => (VARIABLE_SIZE, 2)
  | STRUCT_TYPE_ARRAY32 => (VARIABLE_SIZE, 4)
  | STRUCT_TYPE_UNION_ARRAY8 => (VARIABLE_SIZE, 1)
  | STRUCT_TYPE_UNION_ARRAY16 => (VARIABLE_SIZE, 2)
  | STRUCT_TYPE_UNION_ARRAY32 => (VARIABLE_SIZE, 4)
  | STRUCT_TYPE_BUFFER8 => (VARIABLE_SIZE, 1)
  | STRUCT_TYPE_BUFFER16 => (VARIABLE_SIZE, 2)
  | STRUCT_TYPE_BUFFER32 => (VARIABLE_SIZE, 4)
  | STRUCT_TYPE_REFERENCE => (8, 0)
  | STRUCT_TYPE_OID => (8, 0)
  | STRUCT_TYPE_RENAMED => (INVALID_SIZE, 0)
  end.

Definition verify_size (t : struct_type_t) (size : Z) : result unit :=
  if decide (fst (g_struct_type_sizes t) <> size) then Throw out_of_range else Ok tt.

Definition type_with_fixed_size (t : struct_type_t) : bool :=
  match t with
  | STRUCT_TYPE_END | STRUCT_TYPE_VOID | STRUCT_TYPE_STRUCTURE_VERSION
  | STRUCT_TYPE_BITS8 | STRUCT_TYPE_BITS16 | STRUCT_TYPE_BITS32 | STRUCT_TYPE_BITS64
  | STRUCT_TYPE_BITS128 | STRUCT_TYPE_BITS256 | STRUCT_TYPE_BITS512
  | STRUCT_TYPE_INT8 | STRUCT_TYPE_UINT8 | STRUCT_TYPE_INT16 | STRUCT_TYPE_UINT16
  | STRUCT_TYPE_INT32 | STRUCT_TYPE_UINT32 | STRUCT_TYPE_INT64 | STRUCT_TYPE_UINT64
  | STRUCT_TYPE_INT128 | STRUCT_TYPE_UINT128 | STRUCT_TYPE_INT256 | STRUCT_TYPE_UINT256
  | STRUCT_TYPE_INT512 | STRUCT_TYPE_UINT512
  | STRUCT_TYPE_FLOAT32 | STRUCT_TYPE_FLOAT64 | STRUCT_TYPE_FLOAT128
  | STRUCT_TYPE_VERSION | STRUCT_TYPE_TIME | STRUCT_TYPE_MSTIME | STRUCT_TYPE_USTIME | STRUCT_TYPE_NSTIME
  | STRUCT_TYPE_REFERENCE | STRUCT_TYPE_OID | STRUCT_TYPE_RENAMED => true
  | _ => false
  end.

(** ** Names of types *)

Definition g_name_to_struct_type : list (list Z * struct_type_t) :=
  [((str: "ARRAY16"), STRUCT_TYPE_ARRAY16);
   ((str: "ARRAY32"), STRUCT_TYPE_ARRAY32);
   ((str: "ARRAY8"), STRUCT_TYPE_ARRAY8);
   ((str: "BITS128"), STRUCT_TYPE_BITS128);
   ((str: "BITS16"), STRUCT_TYPE_BITS16);
   ((str: "BITS256"), STRUCT_TYPE_BITS256);
   ((str: "BITS32"), STRUCT_TYPE_BITS32);
   ((str: "BITS512"), STRUCT_TYPE_BITS512);
   ((str: "BITS64"), STRUCT_TYPE_BITS64);
   ((str: "BITS8"), STRUCT_TYPE_BITS8);
   ((str: "BUFFER16"), STRUCT_TYPE_BUFFER16);
   ((str: "BUFFER32"), STRUCT_TYPE_BUFFER32);
   ((str: "BUFFER8"), STRUCT_TYPE_BUFFER8);
   ((str: "CHAR"), STRUCT_TYPE_CHAR);
   ((str: "END"), STRUCT_TYPE_END);
   ((str: "FLOAT128"), STRUCT_TYPE_FLOAT128);
   ((str: "FLOAT32"), STRUCT_TYPE_FLOAT32);
   ((str: "FLOAT64"), STRUCT_TYPE_FLOAT64);
   ((str: "INT128"), STRUCT_TYPE_INT128);
   ((str: "INT16"), STRUCT_TYPE_INT16);
   ((str: "INT256"), STRUCT_TYPE_INT256);
   ((str: "INT32"), STRUCT_TYPE_INT32);
   ((str: "INT512"), STRUCT_TYPE_INT512);
   ((str: "INT64"), STRUCT_TYPE_INT64);
   ((str: "INT8"), STRUCT_TYPE_INT8);
   ((str: "MAGIC"), STRUCT_TYPE_MAGIC);
   ((str: "MSTIME"), STRUCT_TYPE_MSTIME);
   ((str: "NSTIME"), STRUCT_TYPE_NSTIME);
   ((str: "OID"), STRUCT_TYPE_OID);
   ((str: "P16STRING"), STRUCT_TYPE_P16STRING);
   ((str: "P32STRING"), STRUCT_TYPE_P32STRING);
   ((str: "P8STRING"), STRUCT_TYPE_P8STRING);
   ((str: "REFERENCE"), STRUCT_TYPE_REFERENCE);
   ((str: "RENAMED"), STRUCT_TYPE_RENAMED);
   ((str: "STRUCTURE"), STRUCT_TYPE_STRUCTURE);
   ((str: "STRUCTURE_VERSION"), STRUCT_TYPE_STRUCTURE_VERSION);
   ((str: "TIME"), STRUCT_TYPE_TIME);
   ((str: "UINT128"), STRUCT_TYPE_UINT128);
   ((str: "UINT16"), STRUCT_TYPE_UINT16);
   ((str: "UINT256"), STRUCT_TYPE_UINT256);
   ((str: "UINT32"), STRUCT_TYPE_UINT32);
   ((str: "UINT512"), STRUCT_TYPE_UINT512);
   ((str: "UINT64"), STRUCT_TYPE_UINT64);
   ((str: "UINT8"), STRUCT_TYPE_UINT8);
   ((str: "USTIME"), STRUCT_TYPE_USTIME);
   ((str: "VERSION"), STRUCT_TYPE_VERSION);
   ((str: "VOID"), STRUCT_TYPE_VOID)].

(** [strcmp()] of the consecutive names of a table, in debug mode. *)
Fixpoint alphabetical {A} (table : list (list Z * A)) : bool :=
  match table with
  | [] => true
  | (a, _) :: table =>
      match table with
      | [] => true
      | (b, _) :: _ => string_ltb a b && alphabetical table
      end
  end.

(** The loop of a binary search by name, between [i] and [j]; [None]: the name
    is not in the table. *)
Fixpoint binary_search {A} (table : list (list Z * A)) (name : list Z) (fuel : nat) (i j : Z) : result (option A) :=
  match fuel with
  | O => Throw fuel_exhausted
  | S fuel =>
      if decide (i < j)
      then
        let p := (j - i) ÷ 2 + i in
        match table !! Z.to_nat p with
        | Some (n, a) =>
            if string_ltb n name then binary_search table name fuel (p + 1) j
            else if string_ltb name n then binary_search table name fuel i p
            else Ok (Some a)
        | None => Throw undefined_behavior
        end
      else Ok None
  end.

Definition search_table {A} (table : list (list Z * A)) (name : list Z) : result (option A) :=
  binary_search table name (S (length table)) 0 (Z.of_nat (length table)).

Fixpoint type_name (table : list (list Z * struct_type_t)) (t : struct_type_t) : option (list Z) :=
  match table with
  | [] => None
  | (n, t') :: table => if decide (t' = t) then Some n else type_name table t
  end.

(** The number of a type, in the order of the enumeration. *)
Definition struct_types : list struct_type_t :=
  [STRUCT_TYPE_END; STRUCT_TYPE_VOID; STRUCT_TYPE_BITS8; STRUCT_TYPE_BITS16; STRUCT_TYPE_BITS32; STRUCT_TYPE_BITS64;
   STRUCT_TYPE_BITS128; STRUCT_TYPE_BITS256; STRUCT_TYPE_BITS512; STRUCT_TYPE_INT8; STRUCT_TYPE_UINT8; STRUCT_TYPE_INT16;
   STRUCT_TYPE_UINT16; STRUCT_TYPE_INT32; STRUCT_TYPE_UINT32; STRUCT_TYPE_INT64; STRUCT_TYPE_UINT64; STRUCT_TYPE_INT128;
   STRUCT_TYPE_UINT128; STRUCT_TYPE_INT256; STRUCT_TYPE_UINT256; STRUCT_TYPE_INT512; STRUCT_TYPE_UINT512;
   STRUCT_TYPE_FLOAT32; STRUCT_TYPE_FLOAT64; STRUCT_TYPE_FLOAT128; STRUCT_TYPE_MAGIC; STRUCT_TYPE_STRUCTURE_VERSION;
   STRUCT_TYPE_VERSION; STRUCT_TYPE_TIME; STRUCT_TYPE_MSTIME; STRUCT_TYPE_USTIME; STRUCT_TYPE_NSTIME; STRUCT_TYPE_CHAR;
   STRUCT_TYPE_P8STRING; STRUCT_TYPE_P16STRING; STRUCT_TYPE_P32STRING; STRUCT_TYPE_STRUCTURE; STRUCT_TYPE_UNION;
   STRUCT_TYPE_ARRAY8; STRUCT_TYPE_ARRAY16; STRUCT_TYPE_ARRAY32; STRUCT_TYPE_UNION_ARRAY8; STRUCT_TYPE_UNION_ARRAY16;
   STRUCT_TYPE_UNION_ARRAY32; STRUCT_TYPE_BUFFER8; STRUCT_TYPE_BUFFER16; STRUCT_TYPE_BUFFER32; STRUCT_TYPE_REFERENCE;
   STRUCT_TYPE_OID; STRUCT_TYPE_RENAMED].

Definition type_number (t : struct_type_t) : Z :=
  match list_find (eq t) struct_types with Some (i, _) => Z.of_nat i | None => -1 end.

Definition struct_type_text (t : struct_type_t) : list Z :=
  match type_name g_name_to_struct_type t with
  | Some n => n
  | None => (str: "*unknown struct type (") ++ decimal_text (type_number t) ++ (str: ")*")
  end.

(** [None] stands for [INVALID_STRUCT_TYPE]; [to_upper] is the function of the
    library snapdev. *)
Definition name_to_struct_type (debug : bool) (to_upper : list Z -> list Z) (type_name : list Z) : result (option struct_type_t) :=
  if debug && negb (alphabetical g_name_to_struct_type) then Throw logic_error
  else search_table g_name_to_struct_type (to_upper type_name).

(** ** Flags of bit fields *)

Record flag_definition := FlagDefinition {
  fd_field_name : list Z;
  fd_flag_name : list Z;
  fd_pos : Z;
  fd_size : Z;
  fd_mask : Z;
}.

(** The constructor.  The mask is computed first; it is only used when the size
    and the position are accepted. *)
Definition make_flag_definition (field_name flag_name : list Z) (pos size : Z) : result flag_definition :=
  if decide (field_name = [] \/ flag_name = []) then Throw invalid_parameter
  else if decide (size = 0) then Throw invalid_parameter
  else if decide (size >= 64) then Throw invalid_parameter
  else if decide (pos >= 64 \/ pos + size > 64) then Throw invalid_parameter
  else Ok (FlagDefinition field_name flag_name pos size (wrap 64 (Z.shiftl (Z.shiftl 1 size - 1) pos))).

Definition full_name (flag : flag_definition) : list Z := fd_field_name flag ++ (str: ".") ++ fd_flag_name flag.

(** ** Descriptions *)

(** An entry of a description.  [f_sub_description] points to the description of
    the sub-structures, to the table of the descriptions of a union, or is null;
    the names are C strings. *)
Inductive struct_description_t : Type :=
  StructDescription {
    d_field_name : list Z;
    d_type : struct_type_t;
    d_flags : Z;
    d_default_value : option (list Z);
    d_min_version : version_t;
    d_max_version : version_t;
    d_sub_description : option (list struct_description_t + list (list struct_description_t));
  }.

Definition g_system_field_name_magic : list Z := (str: "_magic").
Definition g_system_field_name_structure_version : list Z := (str: "_structure_version").
Definition g_system_field_name_union_selector : list Z := (str: "_union_selector").

(** The properties of the table [verifications]. *)
Definition must_have_a_name (t : struct_type_t) : bool := bool_decide (t <> STRUCT_TYPE_END).
Definition must_have_sub_description (t : struct_type_t) : bool :=
  match t with
  | STRUCT_TYPE_STRUCTURE | STRUCT_TYPE_ARRAY8 | STRUCT_TYPE_ARRAY16 | STRUCT_TYPE_ARRAY32 | STRUCT_TYPE_RENAMED => true
  | _ => false
  end.
Definition must_have_sub_union (t : struct_type_t) : bool :=
  match t with
  | STRUCT_TYPE_UNION | STRUCT_TYPE_UNION_ARRAY8 | STRUCT_TYPE_UNION_ARRAY16 | STRUCT_TYPE_UNION_ARRAY32 => true
  | _ => false
  end.
Definition must_have_version (t : struct_type_t) : bool := bool_decide (t = STRUCT_TYPE_STRUCTURE_VERSION).
Definition is_a_bit_field (t : struct_type_t) : bool :=
  match t with
  | STRUCT_TYPE_BITS8 | STRUCT_TYPE_BITS16 | STRUCT_TYPE_BITS32 | STRUCT_TYPE_BITS64
  | STRUCT_TYPE_BITS128 | STRUCT_TYPE_BITS256 | STRUCT_TYPE_BITS512 => true
  | _ => false
  end.
Definition is_a_char_field (t : struct_type_t) : bool := bool_decide (t = STRUCT_TYPE_CHAR).

(** The check of the name of a field, by its type. *)
Definition validate_field_name (t : struct_type_t) (name : list Z) : result bool :=
  if is_a_char_field t then validate_char_field_name (Some name) 255
  else if is_a_bit_field t then validate_bit_field_name (Some name) 255
  else validate_name (Some name) 255.

(** [FieldDefaultValue]: an empty string is no default. *)
Definition field_default_value (default_value : option (list Z)) : option (list Z) :=
  match default_value with Some [] => None | _ => default_value end.

(** [define_description()], given the values of its named arguments ([name] is
    null for END); the result is [None] for the entry that ends a description. *)
Definition define_description (name : option (list Z)) (t : struct_type_t) (flags : Z) (default_value : option (list Z))
    (min_version max_version : version_t) (sub_description : option (list struct_description_t))
    (sub_union : option (list (list struct_description_t))) : result (option struct_description_t) :=
  let! _ :=
    if negb (must_have_a_name t)
    then if decide (name <> None) then Throw invalid_parameter else Ok tt
    else
      match name with
      | None => Throw invalid_parameter
      | Some name =>
          let! valid := validate_field_name t name in
          if negb valid then Throw invalid_parameter
          else if decide (t = STRUCT_TYPE_MAGIC /\ name <> g_system_field_name_magic) then Throw invalid_parameter
          else if decide (t = STRUCT_TYPE_STRUCTURE_VERSION /\ name <> g_system_field_name_structure_version)
          then Throw invalid_parameter
          else Ok tt
      end in
  if must_have_sub_description t && bool_decide (sub_description = None) then Throw invalid_parameter
  else if negb (must_have_sub_description t) && negb (bool_decide (sub_description = None)) then Throw invalid_parameter
  else if must_have_sub_union t && bool_decide (sub_union = None) then Throw invalid_parameter
  else if negb (must_have_sub_union t) && negb (bool_decide (sub_union = None)) then Throw invalid_parameter
  else if must_have_version t
          && (bool_decide (min_version = version_null) || negb (bool_decide (max_version = StructTypes.max_version)))
  then Throw invalid_parameter
  else if version_gtb min_version max_version then Throw invalid_parameter
  else
    Ok (match name with
        | None => None
        | Some name =>
            Some (StructDescription name t flags (field_default_value default_value) min_version max_version
                    (match sub_description with
                     | Some d => Some (inl d)
                     | None => inr <$> sub_union
                     end))
        end).
