(* ===== verification/Convert.v ===== *)
(** * Conversions of values (prinbee/data/convert.cpp)

    The value of a field is written as a string, for a type of struct_type_t, and
    stored as bytes: [string_to_typed_buffer] and [typed_buffer_to_string], with
    the functions they dispatch to.  Strings are read as C strings where the code
    does: up to a NUL character.

    The numbers are those of [Uint512] and [Int512].  The functions of snapdev and
    those of the C library on dates and on floating point numbers are parameters
    ([ConvertLibraries]); their floating point numbers are bytes. *)

From S2P Require Import Prelude Bytes Limbs BigLoops Uint512 Int512 BigText SortedMap StructTypes.

Class ConvertLibraries := {
  (* snapdev *)
  snapdev_to_upper : list Z -> list Z;
  snapdev_trim_string : list Z -> list Z;
  snapdev_hex_to_bin : list Z -> result (list Z);
  snapdev_bin_to_hex : list Z -> list Z;
  snapdev_pow10 : Z -> Z;
  timespec_of_text : list Z -> result (Z * Z);
  timespec_timestamp : Z * Z -> list Z;
  (* strtof(), strtod(), strtold(), by the size of the type: whether errno is
     ERANGE, the bytes of the number and the characters left *)
  strto_float : Z -> list Z -> bool * list Z * list Z;
  (* a stream's text of a floating point number *)
  float_text : list Z -> list Z;
  (* timegm() of what strptime() reads, by its format *)
  timegm_strptime : list Z -> list Z -> Z;
  (* the text strftime() makes of gmtime_r(), in the format %FT%T *)
  gmtime_text : Z -> list Z;
}.

(** [isspace()] *)
Definition is_space (c : Z) : bool := bool_decide (HT <= c <= CR \/ c = (chr: " ")).

(** The C string of a string. *)
Definition c_str (s : list Z) : list Z := fst (span (fun c => negb (Z.eqb c NUL)) s).

Definition skip_spaces (s : list Z) : list Z := snd (span is_space s).

(** ** Units *)

Inductive unit_t := UNIT_NONE | UNIT_SIZE.

(** [g_size_name_to_multiplicator]: the low and the high 64 bits. *)
Definition g_size_name_to_multiplicator : list (list Z * (Z * Z)) :=
  [((str: "EB"), (1000000000000000000, 0));
   ((str: "EIB"), (0x1000000000000000, 0));
   ((str: "EXA"), (1000000000000000000, 0));
   ((str: "EXBI"), (0x1000000000000000, 0));
   ((str: "GB"), (1000000000, 0));
   ((str: "GIB"), (0x0000000040000000, 0));
   ((str: "GIBI"), (0x0000000040000000, 0));
   ((str: "GIGA"), (1000000000, 0));
   ((str: "KB"), (1000, 0));
   ((str: "KIB"), (0x0000000000000400, 0));
   ((str: "KIBI"), (0x0000000000000400, 0));
   ((str: "KILO"), (1000, 0));
   ((str: "MB"), (1000000, 0));
   ((str: "MEBI"), (0x0000000000100000, 0));
   ((str: "MEGA"), (1000000, 0));
   ((str: "MIB"), (0x0000000000100000, 0));
   ((str: "PB"), (1000000000000000, 0));
   ((str: "PEBI"), (0x0004000000000000, 0));
   ((str: "PETA"), (1000000000000000, 0));
   ((str: "PIB"), (0x0004000000000000, 0));
   ((str: "QUETTA"), (0x4674EDEA40000000, 0x0000000C9F2C9CD0));
   ((str: "QUETTAI"), (0, 0x0000001000000000));
   ((str: "RONNAB"), (0x9FD0803CE8000000, 0x00000000033B2E3C));
   ((str: "RONNAIB"), (0, 0x0000000004000000));
   ((str: "TB"), (1000000000000, 0));
   ((str: "TEBI"), (0x0000010000000000, 0));
   ((str: "TERA"), (1000000000000, 0));
   ((str: "TIB"), (0x0000010000000000, 0));
   ((str: "YB"), (0x1BCECCEDA1000000, 0x000000000000D3C2));
   ((str: "YIB"), (0, 0x0000000000010000));
   ((str: "YOBI"), (0, 0x0000000000010000));
   ((str: "YOTTA"), (0x1BCECCEDA1000000, 0x000000000000D3C2));
   ((str: "ZB"), (0x35C9ADC5DEA00000, 0x0000000000000036));
   ((str: "ZEBI"), (0, 0x0000000000000040));
   ((str: "ZETTA"), (0x35C9ADC5DEA00000, 0x0000000000000036));
   ((str: "ZIB"), (0, 0x0000000000000040))].

Section Convert.
Context {libraries : ConvertLibraries} (debug : bool).

(** [size.compare(size.length() - n, n, word) == 0]: the end of [s]. *)
Definition ends_with (s word : list Z) : bool :=
  bool_decide (length word <= length s)%nat && bool_decide (drop (length s - length word) s = word).
Definition remove_end (s word : list Z) : list Z := take (length s - length word) s.

Definition size_to_multiplicator (s : list Z) : result uint512_t :=
  if debug && negb (alphabetical g_size_name_to_multiplicator) then Throw logic_error
  else
    let size := snapdev_to_upper (snapdev_trim_string s) in
    let size :=
      if ends_with size (str: "BYTES") then snapdev_trim_string (remove_end size (str: "BYTES"))
      else if ends_with size (str: "BYTE") then snapdev_trim_string (remove_end size (str: "BYTE"))
      else size in
    let! found := if decide (size = []) then Ok None else search_table g_size_name_to_multiplicator size in
    match found with
    | Some (lo, hi) => uint512_of_list [lo; hi; 0; 0; 0; 0; 0; 0]
    | None => Ok (uint512_of_u64 1)
    end.

(** ** Sizes *)

Fixpoint byte_size_loop (value : list Z) (expected : Z) (size : nat) : nat :=
  match size with
  | O => O
  | S n =>
      let last := value !!! n in
      if decide (last <> expected)
      then if decide (expected = 0xFF /\ 0 <= signed 8 last /\ S n <> length value) then S (S n) else S n
      else byte_size_loop value expected n
  end.

Definition value_byte_size (value : list Z) (is_signed : bool) : nat :=
  match length value with
  | O => O
  | S n => byte_size_loop value (if (is_signed : bool) && bool_decide (signed 8 (value !!! n) < 0) then 0xFF else 0x00) (S n)
  end.

(** ** Integers *)

Inductive number_type_t :=
  | NUMBER_TYPE_BINARY
  | NUMBER_TYPE_OCTAL
  | NUMBER_TYPE_DECIMAL
  | NUMBER_TYPE_HEXADECIMAL.

(** The sign, its test, and what follows. *)
Definition read_sign (accept_negative_values : bool) (n : list Z) : result (bool * list Z) :=
  match n with
  | c :: rest =>
      if decide (c = (chr: "+")) then Ok (false, rest)
      else if decide (c = (chr: "-"))
      then if negb accept_negative_values then Throw invalid_number else Ok (true, rest)
      else Ok (false, n)
  | [] => Ok (false, [])
  end.

(** The base: its type, whether a closing quote is expected, and the digits. *)
Definition read_base (n : list Z) : number_type_t * bool * list Z :=
  match n with
  | c :: rest =>
      if decide (c = (chr: "0")) then
        match rest with
        | c' :: digits =>
            if decide (c' = (chr: "x") \/ c' = (chr: "X")) then (NUMBER_TYPE_HEXADECIMAL, false, digits)
            else if decide (c' = (chr: "b") \/ c' = (chr: "B")) then (NUMBER_TYPE_BINARY, false, digits)
            else (NUMBER_TYPE_OCTAL, false, rest)
        | [] => (NUMBER_TYPE_OCTAL, false, rest)
        end
      else if decide (c = (chr: "x") \/ c = (chr: "X")) then
        match rest with
        | c' :: digits => if decide (c' = QUOTE) then (NUMBER_TYPE_HEXADECIMAL, true, digits) else (NUMBER_TYPE_DECIMAL, false, n)
        | [] => (NUMBER_TYPE_DECIMAL, false, n)
        end
      else (NUMBER_TYPE_DECIMAL, false, n)
  | [] => (NUMBER_TYPE_DECIMAL, false, n)
  end.

(** The digit of a character, in a base. *)
Definition digit_value (t : number_type_t) (c : Z) : option Z :=
  match t with
  | NUMBER_TYPE_BINARY => if decide ((chr: "0") <= c <= (chr: "1")) then Some (c - (chr: "0")) else None
  | NUMBER_TYPE_OCTAL => if decide ((chr: "0") <= c <= (chr: "7")) then Some (c - (chr: "0")) else None
  | NUMBER_TYPE_DECIMAL => if decide ((chr: "0") <= c <= (chr: "9")) then Some (c - (chr: "0")) else None
  | NUMBER_TYPE_HEXADECIMAL =>
      if decide ((chr: "0") <= c <= (chr: "9")) then Some (c - (chr: "0"))
      else if decide ((chr: "a") <= c <= (chr: "f") \/ (chr: "A") <= c <= (chr: "F"))
      then Some (Z.land c 0x5F - ((chr: "A") - 10))
      else None
  end.

(** [result] times the base, with additions. *)
Definition times_base (t : number_type_t) (result : uint512_t) : uint512_t :=
  let x2 := uint512_add_assign result result in
  match t with
  | NUMBER_TYPE_BINARY => x2
  | NUMBER_TYPE_OCTAL => let x4 := uint512_add_assign x2 x2 in uint512_add_assign x4 x4
  | NUMBER_TYPE_DECIMAL =>
      let eight := uint512_add_assign x2 x2 in
      let eight := uint512_add_assign eight eight in
      uint512_add_assign x2 eight
  | NUMBER_TYPE_HEXADECIMAL =>
      let x4 := uint512_add_assign x2 x2 in
      let x8 := uint512_add_assign x4 x4 in
      uint512_add_assign x8 x8
  end.

Fixpoint read_digits (t : number_type_t) (result : uint512_t) (n : list Z) : uint512_t * list Z :=
  match n with
  | c :: rest =>
      match digit_value t c with
      | Some d => read_digits t (uint512_add_assign (times_base t result) (uint512_of_u64 d)) rest
      | None => (result, n)
      end
  | [] => (result, [])
  end.

Definition string_to_int (number : list Z) (accept_negative_values : bool) (unit : unit_t) : result uint512_t :=
  let! '(negative, n) := read_sign accept_negative_values (skip_spaces (c_str number)) in
  let '(t, expect_quote, n) := read_base n in
  let '(result, n) := read_digits t uint512_zero n in
  let! n :=
    match expect_quote, n with
    | true, c :: rest => if decide (c = QUOTE) then Ok rest else Throw invalid_number
    | true, [] => Throw invalid_number
    | false, _ => Ok n
    end in
  let n := skip_spaces n in
  let! result :=
    if decide (n = []) then Ok result
    else
      match unit with
      | UNIT_NONE => Throw invalid_number
      | UNIT_SIZE => let! multiplicator := size_to_multiplicator n in uint512_mul_assign result multiplicator
      end in
  Ok (if (negative : bool) then uint512_neg result else result).

(** The bytes of the words of a number. *)
Definition bytes_of_words (w : list Z) : list Z := concat (le 8 <$> w).

Definition string_to_uinteger (value : list Z) (max_size : Z) : result (list Z) :=
  let! n := string_to_int value false UNIT_NONE in
  if decide (max_size <> 512 /\ uint512_bit_size n > max_size) then Throw out_of_range
  else Ok (take (Z.to_nat (max_size / 8)) (bytes_of_words (uf_value n))).

(** [memcpy()] in the words of a number; more bytes than it has do not fit. *)
Definition words_of_bytes (value : list Z) : result (list Z) :=
  if decide (64 < length value)%nat then Throw undefined_behavior
  else
    let bytes := value ++ replicate (64 - length value) 0 in
    Ok ((fun i => of_le (take 8 (drop (8 * i) bytes))) <$> seq 0 8).

Definition uinteger_to_string (value : list Z) (bytes_for_size base : Z) : result (list Z) :=
  let size := value_byte_size value false in
  if decide (Z.of_nat size > bytes_for_size) then Throw out_of_range
  else
    let! w := words_of_bytes value in
    uint512_to_string (Uint512 w) base true true.

(** The test of the lowest negative number, when the number has exactly as many
    bits as the type: [z] after the exclusive or. *)
Definition is_lowest (n : int512_t) (max_size : Z) : result bool :=
  let f_value idx := if_value n !!! idx in
  if decide (max_size = 256) then
    Ok (bool_decide (f_value 0%nat = 0 /\ f_value 1%nat = 0 /\ f_value 2%nat = 0 /\ Z.lxor (f_value 3%nat) (2 ^ 63) = 0))
  else if decide (max_size = 128) then Ok (bool_decide (f_value 0%nat = 0 /\ Z.lxor (f_value 1%nat) (2 ^ 63) = 0))
  else if decide (max_size = 64) then Ok (bool_decide (Z.lxor (f_value 0%nat) (2 ^ 63) = 0))
  else if decide (max_size = 32) then Ok (bool_decide (Z.lxor (f_value 0%nat) (2 ^ 64 - 2 ^ 31) = 0))
  else if decide (max_size = 16) then Ok (bool_decide (Z.lxor (f_value 0%nat) (2 ^ 64 - 2 ^ 15) = 0))
  else if decide (max_size = 8) then Ok (bool_decide (Z.lxor (f_value 0%nat) (2 ^ 64 - 2 ^ 7) = 0))
  else Throw logic_error.

Definition string_to_integer (value : list Z) (max_size : Z) : result (list Z) :=
  let! u := string_to_int value true UNIT_NONE in
  let n := int512_of_uint512 u in
  let bit_size := int512_bit_size n in
  let! is_zero :=
    if decide (max_size <> 512 /\ bit_size > max_size - 1)
    then if decide (bit_size = max_size) then is_lowest n max_size else Ok false
    else Ok true in
  if negb is_zero then Throw out_of_range
  else Ok (take (Z.to_nat (max_size / 8)) (bytes_of_words (int512_words n))).

Definition integer_to_string (value : list Z) (bytes_for_size base : Z) : result (list Z) :=
  match last value with
  | None => Throw undefined_behavior
  | Some high =>
      if decide (signed 8 high < 0)
      then
        let size := value_byte_size value true in
        if decide (Z.of_nat size > bytes_for_size) then Throw out_of_range
        else if decide (64 < size)%nat then Throw undefined_behavior
        else
          let! w := words_of_bytes (take size value ++ replicate (64 - size) 255) in
          let v := int512_neg (int512_of_words w) in
          let! text := uinteger_to_string (bytes_of_words (int512_words v)) bytes_for_size base in
          Ok ((str: "-") ++ text)
      else uinteger_to_string value bytes_for_size base
  end.

(** ** Floating point numbers *)

Definition string_to_float (value : list Z) (size : Z) : result (list Z) :=
  let '(erange, r, e) := strto_float size (c_str value) in
  if erange : bool then Throw out_of_range
  else if decide (skip_spaces e <> []) then Throw invalid_number
  else Ok r.

Definition float_to_string (value : list Z) (size : Z) : result (list Z) :=
  if decide (Z.of_nat (length value) <> size) then Throw out_of_range
  else Ok (float_text value).

(** ** Magic words *)

Definition string_to_dbtype (value : list Z) : result (list Z) :=
  if decide (length value <> 4)%nat then Throw invalid_type
  else Ok value.

(** The types of [dbtype_t], by their four characters: to_string() returns them,
    and the text INVL for anything else. *)
Definition dbtypes : list (list Z) :=
  [(str: "????"); (str: "CTXT"); (str: "PTBL"); (str: "INDX"); (str: "IDXD"); (str: "BLMF"); (str: "PIDX"); (str: "CXTP");
   (str: "SCHM"); (str: "BLOB"); (str: "DATA"); (str: "EIDX"); (str: "FREE"); (str: "FSPC"); (str: "IDXP"); (str: "INDR");
   (str: "SIDX"); (str: "SCHL"); (str: "TIDX"); (str: "TIND")].

Definition dbtype_to_string (value : list Z) : result (list Z) :=
  if decide (length value <> 4)%nat then Throw out_of_range
  else Ok (if decide (value ∈ dbtypes) then value else (str: "INVL")).

(** ** Versions *)

(** The character introducing a version. *)
Definition skip_v (s : list Z) : list Z :=
  match s with
  | c :: rest => if decide (c = (chr: "v") \/ c = (chr: "V")) then rest else s
  | [] => []
  end.

Definition string_to_version (value : list Z) : result (list Z) :=
  match span (fun c => negb (Z.eqb c (chr: "."))) value with
  | (_, []) => Throw invalid_parameter
  | (version_major, _ :: version_minor) =>
      let! a := string_to_int (skip_v (skip_spaces version_major)) false UNIT_NONE in
      let! b := string_to_int version_minor false UNIT_NONE in
      if decide (uint512_bit_size a > 16 \/ uint512_bit_size b > 16) then Throw out_of_range
      else
        let! v := version_of_ints (signed 32 (wrap 32 (uf_value a !!! 0%nat))) (signed 32 (wrap 32 (uf_value b !!! 0%nat))) in
        Ok (le 4 (to_binary v))
  end.

Definition version_to_string (value : list Z) : result (list Z) :=
  if decide (length value <> 4)%nat then Throw out_of_range
  else Ok (version_text (version_of_binary (of_le value))).

(** ** Strings *)

(** [memcpy()] of all the characters, whatever the size of the destination. *)
Definition char_to_buffer (value : list Z) (size : nat) : result (list Z) :=
  if decide (size = 0)%nat then Throw out_of_range
  else if decide (size < length value)%nat then Throw undefined_behavior
  else Ok (value ++ replicate (size - length value) 0).

Definition string_to_buffer (value : list Z) (bytes_for_size : nat) : result (list Z) :=
  if debug && negb (bool_decide (bytes_for_size = 1%nat \/ bytes_for_size = 2%nat \/ bytes_for_size = 4%nat)) then Throw logic_error
  else
    let size := wrap 32 (Z.of_nat (length value)) in
    let max_size := 2 ^ (8 * Z.of_nat bytes_for_size) in
    if decide (size >= max_size) then Throw out_of_range
    else Ok (le bytes_for_size size ++ value).

Definition buffer_to_char (value : list Z) (size : Z) : result (list Z) :=
  if decide (Z.of_nat (length value) < size) then Throw out_of_range
  else Ok (c_str (take (Z.to_nat size) value)).

Definition buffer_to_string (value : list Z) (bytes_for_size : nat) : result (list Z) :=
  if decide (length value < bytes_for_size)%nat then Throw out_of_range
  else
    let size := of_le (take bytes_for_size value) in
    if decide (Z.of_nat bytes_for_size + size > Z.of_nat (length value)) then Throw out_of_range
    else Ok (take (Z.to_nat size) (drop bytes_for_size value)).

(** ** Buffers *)

Definition string_to_pbuffer (value : list Z) (bytes_for_size : nat) : result (list Z) :=
  let! bin := snapdev_hex_to_bin value in
  let size := Z.of_nat (length bin) in
  if decide (size >= 2 ^ (8 * Z.of_nat bytes_for_size)) then Throw out_of_range
  else Ok (le bytes_for_size size ++ bin).

Definition pbuffer_to_string (value : list Z) (bytes_for_size : nat) : result (list Z) :=
  let! bin := buffer_to_string value bytes_for_size in
  Ok (snapdev_bin_to_hex bin).

(** ** Times *)

(** [std::atoi()] of a short text *)
Definition atoi (s : list Z) : Z :=
  let number s := horner 10 ((fun c => c - (chr: "0")) <$> fst (span (fun c => bool_decide ((chr: "0") <= c <= (chr: "9"))) s)) in
  match skip_spaces (c_str s) with
  | c :: rest => if decide (c = (chr: "-")) then - number rest else if decide (c = (chr: "+")) then number rest else number (c :: rest)
  | [] => 0
  end.

(** The loop that removes zeros at the end of the fraction, from its reverse. *)
Fixpoint trim_zeros (fraction_exp : nat) (frac : list Z) : list Z :=
  match frac with
  | c :: rest =>
      if decide ((fraction_exp < length frac)%nat /\ c = (chr: "0")) then trim_zeros fraction_exp rest else frac
  | [] => []
  end.

(** [find_first_of("+-")] *)
Definition before_zone (s : list Z) : list Z * list Z :=
  span (fun c => negb (bool_decide (c = (chr: "+") \/ c = (chr: "-")))) s.

Definition string_to_unix_time (value : list Z) (fraction_exp : nat) : result (list Z) :=
  let format := (str: "%Y-%m-%dT%T") in
  let! '(v, f) :=
    match span (fun c => negb (Z.eqb c (chr: "."))) value with
    | (date_time, _ :: after) =>
        let '(frac, zone) := before_zone after in
        let frac := rev (trim_zeros fraction_exp (rev frac)) in
        let l := signed 32 (wrap 32 (Z.of_nat fraction_exp - Z.of_nat (length frac))) in
        if decide (l < 0) then Throw out_of_range
        else
          Ok (match zone with
              | [] => timegm_strptime format (c_str date_time)
              | _ => timegm_strptime (format ++ (str: "%z")) (c_str (date_time ++ zone))
              end, atoi (frac ++ replicate (Z.to_nat l) (chr: "0")))
    | (_, []) =>
        let format := match before_zone value with (_, []) => format | _ => format ++ (str: "%z") end in
        Ok (timegm_strptime format (c_str value), 0)
    end in
  Ok (le 8 (wrap 64 (v * snapdev_pow10 (Z.of_nat fraction_exp) + f))).

Definition string_to_ns_time (value : list Z) : result (list Z) :=
  let! '(sec, nsec) := timespec_of_text value in
  Ok (le 8 (wrap 64 sec) ++ le 8 (wrap 64 nsec)).

(** The time is unsigned in the divisions. *)
Definition unix_time_to_string (value : list Z) (fraction : Z) : result (list Z) :=
  if decide (length value <> 8)%nat then Throw out_of_range
  else
    let time := of_le value in
    let result := gmtime_text (signed 64 (time / fraction)) in
    let result :=
      if decide (fraction <> 1)
      then
        let frac := decimal_text (time mod fraction) in
        let sz := if decide (fraction = 1000) then 3%nat else 6%nat in
        result ++ (str: ".") ++ replicate (sz - length frac) (chr: "0") ++ frac
      else result in
    Ok (result ++ (str: "+0000")).

Definition ns_time_to_string (value : list Z) : result (list Z) :=
  if decide (length value <> 16)%nat then Throw out_of_range
  else Ok (timespec_timestamp (signed 64 (of_le (take 8 value)), signed 64 (of_le (drop 8 value)))).

(** ** By type *)

Definition string_to_typed_buffer (t : struct_type_t) (value : list Z) (size : nat) : result (list Z) :=
  match t with
  | STRUCT_TYPE_BITS8 | STRUCT_TYPE_UINT8 => string_to_uinteger value 8
  | STRUCT_TYPE_BITS16 | STRUCT_TYPE_UINT16 => string_to_uinteger value 16
  | STRUCT_TYPE_BITS32 | STRUCT_TYPE_UINT32 => string_to_uinteger value 32
  | STRUCT_TYPE_BITS64 | STRUCT_TYPE_UINT64 | STRUCT_TYPE_OID | STRUCT_TYPE_REFERENCE => string_to_uinteger value 64
  | STRUCT_TYPE_BITS128 | STRUCT_TYPE_UINT128 => string_to_uinteger value 128
  | STRUCT_TYPE_BITS256 | STRUCT_TYPE_UINT256 => string_to_uinteger value 256
  | STRUCT_TYPE_BITS512 | STRUCT_TYPE_UINT512 => string_to_uinteger value 512
  | STRUCT_TYPE_INT8 => string_to_integer value 8
  | STRUCT_TYPE_INT16 => string_to_integer value 16
  | STRUCT_TYPE_INT32 => string_to_integer value 32
  | STRUCT_TYPE_INT64 => string_to_integer value 64
  | STRUCT_TYPE_INT128 => string_to_integer value 128
  | STRUCT_TYPE_INT256 => string_to_integer value 256
  | STRUCT_TYPE_INT512 => string_to_integer value 512
  | STRUCT_TYPE_FLOAT32 => string_to_float value 4
  | STRUCT_TYPE_FLOAT64 => string_to_float value 8
  | STRUCT_TYPE_FLOAT128 => string_to_float value 16
  | STRUCT_TYPE_MAGIC => string_to_dbtype value
  | STRUCT_TYPE_STRUCTURE_VERSION | STRUCT_TYPE_VERSION => string_to_version value
  | STRUCT_TYPE_TIME => string_to_unix_time value 0
  | STRUCT_TYPE_MSTIME => string_to_unix_time value 3
  | STRUCT_TYPE_USTIME => string_to_unix_time value 6
  | STRUCT_TYPE_NSTIME => string_to_ns_time value
  | STRUCT_TYPE_CHAR => char_to_buffer value size
  | STRUCT_TYPE_P8STRING => string_to_buffer value 1
  | STRUCT_TYPE_P16STRING => string_to_buffer value 2
  | STRUCT_TYPE_P32STRING => string_to_buffer value 4
  | STRUCT_TYPE_BUFFER8 => string_to_pbuffer value 1
  | STRUCT_TYPE_BUFFER16 => string_to_pbuffer value 2
  | STRUCT_TYPE_BUFFER32 => string_to_pbuffer value 4
  | _ => Throw logic_error
  end.

Definition typed_buffer_to_string (t : struct_type_t) (value : list Z) (base_or_size : Z) : result (list Z) :=
  match t with
  | STRUCT_TYPE_BITS8 | STRUCT_TYPE_UINT8 => uinteger_to_string value 1 base_or_size
  | STRUCT_TYPE_BITS16 | STRUCT_TYPE_UINT16 => uinteger_to_string value 2 base_or_size
  | STRUCT_TYPE_BITS32 | STRUCT_TYPE_UINT32 => uinteger_to_string value 4 base_or_size
  | STRUCT_TYPE_BITS64 | STRUCT_TYPE_UINT64 | STRUCT_TYPE_REFERENCE | STRUCT_TYPE_OID =>
      uinteger_to_string value 8 base_or_size
  | STRUCT_TYPE_BITS128 | STRUCT_TYPE_UINT128 => uinteger_to_string value 16 base_or_size
  | STRUCT_TYPE_BITS256 | STRUCT_TYPE_UINT256 => uinteger_to_string value 32 base_or_size
  | STRUCT_TYPE_BITS512 | STRUCT_TYPE_UINT512 => uinteger_to_string value 64 base_or_size
  | STRUCT_TYPE_INT8 => integer_to_string value 1 base_or_size
  | STRUCT_TYPE_INT16 => integer_to_string value 2 base_or_size
  | STRUCT_TYPE_INT32 => integer_to_string value 4 base_or_size
  | STRUCT_TYPE_INT64 => integer_to_string value 8 base_or_size
  | STRUCT_TYPE_INT128 => integer_to_string value 16 base_or_size
  | STRUCT_TYPE_INT256 => integer_to_string value 32 base_or_size
  | STRUCT_TYPE_INT512 => integer_to_string value 64 base_or_size
  | STRUCT_TYPE_FLOAT32 => float_to_string value 4
  | STRUCT_TYPE_FLOAT64 => float_to_string value 8
  | STRUCT_TYPE_FLOAT128 => float_to_string value 16
  | STRUCT_TYPE_MAGIC => dbtype_to_string value
  | STRUCT_TYPE_STRUCTURE_VERSION | STRUCT_TYPE_VERSION => version_to_string value
  | STRUCT_TYPE_TIME => unix_time_to_string value 1
  | STRUCT_TYPE_MSTIME => unix_time_to_string value 1000
  | STRUCT_TYPE_USTIME => unix_time_to_string value 1000000
  | STRUCT_TYPE_NSTIME => ns_time_to_string value
  | STRUCT_TYPE_CHAR => buffer_to_char value (wrap 64 base_or_size)
  | STRUCT_TYPE_P8STRING => buffer_to_string value 1
  | STRUCT_TYPE_P16STRING => buffer_to_string value 2
  | STRUCT_TYPE_P32STRING => buffer_to_string value 4
  | STRUCT_TYPE_BUFFER8 => pbuffer_to_string value 1
  | STRUCT_TYPE_BUFFER16 => pbuffer_to_string value 2
  | STRUCT_TYPE_BUFFER32 => pbuffer_to_string value 4
  | _ => Throw logic_error
  end.

Definition convert_to_int (value : list Z) (max_size : Z) (unit : unit_t) : result Z :=
  let! u := string_to_int value true unit in
  let n := int512_of_uint512 u in
  if decide (int512_bit_size n > max_size) then Throw out_of_range
  else Ok (signed 64 (if_value n !!! 0%nat)).

Definition convert_to_uint (value : list Z) (max_size : Z) (unit : unit_t) : result Z :=
  let! n := string_to_int value false unit in
  if decide (uint512_bit_size n > max_size) then Throw out_of_range
  else Ok (uf_value n !!! 0%nat).

End Convert.
