(* ===== verification/ConvertText.v ===== *)
(** * What the conversions of values read and write

    The lemmas behind [ConvertProps]: the binary search of the tables of names,
    the numerals that [string_to_int] reads, and the bytes of the integers. *)

From S2P Require Import Prelude Bytes Limbs BigLoops Uint512 Int512 BigText SortedMap StructTypes Convert.

(** ** Tables of names *)

Lemma alphabetical_sorted {A} (table : list (list Z * A)) : alphabetical table = true -> sorted string_ltb table.
Proof.
  induction table as [|[a x] table IH]; [done|]. intros H. cbn in H |- *.
  destruct table as [|[b y] table]; [by repeat constructor|]. apply andb_true_iff in H as [Hab H].
  specialize (IH H). split; [|done]. destruct IH as [Hb _]. constructor; [done|].
  eapply Forall_impl; [exact Hb|]. intros e He. by eapply (ltb_trans (ltb := string_ltb)).
Qed.

Lemma sorted_lookup {A} (table : list (list Z * A)) i j x y : sorted string_ltb table ->
  table !! i = Some x -> table !! j = Some y -> (i < j)%nat -> string_ltb (fst x) (fst y) = true.
Proof.
  revert i j. induction table as [|[a v] table IH]; intros i j; [done|]. intros [Hf Hs] Hi Hj Hij.
  destruct j as [|j]; [lia|]. cbn in Hj. destruct i as [|i]; cbn in Hi.
  - injection Hi as <-. rewrite Forall_forall in Hf. apply Hf. by apply list_elem_of_lookup_2 with j.
  - apply (IH i j); auto. lia.
Qed.

(** The loop keeps the name between its two bounds. *)
Lemma binary_search_find {A} (table : list (list Z * A)) name fuel i j : sorted string_ltb table ->
  0 <= i <= j -> j <= Z.of_nat (length table) -> j - i < Z.of_nat fuel ->
  (forall k e, table !! k = Some e -> Z.of_nat k < i -> string_ltb (fst e) name = true) ->
  (forall k e, table !! k = Some e -> j <= Z.of_nat k -> string_ltb name (fst e) = true) ->
  binary_search table name fuel i j = Ok (find_key string_ltb name table).
Proof.
  intros Hs. revert i j. induction fuel as [|fuel IH]; intros i j Hij Hj Hfuel Hlow Hhigh; [lia|]. cbn [binary_search].
  destruct (decide (i < j)) as [Hlt|Hge].
  2: { f_equal. destruct (find_key string_ltb name table) as [a|] eqn:E; [|done].
    apply (find_elem string_ltb) in E; [|done]. apply list_elem_of_lookup in E as [k Hk].
    assert (string_ltb name name = true) as Habs; [|by rewrite (ltb_irrefl (ltb := string_ltb)) in Habs].
    destruct (decide (Z.of_nat k < i)); [exact (Hlow k _ Hk ltac:(done))|apply (Hhigh k _ Hk); lia]. }
  rewrite Z.quot_div_nonneg by lia. cbv zeta. set (p := (j - i) / 2 + i).
  assert (i <= p < j) as Hp by (subst p; pose proof (Z.div_mod (j - i) 2); pose proof (Z.mod_pos_bound (j - i) 2); lia).
  destruct (lookup_lt_is_Some_2 table (Z.to_nat p)) as [[n a] Hn]; [lia|]. rewrite Hn.
  destruct (string_ltb n name) eqn:E1; [|destruct (string_ltb name n) eqn:E2].
  - apply IH; [lia..| |done]. intros k e Hk Hkp. destruct (decide (k = Z.to_nat p)) as [->|].
    + by replace e with (n, a) by congruence.
    + apply (ltb_trans (ltb := string_ltb)) with n; [|done]. change n with (fst (n, a)). apply (sorted_lookup table k (Z.to_nat p)); auto; lia.
  - apply IH; [lia..|done|]. intros k e Hk Hkp. destruct (decide (k = Z.to_nat p)) as [->|].
    + by replace e with (n, a) by congruence.
    + apply (ltb_trans (ltb := string_ltb)) with n; [done|]. change n with (fst (n, a)). apply (sorted_lookup table (Z.to_nat p) k); auto; lia.
  - f_equal. symmetry. apply (find_elem string_ltb); [done|]. rewrite <- (ltb_total (ltb := string_ltb) n name E1 E2).
    by apply list_elem_of_lookup_2 with (Z.to_nat p).
Qed.

Lemma search_table_find {A} (table : list (list Z * A)) name : alphabetical table = true ->
  search_table table name = Ok (find_key string_ltb name table).
Proof.
  intros H%alphabetical_sorted. apply binary_search_find; [done|lia..| |].
  - intros k e _ ?. lia.
  - intros k e Hk%lookup_lt_Some ?. lia.
Qed.

(** ** Numerals *)

Lemma is_space_nonzero c : is_space c = true -> c <> NUL.
Proof. unfold is_space. rewrite bool_decide_eq_true. lia. Qed.

Lemma skip_spaces_app a b : Forall (fun c => is_space c = true) a -> (forall c, head b = Some c -> is_space c = false) ->
  skip_spaces (a ++ b) = b.
Proof. intros Ha Hb. unfold skip_spaces. by rewrite span_app. Qed.

Lemma skip_spaces_all a : Forall (fun c => is_space c = true) a -> skip_spaces a = [].
Proof. intros Ha. rewrite <- (app_nil_r a) at 1. by apply skip_spaces_app. Qed.

Lemma skip_spaces_none b : (forall c, head b = Some c -> is_space c = false) -> skip_spaces b = b.
Proof. by apply (skip_spaces_app []). Qed.

Lemma c_str_zeros s k : Forall (fun c => c <> NUL) s -> c_str (s ++ replicate k 0) = s.
Proof.
  intros Hs. unfold c_str. rewrite span_app; [done| |].
  - eapply Forall_impl; [exact Hs|]. intros c Hc. by apply negb_true_iff, Z.eqb_neq.
  - intros x. by destruct k; intros [= <-].
Qed.

Lemma c_str_all s : Forall (fun c => c <> NUL) s -> c_str s = s.
Proof. intros Hs. rewrite <- (app_nil_r s) at 1. by apply (c_str_zeros s 0). Qed.

(** The base of a type of numbers. *)
Definition base_of (t : number_type_t) : Z :=
  match t with
  | NUMBER_TYPE_BINARY => 2
  | NUMBER_TYPE_OCTAL => 8
  | NUMBER_TYPE_DECIMAL => 10
  | NUMBER_TYPE_HEXADECIMAL => 16
  end.

Lemma digit_value_digit_of t c : digit_value t c = digit_of (base_of t) c.
Proof.
  destruct t; cbn [digit_value base_of]; unfold digit_of;
    try (repeat (destruct (decide _)); try done; try lia; f_equal; lia).
  destruct (decide ((chr: "0") <= c <= (chr: "9"))) as [|H0]; [by rewrite decide_True by lia|].
  destruct (decide _) as [H|H].
  - assert (c = 97 \/ c = 98 \/ c = 99 \/ c = 100 \/ c = 101 \/ c = 102 \/ c = 65 \/ c = 66 \/ c = 67 \/ c = 68 \/ c = 69 \/ c = 70)
      as Hc by lia. by destruct_or! Hc; subst.
  - repeat (destruct (decide _)); try done; lia.
Qed.

Lemma digit_of_not_space base c d : digit_of base c = Some d -> is_space c = false /\ c <> NUL /\ c <> QUOTE.
Proof.
  unfold digit_of. intros Hd. assert ((chr: "0") <= c) as Hc.
  { destruct (decide ((chr: "0") <= c)); [done|]. rewrite !decide_False in Hd by lia. done. }
  unfold is_space. rewrite bool_decide_eq_false. split_and!; lia.
Qed.

Lemma digits_nonzero base ds vs : mapM (digit_of base) ds = Some vs -> Forall (fun c => c <> NUL) ds.
Proof.
  revert vs. induction ds as [|c ds IH]; intros vs H; [constructor|]. cbn in H.
  destruct (digit_of base c) as [d|] eqn:E; [|done]. cbn in H. destruct (mapM (digit_of base) ds) as [vs'|] eqn:E'; [|done].
  constructor; [by eapply digit_of_not_space|by eapply IH].
Qed.

(** Additions modulo 2^512. *)
Lemma add_mod_step m x y a b : 0 < m -> x = a mod m -> y = b mod m -> (x + y) mod m = (a + b) mod m.
Proof. intros Hm -> ->. symmetry. apply Z.add_mod. lia. Qed.

Lemma uint512_sum v w a b : uint512_wf v -> uint512_wf w -> uval v = a mod 2 ^ 512 -> uval w = b mod 2 ^ 512 ->
  uint512_wf (uint512_add_assign v w) /\ uval (uint512_add_assign v w) = (a + b) mod 2 ^ 512.
Proof.
  intros Hv Hw Ha Hb. rewrite uint512_add_assign_add. destruct (uint512_add_value v w Hv Hw) as [? ->].
  split; [done|]. apply add_mod_step; auto. apply pow2_pos. done.
Qed.

Lemma times_base_value t v x : uint512_wf v -> uval v = x mod 2 ^ 512 ->
  uint512_wf (times_base t v) /\ uval (times_base t v) = (x * base_of t) mod 2 ^ 512.
Proof.
  intros Hv Hx. unfold times_base. cbv zeta.
  destruct (uint512_sum v v x x Hv Hv Hx Hx) as [H2 E2].
  destruct (uint512_sum _ _ _ _ H2 H2 E2 E2) as [H4 E4].
  destruct (uint512_sum _ _ _ _ H4 H4 E4 E4) as [H8 E8].
  destruct (uint512_sum _ _ _ _ H8 H8 E8 E8) as [H16 E16].
  destruct (uint512_sum _ _ _ _ H2 H8 E2 E8) as [H10 E10].
  destruct t; cbn [base_of]; (split; [done|]).
  - rewrite E2. f_equal. ring.
  - rewrite E8. f_equal. ring.
  - rewrite E10. f_equal. ring.
  - rewrite E16. f_equal. ring.
Qed.

(** The digits, up to a character that is not one. *)
Lemma read_digits_value t ds vs v x rest : uint512_wf v -> uval v = x mod 2 ^ 512 ->
  mapM (digit_of (base_of t)) ds = Some vs -> (forall c, head rest = Some c -> digit_of (base_of t) c = None) ->
  exists r, read_digits t v (ds ++ rest) = (r, rest) /\ uint512_wf r /\
    uval r = (x * base_of t ^ Z.of_nat (length vs) + horner (base_of t) vs) mod 2 ^ 512.
Proof.
  intros Hv Hx. revert v x vs Hv Hx. induction ds as [|c ds IH]; intros v x vs Hv Hx Hds Hrest.
  - injection Hds as <-. exists v. cbn [app length]. rewrite Z.mul_1_r, Z.add_0_r. split; [|done].
    destruct rest as [|c rest]; [done|]. cbn [read_digits]. by rewrite digit_value_digit_of, (Hrest c).
  - cbn in Hds. destruct (digit_of (base_of t) c) as [d|] eqn:Hd; [|done]. cbn in Hds.
    destruct (mapM (digit_of (base_of t)) ds) as [vs'|]; [|done]. injection Hds as <-.
    destruct (digit_of_range _ _ _ Hd) as [? ?]. cbn [app read_digits]. rewrite digit_value_digit_of, Hd.
    destruct (times_base_value t v x Hv Hx) as [Ht Et].
    assert (uword 64 d) as Hdw by (unfold uword; lia).
    destruct (uint512_sum _ (uint512_of_u64 d) (x * base_of t) d Ht (uint512_of_u64_wf d Hdw) Et) as [Hw Ew].
    { rewrite uval_of_u64. symmetry. apply Z.mod_small. lia. }
    destruct (IH _ _ vs' Hw Ew eq_refl Hrest) as (r & -> & Hr & Er). exists r. split; [done|]. split; [done|].
    rewrite Er. f_equal. cbn [length]. rewrite horner_cons, Nat2Z.inj_succ, Z.pow_succ_r by lia. ring.
Qed.

(** The ways to write digits: what comes before and after them in each base. *)
Inductive numeral : number_type_t -> list Z -> list Z -> list Z -> Prop :=
  | numeral_binary ds : numeral NUMBER_TYPE_BINARY (str: "0b") ds []
  | numeral_binary_upper ds : numeral NUMBER_TYPE_BINARY (str: "0B") ds []
  | numeral_octal ds : numeral NUMBER_TYPE_OCTAL (str: "0") ds []
  | numeral_decimal c ds : c <> (chr: "0") -> numeral NUMBER_TYPE_DECIMAL [] (c :: ds) []
  | numeral_hexadecimal ds : numeral NUMBER_TYPE_HEXADECIMAL (str: "0x") ds []
  | numeral_hexadecimal_upper ds : numeral NUMBER_TYPE_HEXADECIMAL (str: "0X") ds []
  | numeral_quoted ds : numeral NUMBER_TYPE_HEXADECIMAL (str: "x'") ds (str: "'")
  | numeral_quoted_upper ds : numeral NUMBER_TYPE_HEXADECIMAL (str: "X'") ds (str: "'").

Definition sign_text (negative : bool) (sign : list Z) : Prop :=
  if negative then sign = (str: "-") else sign = [] \/ sign = (str: "+").

(** What may follow the digits: not a digit, nor what would make a zero the first
    character of a prefix. *)
Definition ends_digits (t : number_type_t) (ds tail : list Z) : Prop :=
  forall c, head tail = Some c -> digit_of (base_of t) c = None /\ (ds = [] -> c ∉ (str: "xXbB")).

(** The text of a number of absolute value [x], with spaces around it, and
    [tail] after them. *)
Inductive number_text (tail : list Z) : list Z -> bool -> Z -> Prop :=
  NumberText before negative sign t p ds q after vs :
    Forall (fun c => is_space c = true) before -> Forall (fun c => is_space c = true) after ->
    sign_text negative sign -> numeral t p ds q -> mapM (digit_of (base_of t)) ds = Some vs ->
    Forall (fun c => c <> NUL) tail -> (forall c, head tail = Some c -> is_space c = false) ->
    (q = [] -> after = [] -> ends_digits t ds tail) ->
    number_text tail (before ++ sign ++ p ++ ds ++ q ++ after ++ tail) negative (horner (base_of t) vs).

Lemma numeral_nonzero t p ds q vs : numeral t p ds q -> mapM (digit_of (base_of t)) ds = Some vs ->
  Forall (fun c => c <> NUL) (p ++ ds ++ q).
Proof.
  intros Hn Hds%digits_nonzero. destruct Hn; cbn; repeat (apply Forall_cons; split; [done|]); try done;
    rewrite ?app_nil_r; try done; try (apply Forall_app_2; [done|by repeat constructor]).
Qed.

(** The base, and the first character of the numeral. *)
Lemma read_base_numeral t p ds q vs tail : numeral t p ds q -> mapM (digit_of (base_of t)) ds = Some vs ->
  (q = [] -> ends_digits t ds tail) ->
  read_base (p ++ ds ++ q ++ tail) = (t, negb (bool_decide (q = [])), ds ++ q ++ tail) /\
  exists c, head (p ++ ds ++ q ++ tail) = Some c /\ is_space c = false /\ c <> (chr: "+") /\ c <> (chr: "-").
Proof.
  intros Hn Hds Hend. destruct Hn as [ds|ds|ds|c ds Hc|ds|ds|ds|ds]; try (split; [done|eexists; split; [done|done]]).
  - split; [|eexists; split; [done|done]]. cbn [app read_base]. rewrite decide_True by done.
    specialize (Hend eq_refl). destruct ds as [|c ds]; cbn [app].
    + destruct tail as [|c tail]; [done|]. destruct (Hend c eq_refl) as [_ Hx]. specialize (Hx eq_refl). set_unfold in Hx.
      rewrite !decide_False by naive_solver. done.
    + cbn in Hds. destruct (digit_of 8 c) as [d|] eqn:E; [|done].
      assert ((chr: "0") <= c < (chr: "0") + 8) as Hc.
      { rewrite digit_of_low in E by lia. by destruct (decide _). }
      rewrite !decide_False by lia. done.
  - cbn in Hds. destruct (digit_of 10 c) as [d|] eqn:E; [|done].
    assert ((chr: "0") <= c < (chr: "0") + 10) as Hr.
    { rewrite digit_of_low in E by lia. by destruct (decide _). }
    cbn [app read_base]. rewrite !decide_False by lia. split; [done|]. exists c. cbn. split; [done|].
    destruct (digit_of_not_space _ _ _ E). split_and!; [done|lia|lia].
Qed.

Lemma is_space_ends t (ds : list Z) c : is_space c = true -> digit_of (base_of t) c = None /\ (ds = [] -> c ∉ (str: "xXbB")).
Proof.
  intros Hc. split.
  - destruct (digit_of (base_of t) c) eqn:E; [|done]. by destruct (digit_of_not_space _ _ _ E) as [? _]; congruence.
  - intros _ Hin. unfold is_space in Hc. rewrite bool_decide_eq_true in Hc. set_unfold in Hin. lia.
Qed.

Lemma ends_digits_app t ds after tail : Forall (fun c => is_space c = true) after ->
  (after = [] -> ends_digits t ds tail) -> ends_digits t ds (after ++ tail).
Proof.
  intros Ha Ht. destruct Ha as [|c after Hc Ha]; [by apply Ht|]. intros c' [= <-]. by apply is_space_ends.
Qed.

Definition of_sign (negative : bool) (r : uint512_t) : uint512_t := if negative then uint512_neg r else r.

Section StringToInt.
Context `{libraries : ConvertLibraries} (debug : bool).

(** A number, then [tail], which is not part of it: the name of a unit, or an
    error. *)
Lemma string_to_int_value tail s neg x accept unit : number_text tail s neg x ->
  exists r, uint512_wf r /\ uval r = x mod 2 ^ 512 /\
    string_to_int debug s accept unit =
      if neg && negb accept then Throw invalid_number
      else
        let! result :=
          if decide (tail = []) then Ok r
          else match unit with
               | UNIT_NONE => Throw invalid_number
               | UNIT_SIZE => let! multiplicator := size_to_multiplicator debug tail in uint512_mul_assign r multiplicator
               end in
        Ok (of_sign neg result).
Proof.
  intros [before negative sign t p ds q after vs Hb Ha Hs Hn Hds Htail Hhead Hend].
  destruct (read_base_numeral t p ds q vs (after ++ tail) Hn Hds) as [Hbase (c & Hc & Hsp & Hplus & Hminus)].
  { intros Hq. apply ends_digits_app; auto. }
  destruct (read_digits_value t ds vs uint512_zero 0 (q ++ after ++ tail)) as (r & Hread & Hr & Er); auto with word.
  { intros c'. destruct q as [|c1 q].
    - intros Hc'. by apply (ends_digits_app t ds after tail Ha (Hend eq_refl)).
    - intros [= <-]. inversion Hn; subst; done. }
  rewrite Z.mul_0_l, Z.add_0_l in Er. exists r. split; [done|]. split; [done|].
  set (body := p ++ ds ++ q ++ after ++ tail) in *.
  assert (Forall (fun c => c <> NUL) (before ++ sign ++ body)) as Hnul.
  { assert (forall l, Forall (fun c => is_space c = true) l -> Forall (fun c => c <> NUL) l) as Hspaces.
    { intros l Hl. eapply Forall_impl; [exact Hl|]. apply is_space_nonzero. }
    apply Forall_app_2; [by apply Hspaces|]. apply Forall_app_2.
    { unfold sign_text in Hs. destruct negative; [subst; by repeat constructor|].
      destruct Hs; subst; by repeat constructor. }
    unfold body. rewrite !app_assoc. apply Forall_app_2; [|done]. rewrite <- !app_assoc.
    rewrite (app_assoc ds), (app_assoc p). apply Forall_app_2; [by eapply numeral_nonzero|by apply Hspaces]. }
  assert (read_sign accept (sign ++ body) = if negative && negb accept then Throw invalid_number else Ok (negative, body)) as Hsign.
  { destruct body as [|c0 body0]; [done|]. injection Hc as ->. unfold sign_text in Hs.
    destruct negative; [subst; by destruct accept|]. destruct Hs; subst; cbn [app read_sign]; [|done].
    by rewrite !decide_False by done. }
  assert (skip_spaces (before ++ sign ++ body) = sign ++ body) as Hskip.
  { apply skip_spaces_app; [done|]. intros c' Hc'. unfold sign_text in Hs.
    destruct negative; [subst; by injection Hc' as <-|]. destruct Hs; subst; [|by injection Hc' as <-].
    cbn in Hc'. replace c' with c by congruence. done. }
  unfold string_to_int. rewrite c_str_all, Hskip, Hsign by done.
  destruct (negative && negb accept); [done|]. cbn [result_bind]. rewrite Hbase, Hread.
  assert (skip_spaces (after ++ tail) = tail) as Hafter by (by apply skip_spaces_app).
  assert ((match negb (bool_decide (q = [])), q ++ after ++ tail with
    | true, c :: rest => if decide (c = QUOTE) then Ok rest else Throw invalid_number
    | true, [] => Throw invalid_number
    | false, _ => Ok (q ++ after ++ tail)
    end) = Ok (after ++ tail)) as ->; [|cbn [result_bind]; by rewrite Hafter].
  inversion Hn; subst; done.
Qed.
End StringToInt.

(** ** Bytes of integers *)

Lemma pow_256 n : 256 ^ Z.of_nat n = 2 ^ (8 * Z.of_nat n).
Proof. change 256 with (2 ^ 8). rewrite <- Z.pow_mul_r by lia. done. Qed.

Lemma div_256 x n : x / 256 / 256 ^ Z.of_nat n = x / 256 ^ Z.of_nat (S n).
Proof. rewrite Z.div_div by lia. by rewrite Nat2Z.inj_succ, Z.pow_succ_r by lia. Qed.

Lemma le_app n m x : le (n + m) x = le n x ++ le m (x / 256 ^ Z.of_nat n).
Proof.
  revert x. induction n as [|n IH]; intros x; cbn [le Nat.add app]; [by rewrite Z.div_1_r|].
  by rewrite IH, div_256.
Qed.

Lemma take_le n m x : (n <= m)%nat -> take n (le m x) = le n x.
Proof. intros H. replace m with (n + (m - n))%nat by lia. rewrite le_app, take_app_length'; [done|by rewrite length_le]. Qed.

Lemma le_low n x y : x mod 2 ^ (8 * Z.of_nat n) = y mod 2 ^ (8 * Z.of_nat n) -> le n x = le n y.
Proof.
  rewrite <- pow_256. revert x y. induction n as [|n IH]; intros x y; [done|]. cbn [le].
  rewrite Nat2Z.inj_succ, Z.pow_succ_r, !Z.rem_mul_r by lia. intros H.
  pose proof (Z.mod_pos_bound x 256 ltac:(lia)). pose proof (Z.mod_pos_bound y 256 ltac:(lia)).
  f_equal; [|apply IH]; lia.
Qed.

Lemma of_le_app a b : of_le (a ++ b) = of_le a + 256 ^ Z.of_nat (length a) * of_le b.
Proof.
  induction a as [|x a IH]; cbn [app of_le length]; [lia|]. rewrite IH, Nat2Z.inj_succ, Z.pow_succ_r by lia. lia.
Qed.

Lemma of_le_bound l : Forall byte l -> 0 <= of_le l < 256 ^ Z.of_nat (length l).
Proof.
  unfold byte, uword. induction 1 as [|x l Hx Hl IH]; cbn [of_le length]; [done|].
  rewrite Nat2Z.inj_succ, Z.pow_succ_r by lia. lia.
Qed.

Lemma le_of_le l : Forall byte l -> le (length l) (of_le l) = l.
Proof.
  unfold byte, uword. induction 1 as [|x l Hx Hl IH]; [done|]. cbn [le of_le length].
  rewrite (Z.mul_comm 256), Z.mod_add, Z.div_add, Z.mod_small, Z.div_small by lia. rewrite Z.add_0_l. by rewrite IH.
Qed.

Lemma Forall_byte_le n x : Forall byte (le n x).
Proof.
  revert x. induction n as [|n IH]; intros x; constructor; [|done]. unfold byte, uword. pose proof (Z.mod_pos_bound x 256). lia.
Qed.

Lemma bytes_of_words_le w : limbs w -> bytes_of_words w = le (8 * length w) (eval w).
Proof.
  unfold bytes_of_words. induction 1 as [|x w Hx Hw IH]; [done|]. cbn [fmap list_fmap concat length eval]. rewrite IH.
  replace (8 * S (length w))%nat with (8 + 8 * length w)%nat by lia. rewrite le_app. unfold uword in Hx. f_equal.
  - apply le_low. change (8 * Z.of_nat 8) with 64. rewrite (Z.mul_comm (2 ^ 64)), Z.mod_add by lia. done.
  - f_equal. change (256 ^ Z.of_nat 8) with (2 ^ 64). rewrite (Z.mul_comm (2 ^ 64)), Z.div_add, Z.div_small by lia. lia.
Qed.

Lemma words_value n b : length b = (8 * n)%nat -> Forall byte b ->
  let w := (fun i => of_le (take 8 (drop (8 * i) b))) <$> seq 0 n in
  length w = n /\ limbs w /\ eval w = of_le b.
Proof.
  cbv zeta. revert b. induction n as [|n IH]; intros b Hl Hb; [by destruct b|].
  assert (Forall byte (take 8 b)) as Ht by by apply Forall_take.
  specialize (IH (drop 8 b)). rewrite length_drop in IH. destruct IH as (IH1 & IH2 & IH3); [lia|by apply Forall_drop|].
  assert (((fun i => of_le (take 8 (drop (8 * i) b))) <$> seq 1 n)
    = ((fun i => of_le (take 8 (drop (8 * i) (drop 8 b)))) <$> seq 0 n)) as E.
  { rewrite <- (fmap_S_seq 0 n), <- list_fmap_compose. apply list_fmap_ext. intros i x _. cbn [compose]. unfold compose.
    rewrite drop_drop. do 3 f_equal. lia. }
  cbn [seq fmap list_fmap]. change (list_fmap _ _ ?f ?l) with (f <$> l). rewrite E. cbn [length eval].
  pose proof (of_le_bound _ Ht) as Hbound. rewrite length_take_le in Hbound by lia.
  split_and!; [by rewrite IH1|by constructor|].
  rewrite IH3. rewrite <- (take_drop 8 b) at 3. rewrite of_le_app, length_take_le by lia. done.
Qed.

Lemma of_le_zeros n : of_le (replicate n 0) = 0.
Proof. induction n as [|n IH]; [done|]. cbn [replicate of_le]. lia. Qed.

Lemma words_of_bytes_value b : Forall byte b -> (length b <= 64)%nat ->
  exists w, words_of_bytes b = Ok w /\ uint512_wf (Uint512 w) /\ uval (Uint512 w) = of_le b.
Proof.
  intros Hb Hl. unfold words_of_bytes. rewrite decide_False by lia. eexists. split; [done|].
  destruct (words_value 8 (b ++ replicate (64 - length b) 0)) as (H1 & H2 & H3).
  - rewrite length_app, length_replicate. lia.
  - apply Forall_app_2; [done|]. apply Forall_replicate. done.
  - split; [done|]. unfold uval. cbn [uf_value]. rewrite H3, of_le_app, of_le_zeros. lia.
Qed.

Lemma value_byte_size_le b s : (value_byte_size b s <= length b)%nat.
Proof.
  unfold value_byte_size. assert (forall v e n, (n <= length v)%nat -> (byte_size_loop v e n <= length v)%nat) as H.
  { intros v e n. induction n as [|n IH]; intros Hn; cbn [byte_size_loop]; [lia|].
    destruct (decide _); [|apply IH; lia]. destruct (decide _); lia. }
  destruct (length b) as [|n] eqn:E; [lia|]. rewrite <- E at 2. apply H. lia.
Qed.

(** ** Signed numbers of a width *)

Lemma low_words v m : int512_wf v -> (m <= 7)%nat -> eval (take m (if_value v)) = sval v mod 2 ^ (64 * Z.of_nat m).
Proof.
  intros (Hlen & Hl & _) Hm. unfold sval. rewrite (eval_take_drop m (if_value v)) by lia.
  pose proof (eval_take_bound (if_value v) m Hl ltac:(lia)) as Hb. symmetry. fold (modulus m).
  replace (modulus 7) with (modulus m * modulus (7 - m)) by (rewrite <- modulus_add; f_equal; lia).
  apply mod_unique_pow with (eval (drop m (if_value v)) + modulus (7 - m) * if_high_value v); [done|].
  fold (modulus m). ring.
Qed.

(** The widths of the integers, in bytes. *)
Definition integer_widths : list nat := [1; 2; 4; 8; 16; 32; 64]%nat.

(** The positive power of two is taken for the lowest number at three widths. *)
Definition lowest_number (n : nat) (v : Z) : Prop :=
  v = - 2 ^ (8 * Z.of_nat n - 1) \/ v = 2 ^ (8 * Z.of_nat n - 1) /\ n ∈ [8; 16; 32]%nat.

#[export] Instance lowest_number_dec n v : Decision (lowest_number n v).
Proof. unfold lowest_number. apply _. Defined.

Lemma first_words v : int512_wf v -> exists a b c d l, if_value v = a :: b :: c :: d :: l /\
  uword 64 a /\ uword 64 b /\ uword 64 c /\ uword 64 d.
Proof.
  intros (Hlen & Hl & _). destruct (if_value v) as [|a [|b [|c [|d l]]]]; try done.
  rewrite !Forall_cons in Hl. exists a, b, c, d, l. split; [done|]. naive_solver.
Qed.

Lemma mod_lowest k m s : 0 <= k < m -> 2 ^ k <= Z.abs s < 2 ^ (k + 1) ->
  s mod 2 ^ m = 2 ^ m - 2 ^ k <-> s = - 2 ^ k \/ s = 2 ^ k /\ m = k + 1.
Proof.
  intros Hk Hs. rewrite Z.pow_add_r in Hs by lia. change (2 ^ 1) with 2 in Hs.
  pose proof (pow2_pos k). assert (2 ^ k * 2 <= 2 ^ m) as Hm.
  { change 2 with (2 ^ 1) at 2. rewrite <- Z.pow_add_r by lia. apply Z.pow_le_mono_r; lia. }
  assert (m = k + 1 /\ 2 ^ m = 2 ^ k * 2 \/ m <> k + 1 /\ 2 ^ k * 4 <= 2 ^ m) as Hm4.
  { destruct (decide (m = k + 1)) as [E|]; [left; split; [done|rewrite E; apply Z.pow_add_r; lia]|right; split; [done|]].
    change 4 with (2 ^ 2). rewrite <- Z.pow_add_r by lia. apply Z.pow_le_mono_r; lia. }
  destruct (decide (0 <= s)).
  - rewrite Z.mod_small by lia. lia.
  - rewrite (mod_unique_pow m s (-1) (s + 2 ^ m)) by lia. lia.
Qed.

Lemma is_lowest_value n v : int512_wf v -> n ∈ [1; 2; 4; 8; 16; 32]%nat ->
  2 ^ (8 * Z.of_nat n - 1) <= Z.abs (sval v) < 2 ^ (8 * Z.of_nat n) ->
  is_lowest v (8 * Z.of_nat n) = Ok (bool_decide (lowest_number n (sval v))).
Proof.
  intros Hv Hn Hr. pose proof (low_words v 1 Hv ltac:(lia)) as H1. pose proof (low_words v 2 Hv ltac:(lia)) as H2.
  pose proof (low_words v 4 Hv ltac:(lia)) as H4.
  destruct (first_words v Hv) as (a & b & c & d & l & El & Ha & Hb & Hc & Hd). unfold is_lowest. rewrite El in *.
  set_unfold in Hn. unfold lowest_number, uword in *. cbn [take eval] in *.
  change (64 * Z.of_nat 1) with 64 in H1. change (64 * Z.of_nat 2) with 128 in H2. change (64 * Z.of_nat 4) with 256 in H4.
  set (s := sval v) in *. clearbody s. clear El Hv.
  destruct_or! Hn; subst n; try done; cbn [lookup_total list_lookup_total];
    repeat first [rewrite decide_True by done|rewrite decide_False by done]; f_equal; apply bool_decide_ext;
    rewrite !Z.lxor_eq_0_iff; set_unfold.
  - change (8 * Z.of_nat 1 - 1) with 7 in *. pose proof (mod_lowest 7 64 s ltac:(done) Hr). clear H2 H4. lia.
  - change (8 * Z.of_nat 2 - 1) with 15 in *. pose proof (mod_lowest 15 64 s ltac:(done) Hr). clear H2 H4. lia.
  - change (8 * Z.of_nat 4 - 1) with 31 in *. pose proof (mod_lowest 31 64 s ltac:(done) Hr). clear H2 H4. lia.
  - change (8 * Z.of_nat 8 - 1) with 63 in *. pose proof (mod_lowest 63 64 s ltac:(done) Hr). clear H2 H4. lia.
  - change (8 * Z.of_nat 16 - 1) with 127 in *. pose proof (mod_lowest 127 128 s ltac:(done) Hr). clear H1 H4. lia.
  - change (8 * Z.of_nat 32 - 1) with 255 in *. pose proof (mod_lowest 255 256 s ltac:(done) Hr). clear H1 H2. lia.
Qed.

(** ** Texts of integers *)

Lemma le_0 n : le n 0 = replicate n 0.
Proof. induction n as [|n IH]; [done|]. cbn [le replicate]. change (0 / 256) with 0. by rewrite IH. Qed.

Lemma le_small n m x : (n <= m)%nat -> 0 <= x < 2 ^ (8 * Z.of_nat n) -> le m x = le n x ++ replicate (m - n) 0.
Proof.
  intros Hm Hx. replace m with (n + (m - n))%nat at 1 by lia. rewrite le_app, pow_256, Z.div_small by done. by rewrite le_0.
Qed.

(** The zeros at the end are not counted. *)
Lemma unsigned_byte_size (a : list Z) k : (value_byte_size (a ++ replicate k 0%Z) false <= length a)%nat.
Proof.
  unfold value_byte_size. assert (forall n, (n <= length a + k)%nat -> (byte_size_loop (a ++ replicate k 0%Z) 0%Z n <= length a)%nat) as H.
  { induction n as [|n IH]; intros Hn; [cbn; lia|]. cbn [byte_size_loop]. destruct (decide (n < length a)%nat).
    - destruct (decide _); [|apply IH; lia]. rewrite decide_False by (intros [? _]; done). lia.
    - rewrite decide_False; [apply IH; lia|]. rewrite lookup_total_app_r, lookup_total_replicate_2 by lia. by intros []. }
  rewrite length_app, length_replicate. destruct (length a + k)%nat as [|n] eqn:E; [lia|]. apply H. lia.
Qed.

(** The bytes that are not counted in a negative number are all 0xFF. *)
Lemma signed_byte_size b high : last b = Some high -> signed 8 high < 0 ->
  let size := value_byte_size b true in take size b ++ replicate (length b - size) 255 = b.
Proof.
  intros Hlast Hneg. cbv zeta. pose proof (value_byte_size_le b true) as Hle. unfold value_byte_size in *.
  rewrite last_lookup in Hlast. destruct (length b) as [|n] eqn:E; [by rewrite (nil_length_inv b E)|].
  cbn [Nat.pred] in Hlast. rewrite (list_lookup_total_correct _ _ _ Hlast) in *. rewrite bool_decide_eq_true_2 in * by done.
  cbn [andb] in *. assert (forall k, (k <= length b)%nat -> (forall i, (k <= i < length b)%nat -> b !!! i = 255) ->
    forall i, (byte_size_loop b 255 k <= i < length b)%nat -> b !!! i = 255) as H.
  { induction k as [|k IH]; intros Hk Hall i Hi; cbn [byte_size_loop] in Hi; [apply Hall; lia|].
    destruct (decide (b !!! k <> 255)) as [|Hk255].
    - destruct (decide _) in Hi; apply Hall; lia.
    - apply (IH ltac:(lia)); [|done]. intros i' Hi'. destruct (decide (i' = k)) as [->|]; [by apply dec_stable|]. apply Hall. lia. }
  set (size := byte_size_loop b 255 (S n)) in *. specialize (H (S n) ltac:(lia) ltac:(lia)).
  apply (list_eq_same_length _ _ (S n)); [done|rewrite length_app, length_take, length_replicate; lia|].
  intros i x y Hi Hx Hy. destruct (decide (i < size)%nat).
  - rewrite lookup_app_l, lookup_take_lt in Hx by (rewrite ?length_take; lia). congruence.
  - rewrite lookup_app_r, lookup_replicate in Hx by (rewrite length_take; lia). destruct Hx as [-> _].
    rewrite <- (list_lookup_total_correct _ _ _ Hy). symmetry. apply H. lia.
Qed.

Lemma of_le_ones n : of_le (replicate n 255) = 256 ^ Z.of_nat n - 1.
Proof. induction n as [|n IH]; [done|]. cbn [replicate of_le]. rewrite IH, Nat2Z.inj_succ, Z.pow_succ_r by lia. lia. Qed.

(** The bases a text is written in. *)
Definition type_of_base (base : Z) : number_type_t :=
  if decide (base = 2) then NUMBER_TYPE_BINARY
  else if decide (base = 8) then NUMBER_TYPE_OCTAL
  else if decide (base = 16) then NUMBER_TYPE_HEXADECIMAL
  else NUMBER_TYPE_DECIMAL.

Definition text_bases : list Z := [2; 8; 10; 16].

Lemma number_text_plain (negative : bool) t p ds vs : numeral t p ds [] -> mapM (digit_of (base_of t)) ds = Some vs ->
  number_text [] ((if negative then (str: "-") else []) ++ p ++ ds) negative (horner (base_of t) vs).
Proof.
  intros Hn Hds. pose proof (NumberText [] [] negative (if negative then (str: "-") else []) t p ds [] [] vs) as H.
  rewrite !app_nil_r in H. apply H; try done. destruct negative; [done|by left].
Qed.

(** The text of a number is read as that number, with a sign before it or not. *)
Lemma uint512_text v base : uint512_wf v -> base ∈ text_bases ->
  exists s, uint512_to_string v base true true = Ok s /\
    forall negative : bool, number_text [] ((if negative then (str: "-") else []) ++ s) negative (uval v).
Proof.
  intros Hv Hb. destruct (decide (uval v = 0)) as [Hz|Hnz].
  { exists (str: "0"). rewrite uint512_is_zero_text by done. split; [done|]. intros negative. rewrite Hz.
    apply (number_text_plain negative NUMBER_TYPE_OCTAL (str: "0") [] []); [constructor|done]. }
  assert (base = base_of (type_of_base base) /\ 2 <= base <= 16) as [Hbase Hr].
  { unfold text_bases in Hb. set_unfold in Hb. by destruct_or! Hb; subst. }
  destruct (uint512_to_string_value v base true true Hv Hnz ltac:(lia)) as (ds & -> & Hds & Hval & Hhead).
  eexists. split; [done|]. intros negative. rewrite <- Hval.
  replace (horner base ds) with (horner (base_of (type_of_base base)) ds) by (by rewrite <- Hbase).
  apply number_text_plain; [|rewrite <- Hbase; by apply mapM_digit_of_chars; [lia|]].
  unfold text_bases in Hb. set_unfold in Hb. destruct_or! Hb; subst base; try constructor; try done.
  destruct Hds as [|d ds Hd Hds]; [done|]. cbn. constructor. apply digit_char_not_zero. cbn in Hhead.
  assert (d <> 0) by (intros ->; done). lia.
Qed.

(** ** Decimal numbers and versions *)

Lemma pretty_char d : (d < 10)%N -> Z.of_N (Ascii.N_of_ascii (pretty_N_char d)) = digit_char true (Z.of_N d).
Proof.
  intros Hd. assert (d = 0 \/ d = 1 \/ d = 2 \/ d = 3 \/ d = 4 \/ d = 5 \/ d = 6 \/ d = 7 \/ d = 8 \/ d = 9)%N as H by lia.
  by destruct_or! H; subst.
Qed.

Lemma pretty_go_numeral (x : N) s :
  exists ds, codes_of_string (pretty_N_go x s) = (digit_char true <$> ds) ++ codes_of_string s /\ is_numeral 10 (Z.of_N x) ds.
Proof.
  revert s. induction (N.lt_wf_0 x) as [x _ IH]. intros s. destruct (decide (x = 0)%N) as [->|Hx].
  { exists []. rewrite pretty_N_go_0. split; [done|apply numeral_zero]. }
  rewrite pretty_N_go_step by lia. pose proof (N.mod_lt x 10 ltac:(done)) as Hmod.
  destruct (IH (x / 10)%N) with (s := String.String (pretty_N_char (x mod 10)) s) as (ds & -> & Hds); [apply N.div_lt; lia|].
  exists (ds ++ [Z.of_N x mod 10]). split; [|apply is_numeral_snoc; [lia|lia|]].
  - rewrite fmap_app, <- app_assoc. f_equal. change (codes_of_string (String.String ?c s)) with (Z.of_N (Ascii.N_of_ascii c) :: codes_of_string s).
    rewrite pretty_char by done. rewrite N2Z.inj_mod. done.
  - by rewrite N2Z.inj_div in Hds.
Qed.

(** [std::to_string()] of an unsigned integer: its digits. *)
Lemma decimal_text_digits x : 0 <= x -> exists ds, Forall (fun d => 0 <= d < 10) ds /\ decimal_text x = digit_char true <$> ds /\
  number_text [] (decimal_text x) false x.
Proof.
  intros Hx. unfold decimal_text. destruct (decide (x = 0)) as [->|Hnz].
  { exists [0]. split; [by repeat constructor|]. split; [done|]. apply (number_text_plain false NUMBER_TYPE_OCTAL (str: "0") [] []); [constructor|done]. }
  assert (codes_of_string (pretty x) = codes_of_string (pretty_N_go (Z.to_N x) String.EmptyString)) as ->.
  { destruct x as [|p|p]; [done| |lia]. done. }
  destruct (pretty_go_numeral (Z.to_N x) String.EmptyString) as (ds & -> & Hds & Hval & Hhead).
  rewrite Z2N.id in Hval by lia. rewrite app_nil_r. exists ds. split; [done|]. split; [done|]. rewrite <- Hval.
  apply (number_text_plain false NUMBER_TYPE_DECIMAL []); [|by apply (mapM_digit_of_chars true 10 ds ltac:(lia))].
  destruct Hds as [|d ds Hd Hds]; [done|]. cbn. constructor. apply digit_char_not_zero. cbn in Hhead.
  assert (d <> 0) by (intros ->; done). lia.
Qed.

(** A character of a decimal number. *)
Lemma decimal_digit_char d : 0 <= d < 10 -> (chr: "0") <= digit_char true d <= (chr: "9").
Proof. intros Hd. unfold digit_char. destruct (decide _); lia. Qed.

Definition version_wf (v : version_t) : Prop := uword 16 (f_major v) /\ uword 16 (f_minor v).

#[export] Instance version_wf_dec v : Decision (version_wf v).
Proof. unfold version_wf. apply _. Defined.

Lemma version_binary v : version_wf v -> version_of_binary (to_binary v) = v /\ uword 32 (to_binary v).
Proof.
  destruct v as [a b]. intros [Ha Hb]. cbn in Ha, Hb. unfold uword in *. unfold version_of_binary, to_binary. cbn [f_major f_minor].
  rewrite Z.shiftl_mul_pow2, Z.shiftr_div_pow2 by lia. unfold wrap, uword. change (2 ^ 16) with 65536 in *. change (2 ^ 32) with 4294967296.
  rewrite (Z.mod_small (a * 65536)) by lia. rewrite (Z.mod_small (a * 65536 + b)) by lia.
  rewrite Z.div_add_l, (Z.div_small b), Z.add_0_r by lia. rewrite (Z.add_comm (a * 65536)), Z.mod_add by lia. rewrite !Z.mod_small by lia. split; [done|lia].
Qed.

Section Versions.
Context `{libraries : ConvertLibraries} (debug : bool).

Lemma string_to_version_text v : version_wf v -> string_to_version debug (version_text v) = Ok (le 4 (to_binary v)).
Proof.
  destruct v as [a b]. intros [Ha Hb]. cbn in Ha, Hb. unfold string_to_version, version_text. cbn [f_major f_minor].
  destruct (decimal_text_digits a) as (da & Hda & Ea & Hna); [by destruct Ha|].
  destruct (decimal_text_digits b) as (db & Hdb & Eb & Hnb); [by destruct Hb|].
  rewrite span_app; [| |by intros x [= <-]].
  2: { rewrite Ea. apply Forall_fmap. eapply Forall_impl; [exact Hda|]. intros d Hd. cbn. pose proof (decimal_digit_char d Hd).
    apply negb_true_iff, Z.eqb_neq. lia. }
  cbn [app]. assert (skip_v (skip_spaces (decimal_text a)) = decimal_text a) as ->.
  { rewrite Ea. destruct Hda as [|d da Hd Hda]; [done|]. pose proof (decimal_digit_char d Hd). cbn [fmap list_fmap].
    rewrite skip_spaces_none; [cbn [skip_v]; by rewrite decide_False by lia|]. intros c [= <-]. apply bool_decide_eq_false. lia. }
  assert (forall x text, uword 16 x -> number_text [] text false x ->
    exists r, string_to_int debug text false UNIT_NONE = Ok r /\ uint512_bit_size r <= 16 /\ uf_value r !!! 0%nat = x) as Hread.
  { intros x text Hx Ht. destruct (string_to_int_value debug [] text false x false UNIT_NONE Ht) as (r & Hr & Er & ->).
    cbn [andb]. rewrite decide_True by done. cbn [result_bind of_sign]. exists r. split; [done|].
    unfold uword in Hx. change (2 ^ 16) with 65536 in Hx. rewrite Z.mod_small in Er by lia.
    rewrite uint512_bit_size_value, Er by done. split; [by apply bits_le|].
    destruct (uint512_small r Hr) as [Hs Hw]. rewrite Hw; [done|]. apply Hs. rewrite Er. lia. }
  destruct (Hread a _ Ha Hna) as (ra & -> & Hsa & Hwa). destruct (Hread b _ Hb Hnb) as (rb & -> & Hsb & Hwb).
  cbn [result_bind]. rewrite decide_False by lia. rewrite Hwa, Hwb. unfold uword in *. change (2 ^ 16) with 65536 in *.
  unfold version_of_ints, signed, wrap. change (2 ^ 32) with 4294967296. change (2 ^ (32 - 1)) with 2147483648.
  rewrite !Z.mod_small by lia. rewrite !(decide_True (P := _ < 2147483648)) by lia. rewrite decide_False by lia. done.
Qed.

Lemma version_to_string_binary v : version_wf v -> version_to_string (le 4 (to_binary v)) = Ok (version_text v).
Proof.
  intros Hv. destruct (version_binary v Hv) as [Hb Hw]. unfold version_to_string. rewrite length_le. rewrite decide_False by lia.
  rewrite of_le_le, wrap_small by done. by rewrite Hb.
Qed.
End Versions.
