(* ===== verification/ConvertProps.v ===== *)
(** * Properties of the conversions of values

    The names of types and units, the numbers a string is read as, and the round
    trips between the text and the bytes of a value. *)

From S2P Require Import Prelude Bytes Limbs BigLoops Uint512 Int512 BigText SortedMap StructTypes Convert ConvertText.

(** ** Numbers *)

Definition signed_number (negative : bool) (x : Z) : Z := if negative then - x else x.

Lemma of_sign_value negative r x : uint512_wf r -> uval r = x mod 2 ^ 512 ->
  uint512_wf (of_sign negative r) /\ uval (of_sign negative r) = signed_number negative x mod 2 ^ 512.
Proof.
  intros Hr Ex. destruct negative; cbn [of_sign signed_number]; [|done].
  destruct (uint512_neg_value r Hr) as [? ->]. split; [done|]. rewrite Ex, <- !Z.sub_0_l. by rewrite Zminus_mod_idemp_r.
Qed.

Lemma le_of_number n w x : (n <= 64)%nat -> length w = 8%nat -> limbs w -> eval w = x mod 2 ^ 512 ->
  take (Z.to_nat (8 * Z.of_nat n / 8)) (bytes_of_words w) = le n x.
Proof.
  intros Hn Hlen Hw Ex. replace (8 * Z.of_nat n / 8) with (Z.of_nat n) by (rewrite Z.mul_comm, Z.div_mul; done).
  rewrite Nat2Z.id, bytes_of_words_le, Hlen, take_le by (done || lia). apply le_low. rewrite Ex.
  apply Z.mod_mod_divide. exists (2 ^ (512 - 8 * Z.of_nat n)). rewrite (pow2_split (8 * Z.of_nat n) 512) by lia. ring.
Qed.

Lemma bits_over x n : 0 <= x -> 0 <= n -> bits x > n <-> 2 ^ n <= x.
Proof.
  intros Hx Hn. destruct (bits_spec x Hx) as (Hb & Hlt & Hge). split; intros H.
  - destruct (decide (x = 0)) as [->|Hnz]; [change (bits 0) with 0 in H; lia|]. specialize (Hge Hnz).
    pose proof (Z.pow_le_mono_r 2 n (bits x - 1)). lia.
  - destruct (decide (bits x > n)); [done|]. pose proof (Z.pow_le_mono_r 2 (bits x) n). lia.
Qed.

Lemma width_cases n : n ∈ integer_widths -> (1 <= n <= 64)%nat /\ (n <> 64%nat -> (n <= 32)%nat /\ n ∈ [1; 2; 4; 8; 16; 32]%nat).
Proof. intros Hn. unfold integer_widths in Hn. set_unfold in Hn. destruct_or! Hn; subst n; (split; [lia|]); intros; (split; [lia|]); set_solver. Qed.

Section Numbers.
Context `{libraries : ConvertLibraries} (debug : bool).

Lemma string_to_uinteger_number s negative x n : number_text [] s negative x -> n ∈ integer_widths ->
  string_to_uinteger debug s (8 * Z.of_nat n) =
    if negative then Throw invalid_number
    else if decide (x mod 2 ^ 512 < 2 ^ (8 * Z.of_nat n)) then Ok (le n x) else Throw out_of_range.
Proof.
  intros Hs Hn%width_cases. unfold string_to_uinteger.
  destruct (string_to_int_value debug [] s negative x false UNIT_NONE Hs) as (r & Hr & Er & ->).
  destruct negative; [done|]. cbn [andb]. rewrite decide_True by done. cbn [result_bind of_sign]. rewrite uint512_bit_size_value by done.
  pose proof (uval_bound r Hr) as Hb. rewrite <- Er. pose proof (bits_over (uval r) (8 * Z.of_nat n) ltac:(lia) ltac:(lia)) as Hbits.
  destruct Hr as [Hlen Hw]. destruct (decide (uval r < 2 ^ (8 * Z.of_nat n))).
  - rewrite decide_False by lia. f_equal. apply le_of_number; auto. lia.
  - rewrite decide_True; [done|]. split; [|lia]. intros E. rewrite E in *. lia.
Qed.

(** What a type of signed integers accepts. *)
Definition accepted (n : nat) (v : Z) : Prop :=
  - 2 ^ (8 * Z.of_nat n - 1) <= v < 2 ^ (8 * Z.of_nat n - 1) \/ lowest_number n v.

#[export] Instance accepted_dec n v : Decision (accepted n v).
Proof. unfold accepted. apply _. Defined.

(** The test of the size of the number and of the lowest one. *)
Lemma signed_test n v : int512_wf v -> n ∈ [1; 2; 4; 8; 16; 32]%nat ->
  (if decide (int512_bit_size v > 8 * Z.of_nat n - 1)
   then if decide (int512_bit_size v = 8 * Z.of_nat n) then is_lowest v (8 * Z.of_nat n) else Ok false
   else Ok true) = Ok (bool_decide (accepted n (sval v))).
Proof.
  intros Hv Hn. rewrite int512_bit_size_value by done. destruct (int512_uval_sval v Hv) as (Hb & _ & _).
  assert (1 <= n <= 32)%nat as Hr by (set_unfold in Hn; lia).
  pose proof (pow2_split (8 * Z.of_nat n - 1) (8 * Z.of_nat n) ltac:(lia)) as Htwice.
  replace (8 * Z.of_nat n - (8 * Z.of_nat n - 1)) with 1 in Htwice by lia.
  pose proof (Z.pow_lt_mono_r 2 (8 * Z.of_nat n - 1) 511 ltac:(lia) ltac:(lia) ltac:(lia)) as Hmax.
  unfold accepted, lowest_number. set (k := 8 * Z.of_nat n) in *.
  destruct (decide (sval v = - 2 ^ 511)) as [E|E].
  - rewrite decide_True by lia. rewrite decide_False by lia. f_equal. symmetry. apply bool_decide_eq_false. rewrite E.
    pose proof (pow2_pos (k - 1) ltac:(lia)). intros [?|[?|[? _]]]; lia.
  - pose proof (bits_over (Z.abs (sval v)) (k - 1) ltac:(lia) ltac:(lia)) as H1.
    pose proof (bits_over (Z.abs (sval v)) k ltac:(lia) ltac:(lia)) as H2.
    set (size := bits (Z.abs (sval v))) in *. destruct (decide (size > k - 1)).
    + destruct (decide (size = k)).
      * pose proof (is_lowest_value n v Hv Hn) as Hlow. fold k in Hlow. rewrite Hlow by lia. f_equal. apply bool_decide_ext.
        unfold lowest_number. fold k. split; [by right|]. intros [?|?]; [left; lia|done].
      * f_equal. symmetry. apply bool_decide_eq_false. intros [?|[?|[? _]]]; lia.
    + f_equal. symmetry. apply bool_decide_eq_true. left. lia.
Qed.

Lemma string_to_integer_number s negative x n : number_text [] s negative x -> n ∈ integer_widths ->
  string_to_integer debug s (8 * Z.of_nat n) =
    let v := smod (signed_number negative x) in
    if decide (accepted n v) then Ok (le n v) else Throw out_of_range.
Proof.
  intros Hs Hn%width_cases. destruct Hn as [Hn Hcase]. unfold string_to_integer.
  destruct (string_to_int_value debug [] s negative x true UNIT_NONE Hs) as (r & Hr & Er & ->).
  rewrite andb_false_r. rewrite decide_True by done. cbn [result_bind].
  destruct (of_sign_value negative r x Hr Er) as [Hw Ew]. destruct (int512_of_uint512_sval _ Hw) as [Hv Hsv].
  set (v := int512_of_uint512 (of_sign negative r)) in *.
  rewrite Ew, smod_mod in Hsv. cbv zeta. rewrite <- Hsv.
  assert ((if decide (8 * Z.of_nat n <> 512 /\ int512_bit_size v > 8 * Z.of_nat n - 1)
    then if decide (int512_bit_size v = 8 * Z.of_nat n) then is_lowest v (8 * Z.of_nat n) else Ok false
    else Ok true) = Ok (bool_decide (accepted n (sval v)))) as ->.
  { destruct (decide (n = 64%nat)) as [->|Hne].
    - rewrite decide_False by (intros [? _]; done). f_equal. symmetry. apply bool_decide_eq_true. left.
      destruct (int512_uval_sval v Hv) as (Hb & _ & _). done.
    - rewrite <- signed_test by (done || by apply Hcase).
      destruct (decide (int512_bit_size v > 8 * Z.of_nat n - 1)); [by rewrite decide_True by lia|by rewrite decide_False by lia]. }
  cbn [result_bind]. destruct (decide (accepted n (sval v))) as [Ha|Ha].
  - rewrite bool_decide_eq_true_2 by done. cbn [negb]. f_equal. destruct (int512_words_wf v Hv) as [Hlen Hl].
    apply le_of_number; [lia|done..|]. fold (int512_uval v). by destruct (int512_uval_sval v Hv) as (_ & -> & _).
  - by rewrite bool_decide_eq_false_2.
Qed.

(** ** From bytes to text *)

(** The text of the bytes of an unsigned number, however many zeros follow. *)
Lemma uinteger_to_string_text b k n base : Forall byte b -> (length b = n)%nat -> (n + k <= 64)%nat -> base ∈ text_bases ->
  exists s, uinteger_to_string (b ++ replicate k 0) (Z.of_nat n) base = Ok s /\
    forall negative : bool, number_text [] ((if negative then (str: "-") else []) ++ s) negative (of_le b).
Proof.
  intros Hb Hn Hk Hbase. unfold uinteger_to_string. pose proof (unsigned_byte_size b k). rewrite decide_False by lia.
  destruct (words_of_bytes_value (b ++ replicate k 0)) as (w & -> & Hw & Ew).
  { apply Forall_app_2; [done|]. by apply Forall_replicate. }
  { rewrite length_app, length_replicate. lia. }
  rewrite of_le_app, of_le_zeros, Z.mul_0_r, Z.add_0_r in Ew. cbn [result_bind].
  destruct (uint512_text (Uint512 w) base Hw Hbase) as (s & -> & Hs). exists s. by rewrite <- Ew.
Qed.

(** The number of the bytes. *)
Definition signed_value (n : nat) (b : list Z) : Z := signed (8 * Z.of_nat n) (of_le b).

Lemma sign_byte n b high : Forall byte b -> length b = n -> last b = Some high ->
  (signed 8 high < 0 <-> 2 ^ (8 * Z.of_nat n - 1) <= of_le b).
Proof.
  intros Hb Hn Hlast. apply last_Some in Hlast as [a ->]. rewrite length_app in Hn. cbn [length] in Hn.
  apply Forall_app in Hb as [Ha [Hh _]%Forall_cons]. pose proof (of_le_bound a Ha) as Hab. rewrite pow_256 in Hab.
  rewrite of_le_app, pow_256. cbn [of_le]. replace (8 * Z.of_nat n - 1) with (8 * Z.of_nat (length a) + 7) by lia.
  rewrite Z.pow_add_r by lia. change (2 ^ 7) with 128. unfold signed, byte, uword in *. change (2 ^ 8) with 256 in *.
  change (2 ^ (8 - 1)) with 128. set (p := 2 ^ (8 * Z.of_nat (length a))) in *. destruct (decide _); nia.
Qed.

Lemma ones_complement n m b : (n <= m)%nat -> length b = n ->
  of_le (b ++ replicate (m - n) 255) = of_le b - 2 ^ (8 * Z.of_nat n) + 2 ^ (8 * Z.of_nat m).
Proof.
  intros Hm Hn. rewrite of_le_app, of_le_ones, Hn, !pow_256. rewrite (pow2_split (8 * Z.of_nat n) (8 * Z.of_nat m)) by lia.
  replace (8 * Z.of_nat (m - n)) with (8 * Z.of_nat m - 8 * Z.of_nat n) by lia. ring.
Qed.

(** The absolute value of a negative number, from its words. *)
Lemma opposite_value w v : uint512_wf (Uint512 w) -> uval (Uint512 w) = v + 2 ^ 512 -> - 2 ^ 511 <= v < 0 ->
  bytes_of_words (int512_words (int512_neg (int512_of_words w))) = le 64 (- v).
Proof.
  intros Hw Ew Hv. destruct (int512_of_uint512_sval (Uint512 w) Hw) as [Hi Ei].
  rewrite int512_of_uint512_words in Hi, Ei. cbn [uf_value] in *. rewrite Ew in Ei.
  destruct (int512_neg_value _ Hi) as [Hneg En]. rewrite Ei in En. rewrite smod_opp_smod in En.
  destruct (int512_words_wf _ Hneg) as [Hlen Hl]. rewrite bytes_of_words_le, Hlen by done.
  apply le_low. change (8 * Z.of_nat (8 * 8)) with 512. fold (int512_uval (int512_neg (int512_of_words w))).
  destruct (int512_uval_sval _ Hneg) as (_ & -> & _). rewrite En, Z.mod_mod by done.
  change (8 * Z.of_nat 64) with 512. destruct (smod_spec (- (v + 2 ^ 512))) as [_ ->].
  replace (- (v + 2 ^ 512)) with (- v + (-1) * 2 ^ 512) by ring. by rewrite Z.mod_add.
Qed.

Lemma integer_to_string_text b n base : Forall byte b -> length b = n -> n ∈ integer_widths -> base ∈ text_bases ->
  exists s negative x, integer_to_string b (Z.of_nat n) base = Ok s /\ number_text [] s negative x /\
    signed_number negative x = signed_value n b /\ (negative = true <-> signed_value n b < 0).
Proof.
  intros Hb Hn Hw%width_cases Hbase. destruct Hw as [Hr _]. pose proof (of_le_bound b Hb) as Hbound. rewrite Hn, pow_256 in Hbound.
  pose proof (pow2_split (8 * Z.of_nat n - 1) (8 * Z.of_nat n) ltac:(lia)) as Htwice.
  replace (8 * Z.of_nat n - (8 * Z.of_nat n - 1)) with 1 in Htwice by lia. change (2 ^ 1) with 2 in Htwice.
  unfold integer_to_string. destruct (last b) as [high|] eqn:Hlast; [|apply last_None in Hlast; subst; cbn in *; lia].
  pose proof (sign_byte n b high Hb Hn Hlast) as Hsign.
  assert (signed_value n b = if decide (of_le b < 2 ^ (8 * Z.of_nat n - 1)) then of_le b else of_le b - 2 ^ (8 * Z.of_nat n))
    as -> by done.
  destruct (decide (signed 8 high < 0)) as [Hneg|Hpos].
  2: { destruct (uinteger_to_string_text b 0 n base Hb Hn ltac:(lia) Hbase) as (s & Hs & Ht). cbn [replicate] in Hs.
    rewrite app_nil_r in Hs. exists s, false, (of_le b). rewrite decide_True by lia. split; [done|]. split; [apply (Ht false)|]. split; [done|]. split; [done|lia]. }
  rewrite (decide_False (P := of_le b < _)) by lia. pose proof (value_byte_size_le b true) as Hsize.
  pose proof (signed_byte_size b high Hlast Hneg) as Hones. cbv zeta in Hones |- *.
  set (size := value_byte_size b true) in *. rewrite !decide_False by lia.
  assert (take size b ++ replicate (64 - size) 255 = b ++ replicate (64 - n) 255) as ->.
  { rewrite <- Hones at 2. rewrite <- app_assoc, <- replicate_add. do 2 f_equal. lia. }
  destruct (words_of_bytes_value (b ++ replicate (64 - n) 255)) as (w & -> & Hw & Ew).
  { apply Forall_app_2; [done|]. by apply Forall_replicate. }
  { rewrite length_app, length_replicate. lia. }
  rewrite ones_complement in Ew by lia. cbn [result_bind].
  set (v := of_le b - 2 ^ (8 * Z.of_nat n)) in *. change (8 * Z.of_nat 64) with 512 in Ew.
  pose proof (Z.pow_le_mono_r 2 (8 * Z.of_nat n - 1) 511 ltac:(lia) ltac:(lia)) as Hmax.
  rewrite (opposite_value w v Hw Ew) by lia.
  assert (0 <= - v < 2 ^ (8 * Z.of_nat n)) as Hv by lia. rewrite (le_small n 64 (- v)) by lia.
  destruct (uinteger_to_string_text (le n (- v)) (64 - n) n base) as (s & -> & Ht);
    [apply Forall_byte_le|apply length_le|lia|done|]. cbn [result_bind].
  rewrite of_le_le, wrap_small in Ht by done. exists ((str: "-") ++ s), true, (- v).
  split; [done|]. split; [apply (Ht true)|]. cbn [signed_number]. split; [lia|]. split; [lia|done].
Qed.
End Numbers.

(** ** Types of integers *)

Definition integer_type (t : struct_type_t) : option (bool * nat) :=
  match t with
  | STRUCT_TYPE_BITS8 | STRUCT_TYPE_UINT8 => Some (false, 1%nat)
  | STRUCT_TYPE_BITS16 | STRUCT_TYPE_UINT16 => Some (false, 2%nat)
  | STRUCT_TYPE_BITS32 | STRUCT_TYPE_UINT32 => Some (false, 4%nat)
  | STRUCT_TYPE_BITS64 | STRUCT_TYPE_UINT64 | STRUCT_TYPE_OID | STRUCT_TYPE_REFERENCE => Some (false, 8%nat)
  | STRUCT_TYPE_BITS128 | STRUCT_TYPE_UINT128 => Some (false, 16%nat)
  | STRUCT_TYPE_BITS256 | STRUCT_TYPE_UINT256 => Some (false, 32%nat)
  | STRUCT_TYPE_BITS512 | STRUCT_TYPE_UINT512 => Some (false, 64%nat)
  | STRUCT_TYPE_INT8 => Some (true, 1%nat)
  | STRUCT_TYPE_INT16 => Some (true, 2%nat)
  | STRUCT_TYPE_INT32 => Some (true, 4%nat)
  | STRUCT_TYPE_INT64 => Some (true, 8%nat)
  | STRUCT_TYPE_INT128 => Some (true, 16%nat)
  | STRUCT_TYPE_INT256 => Some (true, 32%nat)
  | STRUCT_TYPE_INT512 => Some (true, 64%nat)
  | _ => None
  end.

Section IntegerTypes.
Context `{libraries : ConvertLibraries} (debug : bool).

Lemma string_to_integer_type t is_signed n s size : integer_type t = Some (is_signed, n) ->
  n ∈ integer_widths /\ string_to_typed_buffer debug t s size =
    if is_signed : bool then string_to_integer debug s (8 * Z.of_nat n) else string_to_uinteger debug s (8 * Z.of_nat n).
Proof. unfold integer_widths. destruct t; intros [= <- <-]; (split; [set_solver|done]). Qed.

Lemma integer_type_to_string t is_signed n b base : integer_type t = Some (is_signed, n) ->
  typed_buffer_to_string t b base =
    if is_signed : bool then integer_to_string b (Z.of_nat n) base else uinteger_to_string b (Z.of_nat n) base.
Proof. by destruct t; intros [= <- <-]. Qed.

Lemma integer_bytes_round_trip t is_signed n b base size : integer_type t = Some (is_signed, n) ->
  length b = n -> Forall byte b -> base ∈ text_bases ->
  exists s, typed_buffer_to_string t b base = Ok s /\ string_to_typed_buffer debug t s size = Ok b.
Proof.
  intros Ht Hn Hb Hbase. destruct (string_to_integer_type t is_signed n [] size Ht) as [Hw _].
  rewrite (integer_type_to_string t is_signed n) by done. pose proof (of_le_bound b Hb) as Hbound.
  rewrite Hn, pow_256 in Hbound. destruct (width_cases n Hw) as [Hr _].
  pose proof (Z.pow_le_mono_r 2 (8 * Z.of_nat n) 512 ltac:(lia) ltac:(lia)) as Hmax.
  destruct is_signed.
  - destruct (integer_to_string_text b n base Hb Hn Hw Hbase) as (s & negative & x & -> & Hs & Ex & _). exists s. split; [done|].
    destruct (string_to_integer_type t true n s size Ht) as [_ ->]. rewrite (string_to_integer_number debug s negative x) by done.
    cbv zeta. rewrite Ex.
    pose proof (pow2_split (8 * Z.of_nat n - 1) (8 * Z.of_nat n) ltac:(lia)) as Htwice.
    replace (8 * Z.of_nat n - (8 * Z.of_nat n - 1)) with 1 in Htwice by lia. change (2 ^ 1) with 2 in Htwice.
    assert (2 ^ 512 = 2 * 2 ^ 511) as H512 by done.
    assert (- 2 ^ (8 * Z.of_nat n - 1) <= signed_value n b < 2 ^ (8 * Z.of_nat n - 1)) as Hv.
    { unfold signed_value, signed. destruct (decide _); lia. }
    rewrite smod_small by lia. rewrite decide_True by (by left). f_equal. rewrite <- (le_of_le b) at 2 by done. rewrite Hn.
    apply le_low. unfold signed_value, signed. destruct (decide _); [done|].
    replace (of_le b - _) with (of_le b + (-1) * 2 ^ (8 * Z.of_nat n)) by ring. rewrite Z.mod_add by lia. done.
  - destruct (uinteger_to_string_text b 0 n base Hb Hn ltac:(lia) Hbase) as (s & Hs & Htext). cbn [replicate] in Hs.
    rewrite app_nil_r in Hs. exists s. split; [done|]. destruct (string_to_integer_type t false n s size Ht) as [_ ->].
    rewrite (string_to_uinteger_number debug s false (of_le b)) by (done || exact (Htext false)).
    rewrite (Z.mod_small (of_le b)) by lia. rewrite decide_True by lia. rewrite <- Hn. by rewrite le_of_le.
Qed.
End IntegerTypes.

(** ** Units *)

(** The multiplicator of a unit: that of the table, or one. *)
Definition unit_value (name : list Z) : Z :=
  match find_key string_ltb name g_size_name_to_multiplicator with
  | Some (lo, hi) => lo + 2 ^ 64 * hi
  | None => 1
  end.

Definition byte_suffixes : list (list Z) := [[]; (str: "BYTE"); (str: "BYTES")].

Lemma drop_end {A} (a b : list A) : drop (length (a ++ b) - length b) (a ++ b) = b.
Proof. rewrite length_app. replace (length a + length b - length b)%nat with (length a) by lia. apply drop_app_length. Qed.

Lemma ends_with_app a b : ends_with (a ++ b) b = true.
Proof. unfold ends_with. rewrite drop_end, !bool_decide_eq_true_2; [done|done|rewrite length_app; lia]. Qed.

Lemma remove_end_app a b : remove_end (a ++ b) b = a.
Proof. unfold remove_end. rewrite length_app. replace (length a + length b - length b)%nat with (length a) by lia. apply take_app_length. Qed.

(** A text that ends with an E does not end with an S. *)
Lemma ends_with_last a x b y : x <> y -> ends_with (a ++ [x]) (b ++ [y]) = false.
Proof.
  intros Hxy. unfold ends_with. apply andb_false_iff. right. apply bool_decide_eq_false. intros H.
  set (k := (length (a ++ [x]) - length (b ++ [y]))%nat) in H.
  assert (last (a ++ [x]) = Some y) as Hy by (by rewrite <- (take_drop k (a ++ [x])), H, app_assoc, last_snoc).
  rewrite last_snoc in Hy. congruence.
Qed.

(** Each entry of the table is two words. *)
Lemma size_table_words : Forall (fun e => limbs [fst (snd e); snd (snd e)]) g_size_name_to_multiplicator.
Proof. closed_decide. Qed.

Section Units.
Context `{libraries : ConvertLibraries} (debug : bool).
Context (trim_text : forall s, Forall (fun c => is_space c = false) s -> snapdev_trim_string s = s).

Lemma size_to_multiplicator_value text name suffix :
  snapdev_to_upper (snapdev_trim_string text) = name ++ suffix -> suffix ∈ byte_suffixes ->
  Forall (fun c => is_space c = false) name -> name <> [] ->
  ends_with name (str: "BYTE") = false -> ends_with name (str: "BYTES") = false ->
  exists m, size_to_multiplicator debug text = Ok m /\ uint512_wf m /\ uval m = unit_value name.
Proof.
  intros Htext Hsuffix Hname Hne H1 H2. unfold size_to_multiplicator.
  assert (debug && negb (alphabetical g_size_name_to_multiplicator) = false) as -> by (by destruct debug; vm_compute).
  rewrite Htext. cbv zeta.
  assert ((if ends_with (name ++ suffix) (str: "BYTES") then snapdev_trim_string (remove_end (name ++ suffix) (str: "BYTES"))
    else if ends_with (name ++ suffix) (str: "BYTE") then snapdev_trim_string (remove_end (name ++ suffix) (str: "BYTE"))
    else name ++ suffix) = name) as ->.
  { unfold byte_suffixes in Hsuffix. set_unfold in Hsuffix. destruct_or! Hsuffix; subst suffix.
    - by rewrite app_nil_r, H1, H2.
    - pose proof (ends_with_last (name ++ (str: "BYT")) (chr: "E") (str: "BYTE") (chr: "S") ltac:(done)) as E.
      rewrite <- app_assoc in E. cbn [app] in E. rewrite E, ends_with_app, remove_end_app. by apply trim_text.
    - rewrite ends_with_app, remove_end_app. by apply trim_text. }
  rewrite decide_False by done. rewrite search_table_find by done. cbn [result_bind]. unfold unit_value.
  destruct (find_key string_ltb name g_size_name_to_multiplicator) as [[lo hi]|] eqn:E.
  - apply (find_elem string_ltb) in E; [|by apply alphabetical_sorted].
    pose proof size_table_words as Hw. rewrite Forall_forall in Hw. specialize (Hw _ E). cbn [fst snd] in Hw.
    assert (limbs [lo; hi; 0; 0; 0; 0; 0; 0]) as Hl by (inversion Hw as [|? ? ? Hw']; inversion Hw'; do 2 (constructor; [done|]); apply (limbs_replicate_0 6)).
    destruct (uint512_of_list [lo; hi; 0; 0; 0; 0; 0; 0]) as [m|e] eqn:Em; [|done].
    destruct (uint512_of_list_spec _ _ Hl Em) as [Hm Ev]. exists m. split; [done|]. split; [done|]. rewrite Ev. cbn [eval]. ring.
  - exists (uint512_of_u64 1). split; [done|]. split; [apply uint512_of_u64_wf; unfold uword; lia|apply uval_of_u64].
Qed.

Lemma first_word_small r : uint512_wf r -> uval r < 2 ^ 64 -> uf_value r !!! 0%nat = uval r.
Proof. intros Hr Hlt. destruct (uint512_small r Hr) as [Hs Hw]. by apply Hw, Hs. Qed.
End Units.

(** ** Strings *)

Definition string_type (t : struct_type_t) : option nat :=
  match t with
  | STRUCT_TYPE_P8STRING => Some 1%nat
  | STRUCT_TYPE_P16STRING => Some 2%nat
  | STRUCT_TYPE_P32STRING => Some 4%nat
  | _ => None
  end.

Section Strings.
Context `{libraries : ConvertLibraries} (debug : bool).

Lemma string_type_buffer t k s size : string_type t = Some k -> Z.of_nat (length s) < 2 ^ 32 ->
  string_to_typed_buffer debug t s size =
    if decide (Z.of_nat (length s) < 2 ^ (8 * Z.of_nat k)) then Ok (le k (Z.of_nat (length s)) ++ s) else Throw out_of_range.
Proof.
  intros Ht Hs. assert (string_to_typed_buffer debug t s size = string_to_buffer debug s k) as ->.
  { by destruct t; simplify_eq/=. }
  unfold string_to_buffer. assert (debug && negb (bool_decide (k = 1%nat \/ k = 2%nat \/ k = 4%nat)) = false) as ->.
  { apply andb_false_iff. right. apply negb_false_iff, bool_decide_eq_true. destruct t; simplify_eq/=; auto. }
  rewrite wrap_small by (unfold uword; lia). cbv zeta. repeat case_decide; done || lia.
Qed.

Lemma string_type_text t k b base : string_type t = Some k -> typed_buffer_to_string t b base = buffer_to_string b k.
Proof. by destruct t; intros [= <-]. Qed.

(** The bytes of a string, and any bytes that follow, are read back as the string. *)
Lemma buffer_to_string_text k s rest : Z.of_nat (length s) < 2 ^ (8 * Z.of_nat k) ->
  buffer_to_string (le k (Z.of_nat (length s)) ++ s ++ rest) k = Ok s.
Proof.
  intros Hs. unfold buffer_to_string. rewrite !length_app, length_le. rewrite decide_False by lia.
  rewrite take_app_length', of_le_le_small by (rewrite ?length_le; unfold uword; lia). cbv zeta. rewrite decide_False by lia.
  rewrite Nat2Z.id, drop_app_length' by (by rewrite length_le). by rewrite take_app_length.
Qed.

(** A string that is cut is refused. *)
Lemma buffer_to_string_cut k s n : Z.of_nat (length s) < 2 ^ (8 * Z.of_nat k) -> (n < k + length s)%nat ->
  buffer_to_string (take n (le k (Z.of_nat (length s)) ++ s)) k = Throw out_of_range.
Proof.
  intros Hs Hn. unfold buffer_to_string. rewrite length_take, length_app, length_le.
  destruct (decide (n < k)%nat); [by rewrite decide_True by lia|]. rewrite decide_False by lia.
  rewrite take_take, Nat.min_l, take_app_length', of_le_le_small by (rewrite ?length_le; unfold uword; lia).
  by rewrite decide_True by lia.
Qed.

(** Characters are padded with zeros, which end the string. *)
Lemma char_round_trip s size : (0 < size)%nat -> (length s <= size)%nat -> Forall (fun c => c <> NUL) s ->
  char_to_buffer s size = Ok (s ++ replicate (size - length s) 0) /\
  buffer_to_char (s ++ replicate (size - length s) 0) (Z.of_nat size) = Ok s.
Proof.
  intros Hsize Hs Hnul. unfold char_to_buffer, buffer_to_char. rewrite !decide_False by lia. split; [done|].
  rewrite length_app, length_replicate. rewrite decide_False by lia.
  rewrite Nat2Z.id, take_ge by (rewrite length_app, length_replicate; lia). f_equal. by apply c_str_zeros.
Qed.
End Strings.

(** ** Main theorems *)

(** Simple functions for those of the libraries. *)
Definition example_libraries : ConvertLibraries := {|
  snapdev_to_upper := map (fun c => if decide ((chr: "a") <= c <= (chr: "z")) then c - 32 else c);
  snapdev_trim_string := fun s => rev (skip_spaces (rev (skip_spaces s)));
  snapdev_hex_to_bin := fun _ => Throw invalid_parameter;
  snapdev_bin_to_hex := fun s => s;
  snapdev_pow10 := fun n => 10 ^ n;
  timespec_of_text := fun _ => Throw invalid_parameter;
  timespec_timestamp := fun _ => [];
  strto_float := fun size s => (false, replicate (Z.to_nat size) 0, []);
  float_text := fun _ => [];
  timegm_strptime := fun _ _ => 0;
  gmtime_text := fun _ => [];
|}.


(** The names of the types are found by the binary search: whatever the case
    of the letters, [name_to_struct_type()] returns the type of that name in the
    table and nothing for any other name, and every type but the unions is found
    by the name [to_string()] gives it. *)
Theorem struct_type_names (debug : bool) (to_upper : list Z -> list Z) name :
  name_to_struct_type debug to_upper name = Ok (find_key string_ltb (to_upper name) g_name_to_struct_type) /\
  (forall t, to_upper (struct_type_text t) = struct_type_text t ->
    name_to_struct_type debug to_upper (struct_type_text t) =
      Ok (if decide (t ∈ [STRUCT_TYPE_UNION; STRUCT_TYPE_UNION_ARRAY8; STRUCT_TYPE_UNION_ARRAY16; STRUCT_TYPE_UNION_ARRAY32])
          then None else Some t)).
Proof.
  assert (forall n, name_to_struct_type debug to_upper n = Ok (find_key string_ltb (to_upper n) g_name_to_struct_type)) as H.
  { intros n. unfold name_to_struct_type. rewrite search_table_find by (by vm_compute). by destruct debug; vm_compute. }
  split; [apply H|]. intros t Ht. rewrite H, Ht. f_equal. by destruct t; vm_compute.
Qed.

Lemma struct_type_names_witness :
  name_to_struct_type true (snapdev_to_upper (ConvertLibraries := example_libraries)) (struct_type_text STRUCT_TYPE_P16STRING)
    = Ok (Some STRUCT_TYPE_P16STRING).
Proof. by rewrite (proj2 (struct_type_names true _ []) STRUCT_TYPE_P16STRING). Defined.

(** C30: a number is read from its text: spaces, a sign, a binary, octal, decimal
    or hexadecimal numeral, and spaces.  It is first taken modulo 2^512, between
    -2^511 and 2^511 - 1 for a signed type, whatever its size: nothing detects that
    it has more bits ([number_over_512_bits], [number_of_512_bits]).  When what this
    gives is in the range of the type its bytes are the result, two's complement for
    a signed type; otherwise it is out of range, except that 2^63, 2^127 and 2^255
    are taken for the lowest number of 64, 128 and 256 bits.  A minus sign is an
    invalid unsigned number, and so is any text that follows a number. *)
Theorem convert_integers `{libraries : ConvertLibraries} (debug : bool) t is_signed n tail s negative x size :
  integer_type t = Some (is_signed, n) -> number_text tail s negative x ->
  string_to_typed_buffer debug t s size =
    if negative && negb is_signed then Throw invalid_number
    else if decide (tail <> []) then Throw invalid_number
    else if is_signed : bool then
      let v := smod (signed_number negative x) in if decide (accepted n v) then Ok (le n v) else Throw out_of_range
    else if decide (x mod 2 ^ 512 < 2 ^ (8 * Z.of_nat n)) then Ok (le n x) else Throw out_of_range.
Proof.
  intros Ht Hs. destruct (string_to_integer_type debug t is_signed n s size Ht) as [Hn ->].
  destruct (decide (tail = [])) as [->|Htail].
  - rewrite (decide_False (P := [] <> [])) by auto. destruct is_signed.
    + rewrite andb_false_r. by apply (string_to_integer_number debug s negative x).
    + rewrite andb_true_r. by apply (string_to_uinteger_number debug s negative x).
  - rewrite (decide_True (P := tail <> [])) by done. unfold string_to_integer, string_to_uinteger. destruct is_signed.
    + destruct (string_to_int_value debug tail s negative x true UNIT_NONE Hs) as (r & _ & _ & ->).
      rewrite andb_false_r. by rewrite decide_False.
    + destruct (string_to_int_value debug tail s negative x false UNIT_NONE Hs) as (r & _ & _ & ->).
      rewrite andb_true_r. destruct negative; [done|]. by rewrite decide_False.
Qed.

Lemma convert_integers_witness :
  string_to_typed_buffer (libraries := example_libraries) true STRUCT_TYPE_INT16 (str: " -0x8000") 0 = Ok [0; 0x80].
Proof.
  assert (number_text [] (str: " -0x8000") true 0x8000) as Hs.
  { apply (NumberText [] (str: " ") true (str: "-") NUMBER_TYPE_HEXADECIMAL (str: "0x") (str: "8000") [] [] [8; 0; 0; 0]); try done.
    - closed_decide.
    - constructor. }
  rewrite (convert_integers (libraries := example_libraries) true STRUCT_TYPE_INT16 true 2 [] (str: " -0x8000") true 0x8000 0);
    [by vm_compute|done|exact Hs].
Defined.

(** 2^512 + 5 is 5. *)
Example number_over_512_bits :
  string_to_typed_buffer (libraries := example_libraries) true STRUCT_TYPE_UINT8 ((str: "0x1") ++ replicate 127 48 ++ (str: "5")) 0 = Ok [5].
Proof. by vm_compute. Qed.

(** 2^511 is the lowest number. *)
Example number_of_512_bits :
  string_to_typed_buffer (libraries := example_libraries) true STRUCT_TYPE_INT512 ((str: "0x8") ++ replicate 127 48) 0 = Ok (le 64 (- 2 ^ 511)).
Proof. by vm_compute. Qed.

(** A size is a number with a unit: it is multiplied by the value of the unit
    in the table, with or without BYTE or BYTES after it, modulo 2^512 and then
    checked against the number of bits asked for; the value of a unit that is not
    in the table is one. *)
Theorem convert_sizes `{libraries : ConvertLibraries} (debug : bool) tail s x name suffix max_size :
  (forall s, Forall (fun c => is_space c = false) s -> snapdev_trim_string s = s) ->
  number_text tail s false x -> tail <> [] ->
  snapdev_to_upper (snapdev_trim_string tail) = name ++ suffix -> suffix ∈ byte_suffixes ->
  Forall (fun c => is_space c = false) name -> name <> [] ->
  ends_with name (str: "BYTE") = false -> ends_with name (str: "BYTES") = false -> 0 <= max_size <= 64 ->
  convert_to_uint debug s max_size UNIT_SIZE =
    let v := (x * unit_value name) mod 2 ^ 512 in
    if decide (v < 2 ^ max_size) then Ok v else Throw out_of_range.
Proof.
  intros Htrim Hs Htail Htext Hsuffix Hname Hne H1 H2 Hmax. unfold convert_to_uint.
  destruct (string_to_int_value debug tail s false x false UNIT_SIZE Hs) as (r & Hr & Er & ->). cbn [andb].
  rewrite decide_False by done.
  destruct (size_to_multiplicator_value debug Htrim tail name suffix) as (m & -> & Hm & Em); [done..|]. cbn [result_bind].
  destruct (uint512_mul_assign_value r m Hr Hm) as (v & -> & Hv & Ev). cbn [result_bind of_sign].
  rewrite Er, Em, Z.mul_mod_idemp_l in Ev by done. rewrite uint512_bit_size_value by done. cbv zeta. rewrite <- Ev.
  pose proof (bits_over (uval v) max_size) as Hbits. pose proof (uval_bound v Hv) as Hb. pose proof (Z.pow_le_mono_r 2 max_size 64).
  destruct (decide (uval v < 2 ^ max_size)).
  - rewrite decide_False by lia. f_equal. apply first_word_small; [done|lia].
  - by rewrite decide_True by lia.
Qed.

Lemma convert_sizes_witness :
  convert_to_uint (libraries := example_libraries) true (str: "3 kibiBytes ") 32 UNIT_SIZE = Ok 3072.
Proof.
  rewrite (convert_sizes (libraries := example_libraries) true (str: "kibiBytes ") (str: "3 kibiBytes ") 3 (str: "KIBI") (str: "BYTES") 32);
    try done; try closed_decide.
  - intros s Hs. cbn. assert (forall l, Forall (fun c => is_space c = false) l -> skip_spaces l = l) as H.
    { intros l Hl. apply skip_spaces_none. intros c Hc. destruct Hl; [done|]. by injection Hc as <-. }
    rewrite (H s) by done. rewrite (H (rev s)) by (by apply Forall_rev). apply rev_involutive.
  - apply (NumberText (str: "kibiBytes ") [] false [] NUMBER_TYPE_DECIMAL [] (str: "3") [] (str: " ") [3]); try done; try closed_decide.
    + by constructor.
    + by intros c [= <-].
Defined.

(** C31: whatever the bytes of an integer, the text made of them in base 2, 8, 10
    or 16 gives them back: for every type of integers, signed or not. *)
Theorem integers_round_trip `{libraries : ConvertLibraries} (debug : bool) t is_signed n b base size :
  integer_type t = Some (is_signed, n) -> length b = n -> Forall byte b -> base ∈ [2; 8; 10; 16] ->
  exists s, typed_buffer_to_string t b base = Ok s /\ string_to_typed_buffer debug t s size = Ok b.
Proof. apply integer_bytes_round_trip. Qed.

Lemma integers_round_trip_witness :
  exists s, typed_buffer_to_string (libraries := example_libraries) STRUCT_TYPE_INT32 [0; 0; 0; 128] 16 = Ok s /\
    string_to_typed_buffer (libraries := example_libraries) false STRUCT_TYPE_INT32 s 0 = Ok [0; 0; 0; 128].
Proof.
  apply (integers_round_trip (libraries := example_libraries) false STRUCT_TYPE_INT32 true 4); [done|done|closed_decide|set_solver].
Defined.

(** A string is stored after its size and read back, whatever the bytes that
    follow it; a string too long for the bytes of its size is refused, and so are
    its bytes when some are missing.  The characters of a CHAR field are padded
    with zeros and read up to the first one; versions and magic words are read as
    they are written. *)
Theorem strings_round_trip `{libraries : ConvertLibraries} (debug : bool) t s rest size base :
  Z.of_nat (length s) < 2 ^ 32 ->
  (forall k, string_type t = Some k ->
    if decide (Z.of_nat (length s) < 2 ^ (8 * Z.of_nat k))
    then exists b, string_to_typed_buffer debug t s size = Ok b /\ length b = (k + length s)%nat /\
      typed_buffer_to_string t (b ++ rest) base = Ok s /\
      forall n, (n < length b)%nat -> typed_buffer_to_string t (take n b) base = Throw out_of_range
    else string_to_typed_buffer debug t s size = Throw out_of_range) /\
  ((0 < size)%nat -> (length s <= size)%nat -> Z.of_nat size < 2 ^ 64 -> Forall (fun c => c <> NUL) s ->
    exists b, string_to_typed_buffer debug STRUCT_TYPE_CHAR s size = Ok b /\ length b = size /\
      typed_buffer_to_string STRUCT_TYPE_CHAR b (Z.of_nat size) = Ok s) /\
  (forall v, version_wf v ->
    exists b, string_to_typed_buffer debug STRUCT_TYPE_VERSION (version_text v) size = Ok b /\ length b = 4%nat /\
      typed_buffer_to_string STRUCT_TYPE_VERSION b base = Ok (version_text v)) /\
  (s ∈ dbtypes -> string_to_typed_buffer debug STRUCT_TYPE_MAGIC s size = Ok s /\
    typed_buffer_to_string STRUCT_TYPE_MAGIC s base = Ok s).
Proof.
  intros Hs. split_and!.
  - intros k Ht. rewrite (string_type_buffer debug t k) by done. destruct (decide _) as [Hk|]; [|done].
    eexists. split; [done|]. rewrite length_app, length_le. split; [done|]. rewrite (string_type_text t k) by done.
    rewrite <- app_assoc. split; [by apply buffer_to_string_text|]. intros n Hn. rewrite (string_type_text t k) by done.
    by apply buffer_to_string_cut.
  - intros H0 Hsize Hw Hnul. destruct (char_round_trip s size H0 Hsize Hnul) as [H1 H2]. eexists. split; [exact H1|].
    rewrite length_app, length_replicate. split; [lia|]. cbn [typed_buffer_to_string]. rewrite wrap_small by (unfold uword; lia). done.
  - intros v Hv. eexists. split; [by apply string_to_version_text|]. split; [apply length_le|by apply version_to_string_binary].
  - intros Hin. assert (length s = 4%nat) as Hlen.
    { assert (Forall (fun w => length w = 4%nat) dbtypes) as Hall by closed_decide. rewrite Forall_forall in Hall. by apply Hall. }
    cbn [string_to_typed_buffer typed_buffer_to_string]. unfold string_to_dbtype, dbtype_to_string.
    rewrite !decide_False by lia. by rewrite decide_True.
Qed.

Lemma strings_round_trip_witness :
  exists b, string_to_typed_buffer (libraries := example_libraries) true STRUCT_TYPE_P16STRING (str: "prinbee") 0 = Ok b /\
    typed_buffer_to_string (libraries := example_libraries) STRUCT_TYPE_P16STRING (b ++ [1; 2]) 0 = Ok (str: "prinbee").
Proof.
  destruct (strings_round_trip (libraries := example_libraries) true STRUCT_TYPE_P16STRING (str: "prinbee") [1; 2] 0 0 ltac:(done)) as (H & _).
  specialize (H 2%nat eq_refl). destruct (decide _) as [_|n]; [|exfalso; by apply n].
  destruct H as (b & H1 & _ & H2 & _). by exists b.
Defined.
