(* ===== verification/Cell.v ===== *)
(** * Cells of rows (prinbee/database/cell.cpp)

    A cell holds the value of a column: an integer of 512 bits, a floating point
    number or a string, depending on the type of the column.  In a row, integers
    are big-endian bytes.

    Reading past the end of a buffer is undefined in the code.  Floating point
    numbers are of a type [LD]; the conversions of the processor between long
    double and the bits of the other formats are parameters
    ([FloatConversions]). *)

From S2P Require Import Prelude Bytes Limbs BigLoops Uint512 Int512 BigText SortedMap StructTypes Convert.

(** Bits of float, double and long double (the two words of its 16 bytes). *)
Class FloatConversions (LD : Type) := {
  float_zero : LD;
  float32_bits : LD -> Z;
  float32_value : Z -> LD;
  float64_bits : LD -> Z;
  float64_value : Z -> LD;
  float128_words : LD -> Z * Z;
  float128_value : Z -> Z -> LD;
}.

(** ** Big-endian integers *)

Definition be (n : nat) (x : Z) : list Z := rev (le n x).
Definition of_be (l : list Z) : Z := of_le (rev l).

(** The [n] bytes at [pos], and the position after them. *)
Definition read_bytes (n : nat) (buffer : list Z) (pos : Z) : result (list Z * Z) :=
  match bytes_at buffer pos (Z.of_nat n) with
  | Some bytes => Ok (bytes, pos + Z.of_nat n)
  | None => Throw undefined_behavior
  end.

Definition read_be (n : nat) (buffer : list Z) (pos : Z) : result (Z * Z) :=
  let! '(bytes, pos) := read_bytes n buffer pos in Ok (of_be bytes, pos).

Definition read_uint8 : list Z -> Z -> result (Z * Z) := read_be 1.
Definition read_be_uint16 : list Z -> Z -> result (Z * Z) := read_be 2.
Definition read_be_uint32 : list Z -> Z -> result (Z * Z) := read_be 4.
Definition read_be_uint64 : list Z -> Z -> result (Z * Z) := read_be 8.

Definition push_uint8 (buffer : list Z) (value : Z) : list Z := buffer ++ be 1 value.
Definition push_be_uint16 (buffer : list Z) (value : Z) : list Z := buffer ++ be 2 value.
Definition push_be_uint32 (buffer : list Z) (value : Z) : list Z := buffer ++ be 4 value.
Definition push_be_uint64 (buffer : list Z) (value : Z) : list Z := buffer ++ be 8 value.

(** ** Columns (prinbee/data/schema.h) *)

Record schema_column := SchemaColumn {
  sc_column_id : Z;
  sc_name : list Z;
  sc_type : struct_type_t;
  sc_minimum_length : Z;
}.

(** ** The object *)

Section Cell.
Context {LD : Type} {floats : FloatConversions LD} {libraries : ConvertLibraries} (debug : bool).

Record cell := Cell {
  f_schema_column : schema_column;
  f_integer : uint512_t;
  f_float_value : LD;
  f_string : list Z;
}.

Definition new_cell (c : schema_column) : cell := Cell c uint512_zero float_zero [].

Definition schema (c : cell) : schema_column := f_schema_column c.
Definition type (c : cell) : struct_type_t := sc_type (f_schema_column c).
Definition has_fixed_type (c : cell) : bool := type_with_fixed_size (type c).
Definition is_void (c : cell) : bool := bool_decide (type c = STRUCT_TYPE_VOID).

Definition verify_cell_type (c : cell) (expected : list struct_type_t) : result unit :=
  if decide (type c ∈ expected) then Ok tt else Throw type_mismatch.

Definition with_integer (c : cell) (i : uint512_t) : cell := Cell (f_schema_column c) i (f_float_value c) (f_string c).
Definition with_float (c : cell) (d : LD) : cell := Cell (f_schema_column c) (f_integer c) d (f_string c).
Definition with_string (c : cell) (s : list Z) : cell := Cell (f_schema_column c) (f_integer c) (f_float_value c) s.

(** [f_integer.f_value[idx]] *)
Definition word (c : cell) (idx : nat) : Z := uf_value (f_integer c) !!! idx.

Definition cell_set_integer (c : cell) (value : Z) : cell :=
  with_integer c (Uint512 (wrap 64 value :: replicate 7 (if decide (value < 0) then 2 ^ 64 - 1 else 0))).
Definition cell_set_uinteger (c : cell) (value : Z) : cell := with_integer c (Uint512 (value :: replicate 7 0)).

(** ** Accessors *)

(** The accessors of the types that [expected] lists: an integer is read from the
    low word, and written in all of them. *)
Definition get_word (expected : list struct_type_t) (convert : Z -> Z) (c : cell) : result Z :=
  let! _ := verify_cell_type c expected in Ok (convert (word c 0)).
Definition set_signed (expected : list struct_type_t) (c : cell) (value : Z) : result cell :=
  let! _ := verify_cell_type c expected in Ok (cell_set_integer c value).
Definition set_unsigned (expected : list struct_type_t) (c : cell) (value : Z) : result cell :=
  let! _ := verify_cell_type c expected in Ok (cell_set_uinteger c value).
Definition get_signed_number (expected : list struct_type_t) (c : cell) : result int512_t :=
  let! _ := verify_cell_type c expected in Ok (int512_of_uint512 (f_integer c)).
Definition set_signed_number (expected : list struct_type_t) (c : cell) (value : int512_t) : result cell :=
  let! _ := verify_cell_type c expected in Ok (with_integer c (uint512_of_int512 value)).
Definition get_number (expected : list struct_type_t) (c : cell) : result uint512_t :=
  let! _ := verify_cell_type c expected in Ok (f_integer c).
Definition set_number (expected : list struct_type_t) (c : cell) (value : uint512_t) : result cell :=
  let! _ := verify_cell_type c expected in Ok (with_integer c value).

(** The conversion of the low word to the type of the result. *)
Definition as_int (w : Z) (x : Z) : Z := signed w (wrap w x).
Definition as_uint (w : Z) (x : Z) : Z := wrap w x.

Definition set_void (c : cell) : result cell := let! _ := verify_cell_type c [STRUCT_TYPE_VOID] in Ok c.

Definition get_oid : cell -> result Z := get_word [STRUCT_TYPE_OID] (as_uint 64).
Definition set_oid : cell -> Z -> result cell := set_unsigned [STRUCT_TYPE_OID].
Definition get_int8 : cell -> result Z := get_word [STRUCT_TYPE_INT8] (as_int 8).
Definition set_int8 : cell -> Z -> result cell := set_signed [STRUCT_TYPE_INT8].
Definition get_uint8 : cell -> result Z := get_word [STRUCT_TYPE_BITS8; STRUCT_TYPE_UINT8] (as_uint 8).
Definition set_uint8 : cell -> Z -> result cell := set_unsigned [STRUCT_TYPE_BITS8; STRUCT_TYPE_UINT8].
Definition get_int16 : cell -> result Z := get_word [STRUCT_TYPE_INT16] (as_int 16).
Definition set_int16 : cell -> Z -> result cell := set_signed [STRUCT_TYPE_INT16].
Definition get_uint16 : cell -> result Z := get_word [STRUCT_TYPE_BITS16; STRUCT_TYPE_UINT16] (as_uint 16).
Definition set_uint16 : cell -> Z -> result cell := set_unsigned [STRUCT_TYPE_BITS16; STRUCT_TYPE_UINT16].
Definition get_int32 : cell -> result Z := get_word [STRUCT_TYPE_INT32] (as_int 32).
Definition set_int32 : cell -> Z -> result cell := set_signed [STRUCT_TYPE_INT32].
Definition get_uint32 : cell -> result Z := get_word [STRUCT_TYPE_BITS32; STRUCT_TYPE_UINT32] (as_uint 32).
Definition set_uint32 : cell -> Z -> result cell := set_unsigned [STRUCT_TYPE_BITS32; STRUCT_TYPE_UINT32].
Definition cell_get_int64 : cell -> result Z := get_word [STRUCT_TYPE_INT64] (as_int 64).
Definition cell_set_int64 : cell -> Z -> result cell := set_signed [STRUCT_TYPE_INT64].
Definition get_uint64 : cell -> result Z := get_word [STRUCT_TYPE_BITS64; STRUCT_TYPE_UINT64] (as_uint 64).
Definition set_uint64 : cell -> Z -> result cell := set_unsigned [STRUCT_TYPE_BITS64; STRUCT_TYPE_UINT64].
Definition get_int128 : cell -> result int512_t := get_signed_number [STRUCT_TYPE_INT128].
Definition set_int128 : cell -> int512_t -> result cell := set_signed_number [STRUCT_TYPE_INT128].
Definition get_uint128 : cell -> result uint512_t := get_number [STRUCT_TYPE_UINT128].
Definition set_uint128 : cell -> uint512_t -> result cell := set_number [STRUCT_TYPE_UINT128].
Definition get_int256 : cell -> result int512_t := get_signed_number [STRUCT_TYPE_INT256].
Definition set_int256 : cell -> int512_t -> result cell := set_signed_number [STRUCT_TYPE_INT256].
Definition get_uint256 : cell -> result uint512_t := get_number [STRUCT_TYPE_UINT256].
Definition set_uint256 : cell -> uint512_t -> result cell := set_number [STRUCT_TYPE_UINT256].
Definition cell_get_int512 : cell -> result int512_t := get_signed_number [STRUCT_TYPE_INT512].
Definition cell_set_int512 : cell -> int512_t -> result cell := set_signed_number [STRUCT_TYPE_INT512].
Definition get_uint512 : cell -> result uint512_t := get_number [STRUCT_TYPE_UINT512].
Definition set_uint512 : cell -> uint512_t -> result cell := set_number [STRUCT_TYPE_UINT512].
Definition get_time : cell -> result Z := get_word [STRUCT_TYPE_TIME] (as_uint 64).
Definition set_time : cell -> Z -> result cell := set_unsigned [STRUCT_TYPE_TIME].
Definition get_time_ms : cell -> result Z := get_word [STRUCT_TYPE_MSTIME] (as_uint 64).
Definition set_time_ms : cell -> Z -> result cell := set_unsigned [STRUCT_TYPE_MSTIME].
Definition get_time_us : cell -> result Z := get_word [STRUCT_TYPE_USTIME] (as_uint 64).
Definition set_time_us : cell -> Z -> result cell := set_unsigned [STRUCT_TYPE_USTIME].

(** [set_time_us(timespec_ex)]; the signed computation of 64 bits may overflow. *)
Definition set_time_us_timespec (c : cell) (tv_sec tv_nsec : Z) : result cell :=
  let! _ := verify_cell_type c [STRUCT_TYPE_USTIME] in
  let us := tv_sec * 1000000 + tv_nsec ÷ 1000 in
  if decide (- 2 ^ 63 <= tv_sec * 1000000 < 2 ^ 63 /\ - 2 ^ 63 <= us < 2 ^ 63) then Ok (cell_set_uinteger c (wrap 64 us))
  else Throw undefined_behavior.

(** Floating point numbers, by their bits. *)
Definition get_float32 (c : cell) : result Z :=
  let! _ := verify_cell_type c [STRUCT_TYPE_FLOAT32] in Ok (float32_bits (f_float_value c)).
Definition set_float32 (c : cell) (value : Z) : result cell :=
  let! _ := verify_cell_type c [STRUCT_TYPE_FLOAT32] in Ok (with_float c (float32_value value)).
Definition get_float64 (c : cell) : result Z :=
  let! _ := verify_cell_type c [STRUCT_TYPE_FLOAT64] in Ok (float64_bits (f_float_value c)).
Definition set_float64 (c : cell) (value : Z) : result cell :=
  let! _ := verify_cell_type c [STRUCT_TYPE_FLOAT64] in Ok (with_float c (float64_value value)).
Definition get_float128 (c : cell) : result LD :=
  let! _ := verify_cell_type c [STRUCT_TYPE_FLOAT128] in Ok (f_float_value c).
Definition set_float128 (c : cell) (value : LD) : result cell :=
  let! _ := verify_cell_type c [STRUCT_TYPE_FLOAT128] in Ok (with_float c value).

Definition cell_get_version (c : cell) : result version_t :=
  let! _ := verify_cell_type c [STRUCT_TYPE_VERSION] in Ok (version_of_binary (wrap 32 (word c 0))).
Definition cell_set_version (c : cell) (value : version_t) : result cell := set_unsigned [STRUCT_TYPE_VERSION] c (to_binary value).

Definition cell_get_string (c : cell) : result (list Z) :=
  let! _ := verify_cell_type c [STRUCT_TYPE_P8STRING; STRUCT_TYPE_P16STRING; STRUCT_TYPE_P32STRING] in Ok (f_string c).
Definition cell_set_string (c : cell) (value : list Z) : result cell :=
  let! _ := verify_cell_type c [STRUCT_TYPE_P8STRING; STRUCT_TYPE_P16STRING; STRUCT_TYPE_P32STRING] in Ok (with_string c value).

(** ** Binary form *)

Definition column_id_to_binary (c : cell) (buffer : list Z) : list Z := push_be_uint16 buffer (sc_column_id (f_schema_column c)).
Definition column_id_from_binary (buffer : list Z) (pos : Z) : result (Z * Z) := read_be_uint16 buffer pos.

(** The words of [f_integer] from [n - 1] to 0. *)
Definition push_words (n : nat) (c : cell) (buffer : list Z) : list Z :=
  foldl (fun buffer idx => push_be_uint64 buffer (word c idx)) buffer (rev (seq 0 n)).

Definition push_string (n : nat) (c : cell) (buffer : list Z) : result (list Z) :=
  let size := Z.of_nat (length (f_string c)) in
  if decide (size >= 2 ^ (8 * Z.of_nat n)) then Throw out_of_bounds
  else Ok (buffer ++ be n size ++ f_string c).

Definition value_to_binary (c : cell) (buffer : list Z) : result (list Z) :=
  match type c with
  | STRUCT_TYPE_VOID => Ok buffer
  | STRUCT_TYPE_BITS8 | STRUCT_TYPE_UINT8 | STRUCT_TYPE_INT8 => Ok (push_uint8 buffer (word c 0))
  | STRUCT_TYPE_BITS16 | STRUCT_TYPE_UINT16 | STRUCT_TYPE_INT16 => Ok (push_be_uint16 buffer (word c 0))
  | STRUCT_TYPE_BITS32 | STRUCT_TYPE_UINT32 | STRUCT_TYPE_VERSION | STRUCT_TYPE_INT32 => Ok (push_be_uint32 buffer (word c 0))
  | STRUCT_TYPE_BITS64 | STRUCT_TYPE_UINT64 | STRUCT_TYPE_REFERENCE | STRUCT_TYPE_OID
  | STRUCT_TYPE_TIME | STRUCT_TYPE_MSTIME | STRUCT_TYPE_USTIME | STRUCT_TYPE_INT64 => Ok (push_words 1 c buffer)
  | STRUCT_TYPE_BITS128 | STRUCT_TYPE_NSTIME | STRUCT_TYPE_UINT128 | STRUCT_TYPE_INT128 => Ok (push_words 2 c buffer)
  | STRUCT_TYPE_BITS256 | STRUCT_TYPE_UINT256 | STRUCT_TYPE_INT256 => Ok (push_words 4 c buffer)
  | STRUCT_TYPE_BITS512 | STRUCT_TYPE_UINT512 | STRUCT_TYPE_INT512 => Ok (push_words 8 c buffer)
  | STRUCT_TYPE_FLOAT32 => Ok (push_be_uint32 buffer (float32_bits (f_float_value c)))
  | STRUCT_TYPE_FLOAT64 => Ok (push_be_uint64 buffer (float64_bits (f_float_value c)))
  | STRUCT_TYPE_FLOAT128 =>
      let '(high, low) := float128_words (f_float_value c) in
      Ok (push_be_uint64 (push_be_uint64 buffer high) low)
  | STRUCT_TYPE_CHAR =>
      let size := Z.to_nat (sc_minimum_length (f_schema_column c)) in
      if decide (size = O) then Ok buffer
      else Ok (buffer ++ f_string c ++ replicate (size - length (f_string c)) 0)
  | STRUCT_TYPE_P8STRING => push_string 1 c buffer
  | STRUCT_TYPE_P16STRING => push_string 2 c buffer
  | STRUCT_TYPE_P32STRING => push_string 4 c buffer
  | _ => Throw type_mismatch
  end.

(** [n] words, the highest first. *)
Fixpoint read_words (n : nat) (buffer : list Z) (pos : Z) (low : list Z) : result (list Z * Z) :=
  match n with
  | O => Ok (low, pos)
  | S n =>
      let! '(w, pos) := read_be_uint64 buffer pos in
      read_words n buffer pos (w :: low)
  end.

(** The words above those that were read. *)
Definition extend_words (is_signed : bool) (low : list Z) : list Z :=
  low ++ replicate (8 - length low) (if decide (is_signed = true /\ signed 64 (default 0 (last low)) < 0) then 2 ^ 64 - 1 else 0).

Definition read_number (is_signed : bool) (n : nat) (c : cell) (buffer : list Z) (pos : Z) : result (cell * Z) :=
  let! '(low, pos) := read_words n buffer pos [] in
  Ok (with_integer c (Uint512 (extend_words is_signed low)), pos).

(** An integer of at most 64 bits; [convert] is the conversion to the type of the
    value before it is given to set_integer(). *)
Definition read_integer (n : nat) (convert : Z -> Z) (c : cell) (buffer : list Z) (pos : Z) : result (cell * Z) :=
  let! '(v, pos) := read_be n buffer pos in Ok (cell_set_integer c (convert v), pos).

Definition cell_read_string (n : nat) (c : cell) (buffer : list Z) (pos : Z) : result (cell * Z) :=
  let! '(size, pos) := read_be n buffer pos in
  let! '(s, pos) := read_bytes (Z.to_nat size) buffer pos in
  Ok (with_string c s, pos).

Definition value_from_binary (c : cell) (buffer : list Z) (pos : Z) : result (cell * Z) :=
  match type c with
  | STRUCT_TYPE_VOID => Ok (c, pos)
  | STRUCT_TYPE_BITS8 | STRUCT_TYPE_UINT8 => let! '(v, pos) := read_uint8 buffer pos in Ok (cell_set_uinteger c v, pos)
  | STRUCT_TYPE_INT8 => read_integer 1 (signed 8) c buffer pos
  | STRUCT_TYPE_BITS16 | STRUCT_TYPE_UINT16 => read_integer 2 (fun v => v) c buffer pos
  | STRUCT_TYPE_INT16 => read_integer 2 (signed 16) c buffer pos
  | STRUCT_TYPE_BITS32 | STRUCT_TYPE_UINT32 | STRUCT_TYPE_VERSION => read_integer 4 (fun v => v) c buffer pos
  | STRUCT_TYPE_INT32 => read_integer 4 (signed 32) c buffer pos
  | STRUCT_TYPE_BITS64 | STRUCT_TYPE_UINT64 | STRUCT_TYPE_REFERENCE | STRUCT_TYPE_OID
  | STRUCT_TYPE_TIME | STRUCT_TYPE_MSTIME | STRUCT_TYPE_USTIME | STRUCT_TYPE_INT64 => read_integer 8 (signed 64) c buffer pos
  | STRUCT_TYPE_BITS128 | STRUCT_TYPE_UINT128 => read_number false 2 c buffer pos
  | STRUCT_TYPE_NSTIME | STRUCT_TYPE_INT128 => read_number true 2 c buffer pos
  | STRUCT_TYPE_BITS256 | STRUCT_TYPE_UINT256 => read_number false 4 c buffer pos
  | STRUCT_TYPE_INT256 => read_number true 4 c buffer pos
  | STRUCT_TYPE_BITS512 | STRUCT_TYPE_UINT512 | STRUCT_TYPE_INT512 => read_number false 8 c buffer pos
  | STRUCT_TYPE_FLOAT32 => let! '(v, pos) := read_be_uint32 buffer pos in Ok (with_float c (float32_value v), pos)
  | STRUCT_TYPE_FLOAT64 => let! '(v, pos) := read_be_uint64 buffer pos in Ok (with_float c (float64_value v), pos)
  | STRUCT_TYPE_FLOAT128 =>
      let! '(high, pos) := read_be_uint64 buffer pos in
      let! '(low, pos) := read_be_uint64 buffer pos in
      Ok (with_float c (float128_value high low), pos)
  | STRUCT_TYPE_CHAR =>
      let! '(s, pos) := read_bytes (Z.to_nat (sc_minimum_length (f_schema_column c))) buffer pos in
      Ok (with_string c (c_str s), pos)
  | STRUCT_TYPE_P8STRING => cell_read_string 1 c buffer pos
  | STRUCT_TYPE_P16STRING => cell_read_string 2 c buffer pos
  | STRUCT_TYPE_P32STRING => cell_read_string 4 c buffer pos
  | _ => Throw type_mismatch
  end.

(** ** Copies *)

(** How a value is kept: nothing, an integer, a floating point number, a string. *)
Inductive storage := IN_NOTHING | IN_INTEGER (is_signed : bool) | IN_FLOAT | IN_STRING.

(** The cases of the switch statements of copy_from(); [None]: type_mismatch. *)
Definition storage_of (t : struct_type_t) : option storage :=
  match t with
  | STRUCT_TYPE_VOID => Some IN_NOTHING
  | STRUCT_TYPE_BITS8 | STRUCT_TYPE_BITS16 | STRUCT_TYPE_BITS32 | STRUCT_TYPE_BITS64 | STRUCT_TYPE_BITS128 | STRUCT_TYPE_BITS256
  | STRUCT_TYPE_BITS512 | STRUCT_TYPE_UINT8 | STRUCT_TYPE_UINT16 | STRUCT_TYPE_UINT32 | STRUCT_TYPE_UINT64 | STRUCT_TYPE_UINT128
  | STRUCT_TYPE_UINT256 | STRUCT_TYPE_UINT512 | STRUCT_TYPE_REFERENCE | STRUCT_TYPE_OID | STRUCT_TYPE_VERSION => Some (IN_INTEGER false)
  | STRUCT_TYPE_INT8 | STRUCT_TYPE_INT16 | STRUCT_TYPE_INT32 | STRUCT_TYPE_INT64 | STRUCT_TYPE_INT128 | STRUCT_TYPE_INT256
  | STRUCT_TYPE_INT512 | STRUCT_TYPE_TIME | STRUCT_TYPE_MSTIME | STRUCT_TYPE_USTIME | STRUCT_TYPE_NSTIME => Some (IN_INTEGER true)
  | STRUCT_TYPE_FLOAT32 | STRUCT_TYPE_FLOAT64 | STRUCT_TYPE_FLOAT128 => Some IN_FLOAT
  | STRUCT_TYPE_CHAR | STRUCT_TYPE_P8STRING | STRUCT_TYPE_P16STRING | STRUCT_TYPE_P32STRING => Some IN_STRING
  | _ => None
  end.

(** The 16 bytes of a long double. *)
Definition float128_bytes (d : LD) : list Z := let '(high, low) := float128_words d in le 8 low ++ le 8 high.

(** The text of the value of [source], when the types differ. *)
Definition copy_text (source : cell) : result (list Z) :=
  match storage_of (type source) with
  | Some IN_NOTHING => Ok []
  | Some (IN_INTEGER _) => typed_buffer_to_string (type source) (bytes_of_words (uf_value (f_integer source))) 16
  | Some IN_FLOAT => typed_buffer_to_string (type source) (float128_bytes (f_float_value source)) 16
  | Some IN_STRING => Ok (f_string source)
  | None => Throw type_mismatch
  end.

(** The floating point number in the bytes of its type. *)
Definition float_of_bytes (t : struct_type_t) (bytes : list Z) : LD :=
  match t with
  | STRUCT_TYPE_FLOAT32 => float32_value (of_le bytes)
  | STRUCT_TYPE_FLOAT64 => float64_value (of_le bytes)
  | _ => float128_value (of_le (drop 8 bytes)) (of_le (take 8 bytes))
  end.

Definition copy_value (c : cell) (value : list Z) : result cell :=
  match storage_of (type c) with
  | Some IN_NOTHING => Ok c
  | Some (IN_INTEGER is_signed) =>
      let! buf := string_to_typed_buffer debug (if is_signed then STRUCT_TYPE_INT512 else STRUCT_TYPE_UINT512) value 0 in
      let! w := words_of_bytes buf in
      Ok (with_integer c (Uint512 w))
  | Some IN_FLOAT => let! buf := string_to_typed_buffer debug (type c) value 0 in Ok (with_float c (float_of_bytes (type c) buf))
  | Some IN_STRING => Ok (with_string c value)
  | None => Throw type_mismatch
  end.

Definition copy_from (c source : cell) : result cell :=
  if decide (type c = type source)
  then
    match storage_of (type source) with
    | Some IN_NOTHING => Ok c
    | Some (IN_INTEGER _) => Ok (with_integer c (f_integer source))
    | Some IN_FLOAT => Ok (with_float c (f_float_value source))
    | Some IN_STRING => Ok (with_string c (f_string source))
    | None => Throw type_mismatch
    end
  else let! value := copy_text source in copy_value c value.
End Cell.
Arguments cell : clear implicits.
