(* ===== verification/CellProps.v ===== *)
(** * Properties of the cells of rows

    The binary form of the values, what is read back from it, the order of the
    bytes, the accessors, and the copies between columns of other types. *)

From S2P Require Import Prelude Bytes Limbs BigLoops Uint512 Int512 BigText SortedMap StructTypes Convert ConvertText ConvertProps Cell.

(** ** Big-endian bytes *)

Lemma length_be n x : length (be n x) = n.
Proof. unfold be. by rewrite length_rev, length_le. Qed.

Lemma of_be_be n x : of_be (be n x) = wrap (8 * Z.of_nat n) x.
Proof. unfold of_be, be. by rewrite rev_involutive, of_le_le. Qed.

Lemma of_be_be_small n x : uword (8 * Z.of_nat n) x -> of_be (be n x) = x.
Proof. intros Hx. by rewrite of_be_be, wrap_small. Qed.

Lemma Forall_byte_be n x : Forall byte (be n x).
Proof. apply Forall_rev, Forall_byte_le. Qed.

Lemma be_low n x y : x mod 2 ^ (8 * Z.of_nat n) = y mod 2 ^ (8 * Z.of_nat n) -> be n x = be n y.
Proof. intros E. unfold be. by rewrite (le_low n x y). Qed.

Lemma read_bytes_split a b x : read_bytes (length b) (a ++ b ++ x) (Z.of_nat (length a)) = Ok (b, Z.of_nat (length (a ++ b))).
Proof. unfold read_bytes. rewrite bytes_at_split, length_app. by rewrite Nat2Z.inj_add. Qed.

Lemma read_be_split n a v x : read_be n (a ++ be n v ++ x) (Z.of_nat (length a)) =
  Ok (wrap (8 * Z.of_nat n) v, Z.of_nat (length (a ++ be n v))).
Proof.
  unfold read_be. pose proof (read_bytes_split a (be n v) x) as E. rewrite length_be in E. rewrite E. cbn [result_bind].
  by rewrite of_be_be.
Qed.

Lemma of_be_cons x l : of_be (x :: l) = x * 256 ^ Z.of_nat (length l) + of_be l.
Proof. unfold of_be. cbn [rev]. rewrite of_le_app, length_rev. cbn [of_le]. ring. Qed.

Lemma of_be_bound l : Forall byte l -> 0 <= of_be l < 256 ^ Z.of_nat (length l).
Proof. intros Hl. unfold of_be. rewrite <- (length_rev l). by apply of_le_bound, Forall_rev. Qed.

(** The order of memcmp() is that of the numbers. *)
Lemma string_ltb_of_be a b : length a = length b -> Forall byte a -> Forall byte b ->
  string_ltb a b = bool_decide (of_be a < of_be b).
Proof.
  revert b. induction a as [|x a IH]; intros [|y b] Hlen Ha Hb; try done.
  injection Hlen as Hlen. apply Forall_cons in Ha as [Hx Ha], Hb as [Hy Hb]. cbn [string_ltb]. rewrite (IH b) by done.
  rewrite !of_be_cons, Hlen. pose proof (of_be_bound a Ha) as Hba. pose proof (of_be_bound b Hb) as Hbb. rewrite Hlen in Hba.
  set (p := 256 ^ Z.of_nat (length b)) in *. apply eq_true_iff_eq. rewrite orb_true_iff, andb_true_iff, !bool_decide_eq_true.
  destruct (decide (x = y)) as [->|]; [|destruct (decide (x < y))]; split; intros H; lia || nia.
Qed.

(** ** The words of a number *)

Lemma bytes_of_words_app a b : bytes_of_words (a ++ b) = bytes_of_words a ++ bytes_of_words b.
Proof. unfold bytes_of_words. by rewrite fmap_app, concat_app. Qed.

Lemma rev_words ws : limbs ws -> rev (bytes_of_words ws) = be (8 * length ws) (eval ws).
Proof. intros Hw. unfold be. by rewrite bytes_of_words_le. Qed.

Lemma read_words_split ws a x low : limbs ws ->
  read_words (length ws) (a ++ rev (bytes_of_words ws) ++ x) (Z.of_nat (length a)) low =
    Ok (ws ++ low, Z.of_nat (length (a ++ rev (bytes_of_words ws)))).
Proof.
  revert a low. induction ws as [|w ws IH] using rev_ind; intros a low Hw; [by rewrite app_nil_r|].
  apply Forall_app in Hw as [Hw [Hx _]%Forall_cons]. rewrite length_app, Nat.add_1_r. cbn [read_words].
  rewrite bytes_of_words_app, rev_app_distr.
  assert (rev (bytes_of_words [w]) = be 8 w) as -> by (unfold bytes_of_words, be; cbn [fmap list_fmap concat]; by rewrite app_nil_r).
  rewrite <- !app_assoc. unfold read_be_uint64. rewrite read_be_split. cbn [result_bind].
  rewrite wrap_small by done. rewrite (app_assoc a (be 8 w)). rewrite IH by done. by rewrite <- !app_assoc.
Qed.

Lemma eval_ones k : eval (replicate k (2 ^ 64 - 1)) = modulus k - 1.
Proof. induction k as [|k IH]; [done|]. cbn [replicate eval]. rewrite IH, modulus_S. lia. Qed.

Lemma limbs_fill k (b : bool) : limbs (replicate k (if b then 2 ^ 64 - 1 else 0)).
Proof. apply Forall_replicate. by destruct b. Qed.

(** What is read back of [x] from [n] bytes. *)
Definition stored (is_signed : bool) (n : nat) (x : Z) : Z :=
  if is_signed then signed (8 * Z.of_nat n) (x mod 2 ^ (8 * Z.of_nat n)) else x mod 2 ^ (8 * Z.of_nat n).

(** ** Integers *)

Lemma set_integer_value {LD} (c : cell LD) v : - 2 ^ 63 <= v < 2 ^ 64 ->
  uint512_wf (f_integer (cell_set_integer c v)) /\ uval (f_integer (cell_set_integer c v)) = v mod 2 ^ 512.
Proof.
  intros Hv. unfold cell_set_integer, with_integer, uint512_wf, uval. cbn [f_integer uf_value]. split.
  - split; [done|]. constructor; [by apply wrap_uword|]. apply Forall_replicate. by destruct (decide _).
  - change (2 ^ 512) with (2 ^ 64 * modulus 7). cbn [eval]. destruct (decide (v < 0)) as [Hneg|Hpos].
    + rewrite eval_ones. unfold wrap. rewrite <- (Zmod_unique v (2 ^ 64) (-1) (v + 2 ^ 64)) by lia.
      rewrite <- (Zmod_unique v (2 ^ 64 * modulus 7) (-1) (v + 2 ^ 64 * modulus 7)); [lia| |lia].
      split; [|lia]. change (modulus 7) with (2 ^ 448). lia.
    + rewrite eval_replicate_0. unfold wrap. rewrite !Z.mod_small; [lia| |lia]. split; [lia|]. change (modulus 7) with (2 ^ 448). lia.
Qed.

Lemma set_uinteger_value {LD} (c : cell LD) v : uword 64 v ->
  uint512_wf (f_integer (cell_set_uinteger c v)) /\ uval (f_integer (cell_set_uinteger c v)) = v.
Proof.
  intros Hv. unfold cell_set_uinteger, with_integer, uint512_wf, uval. cbn [f_integer uf_value eval]. rewrite eval_replicate_0. split; [|lia].
  split; [done|]. constructor; [done|]. by apply Forall_replicate.
Qed.

Lemma word_low {LD} (c : cell LD) : uint512_wf (f_integer c) -> word c 0 = uval (f_integer c) mod 2 ^ 64.
Proof.
  intros [Hlen Hl]. unfold word, uval. destruct (uf_value (f_integer c)) as [|w ws]; [done|]. cbn [eval].
  apply Forall_cons in Hl as [Hw _]. unfold limb, uword in Hw. change ((w :: ws) !!! 0%nat) with w.
  by rewrite (Z.mul_comm (2 ^ 64)), Z.mod_add, Z.mod_small by lia.
Qed.

Lemma push_words_value {LD} n (c : cell LD) buffer : uint512_wf (f_integer c) -> (n <= 8)%nat ->
  push_words n c buffer = buffer ++ rev (bytes_of_words (take n (uf_value (f_integer c)))).
Proof.
  intros [Hlen Hl] Hn. unfold push_words. revert buffer. induction n as [|n IH]; intros buffer; [by rewrite app_nil_r|].
  rewrite seq_S, rev_app_distr. cbn [rev app foldl]. rewrite IH by lia. unfold push_be_uint64. rewrite take_S_total by lia.
  rewrite bytes_of_words_app, rev_app_distr, <- app_assoc. by do 2 f_equal.
Qed.

(** The words above those that were read are filled with the sign. *)
Lemma eval_extend_words is_signed low : limbs low -> (1 <= length low <= 8)%nat ->
  uint512_wf (Uint512 (extend_words is_signed low)) /\
  uval (Uint512 (extend_words is_signed low)) = stored is_signed (8 * length low) (eval low) mod 2 ^ 512.
Proof.
  intros Hl Hlen. unfold extend_words, uint512_wf, uval. cbn [uf_value]. pose proof (eval_bound low Hl) as Hb.
  unfold modulus in Hb. set (m := length low) in *.
  assert (8 * Z.of_nat (8 * m) = 64 * Z.of_nat m) as E by lia. unfold stored. rewrite E. rewrite (Z.mod_small (eval low)) by lia.
  pose proof (pow2_split (64 * Z.of_nat m) 512 ltac:(lia)) as Hp.
  assert (0 < 2 ^ (512 - 64 * Z.of_nat m)) as Hq by (apply Z.pow_pos_nonneg; lia).
  assert (modulus (8 - m) = 2 ^ (512 - 64 * Z.of_nat m)) as Em by (unfold modulus; f_equal; lia).
  split.
  { split; [rewrite length_app, length_replicate; lia|]. apply Forall_app_2; [done|]. apply Forall_replicate. by destruct (decide _). }
  rewrite eval_app. fold m. unfold modulus at 1. destruct (last low) as [high|] eqn:Hlast.
  2: { apply last_None in Hlast. subst m. subst low. cbn in Hlen. lia. }
  cbn [default from_option id]. apply last_Some in Hlast as [l ->]. apply Forall_app in Hl as [Hl [Hh _]%Forall_cons].
  pose proof (eval_bound l Hl) as Hbl. rewrite eval_app in *. cbn [eval] in *. rewrite Z.mul_0_r, Z.add_0_r in *.
  assert (signed 64 high < 0 <-> 2 ^ (64 * Z.of_nat m - 1) <= eval l + modulus (length l) * high) as Hsign.
  { assert (2 ^ (64 * Z.of_nat m - 1) = modulus (length l) * 2 ^ 63) as ->.
    { unfold modulus. rewrite <- Z.pow_add_r by lia. f_equal. subst m. rewrite length_app. cbn [length]. lia. }
    unfold signed. unfold limb, uword in Hh. set (p := modulus (length l)) in *. change (2 ^ (64 - 1)) with (2 ^ 63). destruct (decide _); nia. }
  set (e := eval l + modulus (length l) * high) in *. set (p := 2 ^ (64 * Z.of_nat m)) in *.
  set (q := 2 ^ (512 - 64 * Z.of_nat m)) in *. assert (0 <= e < 2 ^ 512) as He by (rewrite Hp; nia). destruct is_signed.
  - change (signed (64 * Z.of_nat m) e) with (if decide (e < 2 ^ (64 * Z.of_nat m - 1)) then e else e - p). destruct (decide (e < 2 ^ (64 * Z.of_nat m - 1))) as [Hpos|Hneg].
    + rewrite decide_False by (intros [_ ?]; lia). rewrite eval_replicate_0, Z.mod_small by done. lia.
    + rewrite decide_True by (split; [done|lia]). rewrite eval_ones, Em.
      rewrite <- (Zmod_unique (e - p) (2 ^ 512) (-1) (e - p + 2 ^ 512)) by (rewrite ?Hp; nia). rewrite Hp. ring.
  - rewrite decide_False by (intros [? _]; done). rewrite eval_replicate_0, Z.mod_small by done. lia.
Qed.

Lemma extend_words_full is_signed low : length low = 8%nat -> extend_words is_signed low = low.
Proof. intros E. unfold extend_words. rewrite E. by rewrite app_nil_r. Qed.

(** The columns of integers: whether the number that is read is signed, and the
    number of bytes. *)
Definition column_integer (t : struct_type_t) : option (bool * nat) :=
  match t with
  | STRUCT_TYPE_BITS8 | STRUCT_TYPE_UINT8 => Some (false, 1%nat)
  | STRUCT_TYPE_INT8 => Some (true, 1%nat)
  | STRUCT_TYPE_BITS16 | STRUCT_TYPE_UINT16 => Some (false, 2%nat)
  | STRUCT_TYPE_INT16 => Some (true, 2%nat)
  | STRUCT_TYPE_BITS32 | STRUCT_TYPE_UINT32 | STRUCT_TYPE_VERSION => Some (false, 4%nat)
  | STRUCT_TYPE_INT32 => Some (true, 4%nat)
  | STRUCT_TYPE_BITS64 | STRUCT_TYPE_UINT64 | STRUCT_TYPE_REFERENCE | STRUCT_TYPE_OID
  | STRUCT_TYPE_TIME | STRUCT_TYPE_MSTIME | STRUCT_TYPE_USTIME | STRUCT_TYPE_INT64 => Some (true, 8%nat)
  | STRUCT_TYPE_BITS128 | STRUCT_TYPE_UINT128 => Some (false, 16%nat)
  | STRUCT_TYPE_NSTIME | STRUCT_TYPE_INT128 => Some (true, 16%nat)
  | STRUCT_TYPE_BITS256 | STRUCT_TYPE_UINT256 => Some (false, 32%nat)
  | STRUCT_TYPE_INT256 => Some (true, 32%nat)
  | STRUCT_TYPE_BITS512 | STRUCT_TYPE_UINT512 => Some (false, 64%nat)
  | STRUCT_TYPE_INT512 => Some (true, 64%nat)
  | _ => None
  end.

Section Integers.
Context {LD : Type} {floats : FloatConversions LD}.
Implicit Types c d : cell LD.

Lemma be_word n c : uint512_wf (f_integer c) -> (n <= 8)%nat -> be n (word c 0) = be n (uval (f_integer c)).
Proof.
  intros Hc Hn. rewrite word_low by done. apply be_low. apply Z.mod_mod_divide. exists (2 ^ (64 - 8 * Z.of_nat n)).
  rewrite (pow2_split (8 * Z.of_nat n) 64) by lia. ring.
Qed.

Lemma be_words k u : uint512_wf u -> (k <= 8)%nat -> rev (bytes_of_words (take k (uf_value u))) = be (8 * k) (uval u).
Proof.
  intros [Hlen Hl] Hk. rewrite rev_words by by apply Forall_take. rewrite length_take_le by lia. apply be_low.
  unfold uval. rewrite (eval_take_drop k (uf_value u)) by lia. unfold modulus.
  replace (8 * Z.of_nat (8 * k)) with (64 * Z.of_nat k) by lia. rewrite (Z.mul_comm (2 ^ _)), Z.mod_add; [done|].
  apply Z.pow_nonzero; lia.
Qed.

Lemma push_words_be k c buffer : uint512_wf (f_integer c) -> (k <= 8)%nat ->
  push_words k c buffer = buffer ++ be (8 * k) (uval (f_integer c)).
Proof. intros Hc Hk. by rewrite push_words_value, be_words. Qed.

Lemma value_to_binary_integer c is_signed n buffer : column_integer (type c) = Some (is_signed, n) -> uint512_wf (f_integer c) ->
  value_to_binary c buffer = Ok (buffer ++ be n (uval (f_integer c))).
Proof.
  intros Ht Hc. unfold value_to_binary. destruct (type c); try done; injection Ht as <- <-;
    unfold push_uint8, push_be_uint16, push_be_uint32; rewrite ?be_word by (done || lia); rewrite ?push_words_be by (done || lia); done.
Qed.

Lemma read_number_value is_signed k d u a x : uint512_wf u -> (1 <= k <= 8)%nat ->
  exists d', read_number is_signed k d (a ++ be (8 * k) (uval u) ++ x) (Z.of_nat (length a)) =
      Ok (d', Z.of_nat (length (a ++ be (8 * k) (uval u)))) /\
    f_schema_column d' = f_schema_column d /\ uint512_wf (f_integer d') /\
    uval (f_integer d') = stored is_signed (8 * k) (uval u) mod 2 ^ 512.
Proof.
  intros Hu Hk. rewrite <- be_words by (done || lia). pose proof Hu as [Hlen Hl]. unfold read_number.
  assert (limbs (take k (uf_value u))) as Ht by by apply Forall_take.
  pose proof (read_words_split (take k (uf_value u)) a x [] Ht) as E. rewrite length_take_le in E by lia.
  rewrite E. cbn [result_bind]. rewrite app_nil_r. eexists. split; [done|]. split; [done|]. cbn [with_integer f_integer].
  destruct (eval_extend_words is_signed (take k (uf_value u)) Ht) as [Hwf ->]; [rewrite length_take_le; lia|].
  split; [done|]. rewrite length_take_le by lia. f_equal. unfold stored, uval. rewrite (eval_take_drop k (uf_value u)) by lia.
  unfold modulus. replace (8 * Z.of_nat (8 * k)) with (64 * Z.of_nat k) by lia.
  by rewrite (Z.mul_comm (2 ^ (64 * _)) (eval (drop _ _))), Z.mod_add by (apply Z.pow_nonzero; lia).
Qed.

(** [convert] gives the number that is kept. *)
Lemma read_integer_value is_signed n convert d u a x : uint512_wf u -> (1 <= n <= 8)%nat -> 
  (forall v, uword (8 * Z.of_nat n) v -> convert v = if is_signed : bool then signed (8 * Z.of_nat n) v else v) ->
  exists d', read_integer n convert d (a ++ be n (uval u) ++ x) (Z.of_nat (length a)) =
      Ok (d', Z.of_nat (length (a ++ be n (uval u)))) /\
    f_schema_column d' = f_schema_column d /\ uint512_wf (f_integer d') /\
    uval (f_integer d') = stored is_signed n (uval u) mod 2 ^ 512.
Proof.
  intros Hu Hn Hconvert. unfold read_integer. rewrite read_be_split. cbn [result_bind]. eexists. split; [done|]. split; [done|].
  pose proof (wrap_uword (8 * Z.of_nat n) (uval u) ltac:(lia)) as Hw. rewrite Hconvert by done.
  assert ((if is_signed then signed (8 * Z.of_nat n) (wrap (8 * Z.of_nat n) (uval u)) else wrap (8 * Z.of_nat n) (uval u))
    = stored is_signed n (uval u)) as -> by done.
  apply set_integer_value. pose proof (Z.pow_le_mono_r 2 (8 * Z.of_nat n) 64 ltac:(lia) ltac:(lia)).
  pose proof (Z.pow_le_mono_r 2 (8 * Z.of_nat n - 1) 63 ltac:(lia) ltac:(lia)).
  pose proof (pow2_split (8 * Z.of_nat n - 1) (8 * Z.of_nat n) ltac:(lia)) as Htwice.
  replace (8 * Z.of_nat n - (8 * Z.of_nat n - 1)) with 1 in Htwice by lia.
  unfold stored, signed, wrap, uword in *. destruct is_signed; [destruct (decide _)|]; lia.
Qed.

Lemma read_uint8_value d u a x : uint512_wf u ->
  exists d', (let! '(v, pos) := read_uint8 (a ++ be 1 (uval u) ++ x) (Z.of_nat (length a)) in Ok (cell_set_uinteger d v, pos)) =
      Ok (d', Z.of_nat (length (a ++ be 1 (uval u)))) /\
    f_schema_column d' = f_schema_column d /\ uint512_wf (f_integer d') /\
    uval (f_integer d') = stored false 1 (uval u) mod 2 ^ 512.
Proof.
  intros Hu. unfold read_uint8. rewrite read_be_split. cbn [result_bind]. eexists. split; [done|]. split; [done|].
  pose proof (wrap_uword 8 (uval u) ltac:(lia)) as Hw. unfold uword in Hw. change (8 * Z.of_nat 1) with 8.
  destruct (set_uinteger_value d (wrap 8 (uval u))) as [? ->]; [unfold uword; lia|]. split; [done|].
  unfold stored. change (8 * Z.of_nat 1) with 8. fold (wrap 8 (uval u)). rewrite Z.mod_small; lia.
Qed.

(** All the words are read: there is no sign to extend. *)
Lemma stored_all is_signed x : stored is_signed 64 x mod 2 ^ 512 = stored false 64 x mod 2 ^ 512.
Proof.
  unfold stored, signed. change (8 * Z.of_nat 64) with 512. destruct is_signed; [|done]. destruct (decide _); [done|].
  replace (x mod 2 ^ 512 - 2 ^ 512) with (x mod 2 ^ 512 + (-1) * 2 ^ 512) by ring. by rewrite Z.mod_add.
Qed.

Lemma value_from_binary_integer d u is_signed n a x : column_integer (type d) = Some (is_signed, n) -> uint512_wf u ->
  exists d', value_from_binary d (a ++ be n (uval u) ++ x) (Z.of_nat (length a)) = Ok (d', Z.of_nat (length (a ++ be n (uval u)))) /\
    f_schema_column d' = f_schema_column d /\ uint512_wf (f_integer d') /\
    uval (f_integer d') = stored is_signed n (uval u) mod 2 ^ 512.
Proof.
  intros Ht Hu. unfold value_from_binary. destruct (type d); try discriminate Ht; injection Ht as <- <-;
    lazymatch goal with
    | |- context [read_uint8] => by apply read_uint8_value
    | |- context [read_integer ?n ?f] => apply read_integer_value; [done|lia|done]
    | |- context [read_number ?s 8] => rewrite ?(stored_all true); apply (read_number_value s 8); [done|lia]
    | |- context [read_number ?s ?k] => apply (read_number_value s k); [done|lia]
    end.
Qed.
End Integers.

(** ** Sizes of the text of an integer of 64 bytes *)

Lemma byte_size_loop_spec v e k : (k <= length v)%nat ->
  byte_size_loop v e k = 0%nat /\ (forall j, (j < k)%nat -> v !!! j = e) \/
  exists i, (i < k)%nat /\ v !!! i <> e /\ (forall j, (i < j < k)%nat -> v !!! j = e) /\
    byte_size_loop v e k = if decide (e = 255 /\ 0 <= signed 8 (v !!! i) /\ S i <> length v) then S (S i) else S i.
Proof.
  induction k as [|k IH]; intros Hk; [left; split; [done|lia]|]. cbn [byte_size_loop].
  destruct (decide (v !!! k <> e)) as [Hne|Heq%dec_stable]; [right; exists k; split_and!; [lia|done|lia|done]|].
  destruct (IH ltac:(lia)) as [[-> Hall]|(i & Hi & Hne & Hall & ->)].
  - left. split; [done|]. intros j Hj. destruct (decide (j = k)) as [->|]; [done|apply Hall; lia].
  - right. exists i. split_and!; [lia|done| |done]. intros j Hj. destruct (decide (j = k)) as [->|]; [done|apply Hall; lia].
Qed.

Lemma take_replicate (v : list Z) e n : (n <= length v)%nat -> (forall j, (n <= j < length v)%nat -> v !!! j = e) ->
  v = take n v ++ replicate (length v - n) e.
Proof.
  intros Hn Hall. rewrite <- (take_drop n v) at 1. f_equal. apply (list_eq_same_length _ _ (length v - n)); rewrite ?length_drop, ?length_replicate; try done.
  intros i x y Hi Hx Hy. rewrite lookup_drop in Hx. apply lookup_replicate in Hy as [-> _].
  rewrite <- (list_lookup_total_correct _ _ _ Hx). apply Hall. lia.
Qed.

Lemma unsigned_size_bound b n : Forall byte b -> (n <= length b)%nat ->
  (value_byte_size b false <= n)%nat <-> of_le b < 2 ^ (8 * Z.of_nat n).
Proof.
  intros Hb Hn. split; intros H.
  - rewrite (take_replicate b 0 n Hn) at 1.
    + rewrite of_le_app, of_le_zeros. pose proof (of_le_bound (take n b) ltac:(by apply Forall_take)) as Hbound.
      rewrite length_take_le, pow_256 in Hbound by done. rewrite Z.mul_0_r. lia.
    + intros j Hj. unfold value_byte_size in H. destruct (length b) as [|m] eqn:E; [lia|]. cbn [andb] in H.
      destruct (byte_size_loop_spec b 0 (S m) ltac:(lia)) as [[_ Hall]|(i & Hi & _ & Hall & Es)]; [apply Hall; lia|].
      rewrite decide_False in Es by (by intros [? _]). apply Hall. lia.
  - rewrite <- (le_of_le b Hb), (le_small n (length b)) by (done || (pose proof (of_le_bound b Hb); lia)).
    etransitivity; [apply unsigned_byte_size|]. by rewrite length_le.
Qed.

(** The byte that holds the sign. *)
Lemma sign_of_byte b n : Forall byte b -> (1 <= n <= length b)%nat ->
  signed 8 (b !!! (n - 1)%nat) < 0 <-> 2 ^ (8 * Z.of_nat n - 1) <= of_le (take n b).
Proof.
  intros Hb Hn. apply (sign_byte n (take n b)); [by apply Forall_take|rewrite length_take_le; lia|].
  rewrite last_lookup, length_take_le by lia. rewrite lookup_take_lt by lia. rewrite <- Nat.sub_1_r.
  apply list_lookup_lookup_total_lt. lia.
Qed.

Lemma pow2_half k : 1 <= k -> 2 ^ k = 2 * 2 ^ (k - 1).
Proof. intros Hk. rewrite (pow2_split (k - 1) k) by lia. replace (k - (k - 1)) with 1 by lia. lia. Qed.

(** A negative number of 64 bytes: the bytes after the first [n] are ones. *)
Lemma negative_bytes b n : Forall byte b -> length b = 64%nat -> (1 <= n <= 64)%nat ->
  2 ^ 512 - 2 ^ (8 * Z.of_nat n - 1) <= of_le b <->
  signed 8 (b !!! (n - 1)%nat) < 0 /\ forall j, (n <= j < 64)%nat -> b !!! j = 255.
Proof.
  intros Hb Hlen Hn. pose proof (sign_of_byte b n Hb ltac:(lia)) as Hsign.
  pose proof (pow2_half (8 * Z.of_nat n) ltac:(lia)) as Htwice. split.
  - intros H. pose proof (of_le_bound b Hb) as Hbound. rewrite Hlen, pow_256 in Hbound. change (8 * Z.of_nat 64) with 512 in Hbound.
    set (x := of_le b - 2 ^ 512 + 2 ^ (8 * Z.of_nat n)). assert (0 <= x < 2 ^ (8 * Z.of_nat n)) as Hx by lia.
    assert (b = le n x ++ replicate (64 - n) 255) as Eb.
    { assert (Forall byte (le n x ++ replicate (64 - n) 255)) as Hl by (apply Forall_app_2; [apply Forall_byte_le|by apply Forall_replicate]).
      rewrite <- (le_of_le b Hb), <- (le_of_le _ Hl). rewrite ones_complement by (rewrite ?length_le; lia).
      rewrite of_le_le_small by done. rewrite length_app, length_le, length_replicate, Hlen. f_equal; [lia|].
      change (8 * Z.of_nat 64) with 512. lia. }
    split.
    + apply Hsign. rewrite Eb, take_app_length' by (symmetry; apply length_le). rewrite of_le_le_small by done. lia.
    + intros j Hj. rewrite Eb, lookup_total_app_r by (rewrite length_le; lia). rewrite length_le. apply lookup_total_replicate_2. lia.
  - intros [Hbyte%Hsign Htail]. rewrite (take_replicate b 255 n) by (rewrite ?Hlen; done || lia).
    rewrite Hlen, ones_complement by (rewrite ?length_take_le; lia). change (8 * Z.of_nat 64) with 512. lia.
Qed.

Lemma signed_size_bound b n : Forall byte b -> length b = 64%nat -> (1 <= n <= 64)%nat -> 2 ^ 511 <= of_le b ->
  (value_byte_size b true <= n)%nat <-> 2 ^ 512 - 2 ^ (8 * Z.of_nat n - 1) <= of_le b.
Proof.
  intros Hb Hlen Hn Hneg. rewrite (negative_bytes b n) by done.
  destruct (proj1 (negative_bytes b 64 Hb Hlen ltac:(lia))) as [Hhigh _]; [change (8 * Z.of_nat 64 - 1) with 511; lia|].
  cbn [Nat.sub] in Hhigh. unfold value_byte_size. rewrite Hlen, bool_decide_eq_true_2 by done. cbn [andb].
  pose proof (byte_size_loop_spec b 255 64 ltac:(lia)) as Hsize. rewrite Hlen in Hsize. assert (signed 8 255 < 0) as H255 by done. split.
  - intros H. destruct Hsize as [[_ Hall]|(i & Hi & _ & Hall & Es)]; [by split; intros; rewrite Hall by lia|].
    split; [|intros j Hj; apply Hall; destruct (decide _) in Es; lia].
    destruct (decide (i = n - 1)%nat) as [->|]; [|rewrite Hall; [done|]; destruct (decide _) in Es; lia].
    destruct (decide _) as [Hd|Hd] in Es; [lia|]. destruct (decide (n = 64)%nat) as [->|]; [done|].
    destruct (decide (0 <= signed 8 (b !!! (n - 1)%nat))); [|lia]. exfalso. apply Hd. split_and!; [done|done|lia].
  - intros [Hbyte Htail]. destruct Hsize as [[-> _]|(i & Hi & Hne & _ & ->)]; [lia|].
    assert (i < n)%nat as Hin by (destruct (decide (i < n)%nat); [done|]; destruct Hne; apply Htail; lia).
    destruct (decide _) as [(_ & Hpos & _)|]; [|lia]. destruct (decide (i = n - 1)%nat) as [->|]; lia.
Qed.

(** The limit of the size only refuses the numbers that are out of range. *)
Lemma uinteger_to_string_limit b n base : Forall byte b -> length b = 64%nat -> (n <= 64)%nat ->
  uinteger_to_string b (Z.of_nat n) base =
    if decide (of_le b < 2 ^ (8 * Z.of_nat n)) then uinteger_to_string b 64 base else Throw out_of_range.
Proof.
  intros Hb Hlen Hn. pose proof (unsigned_size_bound b n Hb ltac:(lia)) as Hsize. pose proof (value_byte_size_le b false).
  unfold uinteger_to_string. destruct (decide (of_le b < _)); [|by rewrite decide_True by lia].
  by rewrite !decide_False by lia.
Qed.

Lemma last_byte (b : list Z) high : length b = 64%nat -> last b = Some high -> b !!! 63%nat = high.
Proof. intros Hlen Hlast. rewrite last_lookup, Hlen in Hlast. by apply list_lookup_total_correct. Qed.

Lemma integer_to_string_limit b n base : Forall byte b -> length b = 64%nat -> (1 <= n <= 64)%nat ->
  integer_to_string b (Z.of_nat n) base =
    if decide (- 2 ^ (8 * Z.of_nat n - 1) <= signed_value 64 b < 2 ^ (8 * Z.of_nat n)) then integer_to_string b 64 base
    else Throw out_of_range.
Proof.
  intros Hb Hlen Hn. unfold integer_to_string. destruct (last b) as [high|] eqn:Hlast; [|apply last_None in Hlast; by subst].
  pose proof (last_byte b high Hlen Hlast) as Eh. pose proof (sign_of_byte b 64 Hb ltac:(lia)) as Hsign.
  cbn [Nat.sub] in Hsign. rewrite take_ge, Eh in Hsign by lia. change (8 * Z.of_nat 64 - 1) with 511 in Hsign.
  pose proof (of_le_bound b Hb) as Hbound. rewrite Hlen, pow_256 in Hbound. change (8 * Z.of_nat 64) with 512 in Hbound.
  pose proof (pow2_half (8 * Z.of_nat n) ltac:(lia)) as Htwice. pose proof (pow2_pos (8 * Z.of_nat n - 1) ltac:(lia)).
  assert (signed_value 64 b = if decide (of_le b < 2 ^ 511) then of_le b else of_le b - 2 ^ 512) as -> by done.
  destruct (decide (signed 8 high < 0)) as [Hneg|Hpos].
  2: { rewrite (decide_True (P := of_le b < 2 ^ 511)) by lia. rewrite uinteger_to_string_limit by (done || lia).
    destruct (decide (of_le b < _)); [by rewrite decide_True by lia|by rewrite decide_False by lia]. }
  rewrite (decide_False (P := of_le b < 2 ^ 511)) by lia. cbv zeta.
  pose proof (signed_size_bound b n Hb Hlen Hn ltac:(lia)) as Hsize. pose proof (value_byte_size_le b true) as Hle.
  pose proof (signed_byte_size b high Hlast Hneg) as Hones. cbv zeta in Hones. rewrite Hlen in Hones.
  destruct (decide (2 ^ 512 - 2 ^ (8 * Z.of_nat n - 1) <= of_le b)) as [Hr|Hr].
  2: { rewrite decide_True by lia. by rewrite decide_False by lia. }
  rewrite (decide_False (P := Z.of_nat (value_byte_size b true) > Z.of_nat n)) by lia.
  rewrite (decide_True (P := _ /\ _)) by lia. rewrite (decide_False (P := Z.of_nat (value_byte_size b true) > 64)) by lia.
  destruct (decide (64 < value_byte_size b true)%nat); [done|]. rewrite Hones.
  destruct (words_of_bytes_value b Hb) as (w & -> & Hw & Ew); [lia|]. cbn [result_bind].
  set (v := of_le b - 2 ^ 512) in *. rewrite (opposite_value w v Hw) by lia.
  rewrite uinteger_to_string_limit by (apply Forall_byte_le || (by rewrite ?length_le) || lia).
  rewrite of_le_le_small by (unfold uword; change (8 * Z.of_nat 64) with 512; lia). by rewrite decide_True by lia.
Qed.

(** ** Copies *)

Definition column_number (is_signed : bool) (u : uint512_t) : Z := if is_signed then smod (uval u) else uval u.

Section Copies.
Context {LD : Type} {floats : FloatConversions LD} {libraries : ConvertLibraries} (debug : bool).
Implicit Types c source : cell LD.

Lemma bytes_of_uint512 u : uint512_wf u ->
  Forall byte (bytes_of_words (uf_value u)) /\ length (bytes_of_words (uf_value u)) = 64%nat /\ of_le (bytes_of_words (uf_value u)) = uval u.
Proof.
  intros Hu. pose proof (uval_bound u Hu) as Hb. destruct Hu as [Hlen Hl]. rewrite bytes_of_words_le by done. rewrite Hlen.
  split; [apply Forall_byte_le|]. split; [apply length_le|]. by apply of_le_le_small.
Qed.

(** What a number may be to have a text: its type, and the positive numbers of as
    many bytes. *)
Definition has_text (is_signed : bool) (n : nat) (v : Z) : Prop :=
  (if is_signed then - 2 ^ (8 * Z.of_nat n - 1) else 0) <= v < 2 ^ (8 * Z.of_nat n).

#[export] Instance has_text_dec is_signed n v : Decision (has_text is_signed n v).
Proof. unfold has_text. apply _. Defined.

Lemma copy_text_integer source is_signed n : integer_type (type source) = Some (is_signed, n) -> uint512_wf (f_integer source) ->
  let v := column_number is_signed (f_integer source) in
  if decide (has_text is_signed n v)
  then exists s negative x, copy_text source = Ok s /\ number_text [] s negative x /\ signed_number negative x = v /\ (negative = true <-> v < 0)
  else copy_text source = Throw out_of_range.
Proof.
  intros Ht Hu. cbv zeta. destruct (bytes_of_uint512 (f_integer source) Hu) as (Hb & Hlen & Ev).
  assert (n ∈ integer_widths) as Hn by by apply (string_to_integer_type debug (type source) is_signed n [] 0).
  apply width_cases in Hn as [Hn _]. pose proof (uval_bound _ Hu) as Hbound.
  assert (copy_text source = typed_buffer_to_string (type source) (bytes_of_words (uf_value (f_integer source))) 16) as ->.
  { unfold copy_text. by destruct (type source). }
  rewrite (integer_type_to_string (type source) is_signed n) by done. unfold has_text, column_number. destruct is_signed.
  - rewrite integer_to_string_limit by done. unfold signed_value. rewrite Ev. change (8 * Z.of_nat 64) with 512.
    assert (smod (uval (f_integer source)) = signed 512 (uval (f_integer source))) as -> by (unfold smod; by rewrite Z.mod_small).
    destruct (decide _); [|done].
    destruct (integer_to_string_text (bytes_of_words (uf_value (f_integer source))) 64 16) as (s & negative & x & Hs & Htext & Ex & Hneg);
      [done|done|set_solver|set_solver|].
    exists s, negative, x. split; [done|]. split; [done|]. unfold signed_value in Ex, Hneg. by rewrite Ev in Ex, Hneg.
  - rewrite uinteger_to_string_limit by (done || lia). rewrite Ev.
    destruct (decide (uval (f_integer source) < _)); [rewrite decide_True by lia|by rewrite decide_False by lia].
    destruct (uinteger_to_string_text (bytes_of_words (uf_value (f_integer source))) 0 64 16) as (s & Hs & Htext); [done|done|lia|set_solver|].
    rewrite app_nil_r in Hs. rewrite Ev in Htext. exists s, false, (uval (f_integer source)). split; [done|]. split; [apply (Htext false)|]. split; [done|]. split; [done|lia].
Qed.

Lemma copy_value_integer c s negative x is_signed u : storage_of (type c) = Some (IN_INTEGER is_signed) -> uint512_wf u ->
  number_text [] s negative x -> uval u = signed_number negative x mod 2 ^ 512 ->
  copy_value debug c s = if negative && negb is_signed then Throw invalid_number else Ok (with_integer c u).
Proof.
  intros Ht Hu Hs Eu. unfold copy_value. rewrite Ht.
  assert (forall y, y mod 2 ^ 512 = uval u -> words_of_bytes (le 64 y) = Ok (uf_value u)) as Hwords.
  { intros y Ey. destruct (words_of_bytes_value (le 64 y)) as (w & -> & [Hw Hlw] & Ew); [apply Forall_byte_le|by rewrite length_le|].
    f_equal. destruct Hu as [Hlen Hl]. apply eval_inj; [done|done|cbn [uf_value] in *; congruence|].
    rewrite of_le_le in Ew. unfold wrap in Ew. change (8 * Z.of_nat 64) with 512 in Ew. change (uval (Uint512 w) = uval u). congruence. }
  destruct is_signed.
  - rewrite andb_false_r. change (string_to_typed_buffer debug STRUCT_TYPE_INT512 s 0) with (string_to_integer debug s (8 * Z.of_nat 64)).
    rewrite (string_to_integer_number debug s negative x) by (done || set_solver). cbv zeta.
    destruct (smod_spec (signed_number negative x)) as [Hr Em]. rewrite decide_True by (left; exact Hr). cbn [result_bind].
    rewrite Hwords by congruence. by destruct u.
  - rewrite andb_true_r. change (string_to_typed_buffer debug STRUCT_TYPE_UINT512 s 0) with (string_to_uinteger debug s (8 * Z.of_nat 64)).
    rewrite (string_to_uinteger_number debug s negative x) by (done || set_solver). destruct negative; [done|]. cbn [signed_number] in Eu.
    rewrite decide_True by (apply Z.mod_pos_bound; done). cbn [result_bind]. rewrite Hwords by done. by destruct u.
Qed.
End Copies.

(** ** Strings *)

Definition column_string (t : struct_type_t) : option nat :=
  match t with
  | STRUCT_TYPE_P8STRING => Some 1%nat
  | STRUCT_TYPE_P16STRING => Some 2%nat
  | STRUCT_TYPE_P32STRING => Some 4%nat
  | _ => None
  end.

Lemma read_string_value {LD} n (d : cell LD) s a x : Z.of_nat (length s) < 2 ^ (8 * Z.of_nat n) ->
  cell_read_string n d (a ++ (be n (Z.of_nat (length s)) ++ s) ++ x) (Z.of_nat (length a)) =
    Ok (with_string d s, Z.of_nat (length (a ++ be n (Z.of_nat (length s)) ++ s))).
Proof.
  intros Hs. unfold cell_read_string. rewrite <- !app_assoc, read_be_split. cbn [result_bind].
  rewrite wrap_small by (unfold uword; lia). rewrite Nat2Z.id, (app_assoc a). rewrite read_bytes_split. cbn [result_bind].
  by rewrite <- app_assoc.
Qed.

(** ** Accessors *)

Record accessor (LD : Type) := Accessor {
  a_types : list struct_type_t;
  a_signed : bool;
  a_bits : Z;
  a_get : cell LD -> result Z;
  a_set : cell LD -> Z -> result (cell LD);
}.
Arguments Accessor {LD} _ _ _ _ _.
Arguments a_types {LD} _.
Arguments a_signed {LD} _.
Arguments a_bits {LD} _.
Arguments a_get {LD} _ _.
Arguments a_set {LD} _ _ _.

(** The accessors of integers of at most 64 bits. *)
Definition word_accessors {LD} : list (accessor LD) := [
  Accessor [STRUCT_TYPE_OID] false 64 get_oid set_oid;
  Accessor [STRUCT_TYPE_INT8] true 8 get_int8 set_int8;
  Accessor [STRUCT_TYPE_BITS8; STRUCT_TYPE_UINT8] false 8 get_uint8 set_uint8;
  Accessor [STRUCT_TYPE_INT16] true 16 get_int16 set_int16;
  Accessor [STRUCT_TYPE_BITS16; STRUCT_TYPE_UINT16] false 16 get_uint16 set_uint16;
  Accessor [STRUCT_TYPE_INT32] true 32 get_int32 set_int32;
  Accessor [STRUCT_TYPE_BITS32; STRUCT_TYPE_UINT32] false 32 get_uint32 set_uint32;
  Accessor [STRUCT_TYPE_INT64] true 64 cell_get_int64 cell_set_int64;
  Accessor [STRUCT_TYPE_BITS64; STRUCT_TYPE_UINT64] false 64 get_uint64 set_uint64;
  Accessor [STRUCT_TYPE_TIME] false 64 get_time set_time;
  Accessor [STRUCT_TYPE_MSTIME] false 64 get_time_ms set_time_ms;
  Accessor [STRUCT_TYPE_USTIME] false 64 get_time_us set_time_us
].

Definition in_range (is_signed : bool) (w v : Z) : Prop :=
  if is_signed then - 2 ^ (w - 1) <= v < 2 ^ (w - 1) else 0 <= v < 2 ^ w.

Definition to_word (is_signed : bool) (w x : Z) : Z := if is_signed then as_int w x else as_uint w x.

Lemma to_word_range is_signed w v x : 1 <= w -> in_range is_signed w v -> x mod 2 ^ w = v mod 2 ^ w -> to_word is_signed w x = v.
Proof.
  intros Hw Hv E. pose proof (pow2_half w Hw) as Htwice. unfold to_word, as_int, as_uint, wrap, in_range in *. rewrite E.
  destruct is_signed; [|by rewrite Z.mod_small]. unfold signed. destruct (decide (0 <= v)).
  - rewrite Z.mod_small by lia. by rewrite decide_True by lia.
  - rewrite <- (Zmod_unique v (2 ^ w) (-1) (v + 2 ^ w)) by lia. rewrite decide_False by lia. lia.
Qed.

Lemma mod_pow2_mod x a b : 0 <= a <= b -> (x mod 2 ^ b) mod 2 ^ a = x mod 2 ^ a.
Proof. intros H. apply Z.mod_mod_divide. exists (2 ^ (b - a)). rewrite (pow2_split a b H). ring. Qed.

Lemma stored_mod is_signed n x : stored is_signed n x mod 2 ^ (8 * Z.of_nat n) = x mod 2 ^ (8 * Z.of_nat n).
Proof.
  unfold stored, signed. set (p := 2 ^ (8 * Z.of_nat n)). assert (p <> 0) by (apply Z.pow_nonzero; lia).
  destruct is_signed; [|by apply Z.mod_mod]. destruct (decide _); [by apply Z.mod_mod|].
  replace (x mod p - p) with (x mod p + (-1) * p) by ring. rewrite Z.mod_add by done. by apply Z.mod_mod.
Qed.

Section Accessors.
Context {LD : Type} {floats : FloatConversions LD}.
Implicit Types c d : cell LD.

Lemma verified c expected : verify_cell_type c expected = if decide (type c ∈ expected) then Ok tt else Throw type_mismatch.
Proof. done. Qed.

(** What get and set do, and what is read back. *)
Definition accessor_correct (a : accessor LD) (c : cell LD) : Prop :=
  if decide (type c ∈ a_types a)
  then forall v, in_range (a_signed a) (a_bits a) v -> exists c', a_set a c v = Ok c' /\ f_schema_column c' = f_schema_column c /\
    a_get a c' = Ok v /\
    forall buffer suffix, exists buffer' d, value_to_binary c' buffer = Ok buffer' /\
      Z.of_nat (length buffer') = Z.of_nat (length buffer) + a_bits a / 8 /\
      value_from_binary c (buffer' ++ suffix) (Z.of_nat (length buffer)) = Ok (d, Z.of_nat (length buffer')) /\ a_get a d = Ok v
  else a_get a c = Throw type_mismatch /\ forall v, a_set a c v = Throw type_mismatch.

Lemma word_accessor_correct ts is_signed n c : (1 <= n <= 8)%nat -> 
  Forall (fun t => exists s, column_integer t = Some (s, n)) ts ->
  accessor_correct (Accessor ts is_signed (8 * Z.of_nat n) (get_word ts (to_word is_signed (8 * Z.of_nat n)))
    (if is_signed : bool then set_signed ts else set_unsigned ts)) c.
Proof.
  intros Hn Hts. unfold accessor_correct. cbn [a_types a_signed a_bits a_get a_set]. destruct (decide (type c ∈ ts)) as [Hin|Hout].
  2: { destruct is_signed; unfold get_word, set_signed, set_unsigned; rewrite verified, decide_False by done; done. }
  intros v Hv. rewrite Forall_forall in Hts. destruct (Hts _ Hin) as [s Hs].
  pose proof (Z.pow_le_mono_r 2 (8 * Z.of_nat n) 64 ltac:(lia) ltac:(lia)).
  pose proof (Z.pow_le_mono_r 2 (8 * Z.of_nat n - 1) 63 ltac:(lia) ltac:(lia)).
  set (c' := if is_signed : bool then cell_set_integer c v else cell_set_uinteger c v).
  assert (uint512_wf (f_integer c') /\ uval (f_integer c') = v mod 2 ^ 512) as [Hwf Ev].
  { unfold c', in_range in *. destruct is_signed; [apply set_integer_value; lia|].
    destruct (set_uinteger_value c v) as [? ->]; [unfold uword; lia|]. by rewrite Z.mod_small by lia. }
  assert (f_schema_column c' = f_schema_column c) as Ec by by (unfold c'; destruct is_signed).
  assert (type c' = type c) as Et by (unfold type; by rewrite Ec).
  assert (forall d, type d = type c -> uint512_wf (f_integer d) ->
    uval (f_integer d) mod 2 ^ (8 * Z.of_nat n) = v mod 2 ^ (8 * Z.of_nat n) ->
    get_word ts (to_word is_signed (8 * Z.of_nat n)) d = Ok v) as Hget.
  { intros d Hd Hwd Ed. unfold get_word. rewrite verified, Hd, decide_True by done. cbn [result_bind]. f_equal.
    apply to_word_range; [lia|done|]. rewrite word_low by done. rewrite mod_pow2_mod by lia. done. }
  exists c'. split; [|split; [done|split]].
  - unfold c', set_signed, set_unsigned. destruct is_signed; rewrite verified, decide_True by done; done.
  - apply Hget; [done|done|]. rewrite Ev. apply mod_pow2_mod. lia.
  - intros buffer suffix. exists (buffer ++ be n (uval (f_integer c'))).
    rewrite <- Et in Hs. pose proof (value_to_binary_integer c' s n buffer Hs Hwf) as ->. rewrite Et in Hs.
    destruct (value_from_binary_integer c (f_integer c') s n buffer suffix Hs Hwf) as (d & Ed & Hd & Hwd & Evd).
    exists d. rewrite <- app_assoc. split; [done|]. split; [|split; [done|]].
    + rewrite length_app, length_be, (Z.mul_comm 8), Z.div_mul by done. lia.
    + apply Hget; [unfold type; by rewrite Hd|done|]. rewrite Evd, mod_pow2_mod, stored_mod by lia. rewrite Ev. apply mod_pow2_mod. lia.
Qed.
End Accessors.

(** ** Main theorems *)

(** Simple functions for the conversions of floating point numbers. *)
Definition example_floats : FloatConversions Z := {|
  float_zero := 0;
  float32_bits := fun d => wrap 32 d;
  float32_value := fun b => b;
  float64_bits := fun d => wrap 64 d;
  float64_value := fun b => b;
  float128_words := fun d => (d / 2 ^ 64, wrap 64 d);
  float128_value := fun high low => 2 ^ 64 * high + low;
|}.

Definition example_column (t : struct_type_t) (size : Z) : schema_column := SchemaColumn 1 (str: "column") t size.
Definition example_cell (t : struct_type_t) : cell Z := new_cell (floats := example_floats) (example_column t 8).

(** C17: an integer is written at the end of a buffer in the number of bytes of its
    type, big end first.  Whatever follows, reading at the position where it was
    written gives the position after it and the number of those bytes, with its
    sign when the type is signed or has 64 bits, in a well-formed cell of the same
    column. *)
Theorem cell_integers_round_trip {LD} `{floats : FloatConversions LD} (c d : cell LD) is_signed n buffer suffix :
  column_integer (type c) = Some (is_signed, n) -> type d = type c -> uint512_wf (f_integer c) ->
  exists buffer' d', value_to_binary c buffer = Ok buffer' /\ buffer' = buffer ++ be n (uval (f_integer c)) /\
    value_from_binary d (buffer' ++ suffix) (Z.of_nat (length buffer)) = Ok (d', Z.of_nat (length buffer')) /\
    f_schema_column d' = f_schema_column d /\ uint512_wf (f_integer d') /\
    uval (f_integer d') = stored is_signed n (uval (f_integer c)) mod 2 ^ 512.
Proof.
  intros Ht Hd Hc. rewrite (value_to_binary_integer c is_signed n) by done. rewrite <- Hd in Ht.
  destruct (value_from_binary_integer d (f_integer c) is_signed n buffer suffix Ht Hc) as (d' & Ed & Hrest).
  exists (buffer ++ be n (uval (f_integer c))), d'. rewrite <- app_assoc. by split_and!; try apply Hrest.
Qed.

Lemma cell_integers_round_trip_witness :
  exists buffer' d', value_to_binary (floats := example_floats) (cell_set_integer (example_cell STRUCT_TYPE_INT16) (-2)) [7] = Ok buffer' /\
    buffer' = [7; 255; 254] /\
    value_from_binary (floats := example_floats) (example_cell STRUCT_TYPE_INT16) (buffer' ++ [9]) 1 = Ok (d', 3) /\
    uval (f_integer d') = 2 ^ 512 - 2.
Proof.
  destruct (cell_integers_round_trip (floats := example_floats) (cell_set_integer (example_cell STRUCT_TYPE_INT16) (-2))
    (example_cell STRUCT_TYPE_INT16) true 2 [7] [9]) as (b & d' & E & Eb & Ed & _ & _ & Ev); [done|done|by apply set_integer_value|].
  exists b, d'. split; [exact E|]. rewrite Eb in *. split; [by vm_compute|]. split; [exact Ed|]. rewrite Ev. by vm_compute.
Defined.

(** C18: the string of a cell is read back from what was written, at the position
    where it was, whatever follows.  A CHAR column takes exactly its size, with
    zeros after the string, when the string is not longer than the column and has
    no zero; a longer string without zero is not refused: all its bytes are
    written, only those of the size of the column are read back, and the position
    after the cell is before the end of what was written.  The strings of 8, 16 and
    32 bits are preceded by their length, and a string that is too long for it is
    refused. *)
Theorem cell_strings_round_trip {LD} `{floats : FloatConversions LD} (c d : cell LD) buffer suffix :
  f_schema_column d = f_schema_column c ->
  (type c = STRUCT_TYPE_CHAR ->
    let size := Z.to_nat (sc_minimum_length (f_schema_column c)) in
    (length (f_string c) <= size)%nat -> Forall (fun x => x <> NUL) (f_string c) ->
    exists buffer', value_to_binary c buffer = Ok buffer' /\ length buffer' = (length buffer + size)%nat /\
      value_from_binary d (buffer' ++ suffix) (Z.of_nat (length buffer)) = Ok (with_string d (f_string c), Z.of_nat (length buffer'))) /\
  (type c = STRUCT_TYPE_CHAR ->
    let size := Z.to_nat (sc_minimum_length (f_schema_column c)) in
    (0 < size < length (f_string c))%nat -> Forall (fun x => x <> NUL) (f_string c) ->
    exists buffer', value_to_binary c buffer = Ok buffer' /\ length buffer' = (length buffer + length (f_string c))%nat /\
      value_from_binary d (buffer' ++ suffix) (Z.of_nat (length buffer)) = Ok (with_string d (take size (f_string c)), Z.of_nat (length buffer + size))) /\
  (forall n, column_string (type c) = Some n ->
    if decide (Z.of_nat (length (f_string c)) < 2 ^ (8 * Z.of_nat n))
    then exists buffer', value_to_binary c buffer = Ok buffer' /\ length buffer' = (length buffer + n + length (f_string c))%nat /\
      value_from_binary d (buffer' ++ suffix) (Z.of_nat (length buffer)) = Ok (with_string d (f_string c), Z.of_nat (length buffer'))
    else value_to_binary c buffer = Throw out_of_bounds).
Proof.
  intros Hd. assert (type d = type c) as Ht by (unfold type; by rewrite Hd). split; [|split].
  - intros Hc size Hlen Hnul. unfold value_to_binary, value_from_binary. rewrite Ht, Hc, Hd. fold size.
    set (s := f_string c ++ replicate (size - length (f_string c)) 0).
    assert (length s = size) as Hs by (unfold s; rewrite length_app, length_replicate; lia).
    assert ((if decide (size = 0)%nat then Ok buffer else Ok (buffer ++ s)) = Ok (buffer ++ s)) as ->.
    { destruct (decide _) as [E|]; [|done]. rewrite E in Hs. apply nil_length_inv in Hs as ->. by rewrite app_nil_r. }
    exists (buffer ++ s). split; [done|]. split; [by rewrite length_app, Hs|]. rewrite <- app_assoc, <- Hs, read_bytes_split.
    cbn [result_bind]. unfold s. by rewrite c_str_zeros.
  - intros Hc size Hlen Hnul. unfold value_to_binary, value_from_binary. rewrite Ht, Hc, Hd. fold size. rewrite decide_False by lia.
    replace (size - length (f_string c))%nat with 0%nat by lia. rewrite app_nil_r. eexists. split; [done|]. split; [by rewrite length_app|].
    rewrite <- (take_drop size (f_string c)) in Hnul |- * at 1. apply Forall_app in Hnul as [Hnul _].
    assert (length (take size (f_string c)) = size) as Hsize by (rewrite length_take; lia).
    rewrite <- !app_assoc, <- Hsize at 1. rewrite read_bytes_split. cbn [result_bind]. rewrite length_app, Hsize, Nat2Z.inj_add.
    pose proof (c_str_zeros (take size (f_string c)) 0 Hnul) as E. cbn [replicate] in E. rewrite app_nil_r in E. by rewrite E.
  - intros n Hn. unfold value_to_binary, value_from_binary. rewrite Ht.
    assert (forall m, n = m -> let r := push_string m c buffer in
      if decide (Z.of_nat (length (f_string c)) < 2 ^ (8 * Z.of_nat n))
      then exists buffer', r = Ok buffer' /\ length buffer' = (length buffer + n + length (f_string c))%nat /\
        cell_read_string m d (buffer' ++ suffix) (Z.of_nat (length buffer)) = Ok (with_string d (f_string c), Z.of_nat (length buffer'))
      else r = Throw out_of_bounds) as H.
    { intros m <-. cbv zeta. unfold push_string. destruct (decide _) as [Hs|Hs]; [rewrite decide_False by lia|by rewrite decide_True by lia].
      eexists. split; [done|]. split; [rewrite !length_app, length_be; lia|]. rewrite <- app_assoc. by apply read_string_value. }
    destruct (type c); try discriminate Hn; injection Hn as <-; by apply H.
Qed.

Lemma cell_strings_round_trip_witness :
  exists buffer', value_to_binary (floats := example_floats) (with_string (example_cell STRUCT_TYPE_CHAR) (str: "abc")) [7] = Ok buffer' /\
    length buffer' = 9%nat.
Proof.
  destruct (cell_strings_round_trip (floats := example_floats) (with_string (example_cell STRUCT_TYPE_CHAR) (str: "abc"))
    (example_cell STRUCT_TYPE_CHAR) [7] [9] eq_refl) as (H & _).
  destruct (H eq_refl) as (b & E & Hb & _); [cbn; lia|closed_decide|]. by exists b.
Defined.

(** C19: memcmp() of the bytes of two integers of the same type compares the
    unsigned numbers of those bytes; so that of two numbers of a signed type, a
    negative number is above the others. *)
Theorem cell_integers_order {LD} `{floats : FloatConversions LD} (c d : cell LD) is_signed n :
  column_integer (type c) = Some (is_signed, n) -> type d = type c -> uint512_wf (f_integer c) -> uint512_wf (f_integer d) ->
  exists b b', value_to_binary c [] = Ok b /\ value_to_binary d [] = Ok b' /\
    string_ltb b b' = bool_decide (uval (f_integer c) mod 2 ^ (8 * Z.of_nat n) < uval (f_integer d) mod 2 ^ (8 * Z.of_nat n)) /\
    (forall x y, - 2 ^ (8 * Z.of_nat n - 1) <= x < 0 -> 0 <= y < 2 ^ (8 * Z.of_nat n - 1) ->
      uval (f_integer c) = x mod 2 ^ 512 -> uval (f_integer d) = y mod 2 ^ 512 -> string_ltb b' b = true).
Proof.
  intros Ht Hd Hc Hwd. rewrite (value_to_binary_integer c is_signed n) by done. rewrite <- Hd in Ht.
  rewrite (value_to_binary_integer d is_signed n) by done. eexists _, _. do 2 (split; [done|]). cbn [app].
  assert (forall x y, string_ltb (be n x) (be n y) = bool_decide (x mod 2 ^ (8 * Z.of_nat n) < y mod 2 ^ (8 * Z.of_nat n))) as Hltb.
  { intros x y. rewrite string_ltb_of_be by (apply Forall_byte_be || by rewrite !length_be). by rewrite !of_be_be. }
  rewrite !Hltb. split; [done|]. intros x y Hx Hy Ex Ey. apply bool_decide_eq_true. rewrite Ex, Ey.
  assert (1 <= n <= 64)%nat by (destruct (type d); try discriminate Ht; injection Ht as <- <-; lia).
  rewrite !mod_pow2_mod by lia. pose proof (pow2_half (8 * Z.of_nat n) ltac:(lia)).
  rewrite (Z.mod_small y) by lia. rewrite <- (Zmod_unique x (2 ^ (8 * Z.of_nat n)) (-1) (x + 2 ^ (8 * Z.of_nat n))) by lia. lia.
Qed.

Lemma cell_integers_order_witness :
  exists b b', value_to_binary (floats := example_floats) (cell_set_integer (example_cell STRUCT_TYPE_INT32) (-1)) [] = Ok b /\
    value_to_binary (floats := example_floats) (cell_set_integer (example_cell STRUCT_TYPE_INT32) 5) [] = Ok b' /\ string_ltb b' b = true.
Proof.
  destruct (cell_integers_order (floats := example_floats) (cell_set_integer (example_cell STRUCT_TYPE_INT32) (-1))
    (cell_set_integer (example_cell STRUCT_TYPE_INT32) 5) true 4 eq_refl eq_refl) as (b & b' & E & E' & _ & H);
    [by apply set_integer_value..|].
  exists b, b'. split; [exact E|]. split; [exact E'|]. apply (H (-1) 5); [done|done|by vm_compute..].
Defined.

(** Each accessor of integers of at most 64 bits takes the cells of its types
    only, and throws type_mismatch for the others.  A number of the range of the
    type that is set in a cell is got from it, and from the cell that is read back
    from its binary form. *)
Theorem cell_accessors {LD} `{floats : FloatConversions LD} (a : accessor LD) (c : cell LD) :
  a ∈ word_accessors -> accessor_correct a c.
Proof.
  assert (forall ts is_signed n get set, Accessor ts is_signed (8 * Z.of_nat n) get set = a -> (1 <= n <= 8)%nat ->
    forallb (fun t => bool_decide (snd <$> column_integer t = Some n)) ts = true ->
    get = get_word ts (to_word is_signed (8 * Z.of_nat n)) -> set = (if is_signed : bool then set_signed ts else set_unsigned ts) ->
    accessor_correct a c) as H.
  { intros ts is_signed n get set <- Hn Hts -> ->. apply word_accessor_correct; [done|]. apply Forall_forall. intros t Ht.
    rewrite forallb_forall in Hts. specialize (Hts t). apply list_elem_of_In in Ht. apply Hts, bool_decide_eq_true in Ht.
    destruct (column_integer t) as [[s m]|]; [|done]. exists s. cbn in Ht. congruence. }
  unfold word_accessors. rewrite !elem_of_cons. intros Ha. destruct_or! Ha; [..|by apply elem_of_nil in Ha].
  all: first [ by apply (H _ _ 8%nat _ _ (eq_sym Ha)); [lia|reflexivity..] | by apply (H _ _ 1%nat _ _ (eq_sym Ha)); [lia|reflexivity..]
    | by apply (H _ _ 2%nat _ _ (eq_sym Ha)); [lia|reflexivity..] | by apply (H _ _ 4%nat _ _ (eq_sym Ha)); [lia|reflexivity..] ].
Qed.

Lemma cell_accessors_witness :
  exists c', set_uint64 (example_cell STRUCT_TYPE_UINT64) (2 ^ 64 - 1) = Ok c' /\ get_uint64 c' = Ok (2 ^ 64 - 1).
Proof.
  pose proof (cell_accessors (floats := example_floats) (Accessor [STRUCT_TYPE_BITS64; STRUCT_TYPE_UINT64] false 64 get_uint64 set_uint64)
    (example_cell STRUCT_TYPE_UINT64)) as H.
  destruct (H ltac:(unfold word_accessors; set_solver) (2 ^ 64 - 1)) as (c' & E & _ & Eg & _); [by vm_compute|]. by exists c'.
Defined.

(** C20: a copy between columns of the same type of integers copies the number.  To
    another type of integers the number goes through its text: it is copied
    unchanged when it has one, so without regard for the range of the destination,
    except that a negative number is invalid for an unsigned type.  A number has a
    text when it is at least the lowest of its type and the bytes of the type hold
    it when it is positive; otherwise it is out of range, as are all the times and
    the versions. *)
Theorem cell_copies {LD} `{floats : FloatConversions LD} `{libraries : ConvertLibraries} (debug : bool) (c source : cell LD) to_signed from_signed :
  storage_of (type c) = Some (IN_INTEGER to_signed) -> storage_of (type source) = Some (IN_INTEGER from_signed) ->
  uint512_wf (f_integer source) ->
  copy_from debug c source =
    if decide (type c = type source) then Ok (with_integer c (f_integer source))
    else
      match integer_type (type source) with
      | Some (is_signed, n) =>
          let v := column_number is_signed (f_integer source) in
          if decide (has_text is_signed n v) then
            if (v <? 0) && negb to_signed then Throw invalid_number else Ok (with_integer c (f_integer source))
          else Throw out_of_range
      | None => Throw out_of_range
      end.
Proof.
  intros Hc Hs Hu. unfold copy_from. destruct (decide (type c = type source)) as [|Hne]; [by rewrite Hs|].
  destruct (integer_type (type source)) as [[is_signed n]|] eqn:Ht.
  - cbv zeta. pose proof (copy_text_integer debug source is_signed n Ht Hu) as Htext. cbv zeta in Htext.
    destruct (decide (has_text _ _ _)) as [Hv|]; [|by rewrite Htext].
    destruct Htext as (s & negative & x & -> & Hs' & Ex & Hneg). cbn [result_bind].
    assert (uval (f_integer source) = signed_number negative x mod 2 ^ 512) as Eu.
    { rewrite Ex. pose proof (uval_bound _ Hu). destruct is_signed; cbn [column_number]; [rewrite (proj2 (smod_spec _))|]; by rewrite Z.mod_small. }
    rewrite (copy_value_integer debug c s negative x to_signed (f_integer source)) by done.
    assert (negative = (column_number is_signed (f_integer source) <? 0)) as -> by (apply eq_true_iff_eq; by rewrite Hneg, Z.ltb_lt). done.
  - destruct (bytes_of_uint512 (f_integer source) Hu) as (_ & Hlen & _). unfold copy_text. rewrite Hs.
    unfold typed_buffer_to_string, version_to_string, unix_time_to_string, ns_time_to_string. rewrite Hlen.
    by destruct (type source).
Qed.

Lemma cell_copies_witness :
  copy_from (floats := example_floats) (libraries := example_libraries) false (example_cell STRUCT_TYPE_UINT8)
    (cell_set_integer (example_cell STRUCT_TYPE_INT32) (-1)) = Throw invalid_number.
Proof.
  rewrite (cell_copies (floats := example_floats) (libraries := example_libraries) false (example_cell STRUCT_TYPE_UINT8)
    (cell_set_integer (example_cell STRUCT_TYPE_INT32) (-1)) false true); [by vm_compute|done|done|by apply set_integer_value].
Defined.

(** A number of 64 bits without sign that is read from a row is extended with its
    highest bit, and then it can't be copied to a wider column. *)
Example read_uint64_copy :
  (let! '(c, _) := value_from_binary (floats := example_floats) (example_cell STRUCT_TYPE_UINT64) (replicate 8 0xFF) 0 in
   copy_from (floats := example_floats) (libraries := example_libraries) false (example_cell STRUCT_TYPE_UINT128) c) = Throw out_of_range.
Proof. by vm_compute. Qed.

(** No range is checked when the destination is narrower. *)
Example copy_too_large :
  (let! c := copy_from (floats := example_floats) (libraries := example_libraries) false (example_cell STRUCT_TYPE_UINT8)
     (cell_set_uinteger (example_cell STRUCT_TYPE_UINT32) 1000) in
   Ok (get_uint8 c, value_to_binary (floats := example_floats) c [])) = Ok (Ok (1000 mod 256), Ok [1000 mod 256]).
Proof. by vm_compute. Qed.
