(* ===== verification/Structure.v ===== *)
(** * Structures over a virtual buffer (prinbee/data/structure.cpp)

    A structure is a tree: the fields of a description, in order, each with its
    offset and size in the buffer, and the sub-structures of the fields that have
    some.  [f_fields_by_name] holds the fields; they are linked in the order of
    the description, which is the order of [s_fields]; a second field with the
    same name replaces the first one, which leaves the list.

    The code shares structures, fields and buffers by pointers.  Here a tree has a
    root, and a structure is found by its [place]: the fields to follow from the
    root and the index of a sub-structure in each.  The buffers are in a store,
    [s_buffer] is the pointer [f_buffer].  The methods are commands [M]: they
    change the tree and the buffers, and what they changed stays when they throw.

    [debug] tells whether the code was compiled with [_DEBUG].  Log messages are
    left out.  Floating point numbers are their bytes. *)

From S2P Require Import Prelude Names Bytes Limbs Uint512 Int512 SortedMap VirtualBuffer StructTypes Convert.

Definition FIELD_FLAG_VARIABLE_SIZE : Z := 1.

(** A field: [fld_name] is [field_name()], the name before an equal sign. *)
Record field_t := Field {
  fld_description : struct_description_t;
  fld_name : list Z;
  fld_size : Z;
  fld_flags : Z;
  fld_offset : Z;
  fld_flag_definitions : list (list Z * flag_definition);
}.

Inductive structure : Type :=
  Structure {
    s_descriptions : list struct_description_t;
    s_buffer : option nat;
    s_start_offset : Z;
    s_original_size : Z;
    s_fields : list (field_t * list structure);
  }.

Record tree_state := TreeState {
  t_root : structure;
  t_buffers : list virtual_buffer;
  t_blocks : block_store;
}.

(** The field and the sub-structure to follow, from the root. *)
Definition place : Type := list (nat * nat).

(** ** Commands *)

Definition M (A : Type) : Type := tree_state -> result A * tree_state.
Definition ret {A} (a : A) : M A := fun st => (Ok a, st).
Definition lift {A} (r : result A) : M A := fun st => (r, st).
Definition bind {A B} (m : M A) (k : A -> M B) : M B :=
  fun st => match m st with (Ok a, st) => k a st | (Throw e, st) => (Throw e, st) end.

Declare Scope structure_scope.
Notation "'do!' x := m 'in' k" := (bind m (fun x => k))
  (at level 10, x name, m at level 100, k at level 200) : structure_scope.
Notation "'do!' ' p := m 'in' k" := (bind m (fun x => match x with p => k end))
  (at level 10, p pattern, m at level 100, k at level 200) : structure_scope.
Open Scope structure_scope.

(** ** Fields *)

Definition fld_type (f : field_t) : struct_type_t := d_type (fld_description f).

Definition set_size (size : Z) (f : field_t) : field_t :=
  Field (fld_description f) (fld_name f) (wrap 32 size) (fld_flags f) (fld_offset f) (fld_flag_definitions f).
Definition set_offset (offset : Z) (f : field_t) : field_t :=
  Field (fld_description f) (fld_name f) (fld_size f) (fld_flags f) offset (fld_flag_definitions f).
Definition adjust_offset (adjust : Z) (f : field_t) : field_t := set_offset (wrap 64 (fld_offset f + adjust)) f.
Definition add_flags (flags : Z) (f : field_t) : field_t :=
  Field (fld_description f) (fld_name f) (fld_size f) (Z.lor (fld_flags f) flags) (fld_offset f) (fld_flag_definitions f).
Definition has_flags (flags : Z) (f : field_t) : bool := negb (Z.land (fld_flags f) flags =? 0).
Definition set_flag_definitions (flags : list (list Z * flag_definition)) (f : field_t) : field_t :=
  Field (fld_description f) (fld_name f) (fld_size f) (fld_flags f) (fld_offset f) flags.

Definition field_size (f : field_t) : Z := fst (g_struct_type_sizes (fld_type f)).

Definition type_field_size (f : field_t) : Z :=
  if decide (fld_type f = STRUCT_TYPE_CHAR) then fld_size f else snd (g_struct_type_sizes (fld_type f)).

(** The name [f_sub_description] gives to a renamed field. *)
Definition new_name (f : field_t) : result (list Z) :=
  if decide (fld_type f <> STRUCT_TYPE_RENAMED) then Throw type_mismatch
  else
    match d_sub_description (fld_description f) with
    | None => Throw logic_error
    | Some (inl (d :: _)) => Ok (d_field_name d)
    | Some (inl []) => Throw logic_error
    | Some (inr _) => Throw undefined_behavior
    end.

Definition find_flag_definition (f : field_t) (name : list Z) : result flag_definition :=
  match find_key string_ltb name (fld_flag_definitions f) with
  | Some flag => Ok flag
  | None => Throw field_not_found
  end.

(** [strchr(name, '=')]: the name before it, and what follows it. *)
Definition split_name (name : list Z) : list Z * option (list Z) :=
  match span (fun c => negb (Z.eqb c (chr: "="))) name with
  | (name, []) => (name, None)
  | (name, _ :: rest) => (name, Some rest)
  end.

(** What the code uses of the library advgetopt: [validator_integer]. *)
Class IntegerValidator := {
  convert_string : list Z -> option Z;
}.

Section Structure.
Context {libraries : ConvertLibraries} {validator : IntegerValidator} (debug : bool).
Context (copy_capacity : Z -> Z) (insert_capacity : Z -> Z -> Z).

(** The constructor of a field. *)
Definition new_field (d : struct_description_t) : result field_t :=
  let! _ :=
    if debug
    then
      if decide (d_field_name d = []) then Throw logic_error
      else
        let! valid := validate_field_name (d_type d) (d_field_name d) in
        if negb valid then Throw logic_error else Ok tt
    else Ok tt in
  if is_a_bit_field (d_type d) then Ok (Field d (fst (split_name (d_field_name d))) 0 0 0 [])
  else if decide (d_type d = STRUCT_TYPE_CHAR)
  then
    match split_name (d_field_name d) with
    | (_, None) => Throw invalid_parameter
    | (name, Some size) =>
        match convert_string size with
        | None => Throw invalid_parameter
        | Some size =>
            if decide (size <= 0 \/ size >= 2 ^ 32) then Throw out_of_range
            else Ok (Field d name size 0 0 [])
        end
    end
  else Ok (Field d (d_field_name d) 0 0 0 []).

(** ** Parsing a description *)

(** The size and the flags of a field, whether it has a description of its own
    fields, the number of bits to describe, and how far it goes. *)
Record field_layout := FieldLayout {
  lay_size : option Z;
  lay_variable : bool;
  lay_offset : Z;
  lay_has_sub_defs : bool;
  lay_bit_field : Z;
}.

(** The count at the start of a string, a buffer or an array, when there is a
    buffer with something in it. *)
Definition read_count (blocks : block_store) (vb : option virtual_buffer) (n : nat) (offset : Z) : result (option Z) :=
  match vb with
  | Some vb =>
      if decide (count_buffers vb <> 0%nat)
      then let! '(bytes, _) := pread blocks vb (Z.of_nat n) offset true in Ok (Some (of_le bytes))
      else Ok None
  | None => Ok None
  end.

(** The big [switch()] on the type of a field. *)
Definition layout_field (blocks : block_store) (vb : option virtual_buffer) (f : field_t) (offset : Z) : result field_layout :=
  let fixed size := Ok (FieldLayout (Some size) false (wrap 64 (offset + size)) false 0) in
  let bits size := Ok (FieldLayout (Some size) false (wrap 64 (offset + size)) false (8 * size)) in
  let string n :=
    let! sz := read_count blocks vb n offset in
    Ok (FieldLayout sz true (wrap 64 (wrap 64 (offset + default 0 sz) + Z.of_nat n)) false 0) in
  let array n :=
    let! sz := read_count blocks vb n offset in
    Ok (FieldLayout sz true (wrap 64 (offset + Z.of_nat n)) true 0) in
  match fld_type f with
  | STRUCT_TYPE_VOID => Ok (FieldLayout None false offset false 0)
  | STRUCT_TYPE_BITS8 => bits 1
  | STRUCT_TYPE_INT8 | STRUCT_TYPE_UINT8 => fixed 1
  | STRUCT_TYPE_BITS16 => bits 2
  | STRUCT_TYPE_INT16 | STRUCT_TYPE_UINT16 => fixed 2
  | STRUCT_TYPE_BITS32 => bits 4
  | STRUCT_TYPE_INT32 | STRUCT_TYPE_UINT32 | STRUCT_TYPE_FLOAT32 | STRUCT_TYPE_MAGIC
  | STRUCT_TYPE_STRUCTURE_VERSION | STRUCT_TYPE_VERSION => fixed 4
  | STRUCT_TYPE_BITS64 => bits 8
  | STRUCT_TYPE_INT64 | STRUCT_TYPE_UINT64 | STRUCT_TYPE_FLOAT64 | STRUCT_TYPE_REFERENCE | STRUCT_TYPE_OID
  | STRUCT_TYPE_TIME | STRUCT_TYPE_MSTIME | STRUCT_TYPE_USTIME => fixed 8
  | STRUCT_TYPE_BITS128 => bits 16
  | STRUCT_TYPE_INT128 | STRUCT_TYPE_UINT128 | STRUCT_TYPE_FLOAT128 | STRUCT_TYPE_NSTIME => fixed 16
  | STRUCT_TYPE_BITS256 => bits 32
  | STRUCT_TYPE_INT256 | STRUCT_TYPE_UINT256 => fixed 32
  | STRUCT_TYPE_BITS512 => bits 64
  | STRUCT_TYPE_INT512 | STRUCT_TYPE_UINT512 => fixed 64
  | STRUCT_TYPE_CHAR => fixed (type_field_size f)
  | STRUCT_TYPE_P8STRING | STRUCT_TYPE_BUFFER8 => string 1%nat
  | STRUCT_TYPE_P16STRING | STRUCT_TYPE_BUFFER16 => string 2%nat
  | STRUCT_TYPE_P32STRING | STRUCT_TYPE_BUFFER32 => string 4%nat
  | STRUCT_TYPE_STRUCTURE | STRUCT_TYPE_UNION => Ok (FieldLayout (Some 1) false offset true 0)
  | STRUCT_TYPE_ARRAY8 | STRUCT_TYPE_UNION_ARRAY8 => array 1%nat
  | STRUCT_TYPE_ARRAY16 | STRUCT_TYPE_UNION_ARRAY16 => array 2%nat
  | STRUCT_TYPE_ARRAY32 | STRUCT_TYPE_UNION_ARRAY32 => array 4%nat
  | STRUCT_TYPE_RENAMED => Ok (FieldLayout None false offset true 0)
  | STRUCT_TYPE_END => Throw invalid_size
  end.

(** The flags of a bit field, from the characters that follow the equal sign or
    the last slash. *)
Fixpoint parse_flags (fuel : nat) (field_name : list Z) (s : list Z) (bit_field bit_pos : Z)
    (flags : list (list Z * flag_definition)) : result (list (list Z * flag_definition)) :=
  match fuel, s with
  | O, _ => Throw fuel_exhausted
  | _, [] => Ok flags
  | S fuel, _ =>
      let '(flag_name, s) := span (fun c => negb (Z.eqb c (chr: ":")) && negb (Z.eqb c (chr: "/"))) s in
      let! '(size, s) :=
        match s with
        | c :: rest =>
            if decide (c = (chr: ":"))
            then
              let '(size_str, s) := span (fun c => negb (Z.eqb c (chr: "/"))) rest in
              match convert_string size_str with
              | None => Throw invalid_size
              | Some size =>
                  if decide (size <= 0) then Throw invalid_size
                  else if decide (bit_pos + size > bit_field) then Throw invalid_size
                  else Ok (size, s)
              end
            else Ok (1, s)
        | [] => Ok (1, [])
        end in
      let! bits := make_flag_definition field_name flag_name bit_pos size in
      let flags := put string_ltb flag_name bits flags in
      match s with
      | [] => Ok flags
      | _ :: s => parse_flags fuel field_name s bit_field (bit_pos + size) flags
      end
  end.

(** [f_fields_by_name[name] = f], when [f] is linked after the fields. *)
Definition add_field (fields : list (field_t * list structure)) (f : field_t * list structure) : list (field_t * list structure) :=
  filter (fun g => fld_name (fst g) <> fld_name (fst f)) fields ++ [f].

(** The checks of the first description of a union.  With a buffer, the code then
    reads the selector by the type of the field itself, which is never one of the
    integers of its [switch()]. *)
Definition check_union (blocks : block_store) (vb : option virtual_buffer) (offset : Z)
    (union_descriptions : list (list struct_description_t)) : result unit :=
  match union_descriptions with
  | [] => Throw logic_error
  | [] :: _ => Throw undefined_behavior
  | (d :: ds) :: _ =>
      if decide (d_field_name d <> g_system_field_name_union_selector) then Throw logic_error
      else
        match d_type d with
        | STRUCT_TYPE_INT8 | STRUCT_TYPE_UINT8 | STRUCT_TYPE_INT16 | STRUCT_TYPE_UINT16
        | STRUCT_TYPE_INT32 | STRUCT_TYPE_UINT32 =>
            match vb with
            | Some vb =>
                if decide (count_buffers vb <> 0%nat /\ offset > size vb) then Throw corrupted_data
                else Throw logic_error
            | None => Ok tt
            end
        | _ => Throw logic_error
        end
  end.

Section Parse.
Context (id : option nat) (parse_field : struct_description_t -> Z -> result (field_t * list structure * Z)).

(** [parse_descriptions()]: the fields added so far, and the offset it ends at or
    the exception. *)
Fixpoint parse_descriptions_with (ds : list struct_description_t) (fields : list (field_t * list structure)) (offset : Z)
    : list (field_t * list structure) * result Z :=
  match ds with
  | [] => (fields, Ok offset)
  | d :: ds =>
      match parse_field d offset with
      | Ok (f, subs, offset) => parse_descriptions_with ds (add_field fields (f, subs)) offset
      | Throw e => (fields, Throw e)
      end
  end.

(** [n] sub-structures, one after the other. *)
Fixpoint parse_items_with (check : Z -> result unit) (ds : list struct_description_t) (n : nat) (offset : Z)
    : result (list structure * Z) :=
  match n with
  | O => Ok ([], offset)
  | S n =>
      let! _ := check offset in
      let '(fields, end_offset) := parse_descriptions_with ds [] offset in
      let! end_offset := end_offset in
      let! '(subs, last_offset) := parse_items_with check ds n end_offset in
      Ok (Structure ds id offset 0 fields :: subs, last_offset)
  end.
End Parse.

Definition is_union (t : struct_type_t) : bool := must_have_sub_union t.

(** One turn of the loop of [parse_descriptions()]: the field and the offset
    after it; [id] and [vb] are [f_buffer]. *)
Fixpoint parse_field (blocks : block_store) (id : option nat) (vb : option virtual_buffer) (d : struct_description_t) (offset : Z)
    : result (field_t * list structure * Z) :=
  let! f := new_field d in
  let f := set_offset offset f in
  let! lay := layout_field blocks vb f offset in
  let f := match lay_size lay with Some size => set_size size f | None => f end in
  let f := if lay_variable lay then add_flags FIELD_FLAG_VARIABLE_SIZE f else f in
  let offset := lay_offset lay in
  let! _ :=
    match vb with
    | Some vb => if decide (count_buffers vb <> 0%nat /\ offset > size vb) then Throw corrupted_data else Ok tt
    | None => Ok tt
    end in
  match d_sub_description d with
  | Some _ =>
      if negb (lay_has_sub_defs lay) then Throw logic_error
      else if decide (d_type d = STRUCT_TYPE_RENAMED) then Ok (f, [], offset)
      else
        match d_sub_description d with
        | Some (inl ds) =>
            if is_union (d_type d) then Throw undefined_behavior
            else
              let! '(subs, offset) :=
                parse_items_with id (parse_field blocks id vb) (fun _ => Ok tt) ds (Z.to_nat (fld_size f)) offset in
              Ok (f, subs, offset)
        | Some (inr table) =>
            if negb (is_union (d_type d)) then Throw undefined_behavior
            else
              let check offset := check_union blocks vb offset table in
              let! '(subs, offset) :=
                match table with
                | ds :: _ => parse_items_with id (parse_field blocks id vb) check ds (Z.to_nat (fld_size f)) offset
                | [] => parse_items_with id (parse_field blocks id vb) check [] (Z.to_nat (fld_size f)) offset
                end in
              Ok (f, subs, offset)
        | None => Throw logic_error
        end
  | None =>
      if lay_has_sub_defs lay then Throw logic_error
      else if decide (lay_bit_field lay > 0)
      then
        match split_name (d_field_name d) with
        | (_, None) => Throw logic_error
        | (name, Some rest) =>
            let! flags := parse_flags (S (length rest)) name rest (Z.min (lay_bit_field lay) 64) 0 [] in
            Ok (set_flag_definitions flags f, [], offset)
        end
      else if decide (d_type d = STRUCT_TYPE_CHAR)
      then match split_name (d_field_name d) with (_, None) => Throw logic_error | (_, Some _) => Ok (f, [], offset) end
      else Ok (f, [], offset)
  end.

Definition parse_descriptions (blocks : block_store) (id : option nat) (vb : option virtual_buffer)
    (ds : list struct_description_t) (offset : Z) : list (field_t * list structure) * result Z :=
  parse_descriptions_with (parse_field blocks id vb) ds [] offset.

(** ** Sizes *)

(** The bytes a field takes apart from those of its sub-structures. *)
Definition own_size (f : field_t) : Z :=
  match fld_type f with
  | STRUCT_TYPE_STRUCTURE => 0
  | STRUCT_TYPE_P8STRING | STRUCT_TYPE_BUFFER8 => 1 + fld_size f
  | STRUCT_TYPE_P16STRING | STRUCT_TYPE_BUFFER16 => 2 + fld_size f
  | STRUCT_TYPE_P32STRING | STRUCT_TYPE_BUFFER32 => 4 + fld_size f
  | STRUCT_TYPE_ARRAY8 => 1
  | STRUCT_TYPE_ARRAY16 => 2
  | STRUCT_TYPE_ARRAY32 => 4
  | _ => fld_size f
  end.

(** [f_verify_offset] is a member of the structure that verifies: the offsets are
    compared in that one only, at the place [verify]. *)
Definition verify_below (verify : option place) (i k : nat) : option place :=
  match verify with
  | Some ((i', k') :: p) => if decide (i' = i /\ k' = k) then Some p else None
  | _ => None
  end.

Fixpoint get_current_size (verify : option place) (s : structure) (start_offset : Z) : result Z :=
  let subs_size := fix subs_size (i k : nat) (subs : list structure) (start_offset : Z) : result Z :=
    match subs with
    | [] => Ok start_offset
    | sub :: subs =>
        let! start_offset := get_current_size (verify_below verify i k) sub start_offset in
        subs_size i (S k) subs start_offset
    end in
  let fields_size := fix fields_size (i : nat) (fields : list (field_t * list structure)) (start_offset : Z) : result Z :=
    match fields with
    | [] => Ok start_offset
    | (f, subs) :: fields =>
        if decide (fld_type f = STRUCT_TYPE_RENAMED) then fields_size (S i) fields start_offset
        else if debug && bool_decide (verify = Some [] /\ fld_offset f <> start_offset) then Throw logic_error
        else
          let! start_offset := subs_size i 0%nat subs (wrap 64 (start_offset + own_size f)) in
          fields_size (S i) fields start_offset
    end in
  fields_size 0%nat (s_fields s) start_offset.

(** [get_static_size()], once the descriptions are parsed. *)
Fixpoint static_size (s : structure) : Z :=
  let subs_size := fix subs_size (subs : list structure) : option Z :=
    match subs with
    | [] => Some 0
    | sub :: subs =>
        let size := static_size sub in
        if decide (size = 0) then None else total ← subs_size subs; Some (wrap 64 (size + total))
    end in
  let fields_size := fix fields_size (fields : list (field_t * list structure)) : option Z :=
    match fields with
    | [] => Some 0
    | (f, subs) :: fields =>
        if has_flags FIELD_FLAG_VARIABLE_SIZE f then None
        else if decide (fld_type f = STRUCT_TYPE_RENAMED) then fields_size fields
        else
          let own := if decide (fld_type f = STRUCT_TYPE_STRUCTURE) then 0 else fld_size f in
          sub_total ← subs_size subs; total ← fields_size fields;
          Some (wrap 64 (own + sub_total + total))
    end in
  default 0 (fields_size (s_fields s)).

(** ** Places *)

Fixpoint structure_at (p : place) (s : structure) : option structure :=
  match p with
  | [] => Some s
  | (i, k) :: p => '(_, subs) ← s_fields s !! i; sub ← subs !! k; structure_at p sub
  end.

Definition with_fields (s : structure) (fields : list (field_t * list structure)) : structure :=
  Structure (s_descriptions s) (s_buffer s) (s_start_offset s) (s_original_size s) fields.

Fixpoint alter_at (g : structure -> structure) (p : place) (s : structure) : structure :=
  match p with
  | [] => g s
  | (i, k) :: p => with_fields s (alter (fun '(f, subs) => (f, alter (alter_at g p) k subs)) i (s_fields s))
  end.

(** [adjust_offsets()], on a structure and those below. *)
Fixpoint adjust_structure (offset_cutoff diff : Z) (s : structure) : structure :=
  let adjust_sub sub :=
    let sub := adjust_structure offset_cutoff diff sub in
    if decide (s_start_offset sub > offset_cutoff)
    then Structure (s_descriptions sub) (s_buffer sub) (wrap 64 (s_start_offset sub + diff)) (s_original_size sub) (s_fields sub)
    else sub in
  with_fields s
    (map (fun '(f, subs) => (if decide (fld_offset f > offset_cutoff) then adjust_offset diff f else f, map adjust_sub subs))
       (s_fields s)).

(** The command on the structure at a place; a place that is not there is a
    pointer to a structure that was deleted. *)
Definition this_structure (p : place) : M structure := fun st =>
  match structure_at p (t_root st) with
  | Some s => (Ok s, st)
  | None => (Throw undefined_behavior, st)
  end.

Definition modify_structure (g : structure -> structure) (p : place) : M unit := fun st =>
  (Ok tt, TreeState (alter_at g p (t_root st)) (t_buffers st) (t_blocks st)).

(** A field: the place of its structure, and its index. *)
Definition field_at (loc : place * nat) : M (field_t * list structure) :=
  do! s := this_structure (fst loc) in
  match s_fields s !! snd loc with
  | Some f => ret f
  | None => lift (Throw undefined_behavior)
  end.

Definition modify_field (g : field_t -> field_t) (loc : place * nat) : M unit :=
  modify_structure (fun s => with_fields s (alter (fun '(f, subs) => (g f, subs)) (snd loc) (s_fields s))) (fst loc).

Definition modify_subs (g : list structure -> list structure) (loc : place * nat) : M unit :=
  modify_structure (fun s => with_fields s (alter (fun '(f, subs) => (f, g subs)) (snd loc) (s_fields s))) (fst loc).

(** ** The buffer of a structure *)

(** [*f_buffer]: a null pointer is not tested here. *)
Definition this_buffer (p : place) : M (nat * virtual_buffer) :=
  do! s := this_structure p in
  fun st =>
    match s_buffer s with
    | Some id => match t_buffers st !! id with Some vb => (Ok (id, vb), st) | None => (Throw undefined_behavior, st) end
    | None => (Throw undefined_behavior, st)
    end.

Definition set_buffer_object (id : nat) (vb : virtual_buffer) (blocks : block_store) : M unit := fun st =>
  (Ok tt, TreeState (t_root st) (<[id := vb]> (t_buffers st)) blocks).

Definition buffer_pread (p : place) (n : Z) (offset : Z) : M (list Z) :=
  do! '(_, vb) := this_buffer p in
  fun st => (let! '(bytes, _) := pread (t_blocks st) vb n offset true in Ok bytes, st).

Definition buffer_pwrite (p : place) (bytes : list Z) (offset : Z) (allow_growth : bool) : M unit :=
  do! '(id, vb) := this_buffer p in
  fun st =>
    match pwrite copy_capacity (t_blocks st) vb bytes offset allow_growth with
    | Ok (blocks, vb, _) => set_buffer_object id vb blocks st
    | Throw e => (Throw e, st)
    end.

Definition buffer_pinsert (p : place) (bytes : list Z) (offset : Z) : M unit :=
  do! '(id, vb) := this_buffer p in
  fun st =>
    match pinsert copy_capacity insert_capacity (t_blocks st) vb bytes offset with
    | Ok (blocks, vb, _) => set_buffer_object id vb blocks st
    | Throw e => (Throw e, st)
    end.

Definition buffer_perase (p : place) (n : Z) (offset : Z) : M Z :=
  do! '(id, vb) := this_buffer p in
  fun st =>
    match perase vb n offset with
    | Ok (vb, erased) => bind (set_buffer_object id vb (t_blocks st)) (fun _ => ret erased) st
    | Throw e => (Throw e, st)
    end.

(** [adjust_offsets()]: from the root. *)
Definition adjust_offsets (offset_cutoff diff : Z) : M unit := fun st =>
  if decide (diff = 0) then (Ok tt, st)
  else (Ok tt, TreeState (adjust_structure offset_cutoff diff (t_root st)) (t_buffers st) (t_blocks st)).

(** [verify_buffer_size()], called on the structure at [p]. *)
Definition verify_buffer_size (p : place) : M unit :=
  if negb debug then ret tt
  else
    do! s := this_structure p in
    match s_buffer s with
    | None => ret tt
    | Some _ =>
        do! '(_, vb) := this_buffer p in
        do! root := this_structure [] in
        do! current := lift (get_current_size (Some p) root 0) in
        if decide (size vb <> current) then lift (Throw logic_error) else ret tt
    end.

(** ** Finding fields *)

(** [parse()]: once, when there are no fields; those parsed before an exception
    stay. *)
Definition parse (p : place) : M Z :=
  do! s := this_structure p in
  if decide (s_fields s <> []) then ret (s_original_size s)
  else fun st =>
    let vb := id ← s_buffer s; t_buffers st !! id in
    let '(fields, r) := parse_descriptions (t_blocks st) (s_buffer s) vb (s_descriptions s) (s_start_offset s) in
    let parsed s := Structure (s_descriptions s) (s_buffer s) (s_start_offset s)
                      (match r with Ok size => size | Throw _ => s_original_size s end) fields in
    bind (modify_structure parsed p) (fun _ => lift r) st.

(** The index of a field by its name, or by the new name of a renamed field. *)
Definition index_of (s : structure) (name : list Z) : option nat :=
  fst <$> list_find (fun f => fld_name (fst f) = name) (s_fields s).

Definition find_field (s : structure) (field_name : list Z) : result nat :=
  match index_of s field_name with
  | None => Throw field_not_found
  | Some i =>
      match s_fields s !! i with
      | Some (f, _) =>
          if decide (fld_type f = STRUCT_TYPE_RENAMED)
          then
            let! name := new_name f in
            match index_of s name with Some j => Ok j | None => Throw field_not_found end
          else Ok i
      | None => Throw undefined_behavior
      end
  end.

Definition check_type (f : field_t) (t : struct_type_t) : result unit :=
  if decide (t <> STRUCT_TYPE_END /\ fld_type f <> t) then Throw type_mismatch else Ok tt.

(** The loop over the parts of a name; the result is relative to [s]. *)
Fixpoint resolve (fuel : nat) (s : structure) (n : list Z) (t : struct_type_t) : result (place * nat) :=
  match fuel with
  | O => Throw fuel_exhausted
  | S fuel =>
      let '(sub_field_name, e) := span (fun c => negb (Z.eqb c (chr: ".")) && negb (Z.eqb c (chr: "="))) n in
      let! i := find_field s sub_field_name in
      match s_fields s !! i with
      | None => Throw undefined_behavior
      | Some (f, subs) =>
          match e with
          | c :: rest =>
              if decide (c = (chr: "="))
              then let! _ := check_type f t in Ok ([], i)
              else
                match fld_type f with
                | STRUCT_TYPE_STRUCTURE | STRUCT_TYPE_UNION =>
                    if debug && negb (bool_decide (length subs = 1%nat)) then Throw invalid_size
                    else
                      match subs with
                      | [] => Throw out_of_bounds
                      | sub :: _ => let! '(p, j) := resolve fuel sub rest t in Ok ((i, 0%nat) :: p, j)
                      end
                | STRUCT_TYPE_BITS8 | STRUCT_TYPE_BITS16 | STRUCT_TYPE_BITS32 | STRUCT_TYPE_BITS64
                | STRUCT_TYPE_BITS128 | STRUCT_TYPE_BITS256 | STRUCT_TYPE_BITS512 =>
                    let! _ := find_flag_definition f rest in
                    let! _ := check_type f t in Ok ([], i)
                | _ => Throw type_mismatch
                end
          | [] => let! _ := check_type f t in Ok ([], i)
          end
      end
  end.

Definition get_field (p : place) (field_name : list Z) (t : struct_type_t) : M (place * nat) :=
  do! s := this_structure p in
  if decide (s_buffer s = None) then lift (Throw logic_error)
  else if decide (field_name = []) then lift (Throw logic_error)
  else
    do! _ := parse p in
    do! s := this_structure p in
    do! '(q, i) := lift (resolve (S (length field_name)) s (c_str field_name) t) in
    ret (p ++ q, i).

(** The name before the last period, and what follows it; [None]: no period, or
    nothing before it. *)
Definition split_flag (flag_name : list Z) : option (list Z * list Z) :=
  match span (fun c => negb (Z.eqb c (chr: "."))) (rev flag_name) with
  | (_, []) | (_, [_]) => None
  | (flag, _ :: name) => Some (rev name, rev flag)
  end.

Definition get_flag (p : place) (flag_name : list Z) : M (flag_definition * (place * nat)) :=
  match split_flag flag_name with
  | None => lift (Throw field_not_found)
  | Some (field_name, flag) =>
      do! loc := get_field p field_name STRUCT_TYPE_END in
      do! '(f, _) := field_at loc in
      if is_a_bit_field (fld_type f)
      then do! flag := lift (find_flag_definition f (c_str flag)) in ret (flag, loc)
      else lift (Throw type_mismatch)
  end.

(** ** Numbers *)

(** The bytes of a signed integer of a type, and of an unsigned one. *)
Definition integer_bytes (t : struct_type_t) : option nat :=
  match t with
  | STRUCT_TYPE_INT8 => Some 1%nat
  | STRUCT_TYPE_INT16 => Some 2%nat
  | STRUCT_TYPE_INT32 => Some 4%nat
  | STRUCT_TYPE_INT64 | STRUCT_TYPE_TIME | STRUCT_TYPE_MSTIME | STRUCT_TYPE_USTIME => Some 8%nat
  | _ => None
  end.

Definition uinteger_bytes (t : struct_type_t) : option nat :=
  match t with
  | STRUCT_TYPE_BITS8 | STRUCT_TYPE_UINT8 => Some 1%nat
  | STRUCT_TYPE_BITS16 | STRUCT_TYPE_UINT16 => Some 2%nat
  | STRUCT_TYPE_BITS32 | STRUCT_TYPE_UINT32 | STRUCT_TYPE_MAGIC | STRUCT_TYPE_VERSION | STRUCT_TYPE_STRUCTURE_VERSION => Some 4%nat
  | STRUCT_TYPE_BITS64 | STRUCT_TYPE_UINT64 | STRUCT_TYPE_REFERENCE | STRUCT_TYPE_OID => Some 8%nat
  | _ => None
  end.

(** [set_uinteger()] refuses to change a magic word and a structure version. *)
Definition writable_uinteger_bytes (t : struct_type_t) : option nat :=
  match t with
  | STRUCT_TYPE_MAGIC | STRUCT_TYPE_STRUCTURE_VERSION => None
  | _ => uinteger_bytes t
  end.

(** A field whose size is the one of its type. *)
Definition sized_field (p : place) (field_name : list Z) : M (place * nat * field_t) :=
  do! loc := get_field p field_name STRUCT_TYPE_END in
  do! '(f, _) := field_at loc in
  do! _ := lift (verify_size (fld_type f) (fld_size f)) in
  ret (loc, f).

Definition get_integer (p : place) (field_name : list Z) : M Z :=
  do! '(_, f) := sized_field p field_name in
  match integer_bytes (fld_type f) with
  | Some n =>
      do! bytes := buffer_pread p (Z.of_nat n) (fld_offset f) in
      ret (signed (8 * Z.of_nat n) (of_le bytes))
  | None => lift (Throw type_mismatch)
  end.

Definition set_integer (p : place) (field_name : list Z) (value : Z) : M unit :=
  do! '(_, f) := sized_field p field_name in
  match integer_bytes (fld_type f) with
  | Some n => buffer_pwrite p (le n value) (fld_offset f) false
  | None => lift (Throw type_mismatch)
  end.

Definition get_uinteger (p : place) (field_name : list Z) : M Z :=
  do! '(_, f) := sized_field p field_name in
  match uinteger_bytes (fld_type f) with
  | Some n =>
      do! bytes := buffer_pread p (Z.of_nat n) (fld_offset f) in
      ret (of_le bytes)
  | None => lift (Throw type_mismatch)
  end.

Definition set_uinteger (p : place) (field_name : list Z) (value : Z) : M unit :=
  do! '(_, f) := sized_field p field_name in
  match writable_uinteger_bytes (fld_type f) with
  | Some n => buffer_pwrite p (le n value) (fld_offset f) false
  | None => lift (Throw type_mismatch)
  end.

(** The bytes of a bit field whose flags can be read. *)
Definition bits_bytes (t : struct_type_t) : option nat :=
  match t with
  | STRUCT_TYPE_BITS8 => Some 1%nat
  | STRUCT_TYPE_BITS16 => Some 2%nat
  | STRUCT_TYPE_BITS32 => Some 4%nat
  | STRUCT_TYPE_BITS64 => Some 8%nat
  | _ => None
  end.

Definition get_bits (p : place) (flag_name : list Z) : M Z :=
  do! '(flag, loc) := get_flag p flag_name in
  do! '(f, _) := field_at loc in
  do! _ := lift (verify_size (fld_type f) (fld_size f)) in
  match bits_bytes (fld_type f) with
  | Some n =>
      do! bytes := buffer_pread p (Z.of_nat n) (fld_offset f) in
      ret (Z.shiftr (Z.land (of_le bytes) (fd_mask flag)) (fd_pos flag))
  | None => lift (Throw type_mismatch)
  end.

(** The whole field is read and written by its own name, without the names of the
    structures it is in. *)
Definition set_bits (p : place) (flag_name : list Z) (value : Z) : M unit :=
  do! '(flag, loc) := get_flag p flag_name in
  do! '(f, _) := field_at loc in
  do! _ := lift (verify_size (fld_type f) (fld_size f)) in
  match bits_bytes (fld_type f) with
  | None => lift (Throw type_mismatch)
  | Some _ =>
      if decide (Z.land value (Z.shiftr (fd_mask flag) (fd_pos flag)) <> value) then lift (Throw invalid_number)
      else
        do! v := get_uinteger p (fld_name f) in
        let v := Z.land v (2 ^ 64 - 1 - fd_mask flag) in
        let v := Z.lor v (wrap 64 (Z.shiftl value (fd_pos flag))) in
        set_uinteger p (fld_name f) v
  end.

Definition get_magic (p : place) : M Z := get_uinteger p g_system_field_name_magic.

Definition get_version (p : place) (field_name : list Z) : M version_t :=
  do! v := get_uinteger p field_name in ret (version_of_binary v).

Definition set_version (p : place) (field_name : list Z) (version : version_t) : M unit :=
  set_uinteger p field_name (to_binary version).

(** ** Large numbers *)

(** The words of bytes, in the words of a number that was zero. *)
Definition words_of (bytes : list Z) (n : nat) : list Z := (fun i => of_le (take 8 (drop (8 * i) bytes))) <$> seq 0 n.

(** The number whose low words are given; the other ones repeat the sign. *)
Definition extend_sign (words : list Z) : int512_t :=
  let sign := if decide (signed 64 (default 0 (last words)) < 0) then 2 ^ 64 - 1 else 0 in
  int512_of_words (words ++ replicate (8 - length words) sign).

Definition large_integer_bytes (t : struct_type_t) : option nat :=
  match t with
  | STRUCT_TYPE_INT8 => Some 1%nat
  | STRUCT_TYPE_INT16 => Some 2%nat
  | STRUCT_TYPE_INT32 => Some 4%nat
  | STRUCT_TYPE_INT64 | STRUCT_TYPE_TIME | STRUCT_TYPE_MSTIME | STRUCT_TYPE_USTIME => Some 8%nat
  | STRUCT_TYPE_INT128 | STRUCT_TYPE_NSTIME => Some 16%nat
  | STRUCT_TYPE_INT256 => Some 32%nat
  | STRUCT_TYPE_INT512 => Some 64%nat
  | _ => None
  end.

Definition get_large_integer (p : place) (field_name : list Z) : M int512_t :=
  do! '(_, f) := sized_field p field_name in
  match large_integer_bytes (fld_type f) with
  | Some n =>
      do! bytes := buffer_pread p (Z.of_nat n) (fld_offset f) in
      ret (if decide (n < 8)%nat
           then extend_sign [wrap 64 (signed (8 * Z.of_nat n) (of_le bytes))]
           else extend_sign (words_of bytes (n / 8)))
  | None => lift (Throw type_mismatch)
  end.

Definition set_large_integer (p : place) (field_name : list Z) (value : int512_t) : M unit :=
  do! '(_, f) := sized_field p field_name in
  match large_integer_bytes (fld_type f) with
  | Some _ => buffer_pwrite p (take (Z.to_nat (fld_size f)) (bytes_of_words (int512_words value))) (fld_offset f) false
  | None => lift (Throw type_mismatch)
  end.

Definition readable_large_uinteger (t : struct_type_t) : bool :=
  match t with
  | STRUCT_TYPE_BITS8 | STRUCT_TYPE_BITS16 | STRUCT_TYPE_BITS32 | STRUCT_TYPE_BITS64
  | STRUCT_TYPE_BITS128 | STRUCT_TYPE_BITS256 | STRUCT_TYPE_BITS512
  | STRUCT_TYPE_MAGIC | STRUCT_TYPE_NSTIME | STRUCT_TYPE_REFERENCE | STRUCT_TYPE_OID | STRUCT_TYPE_STRUCTURE_VERSION
  | STRUCT_TYPE_UINT8 | STRUCT_TYPE_UINT16 | STRUCT_TYPE_UINT32 | STRUCT_TYPE_UINT64
  | STRUCT_TYPE_UINT128 | STRUCT_TYPE_UINT256 | STRUCT_TYPE_UINT512 | STRUCT_TYPE_VERSION => true
  | _ => false
  end.

Definition writable_large_uinteger (t : struct_type_t) : bool :=
  match t with
  | STRUCT_TYPE_MAGIC | STRUCT_TYPE_STRUCTURE_VERSION => false
  | _ => readable_large_uinteger t
  end.

Definition get_large_uinteger (p : place) (field_name : list Z) : M uint512_t :=
  do! '(_, f) := sized_field p field_name in
  if readable_large_uinteger (fld_type f)
  then
    do! bytes := buffer_pread p (fld_size f) (fld_offset f) in
    ret (Uint512 (words_of bytes 8))
  else lift (Throw type_mismatch).

Definition set_large_uinteger (p : place) (field_name : list Z) (value : uint512_t) : M unit :=
  do! '(_, f) := sized_field p field_name in
  if writable_large_uinteger (fld_type f)
  then buffer_pwrite p (take (Z.to_nat (fld_size f)) (bytes_of_words (uf_value value))) (fld_offset f) false
  else lift (Throw type_mismatch).

(** A [timespec_ex]: the seconds and the nanoseconds. *)
Definition get_nstime (p : place) (field_name : list Z) : M (Z * Z) :=
  do! u128 := get_large_uinteger p field_name in
  ret (signed 64 (uf_value u128 !!! 0%nat), signed 64 (uf_value u128 !!! 1%nat)).

Definition set_nstime (p : place) (field_name : list Z) (value : Z * Z) : M unit :=
  set_large_uinteger p field_name (Uint512 ([wrap 64 (fst value); wrap 64 (snd value)] ++ replicate 6 0)).

(** [get_float32()], [get_float64()] and [get_float128()], by the type. *)
Definition get_float (t : struct_type_t) (p : place) (field_name : list Z) : M (list Z) :=
  do! loc := get_field p field_name t in
  do! '(f, _) := field_at loc in
  do! _ := lift (verify_size t (fld_size f)) in
  buffer_pread p (fst (g_struct_type_sizes t)) (fld_offset f).

Definition set_float (t : struct_type_t) (p : place) (field_name : list Z) (value : list Z) : M unit :=
  do! loc := get_field p field_name t in
  do! '(f, _) := field_at loc in
  do! _ := lift (verify_size t (fld_size f)) in
  buffer_pwrite p value (fld_offset f) false.

(** ** Strings and buffers *)

Definition is_pstring (t : struct_type_t) : bool :=
  match t with STRUCT_TYPE_P8STRING | STRUCT_TYPE_P16STRING | STRUCT_TYPE_P32STRING => true | _ => false end.
Definition is_buffer (t : struct_type_t) : bool :=
  match t with STRUCT_TYPE_BUFFER8 | STRUCT_TYPE_BUFFER16 | STRUCT_TYPE_BUFFER32 => true | _ => false end.
Definition is_array (t : struct_type_t) : bool :=
  match t with STRUCT_TYPE_ARRAY8 | STRUCT_TYPE_ARRAY16 | STRUCT_TYPE_ARRAY32 => true | _ => false end.

(** The size in the buffer must be the one of the field. *)
Definition check_length (p : place) (f : field_t) : M Z :=
  do! bytes := buffer_pread p (type_field_size f) (fld_offset f) in
  let length := of_le bytes in
  if decide (length <> fld_size f) then lift (Throw corrupted_data) else ret length.

Definition get_string (p : place) (field_name : list Z) : M (list Z) :=
  do! loc := get_field p field_name STRUCT_TYPE_END in
  do! '(f, _) := field_at loc in
  if decide (fld_type f = STRUCT_TYPE_CHAR)
  then do! bytes := buffer_pread p (type_field_size f) (fld_offset f) in ret (c_str bytes)
  else if is_pstring (fld_type f)
  then
    do! length := check_length p f in
    buffer_pread p length (wrap 64 (fld_offset f + type_field_size f))
  else lift (Throw type_mismatch).

Definition set_char (p : place) (f : field_t) (value : list Z) : M unit :=
  let field_size := type_field_size f in
  let length := Z.of_nat (length value) in
  if decide (length > field_size) then lift (Throw out_of_range)
  else
    do! _ := buffer_pwrite p value (fld_offset f) false in
    if decide (field_size > length)
    then buffer_pwrite p (replicate (Z.to_nat (field_size - length)) 0) (wrap 64 (fld_offset f + length)) false
    else ret tt.

Definition set_string (p : place) (field_name : list Z) (value : list Z) : M unit :=
  do! loc := get_field p field_name STRUCT_TYPE_END in
  do! '(f, _) := field_at loc in
  let field_size := type_field_size f in
  if decide (fld_type f = STRUCT_TYPE_CHAR) then set_char p f value
  else if is_pstring (fld_type f)
  then
    do! length := check_length p f in
    let size := wrap 32 (Z.of_nat (List.length value)) in
    if decide (size >= 2 ^ (field_size * 8)) then lift (Throw out_of_range)
    else
      let at_ n := wrap 64 (fld_offset f + field_size + n) in
      let part from to := take (Z.to_nat to - Z.to_nat from) (drop (Z.to_nat from) value) in
      do! _ :=
        if decide (size = length) then buffer_pwrite p (part 0 size) (at_ 0) false
        else if decide (size > length)
        then
          do! _ := buffer_pwrite p (le (Z.to_nat field_size) size) (fld_offset f) false in
          do! _ := buffer_pwrite p (part 0 length) (at_ 0) false in
          buffer_pinsert p (part length size) (at_ length)
        else
          do! _ := buffer_pwrite p (le (Z.to_nat field_size) size) (fld_offset f) false in
          do! _ := buffer_pwrite p (part 0 size) (at_ 0) false in
          do! _ := buffer_perase p (length - size) (at_ size) in
          ret tt in
      do! _ := modify_field (set_size size) loc in
      do! _ := adjust_offsets (fld_offset f) (signed 32 (wrap 32 (size - length))) in
      verify_buffer_size p
  else lift (Throw type_mismatch).

Definition get_buffer (p : place) (field_name : list Z) : M (list Z) :=
  do! loc := get_field p field_name STRUCT_TYPE_END in
  do! '(f, _) := field_at loc in
  if is_buffer (fld_type f)
  then
    do! size := check_length p f in
    buffer_pread p size (wrap 64 (fld_offset f + type_field_size f))
  else lift (Throw type_mismatch).

Definition set_buffer (p : place) (field_name : list Z) (value : list Z) : M unit :=
  do! loc := get_field p field_name STRUCT_TYPE_END in
  do! '(f, _) := field_at loc in
  if negb (is_buffer (fld_type f)) then lift (Throw type_mismatch)
  else
    let field_size := type_field_size f in
    let size := Z.of_nat (length value) in
    if decide (size >= 2 ^ (field_size * 8)) then lift (Throw out_of_range)
    else
      let at_ n := wrap 64 (fld_offset f + field_size + n) in
      let resized :=
        do! _ := modify_field (set_size size) loc in
        adjust_offsets (fld_offset f) (size - fld_size f) in
      if decide (fld_size f > size)
      then
        do! _ := buffer_perase p (fld_size f - size) (at_ size) in
        do! _ := buffer_pwrite p (le (Z.to_nat field_size) size) (fld_offset f) false in
        do! _ := buffer_pwrite p value (at_ 0) false in
        resized
      else if decide (fld_size f < size)
      then
        do! _ := buffer_pwrite p (le (Z.to_nat field_size) size) (fld_offset f) false in
        do! _ := buffer_pwrite p (take (Z.to_nat (fld_size f)) value) (at_ 0) false in
        do! _ := buffer_pinsert p (drop (Z.to_nat (fld_size f)) value) (at_ (fld_size f)) in
        resized
      else buffer_pwrite p value (at_ 0) false.

(** ** Structures, arrays and defaults *)

Definition get_structure (p : place) (field_name : list Z) : M place :=
  do! '(q, i) := get_field p field_name STRUCT_TYPE_STRUCTURE in
  do! '(_, subs) := field_at (q, i) in
  if decide (length subs <> 1%nat) then lift (Throw invalid_size)
  else ret (q ++ [(i, 0%nat)]).

(** The places of the items. *)
Definition get_array (p : place) (field_name : list Z) : M (list place) :=
  do! '(q, i) := get_field p field_name STRUCT_TYPE_END in
  do! '(f, subs) := field_at (q, i) in
  if is_array (fld_type f) then ret ((fun k => q ++ [(i, k)]) <$> seq 0 (length subs))
  else lift (Throw type_mismatch).

Definition null_or_default (d : struct_description_t) : option (list Z) :=
  match d_default_value d with
  | Some value => Some value
  | None => if decide (d_type d = STRUCT_TYPE_STRUCTURE_VERSION) then Some (version_text (d_min_version d)) else None
  end.

(** One turn of the loop of [set_defaults()]. *)
Definition set_default (p : place) (d : struct_description_t) : M unit :=
  let write type_size :=
    do! s := this_structure p in
    do! i := lift (find_field s (fst (split_name (d_field_name d)))) in
    do! '(f, _) := field_at (p, i) in
    do! value :=
      lift (string_to_typed_buffer debug (d_type d) (default [] (null_or_default d)) (Z.to_nat (type_size f))) in
    buffer_pwrite p value (fld_offset f) false in
  match d_default_value d with
  | None => if decide (d_type d = STRUCT_TYPE_STRUCTURE_VERSION) then write (fun _ => 0) else ret tt
  | Some value =>
      do! s := this_structure p in
      do! _ := lift (find_field s (fst (split_name (d_field_name d)))) in
      if decide (d_type d = STRUCT_TYPE_CHAR) then write type_field_size
      else if is_pstring (d_type d) then set_string p (d_field_name d) value
      else write (fun _ => 0)
  end.

Fixpoint set_defaults_loop (p : place) (ds : list struct_description_t) : M unit :=
  match ds with
  | [] => ret tt
  | d :: ds => do! _ := set_default p d in set_defaults_loop p ds
  end.

Definition set_defaults (p : place) : M unit :=
  do! s := this_structure p in
  set_defaults_loop p (s_descriptions s).

(** The bytes of the counter of an array. *)
Definition array_bytes (t : struct_type_t) : option nat :=
  match t with
  | STRUCT_TYPE_ARRAY8 => Some 1%nat
  | STRUCT_TYPE_ARRAY16 => Some 2%nat
  | STRUCT_TYPE_ARRAY32 => Some 4%nat
  | _ => None
  end.

(** The description of the items of an array. *)
Definition item_description (f : field_t) : result (list struct_description_t) :=
  match d_sub_description (fld_description f) with
  | Some (inl ds) => Ok ds
  | Some (inr _) => Throw undefined_behavior
  | None => Throw logic_error
  end.

(** The new structure, parsed without a buffer, and where it ends. *)
Definition parse_new_item (ds : list struct_description_t) (offset : Z) : M (structure * Z) := fun st =>
  match parse_descriptions (t_blocks st) None None ds offset with
  | (fields, Ok new_offset) => (Ok (Structure ds None offset new_offset fields, new_offset), st)
  | (_, Throw e) => (Throw e, st)
  end.

Definition with_buffer (id : option nat) (s : structure) : structure :=
  Structure (s_descriptions s) id (s_start_offset s) (s_original_size s) (s_fields s).

Definition new_array_item (p : place) (field_name : list Z) : M place :=
  do! '(q, i) := get_field p field_name STRUCT_TYPE_END in
  do! '(f, subs) := field_at (q, i) in
  match array_bytes (fld_type f) with
  | None => lift (Throw type_mismatch)
  | Some n =>
      do! bytes := buffer_pread p (Z.of_nat n) (fld_offset f) in
      let size := of_le bytes + 1 in
      if decide (size >= 2 ^ (8 * Z.of_nat n)) then lift (Throw out_of_range)
      else
        do! owner := this_structure q in
        do! this := this_structure p in
        do! offset :=
          match s_fields owner !! S i with
          | Some (next, _) => ret (fld_offset next)
          | None => lift (get_current_size None this 0)
          end in
        do! ds := lift (item_description f) in
        do! '(s, new_offset) := parse_new_item ds offset in
        do! add := lift (get_current_size None s 0) in
        do! _ := if debug && negb (Z.eqb add (wrap 64 (new_offset - offset))) then lift (Throw logic_error) else ret tt in
        do! _ := buffer_pinsert p (replicate (Z.to_nat add) 0) offset in
        do! _ := buffer_pwrite p (le n size) (fld_offset f) false in
        do! _ := adjust_offsets (wrap 64 (offset - 1)) (signed 64 (wrap 64 (new_offset - offset))) in
        do! _ := modify_subs (fun subs => subs ++ [with_buffer (s_buffer this) s]) (q, i) in
        let item := q ++ [(i, length subs)] in
        do! _ := set_defaults item in
        do! _ := verify_buffer_size p in
        ret item
  end.

(** [array[idx]] and its place, for an index [0 <= idx]. *)
Definition array_item (q : place) (i : nat) (subs : list structure) (idx : Z) : M structure :=
  match subs !! Z.to_nat idx with
  | Some item => ret item
  | None => lift (Throw undefined_behavior)
  end.

Definition delete_array_item (p : place) (field_name : list Z) (idx : Z) : M unit :=
  do! '(q, i) := get_field p field_name STRUCT_TYPE_END in
  do! '(f, subs) := field_at (q, i) in
  match array_bytes (fld_type f) with
  | None => lift (Throw type_mismatch)
  | Some n =>
      do! bytes := buffer_pread p (Z.of_nat n) (fld_offset f) in
      let size := of_le bytes in
      if decide (size <> Z.of_nat (length subs)) then lift (Throw corrupted_data)
      else if decide (wrap 64 idx >= size) then lift (Throw out_of_range)
      else
        do! item := array_item q i subs idx in
        let offset := s_start_offset item in
        do! item_size := lift (get_current_size None item 0) in
        do! bytes_erased := buffer_perase p item_size offset in
        if decide (wrap 64 bytes_erased <> item_size) then lift (Throw out_of_range)
        else
          do! _ := modify_subs (fun subs => list_delete (Z.to_nat idx) subs) (q, i) in
          do! _ := buffer_pwrite p (le n (size - 1)) (fld_offset f) false in
          do! _ := adjust_offsets (wrap 64 (offset - 1)) (signed 64 (wrap 64 (- item_size))) in
          verify_buffer_size p
  end.

(** ** The buffer *)

(** [std::make_shared<virtual_buffer>(...)], given to the structure at [p]. *)
Definition new_buffer (p : place) (vb : virtual_buffer) : M unit := fun st =>
  modify_structure (with_buffer (Some (length (t_buffers st)))) p
    (TreeState (t_root st) (t_buffers st ++ [vb]) (t_blocks st)).

Definition set_block (p : place) (b : option nat) (offset size : Z) : M unit :=
  do! vb := lift (add_buffer virtual_buffer_empty b offset size) in
  new_buffer p vb.

Definition init_buffer (p : place) : M unit :=
  do! size := parse p in
  do! _ := new_buffer p virtual_buffer_empty in
  do! _ := buffer_pwrite p (replicate (Z.to_nat size) 0) 0 true in
  set_defaults p.

(** The fields are dropped: they are parsed again when they are needed. *)
Definition set_virtual_buffer (p : place) (buffer : option nat) (start_offset : Z) : M unit :=
  modify_structure (fun s => Structure (s_descriptions s) buffer start_offset (s_original_size s) []) p.

Definition get_virtual_buffer (p : place) : M (option nat * Z) :=
  do! s := this_structure p in ret (s_buffer s, s_start_offset s).

Definition get_static_size (p : place) : M Z :=
  do! _ := parse p in
  do! s := this_structure p in
  ret (static_size s).

(** The constructor of a structure without a parent. *)
Definition new_structure (ds : list struct_description_t) (verify_start : bool) : result structure :=
  let starts :=
    match ds with
    | d0 :: d1 :: _ => bool_decide (d_type d0 = STRUCT_TYPE_MAGIC /\ d_type d1 = STRUCT_TYPE_STRUCTURE_VERSION)
    | _ => false
    end in
  if verify_start && negb starts then Throw logic_error
  else Ok (Structure ds None 0 0 []).

End Structure.
