(* ===== verification/StructLayout.v ===== *)
(** * What a structure represents: values, and where they are

    The fields of a structure hold values: bytes of a fixed size, strings and
    buffers that start with their length, arrays that start with their number of
    items, and sub-structures.  [encode] is their binary form, and [laid] says
    that a tree of fields describes that form from an offset: each field has its
    description, its name, its flags, the offset where its value starts and, for
    the sizes the code keeps up to date, its size.  [represents] is the invariant
    of a structure in memory; the operations are proved against it. *)

From S2P Require Import Prelude Names Bytes SortedMap VirtualBuffer StructTypes Convert Structure.

(** ** Values *)

Inductive value : Type :=
  | Raw (bytes : list Z)
  | Sized (n : nat) (bytes : list Z)
  | Items (n : nat) (items : list (list value))
  | Sub (fields : list value)
  | Nothing.

Fixpoint encode (v : value) : list Z :=
  match v with
  | Raw bytes => bytes
  | Sized n bytes => le n (Z.of_nat (length bytes)) ++ bytes
  | Items n items => le n (Z.of_nat (length items)) ++ concat (map (fun r => concat (map encode r)) items)
  | Sub fields => concat (map encode fields)
  | Nothing => []
  end.

Definition encode_all (r : list value) : list Z := concat (map encode r).
Definition encode_items (l : list (list value)) : list Z := concat (map encode_all l).

Definition width (v : value) : Z := Z.of_nat (length (encode v)).
Definition width_all (r : list value) : Z := Z.of_nat (length (encode_all r)).
Definition width_items (l : list (list value)) : Z := Z.of_nat (length (encode_items l)).

Lemma encode_all_cons v r : encode_all (v :: r) = encode v ++ encode_all r.
Proof. done. Qed.
Lemma encode_all_app r r' : encode_all (r ++ r') = encode_all r ++ encode_all r'.
Proof. unfold encode_all. by rewrite map_app, concat_app. Qed.
Lemma encode_items_cons r l : encode_items (r :: l) = encode_all r ++ encode_items l.
Proof. done. Qed.
Lemma encode_items_app l l' : encode_items (l ++ l') = encode_items l ++ encode_items l'.
Proof. unfold encode_items. by rewrite map_app, concat_app. Qed.

Lemma width_all_cons v r : width_all (v :: r) = width v + width_all r.
Proof. unfold width_all, width. rewrite encode_all_cons, length_app. lia. Qed.
Lemma width_all_app r r' : width_all (r ++ r') = width_all r + width_all r'.
Proof. unfold width_all. rewrite encode_all_app, length_app. lia. Qed.
Lemma width_items_cons r l : width_items (r :: l) = width_all r + width_items l.
Proof. unfold width_items, width_all. rewrite encode_items_cons, length_app. lia. Qed.
Lemma width_items_app l l' : width_items (l ++ l') = width_items l + width_items l'.
Proof. unfold width_items. rewrite encode_items_app, length_app. lia. Qed.

Lemma width_raw b : width (Raw b) = Z.of_nat (length b).
Proof. done. Qed.
Lemma width_sized n b : width (Sized n b) = Z.of_nat n + Z.of_nat (length b).
Proof. unfold width. cbn [encode]. rewrite length_app, length_le. lia. Qed.
Lemma width_items_value n l : width (Items n l) = Z.of_nat n + width_items l.
Proof.
  unfold width, width_items. change (encode (Items n l)) with (le n (Z.of_nat (length l)) ++ encode_items l).
  rewrite length_app, length_le. lia.
Qed.
Lemma width_sub r : width (Sub r) = width_all r.
Proof. done. Qed.
Lemma width_nonneg v : 0 <= width v.
Proof. unfold width. lia. Qed.
Lemma width_all_nonneg r : 0 <= width_all r.
Proof. unfold width_all. lia. Qed.
Lemma width_items_nonneg l : 0 <= width_items l.
Proof. unfold width_items. lia. Qed.

(** ** What the description of a field says *)

Definition name_of (d : struct_description_t) : list Z :=
  if is_a_bit_field (d_type d) || is_a_char_field (d_type d) then fst (split_name (d_field_name d)) else d_field_name d.

(** The bytes of the length of a string or a buffer. *)
Definition counted_bytes (t : struct_type_t) : option nat :=
  if is_pstring t || is_buffer t then Some (Z.to_nat (snd (g_struct_type_sizes t))) else None.

Definition is_variable (t : struct_type_t) : bool := is_pstring t || is_buffer t || is_array t.

Section Layout.
Context {validator : IntegerValidator}.

(** The size of a value of a fixed size. *)
Definition fixed_width (d : struct_description_t) : option Z :=
  if decide (d_type d = STRUCT_TYPE_CHAR)
  then
    s ← snd (split_name (d_field_name d)); size ← convert_string s;
    if decide (0 < size < 2 ^ 32) then Some size else None
  else
    let size := fst (g_struct_type_sizes (d_type d)) in
    if decide (0 < size) then Some size else None.

Definition flags_of (d : struct_description_t) : result (list (list Z * flag_definition)) :=
  if is_a_bit_field (d_type d)
  then
    match split_name (d_field_name d) with
    | (name, Some rest) =>
        parse_flags (S (length rest)) name rest (Z.min (8 * fst (g_struct_type_sizes (d_type d))) 64) 0 []
    | (_, None) => Throw logic_error
    end
  else Ok [].

(** ** The tree of fields laid over the values *)

Record field_ok (d : struct_description_t) (off : Z) (f : field_t) : Prop := {
  ok_description : fld_description f = d;
  ok_name : fld_name f = name_of d;
  ok_offset : fld_offset f = off;
  ok_definitions : flags_of d = Ok (fld_flag_definitions f);
  ok_variable : fld_flags f = if is_variable (d_type d) then FIELD_FLAG_VARIABLE_SIZE else 0;
}.

(** [id] is the buffer of the structures that have one. *)
Inductive laid_field (id : nat) : struct_description_t -> value -> Z -> field_t * list structure -> Prop :=
  | laid_raw d b off f : field_ok d off f -> fixed_width d = Some (Z.of_nat (length b)) ->
      fld_size f = Z.of_nat (length b) -> laid_field id d (Raw b) off (f, [])
  | laid_sized d n b off f : field_ok d off f -> counted_bytes (d_type d) = Some n ->
      Z.of_nat (length b) < 2 ^ (8 * Z.of_nat n) -> fld_size f = Z.of_nat (length b) -> laid_field id d (Sized n b) off (f, [])
  | laid_array d n l off f subs ds : field_ok d off f -> array_bytes (d_type d) = Some n ->
      d_sub_description d = Some (inl ds) -> Z.of_nat (length l) < 2 ^ (8 * Z.of_nat n) ->
      laid_items id ds l (off + Z.of_nat n) subs -> laid_field id d (Items n l) off (f, subs)
  | laid_sub d r off f sub ds : field_ok d off f -> d_type d = STRUCT_TYPE_STRUCTURE ->
      d_sub_description d = Some (inl ds) -> laid_structure id ds r off sub -> laid_field id d (Sub r) off (f, [sub])
  | laid_nothing d off f : field_ok d off f -> d_type d = STRUCT_TYPE_VOID \/ d_type d = STRUCT_TYPE_RENAMED ->
      fld_size f = 0 -> laid_field id d Nothing off (f, [])
with laid_fields (id : nat) : list struct_description_t -> list value -> Z -> list (field_t * list structure) -> Prop :=
  | laid_nil off : laid_fields id [] [] off []
  | laid_cons d ds v r off f fs : laid_field id d v off f -> laid_fields id ds r (off + width v) fs ->
      laid_fields id (d :: ds) (v :: r) off (f :: fs)
with laid_items (id : nat) : list struct_description_t -> list (list value) -> Z -> list structure -> Prop :=
  | laid_no_item ds off : laid_items id ds [] off []
  | laid_item ds r l off sub subs : laid_structure id ds r off sub -> laid_items id ds l (off + width_all r) subs ->
      laid_items id ds (r :: l) off (sub :: subs)
with laid_structure (id : nat) : list struct_description_t -> list value -> Z -> structure -> Prop :=
  | laid_intro ds r off s : s_descriptions s = ds -> s_start_offset s = off ->
      s_buffer s = None \/ s_buffer s = Some id -> laid_fields id ds r off (s_fields s) -> laid_structure id ds r off s.

End Layout.

Scheme laid_field_mut := Minimality for laid_field Sort Prop
  with laid_fields_mut := Minimality for laid_fields Sort Prop
  with laid_items_mut := Minimality for laid_items Sort Prop
  with laid_structure_mut := Minimality for laid_structure Sort Prop.
Combined Scheme laid_mutind from laid_field_mut, laid_fields_mut, laid_items_mut, laid_structure_mut.

(** ** Adjusting offsets *)

Definition adjust_sub (cutoff diff : Z) (sub : structure) : structure :=
  let sub := adjust_structure cutoff diff sub in
  if decide (s_start_offset sub > cutoff)
  then Structure (s_descriptions sub) (s_buffer sub) (wrap 64 (s_start_offset sub + diff)) (s_original_size sub) (s_fields sub)
  else sub.

Definition adjust_field (cutoff diff : Z) (f : field_t * list structure) : field_t * list structure :=
  (if decide (fld_offset (fst f) > cutoff) then adjust_offset diff (fst f) else fst f, map (adjust_sub cutoff diff) (snd f)).

Lemma adjust_structure_eq cutoff diff s :
  adjust_structure cutoff diff s = with_fields s (map (adjust_field cutoff diff) (s_fields s)).
Proof. destruct s. cbn. f_equal. apply map_ext. by intros [f subs]. Qed.

Lemma with_fields_same s : with_fields s (s_fields s) = s.
Proof. by destruct s. Qed.

(** Every field of a description takes some bytes. *)
Inductive solid : struct_description_t -> Prop :=
  | solid_intro d : d_type d <> STRUCT_TYPE_VOID -> d_type d <> STRUCT_TYPE_RENAMED ->
      (forall ds, d_sub_description d = Some (inl ds) -> ds <> [] /\ Forall solid ds) -> solid d.

Section Adjust.
Context {validator : IntegerValidator} (id : nat).
Abbreviation field_laid := (laid_field id).
Abbreviation fields_laid := (laid_fields id).
Abbreviation items_laid := (laid_items id).
Abbreviation structure_laid := (laid_structure id).

(** A value of a solid field is not empty. *)
Lemma solid_width :
  (forall d v off f, field_laid d v off f -> solid d -> 0 < width v) /\
  (forall ds r off fs, fields_laid ds r off fs -> Forall solid ds -> ds <> [] -> 0 < width_all r) /\
  (forall ds l off subs, items_laid ds l off subs -> True) /\
  (forall ds r off s, structure_laid ds r off s -> Forall solid ds -> ds <> [] -> 0 < width_all r).
Proof.
  apply laid_mutind; try done.
  - intros d b off f _ Hw _ _. rewrite width_raw. unfold fixed_width in Hw. repeat case_decide; simplify_eq; try lia.
    apply bind_Some in Hw as (s & _ & (n & _ & Hn)%bind_Some). case_decide; simplify_eq. lia.
  - intros d n b off f _ Hn _ _ _. rewrite width_sized. unfold counted_bytes in Hn.
    destruct (d_type d); simplify_eq/=; lia.
  - intros d n l off f subs ds _ Hn _ _ _ _ _. rewrite width_items_value. pose proof (width_items_nonneg l).
    destruct (d_type d); simplify_eq/=; lia.
  - intros d r off f sub ds _ _ Hd _ IH Hs. inversion Hs as [? _ _ Hsub]; subst. destruct (Hsub _ Hd). rewrite width_sub. auto.
  - intros d off f _ [H|H] _ Hs; inversion Hs; congruence.
  - intros d ds v r off f fs _ IHf _ _ [Hd Hds]%Forall_cons _. rewrite width_all_cons. pose proof (width_all_nonneg r).
    specialize (IHf Hd). lia.
Qed.

(** What is before the cutoff does not move; the end may be just after it when
    every field takes some bytes. *)
Definition before (tight : bool) (cutoff end_offset : Z) : Prop := end_offset <= cutoff + (if tight then 1 else 0).

Lemma adjust_before (tight : bool) cutoff diff :
  (forall d v off f, field_laid d v off f -> (tight = true -> solid d) -> before tight cutoff (off + width v) ->
     adjust_field cutoff diff f = f) /\
  (forall ds r off fs, fields_laid ds r off fs -> (tight = true -> Forall solid ds) ->
     before tight cutoff (off + width_all r) -> map (adjust_field cutoff diff) fs = fs) /\
  (forall ds l off subs, items_laid ds l off subs -> (tight = true -> ds <> [] /\ Forall solid ds) ->
     before tight cutoff (off + width_items l) -> map (adjust_sub cutoff diff) subs = subs) /\
  (forall ds r off s, structure_laid ds r off s -> (tight = true -> ds <> [] /\ Forall solid ds) ->
     before tight cutoff (off + width_all r) -> adjust_sub cutoff diff s = s).
Proof.
  assert (forall d v off f, field_laid d v off f -> (tight = true -> solid d) -> before tight cutoff (off + width v) ->
    ~ fld_offset (fst f) > cutoff) as Hfirst.
  { intros d v off f Hl Hs Hb. pose proof (proj1 solid_width d v off f Hl) as Hw. pose proof (width_nonneg v).
    assert (fld_offset (fst f) = off) as -> by (destruct Hl; apply ok_offset with d; done).
    unfold before in Hb. destruct tight; [specialize (Hw (Hs eq_refl))|]; lia. }
  apply laid_mutind.
  - intros d b off f Hok Hw Hsz Hs Hb. unfold adjust_field. cbn [fst snd map].
    rewrite decide_False by (apply (Hfirst d (Raw b) off (f, [])); [by constructor|done..]). done.
  - intros d n b off f Hok Hn Hlt Hsz Hs Hb. unfold adjust_field. cbn [fst snd map].
    rewrite decide_False by (apply (Hfirst d (Sized n b) off (f, [])); [by constructor|done..]). done.
  - intros d n l off f subs ds Hok Hn Hd Hlt Hl IH Hs Hb. unfold adjust_field. cbn [fst snd map].
    rewrite decide_False by (apply (Hfirst d (Items n l) off (f, subs)); [by econstructor|done..]). rewrite IH; [done| |].
    + intros Ht. specialize (Hs Ht). inversion Hs as [? _ _ Hsub]; subst. by apply Hsub.
    + rewrite width_items_value in Hb. by rewrite <- Z.add_assoc.
  - intros d r off f sub ds Hok Ht Hd Hl IH Hs Hb. unfold adjust_field. cbn [fst snd map].
    rewrite decide_False by (apply (Hfirst d (Sub r) off (f, [sub])); [by econstructor|done..]). rewrite IH; [done| |done].
    intros Htight. specialize (Hs Htight). inversion Hs as [? _ _ Hsub]; subst. by apply Hsub.
  - intros d off f Hok Ht Hsz Hs Hb. unfold adjust_field. cbn [fst snd map].
    rewrite decide_False by (apply (Hfirst d Nothing off (f, [])); [by constructor|done..]). done.
  - done.
  - intros d ds v r off f fs Hf IHf Hfs IHfs Hs Hb. rewrite width_all_cons in Hb. cbn [map].
    pose proof (width_all_nonneg r). unfold before in *.
    rewrite IHf, IHfs; [done| |lia| |lia]; intros Ht; by destruct (proj1 (Forall_cons _ _ _) (Hs Ht)).
  - done.
  - intros ds r l off sub subs Hr IHr Hl IHl Hs Hb. rewrite width_items_cons in Hb. cbn [map].
    pose proof (width_items_nonneg l). unfold before in *. rewrite IHr, IHl; [done|done|lia|done|lia].
  - intros ds r off s Hd Ho Hbuf Hl IH Hs Hb. unfold adjust_sub. rewrite adjust_structure_eq, IH.
    + rewrite with_fields_same, Ho. rewrite decide_False; [done|]. unfold before in Hb.
      pose proof (proj2 (proj2 (proj2 solid_width)) ds r off s ltac:(by constructor)) as Hw. pose proof (width_all_nonneg r).
      destruct tight; [destruct (Hs eq_refl) as [H1 H2]; specialize (Hw H2 H1)|]; lia.
    + intros Ht. by apply Hs.
    + done.
Qed.

(** What is after it moves. *)
Lemma adjust_after cutoff diff :
  (forall d v off f, field_laid d v off f -> cutoff < off -> 0 <= off + diff -> off + diff + width v < 2 ^ 64 ->
     field_laid d v (off + diff) (adjust_field cutoff diff f)) /\
  (forall ds r off fs, fields_laid ds r off fs -> cutoff < off -> 0 <= off + diff -> off + diff + width_all r < 2 ^ 64 ->
     fields_laid ds r (off + diff) (map (adjust_field cutoff diff) fs)) /\
  (forall ds l off subs, items_laid ds l off subs -> cutoff < off -> 0 <= off + diff -> off + diff + width_items l < 2 ^ 64 ->
     items_laid ds l (off + diff) (map (adjust_sub cutoff diff) subs)) /\
  (forall ds r off s, structure_laid ds r off s -> cutoff < off -> 0 <= off + diff -> off + diff + width_all r < 2 ^ 64 ->
     structure_laid ds r (off + diff) (adjust_sub cutoff diff s)).
Proof.
  assert (forall d off f, field_ok d off f -> cutoff < off -> 0 <= off + diff -> off + diff < 2 ^ 64 ->
    (if decide (fld_offset f > cutoff) then adjust_offset diff f else f) = set_offset (off + diff) f /\
    field_ok d (off + diff) (set_offset (off + diff) f)) as Hmove.
  { intros d off f [H1 H2 H3 H4 H5] Hc H0 Hlt. rewrite decide_True by lia. unfold adjust_offset. rewrite H3.
    rewrite wrap_small by (unfold uword; lia). by split. }
  apply laid_mutind.
  - intros d b off f Hok Hw Hsz Hc H0 Hlt. pose proof (width_nonneg (Raw b)). destruct (Hmove d off f Hok) as [E Hok']; [lia..|].
    unfold adjust_field. cbn [fst snd map]. rewrite E. by constructor.
  - intros d n b off f Hok Hn Hl Hsz Hc H0 Hlt. pose proof (width_nonneg (Sized n b)).
    destruct (Hmove d off f Hok) as [E Hok']; [lia..|]. unfold adjust_field. cbn [fst snd map]. rewrite E. by constructor.
  - intros d n l off f subs ds Hok Hn Hd Hl Hsubs IH Hc H0 Hlt. rewrite width_items_value in Hlt.
    pose proof (width_items_nonneg l). destruct (Hmove d off f Hok) as [E Hok']; [lia..|].
    unfold adjust_field. cbn [fst snd map]. rewrite E. apply laid_array with ds; try done.
    replace (off + diff + Z.of_nat n) with (off + Z.of_nat n + diff) by lia. apply IH; lia.
  - intros d r off f sub ds Hok Ht Hd Hsub IH Hc H0 Hlt. rewrite width_sub in Hlt. pose proof (width_all_nonneg r).
    destruct (Hmove d off f Hok) as [E Hok']; [lia..|]. unfold adjust_field. cbn [fst snd map]. rewrite E.
    apply laid_sub with ds; auto.
  - intros d off f Hok Ht Hsz Hc H0 Hlt. pose proof (width_nonneg Nothing). destruct (Hmove d off f Hok) as [E Hok']; [lia..|].
    unfold adjust_field. cbn [fst snd map]. rewrite E. by constructor.
  - constructor.
  - intros d ds v r off f fs Hf IHf Hfs IHfs Hc H0 Hlt. rewrite width_all_cons in Hlt. cbn [map].
    pose proof (width_nonneg v). pose proof (width_all_nonneg r). constructor; [apply IHf; lia|].
    replace (off + diff + width v) with (off + width v + diff) by lia. apply IHfs; lia.
  - constructor.
  - intros ds r l off sub subs Hr IHr Hl IHl Hc H0 Hlt. rewrite width_items_cons in Hlt. cbn [map].
    pose proof (width_all_nonneg r). pose proof (width_items_nonneg l). constructor; [apply IHr; lia|].
    replace (off + diff + width_all r) with (off + width_all r + diff) by lia. apply IHl; lia.
  - intros ds r off s Hd Ho Hb Hl IH Hc H0 Hlt. pose proof (width_all_nonneg r). unfold adjust_sub.
    rewrite adjust_structure_eq. cbn [with_fields s_start_offset]. rewrite Ho, decide_True by lia.
    rewrite wrap_small by (unfold uword; lia). constructor; try done. cbn [s_fields]. apply IH; lia.
Qed.
End Adjust.

(** ** Places in values *)

(** The fields of a sub-structure of a value. *)
Definition sub_value (v : value) (k : nat) : option (list value) :=
  match v with
  | Sub r => if decide (k = 0%nat) then Some r else None
  | Items _ l => l !! k
  | _ => None
  end.

Definition alter_sub (g : list value -> list value) (k : nat) (v : value) : value :=
  match v with
  | Sub r => if decide (k = 0%nat) then Sub (g r) else v
  | Items n l => Items n (alter g k l)
  | _ => v
  end.

Fixpoint value_at (p : place) (r : list value) : option (list value) :=
  match p with
  | [] => Some r
  | (i, k) :: p => v ← r !! i; r ← sub_value v k; value_at p r
  end.

Fixpoint alter_value (g : list value -> list value) (p : place) (r : list value) : list value :=
  match p with
  | [] => g r
  | (i, k) :: p => alter (alter_sub (alter_value g p) k) i r
  end.

Fixpoint description_at (p : place) (ds : list struct_description_t) : option (list struct_description_t) :=
  match p with
  | [] => Some ds
  | (i, _) :: p =>
      d ← ds !! i;
      match d_sub_description d with Some (inl ds) => description_at p ds | _ => None end
  end.

Lemma alter_middle {A} (g : A -> A) (l1 l2 : list A) x : alter g (length l1) (l1 ++ x :: l2) = l1 ++ g x :: l2.
Proof. induction l1 as [|y l1 IH]; [done|]. cbn. by f_equal. Qed.

Lemma lookup_middle {A} (l1 l2 : list A) x : (l1 ++ x :: l2) !! length l1 = Some x.
Proof. by rewrite lookup_app_r, Nat.sub_diag by lia. Qed.

Lemma lookup_split {A} (l : list A) i x : l !! i = Some x -> exists l1 l2, l = l1 ++ x :: l2 /\ i = length l1.
Proof.
  intros Hl. exists (take i l), (drop (S i) l). split; [by rewrite take_drop_middle|].
  apply lookup_lt_Some in Hl. rewrite length_take. lia.
Qed.

Section Places.
Context {validator : IntegerValidator} (id : nat).
Abbreviation field_laid := (laid_field id).
Abbreviation fields_laid := (laid_fields id).
Abbreviation items_laid := (laid_items id).
Abbreviation structure_laid := (laid_structure id).

(** Cutting the fields, and the items, at one of them. *)
Lemma fields_split ds r off fs1 f fs2 : fields_laid ds r off (fs1 ++ f :: fs2) <->
  exists ds1 d ds2 r1 v r2, ds = ds1 ++ d :: ds2 /\ r = r1 ++ v :: r2 /\ length ds1 = length fs1 /\ length r1 = length fs1 /\
    fields_laid ds1 r1 off fs1 /\ field_laid d v (off + width_all r1) f /\
    fields_laid ds2 r2 (off + width_all r1 + width v) fs2.
Proof.
  split.
  - revert ds r off. induction fs1 as [|f1 fs1 IH]; intros ds r off Hl; cbn [app] in Hl; inversion Hl as [|d ds' v r' ? ? ? Hf Hfs]; subst.
    + exists [], d, ds', [], v, r'. change (width_all []) with 0. rewrite Z.add_0_r. split_and!; try done. constructor.
    + destruct (IH _ _ _ Hfs) as (ds1 & d2 & ds2 & r1 & v2 & r2 & -> & -> & H1 & H2 & H3 & H4 & H5).
      exists (d :: ds1), d2, ds2, (v :: r1), v2, r2. rewrite width_all_cons.
      replace (off + (width v + width_all r1)) with (off + width v + width_all r1) by lia.
      split_and!; cbn; try done; [lia|lia|by constructor].
  - intros (ds1 & d & ds2 & r1 & v & r2 & -> & -> & H1 & H2 & Hl1 & Hf & Hl2).
    revert ds1 r1 off H1 H2 Hl1 Hf Hl2. induction fs1 as [|f1 fs1 IH]; intros [|d1 ds1] [|v1 r1] off H1 H2 Hl1 Hf Hl2;
      cbn in H1, H2; try done; cbn [app].
    + change (width_all []) with 0 in *. rewrite Z.add_0_r in *. by constructor.
    + inversion Hl1; subst. rewrite width_all_cons in *. constructor; [done|]. apply IH; try lia; try done.
      * by replace (off + width v1 + width_all r1) with (off + (width v1 + width_all r1)) by lia.
      * by replace (off + width v1 + width_all r1) with (off + (width v1 + width_all r1)) by lia.
Qed.

Lemma items_split ds l off subs1 sub subs2 : items_laid ds l off (subs1 ++ sub :: subs2) <->
  exists l1 r l2, l = l1 ++ r :: l2 /\ length l1 = length subs1 /\ items_laid ds l1 off subs1 /\
    structure_laid ds r (off + width_items l1) sub /\ items_laid ds l2 (off + width_items l1 + width_all r) subs2.
Proof.
  split.
  - revert l off. induction subs1 as [|s1 subs1 IH]; intros l off Hl; cbn [app] in Hl; inversion Hl as [|? r l' ? ? ? Hs Hss]; subst.
    + exists [], r, l'. change (width_items []) with 0. rewrite Z.add_0_r. split_and!; try done. constructor.
    + destruct (IH _ _ Hss) as (l1 & r2 & l2 & -> & H1 & H2 & H3 & H4). exists (r :: l1), r2, l2. rewrite width_items_cons.
      replace (off + (width_all r + width_items l1)) with (off + width_all r + width_items l1) by lia.
      split_and!; cbn; try done; [lia|by constructor].
  - intros (l1 & r & l2 & -> & H1 & Hl1 & Hs & Hl2). revert l1 off H1 Hl1 Hs Hl2.
    induction subs1 as [|s1 subs1 IH]; intros [|r1 l1] off H1 Hl1 Hs Hl2; cbn in H1; try done; cbn [app].
    + change (width_items []) with 0 in *. rewrite Z.add_0_r in *. by constructor.
    + inversion Hl1; subst. rewrite width_items_cons in *. constructor; [done|]. apply IH; try lia; try done.
      * by replace (off + width_all r1 + width_items l1) with (off + (width_all r1 + width_items l1)) by lia.
      * by replace (off + width_all r1 + width_items l1) with (off + (width_all r1 + width_items l1)) by lia.
Qed.

Lemma items_length ds l off subs : items_laid ds l off subs -> length subs = length l.
Proof. revert off subs. induction l as [|r l IH]; intros off subs Hl; inversion Hl; subst; [done|]. cbn. f_equal. eauto. Qed.

Lemma fields_length ds r off fs : fields_laid ds r off fs -> length fs = length r /\ length ds = length r.
Proof.
  revert ds off fs. induction r as [|v r IH]; intros ds off fs Hl; inversion Hl as [|? ? ? ? ? ? ? Hf Hfs]; subst; [done|].
  destruct (IH _ _ _ Hfs). cbn. lia.
Qed.

(** The sub-structure [k] of a field that is laid: its part of the bytes. *)
Lemma field_sub d v off f subs k sub : field_laid d v off (f, subs) -> subs !! k = Some sub ->
  exists ds r o pre post, d_sub_description d = Some (inl ds) /\ sub_value v k = Some r /\ structure_laid ds r o sub /\
    encode v = pre ++ encode_all r ++ post /\ o = off + Z.of_nat (length pre) /\
    forall g, encode (alter_sub g k v) = pre ++ encode_all (g r) ++ post.
Proof.
  intros Hf Hk. inversion Hf as [| |? n l ? ? ? ds Hok Hn Hd Hlt Hl|? r ? ? ? ds Hok Ht Hd Hs|]; subst; try done.
  - destruct (lookup_split _ _ _ Hk) as (subs1 & subs2 & -> & ->).
    apply items_split in Hl as (l1 & r & l2 & -> & Hlen & Hl1 & Hs & Hl2).
    exists ds, r, (off + Z.of_nat n + width_items l1), (le n (Z.of_nat (length (l1 ++ r :: l2))) ++ encode_items l1), (encode_items l2).
    assert (forall x, encode (Items n (l1 ++ x :: l2))
      = (le n (Z.of_nat (length (l1 ++ r :: l2))) ++ encode_items l1) ++ encode_all x ++ encode_items l2) as Henc.
    { intros x. change (encode (Items n ?l)) with (le n (Z.of_nat (length l)) ++ encode_items l).
      rewrite encode_items_app, encode_items_cons, !length_app. cbn [length]. by rewrite <- app_assoc. }
    split_and!; [done| |done|apply Henc| |].
    + cbn. rewrite <- Hlen. apply lookup_middle.
    + unfold width_items. rewrite !length_app, length_le. lia.
    + intros g. cbn [alter_sub]. rewrite <- Hlen, alter_middle. apply Henc.
  - destruct k as [|k]; [|done]. cbn in Hk. simplify_eq.
    exists ds, r, off, [], []. cbn. rewrite Z.add_0_r. split_and!; try done; intros; by rewrite app_nil_r.
Qed.

Lemma encode_middle r1 v r2 : encode_all (r1 ++ v :: r2) = encode_all r1 ++ encode v ++ encode_all r2.
Proof. by rewrite encode_all_app, encode_all_cons. Qed.

(** The structure at a place: what it represents, and its part of the bytes. *)
Lemma laid_at q ds r off s sq : structure_laid ds r off s -> structure_at q s = Some sq ->
  exists dsq rq offq pre post, description_at q ds = Some dsq /\ value_at q r = Some rq /\ structure_laid dsq rq offq sq /\
    encode_all r = pre ++ encode_all rq ++ post /\ offq = off + Z.of_nat (length pre) /\
    forall g, encode_all (alter_value g q r) = pre ++ encode_all (g rq) ++ post.
Proof.
  revert ds r off s. induction q as [|[i k] q IH]; intros ds r off s Hs Hq; cbn [structure_at] in Hq.
  { simplify_eq. exists ds, r, off, [], []. cbn. rewrite Z.add_0_r. split_and!; try done; intros; by rewrite app_nil_r. }
  destruct (s_fields s !! i) as [[f subs]|] eqn:Hi; [|done]. cbn in Hq. destruct (subs !! k) as [sub|] eqn:Hk; [|done]. cbn in Hq.
  inversion Hs as [? ? ? ? Hd Ho Hb Hl]; subst. destruct (lookup_split _ _ _ Hi) as (fs1 & fs2 & Hfs & ->). rewrite Hfs in Hl.
  apply fields_split in Hl as (ds1 & d & ds2 & r1 & v & r2 & Hds & -> & Hlen1 & Hlen2 & Hl1 & Hf & Hl2).
  destruct (field_sub _ _ _ _ _ _ _ Hf Hk) as (dsub & rsub & o & pre & post & Hsub & Hv & Hlsub & Henc & -> & Hg).
  destruct (IH _ _ _ _ Hlsub Hq) as (dsq & rq & offq & pre2 & post2 & H1 & H2 & H3 & H4 & -> & H6).
  exists dsq, rq. eexists _, (encode_all r1 ++ pre ++ pre2), (post2 ++ post ++ encode_all r2).
  rewrite <- Hlen2. cbn [description_at value_at alter_value]. rewrite lookup_middle, Hds, Hlen2, <- Hlen1, lookup_middle.
  cbn. rewrite Hsub, Hv. split_and!; try done.
  - rewrite encode_middle, Henc, H4. by rewrite <- !app_assoc.
  - rewrite !length_app. unfold width_all. lia.
  - intros g. rewrite Hlen1, <- Hlen2, alter_middle, encode_middle, Hg, H6. by rewrite <- !app_assoc.
Qed.

(** A place of the values is a place of the tree. *)
Lemma structure_at_value q ds r off s rq : structure_laid ds r off s -> value_at q r = Some rq ->
  exists sq, structure_at q s = Some sq.
Proof.
  revert ds r off s. induction q as [|[i k] q IH]; intros ds r off s Hs Hq; cbn [value_at structure_at] in *; [eauto|].
  destruct (r !! i) as [v|] eqn:Hi; [|done]. cbn in Hq. destruct (sub_value v k) as [rs|] eqn:Hk; [|done]. cbn in Hq.
  inversion Hs as [? ? ? ? Hd Ho Hb Hl]; subst. destruct (fields_length _ _ _ _ Hl) as [Hlen _].
  destruct (lookup_lt_is_Some_2 (s_fields s) i) as [[f subs] Hf]; [rewrite Hlen; by eapply lookup_lt_Some|].
  rewrite Hf. cbn. destruct (lookup_split _ _ _ Hf) as (fs1 & fs2 & Hfs & ->). rewrite Hfs in Hl.
  apply fields_split in Hl as (ds1 & d & ds2 & r1 & v' & r2 & Hds & -> & Hlen1 & Hlen2 & Hl1 & Hlf & Hl2).
  rewrite <- Hlen2, lookup_middle in Hi. simplify_eq.
  destruct v; try done; inversion Hlf as [| |? n' l ? ? ? dsub Hok Hn Hsub Hlt Hitems|? r ? ? ? dsub Hok Ht Hsub Hstruct|]; subst; cbn in Hk.
  - destruct (lookup_lt_is_Some_2 subs k) as [sub Hsubk]; [rewrite (items_length _ _ _ _ Hitems); by eapply lookup_lt_Some|].
    rewrite Hsubk. cbn. destruct (lookup_split _ _ _ Hsubk) as (subs1 & subs2 & -> & ->).
    apply items_split in Hitems as (l1 & r & l2 & -> & Hlenl & _ & Hls & _).
    rewrite <- Hlenl, lookup_middle in Hk. simplify_eq. by eapply IH.
  - case_decide; [|done]. simplify_eq. cbn. by eapply IH.
Qed.
End Places.

(** ** Changing the structure at a place *)

(** A change of the structure at [q] that makes it longer by [diff], with the
    offsets after [cutoff] adjusted in between, keeps the tree laid. *)
Section Splice.
Context {validator : IntegerValidator} (id : nat) (cutoff diff : Z).
Context (g h : structure -> structure) (gv : list value -> list value) (rq : list value).
Abbreviation structure_laid := (laid_structure id).

Context (g_start : forall s, s_start_offset (g s) = s_start_offset s).
Context (wider : width_all (gv rq) = width_all rq + diff).

(** What must hold where the change is made. *)
Definition changed_here (sq : structure) : Prop :=
  forall dsq offq, structure_laid dsq rq offq sq -> 0 <= offq -> offq + width_all rq + Z.max 0 diff < 2 ^ 64 ->
    offq <= cutoff < offq + width_all rq /\ structure_laid dsq (gv rq) offq (h (adjust_structure cutoff diff (g sq))).

Lemma alter_at_start q s : s_start_offset (alter_at g q s) = s_start_offset s.
Proof. destruct q as [|[i k] q]; [apply g_start|done]. Qed.

(** The sub-structure [k] of a field, changed, and the ones around it. *)
Lemma splice_items ds l1 r l2 off subs1 sub subs2 r' sub' :
  laid_items id ds (l1 ++ r :: l2) off (subs1 ++ sub :: subs2) -> length l1 = length subs1 ->
  0 <= off -> off + width_items (l1 ++ r :: l2) + Z.max 0 diff < 2 ^ 64 ->
  off + width_items l1 <= cutoff < off + width_items l1 + width_all r -> width_all r' = width_all r + diff ->
  structure_laid ds r' (off + width_items l1) sub' ->
  laid_items id ds (l1 ++ r' :: l2) off (map (adjust_sub cutoff diff) subs1 ++ sub' :: map (adjust_sub cutoff diff) subs2).
Proof.
  intros Hl Hlen Ho Hmax Hc Hw Hsub'. apply items_split in Hl as (l1' & r0 & l2' & Heq & Hlen' & Hl1 & Hs & Hl2).
  apply app_inj_1 in Heq as [-> [= -> ->]]; [|lia]. pose proof (width_all_nonneg r'). pose proof (width_items_nonneg l1').
  rewrite width_items_app, width_items_cons in Hmax. apply items_split. exists l1', r', l2'. split_and!; [done|by rewrite length_map| |done|].
  - destruct (adjust_before id false cutoff diff) as (_ & _ & Hbefore & _). rewrite (Hbefore ds l1' off subs1); [done..|].
    unfold before. lia.
  - destruct (adjust_after id cutoff diff) as (_ & _ & Hafter & _).
    replace (off + width_items l1' + width_all r') with (off + width_items l1' + width_all r0 + diff) by lia.
    apply Hafter; [done|lia|lia|]. pose proof (width_items_nonneg l2'). lia.
Qed.

Lemma splice_fields ds r1 v r2 off fs1 f fs2 v' f' d :
  laid_fields id ds (r1 ++ v :: r2) off (fs1 ++ f :: fs2) -> length r1 = length fs1 -> ds !! length fs1 = Some d ->
  0 <= off -> off + width_all (r1 ++ v :: r2) + Z.max 0 diff < 2 ^ 64 ->
  off + width_all r1 <= cutoff < off + width_all r1 + width v -> width v' = width v + diff ->
  laid_field id d v' (off + width_all r1) f' ->
  laid_fields id ds (r1 ++ v' :: r2) off (map (adjust_field cutoff diff) fs1 ++ f' :: map (adjust_field cutoff diff) fs2).
Proof.
  intros Hl Hlen Hd Ho Hmax Hc Hw Hf'. apply fields_split in Hl as (ds1 & d0 & ds2 & r1' & v0 & r2' & -> & Heq & Hlen1 & Hlen' & Hl1 & Hs & Hl2).
  apply app_inj_1 in Heq as [-> [= -> ->]]; [|lia]. pose proof (width_nonneg v'). pose proof (width_all_nonneg r1').
  rewrite <- Hlen1, lookup_middle in Hd. simplify_eq.
  rewrite width_all_app, width_all_cons in Hmax. apply fields_split. exists ds1, d, ds2, r1', v', r2'.
  split_and!; [done|done|by rewrite length_map|by rewrite length_map| |done|].
  - destruct (adjust_before id false cutoff diff) as (_ & Hbefore & _). rewrite (Hbefore ds1 r1' off fs1); [done..|].
    unfold before. lia.
  - destruct (adjust_after id cutoff diff) as (_ & Hafter & _).
    replace (off + width_all r1' + width v') with (off + width_all r1' + width v0 + diff) by lia.
    apply Hafter; [done|lia|lia|]. pose proof (width_all_nonneg r2'). lia.
Qed.

Lemma splice_sub d v off f subs1 sub subs2 rk rk' sub' :
  laid_field id d v off (f, subs1 ++ sub :: subs2) -> sub_value v (length subs1) = Some rk -> width_all rk' = width_all rk + diff ->
  0 <= off -> off + width v + Z.max 0 diff < 2 ^ 64 ->
  s_start_offset sub <= cutoff < s_start_offset sub + width_all rk ->
  (forall ds, structure_laid ds rk (s_start_offset sub) sub -> structure_laid ds rk' (s_start_offset sub) sub') ->
  laid_field id d (alter_sub (fun _ => rk') (length subs1) v) off
    (fst (adjust_field cutoff diff (f, [])), map (adjust_sub cutoff diff) subs1 ++ sub' :: map (adjust_sub cutoff diff) subs2) /\
  width (alter_sub (fun _ => rk') (length subs1) v) = width v + diff.
Proof.
  intros Hf Hk Hw Ho Hmax Hc Hsub'. destruct (field_sub id _ _ _ _ _ _ _ Hf (lookup_middle subs1 subs2 sub)) as
    (ds & r & o & pre & post & Hds & Hv & Hs & Henc & Hoff & Hg). rewrite Hk in Hv. simplify_eq.
  assert (s_start_offset sub = off + Z.of_nat (length pre)) as Hstart by (inversion Hs; done).
  split; [|unfold width; rewrite Hg, Henc, !length_app; unfold width_all in Hw; lia].
  assert (fst (adjust_field cutoff diff (f, [])) = f) as ->.
  { unfold adjust_field. cbn [fst snd]. rewrite decide_False; [done|].
    assert (fld_offset f = off) as ->; [|lia]. inversion Hf; subst; by eapply ok_offset. }
  rewrite <- Hstart in Hs. specialize (Hsub' _ Hs).
  inversion Hf as [| |? n l ? ? subs ds' Hok Hn Hd Hlt Hl|? r' ? ? sub0 ds' Hok Ht Hd Hs0|]; subst;
    cbn [sub_value] in Hk; try discriminate Hk.
  - assert (Hlen : length l = length (subs1 ++ sub :: subs2)) by (symmetry; by eapply items_length).
    cbn [sub_value] in Hk. destruct (lookup_split _ _ _ Hk) as (l1 & l2 & -> & Hl1).
    cbn [alter_sub]. rewrite Hl1, alter_middle. rewrite Hds in Hd. simplify_eq.
    apply laid_array with ds'; try done; [by rewrite !length_app in *|].
    pose proof Hl as Hl'. apply items_split in Hl' as (l1' & r0 & l2' & Heq & Hlen1 & _ & Hs1 & _).
    apply app_inj_1 in Heq as [<- [= <- <-]]; [|lia]. assert (s_start_offset sub = off + Z.of_nat n + width_items l1) as E by (inversion Hs1; done).
    rewrite width_items_value in Hmax. apply (splice_items ds' l1 r l2 _ subs1 sub subs2 rk' sub'); try done; lia || (by rewrite <- E).
  - destruct subs1 as [|s1 subs1]; [|by destruct subs1]. cbn in *. simplify_eq.
    apply laid_sub with ds; try done.
    assert (s_start_offset sub = off) as <- by (inversion Hs0; done). done.
Qed.

Lemma splice_structure q ds r off s sq : structure_laid ds r off s -> structure_at q s = Some sq -> value_at q r = Some rq ->
  0 <= off -> off + width_all r + Z.max 0 diff < 2 ^ 64 -> changed_here sq ->
  structure_laid ds (alter_value gv q r) off (alter_at h q (adjust_structure cutoff diff (alter_at g q s))) /\
  width_all (alter_value gv q r) = width_all r + diff /\
  off <= cutoff < off + width_all r.
Proof.
  intros Hs Hq Hr Ho Hmax Hhere. revert ds r off s Hs Hq Hr Ho Hmax.
  induction q as [|[i k] q IH]; intros ds r off s Hs Hq Hr Ho Hmax; cbn [structure_at value_at] in Hq, Hr.
  { simplify_eq. cbn [alter_value alter_at]. destruct (Hhere _ _ Hs Ho Hmax). done. }
  destruct (s_fields s !! i) as [[f subs]|] eqn:Hi; [|done]. cbn in Hq. destruct (subs !! k) as [sub|] eqn:Hk; [|done]. cbn in Hq.
  destruct (r !! i) as [v|] eqn:Hv; [|done]. cbn in Hr. destruct (sub_value v k) as [rk|] eqn:Hrk; [|done]. cbn in Hr.
  pose proof Hs as Hs0. inversion Hs as [? ? ? ? Hd Hoff Hb Hl]; subst. destruct (lookup_split _ _ _ Hi) as (fs1 & fs2 & Hfs & ->).
  destruct (lookup_split _ _ _ Hk) as (subs1 & subs2 & -> & ->). rewrite Hfs in Hl. pose proof Hl as Hl0.
  apply fields_split in Hl0 as (ds1 & d & ds2 & r1 & v0 & r2 & Hds & -> & Hlen1 & Hlen2 & Hl1 & Hf & Hl2).
  rewrite <- Hlen2, lookup_middle in Hv. simplify_eq.
  destruct (field_sub id _ _ _ _ _ _ _ Hf (lookup_middle subs1 subs2 sub)) as (dsub & rsub & o & pre & post & Hsubd & Hsv & Hlsub & Henc & Ho' & Hg).
  rewrite Hrk in Hsv. simplify_eq. pose proof (width_all_nonneg r1). pose proof (width_all_nonneg r2).
  rewrite width_all_app, width_all_cons in Hmax.
  assert (width v = Z.of_nat (length pre) + width_all rsub + Z.of_nat (length post)) as Hwv by (unfold width, width_all; rewrite Henc, !length_app; lia).
  destruct (IH _ _ _ _ Hlsub Hq Hr ltac:(lia) ltac:(lia)) as (Hsub' & Hw' & Hc).
  set (sub' := alter_at h q (adjust_structure cutoff diff (alter_at g q sub))) in *.
  assert (s_start_offset sub = s_start_offset s + width_all r1 + Z.of_nat (length pre)) as Hstart by (inversion Hlsub; done).
  destruct (splice_sub d v _ f subs1 sub subs2 rsub (alter_value gv q rsub) sub' Hf Hrk Hw' ltac:(lia) ltac:(lia) ltac:(lia)) as [Hf' Hwf'].
  { intros ds0 Hs1. rewrite Hstart in *. inversion Hs1 as [? ? ? ? E1]; subst. inversion Hlsub; subst. done. }
  assert (alter_sub (alter_value gv q) (length subs1) v = alter_sub (fun _ => alter_value gv q rsub) (length subs1) v) as Halt.
  { destruct v; try done; cbn in Hrk |- *; [|by case_decide; simplify_eq]. f_equal.
    destruct (lookup_split _ _ _ Hrk) as (l1 & l2 & -> & ->). by rewrite !alter_middle. }
  cbn [alter_value]. rewrite <- Hlen2, alter_middle, Halt.
  set (v' := alter_sub (fun _ => alter_value gv q rsub) (length subs1) v) in *. split_and!.
  - constructor; [by destruct q|by destruct q|by destruct q|].
    cbn [alter_at with_fields s_fields]. rewrite adjust_structure_eq. cbn [with_fields s_fields].
    rewrite Hfs, Hlen2, alter_middle, map_app. cbn [map]. rewrite <- (length_map (adjust_field cutoff diff) fs1), alter_middle.
    unfold adjust_field at 2. cbn [fst snd]. rewrite alter_middle, map_app. cbn [map].
    rewrite <- (length_map (adjust_sub cutoff diff) subs1), alter_middle.
    assert (alter_at h q (adjust_sub cutoff diff (alter_at g q sub)) = sub') as ->.
    { unfold adjust_sub. rewrite decide_False; [done|]. rewrite adjust_structure_eq. cbn [with_fields s_start_offset].
      rewrite alter_at_start. lia. }
    apply splice_fields with (d := d) (v := v) (f := (f, subs1 ++ sub :: subs2)); try done; try lia.
    { by rewrite Hds, <- Hlen1, lookup_middle. }
    rewrite width_all_app, width_all_cons. lia.
  - rewrite !width_all_app, !width_all_cons. lia.
  - lia.
  - rewrite width_all_app, width_all_cons. lia.
Qed.
End Splice.
