(* ===== verification/StructAccess.v ===== *)
(** * Finding the fields of a structure, and its size

    The offset of a field, its sub-structures and the size of the whole are those
    of the values it represents.  [select] finds a field by its name in the
    descriptions only: it is what the search through the tree of fields amounts
    to, and it does not depend on the values.  [represents] ties the tree, the
    buffer and the values together; the commands on the buffer are restated on the
    bytes of the values. *)

From S2P Require Import Prelude Names Bytes SortedMap VirtualBuffer StructTypes Convert Structure StructLayout.

(** ** The size *)

Section Size.
Context {validator : IntegerValidator} (debug : bool) (id : nat).

Fixpoint items_size (verify : option place) (i k : nat) (subs : list structure) (start_offset : Z) : result Z :=
  match subs with
  | [] => Ok start_offset
  | sub :: subs =>
      let! start_offset := get_current_size debug (verify_below verify i k) sub start_offset in
      items_size verify i (S k) subs start_offset
  end.

Fixpoint fields_size (verify : option place) (i : nat) (fields : list (field_t * list structure)) (start_offset : Z) : result Z :=
  match fields with
  | [] => Ok start_offset
  | (f, subs) :: fields =>
      if decide (fld_type f = STRUCT_TYPE_RENAMED) then fields_size verify (S i) fields start_offset
      else if debug && bool_decide (verify = Some [] /\ fld_offset f <> start_offset) then Throw logic_error
      else
        let! start_offset := items_size verify i 0%nat subs (wrap 64 (start_offset + own_size f)) in
        fields_size verify (S i) fields start_offset
  end.

Lemma get_current_size_eq verify s start_offset :
  get_current_size debug verify s start_offset = fields_size verify 0 (s_fields s) start_offset.
Proof.
  destruct s as [ds b so os fields]. cbn [get_current_size s_fields].
  match goal with |- ?F 0%nat fields ?s = _ => enough (forall i s, F i fields s = fields_size verify i fields s) as E by apply E end. clear start_offset.
  induction fields as [|[f subs] fields IH]; intros i start_offset; [done|].
  cbn -[get_current_size items_size wrap Z.add decide bool_decide andb verify_below own_size result_bind].
  destruct (decide (fld_type f = STRUCT_TYPE_RENAMED)); [apply IH|]. destruct (debug && _); [done|].
  match goal with |- result_bind (?F i 0%nat subs ?s0) _ = _ =>
    assert (forall k s, F i k subs s = items_size verify i k subs s) as -> end.
  { induction subs as [|sub subs IHsubs]; intros k start; [done|]. cbn [items_size].
    destruct (get_current_size _ _ sub start); [apply IHsubs|done]. }
  destruct (items_size _ _ _ _ _); [apply IH|done].
Qed.

(** The bytes of a value that are not those of its sub-structures. *)
Lemma own_size_laid d v off f subs : laid_field id d v off (f, subs) ->
  match v with
  | Raw b => own_size f = Z.of_nat (length b) /\ subs = []
  | Sized n b => own_size f = Z.of_nat n + Z.of_nat (length b) /\ subs = []
  | Items n l => own_size f = Z.of_nat n
  | Sub r => own_size f = 0
  | Nothing => own_size f = 0 /\ subs = []
  end.
Proof.
  intros Hf. inversion Hf as [? ? ? ? [Hd]|? ? ? ? ? [Hd] Hn|? ? ? ? ? ? ? [Hd] Hn|? ? ? ? ? ? [Hd] Ht|? ? ? [Hd] Ht]; subst;
    unfold own_size, fld_type, counted_bytes, fixed_width in *.
  - destruct (d_type (fld_description f)); simplify_eq/=; done.
  - destruct (d_type (fld_description f)); simplify_eq/=; split; done || lia.
  - destruct (d_type (fld_description f)); simplify_eq/=; done.
  - by rewrite Ht.
  - by destruct Ht as [-> | ->].
Qed.

Lemma laid_offset d v off f : laid_field id d v off f -> fld_offset (fst f) = off.
Proof. intros Hf. destruct Hf; by eapply ok_offset. Qed.

(** The size of the fields is the one of the values, from any offset; the offsets
    are the ones verified when the first one is that of the fields. *)
Lemma laid_size :
  (forall d v off f, laid_field id d v off f -> forall verify i start fs, (verify = None \/ start = off) ->
     0 <= start -> start + width v < 2 ^ 64 ->
     fields_size verify i (f :: fs) start = fields_size verify (S i) fs (start + width v)) /\
  (forall ds r off fs, laid_fields id ds r off fs -> forall verify i start, (verify = None \/ start = off) ->
     0 <= start -> start + width_all r < 2 ^ 64 -> fields_size verify i fs start = Ok (start + width_all r)) /\
  (forall ds l off subs, laid_items id ds l off subs -> forall verify i k start, (verify = None \/ start = off) ->
     0 <= start -> start + width_items l < 2 ^ 64 -> items_size verify i k subs start = Ok (start + width_items l)) /\
  (forall ds r off s, laid_structure id ds r off s -> forall verify start, (verify = None \/ start = off) ->
     0 <= start -> start + width_all r < 2 ^ 64 -> get_current_size debug verify s start = Ok (start + width_all r)).
Proof.
  assert (forall d v off f subs verify i start fs, laid_field id d v off (f, subs) -> (verify = None \/ start = off) ->
    0 <= start -> start + width v < 2 ^ 64 ->
    fields_size verify i ((f, subs) :: fs) start =
    (if decide (fld_type f = STRUCT_TYPE_RENAMED) then fields_size verify (S i) fs start
     else let! start := items_size verify i 0 subs (start + own_size f) in fields_size verify (S i) fs start)) as Hstep.
  { intros d v off f subs verify i start fs Hf Hv H0 Hlt. cbn [fields_size].
    destruct (decide (fld_type f = STRUCT_TYPE_RENAMED)) as [|_]; [done|].
    rewrite bool_decide_eq_false_2, andb_false_r.
    - rewrite wrap_small; [done|]. pose proof (width_nonneg v) as Hw. apply own_size_laid in Hf. unfold uword.
      destruct v as [b|n b|n l|r|]; rewrite ?width_raw, ?width_sized, ?width_items_value in *;
        [destruct Hf as [-> _]|destruct Hf as [-> _]|rewrite Hf; pose proof (width_items_nonneg l)|rewrite Hf|destruct Hf as [-> _]]; lia.
    - intros [-> Hne]. destruct Hv as [| ->]; [done|]. apply laid_offset in Hf. done. }
  apply laid_mutind.
  - intros d b off f Hok Hw Hsz verify i start fs Hv H0 Hlt. assert (laid_field id d (Raw b) off (f, [])) as Hf by by constructor.
    rewrite (Hstep d (Raw b) off) by done. apply own_size_laid in Hf as [-> _]. unfold fixed_width in Hw.
    rewrite decide_False; [by rewrite width_raw|]. unfold fld_type. rewrite (ok_description _ _ _ Hok). by intros E; rewrite E in Hw.
  - intros d n b off f Hok Hn Hl Hsz verify i start fs Hv H0 Hlt. assert (laid_field id d (Sized n b) off (f, [])) as Hf by by constructor.
    rewrite (Hstep d (Sized n b) off) by done. apply own_size_laid in Hf as [-> _].
    rewrite decide_False; [by rewrite width_sized|]. unfold fld_type. rewrite (ok_description _ _ _ Hok). by intros E; rewrite E in Hn.
  - intros d n l off f subs ds Hok Hn Hd Hl Hsubs IH verify i start fs Hv H0 Hlt.
    assert (laid_field id d (Items n l) off (f, subs)) as Hf by by econstructor.
    rewrite (Hstep d (Items n l) off) by done. apply own_size_laid in Hf as ->.
    rewrite decide_False; [|unfold fld_type; rewrite (ok_description _ _ _ Hok); by intros E; rewrite E in Hn].
    rewrite width_items_value in *. pose proof (width_items_nonneg l). rewrite IH; [cbn [result_bind]; by rewrite Z.add_assoc| |lia|lia].
    destruct Hv as [->| ->]; [by left|by right].
  - intros d r off f sub ds Hok Ht Hd Hs IH verify i start fs Hv H0 Hlt.
    assert (laid_field id d (Sub r) off (f, [sub])) as Hf by by econstructor.
    rewrite (Hstep d (Sub r) off) by done. apply own_size_laid in Hf as ->.
    rewrite decide_False; [|unfold fld_type; rewrite (ok_description _ _ _ Hok), Ht; done].
    rewrite width_sub in *. cbn [items_size]. rewrite Z.add_0_r, IH; [done| |lia|lia].
    destruct Hv as [->| ->]; [by left|by right].
  - intros d off f Hok Ht Hsz verify i start fs Hv H0 Hlt. assert (laid_field id d Nothing off (f, [])) as Hf by by constructor.
    rewrite (Hstep d Nothing off) by done. apply own_size_laid in Hf as [-> _]. rewrite !Z.add_0_r.
    by destruct (decide (fld_type f = STRUCT_TYPE_RENAMED)).
  - intros off verify i start _ _ _. cbn. by rewrite Z.add_0_r.
  - intros d ds v r off f fs Hf IHf Hfs IHfs verify i start Hv H0 Hlt. rewrite width_all_cons in *.
    pose proof (width_nonneg v). pose proof (width_all_nonneg r). rewrite IHf, IHfs; try done; try lia; [f_equal; lia|].
    destruct Hv as [->| ->]; [by left|by right].
  - intros ds off verify i k start _ _ _. cbn. by rewrite Z.add_0_r.
  - intros ds r l off sub subs Hr IHr Hl IHl verify i k start Hv H0 Hlt. rewrite width_items_cons in *.
    pose proof (width_all_nonneg r). pose proof (width_items_nonneg l). cbn [items_size]. rewrite IHr; [|by destruct Hv as [->| ->]; auto|lia|lia].
    cbn [result_bind]. rewrite IHl; [f_equal; lia| |lia|lia]. destruct Hv as [->| ->]; [by left|by right].
  - intros ds r off s Hd Ho Hb Hl IH verify start Hv H0 Hlt. rewrite get_current_size_eq. by apply IH.
Qed.

End Size.

(** ** Finding a field in the descriptions *)

Definition name_index (ds : list struct_description_t) (name : list Z) : option nat :=
  fst <$> list_find (fun d => name_of d = name) ds.

Definition renamed_to (d : struct_description_t) : result (list Z) := new_name (Field d [] 0 0 0 []).

Definition find_description (ds : list struct_description_t) (name : list Z) : result nat :=
  match name_index ds name with
  | None => Throw field_not_found
  | Some i =>
      match ds !! i with
      | None => Throw undefined_behavior
      | Some d =>
          if decide (d_type d = STRUCT_TYPE_RENAMED)
          then let! name := renamed_to d in match name_index ds name with Some j => Ok j | None => Throw field_not_found end
          else Ok i
      end
  end.

Definition accepts (d : struct_description_t) (t : struct_type_t) : result unit :=
  if decide (t <> STRUCT_TYPE_END /\ d_type d <> t) then Throw type_mismatch else Ok tt.

Section Select.
Context {validator : IntegerValidator}.

(** The place and the index of a field: the part before a period is the field of
    a sub-structure, and what follows the name of a bit field is one of its flags. *)
Fixpoint select (fuel : nat) (ds : list struct_description_t) (n : list Z) (t : struct_type_t) : result (place * nat) :=
  match fuel with
  | O => Throw fuel_exhausted
  | S fuel =>
      let '(name, e) := span (fun c => negb (Z.eqb c (chr: ".")) && negb (Z.eqb c (chr: "="))) n in
      let! i := find_description ds name in
      match ds !! i, e with
      | None, _ => Throw undefined_behavior
      | Some d, [] => let! _ := accepts d t in Ok ([], i)
      | Some d, c :: rest =>
          if decide (c = (chr: "=")) then let! _ := accepts d t in Ok ([], i)
          else if is_a_bit_field (d_type d)
          then
            let! flags := flags_of d in
            if decide (find_key string_ltb rest flags = None) then Throw field_not_found
            else let! _ := accepts d t in Ok ([], i)
          else
            match d_type d, d_sub_description d with
            | STRUCT_TYPE_STRUCTURE, Some (inl sub) => let! '(p, j) := select fuel sub rest t in Ok ((i, 0%nat) :: p, j)
            | _, _ => Throw type_mismatch
            end
      end
  end.

(** The field [name] of the structure at [p]. *)
Definition locate (ds : list struct_description_t) (p : place) (name : list Z) (t : struct_type_t) : result (place * nat) :=
  match description_at p ds with
  | Some ds => let! '(q, i) := select (S (length name)) ds (c_str name) t in Ok (p ++ q, i)
  | None => Throw undefined_behavior
  end.

Definition field_value (q : place) (i : nat) (r : list value) : option value := r ← value_at q r; r !! i.
Definition field_description (q : place) (i : nat) (ds : list struct_description_t) : option struct_description_t :=
  ds ← description_at q ds; ds !! i.

Lemma list_find_related {A B} (R : A -> B -> Prop) (P : A -> Prop) (Q : B -> Prop) `{forall x, Decision (P x), forall y, Decision (Q y)} l l' :
  Forall2 R l l' -> (forall x y, R x y -> P x <-> Q y) -> fst <$> list_find P l = fst <$> list_find Q l'.
Proof.
  intros Hl HR. induction Hl as [|x y l l' Hxy Hl IH]; [done|]. cbn. specialize (HR x y Hxy).
  destruct (decide (P x)), (decide (Q y)); [done|tauto|tauto|].
  destruct (list_find P l) as [[]|], (list_find Q l') as [[]|]; cbn in *; congruence.
Qed.

Definition field_of (d : struct_description_t) (f : field_t * list structure) : Prop :=
  fld_description (fst f) = d /\ fld_name (fst f) = name_of d /\ flags_of d = Ok (fld_flag_definitions (fst f)).

Lemma laid_field_of id d v off f : laid_field id d v off f -> field_of d f.
Proof. intros Hf. destruct Hf as [? ? ? ? []|? ? ? ? ? []|? ? ? ? ? ? ? []|? ? ? ? ? ? []|? ? ? []]; done. Qed.

Lemma laid_fields_of id ds r off fs : laid_fields id ds r off fs -> Forall2 field_of ds fs.
Proof.
  revert ds off fs. induction r as [|v r IH]; intros ds off fs Hl; inversion Hl; subst; constructor; [by eapply laid_field_of|by eapply IH].
Qed.

Lemma index_of_laid id ds r off s name : laid_structure id ds r off s -> index_of s name = name_index ds name.
Proof.
  intros Hs. destruct Hs as [? ? ? ? _ _ _ Hl%laid_fields_of]. unfold index_of, name_index. symmetry.
  eapply list_find_related; [exact Hl|]. intros d f (_ & -> & _). done.
Qed.

Lemma find_field_laid id ds r off s name : laid_structure id ds r off s -> find_field s name = find_description ds name.
Proof.
  intros Hs. unfold find_field, find_description. rewrite (index_of_laid _ _ _ _ _ _ Hs).
  destruct (name_index ds name) as [i|]; [|done].
  pose proof Hs as Hs'. destruct Hs' as [ds r off s _ _ _ Hl%laid_fields_of].
  destruct (ds !! i) as [d|] eqn:Hi.
  - destruct (Forall2_lookup_l _ _ _ _ _ Hl Hi) as ([f subs] & -> & Hd & _). cbn in Hd. unfold fld_type. rewrite Hd.
    destruct (decide _); [|done]. unfold renamed_to, new_name, fld_type. cbn [fld_description]. rewrite Hd.
    destruct (decide (d_type d <> STRUCT_TYPE_RENAMED)); [done|]. destruct (d_sub_description d) as [[[|d' ds']|]|]; try done.
    cbn [result_bind]. by rewrite (index_of_laid _ _ _ _ _ _ Hs).
  - by rewrite (proj2 (lookup_ge_None (s_fields s) i)) by (rewrite <- (Forall2_length _ _ _ Hl); by apply lookup_ge_None).
Qed.

(** The value at an index, with its description and its field. *)
Lemma laid_lookup id ds r off fs i d f : laid_fields id ds r off fs -> ds !! i = Some d -> fs !! i = Some f ->
  exists v off', laid_field id d v off' f.
Proof.
  intros Hl Hd Hf. destruct (lookup_split _ _ _ Hf) as (fs1 & fs2 & -> & ->).
  apply fields_split in Hl as (ds1 & d' & ds2 & r1 & v & r2 & -> & -> & Hlen1 & _ & _ & Hlf & _).
  rewrite <- Hlen1, lookup_middle in Hd. simplify_eq. eauto.
Qed.

Lemma laid_not_union id d v off f : laid_field id d v off f -> d_type d <> STRUCT_TYPE_UNION.
Proof.
  intros Hf Ht. unfold not in *. inversion Hf as [? ? ? ? ? Hw|? ? ? ? ? ? Hn|? ? ? ? ? ? ? ? Hn|? ? ? ? ? ? ? Hn|? ? ? ? Hn]; subst;
    unfold fixed_width, counted_bytes in *; rewrite Ht in *; simplify_eq/=; by destruct Hn.
Qed.

(** The search through the tree is the one through the descriptions. *)
Lemma resolve_select debug id fuel ds r off s n t : laid_structure id ds r off s ->
  resolve debug fuel s n t = select fuel ds n t.
Proof.
  revert ds r off s n. induction fuel as [|fuel IH]; intros ds r off s n Hs; [done|]. cbn [resolve select].
  destruct (span _ n) as [name e]. rewrite (find_field_laid _ _ _ _ _ _ Hs).
  destruct (find_description ds name) as [i|]; [|done]. cbn [result_bind].
  pose proof Hs as Hs'. destruct Hs' as [ds r off s _ _ _ Hl]. pose proof (laid_fields_of _ _ _ _ _ Hl) as Hof.
  destruct (ds !! i) as [d|] eqn:Hi.
  2:{ by rewrite (proj2 (lookup_ge_None (s_fields s) i)) by (rewrite <- (Forall2_length _ _ _ Hof); by apply lookup_ge_None). }
  destruct (Forall2_lookup_l _ _ _ _ _ Hof Hi) as ([f subs] & Hf & Hd & _ & Hflags). cbn [fst] in Hd, Hflags. rewrite Hf.
  destruct (laid_lookup _ _ _ _ _ _ _ _ Hl Hi Hf) as (v & off' & Hlf).
  unfold check_type, accepts, fld_type, find_flag_definition. rewrite Hd.
  destruct e as [|c rest]; [done|]. destruct (decide (c = (chr: "="))); [done|].
  destruct (is_a_bit_field (d_type d)) eqn:Hbits.
  { rewrite Hflags. cbn [result_bind].
    destruct (find_key string_ltb rest _) as [flag|]; cbn [result_bind];
      [rewrite (decide_False (P := Some flag = None)) by done|rewrite (decide_True (P := None = None)) by done];
      by destruct (d_type d). }
  destruct (decide (d_type d = STRUCT_TYPE_STRUCTURE)) as [Ht|Ht].
  - rewrite Ht. inversion Hlf as [? ? ? ? ? Hw|? ? ? ? ? ? Hn|? ? ? ? ? ? ? ? Hn|? r' ? ? sub ds' ? ? Hsub Hls|? ? ? ? Hn]; subst;
      try (exfalso; unfold fixed_width, counted_bytes in *; rewrite Ht in *; simplify_eq/=; by destruct Hn).
    rewrite Hsub. cbn [length]. rewrite bool_decide_eq_true_2, andb_false_r by done. by rewrite (IH _ _ _ _ _ Hls).
  - pose proof (laid_not_union _ _ _ _ _ Hlf). by destruct (d_type d).
Qed.
End Select.

(** ** The invariant of a structure in memory *)

(** The buffer [id] holds the bytes [c], and it can grow by [room] bytes. *)
Definition buffered (id : nat) (c : list Z) (room : Z) (st : tree_state) : Prop :=
  exists vb, t_buffers st !! id = Some vb /\ memory_buffer (t_blocks st) vb /\ contents (t_blocks st) (f_buffers vb) = c /\
    room_for vb room /\ 0 <= room /\ Z.of_nat (length c) + room < 2 ^ 63.

Definition has_buffer (id : nat) (p : place) (s : structure) : Prop :=
  exists sub, structure_at p s = Some sub /\ s_buffer sub = Some id.

(** The structure represents the values [r] of the descriptions [ds]. *)
Record represents {validator : IntegerValidator} (id : nat) (ds : list struct_description_t) (r : list value) (room : Z)
    (st : tree_state) : Prop := {
  rep_laid : laid_structure id ds r 0 (t_root st);
  rep_buffer : has_buffer id [] (t_root st);
  rep_bytes : buffered id (encode_all r) room st;
}.

(** ** The buffer *)

Section Buffer.
Context {validator : IntegerValidator}.
Context (copy_capacity : Z -> Z) (insert_capacity : Z -> Z -> Z) `{laws : VectorLaws copy_capacity insert_capacity}.

Lemma this_structure_ok p s st : structure_at p (t_root st) = Some s -> this_structure p st = (Ok s, st).
Proof. unfold this_structure. by intros ->. Qed.

Lemma this_buffer_ok id p vb st : has_buffer id p (t_root st) -> t_buffers st !! id = Some vb -> this_buffer p st = (Ok (id, vb), st).
Proof.
  intros (s & Hs & Hb) Hvb. unfold this_buffer, bind. rewrite (this_structure_ok _ _ _ Hs). by rewrite Hb, Hvb.
Qed.

Lemma take_drop_parts {A} (a b c : list A) : take (length b) (drop (length a) (a ++ b ++ c)) = b.
Proof. by rewrite drop_app_length, take_app_length. Qed.

(** Reading the bytes [b] after [a]. *)
Lemma buffer_pread_ok id p a b c room n offset st : has_buffer id p (t_root st) -> buffered id (a ++ b ++ c) room st ->
  n = Z.of_nat (length b) -> offset = Z.of_nat (length a) -> buffer_pread p n offset st = (Ok b, st).
Proof.
  intros Hp (vb & Hid & Hvb & Hc & Hroom) -> ->. unfold buffer_pread, bind. rewrite (this_buffer_ok _ _ _ _ Hp Hid).
  destruct (decide (b = [])) as [->|Hne]; [done|]. pose proof Hvb as (_ & Ht & _). rewrite Hc, !length_app in Ht.
  rewrite (pread_value (t_blocks st) vb) by (by apply memory_buffer_ok || (destruct b; [done|cbn; lia]) || lia).
  rewrite Hc, !Nat2Z.id, take_drop_parts. done.
Qed.

(** Replacing bytes. *)
Lemma buffer_pwrite_ok id p a b c bytes room offset st : has_buffer id p (t_root st) -> buffered id (a ++ b ++ c) room st ->
  length bytes = length b -> offset = Z.of_nat (length a) ->
  exists st', buffer_pwrite copy_capacity p bytes offset false st = (Ok tt, st') /\ t_root st' = t_root st /\
    buffered id (a ++ bytes ++ c) room st'.
Proof.
  intros Hp (vb & Hid & Hvb & Hc & Hroom & H0 & Hmax) Hlen ->. unfold buffer_pwrite, bind. rewrite (this_buffer_ok _ _ _ _ Hp Hid).
  pose proof Hvb as (_ & Ht & _). rewrite Hc, !length_app in Ht. rewrite !length_app in Hmax.
  destruct (pwrite_within copy_capacity (t_blocks st) vb bytes (Z.of_nat (length a)) Hvb) as (vb' & Hw & Hvb' & Hroom' & Hc'); [lia..|].
  rewrite Hw. eexists. split; [done|]. split; [done|]. exists vb'. cbn [t_buffers t_blocks].
  split; [apply list_lookup_insert_eq; by eapply lookup_lt_Some|].
  split; [done|]. split; [|split; [by apply Hroom'|rewrite !length_app; lia]].
  rewrite Hc', Hc, Nat2Z.id, take_app_length. do 2 f_equal. by rewrite Hlen, <- drop_drop, drop_app_length, drop_app_length.
Qed.

(** Inserting bytes. *)
Lemma buffer_pinsert_ok id p a c bytes room offset st : has_buffer id p (t_root st) ->
  buffered id (a ++ c) (Z.of_nat (length bytes) + room) st -> 0 <= room -> offset = Z.of_nat (length a) ->
  exists st', buffer_pinsert copy_capacity insert_capacity p bytes offset st = (Ok tt, st') /\ t_root st' = t_root st /\
    buffered id (a ++ bytes ++ c) room st'.
Proof.
  intros Hp (vb & Hid & Hvb & Hc & Hroom & H0 & Hmax) Hr ->. unfold buffer_pinsert, bind. rewrite (this_buffer_ok _ _ _ _ Hp Hid).
  pose proof Hvb as (_ & Ht & _). rewrite Hc, !length_app in Ht. rewrite !length_app in Hmax.
  assert (exists vb' k, pinsert copy_capacity insert_capacity (t_blocks st) vb bytes (Z.of_nat (length a)) = Ok (t_blocks st, vb', k) /\
    memory_buffer (t_blocks st) vb' /\ contents (t_blocks st) (f_buffers vb') = a ++ bytes ++ c) as (vb' & k & Hw & Hvb' & Hc').
  { destruct (decide (bytes = [])) as [->|Hne]; [by exists vb, 0|].
    destruct (pinsert_value copy_capacity insert_capacity (t_blocks st) vb bytes (Z.of_nat (length a)) Hvb) as (vb' & Hw & Hvb' & _ & Hc');
      [lia|done|lia|eapply room_for_le; [|exact Hroom]; lia|].
    exists vb', (to_int (Z.of_nat (length bytes))). split_and!; [done..|].
    by rewrite Hc', Hc, Nat2Z.id, take_app_length, drop_app_length. }
  rewrite Hw. eexists. split; [done|]. split; [done|]. exists vb'. cbn [t_buffers t_blocks].
  split; [apply list_lookup_insert_eq; by eapply lookup_lt_Some|].
  split; [done|]. split; [done|]. split; [|rewrite !length_app; lia].
  apply (pinsert_room copy_capacity insert_capacity (t_blocks st) vb bytes (Z.of_nat (length a)) (t_blocks st) vb' k); done || lia.
Qed.

(** Erasing the bytes [b] after [a]. *)
Lemma buffer_perase_ok id p a b c room n offset st : has_buffer id p (t_root st) -> buffered id (a ++ b ++ c) room st ->
  n = Z.of_nat (length b) -> offset = Z.of_nat (length a) ->
  exists st', buffer_perase p n offset st = (Ok (to_int n), st') /\ t_root st' = t_root st /\ buffered id (a ++ c) room st'.
Proof.
  intros Hp (vb & Hid & Hvb & Hc & Hroom & H0 & Hmax) -> ->. unfold buffer_perase, bind. rewrite (this_buffer_ok _ _ _ _ Hp Hid).
  pose proof Hvb as (_ & Ht & _). rewrite Hc, !length_app in Ht. rewrite !length_app in Hmax.
  destruct (perase_value (t_blocks st) vb (Z.of_nat (length b)) (Z.of_nat (length a)) Hvb) as (vb' & k & He & Hk & Hvb' & _ & Hc'); [lia..|].
  rewrite He. assert (k = Z.of_nat (length b)) as -> by lia.
  unfold bind, set_buffer_object, ret. eexists. split; [done|]. split; [done|]. exists vb'. cbn [t_buffers t_blocks].
  split; [apply list_lookup_insert_eq; by eapply lookup_lt_Some|]. split; [done|].
  split; [|split; [by eapply perase_room|rewrite !length_app; lia]].
  rewrite Hc', Hc, Nat2Z.id, take_app_length. f_equal. rewrite Z2Nat.inj_add, !Nat2Z.id by lia.
  by rewrite <- drop_drop, drop_app_length, drop_app_length.
Qed.
End Buffer.

(** ** A field of a structure in memory *)

Section Field.
Context {libraries : ConvertLibraries} {validator : IntegerValidator} (debug : bool) (id : nat).
Context (ds : list struct_description_t) (r : list value) (room : Z) (st : tree_state).
Context (rep : represents id ds r room st).

Lemma represents_size : width_all r + room < 2 ^ 63 /\ 0 <= room.
Proof. destruct rep as [_ _ (vb & _ & _ & _ & _ & ? & ?)]. unfold width_all. lia. Qed.

(** A structure of the tree that has a buffer has that one. *)
Lemma structure_has_buffer p s : structure_at p (t_root st) = Some s -> s_buffer s <> None -> has_buffer id p (t_root st).
Proof.
  intros Hs Hb. destruct (laid_at _ _ _ _ _ _ _ (rep_laid _ _ _ _ _ rep) Hs) as (? & ? & ? & ? & ? & _ & _ & Hl & _).
  destruct Hl as [? ? ? ? _ _ [?|Hid] _]; [done|]. by exists s.
Qed.

(** A field, its value, and its bytes. *)
Lemma field_laid_at q i d : field_description q i ds = Some d -> is_Some (structure_at q (t_root st)) ->
  exists v f subs pre post, field_value q i r = Some v /\ field_at (q, i) st = (Ok (f, subs), st) /\
    laid_field id d v (Z.of_nat (length pre)) (f, subs) /\ encode_all r = pre ++ encode v ++ post /\
    forall v', encode_all (alter_value (<[i:=v']>) q r) = pre ++ encode v' ++ post.
Proof.
  intros Hd [s Hs]. destruct (laid_at _ _ _ _ _ _ _ (rep_laid _ _ _ _ _ rep) Hs) as
    (dq & rq & off & pre & post & Hdq & Hrq & Hl & Henc & -> & Hg). unfold field_description in Hd. rewrite Hdq in Hd. cbn in Hd.
  pose proof Hl as Hl0. inversion Hl0 as [? ? ? ? Hds Ho Hb Hfs]; subst. destruct (fields_length _ _ _ _ _ Hfs) as [Hlen1 Hlen2].
  destruct (lookup_lt_is_Some_2 (s_fields s) i) as [[f subs] Hf]; [rewrite Hlen1, <- Hlen2; by eapply lookup_lt_Some|].
  destruct (lookup_split _ _ _ Hf) as (fs1 & fs2 & Hsplit & ->). rewrite Hsplit in Hfs.
  apply fields_split in Hfs as (ds1 & d' & ds2 & r1 & v & r2 & Heq & -> & Hl1 & Hl2 & _ & Hlf & _).
  rewrite Heq in Hd. rewrite <- Hl1, lookup_middle in Hd. simplify_eq.
  exists v, f, subs, (pre ++ encode_all r1), (encode_all r2 ++ post). unfold field_value. rewrite Hrq. cbn.
  rewrite <- Hl2, lookup_middle. split_and!; [done| | | |].
  - unfold field_at, bind. cbn [fst snd]. rewrite (this_structure_ok _ _ _ Hs). by rewrite Hsplit, Hl2, lookup_middle.
  - replace (Z.of_nat (length (pre ++ encode_all r1))) with (0 + Z.of_nat (length pre) + width_all r1); [done|].
    rewrite length_app. unfold width_all. lia.
  - rewrite Henc, encode_middle. by rewrite <- !app_assoc.
  - intros v'. rewrite Hg, insert_app_r_alt, Nat.sub_diag by lia. cbn [insert list_insert].
    rewrite encode_middle. by rewrite <- !app_assoc.
Qed.

(** The fields of a description that [select] finds are in it. *)
Lemma find_description_lookup ds' name i : find_description ds' name = Ok i -> is_Some (ds' !! i).
Proof.
  assert (forall name i, name_index ds' name = Some i -> is_Some (ds' !! i)) as Hidx.
  { intros name' i' Hi. unfold name_index in Hi. apply fmap_Some in Hi as ([i2 d] & Hf & ->).
    apply list_find_Some in Hf as (? & _). eauto. }
  unfold find_description. destruct (name_index ds' name) as [j|] eqn:Hj; [|done]. destruct (ds' !! j) as [d|] eqn:Hd; [|done].
  destruct (decide _); [|intros [= <-]; eauto]. destruct (renamed_to d) as [n|]; [|done]. cbn [result_bind].
  destruct (name_index ds' n) as [k|] eqn:Hk; [|done]. intros [= <-]. eauto.
Qed.

Lemma select_description fuel ds' n t q i : select fuel ds' n t = Ok (q, i) -> is_Some (field_description q i ds').
Proof.
  revert ds' n q i. induction fuel as [|fuel IH]; intros ds' n q i; [done|]. cbn [select].
  destruct (span _ n) as [name e]. destruct (find_description ds' name) as [j|] eqn:Hj; [|done]. cbn [result_bind].
  destruct (ds' !! j) as [d|] eqn:Hd; [|done]. assert (is_Some (field_description [] j ds')) as Hhere.
  { unfold field_description. cbn. rewrite Hd. eauto. }
  destruct e as [|c rest]; [by destruct (accepts d t); intros; simplify_eq/=|].
  destruct (decide _); [by destruct (accepts d t); intros; simplify_eq/=|].
  destruct (is_a_bit_field _).
  { destruct (flags_of d); [|done]. cbn [result_bind]. destruct (decide _); [done|]. by destruct (accepts d t); intros; simplify_eq/=. }
  destruct (d_type d) eqn:Ht; try done. destruct (d_sub_description d) as [[sub|]|] eqn:Hsub; try done.
  destruct (select fuel sub rest t) as [[q' i']|] eqn:Hs; [|done]. cbn [result_bind]. intros [= <- <-].
  destruct (IH _ _ _ _ Hs) as [d' Hd']. unfold field_description in *. cbn [description_at]. rewrite Hd. cbn. rewrite Hsub. eauto.
Qed.

Lemma structure_at_app p q s : structure_at (p ++ q) s = (structure_at p s ≫= structure_at q).
Proof.
  revert s. induction p as [|[i k] p IH]; intros s; [done|]. cbn. destruct (s_fields s !! i) as [[f subs]|]; [|done]. cbn.
  destruct (subs !! k); [|done]. apply IH.
Qed.

Lemma description_at_app p q ds' : description_at (p ++ q) ds' = (description_at p ds' ≫= description_at q).
Proof.
  revert ds'. induction p as [|[i k] p IH]; intros ds'; [done|]. cbn. destruct (ds' !! i) as [d|]; [|done]. cbn.
  destruct (d_sub_description d) as [[sub|]|]; [|done..]. apply IH.
Qed.

Lemma select_structure fuel ds' n t q i r' off s : select fuel ds' n t = Ok (q, i) -> laid_structure id ds' r' off s ->
  is_Some (structure_at q s).
Proof.
  revert ds' n q i r' off s. induction fuel as [|fuel IH]; intros ds' n q i r' off s; [done|]. cbn [select].
  destruct (span _ n) as [name e]. destruct (find_description ds' name) as [j|] eqn:Hj; [|done]. cbn [result_bind].
  destruct (ds' !! j) as [d|] eqn:Hd; [|done]. destruct e as [|c rest]; [by destruct (accepts d t); intros; simplify_eq/=|].
  destruct (decide _); [by destruct (accepts d t); intros; simplify_eq/=|].
  destruct (is_a_bit_field _).
  { destruct (flags_of d); [|done]. cbn [result_bind]. destruct (decide _); [done|]. by destruct (accepts d t); intros; simplify_eq/=. }
  destruct (d_type d) eqn:Ht; try done. destruct (d_sub_description d) as [[sub|]|] eqn:Hsub; try done.
  destruct (select fuel sub rest t) as [[q' i']|] eqn:Hs; [|done]. cbn [result_bind]. intros [= <- <-] Hl.
  destruct Hl as [ds' r' off s _ _ _ Hl]. destruct (lookup_lt_is_Some_2 (s_fields s) j) as [[f subs] Hf].
  { destruct (fields_length _ _ _ _ _ Hl) as [-> <-]. by eapply lookup_lt_Some. }
  destruct (laid_lookup _ _ _ _ _ _ _ _ Hl Hd Hf) as (v & off' & Hlf). cbn [structure_at]. rewrite Hf. cbn.
  inversion Hlf as [? ? ? ? ? Hw|? ? ? ? ? ? Hn|? ? ? ? ? ? ? ? Hn|? ? ? ? sub0 ds0 ? ? Hsub0 Hls|? ? ? ? Hn]; subst;
    try (exfalso; unfold fixed_width, counted_bytes in *; rewrite Ht in *; simplify_eq/=; by destruct Hn).
  rewrite Hsub in Hsub0. simplify_eq. cbn. by eapply IH.
Qed.

(** [get_field()] finds what [select] does. *)
Lemma get_field_ok p name t q i : has_buffer id p (t_root st) -> name <> [] -> locate ds p name t = Ok (q, i) ->
  get_field debug p name t st = (Ok (q, i), st) /\ is_Some (field_description q i ds) /\ is_Some (structure_at q (t_root st)).
Proof.
  intros (s & Hs & Hb) Hne Hloc. unfold locate in Hloc.
  destruct (laid_at _ _ _ _ _ _ _ (rep_laid _ _ _ _ _ rep) Hs) as (dp & rp & off & _ & _ & Hdp & _ & Hl & _).
  rewrite Hdp in Hloc. destruct (select _ dp _ t) as [[q' i']|] eqn:Hsel; [|done]. cbn [result_bind] in Hloc. simplify_eq.
  destruct (select_description _ _ _ _ _ _ Hsel) as [d Hd].
  destruct (select_structure _ _ _ _ _ _ _ _ _ Hsel Hl) as [s' Hs']. split_and!.
  - unfold get_field, bind. rewrite (this_structure_ok _ _ _ Hs). rewrite decide_False by (by rewrite Hb).
    rewrite decide_False by done. unfold parse, bind. rewrite (this_structure_ok _ _ _ Hs).
    rewrite decide_True.
    + cbn [ret]. unfold ret. rewrite (this_structure_ok _ _ _ Hs). unfold lift.
      rewrite (resolve_select _ _ _ _ _ _ _ _ _ Hl), Hsel. done.
    + intros Hnil. destruct Hl as [dp rp off s _ _ _ Hl]. rewrite Hnil in Hl. apply fields_length in Hl as [Hl1 Hl2].
      cbn in Hl1. destruct dp; [|cbn in Hl2; lia]. cbn [select] in Hsel. by destruct (span _ _).
  - exists d. unfold field_description in *. by rewrite description_at_app, Hdp.
  - exists s'. by rewrite structure_at_app, Hs.
Qed.

Lemma get_field_throws p dp name t e : has_buffer id p (t_root st) -> name <> [] -> description_at p ds = Some dp -> dp <> [] ->
  locate ds p name t = Throw e -> get_field debug p name t st = (Throw e, st).
Proof.
  intros (s & Hs & Hb) Hne Hdp Hdpne Hloc. unfold locate in Hloc.
  destruct (laid_at _ _ _ _ _ _ _ (rep_laid _ _ _ _ _ rep) Hs) as (dp' & rp & off & _ & _ & Hdp' & _ & Hl & _).
  rewrite Hdp in Hdp', Hloc. simplify_eq. destruct (select _ dp' _ t) as [[q' i']|] eqn:Hsel; [done|]. cbn [result_bind] in Hloc. simplify_eq.
  unfold get_field, bind. rewrite (this_structure_ok _ _ _ Hs). rewrite decide_False by (by rewrite Hb).
  rewrite decide_False by done. unfold parse, bind. rewrite (this_structure_ok _ _ _ Hs). rewrite decide_True.
  - cbn [ret]. unfold ret. rewrite (this_structure_ok _ _ _ Hs). unfold lift.
    by rewrite (resolve_select _ _ _ _ _ _ _ _ _ Hl), Hsel.
  - intros Hnil. destruct Hl as [dp rp off s _ _ _ Hl]. rewrite Hnil in Hl. apply fields_length in Hl as [Hl1 Hl2].
    cbn in Hl1. destruct dp; [done|cbn in Hl2; lia].
Qed.

(** The check of the sizes never fails. *)
Lemma verify_buffer_size_ok p : is_Some (structure_at p (t_root st)) -> verify_buffer_size debug p st = (Ok tt, st).
Proof.
  intros [s Hs]. unfold verify_buffer_size. destruct debug; [|done]. cbn [negb]. unfold bind. rewrite (this_structure_ok _ _ _ Hs).
  destruct (s_buffer s) as [id'|] eqn:Hb; [|done].
  pose proof (structure_has_buffer p s Hs ltac:(by rewrite Hb)) as Hp. destruct rep as [Hl _ (vb & Hid & Hvb & Hc & _)].
  rewrite (this_buffer_ok _ _ _ _ Hp Hid). rewrite (this_structure_ok [] (t_root st)) by done. unfold lift.
  destruct represents_size. pose proof (width_all_nonneg r).
  destruct (laid_size true id) as (_ & _ & _ & Hsize). rewrite (Hsize ds r 0 (t_root st) Hl (Some p) 0); [|by right|lia|lia].
  rewrite decide_False; [done|]. destruct Hvb as (_ & Ht & _). rewrite Hc in Ht. unfold size, width_all. lia.
Qed.
End Field.
