(* ===== verification/StructUpdate.v ===== *)
(** * Reading and writing the values of a structure

    What the accessors of a structure do to the values it represents: the numbers,
    the strings and the buffers that are read, and the value that replaces another
    one when a field is written, with the offsets adjusted when its size
    changes. *)

From S2P Require Import Prelude Names Bytes Limbs Uint512 Int512 SortedMap VirtualBuffer StructTypes Convert Structure.
From S2P Require Import StructLayout StructAccess.

Section Replace.
Context {validator : IntegerValidator} (id : nat).

Lemma laid_start ds r off s : laid_structure id ds r off s -> s_start_offset s = off.
Proof. by intros []. Qed.

(** A change of the values at a place that the tree does not show. *)
Lemma laid_replace rq rq' q ds r off s sq : laid_structure id ds r off s -> structure_at q s = Some sq -> value_at q r = Some rq ->
  width_all rq' = width_all rq -> (forall dsq offq, laid_structure id dsq rq offq sq -> laid_structure id dsq rq' offq sq) ->
  laid_structure id ds (alter_value (fun _ => rq') q r) off s /\ width_all (alter_value (fun _ => rq') q r) = width_all r.
Proof.
  intros Hs Hq Hr Hw Hhere. revert ds r off s Hs Hq Hr.
  induction q as [|[i k] q IH]; intros ds r off s Hs Hq Hr; cbn [structure_at value_at] in Hq, Hr.
  { simplify_eq. cbn. split; [by apply Hhere|done]. }
  destruct (s_fields s !! i) as [[f subs]|] eqn:Hi; [|done]. cbn in Hq. destruct (subs !! k) as [sub|] eqn:Hk; [|done]. cbn in Hq.
  destruct (r !! i) as [v|] eqn:Hv; [|done]. cbn in Hr. destruct (sub_value v k) as [rk|] eqn:Hrk; [|done]. cbn in Hr.
  inversion Hs as [? ? ? ? Hd Hoff Hb Hl]; subst. destruct (lookup_split _ _ _ Hi) as (fs1 & fs2 & Hfs & ->). rewrite Hfs in Hl.
  apply fields_split in Hl as (ds1 & d & ds2 & r1 & v0 & r2 & Hds & -> & Hlen1 & Hlen2 & Hl1 & Hf & Hl2).
  rewrite <- Hlen2, lookup_middle in Hv. simplify_eq.
  destruct (field_sub id _ _ _ _ _ _ _ Hf Hk) as (dsub & rsub & o & pre & post & Hsubd & Hsv & Hlsub & Henc & Ho & Hg).
  rewrite Hrk in Hsv. simplify_eq. destruct (IH _ _ _ _ Hlsub Hq Hr) as [Hsub' Hw'].
  set (v' := alter_sub (alter_value (fun _ => rq') q) k v).
  assert (width v' = width v) as Hwv.
  { unfold v', width. rewrite Hg, Henc, !length_app. unfold width_all in Hw'. lia. }
  assert (laid_field id d v' (s_start_offset s + width_all r1) (f, subs)) as Hf'.
  { unfold v'. inversion Hf as [| |? n l ? ? ? ds' Hok Hn Hd Hlt Hitems|? r' ? ? sub0 ds' Hok Ht Hd Hs0|]; subst;
      cbn [sub_value] in Hrk; try discriminate Hrk; cbn [alter_sub].
    - apply laid_array with ds'; try done; [by rewrite length_alter|].
      destruct (lookup_split _ _ _ Hk) as (subs1 & subs2 & -> & ->). apply items_split in Hitems as (l1 & r0 & l2 & -> & Hlen & Hi1 & Hs1 & Hi2).
      rewrite <- Hlen, lookup_middle in Hrk. simplify_eq. rewrite <- Hlen, alter_middle.
      apply items_split. exists l1, (alter_value (fun _ => rq') q rsub), l2. split_and!; try done; [|by rewrite Hw'].
      pose proof (laid_start _ _ _ _ Hs1) as <-. by rewrite (laid_start _ _ _ _ Hlsub).
    - case_decide; [|done]. subst. simplify_eq. cbn in Hk. simplify_eq. apply laid_sub with dsub; try done.
      pose proof (laid_start _ _ _ _ Hs0) as <-. by rewrite (laid_start _ _ _ _ Hlsub). }
  cbn [alter_value]. rewrite <- Hlen2, alter_middle. fold v'. rewrite !width_all_app, !width_all_cons, Hwv. split; [|done].
  constructor; try done. rewrite Hfs. apply fields_split. exists ds1, d, ds2, r1, v', r2. by rewrite Hwv.
Qed.
End Replace.

Lemma insert_middle {A} (l1 l2 : list A) i x y : i = length l1 -> <[i:=y]> (l1 ++ x :: l2) = l1 ++ y :: l2.
Proof. intros ->. by rewrite insert_app_r_alt, Nat.sub_diag by lia. Qed.

Lemma alter_value_const g q r rq : value_at q r = Some rq -> alter_value g q r = alter_value (fun _ => g rq) q r.
Proof.
  revert r. induction q as [|[i k] q IH]; intros r Hq; cbn in *; [by simplify_eq|].
  destruct (r !! i) as [v|] eqn:Hv; [|done]. cbn in Hq. destruct (sub_value v k) as [rs|] eqn:Hs; [|done]. cbn in Hq.
  specialize (IH _ Hq). destruct (lookup_split _ _ _ Hv) as (r1 & r2 & -> & ->). rewrite !alter_middle. do 2 f_equal.
  destruct v as [| |n l|r|]; try done; cbn in *.
  - destruct (lookup_split _ _ _ Hs) as (l1 & l2 & -> & ->). rewrite !alter_middle. by rewrite IH.
  - case_decide; [|done]. simplify_eq. by rewrite IH.
Qed.

(** ** Reading and overwriting *)

Section Fields.
Context {validator : IntegerValidator}.
Context (copy_capacity : Z -> Z) (insert_capacity : Z -> Z -> Z) `{laws : VectorLaws copy_capacity insert_capacity}.
Context (id : nat) (ds : list struct_description_t) (r : list value) (room : Z) (st : tree_state).
Context (rep : represents id ds r room st) (q : place) (i : nat) (d : struct_description_t).
Context (described : field_description q i ds = Some d) (there : is_Some (structure_at q (t_root st))).

(** The values after a field whose tree stays the same. *)
Lemma represents_replaced v v' room' st' : field_value q i r = Some v -> width v' = width v ->
  (forall off f, laid_field id d v off f -> laid_field id d v' off f) -> t_root st' = t_root st ->
  buffered id (encode_all (alter_value (<[i:=v']>) q r)) room' st' -> represents id ds (alter_value (<[i:=v']>) q r) room' st'.
Proof.
  intros Hv Hw Hlaid Hroot Hbytes. destruct rep as [Hl Hb _]. unfold field_value in Hv.
  destruct (value_at q r) as [rq|] eqn:Hrq; [|done]. cbn in Hv. destruct there as [sq Hsq].
  destruct (lookup_split _ _ _ Hv) as (r1 & r2 & -> & Hi).
  split; [|by rewrite Hroot|done]. rewrite Hroot, (alter_value_const _ _ _ _ Hrq), Hi, insert_app_r_alt, Nat.sub_diag by lia.
  cbn [insert list_insert].
  apply (laid_replace id (r1 ++ v :: r2) (r1 ++ v' :: r2) q ds r 0 (t_root st) sq Hl Hsq Hrq).
  { by rewrite !width_all_app, !width_all_cons, Hw. }
  destruct (laid_at _ _ _ _ _ _ _ Hl Hsq) as (dsq0 & rq0 & offq0 & _ & _ & Hdsq & Hrq' & Hlq & _). simplify_eq.
  intros dsq offq Hlq'. assert (dsq = dsq0) as -> by (destruct Hlq', Hlq; congruence).
  inversion Hlq' as [? ? ? ? ? ? ? Hfs]; subst. constructor; try done.
  unfold field_description in described. rewrite Hdsq in described. cbn in described.
  destruct (fields_length _ _ _ _ _ Hfs) as [Hlen1 Hlen2].
  destruct (lookup_lt_is_Some_2 (s_fields sq) (length r1)) as [f Hf]; [rewrite Hlen1, length_app; cbn; lia|].
  destruct (lookup_split _ _ _ Hf) as (fs1 & fs2 & Hsplit & Hlen). rewrite Hsplit in Hfs |- *.
  apply fields_split in Hfs as (ds1 & d' & ds2 & r1' & v1 & r2' & Heq & Heqr & Hl1 & Hl2 & Hfs1 & Hlf & Hfs2).
  apply app_inj_1 in Heqr as [<- [= <- <-]]; [|lia]. rewrite Heq, Hlen, <- Hl1, lookup_middle in described. simplify_eq.
  apply fields_split. exists ds1, d, ds2, r1, v', r2. rewrite Hw. split_and!; try done. by apply Hlaid.
Qed.

(** A field of a fixed size: its bytes are read, and some of them written. *)
Lemma raw_field b : field_value q i r = Some (Raw b) ->
  exists f, field_at (q, i) st = (Ok (f, []), st) /\ fld_description f = d /\ fld_size f = Z.of_nat (length b) /\
    fixed_width d = Some (Z.of_nat (length b)) /\ flags_of d = Ok (fld_flag_definitions f) /\ fld_name f = name_of d /\
    0 <= fld_offset f /\ fld_offset f + Z.of_nat (length b) < 2 ^ 63 /\
    (forall p, has_buffer id p (t_root st) -> buffer_pread p (Z.of_nat (length b)) (fld_offset f) st = (Ok b, st)) /\
    (forall p k bytes offset, has_buffer id p (t_root st) -> (k + length bytes <= length b)%nat -> offset = fld_offset f + Z.of_nat k ->
       exists st', buffer_pwrite copy_capacity p bytes offset false st = (Ok tt, st') /\ t_root st' = t_root st /\
         represents id ds (alter_value (<[i:=Raw (take k b ++ bytes ++ drop (k + length bytes) b)]>) q r) room st').
Proof.
  intros Hv. destruct (field_laid_at id ds r room st rep q i d described there) as (v & f & subs & pre & post & Hv' & Hf & Hl & Henc & Hset).
  rewrite Hv in Hv'. simplify_eq. inversion Hl as [? ? ? ? Hok Hw Hsz| | | |]; subst. exists f. pose proof Hok as [Hd Hn Ho Hfl _].
  destruct (represents_size _ _ _ _ _ rep). assert (width_all r = Z.of_nat (length (encode_all r))) as Hwr by done.
  rewrite Henc, !length_app in Hwr. cbn [encode] in Henc, Hwr. pose proof (rep_bytes _ _ _ _ _ rep) as Hbytes. rewrite Henc in Hbytes.
  rewrite Ho. split_and!; try done; try lia.
  - intros p Hp. by eapply buffer_pread_ok.
  - intros p k bytes offset Hp Hle ->. set (b' := take k b ++ bytes ++ drop (k + length bytes) b).
    assert (b = take k b ++ take (length bytes) (drop k b) ++ drop (k + length bytes) b) as Hb.
    { rewrite <- drop_drop, take_drop, take_drop. done. }
    rewrite Hb in Hbytes. assert (length (take k b) = k) as Hk by (rewrite length_take; lia).
    replace (pre ++ (take k b ++ take (length bytes) (drop k b) ++ drop (k + length bytes) b) ++ post) with
      ((pre ++ take k b) ++ take (length bytes) (drop k b) ++ (drop (k + length bytes) b ++ post)) in Hbytes by (by rewrite <- !app_assoc).
    destruct (buffer_pwrite_ok copy_capacity id p _ _ _ bytes room (Z.of_nat (length pre) + Z.of_nat k) st Hp Hbytes) as (st' & Hw' & Hroot & Hbytes').
    { rewrite length_take, length_drop. lia. }
    { rewrite length_app, Hk. lia. }
    exists st'. split; [done|]. split; [done|]. assert (length b' = length b) as Hlen.
    { unfold b'. rewrite !length_app, length_drop. lia. }
    apply represents_replaced with (Raw b); try done; [by rewrite !width_raw, Hlen| |].
    + intros off f' Hl'. inversion Hl'; subst. constructor; try done; by rewrite Hlen.
    + rewrite Hset. cbn [encode]. unfold b'. rewrite <- !app_assoc in Hbytes'. by rewrite <- !app_assoc.
Qed.
End Fields.

(** ** The structures keep their buffer *)

Definition same_buffers (s s' : structure) : Prop :=
  forall p sub, structure_at p s = Some sub -> exists sub', structure_at p s' = Some sub' /\ s_buffer sub' = s_buffer sub.

#[export] Instance same_buffers_preorder : PreOrder same_buffers.
Proof.
  split; [intros s p sub Hp; by exists sub|]. intros s1 s2 s3 H1 H2 p sub Hp. destruct (H1 p sub Hp) as (sub2 & Hp2 & <-). by apply H2.
Qed.

Lemma same_buffers_has s s' id p : same_buffers s s' -> has_buffer id p s -> has_buffer id p s'.
Proof. intros Hs (sub & Hp & Hb). destruct (Hs p sub Hp) as (sub' & Hp' & Hb'). exists sub'. by rewrite Hb'. Qed.

Lemma same_buffers_at s s' p : same_buffers s s' -> is_Some (structure_at p s) -> is_Some (structure_at p s').
Proof. intros Hs [sub Hp]. destruct (Hs p sub Hp) as (sub' & Hp' & _). by exists sub'. Qed.

Lemma adjust_sub_buffers cutoff diff s : same_buffers s (adjust_sub cutoff diff s).
Proof.
  intros p. revert s. induction p as [|[i k] p IH]; intros s sub Hp.
  - cbn in Hp. simplify_eq. eexists. split; [done|]. unfold adjust_sub. rewrite adjust_structure_eq. by case_decide.
  - cbn [structure_at] in *. assert (s_fields (adjust_sub cutoff diff s) = map (adjust_field cutoff diff) (s_fields s)) as ->.
    { unfold adjust_sub. rewrite adjust_structure_eq. by case_decide. }
    rewrite list_lookup_fmap. destruct (s_fields s !! i) as [[f subs]|]; [|done]. cbn in Hp |- *.
    rewrite list_lookup_fmap. destruct (subs !! k) as [sub1|]; [|done]. cbn in Hp |- *. by apply IH.
Qed.

Lemma adjust_buffers cutoff diff s : same_buffers s (adjust_structure cutoff diff s).
Proof.
  intros [|[i k] p] sub Hp.
  - cbn in Hp. simplify_eq. exists (adjust_structure cutoff diff sub). by rewrite adjust_structure_eq.
  - cbn [structure_at] in *. rewrite adjust_structure_eq. cbn [with_fields s_fields].
    rewrite list_lookup_fmap. destruct (s_fields s !! i) as [[f subs]|]; [|done]. cbn in Hp |- *.
    rewrite list_lookup_fmap. destruct (subs !! k) as [sub1|]; [|done]. cbn in Hp |- *. by apply adjust_sub_buffers.
Qed.

(** A change of the structure at a place. *)
Lemma alter_buffers g q s : (forall s, same_buffers s (g s)) -> same_buffers s (alter_at g q s).
Proof.
  intros Hg. revert s. induction q as [|[i k] q IH]; intros s; [apply Hg|]. intros [|[i' k'] p] sub Hp.
  - cbn in Hp. simplify_eq. by eexists.
  - cbn [structure_at alter_at with_fields s_fields] in *. destruct (decide (i = i')) as [<-|Hne].
    + rewrite list_lookup_alter_eq. destruct (s_fields s !! i) as [[f subs]|]; [|done]. cbn in Hp |- *.
      destruct (decide (k = k')) as [<-|Hnk].
      * rewrite list_lookup_alter_eq. destruct (subs !! k) as [sub1|]; [|done]. cbn in Hp |- *. by apply IH.
      * rewrite list_lookup_alter_ne by done. eauto.
    + rewrite list_lookup_alter_ne by done. eauto.
Qed.

Lemma alter_fields_buffers (g : field_t -> field_t) i s :
  same_buffers s (with_fields s (alter (fun '(f, subs) => (g f, subs)) i (s_fields s))).
Proof.
  intros [|[i' k] p] sub Hp; [cbn in Hp; simplify_eq; by eexists|]. cbn [structure_at with_fields s_fields] in *.
  destruct (decide (i = i')) as [<-|Hne]; [rewrite list_lookup_alter_eq|rewrite list_lookup_alter_ne by done; eauto].
  destruct (s_fields s !! i) as [[f subs]|]; [|done]. cbn in Hp |- *. eauto.
Qed.

Lemma alter_at_id q s : alter_at (fun s => s) q s = s.
Proof.
  revert s. induction q as [|[i k] q IH]; intros s; [done|]. cbn. rewrite list_alter_id; [by rewrite with_fields_same|].
  intros [f subs]. f_equal. by apply list_alter_id.
Qed.

Lemma alter_same {A} (g : A -> A) (l : list A) i x : l !! i = Some x -> g x = x -> alter g i l = l.
Proof. intros Hi Hg. destruct (lookup_split _ _ _ Hi) as (l1 & l2 & -> & ->). by rewrite alter_middle, Hg. Qed.

Lemma alter_at_same g q s sq : structure_at q s = Some sq -> g sq = sq -> alter_at g q s = s.
Proof.
  revert s. induction q as [|[i k] q IH]; intros s Hq Hg; cbn in *; [by simplify_eq|].
  destruct (s_fields s !! i) as [[f subs]|] eqn:Hi; [|done]. cbn in Hq. destruct (subs !! k) as [sub|] eqn:Hk; [|done]. cbn in Hq.
  rewrite (alter_same _ _ _ _ Hi); [by rewrite with_fields_same|]. f_equal. apply (alter_same _ _ _ _ Hk). by apply IH.
Qed.

(** ** A string or a buffer with another size *)

Section Resize.
Context {validator : IntegerValidator}.
Context (id : nat) (ds : list struct_description_t) (r : list value) (room : Z) (st : tree_state).
Context (rep : represents id ds r room st) (q : place) (i : nat) (d : struct_description_t).
Context (described : field_description q i ds = Some d) (there : is_Some (structure_at q (t_root st))).
Context (n : nat) (b b' : list Z) (f : field_t).
Context (old : field_value q i r = Some (Sized n b)) (field : field_at (q, i) st = (Ok (f, []), st)).
Context (fits : Z.of_nat (length b') < 2 ^ (8 * Z.of_nat n)).

Definition resize (size : Z) (s : structure) : structure :=
  with_fields s (alter (fun '(f, subs) => (set_size size f, subs)) i (s_fields s)).

(** The field, in the structure it is in. *)
Lemma sized_here : exists sq r1 r2 fs1 fs2, structure_at q (t_root st) = Some sq /\
  value_at q r = Some (r1 ++ Sized n b :: r2) /\ i = length r1 /\ s_fields sq = fs1 ++ (f, []) :: fs2 /\ length r1 = length fs1 /\
  laid_field id d (Sized n b) (s_start_offset sq + width_all r1) (f, []).
Proof.
  destruct there as [sq Hsq]. unfold field_value in old. destruct (value_at q r) as [rq|] eqn:Hrq; [|done]. cbn in old.
  destruct (lookup_split _ _ _ old) as (r1 & r2 & -> & Hi). unfold field_at, bind in field. cbn [fst snd] in field.
  rewrite (this_structure_ok _ _ _ Hsq) in field. destruct (s_fields sq !! i) as [f0|] eqn:Hf; [|done]. unfold ret in field. simplify_eq.
  destruct (lookup_split _ _ _ Hf) as (fs1 & fs2 & Hsplit & Hlen).
  exists sq, r1, r2, fs1, fs2. split_and!; try done.
  destruct (laid_at _ _ _ _ _ _ _ (rep_laid _ _ _ _ _ rep) Hsq) as (dsq & rq & offq & _ & _ & Hdsq & Hrq' & Hl & _).
  rewrite Hrq in Hrq'. simplify_eq. rewrite (laid_start _ _ _ _ _ Hl). inversion Hl as [? ? ? ? ? ? ? Hfs]; subst.
  rewrite Hsplit in Hfs. apply fields_split in Hfs as (ds1 & d' & ds2 & r1' & v1 & r2' & Heq & Heqr & Hl1 & Hl2 & _ & Hlf & _).
  apply app_inj_1 in Heqr as [<- [= <- <-]]; [|lia]. unfold field_description in described. rewrite Hdsq in described. cbn in described.
  rewrite Heq, Hlen, <- Hl1, lookup_middle in described. by simplify_eq.
Qed.

Let size := Z.of_nat (length b').
Let diff := size - Z.of_nat (length b).

(** The field with its new size, not moved. *)
Lemma sized_field_resized off : laid_field id d (Sized n b) off (f, []) ->
  laid_field id d (Sized n b') off (adjust_field (fld_offset f) diff (set_size size f, [])) /\ fld_offset f = off /\ (0 < n)%nat /\
  set_size (Z.of_nat (length b)) f = f.
Proof.
  intros Hl. inversion Hl as [|? ? ? ? ? Hok Hn Hlt Hsz| | |]; subst. pose proof Hok as [H1 H2 H3 H4 H5].
  assert (0 < n <= 4)%nat as Hn4 by (unfold counted_bytes in Hn; destruct (d_type d); simplify_eq/=; lia).
  assert (forall z, 0 <= z < 2 ^ (8 * Z.of_nat n) -> wrap 32 z = z) as Hwrap.
  { intros z Hz. apply wrap_small. unfold uword. pose proof (Z.pow_le_mono_r 2 (8 * Z.of_nat n) 32 ltac:(lia) ltac:(lia)). lia. }
  assert (set_size (Z.of_nat (length b)) f = f) as Hsame.
  { unfold set_size. rewrite Hwrap by lia. rewrite <- Hsz. by destruct f. }
  split_and!; try done; try lia. unfold adjust_field. cbn [fst snd map]. change (fld_offset (set_size size f)) with (fld_offset f).
  rewrite decide_False by lia. apply laid_sized; [by split|done|done|]. cbn. apply Hwrap. unfold size. lia.
Qed.

Lemma resized_laid : width_all r + Z.max 0 diff < 2 ^ 64 ->
  laid_structure id ds (alter_value (<[i:=Sized n b']>) q r) 0
    (adjust_structure (fld_offset f) diff (alter_at (resize size) q (t_root st))).
Proof.
  intros Hmax. destruct sized_here as (sq & r1 & r2 & fs1 & fs2 & Hsq & Hrq & Hi & Hfs & Hlen & Hl).
  destruct (sized_field_resized _ Hl) as (Hl' & Ho & Hn & _).
  rewrite <- (alter_at_id q (adjust_structure _ _ _)).
  apply (splice_structure id (fld_offset f) diff (resize size) (fun s => s) (<[i:=Sized n b']>) (r1 ++ Sized n b :: r2))
    with (sq := sq); try done.
  - rewrite (insert_middle _ _ _ _ _ Hi), !width_all_app, !width_all_cons, !width_sized. unfold diff, size. lia.
  - by apply (rep_laid _ _ _ _ _ rep).
  - intros dsq offq Hlq H0 Hmaxq. rewrite (laid_start _ _ _ _ _ Hlq) in Hl, Hl', Ho.
    pose proof (width_all_nonneg r1). pose proof (width_all_nonneg r2). rewrite width_all_app, width_all_cons, width_sized in *.
    split; [lia|]. rewrite (insert_middle _ _ _ _ _ Hi), adjust_structure_eq.
    inversion Hlq as [? ? ? ? Hd Hoff Hb Hlfs]; subst. constructor; try done. unfold resize. cbn [with_fields s_fields].
    rewrite Hfs in Hlfs |- *. rewrite Hi, Hlen, alter_middle, map_app. cbn [map].
    pose proof Hlfs as Hsplit. apply fields_split in Hsplit as (ds1 & d' & ds2 & r1' & v1 & r2' & Heq & Heqr & Hl1 & Hl2 & _ & Hlf & _).
    apply app_inj_1 in Heqr as [<- [= <- <-]]; [|lia].
    assert (d' = d) as -> by (inversion Hlf as [|? ? ? ? ? [] | | |]; inversion Hl as [|? ? ? ? ? [] | | |]; congruence).
    apply splice_fields with (d := d) (v := Sized n b) (f := (f, [])); try done; try lia.
    + by rewrite Heq, <- Hl1, lookup_middle.
    + rewrite width_all_app, width_all_cons, width_sized. lia.
    + rewrite width_sized. lia.
    + rewrite !width_sized. unfold diff, size. lia.
Qed.

(** The end of [set_string()] and [set_buffer()]. *)
Lemma resize_ok st1 room' : t_root st1 = t_root st -> buffered id (encode_all (alter_value (<[i:=Sized n b']>) q r)) room' st1 ->
  width_all r + Z.max 0 diff < 2 ^ 64 ->
  exists st2, bind (modify_field (set_size size) (q, i)) (fun _ => adjust_offsets (fld_offset f) diff) st1 = (Ok tt, st2) /\
    represents id ds (alter_value (<[i:=Sized n b']>) q r) room' st2 /\ same_buffers (t_root st) (t_root st2).
Proof.
  intros Hroot Hbytes Hmax. unfold modify_field, modify_structure, bind, adjust_offsets. cbn [fst snd t_root t_buffers t_blocks].
  change (fun s => with_fields s _) with (resize size). rewrite Hroot. pose proof (resized_laid Hmax) as Hl.
  destruct sized_here as (sq & r1 & r2 & fs1 & fs2 & Hsq & Hrq & Hi & Hfs & Hlen & Hlf).
  destruct (sized_field_resized _ Hlf) as (Hl' & Ho & Hn & Hsame).
  assert (forall root, same_buffers (t_root st) root -> has_buffer id [] root) as Hbuf.
  { intros root Hsb. eapply same_buffers_has; [exact Hsb|apply (rep_buffer _ _ _ _ _ rep)]. }
  destruct (decide (diff = 0)) as [Hz|Hz].
  - assert (alter_at (resize size) q (t_root st) = t_root st) as Hsame_root.
    { apply alter_at_same with sq; [done|]. unfold resize. rewrite Hfs, Hi, Hlen, alter_middle.
      replace size with (Z.of_nat (length b)) by (unfold diff in Hz; lia). rewrite Hsame, <- Hfs. apply with_fields_same. }
    rewrite Hsame_root. eexists. split; [done|]. split; [|reflexivity].
    apply (represents_replaced id ds r room st rep q i d described there (Sized n b)); try done.
    + rewrite !width_sized. unfold diff, size in Hz. lia.
    + intros off f' Hf'. inversion Hf'; subst. constructor; try done. unfold diff, size in Hz. lia.
  - eexists. split; [done|]. cbn [t_root].
    assert (same_buffers (t_root st) (adjust_structure (fld_offset f) diff (alter_at (resize size) q (t_root st)))) as Hsb.
    { transitivity (alter_at (resize size) q (t_root st)); [|apply adjust_buffers].
      apply alter_buffers. intros s. apply alter_fields_buffers. }
    split; [|done]. split; [done|by apply Hbuf|]. by destruct st1.
Qed.
End Resize.

Lemma bind_ok {A B} (m : M A) (k : A -> M B) st a st1 : m st = (Ok a, st1) -> bind m k st = k a st1.
Proof. unfold bind. by intros ->. Qed.

Lemma bind_throws {A B} (m : M A) (k : A -> M B) st e st1 : m st = (Throw e, st1) -> bind m k st = (Throw e, st1).
Proof. unfold bind. by intros ->. Qed.

Lemma bind_assoc {A B C} (m : M A) (g : A -> M B) (h : B -> M C) st :
  bind m (fun a => bind (g a) h) st = bind (bind m g) h st.
Proof. unfold bind. by destruct (m st) as [[a|e] st1]. Qed.

Section Strings.
Context {libraries : ConvertLibraries} {validator : IntegerValidator} (debug : bool).
Context (copy_capacity : Z -> Z) (insert_capacity : Z -> Z -> Z) `{laws : VectorLaws copy_capacity insert_capacity}.
Context (id : nat) (ds : list struct_description_t) (r : list value) (room : Z) (st : tree_state).
Context (rep : represents id ds r room st) (q : place) (i : nat) (d : struct_description_t).
Context (described : field_description q i ds = Some d) (there : is_Some (structure_at q (t_root st))).
Context (n : nat) (b : list Z) (old : field_value q i r = Some (Sized n b)).

(** The field of a string or a buffer, and its bytes. *)
Lemma counted_field : exists f pre post, field_at (q, i) st = (Ok (f, []), st) /\ fld_type f = d_type d /\
  counted_bytes (d_type d) = Some n /\ type_field_size f = Z.of_nat n /\ fld_size f = Z.of_nat (length b) /\
  Z.of_nat (length b) < 2 ^ (8 * Z.of_nat n) /\ (0 < n <= 4)%nat /\ fld_offset f = Z.of_nat (length pre) /\
  buffered id (pre ++ le n (Z.of_nat (length b)) ++ b ++ post) room st /\
  (forall value, encode_all (alter_value (<[i:=Sized n value]>) q r) = pre ++ le n (Z.of_nat (length value)) ++ value ++ post) /\
  Z.of_nat (length pre) + Z.of_nat n + Z.of_nat (length b) + Z.of_nat (length post) = width_all r.
Proof.
  destruct (field_laid_at id ds r room st rep q i d described there) as (v & f & subs & pre & post & Hv & Hf & Hl & Henc & Hset).
  rewrite old in Hv. simplify_eq. inversion Hl as [|? ? ? ? ? Hok Hn Hlt Hsz| | |]; subst. exists f, pre, post.
  pose proof Hok as [Hd _ Ho _ _]. pose proof (rep_bytes _ _ _ _ _ rep) as Hbytes. rewrite Henc in Hbytes. cbn [encode] in *.
  assert (0 < n <= 4)%nat as Hn4 by (unfold counted_bytes in Hn; destruct (d_type d); simplify_eq/=; lia).
  split_and!; try done; try lia.
  - unfold fld_type. by rewrite Hd.
  - unfold type_field_size, fld_type. rewrite Hd. unfold counted_bytes in Hn. destruct (d_type d); simplify_eq/=; done.
  - by rewrite <- !app_assoc in Hbytes.
  - intros value. rewrite Hset. cbn [encode]. by rewrite <- !app_assoc.
  - unfold width_all. rewrite Henc, !length_app, length_le. lia.
Qed.

(** The length in the buffer is the one of the field. *)
Lemma check_length_ok p f pre post : has_buffer id p (t_root st) -> type_field_size f = Z.of_nat n -> fld_size f = Z.of_nat (length b) ->
  Z.of_nat (length b) < 2 ^ (8 * Z.of_nat n) -> fld_offset f = Z.of_nat (length pre) ->
  buffered id (pre ++ le n (Z.of_nat (length b)) ++ b ++ post) room st -> check_length p f st = (Ok (Z.of_nat (length b)), st).
Proof.
  intros Hp Hts Hsz Hlt Ho Hbytes. unfold check_length. rewrite Hts, Ho.
  rewrite (bind_ok _ _ _ (le n (Z.of_nat (length b))) st); [|eapply buffer_pread_ok; [exact Hp|exact Hbytes|by rewrite length_le|done]].
  rewrite of_le_le_small by (unfold uword; lia). rewrite decide_False; [done|]. rewrite Hsz. by intros [].
Qed.

(** Writing the length and the bytes of a longer value. *)
Lemma write_longer p pre post value offset1 offset2 offset3 : has_buffer id p (t_root st) ->
  buffered id (pre ++ le n (Z.of_nat (length b)) ++ b ++ post) room st -> (length b < length value)%nat ->
  Z.of_nat (length value) - Z.of_nat (length b) <= room ->
  offset1 = Z.of_nat (length pre) -> offset2 = Z.of_nat (length pre) + Z.of_nat n -> offset3 = offset2 + Z.of_nat (length b) ->
  exists st1 st2 st3, buffer_pwrite copy_capacity p (le n (Z.of_nat (length value))) offset1 false st = (Ok tt, st1) /\
    buffer_pwrite copy_capacity p (take (length b) value) offset2 false st1 = (Ok tt, st2) /\
    buffer_pinsert copy_capacity insert_capacity p (drop (length b) value) offset3 st2 = (Ok tt, st3) /\
    t_root st3 = t_root st /\
    buffered id (pre ++ le n (Z.of_nat (length value)) ++ value ++ post) (room - (Z.of_nat (length value) - Z.of_nat (length b))) st3.
Proof.
  intros Hp Hbytes Hlt Hroom -> -> ->.
  destruct (buffer_pwrite_ok copy_capacity id p _ _ _ (le n (Z.of_nat (length value))) room (Z.of_nat (length pre)) st Hp Hbytes) as (st1 & H1 & Hr1 & Hb1);
    [by rewrite !length_le|done|]. rewrite <- Hr1 in Hp.
  rewrite (app_assoc pre) in Hb1.
  destruct (buffer_pwrite_ok copy_capacity id p _ _ _ (take (length b) value) room (Z.of_nat (length pre) + Z.of_nat n) st1 Hp Hb1)
    as (st2 & H2 & Hr2 & Hb2); [rewrite length_take; lia|rewrite length_app, length_le; lia|]. rewrite <- Hr2 in Hp.
  rewrite app_assoc in Hb2.
  destruct (buffer_pinsert_ok copy_capacity insert_capacity id p ((pre ++ le n (Z.of_nat (length value))) ++ take (length b) value) post (drop (length b) value)
    (room - (Z.of_nat (length value) - Z.of_nat (length b))) (Z.of_nat (length pre) + Z.of_nat n + Z.of_nat (length b)) st2 Hp)
    as (st3 & H3 & Hr3 & Hb3).
  { rewrite length_drop.
    replace (Z.of_nat (length value - length b) + (room - (Z.of_nat (length value) - Z.of_nat (length b)))) with room by lia. exact Hb2. }
  { lia. }
  { rewrite !length_app, length_le, length_take. lia. }
  exists st1, st2, st3. split_and!; try done; [by rewrite Hr3, Hr2|]. rewrite <- !app_assoc in Hb3.
  by rewrite (app_assoc (take _ value)), take_drop in Hb3.
Qed.

(** Writing the length and the bytes of a shorter value. *)
Lemma write_shorter p pre post value offset1 offset2 offset3 count : has_buffer id p (t_root st) ->
  buffered id (pre ++ le n (Z.of_nat (length b)) ++ b ++ post) room st -> (length value < length b)%nat ->
  count = Z.of_nat (length b) - Z.of_nat (length value) ->
  offset1 = Z.of_nat (length pre) -> offset2 = Z.of_nat (length pre) + Z.of_nat n -> offset3 = offset2 + Z.of_nat (length value) ->
  exists st1 st2 st3, buffer_pwrite copy_capacity p (le n (Z.of_nat (length value))) offset1 false st = (Ok tt, st1) /\
    buffer_pwrite copy_capacity p value offset2 false st1 = (Ok tt, st2) /\
    buffer_perase p count offset3 st2 = (Ok (to_int count), st3) /\ t_root st3 = t_root st /\
    buffered id (pre ++ le n (Z.of_nat (length value)) ++ value ++ post) room st3.
Proof.
  intros Hp Hbytes Hlt -> -> -> ->.
  destruct (buffer_pwrite_ok copy_capacity id p _ _ _ (le n (Z.of_nat (length value))) room (Z.of_nat (length pre)) st Hp Hbytes)
    as (st1 & H1 & Hr1 & Hb1); [by rewrite !length_le|done|]. rewrite <- Hr1 in Hp.
  assert (b = take (length value) b ++ drop (length value) b) as Hsplit by (by rewrite take_drop).
  rewrite Hsplit, (app_assoc pre), <- (app_assoc (take _ b)) in Hb1.
  destruct (buffer_pwrite_ok copy_capacity id p _ _ _ value room (Z.of_nat (length pre) + Z.of_nat n) st1 Hp Hb1)
    as (st2 & H2 & Hr2 & Hb2); [rewrite length_take; lia|rewrite length_app, length_le; lia|]. rewrite <- Hr2 in Hp.
  rewrite app_assoc in Hb2.
  destruct (buffer_perase_ok id p _ _ _ room (Z.of_nat (length b) - Z.of_nat (length value))
    (Z.of_nat (length pre) + Z.of_nat n + Z.of_nat (length value)) st2 Hp Hb2) as (st3 & H3 & Hr3 & Hb3).
  { rewrite length_drop. lia. }
  { rewrite !length_app, length_le. lia. }
  exists st1, st2, st3. split_and!; try done; [by rewrite Hr3, Hr2|]. by rewrite <- !app_assoc in Hb3.
Qed.

Context (p : place) (name : list Z) (buffered_place : has_buffer id p (t_root st)) (named : name <> []).
Context (located : locate ds p name STRUCT_TYPE_END = Ok (q, i)).

Lemma get_string_ok : is_pstring (d_type d) = true -> get_string debug p name st = (Ok b, st).
Proof.
  intros Hs. destruct counted_field as (f & pre & post & Hf & Ht & Hn & Hts & Hsz & Hlt & Hn4 & Ho & Hbytes & _ & Htot).
  destruct (get_field_ok debug id ds r room st rep p name _ q i buffered_place named located) as (Hget & _).
  unfold get_string. rewrite (bind_ok _ _ _ _ _ Hget), (bind_ok _ _ _ _ _ Hf). rewrite Ht.
  rewrite decide_False by (intros E; by rewrite E in Hs). rewrite Hs.
  rewrite (bind_ok _ _ _ _ _ (check_length_ok p f pre post buffered_place Hts Hsz Hlt Ho Hbytes)).
  destruct (represents_size _ _ _ _ _ rep). rewrite wrap_small by (unfold uword; lia). rewrite Ho, Hts.
  eapply (buffer_pread_ok id p (pre ++ le n (Z.of_nat (length b))) b post); [done|by rewrite <- app_assoc|done|].
  rewrite length_app, length_le. lia.
Qed.

Lemma get_buffer_ok : is_buffer (d_type d) = true -> get_buffer debug p name st = (Ok b, st).
Proof.
  intros Hs. destruct counted_field as (f & pre & post & Hf & Ht & Hn & Hts & Hsz & Hlt & Hn4 & Ho & Hbytes & _ & Htot).
  destruct (get_field_ok debug id ds r room st rep p name _ q i buffered_place named located) as (Hget & _).
  unfold get_buffer. rewrite (bind_ok _ _ _ _ _ Hget), (bind_ok _ _ _ _ _ Hf). rewrite Ht, Hs.
  rewrite (bind_ok _ _ _ _ _ (check_length_ok p f pre post buffered_place Hts Hsz Hlt Ho Hbytes)).
  destruct (represents_size _ _ _ _ _ rep). rewrite wrap_small by (unfold uword; lia). rewrite Ho, Hts.
  eapply (buffer_pread_ok id p (pre ++ le n (Z.of_nat (length b))) b post); [done|by rewrite <- app_assoc|done|].
  rewrite length_app, length_le. lia.
Qed.

(** What is left after the bytes: the size of the field and the offsets. *)
Lemma resized_end f value st1 : field_at (q, i) st = (Ok (f, []), st) -> Z.of_nat (length value) < 2 ^ (8 * Z.of_nat n) ->
  t_root st1 = t_root st -> width_all r + Z.max 0 (Z.of_nat (length value) - Z.of_nat (length b)) < 2 ^ 63 ->
  let room' := room - Z.max 0 (Z.of_nat (length value) - Z.of_nat (length b)) in
  buffered id (encode_all (alter_value (<[i:=Sized n value]>) q r)) room' st1 ->
  exists st2, bind (modify_field (set_size (Z.of_nat (length value))) (q, i))
      (fun _ => adjust_offsets (fld_offset f) (Z.of_nat (length value) - Z.of_nat (length b))) st1 = (Ok tt, st2) /\
    represents id ds (alter_value (<[i:=Sized n value]>) q r) room' st2 /\ same_buffers (t_root st) (t_root st2).
Proof.
  intros Hf Hlt Hroot Hmax room' Hbytes.
  apply (resize_ok id ds r room st rep q i d described there n b value f old Hf Hlt st1 room' Hroot Hbytes). lia.
Qed.

Lemma signed_small x : - 2 ^ 31 <= x < 2 ^ 31 -> signed 32 (wrap 32 x) = x.
Proof.
  intros Hx. unfold signed, wrap. destruct (decide (0 <= x)).
  - rewrite Z.mod_small by lia. rewrite decide_True by (change (32 - 1) with 31; lia). done.
  - replace (x mod 2 ^ 32) with (x + 2 ^ 32) by (apply Z.mod_unique_pos with (-1); lia).
    rewrite decide_False by (change (32 - 1) with 31; lia). lia.
Qed.

(** A string too long for its length is refused. *)
Lemma set_string_throws value : is_pstring (d_type d) = true -> Z.of_nat (length value) < 2 ^ 32 ->
  2 ^ (8 * Z.of_nat n) <= Z.of_nat (length value) ->
  set_string debug copy_capacity insert_capacity p name value st = (Throw out_of_range, st).
Proof.
  intros Hs Hv32 Hge. destruct counted_field as (f & pre & post & Hf & Ht & Hn & Hts & Hsz & Hlt & Hn4 & Ho & Hbytes & _ & Htot).
  destruct (get_field_ok debug id ds r room st rep p name _ q i buffered_place named located) as (Hget & _).
  unfold set_string. rewrite (bind_ok _ _ _ _ _ Hget), (bind_ok _ _ _ _ _ Hf). rewrite Ht.
  rewrite decide_False by (intros E; by rewrite E in Hs). rewrite Hs.
  rewrite (bind_ok _ _ _ _ _ (check_length_ok p f pre post buffered_place Hts Hsz Hlt Ho Hbytes)).
  rewrite wrap_small by (unfold uword; lia). rewrite Hts, (Z.mul_comm _ 8). by rewrite decide_True by lia.
Qed.

(** The bytes of [set_string()]. *)
Lemma set_string_ok value : is_pstring (d_type d) = true -> Z.of_nat (length value) < 2 ^ (8 * Z.of_nat n) ->
  let grown := Z.of_nat (length value) - Z.of_nat (length b) in
  grown <= room -> - 2 ^ 31 <= grown < 2 ^ 31 ->
  exists st', set_string debug copy_capacity insert_capacity p name value st = (Ok tt, st') /\
    represents id ds (alter_value (<[i:=Sized n value]>) q r) (room - Z.max 0 grown) st' /\ same_buffers (t_root st) (t_root st').
Proof.
  intros Hs Hfits grown Hroom Hint.
  destruct counted_field as (f & pre & post & Hf & Ht & Hn & Hts & Hsz & Hlt & Hn4 & Ho & Hbytes & Hnew & Htot).
  destruct (get_field_ok debug id ds r room st rep p name _ q i buffered_place named located) as (Hget & _).
  destruct (represents_size _ _ _ _ _ rep) as [Hmax Hroom0]. pose proof (width_all_nonneg r).
  assert (wrap 32 (Z.of_nat (length value)) = Z.of_nat (length value)) as Hw32.
  { apply wrap_small. unfold uword. pose proof (Z.pow_le_mono_r 2 (8 * Z.of_nat n) 32 ltac:(lia) ltac:(lia)). lia. }
  unfold set_string. rewrite (bind_ok _ _ _ _ _ Hget), (bind_ok _ _ _ _ _ Hf). rewrite Ht.
  rewrite decide_False by (intros E; by rewrite E in Hs). rewrite Hs.
  rewrite (bind_ok _ _ _ _ _ (check_length_ok p f pre post buffered_place Hts Hsz Hlt Ho Hbytes)).
  cbv zeta. rewrite Hw32, Hts, (Z.mul_comm _ 8), (decide_False (P := _ >= _)) by lia. rewrite Ho.
  rewrite !Nat2Z.id, Nat.sub_0_r, drop_0, !Nat.sub_0_r, Z.add_0_r.
  match goal with |- exists st', bind ?w _ st = _ /\ _ =>
    assert (exists st3, w st = (Ok tt, st3) /\ t_root st3 = t_root st /\
      buffered id (encode_all (alter_value (<[i:=Sized n value]>) q r)) (room - Z.max 0 grown) st3) as (st3 & Hw & Hroot & Hbytes3) end.
  2:{ rewrite (bind_ok _ _ _ _ _ Hw).
    destruct (resized_end f value st3 Hf Hfits Hroot) as (st4 & Hend & Hrep & Hsb); [lia|done|].
    rewrite bind_assoc. fold grown in Hend. rewrite signed_small by done. rewrite <- Ho. rewrite (bind_ok _ _ _ _ _ Hend).
    exists st4. split; [|done]. apply (verify_buffer_size_ok debug id ds _ _ st4 Hrep).
    apply (same_buffers_at _ _ _ Hsb). destruct buffered_place as (s & ? & _). by exists s. }
  rewrite Hnew. rewrite (take_ge value) by lia.
  destruct (decide (Z.of_nat (length value) = Z.of_nat (length b))) as [Heq|Hne].
  { rewrite wrap_small by (unfold uword; lia). rewrite Heq. rewrite app_assoc in Hbytes |- *.
    destruct (buffer_pwrite_ok copy_capacity id p _ _ _ value room (Z.of_nat (length pre) + Z.of_nat n) st buffered_place Hbytes)
      as (st3 & H1 & Hr & Hb); [lia|rewrite length_app, length_le; lia|].
    exists st3. split_and!; [done..|]. replace (room - Z.max 0 grown) with room by lia. done. }
  destruct (decide (Z.of_nat (length value) > Z.of_nat (length b))) as [Hgt|Hle].
  - destruct (write_longer p pre post value (Z.of_nat (length pre)) (wrap 64 (Z.of_nat (length pre) + Z.of_nat n))
      (wrap 64 (Z.of_nat (length pre) + Z.of_nat n + Z.of_nat (length b))) buffered_place Hbytes)
      as (st1 & st2 & st3 & H1 & H2 & H3 & Hr & Hb); [lia|lia|done|rewrite wrap_small by (unfold uword; lia); done|
      rewrite !wrap_small by (unfold uword; lia); done|].
    exists st3. rewrite (bind_ok _ _ _ _ _ H1), (bind_ok _ _ _ _ _ H2). rewrite (take_ge (drop _ value)) by (rewrite length_drop; lia).
    split_and!; [done..|]. replace (room - Z.max 0 grown) with (room - grown) by lia. done.
  - destruct (write_shorter p pre post value (Z.of_nat (length pre)) (wrap 64 (Z.of_nat (length pre) + Z.of_nat n))
      (wrap 64 (Z.of_nat (length pre) + Z.of_nat n + Z.of_nat (length value)))
      (Z.of_nat (length b) - Z.of_nat (length value)) buffered_place Hbytes)
      as (st1 & st2 & st3 & H1 & H2 & H3 & Hr & Hb); [lia|done|done|rewrite wrap_small by (unfold uword; lia); done|
      rewrite !wrap_small by (unfold uword; lia); done|].
    exists st3. rewrite (bind_ok _ _ _ _ _ H1), (bind_ok _ _ _ _ _ H2), (bind_ok _ _ _ _ _ H3).
    split_and!; [done..|]. replace (room - Z.max 0 grown) with room by lia. done.
Qed.

(** The same for a buffer: the bytes that are too many are erased first. *)
Lemma erase_then_write pre post value offset1 offset2 offset3 count :
  buffered id (pre ++ le n (Z.of_nat (length b)) ++ b ++ post) room st -> (length value < length b)%nat ->
  count = Z.of_nat (length b) - Z.of_nat (length value) ->
  offset1 = Z.of_nat (length pre) -> offset2 = Z.of_nat (length pre) + Z.of_nat n -> offset3 = offset2 + Z.of_nat (length value) ->
  exists st1 st2 st3, buffer_perase p count offset3 st = (Ok (to_int count), st1) /\
    buffer_pwrite copy_capacity p (le n (Z.of_nat (length value))) offset1 false st1 = (Ok tt, st2) /\
    buffer_pwrite copy_capacity p value offset2 false st2 = (Ok tt, st3) /\ t_root st3 = t_root st /\
    buffered id (pre ++ le n (Z.of_nat (length value)) ++ value ++ post) room st3.
Proof.
  intros Hbytes Hlt -> -> -> ->. pose proof buffered_place as Hp.
  assert (b = take (length value) b ++ drop (length value) b) as Hsplit by (by rewrite take_drop).
  assert (buffered id ((pre ++ le n (Z.of_nat (length b)) ++ take (length value) b) ++ drop (length value) b ++ post) room st) as Hb0.
  { rewrite <- !app_assoc. by rewrite (app_assoc (take _ b)), take_drop. }
  destruct (buffer_perase_ok id p _ _ _ room (Z.of_nat (length b) - Z.of_nat (length value))
    (Z.of_nat (length pre) + Z.of_nat n + Z.of_nat (length value)) st Hp Hb0) as (st1 & H1 & Hr1 & Hb1).
  { rewrite length_drop. lia. }
  { rewrite !length_app, length_le, length_take. lia. }
  rewrite <- !app_assoc in Hb1. rewrite <- Hr1 in Hp.
  destruct (buffer_pwrite_ok copy_capacity id p _ _ _ (le n (Z.of_nat (length value))) room (Z.of_nat (length pre)) st1 Hp Hb1)
    as (st2 & H2 & Hr2 & Hb2); [by rewrite !length_le|done|]. rewrite <- Hr2 in Hp. rewrite app_assoc in Hb2.
  destruct (buffer_pwrite_ok copy_capacity id p _ _ _ value room (Z.of_nat (length pre) + Z.of_nat n) st2 Hp Hb2)
    as (st3 & H3 & Hr3 & Hb3); [rewrite length_take; lia|rewrite length_app, length_le; lia|].
  exists st1, st2, st3. split_and!; try done; [by rewrite Hr3, Hr2|]. by rewrite <- !app_assoc in Hb3.
Qed.

Lemma set_buffer_throws value : is_buffer (d_type d) = true -> 2 ^ (8 * Z.of_nat n) <= Z.of_nat (length value) ->
  set_buffer debug copy_capacity insert_capacity p name value st = (Throw out_of_range, st).
Proof.
  intros Hs Hge. destruct counted_field as (f & pre & post & Hf & Ht & Hn & Hts & Hsz & Hlt & Hn4 & Ho & Hbytes & _ & Htot).
  destruct (get_field_ok debug id ds r room st rep p name _ q i buffered_place named located) as (Hget & _).
  unfold set_buffer. rewrite (bind_ok _ _ _ _ _ Hget), (bind_ok _ _ _ _ _ Hf). rewrite Ht, Hs. cbn [negb].
  rewrite Hts, (Z.mul_comm _ 8). by rewrite decide_True by lia.
Qed.

Lemma set_buffer_ok value : is_buffer (d_type d) = true -> Z.of_nat (length value) < 2 ^ (8 * Z.of_nat n) ->
  let grown := Z.of_nat (length value) - Z.of_nat (length b) in
  grown <= room ->
  exists st', set_buffer debug copy_capacity insert_capacity p name value st = (Ok tt, st') /\
    represents id ds (alter_value (<[i:=Sized n value]>) q r) (room - Z.max 0 grown) st' /\ same_buffers (t_root st) (t_root st').
Proof.
  intros Hs Hfits grown Hroom.
  destruct counted_field as (f & pre & post & Hf & Ht & Hn & Hts & Hsz & Hlt & Hn4 & Ho & Hbytes & Hnew & Htot).
  destruct (get_field_ok debug id ds r room st rep p name _ q i buffered_place named located) as (Hget & _).
  destruct (represents_size _ _ _ _ _ rep) as [Hmax Hroom0]. pose proof (width_all_nonneg r).
  unfold set_buffer. rewrite (bind_ok _ _ _ _ _ Hget), (bind_ok _ _ _ _ _ Hf). rewrite Ht, Hs. cbn [negb].
  cbv zeta. rewrite Hts, (Z.mul_comm _ 8), (decide_False (P := _ >= _)) by lia. rewrite Hsz. rewrite !Nat2Z.id, Z.add_0_r.
  pose proof (fun st1 => resized_end f value st1 Hf Hfits) as Hend. rewrite Ho in Hend |- *.
  assert (wrap 64 (Z.of_nat (length pre) + Z.of_nat n) = Z.of_nat (length pre) + Z.of_nat n) as Hw0.
  { apply wrap_small. unfold uword. lia. }
  destruct (decide (Z.of_nat (length b) > Z.of_nat (length value))) as [Hgt|Hle].
  - destruct (erase_then_write pre post value (Z.of_nat (length pre)) (wrap 64 (Z.of_nat (length pre) + Z.of_nat n))
      (wrap 64 (Z.of_nat (length pre) + Z.of_nat n + Z.of_nat (length value))) (Z.of_nat (length b) - Z.of_nat (length value)) Hbytes)
      as (st1 & st2 & st3 & H1 & H2 & H3 & Hr & Hb); [lia|done|done|done|by rewrite Hw0, wrap_small by (unfold uword; lia)|].
    rewrite (bind_ok _ _ _ _ _ H1), (bind_ok _ _ _ _ _ H2), (bind_ok _ _ _ _ _ H3). apply Hend; [done|lia|].
    rewrite Hnew. replace (room - Z.max 0 _) with room by lia. done.
  - destruct (decide (Z.of_nat (length b) < Z.of_nat (length value))) as [Hgt|Hge].
    + destruct (write_longer p pre post value (Z.of_nat (length pre)) (wrap 64 (Z.of_nat (length pre) + Z.of_nat n))
        (wrap 64 (Z.of_nat (length pre) + Z.of_nat n + Z.of_nat (length b))) buffered_place Hbytes)
        as (st1 & st2 & st3 & H1 & H2 & H3 & Hr & Hb); [lia|lia|done|done|by rewrite Hw0, wrap_small by (unfold uword; lia)|].
      rewrite (bind_ok _ _ _ _ _ H1), (bind_ok _ _ _ _ _ H2), (bind_ok _ _ _ _ _ H3). apply Hend; [done|lia|].
      rewrite Hnew. replace (room - Z.max 0 _) with (room - (Z.of_nat (length value) - Z.of_nat (length b))) by lia. done.
    + assert (Z.of_nat (length value) = Z.of_nat (length b)) as Heq by lia. rewrite Hw0.
      pose proof Hbytes as Hbytes2. rewrite app_assoc in Hbytes2.
      destruct (buffer_pwrite_ok copy_capacity id p _ _ _ value room (Z.of_nat (length pre) + Z.of_nat n) st buffered_place Hbytes2)
        as (st3 & H1 & Hr & Hb); [lia|rewrite length_app, length_le; lia|].
      exists st3. split; [done|]. split; [|by rewrite Hr]. replace (room - Z.max 0 grown) with room by lia.
      apply (represents_replaced id ds r room st rep q i d described there (Sized n b)); try done.
      * rewrite !width_sized. lia.
      * intros off f' Hf'. inversion Hf'; subst. constructor; try done. by rewrite Heq.
      * rewrite Hnew, Heq. by rewrite <- app_assoc in Hb.
Qed.
End Strings.

(** ** Numbers, flags and fixed strings *)

Section Numbers.
Context {libraries : ConvertLibraries} {validator : IntegerValidator} (debug : bool).
Context (copy_capacity : Z -> Z).
Context (id : nat) (ds : list struct_description_t) (r : list value) (room : Z) (st : tree_state).
Context (rep : represents id ds r room st) (q : place) (i : nat) (d : struct_description_t).
Context (described : field_description q i ds = Some d) (there : is_Some (structure_at q (t_root st))).
Context (b : list Z) (old : field_value q i r = Some (Raw b)).
Context (p : place) (name : list Z) (buffered_place : has_buffer id p (t_root st)) (named : name <> []).
Context (located : locate ds p name STRUCT_TYPE_END = Ok (q, i)).

Lemma raw_replaced (bytes : list Z) : length bytes = length b -> take 0 b ++ bytes ++ drop (0 + length bytes) b = bytes.
Proof. intros Hl. cbn. by rewrite drop_ge, app_nil_r by lia. Qed.

(** The checks of a field with the size of its type. *)
Lemma sized_field_ok : d_type d <> STRUCT_TYPE_CHAR -> exists f, sized_field debug p name st = (Ok (q, i, f), st) /\
  fld_type f = d_type d /\ Z.of_nat (length b) = fst (g_struct_type_sizes (d_type d)) /\ fld_size f = Z.of_nat (length b) /\
  fld_name f = name_of d /\ flags_of d = Ok (fld_flag_definitions f) /\ field_at (q, i) st = (Ok (f, []), st) /\
  buffer_pread p (Z.of_nat (length b)) (fld_offset f) st = (Ok b, st) /\
  forall bytes, length bytes = length b -> exists st', buffer_pwrite copy_capacity p bytes (fld_offset f) false st = (Ok tt, st') /\
    represents id ds (alter_value (<[i:=Raw bytes]>) q r) room st' /\ t_root st' = t_root st.
Proof.
  intros Hchar. destruct (get_field_ok debug id ds r room st rep p name _ q i buffered_place named located) as (Hget & _).
  destruct (raw_field copy_capacity id ds r room st rep q i d described there b old)
    as (f & Hf & Hd & Hsz & Hw & Hfl & Hn & _ & _ & Hread & Hwrite).
  unfold fixed_width in Hw. rewrite decide_False in Hw by done. destruct (decide (0 < _)) as [Hpos|]; [|done]. injection Hw as Hw.
  exists f. split_and!; try done; [| |by apply Hread|].
  - unfold sized_field. rewrite (bind_ok _ _ _ _ _ Hget), (bind_ok _ _ _ _ _ Hf). unfold verify_size, fld_type.
    rewrite Hd, Hsz, Hw, decide_False by (by intros []). done.
  - unfold fld_type. by rewrite Hd.
  - intros bytes Hlen. destruct (Hwrite p 0%nat bytes (fld_offset f) buffered_place) as (st' & Hw1 & Hr & Hrep); [lia|lia|].
    rewrite raw_replaced in Hrep by done. by exists st'.
Qed.

Lemma get_uinteger_ok k : uinteger_bytes (d_type d) = Some k -> length b = k /\ get_uinteger debug p name st = (Ok (of_le b), st).
Proof.
  intros Hk. destruct sized_field_ok as (f & Hs & Ht & Hsz & _ & _ & _ & _ & Hread & _); [by intros E; rewrite E in Hk|].
  assert (length b = k) as Hlen by (destruct (d_type d); simplify_eq/=; lia). split; [done|].
  unfold get_uinteger. rewrite (bind_ok _ _ _ _ _ Hs), Ht, Hk. rewrite <- Hlen. by rewrite (bind_ok _ _ _ _ _ Hread).
Qed.

Lemma get_integer_ok k : integer_bytes (d_type d) = Some k ->
  length b = k /\ get_integer debug p name st = (Ok (signed (8 * Z.of_nat k) (of_le b)), st).
Proof.
  intros Hk. destruct sized_field_ok as (f & Hs & Ht & Hsz & _ & _ & _ & _ & Hread & _); [by intros E; rewrite E in Hk|].
  assert (length b = k) as Hlen by (destruct (d_type d); simplify_eq/=; lia). split; [done|].
  unfold get_integer. rewrite (bind_ok _ _ _ _ _ Hs), Ht, Hk. rewrite <- Hlen. by rewrite (bind_ok _ _ _ _ _ Hread).
Qed.

Lemma set_uinteger_ok k v : writable_uinteger_bytes (d_type d) = Some k ->
  exists st', set_uinteger debug copy_capacity p name v st = (Ok tt, st') /\
    represents id ds (alter_value (<[i:=Raw (le k v)]>) q r) room st' /\ t_root st' = t_root st.
Proof.
  intros Hk. destruct sized_field_ok as (f & Hs & Ht & Hsz & _ & _ & _ & _ & _ & Hwrite); [by intros E; rewrite E in Hk|].
  unfold set_uinteger. rewrite (bind_ok _ _ _ _ _ Hs), Ht, Hk. apply Hwrite. rewrite length_le.
  destruct (d_type d); simplify_eq/=; lia.
Qed.

Lemma set_integer_ok k v : integer_bytes (d_type d) = Some k ->
  exists st', set_integer debug copy_capacity p name v st = (Ok tt, st') /\
    represents id ds (alter_value (<[i:=Raw (le k v)]>) q r) room st' /\ t_root st' = t_root st.
Proof.
  intros Hk. destruct sized_field_ok as (f & Hs & Ht & Hsz & _ & _ & _ & _ & _ & Hwrite); [by intros E; rewrite E in Hk|].
  unfold set_integer. rewrite (bind_ok _ _ _ _ _ Hs), Ht, Hk. apply Hwrite. rewrite length_le.
  destruct (d_type d); simplify_eq/=; lia.
Qed.

(** The flags of a bit field. *)
Lemma get_bits_ok k flag_name flag_field flags : bits_bytes (d_type d) = Some k -> split_flag flag_name = Some (name, flag_field) ->
  flags_of d = Ok flags ->
  get_bits debug p flag_name st =
    (match find_key string_ltb (c_str flag_field) flags with
     | Some flag => Ok (Z.shiftr (Z.land (of_le b) (fd_mask flag)) (fd_pos flag))
     | None => Throw field_not_found
     end, st).
Proof.
  intros Hk Hsplit Hflags. destruct (get_field_ok debug id ds r room st rep p name _ q i buffered_place named located) as (Hget & _).
  destruct sized_field_ok as (f & _ & Ht & Hsz & Hfsz & _ & Hfl & Hf & Hread & _); [by intros E; rewrite E in Hk|].
  rewrite Hflags in Hfl. injection Hfl as ->. unfold get_bits, get_flag. rewrite Hsplit.
  assert (length b = k) as Hlen by (destruct (d_type d); simplify_eq/=; lia).
  unfold bind at 1. rewrite (bind_ok _ _ _ _ _ Hget), (bind_ok _ _ _ _ _ Hf). rewrite Ht.
  assert (is_a_bit_field (d_type d) = true) as -> by (destruct (d_type d); simplify_eq/=; done).
  unfold find_flag_definition, lift, bind at 1. destruct (find_key _ _ _) as [flag|]; [|done]. unfold ret.
  rewrite (bind_ok _ _ _ _ _ Hf). unfold verify_size. rewrite Ht, Hfsz, decide_False by (rewrite Hsz; by intros []).
  unfold bind at 1. rewrite Hk, <- Hlen. by rewrite (bind_ok _ _ _ _ _ Hread).
Qed.
End Numbers.

Lemma value_at_alter g q r rq : value_at q r = Some rq -> value_at q (alter_value g q r) = Some (g rq).
Proof.
  revert r. induction q as [|[j k] q IH]; intros r Hv; cbn in *; [by simplify_eq|].
  destruct (r !! j) as [vj|] eqn:Hj; [|done]. cbn in Hv. destruct (sub_value vj k) as [rs|] eqn:Hs; [|done]. cbn in Hv.
  rewrite list_lookup_alter_eq, Hj. cbn. assert (sub_value (alter_sub (alter_value g q) k vj) k = Some (alter_value g q rs)) as ->.
  { destruct vj; try done; cbn in *; [|by case_decide; simplify_eq]. by rewrite list_lookup_alter_eq, Hs. }
  cbn. by apply IH.
Qed.

(** The value that was written. *)
Lemma field_value_alter q i r v v' : field_value q i r = Some v -> field_value q i (alter_value (<[i:=v']>) q r) = Some v'.
Proof.
  unfold field_value. destruct (value_at q r) as [rq|] eqn:Hq; [|done]. cbn. intros Hv. rewrite (value_at_alter _ _ _ _ Hq).
  cbn. apply list_lookup_insert_eq. by eapply lookup_lt_Some.
Qed.

Lemma alter_value_compose g h q r : alter_value h q (alter_value g q r) = alter_value (fun x => h (g x)) q r.
Proof.
  revert r. induction q as [|[j k] q IH]; intros r; [done|]. cbn. rewrite list_alter_alter_eq. apply list_alter_ext; [|done].
  intros v _. cbn. destruct v as [| |n l|r'|]; try done; cbn.
  - rewrite list_alter_alter_eq. f_equal. apply list_alter_ext; [|done]. intros x _. apply IH.
  - case_decide; [cbn; by rewrite decide_True, IH by done|]. cbn. by rewrite decide_False.
Qed.

Lemma alter_value_id q r : alter_value (fun x => x) q r = r.
Proof.
  revert r. induction q as [|[j k] q IH]; intros r; [done|]. cbn. apply list_alter_id. intros [| |n l|r'|]; cbn; try done.
  - f_equal. by apply list_alter_id.
  - case_decide; [by rewrite IH|done].
Qed.

Lemma alter_value_twice q i r v1 v2 : alter_value (<[i:=v2]>) q (alter_value (<[i:=v1]>) q r) = alter_value (<[i:=v2]>) q r.
Proof.
  rewrite alter_value_compose. destruct (decide (is_Some (value_at q r))) as [[rq Hq]|Hn].
  - rewrite (alter_value_const _ _ _ _ Hq), (alter_value_const (<[i:=v2]>) _ _ _ Hq). by rewrite list_insert_insert_eq.
  - revert r Hn. induction q as [|[j k] q IH]; intros r Hn; [by destruct Hn; exists r|]. cbn in *. apply list_alter_ext; [|done].
    intros v Hv. rewrite Hv in Hn. cbn in Hn. destruct v as [| |n l|r'|]; try done; cbn in *.
    + f_equal. apply list_alter_ext; [|done]. intros x Hx. rewrite Hx in Hn. by apply IH.
    + case_decide; [|done]. subst. by rewrite IH.
Qed.

Lemma alter_value_ext g h q r rq : value_at q r = Some rq -> g rq = h rq -> alter_value g q r = alter_value h q r.
Proof. intros Hq E. rewrite (alter_value_const g _ _ _ Hq), (alter_value_const h _ _ _ Hq). by rewrite E. Qed.

Lemma field_at_root loc f st st' : field_at loc st = (Ok f, st) -> t_root st' = t_root st -> field_at loc st' = (Ok f, st').
Proof.
  intros Hf Hr. unfold field_at, bind, this_structure in *. rewrite Hr. destruct (structure_at _ _) as [s|]; [|done].
  destruct (s_fields s !! loc.2); [|done]. unfold ret in *. congruence.
Qed.

Section Chars.
Context {libraries : ConvertLibraries} {validator : IntegerValidator} (debug : bool).
Context (copy_capacity : Z -> Z) (insert_capacity : Z -> Z -> Z).
Context (id : nat) (ds : list struct_description_t) (r : list value) (room : Z) (st : tree_state).
Context (rep : represents id ds r room st) (q : place) (i : nat) (d : struct_description_t).
Context (described : field_description q i ds = Some d) (there : is_Some (structure_at q (t_root st))).
Context (b : list Z) (old : field_value q i r = Some (Raw b)) (is_char : d_type d = STRUCT_TYPE_CHAR).
Context (p : place) (name : list Z) (buffered_place : has_buffer id p (t_root st)) (named : name <> []).
Context (located : locate ds p name STRUCT_TYPE_END = Ok (q, i)).

Lemma get_char_ok : get_string debug p name st = (Ok (c_str b), st).
Proof.
  destruct (get_field_ok debug id ds r room st rep p name _ q i buffered_place named located) as (Hget & _).
  destruct (raw_field copy_capacity id ds r room st rep q i d described there b old)
    as (f & Hf & Hd & Hsz & _ & _ & _ & _ & _ & Hread & _).
  unfold get_string. rewrite (bind_ok _ _ _ _ _ Hget), (bind_ok _ _ _ _ _ Hf). unfold type_field_size, fld_type. rewrite Hd.
  rewrite !(decide_True (P := d_type d = STRUCT_TYPE_CHAR)) by done. rewrite Hsz. by rewrite (bind_ok _ _ _ _ _ (Hread p buffered_place)).
Qed.

(** A string of a fixed size: padded with zeros; too long, it is refused. *)
Lemma set_char_throws text : (length b < length text)%nat ->
  set_string debug copy_capacity insert_capacity p name text st = (Throw out_of_range, st).
Proof.
  intros Hlt. destruct (get_field_ok debug id ds r room st rep p name _ q i buffered_place named located) as (Hget & _).
  destruct (raw_field copy_capacity id ds r room st rep q i d described there b old) as (f & Hf & Hd & Hsz & _).
  unfold set_string. rewrite (bind_ok _ _ _ _ _ Hget), (bind_ok _ _ _ _ _ Hf). unfold set_char, type_field_size, fld_type. rewrite Hd.
  rewrite !(decide_True (P := d_type d = STRUCT_TYPE_CHAR)) by done. by rewrite decide_True by lia.
Qed.

Lemma set_char_ok text : (length text <= length b)%nat ->
  exists st', set_string debug copy_capacity insert_capacity p name text st = (Ok tt, st') /\
    represents id ds (alter_value (<[i:=Raw (text ++ replicate (length b - length text) 0)]>) q r) room st' /\ t_root st' = t_root st.
Proof.
  intros Hle. destruct (get_field_ok debug id ds r room st rep p name _ q i buffered_place named located) as (Hget & _).
  destruct (raw_field copy_capacity id ds r room st rep q i d described there b old)
    as (f & Hf & Hd & Hsz & _ & _ & _ & Ho & Hmax & _ & Hwrite).
  unfold set_string. rewrite (bind_ok _ _ _ _ _ Hget), (bind_ok _ _ _ _ _ Hf). unfold set_char, type_field_size, fld_type. rewrite Hd.
  rewrite !(decide_True (P := d_type d = STRUCT_TYPE_CHAR)) by done. rewrite (decide_False (P := _ > fld_size f)) by lia.
  destruct (Hwrite p 0%nat text (fld_offset f) buffered_place) as (st1 & Hw1 & Hr1 & Hrep1); [lia|lia|].
  rewrite (bind_ok _ _ _ _ _ Hw1). destruct (decide _) as [Hlt|Hge].
  - set (b1 := take 0 b ++ text ++ drop (0 + length text) b) in *.
    assert (length b1 = length b) as Hlen by (unfold b1; rewrite !length_app, length_take, length_drop; lia).
    destruct (raw_field copy_capacity id ds _ room st1 Hrep1 q i d described ltac:(by rewrite Hr1) b1 (field_value_alter _ _ _ _ _ old))
      as (f1 & Hf1 & _ & _ & _ & _ & _ & _ & _ & _ & Hwrite1).
    rewrite (field_at_root _ _ _ _ Hf Hr1) in Hf1. injection Hf1 as <-.
    destruct (Hwrite1 p (length text) (replicate (length b - length text) 0) (wrap 64 (fld_offset f + Z.of_nat (length text))))
      as (st2 & Hw2 & Hr2 & Hrep2); [by rewrite Hr1|rewrite length_replicate; lia|rewrite wrap_small by (unfold uword; lia); done|].
    exists st2. rewrite Hsz. replace (Z.to_nat (Z.of_nat (length b) - Z.of_nat (length text))) with (length b - length text)%nat by lia.
    split; [done|]. split; [|by rewrite Hr2]. rewrite alter_value_twice in Hrep2. unfold b1 in Hrep2. rewrite take_0 in Hrep2. cbn [app] in Hrep2.
    rewrite take_app_length, drop_ge, app_nil_r in Hrep2 by (rewrite length_app, length_drop, length_replicate; lia). done.
  - exists st1. split; [done|]. split; [|done]. replace (length b - length text)%nat with 0%nat by lia. cbn [replicate].
    rewrite take_0 in Hrep1. cbn [app] in Hrep1. by rewrite drop_ge in Hrep1 by lia.
Qed.
End Chars.
