(* ===== verification/StructParse.v ===== *)
(** * Parsing descriptions

    What the values of a description can be, apart from the tree ([described]),
    and the fields that [parse_descriptions()] makes: over the bytes of such
    values they are laid over the values, and without bytes they are laid over the
    fresh values, where the fixed fields are zeros and the other ones are empty. *)

From S2P Require Import Prelude Names Bytes SortedMap VirtualBuffer StructTypes Convert Structure StructLayout StructAccess.
From S2P Require Import StructUpdate.

Section Described.
Context {validator : IntegerValidator}.

(** The name of the field is accepted, and its flags too. *)
Definition well_named (d : struct_description_t) : Prop :=
  validate_field_name (d_type d) (d_field_name d) = Ok true /\ exists flags, flags_of d = Ok flags.

(** The values a description can have. *)
Inductive described_field : struct_description_t -> value -> Prop :=
  | described_raw d b : well_named d -> fixed_width d = Some (Z.of_nat (length b)) -> d_sub_description d = None ->
      described_field d (Raw b)
  | described_sized d n b : well_named d -> counted_bytes (d_type d) = Some n -> d_sub_description d = None ->
      Z.of_nat (length b) < 2 ^ (8 * Z.of_nat n) -> described_field d (Sized n b)
  | described_array d n l ds : well_named d -> array_bytes (d_type d) = Some n -> d_sub_description d = Some (inl ds) ->
      Z.of_nat (length l) < 2 ^ (8 * Z.of_nat n) -> described_items ds l -> described_field d (Items n l)
  | described_sub d r ds : well_named d -> d_type d = STRUCT_TYPE_STRUCTURE -> d_sub_description d = Some (inl ds) ->
      described_fields ds r -> NoDup (name_of <$> ds) -> described_field d (Sub r)
  | described_void d : well_named d -> d_type d = STRUCT_TYPE_VOID -> d_sub_description d = None -> described_field d Nothing
  | described_renamed d : well_named d -> d_type d = STRUCT_TYPE_RENAMED -> d_sub_description d <> None -> described_field d Nothing
with described_fields : list struct_description_t -> list value -> Prop :=
  | described_nil : described_fields [] []
  | described_cons d ds v r : described_field d v -> described_fields ds r -> described_fields (d :: ds) (v :: r)
with described_items : list struct_description_t -> list (list value) -> Prop :=
  | described_no_item ds : described_items ds []
  | described_item ds r l : described_fields ds r -> NoDup (name_of <$> ds) -> described_items ds l -> described_items ds (r :: l).

End Described.

Scheme described_field_mut := Minimality for described_field Sort Prop
  with described_fields_mut := Minimality for described_fields Sort Prop
  with described_items_mut := Minimality for described_items Sort Prop.
Combined Scheme described_mutind from described_field_mut, described_fields_mut, described_items_mut.

(** The values of fields that nothing was written in. *)
Inductive fresh : value -> Prop :=
  | fresh_raw b : fresh (Raw b)
  | fresh_sized n : fresh (Sized n [])
  | fresh_items n : fresh (Items n [])
  | fresh_sub r : Forall fresh r -> fresh (Sub r)
  | fresh_nothing : fresh Nothing.

Section Parsing.
Context {libraries : ConvertLibraries} {validator : IntegerValidator} (debug : bool).
Context (blocks : block_store) (id : option nat) (vb : option virtual_buffer).

Definition no_data : Prop := match vb with Some vb => count_buffers vb = 0%nat | None => True end.

(** The bytes are at the offset, or there is nothing and the values are fresh. *)
Definition readable (is_fresh : Prop) (bytes : list Z) (offset : Z) : Prop :=
  (exists b pre post, vb = Some b /\ buffer_ok blocks b /\ contents blocks (f_buffers b) = pre ++ bytes ++ post /\
     offset = Z.of_nat (length pre)) \/
  (no_data /\ is_fresh /\ 0 <= offset /\ offset + Z.of_nat (length bytes) < 2 ^ 63).

Lemma readable_bounds F bytes offset : readable F bytes offset -> 0 <= offset /\ offset + Z.of_nat (length bytes) < 2 ^ 63.
Proof.
  intros [(b & pre & post & _ & (_ & Ht & Hmax) & Hc & ->)|(_ & _ & ? & ?)]; [|done].
  rewrite Hc, !length_app in Ht. lia.
Qed.

Lemma readable_app (F G H : Prop) x y offset : readable F (x ++ y) offset -> (F -> G) -> (F -> H) ->
  readable G x offset /\ readable H y (offset + Z.of_nat (length x)).
Proof.
  intros [(b & pre & post & -> & Hok & Hc & ->)|(Hn & HF & H0 & Hmax)] HG HH.
  - split; left.
    + exists b, pre, (y ++ post). split_and!; try done. by rewrite Hc, <- app_assoc.
    + exists b, (pre ++ x), post. split_and!; try done; [by rewrite Hc, <- !app_assoc|]. rewrite length_app. lia.
  - rewrite length_app in Hmax. split; right; split_and!; try done; auto; lia.
Qed.

(** The count in front of a string, a buffer or an array. *)
Lemma read_count_ok (F : Prop) n len rest offset : (0 < n)%nat -> 0 <= len < 2 ^ (8 * Z.of_nat n) ->
  readable F (le n len ++ rest) offset -> (F -> len = 0) ->
  read_count blocks vb n offset = Ok (Some len) \/ read_count blocks vb n offset = Ok None /\ len = 0.
Proof.
  intros Hn Hlen [(b & pre & post & Hvb & Hok & Hc & ->)|(Hno & HF & H0 & Hmax)] Hz.
  - left. unfold read_count. rewrite Hvb. rewrite decide_True.
    + pose proof Hok as (_ & Ht & _). rewrite Hc, !length_app, length_le in Ht.
      rewrite (pread_value blocks b) by (done || lia). cbn [result_bind]. rewrite Hc, !Nat2Z.id.
      rewrite <- app_assoc, drop_app_length. rewrite take_app_length' by (by rewrite length_le).
      by rewrite of_le_le_small by (unfold uword; lia).
    + unfold count_buffers. intros Hnil. destruct (f_buffers b); [|done].
      apply (f_equal length) in Hc. rewrite !length_app, length_le in Hc. cbn in Hc. lia.
  - right. split; [|by apply Hz]. unfold read_count, no_data in *. destruct vb as [b|]; [|done]. by rewrite decide_False by auto.
Qed.

(** The check of an offset up to the end of the bytes. *)
Lemma offset_check (F : Prop) bytes offset o : readable F bytes offset -> o <= offset + Z.of_nat (length bytes) ->
  match vb with
  | Some vb => if decide (count_buffers vb <> 0%nat /\ o > size vb) then Throw corrupted_data else Ok tt
  | None => Ok tt
  end = Ok tt.
Proof.
  intros [(b & pre & post & -> & (_ & Ht & _) & Hc & ->)|(Hno & _ & _ & _)] Ho.
  - rewrite decide_False; [done|]. intros [_ Hgt]. unfold size in Hgt. rewrite Hc, !length_app in Ht. lia.
  - unfold no_data in Hno. destruct vb; [|done]. by rewrite decide_False by tauto.
Qed.

(** The constructor of a field. *)
Lemma new_field_ok d : well_named d -> (d_type d = STRUCT_TYPE_CHAR -> is_Some (fixed_width d)) ->
  exists f, new_field debug d = Ok f /\ fld_description f = d /\ fld_name f = name_of d /\ fld_flags f = 0 /\ fld_offset f = 0 /\
    fld_flag_definitions f = [] /\ fld_size f = (if decide (d_type d = STRUCT_TYPE_CHAR) then default 0 (fixed_width d) else 0).
Proof.
  intros [Hv _] Hchar. unfold new_field. rewrite Hv.
  assert (d_field_name d <> []) as Hne.
  { intros E. rewrite E in Hv. unfold validate_field_name in Hv. destruct (is_a_char_field _); [done|]. by destruct (is_a_bit_field _). }
  assert ((if debug then if decide (d_field_name d = []) then Throw logic_error else
    let! valid := Ok true in if negb valid then Throw logic_error else Ok tt else Ok tt) = Ok tt) as ->.
  { destruct debug; [|done]. by rewrite decide_False. }
  cbn [result_bind]. unfold name_of, is_a_char_field. destruct (is_a_bit_field (d_type d)) eqn:Hb.
  { eexists. split; [done|]. cbn. by rewrite decide_False by (intros E; by rewrite E in Hb). }
  destruct (decide (d_type d = STRUCT_TYPE_CHAR)) as [Ht|Ht].
  2:{ eexists. split; [done|]. cbn. by rewrite bool_decide_eq_false_2. }
  rewrite bool_decide_eq_true_2 by done. cbn [orb]. destruct (Hchar Ht) as [w Hw]. unfold fixed_width in *.
  rewrite decide_True in * by done. destruct (split_name (d_field_name d)) as [nm [s|]]; [|done]. cbn [fst snd] in *.
  cbn in Hw. destruct (convert_string s) as [z|] eqn:Hcs; [|done]. cbn in Hw. destruct (decide (0 < z < 2 ^ 32)) as [Hz|]; [|done].
  rewrite decide_False by lia. eexists. split; [done|]. cbn. split_and!; try done. rewrite Hcs. cbn. by rewrite decide_True.
Qed.

(** The sizes, by the kind of the type. *)
Lemma layout_fixed f w offset : fixed_width (fld_description f) = Some w -> (fld_type f = STRUCT_TYPE_CHAR -> fld_size f = w) ->
  layout_field blocks vb f offset
  = Ok (FieldLayout (Some w) false (wrap 64 (offset + w)) false (if is_a_bit_field (fld_type f) then 8 * w else 0)).
Proof.
  intros Hw Hc. unfold fixed_width in Hw. unfold layout_field. fold (fld_type f) in Hw.
  destruct (decide (fld_type f = STRUCT_TYPE_CHAR)) as [Ht|Ht].
  - unfold type_field_size. rewrite Ht. rewrite decide_True by done. by rewrite Hc.
  - by destruct (fld_type f); simplify_eq/=.
Qed.

Lemma layout_counted f n offset : counted_bytes (fld_type f) = Some n ->
  layout_field blocks vb f offset
  = let! sz := read_count blocks vb n offset in
    Ok (FieldLayout sz true (wrap 64 (wrap 64 (offset + default 0 sz) + Z.of_nat n)) false 0).
Proof. intros Hn. unfold layout_field, counted_bytes in *. by destruct (fld_type f); simplify_eq/=. Qed.

Lemma layout_array f n offset : array_bytes (fld_type f) = Some n ->
  layout_field blocks vb f offset
  = let! sz := read_count blocks vb n offset in Ok (FieldLayout sz true (wrap 64 (offset + Z.of_nat n)) true 0).
Proof. intros Hn. unfold layout_field. by destruct (fld_type f); simplify_eq/=. Qed.

Context (buffer : nat) (owner : id = None \/ id = Some buffer).
Abbreviation parse_one := (parse_field debug blocks id vb).

Lemma wrap_offset n : 0 <= n < 2 ^ 63 -> wrap 64 n = n.
Proof. intros. apply wrap_small. unfold uword. lia. Qed.

Lemma parse_raw d b offset : well_named d -> fixed_width d = Some (Z.of_nat (length b)) -> d_sub_description d = None ->
  readable (fresh (Raw b)) b offset ->
  exists f, parse_one d offset = Ok (f, [], offset + width (Raw b)) /\ laid_field buffer d (Raw b) offset (f, []).
Proof.
  intros Hnamed Hw Hsub Hread. destruct (readable_bounds _ _ _ Hread) as [H0 Hmax]. rewrite width_raw.
  destruct (new_field_ok d Hnamed) as (f & Hf & Hd & Hn & Hfl & Ho & Hdef & Hsz); [by rewrite Hw|].
  assert (parse_one d offset =
    let f := set_size (Z.of_nat (length b)) (set_offset offset f) in
    let offset := offset + Z.of_nat (length b) in
    if decide ((if is_a_bit_field (d_type d) then 8 * Z.of_nat (length b) else 0) > 0)
    then
      match split_name (d_field_name d) with
      | (_, None) => Throw logic_error
      | (name, Some rest) =>
          let! flags := parse_flags (S (length rest)) name rest (Z.min (8 * Z.of_nat (length b)) 64) 0 [] in
          Ok (set_flag_definitions flags f, [], offset)
      end
    else if decide (d_type d = STRUCT_TYPE_CHAR)
      then match split_name (d_field_name d) with (_, None) => Throw logic_error | (_, Some _) => Ok (f, [], offset) end
      else Ok (f, [], offset)) as ->.
  { destruct d as [nm t fl df mi ma sb]. cbn [d_sub_description d_type d_field_name] in *. subst sb. cbn [parse_field].
    rewrite Hf. cbn [result_bind]. rewrite (layout_fixed (set_offset offset f) (Z.of_nat (length b))).
    2:{ unfold set_offset. cbn [fld_description]. by rewrite Hd. }
    2:{ intros Ht. unfold fld_type, set_offset in Ht. cbn [fld_description] in Ht. rewrite Hd in Ht. cbn in Ht.
        unfold set_offset. cbn [fld_size]. by rewrite Hsz, decide_True, Hw by done. }
    cbn [result_bind lay_size lay_variable lay_offset lay_has_sub_defs lay_bit_field]. rewrite wrap_offset by lia.
    rewrite (offset_check (fresh (Raw b)) b offset) by (done || lia).
    cbn [result_bind negb]. unfold fld_type, set_offset. cbn [fld_description]. rewrite Hd. cbn [d_type].
    by destruct (is_a_bit_field t). }
  cbv zeta. set (f' := set_size (Z.of_nat (length b)) (set_offset offset f)). destruct Hnamed as [_ [flags Hflags]].
  assert (wrap 32 (Z.of_nat (length b)) = Z.of_nat (length b)) as Hw32.
  { apply wrap_small. unfold uword. unfold fixed_width in Hw. destruct (decide (d_type d = STRUCT_TYPE_CHAR)).
    - apply bind_Some in Hw as (s & _ & (z & _ & Hz)%bind_Some). destruct (decide _); [|done]. injection Hz as ->. lia.
    - destruct (decide _) as [Hpos|]; [|done]. injection Hw as Hw. clear -Hw Hpos.
      destruct (d_type d); cbn in Hw, Hpos; unfold INVALID_SIZE, VARIABLE_SIZE in *; lia. }
  assert (forall defs, flags_of d = Ok defs -> laid_field buffer d (Raw b) offset (set_flag_definitions defs f', [])) as Hlaid.
  { intros defs Hdefs. apply laid_raw; [|done|exact Hw32]. split; try done; cbn.
    rewrite Hfl. assert (is_variable (d_type d) = false) as ->; [|done].
    unfold fixed_width in Hw. unfold is_variable. by destruct (d_type d). }
  assert (set_flag_definitions [] f' = f') as Hnil.
  { unfold f', set_flag_definitions, set_size, set_offset. cbn. by rewrite Hdef. }
  unfold flags_of in Hflags, Hlaid. destruct (is_a_bit_field (d_type d)) eqn:Hbits.
  - assert (Z.of_nat (length b) = fst (g_struct_type_sizes (d_type d))) as Hsize.
    { unfold fixed_width in Hw. destruct (decide (d_type d = STRUCT_TYPE_CHAR)) as [E|]; [by rewrite E in Hbits|].
      destruct (decide _); [|done]. congruence. }
    rewrite decide_True by (destruct (d_type d); try done; cbn in Hsize; lia). rewrite Hsize.
    destruct (split_name (d_field_name d)) as [nm [rest|]]; [|done]. rewrite Hflags. cbn [result_bind]. rewrite <- Hsize.
    eexists. split; [done|]. by apply Hlaid.
  - rewrite decide_False by lia. specialize (Hlaid [] eq_refl). rewrite Hnil in Hlaid.
    destruct (decide (d_type d = STRUCT_TYPE_CHAR)) as [Ht|Ht]; [|by exists f'].
    unfold fixed_width in Hw. rewrite decide_True in Hw by done.
    destruct (split_name (d_field_name d)) as [nm [rest|]]; [|done]. by exists f'.
Qed.

(** The field of a string, of a buffer or of an array, with its count. *)
Lemma counted_field_ok d f n len offset : new_field debug d = Ok f -> fld_description f = d -> fld_name f = name_of d ->
  fld_flags f = 0 -> fld_flag_definitions f = [] -> fld_size f = 0 -> well_named d -> is_variable (d_type d) = true ->
  0 <= len < 2 ^ (8 * Z.of_nat n) -> (n <= 4)%nat ->
  let f' := add_flags FIELD_FLAG_VARIABLE_SIZE (set_size len (set_offset offset f)) in
  field_ok d offset f' /\ fld_size f' = len /\ (len = 0 -> add_flags FIELD_FLAG_VARIABLE_SIZE (set_offset offset f) = f').
Proof.
  intros Hnew Hd Hn Hfl Hdef Hsz [_ [flags Hflags]] Hvar Hlen Hn4 f'.
  assert (wrap 32 len = len) as Hw.
  { apply wrap_small. unfold uword. pose proof (Z.pow_le_mono_r 2 (8 * Z.of_nat n) 32 ltac:(lia) ltac:(lia)). lia. }
  assert (flags = []) as ->.
  { unfold flags_of in Hflags. destruct (is_a_bit_field (d_type d)) eqn:Hb; [|congruence]. by destruct (d_type d). }
  split; [|split; [exact Hw|]].
  - split; try done; cbn; [by rewrite Hdef|by rewrite Hfl, Hvar].
  - intros ->. unfold f', add_flags, set_size, set_offset. cbn. rewrite Hsz. done.
Qed.

Lemma parse_sized d n b offset : well_named d -> counted_bytes (d_type d) = Some n -> d_sub_description d = None ->
  Z.of_nat (length b) < 2 ^ (8 * Z.of_nat n) -> readable (fresh (Sized n b)) (encode (Sized n b)) offset ->
  exists f, parse_one d offset = Ok (f, [], offset + width (Sized n b)) /\ laid_field buffer d (Sized n b) offset (f, []).
Proof.
  intros Hnamed Hn Hsub Hlen Hread. destruct (readable_bounds _ _ _ Hread) as [H0 Hmax]. pose proof (width_sized n b) as Hwidth.
  unfold width in Hwidth. rewrite Hwidth in Hmax. fold (width (Sized n b)) in Hwidth. rewrite Hwidth.
  assert (d_type d <> STRUCT_TYPE_CHAR) as Hchar by (intros E; by rewrite E in Hn).
  assert (0 < n <= 4)%nat as Hn4 by (unfold counted_bytes in Hn; destruct (d_type d); simplify_eq/=; lia).
  destruct (new_field_ok d Hnamed) as (f & Hf & Hd & Hnm & Hfl & Ho & Hdef & Hsz); [done|]. rewrite decide_False in Hsz by done.
  assert (is_variable (d_type d) = true) as Hvar by (unfold counted_bytes in Hn; unfold is_variable; destruct (d_type d); simplify_eq/=; done).
  destruct (counted_field_ok d f n (Z.of_nat (length b)) offset Hf Hd Hnm Hfl Hdef Hsz Hnamed Hvar ltac:(lia) ltac:(lia))
    as (Hok & Hsize & Hempty).
  set (f' := add_flags _ (set_size _ _)) in *. exists f'. split; [|by apply laid_sized].
  assert (is_a_bit_field (d_type d) = false) as Hbits by (unfold counted_bytes in Hn; by destruct (d_type d)).
  destruct d as [nm t fl df mi ma sb]. cbn [d_sub_description d_type d_field_name] in *. subst sb. cbn [parse_field].
  rewrite Hf. cbn [result_bind]. rewrite (layout_counted (set_offset offset f) n) by (unfold fld_type, set_offset; cbn; by rewrite Hd).
  destruct (read_count_ok (fresh (Sized n b)) n (Z.of_nat (length b)) b offset) as [Hcount|[Hcount Hz]]; try done; try lia.
  { intros Hfresh. by inversion Hfresh. }
  - rewrite Hcount. cbn [result_bind lay_size lay_variable lay_offset lay_has_sub_defs lay_bit_field].
    change (default 0 (Some (Z.of_nat (length b)))) with (Z.of_nat (length b)).
    rewrite !wrap_offset by (rewrite ?wrap_offset; cbn; lia).
    rewrite (offset_check (fresh (Sized n b)) (encode (Sized n b)) offset) by (done || (unfold width in Hwidth; cbn in *; lia)).
    cbn [result_bind negb]. rewrite decide_False by lia. rewrite decide_False by done.
    by replace (offset + Z.of_nat (length b) + Z.of_nat n) with (offset + (Z.of_nat n + Z.of_nat (length b))) by lia.
  - rewrite Hcount. cbn [result_bind lay_size lay_variable lay_offset lay_has_sub_defs lay_bit_field].
    change (default 0 None) with 0.
    rewrite !wrap_offset by (rewrite ?wrap_offset; cbn; lia).
    rewrite (offset_check (fresh (Sized n b)) (encode (Sized n b)) offset) by (done || (unfold width in Hwidth; cbn in *; lia)).
    cbn [result_bind negb]. rewrite decide_False by lia. rewrite decide_False by done. rewrite Hempty by done.
    by replace (offset + 0 + Z.of_nat n) with (offset + (Z.of_nat n + Z.of_nat (length b))) by lia.
Qed.

(** What is proved of each kind, by induction on the values. *)
Definition parses_field (d : struct_description_t) (v : value) : Prop :=
  forall offset, readable (fresh v) (encode v) offset ->
  exists f subs, parse_one d offset = Ok (f, subs, offset + width v) /\ laid_field buffer d v offset (f, subs).

Definition parses_fields (ds : list struct_description_t) (r : list value) : Prop :=
  forall fields offset, NoDup (name_of <$> ds) -> (forall f, f ∈ fields -> fld_name (fst f) ∉ name_of <$> ds) ->
  readable (Forall fresh r) (encode_all r) offset ->
  exists fs, parse_descriptions_with parse_one ds fields offset = (fields ++ fs, Ok (offset + width_all r)) /\
    laid_fields buffer ds r offset fs.

Definition parses_items (ds : list struct_description_t) (l : list (list value)) : Prop :=
  forall offset, readable (l = []) (encode_items l) offset ->
  exists subs, parse_items_with id parse_one (fun _ => Ok tt) ds (length l) offset = Ok (subs, offset + width_items l) /\
    laid_items buffer ds l offset subs.

(** One sub-structure. *)
Lemma parse_structure ds r offset : parses_fields ds r -> NoDup (name_of <$> ds) -> readable (Forall fresh r) (encode_all r) offset ->
  exists fs, parse_descriptions_with parse_one ds [] offset = (fs, Ok (offset + width_all r)) /\
    forall o, laid_structure buffer ds r offset (Structure ds id offset o fs).
Proof.
  intros Hp Hnd Hread. destruct (Hp [] offset Hnd) as (fs & Hfs & Hl); [by intros f ?%elem_of_nil|done|].
  exists fs. split; [done|]. intros o. by constructor.
Qed.

Lemma parse_array d n l ds : well_named d -> array_bytes (d_type d) = Some n -> d_sub_description d = Some (inl ds) ->
  Z.of_nat (length l) < 2 ^ (8 * Z.of_nat n) -> parses_items ds l -> parses_field d (Items n l).
Proof.
  intros Hnamed Hn Hsub Hlen IH offset Hread. destruct (readable_bounds _ _ _ Hread) as [H0 Hmax].
  change (encode (Items n l)) with (le n (Z.of_nat (length l)) ++ encode_items l) in *. rewrite length_app, length_le in Hmax.
  rewrite width_items_value. fold (width_items l) in Hmax.
  assert (d_type d <> STRUCT_TYPE_CHAR) as Hchar by (intros E; by rewrite E in Hn).
  assert (0 < n <= 4)%nat as Hn4 by (destruct (d_type d); simplify_eq/=; lia).
  destruct (new_field_ok d Hnamed) as (f & Hf & Hd & Hnm & Hfl & Ho & Hdef & Hsz); [done|]. rewrite decide_False in Hsz by done.
  assert (is_variable (d_type d) = true) as Hvar by (unfold is_variable; by destruct (d_type d)).
  destruct (counted_field_ok d f n (Z.of_nat (length l)) offset Hf Hd Hnm Hfl Hdef Hsz Hnamed Hvar ltac:(lia) ltac:(lia))
    as (Hok & Hsize & Hempty).
  set (f' := add_flags _ (set_size _ _)) in *.
  destruct (readable_app (fresh (Items n l)) True (l = []) (le n (Z.of_nat (length l))) (encode_items l) offset) as [_ Hread2];
    [done|done|by inversion 1|]. rewrite length_le in Hread2.
  destruct (IH _ Hread2) as (subs & Hsubs & Hl).
  exists f', subs. split; [|by apply laid_array with ds].
  assert (is_union (d_type d) = false) as Hu by (by destruct (d_type d)).
  assert (d_type d <> STRUCT_TYPE_RENAMED) as Hren by (intros E; by rewrite E in Hn).
  destruct d as [nm t fl df mi ma sb]. cbn [d_sub_description d_type d_field_name] in *. subst sb. cbn [parse_field].
  rewrite Hf. cbn [result_bind]. rewrite (layout_array (set_offset offset f) n) by (unfold fld_type, set_offset; cbn; by rewrite Hd).
  destruct (read_count_ok (fresh (Items n l)) n (Z.of_nat (length l)) (encode_items l) offset) as [Hcount|[Hcount Hz]]; try done; try lia.
  { intros Hfresh. by inversion Hfresh. }
  all: rewrite Hcount; cbn [result_bind lay_size lay_variable lay_offset lay_has_sub_defs lay_bit_field].
  all: rewrite !wrap_offset by lia.
  all: rewrite (offset_check (fresh (Items n l)) (le n (Z.of_nat (length l)) ++ encode_items l) offset)
    by (done || (rewrite length_app, length_le; lia)).
  all: cbn [result_bind negb d_type d_sub_description].
  all: rewrite decide_False by done.
  all: rewrite Hu.
  1: change (add_flags FIELD_FLAG_VARIABLE_SIZE (set_size _ (set_offset offset f))) with f'.
  2: rewrite Hempty by done.
  all: rewrite Hsize, Nat2Z.id.
  all: rewrite Hsubs; cbn [result_bind]; by rewrite <- Z.add_assoc.
Qed.

Lemma parse_sub d r ds : well_named d -> d_type d = STRUCT_TYPE_STRUCTURE -> d_sub_description d = Some (inl ds) ->
  parses_fields ds r -> NoDup (name_of <$> ds) -> parses_field d (Sub r).
Proof.
  intros Hnamed Ht Hsub IH Hnd offset Hread. destruct (readable_bounds _ _ _ Hread) as [H0 Hmax].
  destruct (new_field_ok d Hnamed) as (f & Hf & Hd & Hnm & Hfl & Ho & Hdef & Hsz); [by rewrite Ht|].
  destruct Hnamed as [_ [flags Hflags]].
  destruct (parse_structure ds r offset IH Hnd) as (fs & Hfs & Hl).
  { destruct Hread as [?|(? & Hfresh & ?)]; [by left|right]. split; [done|]. split; [by inversion Hfresh|done]. }
  exists (set_size 1 (set_offset offset f)), [Structure ds id offset 0 fs]. split.
  - destruct d as [nm t fl df mi ma sb]. cbn [d_sub_description d_type d_field_name] in *. subst t sb. cbn [parse_field].
    rewrite Hf. cbn [result_bind].
    assert (layout_field blocks vb (set_offset offset f) offset = Ok (FieldLayout (Some 1) false offset true 0)) as ->.
    { unfold layout_field, fld_type, set_offset. cbn. by rewrite Hd. }
    cbn [result_bind lay_size lay_variable lay_offset lay_has_sub_defs lay_bit_field].
    rewrite (offset_check (fresh (Sub r)) (encode (Sub r)) offset) by (done || lia). cbn [result_bind negb].
    rewrite decide_False by done. cbn [d_sub_description d_type is_union must_have_sub_union].
    change (Z.to_nat (fld_size (set_size 1 (set_offset offset f)))) with 1%nat. cbn [parse_items_with result_bind].
    by rewrite Hfs.
  - apply laid_sub with ds; try done. assert (flags = []) as -> by (unfold flags_of in Hflags; rewrite Ht in Hflags; by injection Hflags).
    split; try done; cbn; [by rewrite Hdef|by rewrite Hfl, Ht].
Qed.

Lemma parse_nothing d : well_named d ->
  d_type d = STRUCT_TYPE_VOID /\ d_sub_description d = None \/ d_type d = STRUCT_TYPE_RENAMED /\ d_sub_description d <> None ->
  parses_field d Nothing.
Proof.
  intros Hnamed Ht offset Hread. destruct (readable_bounds _ _ _ Hread) as [H0 Hmax].
  destruct (new_field_ok d Hnamed) as (f & Hf & Hd & Hnm & Hfl & Ho & Hdef & Hsz); [by destruct Ht as [[-> _]|[-> _]]|].
  rewrite decide_False in Hsz by (by destruct Ht as [[-> _]|[-> _]]). destruct Hnamed as [_ [flags Hflags]].
  change (width Nothing) with 0. rewrite Z.add_0_r.
  exists (set_offset offset f), []. split.
  - destruct d as [nm t fl df mi ma sb]. cbn [d_sub_description d_type d_field_name] in *. cbn [parse_field].
    rewrite Hf. cbn [result_bind]. destruct Ht as [[-> ->]|[-> Hsub]].
    + assert (layout_field blocks vb (set_offset offset f) offset = Ok (FieldLayout None false offset false 0)) as ->.
      { unfold layout_field, fld_type, set_offset. cbn. by rewrite Hd. }
      cbn [result_bind lay_size lay_variable lay_offset lay_has_sub_defs lay_bit_field].
      rewrite (offset_check (fresh Nothing) (encode Nothing) offset) by (done || lia). cbn [result_bind negb].
      rewrite decide_False by lia. by rewrite decide_False.
    + assert (layout_field blocks vb (set_offset offset f) offset = Ok (FieldLayout None false offset true 0)) as ->.
      { unfold layout_field, fld_type, set_offset. cbn. by rewrite Hd. }
      cbn [result_bind lay_size lay_variable lay_offset lay_has_sub_defs lay_bit_field].
      rewrite (offset_check (fresh Nothing) (encode Nothing) offset) by (done || lia). cbn [result_bind negb].
      destruct sb; [|done]. by rewrite decide_True.
  - assert (flags = []) as -> by (unfold flags_of in Hflags; destruct Ht as [[E _]|[E _]]; rewrite E in Hflags; by injection Hflags).
    apply laid_nothing; [|by destruct Ht as [[? _]|[? _]]; [left|right]|done].
    split; try done; cbn; [by rewrite Hdef|rewrite Hfl; by destruct Ht as [[-> _]|[-> _]]].
Qed.

Lemma filter_fresh (fields : list (field_t * list structure)) name : (forall f, f ∈ fields -> fld_name (fst f) <> name) ->
  filter (fun g => fld_name (fst g) <> name) fields = fields.
Proof.
  induction fields as [|f fields IH]; intros H; [done|]. rewrite filter_cons, decide_True by (apply H; apply elem_of_cons; by left).
  f_equal. apply IH. intros g Hg. apply H. apply elem_of_cons. by right.
Qed.

Lemma parse_cons d ds v r : parses_field d v -> parses_fields ds r -> parses_fields (d :: ds) (v :: r).
Proof.
  intros Hd Hds fields offset [Hnot Hnd]%NoDup_cons Hnames Hread. rewrite encode_all_cons in Hread.
  destruct (readable_app (Forall fresh (v :: r)) (fresh v) (Forall fresh r) _ _ _ Hread) as [Hv Hr]; [by inversion 1..|].
  destruct (Hd _ Hv) as (f & subs & Hf & Hl). cbn [parse_descriptions_with]. rewrite Hf.
  assert (fld_name f = name_of d) as Hname by (destruct (laid_field_of _ _ _ _ _ Hl) as (_ & ? & _); done).
  assert (add_field fields (f, subs) = fields ++ [(f, subs)]) as ->.
  { unfold add_field. cbn [fst]. rewrite filter_fresh; [done|]. intros g Hg E. apply (Hnames g Hg). rewrite E, Hname. cbn. apply elem_of_cons. by left. }
  destruct (Hds (fields ++ [(f, subs)]) (offset + width v) Hnd) as (fs & Hfs & Hlfs).
  { intros g [Hg|Hg%list_elem_of_singleton]%elem_of_app; [intros Hin; apply (Hnames g Hg); cbn; apply elem_of_cons; by right|].
    subst. cbn. by rewrite Hname. }
  { exact Hr. }
  exists ((f, subs) :: fs). rewrite Hfs, <- app_assoc. rewrite width_all_cons, Z.add_assoc. split; [done|]. by constructor.
Qed.

Lemma parse_items_cons ds r l : parses_fields ds r -> NoDup (name_of <$> ds) -> parses_items ds l -> parses_items ds (r :: l).
Proof.
  intros Hr Hnd Hl offset Hread. rewrite encode_items_cons in Hread.
  destruct (readable_app (r :: l = []) (Forall fresh r) (l = []) _ _ _ Hread) as [Hr1 Hl1]; [done..|].
  destruct (parse_structure ds r offset Hr Hnd Hr1) as (fs & Hfs & Hlaid). cbn [length parse_items_with result_bind]. rewrite Hfs.
  cbn [result_bind]. fold (width_all r) in Hl1. destruct (Hl _ Hl1) as (subs & -> & Hsubs). cbn [result_bind].
  rewrite width_items_cons, Z.add_assoc. eexists. split; [done|]. by constructor.
Qed.

(** Parsing lays the fields over the values. *)
Lemma parse_laid :
  (forall d v, described_field d v -> parses_field d v) /\ (forall ds r, described_fields ds r -> parses_fields ds r) /\
  (forall ds l, described_items ds l -> parses_items ds l).
Proof.
  apply described_mutind.
  - intros d b Hn Hw Hs offset Hread. destruct (parse_raw d b offset Hn Hw Hs Hread) as (f & ? & ?). by exists f, [].
  - intros d n b Hn Hc Hs Hlen offset Hread. destruct (parse_sized d n b offset Hn Hc Hs Hlen Hread) as (f & ? & ?). by exists f, [].
  - intros d n l ds Hn Ha Hs Hlen _ IH. by apply parse_array with ds.
  - intros d r ds Hn Ht Hs _ IH Hnd. by apply parse_sub with ds.
  - intros d Hn Ht Hs. apply parse_nothing; auto.
  - intros d Hn Ht Hs. apply parse_nothing; auto.
  - intros fields offset _ _ _. exists []. rewrite app_nil_r. cbn. rewrite Z.add_0_r. split; [done|constructor].
  - intros d ds v r _ Hd _ Hds. by apply parse_cons.
  - intros ds offset _. exists []. cbn. rewrite Z.add_0_r. split; [done|constructor].
  - intros ds r l _ Hr Hnd _ Hl. by apply parse_items_cons.
Qed.
End Parsing.
