(* ===== verification/StructDefaults.v ===== *)
(** * Fresh values and default values

    The values of a structure that was just made: zeros and empty strings and
    arrays, and then the default values of its description. *)

From S2P Require Import Prelude Names Bytes SortedMap VirtualBuffer StructTypes Convert Structure StructLayout StructAccess.
From S2P Require Import StructUpdate StructParse.

(** ** Fresh values *)

Section Fresh.
Context {validator : IntegerValidator}.

Fixpoint fresh_value (d : struct_description_t) : value :=
  match counted_bytes (d_type d), array_bytes (d_type d) with
  | Some n, _ => Sized n []
  | None, Some n => Items n []
  | None, None =>
      match d_type d, d_sub_description d with
      | STRUCT_TYPE_STRUCTURE, Some (inl ds) => Sub (map fresh_value ds)
      | (STRUCT_TYPE_VOID | STRUCT_TYPE_RENAMED), _ => Nothing
      | _, _ => Raw (replicate (Z.to_nat (default 0 (fixed_width d))) 0)
      end
  end.

Definition fresh_values (ds : list struct_description_t) : list value := map fresh_value ds.

(** The descriptions that the code accepts, but for unions. *)
Inductive describable : struct_description_t -> Prop :=
  | describable_fixed d : well_named d -> is_Some (fixed_width d) -> d_sub_description d = None -> describable d
  | describable_counted d : well_named d -> is_Some (counted_bytes (d_type d)) -> d_sub_description d = None -> describable d
  | describable_array d ds : well_named d -> is_Some (array_bytes (d_type d)) -> d_sub_description d = Some (inl ds) ->
      Forall describable ds -> NoDup (name_of <$> ds) -> describable d
  | describable_sub d ds : well_named d -> d_type d = STRUCT_TYPE_STRUCTURE -> d_sub_description d = Some (inl ds) ->
      Forall describable ds -> NoDup (name_of <$> ds) -> describable d
  | describable_void d : well_named d -> d_type d = STRUCT_TYPE_VOID -> d_sub_description d = None -> describable d
  | describable_renamed d : well_named d -> d_type d = STRUCT_TYPE_RENAMED -> d_sub_description d <> None -> describable d.

Lemma fixed_width_type d w : fixed_width d = Some w ->
  0 < w /\ counted_bytes (d_type d) = None /\ array_bytes (d_type d) = None /\ d_type d <> STRUCT_TYPE_STRUCTURE /\
  d_type d <> STRUCT_TYPE_VOID /\ d_type d <> STRUCT_TYPE_RENAMED.
Proof.
  intros Hw. unfold fixed_width, counted_bytes in *. destruct (decide (d_type d = STRUCT_TYPE_CHAR)) as [Ht|Ht].
  - apply bind_Some in Hw as (s & _ & (z & _ & Hz)%bind_Some). destruct (decide _); [|done]. simplify_eq.
    rewrite Ht. split_and!; done || lia.
  - destruct (decide _) as [Hpos|]; [|done]. simplify_eq. split; [done|]. by destruct (d_type d).
Qed.

(** A description by induction on its sub-descriptions. *)
Lemma describable_ind' (P : struct_description_t -> Prop) :
  (forall d, well_named d -> is_Some (fixed_width d) -> d_sub_description d = None -> P d) ->
  (forall d, well_named d -> is_Some (counted_bytes (d_type d)) -> d_sub_description d = None -> P d) ->
  (forall d ds, well_named d -> is_Some (array_bytes (d_type d)) -> d_sub_description d = Some (inl ds) -> Forall P ds -> NoDup (name_of <$> ds) -> P d) ->
  (forall d ds, well_named d -> d_type d = STRUCT_TYPE_STRUCTURE -> d_sub_description d = Some (inl ds) -> Forall P ds -> NoDup (name_of <$> ds) -> P d) ->
  (forall d, well_named d -> d_type d = STRUCT_TYPE_VOID -> d_sub_description d = None -> P d) ->
  (forall d, well_named d -> d_type d = STRUCT_TYPE_RENAMED -> d_sub_description d <> None -> P d) ->
  forall d, describable d -> P d.
Proof.
  intros H1 H2 H3 H4 H5 H6. fix IH 2. intros d Hd. destruct Hd as [d Hn Hw Hs|d Hn Hc Hs|d ds Hn Ha Hs Hds Hnd|d ds Hn Ht Hs Hds Hnd|d Hn Ht Hs|d Hn Ht Hs].
  - by apply H1.
  - by apply H2.
  - apply (H3 d ds); try done. clear -IH Hds. induction Hds; constructor; auto.
  - apply (H4 d ds); try done. clear -IH Hds. induction Hds; constructor; auto.
  - by apply H5.
  - by apply H6.
Qed.

(** The fresh values are described, fresh, and their bytes are zeros. *)
Lemma fresh_value_described d : describable d -> described_field d (fresh_value d) /\ fresh (fresh_value d) /\
  Forall (eq 0) (encode (fresh_value d)).
Proof.
  revert d. assert (forall n, Forall (eq 0) (le n 0)) as Hle by (intros n; induction n; constructor; done).
  assert (forall ds, Forall (fun d => described_field d (fresh_value d) /\ fresh (fresh_value d) /\ Forall (eq 0) (encode (fresh_value d))) ds ->
    described_fields ds (map fresh_value ds) /\ Forall fresh (map fresh_value ds) /\ Forall (eq 0) (encode_all (map fresh_value ds))) as Hall.
  { intros ds Hds. induction Hds as [|d ds (Hd & Hf & Hz) Hds (IH1 & IH2 & IH3)]; [split_and!; constructor|].
    cbn [map]. rewrite encode_all_cons. split_and!; [by constructor|by constructor|by apply Forall_app_2]. }
  apply describable_ind'; intros d.
  - intros Hn [w Hw] Hs. destruct (fixed_width_type d w Hw) as (Hpos & Hc & Ha & Ht & Hv & Hr).
    assert (fresh_value d = Raw (replicate (Z.to_nat w) 0)) as ->.
    { destruct d as [nm t fl df mi ma sb]. cbn [d_type] in *. cbn [fresh_value d_type d_sub_description]. rewrite Hc, Ha, Hw. by destruct t. }
    split_and!; [|constructor|cbn; by apply Forall_replicate]. apply described_raw; try done. by rewrite length_replicate, Z2Nat.id by lia.
  - intros Hn [n Hc] Hs. assert (fresh_value d = Sized n []) as -> by (destruct d as [nm t fl df mi ma sb]; cbn in *; by rewrite Hc).
    split_and!; [|constructor|cbn; rewrite app_nil_r; apply Hle]. apply described_sized; try done. cbn. apply pow2_pos. lia.
  - intros ds Hn [n Ha] Hs _ _. assert (counted_bytes (d_type d) = None) as Hc by (unfold counted_bytes; by destruct (d_type d)).
    assert (fresh_value d = Items n []) as -> by (destruct d as [nm t fl df mi ma sb]; cbn in *; by rewrite Hc, Ha).
    split_and!; [|constructor|cbn; rewrite app_nil_r; apply Hle]. apply described_array with ds; try done; [|constructor].
    cbn. apply pow2_pos. lia.
  - intros ds Hn Ht Hs Hds Hnd. assert (fresh_value d = Sub (map fresh_value ds)) as ->.
    { destruct d as [nm t fl df mi ma sb]; cbn in *. by rewrite Ht, Hs. }
    destruct (Hall ds Hds) as (H1 & H2 & H3). split_and!; [|by constructor|done]. by apply described_sub with ds.
  - intros Hn Ht Hs. assert (fresh_value d = Nothing) as -> by (destruct d as [nm t fl df mi ma sb]; cbn in *; by rewrite Ht).
    split_and!; [by apply described_void|constructor|constructor].
  - intros Hn Ht Hs. assert (fresh_value d = Nothing) as -> by (destruct d as [nm t fl df mi ma sb]; cbn in *; by rewrite Ht).
    split_and!; [by apply described_renamed|constructor|constructor].
Qed.

Lemma fresh_values_described ds : Forall describable ds -> described_fields ds (fresh_values ds) /\ Forall fresh (fresh_values ds) /\
  encode_all (fresh_values ds) = replicate (Z.to_nat (width_all (fresh_values ds))) 0.
Proof.
  intros Hds. assert (described_fields ds (fresh_values ds) /\ Forall fresh (fresh_values ds) /\ Forall (eq 0) (encode_all (fresh_values ds))) as (H1 & H2 & H3).
  { induction Hds as [|d ds Hd%fresh_value_described Hds (IH1 & IH2 & IH3)]; [split_and!; constructor|]. destruct Hd as (Hd & Hf & Hz).
    unfold fresh_values. cbn [map]. rewrite encode_all_cons. split_and!; [by constructor|by constructor|by apply Forall_app_2]. }
  split_and!; try done. unfold width_all. rewrite Nat2Z.id. revert H3. generalize (encode_all (fresh_values ds)) as c. intros c Hc.
  induction Hc as [|x c <- Hc IH]; [done|]. cbn. by f_equal.
Qed.
End Fresh.

(** ** Names of fields *)

Lemma span_all (f : Z -> bool) l : forallb f l = true -> span f l = (l, []).
Proof.
  induction l as [|x l IH]; [done|]. cbn. intros [Hx Hl]%andb_true_iff. rewrite Hx. by rewrite (IH Hl).
Qed.

Section Names.
Context {validator : IntegerValidator}.

(** The name of a field that is neither a bit field nor a string of a fixed size. *)
Lemma plain_name d : well_named d -> is_a_bit_field (d_type d) = false -> d_type d <> STRUCT_TYPE_CHAR ->
  name_of d = d_field_name d /\ d_field_name d <> [] /\ forallb name_char (d_field_name d) = true.
Proof.
  intros [Hv _] Hb Hc. unfold name_of. unfold validate_field_name in Hv.
  assert (is_a_char_field (d_type d) = false) as Hc' by (by apply bool_decide_eq_false_2). rewrite Hc', Hb in *.
  split; [done|]. unfold validate_name in Hv. rewrite decide_False in Hv by lia. cbn in Hv.
  destruct (d_field_name d) as [|c rest]; [done|]. destruct (decide _); [done|].
  destruct (name_start_char c) eqn:Hs; [|done]. cbn [negb] in Hv. injection Hv as Hv. split; [done|]. cbn. rewrite Hv, andb_true_r.
  apply name_start_char_iff in Hs. apply name_char_iff. by left.
Qed.

Lemma name_char_plain c : name_char c = true -> c <> NUL /\ c <> (chr: ".") /\ c <> (chr: "=").
Proof. intros H. split_and!; intros ->; done. Qed.

Lemma forallb_impl {A} (f g : A -> bool) l : (forall x, f x = true -> g x = true) -> forallb f l = true -> forallb g l = true.
Proof. intros H. induction l as [|x l IH]; [done|]. cbn. intros [Hx Hl]%andb_true_iff. rewrite (H _ Hx). by apply IH. Qed.

(** The part of the name before an equal sign. *)
Lemma split_name_of d : well_named d -> fst (split_name (d_field_name d)) = name_of d.
Proof.
  intros Hn. destruct (is_a_bit_field (d_type d)) eqn:Hb; [unfold name_of; by rewrite Hb|].
  destruct (decide (d_type d = STRUCT_TYPE_CHAR)) as [Ht|Ht]; [unfold name_of; by rewrite Ht|].
  destruct (plain_name d Hn Hb Ht) as (-> & _ & Hall). unfold split_name. rewrite span_all; [done|].
  eapply forallb_impl; [|exact Hall]. intros c (_ & _ & Hc)%name_char_plain. by apply negb_true_iff, Z.eqb_neq.
Qed.

Lemma name_index_self ds i d : NoDup (name_of <$> ds) -> ds !! i = Some d -> name_index ds (name_of d) = Some i.
Proof.
  intros Hnd Hi. unfold name_index. rewrite (proj2 (list_find_Some (fun d' => name_of d' = name_of d) ds i d)); [done|].
  split_and!; try done. intros j d' Hj Hlt E. assert (i = j) as ->; [|lia].
  eapply NoDup_lookup; [exact Hnd| |]; rewrite list_lookup_fmap; [by rewrite Hi|rewrite Hj; cbn; by rewrite E].
Qed.

Lemma find_description_self ds i d : NoDup (name_of <$> ds) -> ds !! i = Some d -> d_type d <> STRUCT_TYPE_RENAMED ->
  find_description ds (name_of d) = Ok i.
Proof.
  intros Hnd Hi Ht. unfold find_description. rewrite (name_index_self _ _ _ Hnd Hi), Hi. by rewrite decide_False.
Qed.

(** A plain field is located by its own name. *)
Lemma locate_self ds p dsp i d : description_at p ds = Some dsp -> NoDup (name_of <$> dsp) -> dsp !! i = Some d -> well_named d ->
  is_a_bit_field (d_type d) = false -> d_type d <> STRUCT_TYPE_CHAR -> d_type d <> STRUCT_TYPE_RENAMED ->
  locate ds p (d_field_name d) STRUCT_TYPE_END = Ok (p, i).
Proof.
  intros Hdp Hnd Hi Hn Hb Hc Hr. destruct (plain_name d Hn Hb Hc) as (Hname & Hne & Hall). unfold locate. rewrite Hdp.
  assert (c_str (d_field_name d) = d_field_name d) as ->.
  { unfold c_str. rewrite span_all; [done|]. eapply forallb_impl; [|exact Hall]. intros c (H & _)%name_char_plain.
    by apply negb_true_iff, Z.eqb_neq. }
  cbn [select]. rewrite span_all.
  - rewrite <- Hname, (find_description_self _ _ _ Hnd Hi Hr). cbn [result_bind]. rewrite Hi. unfold accepts.
    rewrite decide_False by (by intros [? _]). cbn [result_bind]. by rewrite app_nil_r.
  - eapply forallb_impl; [|exact Hall]. intros c (_ & H1 & H2)%name_char_plain.
    apply andb_true_iff; split; by apply negb_true_iff, Z.eqb_neq.
Qed.
End Names.

(** ** Default values *)

Section Defaults.
Context {libraries : ConvertLibraries} {validator : IntegerValidator} (debug : bool).
Context (copy_capacity : Z -> Z) (insert_capacity : Z -> Z -> Z) `{laws : VectorLaws copy_capacity insert_capacity}.

(** The value of a field after its default was written: a string, or the bytes of
    the typed value over the first ones; [None]: this is not such a field. *)
Definition default_value (d : struct_description_t) (v : value) : option value :=
  match null_or_default d, v with
  | None, _ => Some v
  | Some text, Raw b =>
      if is_pstring (d_type d) then None
      else
        match string_to_typed_buffer debug (d_type d) text (if decide (d_type d = STRUCT_TYPE_CHAR) then length b else 0%nat) with
        | Ok bytes => if decide (length bytes <= length b)%nat then Some (Raw (bytes ++ drop (length bytes) b)) else None
        | Throw _ => None
        end
  | Some text, Sized n [] =>
      if decide (is_pstring (d_type d) = true /\ Z.of_nat (length text) < 2 ^ (8 * Z.of_nat n) /\ Z.of_nat (length text) < 2 ^ 31)
      then Some (Sized n text) else None
  | _, _ => None
  end.

Fixpoint default_values (ds : list struct_description_t) (r : list value) : option (list value) :=
  match ds, r with
  | [], [] => Some []
  | d :: ds, v :: r => v ← default_value d v; r ← default_values ds r; Some (v :: r)
  | _, _ => None
  end.

Lemma alter_value_same p i r v : field_value p i r = Some v -> alter_value (<[i:=v]>) p r = r.
Proof.
  intros Hv. unfold field_value in Hv. destruct (value_at p r) as [rp|] eqn:Hrp; [|done]. cbn in Hv.
  rewrite (alter_value_const _ _ _ _ Hrp), list_insert_id by done. clear Hv. revert r Hrp.
  induction p as [|[j k] p IH]; intros r Hrp; cbn in *; [by simplify_eq|].
  destruct (r !! j) as [vj|] eqn:Hj; [|done]. cbn in Hrp. destruct (sub_value vj k) as [rs|] eqn:Hs; [|done]. cbn in Hrp.
  apply (alter_same _ _ _ _ Hj). specialize (IH _ Hrp). destruct vj; try done; cbn in *.
  - by rewrite (alter_same _ _ _ _ Hs IH).
  - case_decide; [|done]. simplify_eq. by rewrite IH.
Qed.

Section Default.
Context (id : nat) (ds : list struct_description_t) (r : list value) (room : Z) (st : tree_state) (rep : represents id ds r room st).
Context (p : place) (dsp : list struct_description_t) (i : nat) (d : struct_description_t).
Context (there : has_buffer id p (t_root st)) (described : description_at p ds = Some dsp) (distinct : NoDup (name_of <$> dsp)).
Context (index : dsp !! i = Some d) (named : well_named d).

Lemma default_description : field_description p i ds = Some d.
Proof. unfold field_description. by rewrite described. Qed.

Lemma default_there : is_Some (structure_at p (t_root st)).
Proof. destruct there as (s & ? & _). eauto. Qed.

Lemma this_find_field : d_type d <> STRUCT_TYPE_RENAMED -> exists s, this_structure p st = (Ok s, st) /\
  find_field s (fst (split_name (d_field_name d))) = Ok i.
Proof.
  intros Ht. destruct there as (s & Hs & _). exists s. split; [by apply this_structure_ok|].
  destruct (laid_at _ _ _ _ _ _ _ (rep_laid _ _ _ _ _ rep) Hs) as (dp & rp & off & _ & _ & Hdp & _ & Hl & _).
  rewrite described in Hdp. simplify_eq. rewrite (find_field_laid _ _ _ _ _ _ Hl), split_name_of by done.
  by apply find_description_self.
Qed.

(** The bytes of a typed default. *)
Lemma set_default_raw b text bytes : field_value p i r = Some (Raw b) -> null_or_default d = Some text -> is_pstring (d_type d) = false ->
  string_to_typed_buffer debug (d_type d) text (if decide (d_type d = STRUCT_TYPE_CHAR) then length b else 0%nat) = Ok bytes ->
  (length bytes <= length b)%nat ->
  exists st', set_default debug copy_capacity insert_capacity p d st = (Ok tt, st') /\
    represents id ds (alter_value (<[i:=Raw (bytes ++ drop (length bytes) b)]>) p r) room st' /\ t_root st' = t_root st.
Proof.
  intros Hv Hnull Hps Htyped Hlen.
  destruct (raw_field copy_capacity id ds r room st rep p i d default_description default_there b Hv)
    as (f & Hf & Hd & Hsz & Hw & _ & _ & _ & _ & _ & Hwrite).
  destruct (fixed_width_type _ _ Hw) as (_ & _ & _ & _ & _ & Hren). destruct (this_find_field Hren) as (s & Hs & Hfind).
  destruct (Hwrite p 0%nat bytes (fld_offset f) there) as (st' & Hw1 & Hr1 & Hrep1); [lia|lia|].
  rewrite take_0 in Hrep1. cbn [app Nat.add] in Hrep1. exists st'. split; [|done].
  assert (forall type_size, Z.to_nat (type_size f) = (if decide (d_type d = STRUCT_TYPE_CHAR) then length b else 0%nat) ->
    (do! s := this_structure p in
     do! i := lift (find_field s (fst (split_name (d_field_name d)))) in
     do! '(f, _) := field_at (p, i) in
     do! value := lift (string_to_typed_buffer debug (d_type d) (default [] (null_or_default d)) (Z.to_nat (type_size f))) in
     buffer_pwrite copy_capacity p value (fld_offset f) false) st = (Ok tt, st')) as Hgo.
  { intros type_size Hts. rewrite (bind_ok _ _ _ _ _ Hs), Hfind. unfold lift at 1. unfold bind at 1. rewrite (bind_ok _ _ _ _ _ Hf).
    rewrite Hts, Hnull. change (default [] (Some text)) with text. rewrite Htyped. unfold lift, bind. done. }
  unfold set_default, null_or_default in *. destruct (d_default_value d) as [value|].
  - rewrite (bind_ok _ _ _ _ _ Hs), Hfind. unfold lift at 1. unfold bind at 1.
    destruct (decide (d_type d = STRUCT_TYPE_CHAR)) as [Ht|Ht].
    + apply Hgo. unfold type_field_size, fld_type. rewrite Hd. rewrite decide_True by done. by rewrite Hsz, Nat2Z.id.
    + rewrite Hps. by apply (Hgo (fun _ => 0)).
  - destruct (decide (d_type d = STRUCT_TYPE_STRUCTURE_VERSION)) as [Ht|]; [|done]. apply (Hgo (fun _ => 0)).
    by rewrite decide_False by (by rewrite Ht).
Qed.

(** A default string. *)
Lemma set_default_sized n text : field_value p i r = Some (Sized n []) -> null_or_default d = Some text -> is_pstring (d_type d) = true ->
  Z.of_nat (length text) < 2 ^ (8 * Z.of_nat n) -> Z.of_nat (length text) < 2 ^ 31 -> Z.of_nat (length text) <= room ->
  exists st', set_default debug copy_capacity insert_capacity p d st = (Ok tt, st') /\
    represents id ds (alter_value (<[i:=Sized n text]>) p r) (room - Z.of_nat (length text)) st' /\ same_buffers (t_root st) (t_root st').
Proof.
  intros Hv Hnull Hps Hfit Hint Hroom.
  assert (d_type d <> STRUCT_TYPE_RENAMED) as Hren by (intros E; by rewrite E in Hps).
  assert (d_type d <> STRUCT_TYPE_CHAR) as Hchar by (intros E; by rewrite E in Hps).
  assert (is_a_bit_field (d_type d) = false) as Hbit by (by destruct (d_type d)).
  destruct (this_find_field Hren) as (s & Hs & Hfind). destruct (plain_name d named Hbit Hchar) as (_ & Hne & _).
  destruct (set_string_ok debug copy_capacity insert_capacity id ds r room st rep p i d default_description default_there n [] Hv
    p (d_field_name d) there Hne (locate_self _ _ _ _ _ described distinct index named Hbit Hchar Hren) text Hps Hfit)
    as (st' & Hset & Hrep & Hsb); [cbn; lia|cbn; lia|].
  exists st'. split; [|split; [|done]].
  - unfold set_default, null_or_default in *. destruct (d_default_value d) as [value|].
    + injection Hnull as ->. rewrite (bind_ok _ _ _ _ _ Hs), Hfind. unfold lift at 1. unfold bind at 1.
      rewrite decide_False by done. by rewrite Hps.
    + destruct (decide (d_type d = STRUCT_TYPE_STRUCTURE_VERSION)) as [Ht|]; [|done]. by rewrite Ht in Hps.
  - cbn [length] in Hrep. by replace (room - Z.max 0 (Z.of_nat (length text) - Z.of_nat 0)) with (room - Z.of_nat (length text)) in Hrep by lia.
Qed.

(** One default value. *)
Lemma set_default_ok v v' : field_value p i r = Some v -> default_value d v = Some v' -> width v' - width v <= room ->
  exists st', set_default debug copy_capacity insert_capacity p d st = (Ok tt, st') /\
    represents id ds (alter_value (<[i:=v']>) p r) (room - (width v' - width v)) st' /\ same_buffers (t_root st) (t_root st').
Proof.
  intros Hv Hdef Hroom. unfold default_value in Hdef. destruct (null_or_default d) as [text|] eqn:Hnull.
  2:{ injection Hdef as <-. exists st. rewrite alter_value_same by done. replace (room - (width v - width v)) with room by lia.
      split; [|done]. unfold set_default. unfold null_or_default in Hnull. destruct (d_default_value d); [done|].
      by destruct (decide _). }
  destruct v as [b|n [|]| | |]; try done.
  - destruct (is_pstring (d_type d)) eqn:Hps; [done|]. destruct (string_to_typed_buffer _ _ _ _) as [bytes|] eqn:Ht; [|done].
    destruct (decide (length bytes <= length b)%nat) as [Hle|]; [|done]. injection Hdef as <-.
    destruct (set_default_raw b text bytes Hv Hnull Hps Ht Hle) as (st' & H1 & H2 & H3). exists st'. split; [done|].
    rewrite !width_raw, length_app, length_drop. replace (room - _) with room by lia. split; [done|by rewrite H3].
  - destruct (decide _) as [(Hps & Hfit & Hint)|]; [|done]. injection Hdef as <-. rewrite !width_sized in *. cbn [length] in *.
    destruct (set_default_sized n text Hv Hnull Hps Hfit Hint) as (st' & H1 & H2 & H3); [lia|]. exists st'. split; [done|].
    by replace (room - _) with (room - Z.of_nat (length text)) by lia.
Qed.
End Default.

Lemma default_value_grows d v v' : default_value d v = Some v' -> width v <= width v'.
Proof.
  unfold default_value. intros Hdef. destruct (null_or_default d) as [text|]; [|simplify_eq; lia].
  destruct v as [b|n [|]| | |]; try done.
  - destruct (is_pstring _); [done|]. destruct (string_to_typed_buffer _ _ _ _) as [bytes|]; [|done].
    destruct (decide (length bytes <= length b)%nat); [|done]. simplify_eq. rewrite !width_raw, length_app, length_drop. lia.
  - case_decide; [|done]. simplify_eq. rewrite !width_sized. cbn. lia.
Qed.

Lemma default_values_grow ds r r' : default_values ds r = Some r' -> width_all r <= width_all r'.
Proof.
  revert r r'. induction ds as [|d ds IH]; intros [|v r] r' Hdef; cbn in Hdef; simplify_eq; try done.
  apply bind_Some in Hdef as (v' & Hv & (r1 & Hr & [= <-])%bind_Some). rewrite !width_all_cons.
  apply default_value_grows in Hv. apply IH in Hr. lia.
Qed.

Lemma set_defaults_loop_ok id ds p ds2 : forall ds1 r1 r2 r2' r room st, represents id ds r room st -> has_buffer id p (t_root st) ->
  description_at p ds = Some (ds1 ++ ds2) -> NoDup (name_of <$> (ds1 ++ ds2)) -> Forall well_named ds2 ->
  value_at p r = Some (r1 ++ r2) -> length r1 = length ds1 -> default_values ds2 r2 = Some r2' ->
  width_all r2' - width_all r2 <= room ->
  exists st', set_defaults_loop debug copy_capacity insert_capacity p ds2 st = (Ok tt, st') /\
    represents id ds (alter_value (fun _ => r1 ++ r2') p r) (room - (width_all r2' - width_all r2)) st' /\
    same_buffers (t_root st) (t_root st').
Proof.
  induction ds2 as [|d ds2 IH]; intros ds1 r1 [|v r2] r2' r room st Hrep Hp Hdp Hnd Hn Hr Hlen Hdef Hroom; cbn in Hdef; try done.
  { simplify_eq. exists st. rewrite Z.sub_diag, Z.sub_0_r. split; [done|]. split; [|done].
    rewrite (alter_value_ext _ (fun x => x) p r (r1 ++ [])) by done. rewrite alter_value_id; done. }
  apply bind_Some in Hdef as (v' & Hv & (r3 & Hr3 & [= <-])%bind_Some). apply Forall_cons in Hn as [Hnamed Hn].
  rewrite !width_all_cons in *. pose proof (default_value_grows _ _ _ Hv). pose proof (default_values_grow _ _ _ Hr3).
  assert (field_value p (length ds1) r = Some v) as Hfv by (unfold field_value; rewrite Hr; cbn; by rewrite <- Hlen, lookup_middle).
  destruct (set_default_ok id ds r room st Hrep p _ (length ds1) d Hp Hdp Hnd (lookup_middle _ _ _) Hnamed v v' Hfv Hv)
    as (st1 & Hset & Hrep1 & Hsb1); [lia|].
  destruct (IH (ds1 ++ [d]) (r1 ++ [v']) r2 r3 _ _ st1 Hrep1) as (st2 & Hset2 & Hrep2 & Hsb2); try done.
  { by eapply same_buffers_has. }
  { by rewrite <- app_assoc. }
  { by rewrite <- app_assoc. }
  { rewrite (value_at_alter _ _ _ _ Hr). rewrite <- app_assoc. cbn. by rewrite (insert_middle _ _ _ _ _ (eq_sym Hlen)). }
  { rewrite !length_app. cbn. lia. }
  { lia. }
  exists st2. cbn [set_defaults_loop]. rewrite (bind_ok _ _ _ _ _ Hset). split; [done|]. split; [|by transitivity (t_root st1)].
  rewrite alter_value_compose, <- app_assoc in Hrep2. cbn [app] in Hrep2.
  by replace (room - _) with (room - (width v' - width v) - (width_all r3 - width_all r2)) by lia.
Qed.

(** All of them. *)
Lemma set_defaults_ok id ds r room st p dsp rp rp' : represents id ds r room st -> has_buffer id p (t_root st) ->
  description_at p ds = Some dsp -> NoDup (name_of <$> dsp) -> Forall well_named dsp -> value_at p r = Some rp ->
  default_values dsp rp = Some rp' -> width_all rp' - width_all rp <= room ->
  exists st', set_defaults debug copy_capacity insert_capacity p st = (Ok tt, st') /\
    represents id ds (alter_value (fun _ => rp') p r) (room - (width_all rp' - width_all rp)) st' /\ same_buffers (t_root st) (t_root st').
Proof.
  intros Hrep Hp Hdp Hnd Hn Hr Hdef Hroom. pose proof Hp as (s & Hs & _). unfold set_defaults.
  rewrite (bind_ok _ _ _ _ _ (this_structure_ok _ _ _ Hs)).
  destruct (laid_at _ _ _ _ _ _ _ (rep_laid _ _ _ _ _ Hrep) Hs) as (dp & rq & off & _ & _ & Hdp' & _ & Hl & _).
  rewrite Hdp in Hdp'. simplify_eq. assert (s_descriptions s = dp) as -> by (by inversion Hl).
  by apply (set_defaults_loop_ok id ds p dp [] [] rp rp' r room st).
Qed.
End Defaults.
