(* ===== verification/StructArrays.v ===== *)
(** * The items of an array

    A new item is inserted at the end of its array, with its default values, and
    an item is deleted; the number of items and the offsets of what follows are
    updated. *)

From S2P Require Import Prelude Names Bytes SortedMap VirtualBuffer StructTypes Convert Structure StructLayout StructAccess.
From S2P Require Import StructUpdate StructParse StructDefaults.

Lemma structure_at_alter h q s sq : structure_at q s = Some sq -> structure_at q (alter_at h q s) = Some (h sq).
Proof.
  revert s. induction q as [|[i k] q IH]; intros s Hq; cbn in *; [by simplify_eq|].
  rewrite list_lookup_alter_eq. destruct (s_fields s !! i) as [[f subs]|]; [|done]. cbn in Hq |- *.
  rewrite list_lookup_alter_eq. destruct (subs !! k) as [sub|]; [|done]. cbn in Hq |- *. by apply IH.
Qed.

Lemma alter_value_app g p q r : alter_value g (p ++ q) r = alter_value (alter_value g q) p r.
Proof.
  revert r. induction p as [|[i k] p IH]; intros r; [done|]. cbn. apply list_alter_ext; [|done]. intros v _.
  destruct v as [| |n l|r'|]; try done; cbn.
  - f_equal. apply list_alter_ext; [|done]. intros x _. apply IH.
  - case_decide; [by rewrite IH|done].
Qed.

Lemma value_at_app p q r : value_at (p ++ q) r = (value_at p r ≫= value_at q).
Proof.
  revert r. induction p as [|[i k] p IH]; intros r; [done|]. cbn. destruct (r !! i) as [v|]; [|done]. cbn.
  destruct (sub_value v k); [|done]. apply IH.
Qed.

(** The fields of a structure when the offsets are adjusted from the root. *)
Lemma adjust_fields_at cutoff diff s q sq sq' : structure_at q s = Some sq ->
  structure_at q (adjust_structure cutoff diff s) = Some sq' -> s_fields sq' = map (adjust_field cutoff diff) (s_fields sq).
Proof.
  assert (forall q s sq sq', structure_at q s = Some sq -> structure_at q (adjust_sub cutoff diff s) = Some sq' ->
    s_fields sq' = map (adjust_field cutoff diff) (s_fields sq)) as Hsub.
  { clear. intros q. induction q as [|[i k] q IH]; intros s sq sq' Hq Hq'; cbn [structure_at] in *.
    - simplify_eq. unfold adjust_sub. rewrite adjust_structure_eq. by case_decide.
    - assert (s_fields (adjust_sub cutoff diff s) = map (adjust_field cutoff diff) (s_fields s)) as E.
      { unfold adjust_sub. rewrite adjust_structure_eq. by case_decide. }
      rewrite E, list_lookup_fmap in Hq'. destruct (s_fields s !! i) as [[f subs]|]; [|done]. cbn in Hq, Hq'.
      rewrite list_lookup_fmap in Hq'. destruct (subs !! k) as [sub|]; [|done]. cbn in Hq, Hq'. by eapply IH. }
  intros Hq Hq'. destruct q as [|[i k] q]; cbn [structure_at] in *; rewrite adjust_structure_eq in Hq'.
  - simplify_eq. done.
  - cbn [with_fields s_fields] in Hq'. rewrite list_lookup_fmap in Hq'. destruct (s_fields s !! i) as [[f subs]|]; [|done]. cbn in Hq, Hq'.
    rewrite list_lookup_fmap in Hq'. destruct (subs !! k) as [sub|]; [|done]. cbn in Hq, Hq'. by eapply Hsub.
Qed.

Section Array.
Context {validator : IntegerValidator}.
Context (id : nat) (ds : list struct_description_t) (r : list value) (room : Z) (st : tree_state).
Context (rep : represents id ds r room st) (q : place) (i : nat) (d : struct_description_t).
Context (described : field_description q i ds = Some d) (there : is_Some (structure_at q (t_root st))).
Context (n : nat) (l : list (list value)) (old : field_value q i r = Some (Items n l)).

(** The field of the array, in its structure and in the bytes. *)
Lemma array_field : exists f subs sq dsub dq pre post r1 r2 fs1 fs2,
  field_at (q, i) st = (Ok (f, subs), st) /\ structure_at q (t_root st) = Some sq /\ description_at q ds = Some dq /\
  value_at q r = Some (r1 ++ Items n l :: r2) /\
  i = length r1 /\ s_fields sq = fs1 ++ (f, subs) :: fs2 /\ length r1 = length fs1 /\
  fld_description f = d /\ array_bytes (d_type d) = Some n /\ (0 < n <= 4)%nat /\ d_sub_description d = Some (inl dsub) /\
  Z.of_nat (length l) < 2 ^ (8 * Z.of_nat n) /\ length subs = length l /\ fld_offset f = Z.of_nat (length pre) /\
  fld_offset f = s_start_offset sq + width_all r1 /\
  laid_structure id dq (r1 ++ Items n l :: r2) (s_start_offset sq) sq /\
  laid_field id d (Items n l) (fld_offset f) (f, subs) /\ laid_items id dsub l (fld_offset f + Z.of_nat n) subs /\
  buffered id (pre ++ le n (Z.of_nat (length l)) ++ encode_items l ++ post) room st /\
  (forall l', encode_all (alter_value (<[i:=Items n l']>) q r) = pre ++ le n (Z.of_nat (length l')) ++ encode_items l' ++ post) /\
  Z.of_nat (length pre) + Z.of_nat n + width_items l + Z.of_nat (length post) = width_all r.
Proof.
  destruct (field_laid_at id ds r room st rep q i d described there) as (v & f & subs & pre & post & Hv & Hf & Hl & Henc & Hset).
  rewrite old in Hv. simplify_eq. inversion Hl as [| |? ? ? ? ? ? dsub Hok Hn Hsub Hlen Hitems| |]; subst.
  pose proof Hok as [Hd _ Ho _ _].
  pose proof (rep_bytes _ _ _ _ _ rep) as Hbytes. rewrite Henc in Hbytes.
  assert (forall l', encode (Items n l') = le n (Z.of_nat (length l')) ++ encode_items l') as Hitem by done. rewrite Hitem in Hbytes.
  destruct there as [sq Hsq]. pose proof Hf as Hf2. unfold field_at, bind in Hf2. cbn [fst snd] in Hf2. rewrite (this_structure_ok _ _ _ Hsq) in Hf2.
  destruct (s_fields sq !! i) as [f0|] eqn:Hfi; [|done]. unfold ret in Hf2. simplify_eq.
  destruct (lookup_split _ _ _ Hfi) as (fs1 & fs2 & Hsplit & Hilen).
  destruct (laid_at _ _ _ _ _ _ _ (rep_laid _ _ _ _ _ rep) Hsq) as (dq & rq & offq & pre2 & post2 & Hdq & Hrq & Hlq & Henc2 & _ & _).
  unfold field_value in old. rewrite Hrq in old. cbn in old. destruct (lookup_split _ _ _ old) as (r1 & r2 & -> & Hir).
  pose proof (laid_start _ _ _ _ _ Hlq) as Hstart. subst offq.
  assert (Z.of_nat (length pre) = s_start_offset sq + width_all r1) as Hoff.
  { inversion Hlq as [? ? ? ? _ _ _ Hfs]; subst. rewrite Hsplit in Hfs. apply fields_split in Hfs as (ds1 & d' & ds2 & r1' & v1 & r2' & _ & Heqr & _ & Hl2 & _ & Hlf & _).
    apply app_inj_1 in Heqr as [<- [= <- <-]]; [|lia]. apply laid_offset in Hlf. cbn in Hlf. lia. }
  exists f, subs, sq, dsub, dq, pre, post, r1, r2, fs1, fs2. rewrite Ho.
  split_and!; try done; try lia.
  - destruct (d_type (fld_description f)); simplify_eq/=; lia.
  - destruct (d_type (fld_description f)); simplify_eq/=; lia.
  - by eapply items_length.
  - by rewrite <- app_assoc in Hbytes.
  - intros l'. rewrite Hset, Hitem. by rewrite <- app_assoc.
  - unfold width_all, width_items. rewrite Henc, Hitem, !length_app, length_le. lia.
Qed.

(** *** The tree with one more item *)

Definition append_item (sub : structure) (s : structure) : structure :=
  with_fields s (alter (fun '(f, subs) => (f, subs ++ [sub])) i (s_fields s)).

Lemma append_item_buffers sub s : same_buffers s (append_item sub s).
Proof.
  intros [|[j k] p] sub' Hp; [cbn in Hp; simplify_eq; by eexists|]. cbn [structure_at append_item with_fields s_fields] in *.
  destruct (decide (i = j)) as [<-|Hne]; [rewrite list_lookup_alter_eq|rewrite list_lookup_alter_ne by done; eauto].
  destruct (s_fields s !! i) as [[f subs]|]; [|done]. cbn in Hp |- *. destruct (subs !! k) as [x|] eqn:Hk; [|done].
  rewrite lookup_app_l by (by eapply lookup_lt_Some). rewrite Hk. eauto.
Qed.

Lemma append_laid f subs dsub item sub offset : field_at (q, i) st = (Ok (f, subs), st) ->
  d_sub_description d = Some (inl dsub) -> dsub <> [] -> Forall solid dsub -> offset = fld_offset f + Z.of_nat n + width_items l ->
  laid_structure id dsub item offset sub -> Z.of_nat (length l) + 1 < 2 ^ (8 * Z.of_nat n) ->
  width_all r + width_all item < 2 ^ 64 ->
  laid_structure id ds (alter_value (<[i:=Items n (l ++ [item])]>) q r) 0
    (alter_at (append_item sub) q (adjust_structure (offset - 1) (width_all item) (t_root st))).
Proof.
  intros Hf Hsub Hne Hsolid -> Hitem Hcount Hmax.
  destruct array_field as (f' & subs' & sq & dsub' & dq & pre & post & r1 & r2 & fs1 & fs2 & Hf' & Hsq & Hdq & Hrq & Hi & Hsplit & Hlen &
    Hd & Hn & Hn4 & Hsub' & Hl & Hsubs & Ho & Ho2 & Hlq & Hlf & Hlitems & _).
  rewrite Hf in Hf'. rewrite Hsub in Hsub'. simplify_eq.
  pose proof (width_all_nonneg r1). pose proof (width_all_nonneg r2). pose proof (width_items_nonneg l). pose proof (width_all_nonneg item).
  rewrite <- (alter_at_id q (t_root st)).
  apply (splice_structure id (fld_offset f' + Z.of_nat n + width_items l - 1) (width_all item) (fun s => s) (append_item sub)
    (<[i:=Items n (l ++ [item])]>) (r1 ++ Items n l :: r2)) with (sq := sq); try done.
  - rewrite (insert_middle _ _ _ _ _ Hi), !width_all_app, !width_all_cons, !width_items_value, width_items_app, width_items_cons.
    change (width_items []) with 0. lia.
  - by apply (rep_laid _ _ _ _ _ rep).
  - lia.
  - intros dsq offq Hlq2 Hoff0 Hmaxq. rewrite (laid_start _ _ _ _ _ Hlq2) in *.
    rewrite width_all_app, width_all_cons, width_items_value in *.
    split; [lia|]. rewrite (insert_middle _ _ _ _ _ Hi), adjust_structure_eq.
    inversion Hlq2 as [? ? ? ? Hds Hoff Hb Hlfs]; subst dsq. constructor; try done. unfold append_item. cbn [with_fields s_fields].
    rewrite Hsplit in Hlfs |- *. rewrite map_app. cbn [map]. rewrite Hi, Hlen, <- (length_map (adjust_field (fld_offset f' + Z.of_nat n + width_items l - 1) (width_all item)) fs1), alter_middle.
    unfold adjust_field at 2. cbn [fst snd]. rewrite decide_False by lia.
    destruct (adjust_before id true (fld_offset f' + Z.of_nat n + width_items l - 1) (width_all item)) as (_ & _ & Hbefore & _).
    rewrite (Hbefore _ _ _ _ Hlitems) by (done || (unfold before; lia)).
    pose proof Hlfs as Hsplit2. apply fields_split in Hsplit2 as (ds1 & d' & ds2 & r1' & v1 & r2' & Heq & Heqr & Hl1 & Hl2 & _ & Hlf2 & _).
    apply app_inj_1 in Heqr as [<- [= <- <-]]; [|lia].
    assert (d' = fld_description f') as -> by (destruct (laid_field_of _ _ _ _ _ Hlf2) as (? & _); done).
    apply splice_fields with (d := fld_description f') (v := Items n l) (f := (f', subs')); try done; try lia.
    + by rewrite Heq, <- Hl1, lookup_middle.
    + rewrite width_all_app, width_all_cons, width_items_value. lia.
    + rewrite width_items_value. lia.
    + rewrite !width_items_value, width_items_app, width_items_cons. change (width_items []) with 0. lia.
    + rewrite <- Ho2. inversion Hlf; subst. apply laid_array with dsub'; try done; [rewrite length_app; cbn; lia|].
      apply items_split. exists l, item, []. split_and!; try done. constructor.
Qed.

(** *** The tree with an item less *)

Definition remove_item (k : nat) (s : structure) : structure :=
  with_fields s (alter (fun '(f, subs) => (f, list_delete k subs)) i (s_fields s)).

Lemma delete_middle {A} (l1 l2 : list A) x k : k = length l1 -> list_delete k (l1 ++ x :: l2) = l1 ++ l2.
Proof. intros ->. induction l1 as [|y l1 IH]; [done|]. cbn. by f_equal. Qed.

Lemma items_app dsub l1 l2 off subs1 subs2 : laid_items id dsub l1 off subs1 -> laid_items id dsub l2 (off + width_items l1) subs2 ->
  laid_items id dsub (l1 ++ l2) off (subs1 ++ subs2).
Proof.
  intros Hl1 Hl2. revert off subs1 Hl1 Hl2. induction l1 as [|x l1 IH]; intros off subs1 Hl1 Hl2; inversion Hl1; subst; cbn [app].
  - change (width_items []) with 0 in Hl2. by rewrite Z.add_0_r in Hl2.
  - rewrite width_items_cons, Z.add_assoc in Hl2. constructor; [done|]. by apply IH.
Qed.

(** The item, its bytes and where it is. *)
Lemma item_at f subs dsub k item : field_at (q, i) st = (Ok (f, subs), st) -> d_sub_description d = Some (inl dsub) -> l !! k = Some item ->
  exists l1 l2 subs1 sub subs2, l = l1 ++ item :: l2 /\ subs = subs1 ++ sub :: subs2 /\ k = length l1 /\ length l1 = length subs1 /\
    s_start_offset sub = fld_offset f + Z.of_nat n + width_items l1 /\ laid_structure id dsub item (s_start_offset sub) sub /\
    laid_items id dsub l1 (fld_offset f + Z.of_nat n) subs1 /\ laid_items id dsub l2 (s_start_offset sub + width_all item) subs2.
Proof.
  intros Hf Hsub Hk.
  destruct array_field as (f' & subs' & sq & dsub' & dq & pre & post & r1 & r2 & fs1 & fs2 & Hf' & Hsq & Hdq & Hrq & Hi & Hsplit & Hlen &
    Hd & Hn & Hn4 & Hsub' & Hl & Hsubs & Ho & Ho2 & Hlq & Hlf & Hlitems & _).
  rewrite Hf in Hf'. rewrite Hsub in Hsub'. simplify_eq.
  destruct (lookup_split _ _ _ Hk) as (l1 & l2 & Hll & Hkl).
  destruct (lookup_lt_is_Some_2 subs' k) as [sub Hsubk]; [rewrite Hsubs; by eapply lookup_lt_Some|].
  destruct (lookup_split _ _ _ Hsubk) as (subs1 & subs2 & Hss & Hks). rewrite Hll, Hss in Hlitems.
  apply items_split in Hlitems as (l1' & item' & l2' & Heq & Hlen1 & Hl1 & Hs & Hl2).
  apply app_inj_1 in Heq as [<- [= <- <-]]; [|lia]. exists l1, l2, subs1, sub, subs2.
  rewrite (laid_start _ _ _ _ _ Hs). split_and!; try done.
Qed.

Lemma remove_laid f subs dsub k item sub : field_at (q, i) st = (Ok (f, subs), st) ->
  d_sub_description d = Some (inl dsub) -> dsub <> [] -> Forall solid dsub -> l !! k = Some item -> subs !! k = Some sub ->
  laid_structure id ds (alter_value (<[i:=Items n (list_delete k l)]>) q r) 0
    (adjust_structure (s_start_offset sub - 1) (- width_all item) (alter_at (remove_item k) q (t_root st))).
Proof.
  intros Hf Hsub Hne Hsolid Hk Hsk. destruct (item_at f subs dsub k item Hf Hsub Hk) as
    (l1 & l2 & subs1 & sub' & subs2 & Hll & Hss & Hkl & Hlen1 & Hstart & Hls & Hl1 & Hl2).
  assert (sub' = sub) as -> by (rewrite Hss, Hkl, Hlen1, lookup_middle in Hsk; by simplify_eq).
  destruct array_field as (f' & subs' & sq & dsub' & dq & pre & post & r1 & r2 & fs1 & fs2 & Hf' & Hsq & Hdq & Hrq & Hi & Hsplit & Hlen &
    Hd & Hn & Hn4 & Hsub' & Hl & Hsubs & Ho & Ho2 & Hlq & Hlf & Hlitems & _ & _ & Htot).
  rewrite Hf in Hf'. rewrite Hsub in Hsub'. simplify_eq. destruct (represents_size _ _ _ _ _ rep) as [Hmax Hroom].
  assert (0 < width_all item) as Hpos by (by eapply (proj2 (proj2 (proj2 (solid_width id)))); try done).
  pose proof (width_all_nonneg r1). pose proof (width_all_nonneg r2). pose proof (width_items_nonneg l1). pose proof (width_items_nonneg l2).
  rewrite (delete_middle l1 l2 item (length l1)) by done.
  rewrite <- (alter_at_id q (adjust_structure _ _ _)). rewrite width_items_app, width_items_cons in Htot.
  apply (splice_structure id (s_start_offset sub - 1) (- width_all item) (remove_item (length l1)) (fun s => s)
    (<[i:=Items n (l1 ++ l2)]>) (r1 ++ Items n (l1 ++ item :: l2) :: r2)) with (sq := sq); try done; try lia.
  - rewrite (insert_middle _ _ _ _ _ Hi), !width_all_app, !width_all_cons, !width_items_value, !width_items_app, width_items_cons. lia.
  - by apply (rep_laid _ _ _ _ _ rep).
  - intros dsq offq Hlq2 Hoff0 Hmaxq. rewrite (laid_start _ _ _ _ _ Hlq2) in *.
    rewrite width_all_app, width_all_cons, width_items_value, width_items_app, width_items_cons in *.
    split; [lia|]. rewrite (insert_middle _ _ _ _ _ Hi), adjust_structure_eq.
    inversion Hlq2 as [? ? ? ? Hds Hoff Hb Hlfs]; subst dsq. constructor; try done. unfold remove_item. cbn [with_fields s_fields].
    rewrite Hsplit in Hlfs |- *. rewrite Hi, Hlen, alter_middle, map_app. cbn [map].
    unfold adjust_field at 2. cbn [fst snd]. rewrite decide_False by lia. rewrite (delete_middle subs1 subs2 sub) by done.
    pose proof Hlfs as Hsplit2. apply fields_split in Hsplit2 as (ds1 & d' & ds2 & r1' & v1 & r2' & Heq & Heqr & Hd1 & Hd2 & _ & Hlf2 & _).
    apply app_inj_1 in Heqr as [<- [= <- <-]]; [|lia].
    assert (d' = fld_description f') as -> by (destruct (laid_field_of _ _ _ _ _ Hlf2) as (? & _); done).
    apply splice_fields with (d := fld_description f') (v := Items n (l1 ++ item :: l2)) (f := (f', subs1 ++ sub :: subs2)); try done; try lia.
    + by rewrite Heq, <- Hd1, lookup_middle.
    + rewrite width_all_app, width_all_cons, width_items_value, width_items_app, width_items_cons. lia.
    + rewrite width_items_value, width_items_app, width_items_cons. lia.
    + rewrite !width_items_value, !width_items_app, width_items_cons. lia.
    + rewrite <- Ho2. inversion Hlf; subst. apply laid_array with dsub'; try done; [rewrite length_app in *; cbn in *; lia|].
      rewrite map_app. apply items_app.
      * destruct (adjust_before id true (s_start_offset sub - 1) (- width_all item)) as (_ & _ & Hbefore & _).
        rewrite (Hbefore _ _ _ _ Hl1) by (done || (unfold before; lia)). done.
      * destruct (adjust_after id (s_start_offset sub - 1) (- width_all item)) as (_ & _ & Hafter & _).
        replace (fld_offset f' + Z.of_nat n + width_items l1) with (s_start_offset sub + width_all item + - width_all item) by lia.
        apply Hafter; [done|lia|lia|lia].
Qed.
End Array.

(** ** The operations *)

Section Operations.
Context {libraries : ConvertLibraries} {validator : IntegerValidator} (debug : bool).
Context (copy_capacity : Z -> Z) (insert_capacity : Z -> Z -> Z) `{laws : VectorLaws copy_capacity insert_capacity}.
Context (id : nat) (ds : list struct_description_t) (r : list value) (room : Z) (st : tree_state).
Context (rep : represents id ds r room st) (q : place) (i : nat) (d : struct_description_t).
Context (described : field_description q i ds = Some d) (there : is_Some (structure_at q (t_root st))).
Context (n : nat) (l : list (list value)) (old : field_value q i r = Some (Items n l)).
Context (p : place) (name : list Z) (buffered_place : has_buffer id p (t_root st)) (named : name <> []).
Context (located : locate ds p name STRUCT_TYPE_END = Ok (q, i)).

(** The places of the items. *)
Lemma get_array_ok : get_array debug p name st = (Ok ((fun k => q ++ [(i, k)]) <$> seq 0 (length l)), st).
Proof.
  destruct (array_field id ds r room st rep q i d described there n l old) as (f & subs & sq & dsub & dq & pre & post & r1 & r2 & fs1 & fs2 &
    Hf & Hsq & Hdq & Hrq & Hi & Hsplit & Hlen & Hd & Hn & Hn4 & Hsub & Hl & Hsubs & _).
  destruct (get_field_ok debug id ds r room st rep p name _ q i buffered_place named located) as (Hget & _).
  unfold get_array. rewrite (bind_ok _ _ _ _ _ Hget), (bind_ok _ _ _ _ _ Hf). unfold fld_type. rewrite Hd, Hsubs.
  assert (is_array (d_type d) = true) as -> by (by destruct (d_type d)). done.
Qed.

(** The array is full. *)
Lemma new_array_item_throws : 2 ^ (8 * Z.of_nat n) <= Z.of_nat (length l) + 1 ->
  new_array_item debug copy_capacity insert_capacity p name st = (Throw out_of_range, st).
Proof.
  intros Hfull. destruct (array_field id ds r room st rep q i d described there n l old) as (f & subs & sq & dsub & dq & pre & post & r1 & r2 & fs1 & fs2 &
    Hf & Hsq & Hdq & Hrq & Hi & Hsplit & Hlen & Hd & Hn & Hn4 & Hsub & Hl & Hsubs & Ho & Ho2 & Hlq & Hlf & Hlitems & Hbytes & _).
  destruct (get_field_ok debug id ds r room st rep p name _ q i buffered_place named located) as (Hget & _).
  unfold new_array_item. rewrite (bind_ok _ _ _ _ _ Hget), (bind_ok _ _ _ _ _ Hf). unfold fld_type. rewrite Hd, Hn, Ho.
  rewrite (bind_ok _ _ _ (le n (Z.of_nat (length l))) st) by (eapply buffer_pread_ok; [exact buffered_place|exact Hbytes|by rewrite length_le|done]).
  rewrite of_le_le_small by (unfold uword; lia). by rewrite decide_True by lia.
Qed.

(** Where the items of the array end, as [new_array_item()] finds it. *)
Definition end_is_known : Prop := is_Some (field_description q (S i) ds) \/ p = [] /\ q = [] /\ field_description q (S i) ds = None.

Lemma array_end f subs sq : field_at (q, i) st = (Ok (f, subs), st) -> structure_at q (t_root st) = Some sq -> end_is_known ->
  exists this, structure_at p (t_root st) = Some this /\ s_buffer this = Some id /\
  (match s_fields sq !! S i with
   | Some (next, _) => ret (fld_offset next)
   | None => lift (get_current_size debug None this 0)
   end) st = (Ok (fld_offset f + Z.of_nat n + width_items l), st).
Proof.
  intros Hf Hsq Hend. destruct (array_field id ds r room st rep q i d described there n l old) as (f' & subs' & sq' & dsub & dq & pre & post & r1 & r2 & fs1 & fs2 &
    Hf' & Hsq' & Hdq & Hrq & Hi & Hsplit & Hlen & Hd & Hn & Hn4 & Hsub & Hl & Hsubs & Ho & Ho2 & Hlq & Hlf & Hlitems & Hbytes & _ & Htot).
  rewrite Hf in Hf'. rewrite Hsq in Hsq'. injection Hf' as <- <-. injection Hsq' as <-. destruct buffered_place as (this & Hthis & Hb). exists this. split; [done|]. split; [done|].
  assert (laid_fields id dq (r1 ++ Items n l :: r2) (s_start_offset sq) (s_fields sq)) as Hfs by (inversion Hlq; subst; done).
  rewrite Hsplit in Hfs |- *. apply fields_split in Hfs as (ds1 & d' & ds2 & r1' & v1 & r2' & -> & Heqr & Hd1 & Hd2 & _ & _ & Hlfs2).
  apply app_inj_1 in Heqr as [<- [= <- <-]]; [|lia]. rewrite width_items_value in Hlfs2.
  unfold end_is_known, field_description in Hend. rewrite Hdq in Hend. cbn in Hend. rewrite Hi in Hend |- *.
  rewrite !lookup_app_r in * by lia. replace (S (length r1) - length ds1)%nat with 1%nat in Hend by lia.
  replace (S (length r1) - length fs1)%nat with 1%nat by lia. cbn [lookup list_lookup] in *.
  destruct Hend as [Hnext|(-> & -> & Hnone)].
  - inversion Hlfs2 as [|? ? ? ? ? [next nsubs] ? Hnf _]; subst; [by destruct Hnext|]. cbn. apply laid_offset in Hnf. cbn in Hnf.
    unfold ret. do 2 f_equal. lia.
  - inversion Hlfs2 as [|? ? ? ? ? [next nsubs] ? Hnf _]; subst; [|done]. cbn. cbn in Hsq, Hthis. simplify_eq.
    unfold lift. destruct (represents_size _ _ _ _ _ rep). pose proof (rep_laid _ _ _ _ _ rep) as Hroot.
    destruct (laid_size debug id) as (_ & _ & _ & Hsize). pose proof (width_all_nonneg r).
    rewrite (Hsize ds r 0 (t_root st) Hroot None 0); [|by left|lia|lia]. cbn in Hrq. simplify_eq.
    rewrite (laid_start _ _ _ _ _ Hroot) in Ho2. rewrite width_all_app, width_all_cons, width_items_value. change (width_all []) with 0.
    do 2 f_equal. lia.
Qed.

Lemma signed64_small x : - 2 ^ 63 <= x < 2 ^ 63 -> signed 64 (wrap 64 x) = x.
Proof.
  intros Hx. unfold signed, wrap. destruct (decide (0 <= x)).
  - rewrite Z.mod_small by lia. by rewrite decide_True by (change (64 - 1) with 63; lia).
  - replace (x mod 2 ^ 64) with (x + 2 ^ 64) by (apply Z.mod_unique_pos with (-1); lia).
    rewrite decide_False by (change (64 - 1) with 63; lia). lia.
Qed.

Lemma adjust_offsets_ok cutoff diff st1 : diff <> 0 -> adjust_offsets cutoff diff st1
  = (Ok tt, TreeState (adjust_structure cutoff diff (t_root st1)) (t_buffers st1) (t_blocks st1)).
Proof. intros Hne. unfold adjust_offsets. by rewrite decide_False. Qed.

Lemma modify_subs_ok g q' i' st1 : modify_subs g (q', i') st1
  = (Ok tt, TreeState (alter_at (fun s => with_fields s (alter (fun '(f, subs) => (f, g subs)) i' (s_fields s))) q' (t_root st1))
      (t_buffers st1) (t_blocks st1)).
Proof. done. Qed.

(** The new structure, before it is in the tree. *)
Lemma parse_new_item_ok dsub offset st1 : Forall describable dsub -> NoDup (name_of <$> dsub) -> 0 <= offset ->
  offset + width_all (fresh_values dsub) < 2 ^ 63 ->
  exists s, parse_new_item debug dsub offset st1 = (Ok (s, offset + width_all (fresh_values dsub)), st1) /\
    get_current_size debug None s 0 = Ok (width_all (fresh_values dsub)) /\
    forall b, b = Some id -> laid_structure id dsub (fresh_values dsub) offset (with_buffer b s).
Proof.
  intros Hdesc Hnd Ho Hmax. destruct (fresh_values_described dsub Hdesc) as (Hd & Hf & _).
  destruct (parse_laid debug (t_blocks st1) None None id (or_introl eq_refl)) as (_ & Hparse & _).
  destruct (parse_structure debug (t_blocks st1) None None id (or_introl eq_refl) dsub _ offset (Hparse _ _ Hd) Hnd) as (fs & Hfs & Hl).
  { by right. }
  unfold parse_new_item, parse_descriptions. rewrite Hfs. eexists. split; [done|]. split.
  - destruct (laid_size debug id) as (_ & _ & _ & Hsize). pose proof (width_all_nonneg (fresh_values dsub)).
    rewrite (Hsize dsub (fresh_values dsub) offset _ (Hl _) None 0); [done|by left|lia|lia].
  - intros b ->. specialize (Hl 0). inversion Hl as [? ? ? ? _ _ _ Hlfs]; subst. constructor; try done. by right.
Qed.

(** The bytes of a new item. *)
Lemma new_item_bytes f subs dsub : field_at (q, i) st = (Ok (f, subs), st) -> Forall describable dsub ->
  let w := width_all (fresh_values dsub) in
  w <= room -> exists st1 st2,
    buffer_pinsert copy_capacity insert_capacity p (replicate (Z.to_nat w) 0) (fld_offset f + Z.of_nat n + width_items l) st = (Ok tt, st1) /\
    buffer_pwrite copy_capacity p (le n (Z.of_nat (length l) + 1)) (fld_offset f) false st1 = (Ok tt, st2) /\
    t_root st2 = t_root st /\
    buffered id (encode_all (alter_value (<[i:=Items n (l ++ [fresh_values dsub])]>) q r)) (room - w) st2.
Proof.
  intros Hf Hdesc w Hroom.
  destruct (array_field id ds r room st rep q i d described there n l old) as (f' & subs' & sq & dsub' & dq & pre & post & r1 & r2 & fs1 & fs2 &
    Hf' & _ & _ & _ & _ & _ & _ & _ & _ & _ & _ & _ & _ & Ho & _ & _ & _ & _ & Hbytes & Hnew & Htot).
  rewrite Hf in Hf'. injection Hf' as <- <-. destruct (fresh_values_described dsub Hdesc) as (_ & _ & Hzeros). fold w in Hzeros.
  pose proof (width_all_nonneg (fresh_values dsub)). rewrite app_assoc, app_assoc in Hbytes.
  destruct (buffer_pinsert_ok copy_capacity insert_capacity id p ((pre ++ le n (Z.of_nat (length l))) ++ encode_items l) post
    (replicate (Z.to_nat w) 0) (room - w) (fld_offset f + Z.of_nat n + width_items l) st buffered_place) as (st1 & H1 & Hr1 & Hb1).
  { rewrite length_replicate, Z2Nat.id by lia. replace (w + (room - w)) with room by lia. exact Hbytes. }
  { lia. }
  { rewrite !length_app, length_le, Ho. unfold width_items. lia. }
  rewrite <- !app_assoc in Hb1.
  destruct (buffer_pwrite_ok copy_capacity id p _ _ _ (le n (Z.of_nat (length l) + 1)) (room - w) (fld_offset f) st1
    ltac:(by rewrite Hr1) Hb1) as (st2 & H2 & Hr2 & Hb2); [by rewrite !length_le|done|].
  exists st1, st2. split_and!; try done; [by rewrite Hr2|].
  rewrite Hnew, length_app. cbn [length]. rewrite encode_items_app, encode_items_cons. change (encode_items []) with (@nil Z).
  rewrite app_nil_r, Hzeros. replace (Z.of_nat (length l + 1)) with (Z.of_nat (length l) + 1) by lia. by rewrite <- !app_assoc.
Qed.

(** The tree with the new item, where the item has the buffer. *)
Lemma new_item_represents f subs dsub sub st2 : field_at (q, i) st = (Ok (f, subs), st) -> d_sub_description d = Some (inl dsub) ->
  dsub <> [] -> Forall solid dsub -> Z.of_nat (length l) + 1 < 2 ^ (8 * Z.of_nat n) ->
  let w := width_all (fresh_values dsub) in
  let offset := fld_offset f + Z.of_nat n + width_items l in
  w <= room -> laid_structure id dsub (fresh_values dsub) offset sub -> s_buffer sub = Some id -> t_root st2 = t_root st ->
  buffered id (encode_all (alter_value (<[i:=Items n (l ++ [fresh_values dsub])]>) q r)) (room - w) st2 ->
  let root := alter_at (append_item i sub) q (adjust_structure (offset - 1) w (t_root st)) in
  let st3 := TreeState root (t_buffers st2) (t_blocks st2) in
  represents id ds (alter_value (<[i:=Items n (l ++ [fresh_values dsub])]>) q r) (room - w) st3 /\ same_buffers (t_root st) root /\
  has_buffer id (q ++ [(i, length l)]) root /\
  value_at (q ++ [(i, length l)]) (alter_value (<[i:=Items n (l ++ [fresh_values dsub])]>) q r) = Some (fresh_values dsub) /\
  description_at (q ++ [(i, length l)]) ds = Some dsub.
Proof.
  intros Hf Hsub Hne Hsolid Hcount w offset Hroom Hitem Hbuf Hr2 Hb2 root st3.
  destruct (array_field id ds r room st rep q i d described there n l old) as (f' & subs' & sq & dsub' & dq & pre & post & r1 & r2 & fs1 & fs2 &
    Hf' & Hsq & Hdq & Hrq & Hi & Hsplit & Hlen & Hd & Hn & Hn4 & Hsub' & Hl & Hsubs & Ho & _).
  rewrite Hf in Hf'. injection Hf' as <- <-. destruct (represents_size _ _ _ _ _ rep) as [Hmax Hroom0].
  assert (same_buffers (t_root st) root) as Hsb.
  { transitivity (adjust_structure (offset - 1) w (t_root st)); [apply adjust_buffers|apply alter_buffers, append_item_buffers]. }
  split_and!; try done.
  - split; cbn [st3 t_root].
    + apply (append_laid id ds r room st rep q i d described there n l old f subs dsub); try done. fold w. lia.
    + eapply same_buffers_has; [exact Hsb|apply (rep_buffer _ _ _ _ _ rep)].
    + destruct Hb2 as (vb & ? & ? & ? & ?). by exists vb.
  - exists sub. split; [|done]. unfold root. rewrite structure_at_app.
    destruct (adjust_buffers (offset - 1) w (t_root st) q sq Hsq) as (sq' & Hsq' & _).
    pose proof (adjust_fields_at _ _ _ _ _ _ Hsq Hsq') as Hfields. rewrite (structure_at_alter _ _ _ _ Hsq'). cbn. unfold append_item. cbn.
    rewrite Hfields, Hsplit, map_app, Hi, Hlen. cbn [map].
    rewrite <- (length_map (adjust_field (offset - 1) w) fs1), alter_middle, lookup_middle. cbn.
    by rewrite <- Hsubs, <- (length_map (adjust_sub (offset - 1) w) subs), lookup_middle.
  - rewrite value_at_app, (value_at_alter _ _ _ _ Hrq). cbn. by rewrite (insert_middle _ _ _ _ _ Hi), Hi, lookup_middle; cbn; rewrite lookup_middle.
  - rewrite description_at_app, Hdq. cbn. unfold field_description in described. rewrite Hdq in described. cbn in described.
    rewrite described. cbn. by rewrite Hsub.
Qed.

Lemma new_array_item_ok dsub item : d_sub_description d = Some (inl dsub) -> Forall describable dsub -> NoDup (name_of <$> dsub) ->
  dsub <> [] -> Forall solid dsub -> default_values debug dsub (fresh_values dsub) = Some item ->
  Z.of_nat (length l) + 1 < 2 ^ (8 * Z.of_nat n) -> end_is_known -> width_all item <= room ->
  exists st', new_array_item debug copy_capacity insert_capacity p name st = (Ok (q ++ [(i, length l)]), st') /\
    represents id ds (alter_value (<[i:=Items n (l ++ [item])]>) q r) (room - width_all item) st' /\ same_buffers (t_root st) (t_root st').
Proof.
  intros Hsub Hdesc Hnd Hne Hsolid Hdef Hcount Hend Hroom.
  destruct (array_field id ds r room st rep q i d described there n l old) as (f & subs & sq & dsub' & dq & pre & post & r1 & r2 & fs1 & fs2 &
    Hf & Hsq & Hdq & Hrq & Hi & Hsplit & Hlen & Hd & Hn & Hn4 & _ & Hl & Hsubs & Ho & Ho2 & Hlq & Hlf & Hlitems & Hbytes & Hnew & Htot).
  destruct (get_field_ok debug id ds r room st rep p name _ q i buffered_place named located) as (Hget & _).
  destruct (array_end f subs sq Hf Hsq Hend) as (this & Hthis & Hbuf & Hoffset).
  destruct (represents_size _ _ _ _ _ rep) as [Hmax Hroom0]. pose proof (default_values_grow _ _ _ _ Hdef) as Hgrow.
  set (w := width_all (fresh_values dsub)) in *. set (offset := fld_offset f + Z.of_nat n + width_items l) in *.
  pose proof (width_items_nonneg l). pose proof (width_all_nonneg (fresh_values dsub)).
  destruct (parse_new_item_ok dsub offset st Hdesc Hnd) as (s & Hparse & Hadd & Hitem); [lia|fold w; lia|]. fold w in Hparse, Hadd.
  assert (0 < w) as Hw by (eapply (proj2 (proj2 (proj2 (solid_width id))) dsub _ offset _ (Hitem (Some id) eq_refl)); done).
  unfold new_array_item. rewrite (bind_ok _ _ _ _ _ Hget), (bind_ok _ _ _ _ _ Hf). unfold fld_type. rewrite Hd, Hn.
  rewrite (bind_ok _ _ _ (le n (Z.of_nat (length l))) st) by (rewrite Ho; eapply buffer_pread_ok; [exact buffered_place|exact Hbytes|by rewrite length_le|done]).
  rewrite of_le_le_small by (unfold uword; lia). rewrite (decide_False (P := _ >= _)) by lia.
  rewrite (bind_ok _ _ _ _ _ (this_structure_ok _ _ _ Hsq)), (bind_ok _ _ _ _ _ (this_structure_ok _ _ _ Hthis)).
  rewrite (bind_ok _ _ _ _ _ Hoffset). unfold item_description. rewrite Hd, Hsub. unfold lift at 1. unfold bind at 1.
  rewrite (bind_ok _ _ _ _ _ Hparse), Hadd. unfold lift at 1. unfold bind at 1.
  replace (offset + w - offset) with w by lia. rewrite (wrap_small 64 w) by (unfold uword; lia). rewrite Z.eqb_refl, andb_false_r.
  unfold ret at 1. unfold bind at 1.
  destruct (new_item_bytes f subs dsub Hf Hdesc) as (st1 & st2 & H1 & H2 & Hr2 & Hb2); [lia|]. fold w offset in H1, Hb2.
  rewrite (bind_ok _ _ _ _ _ H1), (bind_ok _ _ _ _ _ H2). rewrite (wrap_small 64 (offset - 1)) by (unfold uword; lia).
  assert (signed 64 w = w) as -> by (unfold signed; by rewrite decide_True by (change (64 - 1) with 63; lia)).
  rewrite (bind_ok _ _ _ _ _ (adjust_offsets_ok (offset - 1) w st2 ltac:(lia))), Hr2.
  rewrite (bind_ok _ _ _ _ _ (modify_subs_ok _ q i _)), Hsubs. cbn [t_root t_buffers t_blocks].
  destruct (new_item_represents f subs dsub (with_buffer (s_buffer this) s) st2) as (Hrep3 & Hsb & Hhas & Hvalue & Hdescribed); try done;
    [lia|by apply Hitem|].
  destruct (set_defaults_ok debug copy_capacity insert_capacity id ds _ _ _ _ dsub (fresh_values dsub) item Hrep3 Hhas Hdescribed Hnd)
    as (st4 & H4 & Hrep4 & Hsb4); try done.
  { eapply Forall_impl; [exact Hdesc|]. intros x Hx. by destruct Hx. }
  { fold w. lia. }
  rewrite (bind_ok _ _ _ _ _ H4). assert (same_buffers (t_root st) (t_root st4)) as Hsb5 by (by transitivity (alter_at (append_item i (with_buffer (s_buffer this) s)) q (adjust_structure (offset - 1) w (t_root st)))).
  rewrite (bind_ok _ _ _ _ _ (verify_buffer_size_ok debug id ds _ _ st4 Hrep4 p (same_buffers_at _ _ _ Hsb5 (ex_intro _ _ Hthis)))).
  exists st4. split; [done|]. split; [|done].
  fold w in Hrep4. replace (room - w - (width_all item - w)) with (room - width_all item) in Hrep4 by lia.
  rewrite alter_value_app, alter_value_compose in Hrep4.
  rewrite (alter_value_ext _ (<[i:=Items n (l ++ [item])]>) q r _ Hrq) in Hrep4; [done|].
  cbn [alter_value]. rewrite !(insert_middle _ _ _ _ _ Hi), Hi, alter_middle. cbn [alter_sub]. by rewrite alter_middle.
Qed.

(** *** Deleting an item *)

Lemma delete_array_item_throws idx : Z.of_nat (length l) <= wrap 64 idx ->
  delete_array_item debug copy_capacity p name idx st = (Throw out_of_range, st).
Proof.
  intros Hidx. destruct (array_field id ds r room st rep q i d described there n l old) as (f & subs & sq & dsub & dq & pre & post & r1 & r2 & fs1 & fs2 &
    Hf & Hsq & Hdq & Hrq & Hi & Hsplit & Hlen & Hd & Hn & Hn4 & Hsub & Hl & Hsubs & Ho & Ho2 & Hlq & Hlf & Hlitems & Hbytes & _).
  destruct (get_field_ok debug id ds r room st rep p name _ q i buffered_place named located) as (Hget & _).
  unfold delete_array_item. rewrite (bind_ok _ _ _ _ _ Hget), (bind_ok _ _ _ _ _ Hf). unfold fld_type. rewrite Hd, Hn, Ho.
  rewrite (bind_ok _ _ _ (le n (Z.of_nat (length l))) st) by (eapply buffer_pread_ok; [exact buffered_place|exact Hbytes|by rewrite length_le|done]).
  rewrite of_le_le_small by (unfold uword; lia). rewrite Hsubs, decide_False by (by intros []). by rewrite decide_True by lia.
Qed.

(** The bytes without the item. *)
Lemma delete_item_bytes f subs k item dsub sub : field_at (q, i) st = (Ok (f, subs), st) -> d_sub_description d = Some (inl dsub) ->
  l !! k = Some item -> subs !! k = Some sub -> exists st1,
    buffer_perase p (width_all item) (s_start_offset sub) st = (Ok (to_int (width_all item)), st1) /\ t_root st1 = t_root st /\
    forall st2, t_buffers st2 = t_buffers st1 -> t_blocks st2 = t_blocks st1 -> has_buffer id p (t_root st2) -> exists st3,
    buffer_pwrite copy_capacity p (le n (Z.of_nat (length l) - 1)) (fld_offset f) false st2 = (Ok tt, st3) /\ t_root st3 = t_root st2 /\
    buffered id (encode_all (alter_value (<[i:=Items n (list_delete k l)]>) q r)) room st3.
Proof.
  intros Hf Hsub Hk Hsk. destruct (item_at id ds r room st rep q i d described there n l old f subs dsub k item Hf Hsub Hk) as
    (l1 & l2 & subs1 & sub' & subs2 & Hll & Hss & Hkl & Hlen1 & Hstart & _).
  assert (sub' = sub) as -> by (rewrite Hss, Hkl, Hlen1, lookup_middle in Hsk; by simplify_eq).
  destruct (array_field id ds r room st rep q i d described there n l old) as (f' & subs' & sq & dsub' & dq & pre & post & r1 & r2 & fs1 & fs2 &
    Hf' & _ & _ & _ & _ & _ & _ & _ & _ & _ & _ & _ & _ & Ho & _ & _ & _ & _ & Hbytes & Hnew & Htot).
  rewrite Hf in Hf'. injection Hf' as <- <-.
  assert (buffered id ((pre ++ le n (Z.of_nat (length l)) ++ encode_items l1) ++ encode_all item ++ encode_items l2 ++ post) room st) as Hb0.
  { rewrite Hll, encode_items_app, encode_items_cons in Hbytes. rewrite <- !app_assoc in Hbytes. rewrite <- !app_assoc. by rewrite Hll. }
  destruct (buffer_perase_ok id p _ _ _ room (width_all item) (s_start_offset sub) st buffered_place Hb0) as (st1 & H1 & Hr1 & Hb1); [done| |].
  { rewrite Hstart, Ho, !length_app, length_le. unfold width_items. lia. }
  exists st1. split; [done|]. split; [done|]. intros st2 Hbuf Hblk Hp2. rewrite <- !app_assoc in Hb1.
  assert (buffered id (pre ++ le n (Z.of_nat (length l)) ++ encode_items l1 ++ encode_items l2 ++ post) room st2) as Hb2.
  { destruct Hb1 as (vb & ? & ? & ?). exists vb. by rewrite Hbuf, Hblk. }
  destruct (buffer_pwrite_ok copy_capacity id p _ _ _ (le n (Z.of_nat (length l) - 1)) room (fld_offset f) st2 Hp2 Hb2) as (st3 & H3 & Hr3 & Hb3);
    [by rewrite !length_le|done|].
  exists st3. split; [done|]. split; [done|]. rewrite Hnew. rewrite Hkl, Hll, (delete_middle l1 l2 item _ eq_refl), encode_items_app.
  rewrite Hll, length_app in Hb3. cbn [length] in Hb3. rewrite length_app.
  replace (Z.of_nat (length l1 + S (length l2)) - 1) with (Z.of_nat (length l1 + length l2)) in Hb3 by lia. by rewrite <- !app_assoc.
Qed.

(** The structure that was asked is still there. *)
Lemma remove_has_buffer k : has_buffer id p (alter_at (remove_item i k) q (t_root st)).
Proof.
  unfold locate in located. destruct (description_at p ds) as [dp|]; [|done].
  destruct (select _ dp _ _) as [[q' i']|]; [|done]. cbn [result_bind] in located. injection located as <- _.
  destruct buffered_place as (s & Hs & Hb). exists (alter_at (remove_item i k) q' s).
  split; [|by destruct q' as [|[? ?] ?]]. clear -Hs. revert Hs. generalize (t_root st) as root.
  induction p as [|[a b] p' IH]; intros root Hs; cbn in *; [by simplify_eq|].
  rewrite list_lookup_alter_eq. destruct (s_fields root !! a) as [[f subs]|]; [|done]. cbn in Hs |- *.
  rewrite list_lookup_alter_eq. destruct (subs !! b) as [sub|]; [|done]. cbn in Hs |- *. by apply IH.
Qed.

Lemma delete_array_item_ok k item dsub : d_sub_description d = Some (inl dsub) -> dsub <> [] -> Forall solid dsub ->
  l !! k = Some item -> width_all item < 2 ^ 31 ->
  exists st', delete_array_item debug copy_capacity p name (Z.of_nat k) st = (Ok tt, st') /\
    represents id ds (alter_value (<[i:=Items n (list_delete k l)]>) q r) room st' /\ has_buffer id p (t_root st').
Proof.
  intros Hsub Hne Hsolid Hk Hint.
  destruct (array_field id ds r room st rep q i d described there n l old) as (f & subs & sq & dsub' & dq & pre & post & r1 & r2 & fs1 & fs2 &
    Hf & Hsq & Hdq & Hrq & Hi & Hsplit & Hlen & Hd & Hn & Hn4 & _ & Hl & Hsubs & Ho & Ho2 & Hlq & Hlf & Hlitems & Hbytes & Hnew & Htot).
  destruct (get_field_ok debug id ds r room st rep p name _ q i buffered_place named located) as (Hget & _).
  destruct (represents_size _ _ _ _ _ rep) as [Hmax Hroom0]. pose proof (lookup_lt_Some _ _ _ Hk) as Hklt.
  pose proof (Z.pow_le_mono_r 2 (8 * Z.of_nat n) 32 ltac:(lia) ltac:(lia)) as H32.
  destruct (item_at id ds r room st rep q i d described there n l old f subs dsub k item Hf Hsub Hk) as
    (l1 & l2 & subs1 & sub & subs2 & Hll & Hss & Hkl & Hlen1 & Hstart & Hlsub & _).
  assert (subs !! k = Some sub) as Hsk by (by rewrite Hss, Hkl, Hlen1, lookup_middle).
  assert (0 < width_all item) as Hpos by (eapply (proj2 (proj2 (proj2 (solid_width id)))); done).
  pose proof (width_items_nonneg l1). pose proof (width_items_nonneg l2). rewrite Hll, width_items_app, width_items_cons in Htot.
  unfold delete_array_item. rewrite (bind_ok _ _ _ _ _ Hget), (bind_ok _ _ _ _ _ Hf). unfold fld_type. rewrite Hd, Hn.
  rewrite (bind_ok _ _ _ (le n (Z.of_nat (length l))) st) by (rewrite Ho; eapply buffer_pread_ok; [exact buffered_place|exact Hbytes|by rewrite length_le|done]).
  rewrite of_le_le_small by (unfold uword; lia). rewrite Hsubs, decide_False by (by intros []).
  rewrite wrap_small by (unfold uword; lia). rewrite (decide_False (P := _ >= _)) by lia.
  unfold array_item. rewrite Nat2Z.id, Hsk. unfold ret at 1. unfold bind at 1.
  destruct (laid_size debug id) as (_ & _ & _ & Hsize). rewrite (Hsize _ _ _ _ Hlsub None 0) by (by left || lia).
  rewrite Z.add_0_l. unfold lift at 1. unfold bind at 1.
  destruct (delete_item_bytes f subs k item dsub sub Hf Hsub Hk Hsk) as (st1 & H1 & Hr1 & Hwrite).
  rewrite (bind_ok _ _ _ _ _ H1). rewrite to_int_small by lia.
  rewrite (wrap_small 64 (width_all item)) by (unfold uword; lia). rewrite decide_False by (by intros []).
  rewrite (bind_ok _ _ _ _ _ (modify_subs_ok _ q i _)), Hr1. change (fun s : structure => with_fields s _) with (remove_item i k).
  pose proof (remove_has_buffer k) as Hp2.
  destruct (Hwrite (TreeState (alter_at (remove_item i k) q (t_root st)) (t_buffers st1) (t_blocks st1)) eq_refl eq_refl Hp2)
    as (st3 & H3 & Hr3 & Hb3). cbn [t_root] in Hr3.
  rewrite (bind_ok _ _ _ _ _ H3). rewrite (wrap_small 64 (s_start_offset sub - 1)) by (unfold uword; lia).
  rewrite signed64_small by lia. rewrite (bind_ok _ _ _ _ _ (adjust_offsets_ok _ (- width_all item) st3 ltac:(lia))), Hr3.
  set (root := adjust_structure _ _ _). set (st4 := TreeState root _ _).
  assert (has_buffer id p root) as Hp4 by (eapply same_buffers_has; [apply adjust_buffers|exact Hp2]).
  assert (represents id ds (alter_value (<[i:=Items n (list_delete k l)]>) q r) room st4) as Hrep4.
  { split; cbn [st4 t_root].
    - by apply (remove_laid id ds r room st rep q i d described there n l old f subs dsub k item sub).
    - destruct (rep_buffer _ _ _ _ _ rep) as (s & Hs & Hb). cbn in Hs. injection Hs as <-.
      eapply same_buffers_has; [apply adjust_buffers|]. eexists. split; [done|]. by destruct q as [|[? ?] ?].
    - destruct Hb3 as (vb & ? & ? & ? & ?). by exists vb. }
  exists st4. split; [|done]. apply (verify_buffer_size_ok debug id ds _ _ st4 Hrep4). destruct Hp4 as (s & ? & _). by exists s.
Qed.
End Operations.
