(* ===== verification/StructProps.v ===== *)
(** * What structures guarantee

    The theorems about structures: parsing and initialising make a structure that
    represents the values of its buffer, fields are found by name as the
    descriptions say, and every accessor reads or replaces the value of its field,
    and nothing else. *)

From S2P Require Import Prelude Names Bytes Limbs Uint512 Int512 SortedMap VirtualBuffer StructTypes Convert ConvertProps Structure.
From S2P Require Import StructLayout StructAccess StructUpdate StructParse StructDefaults StructArrays.

(** ** Parsing and initialising *)

Section Making.
Context {libraries : ConvertLibraries} {validator : IntegerValidator} (debug : bool).
Context (copy_capacity : Z -> Z) (insert_capacity : Z -> Z -> Z) `{laws : VectorLaws copy_capacity insert_capacity}.

(** The tree after [parse()], with a buffer or without one. *)
Lemma parse_root ds r st b id : described_fields ds r -> NoDup (name_of <$> ds) -> s_descriptions (t_root st) = ds ->
  s_start_offset (t_root st) = 0 -> s_fields (t_root st) = [] -> s_buffer (t_root st) = b -> b = None \/ b = Some id ->
  readable (t_blocks st) (id ← b; t_buffers st !! id) (Forall fresh r) (encode_all r) 0 ->
  exists s, parse debug [] st = (Ok (width_all r), TreeState s (t_buffers st) (t_blocks st)) /\ s_buffer s = b /\
    laid_structure id ds r 0 s.
Proof.
  intros Hd Hnd Hds Hstart Hnil Hb Hid Hread. unfold parse. rewrite (bind_ok _ _ _ _ _ (this_structure_ok [] (t_root st) st eq_refl)).
  rewrite Hnil, decide_False by (by intros []). rewrite Hb, Hds, Hstart.
  destruct (parse_laid debug (t_blocks st) b (b ≫= (fun id => t_buffers st !! id)) id Hid) as (_ & Hparse & _).
  destruct (parse_structure debug (t_blocks st) b (b ≫= (fun id => t_buffers st !! id)) id Hid ds r 0 (Hparse ds r Hd) Hnd Hread) as (fs & Hfs & Hl).
  unfold parse_descriptions. rewrite Hfs. unfold modify_structure, lift, bind. cbn [alter_at].
  eexists. split; [by rewrite Z.add_0_l|]. cbn [s_buffer]. split; [done|].
  specialize (Hl (0 + width_all r)). rewrite Hds, Hstart, Hb. by rewrite Z.add_0_l in *.
Qed.

(** A buffer that was just written. *)
Lemma new_buffer_filled blocks c room : Z.of_nat (length c) + room < 2 ^ 63 -> 0 <= room ->
  exists vb n, pwrite copy_capacity blocks virtual_buffer_empty c 0 true = Ok (blocks, vb, n) /\ memory_buffer blocks vb /\
    contents blocks (f_buffers vb) = c /\ room_for vb room.
Proof.
  intros Hmax Hroom. assert (memory_buffer blocks virtual_buffer_empty) as Hempty by (split; [constructor|split; [done|cbn; lia]]).
  destruct (decide (c = [])) as [->|Hne]; [exists virtual_buffer_empty, 0; split_and!; done || constructor|].
  destruct (pwrite_value copy_capacity insert_capacity blocks virtual_buffer_empty c 0 true Hempty) as (vb & Hw & Hvb & _ & Hc);
    [lia|done|cbn; lia|by left|].
  exists vb, (to_int (Z.of_nat (length c))). split_and!; try done; [rewrite Hc; cbn; by rewrite drop_nil, app_nil_r|].
  apply (pwrite_room copy_capacity blocks virtual_buffer_empty c 0 true blocks vb (to_int (Z.of_nat (length c))) room Hempty); try done; lia || constructor.
Qed.

(** [init_buffer()] on a new structure. *)
Lemma init_buffer_ok ds r st room : Forall describable ds -> NoDup (name_of <$> ds) ->
  t_root st = Structure ds None 0 0 [] -> default_values debug ds (fresh_values ds) = Some r -> width_all r + room < 2 ^ 63 -> 0 <= room ->
  exists st', init_buffer debug copy_capacity insert_capacity [] st = (Ok tt, st') /\
    represents (length (t_buffers st)) ds r room st'.
Proof.
  intros Hdesc Hnd Hroot Hdef Hmax Hroom. pose proof (default_values_grow _ _ _ _ Hdef) as Hgrow.
  destruct (fresh_values_described ds Hdesc) as (Hd & Hf & Hzeros). set (w := width_all (fresh_values ds)) in *.
  pose proof (width_all_nonneg (fresh_values ds)) as Hw. fold w in Hw. set (id := length (t_buffers st)).
  destruct (parse_root ds (fresh_values ds) st None id Hd Hnd) as (s & Hparse & Hb & Hl); try (by rewrite Hroot); [by left| |].
  { right. split_and!; try done. unfold w, width_all in *. lia. }
  unfold init_buffer. fold w in Hparse. rewrite (bind_ok _ _ _ _ _ Hparse).
  unfold new_buffer at 1, modify_structure. unfold bind at 1. cbn [t_root t_buffers t_blocks alter_at]. fold id.
  set (st1 := TreeState (with_buffer (Some id) s) _ _).
  destruct (new_buffer_filled (t_blocks st) (replicate (Z.to_nat w) 0) (room + (width_all r - w))) as (vb & n & Hwrite & Hvb & Hc & Hr).
  { rewrite length_replicate. lia. }
  { lia. }
  assert (t_buffers st1 !! id = Some virtual_buffer_empty) as Hid by (unfold st1, id; cbn; apply lookup_middle).
  assert (has_buffer id [] (t_root st1)) as Hhas by (by eexists).
  assert (buffer_pwrite copy_capacity [] (replicate (Z.to_nat w) 0) 0 true st1
    = (Ok tt, TreeState (with_buffer (Some id) s) (<[id:=vb]> (t_buffers st1)) (t_blocks st))) as Hpw.
  { unfold buffer_pwrite. rewrite (bind_ok _ _ _ _ _ (this_buffer_ok id [] _ st1 Hhas Hid)). cbn [st1 t_blocks]. by rewrite Hwrite. }
  rewrite (bind_ok _ _ _ _ _ Hpw). set (st2 := TreeState _ _ _).
  assert (represents id ds (fresh_values ds) (room + (width_all r - w)) st2) as Hrep.
  { split; [|by eexists|].
    - inversion Hl; subst. constructor; try done. by right.
    - exists vb. rewrite Hzeros, length_replicate. fold w. split_and!; try done; try lia. cbn. apply list_lookup_insert_eq.
      by eapply lookup_lt_Some. }
  destruct (set_defaults_ok debug copy_capacity insert_capacity id ds _ _ st2 [] ds (fresh_values ds) r Hrep) as (st' & Hset & Hrep' & _); try done.
  { eapply Forall_impl; [exact Hdesc|]. intros x Hx. by destruct Hx. }
  { fold w. lia. }
  exists st'. split; [done|]. fold w in Hrep'. by replace (room + (width_all r - w) - (width_all r - w)) with room in Hrep' by lia.
Qed.
End Making.

(** ** An example *)

(** Decimal numbers. *)
Definition example_validator : IntegerValidator := {|
  convert_string s :=
    match s with
    | [] => None
    | _ => if forallb digit_char_test s then Some (foldl (fun n c => 10 * n + (c - (chr: "0"))) 0 s) else None
    end;
|}.

Definition example_field (name : list Z) (t : struct_type_t) (text : option (list Z)) (sub : option (list struct_description_t)) :
    struct_description_t :=
  StructDescription name t 0 text (Version 0 0) (Version 0 0) (inl <$> sub).

(** A point has a number and a name; a drawing has a count, a title, a code of 4
    characters, flags, points, a note and an end mark. *)
Definition example_point : list struct_description_t :=
  [example_field (str: "x") STRUCT_TYPE_UINT16 (Some (str: "513")) None; example_field (str: "label") STRUCT_TYPE_P8STRING (Some (str: "p")) None].

Definition example_drawing : list struct_description_t :=
  [example_field (str: "count") STRUCT_TYPE_INT16 None None;
   example_field (str: "title") STRUCT_TYPE_P8STRING (Some (str: "new")) None;
   example_field (str: "code=4") STRUCT_TYPE_CHAR None None;
   example_field (str: "flags=on/level:3") STRUCT_TYPE_BITS8 None None;
   example_field (str: "points") STRUCT_TYPE_ARRAY8 None (Some example_point);
   example_field (str: "origin") STRUCT_TYPE_STRUCTURE None (Some example_point);
   example_field (str: "note") STRUCT_TYPE_BUFFER16 None None].

Definition example_values : list value :=
  [Raw [7; 0]; Sized 1 (str: "ab"); Raw [65; 66; 0; 0]; Raw [11];
   Items 1 [[Raw [1; 0]; Sized 1 (str: "p")]; [Raw [2; 0]; Sized 1 []]];
   Sub [Raw [3; 0]; Sized 1 (str: "org")]; Sized 2 [9; 9]].

#[local] Existing Instances example_libraries example_validator.

Definition example_start : tree_state :=
  TreeState (Structure example_drawing (Some 0%nat) 0 0 []) [VirtualBuffer [new_vbuf example_copy_capacity (encode_all example_values)] 
    (width_all example_values) false] ∅.

(** Once it is parsed. *)
Definition example_state : tree_state := snd (parse true [] example_start).

Ltac well_named_tac := split; [vm_compute; reflexivity|eexists; vm_compute; reflexivity].

Lemma example_point_describable : Forall describable example_point.
Proof.
  constructor; [|constructor; [|constructor]].
  - apply describable_fixed; [well_named_tac|by eexists|done].
  - apply describable_counted; [well_named_tac|by eexists|done].
Qed.

Lemma example_point_distinct : NoDup (name_of <$> example_point).
Proof. apply (bool_decide_unpack _). vm_compute. exact I. Qed.

Lemma example_drawing_distinct : NoDup (name_of <$> example_drawing).
Proof. apply (bool_decide_unpack _). vm_compute. exact I. Qed.

Lemma example_point_solid : Forall solid example_point.
Proof. repeat constructor; try done. Qed.

Lemma example_drawing_describable : Forall describable example_drawing.
Proof.
  unfold example_drawing. repeat apply Forall_cons_2; [..|constructor].
  - apply describable_fixed; [well_named_tac|by eexists|done].
  - apply describable_counted; [well_named_tac|by eexists|done].
  - apply describable_fixed; [well_named_tac|eexists; vm_compute; reflexivity|done].
  - apply describable_fixed; [well_named_tac|by eexists|done].
  - eapply describable_array; [well_named_tac|by eexists|done|apply example_point_describable|apply example_point_distinct].
  - eapply describable_sub; [well_named_tac|done|done|apply example_point_describable|apply example_point_distinct].
  - apply describable_counted; [well_named_tac|by eexists|done].
Qed.

Lemma example_point_described x label : length x = 2%nat -> Z.of_nat (length label) < 256 ->
  described_fields example_point [Raw x; Sized 1 label].
Proof.
  intros Hx Hl. constructor; [apply described_raw; [well_named_tac|by rewrite Hx|done]|].
  constructor; [apply described_sized; [well_named_tac|done|done|done]|constructor].
Qed.

Lemma example_described : described_fields example_drawing example_values.
Proof.
  unfold example_drawing, example_values. repeat apply described_cons; [..|constructor].
  - apply described_raw; [well_named_tac|done|done].
  - apply described_sized; [well_named_tac|done|done|done].
  - apply described_raw; [well_named_tac|vm_compute; reflexivity|done].
  - apply described_raw; [well_named_tac|done|done].
  - eapply described_array; [well_named_tac|done|done|done|].
    repeat apply described_item; try apply example_point_distinct; try apply example_point_described; try done. constructor.
  - eapply described_sub; [well_named_tac|done|done|by apply example_point_described|apply example_point_distinct].
  - apply described_sized; [well_named_tac|done|done|done].
Qed.

Lemma example_buffered : buffered 0 (encode_all example_values) 1000 example_start.
Proof.
  eexists. split; [reflexivity|]. split; [closed_decide|]. split; [vm_compute; reflexivity|].
  split; [|split; [lia|vm_compute; reflexivity]]. constructor; [vm_compute; reflexivity|constructor].
Qed.

Lemma buffered_readable (F : Prop) id bytes room st : buffered id bytes room st ->
  readable (t_blocks st) (id ← Some id; t_buffers st !! id) F bytes 0.
Proof.
  intros (vb & Hid & Hvb & Hc & _). left. exists vb, [], []. rewrite app_nil_r. cbn. rewrite Hid.
  split_and!; try done. by apply memory_buffer_ok.
Qed.

Lemma parse_represents {libraries : ConvertLibraries} {validator : IntegerValidator} debug id ds r room st o :
  described_fields ds r -> NoDup (name_of <$> ds) -> t_root st = Structure ds (Some id) 0 o [] -> buffered id (encode_all r) room st ->
  exists st', parse debug [] st = (Ok (width_all r), st') /\ represents id ds r room st' /\ t_buffers st' = t_buffers st /\
    t_blocks st' = t_blocks st.
Proof.
  intros Hd Hnd Hroot Hbytes.
  destruct (parse_root debug ds r st (Some id) id Hd Hnd) as (s & Hparse & Hb & Hl); try (by rewrite Hroot); [by right|by eapply buffered_readable|].
  eexists. split; [done|]. split; [|done]. split; [done|by eexists|]. destruct Hbytes as (vb & ? & ? & ?). by exists vb.
Qed.

Lemma example_represents : represents 0 example_drawing example_values 1000 example_state.
Proof.
  destruct (parse_represents true 0 example_drawing example_values 1000 example_start 0 example_described example_drawing_distinct eq_refl
    example_buffered) as (st' & Hparse & Hrep & _). unfold example_state. by rewrite Hparse.
Qed.

Lemma example_has_buffer : has_buffer 0 [] (t_root example_state).
Proof. apply (rep_buffer _ _ _ _ _ example_represents). Qed.

(** [name], used at [p], is the field [i] of the structure at [q], which has the
    description [d] and the value [v]. *)
Record names_value {libraries : ConvertLibraries} {validator : IntegerValidator} (id : nat) (ds : list struct_description_t)
    (r : list value) (room : Z) (st : tree_state) (p : place) (name : list Z) (q : place) (i : nat) (d : struct_description_t)
    (v : value) : Prop := {
  nv_represents : represents id ds r room st;
  nv_buffer : has_buffer id p (t_root st);
  nv_named : name <> [];
  nv_located : locate ds p name STRUCT_TYPE_END = Ok (q, i);
  nv_description : field_description q i ds = Some d;
  nv_value : field_value q i r = Some v;
}.

Section Named.
Context {libraries : ConvertLibraries} {validator : IntegerValidator}.

Lemma names_value_there id ds r room st p name q i d v : names_value id ds r room st p name q i d v -> is_Some (structure_at q (t_root st)).
Proof. intros [H1 H2 H3 H4 H5 H6]. by destruct (get_field_ok false id ds r room st H1 p name _ q i H2 H3 H4) as (_ & _ & ?). Qed.

(** The name still names the field once its value was replaced. *)
Lemma names_value_replaced id ds r room st p name q i d v v' room' st' : names_value id ds r room st p name q i d v ->
  represents id ds (alter_value (<[i:=v']>) q r) room' st' -> same_buffers (t_root st) (t_root st') ->
  names_value id ds (alter_value (<[i:=v']>) q r) room' st' p name q i d v'.
Proof.
  intros [H1 H2 H3 H4 H5 H6] Hrep Hsb. split; try done; [by eapply same_buffers_has|by eapply field_value_alter].
Qed.
End Named.

(** ** Main theorems *)

(** C8: parsing a structure over the bytes of values that its description can have,
    with distinct names, succeeds, returns the end of the bytes, makes fields that
    represent these values, and changes nothing else. *)
Theorem structure_parse {libraries : ConvertLibraries} {validator : IntegerValidator} debug id ds r room st o :
  described_fields ds r -> NoDup (name_of <$> ds) -> t_root st = Structure ds (Some id) 0 o [] -> buffered id (encode_all r) room st ->
  exists st', parse debug [] st = (Ok (width_all r), st') /\ represents id ds r room st' /\ t_buffers st' = t_buffers st /\
    t_blocks st' = t_blocks st.
Proof. apply parse_represents. Qed.

Lemma structure_parse_witness : exists st', parse true [] example_start = (Ok 28, st') /\
  represents 0 example_drawing example_values 1000 st'.
Proof.
  destruct (structure_parse true 0 example_drawing example_values 1000 example_start 0 example_described example_drawing_distinct
    eq_refl example_buffered) as (st' & Hp & Hr & _). exists st'. split; [rewrite Hp; vm_compute; reflexivity|exact Hr].
Defined.

(** Initialising the buffer of a new structure succeeds; it then represents the
    default values of its description: zeros and empty strings and arrays, over
    which the defaults of the description were written. *)
Theorem structure_init_buffer {libraries : ConvertLibraries} {validator : IntegerValidator} debug copy_capacity insert_capacity
    (laws : VectorLaws copy_capacity insert_capacity) ds s r st room :
  Forall describable ds -> NoDup (name_of <$> ds) -> new_structure ds false = Ok s -> t_root st = s ->
  default_values debug ds (fresh_values ds) = Some r -> width_all r + room < 2 ^ 63 -> 0 <= room ->
  exists st', init_buffer debug copy_capacity insert_capacity [] st = (Ok tt, st') /\
    represents (length (t_buffers st)) ds r room st'.
Proof.
  intros Hdesc Hnd [= <-] Hroot Hdef Hmax Hroom. by apply init_buffer_ok.
Qed.

Lemma structure_init_buffer_witness :
  exists r st', default_values true example_drawing (fresh_values example_drawing) = Some r /\
    init_buffer true example_copy_capacity example_insert_capacity [] (TreeState (Structure example_drawing None 0 0 []) [] ∅) = (Ok tt, st') /\
    represents 0 example_drawing r 1000 st'.
Proof.
  eexists. destruct (structure_init_buffer true _ _ example_vector_laws example_drawing (Structure example_drawing None 0 0 [])
    [Raw [0; 0]; Sized 1 (str: "new"); Raw [0; 0; 0; 0]; Raw [0]; Items 1 []; Sub [Raw [0; 0]; Sized 1 []]; Sized 2 []]
    (TreeState (Structure example_drawing None 0 0 []) [] ∅) 1000 example_drawing_describable example_drawing_distinct eq_refl eq_refl
    ltac:(vm_compute; reflexivity) ltac:(vm_compute; reflexivity) ltac:(lia)) as (st' & H1 & H2).
  exists st'. split; [|split; [exact H1|exact H2]]. vm_compute. reflexivity.
Defined.

(** C9: a field is found by its name as the descriptions alone tell, whatever the
    values and the offsets; the state does not change, the field that is found has
    a description and a value, and the errors are those of the descriptions. *)
Theorem structure_get_field {libraries : ConvertLibraries} {validator : IntegerValidator} debug id ds r room st p dp name t :
  represents id ds r room st -> has_buffer id p (t_root st) -> description_at p ds = Some dp -> dp <> [] -> name <> [] ->
  get_field debug p name t st = (locate ds p name t, st) /\
  forall q i, locate ds p name t = Ok (q, i) -> is_Some (field_description q i ds) /\ is_Some (field_value q i r).
Proof.
  intros Hrep Hp Hdp Hne Hnamed. destruct (locate ds p name t) as [[q i]|e] eqn:Hloc.
  - destruct (get_field_ok debug id ds r room st Hrep p name t q i Hp Hnamed Hloc) as (Hget & [d Hd] & Hthere).
    split; [done|]. intros q' i' [= <- <-]. split; [by eexists|].
    destruct (field_laid_at id ds r room st Hrep q i d Hd Hthere) as (v & _ & _ & _ & _ & Hv & _). by eexists.
  - split; [|done]. by eapply get_field_throws.
Qed.

Lemma structure_get_field_witness :
  get_field true [] (str: "origin.label") STRUCT_TYPE_END example_state = (Ok ([(5%nat, 0%nat)], 1%nat), example_state) /\
  get_field true [] (str: "nothing") STRUCT_TYPE_END example_state = (Throw field_not_found, example_state).
Proof.
  split.
  - destruct (structure_get_field true 0 example_drawing example_values 1000 example_state [] example_drawing (str: "origin.label")
      STRUCT_TYPE_END example_represents example_has_buffer eq_refl ltac:(discriminate) ltac:(discriminate)) as [H _].
    rewrite H. vm_compute. reflexivity.
  - destruct (structure_get_field true 0 example_drawing example_values 1000 example_state [] example_drawing (str: "nothing")
      STRUCT_TYPE_END example_represents example_has_buffer eq_refl ltac:(discriminate) ltac:(discriminate)) as [H _].
    rewrite H. vm_compute. reflexivity.
Defined.

(** C10: the integers of a structure: a field is read as the little-endian bytes of
    its value, as unsigned or in two's complement; a write replaces the value of
    that field only, by the low bytes of the number, in any state of the buffer,
    and what is then read is the number modulo its width; the flags of a bit field
    are the bits at their position. *)
Theorem structure_integers {libraries : ConvertLibraries} {validator : IntegerValidator} debug copy_capacity id ds r room st p name q i d b k :
  names_value id ds r room st p name q i d (Raw b) ->
  (uinteger_bytes (d_type d) = Some k -> get_uinteger debug p name st = (Ok (of_le b), st)) /\
  (integer_bytes (d_type d) = Some k -> get_integer debug p name st = (Ok (signed (8 * Z.of_nat k) (of_le b)), st)) /\
  (writable_uinteger_bytes (d_type d) = Some k -> forall v, exists st', set_uinteger debug copy_capacity p name v st = (Ok tt, st') /\
     represents id ds (alter_value (<[i:=Raw (le k v)]>) q r) room st' /\
     get_uinteger debug p name st' = (Ok (wrap (8 * Z.of_nat k) v), st')) /\
  (integer_bytes (d_type d) = Some k -> forall v, exists st', set_integer debug copy_capacity p name v st = (Ok tt, st') /\
     represents id ds (alter_value (<[i:=Raw (le k v)]>) q r) room st' /\
     get_integer debug p name st' = (Ok (signed (8 * Z.of_nat k) (wrap (8 * Z.of_nat k) v)), st')) /\
  (forall flag_name flag flags, bits_bytes (d_type d) = Some k -> split_flag flag_name = Some (name, flag) -> flags_of d = Ok flags ->
     get_bits debug p flag_name st =
       (match find_key string_ltb (c_str flag) flags with
        | Some flag => Ok (Z.shiftr (Z.land (of_le b) (fd_mask flag)) (fd_pos flag))
        | None => Throw field_not_found
        end, st)).
Proof.
  intros Hname. pose proof (names_value_there _ _ _ _ _ _ _ _ _ _ _ Hname) as Hthere. pose proof Hname as [H1 H2 H3 H4 H5 H6].
  split; [|split; [|split; [|split]]].
  - intros Hk. by apply (get_uinteger_ok debug copy_capacity id ds r room st H1 q i d H5 Hthere b H6 p name H2 H3 H4 k).
  - intros Hk. by apply (get_integer_ok debug copy_capacity id ds r room st H1 q i d H5 Hthere b H6 p name H2 H3 H4 k).
  - intros Hk v. destruct (set_uinteger_ok debug copy_capacity id ds r room st H1 q i d H5 Hthere b H6 p name H2 H3 H4 k v Hk) as (st' & Hset & Hrep & Hroot).
    exists st'. split; [done|]. split; [done|]. destruct (names_value_replaced _ _ _ _ _ _ _ _ _ _ _ _ _ _ Hname Hrep) as [G1 G2 G3 G4 G5 G6]; [by rewrite Hroot|].
    assert (uinteger_bytes (d_type d) = Some k) as Hk' by (unfold writable_uinteger_bytes in Hk; by destruct (d_type d)).
    destruct (get_uinteger_ok debug copy_capacity id ds _ room st' G1 q i d G5 ltac:(by rewrite Hroot) _ G6 p name G2 G3 G4 k Hk') as [_ ->].
    by rewrite of_le_le.
  - intros Hk v. destruct (set_integer_ok debug copy_capacity id ds r room st H1 q i d H5 Hthere b H6 p name H2 H3 H4 k v Hk) as (st' & Hset & Hrep & Hroot).
    exists st'. split; [done|]. split; [done|]. destruct (names_value_replaced _ _ _ _ _ _ _ _ _ _ _ _ _ _ Hname Hrep) as [G1 G2 G3 G4 G5 G6]; [by rewrite Hroot|].
    destruct (get_integer_ok debug copy_capacity id ds _ room st' G1 q i d G5 ltac:(by rewrite Hroot) _ G6 p name G2 G3 G4 k Hk) as [_ ->].
    by rewrite of_le_le.
  - intros flag_name flag flags Hk Hsplit Hflags.
    by apply (get_bits_ok debug copy_capacity id ds r room st H1 q i d H5 Hthere b H6 p name H2 H3 H4 k flag_name flag flags).
Qed.

Lemma example_names p name q i d v : has_buffer 0 p (t_root example_state) -> name <> [] ->
  locate example_drawing p name STRUCT_TYPE_END = Ok (q, i) -> field_description q i example_drawing = Some d ->
  field_value q i example_values = Some v -> names_value 0 example_drawing example_values 1000 example_state p name q i d v.
Proof. intros. split; try done. apply example_represents. Qed.

Lemma structure_integers_witness :
  get_integer true [] (str: "count") example_state = (Ok 7, example_state) /\
  exists st', set_integer true example_copy_capacity [] (str: "count") (-2) example_state = (Ok tt, st') /\
    get_integer true [] (str: "count") st' = (Ok (-2), st').
Proof.
  destruct (structure_integers true example_copy_capacity 0 example_drawing example_values 1000 example_state [] (str: "count") [] 0
    (example_field (str: "count") STRUCT_TYPE_INT16 None None) [7; 0] 2
    (example_names [] (str: "count") [] 0 _ _ example_has_buffer ltac:(discriminate) ltac:(vm_compute; reflexivity) eq_refl eq_refl))
    as (_ & H1 & _ & H2 & _).
  split; [rewrite H1 by reflexivity; vm_compute; reflexivity|].
  destruct (H2 eq_refl (-2)) as (st' & H3 & _ & H4). exists st'. split; [exact H3|]. rewrite H4. vm_compute. reflexivity.
Defined.

(** C11: the strings of a structure: a string with a length reads as its value, and
    a string of a fixed size up to its first NUL character; a string that does not
    fit is refused and nothing changes; otherwise the value of that field becomes
    the string (with zeros up to a fixed size), every other value stays the same,
    wherever its bytes were moved, and the sizes still agree. *)
Theorem structure_strings {libraries : ConvertLibraries} {validator : IntegerValidator} debug copy_capacity insert_capacity
    (laws : VectorLaws copy_capacity insert_capacity) id ds r room st p name q i d v text :
  names_value id ds r room st p name q i d v -> Z.of_nat (length text) < 2 ^ 32 ->
  match v with
  | Sized n b =>
      is_pstring (d_type d) = true ->
      get_string debug p name st = (Ok b, st) /\
      (2 ^ (8 * Z.of_nat n) <= Z.of_nat (length text) ->
       set_string debug copy_capacity insert_capacity p name text st = (Throw out_of_range, st)) /\
      let grown := Z.of_nat (length text) - Z.of_nat (length b) in
      (Z.of_nat (length text) < 2 ^ (8 * Z.of_nat n) -> grown <= room -> - 2 ^ 31 <= grown < 2 ^ 31 ->
       exists st', set_string debug copy_capacity insert_capacity p name text st = (Ok tt, st') /\
         represents id ds (alter_value (<[i:=Sized n text]>) q r) (room - Z.max 0 grown) st' /\
         same_buffers (t_root st) (t_root st'))
  | Raw b =>
      d_type d = STRUCT_TYPE_CHAR ->
      get_string debug p name st = (Ok (c_str b), st) /\
      ((length b < length text)%nat -> set_string debug copy_capacity insert_capacity p name text st = (Throw out_of_range, st)) /\
      ((length text <= length b)%nat ->
       exists st', set_string debug copy_capacity insert_capacity p name text st = (Ok tt, st') /\
         represents id ds (alter_value (<[i:=Raw (text ++ replicate (length b - length text) 0)]>) q r) room st' /\
         t_root st' = t_root st)
  | _ => True
  end.
Proof.
  intros Hname H32. pose proof (names_value_there _ _ _ _ _ _ _ _ _ _ _ Hname) as Hthere. destruct Hname as [H1 H2 H3 H4 H5 H6].
  destruct v as [b|n b| | |]; try done.
  - intros Hc. split; [|split].
    + by apply (get_char_ok debug copy_capacity id ds r room st H1 q i d H5 Hthere b H6 Hc p name H2 H3 H4).
    + by apply (set_char_throws debug copy_capacity insert_capacity id ds r room st H1 q i d H5 Hthere b H6 Hc p name H2 H3 H4).
    + by apply (set_char_ok debug copy_capacity insert_capacity id ds r room st H1 q i d H5 Hthere b H6 Hc p name H2 H3 H4).
  - intros Hs. split; [|split].
    + by apply (get_string_ok debug id ds r room st H1 q i d H5 Hthere n b H6 p name H2 H3 H4).
    + by apply (set_string_throws debug copy_capacity insert_capacity id ds r room st H1 q i d H5 Hthere n b H6 p name H2 H3 H4).
    + by apply (set_string_ok debug copy_capacity insert_capacity id ds r room st H1 q i d H5 Hthere n b H6 p name H2 H3 H4).
Qed.

Lemma structure_strings_witness :
  get_string true [] (str: "title") example_state = (Ok (str: "ab"), example_state) /\
  exists st', set_string true example_copy_capacity example_insert_capacity [] (str: "title") (str: "hello") example_state = (Ok tt, st') /\
    represents 0 example_drawing (<[1%nat:=Sized 1 (str: "hello")]> example_values) 997 st'.
Proof.
  destruct (structure_strings true example_copy_capacity example_insert_capacity example_vector_laws 0 example_drawing example_values 1000
    example_state [] (str: "title") [] 1 (example_field (str: "title") STRUCT_TYPE_P8STRING (Some (str: "new")) None) (Sized 1 (str: "ab"))
    (str: "hello") (example_names [] (str: "title") [] 1 _ _ example_has_buffer ltac:(discriminate) ltac:(vm_compute; reflexivity) eq_refl eq_refl)
    ltac:(vm_compute; reflexivity) eq_refl) as (H1 & _ & H2).
  split; [exact H1|]. destruct H2 as (st' & H3 & H4 & _); [vm_compute; reflexivity|vm_compute; discriminate|split; [vm_compute; discriminate|vm_compute; reflexivity]|].
  exists st'. split; [exact H3|exact H4].
Defined.

(** The buffers of a structure: reading gives the value; a buffer that does not
    fit is refused and nothing changes; otherwise it becomes the value of that
    field only, longer or shorter. *)
Theorem structure_buffers {libraries : ConvertLibraries} {validator : IntegerValidator} debug copy_capacity insert_capacity
    (laws : VectorLaws copy_capacity insert_capacity) id ds r room st p name q i d n b bytes :
  names_value id ds r room st p name q i d (Sized n b) -> is_buffer (d_type d) = true ->
  get_buffer debug p name st = (Ok b, st) /\
  (2 ^ (8 * Z.of_nat n) <= Z.of_nat (length bytes) ->
   set_buffer debug copy_capacity insert_capacity p name bytes st = (Throw out_of_range, st)) /\
  let grown := Z.of_nat (length bytes) - Z.of_nat (length b) in
  (Z.of_nat (length bytes) < 2 ^ (8 * Z.of_nat n) -> grown <= room ->
   exists st', set_buffer debug copy_capacity insert_capacity p name bytes st = (Ok tt, st') /\
     represents id ds (alter_value (<[i:=Sized n bytes]>) q r) (room - Z.max 0 grown) st' /\
     get_buffer debug p name st' = (Ok bytes, st')).
Proof.
  intros Hname Hs. pose proof (names_value_there _ _ _ _ _ _ _ _ _ _ _ Hname) as Hthere. pose proof Hname as [H1 H2 H3 H4 H5 H6].
  split; [|split].
  - by apply (get_buffer_ok debug id ds r room st H1 q i d H5 Hthere n b H6 p name H2 H3 H4).
  - by apply (set_buffer_throws debug copy_capacity insert_capacity id ds r room st H1 q i d H5 Hthere n b H6 p name H2 H3 H4).
  - intros grown Hfit Hroom.
    destruct (set_buffer_ok debug copy_capacity insert_capacity id ds r room st H1 q i d H5 Hthere n b H6 p name H2 H3 H4 bytes Hs Hfit Hroom)
      as (st' & Hset & Hrep & Hsb).
    exists st'. split; [done|]. split; [done|]. pose proof (names_value_replaced _ _ _ _ _ _ _ _ _ _ _ _ _ _ Hname Hrep Hsb) as Hname'.
    pose proof (names_value_there _ _ _ _ _ _ _ _ _ _ _ Hname') as Hthere'. destruct Hname' as [G1 G2 G3 G4 G5 G6].
    by apply (get_buffer_ok debug id ds _ _ st' G1 q i d G5 Hthere' n bytes G6 p name G2 G3 G4).
Qed.

Lemma structure_buffers_witness :
  exists st', set_buffer true example_copy_capacity example_insert_capacity [] (str: "note") [1; 2; 3] example_state = (Ok tt, st') /\
    get_buffer true [] (str: "note") st' = (Ok [1; 2; 3], st').
Proof.
  destruct (structure_buffers true example_copy_capacity example_insert_capacity example_vector_laws 0 example_drawing example_values 1000
    example_state [] (str: "note") [] 6 (example_field (str: "note") STRUCT_TYPE_BUFFER16 None None) 2 [9; 9]
    [1; 2; 3] (example_names [] (str: "note") [] 6 _ _ example_has_buffer ltac:(discriminate) ltac:(vm_compute; reflexivity) eq_refl eq_refl)
    eq_refl) as (_ & _ & H2).
  destruct H2 as (st' & H3 & _ & H4); [vm_compute; reflexivity|vm_compute; discriminate|]. exists st'. split; [exact H3|exact H4].
Defined.

(** C12: in an array that is not full, that another field of its structure follows
    or that is the last field of the root, and the fields of whose items take
    bytes ([solid]: neither VOID nor RENAMED, nor a structure without such
    fields) and are not unions, a new item is added at the end when the buffer has
    room for it: the array has one more item, with the default values of its
    description, which are valid, the other values stay the same, and the place of
    the item is returned; a full array is left alone.  For an array that is the last
    field of a sub-structure, the place of the insertion is wrong. *)
Theorem structure_new_array_item {libraries : ConvertLibraries} {validator : IntegerValidator} debug copy_capacity insert_capacity
    (laws : VectorLaws copy_capacity insert_capacity) id ds r room st p name q i d n l dsub item :
  names_value id ds r room st p name q i d (Items n l) -> d_sub_description d = Some (inl dsub) ->
  Forall describable dsub -> NoDup (name_of <$> dsub) -> dsub <> [] -> Forall solid dsub ->
  default_values debug dsub (fresh_values dsub) = Some item -> end_is_known ds q i p -> width_all item <= room ->
  get_array debug p name st = (Ok ((fun k => q ++ [(i, k)]) <$> seq 0 (length l)), st) /\
  (2 ^ (8 * Z.of_nat n) <= Z.of_nat (length l) + 1 ->
   new_array_item debug copy_capacity insert_capacity p name st = (Throw out_of_range, st)) /\
  (Z.of_nat (length l) + 1 < 2 ^ (8 * Z.of_nat n) ->
   exists st', new_array_item debug copy_capacity insert_capacity p name st = (Ok (q ++ [(i, length l)]), st') /\
     represents id ds (alter_value (<[i:=Items n (l ++ [item])]>) q r) (room - width_all item) st' /\
     same_buffers (t_root st) (t_root st')).
Proof.
  intros Hname Hsub Hdesc Hnd Hne Hsolid Hdef Hend Hroom. pose proof (names_value_there _ _ _ _ _ _ _ _ _ _ _ Hname) as Hthere.
  destruct Hname as [H1 H2 H3 H4 H5 H6]. split; [|split].
  - by apply (get_array_ok debug id ds r room st H1 q i d H5 Hthere n l H6 p name H2 H3 H4).
  - by apply (new_array_item_throws debug copy_capacity insert_capacity id ds r room st H1 q i d H5 Hthere n l H6 p name H2 H3 H4).
  - intros Hcount. by apply (new_array_item_ok debug copy_capacity insert_capacity id ds r room st H1 q i d H5 Hthere n l H6 p name H2 H3 H4 dsub item).
Qed.

Lemma structure_new_array_item_witness :
  exists st', new_array_item true example_copy_capacity example_insert_capacity [] (str: "points") example_state
      = (Ok [(4%nat, 2%nat)], st') /\
    represents 0 example_drawing
      (<[4%nat:=Items 1 [[Raw [1; 0]; Sized 1 (str: "p")]; [Raw [2; 0]; Sized 1 []]; [Raw [1; 2]; Sized 1 (str: "p")]]]> example_values) 996 st'.
Proof.
  destruct (structure_new_array_item true example_copy_capacity example_insert_capacity example_vector_laws 0 example_drawing example_values 1000
    example_state [] (str: "points") [] 4 (example_field (str: "points") STRUCT_TYPE_ARRAY8 None (Some example_point)) 1
    [[Raw [1; 0]; Sized 1 (str: "p")]; [Raw [2; 0]; Sized 1 []]] example_point [Raw [1; 2]; Sized 1 (str: "p")]
    (example_names [] (str: "points") [] 4 _ _ example_has_buffer ltac:(discriminate) ltac:(vm_compute; reflexivity) eq_refl eq_refl)
    eq_refl example_point_describable example_point_distinct ltac:(discriminate) example_point_solid ltac:(vm_compute; reflexivity)
    (or_introl (ex_intro _ _ eq_refl)) ltac:(vm_compute; discriminate)) as (_ & _ & H).
  destruct H as (st' & H1 & H2 & _); [vm_compute; reflexivity|]. exists st'. split; [exact H1|exact H2].
Defined.

(** C13: deleting an item of an array, the fields of whose items take bytes
    ([solid]) and less than 2^31 in all, removes its value, and only that one; an
    index past the end is refused and nothing changes. *)
Theorem structure_delete_array_item {libraries : ConvertLibraries} {validator : IntegerValidator} debug copy_capacity id ds r room st p name q i d n l dsub k :
  names_value id ds r room st p name q i d (Items n l) -> d_sub_description d = Some (inl dsub) -> dsub <> [] -> Forall solid dsub ->
  Z.of_nat k < 2 ^ 31 ->
  match l !! k with
  | None => delete_array_item debug copy_capacity p name (Z.of_nat k) st = (Throw out_of_range, st)
  | Some item =>
      width_all item < 2 ^ 31 ->
      exists st', delete_array_item debug copy_capacity p name (Z.of_nat k) st = (Ok tt, st') /\
        represents id ds (alter_value (<[i:=Items n (list_delete k l)]>) q r) room st' /\ has_buffer id p (t_root st')
  end.
Proof.
  intros Hname Hsub Hne Hsolid Hk31. pose proof (names_value_there _ _ _ _ _ _ _ _ _ _ _ Hname) as Hthere.
  destruct Hname as [H1 H2 H3 H4 H5 H6]. destruct (l !! k) as [item|] eqn:Hk.
  - intros Hint. by apply (delete_array_item_ok debug copy_capacity id ds r room st H1 q i d H5 Hthere n l H6 p name H2 H3 H4 k item dsub).
  - apply (delete_array_item_throws debug copy_capacity id ds r room st H1 q i d H5 Hthere n l H6 p name H2 H3 H4).
    apply lookup_ge_None in Hk. rewrite wrap_small by (unfold uword; lia). lia.
Qed.

Lemma structure_delete_array_item_witness :
  exists st', delete_array_item true example_copy_capacity [] (str: "points") 0 example_state = (Ok tt, st') /\
    represents 0 example_drawing (<[4%nat:=Items 1 [[Raw [2; 0]; Sized 1 []]]]> example_values) 1000 st'.
Proof.
  destruct (structure_delete_array_item true example_copy_capacity 0 example_drawing example_values
    1000 example_state [] (str: "points") [] 4 (example_field (str: "points") STRUCT_TYPE_ARRAY8 None (Some example_point)) 1
    [[Raw [1; 0]; Sized 1 (str: "p")]; [Raw [2; 0]; Sized 1 []]] example_point 0
    (example_names [] (str: "points") [] 4 _ _ example_has_buffer ltac:(discriminate) ltac:(vm_compute; reflexivity) eq_refl eq_refl)
    eq_refl ltac:(discriminate) example_point_solid ltac:(lia) ltac:(vm_compute; reflexivity)) as (st' & H1 & H2 & _).
  exists st'. split; [exact H1|exact H2].
Defined.
