(* ===== verification/JournalFile.v ===== *)
(** * Files and events of a journal (classes journal::file and journal::location
    of prinbee/journal/journal.cpp)

    A file object has its own read and write positions over the content of a
    file; its stream remembers a failure.  The content is what the file holds:
    the buffering of the stream is not modelled, nor the errors of the disk.

    The number of an attachment saved in a file of its own comes from the snapdev
    library: [unique_number] takes the counter saved in counters.seq and returns
    a number and the new counter.  Attachments are given as bytes; those given by
    the name of a file (links, copies) are not modelled.  Times are numbers of
    nanoseconds, as normalized timespec_ex objects. *)

From S2P Require Import Prelude Bytes.

(** ** Status *)

Definition STATUS_UNKNOWN := 0.
Definition STATUS_READY := 1.
Definition STATUS_FORWARDED := 2.
Definition STATUS_ACKNOWLEDGED := 3.
Definition STATUS_COMPLETED := 4.
Definition STATUS_FAILED := 100.

Inductive file_management_t := FILE_MANAGEMENT_KEEP | FILE_MANAGEMENT_TRUNCATE | FILE_MANAGEMENT_DELETE.

(** ** Events given to the journal and read from it *)

Definition MAXIMUM_ATTACHMENT_COUNT : Z := 255.

(** An event with its attachments. *)
Record in_event := InEvent { in_request_id : list Z; in_attachments : list (list Z) }.

(** [in_event::add_attachment()] *)
Definition in_add_attachment (e : in_event) (a : list Z) : result (in_event * Z) :=
  let id := wrap 8 (Z.of_nat (length (in_attachments e))) in
  if decide (id >= MAXIMUM_ATTACHMENT_COUNT) then Throw full
  else Ok (InEvent (in_request_id e) (in_attachments e ++ [a]), id).

(** [in_event::get_attachment()] *)
Definition in_get_attachment (e : in_event) (id : Z) : result (list Z) :=
  match in_attachments e !! Z.to_nat id with
  | Some a => Ok a
  | None => Throw out_of_range
  end.

(** An attachment that was read: its bytes, or the number of the file that holds
    them with its size. *)
Inductive attachment :=
  | Saved (data : list Z)
  | File (identifier size : Z).

Record out_event := OutEvent {
  out_request_id : list Z;
  out_status : Z;
  out_event_time : Z;
  out_attachments : list attachment;
  out_debug : option (Z * Z);  (* file and offset *)
}.

(** [out_event::set_status()] *)
Definition out_set_status (e : out_event) (status : Z) : result out_event :=
  if decide (status ∈ [STATUS_UNKNOWN; STATUS_READY; STATUS_FORWARDED; STATUS_ACKNOWLEDGED; STATUS_COMPLETED; STATUS_FAILED])
  then Ok (OutEvent (out_request_id e) status (out_event_time e) (out_attachments e) (out_debug e))
  else Throw invalid_parameter.

(** [out_event::add_attachment()] *)
Definition out_add_attachment (e : out_event) (a : attachment) : result out_event :=
  if decide (wrap 8 (Z.of_nat (length (out_attachments e))) >= MAXIMUM_ATTACHMENT_COUNT) then Throw full
  else Ok (OutEvent (out_request_id e) (out_status e) (out_event_time e) (out_attachments e ++ [a]) (out_debug e)).

(** ** Files *)

Record file := FileObject {
  f_pos_read : Z;
  f_pos_write : Z;
  f_event_count : Z;
  f_next_append : Z;
  f_fail : bool;
}.

(** A new object. *)
Definition new_file : file := FileObject 0 0 0 0 false.

Definition seekg (f : file) (offset : Z) : file :=
  FileObject offset (f_pos_write f) (f_event_count f) (f_next_append f) (f_fail f).
Definition seekg_cur (f : file) (offset : Z) : file := seekg f (f_pos_read f + offset).
Definition seekp (f : file) (offset : Z) : file :=
  FileObject (f_pos_read f) offset (f_event_count f) (f_next_append f) (f_fail f).
Definition clear (f : file) : file :=
  FileObject (f_pos_read f) (f_pos_write f) (f_event_count f) (f_next_append f) false.
Definition set_event_count (f : file) (n : Z) : file :=
  FileObject (f_pos_read f) (f_pos_write f) n (f_next_append f) (f_fail f).
Definition reset_event_count (f : file) : file := set_event_count f 0.
Definition increase_event_count (f : file) : file := set_event_count f (wrap 32 (f_event_count f + 1)).
Definition decrease_event_count (f : file) : file := set_event_count f (wrap 32 (f_event_count f - 1)).
Definition set_next_append (f : file) (offset : Z) : file :=
  FileObject (f_pos_read f) (f_pos_write f) (f_event_count f) (wrap 32 offset) (f_fail f).

(** [file::write()] on the content [c] *)
Definition write (f : file) (c : list Z) (bs : list Z) : file * list Z :=
  (seekp f (f_pos_write f + Z.of_nat (length bs)),
   if f_fail f then c else overwrite c (f_pos_write f) bs).

(** [file::read()]: [None] when the stream fails, then or before. *)
Definition read (f : file) (c : list Z) (n : Z) : option (list Z) * file :=
  let g := seekg f (f_pos_read f + n) in
  if f_fail f then (None, g)
  else
    match bytes_at c (f_pos_read f) n with
    | Some bs => (Some bs, g)
    | None => (None, FileObject (f_pos_read g) (f_pos_write g) (f_event_count g) (f_next_append g) true)
    end.

(** ** Layout of a journal file *)

Definition sizeof_journal_header : Z := 8.
Definition sizeof_event_header : Z := 32.
Definition sizeof_offset : Z := 4.

Definition journal_header : list Z := (str: "EVTJ") ++ [1; 0; 0; 0].
Definition g_end_marker : list Z := [0; 0].

Record event_header := EventHeader {
  h_magic : list Z;
  h_status : Z;
  h_request_id_size : Z;
  h_size : Z;
  h_sec : Z;
  h_nsec : Z;
  h_attachment_count : Z;
}.

(** The bytes of [event_journal_event_t] *)
Definition encode_header (h : event_header) : list Z :=
  h_magic h ++ [h_status h; h_request_id_size h] ++ le 4 (h_size h) ++ le 8 (h_sec h) ++ le 8 (h_nsec h)
  ++ [h_attachment_count h] ++ replicate 7 0.

Definition decode_header (bs : list Z) : event_header :=
  EventHeader (take 2 bs) (bs !!! 2%nat) (bs !!! 3%nat) (of_le (take 4 (drop 4 bs)))
    (of_le (take 8 (drop 8 bs))) (of_le (take 8 (drop 16 bs))) (bs !!! 24%nat).

Definition event_magic : list Z := (str: "ev").

(** The time of a header, in nanoseconds; both numbers are signed. *)
Definition billion : Z := 1000000000.
Definition header_time (sec nsec : Z) : Z := signed 64 sec * billion + signed 64 nsec.

Definition JOURNAL_IS_EXTERNAL_ATTACHMENT : Z := 2 ^ 31.

(** ** Locations *)

Record location := Location {
  l_file : Z;  (* the file object, by the index of its file *)
  l_request_id : list Z;
  l_event_time : Z;
  l_status : Z;
  l_attachment_count : Z;
  l_offset : Z;
  l_size : Z;
}.

Definition set_status (l : location) (status : Z) : location :=
  Location (l_file l) (l_request_id l) (l_event_time l) status (l_attachment_count l) (l_offset l) (l_size l).
Definition set_offset (l : location) (offset : Z) : location :=
  Location (l_file l) (l_request_id l) (l_event_time l) (l_status l) (l_attachment_count l) offset (l_size l).

(** The attachments saved in files of their own. *)
Abbreviation externals := (gmap Z (list Z)).

(** *** Reading an event *)

(** The offsets of the attachments, four bytes each. *)
Fixpoint decode_offsets (n : nat) (bs : list Z) : list Z :=
  match n with
  | O => []
  | S n => of_le (take 4 bs) :: decode_offsets n (drop 4 bs)
  end.

Definition is_external (offset : Z) : bool := bool_decide (Z.land offset JOURNAL_IS_EXTERNAL_ATTACHMENT <> 0).

(** Where an attachment ends: the next one that is in the file, or the event. *)
Definition attachment_size (size offset : Z) (next : list Z) : Z :=
  match List.find (fun o => negb (is_external o)) next with
  | Some o => wrap 32 (o - offset)
  | None => wrap 32 (size - offset)
  end.

(** The loop of [location::read_data()] over the offsets *)
Fixpoint read_attachments (l : location) (ext : externals) (offsets : list Z) (f : file) (c : list Z) (e : out_event) : result (out_event * file) :=
  match offsets with
  | [] => Ok (e, f)
  | o :: next =>
      if is_external o
      then
        let identifier := Z.land o (JOURNAL_IS_EXTERNAL_ATTACHMENT - 1) in
        match ext !! identifier with
        | None => Throw file_not_found
        | Some data =>
            let! e := out_add_attachment e (File identifier (Z.of_nat (length data))) in
            read_attachments l ext next f c e
        end
      else
        let size := attachment_size (l_size l) o next in
        let '(data, f) := read (seekg f (wrap 32 (l_offset l + o))) c size in
        let! e := out_add_attachment e (Saved (default (replicate (Z.to_nat size) 0) data)) in
        read_attachments l ext next f c e
  end.

(** [location::read_data()]: whether it worked, the event and the file. *)
Definition read_data (l : location) (ext : externals) (f : file) (c : list Z) (e : out_event) (debug : bool) : result (bool * out_event * file) :=
  let e := OutEvent (l_request_id l) (out_status e) (out_event_time e) (out_attachments e) (out_debug e) in
  let! e := out_set_status e (l_status l) in
  let e := OutEvent (out_request_id e) (out_status e) (l_event_time l) (out_attachments e)
             (if debug then Some (l_file l, l_offset l) else out_debug e) in
  let n := l_attachment_count l in
  let '(bs, f) := read (seekg f (l_offset l + sizeof_event_header)) c (n * sizeof_offset) in
  let offsets := match bs with Some bs => decode_offsets (Z.to_nat n) bs | None => replicate (Z.to_nat n) 0 end in
  let! '(e, f) := read_attachments l ext offsets f c e in
  Ok (negb (f_fail f), e, f).

(** *** Writing an event *)

Section WriteEvent.
Context (unique_number : Z -> Z * Z).

(** The first loop of [location::write_new_event()]: the large attachments are
    saved; the result is the offsets, the size of the event, the files and the
    counter. *)
Fixpoint place_attachments (threshold size : Z) (ext : externals) (counter : Z) (attachments : list (list Z)) : list Z * Z * externals * Z :=
  match attachments with
  | [] => ([], size, ext, counter)
  | a :: attachments =>
      if decide (Z.of_nat (length a) >= threshold)
      then
        let '(number, counter) := unique_number counter in
        let identifier := Z.land (wrap 32 number) (JOURNAL_IS_EXTERNAL_ATTACHMENT - 1) in
        let '(offsets, size, ext, counter) := place_attachments threshold size (<[identifier := a]> ext) counter attachments in
        (Z.lor identifier JOURNAL_IS_EXTERNAL_ATTACHMENT :: offsets, size, ext, counter)
      else
        let '(offsets, size', ext, counter) :=
          place_attachments threshold (wrap 32 (size + Z.of_nat (length a))) ext counter attachments in
        (size :: offsets, size', ext, counter)
  end.

(** The loop that writes the small attachments. *)
Fixpoint write_attachments (threshold : Z) (attachments : list (list Z)) (f : file) (c : list Z) : file * list Z :=
  match attachments with
  | [] => (f, c)
  | a :: attachments =>
      let '(f, c) := if decide (Z.of_nat (length a) < threshold) then write f c a else (f, c) in
      write_attachments threshold attachments f c
  end.

(** [location::write_new_event()]; the location has its file and time. *)
Definition write_new_event (threshold : Z) (l : location) (event : in_event) (f : file) (c : list Z) (ext : externals) (counter : Z)
  : bool * location * file * list Z * externals * Z :=
  let '(f, c) :=
    if decide (f_next_append f = 0)
    then
      let '(f, c) := write (seekp f 0) c journal_header in
      (set_next_append f sizeof_journal_header, c)
    else (f, c) in
  let offset := f_next_append f in
  let n := Z.of_nat (length (in_attachments event)) in
  let size := wrap 32 (sizeof_event_header + n * sizeof_offset + Z.of_nat (length (in_request_id event))) in
  let '(offsets, size, ext, counter) := place_attachments threshold size ext counter (in_attachments event) in
  let header := EventHeader event_magic STATUS_READY (wrap 8 (Z.of_nat (length (in_request_id event)))) size
    (wrap 64 (l_event_time l / billion)) (l_event_time l mod billion) (wrap 8 n) in
  let l := Location (l_file l) (in_request_id event) (l_event_time l) STATUS_READY (l_attachment_count l) offset size in
  let '(f, c) := write (seekp f offset) c (encode_header header) in
  let '(f, c) := write f c (concat (le 4 <$> offsets)) in
  let '(f, c) := write f c (in_request_id event) in
  let '(f, c) := write_attachments threshold (in_attachments event) f c in
  if f_fail f then (false, l, f, c, ext, counter)
  else
    let f := increase_event_count (set_next_append f (f_pos_write f)) in
    (true, Location (l_file l) (l_request_id l) (l_event_time l) (l_status l) (wrap 8 n) (l_offset l) (l_size l), f, c, ext, counter).
End WriteEvent.

(** [file::truncate()], which the destructor calls: what is left of the content,
    [None] for a file that is deleted. *)
Definition truncate (management : file_management_t) (f : file) (c : list Z) : option (list Z) :=
  match management with
  | FILE_MANAGEMENT_KEEP =>
      Some (if decide (f_next_append f > 0 /\ Z.of_nat (length c) > f_next_append f)
            then
              let marker := take (Z.to_nat (Z.of_nat (length c) - f_next_append f)) g_end_marker in
              snd (write (seekp f (f_next_append f)) c marker)
            else c)
  | _ =>
      let size := Z.max sizeof_journal_header (f_next_append f) in
      match management with
      | FILE_MANAGEMENT_DELETE =>
          if decide (size = sizeof_journal_header) then None else Some (resize (Z.to_nat size) 0 c)
      | _ => Some (resize (Z.to_nat size) 0 c)
      end
  end.
