(* ===== verification/JournalLayout.v ===== *)
(** * What a journal file holds

    A record is an event as it is laid out in a file; the lemmas say that what
    [write_new_event()] writes is the encoding of a record, and that
    [read_data()] and the decoding of headers give it back. *)

From S2P Require Import Prelude Bytes JournalFile.

(** An attachment in the record, or the number of its own file. *)
Inductive slot :=
  | Inline (data : list Z)
  | External (identifier : Z).

Record record := Rec {
  r_status : Z;
  r_id : list Z;
  r_time : Z;
  r_slots : list slot;
}.

#[export] Instance slot_eq_dec : EqDecision slot.
Proof. solve_decision. Defined.
#[export] Instance record_eq_dec : EqDecision record.
Proof. solve_decision. Defined.

Definition slot_data (s : slot) : list Z := match s with Inline d => d | External _ => [] end.

Definition inline_bytes (slots : list slot) : list Z := concat (slot_data <$> slots).

Fixpoint slot_offsets (size : Z) (slots : list slot) : list Z :=
  match slots with
  | [] => []
  | Inline d :: slots => size :: slot_offsets (size + Z.of_nat (length d)) slots
  | External i :: slots => Z.lor i JOURNAL_IS_EXTERNAL_ATTACHMENT :: slot_offsets size slots
  end.

(** Where the attachments start, and the size of the record. *)
Definition data_offset (r : record) : Z :=
  sizeof_event_header + Z.of_nat (length (r_slots r)) * sizeof_offset + Z.of_nat (length (r_id r)).
Definition record_size (r : record) : Z := data_offset r + Z.of_nat (length (inline_bytes (r_slots r))).

Definition record_header (r : record) : event_header :=
  EventHeader event_magic (r_status r) (Z.of_nat (length (r_id r))) (record_size r)
    (wrap 64 (r_time r / billion)) (r_time r mod billion) (Z.of_nat (length (r_slots r))).

Definition record_offsets (r : record) : list Z := slot_offsets (data_offset r) (r_slots r).

Definition encode_record (r : record) : list Z :=
  encode_header (record_header r) ++ concat (le 4 <$> record_offsets r) ++ r_id r ++ inline_bytes (r_slots r).

Definition slot_wf (s : slot) : Prop := match s with Inline _ => True | External i => 0 <= i < 2 ^ 31 end.

Definition live_status (s : Z) : bool := bool_decide (s = STATUS_READY \/ s = STATUS_FORWARDED \/ s = STATUS_ACKNOWLEDGED).
Definition dead_status (s : Z) : bool := bool_decide (s = STATUS_COMPLETED \/ s = STATUS_FAILED).

Record record_wf (r : record) : Prop := {
  wf_status : live_status (r_status r) = true \/ dead_status (r_status r) = true;
  wf_id : (0 < length (r_id r) < 256)%nat;
  wf_time : - 2 ^ 63 <= r_time r / billion < 2 ^ 63;
  wf_count : (length (r_slots r) < 256)%nat;
  wf_slots : Forall slot_wf (r_slots r);
  wf_size : record_size r < 2 ^ 31;
}.

(** ** Headers *)

Lemma length_encode_header h : length (h_magic h) = 2%nat -> length (encode_header h) = 32%nat.
Proof. intros Hm. unfold encode_header. rewrite !length_app, !length_le, Hm. done. Qed.

Lemma decode_encode_header h : length (h_magic h) = 2%nat -> uword 32 (h_size h) -> uword 64 (h_sec h) -> uword 64 (h_nsec h) ->
  decode_header (encode_header h) = h.
Proof.
  intros Hm Hs Ht Hn. destruct h as [magic status idsize size sec nsec count]. cbn in *.
  destruct magic as [|m0 [|m1 [|]]]; try done. unfold decode_header, encode_header. cbn [h_magic h_status h_request_id_size h_size h_sec h_nsec h_attachment_count].
  pose proof (of_le_le_small 4 size Hs). pose proof (of_le_le_small 8 sec Ht). pose proof (of_le_le_small 8 nsec Hn).
  f_equal; assumption.
Qed.

Lemma header_time_record t : - 2 ^ 63 <= t / billion < 2 ^ 63 -> header_time (wrap 64 (t / billion)) (t mod billion) = t.
Proof.
  intros Ht. unfold header_time. pose proof (Z.mod_pos_bound t billion eq_refl) as Hm. unfold billion in *.
  assert (signed 64 (wrap 64 (t / 1000000000)) = t / 1000000000) as ->.
  { unfold signed, wrap. change (64 - 1) with 63. pose proof (Z.mod_pos_bound (t / 1000000000) (2 ^ 64) ltac:(lia)).
    destruct (decide (0 <= t / 1000000000)).
    - rewrite Z.mod_small by lia. by rewrite decide_True by lia.
    - rewrite <- (Z.mod_add _ 1) by lia. rewrite Z.mod_small by lia. rewrite decide_False by lia. lia. }
  unfold signed. rewrite decide_True by lia. pose proof (Z.div_mod t 1000000000 ltac:(lia)). lia.
Qed.

Lemma record_header_decode r : record_wf r -> decode_header (encode_header (record_header r)) = record_header r.
Proof.
  intros [_ _ _ _ _ Hs]. apply decode_encode_header; [done|..]; cbn; unfold uword.
  - unfold record_size, data_offset, sizeof_event_header, sizeof_offset in *. lia.
  - apply wrap_uword. lia.
  - pose proof (Z.mod_pos_bound (r_time r) billion eq_refl). unfold billion in *. lia.
Qed.

Lemma length_slot_offsets size slots : length (slot_offsets size slots) = length slots.
Proof. revert size. induction slots as [|[d|i] slots IH]; intros size; cbn; auto. Qed.

Lemma length_concat_le (l : list Z) : length (concat (le 4 <$> l)) = (4 * length l)%nat.
Proof. induction l as [|x l IH]; [done|]. cbn [fmap list_fmap concat]. rewrite length_app, IH, length_le. cbn. lia. Qed.

Lemma length_encode_record r : Z.of_nat (length (encode_record r)) = record_size r.
Proof.
  unfold encode_record, record_size, data_offset, sizeof_event_header, sizeof_offset.
  rewrite !length_app, length_concat_le, length_encode_header by done. unfold record_offsets. rewrite length_slot_offsets. lia.
Qed.

(** ** The offsets *)

Lemma decode_offsets_le l : Forall (fun o => uword 32 o) l -> decode_offsets (length l) (concat (le 4 <$> l)) = l.
Proof.
  induction 1 as [|x l Hx Hl IH]; [done|]. cbn [fmap list_fmap concat length decode_offsets].
  rewrite (take_app_length' _ _ 4), (drop_app_length' _ _ 4) by (by rewrite length_le).
  rewrite (of_le_le_small 4 x Hx). by f_equal.
Qed.

Lemma external_bit i : 0 <= i < 2 ^ 31 -> is_external (Z.lor i JOURNAL_IS_EXTERNAL_ATTACHMENT) = true /\
  Z.land (Z.lor i JOURNAL_IS_EXTERNAL_ATTACHMENT) (JOURNAL_IS_EXTERNAL_ATTACHMENT - 1) = i /\
  uword 32 (Z.lor i JOURNAL_IS_EXTERNAL_ATTACHMENT).
Proof.
  intros Hi. assert (Z.lor i JOURNAL_IS_EXTERNAL_ATTACHMENT = 2 ^ 31 + i) as E.
  { rewrite Z.lor_comm. unfold JOURNAL_IS_EXTERNAL_ATTACHMENT. rewrite <- (Z.mul_1_l (2 ^ 31)) at 1. rewrite lor_low_high; lia. }
  split; [|split].
  - apply bool_decide_eq_true. rewrite E. unfold JOURNAL_IS_EXTERNAL_ATTACHMENT in *. intros H. assert (Z.testbit (Z.land (2 ^ 31 + i) (2 ^ 31)) 31 = true) as Hb; [|by rewrite H in Hb].
    rewrite <- E, Z.land_spec, Z.lor_spec. rewrite Z.pow2_bits_true by lia. by rewrite orb_true_r.
  - rewrite E. unfold JOURNAL_IS_EXTERNAL_ATTACHMENT. rewrite land_ones_pow by lia.
    rewrite <- (Z.mul_1_l (2 ^ 31)) at 1. rewrite Z.add_comm, Z.mod_add by lia. apply Z.mod_small. lia.
  - rewrite E. unfold uword. lia.
Qed.

Lemma inline_bit o : 0 <= o < 2 ^ 31 -> is_external o = false.
Proof.
  intros Ho. apply bool_decide_eq_false. intros H. apply H. unfold JOURNAL_IS_EXTERNAL_ATTACHMENT.
  apply Z.bits_inj'. intros n Hn. rewrite Z.land_spec, Z.bits_0. destruct (decide (n = 31)) as [->|].
  - rewrite <- (Z.mod_small o (2 ^ 31)) by lia. by rewrite Z.mod_pow2_bits_high by lia.
  - rewrite Z.pow2_bits_false by lia. apply andb_false_r.
Qed.

Lemma slot_offsets_word size slots : 0 <= size -> size + Z.of_nat (length (inline_bytes slots)) < 2 ^ 31 -> Forall slot_wf slots ->
  Forall (fun o => uword 32 o) (slot_offsets size slots).
Proof.
  revert size. induction slots as [|[d|i] slots IH]; intros size H0 Hs Hw; cbn; [constructor|..];
    apply Forall_cons in Hw as [Hw Hws]; unfold inline_bytes in Hs; cbn [fmap list_fmap concat slot_data app] in Hs;
    fold (inline_bytes slots) in Hs.
  - rewrite length_app in Hs. constructor; [unfold uword; lia|]. apply IH; [lia|lia|done].
  - constructor; [by apply external_bit|]. by apply IH.
Qed.

(** The first offset of an attachment that is in the file. *)
Lemma find_inline size slots : 0 <= size < 2 ^ 31 -> Forall slot_wf slots ->
  match List.find (fun o => negb (is_external o)) (slot_offsets size slots) with
  | Some o => o = size
  | None => inline_bytes slots = []
  end.
Proof.
  intros Hs Hw. induction Hw as [|[d|i] slots Hi Hw IH]; [done|..]; cbn.
  - by rewrite inline_bit.
  - destruct (external_bit i Hi) as [-> _]. cbn. exact IH.
Qed.

(** The size of an attachment is found from the offsets that follow. *)
Lemma attachment_size_slots size o (d : list Z) slots : o + Z.of_nat (length d) + Z.of_nat (length (inline_bytes slots)) = size ->
  0 <= o -> size < 2 ^ 31 -> Forall slot_wf slots ->
  attachment_size size o (slot_offsets (o + Z.of_nat (length d)) slots) = Z.of_nat (length d).
Proof.
  intros Hs Ho Hb Hw. unfold attachment_size.
  pose proof (find_inline (o + Z.of_nat (length d)) slots ltac:(lia) Hw) as Hf.
  destruct (List.find _ _) as [o'|]; [subst o'|rewrite Hf in Hs; cbn in Hs]; rewrite wrap_small; unfold uword; lia.
Qed.

(** ** Reading a record *)

(** Only the positions of a file object changed. *)
Definition same_object (f g : file) : Prop :=
  f_event_count f = f_event_count g /\ f_next_append f = f_next_append g /\ f_fail f = f_fail g.

Lemma same_object_trans f g h : same_object f g -> same_object g h -> same_object f h.
Proof. intros (? & ? & ?) (? & ? & ?). split_and!; congruence. Qed.

(** What is read back for an attachment. *)
Definition slot_attachment (ext : externals) (s : slot) : attachment :=
  match s with
  | Inline d => Saved d
  | External i => File i (Z.of_nat (length (ext !!! i)))
  end.

Definition slot_saved (ext : externals) (s : slot) : Prop :=
  match s with Inline _ => True | External i => is_Some (ext !! i) end.

Definition add_attachments (e : out_event) (l : list attachment) : out_event :=
  OutEvent (out_request_id e) (out_status e) (out_event_time e) (out_attachments e ++ l) (out_debug e).

Lemma out_add_attachment_ok e a : (length (out_attachments e) < 255)%nat -> out_add_attachment e a = Ok (add_attachments e [a]).
Proof.
  intros Hl. unfold out_add_attachment. rewrite wrap_small by (unfold uword; lia).
  by rewrite decide_False by (unfold MAXIMUM_ATTACHMENT_COUNT; lia).
Qed.

Lemma read_there f pre bs post : f_fail f = false -> f_pos_read f = Z.of_nat (length pre) ->
  read f (pre ++ bs ++ post) (Z.of_nat (length bs)) = (Some bs, seekg f (f_pos_read f + Z.of_nat (length bs))).
Proof. intros Hf Hp. unfold read. by rewrite Hf, Hp, bytes_at_split. Qed.

Lemma read_bytes f pre bs post : f_fail f = false -> f_pos_read f = Z.of_nat (length pre) ->
  exists g, read f (pre ++ bs ++ post) (Z.of_nat (length bs)) = (Some bs, g) /\ same_object f g /\
    f_pos_read g = f_pos_read f + Z.of_nat (length bs).
Proof. intros Hf Hp. eexists. rewrite read_there by done. done. Qed.

Section ReadRecord.
Context (l : location) (ext : externals) (post : list Z).

Lemma read_attachments_slots slots o pre f e : f_fail f = false -> Z.of_nat (length pre) = l_offset l + o -> 0 <= o -> 0 <= l_offset l ->
  o + Z.of_nat (length (inline_bytes slots)) = l_size l -> l_size l < 2 ^ 31 -> l_offset l < 2 ^ 31 ->
  Forall slot_wf slots -> Forall (slot_saved ext) slots -> (length (out_attachments e) + length slots <= 255)%nat ->
  exists g, read_attachments l ext (slot_offsets o slots) f (pre ++ inline_bytes slots ++ post) e
      = Ok (add_attachments e (slot_attachment ext <$> slots), g) /\ same_object f g.
Proof.
  revert o pre f e. induction slots as [|s slots IH]; intros o pre f e Hf Hpre Ho Hoff Hsize Hl31 Hoff31 Hw Hsaved Hcount.
  { exists f. split; [|done]. unfold add_attachments. cbn. rewrite app_nil_r. by destruct e. }
  apply Forall_cons in Hw as [Hs Hw]. apply Forall_cons in Hsaved as [Hss Hsaved]. cbn [length] in Hcount.
  assert (forall a, out_add_attachment e a = Ok (add_attachments e [a])) as Hadd by (intros; apply out_add_attachment_ok; lia).
  assert (forall a, add_attachments (add_attachments e [a]) (slot_attachment ext <$> slots) = add_attachments e (a :: (slot_attachment ext <$> slots))) as Happ.
  { intros a. unfold add_attachments. cbn. by rewrite <- app_assoc. }
  unfold inline_bytes in *. destruct s as [d|i]; cbn [slot_offsets fmap list_fmap slot_data concat app read_attachments] in *; fold (inline_bytes slots) in *.
  - rewrite length_app in Hsize. rewrite inline_bit by lia.
    rewrite (attachment_size_slots (l_size l) o d slots) by (lia || done). rewrite <- app_assoc.
    rewrite (wrap_small 32) by (unfold uword; lia).
    destruct (read_bytes (seekg f (l_offset l + o)) pre d (inline_bytes slots ++ post) Hf) as (g & -> & Hg & _); [cbn; lia|].
    rewrite Hadd. cbn [result_bind default from_option id]. rewrite (app_assoc pre d).
    destruct (IH (o + Z.of_nat (length d)) (pre ++ d) g (add_attachments e [Saved d])) as (g' & -> & Hg'); try done; try lia.
    + destruct Hg as (_ & _ & <-). exact Hf.
    + rewrite length_app. lia.
    + unfold add_attachments. cbn. rewrite length_app. cbn. lia.
    + exists g'. split; [by rewrite Happ|]. eapply same_object_trans; [|exact Hg']. exact Hg.
  - destruct (external_bit i Hs) as (-> & -> & _). destruct Hss as [data Hd]. rewrite Hd, Hadd. cbn [result_bind].
    destruct (IH o pre f (add_attachments e [File i (Z.of_nat (length data))])) as (g' & -> & Hg'); try done; try lia.
    + unfold add_attachments. cbn. rewrite length_app. cbn. lia.
    + exists g'. split; [|exact Hg']. rewrite Happ. cbn. by rewrite (lookup_total_correct ext i data Hd).
Qed.
End ReadRecord.

(** The location of a record. *)
Record locates (l : location) (offset : Z) (r : record) : Prop := {
  loc_id : l_request_id l = r_id r;
  loc_time : l_event_time l = r_time r;
  loc_status : l_status l = r_status r;
  loc_count : l_attachment_count l = Z.of_nat (length (r_slots r));
  loc_offset : l_offset l = offset;
  loc_size : l_size l = record_size r;
}.

(** The event that is read for a record; [e] is what the object held before. *)
Definition read_event (ext : externals) (l : location) (debug : bool) (r : record) (e : out_event) : out_event :=
  OutEvent (r_id r) (r_status r) (r_time r) (out_attachments e ++ (slot_attachment ext <$> r_slots r))
    (if debug then Some (l_file l, l_offset l) else out_debug e).

Lemma out_set_status_ok e s : live_status s = true \/ dead_status s = true ->
  out_set_status e s = Ok (OutEvent (out_request_id e) s (out_event_time e) (out_attachments e) (out_debug e)).
Proof.
  intros Hs. unfold out_set_status. rewrite decide_True; [done|]. rewrite !elem_of_cons.
  destruct Hs as [Hs|Hs]; apply bool_decide_eq_true in Hs; intuition.
Qed.

Lemma read_data_record l ext f pre r post e debug : f_fail f = false -> record_wf r -> locates l (Z.of_nat (length pre)) r ->
  Z.of_nat (length pre) < 2 ^ 31 -> Forall (slot_saved ext) (r_slots r) ->
  (length (out_attachments e) + length (r_slots r) <= 255)%nat ->
  exists g, read_data l ext f (pre ++ encode_record r ++ post) e debug = Ok (true, read_event ext l debug r e, g) /\ same_object f g.
Proof.
  intros Hf Hr Hl Hp Hs Hc. destruct Hl as [Hid Htime Hstatus Hcount Hoff Hsize]. pose proof Hr as [Hwst _ _ Hwc Hws Hwz].
  unfold read_data. cbn [out_status out_event_time out_attachments out_debug out_request_id].
  rewrite out_set_status_ok by (by rewrite Hstatus). cbn [result_bind out_request_id out_attachments out_debug out_status].
  unfold encode_record. set (H := encode_header (record_header r)). set (O := concat (le 4 <$> record_offsets r)).
  assert (length H = 32%nat) as HlH by (by apply length_encode_header).
  assert (Z.of_nat (length O) = l_attachment_count l * sizeof_offset) as HlO.
  { subst O. rewrite length_concat_le. unfold record_offsets, sizeof_offset. rewrite length_slot_offsets. lia. }
  rewrite <- !app_assoc, (app_assoc pre H). rewrite <- HlO.
  destruct (read_bytes (seekg f (l_offset l + sizeof_event_header)) (pre ++ H) O (r_id r ++ inline_bytes (r_slots r) ++ post)) as (g & -> & Hg & _);
    [exact Hf|cbn [f_pos_read seekg]; rewrite length_app, Hoff, HlH; unfold sizeof_event_header; lia|].
  assert (decode_offsets (Z.to_nat (l_attachment_count l)) O = record_offsets r) as ->.
  { subst O. rewrite Hcount, Nat2Z.id. rewrite <- (length_slot_offsets (data_offset r) (r_slots r)). apply decode_offsets_le.
    apply slot_offsets_word; [|unfold record_size in Hwz; lia|done]. unfold data_offset, sizeof_event_header, sizeof_offset. lia. }
  assert (0 <= data_offset r) by (unfold data_offset, sizeof_event_header, sizeof_offset; lia).
  pose proof (eq_refl : record_size r = data_offset r + Z.of_nat (length (inline_bytes (r_slots r)))) as Hrs.
  rewrite (app_assoc (pre ++ H)), (app_assoc ((pre ++ H) ++ O)).
  match goal with |- context [read_attachments _ _ _ _ _ ?e'] =>
    destruct (read_attachments_slots l ext post (r_slots r) (data_offset r) (((pre ++ H) ++ O) ++ r_id r) g e') as (g' & Hread & Hg') end;
    try done; try lia.
  - destruct Hg as (_ & _ & <-). exact Hf.
  - rewrite !length_app, HlH, Hoff. unfold data_offset, sizeof_event_header. rewrite Hcount in HlO. unfold sizeof_offset in *. lia.
  - unfold record_offsets. rewrite Hread. cbn [result_bind]. destruct Hg as (Hg1 & Hg2 & Hg3), Hg' as (Hg4 & Hg5 & Hg6). cbn in Hg1, Hg2, Hg3.
    assert (f_fail g' = false) as -> by congruence. exists g'. split; [|split_and!; congruence].
    unfold add_attachments, read_event. cbn. by rewrite Hid, Hstatus, Htime.
Qed.

(** ** Writing a record *)

(** What the code relies on: the numbers of the attachments are the successive
    values of a counter. *)
Class UniqueNumber (unique_number : Z -> Z * Z) : Type := {
  first_number : Z;
  first_number_range : 0 <= first_number <= 1;
  unique_number_next c : unique_number c = (c + first_number, c + 1);
}.

Lemma write_write f c x y : f_fail f = false -> 0 <= f_pos_write f <= Z.of_nat (length c) ->
  write (write f c x).1 (write f c x).2 y = write f c (x ++ y).
Proof.
  intros Hf Hp. unfold write. cbn [fst snd seekp f_fail f_pos_write]. rewrite Hf. rewrite overwrite_app by lia.
  rewrite length_app, Nat2Z.inj_add. unfold seekp. cbn. by rewrite Z.add_assoc.
Qed.

Lemma write_position f c x : f_fail f = false -> 0 <= f_pos_write f <= Z.of_nat (length c) ->
  f_fail (write f c x).1 = false /\ 0 <= f_pos_write (write f c x).1 <= Z.of_nat (length (write f c x).2).
Proof.
  intros Hf Hp. unfold write. cbn. rewrite Hf. split; [done|]. rewrite length_overwrite by lia. lia.
Qed.

(** Three writes in a row. *)
Lemma write_three {A} f c x y z (k : file -> list Z -> A) : f_fail f = false -> 0 <= f_pos_write f <= Z.of_nat (length c) ->
  (let '(f, c) := write f c x in let '(f, c) := write f c y in let '(f, c) := write f c z in k f c)
  = k (write f c (x ++ y ++ z)).1 (write f c (x ++ y ++ z)).2.
Proof.
  intros Hf Hp. destruct (write_position f c x Hf Hp) as [Hf1 Hp1]. rewrite <- (write_write f c x (y ++ z) Hf Hp).
  destruct (write f c x) as [f1 c1]. cbn [fst snd] in *. rewrite <- (write_write f1 c1 y z Hf1 Hp1).
  destruct (write f1 c1 y) as [f2 c2]. cbn [fst snd]. by destruct (write f2 c2 z).
Qed.

(** The slot an attachment is placed in. *)
Definition placed (threshold : Z) (ext : externals) (a : list Z) (s : slot) : Prop :=
  match s with
  | Inline d => d = a /\ Z.of_nat (length a) < threshold
  | External i => ext !! i = Some a /\ threshold <= Z.of_nat (length a) /\ 0 <= i < 2 ^ 31
  end.

Lemma write_attachments_slots threshold ext atts slots f c : Forall2 (placed threshold ext) atts slots ->
  f_fail f = false -> 0 <= f_pos_write f <= Z.of_nat (length c) ->
  write_attachments threshold atts f c = write f c (inline_bytes slots).
Proof.
  intros Hp. revert f c. induction Hp as [|a s atts slots Ha Hp IH]; intros f c Hf Hpos.
  - unfold write. cbn. rewrite Hf, Z.add_0_r. by destruct f.
  - cbn [write_attachments]. unfold inline_bytes. cbn [fmap list_fmap concat]. fold (inline_bytes slots).
    destruct s as [d|i]; cbn [slot_data].
    + destruct Ha as [-> Ha]. rewrite decide_True by done. destruct (write_position f c a Hf Hpos) as [Hf1 Hpos1].
      rewrite <- (write_write f c a) by done. rewrite <- IH by done. by destruct (write f c a).
    + destruct Ha as (_ & Ha & _). rewrite decide_False by lia. by apply IH.
Qed.

Section WriteRecord.
Context (unique_number : Z -> Z * Z) {unique : UniqueNumber unique_number}.

(** The numbers already given are below the next one. *)
Definition numbers_below (ext : externals) (counter : Z) : Prop :=
  0 <= counter /\ forall i, is_Some (ext !! i) -> 0 <= i < counter + first_number.

Lemma placed_mono threshold ext ext' a s : ext ⊆ ext' -> placed threshold ext a s -> placed threshold ext' a s.
Proof. intros Hs. destruct s as [d|i]; [done|]. intros (Hi & ? & ?). split_and!; [by eapply lookup_weaken|lia..]. Qed.

Lemma place_attachments_slots threshold size ext counter atts : 0 <= size -> numbers_below ext counter ->
  counter + first_number + Z.of_nat (length atts) <= 2 ^ 31 ->
  size + Z.of_nat (length (concat (filter (fun a => Z.of_nat (length a) < threshold) atts))) < 2 ^ 32 ->
  exists slots ext' counter',
    place_attachments unique_number threshold size ext counter atts
      = (slot_offsets size slots, size + Z.of_nat (length (inline_bytes slots)), ext', counter') /\
    Forall2 (placed threshold ext') atts slots /\ ext ⊆ ext' /\ numbers_below ext' counter' /\
    counter <= counter' <= counter + Z.of_nat (length atts) /\
    inline_bytes slots = concat (filter (fun a => Z.of_nat (length a) < threshold) atts).
Proof.
  revert size ext counter. induction atts as [|a atts IH]; intros size ext counter H0 Hn Hc Hs.
  { exists [], ext, counter. split_and!; try done; [|lia..]. cbn. by rewrite Z.add_0_r. }
  cbn [place_attachments length] in *. rewrite filter_cons in Hs |- *. destruct (decide (Z.of_nat (length a) >= threshold)) as [Ht|Ht].
  - rewrite decide_False in Hs |- * by lia. rewrite unique_number_next. destruct Hn as [Hn0 Hn]. pose proof first_number_range.
    assert (Z.land (wrap 32 (counter + first_number)) (JOURNAL_IS_EXTERNAL_ATTACHMENT - 1) = counter + first_number) as ->.
    { rewrite wrap_small by (unfold uword; lia). unfold JOURNAL_IS_EXTERNAL_ATTACHMENT. rewrite land_ones_pow by lia. apply Z.mod_small. lia. }
    assert (ext !! (counter + first_number) = None) as Hfresh.
    { destruct (ext !! _) eqn:E; [|done]. destruct (Hn (counter + first_number)) as [_ Hlt]; [by eexists|]. lia. }
    destruct (IH size (<[counter + first_number := a]> ext) (counter + 1)) as (slots & ext' & counter' & -> & Hp & Hsub & Hn' & Hc' & Hi); [done| |lia|done|].
    { split; [lia|]. intros i Hi. destruct (decide (i = counter + first_number)) as [->|]; [lia|].
      rewrite lookup_insert_ne in Hi by done. apply Hn in Hi. lia. }
    exists (External (counter + first_number) :: slots), ext', counter'. split_and!; try done; try lia.
    + constructor; [|done]. split_and!; [|lia|lia|lia]. eapply lookup_weaken; [|exact Hsub]. apply lookup_insert_eq.
    + etrans; [|exact Hsub]. by apply insert_subseteq.
  - rewrite decide_True in Hs |- * by lia. cbn [concat] in Hs. rewrite length_app in Hs. rewrite wrap_small by (unfold uword; lia).
    destruct (IH (size + Z.of_nat (length a)) ext counter) as (slots & ext' & counter' & -> & Hp & Hsub & Hn' & Hc' & Hi); [lia|done|lia|lia|].
    exists (Inline a :: slots), ext', counter'. unfold inline_bytes in *. cbn [fmap list_fmap concat slot_data slot_offsets].
    split_and!; try done; try lia.
    + rewrite length_app. f_equal. f_equal. f_equal. lia.
    + constructor; [|done]. split; [done|lia].
    + by rewrite Hi.
Qed.

(** The size of the event in its file. *)
Definition event_total (threshold : Z) (e : in_event) : Z :=
  sizeof_event_header + Z.of_nat (length (in_attachments e)) * sizeof_offset + Z.of_nat (length (in_request_id e))
  + Z.of_nat (length (concat (filter (fun a => Z.of_nat (length a) < threshold) (in_attachments e)))).

(** The file is empty, or its records end at the next append. *)
Definition append_point (f : file) (c pre stale : list Z) : Prop :=
  f_next_append f = 0 /\ pre = journal_header /\ stale = drop 8 c \/
  f_next_append f = Z.of_nat (length pre) /\ (8 <= length pre)%nat /\ c = pre ++ stale.

Lemma start_append (f : file) c pre stale : f_fail f = false -> append_point f c pre stale ->
  exists g, (if decide (f_next_append f = 0)
             then let '(f, c) := write (seekp f 0) c journal_header in (set_next_append f sizeof_journal_header, c)
             else (f, c)) = (g, pre ++ stale) /\
    f_next_append g = Z.of_nat (length pre) /\ f_fail g = false /\ f_event_count g = f_event_count f.
Proof.
  intros Hf [(Hn & -> & ->)|(Hn & Hl & ->)].
  - rewrite decide_True by done. unfold write. cbn [f_fail seekp f_pos_write]. rewrite Hf.
    pose proof (overwrite_over [] c journal_header) as Ho. cbn [app length] in Ho. change (Z.of_nat 0) with 0 in Ho. rewrite Ho.
    eexists. split; [reflexivity|]. done.
  - rewrite decide_False by lia. by exists f.
Qed.

(** The new record. *)
Definition new_record (e : in_event) (time : Z) (slots : list slot) : record := Rec STATUS_READY (in_request_id e) time slots.

Lemma write_record f c pre stale r : f_fail f = false -> c = pre ++ stale -> f_next_append f = Z.of_nat (length pre) ->
  write (seekp f (Z.of_nat (length pre))) c (encode_record r)
  = (seekp f (Z.of_nat (length pre) + record_size r), pre ++ encode_record r ++ drop (length (encode_record r)) stale).
Proof.
  intros Hf -> Hn. unfold write. cbn [f_fail seekp f_pos_write]. rewrite Hf, overwrite_over, length_encode_record. done.
Qed.

Lemma writes_record threshold ext f c pre stale r atts : f_fail f = false -> c = pre ++ stale -> f_next_append f = Z.of_nat (length pre) ->
  Forall2 (placed threshold ext) atts (r_slots r) ->
  (let '(f, c) := write (seekp f (Z.of_nat (length pre))) c (encode_header (record_header r)) in
   let '(f, c) := write f c (concat (le 4 <$> record_offsets r)) in
   let '(f, c) := write f c (r_id r) in
   write_attachments threshold atts f c)
  = (seekp f (Z.of_nat (length pre) + record_size r), pre ++ encode_record r ++ drop (length (encode_record r)) stale).
Proof.
  intros Hf Hc Hn Hp. rewrite <- (write_record f c pre stale r Hf Hc Hn). unfold encode_record.
  set (H := encode_header _). set (O := concat _). set (f0 := seekp f _).
  assert (f_fail f0 = false /\ 0 <= f_pos_write f0 <= Z.of_nat (length c)) as [Hf0 Hp0] by (subst c; cbn; rewrite length_app; split; [done|lia]).
  rewrite (write_three f0 c H O (r_id r) (write_attachments threshold atts) Hf0 Hp0).
  destruct (write_position f0 c (H ++ O ++ r_id r) Hf0 Hp0) as [Hf1 Hp1].
  rewrite (write_attachments_slots threshold ext atts (r_slots r)) by done.
  rewrite (write_write f0 c _ _ Hf0 Hp0), <- !app_assoc. done.
Qed.

Lemma write_new_event_record threshold l event f c ext counter pre stale : f_fail f = false -> append_point f c pre stale ->
  (length (in_request_id event) < 256)%nat -> (length (in_attachments event) < 256)%nat ->
  Z.of_nat (length pre) + event_total threshold event < 2 ^ 31 -> numbers_below ext counter ->
  counter + first_number + Z.of_nat (length (in_attachments event)) <= 2 ^ 31 ->
  exists slots l' f' ext' counter',
    let r := new_record event (l_event_time l) slots in
    write_new_event unique_number threshold l event f c ext counter
      = (true, l', f', pre ++ encode_record r ++ drop (length (encode_record r)) stale, ext', counter') /\
    Forall2 (placed threshold ext') (in_attachments event) slots /\ record_size r = event_total threshold event /\
    locates l' (Z.of_nat (length pre)) r /\ l_file l' = l_file l /\
    f_fail f' = false /\ f_next_append f' = Z.of_nat (length pre) + record_size r /\
    f_event_count f' = wrap 32 (f_event_count f + 1) /\
    ext ⊆ ext' /\ numbers_below ext' counter' /\ counter <= counter' <= counter + Z.of_nat (length (in_attachments event)).
Proof.
  intros Hf Hap Hid Hcount Hsize Hn Hc. unfold write_new_event.
  destruct (start_append f c pre stale Hf Hap) as (g & -> & Hna & Hfg & Hecg).
  set (n := Z.of_nat (length (in_attachments event))) in *. set (atts := in_attachments event) in *.
  set (base := sizeof_event_header + n * sizeof_offset + Z.of_nat (length (in_request_id event))).
  assert (event_total threshold event = base + Z.of_nat (length (concat (filter (fun a => Z.of_nat (length a) < threshold) atts)))) as Htot by done.
  assert (0 <= base) by (unfold base, sizeof_event_header, sizeof_offset; lia).
  rewrite (wrap_small 32 base) by (unfold uword; lia).
  destruct (place_attachments_slots threshold base ext counter atts) as (slots & ext' & counter' & -> & Hp & Hsub & Hn' & Hc' & Hi);
    [done|done|done|lia|].
  pose proof (Forall2_length _ _ _ Hp) as Hlen.
  assert (record_size (new_record event (l_event_time l) slots) = base + Z.of_nat (length (inline_bytes slots))) as Hrs.
  { unfold record_size, data_offset. cbn [new_record r_id r_slots]. rewrite <- Hlen. done. }
  assert (EventHeader event_magic STATUS_READY (wrap 8 (Z.of_nat (length (in_request_id event)))) (base + Z.of_nat (length (inline_bytes slots)))
      (wrap 64 (l_event_time l / billion)) (l_event_time l mod billion) (wrap 8 n) = record_header (new_record event (l_event_time l) slots)) as ->.
  { unfold record_header. rewrite Hrs. cbn [new_record r_id r_slots r_time r_status]. rewrite <- Hlen.
    rewrite (wrap_small 8 (Z.of_nat _)), (wrap_small 8 n) by (unfold uword; lia). done. }
  assert (slot_offsets base slots = record_offsets (new_record event (l_event_time l) slots)) as ->.
  { unfold record_offsets, data_offset. cbn [new_record r_id r_slots]. by rewrite <- Hlen. }
  rewrite Hna. pose proof (writes_record threshold ext' g (pre ++ stale) pre stale (new_record event (l_event_time l) slots) atts Hfg eq_refl Hna Hp) as Hw.
  cbn [new_record r_id] in Hw.
  exists slots. set (r := new_record event (l_event_time l) slots) in *.
  destruct (write (seekp g _) _ _) as [f1 c1]. destruct (write f1 c1 _) as [f2 c2]. destruct (write f2 c2 _) as [f3 c3].
  rewrite Hw. cbn [seekp f_fail]. rewrite Hfg. eexists _, _, ext', counter'. split; [reflexivity|].
  split_and!; try done; try lia.
  - by rewrite Hrs, Htot, Hi.
  - split; cbn; [done..| |done|by rewrite Hrs]. rewrite wrap_small by (unfold uword; lia). unfold n. by rewrite <- Hlen.
  - cbn. rewrite wrap_small by (unfold uword; rewrite Hrs, Hi; lia). done.
  - cbn. by rewrite Hecg.
Qed.
End WriteRecord.
