(* ===== verification/Journal.v ===== *)
(** * The journal (class journal of prinbee/journal/journal.cpp)

    The state is the directory of the journal, its settings and the index in
    memory.  The two maps of the index share their location objects, so they hold
    pointers into a heap; a file object lives as long as a location refers to it
    (the journal itself keeps weak pointers) and its destructor truncates or marks
    the file: [release] runs it on the objects that nothing refers to any longer.

    An iterator of a map is the key of its entry, [None] for end(); moving one
    whose entry was erased is undefined.  The check that a time is in the future
    reads the clock in the snapdev library: it is the parameter
    [is_in_the_future]. *)

From S2P Require Import Prelude Bytes SortedMap JournalFile.

(** ** State *)

Definition JOURNAL_MINIMUM_NUMBER_OF_FILES : Z := 2.
Definition JOURNAL_MAXIMUM_NUMBER_OF_FILES : Z := 255.
Definition JOURNAL_MINIMUM_FILE_SIZE : Z := 64 * 1024.
Definition JOURNAL_MAXIMUM_FILE_SIZE : Z := 128 * 1024 * 1024.
Definition JOURNAL_MINIMUM_EVENTS : Z := 100.
Definition JOURNAL_MAXIMUM_EVENTS : Z := 100000.
Definition JOURNAL_INLINE_ATTACHMENT_SIZE_MINIMUM_THRESHOLD : Z := 256.
Definition JOURNAL_INLINE_ATTACHMENT_SIZE_MAXIMUM_THRESHOLD : Z := 16 * 1024.

Record config := Config {
  f_maximum_number_of_files : Z;
  f_maximum_file_size : Z;
  f_maximum_events : Z;
  f_inline_attachment_size_threshold : Z;
  f_file_management : file_management_t;
  f_compress_when_full : bool;
}.

Definition default_config : config := Config 2 (1024 * 1024) 4096 (4 * 1024) FILE_MANAGEMENT_KEEP false.

(** The directory: the journal files by index, the attachments saved in files of
    their own, and the counter of counters.seq. *)
Record directory := Directory {
  d_files : gmap Z (list Z);
  d_externals : externals;
  d_counter : Z;
}.

Record journal := Journal {
  j_config : config;
  j_dir : directory;
  f_event_files : gmap Z file;
  j_heap : gmap nat location;
  j_next : nat;
  f_event_locations : smap (list Z) nat;
  f_timebased_replay : smap Z nat;
  f_event_locations_iterator : option (list Z);
  f_timebased_replay_iterator : option Z;
  f_can_be_compressed : bool;
  f_current_file_index : Z;
}.

Definition with_config (v : config) (j : journal) : journal :=
  Journal v (j_dir j) (f_event_files j) (j_heap j) (j_next j) (f_event_locations j) (f_timebased_replay j)
    (f_event_locations_iterator j) (f_timebased_replay_iterator j) (f_can_be_compressed j) (f_current_file_index j).
Definition with_dir (v : directory) (j : journal) : journal :=
  Journal (j_config j) v (f_event_files j) (j_heap j) (j_next j) (f_event_locations j) (f_timebased_replay j)
    (f_event_locations_iterator j) (f_timebased_replay_iterator j) (f_can_be_compressed j) (f_current_file_index j).
Definition with_event_files (v : gmap Z file) (j : journal) : journal :=
  Journal (j_config j) (j_dir j) v (j_heap j) (j_next j) (f_event_locations j) (f_timebased_replay j)
    (f_event_locations_iterator j) (f_timebased_replay_iterator j) (f_can_be_compressed j) (f_current_file_index j).
Definition with_index (heap : gmap nat location) (next : nat) (locations : smap (list Z) nat) (replay : smap Z nat) (j : journal) : journal :=
  Journal (j_config j) (j_dir j) (f_event_files j) heap next locations replay
    (f_event_locations_iterator j) (f_timebased_replay_iterator j) (f_can_be_compressed j) (f_current_file_index j).
Definition with_iterators (by_id : option (list Z)) (by_time : option Z) (j : journal) : journal :=
  Journal (j_config j) (j_dir j) (f_event_files j) (j_heap j) (j_next j) (f_event_locations j) (f_timebased_replay j)
    by_id by_time (f_can_be_compressed j) (f_current_file_index j).
Definition with_can_be_compressed (v : bool) (j : journal) : journal :=
  Journal (j_config j) (j_dir j) (f_event_files j) (j_heap j) (j_next j) (f_event_locations j) (f_timebased_replay j)
    (f_event_locations_iterator j) (f_timebased_replay_iterator j) v (f_current_file_index j).
Definition with_current_file_index (v : Z) (j : journal) : journal :=
  Journal (j_config j) (j_dir j) (f_event_files j) (j_heap j) (j_next j) (f_event_locations j) (f_timebased_replay j)
    (f_event_locations_iterator j) (f_timebased_replay_iterator j) (f_can_be_compressed j) v.

(** ** Files *)

Definition content (j : journal) (index : Z) : list Z := default [] (d_files (j_dir j) !! index).
Definition file_object (j : journal) (index : Z) : file := default new_file (f_event_files j !! index).

Definition with_content (index : Z) (c : list Z) (j : journal) : journal :=
  with_dir (Directory (<[index := c]> (d_files (j_dir j))) (d_externals (j_dir j)) (d_counter (j_dir j))) j.
Definition with_file (index : Z) (f : file) (j : journal) : journal := with_event_files (<[index := f]> (f_event_files j)) j.

(** [journal::get_event_file()]: whether there is a file object. *)
Definition get_event_file (index : Z) (create : bool) (j : journal) : result (bool * journal) :=
  if decide (index >= f_maximum_number_of_files (j_config j)) then Throw invalid_parameter
  else
    match f_event_files j !! index with
    | Some _ => Ok (true, j)
    | None =>
        match d_files (j_dir j) !! index with
        | Some _ => Ok (true, with_file index new_file j)
        | None => if create then Ok (true, with_file index new_file (with_content index [] j)) else Ok (false, j)
        end
    end.

(** Whether a location of an index refers to the object of a file. *)
Definition refers (j : journal) (index : Z) {K} (m : smap K nat) : bool :=
  List.existsb (fun e => match j_heap j !! snd e with Some l => l_file l =? index | None => false end) m.
Definition in_use (j : journal) (index : Z) : bool := refers j index (f_event_locations j) || refers j index (f_timebased_replay j).

(** The destructor of the object of a file. *)
Definition close_file (index : Z) (j : journal) : journal :=
  match f_event_files j !! index with
  | None => j
  | Some f =>
      let files :=
        match truncate (f_file_management (j_config j)) f (content j index) with
        | Some c => <[index := c]> (d_files (j_dir j))
        | None => delete index (d_files (j_dir j))
        end in
      with_event_files (delete index (f_event_files j))
        (with_dir (Directory files (d_externals (j_dir j)) (d_counter (j_dir j))) j)
  end.

(** The objects that no location refers to are destroyed, but the one a local
    variable of the caller holds. *)
Definition release (held : option Z) (j : journal) : journal :=
  foldr (fun index j => if bool_decide (held = Some index) || in_use j index then j else close_file index j)
    j (elements (dom (f_event_files j))).

(** ** Settings *)

Definition clamp (lo hi v : Z) : Z := if v <? lo then lo else if hi <? v then hi else v.

Definition set_maximum_file_size (v : Z) (j : journal) : journal :=
  let c := j_config j in
  with_config (Config (f_maximum_number_of_files c) (clamp JOURNAL_MINIMUM_FILE_SIZE JOURNAL_MAXIMUM_FILE_SIZE v)
    (f_maximum_events c) (f_inline_attachment_size_threshold c) (f_file_management c) (f_compress_when_full c)) j.

Definition set_maximum_events (v : Z) (j : journal) : journal :=
  let c := j_config j in
  with_config (Config (f_maximum_number_of_files c) (f_maximum_file_size c)
    (clamp JOURNAL_MINIMUM_EVENTS JOURNAL_MAXIMUM_EVENTS v) (f_inline_attachment_size_threshold c) (f_file_management c) (f_compress_when_full c)) j.

Definition set_inline_attachment_size_threshold (v : Z) (j : journal) : journal :=
  let c := j_config j in
  with_config (Config (f_maximum_number_of_files c) (f_maximum_file_size c) (f_maximum_events c)
    (clamp JOURNAL_INLINE_ATTACHMENT_SIZE_MINIMUM_THRESHOLD JOURNAL_INLINE_ATTACHMENT_SIZE_MAXIMUM_THRESHOLD v)
    (f_file_management c) (f_compress_when_full c)) j.

Definition set_file_management (v : file_management_t) (j : journal) : journal :=
  let c := j_config j in
  with_config (Config (f_maximum_number_of_files c) (f_maximum_file_size c) (f_maximum_events c)
    (f_inline_attachment_size_threshold c) v (f_compress_when_full c)) j.

Definition set_compress_when_full (v : bool) (j : journal) : journal :=
  let c := j_config j in
  with_config (Config (f_maximum_number_of_files c) (f_maximum_file_size c) (f_maximum_events c)
    (f_inline_attachment_size_threshold c) (f_file_management c) v) j.

(** The loop of [journal::set_maximum_number_of_files()] that looks for events in
    the files to be dropped, and what an exception leaves. *)
Fixpoint check_files_unused (n : nat) (index : Z) (j : journal) : journal * option error :=
  match n with
  | O => (j, None)
  | S n =>
      match get_event_file index false j with
      | Throw e => (j, Some e)
      | Ok (false, j) => check_files_unused n (index + 1) j
      | Ok (true, j) =>
          if refers j index (f_event_locations j) then (release None j, Some file_still_in_use)
          else check_files_unused n (index + 1) (release None j)
      end
  end.

Definition set_maximum_number_of_files (v : Z) (j : journal) : journal * option error :=
  if decide (v < JOURNAL_MINIMUM_NUMBER_OF_FILES \/ v > JOURNAL_MAXIMUM_NUMBER_OF_FILES) then (j, Some out_of_range)
  else
    let c := j_config j in
    match check_files_unused (Z.to_nat (f_maximum_number_of_files c - v)) v j with
    | (j, Some e) => (j, Some e)
    | (j, None) =>
        (with_config (Config v (f_maximum_file_size c) (f_maximum_events c) (f_inline_attachment_size_threshold c)
           (f_file_management c) (f_compress_when_full c)) j, None)
    end.

(** ** The index *)

(** A location of the index, and the object it points to. *)
Definition find_location (j : journal) (id : list Z) : option (nat * location) :=
  p ← find_key string_ltb id (f_event_locations j); l ← j_heap j !! p; Some (p, l).

(** A new location object, saved in both maps. *)
Definition insert_location (l : location) (j : journal) : journal :=
  let p := j_next j in
  with_index (<[p := l]> (j_heap j)) (S p)
    (put string_ltb (l_request_id l) p (f_event_locations j)) (put Z.ltb (l_event_time l) p (f_timebased_replay j)) j.

Definition update_location (p : nat) (l : location) (j : journal) : journal :=
  with_index (<[p := l]> (j_heap j)) (j_next j) (f_event_locations j) (f_timebased_replay j) j.

(** [journal::empty()], [size()] and [rewind()] *)
Definition is_empty (j : journal) : bool := match f_event_locations j with [] => true | _ => false end.
Definition size (j : journal) : Z := Z.of_nat (length (f_event_locations j)).
Definition rewind (j : journal) : journal := with_iterators (begin (f_event_locations j)) (begin (f_timebased_replay j)) j.

(** [++it] on a map: the element it was at and the new iterator. *)
Definition advance {K} (ltb : K -> K -> bool) (it : K) (m : smap K nat) : result (nat * option K) :=
  match find_key ltb it m with
  | None => Throw undefined_behavior
  | Some p => Ok (p, next_key ltb it m)
  end.

(** [journal::next_event()] *)
Definition next_event (e : out_event) (by_time debug : bool) (j : journal) : result (bool * out_event * journal) :=
  let step :=
    if by_time
    then
      match f_timebased_replay_iterator j with
      | None => Ok None
      | Some t =>
          let! '(p, it) := advance Z.ltb t (f_timebased_replay j) in
          Ok (Some (p, with_iterators (f_event_locations_iterator j) it j))
      end
    else
      match f_event_locations_iterator j with
      | None => Ok None
      | Some id =>
          let! '(p, it) := advance string_ltb id (f_event_locations j) in
          Ok (Some (p, with_iterators it (f_timebased_replay_iterator j) j))
      end in
  let! next := step in
  match next with
  | None => Ok (false, e, j)
  | Some (p, j) =>
      match j_heap j !! p with
      | None => Throw undefined_behavior
      | Some l =>
          let! '(ok, e, f) := read_data l (d_externals (j_dir j)) (file_object j (l_file l)) (content j (l_file l)) e debug in
          Ok (ok, e, with_file (l_file l) f j)
      end
  end.

(** *** Change of status *)

Definition merge_status (a b : Z) : Z := Z.lor (Z.shiftl a 8) b.

(** The changes that are allowed. *)
Definition status_changes : list Z :=
  [merge_status STATUS_READY STATUS_FORWARDED; merge_status STATUS_READY STATUS_ACKNOWLEDGED;
   merge_status STATUS_READY STATUS_COMPLETED; merge_status STATUS_READY STATUS_FAILED;
   merge_status STATUS_FORWARDED STATUS_ACKNOWLEDGED; merge_status STATUS_FORWARDED STATUS_COMPLETED;
   merge_status STATUS_FORWARDED STATUS_FAILED; merge_status STATUS_ACKNOWLEDGED STATUS_COMPLETED;
   merge_status STATUS_ACKNOWLEDGED STATUS_FAILED].

Definition offsetof_f_status : Z := 2.

(** The end of [journal::update_event_status()]: the event leaves the index. *)
Definition erase_location (request_id : list Z) (l : location) (j : journal) : journal :=
  let j := with_can_be_compressed true j in
  let j := with_index (j_heap j) (j_next j) (erase string_ltb request_id (f_event_locations j))
             (erase Z.ltb (l_event_time l) (f_timebased_replay j)) j in
  let f := decrease_event_count (file_object j (l_file l)) in
  let f := if is_empty j then set_next_append f sizeof_journal_header else f in
  with_file (l_file l) f j.

(** [journal::update_event_status()] *)
Definition update_event_status (request_id : list Z) (status : Z) (j : journal) : result (bool * journal) :=
  if decide (status ∉ [STATUS_READY; STATUS_FORWARDED; STATUS_ACKNOWLEDGED; STATUS_COMPLETED; STATUS_FAILED]) then Throw invalid_parameter
  else
    match find_location j request_id with
    | None => Ok (false, j)
    | Some (p, l) =>
        if decide (merge_status (l_status l) status ∉ status_changes) then Ok (false, j)
        else
          let index := l_file l in
          let '(f, c) := write (seekp (file_object j index) (l_offset l + offsetof_f_status)) (content j index) [wrap 8 status] in
          let j := with_file index f (with_content index c j) in
          let j :=
            if decide (status = STATUS_COMPLETED \/ status = STATUS_FAILED) then erase_location request_id l j
            else update_location p (set_status l status) j in
          let ok := negb (f_fail (file_object j index)) in
          Ok (ok, release None j)
    end.

(** [journal::event_forwarded()] and the others *)
Definition event_forwarded (id : list Z) := update_event_status id STATUS_FORWARDED.
Definition event_acknowledged (id : list Z) := update_event_status id STATUS_ACKNOWLEDGED.
Definition event_completed (id : list Z) := update_event_status id STATUS_COMPLETED.
Definition event_failed (id : list Z) := update_event_status id STATUS_FAILED.

(** ** Loading the events *)

(** The copy of the data of an event in blocks; [fuel] is above the number of
    bytes that remain. *)
Definition COMPRESS_BUFFER_SIZE : Z := 64 * 1024.

Fixpoint copy_blocks (fuel : nat) (remaining_size : Z) (f : file) (c : list Z) : file * list Z :=
  match fuel with
  | O => (f, c)
  | S fuel =>
      if decide (remaining_size > 0)
      then
        let s := Z.min remaining_size COMPRESS_BUFFER_SIZE in
        match read f c s with
        | (None, f) => (f, c)
        | (Some bs, f) =>
            let '(f, c) := write f c bs in
            copy_blocks fuel (remaining_size - s) f c
        end
      else (f, c)
  end.

(** An event that was read is moved to the write position. *)
Definition move_event (header : list Z) (n : Z) (request_id : list Z) (data_size attachment_offsets : Z) (f : file) (c : list Z) : file * list Z :=
  let current_offset := f_pos_read f in
  let offset_size := n * sizeof_offset in
  let '(bs, f) := read (seekg f attachment_offsets) c offset_size in
  let f := seekg f current_offset in
  let '(f, c) := write f c header in
  let '(f, c) := write f c (default (replicate (Z.to_nat offset_size) 0) bs) in
  let '(f, c) := write f c request_id in
  let '(f, c) := copy_blocks (S (Z.to_nat data_size)) data_size f c in
  (set_next_append f (f_pos_write f), c).

Section Load.
Context (is_in_the_future : Z -> bool).

(** The body of the loop of [journal::load_event_locations()] over the events of
    a file: the journal, whether there is room to move events to, and whether the
    loop goes on. *)
Definition load_event (compress : bool) (index file_size : Z) (j : journal) (found : bool) : journal * bool * bool :=
  let f := file_object j index in
  let c := content j index in
  let offset := f_pos_read f in
  match read f c sizeof_event_header with
  | (None, f) => (with_file index (clear f) j, found, false)
  | (Some bs, f) =>
      let h := decode_header bs in
      let stop := (with_file index f j, found, false) in
      let data_size := h_size h - sizeof_event_header - h_attachment_count h * sizeof_offset - h_request_id_size h in
      let time := header_time (h_sec h) (h_nsec h) in
      if decide (h_magic h <> event_magic) then stop
      else if decide (h_status h ∉ [STATUS_READY; STATUS_FORWARDED; STATUS_ACKNOWLEDGED; STATUS_COMPLETED; STATUS_FAILED]) then stop
      else if decide (h_request_id_size h = 0 \/ h_size h + offset > file_size \/ data_size <= 0) then stop
      else if is_in_the_future time then stop
      else if decide (h_status h ∉ [STATUS_READY; STATUS_FORWARDED; STATUS_ACKNOWLEDGED])
      then
        let f := seekg_cur f (h_size h - sizeof_event_header) in
        let f := if found then f else seekp f offset in
        (with_can_be_compressed true (with_file index f j), true, true)
      else
        let attachment_offsets := f_pos_read f in
        let f := seekg_cur f (h_attachment_count h * sizeof_offset) in
        match read f c (h_request_id_size h) with
        | (None, f) => (with_file index f j, found, false)
        | (Some request_id, f) =>
            let l := Location index request_id time (h_status h) (h_attachment_count h) (wrap 32 offset) (h_size h) in
            let p := j_next j in
            let j := release (Some index) (insert_location l j) in
            let f := increase_event_count f in
            if found && compress
            then
              let j := update_location p (set_offset l (wrap 32 (f_pos_write f))) j in
              let '(f, c) := move_event bs (h_attachment_count h) request_id data_size attachment_offsets f c in
              (with_file index f (with_content index c j), found, true)
            else
              let f := seekg_cur f data_size in
              (with_file index (set_next_append f (f_pos_read f)) j, found, true)
        end
  end.

Fixpoint load_events (fuel : nat) (compress : bool) (index file_size : Z) (j : journal) (found : bool) : result journal :=
  match fuel with
  | O => Throw fuel_exhausted
  | S fuel =>
      let '(j, found, good) := load_event compress index file_size j found in
      if good then load_events fuel compress index file_size j found else Ok j
  end.

(** One turn of the loop over the files. *)
Definition load_file (compress : bool) (index : Z) (j : journal) : result journal :=
  let! '(ok, j) := get_event_file index false j in
  if negb ok then Ok j
  else
    let f := seekg (reset_event_count (file_object j index)) 0 in
    let c := content j index in
    match read f c sizeof_journal_header with
    | (None, f) => Ok (release None (with_file index f j))
    | (Some bs, f) =>
        let j := with_file index f j in
        if decide (take 6 bs <> take 6 journal_header) then Ok (release None j)
        else
          let! j := load_events (S (length c)) compress index (Z.of_nat (length c)) j false in
          Ok (release None j)
    end.

Fixpoint load_files (n : nat) (compress : bool) (index : Z) (j : journal) : result journal :=
  match n with
  | O => Ok j
  | S n =>
      let! j := load_file compress index j in
      load_files n compress (index + 1) j
  end.

(** [journal::load_event_locations()] *)
Definition load_event_locations (compress : bool) (j : journal) : result journal :=
  let j := with_can_be_compressed false j in
  let j := release None (with_index (j_heap j) (j_next j) [] (f_timebased_replay j) j) in
  let! j := load_files (Z.to_nat (f_maximum_number_of_files (j_config j))) compress 0 j in
  Ok (rewind j).

(** The constructor, on the directory and the settings read from it, and the
    destructor, which leaves the directory. *)
Definition open_journal (c : config) (d : directory) : result journal :=
  load_event_locations false (Journal c d ∅ ∅ 0 [] [] None None false 0).

Definition close_journal (j : journal) : directory :=
  j_dir (release None (with_index (j_heap j) (j_next j) [] [] j)).

(** ** Adding an event *)

Context (unique_number : Z -> Z * Z).

(** The loop that finds a time that no event has. *)
Fixpoint free_time (fuel : nat) (t : Z) (m : smap Z nat) : option Z :=
  match fuel with
  | O => None
  | S fuel => if contains Z.ltb t m then free_time fuel (t + 1) m else Some t
  end.

(** The loop over the attachments in [journal::add_event()] *)
Definition event_size (threshold : Z) (e : in_event) : Z :=
  foldl (fun size a => if decide (Z.of_nat (length a) < threshold) then size + Z.of_nat (length a) else size)
    (sizeof_event_header + Z.of_nat (length (in_attachments e)) * sizeof_offset + Z.of_nat (length (in_request_id e)))
    (in_attachments e).

(** One turn of the loop over the files: the result of the function, if it
    returns there. *)
Definition try_file (e : in_event) (size time : Z) (j : journal) : result (option bool * journal) :=
  let index := f_current_file_index j in
  let! '(ok, j) := get_event_file index true j in
  if negb ok then Ok (Some false, j)
  else
    let f := file_object j index in
    if decide (f_next_append f + size < f_maximum_file_size (j_config j) /\ f_event_count f < f_maximum_events (j_config j))
    then
      let l := Location index [] time STATUS_UNKNOWN 0 0 0 in
      let d := j_dir j in
      let '(ok, l, f, c, ext, counter) :=
        write_new_event unique_number (f_inline_attachment_size_threshold (j_config j)) l e f (content j index) (d_externals d) (d_counter d) in
      let j := with_file index f (with_dir (Directory (<[index := c]> (d_files d)) ext counter) j) in
      if ok then Ok (Some true, release None (insert_location l j)) else Ok (Some false, release None j)
    else
      let next := index + 1 in
      let next := if decide (next >= f_maximum_number_of_files (j_config j)) then 0 else next in
      Ok (None, release None (with_current_file_index next j)).

Fixpoint try_files (count : nat) (e : in_event) (size time : Z) (j : journal) : result (option bool * journal) :=
  match count with
  | O => Ok (None, j)
  | S count =>
      let! '(r, j) := try_file e size time j in
      match r with
      | Some ok => Ok (Some ok, j)
      | None => try_files count e size time j
      end
  end.

(** The loop over the attempts. *)
Fixpoint attempts (n : nat) (compress_when_full : bool) (e : in_event) (size time : Z) (j : journal) : result (bool * journal) :=
  match n with
  | O => Ok (false, j)
  | S n =>
      let! '(r, j) := try_files (Z.to_nat (f_maximum_number_of_files (j_config j))) e size time j in
      match r with
      | Some ok => Ok (ok, j)
      | None =>
          if compress_when_full
          then
            let! j := load_event_locations true j in
            attempts n false e size time j
          else Ok (false, j)
      end
  end.

(** [journal::add_event()]: whether the event was added and the time it got. *)
Definition add_event (e : in_event) (event_time : Z) (j : journal) : result (bool * Z * journal) :=
  if contains string_ltb (in_request_id e) (f_event_locations j) then Ok (false, event_time, j)
  else if is_in_the_future event_time then Ok (false, event_time, j)
  else if decide (length (in_request_id e) = 0 \/ 255 < length (in_request_id e))%nat then Ok (false, event_time, j)
  else
    let size := event_size (f_inline_attachment_size_threshold (j_config j)) e in
    match free_time (S (length (f_timebased_replay j))) event_time (f_timebased_replay j) with
    | None => Throw fuel_exhausted
    | Some time =>
        let! '(ok, j) := attempts 2 (f_compress_when_full (j_config j) && f_can_be_compressed j) e size time j in
        Ok (ok, time, j)
    end.
End Load.
