(* ===== verification/JournalIndex.v ===== *)
(** * The index of a journal and the life of its file objects

    [index_rep j L old]: the two maps of the journal hold the locations [L], by
    identifier and by time, and share their objects; the map by time may also
    hold the entries [old] while the files are loaded again. *)

From S2P Require Import Prelude Bytes SortedMap JournalFile Journal.

Abbreviation locations := (gmap (list Z) location).

Record index_rep (j : journal) (L : locations) (old : gmap Z location) : Prop := {
  ix_sorted_id : sorted string_ltb (f_event_locations j);
  ix_sorted_time : sorted Z.ltb (f_timebased_replay j);
  ix_fresh p : is_Some (j_heap j !! p) -> (p < j_next j)%nat;
  ix_id id l : L !! id = Some l -> exists p, find_key string_ltb id (f_event_locations j) = Some p /\ j_heap j !! p = Some l /\
    find_key Z.ltb (l_event_time l) (f_timebased_replay j) = Some p /\ l_request_id l = id;
  ix_id_only id p : find_key string_ltb id (f_event_locations j) = Some p -> is_Some (L !! id);
  ix_time_only t p : find_key Z.ltb t (f_timebased_replay j) = Some p ->
    (exists id l, L !! id = Some l /\ l_event_time l = t) \/ (exists l, old !! t = Some l /\ j_heap j !! p = Some l);
}.

(** ** Lookups *)

Section Lookups.
Context (j : journal) (L : locations) (old : gmap Z location) (Hj : index_rep j L old).

Lemma find_location_some id l : L !! id = Some l -> exists p, find_location j id = Some (p, l) /\
  find_key string_ltb id (f_event_locations j) = Some p /\ find_key Z.ltb (l_event_time l) (f_timebased_replay j) = Some p.
Proof.
  intros Hl. destruct (ix_id _ _ _ Hj id l Hl) as (p & Hp & Hh & Ht & _). exists p. unfold find_location. rewrite Hp. cbn. by rewrite Hh.
Qed.

Lemma find_location_none id : L !! id = None -> find_location j id = None.
Proof.
  intros Hl. unfold find_location. destruct (find_key _ _ _) as [p|] eqn:E; [|done].
  apply (ix_id_only _ _ _ Hj) in E as [l E]. congruence.
Qed.

Lemma contains_id id : contains string_ltb id (f_event_locations j) = bool_decide (is_Some (L !! id)).
Proof.
  unfold contains. destruct (find_key _ _ _) as [p|] eqn:E.
  - apply (ix_id_only _ _ _ Hj) in E. by rewrite bool_decide_eq_true_2.
  - rewrite bool_decide_eq_false_2; [done|]. intros [l Hl]. destruct (ix_id _ _ _ Hj id l Hl) as (p & Hp & _). congruence.
Qed.

(** Two locations have different times. *)
Lemma location_time_inj id1 l1 id2 l2 : L !! id1 = Some l1 -> L !! id2 = Some l2 -> l_event_time l1 = l_event_time l2 -> id1 = id2 /\ l1 = l2.
Proof.
  intros H1 H2 Ht. destruct (ix_id _ _ _ Hj _ _ H1) as (p1 & _ & Hh1 & Ht1 & <-), (ix_id _ _ _ Hj _ _ H2) as (p2 & _ & Hh2 & Ht2 & <-).
  rewrite Ht in Ht1. assert (p1 = p2) as -> by congruence. assert (l1 = l2) as -> by congruence. done.
Qed.

Lemma refers_elem index {K} (ltb : K -> K -> bool) {order : KeyOrder ltb} (m : smap K nat) : sorted ltb m ->
  refers j index m = true <-> exists k p l, find_key ltb k m = Some p /\ j_heap j !! p = Some l /\ l_file l = index.
Proof.
  intros Hm. unfold refers. rewrite List.existsb_exists. split.
  - intros ([k p] & Hin%list_elem_of_In & Hl). cbn in Hl. destruct (j_heap j !! p) as [l|] eqn:E; [|done].
    exists k, p, l. split_and!; [by apply (find_elem ltb)|done|by apply Z.eqb_eq].
  - intros (k & p & l & Hf & Hh & Hl). exists (k, p). split; [apply list_elem_of_In; by apply (find_elem ltb)|]. cbn. rewrite Hh. by apply Z.eqb_eq.
Qed.

Lemma refers_locations index : refers j index (f_event_locations j) = true <-> exists id l, L !! id = Some l /\ l_file l = index.
Proof.
  rewrite (refers_elem index string_ltb) by apply Hj. split.
  - intros (id & p & l & Hf & Hh & Hl). destruct (ix_id_only _ _ _ Hj _ _ Hf) as [l' Hl']. exists id, l'. split; [done|].
    destruct (ix_id _ _ _ Hj _ _ Hl') as (p' & Hp' & Hh' & _). congruence.
  - intros (id & l & Hl & Hfile). destruct (ix_id _ _ _ Hj _ _ Hl) as (p & Hp & Hh & _). by exists id, p, l.
Qed.

Lemma in_use_true index id l : L !! id = Some l -> l_file l = index -> in_use j index = true.
Proof. intros Hl Hf. unfold in_use. apply orb_true_iff. left. apply refers_locations. eauto. Qed.

Lemma in_use_false index : (forall id l, L !! id = Some l -> l_file l <> index) -> (forall t l, old !! t = Some l -> l_file l <> index) ->
  in_use j index = false.
Proof.
  intros HL Hold. apply orb_false_iff. split; apply not_true_iff_false.
  - rewrite refers_locations. intros (id & l & Hl & Hf). by eapply HL.
  - rewrite (refers_elem index Z.ltb) by apply Hj. intros (t & p & l & Hf & Hh & Hl).
    destruct (ix_time_only _ _ _ Hj _ _ Hf) as [(id & l' & Hl' & Ht)|(l' & Hl' & Hh')].
    + destruct (ix_id _ _ _ Hj _ _ Hl') as (p' & Hp' & Hh' & Ht' & _). subst t. assert (p = p') as -> by congruence.
      assert (l = l') as -> by congruence. by eapply HL.
    + assert (l = l') as -> by congruence. by eapply Hold.
Qed.
End Lookups.

(** ** Changes of the index *)

Lemma index_rep_eq j j' L old : j_heap j' = j_heap j -> j_next j' = j_next j -> f_event_locations j' = f_event_locations j ->
  f_timebased_replay j' = f_timebased_replay j -> index_rep j L old -> index_rep j' L old.
Proof. intros Hh Hn Hi Ht [H1 H2 H3 H4 H5 H6]. split; rewrite ?Hh, ?Hn, ?Hi, ?Ht; assumption. Qed.

Lemma insert_location_rep j L old l : index_rep j L old -> L !! l_request_id l = None ->
  (forall id l', L !! id = Some l' -> l_event_time l' <> l_event_time l) ->
  index_rep (insert_location l j) (<[l_request_id l := l]> L) old.
Proof.
  intros [H1 H2 H3 H4 H5 H6] Hnew Htime. unfold insert_location.
  assert (forall p, is_Some (j_heap j !! p) -> p <> j_next j) as Hne by (intros p Hp; specialize (H3 p Hp); lia).
  split; cbn.
  - by apply (sorted_put string_ltb).
  - by apply (sorted_put Z.ltb).
  - intros p. destruct (decide (p = j_next j)) as [->|]; [lia|]. rewrite lookup_insert_ne by done. intros Hp%H3. lia.
  - intros id l'. destruct (decide (id = l_request_id l)) as [->|Hid].
    + rewrite lookup_insert_eq. intros [= <-]. exists (j_next j).
      rewrite (find_put_eq string_ltb), (find_put_eq Z.ltb), lookup_insert_eq. done.
    + rewrite lookup_insert_ne by done. intros Hl'. destruct (H4 _ _ Hl') as (p & Hp & Hh & Ht & Hr). exists p.
      rewrite (find_put_ne string_ltb) by done. rewrite (find_put_ne Z.ltb) by (exact (Htime _ _ Hl')). rewrite lookup_insert_ne by (symmetry; apply Hne; eauto). done.
  - intros id p. destruct (decide (id = l_request_id l)) as [->|Hid]; [rewrite lookup_insert_eq; eauto|].
    rewrite (find_put_ne string_ltb), lookup_insert_ne by done. apply H5.
  - intros t p. destruct (decide (t = l_event_time l)) as [->|Ht].
    + intros _. left. exists (l_request_id l), l. by rewrite lookup_insert_eq.
    + rewrite (find_put_ne Z.ltb) by done. intros Hp. destruct (H6 _ _ Hp) as [(id & l' & Hl' & Ht')|(l' & Hl' & Hh)].
      * left. exists id, l'. rewrite lookup_insert_ne; [done|]. intros <-. congruence.
      * right. exists l'. rewrite lookup_insert_ne by (symmetry; apply Hne; eauto). done.
Qed.

Lemma update_location_rep j L old p l l' id : index_rep j L old -> find_location j id = Some (p, l) -> L !! id = Some l ->
  l_request_id l' = id -> l_event_time l' = l_event_time l -> old = ∅ ->
  index_rep (update_location p l' j) (<[id := l']> L) old.
Proof.
  intros Hj Hfind Hl Hid Ht ->. destruct (find_location_some j L ∅ Hj id l Hl) as (p' & Hp' & Hf & Hft).
  assert (p' = p) as -> by congruence. destruct Hj as [H1 H2 H3 H4 H5 H6].
  destruct (H4 _ _ Hl) as (p' & ? & Hh & _). assert (p' = p) as -> by congruence.
  assert (forall id2 l2 p2, id2 <> id -> L !! id2 = Some l2 -> find_key string_ltb id2 (f_event_locations j) = Some p2 -> j_heap j !! p2 = Some l2 -> p2 <> p) as Hne.
  { intros id2 l2 p2 Hne2 Hl2 Hf2 Hh2 ->. destruct (H4 _ _ Hl2) as (? & ? & ? & ? & <-), (H4 _ _ Hl) as (? & ? & ? & ? & Hr). congruence. }
  split; cbn; try assumption.
  - intros q. destruct (decide (q = p)) as [->|]; [intros _; apply H3; eauto|]. rewrite lookup_insert_ne by done. apply H3.
  - intros id2 l2. destruct (decide (id2 = id)) as [->|Hne2].
    + rewrite lookup_insert_eq. intros [= <-]. exists p. rewrite lookup_insert_eq, Ht. done.
    + rewrite lookup_insert_ne by done. intros Hl2. destruct (H4 _ _ Hl2) as (p2 & Hf2 & Hh2 & Ht2 & Hr2). exists p2.
      rewrite lookup_insert_ne by (symmetry; by eapply Hne). done.
  - intros id2 p2 Hp2. destruct (decide (id2 = id)) as [->|]; [rewrite lookup_insert_eq; eauto|]. rewrite lookup_insert_ne by done. eauto.
  - intros t p2 Hp2. destruct (H6 _ _ Hp2) as [(id2 & l2 & Hl2 & Ht2)|(? & ? & _)]; [|done]. left.
    destruct (decide (id2 = id)) as [->|].
    + exists id, l'. rewrite lookup_insert_eq. split; [done|]. assert (l2 = l) as -> by congruence. congruence.
    + exists id2, l2. by rewrite lookup_insert_ne.
Qed.

Lemma erase_location_rep j L l id : index_rep j L ∅ -> L !! id = Some l ->
  index_rep (with_index (j_heap j) (j_next j) (erase string_ltb id (f_event_locations j)) (erase Z.ltb (l_event_time l) (f_timebased_replay j)) j)
    (delete id L) ∅.
Proof.
  intros Hj Hl. pose proof (location_time_inj j L ∅ Hj) as Hinj. destruct Hj as [H1 H2 H3 H4 H5 H6]. split; cbn; try done.
  - by apply (sorted_erase string_ltb).
  - by apply (sorted_erase Z.ltb).
  - intros id2 l2. rewrite lookup_delete_Some. intros [Hne Hl2]. destruct (H4 _ _ Hl2) as (p & Hf & Hh & Ht & Hr). exists p.
    rewrite (find_erase_ne string_ltb) by done. rewrite (find_erase_ne Z.ltb); [done..|].
    intros Heq. destruct (Hinj _ _ _ _ Hl2 Hl Heq) as [? _]. congruence.
  - intros id2 p. destruct (decide (id2 = id)) as [->|]; [by rewrite (find_erase_eq string_ltb)|].
    rewrite (find_erase_ne string_ltb), lookup_delete_ne by done. apply H5.
  - intros t p. destruct (decide (t = l_event_time l)) as [->|]; [by rewrite (find_erase_eq Z.ltb)|].
    rewrite (find_erase_ne Z.ltb) by done. intros Hp. destruct (H6 _ _ Hp) as [(id2 & l2 & Hl2 & <-)|(? & ? & _)]; [|done]. left.
    exists id2, l2. split; [|done]. rewrite lookup_delete_ne; [done|]. intros <-. congruence.
Qed.

(** ** File objects *)

(** The parts of a journal that closing files leaves alone. *)
Definition same_index (j j' : journal) : Prop :=
  j_heap j' = j_heap j /\ j_next j' = j_next j /\ f_event_locations j' = f_event_locations j /\ f_timebased_replay j' = f_timebased_replay j.

Lemma same_index_rep j j' L old : same_index j j' -> index_rep j L old -> index_rep j' L old.
Proof. intros (? & ? & ? & ?). by apply index_rep_eq. Qed.

Lemma same_index_trans a b c : same_index a b -> same_index b c -> same_index a c.
Proof. intros (? & ? & ? & ?) (? & ? & ? & ?). split_and!; congruence. Qed.

Lemma same_index_in_use j j' index : same_index j j' -> in_use j' index = in_use j index.
Proof. intros (Hh & Hn & Hi & Ht). unfold in_use, refers. by rewrite Hh, Hi, Ht. Qed.

Lemma close_file_index index j : same_index j (close_file index j).
Proof. unfold close_file. by destruct (f_event_files j !! index). Qed.

Lemma close_file_none index j : f_event_files j !! index = None -> close_file index j = j.
Proof. intros H. unfold close_file. by rewrite H. Qed.

Definition kept (held : option Z) (j : journal) (k : Z) : Prop := held = Some k \/ in_use j k = true.

Lemma release_kept held j : (forall k, is_Some (f_event_files j !! k) -> kept held j k) -> release held j = j.
Proof.
  intros Hk. unfold release. assert (Forall (kept held j) (elements (dom (f_event_files j)))) as Hall.
  { apply Forall_forall. intros k Hin%elem_of_elements%elem_of_dom. by apply Hk. }
  induction Hall as [|k ks Hkk Hall IH]; [done|]. cbn. rewrite IH.
  destruct Hkk as [->| ->]; [by rewrite bool_decide_eq_true_2|by rewrite orb_true_r].
Qed.

Lemma release_closes held j k : held <> Some k -> in_use j k = false ->
  (forall k', is_Some (f_event_files j !! k') -> k' <> k -> kept held j k') -> release held j = close_file k j.
Proof.
  intros Hheld Hk Hothers.
  destruct (f_event_files j !! k) as [f|] eqn:Ef.
  2: { rewrite close_file_none by done. apply release_kept. intros k' Hk'. apply Hothers; [done|]. intros ->. rewrite Ef in Hk'. by destruct Hk'. }
  unfold release. set (step := fun index j => if bool_decide (held = Some index) || in_use j index then j else close_file index j).
  assert (forall ks, NoDup ks -> Forall (fun k' => k' <> k -> kept held j k') ks -> foldr step j ks = if decide (k ∈ ks) then close_file k j else j) as Hfold.
  { induction 1 as [|k' ks Hnin Hnd IH]; intros Hall; [by rewrite decide_False by apply not_elem_of_nil|].
    apply Forall_cons in Hall as [Hk' Hall]. cbn. rewrite IH by done. destruct (decide (k' = k)) as [->|Hne].
    - rewrite (decide_False (P := k ∈ ks)) by done. rewrite (decide_True (P := k ∈ k :: ks)) by left.
      unfold step. rewrite Hk. by rewrite bool_decide_eq_false_2.
    - assert (kept held j k') as Hkept by auto. assert (forall j', same_index j j' -> step k' j' = j') as Hstep.
      { intros j' Hj'. unfold step. rewrite (same_index_in_use j j') by done. destruct Hkept as [->| ->]; [by rewrite bool_decide_eq_true_2|by rewrite orb_true_r]. }
      destruct (decide (k ∈ ks)) as [Hin|Hin].
      + rewrite (decide_True (P := k ∈ k' :: ks)) by by right. apply Hstep, close_file_index.
      + rewrite (decide_False (P := k ∈ k' :: ks)) by (by intros [->|?]%elem_of_cons). by apply Hstep. }
  rewrite Hfold; [|apply NoDup_elements|].
  - rewrite decide_True; [done|]. apply elem_of_elements, elem_of_dom. by rewrite Ef.
  - apply Forall_forall. intros k' Hin%elem_of_elements%elem_of_dom. by apply Hothers.
Qed.

(** Releasing the objects of closed files only changes files that nothing uses. *)
Lemma release_index held j : same_index j (release held j).
Proof.
  unfold release. induction (elements (dom (f_event_files j))) as [|k ks IH]; [done|]. cbn.
  destruct (bool_decide _ || _); [done|]. destruct IH as (? & ? & ? & ?), (close_file_index k (foldr (fun index j => if bool_decide (held = Some index) || in_use j index then j else close_file index j) j ks)) as (? & ? & ? & ?).
  split_and!; congruence.
Qed.

Lemma release_config held j : j_config (release held j) = j_config j.
Proof.
  unfold release. induction (elements (dom (f_event_files j))) as [|k ks IH]; [done|]. cbn.
  destruct (bool_decide _ || _); [done|]. unfold close_file. destruct (f_event_files _ !! k); [done|done].
Qed.
