(* ===== verification/JournalRep.v ===== *)
(** * What a journal stands for

    [journal_rep j m]: the journal holds the events [m], by identifier.  The
    layout gives the records of the files that have an object; the locations of
    the index are those of the records that are live. *)

From S2P Require Import Prelude Bytes SortedMap JournalFile JournalLayout Journal JournalIndex.

(** An event of the journal. *)
Record entry := Entry { e_time : Z; e_status : Z; e_attachments : list (list Z) }.

Abbreviation events := (gmap (list Z) entry).
Abbreviation layouts := (gmap Z (list record)).

Definition is_live (r : record) : bool := live_status (r_status r).

Definition slot_bytes (ext : externals) (s : slot) : list Z := match s with Inline d => d | External i => ext !!! i end.

Definition entry_of (ext : externals) (r : record) : entry := Entry (r_time r) (r_status r) (slot_bytes ext <$> r_slots r).

(** ** Files *)

Definition encode_records (rs : list record) : list Z := concat (encode_record <$> rs).

(** Where the record that follows [rs] starts. *)
Definition file_offset (rs : list record) : Z := Z.of_nat (length (journal_header ++ encode_records rs)).

(** A reader of the events stops there. *)
Definition stops (tail : list Z) : bool := bool_decide (Z.of_nat (length tail) < sizeof_event_header \/ take 2 tail <> event_magic).

(** No event is found in a file without an object. *)
Definition closed_rep (c : list Z) : Prop :=
  Z.of_nat (length c) < sizeof_journal_header \/ take 6 c <> take 6 journal_header \/
  exists pre rs tail, c = pre ++ encode_records rs ++ tail /\ length pre = 8%nat /\ stops tail = true /\
    Forall record_wf rs /\ Forall (fun r => is_live r = false) rs.

Record open_rep (f : file) (c : list Z) (rs : list record) : Prop := {
  op_fail : f_fail f = false;
  op_wf : Forall record_wf rs;
  op_next : f_next_append f = file_offset rs;
  op_bound : file_offset rs < 2 ^ 31;
  op_count : f_event_count f = Z.of_nat (length (List.filter is_live rs));
  op_content : exists stale, c = journal_header ++ encode_records rs ++ stale;
}.

Definition has_live (rs : list record) : Prop := exists r, r ∈ rs /\ is_live r = true.

(** The file of an index: [held] is an object that may have no event. *)
Definition file_rep (j : journal) (layout : layouts) (index : Z) : Prop :=
  match layout !! index with
  | Some rs => exists f c, f_event_files j !! index = Some f /\ d_files (j_dir j) !! index = Some c /\ open_rep f c rs /\ has_live rs
  | None => f_event_files j !! index = None /\ forall c, d_files (j_dir j) !! index = Some c -> closed_rep c
  end.

Definition layout_range (j : journal) (layout : layouts) : Prop :=
  forall index, is_Some (layout !! index) -> 0 <= index < f_maximum_number_of_files (j_config j).

Definition saved_rep (ext : externals) (layout : layouts) : Prop :=
  forall index rs, layout !! index = Some rs -> Forall (fun r => Forall (slot_saved ext) (r_slots r)) rs.

(** ** The index and the files *)

Record located (L : locations) (layout : layouts) : Prop := {
  lo_record id l : L !! id = Some l -> exists rs1 r rs2, layout !! l_file l = Some (rs1 ++ r :: rs2) /\
    locates l (file_offset rs1) r /\ is_live r = true;
  lo_live index rs1 r rs2 : layout !! index = Some (rs1 ++ r :: rs2) -> is_live r = true ->
    exists l, L !! r_id r = Some l /\ l_file l = index /\ locates l (file_offset rs1) r;
}.

Record represents (L : locations) (layout : layouts) (ext : externals) (m : events) : Prop := {
  re_only id : is_Some (m !! id) -> is_Some (L !! id);
  re_record index rs r : layout !! index = Some rs -> r ∈ rs -> is_live r = true -> m !! r_id r = Some (entry_of ext r);
}.

Record config_wf (c : config) : Prop := {
  cw_files : JOURNAL_MINIMUM_NUMBER_OF_FILES <= f_maximum_number_of_files c <= JOURNAL_MAXIMUM_NUMBER_OF_FILES;
  cw_size : JOURNAL_MINIMUM_FILE_SIZE <= f_maximum_file_size c <= JOURNAL_MAXIMUM_FILE_SIZE;
  cw_events : JOURNAL_MINIMUM_EVENTS <= f_maximum_events c <= JOURNAL_MAXIMUM_EVENTS;
  cw_threshold : JOURNAL_INLINE_ATTACHMENT_SIZE_MINIMUM_THRESHOLD <= f_inline_attachment_size_threshold c <= JOURNAL_INLINE_ATTACHMENT_SIZE_MAXIMUM_THRESHOLD;
}.

(** A property of the records that their status does not change. *)
Class StatusFree (good : record -> Prop) : Prop :=
  good_status r s : good r -> good (Rec s (r_id r) (r_time r) (r_slots r)).

Section Rep.
Context (unique_number : Z -> Z * Z) {unique : UniqueNumber unique_number} (good : record -> Prop).

Record rep (j : journal) (L : locations) (layout : layouts) (m : events) : Prop := {
  rp_config : config_wf (j_config j);
  rp_current : 0 <= f_current_file_index j < f_maximum_number_of_files (j_config j);
  rp_index : index_rep j L ∅;
  rp_located : located L layout;
  rp_files index : file_rep j layout index;
  rp_range : layout_range j layout;
  rp_saved : saved_rep (d_externals (j_dir j)) layout;
  rp_good index rs : layout !! index = Some rs -> Forall good rs;
  rp_numbers : numbers_below unique_number (d_externals (j_dir j)) (d_counter (j_dir j));
  rp_represents : represents L layout (d_externals (j_dir j)) m;
}.

Definition journal_rep (j : journal) (m : events) : Prop := exists L layout, rep j L layout m.
End Rep.

(** ** Offsets of records *)

Lemma encode_records_app a b : encode_records (a ++ b) = encode_records a ++ encode_records b.
Proof. unfold encode_records. by rewrite fmap_app, concat_app. Qed.

Lemma record_size_pos r : 32 <= record_size r.
Proof. unfold record_size, data_offset, sizeof_event_header, sizeof_offset. lia. Qed.

Lemma file_offset_nil : file_offset [] = sizeof_journal_header.
Proof. done. Qed.

Lemma file_offset_app a b : file_offset (a ++ b) = file_offset a + Z.of_nat (length (encode_records b)).
Proof. unfold file_offset. rewrite encode_records_app, !length_app. lia. Qed.

Lemma file_offset_snoc a r : file_offset (a ++ [r]) = file_offset a + record_size r.
Proof. rewrite file_offset_app. change (encode_records [r]) with (encode_record r ++ []). by rewrite app_nil_r, length_encode_record. Qed.

Lemma file_offset_cons a r b : file_offset (a ++ r :: b) = file_offset a + record_size r + Z.of_nat (length (encode_records b)).
Proof. replace (r :: b) with ([r] ++ b) by done. rewrite app_assoc, file_offset_app, file_offset_snoc. done. Qed.

Lemma file_offset_min rs : sizeof_journal_header <= file_offset rs.
Proof. unfold file_offset. rewrite length_app. change (length journal_header) with 8%nat. unfold sizeof_journal_header. lia. Qed.

Lemma length_records_offset rs : Z.of_nat (length rs) <= file_offset rs.
Proof.
  induction rs as [|r rs IH] using rev_ind; [done|]. rewrite length_app, file_offset_snoc. pose proof (record_size_pos r). cbn. lia.
Qed.

(** Two records at the same offset are the same one. *)
Lemma same_offset a r b a' r' b' : a ++ r :: b = a' ++ r' :: b' -> file_offset a = file_offset a' -> a = a' /\ r = r' /\ b = b'.
Proof.
  intros Heq Hoff. destruct (decide (length a = length a')) as [Hl|Hl].
  - apply app_inj_1 in Heq as [-> [= -> ->]]; done.
  - exfalso. destruct (decide (length a < length a')%nat) as [Hlt|Hge].
    + assert (a' = a ++ r :: drop (S (length a)) a') as Ha'.
      { rewrite <- (take_drop (S (length a)) a') at 1. replace (r :: drop (S (length a)) a') with ([r] ++ drop (S (length a)) a') by done.
        rewrite app_assoc. f_equal. assert (take (S (length a)) (a' ++ r' :: b') = a ++ [r]) as Ht.
        { rewrite <- Heq. replace (a ++ r :: b) with ((a ++ [r]) ++ b) by (by rewrite <- app_assoc).
          rewrite take_app_length'; [done|]. rewrite length_app. cbn. lia. }
        by rewrite take_app_le in Ht by lia. }
      rewrite Ha', file_offset_cons in Hoff. pose proof (record_size_pos r). lia.
    + assert (a = a' ++ r' :: drop (S (length a')) a) as Ha.
      { rewrite <- (take_drop (S (length a')) a) at 1. replace (r' :: drop (S (length a')) a) with ([r'] ++ drop (S (length a')) a) by done.
        rewrite app_assoc. f_equal. assert (take (S (length a')) (a ++ r :: b) = a' ++ [r']) as Ht.
        { rewrite Heq. replace (a' ++ r' :: b') with ((a' ++ [r']) ++ b') by (by rewrite <- app_assoc).
          rewrite take_app_length'; [done|]. rewrite length_app. cbn. lia. }
        by rewrite take_app_le in Ht by lia. }
      rewrite Ha, file_offset_cons in Hoff. pose proof (record_size_pos r'). lia.
Qed.

(** ** The destructor of a file object *)

Lemma stops_short tail : (length tail < 32)%nat -> stops tail = true.
Proof. intros. apply bool_decide_eq_true. left. unfold sizeof_event_header. lia. Qed.

Lemma truncate_records management f rs stale : f_fail f = false -> f_next_append f = file_offset rs ->
  match truncate management f (journal_header ++ encode_records rs ++ stale) with
  | Some c => exists tail, c = journal_header ++ encode_records rs ++ tail /\ stops tail = true
  | None => management = FILE_MANAGEMENT_DELETE /\ rs = []
  end.
Proof.
  intros Hf Hn. pose proof (file_offset_min rs) as Hmin. unfold sizeof_journal_header in Hmin. unfold truncate. rewrite Hn.
  assert (Z.to_nat (Z.max sizeof_journal_header (file_offset rs)) = length (journal_header ++ encode_records rs)) as Hsize.
  { rewrite Z.max_r by (unfold sizeof_journal_header; lia). unfold file_offset. lia. }
  assert (exists tail, resize (Z.to_nat (Z.max sizeof_journal_header (file_offset rs))) 0 (journal_header ++ encode_records rs ++ stale)
    = journal_header ++ encode_records rs ++ tail /\ stops tail = true) as Hresize.
  { rewrite Hsize, app_assoc, resize_app_le, resize_all by lia. exists []. by rewrite app_nil_r. }
  destruct management; [|exact Hresize|].
  - rewrite app_assoc. destruct (decide _) as [[_ Hlen]|Hlen].
    + assert (Z.of_nat (length ((journal_header ++ encode_records rs) ++ stale)) - file_offset rs = Z.of_nat (length stale)) as ->.
      { rewrite (length_app _ stale). unfold file_offset. lia. }
      unfold write. cbn [snd seekp f_fail f_pos_write]. rewrite Hf. unfold file_offset. rewrite overwrite_over, <- !app_assoc, Nat2Z.id.
      eexists. split; [reflexivity|]. destruct stale as [|x [|y stale]]; [done| |].
      * apply stops_short. cbn. lia.
      * apply bool_decide_eq_true. right. cbn. destruct stale; done.
    + rewrite <- app_assoc. exists stale. split; [done|]. apply stops_short.
      rewrite length_app in Hlen. unfold file_offset in *. lia.
  - destruct (decide _) as [Heq|]; [|exact Hresize]. split; [done|]. rewrite Z.max_r in Heq by (unfold sizeof_journal_header; lia).
    destruct rs as [|r rs]; [done|]. pose proof (file_offset_cons [] r rs) as Hc. cbn [app] in Hc. rewrite Heq in Hc.
    change (file_offset []) with 8 in Hc. pose proof (record_size_pos r). unfold sizeof_journal_header in *. lia.
Qed.

Lemma closed_header pre : length pre = 8%nat -> closed_rep pre.
Proof. intros Hl. right. right. exists pre, [], []. by rewrite !app_nil_r. Qed.

Lemma closed_dead rs tail : Forall record_wf rs -> Forall (fun r => is_live r = false) rs -> stops tail = true ->
  closed_rep (journal_header ++ encode_records rs ++ tail).
Proof. intros. right. right. by exists journal_header, rs, tail. Qed.

(** The object of a file nothing was written to. *)
Lemma truncate_unused management f c c' : f_next_append f = 0 -> closed_rep c -> truncate management f c = Some c' -> closed_rep c'.
Proof.
  intros Hn Hc. unfold truncate. rewrite Hn.
  assert (closed_rep (resize (Z.to_nat (Z.max sizeof_journal_header 0)) 0 c)) as Hr by (apply closed_header; by rewrite length_resize).
  destruct management; [|by intros [= <-]|].
  - destruct (decide _) as [[? _]|]; [lia|]. by intros [= <-].
  - destruct (decide _); [done|]. by intros [= <-].
Qed.
