(* ===== verification/JournalChanges.v ===== *)
(** * How the layout of a journal changes

    A record is appended, replaced by one of the same size, or the file of dead
    records loses its object; the locations and the events follow. *)

From S2P Require Import Prelude Bytes SortedMap JournalFile JournalLayout Journal JournalIndex JournalRep.

(** Two ways of splitting a list. *)
Lemma split_cases {A} (a : list A) x b a' x' b' : a ++ x :: b = a' ++ x' :: b' ->
  (a = a' /\ x = x' /\ b = b') \/ (exists mid, a = a' ++ x' :: mid /\ b' = mid ++ x :: b) \/
  (exists mid, a' = a ++ x :: mid /\ b = mid ++ x' :: b').
Proof.
  revert a'. induction a as [|y a IH]; intros [|y' a'] Heq; cbn in *.
  - injection Heq as -> ->. auto.
  - injection Heq as -> ->. right. right. by exists a'.
  - injection Heq as -> <-. right. left. by exists a.
  - injection Heq as -> Heq. destruct (IH _ Heq) as [(-> & -> & ->)|[(mid & -> & ->)|(mid & -> & ->)]]; eauto 8.
Qed.

Lemma has_live_split rs : has_live rs -> exists rs1 r rs2, rs = rs1 ++ r :: rs2 /\ is_live r = true.
Proof. intros (r & (rs1 & rs2 & ->)%list_elem_of_split & Hr). eauto. Qed.

(** ** Locations *)

Lemma locates_inj l o r r' : locates l o r -> record_size r' = record_size r -> r_id r' = r_id r -> r_time r' = r_time r ->
  r_status r' = r_status r -> length (r_slots r') = length (r_slots r) -> locates l o r'.
Proof. intros [] Hs Hi Ht Hst Hn. split; congruence. Qed.

Lemma located_append L layout index rs l r : located L layout -> L !! r_id r = None ->
  (layout !! index = Some rs \/ layout !! index = None /\ rs = []) ->
  l_file l = index -> locates l (file_offset rs) r -> is_live r = true ->
  located (<[r_id r := l]> L) (<[index := rs ++ [r]]> layout).
Proof.
  intros Hlo Hnew Hrs Hfile Hl Hr. split.
  - intros id l2. destruct (decide (id = r_id r)) as [->|Hne].
    + rewrite lookup_insert_eq. intros [= <-]. exists rs, r, []. by rewrite Hfile, lookup_insert_eq.
    + rewrite lookup_insert_ne by done. intros Hl2. destruct (lo_record _ _ Hlo _ _ Hl2) as (a & x & b & Hlay & Hx & Hlive).
      destruct (decide (l_file l2 = index)) as [Heq|Hneq].
      * rewrite Heq, lookup_insert_eq. rewrite Heq in Hlay. destruct Hrs as [Hrs|[Hrs _]]; [|congruence].
        assert (rs = a ++ x :: b) as -> by congruence. exists a, x, (b ++ [r]). by rewrite <- app_assoc.
      * rewrite lookup_insert_ne by done. eauto 8.
  - intros k a x b. destruct (decide (k = index)) as [->|Hne].
    + rewrite lookup_insert_eq. intros [= Heq] Hx. symmetry in Heq.
      destruct (split_cases a x b rs r [] Heq) as [(-> & -> & ->)|[(mid & -> & Hb)|(mid & -> & ->)]].
      * exists l. by rewrite lookup_insert_eq.
      * by destruct mid.
      * destruct Hrs as [Hrs|[_ Hrs]]; [|by destruct a]. destruct (lo_live _ _ Hlo _ _ _ _ Hrs Hx) as (l2 & Hl2 & Hf2 & Hloc2).
        exists l2. rewrite lookup_insert_ne by congruence. done.
    + rewrite lookup_insert_ne by done. intros Hk Hx. destruct (lo_live _ _ Hlo _ _ _ _ Hk Hx) as (l2 & Hl2 & Hf2 & Hloc2).
      exists l2. rewrite lookup_insert_ne by congruence. done.
Qed.

Section Replace.
Context (L : locations) (layout : layouts) (Hlo : located L layout).
Context (index : Z) (rs1 : list record) (r r' : record) (rs2 : list record).
Context (Hlay : layout !! index = Some (rs1 ++ r :: rs2)) (Hlive : is_live r = true).
Context (Hsize : record_size r' = record_size r) (Hid : r_id r' = r_id r).

Lemma offset_replaced mid : file_offset (rs1 ++ r' :: mid) = file_offset (rs1 ++ r :: mid).
Proof. by rewrite !file_offset_cons, Hsize. Qed.

Lemma replaced_elsewhere k a x b : layout !! k = Some (a ++ x :: b) -> (k = index -> a <> rs1) ->
  exists a' b', <[index := rs1 ++ r' :: rs2]> layout !! k = Some (a' ++ x :: b') /\ file_offset a' = file_offset a.
Proof.
  intros Hk Hne. destruct (decide (k = index)) as [->|Hki].
  - rewrite lookup_insert_eq. assert (a ++ x :: b = rs1 ++ r :: rs2) as Heq by congruence.
    destruct (split_cases _ _ _ _ _ _ Heq) as [(-> & _)|[(mid & -> & ->)|(mid & -> & ->)]]; [by destruct Hne| |].
    + exists (rs1 ++ r' :: mid), b. rewrite <- app_assoc. split; [done|]. apply offset_replaced.
    + exists a, (mid ++ r' :: rs2). by rewrite <- app_assoc.
  - rewrite lookup_insert_ne by done. eauto.
Qed.

Lemma unreplaced_elsewhere k a x b : <[index := rs1 ++ r' :: rs2]> layout !! k = Some (a ++ x :: b) -> (k = index -> a <> rs1) ->
  exists a' b', layout !! k = Some (a' ++ x :: b') /\ file_offset a' = file_offset a /\ (k = index -> a' <> rs1).
Proof.
  intros Hk Hne. destruct (decide (k = index)) as [->|Hki].
  - rewrite lookup_insert_eq in Hk. assert (a ++ x :: b = rs1 ++ r' :: rs2) as Heq by congruence.
    destruct (split_cases _ _ _ _ _ _ Heq) as [(-> & _)|[(mid & -> & ->)|(mid & -> & ->)]]; [by destruct Hne| |].
    + exists (rs1 ++ r :: mid), b. rewrite Hlay, <- app_assoc. split_and!; [done|symmetry; apply offset_replaced|].
      intros _ Habs. apply (f_equal length) in Habs. rewrite length_app in Habs. cbn in Habs. lia.
    + exists a, (mid ++ r :: rs2). rewrite Hlay, <- app_assoc. split_and!; [done..|].
      intros _ Habs. apply (f_equal length) in Habs. rewrite length_app in Habs. cbn in Habs. lia.
  - rewrite lookup_insert_ne in Hk by done. exists a, b. done.
Qed.

(** The location of the record, and those of the others. *)
Lemma replaced_location : exists l, L !! r_id r = Some l /\ l_file l = index /\ locates l (file_offset rs1) r.
Proof. by apply (lo_live _ _ Hlo index rs1 r rs2). Qed.

Lemma other_location id l : L !! id = Some l -> id <> r_id r -> (forall id l, L !! id = Some l -> l_request_id l = id) ->
  exists a x b, <[index := rs1 ++ r' :: rs2]> layout !! l_file l = Some (a ++ x :: b) /\ locates l (file_offset a) x /\ is_live x = true.
Proof.
  intros Hl Hne Hids. destruct (lo_record _ _ Hlo _ _ Hl) as (a & x & b & Hk & Hx & Hxl).
  destruct (replaced_elsewhere (l_file l) a x b Hk) as (a' & b' & Hk' & Ho).
  - intros Hf ->. rewrite Hf in Hk. assert (r = x) as <- by (rewrite Hlay in Hk; by simplify_list_eq).
    apply Hne. rewrite <- (Hids _ _ Hl). apply (loc_id _ _ _ Hx).
  - exists a', x, b'. by rewrite Ho.
Qed.

Lemma other_live k a x b : <[index := rs1 ++ r' :: rs2]> layout !! k = Some (a ++ x :: b) -> is_live x = true -> (k = index -> a <> rs1) ->
  exists l, L !! r_id x = Some l /\ r_id r <> r_id x /\ l_file l = k /\ locates l (file_offset a) x.
Proof.
  intros Hk Hx Hne. destruct (unreplaced_elsewhere k a x b Hk Hne) as (a' & b' & Hk' & Ho & Hne').
  destruct (lo_live _ _ Hlo _ _ _ _ Hk' Hx) as (l & Hl & Hlf & Hloc). exists l. rewrite <- Ho. split_and!; try done.
  intros Heq. destruct replaced_location as (l0 & Hl0 & Hf0 & Hloc0).
  assert (l0 = l) as -> by congruence. rewrite Hlf in Hf0. apply (Hne' Hf0). rewrite Hf0 in Hk'.
  pose proof (loc_offset _ _ _ Hloc). pose proof (loc_offset _ _ _ Hloc0). rewrite Hlay in Hk'. injection Hk' as Hk'.
  symmetry in Hk'. apply (same_offset _ _ _ _ _ _ Hk'). congruence.
Qed.

Lemma located_replace l' : (forall id l, L !! id = Some l -> l_request_id l = id) ->
  l_file l' = index -> locates l' (file_offset rs1) r' -> is_live r' = true ->
  located (<[r_id r := l']> L) (<[index := rs1 ++ r' :: rs2]> layout).
Proof.
  intros Hids Hf Hl' Hr'. split.
  - intros id l. destruct (decide (id = r_id r)) as [->|Hne].
    + rewrite lookup_insert_eq. intros [= <-]. exists rs1, r', rs2. by rewrite Hf, lookup_insert_eq.
    + rewrite lookup_insert_ne by done. intros Hl. by eapply other_location.
  - intros k a x b Hk Hx. destruct (decide (k = index /\ a = rs1)) as [[-> ->]|Hne].
    + rewrite lookup_insert_eq in Hk. simplify_list_eq. exists l'. by rewrite Hid, lookup_insert_eq.
    + destruct (other_live k a x b Hk Hx) as (l & Hl & Hne2 & Hrest); [naive_solver|]. exists l. by rewrite lookup_insert_ne.
Qed.

Lemma located_kill : (forall id l, L !! id = Some l -> l_request_id l = id) -> is_live r' = false ->
  located (delete (r_id r) L) (<[index := rs1 ++ r' :: rs2]> layout).
Proof.
  intros Hids Hr'. split.
  - intros id l. rewrite lookup_delete_Some. intros [Hne Hl]. by eapply other_location.
  - intros k a x b Hk Hx. destruct (decide (k = index /\ a = rs1)) as [[-> ->]|Hne].
    + rewrite lookup_insert_eq in Hk. simplify_list_eq. congruence.
    + destruct (other_live k a x b Hk Hx) as (l & Hl & Hne2 & Hrest); [naive_solver|]. exists l. by rewrite lookup_delete_ne.
Qed.
End Replace.

(** A file that has no event any longer. *)
Lemma located_delete L layout index rs : located L layout -> layout !! index = Some rs -> ~ has_live rs ->
  located L (delete index layout).
Proof.
  intros Hlo Hrs Hdead. split.
  - intros id l Hl. destruct (lo_record _ _ Hlo _ _ Hl) as (a & x & b & Hk & Hx & Hxl). exists a, x, b. split; [|done].
    rewrite lookup_delete_ne; [done|]. intros Hf. rewrite <- Hf in Hk. apply Hdead. exists x. split; [|done]. assert (rs = a ++ x :: b) as -> by congruence.
    apply elem_of_app. right. by left.
  - intros k a x b. rewrite lookup_delete_Some. intros [_ Hk] Hx. exact (lo_live _ _ Hlo _ _ _ _ Hk Hx).
Qed.

Lemma locations_elsewhere L layout index rs : located L layout -> layout !! index = Some rs -> ~ has_live rs ->
  forall id l, L !! id = Some l -> l_file l <> index.
Proof.
  intros Hlo Hrs Hdead id l Hl Hf. destruct (lo_record _ _ Hlo _ _ Hl) as (a & x & b & Hk & _ & Hx). rewrite Hf in Hk. apply Hdead. exists x.
  split; [|done]. assert (rs = a ++ x :: b) as -> by congruence. apply elem_of_app. right. by left.
Qed.

(** ** Events *)

Lemma entry_of_mono ext ext' r : ext ⊆ ext' -> Forall (slot_saved ext) (r_slots r) -> entry_of ext' r = entry_of ext r.
Proof.
  intros Hsub Hs. unfold entry_of. f_equal. induction Hs as [|s slots Hs _ IH]; [done|]. cbn. rewrite IH. f_equal.
  destruct s as [d|i]; [done|]. destruct Hs as [d Hd]. cbn. erewrite !lookup_total_correct; [done| |]; [exact Hd|by eapply lookup_weaken].
Qed.

Lemma slot_saved_mono ext ext' s : ext ⊆ ext' -> slot_saved ext s -> slot_saved ext' s.
Proof. intros Hsub. destruct s as [d|i]; [done|]. intros [d Hd]. exists d. by eapply lookup_weaken. Qed.

Lemma saved_rep_mono ext ext' layout : ext ⊆ ext' -> saved_rep ext layout -> saved_rep ext' layout.
Proof.
  intros Hsub Hs index rs Hrs. eapply Forall_impl; [exact (Hs index rs Hrs)|]. intros r Hr. cbn.
  eapply Forall_impl; [exact Hr|]. intros s. by apply slot_saved_mono.
Qed.

Lemma saved_rep_append ext layout index rs r : saved_rep ext layout -> (layout !! index = Some rs \/ layout !! index = None /\ rs = []) ->
  Forall (slot_saved ext) (r_slots r) -> saved_rep ext (<[index := rs ++ [r]]> layout).
Proof.
  intros Hs Hrs Hr k rs' . rewrite lookup_insert_Some. intros [[<- <-]|[_ Hk]]; [|by eapply Hs].
  apply Forall_app. split; [|by constructor]. destruct Hrs as [Hrs|[_ ->]]; [by eapply Hs|constructor].
Qed.

Lemma placed_entry threshold ext e t slots : Forall2 (placed threshold ext) (in_attachments e) slots ->
  entry_of ext (new_record e t slots) = Entry t STATUS_READY (in_attachments e) /\ Forall (slot_saved ext) slots.
Proof.
  intros Hp. unfold entry_of, new_record. cbn [r_time r_status r_slots]. split.
  - f_equal. induction Hp as [|a s atts slots Ha _ IH]; [done|]. cbn. rewrite IH. f_equal.
    destruct s as [d|i]; cbn in *; [apply Ha|]. destruct Ha as [Ha _]. by apply lookup_total_correct.
  - induction Hp as [|a s atts slots Ha _ IH]; constructor; [|done]. destruct s as [d|i]; cbn in *; [done|]. destruct Ha as [Ha _]. eauto.
Qed.

Lemma represents_append L layout ext ext' m index rs r l : represents L layout ext m -> saved_rep ext layout -> ext ⊆ ext' ->
  (layout !! index = Some rs \/ layout !! index = None /\ rs = []) -> located L layout -> L !! r_id r = None ->
  represents (<[r_id r := l]> L) (<[index := rs ++ [r]]> layout) ext' (<[r_id r := entry_of ext' r]> m).
Proof.
  intros Hm Hs Hsub Hrs Hlo Hnew.
  assert (forall k rs' x, layout !! k = Some rs' -> x ∈ rs' -> is_live x = true -> <[r_id r := entry_of ext' r]> m !! r_id x = Some (entry_of ext' x)) as Hold.
  { intros k rs' x Hk Hx Hl. rewrite lookup_insert_ne.
    - rewrite (entry_of_mono ext ext') by (done || by eapply (proj1 (Forall_forall _ _) (Hs k rs' Hk))). by eapply (re_record _ _ _ _ Hm).
    - intros Heq. apply list_elem_of_split in Hx as (a & b & ->). destruct (lo_live _ _ Hlo _ _ _ _ Hk Hl) as (l' & Hl' & _). congruence. }
  split.
  - intros id. destruct (decide (id = r_id r)) as [->|Hne]; [rewrite !lookup_insert_eq; eauto|].
    rewrite lookup_insert_ne, lookup_insert_ne by done. apply Hm.
  - intros k rs' x. rewrite lookup_insert_Some. intros [[<- <-]|[_ Hk]]; [|by eapply Hold].
    rewrite elem_of_app, list_elem_of_singleton. intros [Hx| ->] Hl; [|by rewrite lookup_insert_eq].
    destruct Hrs as [Hrs|[_ ->]]; [by eapply Hold|by apply not_elem_of_nil in Hx].
Qed.

Lemma represents_replace L layout ext m index rs1 r r' rs2 l' : represents L layout ext m -> located L layout ->
  layout !! index = Some (rs1 ++ r :: rs2) -> is_live r = true -> record_size r' = record_size r -> r_id r' = r_id r ->
  (is_live r' = true -> represents (<[r_id r := l']> L) (<[index := rs1 ++ r' :: rs2]> layout) ext (<[r_id r := entry_of ext r']> m)) /\
  (is_live r' = false -> represents (delete (r_id r) L) (<[index := rs1 ++ r' :: rs2]> layout) ext (delete (r_id r) m)).
Proof.
  intros Hm Hlo Hlay Hr Hsize Hid.
  assert (forall k rs' x, <[index := rs1 ++ r' :: rs2]> layout !! k = Some rs' -> x ∈ rs' -> is_live x = true ->
    (x = r' \/ r_id r <> r_id x /\ m !! r_id x = Some (entry_of ext x))) as Hold.
  { intros k rs' x Hk (a & b & ->)%list_elem_of_split Hx. destruct (decide (k = index /\ a = rs1)) as [[-> ->]|Hne].
    - rewrite lookup_insert_eq in Hk. simplify_list_eq. by left.
    - assert (k = index -> a <> rs1) as Hne' by naive_solver. right.
      destruct (other_live L layout Hlo index rs1 r r' rs2 Hlay Hr Hsize k a x b Hk Hx Hne') as (l & _ & Hid' & _). split; [done|].
      destruct (unreplaced_elsewhere layout index rs1 r r' rs2 Hlay Hsize k a x b Hk Hne') as (a' & b' & Hk' & _).
      eapply (re_record _ _ _ _ Hm); [exact Hk'| |done]. apply elem_of_app. right. by left. }
  split; intros Hlive; split.
  - intros id. destruct (decide (id = r_id r)) as [->|Hne]; [rewrite !lookup_insert_eq; eauto|].
    rewrite lookup_insert_ne, lookup_insert_ne by done. apply Hm.
  - intros k rs' x Hk Hx Hxl. destruct (Hold k rs' x Hk Hx Hxl) as [->|[Hne Hmx]]; [by rewrite Hid, lookup_insert_eq|]. by rewrite lookup_insert_ne.
  - intros id. rewrite !lookup_delete_is_Some. intros [Hne Hs]. split; [done|by apply Hm].
  - intros k rs' x Hk Hx Hxl. destruct (Hold k rs' x Hk Hx Hxl) as [->|[Hne Hmx]]; [congruence|]. by rewrite lookup_delete_ne.
Qed.

Lemma represents_delete L layout ext m index : represents L layout ext m -> represents L (delete index layout) ext m.
Proof. intros Hm. split; [apply Hm|]. intros k rs x. rewrite lookup_delete_Some. intros [_ Hk]. exact (re_record _ _ _ _ Hm k rs x Hk). Qed.
