(* ===== verification/JournalStatus.v ===== *)
(** * The status of the events (journal::update_event_status())

    The status of an event only increases; an event that is completed or failed
    leaves the journal, and a file whose last event left loses its object. *)

From S2P Require Import Prelude Bytes SortedMap JournalFile JournalLayout Journal JournalIndex JournalRep JournalChanges.

(** ** File objects in use *)

Lemma rep_in_use j L layout index rs : index_rep j L ∅ -> located L layout -> layout !! index = Some rs -> has_live rs -> in_use j index = true.
Proof.
  intros Hj Hlo Hrs (a & x & b & -> & Hx)%has_live_split. destruct (lo_live _ _ Hlo _ _ _ _ Hrs Hx) as (l & Hl & Hf & _).
  by eapply in_use_true.
Qed.

Lemma rep_release held j L layout : index_rep j L ∅ -> located L layout -> (forall index, file_rep j layout index) -> release held j = j.
Proof.
  intros Hj Hlo Hfiles. apply release_kept. intros k [f Hk]. right. specialize (Hfiles k). unfold file_rep in Hfiles.
  destruct (layout !! k) as [rs|] eqn:E; [|destruct Hfiles; congruence]. destruct Hfiles as (_ & _ & _ & _ & _ & Hlive).
  by eapply rep_in_use.
Qed.

Lemma file_rep_other j j' layout layout' k : f_event_files j' !! k = f_event_files j !! k -> d_files (j_dir j') !! k = d_files (j_dir j) !! k ->
  layout' !! k = layout !! k -> file_rep j layout k -> file_rep j' layout' k.
Proof. unfold file_rep. by intros -> -> ->. Qed.

Lemma file_object_some j index f : f_event_files j !! index = Some f -> file_object j index = f.
Proof. unfold file_object. by intros ->. Qed.

Lemma content_some j index c : d_files (j_dir j) !! index = Some c -> content j index = c.
Proof. unfold content. by intros ->. Qed.

(** ** The byte of the status *)

Definition set_record_status (r : record) (s : Z) : record := Rec s (r_id r) (r_time r) (r_slots r).

(** What follows the status in a record does not depend on it. *)
Definition record_rest (r : record) : list Z := drop 3 (encode_record r).

Lemma encode_record_status r s : encode_record (set_record_status r s) = event_magic ++ [s] ++ record_rest r.
Proof. done. Qed.

Lemma write_status pre post r s : overwrite (pre ++ encode_record r ++ post) (Z.of_nat (length pre) + offsetof_f_status) [s]
  = pre ++ encode_record (set_record_status r s) ++ post.
Proof.
  rewrite encode_record_status. replace (encode_record r) with (event_magic ++ [r_status r] ++ record_rest r) by (by destruct r).
  replace (Z.of_nat (length pre) + offsetof_f_status) with (Z.of_nat (length (pre ++ event_magic))).
  2: { rewrite length_app. change (length event_magic) with 2%nat. unfold offsetof_f_status. lia. }
  rewrite <- !(app_assoc event_magic), (app_assoc pre event_magic). rewrite <- !(app_assoc [_]).
  rewrite overwrite_split by done. by rewrite <- !app_assoc.
Qed.

Lemma encode_records_replace rs1 r rs2 : journal_header ++ encode_records (rs1 ++ r :: rs2)
  = (journal_header ++ encode_records rs1) ++ encode_record r ++ encode_records rs2.
Proof. rewrite encode_records_app, <- app_assoc. done. Qed.

Lemma record_wf_status r s : record_wf r -> live_status s = true \/ dead_status s = true -> record_wf (set_record_status r s).
Proof. intros [] Hs. by split. Qed.

Lemma status_range s : live_status s = true \/ dead_status s = true -> wrap 8 s = s /\ s ∈ [STATUS_READY; STATUS_FORWARDED; STATUS_ACKNOWLEDGED; STATUS_COMPLETED; STATUS_FAILED].
Proof.
  intros [Hs|Hs]; apply bool_decide_eq_true in Hs; destruct_or? Hs; subst s; split; try reflexivity; rewrite !elem_of_cons; auto 10.
Qed.

Lemma status_cases s : s ∈ [STATUS_READY; STATUS_FORWARDED; STATUS_ACKNOWLEDGED; STATUS_COMPLETED; STATUS_FAILED] ->
  live_status s = true /\ dead_status s = false \/ dead_status s = true /\ live_status s = false.
Proof. rewrite !elem_of_cons. intros [->|[->|[->|[->|[->|[]%elem_of_nil]]]]]; auto. Qed.

(** The changes of the table are those that increase the status. *)
Lemma status_changes_increase a b : live_status a = true -> b ∈ [STATUS_READY; STATUS_FORWARDED; STATUS_ACKNOWLEDGED; STATUS_COMPLETED; STATUS_FAILED] ->
  merge_status a b ∈ status_changes <-> a < b.
Proof.
  intros Ha. apply bool_decide_eq_true in Ha. rewrite !elem_of_cons.
  assert (forall a b, bool_decide (merge_status a b ∈ status_changes) = bool_decide (a < b) -> merge_status a b ∈ status_changes <-> a < b) as Hdec.
  { intros x y Heq. rewrite <- (bool_decide_eq_true (merge_status x y ∈ _)), Heq. apply bool_decide_eq_true. }
  intros [->|[->|[->|[->|[->|[]%elem_of_nil]]]]]; destruct_or? Ha; subst a; apply Hdec; vm_compute; reflexivity.
Qed.

(** ** The record an event is read from *)

Lemma rep_event unique_number `{!UniqueNumber unique_number} good j L layout m id en : rep unique_number good j L layout m -> m !! id = Some en ->
  exists p l rs1 r rs2 f c, find_location j id = Some (p, l) /\ L !! id = Some l /\ layout !! l_file l = Some (rs1 ++ r :: rs2) /\
    locates l (file_offset rs1) r /\ is_live r = true /\ r_id r = id /\ en = entry_of (d_externals (j_dir j)) r /\
    f_event_files j !! l_file l = Some f /\ d_files (j_dir j) !! l_file l = Some c /\ open_rep f c (rs1 ++ r :: rs2).
Proof.
  intros Hrep Hen. destruct (re_only _ _ _ _ (rp_represents _ _ _ _ _ _ Hrep) id) as [l Hl]; [eauto|].
  destruct (find_location_some j L ∅ (rp_index _ _ _ _ _ _ Hrep) id l Hl) as (p & Hp & _).
  destruct (lo_record _ _ (rp_located _ _ _ _ _ _ Hrep) id l Hl) as (rs1 & r & rs2 & Hlay & Hloc & Hlive).
  destruct (ix_id _ _ _ (rp_index _ _ _ _ _ _ Hrep) id l Hl) as (_ & _ & _ & _ & Hid).
  pose proof (loc_id _ _ _ Hloc) as Hrid. rewrite Hid in Hrid.
  pose proof (rp_files _ _ _ _ _ _ Hrep (l_file l)) as Hfile. unfold file_rep in Hfile. rewrite Hlay in Hfile.
  destruct Hfile as (f & c & Hf & Hc & Hopen & _). exists p, l, rs1, r, rs2, f, c. split_and!; try done.
  assert (m !! r_id r = Some (entry_of (d_externals (j_dir j)) r)) as Hm.
  { eapply (re_record _ _ _ _ (rp_represents _ _ _ _ _ _ Hrep)); [exact Hlay| |done]. apply elem_of_app. right. by left. }
  congruence.
Qed.

(** ** The files after a change of status *)

Lemma open_status f c rs1 r rs2 s : open_rep f c (rs1 ++ r :: rs2) -> live_status s = true \/ dead_status s = true ->
  exists f' c' stale, write (seekp f (file_offset rs1 + offsetof_f_status)) c [s] = (f', c') /\ same_object f f' /\
    c' = journal_header ++ encode_records (rs1 ++ set_record_status r s :: rs2) ++ stale /\
    Forall record_wf (rs1 ++ set_record_status r s :: rs2).
Proof.
  intros [Hfail Hwf _ _ _ [stale Hc]] Hs. eexists _, _, stale. split; [reflexivity|]. split_and!.
  - done.
  - cbn [f_fail seekp f_pos_write]. rewrite Hfail, Hc. rewrite !app_assoc. rewrite encode_records_replace, <- app_assoc. unfold file_offset.
    rewrite <- (app_assoc (encode_record r)), write_status. by rewrite encode_records_replace, <- !app_assoc.
  - apply Forall_app in Hwf as [H1 [H2 H3]%Forall_cons]. apply Forall_app. split; [done|]. constructor; [by apply record_wf_status|done].
Qed.

Lemma offset_status rs1 r s rs2 : file_offset (rs1 ++ set_record_status r s :: rs2) = file_offset (rs1 ++ r :: rs2).
Proof. by rewrite !file_offset_cons. Qed.

Lemma count_replace rs1 r r' rs2 : length (List.filter is_live (rs1 ++ r' :: rs2))
  = (length (List.filter is_live (rs1 ++ r :: rs2)) + (if is_live r' then 1 else 0) - (if is_live r then 1 else 0))%nat.
Proof.
  rewrite !List.filter_app, !length_app. cbn. destruct (is_live r), (is_live r'); cbn; lia.
Qed.

Lemma count_positive rs : has_live rs -> (0 < length (List.filter is_live rs))%nat.
Proof. intros (r & Hr & Hl). destruct (List.filter is_live rs) as [|x l] eqn:E; [|cbn; lia]. assert (List.In r (List.filter is_live rs)) as Hin; [|by rewrite E in Hin]. apply List.filter_In. split; [by apply list_elem_of_In|done]. Qed.

Lemma count_bound rs : Z.of_nat (length (List.filter is_live rs)) <= file_offset rs.
Proof. pose proof (length_records_offset rs). pose proof (List.filter_length_le is_live rs). lia. Qed.

Section Update.
Context (unique_number : Z -> Z * Z) {unique : UniqueNumber unique_number} (good : record -> Prop) {free : StatusFree good}.
Context (j : journal) (L : locations) (layout : layouts) (m : events) (Hrep : rep unique_number good j L layout m).
Context (id : list Z) (p : nat) (l : location) (rs1 : list record) (r : record) (rs2 : list record) (f f' : file) (c c' : list Z) (s : Z) (stale : list Z).
Context (Hfind : find_location j id = Some (p, l)) (Hl : L !! id = Some l) (Hlay : layout !! l_file l = Some (rs1 ++ r :: rs2)).
Context (Hloc : locates l (file_offset rs1) r) (Hlive : is_live r = true) (Hid : r_id r = id).
Context (Hopen : open_rep f c (rs1 ++ r :: rs2)) (Hsame : same_object f f').
Context (Hc' : c' = journal_header ++ encode_records (rs1 ++ set_record_status r s :: rs2) ++ stale).
Context (Hwf : Forall record_wf (rs1 ++ set_record_status r s :: rs2)).

Definition rewritten : journal := with_file (l_file l) f' (with_content (l_file l) c' j).

Lemma location_ids id2 l2 : L !! id2 = Some l2 -> l_request_id l2 = id2.
Proof. intros Hl2. by destruct (ix_id _ _ _ (rp_index _ _ _ _ _ _ Hrep) _ _ Hl2) as (_ & _ & _ & _ & ?). Qed.

Lemma saved_replace : saved_rep (d_externals (j_dir j)) (<[l_file l := rs1 ++ set_record_status r s :: rs2]> layout).
Proof.
  intros k rs. rewrite lookup_insert_Some. intros [[<- <-]|[_ Hk]]; [|by apply (rp_saved _ _ _ _ _ _ Hrep k)].
  pose proof (rp_saved _ _ _ _ _ _ Hrep _ _ Hlay) as Hs. apply Forall_app in Hs as [H1 [H2 H3]%Forall_cons]. apply Forall_app. split; [done|]. by constructor.
Qed.

Lemma good_replace index rs : <[l_file l := rs1 ++ set_record_status r s :: rs2]> layout !! index = Some rs -> Forall good rs.
Proof.
  rewrite lookup_insert_Some. intros [[<- <-]|[_ Hk]]; [|by apply (rp_good _ _ _ _ _ _ Hrep index)].
  pose proof (rp_good _ _ _ _ _ _ Hrep _ _ Hlay) as Hg. apply Forall_app in Hg as [H1 [H2 H3]%Forall_cons]. apply Forall_app. split; [done|].
  constructor; [by apply free|done].
Qed.

Lemma range_replace : layout_range j (<[l_file l := rs1 ++ set_record_status r s :: rs2]> layout).
Proof.
  intros k. rewrite lookup_insert_is_Some. intros [<-|[_ Hk]]; [|by apply (rp_range _ _ _ _ _ _ Hrep)].
  apply (rp_range _ _ _ _ _ _ Hrep). rewrite Hlay. eauto.
Qed.

Lemma update_live : live_status s = true ->
  rep unique_number good (release None (update_location p (set_status l s) rewritten))
    (<[id := set_status l s]> L) (<[l_file l := rs1 ++ set_record_status r s :: rs2]> layout)
    (<[id := entry_of (d_externals (j_dir j)) (set_record_status r s)]> m).
Proof.
  intros Hs. set (j' := update_location _ _ _). set (layout' := <[_ := _]> layout).
  assert (index_rep j' (<[id := set_status l s]> L) ∅) as Hindex.
  { eapply (update_location_rep rewritten L ∅ p l); try done.
    - by eapply index_rep_eq, (rp_index _ _ _ _ _ _ Hrep).
    - cbn. by apply location_ids. }
  assert (located (<[id := set_status l s]> L) layout') as Hlocated.
  { rewrite <- Hid. eapply located_replace; try done; [apply Hrep|apply location_ids|]. destruct Hloc. by split. }
  assert (forall k, file_rep j' layout' k) as Hfiles.
  { intros k. destruct (decide (k = l_file l)) as [->|Hne].
    - unfold file_rep, layout'. rewrite lookup_insert_eq. exists f', c'. cbn. rewrite !lookup_insert_eq. split_and!; try done.
      + destruct Hopen, Hsame as (He & Hn & Hf). split; rewrite ?offset_status; try congruence; try done; [|by exists stale].
        rewrite <- He, (count_replace rs1 r). unfold is_live in *. cbn. rewrite Hs, Hlive. rewrite op_count. f_equal. lia.
      + exists (set_record_status r s). split; [|done]. apply elem_of_app. right. by left.
    - eapply file_rep_other; [| | |apply (rp_files _ _ _ _ _ _ Hrep k)]; subst layout'; cbn; by rewrite lookup_insert_ne. }
  rewrite (rep_release None j' _ layout') by done. destruct Hrep. split; try done.
  - apply range_replace.
  - apply saved_replace.
  - apply good_replace.
  - rewrite <- Hid. by eapply represents_replace.
Qed.

Lemma erased_index : index_rep (erase_location id l rewritten) (delete id L) ∅.
Proof. eapply index_rep_eq; [..|exact (erase_location_rep j L l id (rp_index _ _ _ _ _ _ Hrep) Hl)]; done. Qed.

(** The object of the file once the event is erased. *)
Definition erased_object : file :=
  let g := decrease_event_count f' in
  if is_empty (erase_location id l rewritten) then set_next_append g sizeof_journal_header else g.

Lemma erased_files : f_event_files (erase_location id l rewritten) = <[l_file l := erased_object]> (f_event_files j).
Proof.
  unfold erase_location. cbn. rewrite insert_insert_eq. f_equal. unfold erased_object, file_object. cbn. by rewrite lookup_insert_eq.
Qed.

Lemma erased_count : live_status s = false ->
  f_event_count erased_object = Z.of_nat (length (List.filter is_live (rs1 ++ set_record_status r s :: rs2))).
Proof.
  intros Hs. assert (f_event_count erased_object = wrap 32 (f_event_count f' - 1)) as -> by (unfold erased_object; by destruct (is_empty _)).
  rewrite (count_replace rs1 r), Hlive. change (is_live (set_record_status r s)) with (live_status s). rewrite Hs. destruct Hopen as [_ _ _ Hb Hcount _], Hsame as (<- & _ & _).
  assert (has_live (rs1 ++ r :: rs2)) as Hh by (exists r; split; [apply elem_of_app; right; by left|done]).
  apply count_positive in Hh. pose proof (count_bound (rs1 ++ r :: rs2)). rewrite Hcount. rewrite wrap_small; unfold uword; lia.
Qed.

Lemma update_dead_live : live_status s = false -> has_live (rs1 ++ set_record_status r s :: rs2) ->
  rep unique_number good (release None (erase_location id l rewritten)) (delete id L)
    (<[l_file l := rs1 ++ set_record_status r s :: rs2]> layout) (delete id m).
Proof.
  intros Hs Hh. set (j' := erase_location _ _ _). set (layout' := <[_ := _]> layout).
  pose proof erased_index as Hindex.
  assert (located (delete id L) layout') as Hlocated.
  { rewrite <- Hid. apply located_kill; try done; [apply Hrep|apply location_ids]. }
  assert (is_empty j' = false) as Hempty.
  { apply not_true_iff_false. intros He. apply has_live_split in Hh as (a & x & b & Heq & Hx).
    destruct (lo_live _ _ Hlocated (l_file l) a x b) as (lx & Hlx & _); [unfold layout'; by rewrite lookup_insert_eq, Heq|done|].
    destruct (ix_id _ _ _ Hindex _ _ Hlx) as (q & Hq & _). fold j' in Hq. unfold is_empty in He. by destruct (f_event_locations j'). }
  assert (forall k, file_rep j' layout' k) as Hfiles.
  { intros k. destruct (decide (k = l_file l)) as [->|Hne].
    - unfold file_rep, layout'. rewrite lookup_insert_eq. exists erased_object, c'. unfold j'. rewrite erased_files. cbn. rewrite !lookup_insert_eq.
      split_and!; try done. pose proof (erased_count Hs) as Hcount.
      assert (erased_object = decrease_event_count f') as Heq by (unfold erased_object; fold j'; by rewrite Hempty). rewrite Heq in *.
      destruct Hopen, Hsame as (He & Hn & Hf). split; rewrite ?offset_status; try done; [cbn; congruence..|by exists stale].
    - eapply file_rep_other; [| | |apply (rp_files _ _ _ _ _ _ Hrep k)]; subst layout'; unfold j'; rewrite ?erased_files; cbn; by rewrite lookup_insert_ne. }
  rewrite (rep_release None j' _ layout') by done. destruct Hrep. split; try done.
  - apply range_replace.
  - apply saved_replace.
  - apply good_replace.
  - rewrite <- Hid. by eapply represents_replace.
Qed.

(** The last event of the file left. *)
Lemma update_dead_closed : dead_status s = true -> live_status s = false -> ~ has_live (rs1 ++ set_record_status r s :: rs2) ->
  rep unique_number good (release None (erase_location id l rewritten)) (delete id L) (delete (l_file l) layout) (delete id m).
Proof.
  intros Hds Hs Hdead. set (j' := erase_location _ _ _). set (layout' := <[l_file l := rs1 ++ set_record_status r s :: rs2]> layout).
  pose proof erased_index as Hindex. fold j' in Hindex.
  assert (layout' !! l_file l = Some (rs1 ++ set_record_status r s :: rs2)) as Hlay' by (unfold layout'; by rewrite lookup_insert_eq).
  assert (located (delete id L) layout') as Hlocated.
  { rewrite <- Hid. apply located_kill; try done; [apply Hrep|apply location_ids]. }
  assert (delete (l_file l) layout = delete (l_file l) layout') as -> by (unfold layout'; by rewrite delete_insert_eq).
  assert (release None j' = close_file (l_file l) j') as ->.
  { apply release_closes; [done| |].
    - eapply in_use_false; [exact Hindex|by eapply locations_elsewhere|by intros t l2 ?].
    - intros k Hk Hne. right. unfold j' in Hk. rewrite erased_files, lookup_insert_ne in Hk by done.
      pose proof (rp_files _ _ _ _ _ _ Hrep k) as Hfk. unfold file_rep in Hfk. destruct (layout !! k) as [rs|] eqn:Ek; [|destruct Hfk as [Hfk _]; rewrite Hfk in Hk; by destruct Hk].
      destruct Hfk as (_ & _ & _ & _ & _ & Hlk). eapply rep_in_use; [done|exact Hlocated| |exact Hlk]. unfold layout'. by rewrite lookup_insert_ne. }
  assert (f_event_files j' !! l_file l = Some erased_object) as Hobj by (unfold j'; by rewrite erased_files, lookup_insert_eq).
  assert (content j' (l_file l) = c') as Hcontent by (unfold content; cbn; by rewrite lookup_insert_eq).
  unfold close_file. rewrite Hobj, Hcontent. destruct Hrep. split; try done.
  - eapply index_rep_eq; [..|exact Hindex]; done.
  - eapply located_delete; done.
  - intros k. destruct (decide (k = l_file l)) as [->|Hne].
    + unfold file_rep. rewrite lookup_delete_eq. cbn. rewrite lookup_delete_eq. split; [done|]. intros c2. cbn.
      destruct (truncate _ _ _) as [c3|] eqn:Et; [|by rewrite lookup_delete_eq]. rewrite lookup_insert_eq. intros [= <-].
      assert (f_fail erased_object = false) as Hfail.
      { assert (f_fail erased_object = f_fail f') as -> by (unfold erased_object; by destruct (is_empty _)). destruct Hopen, Hsame as (_ & _ & <-). done. }
      assert (Forall (fun r => is_live r = false) (rs1 ++ set_record_status r s :: rs2)) as Hall.
      { apply Forall_forall. intros x Hx. apply not_true_iff_false. intros Hxl. apply Hdead. by exists x. }
      destruct (is_empty j') eqn:He.
      * pose proof (truncate_records (f_file_management (j_config j)) erased_object [] (encode_records (rs1 ++ set_record_status r s :: rs2) ++ stale) Hfail) as Ht.
        unfold encode_records in Ht at 1. cbn [fmap list_fmap concat app] in Ht. rewrite <- Hc', Et in Ht.
        destruct Ht as (tail & -> & Htail); [unfold erased_object; fold j'; by rewrite He|]. by apply (closed_dead []).
      * pose proof (truncate_records (f_file_management (j_config j)) erased_object (rs1 ++ set_record_status r s :: rs2) stale Hfail) as Ht.
        rewrite <- Hc', Et in Ht. destruct Ht as (tail & -> & Htail); [|by apply closed_dead].
        unfold erased_object. fold j'. rewrite He, offset_status. destruct Hopen, Hsame as (_ & Hn & _). cbn. congruence.
    + eapply (file_rep_other j); [| | |apply (rp_files k)]; cbn; rewrite ?lookup_delete_ne, ?erased_files by done.
      * rewrite insert_insert_eq. by rewrite lookup_insert_ne.
      * destruct (truncate _ _ _); rewrite ?lookup_insert_ne, ?lookup_delete_ne, ?lookup_insert_ne by done; done.
      * unfold layout'. by rewrite lookup_insert_ne.
  - intros k. rewrite lookup_delete_is_Some. intros [_ Hk]. apply range_replace. exact Hk.
  - intros k rs. rewrite lookup_delete_Some. intros [_ Hk]. by eapply saved_replace.
  - intros k rs. rewrite lookup_delete_Some. intros [_ Hk]. by eapply good_replace.
  - apply represents_delete. rewrite <- Hid. by eapply represents_replace.
Qed.
End Update.

(** ** The operation *)

(** What a change of status does to the events. *)
Definition spec_status (id : list Z) (s : Z) (m : events) : bool * events :=
  match m !! id with
  | None => (false, m)
  | Some en =>
      if decide (e_status en < s)
      then (true, if dead_status s then delete id m else <[id := Entry (e_time en) s (e_attachments en)]> m)
      else (false, m)
  end.

Definition valid_status (s : Z) : Prop := s ∈ [STATUS_READY; STATUS_FORWARDED; STATUS_ACKNOWLEDGED; STATUS_COMPLETED; STATUS_FAILED].

Section Status.
Context (unique_number : Z -> Z * Z) {unique : UniqueNumber unique_number} (good : record -> Prop) {free : StatusFree good}.

Lemma update_unknown j L layout m id s : rep unique_number good j L layout m -> m !! id = None -> valid_status s ->
  update_event_status id s j = Ok (false, j).
Proof.
  intros Hrep Hm Hs. unfold update_event_status. rewrite decide_False by (by intros H).
  assert (L !! id = None) as HL.
  { destruct (L !! id) as [l|] eqn:E; [|done]. destruct (lo_record _ _ (rp_located _ _ _ _ _ _ Hrep) id l E) as (rs1 & r & rs2 & Hlay & Hloc & Hlive).
    destruct (ix_id _ _ _ (rp_index _ _ _ _ _ _ Hrep) id l E) as (_ & _ & _ & _ & Hid).
    pose proof (re_record _ _ _ _ (rp_represents _ _ _ _ _ _ Hrep) _ _ r Hlay) as Hmr. rewrite (loc_id _ _ _ Hloc) in Hid. rewrite Hid, Hm in Hmr.
    discriminate Hmr; [|done]. apply elem_of_app. right. by left. }
  by rewrite (find_location_none j L ∅ (rp_index _ _ _ _ _ _ Hrep) id HL).
Qed.

Lemma update_status_rep j m id s : journal_rep unique_number good j m -> valid_status s ->
  exists j', update_event_status id s j = Ok ((spec_status id s m).1, j') /\ journal_rep unique_number good j' (spec_status id s m).2 /\
    j_config j' = j_config j.
Proof.
  intros (L & layout & Hrep) Hs. unfold spec_status. destruct (m !! id) as [en|] eqn:Hm.
  2: { exists j. split_and!; [by eapply update_unknown|by exists L, layout|done]. }
  destruct (rep_event unique_number good j L layout m id en Hrep Hm) as (p & l & rs1 & r & rs2 & f & c & Hfind & Hl & Hlay & Hloc & Hlive & Hid & Hen & Hf & Hc & Hopen).
  unfold update_event_status. rewrite decide_False by (by intros H). rewrite Hfind.
  assert (e_status en = l_status l) as Hst by (rewrite Hen, (loc_status _ _ _ Hloc); done).
  assert (merge_status (l_status l) s ∈ status_changes <-> e_status en < s) as Hchange.
  { rewrite Hst. apply status_changes_increase; [|done]. by rewrite (loc_status _ _ _ Hloc). }
  destruct (decide (e_status en < s)) as [Hlt|Hge].
  2: { rewrite decide_True by (by rewrite Hchange). exists j. split_and!; [done|by exists L, layout|done]. }
  rewrite decide_False by (rewrite Hchange; lia).
  rewrite (file_object_some _ _ _ Hf), (content_some _ _ _ Hc), (loc_offset _ _ _ Hloc).
  destruct (status_cases s Hs) as [[Hlv Hdd]|[Hdd Hlv]];
    destruct (open_status f c rs1 r rs2 s Hopen ltac:(auto)) as (f' & c' & stale & Hw & Hsame & Hc' & Hwf);
    destruct (status_range s ltac:(auto)) as [-> _]; rewrite Hw; cbn [fst snd]; rewrite Hdd.
  - rewrite decide_False by (apply bool_decide_eq_false in Hdd; exact Hdd). eexists. split; [|split].
    + cbn. rewrite (file_object_some _ _ f') by (cbn; by rewrite lookup_insert_eq). destruct Hsame as (_ & _ & <-). by rewrite (op_fail _ _ _ Hopen).
    + pose proof (update_live unique_number good j L layout m Hrep id p l rs1 r rs2 f f' c c' s stale Hfind Hl Hlay Hloc Hlive Hid Hopen Hsame Hc' Hwf Hlv) as Hup.
      exists (<[id := set_status l s]> L), (<[l_file l := rs1 ++ set_record_status r s :: rs2]> layout).
      rewrite Hen. exact Hup.
    + by rewrite release_config.
  - rewrite decide_True by (apply bool_decide_eq_true in Hdd; exact Hdd). eexists. split; [|split].
    + cbn [snd]. f_equal. f_equal. fold (rewritten j l f' c'). rewrite (file_object_some _ _ (erased_object j id l f' c')).
      * assert (f_fail (erased_object j id l f' c') = f_fail f') as -> by (unfold erased_object; by destruct (is_empty _)).
        destruct Hsame as (_ & _ & <-). by rewrite (op_fail _ _ _ Hopen).
      * by rewrite erased_files, lookup_insert_eq.
    + fold (rewritten j l f' c'). destruct (decide (Exists (fun r => is_live r = true) (rs1 ++ set_record_status r s :: rs2))) as [Hex|Hex].
      * eexists _, _. eapply update_dead_live; try done. by apply Exists_exists in Hex.
      * eexists _, _. eapply update_dead_closed; try done. intros Hh. apply Hex. by apply Exists_exists.
    + by rewrite release_config.
Qed.
End Status.
