(* ===== verification/JournalAdd.v ===== *)
(** * Adding an event (journal::add_event())

    The event goes to the first file with room for it, from the current one on;
    it gets the first time, from the one given, that no other event has. *)

From S2P Require Import Prelude Bytes SortedMap JournalFile JournalLayout Journal JournalIndex JournalRep JournalChanges JournalStatus.

(** ** Opening a file *)

Definition opened (index : Z) (j : journal) : journal := with_file index (file_object j index) (with_content index (content j index) j).

Lemma get_event_file_create index j : index < f_maximum_number_of_files (j_config j) ->
  (is_Some (f_event_files j !! index) -> is_Some (d_files (j_dir j) !! index)) ->
  get_event_file index true j = Ok (true, opened index j).
Proof.
  intros Hi Hboth. unfold get_event_file. rewrite decide_False by lia. unfold opened, file_object, content.
  destruct (f_event_files j !! index) as [f|] eqn:Ef.
  - destruct Hboth as [c Hc]; [eauto|]. rewrite Hc. cbn. f_equal. f_equal.
    unfold with_file, with_content, with_event_files, with_dir. cbn. rewrite !insert_id by done. by destruct j as [? [] ? ? ? ? ? ? ? ? ?].
  - destruct (d_files (j_dir j) !! index) as [c|] eqn:Ec; [|done]. cbn. f_equal. f_equal.
    unfold with_file, with_content, with_event_files, with_dir. cbn. rewrite (insert_id (d_files _)) by done. by destruct j as [? [] ? ? ? ? ? ? ? ? ?].
Qed.

(** The object of a closed file that was opened for nothing. *)
Lemma close_unused index j f : f_event_files j !! index = Some f -> f_next_append f = 0 -> closed_rep (content j index) ->
  let j' := close_file index j in
  f_event_files j' = delete index (f_event_files j) /\ (forall k, k <> index -> d_files (j_dir j') !! k = d_files (j_dir j) !! k) /\
  (forall c, d_files (j_dir j') !! index = Some c -> closed_rep c) /\ d_externals (j_dir j') = d_externals (j_dir j) /\
  d_counter (j_dir j') = d_counter (j_dir j) /\ j_config j' = j_config j /\ f_current_file_index j' = f_current_file_index j /\
  f_can_be_compressed j' = f_can_be_compressed j.
Proof.
  intros Hf Hn Hc. unfold close_file. rewrite Hf. cbn. split_and!; try done.
  - intros k Hk. destruct (truncate _ _ _); by rewrite ?lookup_insert_ne, ?lookup_delete_ne by done.
  - intros c. destruct (truncate _ _ _) as [c'|] eqn:Et.
    + rewrite lookup_insert_eq. intros [= <-]. by eapply truncate_unused.
    + by rewrite lookup_delete_eq.
Qed.

(** ** Room for an event *)

Definition has_room (j : journal) (size index : Z) : Prop :=
  f_next_append (file_object j index) + size < f_maximum_file_size (j_config j) /\ f_event_count (file_object j index) < f_maximum_events (j_config j).

#[export] Instance has_room_dec j size index : Decision (has_room j size index).
Proof. unfold has_room. apply _. Defined.

Lemma event_size_total threshold e : event_size threshold e = event_total threshold e.
Proof.
  unfold event_size, event_total. set (base := _ + _ + _). clearbody base. revert base.
  induction (in_attachments e) as [|a atts IH]; intros base; [cbn; lia|]. cbn [foldl]. rewrite filter_cons.
  destruct (decide (Z.of_nat (length a) < threshold)); [|by rewrite IH]. rewrite IH. cbn [concat]. rewrite length_app. lia.
Qed.

Section Add.
Context (unique_number : Z -> Z * Z) {unique : UniqueNumber unique_number} (good : record -> Prop) {free : StatusFree good}.

(** An event the journal can take, at a time no other event has. *)
Record addable (j : journal) (m : events) (e : in_event) (t : Z) : Prop := {
  ad_new : m !! in_request_id e = None;
  ad_id : (0 < length (in_request_id e) < 256)%nat;
  ad_attachments : (length (in_attachments e) < 256)%nat;
  ad_time : - 2 ^ 63 <= t / billion < 2 ^ 63;
  ad_free : forall id en, m !! id = Some en -> e_time en <> t;
  ad_good ext slots : Forall2 (placed (f_inline_attachment_size_threshold (j_config j)) ext) (in_attachments e) slots -> good (new_record e t slots);
  ad_numbers : d_counter (j_dir j) + first_number + Z.of_nat (length (in_attachments e)) <= 2 ^ 31;
}.

Lemma rep_location j L layout m id l : rep unique_number good j L layout m -> L !! id = Some l -> exists en, m !! id = Some en /\ e_time en = l_event_time l.
Proof.
  intros Hrep Hl. destruct (lo_record _ _ (rp_located _ _ _ _ _ _ Hrep) id l Hl) as (rs1 & r & rs2 & Hlay & Hloc & Hlive).
  destruct (ix_id _ _ _ (rp_index _ _ _ _ _ _ Hrep) id l Hl) as (_ & _ & _ & _ & Hid).
  exists (entry_of (d_externals (j_dir j)) r). rewrite (loc_id _ _ _ Hloc) in Hid. rewrite <- Hid. split.
  - eapply (re_record _ _ _ _ (rp_represents _ _ _ _ _ _ Hrep)); [exact Hlay| |done]. apply elem_of_app. right. by left.
  - by rewrite (loc_time _ _ _ Hloc).
Qed.

(** What is known of the file of an index before an event is appended. *)
Lemma rep_append_point j L layout m index : rep unique_number good j L layout m -> exists rs stale,
  (layout !! index = Some rs \/ layout !! index = None /\ rs = []) /\
  append_point (file_object j index) (content j index) (journal_header ++ encode_records rs) stale /\
  f_fail (file_object j index) = false /\ Forall record_wf rs /\
  f_event_count (file_object j index) = Z.of_nat (length (List.filter is_live rs)) /\
  file_offset rs <= f_next_append (file_object j index) + sizeof_journal_header.
Proof.
  intros Hrep. pose proof (rp_files _ _ _ _ _ _ Hrep index) as Hf. unfold file_rep in Hf. destruct (layout !! index) as [rs|] eqn:E.
  - destruct Hf as (f & c & Hf & Hc & [Hfail Hwf Hnext Hb Hcount [stale Hcont]] & _). exists rs, stale.
    rewrite (file_object_some _ _ _ Hf), (content_some _ _ _ Hc). split_and!; try done; [auto| |unfold sizeof_journal_header; lia].
    right. split_and!; [done| |by rewrite Hcont, <- app_assoc]. pose proof (file_offset_min rs). unfold file_offset, sizeof_journal_header in *. lia.
  - destruct Hf as [Hf Hc]. exists [], (drop 8 (content j index)). unfold file_object. rewrite Hf. cbn. split_and!; try done; [auto|].
    left. split_and!; done.
Qed.

Lemma try_file_room j m e t index : journal_rep unique_number good j m -> addable j m e t -> index = f_current_file_index j ->
  has_room j (event_size (f_inline_attachment_size_threshold (j_config j)) e) index ->
  exists j', try_file unique_number e (event_size (f_inline_attachment_size_threshold (j_config j)) e) t j = Ok (Some true, j') /\
    journal_rep unique_number good j' (<[in_request_id e := Entry t STATUS_READY (in_attachments e)]> m) /\ j_config j' = j_config j /\
    f_can_be_compressed j' = f_can_be_compressed j /\ d_counter (j_dir j') <= d_counter (j_dir j) + Z.of_nat (length (in_attachments e)).
Proof.
  intros (L & layout & Hrep) Hadd -> Hroom. set (index := f_current_file_index j) in *. rewrite event_size_total in *.
  pose proof (rp_current _ _ _ _ _ _ Hrep) as Hcur. fold index in Hcur.
  assert (is_Some (f_event_files j !! index) -> is_Some (d_files (j_dir j) !! index)) as Hboth.
  { intros [f Hf]. pose proof (rp_files _ _ _ _ _ _ Hrep index) as Hfr. unfold file_rep in Hfr. destruct (layout !! index); [|destruct Hfr; congruence].
    destruct Hfr as (? & c & _ & Hc & _). eauto. }
  unfold try_file. fold index. rewrite get_event_file_create by (done || lia). cbn [result_bind negb].
  assert (file_object (opened index j) index = file_object j index) as -> by (unfold file_object at 1; cbn; by rewrite lookup_insert_eq).
  assert (content (opened index j) index = content j index) as -> by (unfold content at 1; cbn; by rewrite lookup_insert_eq).
  change (j_config (opened index j)) with (j_config j).
  destruct Hroom as [Hspace Hevents]. rewrite decide_True by done.
  destruct (rep_append_point j L layout m index Hrep) as (rs & stale & Hrs & Hap & Hfail & Hwf & Hcount & Hoff).
  pose proof (rp_config _ _ _ _ _ _ Hrep) as [_ Hmax _ _]. unfold JOURNAL_MAXIMUM_FILE_SIZE in Hmax. destruct Hadd as [Hnew Hid Hatts Htime Hfree Hgood Hnum].
  set (threshold := f_inline_attachment_size_threshold (j_config j)) in *. set (l0 := Location index [] t STATUS_UNKNOWN 0 0 0).
  assert (Z.of_nat (length (journal_header ++ encode_records rs)) + event_total threshold e < 2 ^ 31) as Hbound
    by (unfold file_offset, sizeof_journal_header in Hoff; lia).
  destruct (write_new_event_record unique_number threshold l0 e (file_object j index) (content j index) (d_externals (j_dir j)) (d_counter (j_dir j))
    (journal_header ++ encode_records rs) stale Hfail Hap ltac:(lia) Hatts Hbound (rp_numbers _ _ _ _ _ _ Hrep) Hnum)
    as (slots & l' & f' & ext' & counter' & Hw & Hplaced & Hsize & Hloc & Hfile & Hfail' & Hnext' & Hcount' & Hsub & Hnum' & Hcounter').
  change (d_externals (j_dir (opened index j))) with (d_externals (j_dir j)). change (d_counter (j_dir (opened index j))) with (d_counter (j_dir j)).
  rewrite Hw. set (r := new_record e (l_event_time l0) slots) in *. set (stale' := drop _ stale).
  destruct (placed_entry threshold ext' e t slots Hplaced) as [Hentry Hsaved].
  assert (journal_header ++ encode_records (rs ++ [r]) ++ stale' = (journal_header ++ encode_records rs) ++ encode_record r ++ stale') as Hcont.
  { rewrite encode_records_app, <- !app_assoc. change (encode_records [r]) with (encode_record r ++ []). by rewrite app_nil_r. }
  assert (file_offset (rs ++ [r]) = Z.of_nat (length (journal_header ++ encode_records rs)) + record_size r) as Hoffset by apply file_offset_snoc.
  set (j' := insert_location l' _). assert (r_id r = in_request_id e) as Hrid by done. assert (r_id r = l_request_id l') as Hlid by (symmetry; apply Hloc).
  assert (L !! r_id r = None) as HL.
  { destruct (L !! r_id r) as [lx|] eqn:E; [|done]. destruct (rep_location j L layout m _ lx Hrep E) as (en & Hen & _). congruence. }
  assert (index_rep j' (<[r_id r := l']> L) ∅) as Hindex.
  { rewrite Hlid. apply insert_location_rep; [by eapply index_rep_eq, (rp_index _ _ _ _ _ _ Hrep)|by rewrite <- Hlid|].
    intros id2 l2 Hl2. destruct (rep_location j L layout m _ l2 Hrep Hl2) as (en & Hen & <-). rewrite (loc_time _ _ _ Hloc). by eapply Hfree. }
  assert (is_live r = true) as Hlive by done.
  assert (located (<[r_id r := l']> L) (<[index := rs ++ [r]]> layout)) as Hlocated by (by apply located_append; [apply Hrep|..]).
  assert (forall k, file_rep j' (<[index := rs ++ [r]]> layout) k) as Hfiles.
  { intros k. destruct (decide (k = index)) as [->|Hne].
    - unfold file_rep. rewrite lookup_insert_eq. eexists f', _. cbn. rewrite !lookup_insert_eq. split_and!; [done..| |].
      + split; [done| |by rewrite Hnext', Hoffset|lia| |exists stale'; by rewrite Hcont].
        * apply Forall_app. split; [done|]. constructor; [|done]. split; cbn; try done; [by left|by rewrite <- (Forall2_length _ _ _ Hplaced)| |lia].
          clear -Hplaced. induction Hplaced as [|a s atts slots Ha _ IH]; constructor; [|done]. destruct s; [done|]. apply Ha.
        * rewrite Hcount', Hcount, List.filter_app, length_app. cbn. rewrite Hlive. cbn [length]. pose proof (count_bound rs). pose proof (record_size_pos r). unfold sizeof_journal_header in *.
          rewrite wrap_small by (unfold uword; lia). lia.
      + exists r. split; [|done]. apply elem_of_app. right. by left.
    - eapply (file_rep_other j); [| | |apply (rp_files _ _ _ _ _ _ Hrep k)]; cbn; by rewrite !lookup_insert_ne by done. }
  exists (release None j'). split; [done|]. rewrite (rep_release None j' _ (<[index := rs ++ [r]]> layout)) by done.
  split; [|split_and!; [done..|cbn; lia]]. exists (<[r_id r := l']> L), (<[index := rs ++ [r]]> layout). split; try done.
  - apply Hrep.
  - intros k. rewrite lookup_insert_is_Some. intros [<-|[_ Hk]]; [done|]. by apply (rp_range _ _ _ _ _ _ Hrep).
  - apply saved_rep_append; [|done|done]. by eapply saved_rep_mono, Hrep.
  - intros k rs'. rewrite lookup_insert_Some. intros [[<- <-]|[_ Hk]]; [|by apply (rp_good _ _ _ _ _ _ Hrep k)].
    apply Forall_app. split; [|constructor; [by eapply Hgood|done]]. destruct Hrs as [Hrs|[_ ->]]; [by apply (rp_good _ _ _ _ _ _ Hrep index)|constructor].
  - rewrite <- Hentry. rewrite <- Hrid. eapply represents_append; try done; apply Hrep.
Qed.

Definition next_index (j : journal) : Z :=
  let next := f_current_file_index j + 1 in if decide (next >= f_maximum_number_of_files (j_config j)) then 0 else next.

Lemma closed_content j layout index : file_rep j layout index -> layout !! index = None -> closed_rep (content j index).
Proof.
  unfold file_rep. intros Hf Hl. rewrite Hl in Hf. destruct Hf as [_ Hc]. unfold content. destruct (d_files (j_dir j) !! index) as [c|]; [by apply Hc|]. by left.
Qed.

(** Opening a file and leaving it as it is. *)
Lemma release_opened j L layout index j1 : index_rep j L ∅ -> located L layout -> (forall k, file_rep j layout k) ->
  same_index j j1 -> j_dir j1 = j_dir (opened index j) -> f_event_files j1 = f_event_files (opened index j) ->
  (forall k, file_rep (release None j1) layout k) /\ (forall k, file_object (release None j1) k = file_object j k) /\
  d_externals (j_dir (release None j1)) = d_externals (j_dir j) /\ d_counter (j_dir (release None j1)) = d_counter (j_dir j) /\
  j_config (release None j1) = j_config j1 /\ f_current_file_index (release None j1) = f_current_file_index j1 /\
  f_can_be_compressed (release None j1) = f_can_be_compressed j1 /\
  (forall k, is_Some (f_event_files (release None j1) !! k) -> content (release None j1) k = content j k /\ is_Some (f_event_files j !! k)).
Proof.
  intros Hj Hlo Hfiles Hsame Hd Hf. pose proof (same_index_rep _ _ _ _ Hsame Hj) as Hj1.
  assert (forall k, k <> index -> f_event_files j1 !! k = f_event_files j !! k) as Hfk by (intros k Hk; rewrite Hf; cbn; by rewrite lookup_insert_ne).
  assert (forall k, k <> index -> d_files (j_dir j1) !! k = d_files (j_dir j) !! k) as Hdk by (intros k Hk; rewrite Hd; cbn; by rewrite lookup_insert_ne).
  assert (forall k, k <> index -> is_Some (f_event_files j1 !! k) -> kept None j1 k) as Hkept.
  { intros k Hk [f Hsome]. right. pose proof (Hfiles k) as Hfr. unfold file_rep in Hfr. destruct (layout !! k) as [rs|] eqn:E.
    - destruct Hfr as (_ & _ & _ & _ & _ & Hl). by eapply rep_in_use.
    - rewrite Hfk in Hsome by done. destruct Hfr; congruence. }
  assert (f_event_files j1 !! index = Some (file_object j index)) as Hobj by (rewrite Hf; cbn; by rewrite lookup_insert_eq).
  assert (content j1 index = content j index) as Hcont by (unfold content at 1; rewrite Hd; cbn; by rewrite lookup_insert_eq).
  destruct (layout !! index) as [rs|] eqn:E.
  - pose proof (Hfiles index) as Hfr. unfold file_rep in Hfr. rewrite E in Hfr. destruct Hfr as (f & c & Hfi & Hc & Hopen & Hl).
    rewrite release_kept.
    2: { intros k Hk. destruct (decide (k = index)) as [->|Hne]; [|by apply Hkept]. right. by eapply rep_in_use. }
    rewrite Hd. split_and!; try done.
    + intros k. destruct (decide (k = index)) as [->|Hne]; [|by eapply file_rep_other; [| | |exact (Hfiles k)]; auto].
      unfold file_rep. rewrite E. exists f, c. rewrite Hobj, (file_object_some _ _ _ Hfi), Hd. cbn. rewrite lookup_insert_eq, (content_some _ _ _ Hc). done.
    + intros k. destruct (decide (k = index)) as [->|Hne]; unfold file_object at 1; [by rewrite Hobj|by rewrite Hfk].
    + intros k Hk. destruct (decide (k = index)) as [->|Hne]; [split; [done|by rewrite Hfi]|]. rewrite Hfk in Hk by done.
      unfold content. by rewrite Hdk.
  - pose proof (Hfiles index) as Hfr. unfold file_rep in Hfr. rewrite E in Hfr. destruct Hfr as [Hfi _].
    assert (file_object j index = new_file) as Hnew by (unfold file_object; by rewrite Hfi).
    rewrite (release_closes None j1 index); [|done| |by intros k ? ?; apply Hkept].
    2: { eapply in_use_false; [exact Hj1| |by intros]. intros id l Hl Hlf. destruct (lo_record _ _ Hlo _ _ Hl) as (? & ? & ? & ? & _). congruence. }
    destruct (close_unused index j1 _ Hobj) as (Hcf & Hcd & Hcc & Hce & Hcn & Hccf & Hci & Hcb); [by rewrite Hnew|rewrite Hcont; by eapply closed_content|].
    rewrite Hce, Hcn, Hccf, Hci, Hcb, Hd. split_and!; try done.
    + intros k. destruct (decide (k = index)) as [->|Hne].
      * unfold file_rep. rewrite E, Hcf, lookup_delete_eq. done.
      * eapply file_rep_other; [| |done|exact (Hfiles k)]; [rewrite Hcf, lookup_delete_ne by done; auto|rewrite Hcd by done; auto].
    + intros k. unfold file_object at 1. rewrite Hcf. destruct (decide (k = index)) as [->|Hne]; [by rewrite lookup_delete_eq|].
      rewrite lookup_delete_ne, Hfk by done. done.
    + intros k. rewrite Hcf, lookup_delete_is_Some. intros [Hne Hk]. rewrite Hfk in Hk by done. unfold content. by rewrite Hcd, Hdk.
Qed.

Lemma try_file_full j m e size t : journal_rep unique_number good j m -> ~ has_room j size (f_current_file_index j) ->
  exists j', try_file unique_number e size t j = Ok (None, j') /\ journal_rep unique_number good j' m /\ j_config j' = j_config j /\
    f_can_be_compressed j' = f_can_be_compressed j /\ d_counter (j_dir j') = d_counter (j_dir j) /\
    f_current_file_index j' = next_index j /\ (forall k, file_object j' k = file_object j k) /\
    (forall k, is_Some (f_event_files j' !! k) -> content j' k = content j k /\ is_Some (f_event_files j !! k)).
Proof.
  intros (L & layout & Hrep) Hroom. unfold try_file. set (index := f_current_file_index j) in *.
  pose proof (rp_current _ _ _ _ _ _ Hrep) as Hcur. fold index in Hcur.
  assert (is_Some (f_event_files j !! index) -> is_Some (d_files (j_dir j) !! index)) as Hboth.
  { intros [f Hf]. pose proof (rp_files _ _ _ _ _ _ Hrep index) as Hfr. unfold file_rep in Hfr. destruct (layout !! index); [|destruct Hfr; congruence].
    destruct Hfr as (? & c & _ & Hc & _). eauto. }
  rewrite get_event_file_create by (done || lia). cbn [result_bind negb].
  assert (file_object (opened index j) index = file_object j index) as -> by (unfold file_object at 1; cbn; by rewrite lookup_insert_eq).
  rewrite decide_False by exact Hroom. fold (next_index j). set (j1 := with_current_file_index _ _).
  destruct (release_opened j L layout index j1) as (Hf & Ho & He & Hn & Hc & Hi & Hb & Hcc); try done; try apply Hrep.
  exists (release None j1). split; [done|]. rewrite Hc, Hn, Hi, Hb. split_and!; try done.
  exists L, layout. destruct Hrep. split; try done.
  - by rewrite Hc.
  - rewrite Hc, Hi. change (f_current_file_index j1) with (next_index j). change (j_config j1) with (j_config j).
    clearbody j1. destruct rp_config as [Hcf _ _ _]. subst index. unfold next_index, JOURNAL_MINIMUM_NUMBER_OF_FILES in *. destruct (decide _); lia.
  - eapply same_index_rep; [|exact rp_index]. eapply same_index_trans; [|apply release_index]. done.
  - unfold layout_range. by rewrite Hc.
  - by rewrite He.
  - by rewrite He, Hn.
  - by rewrite He.
Qed.

(** ** The loop over the files *)

(** The index of the [k]-th file that is tried. *)
Definition tried (j : journal) (k : nat) : Z := (f_current_file_index j + Z.of_nat k) mod f_maximum_number_of_files (j_config j).

Lemma next_index_tried j : 0 <= f_current_file_index j < f_maximum_number_of_files (j_config j) -> next_index j = tried j 1.
Proof.
  intros Hj. unfold next_index, tried. destruct (decide _) as [Hd|Hd].
  - replace (f_current_file_index j + Z.of_nat 1) with (f_maximum_number_of_files (j_config j)) by lia. rewrite Z.mod_same; lia.
  - rewrite Z.mod_small; lia.
Qed.

Lemma tried_next j j' k : 0 < f_maximum_number_of_files (j_config j) -> j_config j' = j_config j -> f_current_file_index j' = tried j 1 ->
  tried j' k = tried j (S k).
Proof.
  intros Hm Hc Hi. unfold tried in *. rewrite Hi, Hc. rewrite Z.add_mod_idemp_l by lia. f_equal. lia.
Qed.

Lemma tried_all j i : 0 <= i < f_maximum_number_of_files (j_config j) -> exists k, (k < Z.to_nat (f_maximum_number_of_files (j_config j)))%nat /\ tried j k = i.
Proof.
  intros Hi. set (n := f_maximum_number_of_files (j_config j)) in *. set (k := (i - f_current_file_index j) mod n).
  assert (0 <= k < n) as Hk by (apply Z.mod_pos_bound; lia). exists (Z.to_nat k). split; [lia|]. unfold tried. fold n.
  rewrite Z2Nat.id by lia. unfold k. rewrite Z.add_mod_idemp_r by lia. replace (f_current_file_index j + (i - f_current_file_index j)) with i by lia.
  apply Z.mod_small. lia.
Qed.

(** What stays the same while no file has room. *)
Definition untouched (j j' : journal) : Prop :=
  j_config j' = j_config j /\ f_can_be_compressed j' = f_can_be_compressed j /\ d_counter (j_dir j') = d_counter (j_dir j) /\
  (forall k, file_object j' k = file_object j k) /\
  (forall k, is_Some (f_event_files j' !! k) -> content j' k = content j k /\ is_Some (f_event_files j !! k)).

Lemma has_room_untouched j j' size k : untouched j j' -> has_room j' size k <-> has_room j size k.
Proof. intros (Hc & _ & _ & Hf & _). unfold has_room. by rewrite Hf, Hc. Qed.

Lemma addable_untouched j j' m e t : untouched j j' -> addable j m e t -> addable j' m e t.
Proof. intros (Hc & _ & Hn & _) []. split; try done; [by rewrite Hc|by rewrite Hn]. Qed.

Lemma try_files_spec n j m e t : journal_rep unique_number good j m -> addable j m e t ->
  let size := event_size (f_inline_attachment_size_threshold (j_config j)) e in
  exists r j', try_files unique_number n e size t j = Ok (r, j') /\
    match r with
    | Some ok => ok = true /\ journal_rep unique_number good j' (<[in_request_id e := Entry t STATUS_READY (in_attachments e)]> m) /\
        j_config j' = j_config j /\ d_counter (j_dir j') <= d_counter (j_dir j) + Z.of_nat (length (in_attachments e)) /\
        exists k, (k < n)%nat /\ has_room j size (tried j k)
    | None => journal_rep unique_number good j' m /\ untouched j j' /\ forall k, (k < n)%nat -> ~ has_room j size (tried j k)
    end.
Proof.
  revert j. induction n as [|n IH]; intros j Hrep Hadd size.
  { exists None, j. split_and!; [done..|lia]. }
  assert (0 <= f_current_file_index j < f_maximum_number_of_files (j_config j)) as Hcur by (destruct Hrep as (L & layout & Hrep); apply Hrep).
  assert (tried j 0 = f_current_file_index j) as Ht0 by (unfold tried; rewrite Z.add_0_r, Z.mod_small; lia).
  cbn [try_files]. destruct (decide (has_room j size (f_current_file_index j))) as [Hroom|Hroom].
  - destruct (try_file_room j m e t (f_current_file_index j) Hrep Hadd eq_refl Hroom) as (j' & Heq & Hrep' & Hc & Hb & Hn).
    fold size in Heq. rewrite Heq. cbn [result_bind].
    exists (Some true), j'. split_and!; try done. exists 0%nat. split; [lia|]. by rewrite Ht0.
  - destruct (try_file_full j m e size t Hrep Hroom) as (j1 & -> & Hrep1 & Hc & Hb & Hn & Hi & Hf & Hcc). cbn [result_bind].
    assert (untouched j j1) as Hun by done. rewrite next_index_tried in Hi by done.
    destruct (IH j1 Hrep1 (addable_untouched _ _ _ _ _ Hun Hadd)) as (r & j' & Heq & Hr). rewrite Hc in Heq, Hr.
    exists r, j'. split; [exact Heq|]. destruct r as [ok|].
    + destruct Hr as (-> & Hrep' & Hc' & Hn' & k & Hk & Hroom'). rewrite Hn in Hn'. split_and!; try done. exists (S k). split; [lia|].
      rewrite <- (tried_next j j1) by (done || lia). by apply (has_room_untouched _ _ _ _ Hun).
    + destruct Hr as (Hrep' & (Hc' & Hb' & Hn' & Hf' & Hcc') & Hnone).
      split; [done|split].
      { split_and!; [congruence..| |]; [intros i; by rewrite Hf'|]. intros i Hs. destruct (Hcc' i Hs) as [-> Hs1]. by apply Hcc. }
      intros [|k] Hk; [by rewrite Ht0|]. rewrite <- (tried_next j j1) by (done || lia). rewrite <- (has_room_untouched _ _ _ _ Hun). apply Hnone. lia.
Qed.

(** One turn over all the files: the event is added when one has room. *)
Definition some_room (j : journal) (size : Z) : Prop := exists index, 0 <= index < f_maximum_number_of_files (j_config j) /\ has_room j size index.

Lemma try_all_files j m e t : journal_rep unique_number good j m -> addable j m e t ->
  let size := event_size (f_inline_attachment_size_threshold (j_config j)) e in
  exists r j', try_files unique_number (Z.to_nat (f_maximum_number_of_files (j_config j))) e size t j = Ok (r, j') /\
    match r with
    | Some ok => ok = true /\ journal_rep unique_number good j' (<[in_request_id e := Entry t STATUS_READY (in_attachments e)]> m) /\
        j_config j' = j_config j /\ d_counter (j_dir j') <= d_counter (j_dir j) + Z.of_nat (length (in_attachments e)) /\ some_room j size
    | None => journal_rep unique_number good j' m /\ untouched j j' /\ ~ some_room j size
    end.
Proof.
  intros Hrep Hadd size. assert (2 <= f_maximum_number_of_files (j_config j)) as Hmax by (destruct Hrep as (L & layout & Hrep); apply Hrep).
  destruct (try_files_spec (Z.to_nat (f_maximum_number_of_files (j_config j))) j m e t Hrep Hadd) as (r & j' & Heq & Hr).
  exists r, j'. split; [exact Heq|]. destruct r as [ok|].
  - destruct Hr as (-> & Hrep' & Hc & Hn & k & Hk & Hroom). split_and!; try done. exists (tried j k). split; [|done]. apply Z.mod_pos_bound. lia.
  - destruct Hr as (Hrep' & Hun & Hnone). split_and!; try done. intros (i & Hi & Hroom).
    destruct (tried_all j i Hi) as (k & Hk & <-). by apply (Hnone k).
Qed.
End Add.

(** ** The time of an event *)

Lemma free_time_some fuel t m t' : free_time fuel t m = Some t' ->
  t <= t' < t + Z.of_nat fuel /\ find_key Z.ltb t' m = None /\ forall x, t <= x < t' -> is_Some (find_key Z.ltb x m).
Proof.
  revert t. induction fuel as [|fuel IH]; intros t; cbn; [done|]. unfold contains. destruct (find_key Z.ltb t m) as [p|] eqn:E.
  - intros (Hr & Hn & Hx)%IH. split_and!; [lia|lia|done|]. intros x Hxr. destruct (decide (x = t)) as [->|]; [eauto|]. apply Hx. lia.
  - intros [= <-]. split_and!; [lia|lia|done|lia].
Qed.

Lemma free_time_none fuel t m : free_time fuel t m = None -> forall x, t <= x < t + Z.of_nat fuel -> is_Some (find_key Z.ltb x m).
Proof.
  revert t. induction fuel as [|fuel IH]; intros t; cbn; [lia|]. unfold contains. destruct (find_key Z.ltb t m) as [p|] eqn:E; [|done].
  intros Hn x Hx. destruct (decide (x = t)) as [->|]; [eauto|]. apply (IH (t + 1)); [done|lia].
Qed.

(** The fuel is above the number of entries, so a time is found. *)
Lemma free_time_ends t m : sorted Z.ltb m -> is_Some (free_time (S (length m)) t m).
Proof.
  intros Hm. destruct (free_time _ t m) eqn:E; [eauto|]. exfalso. pose proof (free_time_none _ _ _ E) as Hall.
  assert (seqZ t (Z.of_nat (S (length m))) ⊆+ map fst m) as Hsub.
  { apply NoDup_submseteq; [apply NoDup_seqZ|]. intros x Hx%elem_of_seqZ. destruct (Hall x ltac:(lia)) as [p Hp].
    apply (find_elem Z.ltb) in Hp; [|done]. apply list_elem_of_fmap. by exists (x, p). }
  apply submseteq_length in Hsub. rewrite length_map, length_seqZ in Hsub. lia.
Qed.
