(* ===== verification/JournalLoad.v ===== *)
(** * Loading the events of one file

    [kept compress rs] are the records a scan leaves at the start of the file:
    all of them, or those that are live when the file is compressed.  The lemmas
    follow the loop of load_event_locations() record by record. *)

From S2P Require Import Prelude Bytes SortedMap JournalFile JournalLayout Journal JournalIndex JournalRep JournalChanges JournalStatus JournalAdd.

(** ** Lists of records *)

Definition kept_records (compress : bool) (rs : list record) : list record := if compress then List.filter is_live rs else rs.

Lemma kept_records_app compress a b : kept_records compress (a ++ b) = kept_records compress a ++ kept_records compress b.
Proof. destruct compress; [apply List.filter_app|done]. Qed.

Lemma kept_records_live compress r : is_live r = true -> kept_records compress [r] = [r].
Proof. intros Hr. destruct compress; [|done]. cbn. by rewrite Hr. Qed.

(** Without the dead records at the end. *)
Fixpoint trim (rs : list record) : list record :=
  match rs with
  | [] => []
  | r :: rs =>
      match trim rs with
      | [] => if is_live r then [r] else []
      | t => r :: t
      end
  end.

Lemma trim_snoc rs r : trim (rs ++ [r]) = if is_live r then rs ++ [r] else trim rs.
Proof.
  induction rs as [|x rs IH]; cbn; [by destruct (is_live r)|]. rewrite IH. destruct (is_live r); [|done]. by destruct (rs ++ [r]) eqn:E; [destruct rs|].
Qed.

Lemma trim_split rs : exists dead, rs = trim rs ++ dead /\ Forall (fun r => is_live r = false) dead.
Proof.
  induction rs as [|x rs IH] using rev_ind; [by exists []|]. rewrite trim_snoc. destruct (is_live x) eqn:E; [exists []; by rewrite app_nil_r|].
  destruct IH as (dead & Heq & Hd). exists (dead ++ [x]). rewrite app_assoc, <- Heq. split; [done|]. apply Forall_app. by split; [|constructor].
Qed.

Lemma trim_elem rs r : r ∈ trim rs -> r ∈ rs.
Proof. destruct (trim_split rs) as (dead & Heq & _). intros Hr. rewrite Heq. apply elem_of_app. by left. Qed.

Lemma trim_live rs r : r ∈ rs -> is_live r = true -> r ∈ trim rs.
Proof.
  destruct (trim_split rs) as (dead & Heq & Hd). intros Hr Hl. rewrite Heq in Hr. apply elem_of_app in Hr as [Hr|Hr]; [done|].
  rewrite Forall_forall in Hd. apply Hd in Hr. congruence.
Qed.

Lemma trim_dead rs : ~ has_live rs -> trim rs = [].
Proof.
  intros Hdead. induction rs as [|x rs IH] using rev_ind; [done|]. rewrite trim_snoc. destruct (is_live x) eqn:E.
  - exfalso. apply Hdead. exists x. split; [|done]. apply elem_of_app. right. by left.
  - apply IH. intros (r & Hr & Hl). apply Hdead. exists r. split; [|done]. apply elem_of_app. by left.
Qed.

(** The events of a list can all be told from each other. *)
Definition differ (r x : record) : Prop := r_id r <> r_id x /\ r_time r <> r_time x.

Fixpoint distinct (rs : list record) : Prop :=
  match rs with
  | [] => True
  | r :: rs => (is_live r = true -> forall x, x ∈ rs -> is_live x = true -> differ r x) /\ distinct rs
  end.

(** None of them is in the index already. *)
Definition fresh (L : locations) (rs : list record) : Prop :=
  forall r, r ∈ rs -> is_live r = true -> L !! r_id r = None /\ forall id l, L !! id = Some l -> l_event_time l <> r_time r.

Definition loadable (is_in_the_future : Z -> bool) (r : record) : Prop :=
  (0 < length (inline_bytes (r_slots r)))%nat /\ is_in_the_future (r_time r) = false.

#[export] Instance loadable_status_free f : StatusFree (loadable f).
Proof. intros r s Hr. exact Hr. Qed.

(** ** Locations of a file that is scanned *)

Lemma located_start L layout index : located L layout -> layout !! index = None -> located L (<[index := []]> layout).
Proof.
  intros Hlo Hn. split.
  - intros id l Hl. destruct (lo_record _ _ Hlo _ _ Hl) as (a & x & b & Hk & Hx). exists a, x, b. split; [|done].
    rewrite lookup_insert_ne; [done|]. intros Heq. congruence.
  - intros k a x b. rewrite lookup_insert_Some. intros [[_ Heq]|[_ Hk]]; [by destruct a|]. exact (lo_live _ _ Hlo _ _ _ _ Hk).
Qed.

Lemma located_dead L layout index rs dead : located L (<[index := rs]> layout) -> Forall (fun r => is_live r = false) dead ->
  located L (<[index := rs ++ dead]> layout).
Proof.
  intros Hlo Hd. split.
  - intros id l Hl. destruct (lo_record _ _ Hlo _ _ Hl) as (a & x & b & Hk & Hx). rewrite lookup_insert_Some in Hk. destruct Hk as [[Hi ->]|[Hi Hk]].
    + exists a, x, (b ++ dead). rewrite Hi, lookup_insert_eq, <- app_assoc. done.
    + exists a, x, b. by rewrite lookup_insert_ne.
  - intros k a x b. rewrite lookup_insert_Some. intros [[<- Heq]|[Hne Hk]] Hx.
    + apply app_eq_inv in Heq as [(c & -> & Heq)|(c & -> & Heq)].
      * destruct c as [|y c]; cbn in Heq.
        -- exfalso. rewrite <- Heq in Hd. apply Forall_cons in Hd as [Hd _]. congruence.
        -- injection Heq as <- ->. apply (lo_live _ _ Hlo index a x c); [by rewrite lookup_insert_eq|done].
      * exfalso. rewrite Heq in Hd. apply Forall_app in Hd as [_ [Hd _]%Forall_cons]. congruence.
    + apply (lo_live _ _ Hlo k a x b); [by rewrite lookup_insert_ne|done].
Qed.

Lemma located_undead L layout index rs dead : located L (<[index := rs ++ dead]> layout) -> Forall (fun r => is_live r = false) dead ->
  located L (<[index := rs]> layout).
Proof.
  intros Hlo Hd. split.
  - intros id l Hl. destruct (lo_record _ _ Hlo _ _ Hl) as (a & x & b & Hk & Hx & Hlive). rewrite lookup_insert_Some in Hk. destruct Hk as [[Hi Heq]|[Hi Hk]].
    + apply app_eq_inv in Heq as [(c & -> & Heq)|(c & -> & Heq)].
      * destruct c as [|y c]; cbn in Heq.
        -- exfalso. rewrite <- Heq in Hd. apply Forall_cons in Hd as [Hd _]. congruence.
        -- injection Heq as <- ->. exists a, x, c. rewrite Hi, lookup_insert_eq. done.
      * exfalso. rewrite Heq in Hd. apply Forall_app in Hd as [_ [Hd _]%Forall_cons]. congruence.
    + exists a, x, b. by rewrite lookup_insert_ne.
  - intros k a x b. rewrite lookup_insert_Some. intros [[<- ->]|[Hne Hk]] Hx.
    + apply (lo_live _ _ Hlo index a x (b ++ dead)); [by rewrite lookup_insert_eq, <- app_assoc|done].
    + apply (lo_live _ _ Hlo k a x b); [by rewrite lookup_insert_ne|done].
Qed.

(** ** The move of an event to the write position *)

Lemma overwrite_gap W G D post : overwrite (W ++ G ++ D ++ post) (Z.of_nat (length W)) D = W ++ D ++ drop (length D) (G ++ D) ++ post.
Proof.
  rewrite overwrite_over. f_equal. f_equal. rewrite (app_assoc G). rewrite drop_app_le; [done|]. rewrite length_app. lia.
Qed.

Lemma length_gap (G D : list Z) : length (drop (length D) (G ++ D)) = length G.
Proof. rewrite length_drop, length_app. lia. Qed.

Lemma copy_blocks_moves fuel D W G post f : f_fail f = false -> (length D < fuel)%nat ->
  f_pos_write f = Z.of_nat (length W) -> f_pos_read f = Z.of_nat (length (W ++ G)) ->
  exists g G', copy_blocks fuel (Z.of_nat (length D)) f (W ++ G ++ D ++ post) = (g, W ++ D ++ G' ++ post) /\
    same_object f g /\ length G' = length G /\ f_pos_write g = Z.of_nat (length (W ++ D)) /\ f_pos_read g = Z.of_nat (length (W ++ G ++ D)).
Proof.
  revert D W G f. induction fuel as [|fuel IH]; intros D W G f Hf Hfuel Hw Hr; [lia|]. cbn [copy_blocks]. destruct (decide _) as [Hpos|Hpos].
  2: { destruct D as [|d D]; [|cbn in Hpos; lia]. exists f, G. rewrite !app_nil_r. cbn. split_and!; try done. }
  set (s := Z.min _ _). set (n := Z.to_nat s).
  assert (0 < s <= Z.of_nat (length D)) as Hs by (unfold s, COMPRESS_BUFFER_SIZE; lia).
  assert (length (take n D) + length (drop n D) = length D)%nat as HD by (by rewrite <- length_app, take_drop).
  rewrite <- (take_drop n D). set (D1 := take n D). set (D2 := drop n D).
  assert (length D1 = n) as HD1 by (unfold D1; rewrite length_take; lia). assert (s = Z.of_nat (length D1)) as Hs1 by lia. rewrite Hs1.
  rewrite <- (app_assoc D1), (app_assoc W G), read_there by done. unfold write. cbn [seekg f_fail f_pos_write].
  rewrite Hf, Hw, <- app_assoc, overwrite_gap. set (G1 := drop _ _). set (g := seekp _ _).
  fold D1 D2 in HD.
  assert (length G1 = length G) as HG1 by apply length_gap.
  replace (Z.of_nat (length (D1 ++ D2)) - Z.of_nat (length D1)) with (Z.of_nat (length D2)) by (rewrite length_app; lia). rewrite (app_assoc W D1).
  destruct (IH D2 (W ++ D1) G1 g) as (h & G' & -> & Hh & HG' & Hhw & Hhr); [done|lia|unfold g; cbn; rewrite length_app; lia|..].
  { unfold g. cbn. rewrite Hr, !length_app. lia. }
  exists h, G'. rewrite <- !app_assoc. split_and!; try done.
  - by rewrite HG'.
  - by rewrite Hhw, <- app_assoc.
  - rewrite Hhr, !length_app. lia.
Qed.

Lemma move_event_moves W G r post f : f_fail f = false -> record_wf r ->
  let head := encode_header (record_header r) ++ concat (le 4 <$> record_offsets r) ++ r_id r in
  f_pos_write f = Z.of_nat (length W) -> f_pos_read f = Z.of_nat (length (W ++ G ++ head)) ->
  Z.of_nat (length (W ++ encode_record r)) < 2 ^ 32 ->
  exists g G', move_event (encode_header (record_header r)) (Z.of_nat (length (r_slots r))) (r_id r) (Z.of_nat (length (inline_bytes (r_slots r))))
      (Z.of_nat (length (W ++ G)) + sizeof_event_header) f (W ++ G ++ encode_record r ++ post)
    = (g, W ++ encode_record r ++ G' ++ post) /\ f_event_count g = f_event_count f /\ f_fail g = false /\ length G' = length G /\
    f_next_append g = Z.of_nat (length (W ++ encode_record r)) /\ f_pos_write g = f_next_append g /\
    f_pos_read g = Z.of_nat (length (W ++ G ++ encode_record r)).
Proof.
  intros Hf Hwf head Hw Hr Hbound. unfold move_event. set (H := encode_header _) in *. set (O := concat _) in *. set (D := inline_bytes _).
  assert (encode_record r = head ++ D) as Henc by (unfold head; rewrite <- !app_assoc; done).
  assert (length H = 32%nat) as HH by (by apply length_encode_header).
  assert (Z.of_nat (length (r_slots r)) * sizeof_offset = Z.of_nat (length O)) as HO.
  { unfold O. rewrite length_concat_le. unfold record_offsets, sizeof_offset. rewrite length_slot_offsets. lia. }
  rewrite HO. set (c := W ++ G ++ encode_record r ++ post).
  assert (c = (W ++ G ++ H) ++ O ++ (r_id r ++ D ++ post)) as Hc by (unfold c; rewrite Henc; unfold head; rewrite <- !app_assoc; done).
  set (fo := seekg f _). assert (read fo c (Z.of_nat (length O)) = (Some O, seekg fo (f_pos_read fo + Z.of_nat (length O)))) as Hread.
  { rewrite Hc. apply read_there; [done|]. unfold fo. cbn [f_pos_read seekg]. rewrite !length_app. unfold sizeof_event_header. lia. }
  rewrite Hread. cbn [default from_option id].
  set (f0 := seekg _ (f_pos_read f)).
  assert (f_fail f0 = false /\ 0 <= f_pos_write f0 <= Z.of_nat (length c)) as [Hf0 Hp0] by (split; [done|unfold c; cbn; rewrite length_app; lia]).
  rewrite (write_three f0 c H O (r_id r) (fun f c => let '(f, c) := copy_blocks (S (Z.to_nat (Z.of_nat (length D)))) (Z.of_nat (length D)) f c in (set_next_append f (f_pos_write f), c)) Hf0 Hp0).
  fold head. assert (c = W ++ G ++ head ++ (D ++ post)) as Hc2 by (unfold c; rewrite Henc, <- !app_assoc; done).
  unfold write. cbn [fst snd]. rewrite Hf0. assert (f_pos_write f0 = Z.of_nat (length W)) as Hw0 by exact Hw. rewrite Hw0, Hc2, overwrite_gap.
  set (G1 := drop _ _). set (f1 := seekp f0 _). assert (length G1 = length G) as HG1 by apply length_gap. rewrite (app_assoc W head).
  destruct (copy_blocks_moves (S (Z.to_nat (Z.of_nat (length D)))) D (W ++ head) G1 post f1 Hf) as (g & G' & -> & Hg & HG' & Hgw & Hgr).
  { lia. } { unfold f1. cbn [f_pos_write seekp]. rewrite length_app. lia. }
  { change (f_pos_read f1) with (f_pos_read f). rewrite Hr, !length_app. lia. }
  destruct Hg as (Hg1 & Hg2 & Hg3). exists (set_next_append g (f_pos_write g)), G'.
  assert ((W ++ head) ++ D ++ G' ++ post = W ++ encode_record r ++ G' ++ post) as -> by (rewrite Henc, <- !app_assoc; done).
  assert (f_pos_write g = Z.of_nat (length (W ++ encode_record r))) as Hgw' by (rewrite Hgw, Henc, !length_app; lia).
  split; [done|]. unfold set_next_append. cbn [f_event_count f_fail f_next_append f_pos_write f_pos_read].
  rewrite Hgw'. rewrite wrap_small by (unfold uword; lia). split_and!; try done; [by rewrite <- Hg3|congruence|].
  rewrite Hgr, Henc, !length_app. lia.
Qed.

(** ** The loop over the events of a file *)

(** The object and the content of a file when the records [done] were read and
    [rest] are to come; [pre] is the header, [next0] where the object appended
    before the scan. *)
Record scan_rep (compress : bool) (pre : list Z) (done rest : list record) (tail : list Z) (next0 : Z) (found : bool) (f : file) (c : list Z) : Prop := {
  sn_fail : f_fail f = false;
  sn_read : f_pos_read f = Z.of_nat (length (pre ++ encode_records done));
  sn_write : found = true -> compress = true -> f_pos_write f = Z.of_nat (length (pre ++ encode_records (kept_records compress done)));
  sn_live : found = false -> Forall (fun r => is_live r = true) done;
  sn_count : f_event_count f = Z.of_nat (length (List.filter is_live done));
  sn_next : f_next_append f = match trim (kept_records compress done) with [] => next0 | t => file_offset t end;
  sn_content : exists gap, c = pre ++ encode_records (kept_records compress done) ++ gap ++ encode_records rest ++ tail /\
    length (encode_records (kept_records compress done) ++ gap) = length (encode_records done);
}.

(** Only one file and the index changed. *)
Record file_step (index : Z) (f : file) (c : list Z) (j j' : journal) : Prop := {
  fs_config : j_config j' = j_config j;
  fs_files : f_event_files j' = <[index := f]> (f_event_files j);
  fs_contents : d_files (j_dir j') = <[index := c]> (d_files (j_dir j));
  fs_externals : d_externals (j_dir j') = d_externals (j_dir j);
  fs_counter : d_counter (j_dir j') = d_counter (j_dir j);
  fs_current : f_current_file_index j' = f_current_file_index j;
}.

Lemma file_step_trans index f c f' c' j j1 j2 : file_step index f c j j1 -> file_step index f' c' j1 j2 -> file_step index f' c' j j2.
Proof. intros [] []. split; try congruence; [by rewrite fs_files1, fs_files0, insert_insert_eq|by rewrite fs_contents1, fs_contents0, insert_insert_eq]. Qed.

Lemma filter_all_live rs : Forall (fun r => is_live r = true) rs -> List.filter is_live rs = rs.
Proof. induction 1 as [|r rs Hr _ IH]; [done|]. cbn. by rewrite Hr, IH. Qed.

(** All the records are kept until one is dead. *)
Lemma kept_all compress found done : (found = false -> Forall (fun r => is_live r = true) done) -> found && compress = false -> kept_records compress done = done.
Proof. intros Hl Hf. destruct compress; [|done]. apply andb_false_iff in Hf as [->|]; [|done]. by apply filter_all_live, Hl. Qed.

Lemma gap_nil (a b gap : list Z) : length (a ++ gap) = length b -> length a = length b -> gap = [].
Proof. rewrite length_app. intros. destruct gap; [done|cbn in *; lia]. Qed.

Lemma length_records_snoc pre done r : Z.of_nat (length (pre ++ encode_records (done ++ [r]))) = Z.of_nat (length (pre ++ encode_records done)) + record_size r.
Proof. rewrite encode_records_app. change (encode_records [r]) with (encode_record r ++ []). rewrite app_nil_r, !length_app. pose proof (length_encode_record r). lia. Qed.

Lemma record_fields r : record_wf r -> decode_header (encode_header (record_header r)) = record_header r /\
  header_time (wrap 64 (r_time r / billion)) (r_time r mod billion) = r_time r.
Proof. intros Hr. split; [by apply record_header_decode|]. apply header_time_record, Hr. Qed.

Section Scan.
Context (is_in_the_future : Z -> bool) (compress : bool) (index : Z) (pre : list Z) (tail : list Z) (next0 : Z).
Context (Hpre : length pre = 8%nat).

(** The header of the next record is read. *)
Lemma scan_header done r rest found f c : scan_rep compress pre done (r :: rest) tail next0 found f c ->
  read f c sizeof_event_header = (Some (encode_header (record_header r)), seekg f (f_pos_read f + sizeof_event_header)) /\
  record_size r + f_pos_read f <= Z.of_nat (length c).
Proof.
  intros [Hf Hr _ _ _ _ (gap & -> & Hgap)]. set (H := encode_header _).
  assert (length H = 32%nat) as HH by (by apply length_encode_header).
  replace (encode_records (r :: rest)) with (encode_record r ++ encode_records rest) by done. split.
  - replace sizeof_event_header with (Z.of_nat (length H)) by (by rewrite HH).
    set (X := concat (le 4 <$> record_offsets r) ++ r_id r ++ inline_bytes (r_slots r) ++ encode_records rest ++ tail).
    assert (pre ++ encode_records (kept_records compress done) ++ gap ++ (encode_record r ++ encode_records rest) ++ tail
      = (pre ++ encode_records (kept_records compress done) ++ gap) ++ H ++ X) as ->.
    { unfold X. replace (encode_record r) with (H ++ concat (le 4 <$> record_offsets r) ++ r_id r ++ inline_bytes (r_slots r)) by done. by rewrite <- !app_assoc. }
    apply read_there; [done|]. rewrite Hr, !(length_app pre). lia.
  - rewrite Hr, !length_app in *. pose proof (length_encode_record r). lia.
Qed.

Lemma live_elem s : live_status s = true <-> s ∈ [STATUS_READY; STATUS_FORWARDED; STATUS_ACKNOWLEDGED].
Proof. unfold live_status. rewrite bool_decide_eq_true, !elem_of_cons, elem_of_nil. tauto. Qed.

(** The tests on the header of a record pass. *)
Lemma header_tests r offset file_size : record_wf r -> loadable is_in_the_future r -> record_size r + offset <= file_size ->
  let h := record_header r in
  h_magic h = event_magic /\ h_status h ∈ [STATUS_READY; STATUS_FORWARDED; STATUS_ACKNOWLEDGED; STATUS_COMPLETED; STATUS_FAILED] /\
  ~ (h_request_id_size h = 0 \/ h_size h + offset > file_size \/ h_size h - sizeof_event_header - h_attachment_count h * sizeof_offset - h_request_id_size h <= 0) /\
  is_in_the_future (header_time (h_sec h) (h_nsec h)) = false /\
  h_size h - sizeof_event_header - h_attachment_count h * sizeof_offset - h_request_id_size h = Z.of_nat (length (inline_bytes (r_slots r))).
Proof.
  intros Hr [Hdata Htime] Hsize. cbn. pose proof (wf_id _ Hr). split_and!; [done|by apply status_range, Hr| |by rewrite (proj2 (record_fields r Hr))|].
  - unfold record_size, data_offset in *. lia.
  - unfold record_size, data_offset. lia.
Qed.

Lemma scan_dead done r rest found f c j : f_event_files j !! index = Some f -> d_files (j_dir j) !! index = Some c ->
  scan_rep compress pre done (r :: rest) tail next0 found f c -> record_wf r -> loadable is_in_the_future r -> is_live r = false ->
  exists j' f', load_event is_in_the_future compress index (Z.of_nat (length c)) j found = (j', true, true) /\
    file_step index f' c j j' /\ same_index j j' /\ scan_rep compress pre (done ++ [r]) rest tail next0 true f' c.
Proof.
  intros Hf Hc Hscan Hwf Hload Hdead. pose proof (record_fields r Hwf) as [Hdec _].
  destruct (scan_header done r rest found f c Hscan) as [Hread Hsize].
  destruct (header_tests r (f_pos_read f) _ Hwf Hload Hsize) as (Hmagic & Hstatus & Hsizes & Hfuture & Hdata).
  unfold load_event. rewrite (file_object_some _ _ _ Hf), (content_some _ _ _ Hc), Hread, Hdec.
  rewrite decide_False by (by intros Hm). rewrite decide_False by (by intros Hm). rewrite decide_False by done. rewrite Hfuture.
  rewrite decide_True by (rewrite <- live_elem; unfold is_live in Hdead; cbn; congruence).
  set (f' := if found then _ else _). eexists _, f'. split; [reflexivity|]. split; [|split].
  - split; try done. cbn. by rewrite insert_id.
  - done.
  - destruct Hscan as [Hfail Hr Hw Hlive Hcount Hnext (gap & Hcont & Hgap)].
    assert (f_fail f' = f_fail f /\ f_event_count f' = f_event_count f /\ f_next_append f' = f_next_append f /\
      f_pos_read f' = f_pos_read f + record_size r) as (H1 & H2 & H3 & H4).
    { unfold f'. destruct found; cbn [f_fail f_event_count f_next_append f_pos_read seekg_cur seekg seekp record_header h_size]; split_and!; try done; lia. }
    assert (kept_records compress (done ++ [r]) = kept_records compress done ++ (if compress then [] else [r])) as Hkept.
    { rewrite kept_records_app. f_equal. destruct compress; [|done]. cbn. by rewrite Hdead. }
    split; [congruence|rewrite H4, Hr; by rewrite length_records_snoc| |done| | |].
    + intros _ Hcomp. assert (kept_records compress (done ++ [r]) = kept_records compress done) as -> by (rewrite Hkept, Hcomp; apply app_nil_r).
      unfold f'. destruct found; [exact (Hw eq_refl Hcomp)|]. cbn [f_pos_write seekg_cur seekg seekp]. rewrite Hr.
      by rewrite (kept_all compress false done Hlive eq_refl).
    + rewrite H2, Hcount, List.filter_app. cbn. by rewrite Hdead, app_nil_r.
    + rewrite H3, Hnext, Hkept. destruct compress; [by rewrite app_nil_r|]. by rewrite trim_snoc, Hdead.
    + change (encode_records (r :: rest)) with (encode_record r ++ encode_records rest) in Hcont. destruct compress.
      * rewrite Hkept, app_nil_r. exists (gap ++ encode_record r). rewrite Hcont. split; [by rewrite <- !app_assoc|].
        rewrite (app_assoc (encode_records _)), encode_records_app. change (encode_records [r]) with (encode_record r ++ []).
        rewrite app_nil_r, !(length_app _ (encode_record r)). lia.
      * cbn [kept_records] in *. assert (gap = []) as -> by (by eapply gap_nil). exists []. rewrite Hcont, !app_nil_r. split; [|done].
        rewrite encode_records_app. change (encode_records [r]) with (encode_record r ++ []). rewrite app_nil_r, <- !app_assoc. done.
Qed.

(** The location a live record gets. *)
Definition record_location (done : list record) (r : record) : location :=
  Location index (r_id r) (r_time r) (r_status r) (Z.of_nat (length (r_slots r)))
    (Z.of_nat (length (pre ++ encode_records (kept_records compress done)))) (record_size r).

Lemma insert_update j l l' : l_request_id l' = l_request_id l -> l_event_time l' = l_event_time l ->
  same_index (insert_location l' j) (update_location (j_next j) l' (insert_location l j)).
Proof. intros Hi Ht. unfold insert_location, update_location, same_index. cbn. by rewrite Hi, Ht, insert_insert_eq. Qed.

(** The identifier of a record whose header was read. *)
Lemma scan_identifier done r rest found f c : scan_rep compress pre done (r :: rest) tail next0 found f c ->
  let g := seekg_cur (seekg f (f_pos_read f + sizeof_event_header)) (Z.of_nat (length (r_slots r)) * sizeof_offset) in
  read g c (Z.of_nat (length (r_id r))) = (Some (r_id r), seekg f (f_pos_read f + data_offset r)).
Proof.
  intros [Hf Hr _ _ _ _ (gap & -> & Hgap)]. cbn zeta. set (g := seekg_cur _ _). set (H := encode_header (record_header r)). set (O := concat (le 4 <$> record_offsets r)).
  assert (length H = 32%nat) as HH by (by apply length_encode_header).
  assert (Z.of_nat (length (r_slots r)) * sizeof_offset = Z.of_nat (length O)) as HO.
  { unfold O. rewrite length_concat_le. unfold record_offsets, sizeof_offset. rewrite length_slot_offsets. lia. }
  assert (pre ++ encode_records (kept_records compress done) ++ gap ++ encode_records (r :: rest) ++ tail
    = (pre ++ encode_records (kept_records compress done) ++ gap ++ H ++ O) ++ r_id r ++ (inline_bytes (r_slots r) ++ encode_records rest ++ tail)) as ->.
  { change (encode_records (r :: rest)) with ((H ++ O ++ r_id r ++ inline_bytes (r_slots r)) ++ encode_records rest). by rewrite <- !app_assoc. }
  rewrite read_there; [|exact Hf|].
  - f_equal. unfold g, seekg_cur, seekg. cbn [f_pos_read f_pos_write f_event_count f_next_append f_fail]. f_equal. unfold data_offset. lia.
  - unfold g, seekg_cur, seekg. cbn [f_pos_read]. rewrite Hr, HO. rewrite !length_app in *. change sizeof_event_header with 32. lia.
Qed.

Lemma scan_live done r rest found f c j : f_event_files j !! index = Some f -> d_files (j_dir j) !! index = Some c ->
  scan_rep compress pre done (r :: rest) tail next0 found f c -> record_wf r -> loadable is_in_the_future r -> is_live r = true ->
  Z.of_nat (length (pre ++ encode_records (done ++ [r]))) < 2 ^ 31 ->
  (forall lx k, l_file lx = index -> l_request_id lx = r_id r -> l_event_time lx = r_time r ->
    is_Some (f_event_files j !! k) -> kept (Some index) (insert_location lx j) k) ->
  exists j' f' c', load_event is_in_the_future compress index (Z.of_nat (length c)) j found = (j', found, true) /\
    file_step index f' c' j j' /\ same_index (insert_location (record_location done r) j) j' /\
    scan_rep compress pre (done ++ [r]) rest tail next0 found f' c' /\ length c' = length c.
Proof.
  intros Hf Hc Hscan Hwf Hload Hlive Hbound Hkept. pose proof (record_fields r Hwf) as [Hdec Htime].
  destruct (scan_header done r rest found f c Hscan) as [Hread Hsize].
  destruct (header_tests r (f_pos_read f) _ Hwf Hload Hsize) as (Hmagic & Hstatus & Hsizes & Hfuture & Hdata).
  pose proof (scan_identifier done r rest found f c Hscan) as Hid.
  unfold load_event. rewrite (file_object_some _ _ _ Hf), (content_some _ _ _ Hc), Hread, Hdec.
  rewrite decide_False by (by intros Hm). rewrite decide_False by (by intros Hm). rewrite decide_False by done. rewrite Hfuture.
  rewrite decide_False by (intros Hn; apply Hn, live_elem; exact Hlive).
  cbn [record_header h_request_id_size h_attachment_count h_status h_size h_sec h_nsec] in *. rewrite Hid, Hdata, Htime.
  pose proof Hscan as [Hfail Hr Hw Hall Hcount Hnext (gap & Hcont & Hgap)].
  rewrite length_records_snoc in Hbound. pose proof (record_size_pos r) as Hpos.
  rewrite (wrap_small 32 (f_pos_read f)) by (unfold uword; rewrite Hr; lia).
  set (l0 := Location _ _ _ _ _ _ _). rewrite (release_kept (Some index)) by (intros k Hk; by apply Hkept).
  set (g := increase_event_count (seekg f (f_pos_read f + data_offset r))).
  assert (f_event_count g = Z.of_nat (length (List.filter is_live (done ++ [r])))) as Hgcount.
  { unfold g. cbn. rewrite Hcount, List.filter_app, length_app. cbn. rewrite Hlive. cbn. rewrite wrap_small; [lia|]. unfold uword.
    pose proof (length_records_offset done) as Hd. unfold file_offset in Hd. rewrite length_app in Hd, Hbound. change (length journal_header) with 8%nat in Hd.
    pose proof (List.filter_length_le is_live done). lia. }
  change (encode_records (r :: rest)) with (encode_record r ++ encode_records rest) in Hcont.
  assert (kept_records compress (done ++ [r]) = kept_records compress done ++ [r]) as Hkr by (by rewrite kept_records_app, kept_records_live).
  assert (length (pre ++ encode_records (kept_records compress done)) <= length (pre ++ encode_records done))%nat as Hle.
  { rewrite !length_app in *. lia. }
  assert (pre ++ encode_records (kept_records compress (done ++ [r])) = (pre ++ encode_records (kept_records compress done)) ++ encode_record r) as Hpk.
  { rewrite Hkr, encode_records_app, <- app_assoc. change (encode_records [r]) with (encode_record r ++ []). by rewrite app_nil_r. }
  assert (forall h, f_next_append h = Z.of_nat (length (pre ++ encode_records (kept_records compress (done ++ [r])))) ->
    f_next_append h = match trim (kept_records compress (done ++ [r])) with [] => next0 | t => file_offset t end) as Hnextok.
  { intros h ->. rewrite Hkr, trim_snoc, Hlive. unfold file_offset. destruct (kept_records compress done ++ [r]) eqn:E; [by apply app_eq_nil in E as [_ E]|].
    rewrite !length_app, Hpre. done. }
  destruct (found && compress) eqn:Emove.
  - apply andb_true_iff in Emove as [Efound Ecomp]. specialize (Hw Efound Ecomp).
    assert (f_pos_write g = Z.of_nat (length (pre ++ encode_records (kept_records compress done)))) as Hgw by exact Hw.
    set (W := pre ++ encode_records (kept_records compress done)) in *. pose proof (length_encode_record r) as Hlr.
    destruct (move_event_moves W gap r (encode_records rest ++ tail) g Hfail Hwf Hgw) as (h & G' & Hmove & Hhc & Hhf & HG' & Hhn & Hhw & Hhr).
    { unfold g. cbn [increase_event_count set_event_count f_pos_read seekg]. rewrite Hr. unfold W. rewrite !length_app in *.
      rewrite length_concat_le. unfold record_offsets. rewrite length_slot_offsets. change (length (encode_header (record_header r))) with 32%nat.
      unfold data_offset, sizeof_event_header, sizeof_offset. lia. }
    { rewrite length_app. lia. }
    assert (f_pos_read (seekg f (f_pos_read f + sizeof_event_header)) = Z.of_nat (length (W ++ gap)) + sizeof_event_header) as Hao.
    { cbn [seekg f_pos_read]. rewrite Hr. unfold W. rewrite !length_app in *. lia. }
    assert (c = W ++ gap ++ encode_record r ++ encode_records rest ++ tail) as Hcw by (rewrite Hcont; unfold W; by rewrite <- !app_assoc).
    rewrite Hao, Hcw, Hmove. eexists _, h, _. split; [reflexivity|]. split; [|split; [|split]].
    + split; try done. 
    + rewrite Hgw. rewrite wrap_small by (unfold uword; lia). by apply insert_update.
    + split; [done|rewrite Hhr; unfold W; rewrite length_records_snoc, !length_app in *; lia|intros _ _; by rewrite Hhw, Hhn, Hpk|by rewrite Efound|by rewrite Hhc|apply Hnextok; by rewrite Hhn, Hpk|].
      exists G'. rewrite (app_assoc pre), Hpk. split; [by rewrite <- !app_assoc|].
      rewrite Hkr, !encode_records_app. change (encode_records [r]) with (encode_record r ++ []). rewrite app_nil_r, !length_app in *. lia.
    + rewrite !length_app. lia.
  - pose proof (kept_all compress found done Hall Emove) as Hk. assert (gap = []) as -> by (rewrite Hk in Hgap; by eapply gap_nil).
    assert (f_pos_read (seekg_cur g (Z.of_nat (length (inline_bytes (r_slots r))))) = Z.of_nat (length (pre ++ encode_records (kept_records compress (done ++ [r]))))) as Hend.
    { rewrite Hkr, Hk, length_records_snoc. unfold g, seekg_cur. cbn [increase_event_count set_event_count f_pos_read seekg]. rewrite Hr. unfold record_size. lia. }
    rewrite Hend. eexists _, _, c. split; [reflexivity|]. split; [|split; [|split; [|done]]].
    + split; try done. cbn. by rewrite insert_id.
    + unfold record_location. rewrite Hk, <- Hr. done.
    + split; try done.
      * cbn [set_next_append f_pos_read]. rewrite Hend. rewrite Hkr, Hk. done.
      * intros Hfd Hcp. rewrite Hfd, Hcp in Emove. done.
      * intros Hfd. apply Forall_app. split; [by apply Hall|by constructor].
      * apply Hnextok. cbn [set_next_append f_next_append]. rewrite wrap_small; [done|]. unfold uword. rewrite Hkr, Hk, length_records_snoc. lia.
      * exists []. rewrite Hkr, Hk in *. rewrite app_nil_r. split; [|done]. rewrite Hcont, encode_records_app.
        change (encode_records [r]) with (encode_record r ++ []). by rewrite app_nil_r, <- !app_assoc.
Qed.

(** The end of the records. *)
Lemma scan_end done found f c j : f_event_files j !! index = Some f -> d_files (j_dir j) !! index = Some c ->
  scan_rep compress pre done [] tail next0 found f c -> stops tail = true ->
  exists j' f', load_event is_in_the_future compress index (Z.of_nat (length c)) j found = (j', found, false) /\
    file_step index f' c j j' /\ same_index j j' /\ f_fail f' = false /\ f_event_count f' = f_event_count f /\ f_next_append f' = f_next_append f.
Proof.
  intros Hf Hc [Hfail Hr _ _ _ _ (gap & Hcont & Hgap)] Hstop. apply bool_decide_eq_true in Hstop. unfold load_event.
  rewrite (file_object_some _ _ _ Hf), (content_some _ _ _ Hc). change (encode_records []) with (@nil Z) in Hcont. cbn [app] in Hcont.
  assert (c = (pre ++ encode_records (kept_records compress done) ++ gap) ++ tail) as Hct by (by rewrite Hcont, <- !app_assoc).
  assert (f_pos_read f = Z.of_nat (length (pre ++ encode_records (kept_records compress done) ++ gap))) as Hpos.
  { rewrite Hr, !(length_app pre). lia. }
  unfold read. rewrite Hfail. unfold bytes_at. rewrite decide_False by done. destruct (decide _) as [Hle|Hle].
  - assert (h_magic (decode_header (take (Z.to_nat sizeof_event_header) (drop (Z.to_nat (f_pos_read f)) c))) = take 2 tail) as Hm.
    { unfold decode_header. cbn [h_magic]. rewrite take_take. f_equal. by rewrite Hpos, Nat2Z.id, Hct, drop_app_length. }
    rewrite Hpos, Hct, (length_app _ tail) in Hle. unfold sizeof_event_header in Hle, Hstop.
    rewrite decide_True by (rewrite Hm; destruct Hstop; [lia|done]).
    eexists _, (seekg f _). split; [reflexivity|]. split; [|done]. split; try done. cbn. by rewrite insert_id.
  - match goal with |- context [clear ?g] => exists (with_file index (clear g) j), (clear g) end. split; [reflexivity|]. split; [|done]. split; try done. cbn. by rewrite insert_id.
Qed.
End Scan.

(** ** Objects that stay alive during a scan *)

Definition holds (j : journal) (L : locations) (old : gmap Z location) (k : Z) : Prop :=
  (exists id l, L !! id = Some l /\ l_file l = k) \/
  (exists t l p, old !! t = Some l /\ find_key Z.ltb t (f_timebased_replay j) = Some p /\ j_heap j !! p = Some l /\ l_file l = k).

Lemma holds_in_use j L old k : index_rep j L old -> holds j L old k -> in_use j k = true.
Proof.
  intros Hj [(id & l & Hl & Hk)|(t & l & p & _ & Hf & Hh & Hk)]; [by eapply in_use_true|].
  unfold in_use. apply orb_true_iff. right. apply (refers_elem j k Z.ltb); [apply Hj|]. by exists t, p, l.
Qed.

Lemma holds_same j j' L old k : same_index j j' -> holds j L old k -> holds j' L old k.
Proof. intros (Hh & _ & _ & Ht). unfold holds. by rewrite Hh, Ht. Qed.

Lemma holds_insert j L old lx k : index_rep j L old -> L !! l_request_id lx = None -> (forall l, old !! l_event_time lx = Some l -> l_file l <> k) ->
  holds j L old k -> holds (insert_location lx j) (<[l_request_id lx := lx]> L) old k.
Proof.
  intros Hj Hnew Hold [(id & l & Hl & Hk)|(t & l & p & Ho & Hf & Hh & Hk)].
  - left. exists id, l. rewrite lookup_insert_ne; [done|]. congruence.
  - right. exists t, l, p. cbn. rewrite (find_put_ne Z.ltb) by (intros ->; by apply (Hold l)). split_and!; try done.
    rewrite lookup_insert_ne; [done|]. intros <-. apply (Nat.lt_irrefl (j_next j)), (ix_fresh _ _ _ Hj). eauto.
Qed.

(** ** The whole loop *)

(** The file after the scan. *)
Record scanned (compress : bool) (pre : list Z) (rs : list record) (next0 : Z) (f : file) (c : list Z) : Prop := {
  sd_fail : f_fail f = false;
  sd_count : f_event_count f = Z.of_nat (length (List.filter is_live rs));
  sd_next : f_next_append f = match trim (kept_records compress rs) with [] => next0 | t => file_offset t end;
  sd_content : exists stale, c = pre ++ encode_records (kept_records compress rs) ++ stale;
}.

Section Loop.
Context (is_in_the_future : Z -> bool) (compress : bool) (index : Z) (tail : list Z) (next0 : Z).
Context (layout : layouts) (old : gmap Z location) (Hstop : stops tail = true).

(** What the scan needs of the other files and of the records to come. *)
Record scan_ready (j : journal) (L : locations) (rest : list record) : Prop := {
  ry_index : index_rep j L old;
  ry_distinct : distinct rest;
  ry_fresh : fresh L rest;
  ry_old r : r ∈ rest -> is_live r = true -> forall l, old !! r_time r = Some l -> l_file l = index;
  ry_others k : k <> index -> is_Some (f_event_files j !! k) -> holds j L old k;
}.

Lemma ready_skip j j' L r rest f c : scan_ready j L (r :: rest) -> same_index j j' -> file_step index f c j j' -> scan_ready j' L rest.
Proof.
  intros [Hj [_ Hd] Hf Ho Hk] Hsame Hstep. split; [by eapply same_index_rep|done| | |].
  - intros x Hx. apply Hf. by right.
  - intros x Hx. apply Ho. by right.
  - intros k Hne Hs. eapply holds_same; [done|]. apply Hk; [done|]. by rewrite (fs_files _ _ _ _ _ Hstep), lookup_insert_ne in Hs.
Qed.

Lemma ready_kept j L r rest lx k : scan_ready j L (r :: rest) -> is_live r = true -> l_file lx = index -> l_request_id lx = r_id r ->
  l_event_time lx = r_time r -> is_Some (f_event_files j !! k) -> kept (Some index) (insert_location lx j) k.
Proof.
  intros [Hj _ Hf Ho Hk] Hr Hfile Hid Ht Hs. destruct (Hf r ltac:(by left) Hr) as [Hnew Htimes].
  destruct (decide (k = index)) as [->|Hne]; [by left|right].
  eapply (holds_in_use _ (<[l_request_id lx := lx]> L) old).
  - apply insert_location_rep; [done|by rewrite Hid|]. intros id l Hl. rewrite Ht. by eapply Htimes.
  - apply holds_insert; [done|by rewrite Hid| |by apply Hk]. intros l. rewrite Ht. intros Hol Hlk.
    rewrite (Ho r ltac:(by left) Hr l Hol) in Hlk. congruence.
Qed.

Lemma ready_insert j j' L r rest l f c : scan_ready j L (r :: rest) -> is_live r = true -> l_file l = index -> l_request_id l = r_id r ->
  l_event_time l = r_time r -> same_index (insert_location l j) j' -> file_step index f c j j' -> scan_ready j' (<[r_id r := l]> L) rest.
Proof.
  intros [Hj [Hdr Hd] Hf Ho Hk] Hr Hfile Hid Ht Hsame Hstep. destruct (Hf r ltac:(by left) Hr) as [Hnew Htimes].
  assert (index_rep (insert_location l j) (<[r_id r := l]> L) old) as Hins.
  { rewrite <- Hid. apply insert_location_rep; [done|by rewrite Hid|]. intros id l' Hl'. rewrite Ht. by eapply Htimes. }
  split; [by eapply same_index_rep|done| | |].
  - intros x Hx Hxl. destruct (Hdr Hr x Hx Hxl) as [Hdi Hdt]. destruct (Hf x ltac:(by right) Hxl) as [Hxn Hxt]. split.
    + by rewrite lookup_insert_ne.
    + intros id l'. rewrite lookup_insert_Some. intros [[_ <-]|[_ Hl']]; [congruence|by eapply Hxt].
  - intros x Hx. apply Ho. by right.
  - intros k Hne Hs. eapply holds_same; [exact Hsame|]. rewrite <- Hid. apply holds_insert; [done|by rewrite Hid| |].
    + intros l'. rewrite Ht. intros Hol Hlk. rewrite (Ho r ltac:(by left) Hr l' Hol) in Hlk. congruence.
    + apply Hk; [done|]. by rewrite (fs_files _ _ _ _ _ Hstep), lookup_insert_ne in Hs.
Qed.

(** The locations the scan adds. *)
Definition added (L L' : locations) (rs : list record) : Prop :=
  (forall id l, L !! id = Some l -> L' !! id = Some l) /\
  (forall id l, L' !! id = Some l -> L !! id = Some l \/ exists r, r ∈ rs /\ is_live r = true /\ id = r_id r /\ l_event_time l = r_time r).

Lemma scan_loop pre rest : length pre = 8%nat -> forall fuel done found f c j L, (length rest < fuel)%nat ->
  f_event_files j !! index = Some f -> d_files (j_dir j) !! index = Some c ->
  scan_rep compress pre done rest tail next0 found f c -> Forall record_wf rest -> Forall (loadable is_in_the_future) rest ->
  Z.of_nat (length (pre ++ encode_records (done ++ rest))) < 2 ^ 31 ->
  scan_ready j L rest -> located L (<[index := kept_records compress done]> layout) ->
  exists j' L' f' c', load_events is_in_the_future fuel compress index (Z.of_nat (length c)) j found = Ok j' /\
    file_step index f' c' j j' /\ scan_ready j' L' [] /\ located L' (<[index := kept_records compress (done ++ rest)]> layout) /\
    scanned compress pre (done ++ rest) next0 f' c' /\ added L L' rest.
Proof.
  intros Hpre. induction rest as [|r rest IH]; intros [|fuel] done found f c j L Hfuel Hf Hc Hscan Hwf Hload Hbound Hready Hloc; try (cbn in Hfuel; lia).
  - destruct (scan_end is_in_the_future compress index pre tail next0 Hpre done found f c j Hf Hc Hscan Hstop) as (j' & f' & Heq & Hstep & Hsame & Hfail & Hcount & Hnext).
    exists j', L, f', c. cbn [load_events]. rewrite Heq, app_nil_r. split_and!; try done.
    + destruct Hready as [Hj _ _ _ Hk]. split; [by eapply same_index_rep|done| | |]; try (intros x Hx; by apply not_elem_of_nil in Hx).
      intros k Hne Hs. eapply holds_same; [done|]. apply Hk; [done|]. by rewrite (fs_files _ _ _ _ _ Hstep), lookup_insert_ne in Hs.
    + destruct Hscan as [_ _ _ _ Hcn Hnx (gap & Hcont & _)]. split; [done|congruence|congruence|]. eauto.
    + split; auto.
  - apply Forall_cons in Hwf as [Hr Hwf]. apply Forall_cons in Hload as [Hlr Hload]. replace (done ++ r :: rest) with ((done ++ [r]) ++ rest) in * by (by rewrite <- app_assoc).
    cbn [length] in Hfuel. cbn [load_events]. destruct (is_live r) eqn:Hlive.
    + assert (Z.of_nat (length (pre ++ encode_records (done ++ [r]))) < 2 ^ 31) as Hb.
      { rewrite (encode_records_app (done ++ [r])), app_assoc, length_app in Hbound. lia. }
      destruct (scan_live is_in_the_future compress index pre tail next0 Hpre done r rest found f c j Hf Hc Hscan Hr Hlr Hlive Hb) as (j1 & f1 & c1 & Heq & Hstep & Hsame & Hscan1 & Hlen).
      { intros lx k Hx1 Hx2 Hx3. by eapply ready_kept. }
      set (l := record_location compress index pre done r) in *.
      assert (scan_ready j1 (<[r_id r := l]> L) rest) as Hready1 by (by eapply ready_insert).
      assert (located (<[r_id r := l]> L) (<[index := kept_records compress (done ++ [r])]> layout)) as Hloc1.
      { rewrite kept_records_app, kept_records_live by done. rewrite <- (insert_insert_eq layout index _ (kept_records compress done)).
        apply located_append; try done; [by destruct (ry_fresh _ _ _ Hready r ltac:(by left) Hlive)|left; by rewrite lookup_insert_eq|].
        split; try done. cbn. unfold file_offset. by rewrite !length_app, Hpre. }
      destruct (IH fuel (done ++ [r]) found f1 c1 j1 (<[r_id r := l]> L)) as (j' & L' & f' & c' & Heq' & Hstep' & Hready' & Hloc' & Hscanned & Hadd1 & Hadd2); try done; try lia.
      { rewrite (fs_files _ _ _ _ _ Hstep). by rewrite lookup_insert_eq. } { rewrite (fs_contents _ _ _ _ _ Hstep). by rewrite lookup_insert_eq. }
      exists j', L', f', c'. rewrite Heq, <- Hlen. split_and!; try done; [by eapply file_step_trans|]. split.
      * intros id lx Hlx. apply Hadd1. rewrite lookup_insert_ne; [done|]. intros <-. destruct (ry_fresh _ _ _ Hready r ltac:(by left) Hlive). congruence.
      * intros id lx Hlx. destruct (Hadd2 id lx Hlx) as [Hin|(x & Hx & Hxr)]; [|right; exists x; split; [by right|done]].
        apply lookup_insert_Some in Hin as [[<- <-]|[_ Hin]]; [|by left]. right. exists r. split; [by left|done].
    + destruct (scan_dead is_in_the_future compress index pre tail next0 Hpre done r rest found f c j Hf Hc Hscan Hr Hlr Hlive) as (j1 & f1 & Heq & Hstep & Hsame & Hscan1).
      assert (located L (<[index := kept_records compress (done ++ [r])]> layout)) as Hloc1.
      { rewrite kept_records_app. apply located_dead; [done|]. destruct compress; [cbn; by rewrite Hlive|by repeat constructor]. }
      destruct (IH fuel (done ++ [r]) true f1 c j1 L) as (j' & L' & f' & c' & Heq' & Hstep' & Hready' & Hloc' & Hscanned & Hadd1 & Hadd2); try done; try lia.
      { rewrite (fs_files _ _ _ _ _ Hstep). by rewrite lookup_insert_eq. } { rewrite (fs_contents _ _ _ _ _ Hstep). by rewrite lookup_insert_eq. }
      { by eapply ready_skip. }
      exists j', L', f', c'. rewrite Heq. split_and!; try done; [by eapply file_step_trans|]. split; [done|].
      intros id lx Hlx. destruct (Hadd2 id lx Hlx) as [Hin|(x & Hx & Hxr)]; [by left|]. right. exists x. split; [by right|done].
Qed.
End Loop.
