(* ===== verification/JournalReload.v ===== *)
(** * Loading all the files (journal::load_event_locations())

    Each file is either closed, without any event, or the source of a list of
    records; the loop gives the index of all the live records. *)

From S2P Require Import Prelude Bytes SortedMap JournalFile JournalLayout Journal JournalIndex JournalRep JournalChanges JournalStatus JournalAdd JournalLoad.

(** ** Closed files *)

#[export] Instance loadable_dec is_in_the_future r : Decision (loadable is_in_the_future r).
Proof. unfold loadable. apply _. Defined.

Section Closed.
Context (is_in_the_future : Z -> bool) (compress : bool) (index : Z) (pre : list Z) (tail : list Z) (next0 : Z).
Context (Hpre : length pre = 8%nat) (Hstop : stops tail = true).

(** The scan stops at a record it does not accept. *)
Lemma scan_unloadable done r rest found f c j : f_event_files j !! index = Some f -> d_files (j_dir j) !! index = Some c ->
  scan_rep compress pre done (r :: rest) tail next0 found f c -> record_wf r -> ~ loadable is_in_the_future r ->
  exists j' f', load_event is_in_the_future compress index (Z.of_nat (length c)) j found = (j', found, false) /\
    file_step index f' c j j' /\ same_index j j' /\ f_next_append f' = f_next_append f.
Proof.
  intros Hf Hc Hscan Hwf Hload. pose proof (record_fields r Hwf) as [Hdec Htime].
  destruct (scan_header compress pre tail next0 Hpre done r rest found f c Hscan) as [Hread Hsize].
  unfold load_event. rewrite (file_object_some _ _ _ Hf), (content_some _ _ _ Hc), Hread, Hdec.
  exists (with_file index (seekg f (f_pos_read f + sizeof_event_header)) j), (seekg f (f_pos_read f + sizeof_event_header)).
  split; [|split; [|done]; split; try done; cbn; by rewrite insert_id].
  cbn [record_header h_magic h_status h_request_id_size h_attachment_count h_size h_sec h_nsec]. rewrite Htime.
  destruct (decide _); [done|]. destruct (decide _); [done|]. destruct (decide _) as [|Hn]; [done|].
  destruct (is_in_the_future (r_time r)) eqn:Hfuture; [done|]. exfalso. apply Hload. split; [|done].
  unfold record_size, data_offset in Hn. lia.
Qed.

Lemma scan_closed rest : forall fuel done found f c j, (length rest < fuel)%nat ->
  f_event_files j !! index = Some f -> d_files (j_dir j) !! index = Some c ->
  scan_rep compress pre done rest tail next0 found f c -> Forall record_wf rest -> Forall (fun r => is_live r = false) rest ->
  exists j' f', load_events is_in_the_future fuel compress index (Z.of_nat (length c)) j found = Ok j' /\
    file_step index f' c j j' /\ same_index j j' /\ f_next_append f' = f_next_append f.
Proof.
  induction rest as [|r rest IH]; intros [|fuel] done found f c j Hfuel Hf Hc Hscan Hwf Hdead; try (cbn in Hfuel; lia); cbn [load_events].
  - destruct (scan_end is_in_the_future compress index pre tail next0 Hpre done found f c j Hf Hc Hscan Hstop) as (j' & f' & -> & Hstep & Hsame & _ & _ & Hnext).
    by exists j', f'.
  - apply Forall_cons in Hwf as [Hr Hwf]. apply Forall_cons in Hdead as [Hd Hdead]. cbn [length] in Hfuel.
    destruct (decide (loadable is_in_the_future r)) as [Hl|Hl].
    + destruct (scan_dead is_in_the_future compress index pre tail next0 Hpre done r rest found f c j Hf Hc Hscan Hr Hl Hd) as (j1 & f1 & -> & Hstep & Hsame & Hscan1).
      destruct (IH fuel (done ++ [r]) true f1 c j1) as (j' & f' & Heq & Hstep' & Hsame' & Hnext'); try done; try lia.
      { rewrite (fs_files _ _ _ _ _ Hstep). by rewrite lookup_insert_eq. } { rewrite (fs_contents _ _ _ _ _ Hstep). by rewrite lookup_insert_eq. }
      exists j', f'. split_and!; [done|by eapply file_step_trans|by eapply same_index_trans|].
      rewrite Hnext', (sn_next _ _ _ _ _ _ _ _ _ Hscan1), (sn_next _ _ _ _ _ _ _ _ _ Hscan), kept_records_app.
      destruct compress; cbn [kept_records]; [cbn; by rewrite Hd, app_nil_r|]. by rewrite trim_snoc, Hd.
    + destruct (scan_unloadable done r rest found f c j Hf Hc Hscan Hr Hl) as (j' & f' & -> & Hstep & Hsame & Hnext). by exists j', f'.
Qed.

(** The start of a scan. *)
Lemma scan_start rs f : f_fail f = false ->
  scan_rep compress pre [] rs tail (f_next_append f) false
    (seekg (seekg (reset_event_count f) 0) (Z.of_nat (length pre))) (pre ++ encode_records rs ++ tail).
Proof.
  intros Hf. split; try done.
  - cbn. by rewrite app_nil_r.
  - by destruct compress.
  - exists []. by destruct compress.
Qed.
End Closed.

(** ** The events of the files *)

(** Two live records have different identifiers and times. *)
Definition unique_events (src : layouts) : Prop :=
  forall k a r b k' a' r' b', src !! k = Some (a ++ r :: b) -> is_live r = true -> src !! k' = Some (a' ++ r' :: b') -> is_live r' = true ->
    r_id r = r_id r' \/ r_time r = r_time r' -> k = k' /\ a = a'.

Lemma unique_distinct src k rs : unique_events src -> src !! k = Some rs -> distinct rs.
Proof.
  intros Hu. assert (forall rest seen, src !! k = Some (seen ++ rest) -> distinct rest) as Hgen; [|by apply (Hgen rs [])].
  induction rest as [|r rest IH]; intros seen Hk; [done|]. split.
  - intros Hr x Hx Hxl. apply list_elem_of_split in Hx as (a & b & ->).
    assert (src !! k = Some ((seen ++ r :: a) ++ x :: b)) as Hk' by (by rewrite <- app_assoc).
    assert (~ (r_id r = r_id x \/ r_time r = r_time x)) as Hne; [|split; tauto].
    intros Heq. destruct (Hu _ _ _ _ _ _ _ _ Hk Hr Hk' Hxl Heq) as [_ Hd]. apply (f_equal length) in Hd. rewrite length_app in Hd. cbn in Hd. lia.
  - apply (IH (seen ++ [r])). by rewrite <- app_assoc.
Qed.

Lemma unique_elem src k rs r k' rs' r' : unique_events src -> src !! k = Some rs -> r ∈ rs -> is_live r = true ->
  src !! k' = Some rs' -> r' ∈ rs' -> is_live r' = true -> r_id r = r_id r' \/ r_time r = r_time r' -> k = k' /\ r = r'.
Proof.
  intros Hu Hk (a & b & ->)%list_elem_of_split Hr Hk' (a' & b' & ->)%list_elem_of_split Hr' Heq.
  destruct (Hu _ _ _ _ _ _ _ _ Hk Hr Hk' Hr' Heq) as [-> ->]. split; [done|]. rewrite Hk in Hk'. by simplify_list_eq.
Qed.

(** The events that the live records of the files stand for. *)
Record holds_events (src : layouts) (ext : externals) (m : events) : Prop := {
  he_only id : is_Some (m !! id) -> exists k rs r, src !! k = Some rs /\ r ∈ rs /\ is_live r = true /\ r_id r = id;
  he_record k rs r : src !! k = Some rs -> r ∈ rs -> is_live r = true -> m !! r_id r = Some (entry_of ext r);
}.

(** What is left of the records of a file after the scan. *)
Definition left_records (compress : bool) (rs : list record) : list record := trim (kept_records compress rs).

Lemma left_elem compress rs r : is_live r = true -> r ∈ left_records compress rs <-> r ∈ rs.
Proof.
  intros Hr. unfold left_records. destruct compress; cbn [kept_records]; split; intros H; [|apply trim_live; [|done]|by apply trim_elem|by apply trim_live].
  - apply trim_elem, list_elem_of_In, List.filter_In in H as [H _]. by apply list_elem_of_In.
  - apply list_elem_of_In, List.filter_In. split; [by apply list_elem_of_In|done].
Qed.

Lemma left_has_live compress rs : has_live rs -> has_live (left_records compress rs).
Proof. intros (r & Hr & Hl). exists r. by rewrite left_elem. Qed.

Lemma left_wf compress rs : Forall record_wf rs -> Forall record_wf (left_records compress rs).
Proof.
  intros Hwf. apply Forall_forall. intros r Hr. apply trim_elem in Hr. rewrite Forall_forall in Hwf. apply Hwf.
  destruct compress; [|done]. apply list_elem_of_In, List.filter_In in Hr as [Hr _]. by apply list_elem_of_In.
Qed.

Lemma filter_filter_live rs : List.filter is_live (List.filter is_live rs) = List.filter is_live rs.
Proof. induction rs as [|r rs IH]; [done|]. cbn. destruct (is_live r) eqn:E; [|done]. cbn. by rewrite E, IH. Qed.

Lemma filter_all_dead rs : Forall (fun r => is_live r = false) rs -> List.filter is_live rs = [].
Proof. induction 1 as [|r rs Hr _ IH]; [done|]. cbn. by rewrite Hr. Qed.

Lemma left_live compress rs : List.filter is_live (left_records compress rs) = List.filter is_live rs.
Proof.
  unfold left_records. destruct (trim_split (kept_records compress rs)) as (dead & Heq & Hd).
  transitivity (List.filter is_live (kept_records compress rs)).
  - rewrite Heq at 2. by rewrite List.filter_app, (filter_all_dead dead), app_nil_r.
  - destruct compress; [apply filter_filter_live|done].
Qed.

Lemma filter_offset rs : file_offset (List.filter is_live rs) <= file_offset rs.
Proof.
  induction rs as [|r rs IH] using rev_ind; [done|]. rewrite List.filter_app, file_offset_snoc. cbn. pose proof (record_size_pos r).
  destruct (is_live r); [rewrite file_offset_snoc; lia|rewrite app_nil_r; lia].
Qed.

Lemma left_offset compress rs : file_offset (left_records compress rs) <= file_offset rs.
Proof.
  unfold left_records. destruct (trim_split (kept_records compress rs)) as (dead & Heq & _).
  transitivity (file_offset (kept_records compress rs)); [rewrite Heq at 2; rewrite file_offset_app; lia|]. destruct compress; [apply filter_offset|done].
Qed.

(** ** The loop over the files *)

Section Reload.
Context (is_in_the_future : Z -> bool) (compress : bool).
Context (cfg : config) (ext : externals) (counter current : Z) (src : layouts) (old : gmap Z location).

(** The files to load. *)
Record sources : Prop := {
  so_range k : is_Some (src !! k) -> 0 <= k < f_maximum_number_of_files cfg;
  so_wf k rs : src !! k = Some rs -> Forall record_wf rs;
  so_live k rs : src !! k = Some rs -> has_live rs;
  so_loadable k rs : src !! k = Some rs -> Forall (loadable is_in_the_future) rs;
  so_bound k rs : src !! k = Some rs -> file_offset rs < 2 ^ 31;
  so_unique : unique_events src;
  so_old_file t l : old !! t = Some l -> is_Some (src !! l_file l);
  so_old k rs r : src !! k = Some rs -> r ∈ rs -> is_live r = true -> forall l, old !! r_time r = Some l -> l_file l = k;
}.
Context (Hsrc : sources).

(** A file that was not loaded yet. *)
Definition pending (j : journal) (k : Z) : Prop :=
  match src !! k with
  | Some rs => exists tail, d_files (j_dir j) !! k = Some (journal_header ++ encode_records rs ++ tail) /\ stops tail = true /\
      f_fail (file_object j k) = false
  | None => f_event_files j !! k = None /\ forall c, d_files (j_dir j) !! k = Some c -> closed_rep c
  end.

(** The files below [i] are loaded, the others pending. *)
Record load_state (i : Z) (j : journal) (L : locations) (layout : layouts) : Prop := {
  ls_config : j_config j = cfg;
  ls_externals : d_externals (j_dir j) = ext;
  ls_counter : d_counter (j_dir j) = counter;
  ls_current : f_current_file_index j = current;
  ls_index : index_rep j L old;
  ls_located : located L layout;
  ls_layout k : layout !! k = if decide (k < i) then left_records compress <$> src !! k else None;
  ls_done k : k < i -> file_rep j layout k;
  ls_todo k : i <= k -> pending j k;
  ls_times id l : L !! id = Some l -> exists k rs r, k < i /\ src !! k = Some rs /\ r ∈ rs /\ is_live r = true /\ r_id r = id /\ r_time r = l_event_time l;
  ls_hold k : i <= k -> is_Some (f_event_files j !! k) -> holds j L old k;
}.

Lemma ls_done_hold i j L layout k : load_state i j L layout -> k < i -> is_Some (f_event_files j !! k) -> holds j L old k.
Proof.
  intros Hls Hk [f Hf]. pose proof (ls_done _ _ _ _ Hls k Hk) as Hfr. unfold file_rep in Hfr. destruct (layout !! k) as [rs|] eqn:E; [|destruct Hfr; congruence].
  destruct Hfr as (_ & _ & _ & _ & _ & (a & x & b & -> & Hx)%has_live_split).
  destruct (lo_live _ _ (ls_located _ _ _ _ Hls) _ _ _ _ E Hx) as (l & Hl & Hlf & _). left. eauto.
Qed.

Lemma ls_all_hold i j L layout k : load_state i j L layout -> is_Some (f_event_files j !! k) -> holds j L old k.
Proof. intros Hls Hk. destruct (decide (k < i)); [by eapply ls_done_hold|]. eapply ls_hold; [done|lia|done]. Qed.

(** Nothing refers to a file without events. *)
Lemma ls_unused i j L layout : load_state i j L layout -> src !! i = None -> in_use j i = false.
Proof.
  intros Hls Hi. eapply in_use_false; [apply Hls| |].
  - intros id l Hl Hlf. destruct (lo_record _ _ (ls_located _ _ _ _ Hls) _ _ Hl) as (a & x & b & Hk & _). rewrite Hlf, (ls_layout _ _ _ _ Hls) in Hk.
    destruct (decide _); [lia|done].
  - intros t l Hl Hlf. destruct (so_old_file Hsrc t l Hl) as [rs Hrs]. congruence.
Qed.

(** The file turns out to have no event: its object is closed again. *)
Lemma load_closed_end i j L layout j1 f c : load_state i j L layout -> src !! i = None -> 0 <= i -> f_next_append f = 0 -> closed_rep c ->
  file_step i f c j j1 -> same_index j j1 -> load_state (i + 1) (release None j1) L layout.
Proof.
  intros Hls Hi H0 Hn Hc Hstep Hsame.
  assert (f_event_files j1 !! i = Some f) as Hf by (by rewrite (fs_files _ _ _ _ _ Hstep), lookup_insert_eq).
  assert (content j1 i = c) as Hcont by (apply content_some; by rewrite (fs_contents _ _ _ _ _ Hstep), lookup_insert_eq).
  rewrite (release_closes None j1 i).
  2: done. 2: { rewrite (same_index_in_use j j1) by done. by eapply ls_unused. }
  2: { intros k Hk Hne. right. rewrite (same_index_in_use j j1) by done. rewrite (fs_files _ _ _ _ _ Hstep), lookup_insert_ne in Hk by done.
       eapply holds_in_use; [apply Hls|]. by eapply ls_all_hold. }
  destruct (close_unused i j1 f Hf Hn) as (Hcf & Hcd & Hcc & Hce & Hcn & Hccf & Hci & _); [by rewrite Hcont|].
  pose proof (same_index_trans _ _ _ Hsame (close_file_index i j1)) as Hsame'. destruct Hstep as [Hs1 Hs2 Hs3 Hs4 Hs5 Hs6].
  assert (forall k, k <> i -> f_event_files (close_file i j1) !! k = f_event_files j !! k) as Hfk by (intros k Hk; by rewrite Hcf, lookup_delete_ne, Hs2, lookup_insert_ne).
  assert (forall k, k <> i -> d_files (j_dir (close_file i j1)) !! k = d_files (j_dir j) !! k) as Hdk by (intros k Hk; by rewrite Hcd, Hs3, lookup_insert_ne).
  destruct Hls. split; try congruence.
  - by eapply same_index_rep.
  - intros k. rewrite ls_layout0. destruct (decide (k = i)) as [->|]; [rewrite Hi; by repeat destruct (decide _)|].
    destruct (decide (k < i)), (decide (k < i + 1)); done || lia.
  - intros k Hk. destruct (decide (k = i)) as [->|Hne].
    + unfold file_rep. rewrite ls_layout0. rewrite decide_False by lia. rewrite Hcf, lookup_delete_eq. done.
    + eapply file_rep_other; [by apply Hfk|by apply Hdk|done|]. apply ls_done0. lia.
  - intros k Hk. assert (k <> i) as Hne by lia. specialize (ls_todo0 k ltac:(lia)). unfold pending, file_object in *. rewrite Hfk, Hdk by done. done.
  - intros id l Hl. destruct (ls_times0 id l Hl) as (k & rs & r & Hk & Hrest). exists k, rs, r. split; [lia|done].
  - intros k Hk Hs. assert (k <> i) as Hne by lia. rewrite Hfk in Hs by done. eapply holds_same; [done|]. apply ls_hold0; [lia|done].
Qed.

Lemma load_file_closed i j L layout : load_state i j L layout -> src !! i = None -> 0 <= i < f_maximum_number_of_files cfg ->
  exists j', load_file is_in_the_future compress i j = Ok j' /\ load_state (i + 1) j' L layout.
Proof.
  intros Hls Hi Hrange. pose proof (ls_todo _ _ _ _ Hls i ltac:(lia)) as Hp. unfold pending in Hp. rewrite Hi in Hp. destruct Hp as [Hf Hc].
  unfold load_file, get_event_file. rewrite (ls_config _ _ _ _ Hls), decide_False by lia. rewrite Hf.
  destruct (d_files (j_dir j) !! i) as [c|] eqn:Ed; cbn [result_bind negb].
  2: { exists j. split; [done|]. destruct Hls. split; try done.
    - intros k. rewrite ls_layout0. destruct (decide (k = i)) as [->|]; [rewrite Hi; by repeat destruct (decide _)|].
      destruct (decide (k < i)), (decide (k < i + 1)); done || lia.
    - intros k Hk. destruct (decide (k = i)) as [->|Hne]; [|apply ls_done0; lia]. unfold file_rep. rewrite ls_layout0, decide_False by lia. split; [done|].
      intros c Hcc. congruence.
    - intros k Hk. apply ls_todo0. lia.
    - intros id l Hl. destruct (ls_times0 id l Hl) as (k & rs & r & Hk & Hrest). exists k, rs, r. split; [lia|done].
    - intros k Hk. apply ls_hold0. lia. }
  specialize (Hc c eq_refl). set (j1 := with_file i new_file j).
  assert (file_object j1 i = new_file) as -> by (unfold file_object; cbn; by rewrite lookup_insert_eq).
  assert (content j1 i = c) as -> by (by apply content_some).
  assert (forall g, f_next_append g = 0 -> load_state (i + 1) (release None (with_file i g j1)) L layout) as Hend.
  { intros g Hg. eapply (load_closed_end i j L layout _ g c); try done; [lia|]. split; try done; cbn; [by rewrite insert_insert_eq|by rewrite insert_id]. }
  set (f := seekg (reset_event_count new_file) 0).
  unfold read. cbn [f_fail f seekg reset_event_count set_event_count new_file f_pos_read]. unfold bytes_at. rewrite decide_False by done. destruct (decide _) as [Hlen|Hlen].
  2: { eexists. split; [reflexivity|]. by apply Hend. }
  cbn [f_pos_read f seekg reset_event_count set_event_count new_file]. rewrite drop_0, take_take.
  destruct (decide (take _ c <> _)) as [Hmagic|Hmagic]; [eexists; split; [reflexivity|]; by apply Hend|].
  destruct Hc as [Hshort|[Hbad|(pre & rs & tail & Hcont & Hpre & Hstop & Hwf & Hdead)]]; [lia|by destruct Hmagic|].
  set (g := seekg _ _).
  destruct (scan_closed is_in_the_future compress i pre tail 0 Hpre Hstop rs (S (length c)) [] false g c (with_file i g j1)) as (j' & f' & Heq & Hstep & Hsame & Hnext).
  - rewrite Hcont, !length_app. assert (length rs <= length (encode_records rs))%nat; [|lia].
    pose proof (length_records_offset rs) as Hl. clear. induction rs as [|r rs IH]; [done|].
    change (encode_records (r :: rs)) with (encode_record r ++ encode_records rs). rewrite length_app. pose proof (length_encode_record r). pose proof (record_size_pos r). cbn [length]. lia.
  - cbn. by rewrite lookup_insert_eq.
  - done.
  - rewrite Hcont. pose proof (scan_start compress pre tail rs new_file eq_refl) as Hs. rewrite Hpre in Hs. exact Hs.
  - done.
  - done.
  - rewrite Heq. cbn [result_bind]. eexists. split; [reflexivity|].
    eapply (load_closed_end i j L layout j' f' c); [done|done|lia|done|right; right; by exists pre, rs, tail| |exact Hsame].
    eapply file_step_trans; [|exact Hstep]. split; try done; cbn; [by rewrite insert_insert_eq|by rewrite insert_id].
Qed.

(** The records of the next file are told from those that were loaded. *)
Lemma load_ready i j j1 L layout rs f c : load_state i j L layout -> src !! i = Some rs -> file_step i f c j j1 -> same_index j j1 ->
  scan_ready i old j1 L rs.
Proof.
  intros Hls Hi Hstep Hsame. split.
  - eapply same_index_rep; [exact Hsame|apply Hls].
  - by eapply unique_distinct; [apply Hsrc|].
  - intros r Hr Hlive. split.
    + destruct (L !! r_id r) as [l|] eqn:E; [|done]. destruct (ls_times _ _ _ _ Hls _ _ E) as (k & rs' & r' & Hk & Hs & Hr' & Hl' & Hid & _).
      destruct (unique_elem src i rs r k rs' r' (so_unique Hsrc) Hi Hr Hlive Hs Hr' Hl'); [by left|lia].
    + intros id l Hl Ht. destruct (ls_times _ _ _ _ Hls _ _ Hl) as (k & rs' & r' & Hk & Hs & Hr' & Hl' & _ & Ht').
      destruct (unique_elem src i rs r k rs' r' (so_unique Hsrc) Hi Hr Hlive Hs Hr' Hl'); [right; congruence|lia].
  - intros r Hr Hlive. by apply (so_old Hsrc i rs).
  - intros k Hne Hs. rewrite (fs_files _ _ _ _ _ Hstep), lookup_insert_ne in Hs by done. eapply holds_same; [exact Hsame|]. by eapply ls_all_hold.
Qed.

(** The file after the scan represents what is left of its records. *)
Lemma scanned_open rs next0 f c : has_live rs -> Forall record_wf rs -> file_offset rs < 2 ^ 31 ->
  scanned compress journal_header rs next0 f c -> open_rep f c (left_records compress rs).
Proof.
  intros Hlive Hwf Hb [Hfail Hcount Hnext [stale Hcont]]. pose proof (left_has_live compress rs Hlive) as Hleft. split; [done|by apply left_wf| | | |].
  - rewrite Hnext. fold (left_records compress rs). destruct (left_records compress rs); [|done]. destruct Hleft as (r & Hr & _). by apply not_elem_of_nil in Hr.
  - pose proof (left_offset compress rs). lia.
  - by rewrite left_live.
  - destruct (trim_split (kept_records compress rs)) as (dead & Heq & _). exists (encode_records dead ++ stale).
    rewrite Hcont, Heq at 1. rewrite encode_records_app, <- !app_assoc. done.
Qed.

Lemma load_file_live i j L layout rs : load_state i j L layout -> src !! i = Some rs ->
  exists j' L', load_file is_in_the_future compress i j = Ok j' /\ load_state (i + 1) j' L' (<[i := left_records compress rs]> layout).
Proof.
  intros Hls Hi. pose proof (ls_todo _ _ _ _ Hls i ltac:(lia)) as Hp. unfold pending in Hp. rewrite Hi in Hp. destruct Hp as (tail & Hc & Hstop & Hfail).
  pose proof (so_range Hsrc i ltac:(rewrite Hi; eauto)) as Hrange. set (c := journal_header ++ encode_records rs ++ tail) in *. set (f0 := file_object j i) in *.
  assert (exists j1, get_event_file i false j = Ok (true, j1) /\ file_step i f0 c j j1 /\ same_index j j1) as (j1 & Hget & Hstep1 & Hsame1).
  { unfold get_event_file. rewrite (ls_config _ _ _ _ Hls), decide_False by lia. rewrite Hc. unfold f0, file_object.
    destruct (f_event_files j !! i) as [f|] eqn:Ef; eexists; (split; [reflexivity|]); (split; [|done]); split; try done; cbn; by rewrite insert_id. }
  unfold load_file. rewrite Hget. cbn [result_bind negb].
  assert (file_object j1 i = f0) as -> by (apply file_object_some; by rewrite (fs_files _ _ _ _ _ Hstep1), lookup_insert_eq).
  assert (content j1 i = c) as -> by (apply content_some; by rewrite (fs_contents _ _ _ _ _ Hstep1), lookup_insert_eq).
  set (f := seekg (reset_event_count f0) 0).
  assert (read f c sizeof_journal_header = (Some journal_header, seekg f 8)) as ->.
  { change sizeof_journal_header with (Z.of_nat (length journal_header)). apply (read_there f [] journal_header); done. }
  rewrite decide_False by (intros Hne; by apply Hne). set (g := seekg f 8).
  set (j2 := with_file i g j1).
  assert (file_step i g c j1 j2) as Hstep2 by (split; try done; cbn; by rewrite (fs_contents _ _ _ _ _ Hstep1), insert_insert_eq).
  pose proof (file_step_trans _ _ _ _ _ _ _ _ Hstep1 Hstep2) as Hstep12.
  assert (layout !! i = None) as Hlay by (rewrite (ls_layout _ _ _ _ Hls), decide_False by lia; done).
  pose proof (scan_start compress journal_header tail rs f0 Hfail) as Hscan.
  assert (located L (<[i := kept_records compress []]> layout)) as Hstart.
  { replace (kept_records compress []) with (@nil record) by (by destruct compress). by apply located_start; [apply Hls|]. }
  pose proof (load_ready i j j2 L layout rs g c Hls Hi Hstep12 Hsame1) as Hready.
  destruct (scan_loop is_in_the_future compress i tail (f_next_append f0) layout old Hstop journal_header rs eq_refl (S (length c)) [] false g c j2 L)
    as (j' & L' & f' & c' & Heq & Hstep & Hready' & Hloc & Hscanned & Hadd1 & Hadd2); try done.
  { unfold c. rewrite !length_app. pose proof (length_records_offset rs). assert (length rs <= length (encode_records rs))%nat; [|lia].
    clear. induction rs as [|r rs IH]; [done|].
    change (encode_records (r :: rs)) with (encode_record r ++ encode_records rs). rewrite length_app. pose proof (length_encode_record r). pose proof (record_size_pos r). cbn [length]. lia. }
  { cbn. by rewrite lookup_insert_eq. } { cbn. by rewrite (fs_contents _ _ _ _ _ Hstep1), lookup_insert_eq. }
  { by apply (so_wf Hsrc i). } { by apply (so_loadable Hsrc i). } { by apply (so_bound Hsrc i). }
  cbn [app] in Hloc, Hscanned. rewrite Heq. cbn [result_bind].
  pose proof (file_step_trans _ _ _ _ _ _ _ _ Hstep12 Hstep) as Hfinal.
  assert (located L' (<[i := left_records compress rs]> layout)) as Hloc'.
  { destruct (trim_split (kept_records compress rs)) as (dead & Hk & Hd). rewrite Hk in Hloc. by eapply located_undead. }
  pose proof (scanned_open rs _ f' c' (so_live Hsrc i rs Hi) (so_wf Hsrc i rs Hi) (so_bound Hsrc i rs Hi) Hscanned) as Hopen.
  pose proof (left_has_live compress rs (so_live Hsrc i rs Hi)) as Hleft.
  assert (forall k, is_Some (f_event_files j' !! k) -> holds j' L' old k) as Hhold.
  { intros k Hk. destruct (decide (k = i)) as [->|Hne]; [|by apply (ry_others _ _ _ _ _ Hready')].
    left. apply has_live_split in Hleft as (a & x & b & Hab & Hx). destruct (lo_live _ _ Hloc' i a x b) as (l & Hl & Hlf & _); [by rewrite lookup_insert_eq, Hab|done|]. eauto. }
  exists j', L'. split.
  { f_equal. apply release_kept. intros k Hk. right. eapply holds_in_use; [apply Hready'|]. by apply Hhold. }
  destruct Hfinal as [F1 F2 F3 F4 F5 F6], Hls. split; try congruence; try done.
  - apply Hready'.
  - intros k. destruct (decide (k = i)) as [->|Hne]; [rewrite lookup_insert_eq, decide_True, Hi by lia; done|].
    rewrite lookup_insert_ne, ls_layout0 by done. destruct (decide (k < i)), (decide (k < i + 1)); done || lia.
  - intros k Hk. destruct (decide (k = i)) as [->|Hne].
    + unfold file_rep. rewrite lookup_insert_eq. exists f', c'. rewrite F2, F3, !lookup_insert_eq. done.
    + eapply file_rep_other; [| | |apply (ls_done0 k); lia]; [by rewrite F2, lookup_insert_ne|by rewrite F3, lookup_insert_ne|by rewrite lookup_insert_ne].
  - intros k Hk. assert (i <> k) as Hne by lia. specialize (ls_todo0 k ltac:(lia)). unfold pending, file_object in *. rewrite F2, F3, !lookup_insert_ne by done. done.
  - intros id l Hl. destruct (Hadd2 id l Hl) as [Hin|(r & Hr & Hrl & -> & Ht)].
    + destruct (ls_times0 id l Hin) as (k & rs' & r & Hk & Hrest). exists k, rs', r. split; [lia|done].
    + exists i, rs, r. split_and!; try done. lia.
  - intros k _ Hk. by apply Hhold.
Qed.

Lemma load_files_spec n i j L layout : load_state i j L layout -> 0 <= i -> i + Z.of_nat n = f_maximum_number_of_files cfg ->
  exists j' L' layout', load_files is_in_the_future n compress i j = Ok j' /\ load_state (f_maximum_number_of_files cfg) j' L' layout'.
Proof.
  revert i j L layout. induction n as [|n IH]; intros i j L layout Hls H0 Hn; cbn [load_files].
  - exists j, L, layout. split; [done|]. by replace (f_maximum_number_of_files cfg) with i by lia.
  - destruct (src !! i) as [rs|] eqn:Hi.
    + destruct (load_file_live i j L layout rs Hls Hi) as (j1 & L1 & -> & Hls1). cbn [result_bind]. eapply IH; [exact Hls1|lia|lia].
    + destruct (load_file_closed i j L layout Hls Hi ltac:(lia)) as (j1 & -> & Hls1). cbn [result_bind]. eapply IH; [exact Hls1|lia|lia].
Qed.
End Reload.

(** ** The journal after the files were loaded *)

Lemma rep_rewind unique_number `{!UniqueNumber unique_number} good j L layout m : rep unique_number good j L layout m -> rep unique_number good (rewind j) L layout m.
Proof.
  intros []. split; try done. by apply (index_rep_eq j).
Qed.

Lemma rep_good_mono unique_number `{!UniqueNumber unique_number} (good good' : record -> Prop) j L layout m : rep unique_number good j L layout m -> (forall k rs, layout !! k = Some rs -> Forall good' rs) ->
  rep unique_number good' j L layout m.
Proof. intros []. by split. Qed.

Section Loaded.
Context (unique_number : Z -> Z * Z) {unique : UniqueNumber unique_number} (is_in_the_future : Z -> bool).
Context (good : record -> Prop) (good_loadable : forall r, good r -> loadable is_in_the_future r).

Lemma left_good (P : record -> Prop) compress rs : Forall P rs -> Forall P (left_records compress rs).
Proof.
  intros Hwf. apply Forall_forall. intros r Hr. apply trim_elem in Hr. rewrite Forall_forall in Hwf. apply Hwf.
  destruct compress; [|done]. apply list_elem_of_In, List.filter_In in Hr as [Hr _]. by apply list_elem_of_In.
Qed.

Lemma load_state_rep compress cfg ext counter current src old j L layout m :
  sources is_in_the_future cfg src old -> load_state compress cfg ext counter current src old (f_maximum_number_of_files cfg) j L layout ->
  config_wf cfg -> 0 <= current < f_maximum_number_of_files cfg -> saved_rep ext src -> numbers_below unique_number ext counter ->
  holds_events src ext m -> (forall k rs, src !! k = Some rs -> Forall good rs) ->
  (forall t l, old !! t = Some l -> exists k rs r, src !! k = Some rs /\ r ∈ rs /\ is_live r = true /\ r_time r = t) ->
  rep unique_number good j L layout m /\
  (forall k, layout !! k = left_records compress <$> src !! k).
Proof.
  intros Hsrc Hls Hcfg Hcur Hsaved Hnum Hm Hgood Hold.
  assert (forall k, layout !! k = left_records compress <$> src !! k) as Hlayout.
  { intros k. rewrite (ls_layout _ _ _ _ _ _ _ _ _ _ _ Hls). destruct (decide _) as [|Hge]; [done|].
    destruct (src !! k) as [rs|] eqn:E; [|done]. destruct (so_range _ _ _ _ Hsrc k); [by rewrite E|]. lia. }
  assert (forall k rs, layout !! k = Some rs -> exists rs0, src !! k = Some rs0 /\ rs = left_records compress rs0) as Hback.
  { intros k rs Hk. rewrite Hlayout in Hk. destruct (src !! k) as [rs0|]; [|done]. injection Hk as <-. eauto. }
  assert (forall k rs r, src !! k = Some rs -> r ∈ rs -> is_live r = true -> exists l, L !! r_id r = Some l /\ l_event_time l = r_time r) as Hfind.
  { intros k rs r Hk Hr Hl. rewrite <- (left_elem compress rs r Hl) in Hr. apply list_elem_of_split in Hr as (a & b & Hab).
    destruct (lo_live _ _ (ls_located _ _ _ _ _ _ _ _ _ _ _ Hls) k a r b) as (l & Hlk & _ & Hloc); [by rewrite Hlayout, Hk; cbn; rewrite Hab|done|].
    exists l. split; [done|apply Hloc]. }
  split; [|done]. destruct Hls. split.
  - by rewrite ls_config0.
  - by rewrite ls_current0, ls_config0.
  - destruct ls_index0 as [H1 H2 H3 H4 H5 H6]. split; try done. intros t p Hp. left. destruct (H6 t p Hp) as [?|(l & Hl & _)]; [done|].
    destruct (Hold t l Hl) as (k & rs & r & Hk & Hr & Hlive & <-). destruct (Hfind k rs r Hk Hr Hlive) as (l' & Hl' & Ht). eauto.
  - done.
  - intros k. destruct (decide (k < f_maximum_number_of_files cfg)) as [Hlt|Hge]; [by apply ls_done0|].
    specialize (ls_todo0 k ltac:(lia)). unfold pending in ls_todo0. unfold file_rep. rewrite Hlayout.
    destruct (src !! k) as [rs|] eqn:E; [|done]. destruct (so_range _ _ _ _ Hsrc k); [by rewrite E|]. lia.
  - intros k [rs Hk]. rewrite ls_config0. destruct (Hback k rs Hk) as (rs0 & Hk0 & _). apply (so_range _ _ _ _ Hsrc). by rewrite Hk0.
  - rewrite ls_externals0. intros k rs Hk. destruct (Hback k rs Hk) as (rs0 & Hk0 & ->). by apply left_good, (Hsaved k).
  - intros k rs Hk. destruct (Hback k rs Hk) as (rs0 & Hk0 & ->). by apply left_good, (Hgood k).
  - by rewrite ls_externals0, ls_counter0.
  - rewrite ls_externals0. split.
    + intros id Hid. destruct (he_only _ _ _ Hm id Hid) as (k & rs & r & Hk & Hr & Hl & <-). destruct (Hfind k rs r Hk Hr Hl) as (l & -> & _). eauto.
    + intros k rs r Hk Hr Hl. destruct (Hback k rs Hk) as (rs0 & Hk0 & ->). rewrite left_elem in Hr by done. by apply (he_record _ _ _ Hm k rs0).
Qed.

(** *** Facts about the layout of a journal *)

Lemma rep_unique j L layout m : rep unique_number good j L layout m -> unique_events layout.
Proof.
  intros Hrep k a r b k' a' r' b' Hk Hr Hk' Hr' Heq. pose proof (rp_located _ _ _ _ _ _ Hrep) as Hlo.
  destruct (lo_live _ _ Hlo _ _ _ _ Hk Hr) as (l & Hl & Hlf & Hloc), (lo_live _ _ Hlo _ _ _ _ Hk' Hr') as (l' & Hl' & Hlf' & Hloc').
  assert (l = l') as <-.
  { destruct Heq as [Heq|Heq]; [congruence|]. apply (location_time_inj j L ∅ (rp_index _ _ _ _ _ _ Hrep) _ _ _ _ Hl Hl').
    rewrite (loc_time _ _ _ Hloc), (loc_time _ _ _ Hloc'). done. }
  assert (k = k') as <- by congruence. split; [done|]. rewrite Hk in Hk'. injection Hk' as Hk'. apply (same_offset _ _ _ _ _ _ Hk').
  rewrite <- (loc_offset _ _ _ Hloc), <- (loc_offset _ _ _ Hloc'). done.
Qed.

Lemma rep_events j L layout m : rep unique_number good j L layout m -> holds_events layout (d_externals (j_dir j)) m.
Proof.
  intros Hrep. split; [|apply (rp_represents _ _ _ _ _ _ Hrep)]. intros id [en Hen].
  destruct (rep_event unique_number good j L layout m id en Hrep Hen) as (p & l & rs1 & r & rs2 & f & c & _ & _ & Hlay & _ & Hl & Hid & _).
  exists (l_file l), (rs1 ++ r :: rs2), r. split_and!; try done. apply elem_of_app. right. by left.
Qed.

Lemma rep_open j L layout m k rs : rep unique_number good j L layout m -> layout !! k = Some rs ->
  exists f c, f_event_files j !! k = Some f /\ d_files (j_dir j) !! k = Some c /\ open_rep f c rs /\ has_live rs.
Proof. intros Hrep Hk. pose proof (rp_files _ _ _ _ _ _ Hrep k) as Hf. unfold file_rep in Hf. by rewrite Hk in Hf. Qed.

Lemma rep_closed j L layout m k : rep unique_number good j L layout m -> layout !! k = None ->
  f_event_files j !! k = None /\ forall c, d_files (j_dir j) !! k = Some c -> closed_rep c.
Proof. intros Hrep Hk. pose proof (rp_files _ _ _ _ _ _ Hrep k) as Hf. unfold file_rep in Hf. by rewrite Hk in Hf. Qed.

Lemma rep_sources j L layout m old : rep unique_number good j L layout m ->
  (forall t l, old !! t = Some l -> exists id, L !! id = Some l /\ l_event_time l = t) -> sources is_in_the_future (j_config j) layout old.
Proof.
  intros Hrep Hold. split.
  - apply Hrep.
  - intros k rs Hk. destruct (rep_open _ _ _ _ _ _ Hrep Hk) as (f & c & _ & _ & Hop & _). apply Hop.
  - intros k rs Hk. by destruct (rep_open _ _ _ _ _ _ Hrep Hk) as (f & c & _ & _ & _ & Hl).
  - intros k rs Hk. eapply Forall_impl; [exact (rp_good _ _ _ _ _ _ Hrep k rs Hk)|exact good_loadable].
  - intros k rs Hk. destruct (rep_open _ _ _ _ _ _ Hrep Hk) as (f & c & _ & _ & Hop & _). apply Hop.
  - by eapply rep_unique.
  - intros t l Hl. destruct (Hold t l Hl) as (id & Hid & _). destruct (lo_record _ _ (rp_located _ _ _ _ _ _ Hrep) _ _ Hid) as (a & x & b & -> & _). eauto.
  - intros k rs r Hk Hr Hlive l Hl. destruct (Hold _ l Hl) as (id & Hid & Ht). apply list_elem_of_split in Hr as (a & b & ->).
    destruct (lo_live _ _ (rp_located _ _ _ _ _ _ Hrep) _ _ _ _ Hk Hlive) as (l' & Hl' & <- & Hloc).
    destruct (location_time_inj j L ∅ (rp_index _ _ _ _ _ _ Hrep) _ _ _ _ Hid Hl') as [_ ->]; [|done]. by rewrite (loc_time _ _ _ Hloc).
Qed.

(** The locations of a journal, by time. *)
Lemma locations_by_time j L layout m : rep unique_number good j L layout m ->
  exists old : gmap Z location, forall t l, old !! t = Some l <-> exists id, L !! id = Some l /\ l_event_time l = t.
Proof.
  intros Hrep. set (entries := (fun x : list Z * location => (l_event_time x.2, x.2)) <$> map_to_list L).
  assert (NoDup entries.*1) as Hnd.
  { unfold entries. rewrite <- list_fmap_compose. apply NoDup_fmap_2_strong; [|apply NoDup_map_to_list].
    intros [id l] [id' l'] Hl%elem_of_map_to_list Hl'%elem_of_map_to_list Ht. cbn in Ht.
    by destruct (location_time_inj j L ∅ (rp_index _ _ _ _ _ _ Hrep) _ _ _ _ Hl Hl' Ht) as [-> ->]. }
  exists (list_to_map entries). intros t l. rewrite <- elem_of_list_to_map by done. unfold entries. rewrite list_elem_of_fmap. split.
  - intros ([id l'] & [= -> ->] & Hl'%elem_of_map_to_list). eauto.
  - intros (id & Hl & <-). exists (id, l). split; [done|]. by apply elem_of_map_to_list.
Qed.

(** *** Compression *)

(** No bytes after the records of a file can be taken for a record. *)
Definition clean (j : journal) : Prop :=
  forall k f, f_event_files j !! k = Some f -> stops (drop (Z.to_nat (f_next_append f)) (content j k)) = true.

(** The index is emptied, but the objects stay in use. *)
Lemma cleared_state j L layout m old : rep unique_number good j L layout m -> clean j ->
  (forall t l, old !! t = Some l <-> exists id, L !! id = Some l /\ l_event_time l = t) ->
  load_state true (j_config j) (d_externals (j_dir j)) (d_counter (j_dir j)) (f_current_file_index j) layout old 0
    (release None (with_index (j_heap j) (j_next j) [] (f_timebased_replay j) (with_can_be_compressed false j))) ∅ ∅.
Proof.
  intros Hrep Hclean Hold. set (j0 := with_index _ _ _ _ _).
  assert (index_rep j0 ∅ old) as Hindex.
  { destruct (rp_index _ _ _ _ _ _ Hrep) as [H1 H2 H3 H4 H5 H6]. split; try done. intros t p Hp. right.
    destruct (H6 t p Hp) as [(id & l & Hl & Ht)|(l & Hl & _)]; [|done]. exists l. split; [apply Hold; eauto|].
    destruct (H4 id l Hl) as (p' & _ & Hh & Ht' & _). subst t. cbn in Hp. by replace p with p' by congruence. }
  assert (forall k, is_Some (f_event_files j0 !! k) -> holds j0 ∅ old k) as Hholds.
  { intros k [f Hf]. destruct (layout !! k) as [rs|] eqn:E.
    - destruct (rep_open _ _ _ _ _ _ Hrep E) as (_ & _ & _ & _ & _ & (a & x & b & -> & Hx)%has_live_split).
      destruct (lo_live _ _ (rp_located _ _ _ _ _ _ Hrep) _ _ _ _ E Hx) as (l & Hl & Hlf & _). right.
      destruct (ix_id _ _ _ (rp_index _ _ _ _ _ _ Hrep) _ _ Hl) as (p & _ & Hh & Ht & _). exists (l_event_time l), l, p. split_and!; try done.
      apply Hold. eauto.
    - destruct (rep_closed _ _ _ _ _ Hrep E) as [Hn _]. change (f_event_files j0) with (f_event_files j) in Hf. congruence. }
  rewrite (release_kept None j0) by (intros k Hk; right; eapply holds_in_use; [done|by apply Hholds]). split; try done.
  - intros k. rewrite lookup_empty. destruct (decide (k < 0)) as [Hk|]; [|done]. destruct (layout !! k) as [rs|] eqn:E; [|done].
    destruct (rp_range _ _ _ _ _ _ Hrep k); [by rewrite E|lia].
  - intros k Hk. unfold file_rep. rewrite lookup_empty. apply (rep_closed _ _ _ _ k Hrep).
    destruct (layout !! k) as [rs|] eqn:E; [|done]. destruct (rp_range _ _ _ _ _ _ Hrep k); [by rewrite E|lia].
  - intros k Hk. unfold pending. destruct (layout !! k) as [rs|] eqn:E; [|by apply (rep_closed _ _ _ _ k Hrep)].
    destruct (rep_open _ _ _ _ _ _ Hrep E) as (f & c & Hf & Hc & [Hfail _ Hnext _ _ [stale Hcont]] & _). exists stale. split_and!.
    + by rewrite <- Hcont.
    + pose proof (Hclean k f Hf) as Hs. rewrite (content_some _ _ _ Hc), Hnext, Hcont in Hs. unfold file_offset in Hs.
      by rewrite Nat2Z.id, app_assoc, drop_app_length in Hs.
    + change (file_object j0 k) with (file_object j k). by rewrite (file_object_some _ _ _ Hf).
  - intros k _. apply Hholds.
Qed.

Lemma compress_rep j m : journal_rep unique_number good j m -> clean j ->
  exists j', load_event_locations is_in_the_future true j = Ok j' /\
    journal_rep unique_number (fun r => good r /\ is_live r = true) j' m /\
    j_config j' = j_config j /\ d_externals (j_dir j') = d_externals (j_dir j) /\ d_counter (j_dir j') = d_counter (j_dir j) /\
    f_current_file_index j' = f_current_file_index j /\
    forall k, f_next_append (file_object j' k) <= f_next_append (file_object j k).
Proof.
  intros (L & layout & Hrep) Hclean. destruct (locations_by_time j L layout m Hrep) as [old Hold].
  pose proof (rep_sources j L layout m old Hrep (fun t l => proj1 (Hold t l))) as Hsrc.
  pose proof (cleared_state j L layout m old Hrep Hclean Hold) as Hls.
  unfold load_event_locations. set (j0 := release _ _) in *. rewrite (ls_config _ _ _ _ _ _ _ _ _ _ _ Hls).
  destruct (rp_config _ _ _ _ _ _ Hrep) as [Hmax _ _ _]. unfold JOURNAL_MINIMUM_NUMBER_OF_FILES in Hmax.
  destruct (load_files_spec is_in_the_future true _ _ _ _ layout old Hsrc (Z.to_nat (f_maximum_number_of_files (j_config j))) 0 j0 ∅ ∅ Hls)
    as (j' & L' & layout' & -> & Hls'); [lia|lia|]. cbn [result_bind]. exists (rewind j'). split; [done|].
  destruct (load_state_rep true _ _ _ _ layout old j' L' layout' m Hsrc Hls') as [Hrep' Hlay']; try by apply Hrep.
  { by eapply rep_events. }
  { intros t l Hl. apply Hold in Hl as (id & Hl & <-). destruct (lo_record _ _ (rp_located _ _ _ _ _ _ Hrep) _ _ Hl) as (a & x & b & Hk & Hx & Hxl).
    exists (l_file l), (a ++ x :: b), x. split_and!; try done; [|by rewrite (loc_time _ _ _ Hx)]. apply elem_of_app. right. by left. }
  destruct Hls' as [F1 F2 F3 F4 _ _ _ _ _ _ _]. split; [|split_and!; [exact F1|exact F2|exact F3|exact F4|]].
  2: { intros k. change (file_object (rewind j') k) with (file_object j' k). pose proof (rp_files _ _ _ _ _ _ Hrep k) as Hk. pose proof (rp_files _ _ _ _ _ _ Hrep' k) as Hk'.
       unfold file_rep in Hk, Hk'. rewrite Hlay' in Hk'. destruct (layout !! k) as [rs|].
       - destruct Hk as (f & c & Hf & _ & [_ _ Hn _ _ _] & _), Hk' as (f' & c' & Hf' & _ & [_ _ Hn' _ _ _] & _).
         rewrite (file_object_some _ _ _ Hf), (file_object_some _ _ _ Hf'), Hn, Hn'. apply left_offset.
       - destruct Hk as [Hf _], Hk' as [Hf' _]. unfold file_object. by rewrite Hf, Hf'. }
  exists L', layout'. apply rep_rewind. eapply rep_good_mono; [exact Hrep'|]. intros k rs Hk. apply Forall_forall. intros r Hr. split.
  - pose proof (rp_good _ _ _ _ _ _ Hrep' k rs Hk) as Hg. rewrite Forall_forall in Hg. by apply Hg.
  - rewrite Hlay' in Hk. destruct (layout !! k) as [rs0|]; [|done]. injection Hk as <-. apply trim_elem in Hr. cbn in Hr.
    by apply list_elem_of_In, List.filter_In in Hr as [_ Hr].
Qed.

(** *** Closing and opening *)

Lemma close_files_spec j ks : NoDup ks -> let j' := foldr (fun index j => close_file index j) j ks in
  same_index j j' /\ j_config j' = j_config j /\ d_externals (j_dir j') = d_externals (j_dir j) /\ d_counter (j_dir j') = d_counter (j_dir j) /\
  forall k, f_event_files j' !! k = (if decide (k ∈ ks) then None else f_event_files j !! k) /\
    d_files (j_dir j') !! k = (if decide (k ∈ ks) then match f_event_files j !! k with
                                  | Some f => truncate (f_file_management (j_config j)) f (content j k)
                                  | None => d_files (j_dir j) !! k
                                  end else d_files (j_dir j) !! k).
Proof.
  induction 1 as [|x ks Hx Hnd IH]; cbn [foldr].
  { split_and!; try done. }
  set (j1 := foldr _ _ _) in *. destruct IH as (Hsame & Hc & He & Hn & Hk). pose proof (Hk x) as [Hxf Hxd].
  rewrite decide_False in Hxf by done. rewrite decide_False in Hxd by done. unfold close_file. rewrite Hxf. destruct (f_event_files j !! x) as [f|] eqn:Ef.
  - assert (content j1 x = content j x) as -> by (unfold content; by rewrite Hxd). rewrite Hc. cbn. split_and!; try done.
    intros k. destruct (Hk k) as [Hkf Hkd]. destruct (decide (k = x)) as [->|Hne].
    + rewrite decide_True by by left. rewrite decide_True by by left. rewrite lookup_delete_eq, Ef. split; [done|]. destruct (truncate _ _ _); [by rewrite lookup_insert_eq|by rewrite lookup_delete_eq].
    + rewrite lookup_delete_ne by done. assert (k ∈ x :: ks <-> k ∈ ks) as Hiff by (rewrite elem_of_cons; tauto).
      assert (forall c, match c with Some c => <[x := c]> (d_files (j_dir j1)) | None => delete x (d_files (j_dir j1)) end !! k = d_files (j_dir j1) !! k) as ->
        by (intros [c|]; [by rewrite lookup_insert_ne|by rewrite lookup_delete_ne]).
      rewrite Hkf, Hkd. destruct (decide (k ∈ ks)), (decide (k ∈ x :: ks)); tauto.
  - split_and!; try done. intros k. destruct (Hk k) as [Hkf Hkd]. destruct (decide (k = x)) as [->|Hne].
    + rewrite decide_True by by left. rewrite decide_True by by left. rewrite Ef. split; [by rewrite Hxf|done].
    + assert (k ∈ x :: ks <-> k ∈ ks) as Hiff by (rewrite elem_of_cons; tauto).
      rewrite Hkf, Hkd. destruct (decide (k ∈ ks)), (decide (k ∈ x :: ks)); tauto.
Qed.

(** The directory a journal leaves. *)
Lemma close_journal_spec j k : d_externals (close_journal j) = d_externals (j_dir j) /\ d_counter (close_journal j) = d_counter (j_dir j) /\
  d_files (close_journal j) !! k = match f_event_files j !! k with
                                     | Some f => truncate (f_file_management (j_config j)) f (content j k)
                                     | None => d_files (j_dir j) !! k
                                     end.
Proof.
  unfold close_journal, release. set (j0 := with_index _ _ _ _ j).
  assert (forall ks, foldr (fun index j => if bool_decide (None = Some index) || in_use j index then j else close_file index j) j0 ks
    = foldr (fun index j => close_file index j) j0 ks) as Hfold.
  { intros ks. induction ks as [|x ks IH]; [done|]. cbn [foldr]. rewrite IH. rewrite bool_decide_eq_false_2 by done. cbn [orb].
    assert (in_use (foldr (fun index j => close_file index j) j0 ks) x = false) as ->; [|done].
    assert (forall ks, same_index j0 (foldr (fun index j => close_file index j) j0 ks)) as Hs.
    { clear. intros ks. induction ks as [|x ks IH]; [done|]. cbn. eapply same_index_trans; [exact IH|apply close_file_index]. }
    by rewrite (same_index_in_use j0). }
  rewrite Hfold. destruct (close_files_spec j0 (elements (dom (f_event_files j0)))) as (_ & _ & He & Hn & Hk); [apply NoDup_elements|].
  rewrite He, Hn. split_and!; try done. destruct (Hk k) as [_ ->]. destruct (decide _) as [Hin|Hin]; [done|].
  rewrite elem_of_elements, not_elem_of_dom in Hin. change (f_event_files j0) with (f_event_files j) in Hin. by rewrite Hin.
Qed.

Lemma reopen_rep j m : journal_rep unique_number good j m ->
  exists j', open_journal is_in_the_future (j_config j) (close_journal j) = Ok j' /\
    journal_rep unique_number good j' m /\ j_config j' = j_config j /\ d_counter (j_dir j') = d_counter (j_dir j).
Proof.
  intros (L & layout & Hrep). pose proof (rep_sources j L layout m ∅ Hrep) as Hsrc. specialize (Hsrc ltac:(by intros)).
  set (d := close_journal j). set (j0 := Journal (j_config j) d ∅ ∅ 0 [] [] None None false 0).
  assert (d_externals d = d_externals (j_dir j) /\ d_counter d = d_counter (j_dir j)) as [He Hn] by (destruct (close_journal_spec j 0) as (? & ? & _); done).
  assert (forall k, layout !! k = None -> forall c, d_files d !! k = Some c -> closed_rep c) as Hclosed.
  { intros k Hk c. destruct (rep_closed _ _ _ _ _ Hrep Hk) as [Hf Hc]. destruct (close_journal_spec j k) as (_ & _ & Hd). fold d in Hd. rewrite Hd, Hf. apply Hc. }
  destruct (rp_config _ _ _ _ _ _ Hrep) as [Hmax _ _ _]. unfold JOURNAL_MINIMUM_NUMBER_OF_FILES in Hmax.
  assert (load_state false (j_config j) (d_externals (j_dir j)) (d_counter (j_dir j)) 0 layout ∅ 0 j0 ∅ ∅) as Hls.
  { split; try done.
    - split; try done. intros p [l Hl]. done.
    - intros k. rewrite lookup_empty. destruct (decide (k < 0)) as [Hk|]; [|done]. destruct (layout !! k) as [rs|] eqn:E; [|done].
      destruct (rp_range _ _ _ _ _ _ Hrep k); [by rewrite E|lia].
    - intros k Hk. unfold file_rep. rewrite lookup_empty. split; [done|]. apply Hclosed.
      destruct (layout !! k) as [rs|] eqn:E; [|done]. destruct (rp_range _ _ _ _ _ _ Hrep k); [by rewrite E|lia].
    - intros k Hk. unfold pending. destruct (layout !! k) as [rs|] eqn:E; [|split; [done|by apply Hclosed]].
      destruct (rep_open _ _ _ _ _ _ Hrep E) as (f & c & Hf & Hc & [Hfail _ Hnext _ _ [stale Hcont]] & Hl).
      pose proof (truncate_records (f_file_management (j_config j)) f rs stale Hfail Hnext) as Ht. cbn.
      destruct (close_journal_spec j k) as (_ & _ & Hd). fold d in Hd. rewrite Hf, (content_some _ _ _ Hc), Hcont in Hd.
      destruct (truncate _ _ _) as [c'|]; [|destruct Ht as [_ ->]; destruct Hl as (r & Hr & _); by apply not_elem_of_nil in Hr].
      destruct Ht as (tail & -> & Hstop). exists tail. done.
    - by intros k Hk [f Hf]. }
  unfold open_journal, load_event_locations. fold j0. set (j1 := release _ _).
  assert (j1 = j0) as -> by (apply release_kept; by intros k [f Hf]).
  destruct (load_files_spec is_in_the_future false _ _ _ _ layout ∅ Hsrc (Z.to_nat (f_maximum_number_of_files (j_config j0))) 0 j0 ∅ ∅ Hls)
    as (j' & L' & layout' & -> & Hls'); [lia|cbn; lia|]. cbn [result_bind]. exists (rewind j'). split; [done|].
  destruct (load_state_rep false _ _ _ _ layout ∅ j' L' layout' m Hsrc Hls') as [Hrep' Hlay']; try by apply Hrep.
  { lia. } { by eapply rep_events. } { by intros. }
  split; [|split; apply Hls']. exists L', layout'. by apply rep_rewind.
Qed.
End Loaded.
