(* ===== verification/JournalEvents.v ===== *)
(** * The operations of a journal on the events it stands for

    The lemmas give, for each public operation of the class journal, what it does
    to the map of events and that the journal still represents one. *)

From Stdlib Require Import Sorting.Sorted.
From S2P Require Import Prelude Bytes SortedMap JournalFile JournalLayout Journal JournalIndex JournalRep JournalChanges JournalStatus JournalAdd JournalLoad JournalReload.

(** ** Adding an event *)

(** The first time from [t] on that no event has. *)
Definition first_free (m : events) (t t' : Z) : Prop :=
  t <= t' /\ (forall id en, m !! id = Some en -> e_time en <> t') /\
  forall x, t <= x < t' -> exists id en, m !! id = Some en /\ e_time en = x.

Section Events.
Context (unique_number : Z -> Z * Z) {unique : UniqueNumber unique_number} (is_in_the_future : Z -> bool).
Context (good : record -> Prop) {free : StatusFree good}.

Lemma rep_times j L layout m t : rep unique_number good j L layout m ->
  is_Some (find_key Z.ltb t (f_timebased_replay j)) <-> exists id en, m !! id = Some en /\ e_time en = t.
Proof.
  intros Hrep. split.
  - intros [p Hp]. destruct (ix_time_only _ _ _ (rp_index _ _ _ _ _ _ Hrep) t p Hp) as [(id & l & Hl & <-)|(? & ? & _)]; [|done].
    exists id. by eapply rep_location.
  - intros (id & en & Hen & <-). destruct (rep_event unique_number good j L layout m id en Hrep Hen) as (p & l & rs1 & r & rs2 & f & c & _ & Hl & _ & Hloc & _ & _ & -> & _).
    destruct (ix_id _ _ _ (rp_index _ _ _ _ _ _ Hrep) _ _ Hl) as (q & _ & _ & Ht & _). cbn. rewrite <- (loc_time _ _ _ Hloc). eauto.
Qed.

Lemma rep_contains j L layout m id : rep unique_number good j L layout m ->
  contains string_ltb id (f_event_locations j) = bool_decide (is_Some (m !! id)).
Proof.
  intros Hrep. rewrite (contains_id j L ∅ (rp_index _ _ _ _ _ _ Hrep)). apply bool_decide_ext. split.
  - intros [l Hl]. destruct (rep_location _ _ j L layout m id l Hrep Hl) as (en & -> & _). eauto.
  - apply (re_only _ _ _ _ (rp_represents _ _ _ _ _ _ Hrep)).
Qed.

(** What the caller of add_event() and the settings provide: few attachments,
    times within range, numbers left for the attachments, records that are [good],
    and files that can be compressed when that may happen. *)
Record event_ok (j : journal) (m : events) (e : in_event) (t : Z) : Prop := {
  ok_attachments : (length (in_attachments e) <= 255)%nat;
  ok_time x : first_free m t x -> - 2 ^ 63 <= x / billion < 2 ^ 63;
  ok_numbers : d_counter (j_dir j) + first_number + Z.of_nat (length (in_attachments e)) <= 2 ^ 31;
  ok_good x ext slots : first_free m t x -> is_in_the_future t = false ->
    Forall2 (placed (f_inline_attachment_size_threshold (j_config j)) ext) (in_attachments e) slots -> good (new_record e x slots);
  ok_compress : f_compress_when_full (j_config j) = true -> f_can_be_compressed j = true -> clean j /\ forall r, good r -> loadable is_in_the_future r;
}.

Lemma clean_untouched j j' : untouched j j' -> clean j -> clean j'.
Proof.
  intros (_ & _ & _ & Hf & Hc) Hclean k f Hk. destruct (Hc k ltac:(eauto)) as [-> [f0 Hf0]].
  assert (f = f0) as ->; [|by apply Hclean]. rewrite <- (file_object_some _ _ _ Hk), Hf. by apply file_object_some.
Qed.

(** A file has room, or would have if it held its live events only. *)
Lemma attempts_spec j m e t compress : journal_rep unique_number good j m -> addable unique_number good j m e t ->
  (compress = true -> clean j /\ forall r, good r -> loadable is_in_the_future r) ->
  let size := event_size (f_inline_attachment_size_threshold (j_config j)) e in
  exists ok j', attempts is_in_the_future unique_number 2 compress e size t j = Ok (ok, j') /\ j_config j' = j_config j /\
    d_counter (j_dir j') <= d_counter (j_dir j) + Z.of_nat (length (in_attachments e)) /\
    if (ok : bool)
    then journal_rep unique_number good j' (<[in_request_id e := Entry t STATUS_READY (in_attachments e)]> m)
    else journal_rep unique_number good j' m /\ ~ some_room j size.
Proof.
  intros Hrep Hadd Hcomp size. cbn [attempts].
  destruct (try_all_files unique_number good j m e t Hrep Hadd) as (r & j1 & Heq & Hr). fold size in Heq, Hr. rewrite Heq. cbn [result_bind]. destruct r as [ok|].
  { destruct Hr as (-> & Hrep' & Hc & Hn & _). exists true, j1. split_and!; done. }
  destruct Hr as (Hrep1 & Hun & Hroom). pose proof Hun as (Hc1 & _ & Hn1 & _).
  destruct compress; [|exists false, j1; split_and!; try done; lia].
  destruct (Hcomp eq_refl) as [Hclean Hgl].
  destruct (compress_rep unique_number is_in_the_future good Hgl j1 m Hrep1 (clean_untouched _ _ Hun Hclean)) as (j2 & Heq2 & (L2 & layout2 & Hrep2) & Hc2 & He2 & Hn2 & Hi2 & _).
  rewrite Heq2. cbn [result_bind].
  assert (journal_rep unique_number good j2 m) as Hrep2'.
  { exists L2, layout2. eapply rep_good_mono; [exact Hrep2|]. intros k rs Hk. eapply Forall_impl; [exact (rp_good _ _ _ _ _ _ Hrep2 k rs Hk)|]. by intros r [Hr _]. }
  assert (addable unique_number good j2 m e t) as Hadd2.
  { destruct Hadd. split; try done; [by rewrite Hc2, Hc1|by rewrite Hn2, Hn1]. }
  destruct (try_all_files unique_number good j2 m e t Hrep2' Hadd2) as (r & j3 & Heq3 & Hr). rewrite Hc2, Hc1 in Heq3, Hr. fold size in Heq3, Hr. rewrite Hc2, Hc1, Heq3.
  cbn [result_bind]. rewrite Hn2, Hn1 in Hr. destruct r as [ok|].
  - destruct Hr as (-> & Hrep' & Hc & Hn & _). exists true, j3. split_and!; done.
  - destruct Hr as (Hrep3 & (Hc3 & _ & Hn3 & _) & _). exists false, j3. split_and!; try done; [by rewrite Hc3, Hc2, Hc1|rewrite Hn3, Hn2, Hn1; lia].
Qed.

Lemma add_event_rep j m e t : journal_rep unique_number good j m -> event_ok j m e t ->
  exists ok t' j', add_event is_in_the_future unique_number e t j = Ok (ok, t', j') /\ j_config j' = j_config j /\
    d_counter (j_dir j') <= d_counter (j_dir j) + Z.of_nat (length (in_attachments e)) /\
    let refused := is_Some (m !! in_request_id e) \/ is_in_the_future t = true \/ (length (in_request_id e) = 0 \/ 255 < length (in_request_id e))%nat in
    if (ok : bool)
    then ~ refused /\ first_free m t t' /\ journal_rep unique_number good j' (<[in_request_id e := Entry t' STATUS_READY (in_attachments e)]> m)
    else journal_rep unique_number good j' m /\ (refused \/ ~ some_room j (event_size (f_inline_attachment_size_threshold (j_config j)) e)).
Proof.
  intros Hrep [Hatts Htime Hnum Hgood Hcomp]. pose proof Hrep as (L & layout & Hr). unfold add_event.
  rewrite (rep_contains j L layout m _ Hr). case_bool_decide as Hin; [exists false, t, j; split_and!; try done; [lia|tauto]|].
  destruct (is_in_the_future t) eqn:Hf; [exists false, t, j; split_and!; try done; [lia|tauto]|].
  destruct (decide _) as [Hlen|Hlen]; [exists false, t, j; split_and!; try done; [lia|tauto]|].
  destruct (free_time_ends t (f_timebased_replay j)) as [x Hx]; [apply (rp_index _ _ _ _ _ _ Hr)|].
  rewrite Hx. apply free_time_some in Hx as (Hge & Hfree & Hused).
  assert (first_free m t x) as Hfirst.
  { split; [lia|split].
    - intros id en Hen Ht. assert (is_Some (find_key Z.ltb x (f_timebased_replay j))) as [p Hp]; [|congruence].
      apply (rep_times j L layout m x Hr). eauto.
    - intros y Hy. by apply (rep_times j L layout m y Hr), Hused. }
  assert (addable unique_number good j m e x) as Hadd.
  { split; [by apply eq_None_not_Some|lia|lia|by apply Htime|apply Hfirst|intros; by eapply Hgood|done]. }
  destruct (attempts_spec j m e x (f_compress_when_full (j_config j) && f_can_be_compressed j) Hrep Hadd) as (ok & j' & -> & Hc & Hn & Hok).
  { intros [Hc1 Hc2]%andb_true_iff. by apply Hcomp. }
  cbn [result_bind]. exists ok, x, j'. split_and!; try done. destruct ok; [|tauto]. split; [|done]. by intros [?|[?|?]].
Qed.

(** ** Reading the events *)

(** The object an event is read to, and what it holds then. *)
Definition fresh_event : out_event := OutEvent [] STATUS_UNKNOWN 0 [] None.

Definition attachment_bytes (ext : externals) (a : attachment) : list Z :=
  match a with Saved d => d | File i _ => ext !!! i end.

Definition event_of (ext : externals) (ev : out_event) : list Z * entry :=
  (out_request_id ev, Entry (out_event_time ev) (out_status ev) (attachment_bytes ext <$> out_attachments ev)).

(** The loop of a client that reads all the events. *)
Fixpoint replay (fuel : nat) (by_time debug : bool) (j : journal) : result (list out_event * journal) :=
  match fuel with
  | O => Throw fuel_exhausted
  | S fuel =>
      let! '(ok, e, j) := next_event fresh_event by_time debug j in
      if (ok : bool)
      then
        let! '(es, j) := replay fuel by_time debug j in
        Ok (e :: es, j)
      else Ok ([], j)
  end.

Lemma read_location j L layout m id l debug : rep unique_number good j L layout m -> L !! id = Some l ->
  exists ev g en, read_data l (d_externals (j_dir j)) (file_object j (l_file l)) (content j (l_file l)) fresh_event debug = Ok (true, ev, g) /\
    m !! id = Some en /\ event_of (d_externals (j_dir j)) ev = (id, en) /\ rep unique_number good (with_file (l_file l) g j) L layout m.
Proof.
  intros Hrep Hl. destruct (rep_location _ _ j L layout m id l Hrep Hl) as (en & Hen & _).
  destruct (rep_event unique_number good j L layout m id en Hrep Hen) as (p & l' & rs1 & r & rs2 & f & c & _ & Hl' & Hlay & Hloc & Hlive & Hid & Hentry & Hf & Hc & Hopen).
  assert (l' = l) as -> by congruence. pose proof Hopen as [Hfail Hwf Hnext Hbound Hcount [stale Hcont]].
  rewrite (file_object_some _ _ _ Hf), (content_some _ _ _ Hc).
  assert (c = (journal_header ++ encode_records rs1) ++ encode_record r ++ (encode_records rs2 ++ stale)) as Hc2.
  { by rewrite Hcont, app_assoc, encode_records_replace, <- !app_assoc. }
  pose proof Hwf as Hwf'. apply Forall_app in Hwf' as [_ [Hr _]%Forall_cons].
  pose proof (rp_saved _ _ _ _ _ _ Hrep _ _ Hlay) as Hs. apply Forall_app in Hs as [_ [Hs _]%Forall_cons].
  pose proof (file_offset_cons rs1 r rs2) as Hoff. pose proof (record_size_pos r).
  destruct (read_data_record l (d_externals (j_dir j)) f (journal_header ++ encode_records rs1) r (encode_records rs2 ++ stale) fresh_event debug Hfail Hr Hloc)
    as (g & Hread & Hsame); [unfold file_offset in *; lia|done|cbn; pose proof (wf_count _ Hr); lia|].
  rewrite Hc2, Hread. eexists _, g, en. split; [reflexivity|]. split; [done|]. split.
  - unfold event_of, read_event. cbn [out_request_id out_event_time out_status out_attachments]. cbn [fresh_event out_attachments app]. f_equal; [done|].
    rewrite Hentry. unfold entry_of. f_equal. rewrite <- list_fmap_compose. apply list_fmap_ext. intros i s Hi. cbn. by destruct s.
  - destruct Hsame as (H1 & H2 & H3). destruct Hrep. split; try done.
    + by apply (index_rep_eq j).
    + intros k. destruct (decide (k = l_file l)) as [->|Hne].
      * specialize (rp_files (l_file l)). unfold file_rep in *. rewrite Hlay in *. destruct rp_files as (_ & _ & _ & _ & _ & Hhl). exists g, c. cbn. rewrite lookup_insert_eq.
        split_and!; try done. split; try done; try congruence. by exists stale.
      * eapply (file_rep_other j); [| | |exact (rp_files k)]; cbn; [by rewrite lookup_insert_ne|done|done].
Qed.

Lemma rep_with_iterators j L layout m a b : rep unique_number good j L layout m -> rep unique_number good (with_iterators a b j) L layout m.
Proof. intros []. split; try done. by apply (index_rep_eq j). Qed.

(** The entries of a map are read one by one. *)
Lemma replay_by_time debug es : forall seen j L layout m fuel, rep unique_number good j L layout m ->
  f_timebased_replay j = seen ++ es -> f_timebased_replay_iterator j = begin es -> (length es < fuel)%nat ->
  exists evs j', replay fuel true debug j = Ok (evs, j') /\ rep unique_number good j' L layout m /\
    Forall2 (fun x ev => exists id en, m !! id = Some en /\ e_time en = x.1 /\ event_of (d_externals (j_dir j)) ev = (id, en)) es evs.
Proof.
  induction es as [|[t p] es IH]; intros seen j L layout m [|fuel] Hrep Hmap Hit Hfuel; try (cbn in Hfuel; lia); cbn [replay]; unfold next_event.
  - rewrite Hit. cbn. by exists [], j.
  - rewrite Hit. cbn [begin head fmap option_fmap option_map fst]. pose proof (ix_sorted_time _ _ _ (rp_index _ _ _ _ _ _ Hrep)) as Hsort. rewrite Hmap in Hsort.
    unfold advance. rewrite Hmap, (find_split Z.ltb), (next_key_split Z.ltb) by done. cbn [result_bind].
    destruct (ix_time_only _ _ _ (rp_index _ _ _ _ _ _ Hrep) t p) as [(id & l & Hl & Ht)|(? & ? & _)]; [by rewrite Hmap, (find_split Z.ltb)| |done].
    destruct (ix_id _ _ _ (rp_index _ _ _ _ _ _ Hrep) _ _ Hl) as (q & _ & Hh & Htq & _).
    assert (q = p) as ->. { rewrite Ht, Hmap, (find_split Z.ltb) in Htq by done. congruence. }
    cbn [with_iterators j_heap]. rewrite Hh.
    set (j1 := with_iterators _ _ j). pose proof (rep_with_iterators j L layout m (f_event_locations_iterator j) (begin es) Hrep) as Hrep1. fold j1 in Hrep1.
    destruct (read_location j1 L layout m id l debug Hrep1 Hl) as (ev & g & en & Hread & Hen & Hev & Hrep2). rewrite Hread. cbn [result_bind].
    destruct (rep_location _ _ j L layout m id l Hrep Hl) as (en' & Hen' & Het).
    destruct (IH (seen ++ [(t, p)]) _ L layout m fuel Hrep2) as (evs & j' & -> & Hrep' & Hevs); [cbn; by rewrite Hmap, <- app_assoc|done|cbn in Hfuel; lia|].
    cbn [result_bind]. exists (ev :: evs), j'. split_and!; try done. constructor; [|exact Hevs]. exists id, en. split_and!; try done. cbn. congruence.
Qed.

Lemma replay_by_id debug es : forall seen j L layout m fuel, rep unique_number good j L layout m ->
  f_event_locations j = seen ++ es -> f_event_locations_iterator j = begin es -> (length es < fuel)%nat ->
  exists evs j', replay fuel false debug j = Ok (evs, j') /\ rep unique_number good j' L layout m /\
    Forall2 (fun x ev => exists en, m !! x.1 = Some en /\ event_of (d_externals (j_dir j)) ev = (x.1, en)) es evs.
Proof.
  induction es as [|[id p] es IH]; intros seen j L layout m [|fuel] Hrep Hmap Hit Hfuel; try (cbn in Hfuel; lia); cbn [replay]; unfold next_event.
  - rewrite Hit. cbn. by exists [], j.
  - rewrite Hit. cbn [begin head fmap option_fmap option_map fst]. pose proof (ix_sorted_id _ _ _ (rp_index _ _ _ _ _ _ Hrep)) as Hsort. rewrite Hmap in Hsort.
    unfold advance. rewrite Hmap, (find_split string_ltb), (next_key_split string_ltb) by done. cbn [result_bind].
    assert (find_key string_ltb id (f_event_locations j) = Some p) as Hfind by (by rewrite Hmap, (find_split string_ltb)).
    destruct (ix_id_only _ _ _ (rp_index _ _ _ _ _ _ Hrep) id p Hfind) as [l Hl].
    destruct (ix_id _ _ _ (rp_index _ _ _ _ _ _ Hrep) _ _ Hl) as (q & Hq & Hh & _). assert (q = p) as -> by congruence.
    cbn [with_iterators j_heap]. rewrite Hh.
    set (j1 := with_iterators _ _ j). pose proof (rep_with_iterators j L layout m (begin es) (f_timebased_replay_iterator j) Hrep) as Hrep1. fold j1 in Hrep1.
    destruct (read_location j1 L layout m id l debug Hrep1 Hl) as (ev & g & en & Hread & Hen & Hev & Hrep2). rewrite Hread. cbn [result_bind].
    destruct (IH (seen ++ [(id, p)]) _ L layout m fuel Hrep2) as (evs & j' & -> & Hrep' & Hevs); [cbn; by rewrite Hmap, <- app_assoc|done|cbn in Hfuel; lia|].
    cbn [result_bind]. exists (ev :: evs), j'. split_and!; try done. constructor; [|exact Hevs]. by exists en.
Qed.

(** Whether the events are in the order of their times, or of their identifiers. *)
Definition replay_order (by_time : bool) (a b : list Z * entry) : Prop :=
  if by_time then e_time a.2 < e_time b.2 else string_ltb a.1 b.1 = true.

Lemma sorted_keys {K V} (ltb : K -> K -> bool) (m : smap K V) : sorted ltb m -> StronglySorted (fun a b => ltb a.1 b.1 = true) m.
Proof. induction m as [|[k v] m IH]; [constructor|]. intros [Hf Hs]. constructor; [by apply IH|]. eapply Forall_impl; [exact Hf|done]. Qed.

Lemma sorted_images {A B} (R : A -> A -> Prop) (S : B -> B -> Prop) (P : A -> B -> Prop) l l' :
  (forall a b a' b', P a a' -> P b b' -> R a b -> S a' b') -> Forall2 P l l' -> StronglySorted R l -> StronglySorted S l'.
Proof.
  intros H HP. induction HP as [|a a' l l' Ha HP IH]; intros Hs; [constructor|]. inversion Hs as [|? ? Hs' Hf]; subst. constructor; [by apply IH|].
  apply Forall_forall. intros b' Hb'. apply list_elem_of_lookup in Hb' as [i Hi]. destruct (Forall2_lookup_r _ _ _ _ _ HP Hi) as (b & Hb & Hbb).
  eapply H; [exact Ha|exact Hbb|]. rewrite Forall_forall in Hf. apply Hf. by eapply list_elem_of_lookup_2.
Qed.

Lemma sorted_nodup {A} (R : A -> A -> Prop) l : (forall a, ~ R a a) -> StronglySorted R l -> NoDup l.
Proof.
  intros Hirr. induction 1 as [|a l Hs IH Hf]; constructor; [|done]. intros Ha. rewrite Forall_forall in Hf. by apply (Hirr a), Hf.
Qed.

Lemma replay_order_irrefl by_time a : ~ replay_order by_time a a.
Proof. destruct by_time; cbn; [lia|]. by rewrite (ltb_irrefl (ltb := string_ltb)). Qed.

(** A run that reads each entry of a map reads each event once. *)
Lemma replay_complete (m : events) (evs : list (list Z * entry)) by_time : StronglySorted (replay_order by_time) evs ->
  (forall x, x ∈ evs -> m !! x.1 = Some x.2) -> (forall id en, m !! id = Some en -> (id, en) ∈ evs) -> evs ≡ₚ map_to_list m.
Proof.
  intros Hs Hin Hall. apply NoDup_Permutation.
  - eapply sorted_nodup; [|exact Hs]. apply replay_order_irrefl.
  - apply NoDup_map_to_list.
  - intros [id en]. rewrite elem_of_map_to_list. split; [by intros H%Hin|apply Hall].
Qed.

(** What was read for the entries of the two maps. *)
Definition read_at_time (ext : externals) (m : events) (x : Z * nat) (ev : out_event) : Prop :=
  exists id en, m !! id = Some en /\ e_time en = x.1 /\ event_of ext ev = (id, en).
Definition read_at_id (ext : externals) (m : events) (x : list Z * nat) (ev : out_event) : Prop :=
  exists en, m !! x.1 = Some en /\ event_of ext ev = (x.1, en).

Lemma read_in_map {A} (P : A -> out_event -> Prop) (ext : externals) (m : events) es evs : Forall2 P es evs ->
  (forall x ev, P x ev -> m !! (event_of ext ev).1 = Some (event_of ext ev).2) ->
  forall x, x ∈ event_of ext <$> evs -> m !! x.1 = Some x.2.
Proof.
  intros H2 HP x (ev & -> & [i Hi]%list_elem_of_lookup)%list_elem_of_fmap. destruct (Forall2_lookup_r _ _ _ _ _ H2 Hi) as (y & _ & Hy). by eapply HP.
Qed.

(** Two events have different times. *)
Lemma event_time_inj j L layout m id en id' en' : rep unique_number good j L layout m -> m !! id = Some en -> m !! id' = Some en' ->
  e_time en = e_time en' -> id = id' /\ en = en'.
Proof.
  intros Hrep Hm Hm' Ht.
  destruct (rep_event _ _ j L layout m id en Hrep Hm) as (? & l & a & r & b & ? & ? & _ & Hl & _ & Hloc & _ & _ & Hen & _).
  destruct (rep_event _ _ j L layout m id' en' Hrep Hm') as (? & l' & a' & r' & b' & ? & ? & _ & Hl' & _ & Hloc' & _ & _ & Hen' & _).
  destruct (location_time_inj j L ∅ (rp_index _ _ _ _ _ _ Hrep) _ _ _ _ Hl Hl') as [-> _]; [|split; congruence].
  rewrite (loc_time _ _ _ Hloc), (loc_time _ _ _ Hloc'). by rewrite Hen, Hen' in Ht.
Qed.

Lemma times_complete j L layout m ext evs : rep unique_number good j L layout m -> Forall2 (read_at_time ext m) (f_timebased_replay j) evs ->
  (event_of ext <$> evs) ≡ₚ map_to_list m /\ StronglySorted (replay_order true) (event_of ext <$> evs).
Proof.
  intros Hrep H2. pose proof (rp_index _ _ _ _ _ _ Hrep) as Hix.
  assert (StronglySorted (replay_order true) (event_of ext <$> evs)) as Hs.
  { eapply (sorted_images (fun a b : Z * nat => (a.1 <? b.1) = true) (replay_order true) (fun x y => e_time y.2 = x.1)); [| |apply sorted_keys, Hix].
    - intros a b a' b' Ha Hb Hlt. unfold replay_order. rewrite Ha, Hb. by apply Z.ltb_lt.
    - apply Forall2_fmap_r. eapply Forall2_impl; [exact H2|]. intros x ev (id & en & _ & Ht & Heq).
      change (e_time (event_of ext ev).2 = x.1). by rewrite Heq. }
  split; [|done]. eapply replay_complete; [exact Hs| |].
  - eapply read_in_map; [exact H2|]. by intros x ev (id & en & Hm & _ & ->).
  - intros id en Hm. destruct (rep_times j L layout m (e_time en) Hrep) as [_ [p Hp]]; [eauto|].
    apply (find_elem Z.ltb) in Hp; [|apply Hix]. apply list_elem_of_lookup in Hp as [i Hi].
    destruct (Forall2_lookup_l _ _ _ _ _ H2 Hi) as (ev & Hev & id' & en' & Hm' & Ht' & Heq). apply list_elem_of_fmap. exists ev.
    split; [|by eapply list_elem_of_lookup_2]. rewrite Heq. by destruct (event_time_inj _ _ _ _ _ _ _ _ Hrep Hm Hm') as [-> ->].
Qed.

Lemma ids_complete j L layout m ext evs : rep unique_number good j L layout m -> Forall2 (read_at_id ext m) (f_event_locations j) evs ->
  (event_of ext <$> evs) ≡ₚ map_to_list m /\ StronglySorted (replay_order false) (event_of ext <$> evs).
Proof.
  intros Hrep H2. pose proof (rp_index _ _ _ _ _ _ Hrep) as Hix.
  assert (StronglySorted (replay_order false) (event_of ext <$> evs)) as Hs.
  { eapply (sorted_images (fun a b : list Z * nat => string_ltb a.1 b.1 = true) (replay_order false) (fun x y => y.1 = x.1)); [| |apply sorted_keys, Hix].
    - intros a b a' b' Ha Hb Hlt. unfold replay_order. by rewrite Ha, Hb.
    - apply Forall2_fmap_r. eapply Forall2_impl; [exact H2|]. intros x ev (en & _ & Heq).
      change ((event_of ext ev).1 = x.1). by rewrite Heq. }
  split; [|done]. eapply replay_complete; [exact Hs| |].
  - eapply read_in_map; [exact H2|]. by intros x ev (en & Hm & ->).
  - intros id en Hm. destruct (re_only _ _ _ _ (rp_represents _ _ _ _ _ _ Hrep) id) as [l Hl]; [eauto|].
    destruct (ix_id _ _ _ Hix id l Hl) as (p & Hp & _). apply (find_elem string_ltb) in Hp; [|apply Hix]. apply list_elem_of_lookup in Hp as [i Hi].
    destruct (Forall2_lookup_l _ _ _ _ _ H2 Hi) as (ev & Hev & en' & Hm' & Heq). apply list_elem_of_fmap. exists ev.
    split; [|by eapply list_elem_of_lookup_2]. rewrite Heq. cbn in *. congruence.
Qed.

(** Both maps have as many entries as there are events. *)
Lemma read_length {A} (P : A -> out_event -> Prop) (ext : externals) (m : events) es evs : Forall2 P es evs -> (event_of ext <$> evs) ≡ₚ map_to_list m -> length es = base.size m.
Proof. intros H2 Hp%Permutation_length. rewrite length_fmap in Hp. rewrite (Forall2_length _ _ _ H2), Hp. apply length_map_to_list. Qed.

Lemma replay_rep j m by_time debug fuel : journal_rep unique_number good j m -> (base.size m < fuel)%nat ->
  exists evs j', replay fuel by_time debug (rewind j) = Ok (evs, j') /\ journal_rep unique_number good j' m /\
    let read := event_of (d_externals (j_dir j)) <$> evs in read ≡ₚ map_to_list m /\ StronglySorted (replay_order by_time) read.
Proof.
  intros (L & layout & Hrep) Hfuel. pose proof (rep_rewind _ _ _ _ _ _ Hrep) as Hrew. destruct by_time.
  - destruct (replay_by_time debug (f_timebased_replay j) [] (rewind j) L layout m (S (length (f_timebased_replay j))) Hrew) as (evs0 & _ & _ & _ & H0); [done|done|lia|].
    destruct (times_complete j L layout m _ evs0 Hrep H0) as [Hp _]. pose proof (read_length _ _ _ _ _ H0 Hp) as Hl.
    destruct (replay_by_time debug (f_timebased_replay j) [] (rewind j) L layout m fuel Hrew) as (evs & j' & Heq & Hrep' & H2); [done|done|lia|].
    exists evs, j'. split; [done|]. split; [by exists L, layout|]. by apply (times_complete j L layout).
  - destruct (replay_by_id debug (f_event_locations j) [] (rewind j) L layout m (S (length (f_event_locations j))) Hrew) as (evs0 & _ & _ & _ & H0); [done|done|lia|].
    destruct (ids_complete j L layout m _ evs0 Hrep H0) as [Hp _]. pose proof (read_length _ _ _ _ _ H0 Hp) as Hl.
    destruct (replay_by_id debug (f_event_locations j) [] (rewind j) L layout m fuel Hrew) as (evs & j' & Heq & Hrep' & H2); [done|done|lia|].
    exists evs, j'. split; [done|]. split; [by exists L, layout|]. by apply (ids_complete j L layout).
Qed.
End Events.
