(* ===== verification/JournalSettings.v ===== *)
(** * Settings of a journal and the iterators

    A setting changes no event; the number of files cannot drop below a file that
    holds events.  next_event() on any valid iterator leaves the events alone. *)

From S2P Require Import Prelude Bytes SortedMap JournalFile JournalLayout Journal JournalIndex JournalRep JournalChanges JournalStatus JournalAdd JournalLoad JournalReload JournalEvents.

Lemma clamp_range lo hi v : lo <= hi -> lo <= clamp lo hi v <= hi.
Proof. intros. unfold clamp. destruct (v <? lo) eqn:E1, (hi <? v) eqn:E2; lia. Qed.

Lemma clamp_id lo hi v : lo <= v <= hi -> clamp lo hi v = v.
Proof. intros. unfold clamp. destruct (v <? lo) eqn:E1, (hi <? v) eqn:E2; lia. Qed.

Section Settings.
Context (unique_number : Z -> Z * Z) {unique : UniqueNumber unique_number} (is_in_the_future : Z -> bool).
Context (good : record -> Prop) {free : StatusFree good}.

Lemma rep_with_config c j L layout m : rep unique_number good j L layout m -> config_wf c ->
  f_current_file_index j < f_maximum_number_of_files c -> (forall k, is_Some (layout !! k) -> k < f_maximum_number_of_files c) ->
  rep unique_number good (with_config c j) L layout m.
Proof.
  intros [] Hc Hcur Hrange. split; try done; cbn; [lia|by apply (index_rep_eq j)|].
  intros k Hk. cbn. specialize (rp_range k Hk). specialize (Hrange k Hk). lia.
Qed.

(** The settings other than the number of files. *)
Inductive setting : Type :=
  | MaximumFileSize (v : Z)
  | MaximumEvents (v : Z)
  | InlineAttachmentSizeThreshold (v : Z)
  | FileManagement (v : file_management_t)
  | CompressWhenFull (v : bool).

Definition change_setting (s : setting) : journal -> journal :=
  match s with
  | MaximumFileSize v => set_maximum_file_size v
  | MaximumEvents v => set_maximum_events v
  | InlineAttachmentSizeThreshold v => set_inline_attachment_size_threshold v
  | FileManagement v => set_file_management v
  | CompressWhenFull v => set_compress_when_full v
  end.

(** [x] is [v], or the bound that [v] is past. *)
Definition limited (lo hi v x : Z) : Prop := v < lo /\ x = lo \/ lo <= v <= hi /\ x = v \/ hi < v /\ x = hi.

(** The setting has its new value, and the others are those of [c]. *)
Definition setting_stored (s : setting) (c c' : config) : Prop :=
  match s, c with
  | MaximumFileSize v, Config files _ events threshold management compress =>
      exists x, limited (64 * 1024) (128 * 1024 * 1024) v x /\ c' = Config files x events threshold management compress
  | MaximumEvents v, Config files size _ threshold management compress =>
      exists x, limited 100 100000 v x /\ c' = Config files size x threshold management compress
  | InlineAttachmentSizeThreshold v, Config files size events _ management compress =>
      exists x, limited 256 (16 * 1024) v x /\ c' = Config files size events x management compress
  | FileManagement v, Config files size events threshold _ compress => c' = Config files size events threshold v compress
  | CompressWhenFull v, Config files size events threshold management _ => c' = Config files size events threshold management v
  end.

Definition files_stored (v : Z) (c c' : config) : Prop :=
  match c with Config _ size events threshold management compress => c' = Config v size events threshold management compress end.

Lemma clamp_limited lo hi v : lo <= hi -> limited lo hi v (clamp lo hi v).
Proof. intros. unfold limited, clamp. destruct (v <? lo) eqn:E1, (hi <? v) eqn:E2; lia. Qed.

Lemma change_setting_stored s j : exists c, change_setting s j = with_config c j /\ setting_stored s (j_config j) c.
Proof.
  destruct s; eexists; (split; [reflexivity|]); destruct (j_config j); cbn; try done; eexists; (split; [|done]); by apply clamp_limited.
Qed.

Lemma change_setting_rep s j m : journal_rep unique_number good j m -> journal_rep unique_number good (change_setting s j) m.
Proof.
  intros (L & layout & Hrep). pose proof Hrep as [[H1 H2 H3 H4] Hcur _ _ _ Hrange _ _ _ _]. exists L, layout.
  destruct s; apply rep_with_config; try done; try apply Hcur; try (intros k Hk; by apply Hrange);
    split; cbn; try done; by apply clamp_range.
Qed.

(** ** The number of files *)

Lemma get_event_file_exists index j : index < f_maximum_number_of_files (j_config j) -> is_Some (d_files (j_dir j) !! index) ->
  get_event_file index false j = Ok (true, opened index j).
Proof.
  intros Hi [c Hc]. unfold get_event_file. rewrite decide_False by lia. unfold opened, file_object, content. rewrite Hc.
  destruct (f_event_files j !! index) as [f|] eqn:Ef; cbn; f_equal; f_equal;
    unfold with_file, with_content, with_event_files, with_dir; cbn; rewrite (insert_id (d_files _)) by done;
    rewrite ?(insert_id (f_event_files j)) by done; by destruct j as [? [] ? ? ? ? ? ? ? ? ?].
Qed.

Lemma check_files_rep n v j L layout m : rep unique_number good j L layout m -> 0 <= v -> v + Z.of_nat n = f_maximum_number_of_files (j_config j) ->
  exists j', check_files_unused n v j = (j', if decide (Exists (fun k => v <= k) (elements (dom layout))) then Some file_still_in_use else None) /\
    rep unique_number good j' L layout m /\ j_config j' = j_config j /\ f_current_file_index j' = f_current_file_index j.
Proof.
  revert v j. induction n as [|n IH]; intros v j Hrep Hv Hn; cbn [check_files_unused].
  { exists j. rewrite decide_False; [done|]. intros (k & Hk%elem_of_elements%elem_of_dom & Hle)%Exists_exists.
    pose proof (rp_range _ _ _ _ _ _ Hrep k Hk). lia. }
  assert (forall k, is_Some (layout !! k) <-> k ∈ elements (dom layout)) as Hdom by (intros k; by rewrite elem_of_elements, elem_of_dom).
  assert (layout !! v = None ->
    Exists (fun k => v + 1 <= k) (elements (dom layout)) <-> Exists (fun k => v <= k) (elements (dom layout))) as Hshift.
  { intros Hnone. rewrite !Exists_exists. split; intros (k & Hk & Hle); exists k; (split; [done|]); [lia|].
    assert (k <> v); [|lia]. intros ->. apply Hdom in Hk as [rs Hrs]. congruence. }
  destruct (decide (is_Some (d_files (j_dir j) !! v))) as [Hd|Hd].
  - rewrite get_event_file_exists by (done || lia).
    destruct (release_opened j L layout v (opened v j)) as (Hf & Ho & He & Hc' & Hcfg & Hi & Hb & _); try done; try apply Hrep.
    pose proof (rp_index _ _ _ _ _ _ Hrep) as Hix.
    assert (rep unique_number good (release None (opened v j)) L layout m) as Hrep1.
    { destruct Hrep. split; try done; [by rewrite Hcfg|by rewrite Hcfg, Hi| |unfold layout_range; by rewrite Hcfg|by rewrite He|by rewrite He, Hc'|by rewrite He].
      eapply same_index_rep; [apply release_index|]. by apply (index_rep_eq j). }
    assert (refers (opened v j) v (f_event_locations (opened v j)) = bool_decide (is_Some (layout !! v))) as ->.
    { apply eq_true_iff_eq. rewrite bool_decide_eq_true. change (f_event_locations (opened v j)) with (f_event_locations j).
      change (refers (opened v j) v (f_event_locations j)) with (refers j v (f_event_locations j)). rewrite (refers_locations j L ∅ Hix). split.
      - intros (id & l & Hl & <-). destruct (lo_record _ _ (rp_located _ _ _ _ _ _ Hrep) _ _ Hl) as (a & x & b & -> & _). eauto.
      - intros [rs Hrs]. pose proof (rp_files _ _ _ _ _ _ Hrep v) as Hfr. unfold file_rep in Hfr. rewrite Hrs in Hfr.
        destruct Hfr as (_ & _ & _ & _ & _ & (a & x & b & -> & Hx)%has_live_split).
        destruct (lo_live _ _ (rp_located _ _ _ _ _ _ Hrep) _ _ _ _ Hrs Hx) as (l & Hl & Hlf & _). eauto. }
    case_bool_decide as Hopen.
    + exists (release None (opened v j)). rewrite decide_True; [done|]. apply Exists_exists. exists v. split; [by apply Hdom|lia].
    + destruct (IH (v + 1) _ Hrep1) as (j' & -> & Hrep' & Hc2 & Hi2); [lia|rewrite Hcfg; cbn; lia|]. exists j'.
      rewrite Hc2, Hcfg, Hi2, Hi. split_and!; try done. f_equal. apply decide_ext. by apply Hshift, eq_None_not_Some.
  - assert (layout !! v = None) as Hnone.
    { destruct (layout !! v) as [rs|] eqn:E; [|done]. pose proof (rp_files _ _ _ _ _ _ Hrep v) as Hfr. unfold file_rep in Hfr. rewrite E in Hfr.
      destruct Hfr as (? & c & _ & Hc & _). destruct Hd. eauto. }
    pose proof (rp_files _ _ _ _ _ _ Hrep v) as Hfr. unfold file_rep in Hfr. rewrite Hnone in Hfr. destruct Hfr as [Hf _].
    unfold get_event_file. rewrite decide_False by lia. rewrite Hf. apply eq_None_not_Some in Hd. rewrite Hd.
    destruct (IH (v + 1) j Hrep) as (j' & -> & Hrep' & Hc2 & Hi2); [lia|lia|]. exists j'. split_and!; try done. f_equal. apply decide_ext. by apply Hshift.
Qed.

(** Whether a file from [v] on holds an event: it has an object. *)
Definition files_used (j : journal) (v : Z) : Prop := Exists (fun k => v <= k) (elements (dom (f_event_files j))).

#[export] Instance files_used_dec j v : Decision (files_used j v).
Proof. unfold files_used. apply _. Defined.

Lemma files_used_layout j L layout m v : rep unique_number good j L layout m ->
  Exists (fun k => v <= k) (elements (dom layout)) <-> files_used j v.
Proof.
  intros Hrep. unfold files_used. rewrite !Exists_exists.
  assert (forall k, k ∈ elements (dom layout) <-> k ∈ elements (dom (f_event_files j))) as Hdom; [|by setoid_rewrite Hdom].
  intros k. rewrite !elem_of_elements, !elem_of_dom. pose proof (rp_files _ _ _ _ _ _ Hrep k) as Hfr. unfold file_rep in Hfr.
  destruct (layout !! k) as [rs|]; [destruct Hfr as (f & _ & -> & _); split; eauto|]. destruct Hfr as [-> _]. split; intros [? ?]; done.
Qed.

Lemma set_files_rep v j m : journal_rep unique_number good j m ->
  let '(j', e) := set_maximum_number_of_files v j in
  match e with
  | Some out_of_range => j' = j /\ ~ (JOURNAL_MINIMUM_NUMBER_OF_FILES <= v <= JOURNAL_MAXIMUM_NUMBER_OF_FILES)
  | Some file_still_in_use => journal_rep unique_number good j' m /\ j_config j' = j_config j /\
      JOURNAL_MINIMUM_NUMBER_OF_FILES <= v <= JOURNAL_MAXIMUM_NUMBER_OF_FILES /\ files_used j v
  | Some _ => False
  | None => files_stored v (j_config j) (j_config j') /\ ~ files_used j v /\
      (f_current_file_index j < v -> journal_rep unique_number good j' m)
  end.
Proof.
  intros (L & layout & Hrep). unfold set_maximum_number_of_files. destruct (decide _) as [Hout|Hin]; [split; [done|lia]|].
  pose proof (rp_config _ _ _ _ _ _ Hrep) as [H1 H2 H3 H4].
  set (n := Z.to_nat (f_maximum_number_of_files (j_config j) - v)).
  assert (exists j', check_files_unused n v j = (j', if decide (files_used j v) then Some file_still_in_use else None) /\
    rep unique_number good j' L layout m /\ j_config j' = j_config j /\ f_current_file_index j' = f_current_file_index j) as (j' & -> & Hrep' & Hc & Hi).
  { destruct (decide (v <= f_maximum_number_of_files (j_config j))) as [Hle|Hgt].
    - destruct (check_files_rep n v j L layout m Hrep) as (j' & -> & Hrest); [unfold JOURNAL_MINIMUM_NUMBER_OF_FILES in *; lia|lia|].
      exists j'. split; [|done]. f_equal. apply decide_ext. by eapply files_used_layout.
    - assert (n = 0%nat) as -> by lia. exists j. split; [|done]. cbn. f_equal. rewrite decide_False; [done|].
      intros Hu. apply (files_used_layout j L layout m v Hrep), Exists_exists in Hu as (k & Hk%elem_of_elements%elem_of_dom & Hle).
      pose proof (rp_range _ _ _ _ _ _ Hrep k Hk). lia. }
  destruct (decide (files_used j v)) as [Hu|Hu].
  - split_and!; try done; [by exists L, layout|lia..].
  - cbn. split_and!; [by destruct (j_config j)|done|]. intros Hcur. exists L, layout. apply rep_with_config; try done; cbn; [|by rewrite Hi|].
    + by split; rewrite ?Hc; try done; cbn; [lia|..].
    + intros k Hk. destruct (decide (v <= k)) as [Hle|]; [|lia]. exfalso. apply Hu, (files_used_layout j L layout m v Hrep), Exists_exists.
      exists k. split; [|done]. by apply elem_of_elements, elem_of_dom.
Qed.

(** ** Reading with any iterator *)

Lemma next_event_rep j m by_time debug : journal_rep unique_number good j m ->
  match next_event fresh_event by_time debug j with
  | Ok (ok, ev, j') => journal_rep unique_number good j' m /\ j_config j' = j_config j /\ d_counter (j_dir j') = d_counter (j_dir j) /\
      if (ok : bool) then exists id en, m !! id = Some en /\ event_of (d_externals (j_dir j)) ev = (id, en) else ev = fresh_event
  | Throw e => e = undefined_behavior
  end.
Proof.
  intros (L & layout & Hrep). pose proof (rp_index _ _ _ _ _ _ Hrep) as Hix. unfold next_event.
  assert (forall p l id a b, j_heap j !! p = Some l -> L !! id = Some l ->
    match (match j_heap (with_iterators a b j) !! p with
      | None => Throw undefined_behavior
      | Some l =>
          let! '(ok, e, f) := read_data l (d_externals (j_dir (with_iterators a b j))) (file_object (with_iterators a b j) (l_file l)) (content (with_iterators a b j) (l_file l)) fresh_event debug in
          Ok (ok, e, with_file (l_file l) f (with_iterators a b j))
      end) with
    | Ok (ok, ev, j') => journal_rep unique_number good j' m /\ j_config j' = j_config j /\ d_counter (j_dir j') = d_counter (j_dir j) /\
        if (ok : bool) then exists id en, m !! id = Some en /\ event_of (d_externals (j_dir j)) ev = (id, en) else ev = fresh_event
    | Throw e => e = undefined_behavior
    end) as Hread.
  { intros p l id a b Hp Hl. cbn [with_iterators j_heap]. rewrite Hp. set (j1 := with_iterators a b j).
    pose proof (rep_with_iterators _ _ j L layout m a b Hrep) as Hrep1.
    destruct (read_location _ _ j1 L layout m id l debug Hrep1 Hl) as (ev & g & en & -> & Hen & Hev & Hrep2). cbn [result_bind].
    split_and!; [by exists L, layout|done|done|by exists id, en]. }
  destruct by_time.
  - destruct (f_timebased_replay_iterator j) as [t|]; [|split_and!; try done; by exists L, layout]. unfold advance.
    destruct (find_key Z.ltb t (f_timebased_replay j)) as [p|] eqn:Hf; [|done]. cbn [result_bind].
    destruct (ix_time_only _ _ _ Hix t p Hf) as [(id & l & Hl & Ht)|(? & ? & _)]; [|done].
    destruct (ix_id _ _ _ Hix _ _ Hl) as (q & _ & Hh & Htq & _). subst t. assert (q = p) as -> by congruence. by eapply Hread.
  - destruct (f_event_locations_iterator j) as [id|]; [|split_and!; try done; by exists L, layout]. unfold advance.
    destruct (find_key string_ltb id (f_event_locations j)) as [p|] eqn:Hf; [|done]. cbn [result_bind].
    destruct (ix_id_only _ _ _ Hix id p Hf) as [l Hl]. destruct (ix_id _ _ _ Hix _ _ Hl) as (q & Hq & Hh & _). assert (q = p) as -> by congruence. by eapply Hread.
Qed.

(** ** The empty journal *)

Definition empty_directory : directory := Directory ∅ ∅ 0.
Definition empty_journal (c : config) : journal := Journal c empty_directory ∅ ∅ 0 [] [] None None false 0.

Lemma empty_rep c : config_wf c -> journal_rep unique_number good (empty_journal c) ∅.
Proof.
  intros Hc. exists ∅, ∅. split; try done.
  - destruct Hc as [[? ?] _ _ _]. unfold JOURNAL_MINIMUM_NUMBER_OF_FILES in *. cbn. lia.
  - split; try done. by intros p [l Hl].
  - intros k [? ?]. done.
  - split; [done|]. by intros i [? ?].
  - split; [|done]. by intros id [? ?].
Qed.

Lemma load_empty n compress index c flag : 0 <= index -> index + Z.of_nat n <= f_maximum_number_of_files c ->
  let j := with_can_be_compressed flag (empty_journal c) in load_files is_in_the_future n compress index j = Ok j.
Proof.
  revert index. induction n as [|n IH]; intros index H0 Hn; [done|]. cbn [load_files]. unfold load_file, get_event_file.
  rewrite decide_False by (cbn; lia). cbn [f_event_files empty_journal with_can_be_compressed j_dir empty_directory d_files]. rewrite !lookup_empty.
  cbn [result_bind negb]. apply IH; lia.
Qed.

(** A journal opened on an empty directory. *)
Lemma open_empty c : config_wf c -> open_journal is_in_the_future c empty_directory = Ok (empty_journal c).
Proof.
  intros [[Hc _] _ _ _]. unfold open_journal, load_event_locations. unfold JOURNAL_MINIMUM_NUMBER_OF_FILES in Hc.
  rewrite release_kept by by intros k [? ?]. rewrite (load_empty _ false 0 c false) by (cbn; lia). done.
Qed.
End Settings.

(** The default settings are valid. *)
Lemma default_config_wf : config_wf default_config.
Proof. split; vm_compute; split; discriminate. Qed.

(** ** Sequences of operations *)

Section Reachable.
Context (unique_number : Z -> Z * Z) {unique : UniqueNumber unique_number} (is_in_the_future : Z -> bool) (c : config).

Abbreviation good := (loadable is_in_the_future).

(** The journals that a sequence of calls leads to, from an empty directory, with
    the events they should hold. *)
Inductive reachable : journal -> events -> Prop :=
  | reach_open j : open_journal is_in_the_future c empty_directory = Ok j -> reachable j ∅
  | reach_added j m e t t' j' : reachable j m -> event_ok unique_number is_in_the_future good j m e t ->
      add_event is_in_the_future unique_number e t j = Ok (true, t', j') ->
      reachable j' (<[in_request_id e := Entry t' STATUS_READY (in_attachments e)]> m)
  | reach_refused j m e t t' j' : reachable j m -> event_ok unique_number is_in_the_future good j m e t ->
      add_event is_in_the_future unique_number e t j = Ok (false, t', j') -> reachable j' m
  | reach_status j m id s ok j' : reachable j m -> update_event_status id s j = Ok (ok, j') -> reachable j' (spec_status id s m).2
  | reach_rewind j m : reachable j m -> reachable (rewind j) m
  | reach_next j m by_time debug ok e j' : reachable j m -> next_event fresh_event by_time debug j = Ok (ok, e, j') -> reachable j' m
  | reach_reopen j m j' : reachable j m -> open_journal is_in_the_future (j_config j) (close_journal j) = Ok j' -> reachable j' m
  | reach_compress j m j' : reachable j m -> clean j -> load_event_locations is_in_the_future true j = Ok j' -> reachable j' m
  | reach_setting j m s : reachable j m -> reachable (change_setting s j) m
  | reach_files j m v j' e : reachable j m -> f_current_file_index j < v -> set_maximum_number_of_files v j = (j', e) -> reachable j' m.

Lemma reachable_rep j m : config_wf c -> reachable j m -> journal_rep unique_number good j m.
Proof.
  intros Hc. induction 1 as [j Ho|j m e t t' j' _ IH Hok Hadd|j m e t t' j' _ IH Hok Hadd|j m id s ok j' _ IH Hup|j m _ IH|j m bt d ok e j' _ IH Hn
    |j m j' _ IH Ho|j m j' _ IH Hcl Hl|j m s _ IH|j m v j' e _ IH Hv Hs].
  - rewrite open_empty in Ho by done. injection Ho as <-. by apply empty_rep.
  - destruct (add_event_rep unique_number is_in_the_future good j m e t IH Hok) as (ok & x & j2 & Heq & _ & _ & Hr). rewrite Hadd in Heq.
    injection Heq as <- <- <-. apply Hr.
  - destruct (add_event_rep unique_number is_in_the_future good j m e t IH Hok) as (ok & x & j2 & Heq & _ & _ & Hr). rewrite Hadd in Heq.
    injection Heq as <- <- <-. apply Hr.
  - destruct (decide (s ∈ [STATUS_READY; STATUS_FORWARDED; STATUS_ACKNOWLEDGED; STATUS_COMPLETED; STATUS_FAILED])) as [Hv|Hv].
    + destruct (update_status_rep unique_number good j m id s IH Hv) as (j2 & Heq & Hrep & _). rewrite Hup in Heq. by injection Heq as -> <-.
    + unfold update_event_status in Hup. by rewrite decide_True in Hup.
  - destruct IH as (L & layout & Hrep). exists L, layout. by apply rep_rewind.
  - pose proof (next_event_rep unique_number good j m bt d IH) as Hr. rewrite Hn in Hr. apply Hr.
  - destruct (reopen_rep unique_number is_in_the_future good (fun r Hr => Hr) j m IH) as (j2 & Heq & Hrep & _). rewrite Ho in Heq. by injection Heq as <-.
  - destruct (compress_rep unique_number is_in_the_future good (fun r Hr => Hr) j m IH Hcl) as (j2 & Heq & (L & layout & Hrep) & _). rewrite Hl in Heq. injection Heq as <-.
    exists L, layout. eapply rep_good_mono; [exact Hrep|]. intros k rs Hk. eapply Forall_impl; [exact (rp_good _ _ _ _ _ _ Hrep k rs Hk)|]. by intros r [Hr _].
  - by apply change_setting_rep.
  - pose proof (set_files_rep unique_number good v j m IH) as Hr. rewrite Hs in Hr. destruct e as [[]|]; try done; [by destruct Hr as [-> _]|apply Hr|by apply Hr].
Qed.

(** The sizes the journal reports. *)
Lemma rep_size g j m : journal_rep unique_number g j m -> size j = Z.of_nat (base.size m) /\ is_empty j = bool_decide (m = ∅).
Proof.
  intros (L & layout & Hrep). pose proof (rep_rewind _ _ _ _ _ _ Hrep) as Hrew.
  destruct (replay_by_id unique_number g false (f_event_locations j) [] (rewind j) L layout m (S (length (f_event_locations j))) Hrew) as (evs & _ & _ & _ & H); [done|done|lia|].
  destruct (ids_complete unique_number g j L layout m _ evs Hrep H) as [Hp _]. pose proof (read_length _ _ _ _ _ H Hp) as Hl. unfold size, is_empty. rewrite Hl. split; [done|].
  destruct (f_event_locations j) as [|x es]; cbn in Hl; symmetry.
  - apply bool_decide_eq_true. by apply map_size_empty_iff.
  - apply bool_decide_eq_false. intros ->. by rewrite map_size_empty in Hl.
Qed.
End Reachable.

(** A journal whose current file was dropped takes no event. *)
Lemma current_file_dropped is_in_the_future unique_number j size e t compress : 0 < f_maximum_number_of_files (j_config j) <= f_current_file_index j ->
  attempts is_in_the_future unique_number 2 compress e size t j = Throw invalid_parameter.
Proof.
  intros Hj. cbn [attempts]. destruct (Z.to_nat (f_maximum_number_of_files (j_config j))) eqn:E; [lia|]. cbn [try_files]. unfold try_file, get_event_file.
  by rewrite decide_True by lia.
Qed.
