(* ===== verification/JournalProps.v ===== *)
(** * The journal: main theorems

    [journal_rep unique_number good j m] says that the journal [j] holds exactly
    the events [m] (JournalRep); [good] is what is asked of the records of its
    files.  Each operation is shown to implement its effect on [m]. *)

From Stdlib Require Import Sorting.Sorted.
From S2P Require Import Prelude Bytes SortedMap JournalFile JournalLayout Journal JournalIndex JournalRep JournalStatus JournalAdd JournalLoad JournalReload JournalEvents JournalSettings.

(** ** A concrete journal *)

Definition next_number (c : Z) : Z * Z := (c + 1, c + 1).

#[export] Instance next_number_unique : UniqueNumber next_number.
Proof. by refine {| first_number := 1 |}. Defined.

Definition after_1000 (t : Z) : bool := 1000 <? t.

Definition demo_event : in_event := InEvent (str: "A") [(str: "data"); replicate 5000 7].
Definition demo_result : result (bool * Z * journal) := add_event after_1000 next_number demo_event 100 (empty_journal default_config).
Definition demo : journal := match demo_result with Ok (_, _, j) => j | Throw _ => empty_journal default_config end.
Definition demo_entry : entry := Entry 100 STATUS_READY (in_attachments demo_event).

(** The attachments that are in the record. *)
Lemma placed_inline threshold ext atts slots : Forall2 (placed threshold ext) atts slots ->
  inline_bytes slots = concat (filter (fun a => Z.of_nat (length a) < threshold) atts).
Proof.
  induction 1 as [|a s atts slots Ha Hp IH]; [done|]. rewrite filter_cons. unfold inline_bytes in *. cbn [fmap list_fmap concat]. rewrite IH.
  destruct s as [d|i]; cbn in Ha; [destruct Ha as [-> Ha]; by rewrite decide_True|]. by rewrite decide_False by lia.
Qed.

Definition has_inline_data (threshold : Z) (e : in_event) : Prop :=
  concat (filter (fun a => Z.of_nat (length a) < threshold) (in_attachments e)) <> [].

Lemma event_data_loadable threshold ext e t slots f : f t = false -> Forall2 (placed threshold ext) (in_attachments e) slots ->
  has_inline_data threshold e -> loadable f (new_record e t slots).
Proof.
  intros Hf Hp Hdata. split; [|exact Hf]. cbn [r_slots new_record]. rewrite (placed_inline _ _ _ _ Hp). unfold has_inline_data in Hdata.
  destruct (concat _); [done|cbn; lia].
Qed.

(** The concrete journal holds its event. *)
Lemma demo_ok : event_ok next_number after_1000 (loadable after_1000) (empty_journal default_config) ∅ demo_event 100.
Proof.
  assert (forall x, first_free ∅ 100 x -> x = 100) as Hx.
  { intros x (Hge & _ & Hused). destruct (decide (x = 100)); [done|]. destruct (Hused 100) as (id & en & H & _); [lia|done]. }
  split.
  - vm_compute. lia.
  - intros x ->%Hx. vm_compute. split; [discriminate|done].
  - vm_compute. discriminate.
  - intros x ext slots ->%Hx _ Hp. eapply event_data_loadable; [done|exact Hp|]. by vm_compute.
  - discriminate.
Qed.

Lemma demo_rep : journal_rep next_number (loadable after_1000) demo {[ in_request_id demo_event := demo_entry ]}.
Proof.
  destruct (add_event_rep next_number after_1000 (loadable after_1000) (empty_journal default_config) ∅ demo_event 100
    (empty_rep _ _ _ default_config_wf) demo_ok) as (ok & t & j & Heq & _ & _ & Hok).
  assert (exists j', demo_result = Ok (true, 100, j')) as [j' Hd] by (eexists; vm_compute; reflexivity).
  unfold demo. fold demo_result in Heq. rewrite Heq in Hd |- *. injection Hd as -> -> ->. destruct Hok as (_ & _ & Hrep).
  by rewrite insert_empty in Hrep.
Qed.

(** ** Adding events *)

Section Theorems.
Context (unique_number : Z -> Z * Z) {unique : UniqueNumber unique_number} (is_in_the_future : Z -> bool).


(** C2: A change of status succeeds exactly when it increases the status of an
    event of the journal; the event keeps its time and attachments, or leaves the
    journal when it is completed or failed.  A number that is not a status is
    refused with an exception. *)
Theorem journal_change_status (good : record -> Prop) {free : StatusFree good} j m id s : journal_rep unique_number good j m ->
  (valid_status s -> exists j', update_event_status id s j = Ok ((spec_status id s m).1, j') /\ journal_rep unique_number good j' (spec_status id s m).2) /\
  (~ valid_status s -> update_event_status id s j = Throw invalid_parameter).
Proof.
  intros Hrep. split; intros Hs.
  - destruct (update_status_rep unique_number good j m id s Hrep Hs) as (j' & Heq & Hrep' & _). by exists j'.
  - unfold update_event_status. by rewrite decide_True.
Qed.

(** C3: After rewind(), the calls of next_event() end; until they return false
    they read each event of the journal once, with its status and attachments, in
    the order of the times or of the identifiers. *)
Theorem journal_replay (good : record -> Prop) j m by_time debug fuel : journal_rep unique_number good j m -> (base.size m < fuel)%nat ->
  exists evs j', replay fuel by_time debug (rewind j) = Ok (evs, j') /\ journal_rep unique_number good j' m /\
    let read := event_of (d_externals (j_dir j)) <$> evs in read ≡ₚ map_to_list m /\ StronglySorted (replay_order by_time) read.
Proof. apply replay_rep. Qed.

(** C4: A journal of which each record has data of its own in the file and a time
    that is not in the future, when it is closed and opened again on the same
    directory with the same settings, holds the same events.  Without these
    conditions it may not: see [event_without_data_is_lost]. *)
Theorem journal_reopen (good : record -> Prop) j m : (forall r, good r -> loadable is_in_the_future r) -> journal_rep unique_number good j m ->
  exists j', open_journal is_in_the_future (j_config j) (close_journal j) = Ok j' /\ journal_rep unique_number good j' m.
Proof. intros Hgood Hrep. destruct (reopen_rep unique_number is_in_the_future good Hgood j m Hrep) as (j' & Heq & Hrep' & _). by exists j'. Qed.

(** C5: When each record has data of its own in the file and a time that is not
    in the future, and when no bytes after the records of a file look like an event
    ([clean]), compression keeps the events and leaves nothing but live events in
    the files, and no file gets longer.  When bytes that look like an event were
    left over, an event may come back: see [completed_event_comes_back]. *)
Theorem journal_compress (good : record -> Prop) j m : (forall r, good r -> loadable is_in_the_future r) -> journal_rep unique_number good j m -> clean j ->
  exists j', load_event_locations is_in_the_future true j = Ok j' /\
    journal_rep unique_number (fun r => good r /\ is_live r = true) j' m /\
    forall k, f_next_append (file_object j' k) <= f_next_append (file_object j k).
Proof.
  intros Hgood Hrep Hclean. destruct (compress_rep unique_number is_in_the_future good Hgood j m Hrep Hclean) as (j' & Heq & Hrep' & _ & _ & _ & _ & Hsize).
  by exists j'.
Qed.
End Theorems.


Lemma journal_change_status_witness :
  (valid_status STATUS_COMPLETED -> exists j', update_event_status (in_request_id demo_event) STATUS_COMPLETED demo
      = Ok ((spec_status (in_request_id demo_event) STATUS_COMPLETED {[in_request_id demo_event := demo_entry]}).1, j') /\
    journal_rep next_number (loadable after_1000) j' (spec_status (in_request_id demo_event) STATUS_COMPLETED {[in_request_id demo_event := demo_entry]}).2) /\
  (~ valid_status STATUS_COMPLETED -> update_event_status (in_request_id demo_event) STATUS_COMPLETED demo = Throw invalid_parameter).
Proof. exact (journal_change_status next_number (loadable after_1000) demo _ (in_request_id demo_event) STATUS_COMPLETED demo_rep). Defined.

Lemma journal_replay_witness : exists evs j', replay 2 true false (rewind demo) = Ok (evs, j') /\
  journal_rep next_number (loadable after_1000) j' {[in_request_id demo_event := demo_entry]} /\
  let read := event_of (d_externals (j_dir demo)) <$> evs in
  read ≡ₚ map_to_list {[in_request_id demo_event := demo_entry]} /\ StronglySorted (replay_order true) read.
Proof. apply (journal_replay next_number (loadable after_1000) demo _ true false 2 demo_rep). rewrite map_size_singleton. lia. Defined.

Lemma journal_reopen_witness : exists j', open_journal after_1000 (j_config demo) (close_journal demo) = Ok j' /\
  journal_rep next_number (loadable after_1000) j' {[in_request_id demo_event := demo_entry]}.
Proof. exact (journal_reopen next_number after_1000 (loadable after_1000) demo _ (fun r Hr => Hr) demo_rep). Defined.

(** The file of the concrete journal ends with its record. *)
Lemma demo_clean : clean demo.
Proof.
  intros k f Hf. assert (f_event_files demo = {[0 := file_object demo 0]}) as Hfiles by (vm_compute; reflexivity).
  rewrite Hfiles in Hf. apply lookup_singleton_Some in Hf as [<- <-]. vm_compute. reflexivity.
Qed.

Lemma journal_compress_witness : exists j', load_event_locations after_1000 true demo = Ok j' /\
  journal_rep next_number (fun r => loadable after_1000 r /\ is_live r = true) j' {[in_request_id demo_event := demo_entry]} /\
  forall k, f_next_append (file_object j' k) <= f_next_append (file_object demo k).
Proof. exact (journal_compress next_number after_1000 (loadable after_1000) demo _ (fun r Hr => Hr) demo_rep demo_clean). Defined.

(** ** Sequences of calls and settings *)

(** C6: Whatever the calls made from an empty directory among these: adding an
    event, accepted or refused, of 255 attachments at most, with a time in range,
    numbers left for its attachments, data of its own in the file and a time that
    is not in the future ([event_ok], [loadable]), when no left-over bytes look
    like an event if the journal may compress itself; changes of status; reading;
    closing and opening; compression when no left-over bytes look like an event
    ([clean]); settings; and a number of files that keeps the current file.  Then
    the journal holds exactly the events these calls should leave, the index, the
    files and their objects agree, and size() and empty() count them. *)
Theorem journal_reachable (unique_number : Z -> Z * Z) {unique : UniqueNumber unique_number} (is_in_the_future : Z -> bool) c j m :
  config_wf c -> reachable unique_number is_in_the_future c j m ->
  journal_rep unique_number (loadable is_in_the_future) j m /\ size j = Z.of_nat (base.size m) /\ is_empty j = bool_decide (m = ∅).
Proof. intros Hc Hr. pose proof (reachable_rep unique_number is_in_the_future c j m Hc Hr) as Hrep. split; [done|]. by eapply rep_size. Qed.

Lemma journal_reachable_witness : journal_rep next_number (loadable after_1000) demo (<[in_request_id demo_event := demo_entry]> ∅) /\
  size demo = Z.of_nat (base.size (<[in_request_id demo_event := demo_entry]> (∅ : events))) /\
  is_empty demo = bool_decide (<[in_request_id demo_event := demo_entry]> (∅ : events) = ∅).
Proof.
  apply (journal_reachable next_number after_1000 default_config demo); [apply default_config_wf|].
  eapply (reach_added _ _ _ (empty_journal default_config) ∅ demo_event 100 100).
  - apply reach_open, open_empty, default_config_wf.
  - apply demo_ok.
  - vm_compute. reflexivity.
Defined.

(** C7: Changing a setting stores the new value, or the bound it is past (a
    file has from 64 KB to 128 MB and from 100 to 100000 events, the threshold is
    from 256 bytes to 16 KB), changes neither another setting nor anything else, and
    loses no event.  The number of files is refused out of the range from 2 to 255,
    and when a file that would be dropped still has an event, without a change of the
    settings; otherwise it is stored, and the journal goes on as before if its current
    file is not dropped. *)
Theorem journal_settings (unique_number : Z -> Z * Z) {unique : UniqueNumber unique_number} (good : record -> Prop) {free : StatusFree good} j m :
  journal_rep unique_number good j m ->
  (forall s, exists c, change_setting s j = with_config c j /\ setting_stored s (j_config j) c /\ journal_rep unique_number good (change_setting s j) m) /\
  (forall v, let '(j', e) := set_maximum_number_of_files v j in
    match e with
    | Some out_of_range => j' = j /\ ~ (JOURNAL_MINIMUM_NUMBER_OF_FILES <= v <= JOURNAL_MAXIMUM_NUMBER_OF_FILES)
    | Some file_still_in_use => journal_rep unique_number good j' m /\ j_config j' = j_config j /\
        JOURNAL_MINIMUM_NUMBER_OF_FILES <= v <= JOURNAL_MAXIMUM_NUMBER_OF_FILES /\ files_used j v
    | Some _ => False
    | None => files_stored v (j_config j) (j_config j') /\ ~ files_used j v /\
        (f_current_file_index j < v -> journal_rep unique_number good j' m)
    end).
Proof.
  intros Hrep. split; [|intros v; by apply set_files_rep]. intros s. destruct (change_setting_stored s j) as (c & E & Hc).
  exists c. split_and!; [done|done|by apply change_setting_rep].
Qed.

Lemma journal_settings_witness :
  (forall s, exists c, change_setting s demo = with_config c demo /\ setting_stored s (j_config demo) c /\
    journal_rep next_number (loadable after_1000) (change_setting s demo) {[in_request_id demo_event := demo_entry]}) /\
  (forall v, let '(j', e) := set_maximum_number_of_files v demo in
    match e with
    | Some out_of_range => j' = demo /\ ~ (JOURNAL_MINIMUM_NUMBER_OF_FILES <= v <= JOURNAL_MAXIMUM_NUMBER_OF_FILES)
    | Some file_still_in_use => journal_rep next_number (loadable after_1000) j' {[in_request_id demo_event := demo_entry]} /\ j_config j' = j_config demo /\
        JOURNAL_MINIMUM_NUMBER_OF_FILES <= v <= JOURNAL_MAXIMUM_NUMBER_OF_FILES /\ files_used demo v
    | Some _ => False
    | None => files_stored v (j_config demo) (j_config j') /\ ~ files_used demo v /\
        (f_current_file_index demo < v -> journal_rep next_number (loadable after_1000) j' {[in_request_id demo_event := demo_entry]})
    end).
Proof. exact (journal_settings next_number (loadable after_1000) demo _ demo_rep). Defined.

(** ** What the conditions exclude *)

(** An event without data in the journal file, here one with no attachment at
    all, is lost when the journal is opened again. *)
Definition without_data : result (Z * Z) :=
  let! '(_, _, j) := add_event after_1000 next_number (InEvent (str: "A") []) 100 (empty_journal default_config) in
  let! j' := open_journal after_1000 default_config (close_journal j) in
  Ok (size j, size j').

Lemma event_without_data_is_lost : without_data = Ok (1, 0).
Proof. vm_compute. reflexivity. Qed.

(** Compression leaves a copy of a moved event after the end of the file; a second
    compression takes it for the event itself, and the event comes back after it
    was completed. *)
Definition compressed_twice : result (bool * Z * Z) :=
  let add id data j := let! '(_, _, j) := add_event after_1000 next_number (InEvent id [data]) 100 j in Ok j in
  let! j := add (str: "A") [1; 2; 3] (empty_journal default_config) in
  let! j := add (str: "B") [4; 5] j in
  let! j := add (str: "C") [6; 7; 8] j in
  let! '(_, j) := event_completed (str: "A") j in
  let! j := load_event_locations after_1000 true j in
  let! j := load_event_locations after_1000 true j in
  let! '(ok, j) := event_completed (str: "C") j in
  let! j' := open_journal after_1000 default_config (close_journal j) in
  Ok (ok, size j, size j').

Lemma completed_event_comes_back : compressed_twice = Ok (true, 1, 2).
Proof. vm_compute. reflexivity. Qed.
