(* ===== verification/Nodes.v ===== *)
(** * Nodes of the expressions of the query language (prinbee/pbql/node.cpp)

    The trees the parser builds: a node of the lexer with children.  Nothing reads
    the parent of a node, and a node the parser changes in place is never one that
    another node already holds, so that trees are values here.

    What the code takes from libraries is the class [Libraries]: the functions of
    snapdev on strings, regular expressions and the arithmetic of [long double]
    with the functions of libm, over a type [F] of floating point numbers. *)

From S2P Require Import Prelude Limbs BigLoops Uint512 Int512 BigText Input LongDouble Lexer SortedMap.

(** ** Tokens *)

Definition TOKEN_UNKNOWN := 0.
Definition TOKEN_BITWISE_XOR := (chr: "#").
Definition TOKEN_MODULO := (chr: "%").
Definition TOKEN_BITWISE_AND := (chr: "&").
Definition TOKEN_OPEN_PARENTHESIS := (chr: "(").
Definition TOKEN_CLOSE_PARENTHESIS := (chr: ")").
Definition TOKEN_MULTIPLY := (chr: "*").
Definition TOKEN_PLUS := (chr: "+").
Definition TOKEN_COMMA := (chr: ",").
Definition TOKEN_PERIOD := (chr: ".").
Definition TOKEN_EQUAL := (chr: "=").
Definition TOKEN_ABSOLUTE_VALUE := (chr: "@").
Definition TOKEN_OPEN_BRACKET := (chr: "[").
Definition TOKEN_CLOSE_BRACKET := (chr: "]").
Definition TOKEN_POWER := (chr: "^").
Definition TOKEN_REGULAR_EXPRESSION := (chr: "~").
Definition TOKEN_ALL_FIELDS := 1015.
Definition TOKEN_AT := 1016.
Definition TOKEN_BETWEEN := 1017.
Definition TOKEN_CAST := 1018.
Definition TOKEN_FALSE := 1019.
Definition TOKEN_FUNCTION_CALL := 1020.
Definition TOKEN_ILIKE := 1021.
Definition TOKEN_LIKE := 1022.
Definition TOKEN_LIST := 1023.
Definition TOKEN_LOGICAL_OR := 1024.
Definition TOKEN_LOGICAL_AND := 1025.
Definition TOKEN_LOGICAL_NOT := 1026.
Definition TOKEN_NULL := 1027.
Definition TOKEN_TRUE := 1028.
Definition TOKEN_BOOLEAN := 1030.
Definition TOKEN_NUMBER := 1031.

(** ** Types a value is cast to *)

Inductive type_t : Type :=
  | TYPE_BOOLEAN
  | TYPE_INT1 | TYPE_INT2 | TYPE_INT4 | TYPE_INT8 | TYPE_INT16 | TYPE_INT32 | TYPE_INT64
  | TYPE_UNSIGNED_INT1 | TYPE_UNSIGNED_INT2 | TYPE_UNSIGNED_INT4 | TYPE_UNSIGNED_INT8
  | TYPE_UNSIGNED_INT16 | TYPE_UNSIGNED_INT32 | TYPE_UNSIGNED_INT64
  | TYPE_FLOAT4 | TYPE_FLOAT8 | TYPE_FLOAT10
  | TYPE_TEXT.

#[export] Instance type_t_eq_dec : EqDecision type_t.
Proof. solve_decision. Defined.

Definition types : list type_t :=
  [TYPE_BOOLEAN; TYPE_INT1; TYPE_INT2; TYPE_INT4; TYPE_INT8; TYPE_INT16; TYPE_INT32; TYPE_INT64;
   TYPE_UNSIGNED_INT1; TYPE_UNSIGNED_INT2; TYPE_UNSIGNED_INT4; TYPE_UNSIGNED_INT8;
   TYPE_UNSIGNED_INT16; TYPE_UNSIGNED_INT32; TYPE_UNSIGNED_INT64;
   TYPE_FLOAT4; TYPE_FLOAT8; TYPE_FLOAT10; TYPE_TEXT].

(** The number of a type, its place in the enumeration, and back. *)
Definition type_number (t : type_t) : Z := default 0 (Z.of_nat ∘ fst <$> list_find (t =.) types).
Definition type_of_number (n : Z) : option type_t := types !! Z.to_nat n.

(** ** Functions an expression calls *)

Inductive function_t : Type :=
  | FUNCTION_ABS | FUNCTION_ACOS | FUNCTION_ACOSH | FUNCTION_ASIN | FUNCTION_ASINH
  | FUNCTION_ATAN | FUNCTION_ATAN2 | FUNCTION_ATANH | FUNCTION_CBRT | FUNCTION_CEIL
  | FUNCTION_CONCAT | FUNCTION_COS | FUNCTION_COSH | FUNCTION_EXP | FUNCTION_EXPM1
  | FUNCTION_FLOOR | FUNCTION_HYPOT | FUNCTION_IMUL | FUNCTION_LENGTH | FUNCTION_LOG
  | FUNCTION_LOG1P | FUNCTION_LOG10 | FUNCTION_LOG2 | FUNCTION_MAX | FUNCTION_MIN
  | FUNCTION_POW | FUNCTION_RAND | FUNCTION_ROUND | FUNCTION_SIGN | FUNCTION_SIN
  | FUNCTION_SINH | FUNCTION_SQRT | FUNCTION_TAN | FUNCTION_TANH | FUNCTION_TRUNC.

(** ** Libraries *)

Class Libraries (F : Type) := {
  (* snapdev, on strings *)
  to_upper : list Z -> list Z;
  to_lower : list Z -> list Z;
  trim_string : list Z -> list Z;
  string_replace_many : list Z -> list (list Z * list Z) -> list Z;
  escape_special_regex_characters : list Z -> list Z;
  floating_point_to_string : F -> list Z;
  (* snapdev::pow() on two 64-bit numbers *)
  snapdev_pow : Z -> Z -> Z;
  (* std::regex_match(value, pattern), which may throw for the pattern *)
  regex_match : bool -> list Z -> list Z -> result bool;
  (* long double: its constants, conversions, operators and comparisons *)
  f_zero : F;
  f_infinity : F;
  f_of_long_double : long_double -> F;
  f_of_extended : Z * Z -> F;  (* the sign and exponent, and the significand *)
  f_to_int64 : F -> option Z;  (* none when the value does not fit *)
  f_neg : F -> F;
  f_add : F -> F -> F;
  f_sub : F -> F -> F;
  f_mul : F -> F -> F;
  f_div : F -> F -> F;
  f_mod : F -> F -> F;
  f_ltb : F -> F -> bool;
  f_leb : F -> F -> bool;
  f_eqb : F -> F -> bool;
  (* libm: the function called for each function of the language *)
  libm : function_t -> F -> F;
  libm2 : function_t -> F -> F -> F;
  (* strtold() on a whole text, none when it sets errno or stops before the end *)
  text_to_floating_point : list Z -> option F;
}.

Section Nodes.
Context {F : Type} {libraries : Libraries F}.
Context (is_hexdigit : Z -> bool) (hexdigit_to_number : Z -> Z).

(** ** Trees *)

Inductive tree : Type :=
  Tree {
    t_token : Z;
    t_location : location;
    t_string : list Z;
    t_integer : int512_t;
    t_floating_point : F;
    t_temp_counter : Z;
    t_children : list tree;
  }.

Definition make_node (token : Z) (l : location) : tree := Tree token l [] int512_zero f_zero 0 [].

(** A node the lexer returns. *)
Definition tree_of_node (n : node) : tree :=
  Tree (f_token n) (f_node_location n) (f_string n) (f_integer n) (f_of_long_double (f_floating_point n)) 0 [].

Definition tree_set_string (t : tree) (s : list Z) : tree :=
  Tree (t_token t) (t_location t) s (t_integer t) (t_floating_point t) (t_temp_counter t) (t_children t).
Definition tree_set_integer (t : tree) (i : int512_t) : tree :=
  Tree (t_token t) (t_location t) (t_string t) i (t_floating_point t) (t_temp_counter t) (t_children t).
Definition tree_set_floating_point (t : tree) (d : F) : tree :=
  Tree (t_token t) (t_location t) (t_string t) (t_integer t) d (t_temp_counter t) (t_children t).

Definition tree_set_temp_counter (t : tree) (counter : Z) : tree :=
  Tree (t_token t) (t_location t) (t_string t) (t_integer t) (t_floating_point t) counter (t_children t).

(** [insert_child(-1, child)] *)
Definition append_child (t child : tree) : tree :=
  Tree (t_token t) (t_location t) (t_string t) (t_integer t) (t_floating_point t) (t_temp_counter t) (t_children t ++ [child]).

Definition get_child (t : tree) (position : nat) : result tree :=
  match t_children t !! position with
  | Some child => Ok child
  | None => Throw out_of_range
  end.

Definition set_child (t : tree) (position : nat) (child : tree) : result tree :=
  if decide (position < length (t_children t))%nat
  then Ok (Tree (t_token t) (t_location t) (t_string t) (t_integer t) (t_floating_point t) (t_temp_counter t) (<[position := child]> (t_children t)))
  else Throw out_of_range.

Definition get_children_size (t : tree) : nat := length (t_children t).

(** ** Literals *)

Definition get_string_upper (t : tree) : list Z := to_upper (t_string t).
Definition get_string_lower (t : tree) : list Z := to_lower (t_string t).

(** A text that is an integer, in base ten. *)
Definition integer_text (s : list Z) : bool :=
  match s with
  | [] => false
  | c :: rest =>
      let digits := if decide (c = (chr: "+") \/ c = (chr: "-")) then rest else s in
      match digits with [] => false | _ => forallb is_decimal digits end
  end.

(** A text that is a Boolean: the start of TRUE or FALSE. *)
Definition boolean_text (s : list Z) : option bool :=
  let keyword := trim_string (to_upper s) in
  if decide (keyword = []) then None
  else if decide (length keyword <= 4 /\ keyword `prefix_of` (str: "TRUE"))%nat then Some true
  else if decide (length keyword <= 5 /\ keyword `prefix_of` (str: "FALSE"))%nat then Some false
  else None.

Definition is_literal (t : tree) (match_type : Z) : bool :=
  let token := t_token t in
  let same := bool_decide (match_type = TOKEN_UNKNOWN \/ match_type = token) in
  if decide (token = TOKEN_STRING) then
    if decide (match_type = TOKEN_NUMBER \/ match_type = TOKEN_FLOATING_POINT)
    then bool_decide (is_Some (text_to_floating_point (t_string t)))
    else if decide (match_type = TOKEN_INTEGER) then integer_text (t_string t)
    else if decide (match_type = TOKEN_BOOLEAN) then bool_decide (is_Some (boolean_text (t_string t)))
    else same
  else if decide (token = TOKEN_INTEGER \/ token = TOKEN_FLOATING_POINT) then
    same || bool_decide (match_type = TOKEN_NUMBER \/ match_type = TOKEN_BOOLEAN)
  else if decide (token = TOKEN_NULL) then same
  else if decide (token = TOKEN_TRUE \/ token = TOKEN_FALSE) then
    bool_decide (match_type = TOKEN_UNKNOWN \/ match_type = TOKEN_BOOLEAN)
  else false.

(** A literal of any kind. *)
Definition is_any_literal (t : tree) : bool := is_literal t TOKEN_UNKNOWN.

Definition get_string_auto_convert (t : tree) : result (list Z) :=
  let token := t_token t in
  if decide (token = TOKEN_STRING) then Ok (t_string t)
  else if decide (token = TOKEN_INTEGER) then int512_to_string (t_integer t) 10 false false
  else if decide (token = TOKEN_FLOATING_POINT) then Ok (floating_point_to_string (t_floating_point t))
  else if decide (token = TOKEN_NULL) then Ok (str: "null")
  else if decide (token = TOKEN_TRUE) then Ok (str: "true")
  else if decide (token = TOKEN_FALSE) then Ok (str: "false")
  else Throw logic_error.

Definition get_boolean_auto_convert (t : tree) : result bool :=
  let token := t_token t in
  if decide (token = TOKEN_STRING) then
    match boolean_text (t_string t) with Some b => Ok b | None => Throw logic_error end
  else if decide (token = TOKEN_INTEGER) then Ok (negb (int512_is_zero (t_integer t)))
  else if decide (token = TOKEN_FLOATING_POINT) then Ok (negb (f_eqb (t_floating_point t) f_zero))
  else if decide (token = TOKEN_TRUE) then Ok true
  else if decide (token = TOKEN_FALSE) then Ok false
  else Throw logic_error.

(** The number of a string goes through its member [f_integer], which nothing
    reads in a string. *)
Definition get_integer_auto_convert (t : tree) : result int512_t :=
  let token := t_token t in
  if decide (token = TOKEN_STRING) then
    if decide (t_string t = []) then Throw invalid_number
    else int512_from_string is_hexdigit hexdigit_to_number (t_string t)
  else if decide (token = TOKEN_INTEGER) then Ok (t_integer t)
  else if decide (token = TOKEN_FLOATING_POINT) then
    match f_to_int64 (t_floating_point t) with
    | Some i => Ok (int512_of_i64 i)
    | None => Throw undefined_behavior
    end
  else Throw logic_error.

Definition get_floating_point_auto_convert (t : tree) : result F :=
  let token := t_token t in
  if decide (token = TOKEN_STRING) then
    match text_to_floating_point (t_string t) with
    | Some d => Ok d
    | None => Throw invalid_number
    end
  else if decide (token = TOKEN_FLOATING_POINT) then Ok (t_floating_point t)
  else if decide (token = TOKEN_INTEGER) then
    let! words := int512_to_floating_point (t_integer t) in Ok (f_of_extended words)
  else Throw logic_error.
End Nodes.
Arguments tree F : clear implicits.
