(* ===== verification/Functions.v ===== *)
(** * Operators and functions on the nodes of an expression
    (prinbee/pbql/parse_expression.cpp)

    What the parser does with the operands of an operator or the parameters of a
    function once it has read them: compute the result when they are literals, or
    build a node. *)

From S2P Require Import Prelude Limbs BigLoops Uint512 Int512 BigText Input LongDouble Lexer SortedMap Nodes.

Section Functions.
Context {F : Type} {libraries : Libraries F}.
Context (is_hexdigit : Z -> bool) (hexdigit_to_number : Z -> Z).
Abbreviation tree := (Nodes.tree F).
Abbreviation integer_of := (get_integer_auto_convert is_hexdigit hexdigit_to_number).

Definition boolean_node (b : bool) (l : location) : tree := make_node (if b then TOKEN_TRUE else TOKEN_FALSE) l.
Definition node1 (token : Z) (l : location) (a : tree) : tree := append_child (make_node token l) a.
Definition node2 (token : Z) (l : location) (a b : tree) : tree := append_child (node1 token l a) b.

(** The members of a literal are written in place when it has the right token. *)
Definition integer_result (lhs : tree) (i : int512_t) : tree :=
  tree_set_integer (if decide (t_token lhs = TOKEN_INTEGER) then lhs else make_node TOKEN_INTEGER (t_location lhs)) i.
Definition floating_point_result (lhs : tree) (d : F) : tree :=
  tree_set_floating_point (if decide (t_token lhs = TOKEN_FLOATING_POINT) then lhs else make_node TOKEN_FLOATING_POINT (t_location lhs)) d.

(** ** Logical operators *)

Definition boolean_or_default (t : tree) (d : bool) : result bool :=
  if is_literal t TOKEN_BOOLEAN then get_boolean_auto_convert t else Ok d.

(** [OR], at the location [l]. *)
Definition logical_or (l : location) (lhs rhs : tree) : result tree :=
  let lliteral := is_literal lhs TOKEN_BOOLEAN in
  let rliteral := is_literal rhs TOKEN_BOOLEAN in
  let! lvalue := boolean_or_default lhs false in
  let! rvalue := boolean_or_default rhs false in
  let value := lvalue || rvalue in
  Ok (if value || (lliteral && rliteral) then boolean_node value l
      else if lliteral then rhs
      else if negb rliteral then node2 TOKEN_LOGICAL_OR l lhs rhs
      else lhs).

Definition logical_and (l : location) (lhs rhs : tree) : result tree :=
  let lliteral := is_literal lhs TOKEN_BOOLEAN in
  let rliteral := is_literal rhs TOKEN_BOOLEAN in
  let! lvalue := boolean_or_default lhs true in
  let! rvalue := boolean_or_default rhs true in
  let value := lvalue && rvalue in
  Ok (if negb value || (lliteral && rliteral) then boolean_node value l
      else if lliteral then rhs
      else if negb rliteral then node2 TOKEN_LOGICAL_AND l lhs rhs
      else lhs).

(** A number of [NOT], odd or not, before [operand]; [l] is the location of what
    follows it. *)
Definition logical_not (has_logical_not odd : bool) (l : location) (operand : tree) : result tree :=
  if decide (t_token operand = TOKEN_NULL) then Ok operand
  else if has_logical_not && is_literal operand TOKEN_BOOLEAN
  then let! value := get_boolean_auto_convert operand in Ok (boolean_node (xorb value odd) l)
  else if odd then Ok (node1 TOKEN_LOGICAL_NOT l operand)
  else if has_logical_not then Ok (node1 TOKEN_LOGICAL_NOT l (node1 TOKEN_LOGICAL_NOT l operand))
  else Ok operand.

(** [IS [NOT] TRUE], [FALSE] and [NULL] *)
Definition is_true (negate : bool) (l : location) (t : tree) : tree :=
  if is_any_literal t then boolean_node (xorb (bool_decide (t_token t = TOKEN_TRUE)) negate) l
  else if negate then node1 TOKEN_LOGICAL_NOT l t else t.

Definition is_false (negate : bool) (l : location) (t : tree) : tree :=
  if is_any_literal t then boolean_node (xorb (bool_decide (t_token t = TOKEN_FALSE)) negate) l
  else if negate then t else node1 TOKEN_LOGICAL_NOT l t.

Definition is_null (negate : bool) (l : location) (t : tree) : tree :=
  if is_any_literal t then boolean_node (xorb (bool_decide (t_token t = TOKEN_NULL)) negate) l
  else node2 (if negate then TOKEN_NOT_EQUAL else TOKEN_EQUAL) l t (make_node TOKEN_NULL l).

(** ** Comparisons *)

Definition comparison_operators : list Z :=
  [TOKEN_LESS; TOKEN_LESS_EQUAL; TOKEN_EQUAL; TOKEN_GREATER; TOKEN_GREATER_EQUAL; TOKEN_NOT_EQUAL].

Definition select_comparison (compare_operator : Z) (lt le eq gt ge ne : bool) : result bool :=
  if decide (compare_operator = TOKEN_LESS) then Ok lt
  else if decide (compare_operator = TOKEN_LESS_EQUAL) then Ok le
  else if decide (compare_operator = TOKEN_EQUAL) then Ok eq
  else if decide (compare_operator = TOKEN_GREATER) then Ok gt
  else if decide (compare_operator = TOKEN_GREATER_EQUAL) then Ok ge
  else if decide (compare_operator = TOKEN_NOT_EQUAL) then Ok ne
  else Throw logic_error.

Definition compare_strings (compare_operator : Z) (l r : list Z) : result bool :=
  let lt := string_ltb l r in
  let gt := string_ltb r l in
  let eq := bool_decide (l = r) in
  select_comparison compare_operator lt (negb gt) eq gt (negb lt) (negb eq).

(** Two literals that are not NULL. *)
Definition compare_literals (compare_operator : Z) (lhs rhs : tree) : result bool :=
  if is_literal lhs TOKEN_INTEGER && is_literal rhs TOKEN_INTEGER
  then
    let! l := integer_of lhs in
    let! r := integer_of rhs in
    select_comparison compare_operator (int512_ltb l r) (int512_leb l r) (int512_eqb l r)
      (int512_gtb l r) (int512_geb l r) (int512_neb l r)
  else if is_literal lhs TOKEN_NUMBER && is_literal rhs TOKEN_NUMBER
  then
    let! l := get_floating_point_auto_convert lhs in
    let! r := get_floating_point_auto_convert rhs in
    select_comparison compare_operator (f_ltb l r) (f_leb l r) (f_eqb l r) (f_ltb r l) (f_leb r l) (negb (f_eqb l r))
  else if is_literal lhs TOKEN_BOOLEAN && is_literal rhs TOKEN_BOOLEAN
  then
    let l := bool_decide (t_token lhs = TOKEN_TRUE) in
    let r := bool_decide (t_token rhs = TOKEN_TRUE) in
    select_comparison compare_operator (negb l && r) (negb l || r) (eqb l r) (l && negb r) (l || negb r) (xorb l r)
  else
    let! l := get_string_auto_convert lhs in
    let! r := get_string_auto_convert rhs in
    compare_strings compare_operator l r.

(** [n] is the node of the operator. *)
Definition comparison (n lhs rhs : tree) : result tree :=
  if is_any_literal lhs && is_any_literal rhs
  then
    if decide (t_token lhs = TOKEN_NULL) then Ok lhs
    else if decide (t_token rhs = TOKEN_NULL) then Ok rhs
    else let! r := compare_literals (t_token n) lhs rhs in Ok (boolean_node r (t_location lhs))
  else Ok (append_child (append_child n lhs) rhs).

(** ** Ranges and patterns *)

Definition negate_node (negate : bool) (n : tree) : tree :=
  if negate then node1 TOKEN_LOGICAL_NOT (t_location n) n else n.

(** The token of [lhs BETWEEN rhs1 AND rhs2] for literals. *)
Definition between_literals (lhs rhs1 rhs2 : tree) : result Z :=
  let token := t_token lhs in
  let truth (b : bool) := if b then TOKEN_TRUE else TOKEN_FALSE in
  let b1 := bool_decide (t_token rhs1 = TOKEN_TRUE) in
  let b2 := bool_decide (t_token rhs2 = TOKEN_TRUE) in
  if decide (token = TOKEN_STRING) then
    let v := t_string lhs in
    let! b1 := get_string_auto_convert rhs1 in
    let! b2 := get_string_auto_convert rhs2 in
    Ok (truth (negb (string_ltb v b1) && negb (string_ltb b2 v)))
  else if decide (token = TOKEN_INTEGER) then
    let v := t_integer lhs in
    let! b1 := integer_of rhs1 in
    let! b2 := integer_of rhs2 in
    Ok (truth (int512_geb v b1 && int512_leb v b2))
  else if decide (token = TOKEN_FLOATING_POINT) then
    let v := t_floating_point lhs in
    let! b1 := get_floating_point_auto_convert rhs1 in
    let! b2 := get_floating_point_auto_convert rhs2 in
    Ok (truth (f_leb b1 v && f_leb v b2))
  else if decide (token = TOKEN_NULL) then Ok TOKEN_NULL
  else if decide (token = TOKEN_TRUE) then Ok (truth b2)
  else if decide (token = TOKEN_FALSE) then Ok (truth (negb b1))
  else Throw logic_error.

Definition between (negate : bool) (l : location) (lhs rhs1 rhs2 : tree) : result tree :=
  if is_any_literal lhs && is_any_literal rhs1 && is_any_literal rhs2
  then
    let! r := between_literals lhs rhs1 rhs2 in
    let r :=
      if negate
      then if decide (r = TOKEN_TRUE) then TOKEN_FALSE else if decide (r = TOKEN_FALSE) then TOKEN_TRUE else r
      else r in
    Ok (make_node r l)
  else Ok (negate_node negate (append_child (node2 TOKEN_BETWEEN l lhs rhs1) rhs2)).

(** A pattern of LIKE as a regular expression. *)
Definition convert_like_pattern (sql_pattern : list Z) : list Z :=
  (chr: "^")
  :: concat ((fun c => if decide (c = (chr: "%")) then (str: ".*") else escape_special_regex_characters [c]) <$> sql_pattern)
  ++ [(chr: "$")].

(** [n] is the node of LIKE or ILIKE. *)
Definition like (negate : bool) (n lhs rhs : tree) : result tree :=
  if is_any_literal lhs && is_any_literal rhs
  then
    let! value := get_string_auto_convert lhs in
    let! pattern := get_string_auto_convert rhs in
    let! matches := regex_match (bool_decide (t_token n = TOKEN_ILIKE)) (convert_like_pattern pattern) value in
    Ok (boolean_node (xorb matches negate) (t_location n))
  else Ok (negate_node negate (append_child (append_child n lhs) rhs)).

(** [~] and [!~]; [op] is the node of the operator. *)
Definition match_regex (op lhs rhs : tree) : result tree :=
  let logical_not := bool_decide (t_token op = TOKEN_UNMATCHED_REGULAR_EXPRESSION) in
  if is_any_literal lhs && is_any_literal rhs
  then
    let! value := get_string_auto_convert lhs in
    let! regex := get_string_auto_convert rhs in
    let! matches := regex_match false regex value in
    Ok (boolean_node (xorb matches logical_not) (t_location op))
  else if logical_not
  then Ok (node1 TOKEN_LOGICAL_NOT (t_location op) (node2 TOKEN_REGULAR_EXPRESSION (t_location op) lhs rhs))
  else Ok (append_child (append_child op lhs) rhs).

(** ** Arithmetic *)

(** The count of a shift: the low word of the number, as an [int]. *)
Definition shift_count (b : int512_t) : Z := signed 32 (wrap 32 (if_value b !!! 0%nat)).

Definition bitwise_operators : list Z :=
  [TOKEN_BITWISE_AND; TOKEN_BITWISE_OR; TOKEN_BITWISE_XOR; TOKEN_SHIFT_LEFT; TOKEN_SHIFT_RIGHT].

Definition bitwise_integers (token : Z) (a b : int512_t) : result int512_t :=
  if decide (token = TOKEN_BITWISE_AND) then Ok (int512_and a b)
  else if decide (token = TOKEN_BITWISE_OR) then Ok (int512_or a b)
  else if decide (token = TOKEN_BITWISE_XOR) then Ok (int512_xor a b)
  else if decide (token = TOKEN_SHIFT_LEFT) then int512_lsl a (shift_count b)
  else if decide (token = TOKEN_SHIFT_RIGHT) then int512_asr a (shift_count b)
  else Throw logic_error.

Definition bitwise (op lhs rhs : tree) : result tree :=
  if is_literal lhs TOKEN_NUMBER && is_literal rhs TOKEN_NUMBER
  then
    let! a := integer_of lhs in
    let! b := integer_of rhs in
    let! r := bitwise_integers (t_token op) a b in
    Ok (integer_result lhs r)
  else Ok (append_child (append_child op lhs) rhs).

(** Two numbers: as integers when both are, else as floating point numbers. *)
Definition on_numbers (on_integers : int512_t -> int512_t -> result int512_t) (on_floats : F -> F -> result F)
    (lhs rhs : tree) : result tree :=
  if is_literal lhs TOKEN_INTEGER && is_literal rhs TOKEN_INTEGER
  then
    let! a := integer_of lhs in
    let! b := integer_of rhs in
    let! r := on_integers a b in
    Ok (integer_result lhs r)
  else
    let! a := get_floating_point_auto_convert lhs in
    let! b := get_floating_point_auto_convert rhs in
    let! r := on_floats a b in
    Ok (floating_point_result lhs r).

Definition additive (op lhs rhs : tree) : result tree :=
  let token := t_token op in
  let lliteral := is_literal lhs TOKEN_NUMBER in
  let rliteral := is_literal rhs TOKEN_NUMBER in
  if lliteral && rliteral
  then
    on_numbers
      (fun a b =>
         if decide (token = TOKEN_PLUS) then Ok (int512_add_assign a b)
         else if decide (token = TOKEN_MINUS) then Ok (int512_sub_assign a b) else Throw logic_error)
      (fun a b =>
         if decide (token = TOKEN_PLUS) then Ok (f_add a b)
         else if decide (token = TOKEN_MINUS) then Ok (f_sub a b) else Throw logic_error) lhs rhs
  else if is_any_literal lhs && negb lliteral || is_any_literal rhs && negb rliteral then Throw invalid_token
  else Ok (append_child (append_child op lhs) rhs).

Definition multiplicative (op lhs rhs : tree) : result tree :=
  let token := t_token op in
  if is_literal lhs TOKEN_NUMBER && is_literal rhs TOKEN_NUMBER
  then
    on_numbers
      (fun a b =>
         if decide (token = TOKEN_MULTIPLY) then int512_mul_assign a b
         else if decide (token = TOKEN_DIVIDE) then int512_quot a b
         else if decide (token = TOKEN_MODULO) then int512_mod a b else Throw logic_error)
      (fun a b =>
         if decide (token = TOKEN_MULTIPLY) then Ok (f_mul a b)
         else if decide (token = TOKEN_DIVIDE) then Ok (f_div a b)
         else if decide (token = TOKEN_MODULO) then Ok (f_mod a b) else Throw logic_error) lhs rhs
  else Ok (append_child (append_child op lhs) rhs).

(** [snapdev::pow()] on the low words, as a signed 64-bit number. *)
Definition pow_integers (a b : int512_t) : int512_t :=
  int512_of_i64 (signed 64 (wrap 64 (snapdev_pow (if_value a !!! 0%nat) (if_value b !!! 0%nat)))).

Definition power (op lhs rhs : tree) : result tree :=
  if is_literal lhs TOKEN_NUMBER && is_literal rhs TOKEN_NUMBER
  then on_numbers (fun a b => Ok (pow_integers a b)) (fun a b => Ok (libm2 FUNCTION_POW a b)) lhs rhs
  else Ok (append_child (append_child op lhs) rhs).

(** A unary plus ([negate] is none) or minus. *)
Definition unary (negate : option tree) (n : tree) : result tree :=
  if is_literal n TOKEN_INTEGER
  then
    let! i := integer_of n in
    Ok (integer_result n (match negate with None => i | Some _ => int512_neg i end))
  else if is_literal n TOKEN_FLOATING_POINT
  then
    let! d := get_floating_point_auto_convert n in
    Ok (floating_point_result n (match negate with None => d | Some _ => f_neg d end))
  else if decide (t_token n = TOKEN_STRING) then Throw invalid_token
  else
    match negate with
    | None => Ok (append_child (tree_set_integer (make_node TOKEN_CAST (t_location n)) (int512_of_i64 (type_number TYPE_FLOAT8))) n)
    | Some minus => Ok (append_child minus n)
    end.

(** ** Concatenation of strings *)

(** One more operand of [||]: a literal after a literal is appended to it. *)
Definition concat_operand (params n : tree) : result tree :=
  if is_any_literal n && negb (get_children_size params =? 0)%nat
  then
    let last := (get_children_size params - 1)%nat in
    let! p := get_child params last in
    if is_any_literal p
    then
      let! a := get_string_auto_convert p in
      let! b := get_string_auto_convert n in
      set_child params last
        (tree_set_string (if decide (t_token p = TOKEN_STRING) then p else make_node TOKEN_STRING (t_location p)) (a ++ b))
    else Ok (append_child params n)
  else Ok (append_child params n).

(** ** Function calls *)

(** The names in the scripts, for the functions that are called. *)
Definition function_name (func : function_t) : list Z :=
  match func with
  | FUNCTION_ABS => (str: "Math.abs") | FUNCTION_ACOS => (str: "Math.acos") | FUNCTION_ACOSH => (str: "Math.acosh")
  | FUNCTION_ASIN => (str: "Math.asin") | FUNCTION_ASINH => (str: "Math.asinh") | FUNCTION_ATAN => (str: "Math.atan")
  | FUNCTION_ATAN2 => (str: "Math.atan2") | FUNCTION_ATANH => (str: "Math.atanh") | FUNCTION_CBRT => (str: "Math.cbrt")
  | FUNCTION_CEIL => (str: "Math.ceil") | FUNCTION_CONCAT => (str: "String.concat") | FUNCTION_COS => (str: "Math.cos")
  | FUNCTION_COSH => (str: "Math.cosh") | FUNCTION_EXP => (str: "Math.exp") | FUNCTION_EXPM1 => (str: "Math.expm1")
  | FUNCTION_FLOOR => (str: "Math.floor") | FUNCTION_HYPOT => (str: "Math.hypot") | FUNCTION_IMUL => (str: "Math.imul")
  | FUNCTION_LENGTH => [] | FUNCTION_LOG => (str: "Math.log") | FUNCTION_LOG1P => (str: "Math.log1p")
  | FUNCTION_LOG10 => (str: "Math.log10") | FUNCTION_LOG2 => (str: "Math.log2") | FUNCTION_MAX => (str: "Math.max")
  | FUNCTION_MIN => (str: "Math.min") | FUNCTION_POW => [] | FUNCTION_RAND => (str: "Math.rand")
  | FUNCTION_ROUND => (str: "Math.round") | FUNCTION_SIGN => (str: "Math.sign") | FUNCTION_SIN => (str: "Math.sin")
  | FUNCTION_SINH => (str: "Math.sinh") | FUNCTION_SQRT => (str: "Math.sqrt") | FUNCTION_TAN => (str: "Math.tan")
  | FUNCTION_TANH => (str: "Math.tanh") | FUNCTION_TRUNC => (str: "Math.trunc")
  end.

Definition all_literals (list : tree) (match_type : Z) : bool :=
  forallb (fun p => is_literal p match_type) (t_children list).

(** No optimization: the call. *)
Definition call (name : list Z) (l : location) (params : tree) : tree :=
  append_child (tree_set_string (make_node TOKEN_FUNCTION_CALL l) name) params.

Definition integer_node_at (n : tree) (i : int512_t) : tree := tree_set_integer (make_node TOKEN_INTEGER (t_location n)) i.
Definition floating_point_node_at (n : tree) (d : F) : tree := tree_set_floating_point (make_node TOKEN_FLOATING_POINT (t_location n)) d.

(** The value of a floating point number that is stored in an integer. *)
Definition integer_of_float (d : F) : result int512_t :=
  match f_to_int64 d with
  | Some i => Ok (int512_of_i64 i)
  | None => Throw undefined_behavior
  end.

Definition call_abs (l : location) (params : tree) : result tree :=
  let! n := get_child params 0 in
  if is_literal n TOKEN_INTEGER then let! i := integer_of n in Ok (integer_node_at n (int512_abs i))
  else if is_literal n TOKEN_FLOATING_POINT
  then let! d := get_floating_point_auto_convert n in Ok (floating_point_node_at n (libm FUNCTION_ABS d))
  else
    let! params :=
      if decide (t_token n = TOKEN_MINUS /\ get_children_size n = 1%nat)
      then let! child := get_child n 0 in set_child params 0 child
      else Ok params in
    Ok (call (function_name FUNCTION_ABS) l params).

(** A function of one number with a floating point result. *)
Definition call_math (func : function_t) (l : location) (params : tree) : result tree :=
  let! n := get_child params 0 in
  if is_literal n TOKEN_NUMBER
  then let! d := get_floating_point_auto_convert n in Ok (floating_point_node_at n (libm func d))
  else Ok (call (function_name func) l params).

(** CEIL, FLOOR and TRUNC keep an integer. *)
Definition call_rounding (func : function_t) (l : location) (params : tree) : result tree :=
  let! n := get_child params 0 in
  if is_literal n TOKEN_INTEGER then let! i := integer_of n in Ok (integer_node_at n i)
  else if is_literal n TOKEN_FLOATING_POINT
  then let! d := get_floating_point_auto_convert n in Ok (floating_point_node_at n (libm func d))
  else Ok (call (function_name func) l params).

Definition call_round (l : location) (params : tree) : result tree :=
  let! n := get_child params 0 in
  if is_literal n TOKEN_INTEGER then let! i := integer_of n in Ok (integer_node_at n i)
  else if is_literal n TOKEN_FLOATING_POINT
  then
    let! d := get_floating_point_auto_convert n in
    let! i := integer_of_float (libm FUNCTION_ROUND d) in
    Ok (integer_node_at n i)
  else Ok (call (function_name FUNCTION_ROUND) l params).

Definition call_sign (l : location) (params : tree) : result tree :=
  let! n := get_child params 0 in
  if is_literal n TOKEN_INTEGER
  then
    let! number := integer_of n in
    Ok (integer_node_at n
          (if int512_is_zero number then number else int512_of_i64 (if int512_is_negative number then -1 else 1)))
  else if is_literal n TOKEN_FLOATING_POINT
  then
    let! d := get_floating_point_auto_convert n in
    let a := libm FUNCTION_FLOOR d in
    Ok (integer_node_at n (int512_of_i64 (if f_ltb a f_zero then -1 else if f_ltb f_zero a then 1 else 0)))
  else Ok (call (function_name FUNCTION_SIGN) l params).

(** ATAN2, IMUL and POW have two parameters. *)
Definition call_atan2 (l : location) (params : tree) : result tree :=
  let! n := get_child params 0 in
  let no := Ok (call (function_name FUNCTION_ATAN2) l params) in
  if is_literal n TOKEN_NUMBER
  then
    let! m := get_child params 1 in
    if is_literal m TOKEN_NUMBER
    then
      let! a := get_floating_point_auto_convert n in
      let! b := get_floating_point_auto_convert m in
      Ok (floating_point_node_at n (libm2 FUNCTION_ATAN2 a b))
    else no
  else no.

Definition call_imul (l : location) (params : tree) : result tree :=
  let! n := get_child params 0 in
  let no := Ok (call (function_name FUNCTION_IMUL) l params) in
  if is_literal n TOKEN_NUMBER
  then
    let! m := get_child params 1 in
    if is_literal m TOKEN_NUMBER
    then
      let! a := integer_of n in
      let! b := integer_of m in
      let! r := int512_mul_assign a b in
      Ok (integer_node_at n r)
    else no
  else no.

Definition call_pow (params : tree) : result tree :=
  let! n := get_child params 0 in
  let! m := get_child params 1 in
  if is_literal n TOKEN_NUMBER && is_literal m TOKEN_NUMBER
  then
    if is_literal n TOKEN_INTEGER && is_literal m TOKEN_INTEGER
    then
      let! a := integer_of n in
      let! b := integer_of m in
      Ok (integer_node_at n (pow_integers a b))
    else
      let! a := get_floating_point_auto_convert n in
      let! b := get_floating_point_auto_convert m in
      Ok (floating_point_node_at n (libm2 FUNCTION_POW a b))
  else Ok (node2 TOKEN_POWER (t_location n) n m).

Definition call_length (params : tree) : result tree :=
  let! n := get_child params 0 in
  if is_any_literal n
  then
    let! s := get_string_auto_convert n in
    Ok (integer_node_at n (int512_of_i64 (signed 64 (wrap 64 (Z.of_nat (length s))))))
  else
    let name := tree_set_string (make_node TOKEN_IDENTIFIER (t_location n)) (str: "length") in
    Ok (append_child (node2 TOKEN_PERIOD (t_location n) n name) params).

(** The sum of the squares of HYPOT. *)
Fixpoint sum_of_squares (l : list tree) (sum : F) : result F :=
  match l with
  | [] => Ok sum
  | p :: l =>
      let! value := get_floating_point_auto_convert p in
      sum_of_squares l (f_add sum (f_mul value value))
  end.

Definition call_hypot (l : location) (params : tree) : result tree :=
  if (get_children_size params =? 0)%nat then Ok (make_node TOKEN_FLOATING_POINT (t_location params))
  else if all_literals params TOKEN_NUMBER
  then
    let! n := get_child params 0 in
    let! sum := sum_of_squares (t_children params) f_zero in
    Ok (floating_point_node_at n (libm FUNCTION_SQRT sum))
  else Ok (call (function_name (if (get_children_size params =? 1)%nat then FUNCTION_ABS else FUNCTION_HYPOT)) l params).

(** The loops of MAX and MIN: [better a b] when [a] replaces [b]. *)
Fixpoint best {A} (convert : tree -> result A) (better : A -> A -> bool) (l : list tree) (a : A) : result A :=
  match l with
  | [] => Ok a
  | p :: l =>
      let! value := convert p in
      best convert better l (if better value a then value else a)
  end.

(** [max] for MAX, else MIN. *)
Definition call_extremum (max : bool) (l : location) (params : tree) : result tree :=
  let infinity := if max then f_neg f_infinity else f_infinity in
  if (get_children_size params =? 0)%nat
  then Ok (tree_set_floating_point (make_node TOKEN_FLOATING_POINT (t_location params)) infinity)
  else if all_literals params TOKEN_NUMBER
  then
    let! n := get_child params 0 in
    if all_literals params TOKEN_INTEGER
    then
      let! i := best integer_of (if max then int512_gtb else int512_ltb) (t_children params) (if max then int512_min else int512_max) in
      Ok (integer_node_at n i)
    else
      let! d := best get_floating_point_auto_convert (fun a b => if max then f_ltb b a else f_ltb a b) (t_children params) infinity in
      Ok (floating_point_node_at n d)
  else Ok (call (function_name (if max then FUNCTION_MAX else FUNCTION_MIN)) l params).

(** [expr_state::function_call()] *)
Definition function_call (l : location) (func : function_t) (params : tree) : result tree :=
  let params :=
    if decide (t_token params = TOKEN_LIST) then params else node1 TOKEN_LIST (t_location params) params in
  match func with
  | FUNCTION_ABS => call_abs l params
  | FUNCTION_ATAN2 => call_atan2 l params
  | FUNCTION_CEIL | FUNCTION_FLOOR | FUNCTION_TRUNC => call_rounding func l params
  | FUNCTION_CONCAT | FUNCTION_RAND => Ok (call (function_name func) l params)
  | FUNCTION_HYPOT => call_hypot l params
  | FUNCTION_IMUL => call_imul l params
  | FUNCTION_LENGTH => call_length params
  | FUNCTION_MAX => call_extremum true l params
  | FUNCTION_MIN => call_extremum false l params
  | FUNCTION_POW => call_pow params
  | FUNCTION_ROUND => call_round l params
  | FUNCTION_SIGN => call_sign l params
  | _ => call_math func l params
  end.
End Functions.
