(* ===== verification/As2js.v ===== *)
(** * Expressions as as2js scripts (node::to_as2js() in prinbee/pbql/node.cpp)

    [f_children[n]] is not checked by the code: a missing child is undefined.
    The member [f_temp_counter] belongs to each node: a BETWEEN that is not the
    root uses the next variable each time a script of it is written. *)

From stdpp Require Import pretty.
From S2P Require Import Prelude Limbs BigLoops Uint512 Int512 BigText Input LongDouble Lexer SortedMap Nodes Functions.

Definition cast_type_to_as2js_type (type : option type_t) : list Z :=
  match type with
  | Some TYPE_BOOLEAN => (str: "Boolean")
  | Some (TYPE_INT1 | TYPE_INT2 | TYPE_INT4 | TYPE_INT8 | TYPE_INT16 | TYPE_INT32 | TYPE_INT64
         | TYPE_UNSIGNED_INT1 | TYPE_UNSIGNED_INT2 | TYPE_UNSIGNED_INT4 | TYPE_UNSIGNED_INT8
         | TYPE_UNSIGNED_INT16 | TYPE_UNSIGNED_INT32 | TYPE_UNSIGNED_INT64) => (str: "Integer")
  | Some (TYPE_FLOAT4 | TYPE_FLOAT8 | TYPE_FLOAT10) => (str: "Number")
  | Some TYPE_TEXT => (str: "String")
  | None => (str: "undefined")
  end.

(** The binary operators that are written between their operands. *)
Definition infix_operators : list (Z * list Z) :=
  [(TOKEN_BITWISE_XOR, (str: "^")); (TOKEN_MODULO, (str: "%")); (TOKEN_BITWISE_AND, (str: "&"));
   (TOKEN_MULTIPLY, (str: "*")); (TOKEN_PERIOD, (str: ".")); (TOKEN_DIVIDE, (str: "/")); (TOKEN_LESS, (str: "<"));
   (TOKEN_EQUAL, (str: "==")); (TOKEN_GREATER, (str: ">")); (TOKEN_BITWISE_OR, (str: "|"));
   (TOKEN_NOT_EQUAL, (str: "!=")); (TOKEN_LESS_EQUAL, (str: "<=")); (TOKEN_GREATER_EQUAL, (str: ">="));
   (TOKEN_SHIFT_LEFT, (str: "<<")); (TOKEN_SHIFT_RIGHT, (str: ">>")); (TOKEN_LOGICAL_OR, (str: "||"));
   (TOKEN_LOGICAL_AND, (str: "&&"))].

Definition infix_operator (token : Z) : option (list Z) :=
  snd <$> List.find (fun e => bool_decide (fst e = token)) infix_operators.

Definition DOUBLE_QUOTE : Z := 34.

(** The escape sequences of a string of the script. *)
Definition string_escapes : list (list Z * list Z) :=
  [([DOUBLE_QUOTE], [BACKSLASH; DOUBLE_QUOTE]); ([BS], BACKSLASH :: (str: "b")); ([FF], BACKSLASH :: (str: "f"));
   ([LF], BACKSLASH :: (str: "n")); ([CR], BACKSLASH :: (str: "r")); ([HT], BACKSLASH :: (str: "t")); ([VT], BACKSLASH :: (str: "v"))].

(** Texts with a separator. *)
Definition join_with (sep : list Z) (l : list (list Z)) : list Z :=
  match l with
  | [] => []
  | s :: l => s ++ concat ((sep ++.) <$> l)
  end.

(** The first exception of a list of results. *)
Fixpoint all_results {A} (l : list (result A)) : result (list A) :=
  match l with
  | [] => Ok []
  | r :: l => let! a := r in let! l := all_results l in Ok (a :: l)
  end.

Section As2js.
Context {F : Type} {libraries : Libraries F}.
Abbreviation tree := (Nodes.tree F).

(** The pattern of [LIKE], given the text of its node. *)
Definition like_pattern (pattern : tree) (text : result (list Z)) : result (list Z) :=
  if is_any_literal pattern
  then let! s := get_string_auto_convert pattern in Ok (DOUBLE_QUOTE :: convert_like_pattern s ++ [DOUBLE_QUOTE])
  else text.

(** [node::recursive_to_as2js()] *)
Fixpoint recursive_to_as2js (t : tree) : result (list Z) :=
  let '(Tree token _ string integer floating_point temp_counter children) := t in
  let texts := map recursive_to_as2js children in
  let child (n : nat) := default (Throw undefined_behavior) (texts !! n) in
  match infix_operator token with
  | Some op => let! a := child 0%nat in let! b := child 1%nat in Ok (a ++ op ++ b)
  | None =>
      if decide (token = TOKEN_PLUS) then
        if decide (length children = 2%nat)
        then let! a := child 0%nat in let! b := child 1%nat in Ok (a ++ (str: "+") ++ b)
        else Throw logic_error
      else if decide (token = TOKEN_MINUS) then
        if decide (length children = 2%nat)
        then let! a := child 0%nat in let! b := child 1%nat in Ok (a ++ (str: "-") ++ b)
        else let! a := child 0%nat in Ok ((str: "-") ++ a)
      else if decide (token = TOKEN_POWER) then
        let! a := child 0%nat in let! b := child 1%nat in Ok ((str: "(") ++ a ++ (str: "**") ++ b ++ (str: ")"))
      else if decide (token = TOKEN_REGULAR_EXPRESSION) then
        let! a := child 0%nat in let! b := child 1%nat in Ok ((str: "new RegExp(") ++ b ++ (str: ").test(") ++ a ++ (str: ")"))
      else if decide (token = TOKEN_IDENTIFIER) then Ok string
      else if decide (token = TOKEN_STRING) then Ok (DOUBLE_QUOTE :: string_replace_many string string_escapes ++ [DOUBLE_QUOTE])
      else if decide (token = TOKEN_INTEGER) then int512_to_string integer 10 false false
      else if decide (token = TOKEN_FLOATING_POINT) then Ok (floating_point_to_string floating_point)
      else if decide (token = TOKEN_ALL_FIELDS) then Ok (str: "ALL_FIELDS")
      else if decide (token = TOKEN_AT) then
        let! a := child 0%nat in let! b := child 1%nat in Ok (a ++ (str: "[") ++ b ++ (str: "]"))
      else if decide (token = TOKEN_BETWEEN) then
        let! a := child 0%nat in let! b := child 1%nat in let! c := child 2%nat in
        let temp := decimal_text (temp_counter + 1) in
        Ok ((str: "(_t") ++ temp ++ (str: "=") ++ a ++ (str: ",_t") ++ temp ++ (str: ">=") ++ b
            ++ (str: "&&_t") ++ temp ++ (str: "<=") ++ c ++ (str: ")"))
      else if decide (token = TOKEN_CAST) then
        let type := type_of_number (if_value integer !!! 0%nat) in
        let! a := child 0%nat in
        Ok ((if decide (type = Some TYPE_BOOLEAN) then (str: "!!") else (str: "new ") ++ cast_type_to_as2js_type type)
            ++ (str: "(") ++ a ++ (str: ")"))
      else if decide (token = TOKEN_FALSE) then Ok (str: "false")
      else if decide (token = TOKEN_FUNCTION_CALL) then
        match children with
        | Tree _ _ _ _ _ _ params :: _ =>
            let! params := all_results (map recursive_to_as2js params) in
            Ok (string ++ (str: "(") ++ join_with (str: ",") params ++ (str: ")"))
        | [] => Throw undefined_behavior
        end
      else if decide (token = TOKEN_LOGICAL_NOT) then let! a := child 0%nat in Ok ((str: "!") ++ a)
      else if decide (token = TOKEN_NULL) then Ok (str: "null")
      else if decide (token = TOKEN_TRUE) then Ok (str: "true")
      else if decide (token = TOKEN_ILIKE \/ token = TOKEN_LIKE) then
        match children with
        | _ :: pattern :: _ =>
            let! pattern := like_pattern pattern (child 1%nat) in
            let! a := child 0%nat in
            let flags := if decide (token = TOKEN_ILIKE) then [(chr: ","); DOUBLE_QUOTE; (chr: "i"); DOUBLE_QUOTE] else [] in
            Ok ((str: "new RegExp(") ++ pattern ++ flags ++ (str: ").test(") ++ a ++ (str: ")"))
        | _ => Throw undefined_behavior
        end
      else Throw invalid_token
  end.

(** The counters that [node::recursive_to_as2js()] leaves: the ones of the BETWEEN
    it visits.  A child it does not visit is never visited later either. *)
Fixpoint counted (t : tree) : tree :=
  let '(Tree token l string integer floating_point temp_counter children) := t in
  Tree token l string integer floating_point (if decide (token = TOKEN_BETWEEN) then temp_counter + 1 else temp_counter) (map counted children).

(** [node::to_as2js()]: the script, and the node after it. *)
Definition to_as2js (t : tree) : result (list Z) := recursive_to_as2js (tree_set_temp_counter t 0).
Definition after_to_as2js (t : tree) : tree := counted (tree_set_temp_counter t 0).
End As2js.
