(* ===== verification/Expression.v ===== *)
(** * The parser of expressions (prinbee/pbql/parse_expression.cpp)

    One definition per level of precedence, from the lists of parameters to the
    primary expressions.  A level calls the others through [parse]: the fixpoint
    [parse_expr] ties the knot, with a fuel that is the depth of the calls; the
    loops take the same fuel as a number of turns. *)

From S2P Require Import Prelude Limbs BigLoops Uint512 Int512 BigText Input LongDouble Lexer SortedMap Nodes Functions As2js.

(** A loop: its body goes on with a new state or ends with a result. *)
Fixpoint while_loop {A B} (fuel : nat) (body : A -> result (A + B)) (a : A) : result B :=
  match fuel with
  | O => Throw fuel_exhausted
  | S fuel =>
      let! r := body a in
      match r with
      | inl a => while_loop fuel body a
      | inr b => Ok b
      end
  end.

(** The functions [parse_expr_...()]. *)
Inductive level : Type :=
  | EXPR_LIST | EXPR_LOGICAL_OR | EXPR_LOGICAL_AND | EXPR_LOGICAL_NOT | EXPR_IS | EXPR_COMPARISON
  | EXPR_MATCHING | EXPR_OTHER | EXPR_ADDITIVE | EXPR_MULTIPLICATIVE | EXPR_EXPONENTIATION
  | EXPR_UNARY | EXPR_POSTFIX | EXPR_PRIMARY.

(** ** Keywords *)

(** The functions by keyword, with the number of their parameters; ATAN with two
    parameters is ATAN2. *)
Definition functions : list (list Z * (function_t * option nat)) :=
  [((str: "ABS"), (FUNCTION_ABS, Some 1%nat)); ((str: "ACOS"), (FUNCTION_ACOS, Some 1%nat));
   ((str: "ACOSH"), (FUNCTION_ACOSH, Some 1%nat)); ((str: "ASIN"), (FUNCTION_ASIN, Some 1%nat));
   ((str: "ASINH"), (FUNCTION_ASINH, Some 1%nat)); ((str: "ATAN"), (FUNCTION_ATAN, None));
   ((str: "ATANH"), (FUNCTION_ATANH, Some 1%nat)); ((str: "CBRT"), (FUNCTION_CBRT, Some 1%nat));
   ((str: "CEIL"), (FUNCTION_CEIL, Some 1%nat)); ((str: "COS"), (FUNCTION_COS, Some 1%nat));
   ((str: "COSH"), (FUNCTION_COSH, Some 1%nat)); ((str: "EXP"), (FUNCTION_EXP, Some 1%nat));
   ((str: "EXPM1"), (FUNCTION_EXPM1, Some 1%nat)); ((str: "FLOOR"), (FUNCTION_FLOOR, Some 1%nat));
   ((str: "HYPOT"), (FUNCTION_HYPOT, None)); ((str: "IMUL"), (FUNCTION_IMUL, Some 2%nat));
   ((str: "LENGTH"), (FUNCTION_LENGTH, Some 1%nat)); ((str: "LOG"), (FUNCTION_LOG, Some 1%nat));
   ((str: "LOG1P"), (FUNCTION_LOG1P, Some 1%nat)); ((str: "LOG10"), (FUNCTION_LOG10, Some 1%nat));
   ((str: "LOG2"), (FUNCTION_LOG2, Some 1%nat)); ((str: "MAX"), (FUNCTION_MAX, None));
   ((str: "MIN"), (FUNCTION_MIN, None)); ((str: "POW"), (FUNCTION_POW, Some 2%nat));
   ((str: "RAND"), (FUNCTION_RAND, Some 0%nat)); ((str: "ROUND"), (FUNCTION_ROUND, Some 1%nat));
   ((str: "SIGN"), (FUNCTION_SIGN, Some 1%nat)); ((str: "SIN"), (FUNCTION_SIN, Some 1%nat));
   ((str: "SINH"), (FUNCTION_SINH, Some 1%nat)); ((str: "SQRT"), (FUNCTION_SQRT, Some 1%nat));
   ((str: "TAN"), (FUNCTION_TAN, Some 1%nat)); ((str: "TANH"), (FUNCTION_TANH, Some 1%nat));
   ((str: "TRUNC"), (FUNCTION_TRUNC, Some 1%nat))].

(** The types by name, in lower case. *)
Definition type_names : list (list Z * type_t) :=
  [((str: "bigint"), TYPE_INT8); ((str: "boolean"), TYPE_BOOLEAN); ((str: "char"), TYPE_TEXT);
   ((str: "int1"), TYPE_INT4); ((str: "int2"), TYPE_INT2); ((str: "int"), TYPE_INT4); ((str: "int4"), TYPE_INT4);
   ((str: "integer"), TYPE_INT4); ((str: "int8"), TYPE_INT8); ((str: "int16"), TYPE_INT16);
   ((str: "int32"), TYPE_INT32); ((str: "int64"), TYPE_INT64); ((str: "float4"), TYPE_FLOAT4);
   ((str: "float8"), TYPE_FLOAT8); ((str: "float10"), TYPE_FLOAT10); ((str: "real"), TYPE_FLOAT4);
   ((str: "smallint"), TYPE_INT2); ((str: "text"), TYPE_TEXT)].

(** The types that follow UNSIGNED, in upper case. *)
Definition unsigned_type_names : list (list Z * type_t) :=
  [((str: "INT1"), TYPE_UNSIGNED_INT1); ((str: "SMALLINT"), TYPE_UNSIGNED_INT2); ((str: "INT2"), TYPE_UNSIGNED_INT2);
   ((str: "INT"), TYPE_UNSIGNED_INT8); ((str: "INTEGER"), TYPE_UNSIGNED_INT8); ((str: "INT4"), TYPE_UNSIGNED_INT8);
   ((str: "BIGINT"), TYPE_UNSIGNED_INT8); ((str: "INT8"), TYPE_UNSIGNED_INT8); ((str: "INT16"), TYPE_UNSIGNED_INT16);
   ((str: "INT32"), TYPE_UNSIGNED_INT32); ((str: "INT64"), TYPE_UNSIGNED_INT64)].

Definition assoc {A} (k : list Z) (l : list (list Z * A)) : option A := snd <$> List.find (fun e => bool_decide (fst e = k)) l.

Section Expression.
Context {F : Type} {libraries : Libraries F}.
Context (EOS : Z) (is_hexdigit : Z -> bool) (hexdigit_to_number : Z -> Z) (to_u8string : Z -> result (list Z)).
Abbreviation tree := (Nodes.tree F).

(** The lexer and the current token. *)
Record expr_state := ExprState { f_lexer : lexer; f_node : tree }.

(** Enough fuel for one token. *)
Definition lexer_fuel (lx : lexer) : nat := match lx with Some i => S (S (input_size i)) | None => O end.

(** [f_node = f_lexer->get_next_token()] *)
Definition next_token (s : expr_state) : result expr_state :=
  let! '(n, lx) := get_next_token EOS is_hexdigit hexdigit_to_number to_u8string (lexer_fuel (f_lexer s)) (f_lexer s) in
  Ok (ExprState lx (tree_of_node n)).

Definition current (s : expr_state) : Z := t_token (f_node s).
Definition here (s : expr_state) : location := t_location (f_node s).
Definition is_token (s : expr_state) (token : Z) : bool := bool_decide (current s = token).
Definition is_keyword (s : expr_state) (keyword : list Z) : bool :=
  is_token s TOKEN_IDENTIFIER && bool_decide (get_string_upper (f_node s) = keyword).

(** The current token must be [token]. *)
Definition expect (token : Z) (e : error) (s : expr_state) : result expr_state :=
  if is_token s token then next_token s else Throw e.

Section Levels.
Context (fuel : nat) (parse : level -> expr_state -> result (tree * expr_state)).

(** The loops are written as their first state and one turn, [..._turn]. *)
Definition list_turn (a : tree * expr_state) : result (tree * expr_state + tree * expr_state) :=
  let '(list, s) := a in
  let! '(n, s) := parse EXPR_LOGICAL_OR s in
  let list := append_child list n in
  if is_token s TOKEN_COMMA then let! s := next_token s in Ok (inl (list, s)) else Ok (inr (list, s)).

Definition parse_expr_list (s : expr_state) : result (tree * expr_state) :=
  while_loop fuel list_turn (make_node TOKEN_LIST (here s), s).

(** Left associative operators: [operator s] says whether the current token is
    one, [apply op lhs rhs s] is the node of the operation. *)
Definition left_turn (operand : level) (operator : expr_state -> bool)
    (apply : tree -> tree -> tree -> result tree) (a : tree * expr_state) : result (tree * expr_state + tree * expr_state) :=
  let '(lhs, s) := a in
  if operator s
  then
    let op := f_node s in
    let! s := next_token s in
    let! '(rhs, s) := parse operand s in
    let! lhs := apply op lhs rhs in
    Ok (inl (lhs, s))
  else Ok (inr (lhs, s)).

Definition left_associative (operand : level) (operator : expr_state -> bool)
    (apply : tree -> tree -> tree -> result tree) (s : expr_state) : result (tree * expr_state) :=
  let! a := parse operand s in while_loop fuel (left_turn operand operator apply) a.

Definition parse_expr_logical_or : expr_state -> result (tree * expr_state) :=
  left_associative EXPR_LOGICAL_AND (fun s => is_keyword s (str: "OR")) (fun op => logical_or (t_location op)).

Definition parse_expr_logical_and : expr_state -> result (tree * expr_state) :=
  left_associative EXPR_LOGICAL_NOT (fun s => is_keyword s (str: "AND")) (fun op => logical_and (t_location op)).

Definition not_turn (a : bool * bool * expr_state) : result (bool * bool * expr_state + bool * bool * expr_state) :=
  let '(has_logical_not, odd, s) := a in
  if is_keyword s (str: "NOT")
  then let! s := next_token s in Ok (inl (true, negb odd, s))
  else Ok (inr (has_logical_not, odd, s)).

Definition parse_expr_logical_not (s : expr_state) : result (tree * expr_state) :=
  let! '(has_logical_not, odd, s) := while_loop fuel not_turn (false, false, s) in
  let! '(operand, s) := parse EXPR_IS s in
  let! n := logical_not has_logical_not odd (here s) operand in
  Ok (n, s).

Definition is_turn (a : tree * expr_state) : result (tree * expr_state + tree * expr_state) :=
  let '(lhs, s) := a in
  if is_keyword s (str: "IS")
  then
    let! s := next_token s in
    let negate := is_keyword s (str: "NOT") in
    let! s := if negate then next_token s else Ok s in
    let l := here s in
    if negb (is_token s TOKEN_IDENTIFIER) then Throw invalid_token
    else if is_keyword s (str: "TRUE") then let! s := next_token s in Ok (inl (is_true negate l lhs, s))
    else if is_keyword s (str: "FALSE") then let! s := next_token s in Ok (inl (is_false negate l lhs, s))
    else if is_keyword s (str: "NULL") then let! s := next_token s in Ok (inl (is_null negate l lhs, s))
    else if is_keyword s (str: "DISTINCT") then
      let! s := next_token s in
      if is_keyword s (str: "FROM") then let! _ := next_token s in Throw not_yet_implemented else Throw invalid_token
    else Throw invalid_token
  else Ok (inr (lhs, s)).

Definition parse_expr_is (s : expr_state) : result (tree * expr_state) :=
  let! a := parse EXPR_COMPARISON s in while_loop fuel is_turn a.

Definition parse_expr_comparison : expr_state -> result (tree * expr_state) :=
  left_associative EXPR_MATCHING (fun s => bool_decide (current s ∈ comparison_operators))
    (comparison is_hexdigit hexdigit_to_number).

Definition parse_expr_matching (s : expr_state) : result (tree * expr_state) :=
  let! '(lhs, s) := parse EXPR_OTHER s in
  let negate := is_keyword s (str: "NOT") in
  let! s := if negate then next_token s else Ok s in
  if is_keyword s (str: "BETWEEN") then
    let l := here s in
    let! s := next_token s in
    let! '(rhs1, s) := parse EXPR_OTHER s in
    if negb (is_keyword s (str: "AND")) then Throw invalid_token
    else
      let! s := next_token s in
      let! '(rhs2, s) := parse EXPR_OTHER s in
      let! n := between is_hexdigit hexdigit_to_number negate l lhs rhs1 rhs2 in
      Ok (n, s)
  else if is_keyword s (str: "IN") then Throw not_yet_implemented
  else if is_keyword s (str: "LIKE") || is_keyword s (str: "ILIKE") then
    let n := make_node (if is_keyword s (str: "LIKE") then TOKEN_LIKE else TOKEN_ILIKE) (here s) in
    let! s := next_token s in
    let! '(rhs, s) := parse EXPR_OTHER s in
    let! n := like negate n lhs rhs in
    Ok (n, s)
  else if negate then Throw invalid_token
  else Ok (lhs, s).

(** The rest of a concatenation, from its first operator. *)
Definition concat_turn (a : tree * expr_state) : result (tree * expr_state + tree * expr_state) :=
  let '(params, s) := a in
  let! s := next_token s in
  let! '(n, s) := parse EXPR_ADDITIVE s in
  let! params := concat_operand params n in
  Ok (if is_token s TOKEN_STRING_CONCAT then inl (params, s) else inr (params, s)).

Definition concatenation (params : tree) (s : expr_state) : result (tree * expr_state) :=
  while_loop fuel concat_turn (params, s).

(** The functions with an operator before their parameter. *)
Definition prefix_function (token : Z) : option function_t :=
  if decide (token = TOKEN_ABSOLUTE_VALUE) then Some FUNCTION_ABS
  else if decide (token = TOKEN_SQUARE_ROOT) then Some FUNCTION_SQRT
  else if decide (token = TOKEN_CUBE_ROOT) then Some FUNCTION_CBRT
  else None.

(** The operators that are not a concatenation. *)
Definition binary_other (op lhs rhs : tree) : result tree :=
  if bool_decide (t_token op ∈ bitwise_operators)
  then bitwise is_hexdigit hexdigit_to_number op lhs rhs
  else match_regex op lhs rhs.

Definition regex_operators : list Z := [TOKEN_REGULAR_EXPRESSION; TOKEN_UNMATCHED_REGULAR_EXPRESSION].

(** [l] is the location of the whole expression. *)
Definition other_turn (l : location) (a : tree * expr_state) : result (tree * expr_state + tree * expr_state) :=
  let '(lhs, s) := a in
  if bool_decide (current s ∈ bitwise_operators) || bool_decide (current s ∈ regex_operators)
  then
    let op := f_node s in
    let! s := next_token s in
    let! '(rhs, s) := parse EXPR_ADDITIVE s in
    let! n := binary_other op lhs rhs in
    Ok (inl (n, s))
  else if is_token s TOKEN_STRING_CONCAT
  then
    let! '(params, s) := concatenation (node1 TOKEN_LIST l lhs) s in
    let! n :=
      if (get_children_size params =? 1)%nat then get_child params 0
      else function_call is_hexdigit hexdigit_to_number l FUNCTION_CONCAT params in
    Ok (inl (n, s))
  else Ok (inr (lhs, s)).

Definition parse_expr_other (s : expr_state) : result (tree * expr_state) :=
  let l := here s in
  match prefix_function (current s) with
  | Some func =>
      let! s := next_token s in
      let! '(n, s) := parse EXPR_OTHER s in
      let! n := function_call is_hexdigit hexdigit_to_number l func n in
      Ok (n, s)
  | None =>
      let! a := parse EXPR_ADDITIVE s in while_loop fuel (other_turn l) a
  end.

Definition parse_expr_additive : expr_state -> result (tree * expr_state) :=
  left_associative EXPR_MULTIPLICATIVE (fun s => bool_decide (current s ∈ [TOKEN_PLUS; TOKEN_MINUS]))
    (additive is_hexdigit hexdigit_to_number).

Definition parse_expr_multiplicative : expr_state -> result (tree * expr_state) :=
  left_associative EXPR_EXPONENTIATION (fun s => bool_decide (current s ∈ [TOKEN_MULTIPLY; TOKEN_DIVIDE; TOKEN_MODULO]))
    (multiplicative is_hexdigit hexdigit_to_number).

Definition parse_expr_exponentiation : expr_state -> result (tree * expr_state) :=
  left_associative EXPR_UNARY (fun s => is_token s TOKEN_POWER) (power is_hexdigit hexdigit_to_number).

Definition sign_turn (a : bool * option tree * expr_state) : result (bool * option tree * expr_state + bool * option tree * expr_state) :=
  let '(convert, negate, s) := a in
  if is_token s TOKEN_PLUS then let! s := next_token s in Ok (inl (true, negate, s))
  else if is_token s TOKEN_MINUS then
    let negate := match negate with None => Some (f_node s) | Some _ => None end in
    let! s := next_token s in Ok (inl (true, negate, s))
  else Ok (inr (convert, negate, s)).

Definition parse_expr_unary (s : expr_state) : result (tree * expr_state) :=
  let! '(convert, negate, s) := while_loop fuel sign_turn (false, None, s) in
  let! '(n, s) := parse EXPR_POSTFIX s in
  if convert : bool then let! n := unary is_hexdigit hexdigit_to_number negate n in Ok (n, s) else Ok (n, s).

(** ** Postfix operators *)

(** The parameters between parentheses, the current token being the first one. *)
Definition parse_expr_function_parameters (count : option nat) (s : expr_state) : result (tree * expr_state) :=
  let! s := next_token s in
  let! '(params, s) :=
    if is_token s TOKEN_CLOSE_PARENTHESIS then Ok (make_node TOKEN_LIST (here s), s) else parse EXPR_LIST s in
  if negb (is_token s TOKEN_CLOSE_PARENTHESIS) then Throw invalid_token
  else if bool_decide (is_Some count) && negb (bool_decide (count = Some (get_children_size params))) then Throw invalid_parameter
  else let! s := next_token s in Ok (params, s).

Definition parse_expr_cast_value (cast_to : Z) (s : expr_state) : result (tree * expr_state) :=
  let l := here s in
  let has_parenthesis := is_token s TOKEN_OPEN_PARENTHESIS in
  let! s := if has_parenthesis then next_token s else Ok s in
  let! '(value, s) := parse EXPR_LOGICAL_OR s in
  let! s := if has_parenthesis then expect TOKEN_CLOSE_PARENTHESIS invalid_parameter s else Ok s in
  Ok (append_child (tree_set_integer (make_node TOKEN_CAST l) (int512_of_i64 cast_to)) value, s).

(** A function call: [name] is the identifier before the parenthesis. *)
Definition named_call (name : tree) (s : expr_state) : result (tree * expr_state) :=
  let loc := here s in
  let keyword := get_string_upper name in
  match assoc keyword functions with
  | None => Throw type_not_found
  | Some (func, count) =>
      let! '(params, s) := parse_expr_function_parameters count s in
      let! func :=
        match func with
        | FUNCTION_ATAN =>
            if (get_children_size params =? 1)%nat then Ok FUNCTION_ATAN
            else if (get_children_size params =? 2)%nat then Ok FUNCTION_ATAN2
            else Throw invalid_parameter
        | _ => Ok func
        end in
      let! n := function_call is_hexdigit hexdigit_to_number loc func params in
      Ok (n, s)
  end.

(** One postfix operator after [lhs]. *)
Definition field_access (found_all_fields : bool) (lhs : tree) (s : expr_state) : result (bool * tree * expr_state) :=
  if found_all_fields then Throw invalid_token
  else
    let n := append_child (f_node s) lhs in
    let! s := next_token s in
    if is_token s TOKEN_MULTIPLY
    then
      let n := append_child n (make_node TOKEN_ALL_FIELDS (here s)) in
      let! s := next_token s in Ok (true, n, s)
    else if is_token s TOKEN_IDENTIFIER
    then
      let n := append_child n (tree_set_string (f_node s) (get_string_lower (f_node s))) in
      let! s := next_token s in Ok (false, n, s)
    else Throw invalid_token.

Definition scope_cast (lhs : tree) (s : expr_state) : result (tree * expr_state) :=
  let! s := next_token s in
  if negb (is_token s TOKEN_IDENTIFIER) then Throw invalid_token
  else
    let! '(t, s) := parse EXPR_PRIMARY s in
    if decide (t_token t = TOKEN_TYPE)
    then Ok (append_child (tree_set_integer (make_node TOKEN_CAST (t_location t)) (t_integer t)) lhs, s)
    else Throw invalid_token.

Definition element_access (lhs : tree) (s : expr_state) : result (tree * expr_state) :=
  let n := node1 TOKEN_AT (here s) lhs in
  let! s := next_token s in
  let! '(index, s) := parse EXPR_LOGICAL_OR s in
  let! s := expect TOKEN_CLOSE_BRACKET invalid_token s in
  Ok (append_child n index, s).

Definition postfix_turn (a : bool * tree * expr_state) : result (bool * tree * expr_state + tree * expr_state) :=
  let '(found_all_fields, n, s) := a in
  if decide (t_token n = TOKEN_TYPE) then
    let! '(n, s) := parse_expr_cast_value (signed 64 (if_value (t_integer n) !!! 0%nat)) s in
    let! _ := to_as2js n in  (* the message of a warning *)
    Ok (inl (found_all_fields, after_to_as2js n, s))
  else if is_token s TOKEN_PERIOD then
    let! a := field_access found_all_fields n s in Ok (inl a)
  else if is_token s TOKEN_SCOPE then
    let! '(n, s) := scope_cast n s in Ok (inl (found_all_fields, n, s))
  else if is_token s TOKEN_OPEN_BRACKET then
    let! '(n, s) := element_access n s in Ok (inl (found_all_fields, n, s))
  else if is_token s TOKEN_OPEN_PARENTHESIS then
    if decide (t_token n = TOKEN_IDENTIFIER)
    then let! '(n, s) := named_call n s in Ok (inl (found_all_fields, n, s))
    else Throw invalid_token
  else Ok (inr (n, s)).

Definition parse_expr_postfix (s : expr_state) : result (tree * expr_state) :=
  let! '(n, s) := parse EXPR_PRIMARY s in while_loop fuel postfix_turn (false, n, s).

(** ** Primary expressions *)

(** A string and those that follow it. *)
Definition string_turn (a : tree * expr_state) : result (tree * expr_state + tree * expr_state) :=
  let '(n, s) := a in
  if is_token s TOKEN_STRING
  then
    let n := tree_set_string n (t_string n ++ t_string (f_node s)) in
    let! s := next_token s in Ok (inl (n, s))
  else Ok (inr (n, s)).

Definition parse_strings (s : expr_state) : result (tree * expr_state) :=
  let n := f_node s in
  let! s := next_token s in while_loop fuel string_turn (n, s).

Definition create_type_node (l : location) (type : type_t) (s : expr_state) : result (tree * expr_state) :=
  let t := tree_set_integer (make_node TOKEN_TYPE l) (int512_of_i64 (type_number type)) in
  let! s := next_token s in Ok (t, s).

(** An identifier: the name of a type, a constant, or of anything else. *)
Definition parse_word (s : expr_state) : result (tree * expr_state) :=
  let l := here s in
  let keyword := get_string_lower (f_node s) in
  match assoc keyword type_names with
  | Some type => create_type_node l type s
  | None =>
      if decide (keyword = (str: "double")) then
        let! s := next_token s in
        if is_keyword s (str: "PRECISION") then create_type_node l TYPE_FLOAT8 s else Throw invalid_token
      else if decide (keyword = (str: "unsigned")) then
        let! s := next_token s in
        if negb (is_token s TOKEN_IDENTIFIER) then Throw invalid_token
        else
          match assoc (get_string_upper (f_node s)) unsigned_type_names with
          | Some type => create_type_node l type s
          | None => Throw invalid_token
          end
      else if decide (keyword = (str: "false")) then let! s := next_token s in Ok (make_node TOKEN_FALSE l, s)
      else if decide (keyword = (str: "null")) then let! s := next_token s in Ok (make_node TOKEN_NULL l, s)
      else if decide (keyword = (str: "true")) then let! s := next_token s in Ok (make_node TOKEN_TRUE l, s)
      else
        let n := tree_set_string (f_node s) keyword in
        let! s := next_token s in Ok (n, s)
  end.

Definition parse_expr_primary (s : expr_state) : result (tree * expr_state) :=
  if is_token s TOKEN_STRING then parse_strings s
  else if is_token s TOKEN_IDENTIFIER then parse_word s
  else if is_token s TOKEN_FLOATING_POINT || is_token s TOKEN_INTEGER then
    let n := f_node s in
    let! s := next_token s in Ok (n, s)
  else if is_token s TOKEN_MULTIPLY then
    let n := make_node TOKEN_ALL_FIELDS (here s) in
    let! s := next_token s in Ok (n, s)
  else if is_token s TOKEN_OPEN_PARENTHESIS then
    let! s := next_token s in
    let! '(n, s) := parse EXPR_LOGICAL_OR s in
    let! s := expect TOKEN_CLOSE_PARENTHESIS invalid_token s in
    Ok (n, s)
  else Throw invalid_token.

Definition parse_level (lv : level) : expr_state -> result (tree * expr_state) :=
  match lv with
  | EXPR_LIST => parse_expr_list
  | EXPR_LOGICAL_OR => parse_expr_logical_or
  | EXPR_LOGICAL_AND => parse_expr_logical_and
  | EXPR_LOGICAL_NOT => parse_expr_logical_not
  | EXPR_IS => parse_expr_is
  | EXPR_COMPARISON => parse_expr_comparison
  | EXPR_MATCHING => parse_expr_matching
  | EXPR_OTHER => parse_expr_other
  | EXPR_ADDITIVE => parse_expr_additive
  | EXPR_MULTIPLICATIVE => parse_expr_multiplicative
  | EXPR_EXPONENTIATION => parse_expr_exponentiation
  | EXPR_UNARY => parse_expr_unary
  | EXPR_POSTFIX => parse_expr_postfix
  | EXPR_PRIMARY => parse_expr_primary
  end.
End Levels.

Fixpoint parse_expr (fuel : nat) (lv : level) (s : expr_state) : result (tree * expr_state) :=
  match fuel with
  | O => Throw fuel_exhausted
  | S fuel => parse_level fuel (parse_expr fuel) lv s
  end.

(** [parser::parse_expression()]: the script and the token after the expression. *)
Definition parse_expression (fuel : nat) (s : expr_state) : result (list Z * expr_state) :=
  let! '(tree, s) := parse_expr fuel EXPR_LOGICAL_OR s in
  let! result := to_as2js tree in
  Ok (result, s).
End Expression.
Arguments expr_state F : clear implicits.
