(* ===== verification/ExprDemo.v ===== *)
(** * Concrete libraries for the expressions

    An instance of [Libraries] to evaluate the parser with: strings in ASCII and
    floating point numbers that are integers.  The examples show what the code does
    with a few expressions. *)

From S2P Require Import Prelude Limbs BigLoops Uint512 Int512 BigText Input LongDouble Lexer LexerTotal SortedMap Nodes Functions As2js Expression.

Definition ascii_upper (s : list Z) : list Z := (fun c => if decide ((chr: "a") <= c <= (chr: "z")) then c - 32 else c) <$> s.
Definition ascii_lower (s : list Z) : list Z := (fun c => if decide ((chr: "A") <= c <= (chr: "Z")) then c + 32 else c) <$> s.
Definition ascii_space (c : Z) : bool := bool_decide (c ∈ [(chr: " "); HT; LF; VT; FF; CR]).
Definition ascii_trim (s : list Z) : list Z := rev (span ascii_space (rev (span ascii_space s).2)).2.

(** Each character that a pair starts with is replaced. *)
Definition replace_characters (s : list Z) (pairs : list (list Z * list Z)) : list Z :=
  concat ((fun c => default [c] (assoc [c] pairs)) <$> s).

Definition escape_regex (s : list Z) : list Z :=
  concat ((fun c => if decide (c ∈ (str: "$()*+./?[^]{|}")) then [BACKSLASH; c] else [c]) <$> s).

Definition integer_of_text (s : list Z) : option Z :=
  match s with
  | [] => None
  | c :: rest =>
      let digits := if decide (c = (chr: "-")) then rest else s in
      if decide (digits <> [] /\ forallb is_decimal digits = true)
      then Some (if decide (c = (chr: "-")) then - decimal_value digits else decimal_value digits)
      else None
  end.

#[export] Instance demo_libraries : Libraries Z := {|
  to_upper := ascii_upper;
  to_lower := ascii_lower;
  trim_string := ascii_trim;
  string_replace_many := replace_characters;
  escape_special_regex_characters := escape_regex;
  floating_point_to_string := fun d => match int512_to_string (int512_of_i64 d) 10 false false with Ok s => s | Throw _ => [] end;
  snapdev_pow := fun a b => a ^ b;
  regex_match := fun _ pattern value => Ok (bool_decide (pattern = value));
  f_zero := 0;
  f_infinity := 2 ^ 16384;
  f_of_long_double := fun d => Z.shiftl (ld_significand d) (ld_exponent d);
  f_of_extended := fun '(_, significand) => significand;
  f_to_int64 := fun d => if decide (- 2 ^ 63 <= d < 2 ^ 63) then Some d else None;
  f_neg := Z.opp;
  f_add := Z.add;
  f_sub := Z.sub;
  f_mul := Z.mul;
  f_div := Z.quot;
  f_mod := Z.rem;
  f_ltb := Z.ltb;
  f_leb := Z.leb;
  f_eqb := Z.eqb;
  libm := fun _ d => d;
  libm2 := fun _ a b => a;
  text_to_floating_point := integer_of_text;
|}.

(** The script of an expression. *)
Definition demo_state (s : list Z) : result (expr_state Z) :=
  next_token example_eos ascii_is_hexdigit ascii_hexdigit_to_number example_to_u8string
    (ExprState (Some (input_init s [])) (make_node TOKEN_EOF (Location [] 1 1))).

Definition demo_script (s : list Z) : result (list Z) :=
  let! st := demo_state s in
  let! '(r, _) := parse_expression example_eos ascii_is_hexdigit ascii_hexdigit_to_number example_to_u8string 200 st in
  Ok r.

Example script_1 : demo_script (str: "1 + 2 * 3 - 10") = Ok (str: "-3").
Proof. vm_compute. reflexivity. Qed.

Example script_2 : demo_script (str: "not a and b between 1 and 2+3 or c is null") = Ok (str: "!a&&(_t1=b,_t1>=1&&_t1<=5)||c==null").
Proof. vm_compute. reflexivity. Qed.

Example script_3 : demo_script (str: "ABS(-x) + x::unsigned int") = Ok (str: "Math.abs(x)+new Integer(x)").
Proof. vm_compute. reflexivity. Qed.

(** The parentheses are not written, except around a power: this script computes
    another value than the expression. *)
Example parentheses_are_lost : demo_script (str: "(a + b) * c") = Ok (str: "a+b*c").
Proof. vm_compute. reflexivity. Qed.

(** Every BETWEEN uses the same variable. *)
Example between_variables : demo_script (str: "a between (b between c and d) and e") =
  Ok (str: "(_t1=a,_t1>=(_t1=b,_t1>=c&&_t1<=d)&&_t1<=e)").
Proof. vm_compute. reflexivity. Qed.

(** The message of a warning of the casts writes a script too, which counts. *)
Example cast_variable : demo_script (str: "int(a between b and c)") = Ok (str: "new Integer((_t2=a,_t2>=b&&_t2<=c))").
Proof. vm_compute. reflexivity. Qed.

(** A number is compared with a Boolean by its token, which is not TRUE. *)
Example one_is_not_true : demo_script (str: "1 = true") = Ok (str: "false") /\ demo_script (str: "1 and true") = Ok (str: "true").
Proof. vm_compute. done. Qed.

(** The type INT1 is read as INT4, and UNSIGNED INT as UNSIGNED INT8. *)
Example misread_types : assoc (str: "int1") type_names = Some TYPE_INT4 /\ assoc (str: "INT4") unsigned_type_names = Some TYPE_UNSIGNED_INT8.
Proof. done. Qed.
