(* ===== verification/LexerTypes.v ===== *)
(** * The integers of the tokens

    Whatever the script, the integer of a token is a well-formed [int512_t]. *)

From S2P Require Import Prelude Limbs BigLoops Uint512 Int512 BigText Input LongDouble Lexer LexerTotal.

(** What holds of a result that is not an exception. *)
Definition if_ok {A} (r : result A) (P : A -> Prop) : Prop := match r with Ok a => P a | Throw _ => True end.

Lemma if_ok_bind {A B} (r : result A) (k : A -> result B) P Q : if_ok r P -> (forall a, P a -> if_ok (k a) Q) -> if_ok (result_bind r k) Q.
Proof. destruct r; cbn; auto. Qed.

Lemma if_ok_any {A} (r : result A) : if_ok r (fun _ => True).
Proof. by destruct r. Qed.

(** A bind whose first part is of no interest. *)
Lemma if_ok_skip {A B} (r : result A) (k : A -> result B) Q : (forall a, if_ok (k a) Q) -> if_ok (result_bind r k) Q.
Proof. intros H. apply (if_ok_bind r k (fun _ => True)); [apply if_ok_any|auto]. Qed.

Section LexerTypes.
Context (EOS : Z) (is_hexdigit : Z -> bool) (hexdigit_to_number : Z -> Z) (to_u8string : Z -> result (list Z)).
Context {laws : HexdigitLaws is_hexdigit hexdigit_to_number}.

Definition value_wf (r : uint512_t * input) : Prop := uint512_wf (fst r).
Definition token_wf (n : node) : Prop := int512_wf (f_integer n).
Definition step_wf (r : step) : Prop := match r with Token n _ => token_wf n | Skip _ => True end.

(** One digit more. *)
Lemma next_value_wf v base : uint512_wf v -> uword 64 base -> if_ok (uint512_mul_assign_u64 v base) uint512_wf.
Proof.
  intros Hv Hb. unfold uint512_mul_assign_u64.
  by destruct (uint512_mul_assign_value v (uint512_of_u64 base) Hv) as (r & -> & Hr & _); [apply uint512_of_u64_wf|].
Qed.

Lemma number_end_wf q f v c i : uint512_wf v -> if_ok (number_end EOS q f v c i) value_wf.
Proof.
  intros Hv. unfold number_end. destruct q.
  - destruct (decide _); [done|]. by destruct f.
  - apply if_ok_skip. intros ?. by destruct f.
Qed.

Lemma add_digit_wf v d : uint512_wf v -> uword 64 d -> uint512_wf (uint512_add_assign_u64 v d).
Proof. intros. by apply uint512_add_u64_value. Qed.

Ltac digit IH :=
  eapply if_ok_bind; [apply next_value_wf; [eassumption|unfold uword; lia]|];
  cbn beta; intros ? ?; apply IH; auto using add_digit_wf with word.

Lemma binary_wf fuel q f v i : uint512_wf v -> if_ok (parse_binary_number EOS fuel q f v i) value_wf.
Proof.
  revert f v i. induction fuel as [|fuel IH]; intros f v i Hv; [done|]. cbn [parse_binary_number].
  destruct (getc EOS i) as [c i']. destruct (decide _); [digit IH|]. destruct (decide _); [digit IH|].
  destruct (decide _); [done|]. by apply number_end_wf.
Qed.

Lemma hexadecimal_wf fuel q f v i : uint512_wf v -> if_ok (parse_hexadecimal_number EOS is_hexdigit hexdigit_to_number fuel q f v i) value_wf.
Proof.
  revert f v i. induction fuel as [|fuel IH]; intros f v i Hv; [done|]. cbn [parse_hexadecimal_number].
  destruct (getc EOS i) as [c i']. destruct (is_hexdigit c); [digit IH|]. by apply number_end_wf.
Qed.

Lemma octal_wf fuel q f v i : uint512_wf v -> if_ok (parse_octal_number EOS fuel q f v i) value_wf.
Proof.
  revert f v i. induction fuel as [|fuel IH]; intros f v i Hv; [done|]. cbn [parse_octal_number].
  destruct (getc EOS i) as [c i']. destruct (is_octal c); [digit IH|]. destruct (decide _); [done|]. by apply number_end_wf.
Qed.

Lemma decimal_wf fuel v i : uint512_wf v -> if_ok (decimal_loop EOS fuel v i) (fun '(v, _, _) => uint512_wf v).
Proof.
  revert v i. induction fuel as [|fuel IH]; intros v i Hv; [done|]. cbn [decimal_loop].
  destruct (getc EOS i) as [c i']. destruct (is_decimal c); [digit IH|]. done.
Qed.

(** The nodes. *)
Lemma new_node_wf t l : if_ok (new_node t l) token_wf.
Proof. unfold new_node. destruct (valid_token t); [|done]. apply int512_zero_wf. Qed.

Lemma token_step_wf t l i : if_ok (token t l i) step_wf.
Proof. unfold token. eapply if_ok_bind; [apply new_node_wf|done]. Qed.

Lemma integer_token_wf l r : if_ok r value_wf -> if_ok (integer_token l r) step_wf.
Proof.
  intros Hr. unfold integer_token. eapply if_ok_bind; [exact Hr|]. intros [v i] Hv.
  apply if_ok_skip. intros n. by apply int512_of_uint512_wf.
Qed.

Lemma string_token_wf l r : if_ok (string_token l r) step_wf.
Proof. unfold string_token. apply if_ok_skip. intros [s i]. eapply if_ok_bind; [apply new_node_wf|done]. Qed.

Lemma floating_point_wf fuel l v i : if_ok (parse_floating_point EOS fuel l v i) step_wf.
Proof.
  unfold parse_floating_point. apply if_ok_skip. intros number. destruct (getc EOS i) as [c i1].
  apply if_ok_skip. intros [[? ?] ?]. apply if_ok_skip. intros [[? ?] ?]. apply if_ok_skip. intros ?.
  eapply if_ok_bind; [apply new_node_wf|]. intros n Hn. by destruct (strtold _).
Qed.

Lemma decimal_number_wf fuel l c i : is_decimal c = true -> if_ok (parse_decimal_number EOS fuel l c i) step_wf.
Proof.
  intros Hc%bool_decide_eq_true. unfold parse_decimal_number.
  eapply if_ok_bind; [apply decimal_wf, uint512_of_u64_wf; unfold uword; lia|]. intros [[v d] i'] Hv.
  destruct (decide _); [apply floating_point_wf|]. apply if_ok_skip. intros ?. apply if_ok_skip. intros m.
  by apply int512_of_uint512_wf.
Qed.

Lemma number_wf fuel l c i : is_decimal c = true -> if_ok (parse_number EOS is_hexdigit hexdigit_to_number fuel l c i) step_wf.
Proof.
  intros Hc. pose proof uint512_zero_wf. unfold parse_number. destruct (decide _); [|by apply decimal_number_wf].
  destruct (getc EOS i) as [d i1]. destruct (is_either _ _ d); [by apply integer_token_wf, binary_wf|].
  destruct (is_either _ _ d); [by apply integer_token_wf, hexadecimal_wf|].
  destruct (is_either _ _ d); [by apply integer_token_wf, octal_wf|]. apply if_ok_skip. intros ?. by apply decimal_number_wf.
Qed.

Lemma identifier_wf fuel l c i : if_ok (parse_identifier EOS to_u8string fuel l c i) step_wf.
Proof.
  unfold parse_identifier. destruct (is_letter c); [|by apply if_ok_skip].
  apply if_ok_skip. intros [[? ?] ?]. apply if_ok_skip. intros ?. eapply if_ok_bind; [apply new_node_wf|done].
Qed.

Lemma other_wf fuel l c i : if_ok (parse_other EOS is_hexdigit hexdigit_to_number to_u8string fuel l c i) step_wf.
Proof.
  pose proof uint512_zero_wf. unfold parse_other. destruct (_ || _); [|apply identifier_wf].
  destruct (getc EOS i) as [d i1]. destruct (decide _); [|apply if_ok_skip; intros ?; apply identifier_wf].
  destruct (is_either _ _ c); [by apply integer_token_wf, binary_wf|].
  destruct (is_either _ _ c); [apply string_token_wf|].
  destruct (is_either _ _ c); [by apply integer_token_wf, octal_wf|by apply integer_token_wf, hexadecimal_wf].
Qed.

(** One turn of the lexer. *)
Ltac one_token :=
  lazymatch goal with
  | |- if_ok (token _ _ _) _ => apply token_step_wf
  | |- if_ok (short_token _ _ _ _ _) _ => apply if_ok_skip; intros ?; apply token_step_wf
  | |- if_ok (let! _ := _ in Ok (Skip _)) _ => by apply if_ok_skip
  | |- if_ok (let! _ := _ in Throw _) _ => by apply if_ok_skip
  | |- if_ok (Ok (Skip _)) _ => exact I
  | |- if_ok (string_token _ _) _ => apply string_token_wf
  | |- if_ok (parse_number _ _ _ _ _ _ _) _ => by apply number_wf
  | |- if_ok (parse_other _ _ _ _ _ _ _ _) _ => apply other_wf
  | |- if_ok (let '(_, _) := ?g in _) _ => destruct g; one_token
  | |- if_ok (if decide ?P then _ else _) _ => destruct (decide P); one_token
  | |- if_ok (if ?b then _ else _) _ => let E := fresh in destruct b eqn:E; one_token
  end.

Lemma lex_step_wf fuel i : if_ok (lex_step EOS is_hexdigit hexdigit_to_number to_u8string fuel i) step_wf.
Proof. unfold lex_step. cbv zeta. one_token. Qed.

Lemma token_loop_wf fuel i : if_ok (token_loop EOS is_hexdigit hexdigit_to_number to_u8string fuel i) (fun r => token_wf (fst r)).
Proof.
  revert i. induction fuel as [|fuel IH]; intros i; [done|]. cbn [token_loop].
  eapply if_ok_bind; [apply lex_step_wf|]. intros [n i'|i'] H; [exact H|apply IH].
Qed.

Lemma get_next_token_wf fuel lx : if_ok (get_next_token EOS is_hexdigit hexdigit_to_number to_u8string fuel lx) (fun r => token_wf (fst r)).
Proof.
  destruct lx as [i|]; [|done]. unfold get_next_token. eapply if_ok_bind; [apply token_loop_wf|]. by intros [n i'] H.
Qed.
End LexerTypes.
