(* ===== verification/IntegerTypes.v ===== *)
(** * The operators of int512_t keep its representation

    What the expressions rely on: each operator gives a well-formed number, or one
    of its two exceptions. *)

From S2P Require Import Prelude Limbs BigLoops Uint512 Int512 BigText.

Lemma lsr_words shift extra l r e : limbs l -> 0 < shift < 64 -> (exists t, extra = t * 2 ^ (64 - shift) /\ 0 <= t < 2 ^ shift) ->
  lsr_loop shift extra l = (r, e) -> limbs r /\ length r = length l.
Proof. intros Hl Hs (t & -> & Ht) Heq. destruct (lsr_loop_spec shift t l r e Hl Hs Ht Heq) as (? & ? & _). done. Qed.

(** What the words become when whole words are moved. *)
Lemma asr_moved w move fill : length w = 8%nat -> limbs w -> limb fill -> (move < 8)%nat ->
  let w' := if decide (0 < move)%nat
            then memset (if decide (move < 8)%nat then memmove w 0 move (8 - move) else w) (8 - move) fill move else w in
  length w' = 8%nat /\ limbs w'.
Proof.
  intros Hl Hw Hf Hm. cbv zeta. destruct (decide _); [|done]. rewrite decide_True by done.
  assert (length (memmove w 0 move (8 - move)) = 8%nat) as Hlen by (rewrite length_memmove; lia).
  split; [rewrite length_memset; lia|]. apply limbs_memset; [by apply limbs_memmove|done].
Qed.

Lemma int512_asr_wf v n : int512_wf v -> 0 <= n -> exists r, int512_asr v n = Ok r /\ int512_wf r.
Proof.
  intros Hv Hn. unfold int512_asr. rewrite decide_False by lia. destruct (decide (n >= 512)).
  { eexists. split; [done|]. destruct (int512_is_negative v); closed_decide. }
  destruct (decide (n = 0)); [by exists v|]. cbv zeta.
  assert (Z.to_nat (n / 64) < 8)%nat as Hm.
  { assert (n / 64 < 8) by (apply Z.div_lt_upper_bound; lia). assert (0 <= n / 64) by (apply Z.div_pos; lia). lia. }
  pose proof (int512_words_wf v Hv) as [Hl Hw].
  destruct (asr_moved (int512_words v) (Z.to_nat (n / 64)) (if int512_is_negative v then 2 ^ 64 - 1 else 0) Hl Hw) as [Hl' Hw'].
  { destruct (int512_is_negative v); done. }
  { done. }
  set (w := if decide (0 < Z.to_nat (n / 64))%nat then _ else _) in *.
  pose proof (Z.mod_pos_bound n 64 ltac:(lia)). destruct (decide (n mod 64 <> 0)); [|eexists; split; [done|by apply int512_of_words_wf]].
  destruct (decide (8 - Z.to_nat (n / 64) = 7)%nat).
  - eexists. split; [done|]. destruct (int512_of_words_wf w Hl' Hw') as (Hlen & Hlimbs & Hhigh). set (u := int512_of_words w) in *.
    destruct (lsr_loop _ _ _) as [r e0] eqn:E. apply lsr_words in E as [Hr Hrl]; [| |lia|].
    + unfold int512_wf; cbn [if_value if_high_value fst]. split_and!.
      * rewrite length_app, Hrl, length_take, length_drop. lia.
      * apply Forall_app_2; [done|by apply Forall_drop].
      * rewrite Z.shiftr_div_pow2 by lia. pose proof (pow2_pos (n mod 64) ltac:(lia)). apply Z.div_le_lower_bound; nia.
      * rewrite Z.shiftr_div_pow2 by lia. pose proof (pow2_pos (n mod 64) ltac:(lia)). apply Z.div_lt_upper_bound; nia.
    + by apply Forall_take.
    + exists (if_high_value u mod 2 ^ (n mod 64)). split; [|apply Z.mod_pos_bound, pow2_pos; lia].
      unfold wrap. rewrite Z.shiftl_mul_pow2 by lia. replace (2 ^ 64) with (2 ^ (n mod 64) * 2 ^ (64 - n mod 64)).
      * by rewrite Z.mul_mod_distr_r by (pose proof (pow2_pos (n mod 64)); pose proof (pow2_pos (64 - n mod 64)); lia).
      * rewrite <- Z.pow_add_r by lia. f_equal. lia.
  - eexists. split; [done|]. destruct (lsr_loop _ _ _) as [r e0] eqn:E. apply lsr_words in E as [Hr Hrl]; [|by apply Forall_take|lia|].
    + apply int512_of_words_wf; cbn [fst]; [rewrite length_app, Hrl, length_take, length_drop; lia|].
      apply Forall_app_2; [done|by apply Forall_drop].
    + exists 0. split; [done|]. split; [done|]. apply pow2_pos. lia.
Qed.

Lemma int512_div_cases v w : int512_wf v -> int512_wf w ->
  int512_div v w = Throw logic_error \/ int512_div v w = Throw invalid_number \/
  exists q r, int512_div v w = Ok (q, r) /\ int512_wf q /\ int512_wf r.
Proof.
  intros Hv Hw. destruct (decide (sval w = 0)) as [Hz|Hnz].
  { left. unfold int512_div. by rewrite (proj2 (int512_is_zero_value w Hw) Hz). }
  right. destruct (decide (sval v = - 2 ^ 511 \/ sval w = - 2 ^ 511)) as [Hmin|Hmin].
  - left. unfold int512_div.
    assert (int512_is_zero w = false) as -> by (apply not_true_iff_false; rewrite int512_is_zero_value by done; done).
    cbv zeta. change (if int512_is_negative v then int512_neg v else v) with (int512_magnitude_of v).
    change (if int512_is_negative w then int512_neg w else w) with (int512_magnitude_of w).
    destruct Hmin as [Hmin|Hmin].
    + by rewrite (proj2 (int512_magnitude_of_min v Hv) Hmin).
    + by rewrite (proj2 (int512_magnitude_of_min w Hw) Hmin), orb_true_r.
  - right. destruct (int512_uval_sval v Hv) as (Hb & _). destruct (int512_uval_sval w Hw) as (Hb' & _).
    destruct (int512_div_value v w Hv Hw Hnz ltac:(lia) ltac:(lia)) as (q & r & ? & ? & ? & _). by exists q, r.
Qed.

Lemma int512_to_string_10 i : int512_wf i -> exists s, int512_to_string i 10 false false = Ok s.
Proof.
  intros Hi. unfold int512_to_string. pose proof (uint512_of_int512_wf i Hi) as Hu. cbv zeta.
  assert (uint512_wf (if int512_is_negative i then uint512_neg (uint512_of_int512 i) else uint512_of_int512 i)) as Hwf.
  { destruct (int512_is_negative i); [|done]. by apply uint512_neg_value. }
  destruct (uint512_text_value _ 10 false false Hwf) as (s & -> & _); [by left|]. by eexists.
Qed.

Lemma int512_to_floating_point_ok i : exists words, int512_to_floating_point i = Ok words.
Proof.
  unfold int512_to_floating_point. destruct (int512_is_zero i); [by eexists|]. cbv zeta.
  destruct (decide (_ < 63)).
  - unfold int512_lsl. rewrite decide_False by lia. repeat (destruct (decide _)); by eexists.
  - destruct (decide (_ > 64)); [|by eexists]. unfold int512_asr. rewrite decide_False by lia.
    repeat (destruct (decide _)); by eexists.
Qed.

Lemma int512_of_i64_wf x : int512_wf (int512_of_i64 x).
Proof.
  unfold int512_of_i64. split_and!; [done| |cbn [if_high_value]; destruct (decide _); lia..].
  apply Forall_cons; split; [apply wrap_uword; lia|]. apply Forall_replicate. destruct (decide _); done.
Qed.
