(* ===== verification/ExprTypes.v ===== *)
(** * The trees of the expressions

    [operand] is the type of the trees the parser builds: a node has the children
    that its token needs.  Each semantic action gives such a tree for operands of
    that type, or one of the exceptions of [expr_error], and [to_as2js] has a
    script for each of them. *)

From S2P Require Import Prelude Limbs BigLoops Uint512 Int512 BigText Input LongDouble Lexer LexerTotal SortedMap.
From S2P Require Import Nodes Functions As2js Expression LexerTypes IntegerTypes.

(** ** The type of the trees *)

(** Tokens of nodes without children. *)
Definition leaf_tokens : list Z :=
  [TOKEN_IDENTIFIER; TOKEN_STRING; TOKEN_INTEGER; TOKEN_FLOATING_POINT; TOKEN_ALL_FIELDS; TOKEN_FALSE; TOKEN_NULL; TOKEN_TRUE].

Definition literal_tokens : list Z :=
  [TOKEN_STRING; TOKEN_INTEGER; TOKEN_FLOATING_POINT; TOKEN_NULL; TOKEN_TRUE; TOKEN_FALSE].

Definition unary_tokens : list Z := [TOKEN_MINUS; TOKEN_CAST; TOKEN_LOGICAL_NOT].

Definition binary_tokens : list Z :=
  (fst <$> infix_operators) ++
  [TOKEN_PLUS; TOKEN_MINUS; TOKEN_POWER; TOKEN_REGULAR_EXPRESSION; TOKEN_AT; TOKEN_ILIKE; TOKEN_LIKE].

(** How many parameters a function needs. *)
Definition needed (func : function_t) : nat :=
  match func with
  | FUNCTION_CONCAT | FUNCTION_RAND | FUNCTION_HYPOT | FUNCTION_MAX | FUNCTION_MIN => 0
  | FUNCTION_ATAN2 | FUNCTION_IMUL | FUNCTION_POW => 2
  | _ => 1
  end.

(** What a computation shows for each element of a list. *)
Lemma check_list {A} (P : A -> Prop) {dec : forall x, Decision (P x)} l x :
  forallb (fun x => bool_decide (P x)) l = true -> x ∈ l -> P x.
Proof. rewrite forallb_forall. intros H Hx%list_elem_of_In. apply (bool_decide_unpack _). rewrite H; done. Qed.

Section ExprTypes.
Context {F : Type} {libraries : Libraries F}.
Abbreviation tree := (Nodes.tree F).

(** The integer of a literal integer is well formed. *)
Definition integer_ok (t : tree) : Prop := t_token t = TOKEN_INTEGER -> int512_wf (t_integer t).

Inductive operand : tree -> Prop :=
  | operand_leaf t : t_token t ∈ leaf_tokens -> integer_ok t -> operand t
  | operand_unary t a : t_token t ∈ unary_tokens -> t_children t = [a] -> operand a -> operand t
  | operand_binary t a b rest : t_token t ∈ binary_tokens -> t_children t = a :: b :: rest ->
      (t_token t = TOKEN_PLUS -> rest = []) -> (t_token t = TOKEN_MINUS -> rest = []) -> operand a -> operand b -> operand t
  | operand_between t a b c : t_token t = TOKEN_BETWEEN -> t_children t = [a; b; c] ->
      operand a -> operand b -> operand c -> operand t
  | operand_call t params : t_token t = TOKEN_FUNCTION_CALL -> t_children t = [params] ->
      (forall p, p ∈ t_children params -> operand p) -> operand t.

(** Lists of parameters. *)
Definition operands (t : tree) : Prop := t_token t = TOKEN_LIST /\ forall p, p ∈ t_children t -> operand p.

(** A literal has a text. *)
Lemma string_of_literal t : t_token t ∈ literal_tokens -> integer_ok t -> exists s, get_string_auto_convert t = Ok s.
Proof.
  intros Ht Hi. unfold get_string_auto_convert. destruct (decide (t_token t = TOKEN_STRING)); [by eexists|].
  destruct (decide (t_token t = TOKEN_INTEGER)); [by apply int512_to_string_10, Hi|].
  repeat (destruct (decide _); [by eexists|]). exfalso. revert Ht. unfold literal_tokens. set_solver.
Qed.

Lemma is_literal_token t m : is_literal t m = true -> t_token t ∈ literal_tokens.
Proof.
  unfold is_literal. intros H. unfold literal_tokens. rewrite !elem_of_cons.
  repeat (destruct (decide _); [tauto|]). done.
Qed.

Lemma operand_integer t : operand t -> integer_ok t.
Proof.
  intros [u ? ?|u a Hu|u a b rest Hu|u a b c Hu|u params Hu]; [done|..]; intros Hi; exfalso; rewrite Hi in Hu; revert Hu.
  all: try done; apply (bool_decide_unpack (not _)); vm_compute; exact I.
Qed.

(** ** Scripts *)

(** A token that is not in a list, where a branch says which one it is. *)
Ltac wrong_token :=
  exfalso; subst; match goal with H : _ ∈ _ |- _ => revert H; apply (bool_decide_unpack (not _)); vm_compute; exact I end.

Lemma all_results_ok {A} (l : list (result A)) : (forall r, r ∈ l -> exists a, r = Ok a) -> exists a, all_results l = Ok a.
Proof.
  induction l as [|r l IH]; intros H; [by eexists|]. cbn.
  destruct (H r) as [a ->]; [by left|]. destruct IH as [b ->]; [intros; apply H; by right|]. by eexists.
Qed.

Lemma like_pattern_ok t text : operand t -> (exists s, text = Ok s) -> exists s, like_pattern t text = Ok s.
Proof.
  intros Ht [s ->]. unfold like_pattern. destruct (is_any_literal t) eqn:E; [|by eexists].
  apply is_literal_token in E. destruct (string_of_literal t E (operand_integer t Ht)) as [p ->]. by eexists.
Qed.

Lemma leaf_not_infix token : token ∈ leaf_tokens -> infix_operator token = None.
Proof. apply (check_list (fun token => infix_operator token = None)). done. Qed.

Lemma unary_not_infix token : token ∈ unary_tokens -> infix_operator token = None.
Proof. apply (check_list (fun token => infix_operator token = None)). done. Qed.

Lemma binary_not_infix token : token ∈ binary_tokens -> infix_operator token = None ->
  token ∈ [TOKEN_PLUS; TOKEN_MINUS; TOKEN_POWER; TOKEN_REGULAR_EXPRESSION; TOKEN_AT; TOKEN_ILIKE; TOKEN_LIKE].
Proof.
  apply (check_list (fun token => infix_operator token = None ->
    token ∈ [TOKEN_PLUS; TOKEN_MINUS; TOKEN_POWER; TOKEN_REGULAR_EXPRESSION; TOKEN_AT; TOKEN_ILIKE; TOKEN_LIKE])).
  done.
Qed.

(** The branches of [to_as2js] after the infix operators. *)
Ltac script_cases :=
  repeat (destruct (decide (_ = _)) as [Htoken|]; [first [by eexists|wrong_token|idtac]|]).

Ltac last_cases tokens :=
  destruct (decide (_ \/ _)) as [[?|?]|]; [wrong_token..|exfalso];
  match goal with H : _ ∈ tokens |- _ => unfold tokens in H; rewrite !elem_of_cons, elem_of_nil in H; tauto end.

(** Every operand has a script. *)
Lemma operand_recursive_script t : operand t -> exists s, recursive_to_as2js t = Ok s.
Proof.
  induction 1 as [t Ht Hi|t a Ht Hc Ha [sa Ea]|t a b rest Ht Hc Hp Hm Ha [sa Ea] Hb [sb Eb]
    |t a b c Ht Hc Ha [sa Ea] Hb [sb Eb] Hcc [sc Ec]|t params Ht Hc Hps IH];
    destruct t as [token l str i f counter children]; cbn [t_token t_children t_integer] in *; try subst children; cbn [recursive_to_as2js map].
  - rewrite leaf_not_infix by done. script_cases; [by apply int512_to_string_10, Hi|]. last_cases leaf_tokens.
  - rewrite unary_not_infix by done. rewrite Ea. script_cases. last_cases unary_tokens.
  - rewrite Ea, Eb. destruct (infix_operator token) eqn:E; [by eexists|]. apply binary_not_infix in Ht; [|done]. clear E.
    destruct (like_pattern_ok b (Ok sb) Hb) as [p Ep]; [by eexists|].
    assert (length (a :: b :: rest) = 2%nat \/ (token <> TOKEN_PLUS /\ token <> TOKEN_MINUS)) as Hlen.
    { destruct (decide (token = TOKEN_PLUS)) as [?|?]; [rewrite Hp; auto|]. destruct (decide (token = TOKEN_MINUS)); [rewrite Hm; auto|auto]. }
    script_cases; [rewrite decide_True by tauto; by eexists..| |]; (destruct (decide (_ \/ _)); [|exfalso; set_solver]); cbn; rewrite Ep; by eexists.
  - rewrite Ea, Eb, Ec. subst token. cbn. by eexists.
  - subst token. cbn. destruct params as [? ? ? ? ? ? ps]. cbn in IH.
    destruct (all_results_ok (map recursive_to_as2js ps)) as [texts ->]; [|cbn; by eexists].
    intros r (q & -> & Hq)%list_elem_of_fmap. by apply IH.
Qed.

(** The counters do not matter. *)
Lemma operand_set_temp_counter t n : operand t -> operand (tree_set_temp_counter t n).
Proof.
  intros H. destruct H as [t Ht Hi|t a Ht Hc Ha|t a b rest Ht Hc Hp Hm Ha Hb|t a b c Ht Hc Ha Hb Hcc|t params Ht Hc Hps].
  - by apply operand_leaf.
  - by apply (operand_unary _ a).
  - by apply (operand_binary _ a b rest).
  - by apply (operand_between _ a b c).
  - by apply (operand_call _ params).
Qed.

Lemma counted_token (t : tree) : t_token (counted t) = t_token t.
Proof. by destruct t. Qed.

Lemma counted_children (t : tree) : t_children (counted t) = map counted (t_children t).
Proof. by destruct t. Qed.

Lemma counted_integer (t : tree) : integer_ok t -> integer_ok (counted t).
Proof. by destruct t. Qed.

Lemma operand_counted t : operand t -> operand (counted t).
Proof.
  induction 1 as [t Ht Hi|t a Ht Hc Ha IHa|t a b rest Ht Hc Hp Hm Ha IHa Hb IHb|t a b c Ht Hc Ha IHa Hb IHb Hcc IHc|t params Ht Hc Hps IH].
  - apply operand_leaf; [by rewrite counted_token|by apply counted_integer].
  - apply (operand_unary _ (counted a)); [by rewrite counted_token|by rewrite counted_children, Hc|done].
  - apply (operand_binary _ (counted a) (counted b) (map counted rest)); rewrite ?counted_token; [done|by rewrite counted_children, Hc| | |done..].
    + intros E. by rewrite (Hp E).
    + intros E. by rewrite (Hm E).
  - apply (operand_between _ (counted a) (counted b) (counted c)); [by rewrite counted_token|by rewrite counted_children, Hc|done..].
  - apply (operand_call _ (counted params)); [by rewrite counted_token|by rewrite counted_children, Hc|].
    rewrite counted_children. intros p (q & -> & Hq)%list_elem_of_fmap. by apply IH.
Qed.

Lemma operand_after_to_as2js t : operand t -> operand (after_to_as2js t).
Proof. intros. by apply operand_counted, operand_set_temp_counter. Qed.

(** Every operand has a script. *)
Lemma operand_script t : operand t -> exists s, to_as2js t = Ok s.
Proof. intros. by apply operand_recursive_script, operand_set_temp_counter. Qed.

(** ** Exceptions *)

Context (to_u8string : Z -> result (list Z)).

(** The exceptions of the parser of expressions: its own, those of the encoder and
    of the regular expressions, and what a number that does not fit in 64 bits
    does when it is converted. *)
Definition expr_error (e : error) : Prop :=
  e ∈ [invalid_token; unexpected_token; invalid_number; invalid_parameter; logic_error; not_yet_implemented; type_not_found; out_of_range] \/
  (exists c, to_u8string c = Throw e) \/
  (exists insensitive pattern value, regex_match insensitive pattern value = Throw e) \/
  (e = undefined_behavior /\ exists d : F, f_to_int64 d = None).

Definition total {A} (r : result A) (Q : A -> Prop) : Prop := outcome expr_error r Q.

Lemma total_bind {A B} (r : result A) (k : A -> result B) P Q :
  total r P -> (forall a, P a -> total (k a) Q) -> total (result_bind r k) Q.
Proof. apply outcome_bind. Qed.

Lemma total_weaken {A} (r : result A) P Q : total r P -> (forall a, P a -> Q a) -> total r Q.
Proof. intros H. by apply (outcome_weaken expr_error). Qed.

Lemma total_throw {A} e (Q : A -> Prop) :
  e ∈ [invalid_token; unexpected_token; invalid_number; invalid_parameter; logic_error; not_yet_implemented; type_not_found; out_of_range] ->
  total (Throw e) Q.
Proof. intros. by left. Qed.

Lemma total_and {A} (r : result A) P Q : total r P -> if_ok r Q -> total r (fun a => P a /\ Q a).
Proof. destruct r; cbn; auto. Qed.

Ltac throw := apply total_throw, (bool_decide_unpack _); vm_compute; exact I.
Ltac bind L := eapply total_bind; [apply L; auto|cbn beta; intros].

(** The exceptions of the lexer are among those of the parser. *)
Lemma lex_error_expr e : lex_error to_u8string e -> expr_error e.
Proof.
  intros [H|H]; [|by right; left]. left. revert H. rewrite !elem_of_cons, elem_of_nil. tauto.
Qed.

(** ** Conversions *)

Lemma floating_point_of_total t : total (get_floating_point_auto_convert t) (fun _ => True).
Proof.
  unfold get_floating_point_auto_convert. destruct (decide _); [destruct (text_to_floating_point _); [done|throw]|].
  destruct (decide _); [done|]. destruct (decide _); [|throw].
  by destruct (int512_to_floating_point_ok (t_integer t)) as [words ->].
Qed.

Lemma string_of_total t : integer_ok t -> total (get_string_auto_convert t) (fun _ => True).
Proof.
  intros Hi. destruct (decide (t_token t ∈ literal_tokens)) as [Ht|Ht].
  { by destruct (string_of_literal t Ht Hi) as [s ->]. }
  unfold get_string_auto_convert.
  repeat (destruct (decide (t_token t = _)) as [E|]; [exfalso; apply Ht; rewrite E; closed_decide|]). throw.
Qed.

Lemma boolean_of_total t : total (get_boolean_auto_convert t) (fun _ => True).
Proof. unfold get_boolean_auto_convert. destruct (decide _); [destruct (boolean_text _); [done|throw]|]. repeat (destruct (decide _); [done|]). throw. Qed.

Lemma boolean_or_default_total t d : total (boolean_or_default t d) (fun _ => True).
Proof. unfold boolean_or_default. destruct (is_literal t TOKEN_BOOLEAN); [apply boolean_of_total|done]. Qed.

Context (is_hexdigit : Z -> bool) (hexdigit_to_number : Z -> Z).
Context {laws : HexdigitLaws is_hexdigit hexdigit_to_number}.
Abbreviation integer_of := (get_integer_auto_convert is_hexdigit hexdigit_to_number).

Lemma from_string_total s : total (int512_from_string is_hexdigit hexdigit_to_number s) int512_wf.
Proof.
  pose proof (int512_from_string_value is_hexdigit hexdigit_to_number s) as H. destruct (signed_literal_value s).
  - by destruct H as (r & -> & Hr & _).
  - rewrite H. throw.
Qed.

Lemma integer_of_total t : integer_ok t -> total (integer_of t) int512_wf.
Proof.
  intros Ht. unfold get_integer_auto_convert. destruct (decide (t_token t = TOKEN_STRING)).
  { destruct (decide _); [throw|apply from_string_total]. }
  destruct (decide (t_token t = TOKEN_INTEGER)); [by apply Ht|]. destruct (decide _); [|throw].
  destruct (f_to_int64 _) as [i|] eqn:E; [apply int512_of_i64_wf|]. right. right. right. eauto.
Qed.
End ExprTypes.
