(* ===== verification/ActionTypes.v ===== *)
(** * The types of the semantic actions

    Operands in, an operand out: each operator and each function of the
    expressions keeps the type [operand] of the trees. *)

From S2P Require Import Prelude Limbs BigLoops Uint512 Int512 BigText Input LongDouble Lexer LexerTotal SortedMap.
From S2P Require Import Nodes Functions As2js Expression LexerTypes IntegerTypes ExprTypes.

Section ActionTypes.
Context {F : Type} {libraries : Libraries F}.
Context (is_hexdigit : Z -> bool) (hexdigit_to_number : Z -> Z) (to_u8string : Z -> result (list Z)).
Context {laws : HexdigitLaws is_hexdigit hexdigit_to_number}.
Abbreviation tree := (Nodes.tree F).
Abbreviation integer_of := (get_integer_auto_convert is_hexdigit hexdigit_to_number).
Abbreviation total := (ExprTypes.total (F := F) to_u8string).

Ltac throw := apply total_throw, (bool_decide_unpack _); vm_compute; exact I.

(** ** Nodes *)

Lemma boolean_node_ok b l : operand (F := F) (boolean_node b l).
Proof. apply operand_leaf; [destruct b; closed_decide|]. by destruct b. Qed.

Lemma leaf_ok token l : token ∈ leaf_tokens -> token <> TOKEN_INTEGER -> operand (F := F) (make_node token l).
Proof. intros. by apply operand_leaf. Qed.

Lemma node1_ok token l (a : tree) : token ∈ unary_tokens -> operand a -> operand (node1 token l a).
Proof. intros. by eapply operand_unary. Qed.

Lemma node2_ok token l (a b : tree) : token ∈ binary_tokens -> operand a -> operand b -> operand (node2 token l a b).
Proof. intros. by eapply (operand_binary _ a b []). Qed.

(** The node of an operator receives its operands. *)
Lemma operator_ok (op a b : tree) : t_token op ∈ binary_tokens -> t_children op = [] -> operand a -> operand b ->
  operand (append_child (append_child op a) b).
Proof. intros ? Hc ? ?. eapply (operand_binary _ a b []); cbn; rewrite ?Hc; done. Qed.

Lemma integer_result_ok (lhs : tree) i : int512_wf i -> operand (integer_result lhs i).
Proof.
  intros Hi. unfold integer_result. assert (forall t : tree, t_token t = TOKEN_INTEGER -> operand (tree_set_integer t i)) as H.
  { intros t Ht. apply operand_leaf; [cbn [t_token tree_set_integer]; rewrite Ht; closed_decide|]. by intros _. }
  destruct (decide _); by apply H.
Qed.

Lemma floating_point_result_ok (lhs : tree) d : operand (floating_point_result lhs d).
Proof.
  unfold floating_point_result. assert (forall t : tree, t_token t = TOKEN_FLOATING_POINT -> operand (tree_set_floating_point t d)) as H.
  { intros t Ht. apply operand_leaf; [cbn [t_token tree_set_floating_point]; rewrite Ht; closed_decide|].
    unfold integer_ok. cbn [t_token tree_set_floating_point]. by rewrite Ht. }
  destruct (decide _); by apply H.
Qed.

Lemma tree_set_string_ok (t : tree) str : t_token t ∈ leaf_tokens -> t_token t <> TOKEN_INTEGER -> operand (tree_set_string t str).
Proof. intros. by apply operand_leaf. Qed.

Lemma integer_node_ok (n : tree) i : int512_wf i -> operand (integer_node_at n i).
Proof. intros. apply operand_leaf; [closed_decide|]. by intros _. Qed.

Lemma floating_point_node_ok (n : tree) d : operand (floating_point_node_at n d).
Proof. by apply operand_leaf; [closed_decide|]. Qed.

Lemma negate_node_ok negate (n : tree) : operand n -> operand (negate_node negate n).
Proof. intros. destruct negate; [|done]. apply node1_ok; [closed_decide|done]. Qed.

Lemma between_node_ok l (a b c : tree) : operand a -> operand b -> operand c ->
  operand (append_child (node2 TOKEN_BETWEEN l a b) c).
Proof. intros. by apply (operand_between _ a b c). Qed.

Lemma call_ok name l (params : tree) : operands params -> operand (call name l params).
Proof. intros [_ H]. by apply (operand_call _ params). Qed.

Hint Resolve boolean_node_ok node1_ok node2_ok operator_ok integer_result_ok floating_point_result_ok integer_node_ok
  floating_point_node_ok negate_node_ok between_node_ok call_ok operand_integer : expr.
Hint Extern 1 (_ ∈ _) => closed_decide : expr.

Ltac bind L := eapply total_bind; [apply L; eauto with expr|cbn beta; intros].
(** A part of the computation that only matters for its exceptions. *)
Ltac skip L := eapply (total_bind _ _ _ (fun _ => True)); [eapply total_weaken; [apply L; eauto with expr|done]|cbn beta; intros ? _].

(** ** Logical operators *)

Lemma logical_or_ok l (lhs rhs : tree) : operand lhs -> operand rhs -> total (logical_or l lhs rhs) operand.
Proof.
  intros. unfold logical_or. skip boolean_or_default_total. skip boolean_or_default_total. cbn.
  repeat (case_match; [by eauto with expr|]). done.
Qed.

Lemma logical_and_ok l (lhs rhs : tree) : operand lhs -> operand rhs -> total (logical_and l lhs rhs) operand.
Proof.
  intros. unfold logical_and. skip boolean_or_default_total. skip boolean_or_default_total. cbn.
  repeat (case_match; [by eauto with expr|]). done.
Qed.

Lemma logical_not_ok has odd l (n : tree) : operand n -> total (logical_not has odd l n) operand.
Proof.
  intros. unfold logical_not. destruct (decide _); [done|]. destruct (_ && _).
  { skip boolean_of_total. cbn. eauto with expr. }
  destruct odd; [cbn; eauto with expr|]. destruct has; cbn; eauto with expr.
Qed.

Lemma is_true_ok negate l (n : tree) : operand n -> operand (is_true negate l n).
Proof. intros. unfold is_true. destruct (is_any_literal n); [eauto with expr|]. destruct negate; eauto with expr. Qed.

Lemma is_false_ok negate l (n : tree) : operand n -> operand (is_false negate l n).
Proof. intros. unfold is_false. destruct (is_any_literal n); [eauto with expr|]. destruct negate; eauto with expr. Qed.

Lemma is_null_ok negate l (n : tree) : operand n -> operand (is_null negate l n).
Proof.
  intros. unfold is_null. destruct (is_any_literal n); [eauto with expr|].
  apply node2_ok; [destruct negate; closed_decide|done|by apply leaf_ok; [closed_decide|]].
Qed.

(** ** Comparisons, ranges and patterns *)

Lemma select_comparison_total op lt le eq gt ge ne : total (select_comparison op lt le eq gt ge ne) (fun _ => True).
Proof. unfold select_comparison. repeat (destruct (decide _); [done|]). throw. Qed.

Lemma compare_literals_total op (lhs rhs : tree) : operand lhs -> operand rhs ->
  total (compare_literals is_hexdigit hexdigit_to_number op lhs rhs) (fun _ => True).
Proof.
  intros. unfold compare_literals, compare_strings. destruct (_ && _).
  { skip integer_of_total. skip integer_of_total. apply select_comparison_total. }
  destruct (_ && _); [skip floating_point_of_total; skip floating_point_of_total; apply select_comparison_total|].
  destruct (_ && _); [apply select_comparison_total|]. skip string_of_total. skip string_of_total. apply select_comparison_total.
Qed.

Lemma comparison_ok (op lhs rhs : tree) : t_token op ∈ comparison_operators -> t_children op = [] -> operand lhs -> operand rhs ->
  total (comparison is_hexdigit hexdigit_to_number op lhs rhs) operand.
Proof.
  intros Hop. intros. unfold comparison. destruct (_ && _).
  - repeat (destruct (decide _); [done|]). skip compare_literals_total. cbn. eauto with expr.
  - cbn. apply operator_ok; [|done..]. revert Hop. apply (check_list (fun token => token ∈ binary_tokens)). done.
Qed.

Lemma between_literals_total (lhs rhs1 rhs2 : tree) : operand lhs -> operand rhs1 -> operand rhs2 ->
  total (between_literals is_hexdigit hexdigit_to_number lhs rhs1 rhs2) (fun r => r ∈ [TOKEN_TRUE; TOKEN_FALSE; TOKEN_NULL]).
Proof.
  intros. assert (forall b : bool, (if b then TOKEN_TRUE else TOKEN_FALSE) ∈ [TOKEN_TRUE; TOKEN_FALSE; TOKEN_NULL]) as Htruth by (intros []; closed_decide).
  unfold between_literals. cbv zeta.
  destruct (decide _); [skip string_of_total; skip string_of_total; apply Htruth|].
  destruct (decide _); [skip integer_of_total; skip integer_of_total; apply Htruth|].
  destruct (decide _); [skip floating_point_of_total; skip floating_point_of_total; apply Htruth|].
  destruct (decide _); [cbn; closed_decide|]. do 2 (destruct (decide _); [apply Htruth|]). throw.
Qed.

Lemma between_ok negate l (lhs rhs1 rhs2 : tree) : operand lhs -> operand rhs1 -> operand rhs2 ->
  total (between is_hexdigit hexdigit_to_number negate l lhs rhs1 rhs2) operand.
Proof.
  intros. unfold between. destruct (_ && _); [|cbn; eauto with expr]. bind between_literals_total. cbn.
  apply leaf_ok; set_unfold; destruct negate; repeat case_decide; intuition (subst; try done; auto).
Qed.

Lemma regex_match_total i p v : total (regex_match (F := F) i p v) (fun _ => True).
Proof. destruct (regex_match i p v) eqn:E; [done|]. right. right. left. eauto. Qed.

Lemma like_ok negate (n lhs rhs : tree) : t_token n = TOKEN_LIKE \/ t_token n = TOKEN_ILIKE -> t_children n = [] ->
  operand lhs -> operand rhs -> total (like negate n lhs rhs) operand.
Proof.
  intros Hn. intros. unfold like. destruct (_ && _).
  - skip string_of_total. skip string_of_total. skip regex_match_total. cbn. eauto with expr.
  - cbn. apply negate_node_ok, operator_ok; [|done..]. destruct Hn as [-> | ->]; closed_decide.
Qed.

Lemma match_regex_ok (op lhs rhs : tree) : t_token op ∈ regex_operators -> t_children op = [] -> operand lhs -> operand rhs ->
  total (match_regex op lhs rhs) operand.
Proof.
  intros Hop. intros. unfold match_regex. cbv zeta. destruct (_ && _).
  { skip string_of_total. skip string_of_total. skip regex_match_total. cbn. eauto with expr. }
  case_bool_decide as E; cbn; [eauto 6 with expr|]. apply operator_ok; [|done..].
  unfold regex_operators in Hop. rewrite !elem_of_cons, elem_of_nil in Hop. destruct Hop as [-> |[? | []]]; [closed_decide|done].
Qed.

(** ** Arithmetic *)

Lemma int512_lsl_total a n : int512_wf a -> total (int512_lsl a n) int512_wf.
Proof.
  intros Ha. destruct (decide (n < 0)); [unfold int512_lsl; rewrite decide_True by done; throw|].
  destruct (int512_lsl_value a n Ha) as (r & -> & Hr & _); [lia|done].
Qed.

Lemma int512_asr_total a n : int512_wf a -> total (int512_asr a n) int512_wf.
Proof.
  intros Ha. destruct (decide (n < 0)); [unfold int512_asr; rewrite decide_True by done; throw|].
  destruct (int512_asr_wf a n Ha) as (r & -> & Hr); [lia|done].
Qed.

Lemma int512_mul_total a b : int512_wf a -> int512_wf b -> total (int512_mul_assign a b) int512_wf.
Proof. intros Ha Hb. by destruct (int512_mul_assign_value a b Ha Hb) as (r & -> & Hr & _). Qed.

Lemma int512_div_total a b : int512_wf a -> int512_wf b -> total (int512_div a b) (fun '(q, r) => int512_wf q /\ int512_wf r).
Proof. intros Ha Hb. destruct (int512_div_cases a b Ha Hb) as [-> |[-> |(q & r & -> & ? & ?)]]; [throw|throw|done]. Qed.

Lemma bitwise_integers_total token a b : int512_wf a -> int512_wf b -> total (bitwise_integers token a b) int512_wf.
Proof.
  intros Ha Hb. unfold bitwise_integers. destruct (decide _); [by apply int512_and_value|].
  destruct (decide _); [by apply int512_or_value|]. destruct (decide _); [by apply int512_xor_value|].
  destruct (decide _); [by apply int512_lsl_total|]. destruct (decide _); [by apply int512_asr_total|]. throw.
Qed.

Lemma bitwise_ok (op lhs rhs : tree) : t_token op ∈ bitwise_operators -> t_children op = [] -> operand lhs -> operand rhs ->
  total (bitwise is_hexdigit hexdigit_to_number op lhs rhs) operand.
Proof.
  intros Hop. intros. unfold bitwise. destruct (_ && _).
  - bind integer_of_total. bind integer_of_total. bind bitwise_integers_total. cbn. eauto with expr.
  - apply operator_ok; [|done..]. revert Hop. apply (check_list (fun token => token ∈ binary_tokens)). done.
Qed.

Lemma on_numbers_ok on_integers on_floats (lhs rhs : tree) :
  (forall a b, int512_wf a -> int512_wf b -> total (on_integers a b) int512_wf) ->
  (forall a b, total (on_floats a b) (fun _ => True)) -> operand lhs -> operand rhs ->
  total (on_numbers is_hexdigit hexdigit_to_number on_integers on_floats lhs rhs) operand.
Proof.
  intros Hi Hf ? ?. unfold on_numbers. destruct (_ && _).
  - bind integer_of_total. bind integer_of_total. bind Hi. cbn. eauto with expr.
  - skip floating_point_of_total. skip floating_point_of_total. skip Hf. cbn. eauto with expr.
Qed.

Lemma additive_ok (op lhs rhs : tree) : t_token op ∈ [TOKEN_PLUS; TOKEN_MINUS] -> t_children op = [] -> operand lhs -> operand rhs ->
  total (additive is_hexdigit hexdigit_to_number op lhs rhs) operand.
Proof.
  intros Hop. intros. unfold additive. cbv zeta. destruct (_ && _).
  - apply on_numbers_ok; [intros a b Ha Hb|intros a b|done..].
    + destruct (decide _); [by apply int512_add_value|]. destruct (decide _); [by apply int512_sub_value|throw].
    + repeat (destruct (decide _); [done|]). throw.
  - destruct (_ || _); [throw|]. apply operator_ok; [|done..]. revert Hop. by apply (check_list (fun token => token ∈ binary_tokens)).
Qed.

Lemma multiplicative_ok (op lhs rhs : tree) : t_token op ∈ [TOKEN_MULTIPLY; TOKEN_DIVIDE; TOKEN_MODULO] -> t_children op = [] ->
  operand lhs -> operand rhs -> total (multiplicative is_hexdigit hexdigit_to_number op lhs rhs) operand.
Proof.
  intros Hop. intros. unfold multiplicative. destruct (_ && _).
  - apply on_numbers_ok; [intros a b Ha Hb|intros a b|done..].
    + destruct (decide _); [by apply int512_mul_total|].
      destruct (decide _); [unfold int512_quot; bind int512_div_total; by destruct_and?; case_match; tauto|].
      destruct (decide _); [unfold int512_mod; bind int512_div_total; by destruct_and?; case_match; tauto|throw].
    + repeat (destruct (decide _); [done|]). throw.
  - apply operator_ok; [|done..]. revert Hop. by apply (check_list (fun token => token ∈ binary_tokens)).
Qed.

Lemma power_ok (op lhs rhs : tree) : t_token op = TOKEN_POWER -> t_children op = [] -> operand lhs -> operand rhs ->
  total (power is_hexdigit hexdigit_to_number op lhs rhs) operand.
Proof.
  intros Hop. intros. unfold power. destruct (_ && _).
  - apply on_numbers_ok; [|done..]. intros. apply int512_of_i64_wf.
  - apply operator_ok; [|done..]. rewrite Hop. closed_decide.
Qed.

Lemma unary_ok negate (n : tree) : (forall minus, negate = Some minus -> t_token minus = TOKEN_MINUS /\ t_children minus = []) ->
  operand n -> total (unary is_hexdigit hexdigit_to_number negate n) operand.
Proof.
  intros Hm Hn. unfold unary. destruct (is_literal n TOKEN_INTEGER).
  { bind integer_of_total. apply integer_result_ok. destruct negate; [by apply int512_neg_value|done]. }
  destruct (is_literal n TOKEN_FLOATING_POINT); [skip floating_point_of_total; cbn; eauto with expr|].
  destruct (decide _); [throw|]. destruct negate as [minus|].
  - destruct (Hm minus) as [Ht Hc]; [done|]. apply (operand_unary _ n); cbn; [rewrite Ht; closed_decide|by rewrite Hc|done].
  - by apply (operand_unary _ n); [closed_decide|..].
Qed.

(** ** Concatenation *)

Lemma set_child_ok (params child : tree) n : operands params -> operand child -> (n < get_children_size params)%nat ->
  exists r, set_child params n child = Ok r /\ operands r /\ get_children_size r = get_children_size params.
Proof.
  intros [Hl Hp] Hc Hn. unfold set_child, get_children_size in *. rewrite decide_True by done. eexists. split; [done|].
  cbn [t_token t_children]. split; [split; [done|]|by rewrite length_insert].
  cbn [t_children]. revert Hp. rewrite <- !Forall_forall. intros. by apply Forall_insert.
Qed.


Lemma concat_operand_ok (params n : tree) : operands params -> operand n ->
  total (concat_operand params n) (fun params => operands params /\ (0 < get_children_size params)%nat).
Proof.
  intros [Hl Hp] Hn. unfold concat_operand.
  assert (operands (append_child params n) /\ (0 < get_children_size (append_child params n))%nat) as Happend.
  { unfold get_children_size. cbn [append_child t_children]. split_and!; [split; [done|]|rewrite length_app; cbn; lia].
    intros p [?| ->%list_elem_of_singleton]%elem_of_app; auto. }
  destruct (is_any_literal n && _) eqn:E; [|done]. apply andb_true_iff in E as [_ E%negb_true_iff%Nat.eqb_neq].
  unfold get_child. destruct (t_children params !! _) as [p|] eqn:Ep; [|throw]. cbn [result_bind].
  assert (operand p) as Hop by (by eapply Hp, list_elem_of_lookup_2).
  destruct (is_any_literal p); [|done]. skip string_of_total. skip string_of_total.
  match goal with |- context [set_child _ _ ?c] => destruct (set_child_ok params c (get_children_size params - 1)) as (r & -> & Hr & Hs) end;
    [done| |lia|split; [done|lia]].
  apply tree_set_string_ok; destruct (decide _) as [Es|]; rewrite ?Es; done || closed_decide.
Qed.

(** ** Function calls *)

(** A parameter that is there. *)
Lemma get_child_ok (params : tree) n : operands params -> (n < get_children_size params)%nat ->
  exists p, get_child params n = Ok p /\ operand p.
Proof.
  intros [_ Hp] Hn. destruct (lookup_lt_is_Some_2 (t_children params) n Hn) as [p Ep]. exists p.
  unfold get_child. rewrite Ep. split; [done|]. by eapply Hp, list_elem_of_lookup_2.
Qed.

Ltac child n :=
  match goal with Hp : operands ?params |- _ =>
    let p := fresh "p" in let Hop := fresh "Hop" in
    destruct (get_child_ok params n Hp ltac:(lia)) as (p & -> & Hop); cbn [result_bind]
  end.

Lemma minus_child (p : tree) : operand p -> t_token p = TOKEN_MINUS -> get_children_size p = 1%nat ->
  exists c, get_child p 0 = Ok c /\ operand c.
Proof.
  intros [u Hu ?|u a Hu Hc Ha|u a b rest Hu Hc|u a b c Hu Hc|u ps Hu Hc] Ht Hs; unfold get_children_size in Hs; try (rewrite Hc in Hs; done).
  - rewrite Ht in Hu. exfalso. revert Hu. apply (bool_decide_unpack (not _)). vm_compute. exact I.
  - unfold get_child. rewrite Hc. by exists a.
  - rewrite Ht in Hu. done.
Qed.

Lemma operand_not_list (p : tree) : operand p -> t_token p <> TOKEN_LIST.
Proof.
  intros [u Hu ?|u a Hu Hc Ha|u a b rest Hu Hc|u a b c Hu Hc|u ps Hu Hc] Ht; rewrite Ht in Hu; try done.
  all: revert Hu; apply (bool_decide_unpack (not _)); vm_compute; exact I.
Qed.

Lemma call_abs_ok l (params : tree) : operands params -> (1 <= get_children_size params)%nat ->
  total (call_abs is_hexdigit hexdigit_to_number l params) operand.
Proof.
  intros Hp Hs. unfold call_abs. child 0%nat. destruct (is_literal p _).
  { bind integer_of_total. apply integer_node_ok. unfold int512_abs. destruct (decide _); [by apply int512_neg_value|done]. }
  destruct (is_literal p _); [skip floating_point_of_total; cbn; eauto with expr|].
  destruct (decide _) as [[Ht Hl]|]; [|cbn; eauto with expr]. destruct (minus_child p Hop Ht Hl) as (c & -> & Hc). cbn [result_bind].
  destruct (set_child_ok params c 0) as (r & -> & Hr & _); [done..|]. cbn. eauto with expr.
Qed.

Lemma call_math_ok func l (params : tree) : operands params -> (1 <= get_children_size params)%nat -> total (call_math func l params) operand.
Proof.
  intros Hp Hs. unfold call_math. child 0%nat. destruct (is_literal p _); [skip floating_point_of_total|]; cbn; eauto with expr.
Qed.

Lemma call_rounding_ok func l (params : tree) : operands params -> (1 <= get_children_size params)%nat ->
  total (call_rounding is_hexdigit hexdigit_to_number func l params) operand.
Proof.
  intros Hp Hs. unfold call_rounding. child 0%nat. destruct (is_literal p _); [bind integer_of_total; cbn; eauto with expr|].
  destruct (is_literal p _); [skip floating_point_of_total|]; cbn; eauto with expr.
Qed.

Lemma integer_of_float_total (d : F) : total (integer_of_float d) int512_wf.
Proof. unfold integer_of_float. destruct (f_to_int64 d) eqn:E; [apply int512_of_i64_wf|]. right. right. right. eauto. Qed.

Lemma call_round_ok l (params : tree) : operands params -> (1 <= get_children_size params)%nat ->
  total (call_round is_hexdigit hexdigit_to_number l params) operand.
Proof.
  intros Hp Hs. unfold call_round. child 0%nat. destruct (is_literal p _); [bind integer_of_total; cbn; eauto with expr|].
  destruct (is_literal p _); [skip floating_point_of_total; bind integer_of_float_total|]; cbn; eauto with expr.
Qed.

Lemma call_sign_ok l (params : tree) : operands params -> (1 <= get_children_size params)%nat ->
  total (call_sign is_hexdigit hexdigit_to_number l params) operand.
Proof.
  intros Hp Hs. unfold call_sign. child 0%nat. destruct (is_literal p _).
  { bind integer_of_total. apply integer_node_ok. destruct (int512_is_zero _); [done|apply int512_of_i64_wf]. }
  destruct (is_literal p _); [skip floating_point_of_total; apply integer_node_ok, int512_of_i64_wf|cbn; eauto with expr].
Qed.

Lemma call_atan2_ok l (params : tree) : operands params -> (2 <= get_children_size params)%nat -> total (call_atan2 l params) operand.
Proof.
  intros Hp Hs. unfold call_atan2. child 0%nat. cbv zeta. destruct (is_literal p _); [|cbn; eauto with expr]. child 1%nat.
  destruct (is_literal p0 _); [skip floating_point_of_total; skip floating_point_of_total|]; cbn; eauto with expr.
Qed.

Lemma call_imul_ok l (params : tree) : operands params -> (2 <= get_children_size params)%nat ->
  total (call_imul is_hexdigit hexdigit_to_number l params) operand.
Proof.
  intros Hp Hs. unfold call_imul. child 0%nat. cbv zeta. destruct (is_literal p _); [|cbn; eauto with expr]. child 1%nat.
  destruct (is_literal p0 _); [|cbn; eauto with expr]. bind integer_of_total. bind integer_of_total. bind int512_mul_total. cbn. eauto with expr.
Qed.

Lemma call_pow_ok (params : tree) : operands params -> (2 <= get_children_size params)%nat ->
  total (call_pow is_hexdigit hexdigit_to_number params) operand.
Proof.
  intros Hp Hs. unfold call_pow. child 0%nat. child 1%nat. destruct (_ && _); [|cbn; eauto with expr]. destruct (_ && _).
  - bind integer_of_total. bind integer_of_total. apply integer_node_ok, int512_of_i64_wf.
  - skip floating_point_of_total. skip floating_point_of_total. cbn. eauto with expr.
Qed.

Lemma call_length_ok (params : tree) : operands params -> (1 <= get_children_size params)%nat -> total (call_length params) operand.
Proof.
  intros Hp Hs. unfold call_length. child 0%nat. destruct (is_any_literal p).
  - skip string_of_total. apply integer_node_ok, int512_of_i64_wf.
  - cbn. eapply operand_binary; [closed_decide|done|done|done|done|]. by apply tree_set_string_ok; [closed_decide|].
Qed.

Lemma sum_of_squares_total (l : list tree) (sum : F) : total (sum_of_squares l sum) (fun _ => True).
Proof. revert sum. induction l as [|p l IH]; intros sum; [done|]. cbn. skip floating_point_of_total. apply IH. Qed.

Lemma call_hypot_ok l (params : tree) : operands params -> total (call_hypot l params) operand.
Proof.
  intros Hp. unfold call_hypot. destruct (Nat.eqb_spec (get_children_size params) 0); [by apply leaf_ok; [closed_decide|]|].
  destruct (all_literals _ _); [child 0%nat; skip sum_of_squares_total|]; cbn; eauto with expr.
Qed.

Lemma best_total {A} (convert : tree -> result A) better (P : A -> Prop) l a :
  (forall p, p ∈ l -> total (convert p) P) -> P a -> total (best convert better l a) P.
Proof.
  revert a. induction l as [|p l IH]; intros a Hl Ha; [done|]. cbn. eapply total_bind; [apply Hl; by left|].
  intros b Hb. apply IH; [intros; apply Hl; by right|]. by destruct (better b a).
Qed.

Lemma call_extremum_ok max l (params : tree) : operands params -> total (call_extremum is_hexdigit hexdigit_to_number max l params) operand.
Proof.
  intros Hp. unfold call_extremum. cbv zeta. destruct (Nat.eqb_spec (get_children_size params) 0).
  { apply operand_leaf; [closed_decide|done]. }
  destruct (all_literals _ _); [|cbn; eauto with expr]. child 0%nat. destruct (all_literals _ _).
  - eapply total_bind; [apply (best_total _ _ int512_wf)|intros i Hi; by apply integer_node_ok].
    + intros q Hq. apply integer_of_total; [done|]. by apply operand_integer, Hp.
    + destruct max; closed_decide.
  - eapply (total_bind _ _ _ (fun _ => True)); [|cbn; eauto with expr]. apply best_total; [|done]. intros. apply floating_point_of_total.
Qed.

(** A function with enough parameters. *)
Lemma function_call_operands l func (params : tree) : operands params -> (needed func <= get_children_size params)%nat ->
  total (function_call is_hexdigit hexdigit_to_number l func params) operand.
Proof.
  intros Hp Hs. unfold function_call. rewrite decide_True by apply Hp.
  destruct func; cbn [needed] in Hs; auto using call_abs_ok, call_math_ok, call_rounding_ok, call_round_ok, call_sign_ok, call_atan2_ok,
    call_imul_ok, call_pow_ok, call_length_ok, call_hypot_ok, call_extremum_ok; cbn; eauto with expr.
Qed.

(** A function of one operand. *)
Lemma function_call_operand l func (n : tree) : operand n -> (needed func <= 1)%nat ->
  total (function_call is_hexdigit hexdigit_to_number l func n) operand.
Proof.
  intros Hn Hs. assert (t_token n <> TOKEN_LIST) as Hl by (by apply operand_not_list).
  assert (operands (node1 TOKEN_LIST (t_location n) n)) as Hw by (split; [done|]; by intros p ->%list_elem_of_singleton).
  pose proof (function_call_operands l func _ Hw Hs) as H. revert H. unfold function_call. rewrite decide_True by done.
  by rewrite decide_False by done.
Qed.
End ActionTypes.
