(* ===== verification/ExprTotal.v ===== *)
(** * The parser of expressions ends

    [left m s]: at most [m] characters or tokens are left.  A level of precedence
    of [rank] r ends within [14 * m + r + 1] calls: a call of a tighter level
    lowers the rank, and any other call comes after a token was read. *)

From S2P Require Import Prelude Limbs BigLoops Uint512 Int512 BigText Input LongDouble Lexer LexerTotal SortedMap.
From S2P Require Import Nodes Functions As2js Expression LexerTypes IntegerTypes ExprTypes ActionTypes.

Definition rank (lv : level) : nat :=
  match lv with
  | EXPR_LIST => 13 | EXPR_LOGICAL_OR => 12 | EXPR_LOGICAL_AND => 11 | EXPR_LOGICAL_NOT => 10 | EXPR_IS => 9
  | EXPR_COMPARISON => 8 | EXPR_MATCHING => 7 | EXPR_OTHER => 6 | EXPR_ADDITIVE => 5 | EXPR_MULTIPLICATIVE => 4
  | EXPR_EXPONENTIATION => 3 | EXPR_UNARY => 2 | EXPR_POSTFIX => 1 | EXPR_PRIMARY => 0
  end.

Section ExprTotal.
Context {F : Type} {libraries : Libraries F}.
Context (EOS : Z) (is_hexdigit : Z -> bool) (hexdigit_to_number : Z -> Z) (to_u8string : Z -> result (list Z)).
Context {eos : EndOfScript EOS} {laws : HexdigitLaws is_hexdigit hexdigit_to_number}.
Abbreviation tree := (Nodes.tree F).
Abbreviation state := (expr_state F).
Abbreviation total := (ExprTypes.total (F := F) to_u8string).
Abbreviation next_token := (Expression.next_token EOS is_hexdigit hexdigit_to_number to_u8string).

(** ** What is left of the script *)

Record left (m : nat) (s : state) : Prop := {
  left_input : exists i str, f_lexer s = Some i /\ gives EOS 1 i str /\
    (length str + (if decide (current s = TOKEN_EOF) then 0 else 1) <= m)%nat;
  left_children : t_children (f_node s) = [];
  left_integer : int512_wf (t_integer (f_node s));
}.

Lemma left_le m m' s : left m s -> (m <= m')%nat -> left m' s.
Proof. intros [(i & str & ? & ? & ?) ? ?] ?. split; [|done..]. exists i, str. split_and!; [done..|lia]. Qed.

Lemma left_positive m s : left m s -> current s <> TOKEN_EOF -> (0 < m)%nat.
Proof. intros [(i & str & ? & ? & Hl) _ _] Hs. rewrite decide_False in Hl by done. lia. Qed.

(** A token is read; at the end of the script, the end is read again. *)
Lemma next_token_left m s : left m s -> total (next_token s) (left (if decide (current s = TOKEN_EOF) then m else pred m)).
Proof.
  intros [(i & str & Hi & Hg & Hl) _ _]. unfold Expression.next_token. rewrite Hi. cbn [lexer_fuel].
  set (fuel := S (S (input_size i))).
  assert (S (length str) < fuel)%nat as Hf by (pose proof (stream_size EOS 1 i str Hg); lia).
  pose proof (token_loop_ends EOS is_hexdigit hexdigit_to_number to_u8string fuel i str Hg Hf) as Hloop.
  pose proof (get_next_token_wf EOS is_hexdigit hexdigit_to_number to_u8string fuel (Some i)) as Hwf. revert Hwf.
  unfold get_next_token. destruct (token_loop _ _ _ _ _ _) as [[n i']|e]; cbn in *; [|by intros; apply lex_error_expr].
  intros Hwf. split; [|done|exact Hwf]. exists i'. unfold current at 1. cbn.
  destruct Hloop as [(-> & Hn & Hi')|(t & Ht & _ & Hlt)].
  - exists []. rewrite decide_True by done. split_and!; [done..|cbn; lia].
  - exists t. split_and!; [done..|]. repeat destruct (decide _); destruct Hlt as [?|[? ->]]; cbn in *; lia.
Qed.

Lemma next_token_total m s : left m s -> current s <> TOKEN_EOF -> total (next_token s) (left (pred m)).
Proof. intros Hs%next_token_left Hc. by rewrite decide_False in Hs. Qed.

Lemma keyword_current (s : state) k : is_keyword s k = true -> current s <> TOKEN_EOF.
Proof. unfold is_keyword, is_token. intros [H%bool_decide_eq_true _]%andb_true_iff. by rewrite H. Qed.

Lemma token_current (s : state) token : is_token s token = true -> current s = token.
Proof. apply bool_decide_eq_true_1. Qed.

(** ** Results of the levels *)

Definition returns (m : nat) (P : tree -> Prop) (r : tree * state) : Prop := P (fst r) /\ (0 < m)%nat /\ left (pred m) (snd r).

(** What a level returns. *)
Definition shape (lv : level) (t : tree) : Prop :=
  match lv with
  | EXPR_LIST => operands t
  | EXPR_PRIMARY => operand t \/ t_token t = TOKEN_TYPE
  | _ => operand t
  end.

(** The levels within [bound] calls. *)
Definition parses (bound : nat) (parse : level -> state -> result (tree * state)) : Prop :=
  forall lv s m, left m s -> (14 * m + rank lv < bound)%nat -> total (parse lv s) (returns m (shape lv)).

Lemma while_loop_outcome {A B} E fuel (body : A -> result (A + B)) (I : nat -> A -> Prop) (Q : B -> Prop) a m :
  I m a -> (m < fuel)%nat ->
  (forall k a, (k <= m)%nat -> I k a ->
    outcome E (body a) (fun r => match r with inl a => (0 < k)%nat /\ I (pred k) a | inr b => Q b end)) ->
  outcome E (while_loop fuel body a) Q.
Proof.
  revert a m. induction fuel as [|fuel IH]; intros a m Ha Hf Hb; [lia|]. cbn [while_loop].
  eapply outcome_bind; [by apply Hb|]. cbn beta. intros [a'|b]; [|done]. intros [Hm Ha']. eapply IH; [done|lia|].
  intros k b Hk. apply Hb. lia.
Qed.

Lemma while_loop_total {A B} fuel (body : A -> result (A + B)) (I : nat -> A -> Prop) (Q : B -> Prop) a m :
  I m a -> (m < fuel)%nat ->
  (forall k a, (k <= m)%nat -> I k a ->
    total (body a) (fun r => match r with inl a => (0 < k)%nat /\ I (pred k) a | inr b => Q b end)) ->
  total (while_loop fuel body a) Q.
Proof. apply while_loop_outcome. Qed.

Section Levels.
Context (fuel : nat) (parse : level -> state -> result (tree * state)) (Hparse : parses fuel parse).

Ltac throw := apply total_throw, (bool_decide_unpack _); vm_compute; exact I.
Ltac bind L := eapply total_bind; [eapply L; eauto|cbn beta].

(** Left associative operators. *)
Lemma left_associative_total lv operand_lv operator apply s m :
  shape operand_lv = operand -> (rank operand_lv < rank lv)%nat ->
  (forall s, operator s = true -> current s <> TOKEN_EOF) ->
  (forall op lhs rhs k, left k op -> operator op = true -> operand lhs -> operand rhs -> total (apply (f_node op) lhs rhs) operand) ->
  left m s -> (14 * m + rank lv <= fuel)%nat ->
  total (left_associative EOS is_hexdigit hexdigit_to_number to_u8string fuel parse operand_lv operator apply s) (returns m operand).
Proof.
  intros Hshape Hrank Hop Happly Hs Hf. unfold left_associative. bind Hparse; [lia|]. intros [lhs s1]. rewrite Hshape. intros (Hl & Hm & Hs1).
  cbn [fst snd] in *.
  apply (while_loop_total _ _ (fun k '(lhs, s) => operand lhs /\ left k s) _ _ (pred m)); [done|lia|].
  intros k [lhs' s'] Hk [Hl' Hs']. unfold left_turn. destruct (operator s') eqn:E; [|cbn; split_and!; [done..|]; by apply (left_le k)].
  pose proof (left_positive k s' Hs' (Hop s' E)) as Hk0. bind next_token_total. intros s2 Hs2.
  bind Hparse; [lia|]. intros [rhs s3]. rewrite Hshape. intros (Hr & Hk1 & Hs3). cbn [fst snd] in *. bind Happly. intros n Hn.
  cbn. split_and!; [lia|done|]. apply (left_le _ _ _ Hs3). lia.
Qed.

Lemma token_not_eof (s : state) token : is_token s token = true -> token <> TOKEN_EOF -> current s <> TOKEN_EOF.
Proof. by intros ->%token_current. Qed.

Lemma among_not_eof (s : state) (tokens : list Z) : bool_decide (current s ∈ tokens) = true -> TOKEN_EOF ∉ tokens -> current s <> TOKEN_EOF.
Proof. intros H%bool_decide_eq_true_1 Hn E. by rewrite E in H. Qed.

Lemma optional_token (b : bool) k s : left k s -> (b = true -> current s <> TOKEN_EOF) ->
  total (if b then next_token s else Ok s) (left k).
Proof.
  intros Hs Hb. destruct b; [|done]. eapply total_weaken; [by apply next_token_total, Hb|]. intros. eapply left_le; [done|lia].
Qed.

Lemma expect_total token e k s : left k s -> token <> TOKEN_EOF ->
  e ∈ [invalid_token; invalid_parameter] -> total (expect EOS is_hexdigit hexdigit_to_number to_u8string token e s) (left k).
Proof.
  intros Hs Ht He. unfold expect. destruct (is_token s token) eqn:E.
  - eapply total_weaken; [eapply next_token_total; [done|by eapply token_not_eof]|]. intros. eapply left_le; [done|lia].
  - apply total_throw. set_solver.
Qed.

(** A level of a given shape, and the token after a test on the current one. *)
Ltac level :=
  eapply total_bind; [eapply Hparse; [eassumption|cbn [rank]; lia]|cbn beta];
  let n := fresh "n" in let s := fresh "s" in intros [n s] (? & ? & ?); cbn [fst snd shape] in *.
Ltac token s :=
  let s' := fresh "s" in let H := fresh in
  match goal with Hs : left ?k s |- _ =>
    assert (current s <> TOKEN_EOF) as H by first [by eapply keyword_current|by eapply token_not_eof];
    pose proof (left_positive k s Hs H);
    eapply total_bind; [eapply (next_token_total k s Hs H)|cbn beta; intros s' ?]
  end.
Ltac done_left := intros; cbn; unfold returns; cbn [fst snd]; split_and?; auto; try lia; try (eapply left_le; [eassumption|lia]).

Lemma list_total s m : left m s -> (14 * m + 13 <= fuel)%nat ->
  total (parse_expr_list EOS is_hexdigit hexdigit_to_number to_u8string fuel parse s) (returns m operands).
Proof.
  intros Hs Hf. unfold parse_expr_list.
  apply (while_loop_total _ _ (fun k '(list, s) => operands list /\ left k s) _ _ m); [split; [|done]|lia|].
  { split; [done|]. by intros p ?%elem_of_nil. }
  intros k [list s'] Hk [Hl Hs']. unfold list_turn. level. cbv zeta.
  assert (operands (append_child list n)) as Hl'.
  { destruct Hl as [Hl Hp]. split; [done|]. by intros p [?| ->%list_elem_of_singleton]%elem_of_app; auto. }
  destruct (is_token s0 TOKEN_COMMA) eqn:E; [|done_left]. token s0. done_left.
Qed.

Lemma logical_or_total s m : left m s -> (14 * m + 12 <= fuel)%nat ->
  total (parse_expr_logical_or EOS is_hexdigit hexdigit_to_number to_u8string fuel parse s) (returns m operand).
Proof.
  intros. apply (left_associative_total EXPR_LOGICAL_OR); auto using logical_or_ok. intros ?. apply keyword_current.
Qed.

Lemma logical_and_total s m : left m s -> (14 * m + 11 <= fuel)%nat ->
  total (parse_expr_logical_and EOS is_hexdigit hexdigit_to_number to_u8string fuel parse s) (returns m operand).
Proof.
  intros. apply (left_associative_total EXPR_LOGICAL_AND); auto using logical_and_ok. intros ?. apply keyword_current.
Qed.

Lemma logical_not_total s m : left m s -> (14 * m + 10 <= fuel)%nat ->
  total (parse_expr_logical_not EOS is_hexdigit hexdigit_to_number to_u8string fuel parse s) (returns m operand).
Proof.
  intros Hs Hf. unfold parse_expr_logical_not.
  eapply (total_bind _ _ _ (fun '(_, _, s) => left m s)).
  { apply (while_loop_total _ _ (fun k '(_, _, s) => left k s /\ (k <= m)%nat) _ _ m); [done|lia|].
    intros k [[has odd] s1] Hk [Hs1 _]. unfold not_turn. destruct (is_keyword s1 _) eqn:E; [|done_left]. token s1. done_left. }
  cbn beta. intros [[has odd] s1] Hs1. level. eapply total_bind; [by apply logical_not_ok|]. done_left.
Qed.

Lemma is_total s m : left m s -> (14 * m + 9 <= fuel)%nat ->
  total (parse_expr_is EOS is_hexdigit hexdigit_to_number to_u8string fuel parse s) (returns m operand).
Proof.
  intros Hs Hf. unfold parse_expr_is. level.
  apply (while_loop_total _ _ (fun k '(lhs, s) => operand lhs /\ left k s) _ _ (pred m)); [done|lia|].
  intros k [lhs s1] Hk [Hl Hs1]. unfold is_turn. destruct (is_keyword s1 _) eqn:E; [|done_left]. token s1. cbv zeta.
  eapply total_bind; [apply (optional_token _ (pred k)); [done|apply keyword_current]|]. cbn beta. intros s3 Hs3.
  destruct (negb _); [throw|].
  destruct (is_keyword s3 (str: "TRUE")) eqn:E1; [token s3; done_left; by apply is_true_ok|].
  destruct (is_keyword s3 (str: "FALSE")) eqn:E2; [token s3; done_left; by apply is_false_ok|].
  destruct (is_keyword s3 (str: "NULL")) eqn:E3; [token s3; done_left; by apply is_null_ok|].
  destruct (is_keyword s3 (str: "DISTINCT")) eqn:E4; [|throw]. token s3.
  destruct (is_keyword s4 (str: "FROM")) eqn:E5; [|throw]. token s4. throw.
Qed.

Lemma comparison_total s m : left m s -> (14 * m + 8 <= fuel)%nat ->
  total (parse_expr_comparison EOS is_hexdigit hexdigit_to_number to_u8string fuel parse s) (returns m operand).
Proof.
  intros. apply (left_associative_total EXPR_COMPARISON); auto.
  - intros s' Hs'. by eapply among_not_eof; [exact Hs'|closed_decide].
  - intros op lhs rhs k [_ Hc _] Hop%bool_decide_eq_true_1 ? ?. by apply comparison_ok.
Qed.

Lemma matching_total s m : left m s -> (14 * m + 7 <= fuel)%nat ->
  total (parse_expr_matching EOS is_hexdigit hexdigit_to_number to_u8string parse s) (returns m operand).
Proof.
  intros Hs Hf. unfold parse_expr_matching. level. cbv zeta.
  eapply total_bind; [apply (optional_token _ (pred m)); [done|apply keyword_current]|]. cbn beta. intros s1 Hs1.
  destruct (is_keyword s1 (str: "BETWEEN")) eqn:E.
  { token s1. level. destruct (is_keyword s3 (str: "AND")) eqn:E1; [|throw]. cbn [negb]. token s3. level.
    eapply total_bind; [by apply between_ok|]. done_left. }
  destruct (is_keyword s1 (str: "IN")); [throw|].
  destruct (is_keyword s1 (str: "LIKE") || is_keyword s1 (str: "ILIKE")) eqn:E2.
  { assert (current s1 <> TOKEN_EOF) as Hc by (apply orb_true_iff in E2 as [?|?]; by eapply keyword_current).
    pose proof (left_positive _ s1 Hs1 Hc). eapply total_bind; [by eapply next_token_total|]. cbn beta. intros s2 Hs2. level.
    eapply total_bind; [apply like_ok; [|done..]; destruct (is_keyword s1 (str: "LIKE")); cbn; auto|]. done_left. }
  destruct (is_keyword s0 (str: "NOT")); [throw|]. done_left.
Qed.

(** ** Other operators *)

Lemma concatenation_total params s m : operands params -> left m s -> current s = TOKEN_STRING_CONCAT -> (14 * m + 5 <= fuel)%nat ->
  total (concatenation EOS is_hexdigit hexdigit_to_number to_u8string fuel parse params s)
    (fun '(params, s) => operands params /\ (0 < get_children_size params)%nat /\ (0 < m)%nat /\ left (pred m) s).
Proof.
  intros Hp Hs Hc Hf. unfold concatenation.
  apply (while_loop_total _ _ (fun k '(params, s) => operands params /\ left k s /\ current s = TOKEN_STRING_CONCAT) _ _ m); [done|lia|].
  intros k [ps s1] Hk (Hps & Hs1 & Hc1). unfold concat_turn. assert (is_token s1 TOKEN_STRING_CONCAT = true) as E by (by apply bool_decide_eq_true).
  token s1. level. eapply total_bind; [by apply concat_operand_ok|]. cbn beta. intros ps' [Hps' Hlen].
  destruct (is_token s2 TOKEN_STRING_CONCAT) eqn:E1; [apply token_current in E1|]; done_left.
Qed.

Lemma prefix_function_current (s : state) func : prefix_function (current s) = Some func ->
  current s <> TOKEN_EOF /\ (needed func <= 1)%nat.
Proof. unfold prefix_function. intros H. repeat (destruct (decide _) as [E|]; [rewrite E; injection H as <-; split; [done|cbn; lia]|]). done. Qed.

Lemma binary_other_ok (op : state) k lhs rhs : left k op ->
  bool_decide (current op ∈ bitwise_operators) || bool_decide (current op ∈ regex_operators) = true -> operand lhs -> operand rhs ->
  total (binary_other is_hexdigit hexdigit_to_number (f_node op) lhs rhs) operand.
Proof.
  intros [_ Hc _] H Hl Hr. unfold binary_other. destruct (bool_decide (t_token _ ∈ bitwise_operators)) eqn:E.
  - apply bool_decide_eq_true_1 in E. by apply bitwise_ok.
  - unfold current in H. rewrite E in H. apply bool_decide_eq_true_1 in H. by apply match_regex_ok.
Qed.

Lemma other_turn_total l lhs s k : operand lhs -> left k s -> (14 * k + 5 <= fuel)%nat ->
  total (other_turn EOS is_hexdigit hexdigit_to_number to_u8string fuel parse l (lhs, s))
    (fun r => match r with inl (lhs, s) => (0 < k)%nat /\ operand lhs /\ left (pred k) s | inr (lhs, s) => operand lhs /\ left k s end).
Proof.
  intros Hl Hs Hf. unfold other_turn. destruct (_ || _) eqn:E.
  { assert (current s <> TOKEN_EOF) as Hc.
    { apply orb_true_iff in E as [E|E]; (eapply among_not_eof; [exact E|apply (bool_decide_unpack (not _)); vm_compute; exact I]). }
    pose proof (left_positive _ s Hs Hc). eapply total_bind; [by eapply next_token_total|]. cbn beta. intros s1 Hs1. level.
    eapply total_bind; [by eapply binary_other_ok|]. done_left. }
  destruct (is_token s TOKEN_STRING_CONCAT) eqn:E1; [|done_left].
  eapply total_bind; [apply (concatenation_total _ s k); [|done|by apply token_current|done]|].
  { split; [done|]. by intros p ->%list_elem_of_singleton. }
  cbn beta. intros [params s1] (Hp & Hn & Hk & Hs1).
  eapply (total_bind _ _ _ operand); [|done_left].
  destruct (Nat.eqb_spec (get_children_size params) 1).
  - by destruct (get_child_ok params 0 Hp) as (p & -> & Hop).
  - apply function_call_operands; [done..|cbn; lia].
Qed.

Lemma other_total s m : left m s -> (14 * m + 6 <= fuel)%nat ->
  total (parse_expr_other EOS is_hexdigit hexdigit_to_number to_u8string fuel parse s) (returns m operand).
Proof.
  intros Hs Hf. unfold parse_expr_other. cbv zeta. destruct (prefix_function (current s)) as [func|] eqn:E.
  - apply prefix_function_current in E as [Hc Hn]. pose proof (left_positive _ s Hs Hc).
    eapply total_bind; [by eapply next_token_total|]. cbn beta. intros s1 Hs1. level.
    eapply total_bind; [by apply function_call_operand|]. done_left.
  - level. apply (while_loop_total _ _ (fun k '(lhs, s) => operand lhs /\ left k s) _ _ (pred m)); [done|lia|].
    intros k [lhs s1] Hk [Hl Hs1]. eapply total_weaken; [apply other_turn_total; [done..|lia]|].
    intros [[n' s']|[n' s']]; [done|]. intros [? ?]. done_left.
Qed.

Lemma additive_total s m : left m s -> (14 * m + 5 <= fuel)%nat ->
  total (parse_expr_additive EOS is_hexdigit hexdigit_to_number to_u8string fuel parse s) (returns m operand).
Proof.
  intros. apply (left_associative_total EXPR_ADDITIVE); auto.
  - intros s' Hs'. eapply among_not_eof; [exact Hs'|apply (bool_decide_unpack (not _)); vm_compute; exact I].
  - intros op lhs rhs k [_ Hc _] Hop%bool_decide_eq_true_1 ? ?. by apply additive_ok.
Qed.

Lemma multiplicative_total s m : left m s -> (14 * m + 4 <= fuel)%nat ->
  total (parse_expr_multiplicative EOS is_hexdigit hexdigit_to_number to_u8string fuel parse s) (returns m operand).
Proof.
  intros. apply (left_associative_total EXPR_MULTIPLICATIVE); auto.
  - intros s' Hs'. eapply among_not_eof; [exact Hs'|apply (bool_decide_unpack (not _)); vm_compute; exact I].
  - intros op lhs rhs k [_ Hc _] Hop%bool_decide_eq_true_1 ? ?. by apply multiplicative_ok.
Qed.

Lemma exponentiation_total s m : left m s -> (14 * m + 3 <= fuel)%nat ->
  total (parse_expr_exponentiation EOS is_hexdigit hexdigit_to_number to_u8string fuel parse s) (returns m operand).
Proof.
  intros. apply (left_associative_total EXPR_EXPONENTIATION); auto.
  - intros s' Hs'. by eapply token_not_eof.
  - intros op lhs rhs k [_ Hc _] Hop%token_current ? ?. by apply power_ok.
Qed.

Lemma unary_total s m : left m s -> (14 * m + 2 <= fuel)%nat ->
  total (parse_expr_unary EOS is_hexdigit hexdigit_to_number to_u8string fuel parse s) (returns m operand).
Proof.
  intros Hs Hf. unfold parse_expr_unary.
  set (minus := fun negate : option tree => forall n, negate = Some n -> t_token n = TOKEN_MINUS /\ t_children n = []).
  eapply (total_bind _ _ _ (fun '(_, negate, s) => minus negate /\ left m s)).
  { apply (while_loop_total _ _ (fun k '(_, negate, s) => minus negate /\ left k s /\ (k <= m)%nat) _ _ m); [done|lia|].
    intros k [[convert negate] s1] Hk (Hm & Hs1 & _). unfold sign_turn. destruct (is_token s1 TOKEN_PLUS) eqn:E; [token s1; done_left|].
    destruct (is_token s1 TOKEN_MINUS) eqn:E1; [|done_left]. cbv zeta. token s1. done_left. destruct negate; [done|].
    intros ? [= <-]. split; [by apply token_current|apply Hs1]. }
  cbn beta. intros [[convert negate] s1] [Hm Hs1]. level. destruct convert; [|done_left].
  eapply total_bind; [by apply unary_ok|]. done_left.
Qed.

(** ** Postfix operators *)

Lemma parameters_total count s m : left m s -> current s = TOKEN_OPEN_PARENTHESIS -> (14 * m <= fuel)%nat ->
  total (parse_expr_function_parameters EOS is_hexdigit hexdigit_to_number to_u8string parse count s)
    (fun '(params, s) => operands params /\ (forall n, count = Some n -> get_children_size params = n) /\ (0 < m)%nat /\ left (pred m) s).
Proof.
  intros Hs Hc Hf. unfold parse_expr_function_parameters.
  assert (is_token s TOKEN_OPEN_PARENTHESIS = true) as E by (by apply bool_decide_eq_true). token s.
  eapply (total_bind _ _ _ (fun '(params, s) => operands params /\ left (pred m) s)).
  { destruct (is_token s0 TOKEN_CLOSE_PARENTHESIS).
    - cbn. split; [split; [done|]; by intros p ?%elem_of_nil|done].
    - eapply total_weaken; [apply (Hparse EXPR_LIST s0 (pred m)); [done|cbn; lia]|]. intros [params s1] (Hp & Hm & Hs1).
      split; [done|]. eapply left_le; [done|cbn; lia]. }
  cbn beta. intros [params s1] [Hp Hs1]. destruct (is_token s1 TOKEN_CLOSE_PARENTHESIS) eqn:E1; [|throw]. cbn [negb].
  destruct (bool_decide (is_Some count) && negb (bool_decide (count = Some (get_children_size params)))) eqn:E2; [throw|]. token s1. cbn. split_and!; auto; [|by eapply left_le; [eassumption|lia]].
  intros n' ->. cbn in E2. apply negb_false_iff, bool_decide_eq_true in E2. congruence.
Qed.

Lemma cast_value_total cast_to s m : left m s -> (14 * m + 13 <= fuel)%nat ->
  total (parse_expr_cast_value EOS is_hexdigit hexdigit_to_number to_u8string parse cast_to s) (returns m operand).
Proof.
  intros Hs Hf. unfold parse_expr_cast_value. cbv zeta.
  eapply total_bind; [apply (optional_token _ m); [done|intros E; by eapply token_not_eof]|]. cbn beta. intros s1 Hs1. level.
  eapply (total_bind _ _ _ (left (pred m))).
  { destruct (is_token s TOKEN_OPEN_PARENTHESIS); [by apply expect_total; [..|closed_decide]|done]. }
  intros s3 Hs3. done_left. by apply (operand_unary _ n); [closed_decide|..].
Qed.

(** The functions have the parameters they need. *)
Lemma assoc_elem {A} k (l : list (list Z * A)) v : assoc k l = Some v -> exists k', (k', v) ∈ l.
Proof.
  unfold assoc. intros ([k' v'] & [H _]%find_some & ->)%fmap_Some_1. exists k'. by apply list_elem_of_In.
Qed.

Lemma functions_needed keyword func count n : assoc keyword functions = Some (func, count) ->
  match count with Some c => n = c | None => True end ->
  (func = FUNCTION_ATAN \/ (needed func <= n)%nat).
Proof.
  intros [k H]%assoc_elem Hn. revert H Hn. unfold functions. rewrite !elem_of_cons, elem_of_nil.
  intros H Hn. repeat (destruct H as [[= -> -> ->]|H]; [try subst n; first [by left|right; cbn; lia]|]). done.
Qed.

Lemma named_call_total name s m : left m s -> current s = TOKEN_OPEN_PARENTHESIS -> (14 * m <= fuel)%nat ->
  total (named_call EOS is_hexdigit hexdigit_to_number to_u8string parse name s) (returns m operand).
Proof.
  intros Hs Hc Hf. unfold named_call. cbv zeta. destruct (assoc _ functions) as [[func count]|] eqn:E; [|throw].
  eapply total_bind; [by apply (parameters_total count s m)|]. cbn beta. intros [params s1] (Hp & Hcount & Hm & Hs1).
  apply (functions_needed _ _ _ (get_children_size params)) in E; [|destruct count; auto].
  eapply (total_bind _ _ _ (fun func => needed func <= get_children_size params)%nat).
  { destruct func; try (destruct E as [?|E]; [done|exact E]).
    destruct (Nat.eqb_spec (get_children_size params) 1); [cbn; lia|]. destruct (Nat.eqb_spec (get_children_size params) 2); [cbn; lia|throw]. }
  intros func' Hn. eapply total_bind; [by apply function_call_operands|]. done_left.
Qed.

Lemma field_access_total found lhs s m : operand lhs -> left m s -> current s = TOKEN_PERIOD ->
  total (field_access EOS is_hexdigit hexdigit_to_number to_u8string found lhs s)
    (fun '(_, n, s) => operand n /\ (0 < m)%nat /\ left (pred m) s).
Proof.
  intros Hl Hs Hc. unfold field_access. destruct found; [throw|]. cbv zeta.
  assert (is_token s TOKEN_PERIOD = true) as E by (by apply bool_decide_eq_true). token s.
  assert (forall name, operand name -> operand (append_child (append_child (f_node s) lhs) name)) as Hname.
  { intros name Hn. apply operator_ok; [|by apply Hs|done..]. change (t_token (f_node s)) with (current s). rewrite Hc. closed_decide. }
  destruct (is_token s0 TOKEN_MULTIPLY) eqn:E1.
  { token s0. done_left. by apply Hname, leaf_ok; [closed_decide|]. }
  destruct (is_token s0 TOKEN_IDENTIFIER) eqn:E2; [|throw]. token s0. done_left. apply Hname.
  apply token_current in E2. by apply tree_set_string_ok; unfold current in E2; rewrite E2; [closed_decide|].
Qed.

Lemma scope_cast_total lhs s m : operand lhs -> left m s -> current s = TOKEN_SCOPE -> (14 * m <= fuel)%nat ->
  total (scope_cast EOS is_hexdigit hexdigit_to_number to_u8string parse lhs s) (returns m operand).
Proof.
  intros Hl Hs Hc Hf. unfold scope_cast. assert (is_token s TOKEN_SCOPE = true) as E by (by apply bool_decide_eq_true). token s.
  destruct (negb _); [throw|]. level. destruct (decide _); [|throw]. done_left. by apply (operand_unary _ lhs); [closed_decide|..].
Qed.

Lemma element_access_total lhs s m : operand lhs -> left m s -> current s = TOKEN_OPEN_BRACKET -> (14 * m <= fuel)%nat ->
  total (element_access EOS is_hexdigit hexdigit_to_number to_u8string parse lhs s) (returns m operand).
Proof.
  intros Hl Hs Hc Hf. unfold element_access. cbv zeta. assert (is_token s TOKEN_OPEN_BRACKET = true) as E by (by apply bool_decide_eq_true).
  token s. level. eapply total_bind; [by apply expect_total; [..|closed_decide]|]. done_left.
  apply operator_ok; [closed_decide|done..].
Qed.

Lemma operand_not_type (n : tree) : operand n -> t_token n <> TOKEN_TYPE.
Proof.
  intros [u Hu ?|u a Hu Hc Ha|u a b rest Hu Hc|u a b c Hu Hc|u ps Hu Hc] Ht; rewrite Ht in Hu; try done.
  all: revert Hu; apply (bool_decide_unpack (not _)); vm_compute; exact I.
Qed.

Lemma postfix_turn_total found n s k : operand n \/ t_token n = TOKEN_TYPE -> left k s -> (14 * k + 13 <= fuel)%nat ->
  total (postfix_turn EOS is_hexdigit hexdigit_to_number to_u8string parse (found, n, s))
    (fun r => match r with inl (_, n, s) => operand n /\ (0 < k)%nat /\ left (pred k) s | inr (n, s) => operand n /\ left k s end).
Proof.
  intros Hn Hs Hf. unfold postfix_turn. destruct (decide (t_token n = TOKEN_TYPE)).
  { eapply total_bind; [by apply cast_value_total|]. intros [n' s'] (Hn' & Hs'). cbn [fst snd] in *.
    destruct (operand_script n' Hn') as [script ->]. split; [by apply operand_after_to_as2js|done]. }
  assert (operand n) as Hop by tauto.
  destruct (is_token s TOKEN_PERIOD) eqn:E1.
  { eapply total_bind; [apply field_access_total; [done|done|by apply token_current]|]. intros [[f n'] s'] (? & ? & ?). done. }
  destruct (is_token s TOKEN_SCOPE) eqn:E2.
  { eapply total_bind; [apply scope_cast_total; [done|done|by apply token_current|lia]|]. intros [n' s'] H. exact H. }
  destruct (is_token s TOKEN_OPEN_BRACKET) eqn:E3.
  { eapply total_bind; [apply element_access_total; [done|done|by apply token_current|lia]|]. intros [n' s'] H. exact H. }
  destruct (is_token s TOKEN_OPEN_PARENTHESIS) eqn:E4; [|done].
  destruct (decide _); [|throw].
  eapply total_bind; [apply named_call_total; [done|by apply token_current|lia]|]. intros [n' s'] H. exact H.
Qed.

Lemma postfix_total s m : left m s -> (14 * m + 1 <= fuel)%nat ->
  total (parse_expr_postfix EOS is_hexdigit hexdigit_to_number to_u8string fuel parse s) (returns m operand).
Proof.
  intros Hs Hf. unfold parse_expr_postfix. level.
  apply (while_loop_total _ _ (fun k '(_, n, s) => (operand n \/ t_token n = TOKEN_TYPE) /\ left k s) _ _ (pred m)); [done|lia|].
  intros k [[found n'] s'] Hk [Hn' Hs']. eapply total_weaken; [apply postfix_turn_total; [done..|lia]|].
  intros [[[f n1] s1]|[n1 s1]]; [intros (? & ? & ?); auto|intros [? ?]; done_left].
Qed.

(** ** Primary expressions *)

Lemma strings_total s m : left m s -> current s = TOKEN_STRING -> (m <= fuel)%nat ->
  total (parse_strings EOS is_hexdigit hexdigit_to_number to_u8string fuel s) (returns m operand).
Proof.
  intros Hs Hc Hf. unfold parse_strings. cbv zeta. assert (is_token s TOKEN_STRING = true) as E by (by apply bool_decide_eq_true). token s.
  apply (while_loop_total _ _ (fun k '(n, s) => t_token n = TOKEN_STRING /\ left k s) _ _ (pred m)); [done|lia|].
  intros k [n s1] Hk [Hn Hs1]. unfold string_turn. destruct (is_token s1 TOKEN_STRING) eqn:E1; [cbv zeta; token s1; done_left|done_left].
  apply operand_leaf; [rewrite Hn; closed_decide|]. unfold integer_ok. by rewrite Hn.
Qed.

Lemma type_node_total l type s m : left m s -> current s = TOKEN_IDENTIFIER ->
  total (create_type_node EOS is_hexdigit hexdigit_to_number to_u8string l type s) (returns m (fun t => operand t \/ t_token t = TOKEN_TYPE)).
Proof.
  intros Hs Hc. unfold create_type_node. cbv zeta. assert (is_token s TOKEN_IDENTIFIER = true) as E by (by apply bool_decide_eq_true).
  token s. done_left.
Qed.

Lemma returns_le m m' P r : returns m P r -> (m <= m')%nat -> returns m' P r.
Proof. intros (? & ? & ?) ?. split_and!; [done|lia|]. eapply left_le; [done|lia]. Qed.

Lemma word_total s m : left m s -> current s = TOKEN_IDENTIFIER ->
  total (parse_word EOS is_hexdigit hexdigit_to_number to_u8string s) (returns m (fun t => operand t \/ t_token t = TOKEN_TYPE)).
Proof.
  intros Hs Hc. unfold parse_word. cbv zeta. assert (is_token s TOKEN_IDENTIFIER = true) as E by (by apply bool_decide_eq_true).
  destruct (assoc _ type_names); [by apply type_node_total|].
  destruct (decide _).
  { token s. destruct (is_keyword s0 _) eqn:E1; [|throw]. unfold is_keyword in E1. apply andb_true_iff in E1 as [E1%token_current _].
    eapply total_weaken; [by apply type_node_total|]. intros. eapply returns_le; [done|lia]. }
  destruct (decide _).
  { token s. destruct (is_token s0 TOKEN_IDENTIFIER) eqn:E1; [|throw]. cbn [negb]. destruct (assoc _ unsigned_type_names); [|throw].
    eapply total_weaken; [by apply type_node_total, token_current|]. intros. eapply returns_le; [done|lia]. }
  destruct (decide _); [token s; done_left; left; by apply leaf_ok; [closed_decide|]|].
  destruct (decide _); [token s; done_left; left; by apply leaf_ok; [closed_decide|]|].
  destruct (decide _); [token s; done_left; left; by apply leaf_ok; [closed_decide|]|].
  token s. done_left. left. unfold current in Hc. by apply tree_set_string_ok; rewrite Hc; [closed_decide|].
Qed.

Lemma primary_total s m : left m s -> (14 * m <= fuel)%nat ->
  total (parse_expr_primary EOS is_hexdigit hexdigit_to_number to_u8string fuel parse s)
    (returns m (fun t => operand t \/ t_token t = TOKEN_TYPE)).
Proof.
  intros Hs Hf. unfold parse_expr_primary. destruct (is_token s TOKEN_STRING) eqn:E.
  { eapply total_weaken; [apply (strings_total s m); [done|by apply token_current|lia]|]. intros r (? & ? & ?). split_and!; auto. }
  destruct (is_token s TOKEN_IDENTIFIER) eqn:E1; [by apply word_total, token_current|].
  destruct (is_token s TOKEN_FLOATING_POINT || is_token s TOKEN_INTEGER) eqn:E2.
  { assert (t_token (f_node s) ∈ [TOKEN_FLOATING_POINT; TOKEN_INTEGER]) as Hc.
    { apply orb_true_iff in E2 as [H%token_current|H%token_current]; unfold current in H; rewrite H; closed_decide. }
    cbv zeta. assert (current s <> TOKEN_EOF) as Hn by (intros H; unfold current in H; rewrite H in Hc; set_solver).
    pose proof (left_positive _ s Hs Hn). eapply total_bind; [by eapply next_token_total|]. done_left. left.
    apply operand_leaf; [revert Hc; by apply (check_list (fun token => token ∈ leaf_tokens))|]. intros _. apply Hs. }
  destruct (is_token s TOKEN_MULTIPLY) eqn:E3; [cbv zeta; token s; done_left; left; by apply leaf_ok; [closed_decide|]|].
  destruct (is_token s TOKEN_OPEN_PARENTHESIS) eqn:E4; [|throw]. token s. level.
  eapply total_bind; [by apply expect_total; [..|closed_decide]|]. done_left.
Qed.

Lemma parse_level_total lv s m : left m s -> (14 * m + rank lv <= fuel)%nat ->
  total (parse_level EOS is_hexdigit hexdigit_to_number to_u8string fuel parse lv s) (returns m (shape lv)).
Proof.
  intros Hs Hf. destruct lv; cbn [rank shape parse_level] in *.
  - by apply list_total.
  - by apply logical_or_total.
  - by apply logical_and_total.
  - by apply logical_not_total.
  - by apply is_total.
  - by apply comparison_total.
  - by apply matching_total.
  - by apply other_total.
  - by apply additive_total.
  - by apply multiplicative_total.
  - by apply exponentiation_total.
  - by apply unary_total.
  - by apply postfix_total.
  - apply primary_total; [done|lia].
Qed.
End Levels.

Lemma parse_expr_total fuel : parses fuel (parse_expr EOS is_hexdigit hexdigit_to_number to_u8string fuel).
Proof.
  induction fuel as [|fuel IH]; intros lv s m Hs Hf; [lia|]. cbn [parse_expr]. apply parse_level_total; [done..|lia].
Qed.
End ExprTotal.
