(* ===== verification/ExprGrammar.v ===== *)
(** * The grammar of the expressions

    An abstract specification of the parser: [expr] is the syntax of the
    expressions with its tokens, [well_formed] says where the precedence of an
    operator needs parentheses, and [elab] composes the semantic actions as the
    syntax says.  Concatenations, several strings in a row and casts without an
    operator are left out. *)

From S2P Require Import Prelude Limbs BigLoops Uint512 Int512 BigText Input LongDouble Lexer SortedMap.
From S2P Require Import Nodes Functions Expression ExprTypes ExprTotal.

#[export] Instance level_eq_dec : EqDecision level.
Proof. solve_decision. Defined.

(** The level of the operands of a level. *)
Definition tight (lv : level) : level :=
  match lv with
  | EXPR_LIST => EXPR_LOGICAL_OR | EXPR_LOGICAL_OR => EXPR_LOGICAL_AND | EXPR_LOGICAL_AND => EXPR_LOGICAL_NOT
  | EXPR_LOGICAL_NOT => EXPR_IS | EXPR_IS => EXPR_COMPARISON | EXPR_COMPARISON => EXPR_MATCHING | EXPR_MATCHING => EXPR_OTHER
  | EXPR_OTHER => EXPR_ADDITIVE | EXPR_ADDITIVE => EXPR_MULTIPLICATIVE | EXPR_MULTIPLICATIVE => EXPR_EXPONENTIATION
  | EXPR_EXPONENTIATION => EXPR_UNARY | EXPR_UNARY => EXPR_POSTFIX | EXPR_POSTFIX | EXPR_PRIMARY => EXPR_PRIMARY
  end.

(** The ranks of the levels that a keyword or another token continues. *)
Definition keyword_rank (k : list Z) : nat :=
  if decide (k = (str: "OR")) then 12 else if decide (k = (str: "AND")) then 11 else if decide (k = (str: "IS")) then 9
  else if decide (k ∈ [(str: "NOT"); (str: "BETWEEN"); (str: "IN"); (str: "LIKE"); (str: "ILIKE")]) then 7 else 14.

Definition token_rank (t : Z) : nat :=
  if decide (t ∈ comparison_operators) then 8
  else if decide (t ∈ TOKEN_STRING_CONCAT :: bitwise_operators ++ regex_operators) then 6
  else if decide (t ∈ [TOKEN_PLUS; TOKEN_MINUS]) then 5
  else if decide (t ∈ [TOKEN_MULTIPLY; TOKEN_DIVIDE; TOKEN_MODULO]) then 4
  else if decide (t = TOKEN_POWER) then 3
  else if decide (t ∈ [TOKEN_PERIOD; TOKEN_SCOPE; TOKEN_OPEN_BRACKET; TOKEN_OPEN_PARENTHESIS]) then 1
  else if decide (t = TOKEN_STRING) then 0 else 14.

Section Grammar.
Context {F : Type} {libraries : Libraries F}.
Context (is_hexdigit : Z -> bool) (hexdigit_to_number : Z -> Z).
Abbreviation tree := (Nodes.tree F).

(** ** Syntax *)

(** The tokens of an expression are nodes without children. *)
Inductive expr : Type :=
  | Atom (token : tree)
  | Paren (open : tree) (e : expr) (close : tree)
  | Index (e : expr) (open : tree) (i : expr) (close : tree)
  | Field (e : expr) (period name : tree)
  | ScopeCast (e : expr) (scope type : tree)
  | Call0 (name open close : tree)
  | Call (name open : tree) (args : arguments)
  | Unary (signs : list tree) (e : expr)
  | Binary (e1 : expr) (op : tree) (e2 : expr)
  | Prefix (op : tree) (e : expr)
  | Between (e : expr) (negated : option tree) (op : tree) (e1 : expr) (also : tree) (e2 : expr)
  | Like (e : expr) (negated : option tree) (op : tree) (e1 : expr)
  | IsTest (e : expr) (op : tree) (negated : option tree) (what : tree)
  | Not (nots : list tree) (e : expr)
with arguments : Type :=
  | LastArgument (e : expr) (close : tree)
  | MoreArguments (e : expr) (comma : tree) (args : arguments).

Fixpoint tokens (e : expr) : list tree :=
  match e with
  | Atom token => [token]
  | Paren open e close => open :: tokens e ++ [close]
  | Index e open i close => tokens e ++ open :: tokens i ++ [close]
  | Field e period name => tokens e ++ [period; name]
  | ScopeCast e scope type => tokens e ++ [scope; type]
  | Call0 name open close => [name; open; close]
  | Call name open args => name :: open :: argument_tokens args
  | Unary signs e => signs ++ tokens e
  | Binary e1 op e2 => tokens e1 ++ op :: tokens e2
  | Prefix op e => op :: tokens e
  | Between e negated op e1 also e2 => tokens e ++ option_list negated ++ op :: tokens e1 ++ also :: tokens e2
  | Like e negated op e1 => tokens e ++ option_list negated ++ op :: tokens e1
  | IsTest e op negated what => tokens e ++ op :: option_list negated ++ [what]
  | Not nots e => nots ++ tokens e
  end
with argument_tokens (args : arguments) : list tree :=
  match args with
  | LastArgument e close => tokens e ++ [close]
  | MoreArguments e comma args => tokens e ++ comma :: argument_tokens args
  end.

(** ** Precedence *)

Definition node_keyword (n : tree) (keyword : list Z) : bool :=
  bool_decide (t_token n = TOKEN_IDENTIFIER) && bool_decide (get_string_upper n = keyword).

(** The level of a left associative operator. *)
Definition operator_level (op : tree) : option level :=
  if node_keyword op (str: "OR") then Some EXPR_LOGICAL_OR
  else if node_keyword op (str: "AND") then Some EXPR_LOGICAL_AND
  else if bool_decide (t_token op ∈ comparison_operators) then Some EXPR_COMPARISON
  else if bool_decide (t_token op ∈ bitwise_operators) || bool_decide (t_token op ∈ regex_operators) then Some EXPR_OTHER
  else if bool_decide (t_token op ∈ [TOKEN_PLUS; TOKEN_MINUS]) then Some EXPR_ADDITIVE
  else if bool_decide (t_token op ∈ [TOKEN_MULTIPLY; TOKEN_DIVIDE; TOKEN_MODULO]) then Some EXPR_MULTIPLICATIVE
  else if bool_decide (t_token op = TOKEN_POWER) then Some EXPR_EXPONENTIATION
  else None.

(** The rank of the level that a token after an expression continues; 14 for a
    token that ends it. *)
Definition continues (n : tree) : nat :=
  if decide (t_token n = TOKEN_IDENTIFIER) then keyword_rank (get_string_upper n) else token_rank (t_token n).

Definition prec (e : expr) : nat :=
  match e with
  | Atom _ | Paren _ _ _ => 0
  | Index _ _ _ _ | Field _ _ _ | ScopeCast _ _ _ | Call0 _ _ _ | Call _ _ _ => 1
  | Unary _ _ => 2
  | Binary _ op _ => match operator_level op with Some lv => rank lv | None => 0 end
  | Prefix _ _ => 6
  | Between _ _ _ _ _ _ | Like _ _ _ _ => 7
  | IsTest _ _ _ _ => 9
  | Not _ _ => 10
  end.

Definition is_prefix (e : expr) : bool := match e with Prefix _ _ => true | _ => false end.

(** ** Well-formed expressions *)

(** The node of a token that is an expression. *)
Definition atom_tree (token : tree) : tree :=
  if decide (t_token token = TOKEN_IDENTIFIER) then
    let keyword := get_string_lower token in
    if decide (keyword = (str: "false")) then make_node TOKEN_FALSE (t_location token)
    else if decide (keyword = (str: "null")) then make_node TOKEN_NULL (t_location token)
    else if decide (keyword = (str: "true")) then make_node TOKEN_TRUE (t_location token)
    else tree_set_string token keyword
  else token.

(** A literal, or a word that is not the name of a type nor NOT. *)
Definition atom_ok (token : tree) : bool :=
  bool_decide (t_token token ∈ [TOKEN_STRING; TOKEN_INTEGER; TOKEN_FLOATING_POINT]) ||
  bool_decide (t_token token = TOKEN_IDENTIFIER /\ assoc (get_string_lower token) type_names = None /\
    get_string_lower token <> (str: "double") /\ get_string_lower token <> (str: "unsigned") /\
    get_string_upper token <> (str: "NOT")).

Definition name_ok (name : tree) : bool := atom_ok name && bool_decide (t_token (atom_tree name) = TOKEN_IDENTIFIER).
Definition is_a (n : tree) (token : Z) : bool := bool_decide (t_token n = token).
Definition negation_ok (negated : option tree) : bool := match negated with Some n => node_keyword n (str: "NOT") | None => true end.

Fixpoint well_formed (e : expr) : bool :=
  match e with
  | Atom token => atom_ok token
  | Paren open e close => is_a open TOKEN_OPEN_PARENTHESIS && well_formed e && is_a close TOKEN_CLOSE_PARENTHESIS
  | Index e open i close =>
      (prec e <=? 1)%nat && well_formed e && is_a open TOKEN_OPEN_BRACKET && well_formed i && is_a close TOKEN_CLOSE_BRACKET
  | Field e period name => (prec e <=? 1)%nat && well_formed e && is_a period TOKEN_PERIOD && is_a name TOKEN_IDENTIFIER
  | ScopeCast e scope type =>
      (prec e <=? 1)%nat && well_formed e && is_a scope TOKEN_SCOPE && is_a type TOKEN_IDENTIFIER
      && bool_decide (is_Some (assoc (get_string_lower type) type_names))
  | Call0 name open close => name_ok name && is_a open TOKEN_OPEN_PARENTHESIS && is_a close TOKEN_CLOSE_PARENTHESIS
  | Call name open args => name_ok name && is_a open TOKEN_OPEN_PARENTHESIS && arguments_ok args
  | Unary signs e =>
      bool_decide (signs <> []) && forallb (fun n => is_a n TOKEN_PLUS || is_a n TOKEN_MINUS) signs && (prec e <=? 1)%nat && well_formed e
  | Binary e1 op e2 =>
      match operator_level op with
      | Some lv =>
          (prec e1 <=? rank lv)%nat && negb (bool_decide (lv = EXPR_OTHER) && is_prefix e1) && well_formed e1
          && (prec e2 <? rank lv)%nat && well_formed e2
      | None => false
      end
  | Prefix op e => bool_decide (is_Some (prefix_function (t_token op))) && (prec e <=? 6)%nat && well_formed e
  | Between e negated op e1 also e2 =>
      (prec e <=? 6)%nat && well_formed e && negation_ok negated && node_keyword op (str: "BETWEEN")
      && (prec e1 <=? 6)%nat && well_formed e1 && node_keyword also (str: "AND") && (prec e2 <=? 6)%nat && well_formed e2
  | Like e negated op e1 =>
      (prec e <=? 6)%nat && well_formed e && negation_ok negated
      && (node_keyword op (str: "LIKE") || node_keyword op (str: "ILIKE")) && (prec e1 <=? 6)%nat && well_formed e1
  | IsTest e op negated what =>
      (prec e <=? 9)%nat && well_formed e && node_keyword op (str: "IS") && negation_ok negated
      && (node_keyword what (str: "TRUE") || node_keyword what (str: "FALSE") || node_keyword what (str: "NULL"))
  | Not nots e =>
      bool_decide (nots <> []) && forallb (fun n => node_keyword n (str: "NOT")) nots && (prec e <=? 9)%nat && well_formed e
  end
with arguments_ok (args : arguments) : bool :=
  match args with
  | LastArgument e close => well_formed e && is_a close TOKEN_CLOSE_PARENTHESIS
  | MoreArguments e comma args => well_formed e && is_a comma TOKEN_COMMA && arguments_ok args
  end.

(** ** Meaning *)

Definition apply_operator (lv : level) (op lhs rhs : tree) : result tree :=
  match lv with
  | EXPR_LOGICAL_OR => logical_or (t_location op) lhs rhs
  | EXPR_LOGICAL_AND => logical_and (t_location op) lhs rhs
  | EXPR_COMPARISON => comparison is_hexdigit hexdigit_to_number op lhs rhs
  | EXPR_OTHER => binary_other is_hexdigit hexdigit_to_number op lhs rhs
  | EXPR_ADDITIVE => additive is_hexdigit hexdigit_to_number op lhs rhs
  | EXPR_MULTIPLICATIVE => multiplicative is_hexdigit hexdigit_to_number op lhs rhs
  | EXPR_EXPONENTIATION => power is_hexdigit hexdigit_to_number op lhs rhs
  | _ => Throw logic_error
  end.

(** The sign of a number of plus and minus: the last minus when their number is
    odd. *)
Definition next_sign (negate : option tree) (n : tree) : option tree :=
  if is_a n TOKEN_MINUS then match negate with None => Some n | Some _ => None end else negate.
Definition sign_of (signs : list tree) : option tree := fold_left next_sign signs None.

(** The function [keyword] applied to [params]. *)
Definition apply_function (keyword : list Z) (l : location) (params : tree) : result tree :=
  match assoc keyword functions with
  | None => Throw type_not_found
  | Some (func, count) =>
      if bool_decide (is_Some count) && negb (bool_decide (count = Some (get_children_size params))) then Throw invalid_parameter
      else
        let! func :=
          match func with
          | FUNCTION_ATAN =>
              if (get_children_size params =? 1)%nat then Ok FUNCTION_ATAN
              else if (get_children_size params =? 2)%nat then Ok FUNCTION_ATAN2
              else Throw invalid_parameter
          | _ => Ok func
          end in
        function_call is_hexdigit hexdigit_to_number l func params
  end.

Definition is_test (negated : bool) (what lhs : tree) : tree :=
  if node_keyword what (str: "TRUE") then is_true negated (t_location what) lhs
  else if node_keyword what (str: "FALSE") then is_false negated (t_location what) lhs
  else is_null negated (t_location what) lhs.

Definition type_node (type : tree) : tree :=
  tree_set_integer (make_node TOKEN_TYPE (t_location type))
    (int512_of_i64 (type_number (default TYPE_BOOLEAN (assoc (get_string_lower type) type_names)))).

(** The location of the first token of some tokens. *)
Definition first_location (ts : list tree) : location := match ts with n :: _ => t_location n | [] => Location [] 0 0 end.

(** The tree of an expression; [next] is the location of the token after it, which
    is the one a negation gets. *)
Fixpoint elab (e : expr) (next : location) : result tree :=
  match e with
  | Atom token => Ok (atom_tree token)
  | Paren _ e close => elab e (t_location close)
  | Index e open i close =>
      let! lhs := elab e (t_location open) in
      let! index := elab i (t_location close) in
      Ok (append_child (node1 TOKEN_AT (t_location open) lhs) index)
  | Field e period name =>
      let! lhs := elab e (t_location period) in
      Ok (append_child (append_child period lhs) (tree_set_string name (get_string_lower name)))
  | ScopeCast e scope type =>
      let! lhs := elab e (t_location scope) in
      Ok (append_child (tree_set_integer (make_node TOKEN_CAST (t_location type)) (t_integer (type_node type))) lhs)
  | Call0 name open close =>
      apply_function (get_string_upper (atom_tree name)) (t_location open) (make_node TOKEN_LIST (t_location close))
  | Call name open args =>
      let! params := elab_arguments args (make_node TOKEN_LIST (first_location (argument_tokens args))) in
      apply_function (get_string_upper (atom_tree name)) (t_location open) params
  | Unary signs e =>
      let! n := elab e next in unary is_hexdigit hexdigit_to_number (sign_of signs) n
  | Binary e1 op e2 =>
      let! lhs := elab e1 (t_location op) in
      let! rhs := elab e2 next in
      match operator_level op with
      | Some lv => apply_operator lv op lhs rhs
      | None => Throw logic_error
      end
  | Prefix op e =>
      let! n := elab e next in
      match prefix_function (t_token op) with
      | Some func => function_call is_hexdigit hexdigit_to_number (t_location op) func n
      | None => Throw logic_error
      end
  | Between e negated op e1 also e2 =>
      let! lhs := elab e (t_location (default op negated)) in
      let! rhs1 := elab e1 (t_location also) in
      let! rhs2 := elab e2 next in
      between is_hexdigit hexdigit_to_number (bool_decide (is_Some negated)) (t_location op) lhs rhs1 rhs2
  | Like e negated op e1 =>
      let! lhs := elab e (t_location (default op negated)) in
      let! rhs := elab e1 next in
      like (bool_decide (is_Some negated))
        (make_node (if node_keyword op (str: "LIKE") then TOKEN_LIKE else TOKEN_ILIKE) (t_location op)) lhs rhs
  | IsTest e op negated what =>
      let! lhs := elab e (t_location op) in
      Ok (is_test (bool_decide (is_Some negated)) what lhs)
  | Not nots e =>
      let! n := elab e next in
      logical_not true (Nat.odd (length nots)) next n
  end
with elab_arguments (args : arguments) (list : tree) : result tree :=
  match args with
  | LastArgument e close => let! n := elab e (t_location close) in Ok (append_child list n)
  | MoreArguments e comma args => let! n := elab e (t_location comma) in elab_arguments args (append_child list n)
  end.
End Grammar.
Arguments expr F : clear implicits.
Arguments arguments F : clear implicits.
