(* ===== verification/ExprParse.v ===== *)
(** * The parser follows the grammar

    The tokens of a well-formed expression are read as the expression, whatever
    follows it that does not continue it. *)

From S2P Require Import Prelude Limbs BigLoops Uint512 Int512 BigText Input LongDouble Lexer LexerTotal SortedMap.
From S2P Require Import Nodes Functions As2js Expression LexerTypes IntegerTypes ExprTypes ActionTypes ExprTotal ExprGrammar.

Scheme expr_mutual := Induction for expr Sort Prop with arguments_mutual := Induction for arguments Sort Prop.
Combined Scheme expr_arguments_ind from expr_mutual, arguments_mutual.

Section ExprParse.
Context {F : Type} {libraries : Libraries F}.
Context (EOS : Z) (is_hexdigit : Z -> bool) (hexdigit_to_number : Z -> Z) (to_u8string : Z -> result (list Z)).
Context {laws : HexdigitLaws is_hexdigit hexdigit_to_number}.
Abbreviation tree := (Nodes.tree F).
Abbreviation state := (expr_state F).
Abbreviation total := (ExprTypes.total (F := F) to_u8string).
Abbreviation next_token := (Expression.next_token EOS is_hexdigit hexdigit_to_number to_u8string).
Abbreviation elab := (ExprGrammar.elab is_hexdigit hexdigit_to_number).

(** ** Tokens of a script *)

(** The lexer gives the tokens [ts] from the state [s] to the state [s']. *)
Inductive path : state -> list tree -> state -> Prop :=
  | path_nil s : path s [] s
  | path_cons s s1 ts s' : next_token s = Ok s1 -> path s1 ts s' -> path s (f_node s :: ts) s'.

Lemma path_app s ts1 ts2 s' : path s (ts1 ++ ts2) s' -> exists m, path s ts1 m /\ path m ts2 s'.
Proof.
  revert s. induction ts1 as [|n ts1 IH]; intros s H; [exists s; split; [constructor|done]|].
  inversion H; subst. destruct (IH s1) as (m & ? & ?); [done|]. exists m. split; [by econstructor|done].
Qed.

Lemma path_cons_inv s n ts s' : path s (n :: ts) s' -> f_node s = n /\ exists s1, next_token s = Ok s1 /\ path s1 ts s'.
Proof. intros H. inversion H; subst. eauto. Qed.

Lemma path_nil_inv s s' : path s [] s' -> s' = s.
Proof. intros H. by inversion H. Qed.

(** ** The type of what an expression means *)

(** Tokens as the lexer gives them. *)
Definition token_ok (n : tree) : Prop := t_children n = [] /\ int512_wf (t_integer n).

Lemma token_ok_children n : token_ok n -> t_children n = [].
Proof. by intros []. Qed.

Ltac throw := apply total_throw, (bool_decide_unpack _); vm_compute; exact I.
Ltac bind L := eapply total_bind; [eapply L; eauto|cbn beta; intros].

Lemma operator_level_tokens (op : tree) lv : operator_level op = Some lv ->
  match lv with
  | EXPR_COMPARISON => t_token op ∈ comparison_operators
  | EXPR_OTHER => bool_decide (t_token op ∈ bitwise_operators) || bool_decide (t_token op ∈ regex_operators) = true
  | EXPR_ADDITIVE => t_token op ∈ [TOKEN_PLUS; TOKEN_MINUS]
  | EXPR_MULTIPLICATIVE => t_token op ∈ [TOKEN_MULTIPLY; TOKEN_DIVIDE; TOKEN_MODULO]
  | EXPR_EXPONENTIATION => t_token op = TOKEN_POWER
  | EXPR_LOGICAL_OR => node_keyword op (str: "OR") = true
  | EXPR_LOGICAL_AND => node_keyword op (str: "AND") = true
  | _ => False
  end.
Proof.
  unfold operator_level. intros H.
  repeat (match goal with H : (if ?b then _ else _) = Some _ |- _ => destruct b eqn:? end;
    [injection H as <-; first [done|by eapply bool_decide_eq_true_1]|]). done.
Qed.

Lemma apply_operator_total lv (op lhs rhs : tree) : operator_level op = Some lv -> token_ok op -> operand lhs -> operand rhs ->
  total (apply_operator is_hexdigit hexdigit_to_number lv op lhs rhs) operand.
Proof.
  intros H%operator_level_tokens [Hc _] ? ?. unfold apply_operator. destruct lv; try done.
  - by apply logical_or_ok.
  - by apply logical_and_ok.
  - by apply comparison_ok.
  - unfold binary_other. case_bool_decide; [by apply bitwise_ok|]. cbn in H. apply bool_decide_eq_true_1 in H. by apply match_regex_ok.
  - by apply additive_ok.
  - by apply multiplicative_ok.
  - by apply power_ok.
Qed.

Lemma apply_function_total keyword l (params : tree) : operands params ->
  total (apply_function is_hexdigit hexdigit_to_number keyword l params) operand.
Proof.
  intros Hp. unfold apply_function. destruct (assoc keyword functions) as [[func count]|] eqn:E; [|throw].
  destruct (bool_decide (is_Some count) && _) eqn:E2; [throw|].
  apply (functions_needed _ _ _ (get_children_size params)) in E.
  2:{ destruct count; [|done]. cbn in E2. apply negb_false_iff, bool_decide_eq_true in E2. congruence. }
  eapply (total_bind _ _ _ (fun func => needed func <= get_children_size params)%nat).
  { destruct func; try (destruct E as [?|E]; [done|exact E]).
    destruct (Nat.eqb_spec (get_children_size params) 1); [cbn; lia|]. destruct (Nat.eqb_spec (get_children_size params) 2); [cbn; lia|throw]. }
  intros func' Hn. by apply function_call_operands.
Qed.

Lemma atom_operand (n : tree) : atom_ok n = true -> token_ok n -> operand (atom_tree n).
Proof.
  unfold atom_ok. intros H [_ Hi]. unfold atom_tree. destruct (decide (t_token n = TOKEN_IDENTIFIER)) as [E|E].
  - repeat (destruct (decide _); [by apply leaf_ok; [closed_decide|]|]). by apply tree_set_string_ok; rewrite E; [closed_decide|].
  - apply orb_true_iff in H as [H|H]; apply bool_decide_eq_true in H; [|by destruct H].
    apply operand_leaf; [revert H; by apply (check_list (fun token => token ∈ leaf_tokens))|by intros _].
Qed.

Lemma sign_of_minus (signs : list tree) minus : Forall token_ok signs -> sign_of signs = Some minus ->
  t_token minus = TOKEN_MINUS /\ t_children minus = [].
Proof.
  intros Hs. unfold sign_of. assert (forall n, (@None tree) = Some n -> t_token n = TOKEN_MINUS /\ t_children n = []) as H by done.
  revert H. generalize (@None tree). induction Hs as [|n signs [Hn _] _ IH]; intros o Ho H; [by apply Ho|].
  apply (IH _) in H; [done|]. unfold next_sign, is_a. case_bool_decide; [|done]. destruct o; [done|]. by intros ? [= <-].
Qed.

Ltac split_tokens :=
  repeat match goal with
  | H : Forall _ (_ :: _) |- _ => apply Forall_cons in H as [? ?]
  | H : Forall _ (_ ++ _) |- _ => apply Forall_app in H as [? ?]
  end.
Ltac split_bools :=
  cbn [well_formed arguments_ok] in *;
  repeat match goal with H : _ && _ = true |- _ => apply andb_true_iff in H as [? ?] end;
  repeat match goal with H : is_a _ _ = true |- _ => apply bool_decide_eq_true_1 in H end.
Ltac token_not := match goal with H : t_token ?n = _ |- t_token ?n <> _ => by rewrite H end.
Ltac token_in := match goal with H : t_token ?n = _ |- t_token ?n ∈ _ => rewrite H; closed_decide end.

Lemma append_operand (list n : tree) : operands list -> operand n -> operands (append_child list n).
Proof. intros [Hl Hp] Hn. split; [done|]. by intros p [?| ->%list_elem_of_singleton]%elem_of_app; auto. Qed.

Lemma prefix_needed token func : prefix_function token = Some func -> (needed func <= 1)%nat.
Proof. unfold prefix_function. intros H. repeat (destruct (decide _); [injection H as <-; cbn; lia|]). done. Qed.

Lemma elab_total :
  (forall e next, well_formed e = true -> Forall token_ok (tokens e) -> total (elab e next) operand) /\
  (forall args list, arguments_ok args = true -> Forall token_ok (argument_tokens args) -> operands list ->
     total (elab_arguments is_hexdigit hexdigit_to_number args list) operands).
Proof.
  apply expr_arguments_ind; cbn [tokens argument_tokens ExprGrammar.elab elab_arguments].
  - intros n next Hw Ht. split_tokens. by apply atom_operand.
  - intros o e IH c next Hw Ht. split_bools. split_tokens. by apply IH.
  - intros e IHe o i IHi c next Hw Ht. split_bools. split_tokens. bind IHe. bind IHi. apply operator_ok; [closed_decide|done..].
  - intros e IHe p n next Hw Ht. split_bools. split_tokens. bind IHe.
    apply operator_ok; [token_in|by apply token_ok_children|done|]. apply tree_set_string_ok; [token_in|token_not].
  - intros e IHe sc ty next Hw Ht. split_bools. split_tokens. bind IHe. by eapply operand_unary; [closed_decide|..].
  - intros n o c next Hw Ht. apply apply_function_total. split; [done|]. by intros p ?%elem_of_nil.
  - intros n o args IH next Hw Ht. split_bools. split_tokens. eapply total_bind; [apply IH; [done..|]|intros; by apply apply_function_total].
    split; [done|]. by intros p ?%elem_of_nil.
  - intros signs e IHe next Hw Ht. split_bools. split_tokens. bind IHe. apply unary_ok; [done| |done]. intros minus. by apply sign_of_minus.
  - intros e1 IH1 op e2 IH2 next Hw Ht. cbn [well_formed] in Hw. destruct (operator_level op) as [lv|] eqn:E; [|done]. split_bools.
    split_tokens. bind IH1. bind IH2. by apply apply_operator_total.
  - intros op e IHe next Hw Ht. split_bools. split_tokens. bind IHe. destruct (prefix_function (t_token op)) eqn:E; [|throw].
    apply prefix_needed in E. by apply function_call_operand.
  - intros e IHe negated op e1 IH1 also e2 IH2 next Hw Ht. split_bools. split_tokens. bind IHe. bind IH1. bind IH2. by apply between_ok.
  - intros e IHe negated op e1 IH1 next Hw Ht. split_bools. split_tokens. bind IHe. bind IH1.
    apply like_ok; [destruct (node_keyword op _); cbn; auto|done..].
  - intros e IHe op negated what next Hw Ht. split_bools. split_tokens. bind IHe. unfold is_test.
    repeat case_match; [by apply is_true_ok|by apply is_false_ok|by apply is_null_ok].
  - intros nots e IHe next Hw Ht. split_bools. split_tokens. bind IHe. by apply logical_not_ok.
  - intros e IHe c list Hw Ht Hl. split_bools. split_tokens. bind IHe. by apply append_operand.
  - intros e IHe c args IHa list Hw Ht Hl. split_bools. split_tokens. bind IHe. apply IHa; [done..|]. by apply append_operand.
Qed.

(** ** The loops of the levels *)

Definition chained (lv : level) : bool :=
  match lv with
  | EXPR_LIST | EXPR_LOGICAL_NOT | EXPR_MATCHING | EXPR_UNARY | EXPR_PRIMARY => false
  | _ => true
  end.

(** The token of the state does not continue the level. *)
Definition follow (r : nat) (s : state) : Prop := (r < continues (f_node s))%nat.

(** ** Tokens that continue an expression *)

Lemma continues_keyword (n : tree) : t_token n = TOKEN_IDENTIFIER -> continues n = keyword_rank (get_string_upper n).
Proof. intros. unfold continues. by rewrite decide_True. Qed.

Lemma continues_token (n : tree) : t_token n <> TOKEN_IDENTIFIER -> continues n = token_rank (t_token n).
Proof. intros. unfold continues. by rewrite decide_False. Qed.

Lemma node_keyword_true (n : tree) k : node_keyword n k = true -> t_token n = TOKEN_IDENTIFIER /\ get_string_upper n = k.
Proof. by intros [?%bool_decide_eq_true_1 ?%bool_decide_eq_true_1]%andb_true_iff. Qed.

Lemma continues_node_keyword (n : tree) k : node_keyword n k = true -> continues n = keyword_rank k.
Proof. intros [? <-]%node_keyword_true. by apply continues_keyword. Qed.

Lemma continues_among (n : tree) (ts : list Z) r : t_token n ∈ ts ->
  forallb (fun t => bool_decide (t <> TOKEN_IDENTIFIER /\ token_rank t = r)) ts = true -> continues n = r.
Proof. intros Ht Hr. apply (check_list _ _ _ Hr) in Ht as [? <-]. by apply continues_token. Qed.

Lemma continues_operator (op : tree) lv : operator_level op = Some lv -> continues op = rank lv.
Proof.
  intros H%operator_level_tokens. destruct lv; try done; [by rewrite (continues_node_keyword _ _ H)..| | | | |].
  - by eapply continues_among.
  - apply orb_true_iff in H as [H|H]; apply bool_decide_eq_true_1 in H; by eapply continues_among.
  - by eapply continues_among.
  - by eapply continues_among.
  - rewrite continues_token by (by rewrite H). by rewrite H.
Qed.

Lemma not_keyword r (s : state) k : follow r s -> (keyword_rank k <= r)%nat -> is_keyword s k = false.
Proof.
  intros Hf Hk. destruct (is_keyword s k) eqn:E; [|done]. exfalso. unfold is_keyword in E.
  apply andb_true_iff in E as [Ht%token_current Hu%bool_decide_eq_true_1]. unfold follow in Hf. rewrite continues_keyword in Hf by done.
  rewrite Hu in Hf. lia.
Qed.

Lemma not_token r (s : state) t : follow r s -> t <> TOKEN_IDENTIFIER -> (token_rank t <= r)%nat -> is_token s t = false.
Proof.
  intros Hf Ht Hr. destruct (is_token s t) eqn:E; [|done]. apply token_current in E. exfalso. unfold follow in Hf.
  rewrite continues_token in Hf by (unfold current in E; congruence). unfold current in E. rewrite E in Hf. lia.
Qed.

Lemma not_among r (s : state) (ts : list Z) : follow r s -> forallb (fun t => bool_decide (t <> TOKEN_IDENTIFIER /\ (token_rank t <= r)%nat)) ts = true ->
  bool_decide (current s ∈ ts) = false.
Proof.
  intros Hf Hr. apply bool_decide_eq_false. intros Ht. apply (check_list _ _ _ Hr) in Ht as [Hi Hr'].
  pose proof (not_token r s (current s) Hf Hi Hr') as H. unfold is_token in H. by apply bool_decide_eq_false in H.
Qed.

Section Loops.
Context (fuel : nat) (parse : level -> state -> result (tree * state)).
Abbreviation level_of := (parse_level EOS is_hexdigit hexdigit_to_number to_u8string fuel parse).
Abbreviation left_loop := (left_turn EOS is_hexdigit hexdigit_to_number to_u8string parse).

(** The rest of a level after its first operand, [l] being its location. *)
Definition loop (lv : level) (l : location) (turns : nat) (a : tree * state) : result (tree * state) :=
  match lv with
  | EXPR_LOGICAL_OR =>
      while_loop turns (left_loop EXPR_LOGICAL_AND (fun s => is_keyword s (str: "OR")) (fun op => logical_or (t_location op))) a
  | EXPR_LOGICAL_AND =>
      while_loop turns (left_loop EXPR_LOGICAL_NOT (fun s => is_keyword s (str: "AND")) (fun op => logical_and (t_location op))) a
  | EXPR_IS => while_loop turns (is_turn EOS is_hexdigit hexdigit_to_number to_u8string) a
  | EXPR_COMPARISON =>
      while_loop turns (left_loop EXPR_MATCHING (fun s => bool_decide (current s ∈ comparison_operators))
        (comparison is_hexdigit hexdigit_to_number)) a
  | EXPR_OTHER => while_loop turns (other_turn EOS is_hexdigit hexdigit_to_number to_u8string fuel parse l) a
  | EXPR_ADDITIVE =>
      while_loop turns (left_loop EXPR_MULTIPLICATIVE (fun s => bool_decide (current s ∈ [TOKEN_PLUS; TOKEN_MINUS]))
        (additive is_hexdigit hexdigit_to_number)) a
  | EXPR_MULTIPLICATIVE =>
      while_loop turns (left_loop EXPR_EXPONENTIATION
        (fun s => bool_decide (current s ∈ [TOKEN_MULTIPLY; TOKEN_DIVIDE; TOKEN_MODULO])) (multiplicative is_hexdigit hexdigit_to_number)) a
  | EXPR_EXPONENTIATION =>
      while_loop turns (left_loop EXPR_UNARY (fun s => is_token s TOKEN_POWER) (power is_hexdigit hexdigit_to_number)) a
  | EXPR_POSTFIX =>
      while_loop turns (postfix_turn EOS is_hexdigit hexdigit_to_number to_u8string parse) (false, fst a, snd a)
  | _ => Throw fuel_exhausted
  end.

Lemma loop_start lv s a : chained lv = true -> (lv = EXPR_OTHER -> prefix_function (current s) = None) ->
  parse (tight lv) s = Ok a -> level_of lv s = loop lv (here s) fuel a.
Proof.
  intros Hlv Hp Ha. destruct lv; try done; cbn [parse_level loop tight] in *.
  1,2,4,6,7,8: cbv delta [parse_expr_logical_or parse_expr_logical_and parse_expr_comparison parse_expr_additive
    parse_expr_multiplicative parse_expr_exponentiation left_associative] beta; by rewrite Ha.
  - unfold parse_expr_is. by rewrite Ha.
  - unfold parse_expr_other. rewrite Hp by done. cbv zeta. by rewrite Ha.
  - unfold parse_expr_postfix. rewrite Ha. by destruct a.
Qed.

(** One operator. *)
Lemma left_loop_operator operand operator apply turns lhs s s1 rhs s2 t : operator s = true -> next_token s = Ok s1 ->
  parse operand s1 = Ok (rhs, s2) -> apply (f_node s) lhs rhs = Ok t ->
  while_loop (S turns) (left_loop operand operator apply) (lhs, s) = while_loop turns (left_loop operand operator apply) (t, s2).
Proof. intros Ho Hs Hr Ht. cbn [while_loop left_turn]. by rewrite Ho, Hs; cbn [result_bind]; rewrite Hr; cbn [result_bind]; rewrite Ht. Qed.

Lemma loop_operator lv l turns lhs s s1 rhs s2 t : operator_level (f_node s) = Some lv -> next_token s = Ok s1 ->
  parse (tight lv) s1 = Ok (rhs, s2) -> apply_operator is_hexdigit hexdigit_to_number lv (f_node s) lhs rhs = Ok t ->
  loop lv l (S turns) (lhs, s) = loop lv l turns (t, s2).
Proof.
  intros Hlv%operator_level_tokens Hs1 Hr Ht. destruct lv; try done; cbn [loop tight apply_operator] in *.
  1,2,3,5,6,7: eapply left_loop_operator; eauto; by apply bool_decide_eq_true.
  cbn [while_loop]. unfold other_turn, current. by rewrite Hlv, Hs1; cbn [result_bind]; rewrite Hr; cbn [result_bind]; rewrite Ht.
Qed.

(** The end of a loop. *)
Lemma loop_exit lv l turns t s : chained lv = true -> follow (rank lv) s -> (lv = EXPR_POSTFIX -> t_token t <> TOKEN_TYPE) ->
  loop lv l (S turns) (t, s) = Ok (t, s).
Proof.
  intros Hlv Hf Ht. destruct lv; try done; cbn [loop rank while_loop fst snd] in *; unfold left_turn.
  - by rewrite (not_keyword 12) by done.
  - by rewrite (not_keyword 11) by done.
  - unfold is_turn. by rewrite (not_keyword 9) by done.
  - by rewrite (not_among 8) by done.
  - unfold other_turn. rewrite (not_among 6) by done. rewrite (not_among 6) by done. by rewrite (not_token 6) by done.
  - by rewrite (not_among 5) by done.
  - by rewrite (not_among 4) by done.
  - by rewrite (not_token 3) by done.
  - unfold postfix_turn. rewrite decide_False by auto. by rewrite !(not_token 1) by done.
Qed.

(** An optional NOT. *)
Lemma optional_not s1 negated s2 : path s1 (option_list negated) s2 -> negation_ok negated = true ->
  (negated = None -> is_keyword s1 (str: "NOT") = false) ->
  is_keyword s1 (str: "NOT") = bool_decide (is_Some negated) /\ (if bool_decide (is_Some negated) then next_token s1 else Ok s1) = Ok s2.
Proof.
  intros Hp Hn Hs. destruct negated as [n|]; cbn [option_list negation_ok] in *.
  - by apply path_cons_inv in Hp as [<- (m & -> & ->%path_nil_inv)].
  - apply path_nil_inv in Hp as ->. by rewrite Hs.
Qed.

Lemma keyword_other (s : state) k k' : is_keyword s k = true -> k <> k' -> is_keyword s k' = false.
Proof. intros [? <-]%node_keyword_true Hk. apply andb_false_iff. right. by apply bool_decide_eq_false. Qed.

(** IS [NOT] TRUE, FALSE or NULL. *)
Lemma loop_is l turns lhs s s1 negated s2 s3 : is_keyword s (str: "IS") = true -> next_token s = Ok s1 ->
  path s1 (option_list negated) s2 -> negation_ok negated = true ->
  (is_keyword s2 (str: "TRUE") || is_keyword s2 (str: "FALSE") || is_keyword s2 (str: "NULL") = true) -> next_token s2 = Ok s3 ->
  loop EXPR_IS l (S turns) (lhs, s) = loop EXPR_IS l turns (is_test (bool_decide (is_Some negated)) (f_node s2) lhs, s3).
Proof.
  intros Hs Hs1 Hp Hn Hw Hs3. cbn [loop while_loop]. unfold is_turn at 1. rewrite Hs, Hs1. cbn [result_bind].
  assert (is_keyword s2 (str: "NOT") = false) as Hnot.
  { rewrite !orb_true_iff in Hw. destruct Hw as [[H|H]|H]; by eapply keyword_other. }
  destruct (optional_not s1 negated s2 Hp Hn) as [-> ->]; [intros ->; apply path_nil_inv in Hp as <-; done|]. cbn [result_bind]. cbv zeta.
  assert (is_token s2 TOKEN_IDENTIFIER = true) as ->.
  { rewrite !orb_true_iff in Hw. destruct Hw as [[H|H]|H]; by apply andb_true_iff in H as [? _]. }
  unfold is_test. change (node_keyword (f_node s2)) with (is_keyword s2). rewrite Hs3. cbn [negb result_bind].
  destruct (is_keyword s2 (str: "TRUE")); [done|]. destruct (is_keyword s2 (str: "FALSE")); [done|]. cbn [orb] in Hw. by rewrite Hw.
Qed.

(** Postfix operators. *)
Lemma token_true (s : state) t : current s = t -> is_token s t = true.
Proof. intros. by apply bool_decide_eq_true. Qed.

Lemma token_false (s : state) t t' : current s = t -> t <> t' -> is_token s t' = false.
Proof. intros. apply bool_decide_eq_false. congruence. Qed.

Lemma loop_index l turns lhs s s1 i s2 s3 : t_token lhs <> TOKEN_TYPE -> current s = TOKEN_OPEN_BRACKET -> next_token s = Ok s1 ->
  parse EXPR_LOGICAL_OR s1 = Ok (i, s2) -> current s2 = TOKEN_CLOSE_BRACKET -> next_token s2 = Ok s3 ->
  loop EXPR_POSTFIX l (S turns) (lhs, s) = loop EXPR_POSTFIX l turns (append_child (node1 TOKEN_AT (here s) lhs) i, s3).
Proof.
  intros Ht Hs Hs1 Hi Hc Hs3. cbn [loop while_loop fst snd]. unfold postfix_turn at 1. rewrite decide_False by done.
  rewrite !(token_false s _ _ Hs) by done. rewrite token_true by done. unfold element_access, expect. rewrite Hs1. cbn [result_bind].
  by rewrite Hi; cbn [result_bind]; rewrite token_true, Hs3.
Qed.

Lemma loop_field l turns lhs s s1 s2 : t_token lhs <> TOKEN_TYPE -> current s = TOKEN_PERIOD -> next_token s = Ok s1 ->
  current s1 = TOKEN_IDENTIFIER -> next_token s1 = Ok s2 ->
  loop EXPR_POSTFIX l (S turns) (lhs, s) =
  loop EXPR_POSTFIX l turns (append_child (append_child (f_node s) lhs) (tree_set_string (f_node s1) (get_string_lower (f_node s1))), s2).
Proof.
  intros Ht Hs Hs1 Hi Hs2. cbn [loop while_loop fst snd]. unfold postfix_turn at 1. rewrite decide_False by done.
  rewrite token_true by done. unfold field_access. cbv zeta. rewrite Hs1. cbn [result_bind].
  rewrite (token_false s1 _ _ Hi) by done. by rewrite token_true, Hs2.
Qed.

Lemma loop_scope l turns lhs s s1 t s2 : t_token lhs <> TOKEN_TYPE -> current s = TOKEN_SCOPE -> next_token s = Ok s1 ->
  current s1 = TOKEN_IDENTIFIER -> parse EXPR_PRIMARY s1 = Ok (t, s2) -> t_token t = TOKEN_TYPE ->
  loop EXPR_POSTFIX l (S turns) (lhs, s) =
  loop EXPR_POSTFIX l turns (append_child (tree_set_integer (make_node TOKEN_CAST (t_location t)) (t_integer t)) lhs, s2).
Proof.
  intros Ht Hs Hs1 Hi Hp Htype. cbn [loop while_loop fst snd]. unfold postfix_turn at 1. rewrite decide_False by done.
  rewrite !(token_false s _ _ Hs) by done. rewrite token_true by done. unfold scope_cast. rewrite Hs1. cbn [result_bind].
  rewrite token_true by done. cbn [negb]. rewrite Hp. cbn [result_bind]. by rewrite decide_True.
Qed.

(** A call; [params] are read up to the parenthesis. *)
Lemma loop_call l turns name s s1 params s2 s3 t : t_token name = TOKEN_IDENTIFIER -> current s = TOKEN_OPEN_PARENTHESIS -> next_token s = Ok s1 ->
  (if is_token s1 TOKEN_CLOSE_PARENTHESIS then Ok (make_node TOKEN_LIST (here s1), s1) else parse EXPR_LIST s1) = Ok (params, s2) ->
  current s2 = TOKEN_CLOSE_PARENTHESIS -> next_token s2 = Ok s3 ->
  apply_function is_hexdigit hexdigit_to_number (get_string_upper name) (here s) params = Ok t ->
  loop EXPR_POSTFIX l (S turns) (name, s) = loop EXPR_POSTFIX l turns (t, s3).
Proof.
  intros Hn Hs Hs1 Hp Hc Hs3 Ht. cbn [loop while_loop fst snd]. unfold postfix_turn at 1. rewrite decide_False by (by rewrite Hn).
  rewrite !(token_false s _ _ Hs) by done. rewrite token_true, decide_True by done. unfold named_call. cbv zeta.
  unfold apply_function in Ht. destruct (assoc _ functions) as [[func count]|]; [|done].
  unfold parse_expr_function_parameters. rewrite Hs1. cbn [result_bind]. rewrite Hp. cbn [result_bind]. rewrite token_true by done. cbn [negb].
  destruct (bool_decide (is_Some count) && _); [done|]. rewrite Hs3. cbn [result_bind].
  apply result_bind_ok in Ht as (func' & -> & Ht). cbn [result_bind]. by rewrite Ht.
Qed.
(** A literal or a word. *)
Lemma level_atom s s1 : atom_ok (f_node s) = true -> next_token s = Ok s1 -> follow 0 s1 -> (0 < fuel)%nat ->
  level_of EXPR_PRIMARY s = Ok (atom_tree (f_node s), s1).
Proof.
  intros Ha Hs Hfo Hf. destruct fuel as [|g]; [lia|]. cbn [parse_level]. unfold parse_expr_primary, atom_tree.
  apply orb_true_iff in Ha as [Ha|Ha]; apply bool_decide_eq_true_1 in Ha.
  - destruct (decide (current s = TOKEN_STRING)) as [E|E].
    { rewrite token_true by done. unfold parse_strings. cbv zeta. rewrite Hs. cbn [result_bind while_loop string_turn].
      rewrite (not_token 0 s1) by done. unfold current in E. by rewrite decide_False by (by rewrite E). }
    assert (current s ∈ [TOKEN_INTEGER; TOKEN_FLOATING_POINT]) as Hn by (unfold current in *; set_solver).
    assert (is_token s TOKEN_STRING = false /\ is_token s TOKEN_IDENTIFIER = false /\ (is_token s TOKEN_FLOATING_POINT || is_token s TOKEN_INTEGER = true) /\
      current s <> TOKEN_IDENTIFIER) as (-> & -> & -> & Hi).
    { rewrite !elem_of_cons, elem_of_nil in Hn. destruct Hn as [Hn|[Hn|[]]]; unfold is_token; rewrite Hn; done. }
    unfold current in Hi. rewrite decide_False by done. by rewrite Hs.
  - destruct Ha as (Hi & Htype & Hd & Hu & _). rewrite (token_false s TOKEN_IDENTIFIER) by done. rewrite token_true by done.
    rewrite decide_True by done. unfold parse_word. cbv zeta. rewrite Htype. rewrite decide_False by done. rewrite decide_False by done.
    repeat (destruct (decide _); [by rewrite Hs|]). by rewrite Hs.
Qed.

End Loops.

(** ** Reading an expression *)

(** The tokens of the well-formed expression [e] are between [s] and [s'] and it
    means [t]. *)
Record reads (e : expr F) (s s' : state) (t : tree) : Prop := {
  reads_well_formed : well_formed e = true;
  reads_tokens : Forall token_ok (tokens e);
  reads_path : path s (tokens e) s';
  reads_meaning : elab e (here s') = Ok t;
}.

Lemma reads_operand e s s' t : reads e s s' t -> operand t.
Proof. intros [Hw Ht _ He]. destruct elab_total as [H _]. specialize (H e (here s') Hw Ht). by rewrite He in H. Qed.

Lemma tokens_nonempty (e : expr F) : well_formed e = true -> (0 < length (tokens e))%nat.
Proof. destruct e; cbn [tokens]; intros H; rewrite ?length_app; cbn [length]; try lia.
  - destruct signs; [by split_bools|cbn; lia].
  - destruct nots; [by split_bools|cbn; lia].
Qed.

(** The first token of an expression is not an operator of a looser level. *)
Lemma atom_start (s : state) : atom_ok (f_node s) = true ->
  is_keyword s (str: "NOT") = false /\ prefix_function (current s) = None /\ is_token s TOKEN_PLUS = false /\
  is_token s TOKEN_MINUS = false /\ is_token s TOKEN_CLOSE_PARENTHESIS = false.
Proof.
  intros H. assert (current s ∈ [TOKEN_STRING; TOKEN_INTEGER; TOKEN_FLOATING_POINT; TOKEN_IDENTIFIER]) as Ht.
  { unfold current. apply orb_true_iff in H as [H|H]; apply bool_decide_eq_true in H; set_solver. }
  split.
  - unfold is_keyword, is_token. apply andb_false_iff. apply orb_true_iff in H as [H|H]; apply bool_decide_eq_true in H.
    + left. apply bool_decide_eq_false. intros E. unfold current in E. rewrite E in H. revert H. apply (bool_decide_unpack (not _)). vm_compute. exact I.
    + right. apply bool_decide_eq_false. tauto.
  - unfold is_token. rewrite !bool_decide_eq_false. revert Ht.
    by apply (check_list (fun c => prefix_function c = None /\ c <> TOKEN_PLUS /\ c <> TOKEN_MINUS /\ c <> TOKEN_CLOSE_PARENTHESIS)).
Qed.

Lemma not_keyword_token (s : state) k : current s <> TOKEN_IDENTIFIER -> is_keyword s k = false.
Proof. intros H. unfold is_keyword, is_token. by rewrite bool_decide_false. Qed.

Lemma not_prefix (e : expr F) : (prec e <= 5)%nat -> is_prefix e = false.
Proof. destruct e; cbn; done || lia. Qed.

(** What the first token is not, for expressions of the rank [r]. *)
Definition starts (r : nat) (prefix : bool) (s : state) : Prop :=
  ((r <= 9)%nat -> is_keyword s (str: "NOT") = false) /\
  ((r <= 6)%nat -> prefix = false -> prefix_function (current s) = None) /\
  ((r <= 1)%nat -> is_token s TOKEN_PLUS = false /\ is_token s TOKEN_MINUS = false) /\
  is_token s TOKEN_CLOSE_PARENTHESIS = false.

Lemma starts_atom r prefix (s : state) : atom_ok (f_node s) = true -> starts r prefix s.
Proof. intros H. destruct (atom_start s H) as (? & ? & ? & ? & ?). by split_and!. Qed.

(** A larger expression that starts with [e]. *)
Lemma starts_le e r prefix s : starts (prec e) (is_prefix e) s -> (prec e <= r)%nat -> ((r <= 6)%nat -> prefix = false -> is_prefix e = false) ->
  starts r prefix s.
Proof. intros (H1 & H2 & H3 & H4) Hr Hp. split_and!; intros; [apply H1|apply H2|apply H3..|done]; auto; lia. Qed.

Lemma operator_level_rank (op : tree) lv : operator_level op = Some lv -> (rank lv = 6 /\ lv = EXPR_OTHER \/ rank lv < 6 \/ 6 < rank lv)%nat /\ (1 < rank lv <= 12)%nat.
Proof. intros H%operator_level_tokens. destruct lv; try done; cbn; intuition lia. Qed.

Lemma start_of e s s' : well_formed e = true -> path s (tokens e) s' -> starts (prec e) (is_prefix e) s.
Proof.
  revert s'. induction e as [n|o e _ c|e IHe o i _ c|e IHe p n|e IHe sc ty|n o c|n o args|signs e _|e1 IH1 op e2 _|op e _
    |e IHe negated op e1 _ also e2 _|e IHe negated op e1 _|e IHe op negated what|nots e _]; intros s' Hw Hp; cbn [tokens prec is_prefix] in *.
  - apply path_cons_inv in Hp as [<- _]. by apply starts_atom.
  - apply path_cons_inv in Hp as [<- _]. split_bools. match goal with H : t_token (f_node s) = _ |- _ => rename H into Ht end.
    split_and!; intros; [apply not_keyword_token|unfold is_token..]; unfold current; by rewrite Ht.
  - apply path_app in Hp as (m & Hp & _). split_bools. rewrite ?Nat.leb_le in *. eapply starts_le; [by eapply IHe|lia|]. intros. apply not_prefix. lia.
  - apply path_app in Hp as (m & Hp & _). split_bools. rewrite ?Nat.leb_le in *. eapply starts_le; [by eapply IHe|lia|]. intros. apply not_prefix. lia.
  - apply path_app in Hp as (m & Hp & _). split_bools. rewrite ?Nat.leb_le in *. eapply starts_le; [by eapply IHe|lia|]. intros. apply not_prefix. lia.
  - apply path_cons_inv in Hp as [<- _]. split_bools. apply starts_atom. unfold name_ok in *. by split_bools.
  - apply path_cons_inv in Hp as [<- _]. split_bools. apply starts_atom. unfold name_ok in *. by split_bools.
  - split_bools. destruct signs as [|n signs]; [done|]. apply path_cons_inv in Hp as [<- _]. cbn [forallb] in *. split_bools.
    match goal with H : is_a _ _ || _ = true |- _ => apply orb_true_iff in H as [Ht|Ht]; apply bool_decide_eq_true_1 in Ht end.
    all: split_and!; intros; [apply not_keyword_token|unfold is_token..]; unfold current; rewrite ?Ht; done || lia.
  - apply path_app in Hp as (m & Hp & _). cbn [well_formed] in Hw. destruct (operator_level op) as [lv|] eqn:E; [|done]. split_bools.
    apply operator_level_rank in E. rewrite ?Nat.leb_le in *. eapply starts_le; [by eapply IH1|lia|].
    intros Hr _. destruct E as [[[E ->]|E] _]; [by destruct (is_prefix e1)|]. apply not_prefix. lia.
  - apply path_cons_inv in Hp as [<- _]. split_bools.
    match goal with H : bool_decide (is_Some _) = true |- _ => apply bool_decide_eq_true in H as [func Hf] end.
    split_and!; intros; [|done|lia..|].
    + apply not_keyword_token. intros Ht. unfold current in Ht. by rewrite Ht in Hf.
    + unfold is_token. apply bool_decide_eq_false. intros Ht. unfold current in Ht. by rewrite Ht in Hf.
  - apply path_app in Hp as (m & Hp & _). split_bools. rewrite ?Nat.leb_le in *. eapply starts_le; [by eapply IHe|lia|lia].
  - apply path_app in Hp as (m & Hp & _). split_bools. rewrite ?Nat.leb_le in *. eapply starts_le; [by eapply IHe|lia|lia].
  - apply path_app in Hp as (m & Hp & _). split_bools. rewrite ?Nat.leb_le in *. eapply starts_le; [by eapply IHe|lia|lia].
  - split_and!; [intros; lia..|]. split_bools. destruct nots as [|n nots]; [done|]. apply path_cons_inv in Hp as [<- _]. cbn [forallb] in *.
    split_bools. match goal with H : node_keyword _ _ = true |- _ => apply node_keyword_true in H as [Ht _] end.
    unfold is_token. apply bool_decide_eq_false. unfold current. by rewrite Ht.
Qed.

(** ** The induction *)

(** What the parser returns within [fuel] calls. *)
Definition parses (fuel : nat) : Prop := forall e lv s s' t,
  reads e s s' t -> (prec e <= rank lv <= 12)%nat -> follow (rank lv) s' -> (14 * length (tokens e) + rank lv < fuel)%nat ->
  parse_expr EOS is_hexdigit hexdigit_to_number to_u8string fuel lv s = Ok (t, s').

(** Arguments are read up to the closing parenthesis. *)
Definition parses_arguments (fuel : nat) : Prop := forall args s s' params,
  arguments_ok args = true -> Forall token_ok (argument_tokens args) -> path s (argument_tokens args) s' ->
  elab_arguments is_hexdigit hexdigit_to_number args (make_node TOKEN_LIST (here s)) = Ok params ->
  (14 * length (argument_tokens args) + 13 < fuel)%nat ->
  exists c, parse_expr EOS is_hexdigit hexdigit_to_number to_u8string fuel EXPR_LIST s = Ok (params, c) /\
    current c = TOKEN_CLOSE_PARENTHESIS /\ next_token c = Ok s'.

Lemma rank_tight lv : chained lv = true -> rank (tight lv) = pred (rank lv).
Proof. by destruct lv. Qed.

Lemma prec_12 (e : expr F) : (prec e <= 12)%nat.
Proof. destruct e; cbn; try lia. destruct (operator_level op) eqn:E; [|lia]. apply operator_level_rank in E. lia. Qed.

Section Step.
Context (fuel : nat) (IH : parses fuel) (IHargs : parses_arguments fuel).
Abbreviation parse := (parse_expr EOS is_hexdigit hexdigit_to_number to_u8string fuel).
Abbreviation level_of := (parse_level EOS is_hexdigit hexdigit_to_number to_u8string fuel parse).

(** An expression of a tighter level, or the left operands of an operator of the
    level, up to the loop of the level. *)
Definition chain (e : expr F) (lv : level) : Prop := forall s s' t,
  reads e s s' t -> chained lv = true -> (prec e <= rank lv)%nat -> (lv = EXPR_OTHER -> is_prefix e = false) ->
  follow (pred (rank lv)) s' -> (14 * length (tokens e) + rank lv <= fuel)%nat ->
  exists turns, (fuel <= turns + length (tokens e))%nat /\ level_of lv s = loop fuel parse lv (here s) turns (t, s').

Lemma chain_tighter e lv s s' t : reads e s s' t -> chained lv = true -> (prec e < rank lv)%nat -> (lv = EXPR_OTHER -> is_prefix e = false) ->
  follow (pred (rank lv)) s' -> (14 * length (tokens e) + rank lv <= fuel)%nat ->
  level_of lv s = loop fuel parse lv (here s) fuel (t, s').
Proof.
  intros Hr Hlv Hp Hx Hf Hb. pose proof (rank_tight lv Hlv) as Ht. assert (rank lv <= 12)%nat by (destruct lv; try done; cbn; lia).
  apply loop_start; [done| |apply (IH e); [done|lia|by rewrite Ht|lia]].
  intros ->. destruct (start_of e s s') as (_ & Hs & _); [apply Hr..|]. apply Hs; [cbn in Hp; lia|auto].
Qed.

Lemma reads_binary e1 op e2 s s' t : reads (Binary e1 op e2) s s' t -> exists lv m s1 lhs rhs,
  operator_level op = Some lv /\ f_node m = op /\ next_token m = Ok s1 /\ reads e1 s m lhs /\ reads e2 s1 s' rhs /\
  apply_operator is_hexdigit hexdigit_to_number lv op lhs rhs = Ok t /\ (prec e1 <= rank lv)%nat /\ (prec e2 < rank lv)%nat /\
  (lv = EXPR_OTHER -> is_prefix e1 = false).
Proof.
  intros [Hw Ht Hp He]. cbn [well_formed tokens ExprGrammar.elab] in *. destruct (operator_level op) as [lv|]; [|done].
  split_bools. split_tokens. apply path_app in Hp as (m & Hp1 & Hp). apply path_cons_inv in Hp as (<- & s1 & Hs1 & Hp2).
  apply result_bind_ok in He as (lhs & Hl & He). apply result_bind_ok in He as (rhs & Hr & He). rewrite ?Nat.leb_le, ?Nat.ltb_lt in *.
  exists lv, m, s1, lhs, rhs. split_and!; try done; try lia.
  intros ->. by destruct (is_prefix e1).
Qed.

Lemma chain_binary e1 op e2 lv : chain e1 lv -> operator_level op = Some lv -> chain (Binary e1 op e2) lv.
Proof.
  intros IH1 Hop s s' t Hr Hlv _ _ Hf Hb. apply reads_binary in Hr as (lv' & m & s1 & lhs & rhs & Hop' & <- & Hs1 & Hr1 & Hr2 & Ht & Hp1 & Hp2 & Hx).
  rewrite Hop in Hop'. injection Hop' as <-. pose proof (rank_tight lv Hlv). cbn [tokens] in *. rewrite length_app in *. cbn [length] in *.
  destruct (IH1 s m lhs Hr1 Hlv Hp1 Hx) as (turns & Hturns & Heq); [unfold follow; rewrite (continues_operator _ lv Hop); lia|lia|].
  destruct turns as [|turns]; [lia|]. exists turns. split; [lia|]. rewrite Heq.
  eapply loop_operator; [done|done| |done]. apply (IH e2); [done| | |lia].
  - assert (rank lv <= 12)%nat by (destruct lv; try done; cbn; lia). lia.
  - by rewrite rank_tight.
Qed.

(** What the cases of the postfix operators share. *)
Lemma chain_left e lv s m lhs n : chain e lv -> reads e s m lhs -> chained lv = true -> (prec e <= rank lv)%nat ->
  (lv = EXPR_OTHER -> is_prefix e = false) -> continues (f_node m) = rank lv -> (0 < rank lv)%nat ->
  (14 * (length (tokens e) + n) + rank lv <= fuel)%nat -> (0 < n)%nat ->
  exists turns, (fuel <= turns + (length (tokens e) + n))%nat /\ level_of lv s = loop fuel parse lv (here s) (S turns) (lhs, m).
Proof.
  intros IHe Hr Hlv Hp Hx Hc H0 Hb Hn. destruct (IHe s m lhs Hr Hlv Hp Hx) as (turns & Hturns & Heq); [unfold follow; lia|lia|].
  destruct turns as [|turns]; [lia|]. exists turns. split; [lia|done].
Qed.

Lemma operand_token_not_type e s s' t : reads e s s' t -> t_token t <> TOKEN_TYPE.
Proof. intros H. by apply operand_not_type, (reads_operand e s s'). Qed.

(** The rank of a token that is known. *)
Ltac known_token := rewrite continues_token by (match goal with H : t_token (f_node ?s) = _ |- t_token (f_node ?s) <> _ => by rewrite H end);
  match goal with H : t_token (f_node ?s) = _ |- context [t_token (f_node ?s)] => rewrite H end.
Ltac known_keyword :=
  match goal with H : node_keyword ?n _ = true |- context [continues ?n] => rewrite (continues_node_keyword _ _ H) end.
Ltac postfix_token := known_token; done.
Ltac end_token := unfold follow; known_token; apply Nat.ltb_lt; vm_compute; reflexivity.

Lemma chain_index e o i c : chain e EXPR_POSTFIX -> chain (Index e o i c) EXPR_POSTFIX.
Proof.
  intros IHe s s' t [Hw Ht Hp He] Hlv _ _ Hf Hb. cbn [tokens ExprGrammar.elab] in *. split_bools. split_tokens. rewrite ?Nat.leb_le in *.
  apply path_app in Hp as (m & Hp1 & Hp). apply path_cons_inv in Hp as (<- & s1 & Hs1 & Hp). apply path_app in Hp as (m2 & Hp2 & Hp).
  apply path_cons_inv in Hp as (<- & s2 & Hs2 & ->%path_nil_inv).
  apply result_bind_ok in He as (lhs & Hl & He). apply result_bind_ok in He as (idx & Hi & [= <-]).
  assert (reads e s m lhs) as Hr1 by done. assert (reads i s1 m2 idx) as Hr2 by done.
  rewrite length_app in *. cbn [length] in *. rewrite length_app in *. cbn [length] in *.
  assert (rank EXPR_POSTFIX = 1%nat) as Hrank by done.
  destruct (chain_left e EXPR_POSTFIX s m lhs (S (length (tokens i) + 1)) IHe Hr1) as (turns & Hturns & Heq); [done..|postfix_token|cbn; lia|done|lia|].
  exists turns. split; [done|]. rewrite Heq. eapply loop_index; [by eapply operand_token_not_type|done|done| |done|done].
  apply (IH i); [done|pose proof (prec_12 i); cbn; lia| |cbn in *; lia]. end_token.
Qed.

Lemma chain_field e p n : chain e EXPR_POSTFIX -> chain (Field e p n) EXPR_POSTFIX.
Proof.
  intros IHe s s' t [Hw Ht Hp He] Hlv _ _ Hf Hb. cbn [tokens ExprGrammar.elab] in *. split_bools. split_tokens. rewrite ?Nat.leb_le in *.
  apply path_app in Hp as (m & Hp1 & Hp). apply path_cons_inv in Hp as (<- & s1 & Hs1 & Hp).
  apply path_cons_inv in Hp as (<- & s2 & Hs2 & ->%path_nil_inv). apply result_bind_ok in He as (lhs & Hl & [= <-]).
  assert (reads e s m lhs) as Hr1 by done. rewrite length_app in *. cbn [length] in *.
  destruct (chain_left e EXPR_POSTFIX s m lhs 2 IHe Hr1) as (turns & Hturns & Heq); [done..|postfix_token|cbn; lia|done|lia|].
  exists turns. split; [done|]. rewrite Heq. apply loop_field; [by eapply operand_token_not_type|done..].
Qed.

Lemma chain_scope e sc ty : chain e EXPR_POSTFIX -> chain (ScopeCast e sc ty) EXPR_POSTFIX.
Proof.
  intros IHe s s' t [Hw Ht Hp He] Hlv _ _ Hf Hb. cbn [tokens ExprGrammar.elab] in *. split_bools. split_tokens. rewrite ?Nat.leb_le in *.
  apply path_app in Hp as (m & Hp1 & Hp). apply path_cons_inv in Hp as (<- & s1 & Hs1 & Hp).
  apply path_cons_inv in Hp as (<- & s2 & Hs2 & ->%path_nil_inv). apply result_bind_ok in He as (lhs & Hl & [= <-]).
  assert (reads e s m lhs) as Hr1 by done. rewrite length_app in *. cbn [length] in *.
  destruct (chain_left e EXPR_POSTFIX s m lhs 2 IHe Hr1) as (turns & Hturns & Heq); [done..|postfix_token|cbn; lia|done|lia|].
  exists turns. split; [done|]. rewrite Heq. apply (loop_scope _ _ _ _ _ _ s1 (type_node (f_node s1))); [by eapply operand_token_not_type|done..| |done].
  destruct fuel as [|g]; [lia|]. cbn [parse_expr parse_level]. unfold parse_expr_primary.
  rewrite (token_false s1 TOKEN_IDENTIFIER) by done. rewrite token_true by done. unfold parse_word. cbv zeta. unfold type_node.
  match goal with H : bool_decide (is_Some _) = true |- _ => apply bool_decide_eq_true in H as [type Htype] end. rewrite Htype.
  unfold create_type_node. cbv zeta. by rewrite Hs2.
Qed.

Lemma read_atom s s1 : atom_ok (f_node s) = true -> next_token s = Ok s1 -> follow 0 s1 -> (1 < fuel)%nat ->
  parse EXPR_PRIMARY s = Ok (atom_tree (f_node s), s1).
Proof. intros Ha Hs Hfo Hf. destruct fuel as [|g]; [lia|]. cbn [parse_expr]. apply level_atom; auto; lia. Qed.

(** The name of a function, up to the loop. *)
Lemma name_chain s s1 : atom_ok (f_node s) = true -> next_token s = Ok s1 -> follow 0 s1 -> (1 < fuel)%nat ->
  exists turns, fuel = S turns /\ level_of EXPR_POSTFIX s = loop fuel parse EXPR_POSTFIX (here s) (S turns) (atom_tree (f_node s), s1).
Proof.
  intros Ha Hs Hf Hb. exists (pred fuel). split; [lia|]. rewrite (loop_start _ _ _ _ (atom_tree (f_node s), s1)); [|done..|by apply read_atom].
  f_equal. lia.
Qed.

Lemma chain_call0 n o c : chain (Call0 n o c) EXPR_POSTFIX.
Proof.
  intros s s' t [Hw Ht Hp He] Hlv _ _ Hf Hb. cbn [tokens ExprGrammar.elab] in *. split_bools. split_tokens.
  match goal with H : name_ok _ = true |- _ => apply andb_true_iff in H as [Ha Hi%bool_decide_eq_true_1] end.
  apply path_cons_inv in Hp as (<- & s1 & Hs1 & Hp). apply path_cons_inv in Hp as (<- & s2 & Hs2 & Hp).
  apply path_cons_inv in Hp as (<- & s3 & Hs3 & ->%path_nil_inv). cbn [length] in *.
  destruct (name_chain s s1) as (turns & Hturns & ->); [done|done|end_token|lia|]. exists turns. split; [lia|].
  eapply loop_call; [done|done|done| |done|done|done]. by rewrite token_true.
Qed.

Lemma first_location_path s ts s' : path s ts s' -> ts <> [] -> first_location ts = here s.
Proof. by intros []. Qed.

(** A list of arguments does not start with the parenthesis that ends it. *)
Lemma args_not_empty (args : arguments F) s s' : arguments_ok args = true -> path s (argument_tokens args) s' ->
  is_token s TOKEN_CLOSE_PARENTHESIS = false.
Proof.
  intros Hw Hp. destruct args as [e c|e c args]; cbn [argument_tokens] in Hp; apply path_app in Hp as (m & Hp & _); split_bools;
    by apply (start_of e s m).
Qed.

Lemma chain_call n o args : chain (Call n o args) EXPR_POSTFIX.
Proof.
  intros s s' t [Hw Ht Hp He] Hlv _ _ Hf Hb. cbn [tokens ExprGrammar.elab] in *. split_bools. split_tokens.
  match goal with H : name_ok _ = true |- _ => apply andb_true_iff in H as [Ha Hi%bool_decide_eq_true_1] end.
  apply path_cons_inv in Hp as (<- & s1 & Hs1 & Hp). apply path_cons_inv in Hp as (<- & s2 & Hs2 & Hp). cbn [length] in *.
  apply result_bind_ok in He as (params & Hparams & He).
  destruct (name_chain s s1) as (turns & Hturns & ->); [done|done|end_token|lia|]. exists turns. split; [lia|].
  rewrite (first_location_path s2 _ s') in Hparams; [|done|by destruct args; cbn; destruct (tokens e)].
  destruct (IHargs args s2 s' params) as (c & Hc & Hcc & Hs'); [done..|cbn in *; lia|].
  eapply loop_call; [done|done|done| |done|done|done].
  rewrite (args_not_empty args s2 s'); done.
Qed.

Lemma chain_is e op negated what : chain e EXPR_IS -> chain (IsTest e op negated what) EXPR_IS.
Proof.
  intros IHe s s' t [Hw Ht Hp He] Hlv _ _ Hf Hb. cbn [tokens ExprGrammar.elab] in *. split_bools. split_tokens. rewrite ?Nat.leb_le in *.
  apply path_app in Hp as (m & Hp1 & Hp). apply path_cons_inv in Hp as (<- & s1 & Hs1 & Hp). apply path_app in Hp as (s2 & Hp2 & Hp).
  apply path_cons_inv in Hp as (<- & s3 & Hs3 & ->%path_nil_inv). apply result_bind_ok in He as (lhs & Hl & [= <-]).
  assert (reads e s m lhs) as Hr1 by done. rewrite length_app in *. cbn [length] in *. rewrite length_app in *. cbn [length] in *.
  destruct (chain_left e EXPR_IS s m lhs (S (length (option_list negated) + 1)) IHe Hr1) as (turns & Hturns & Heq);
    [done..|known_keyword; done|cbn; lia|done|lia|].
  exists turns. split; [done|]. rewrite Heq. by eapply loop_is.
Qed.

Lemma rank_inj lv lv' : rank lv = rank lv' -> lv = lv'.
Proof. by destruct lv, lv'. Qed.

(** Every expression of the level or of a tighter one. *)
Lemma chain_all e lv : chain e lv.
Proof.
  induction e as [n|o e _ c|e IHe o i _ c|e IHe p n|e IHe sc ty|n o c|n o args|signs e _|e1 IH1 op e2 _|op e _
    |e IHe negated op e1 _ also e2 _|e IHe negated op e1 _|e IHe op negated what|nots e _]; intros s s' t Hr Hlv Hp Hx Hf Hb.
  all: match type of Hr with reads ?e _ _ _ => destruct (decide (prec e < rank lv)%nat);
    [exists fuel; split; [lia|by eapply (chain_tighter e)]|assert (prec e = rank lv) as Heq by lia] end.
  all: cbn [prec] in Heq.
  1,2,8,11,12,14: destruct lv; done.
  1,2,3,4,5: assert (lv = EXPR_POSTFIX) as -> by (by destruct lv).
  - by apply (chain_index e o i c).
  - by apply (chain_field e p n).
  - by apply (chain_scope e sc ty).
  - by apply (chain_call0 n o c).
  - by apply (chain_call n o args).
  - destruct (operator_level op) as [lv'|] eqn:E; [|by destruct lv]. apply rank_inj in Heq as ->. by apply (chain_binary e1 op e2).
  - assert (lv = EXPR_OTHER) as -> by (by destruct lv). by specialize (Hx eq_refl).
  - assert (lv = EXPR_IS) as -> by (by destruct lv). by apply (chain_is e op negated what).
Qed.

(** ** The levels *)

Lemma level_chained e lv s s' t : reads e s s' t -> chained lv = true -> (prec e <= rank lv)%nat -> (lv = EXPR_OTHER -> is_prefix e = false) ->
  follow (rank lv) s' -> (14 * length (tokens e) + rank lv <= fuel)%nat -> level_of lv s = Ok (t, s').
Proof.
  intros Hr Hlv Hp Hx Hf Hb. destruct (chain_all e lv s s' t Hr Hlv Hp Hx) as (turns & Hturns & ->); [unfold follow in *; lia|done|].
  assert (0 < length (tokens e))%nat by (apply tokens_nonempty, Hr).
  destruct turns as [|turns]; [lia|]. apply loop_exit; [done|done|]. intros _. by eapply operand_token_not_type.
Qed.

Lemma level_prefix op e s s' t : reads (Prefix op e) s s' t -> follow 6 s' -> (14 * length (tokens (Prefix op e)) + 6 <= fuel)%nat ->
  level_of EXPR_OTHER s = Ok (t, s').
Proof.
  intros [Hw Ht Hp He] Hf Hb. cbn [tokens ExprGrammar.elab] in *. split_bools. split_tokens. rewrite ?Nat.leb_le in *.
  apply path_cons_inv in Hp as (<- & s1 & Hs1 & Hp). apply result_bind_ok in He as (n & Hn & He). cbn [length] in *.
  cbn [parse_level]. unfold parse_expr_other. cbv zeta. change (t_token (f_node s)) with (current s) in He. change (t_location (f_node s)) with (here s) in He.
  destruct (prefix_function (current s)) as [func|]; [|done]. rewrite Hs1. cbn [result_bind].
  rewrite (IH e EXPR_OTHER s1 s' n); [|done|cbn; lia|done|cbn; lia]. cbn [result_bind]. by rewrite He.
Qed.

(** NOT *)
Lemma not_loop nots turns has odd s s' : path s nots s' -> forallb (fun n => node_keyword n (str: "NOT")) nots = true ->
  is_keyword s' (str: "NOT") = false -> (length nots < turns)%nat ->
  while_loop turns (not_turn EOS is_hexdigit hexdigit_to_number to_u8string) (has, odd, s) =
  Ok (has || bool_decide (nots <> []), xorb odd (Nat.odd (length nots)), s').
Proof.
  revert turns has odd s. induction nots as [|n nots IHn]; intros turns has odd s Hp Hn Hs Hl; (destruct turns as [|turns]; [cbn in Hl; lia|]).
  - apply path_nil_inv in Hp as ->. cbn [while_loop not_turn]. rewrite Hs. cbn. by rewrite orb_false_r, xorb_false_r.
  - apply path_cons_inv in Hp as (<- & s1 & Hs1 & Hp). cbn [forallb] in Hn. apply andb_true_iff in Hn as [Hk Hn].
    cbn [while_loop not_turn]. change (is_keyword s (str: "NOT")) with (node_keyword (f_node s) (str: "NOT")). rewrite Hk, Hs1. cbn [result_bind].
    rewrite (IHn turns true (negb odd) s1) by (done || cbn in Hl; lia). f_equal. f_equal. f_equal; [by rewrite orb_true_r|].
    cbn [length]. rewrite Nat.odd_succ, <- Nat.negb_odd. by destruct odd, (Nat.odd (length nots)).
Qed.

Lemma level_not e s s' t : reads e s s' t -> (prec e <= 10)%nat -> follow 10 s' -> (14 * length (tokens e) + 10 <= fuel)%nat ->
  level_of EXPR_LOGICAL_NOT s = Ok (t, s').
Proof.
  intros Hr Hp Hf Hb. cbn [parse_level]. unfold parse_expr_logical_not. destruct (decide (prec e <= 9)%nat) as [H9|H9].
  - destruct (start_of e s s') as (Hnot & _); [apply Hr..|]. rewrite (not_loop [] _ _ _ s s) by (constructor || auto || cbn; lia).
    cbn [result_bind]. rewrite (IH e EXPR_IS s s' t) by (done || cbn in *; unfold follow in *; lia). cbn [result_bind].
    unfold logical_not. by destruct (decide _).
  - destruct e; cbn [prec] in H9, Hp; try lia.
    { destruct (operator_level op) as [lv|] eqn:E; [|lia]. apply operator_level_tokens in E. destruct lv; cbn in H9, Hp; done || lia. }
    destruct Hr as [Hw Ht Hpath He]. cbn [tokens ExprGrammar.elab] in *. split_bools. split_tokens. rewrite ?Nat.leb_le in *.
    apply path_app in Hpath as (m & Hp1 & Hp2). apply result_bind_ok in He as (n & Hn & He). rewrite length_app in *.
    destruct (start_of e m s') as (Hnot & _); [done..|].
    rewrite (not_loop nots _ _ _ s m) by (auto || lia). cbn [result_bind orb xorb].
    match goal with H : bool_decide (nots <> []) = true |- _ => rewrite H end.
    rewrite (IH e EXPR_IS m s' n) by (done || cbn in *; unfold follow in *; lia). cbn [result_bind]. by rewrite He.
Qed.

(** NOT BETWEEN, LIKE *)
Lemma negated_location op negated m s : path m (option_list negated) s -> f_node s = op ->
  t_location (default op negated) = here m.
Proof. intros Hp <-. destruct negated as [n|]; [by apply path_cons_inv in Hp as [<- _]|by apply path_nil_inv in Hp as ->]. Qed.

Lemma negated_follow negated m s k : path m (option_list negated) s -> negation_ok negated = true -> node_keyword (f_node s) k = true ->
  keyword_rank k = 7%nat -> follow 6 m /\ (negated = None -> k <> (str: "NOT") -> is_keyword m (str: "NOT") = false).
Proof.
  intros Hp Hn Hk Hr. unfold follow. destruct negated as [n|]; cbn [option_list negation_ok] in *.
  - apply path_cons_inv in Hp as [<- _]. rewrite (continues_node_keyword _ _ Hn). split; [apply Nat.ltb_lt; vm_compute; reflexivity|done].
  - apply path_nil_inv in Hp as ->. rewrite (continues_node_keyword _ _ Hk). split; [lia|]. intros _ ?. by eapply keyword_other.
Qed.

Lemma level_between e negated op e1 also e2 s s' t : reads (Between e negated op e1 also e2) s s' t -> follow 7 s' ->
  (14 * length (tokens (Between e negated op e1 also e2)) + 7 <= fuel)%nat -> level_of EXPR_MATCHING s = Ok (t, s').
Proof.
  intros [Hw Ht Hp He] Hf Hb. cbn [tokens ExprGrammar.elab] in *. split_bools. split_tokens. rewrite ?Nat.leb_le in *.
  apply path_app in Hp as (m & Hp0 & Hp). apply path_app in Hp as (m1 & Hpn & Hp). apply path_cons_inv in Hp as (Hop & s1 & Hs1 & Hp).
  apply path_app in Hp as (m2 & Hp1 & Hp). apply path_cons_inv in Hp as (<- & s2 & Hs2 & Hp2).
  apply result_bind_ok in He as (lhs & Hl & He). apply result_bind_ok in He as (rhs1 & Hr1 & He). apply result_bind_ok in He as (rhs2 & Hr2 & He).
  rewrite (negated_location op negated m m1) in Hl by done. subst op.
  repeat (rewrite length_app in Hb; cbn [length] in Hb).
  destruct (negated_follow negated m m1 (str: "BETWEEN")) as [Hfm Hnot]; [done..|].
  destruct (optional_not m negated m1) as [Hneg Hnext]; [done|done|intros ->; by apply Hnot|].
  cbn [parse_level]. unfold parse_expr_matching. rewrite (IH e EXPR_OTHER s m lhs) by (done || cbn; lia). cbn [result_bind]. cbv zeta.
  rewrite Hneg, Hnext. cbn [result_bind]. change (is_keyword m1) with (node_keyword (f_node m1)).
  match goal with H : node_keyword (f_node m1) _ = true |- _ => rewrite H end. rewrite Hs1. cbn [result_bind].
  rewrite (IH e1 EXPR_OTHER s1 m2 rhs1); [|done|cbn; lia|unfold follow; known_keyword; apply Nat.ltb_lt; vm_compute; reflexivity|cbn; lia].
  cbn [result_bind]. change (is_keyword m2) with (node_keyword (f_node m2)).
  match goal with H : node_keyword (f_node m2) _ = true |- _ => rewrite H end. cbn [negb]. rewrite Hs2. cbn [result_bind].
  rewrite (IH e2 EXPR_OTHER s2 s' rhs2); [|done|cbn; lia|unfold follow in *; cbn; lia|cbn; lia]. cbn [result_bind].
  change (t_location (f_node m1)) with (here m1) in He. by rewrite He.
Qed.

Lemma level_like e negated op e1 s s' t : reads (Like e negated op e1) s s' t -> follow 7 s' ->
  (14 * length (tokens (Like e negated op e1)) + 7 <= fuel)%nat -> level_of EXPR_MATCHING s = Ok (t, s').
Proof.
  intros [Hw Ht Hp He] Hf Hb. cbn [tokens ExprGrammar.elab] in *. split_bools. split_tokens. rewrite ?Nat.leb_le in *.
  apply path_app in Hp as (m & Hp0 & Hp). apply path_app in Hp as (m1 & Hpn & Hp). apply path_cons_inv in Hp as (Hop & s1 & Hs1 & Hp1).
  apply result_bind_ok in He as (lhs & Hl & He). apply result_bind_ok in He as (rhs & Hr & He).
  rewrite (negated_location op negated m m1) in Hl by done. subst op.
  repeat (rewrite length_app in Hb; cbn [length] in Hb).
  match goal with H : node_keyword _ _ || node_keyword _ _ = true |- _ => rename H into Hk end.
  assert (follow 6 m /\ (negated = None -> is_keyword m (str: "NOT") = false) /\ is_keyword m1 (str: "BETWEEN") = false /\
    is_keyword m1 (str: "IN") = false) as (Hfm & Hnot & Hb1 & Hb2).
  { apply orb_true_iff in Hk as [Hk|Hk].
    all: destruct (negated_follow negated m m1 _ ltac:(eassumption) ltac:(assumption) Hk) as [Hfm Hnot]; [done|].
    all: split_and!; [done|intros ->; by apply Hnot|by eapply keyword_other|by eapply keyword_other]. }
  destruct (optional_not m negated m1) as [Hneg Hnext]; [done..|].
  cbn [parse_level]. unfold parse_expr_matching. rewrite (IH e EXPR_OTHER s m lhs) by (done || cbn; lia). cbn [result_bind]. cbv zeta.
  rewrite Hneg, Hnext. cbn [result_bind]. rewrite Hb1, Hb2. change (is_keyword m1) with (node_keyword (f_node m1)). rewrite Hk, Hs1. cbn [result_bind].
  rewrite (IH e1 EXPR_OTHER s1 s' rhs); [|done|cbn; lia|unfold follow in *; cbn; lia|cbn; lia]. cbn [result_bind].
  change (t_location (f_node m1)) with (here m1) in He. by rewrite He.
Qed.

Lemma level_matching e s s' t : reads e s s' t -> (prec e <= 7)%nat -> follow 7 s' -> (14 * length (tokens e) + 7 <= fuel)%nat ->
  level_of EXPR_MATCHING s = Ok (t, s').
Proof.
  intros Hr Hp Hf Hb. destruct (decide (prec e <= 6)%nat) as [H6|H6].
  - cbn [parse_level]. unfold parse_expr_matching. rewrite (IH e EXPR_OTHER s s' t) by (done || cbn in *; unfold follow in *; lia).
    cbn [result_bind]. rewrite (not_keyword 7 s') by done. cbn [result_bind]. cbv zeta.
    by rewrite !(not_keyword 7 s') by (done || apply Nat.leb_le; vm_compute; reflexivity).
  - destruct e; cbn [prec] in H6, Hp; try lia.
    + destruct (operator_level op) as [lv|] eqn:E; [|lia]. apply operator_level_tokens in E. destruct lv; cbn in H6, Hp; done || lia.
    + by eapply level_between.
    + by eapply level_like.
Qed.

(** Signs *)
Lemma sign_loop signs turns convert negate s s' : path s signs s' ->
  forallb (fun n => is_a n TOKEN_PLUS || is_a n TOKEN_MINUS) signs = true ->
  is_token s' TOKEN_PLUS = false -> is_token s' TOKEN_MINUS = false -> (length signs < turns)%nat ->
  while_loop turns (sign_turn EOS is_hexdigit hexdigit_to_number to_u8string) (convert, negate, s) =
  Ok (convert || bool_decide (signs <> []), fold_left next_sign signs negate, s').
Proof.
  revert turns convert negate s. induction signs as [|n signs IHn]; intros turns convert negate s Hp Hn Hs1 Hs2 Hl;
    (destruct turns as [|turns]; [cbn in Hl; lia|]).
  - apply path_nil_inv in Hp as ->. cbn [while_loop sign_turn]. rewrite Hs1, Hs2. cbn. by rewrite orb_false_r.
  - apply path_cons_inv in Hp as (<- & s1 & Hs & Hp). cbn [forallb] in Hn. apply andb_true_iff in Hn as [Hk Hn].
    cbn [while_loop sign_turn fold_left]. change (is_token s TOKEN_PLUS) with (is_a (f_node s) TOKEN_PLUS).
    change (is_token s TOKEN_MINUS) with (is_a (f_node s) TOKEN_MINUS). unfold next_sign at 2.
    assert (is_a (f_node s) TOKEN_PLUS = true -> is_a (f_node s) TOKEN_MINUS = false) as Hpm.
    { unfold is_a. intros E%bool_decide_eq_true_1. by rewrite E. }
    destruct (is_a (f_node s) TOKEN_PLUS); [rewrite Hpm by done|cbn in Hk; rewrite Hk; cbv zeta]; rewrite Hs; cbn [result_bind];
      (rewrite IHn by (done || cbn in Hl; lia)); by rewrite orb_true_r.
Qed.

Lemma level_unary e s s' t : reads e s s' t -> (prec e <= 2)%nat -> follow 2 s' -> (14 * length (tokens e) + 2 <= fuel)%nat ->
  level_of EXPR_UNARY s = Ok (t, s').
Proof.
  intros Hr Hp Hf Hb. cbn [parse_level]. unfold parse_expr_unary. destruct (decide (prec e <= 1)%nat) as [H1|H1].
  - destruct (start_of e s s') as (_ & _ & Hsign & _); [apply Hr..|]. destruct Hsign as [Hs1 Hs2]; [done|].
    rewrite (sign_loop [] _ _ _ s s) by (constructor || auto || cbn; lia). cbn [result_bind fold_left orb].
    rewrite (IH e EXPR_POSTFIX s s' t) by (done || cbn in *; unfold follow in *; lia). done.
  - destruct e; cbn [prec] in H1, Hp; try lia.
    2:{ destruct (operator_level op) as [lv|] eqn:E; [|lia]. apply operator_level_tokens in E. destruct lv; cbn in H1, Hp; done || lia. }
    destruct Hr as [Hw Ht Hpath He]. cbn [tokens ExprGrammar.elab] in *. split_bools. split_tokens. rewrite ?Nat.leb_le in *.
    apply path_app in Hpath as (m & Hp1 & Hp2). apply result_bind_ok in He as (n & Hn & He). rewrite length_app in *.
    destruct (start_of e m s') as (_ & _ & Hsign & _); [done..|]. destruct Hsign as [Hs1 Hs2]; [done|].
    rewrite (sign_loop signs _ _ _ s m) by (auto || lia). cbn [result_bind orb].
    match goal with H : bool_decide (signs <> []) = true |- _ => rewrite H end.
    rewrite (IH e EXPR_POSTFIX m s' n) by (done || cbn in *; unfold follow in *; lia). cbn [result_bind].
    fold (sign_of signs). by rewrite He.
Qed.

Lemma level_primary e s s' t : reads e s s' t -> prec e = 0%nat -> follow 0 s' -> (14 * length (tokens e) <= fuel)%nat ->
  level_of EXPR_PRIMARY s = Ok (t, s').
Proof.
  intros [Hw Ht Hp He] H0 Hf Hb. destruct e; cbn [prec] in H0; try lia; cbn [tokens ExprGrammar.elab length] in *.
  - apply path_cons_inv in Hp as (<- & s1 & Hs1 & ->%path_nil_inv). injection He as <-. apply level_atom; [done..|lia].
  - split_bools. split_tokens. apply path_cons_inv in Hp as (<- & s1 & Hs1 & Hp). apply path_app in Hp as (m & Hp1 & Hp).
    apply path_cons_inv in Hp as (<- & s2 & Hs2 & ->%path_nil_inv). rewrite length_app in Hb. cbn [length] in Hb.
    match goal with H : t_token (f_node s) = _ |- _ => rename H into Hopen end.
    match goal with H : t_token (f_node m) = _ |- _ => rename H into Hclose end.
    cbn [parse_level]. unfold parse_expr_primary. rewrite !(token_false s _ _ Hopen) by done. cbn [orb]. rewrite (token_true s _ Hopen), Hs1. cbn [result_bind].
    rewrite (IH e EXPR_LOGICAL_OR s1 m t); [|done|pose proof (prec_12 e); cbn; lia|unfold follow; known_token; apply Nat.ltb_lt; vm_compute; reflexivity|cbn; lia].
    cbn [result_bind]. unfold expect. by rewrite (token_true m _ Hclose), Hs2.
  - destruct (operator_level op) as [lv|] eqn:E; [apply operator_level_rank in E; lia|]. cbn [well_formed] in Hw. by rewrite E in Hw.
Qed.

Lemma level_all e lv s s' t : reads e s s' t -> (prec e <= rank lv <= 12)%nat -> follow (rank lv) s' ->
  (14 * length (tokens e) + rank lv <= fuel)%nat -> level_of lv s = Ok (t, s').
Proof.
  intros Hr Hp Hf Hb. destruct (chained lv) eqn:E.
  - destruct (decide (lv = EXPR_OTHER)) as [->|]; [|apply (level_chained e); [done|done|lia|by intros|done|lia]].
    destruct (is_prefix e) eqn:Ex; [|apply (level_chained e); [done|done|lia|done|done|lia]]. destruct e; try done. by eapply level_prefix.
  - destruct lv; try done; cbn [rank] in *; [lia|..].
    + apply (level_not e); auto; lia.
    + apply (level_matching e); auto; lia.
    + apply (level_unary e); auto; lia.
    + apply (level_primary e); auto; lia.
Qed.

Lemma list_loop args turns list s s' params : arguments_ok args = true -> Forall token_ok (argument_tokens args) ->
  path s (argument_tokens args) s' -> elab_arguments is_hexdigit hexdigit_to_number args list = Ok params ->
  (14 * length (argument_tokens args) + 12 < fuel)%nat -> (length (argument_tokens args) <= turns)%nat ->
  exists c, while_loop turns (list_turn EOS is_hexdigit hexdigit_to_number to_u8string parse) (list, s) = Ok (params, c) /\
    current c = TOKEN_CLOSE_PARENTHESIS /\ next_token c = Ok s'.
Proof.
  revert turns list s. induction args as [e c|e c args IHa]; intros turns list s Hw Ht Hp He Hb Hl; cbn [argument_tokens elab_arguments] in *;
    split_bools; split_tokens; apply path_app in Hp as (m & Hp1 & Hp); apply path_cons_inv in Hp as (<- & s1 & Hs1 & Hp);
    apply result_bind_ok in He as (n & Hn & He); rewrite length_app in *; cbn [length] in *; (destruct turns as [|turns]; [lia|]);
    cbn [while_loop list_turn]; (rewrite (IH e EXPR_LOGICAL_OR s m n);
      [|done|pose proof (prec_12 e); cbn; lia|unfold follow; known_token; apply Nat.ltb_lt; vm_compute; reflexivity|cbn; lia]); cbn [result_bind]; cbv zeta.
  - apply path_nil_inv in Hp as ->. injection He as <-. exists m. rewrite (token_false m TOKEN_CLOSE_PARENTHESIS) by done. done.
  - rewrite token_true by done. rewrite Hs1. cbn [result_bind]. apply IHa; auto; lia.
Qed.
End Step.

Lemma parse_all fuel : parses fuel /\ parses_arguments fuel.
Proof.
  induction fuel as [|fuel [IH IHa]]; [split; intros ?*; lia|]. split.
  - intros e lv s s' t Hr Hp Hf Hb. cbn [parse_expr]. apply (level_all fuel IH IHa e); auto; lia.
  - intros args s s' params Hw Ht Hp He Hb. cbn [parse_expr parse_level]. unfold parse_expr_list. apply (list_loop fuel IH args); auto; lia.
Qed.
End ExprParse.
