(* ===== verification/ExprProps.v ===== *)
(** * What the parser of expressions guarantees

    The properties of the expressions, each applied to a script with the concrete
    libraries of [ExprDemo]. *)

From S2P Require Import Prelude Limbs BigLoops Uint512 Int512 BigText Input LongDouble Lexer LexerTotal SortedMap.
From S2P Require Import Nodes Functions As2js Expression ExprDemo LexerTypes IntegerTypes ExprTypes ActionTypes ExprTotal ExprGrammar ExprParse.

(** ** Theorems *)

(** C28: The tokens of a well-formed expression, with parentheses where the
    precedences need them, are parsed as that expression: the operators associate
    to the left, with the precedences of the documentation, and the tree is the
    composition of the semantic actions.  The parser stops at the first token that
    does not continue the expression. *)
Theorem expression_grammar {F} {libraries : Libraries F} EOS is_hexdigit hexdigit_to_number to_u8string
    (laws : HexdigitLaws is_hexdigit hexdigit_to_number) (e : expr F) lv s s' t fuel :
  well_formed e = true -> Forall token_ok (tokens e) ->
  path EOS is_hexdigit hexdigit_to_number to_u8string s (tokens e) s' ->
  elab is_hexdigit hexdigit_to_number e (here s') = Ok t ->
  (prec e <= rank lv <= 12)%nat -> (rank lv < continues (f_node s'))%nat -> (14 * length (tokens e) + rank lv < fuel)%nat ->
  parse_expr EOS is_hexdigit hexdigit_to_number to_u8string fuel lv s = Ok (t, s').
Proof.
  intros Hw Ht Hp He Hlv Hf Hfuel.
  destruct (parse_all EOS is_hexdigit hexdigit_to_number to_u8string fuel) as [Hparse _]. by apply (Hparse e).
Qed.

(** C29: A tree the parser returns has the children that the token of each of its
    nodes needs, and well-formed integers: its script can always be written. *)
Theorem expression_types {F} {libraries : Libraries F} EOS is_hexdigit hexdigit_to_number to_u8string
    (eos : EndOfScript EOS) (laws : HexdigitLaws is_hexdigit hexdigit_to_number) (s : expr_state F) m lv fuel :
  left EOS m s -> (14 * m + rank lv < fuel)%nat ->
  match parse_expr EOS is_hexdigit hexdigit_to_number to_u8string fuel lv s with
  | Ok (t, _) =>
      match lv with
      | EXPR_LIST => operands t
      | EXPR_PRIMARY => operand t \/ t_token t = TOKEN_TYPE
      | _ => operand t /\ exists script, to_as2js t = Ok script
      end
  | Throw _ => True
  end.
Proof.
  intros Hs Hf. pose proof (parse_expr_total EOS is_hexdigit hexdigit_to_number to_u8string fuel lv s m Hs Hf) as H.
  destruct (parse_expr _ _ _ _ fuel lv s) as [[t s']|e]; [|done]. destruct H as (Ht & _). cbn [fst] in Ht.
  destruct lv; auto using operand_script.
Qed.

(** Parsing an expression ends, whatever the script: it reads at least a token
    and returns a script, or throws one of the exceptions of [expr_error].  When [m]
    characters or tokens are left, [14 * m + 13] calls and turns are enough. *)
Theorem expression_total {F} {libraries : Libraries F} EOS is_hexdigit hexdigit_to_number to_u8string
    (eos : EndOfScript EOS) (laws : HexdigitLaws is_hexdigit hexdigit_to_number) (s : expr_state F) m fuel :
  left EOS m s -> (14 * m + 12 < fuel)%nat ->
  match parse_expression EOS is_hexdigit hexdigit_to_number to_u8string fuel s with
  | Ok (_, s') => exists m', (m' < m)%nat /\ left EOS m' s'
  | Throw e => expr_error (F := F) to_u8string e
  end.
Proof.
  intros Hs Hf. pose proof (parse_expr_total EOS is_hexdigit hexdigit_to_number to_u8string fuel EXPR_LOGICAL_OR s m Hs Hf) as H.
  unfold parse_expression. destruct (parse_expr _ _ _ _ fuel EXPR_LOGICAL_OR s) as [[t s']|e]; [|exact H].
  destruct H as (Ht & Hm & Hs'). destruct (operand_script t Ht) as [script Hscript]. cbn [result_bind]. rewrite Hscript.
  exists (pred m). split; [lia|done].
Qed.

(** ** Witnesses *)

(** The tokens of a demonstration, read one by one. *)
Fixpoint demo_tokens (n : nat) (s : expr_state Z) : result (list (Nodes.tree Z) * expr_state Z) :=
  match n with
  | O => Ok ([], s)
  | S n =>
      let! s1 := next_token example_eos ascii_is_hexdigit ascii_hexdigit_to_number example_to_u8string s in
      let! '(ts, s') := demo_tokens n s1 in
      Ok (f_node s :: ts, s')
  end.

Lemma demo_tokens_path n s ts s' : demo_tokens n s = Ok (ts, s') ->
  path example_eos ascii_is_hexdigit ascii_hexdigit_to_number example_to_u8string s ts s'.
Proof.
  revert s ts. induction n as [|n IH]; intros s ts H; cbn [demo_tokens] in H; [injection H as <- <-; constructor|].
  apply result_bind_ok in H as (s1 & Hs1 & H). apply result_bind_ok in H as ([ts1 s2] & H1 & [= <- <-]). econstructor; [done|by apply IH].
Qed.

(** The state at the start of a script. *)
Definition demo_start (s : list Z) : expr_state Z :=
  match demo_state s with Ok st => st | Throw _ => ExprState None (make_node TOKEN_EOF (Location [] 1 1)) end.

(** [not a + b * -2 between 1 and (c)] *)
Definition demo_expression (ts : list (Nodes.tree Z)) : expr Z :=
  let n (i : nat) := default (make_node TOKEN_EOF (Location [] 1 1)) (ts !! i) in
  Not [n 0%nat] (Between (Binary (Atom (n 1%nat)) (n 2%nat) (Binary (Atom (n 3%nat)) (n 4%nat) (Unary [n 5%nat] (Atom (n 6%nat)))))
    None (n 7%nat) (Atom (n 8%nat)) (n 9%nat) (Paren (n 10%nat) (Atom (n 11%nat)) (n 12%nat))).

Definition demo_text : list Z := (str: "not a + b * -2 between 1 and (c) or d").

Lemma expression_grammar_witness : exists t s',
  parse_expr example_eos ascii_is_hexdigit ascii_hexdigit_to_number example_to_u8string 200 EXPR_LOGICAL_NOT (demo_start demo_text) = Ok (t, s') /\
  to_as2js t = Ok (str: "!(_t1=a+b*-2,_t1>=1&&_t1<=c)").
Proof.
  destruct (demo_tokens 13 (demo_start demo_text)) as [[ts s']|] eqn:E; [|vm_compute in E; discriminate].
  pose proof (demo_tokens_path _ _ _ _ E) as Hp. vm_compute in E. injection E as Hts Hs'.
  assert (tokens (demo_expression ts) = ts) as Htokens by (subst ts; vm_compute; reflexivity).
  destruct (elab ascii_is_hexdigit ascii_hexdigit_to_number (demo_expression ts) (here s')) as [t|] eqn:Et; [|subst; vm_compute in Et; discriminate].
  exists t, s'. split.
  - apply (expression_grammar example_eos ascii_is_hexdigit ascii_hexdigit_to_number example_to_u8string ascii_hexdigit_laws (demo_expression ts)).
    + subst ts. vm_compute. reflexivity.
    + rewrite Htokens. subst ts. repeat constructor; closed_decide.
    + rewrite Htokens. exact Hp.
    + exact Et.
    + subst ts. vm_compute. split; lia.
    + subst s'. apply Nat.ltb_lt. vm_compute. reflexivity.
    + rewrite Htokens. subst ts. apply Nat.ltb_lt. vm_compute. reflexivity.
  - subst. vm_compute in Et. injection Et as <-. vm_compute. reflexivity.
Defined.

Lemma demo_left : left example_eos 40 (demo_start demo_text).
Proof.
  assert (exists i, f_lexer (demo_start demo_text) = Some i /\ f_ungetc i = (str: " ") /\
    f_input i = (str: "a + b * -2 between 1 and (c) or d")) as (i & Hi & Hu & Hin).
  { vm_compute. by eexists. }
  split; [|vm_compute; reflexivity|closed_decide]. exists i, (str: " a + b * -2 between 1 and (c) or d"). split_and!; [done| |].
  - split; [unfold stream; rewrite Hu, Hin; vm_compute; reflexivity|rewrite Hu; cbn; lia|rewrite Hin|rewrite Hu];
      apply (bool_decide_unpack (not _)); vm_compute; exact I.
  - destruct (decide _); apply Nat.leb_le; vm_compute; reflexivity.
Qed.

Lemma expression_types_witness : exists t s',
  parse_expr example_eos ascii_is_hexdigit ascii_hexdigit_to_number example_to_u8string 600 EXPR_LOGICAL_OR (demo_start demo_text) = Ok (t, s') /\
  operand t /\ exists script, to_as2js t = Ok script.
Proof.
  pose proof (expression_types example_eos ascii_is_hexdigit ascii_hexdigit_to_number example_to_u8string
    example_end_of_script ascii_hexdigit_laws (demo_start demo_text) 40 EXPR_LOGICAL_OR 600 demo_left
    ltac:(apply Nat.ltb_lt; vm_compute; reflexivity)) as H.
  match type of H with match ?r with _ => _ end => destruct r as [[t s']|e] eqn:E end; [|vm_compute in E; discriminate].
  exists t, s'. split; [reflexivity|exact H].
Defined.

Lemma expression_total_witness : exists script s' m',
  parse_expression example_eos ascii_is_hexdigit ascii_hexdigit_to_number example_to_u8string 600 (demo_start demo_text) = Ok (script, s') /\
  (m' < 40)%nat /\ left example_eos m' s'.
Proof.
  pose proof (expression_total example_eos ascii_is_hexdigit ascii_hexdigit_to_number example_to_u8string
    example_end_of_script ascii_hexdigit_laws (demo_start demo_text) 40 600 demo_left ltac:(apply Nat.ltb_lt; vm_compute; reflexivity)) as H.
  match type of H with match ?r with _ => _ end => destruct r as [[script s']|e] eqn:E end; [|vm_compute in E; discriminate].
  destruct H as (m' & H1 & H2). exists script, s', m'. split; [reflexivity|split; [exact H1|exact H2]].
Defined.
