(* ===== verification/Command.v ===== *)
(** * Commands of a script (prinbee/pbql/command.cpp, prinbee/pbql/command.h)

    A command has parameters of four types, each in a map of its own; a parameter
    keeps the type it was first set with.  [param_t] is its number: some of them
    are the first of a range. *)

From S2P Require Import Prelude Int512.

Inductive command_t : Type :=
  | COMMAND_UNKNOWN
  | COMMAND_BEGIN
  | COMMAND_COMMIT
  | COMMAND_CONFIG
  | COMMAND_CREATE_CONTEXT
  | COMMAND_ROLLBACK
  | COMMAND_SELECT.

#[export] Instance command_t_eq_dec : EqDecision command_t.
Proof. solve_decision. Defined.

Inductive param_type_t : Type :=
  | PARAM_TYPE_UNKNOWN
  | PARAM_TYPE_BOOL
  | PARAM_TYPE_INT64
  | PARAM_TYPE_INT512
  | PARAM_TYPE_STRING.

#[export] Instance param_type_eq_dec : EqDecision param_type_t.
Proof. solve_decision. Defined.

Definition PARAM_MODE_TABLE : Z := 0.
Definition PARAM_MODE_PRINT : Z := 1.
Definition PARAM_MODE_JSON : Z := 2.

Definition MAX_LIMIT : Z := 1000000.
Definition MAX_EXPRESSIONS : Z := 1000.
Definition MAX_TABLES : Z := 20.

(** ** Parameters *)

Definition param_t : Type := Z.

Definition PARAM_UNKNOWN : param_t := 0.
Definition PARAM_CONDITION : param_t := 1.
Definition PARAM_DESCRIPTION : param_t := 2.
Definition PARAM_GROUP : param_t := 3.
Definition PARAM_IF_EXISTS : param_t := 4.
Definition PARAM_LIMIT : param_t := 5.
Definition PARAM_NAME : param_t := 6.
Definition PARAM_ORDER_BY : param_t := 7.
Definition PARAM_PATH : param_t := 8.
Definition PARAM_TYPE : param_t := 9.
Definition PARAM_USER : param_t := 10.
Definition PARAM_WHERE : param_t := 11.
Definition PARAM_MODE : param_t := 12.
Definition PARAM_EXPRESSION : param_t := 13.
Definition PARAM_COLUMN_NAME : param_t := PARAM_EXPRESSION + MAX_EXPRESSIONS.
Definition PARAM_TABLE : param_t := PARAM_COLUMN_NAME + MAX_EXPRESSIONS.
Definition PARAM_TABLE_NAME : param_t := PARAM_TABLE + MAX_TABLES.

(** ** The object *)

Record command := Command {
  f_command : command_t;
  f_bool_params : gmap Z bool;
  f_int64_params : gmap Z Z;
  f_int512_params : gmap Z int512_t;
  f_string_params : gmap Z (list Z);
}.

Definition new_command (cmd : command_t) : command := Command cmd ∅ ∅ ∅ ∅.

Definition get_command (c : command) : command_t := f_command c.

Definition is_defined_as (c : command) (param : param_t) : param_type_t :=
  match f_bool_params c !! param, f_int64_params c !! param, f_int512_params c !! param, f_string_params c !! param with
  | Some _, _, _, _ => PARAM_TYPE_BOOL
  | None, Some _, _, _ => PARAM_TYPE_INT64
  | None, None, Some _, _ => PARAM_TYPE_INT512
  | None, None, None, Some _ => PARAM_TYPE_STRING
  | None, None, None, None => PARAM_TYPE_UNKNOWN
  end.

(** The test at the start of the setters. *)
Definition may_be (c : command) (param : param_t) (type : param_type_t) : bool :=
  bool_decide (is_defined_as c param = PARAM_TYPE_UNKNOWN \/ is_defined_as c param = type).

Definition get_bool (c : command) (param : param_t) : bool := default false (f_bool_params c !! param).
Definition set_bool (c : command) (param : param_t) (value : bool) : result command :=
  if negb (may_be c param PARAM_TYPE_BOOL) then Throw type_mismatch
  else Ok (Command (f_command c) (<[param:=value]> (f_bool_params c)) (f_int64_params c) (f_int512_params c) (f_string_params c)).

Definition get_int64 (c : command) (param : param_t) : Z := default 0 (f_int64_params c !! param).
Definition set_int64 (c : command) (param : param_t) (value : Z) : result command :=
  if negb (may_be c param PARAM_TYPE_INT64) then Throw type_mismatch
  else Ok (Command (f_command c) (f_bool_params c) (<[param:=value]> (f_int64_params c)) (f_int512_params c) (f_string_params c)).

Definition get_int512 (c : command) (param : param_t) : int512_t := default int512_zero (f_int512_params c !! param).
Definition set_int512 (c : command) (param : param_t) (value : int512_t) : result command :=
  if negb (may_be c param PARAM_TYPE_INT512) then Throw type_mismatch
  else Ok (Command (f_command c) (f_bool_params c) (f_int64_params c) (<[param:=value]> (f_int512_params c)) (f_string_params c)).

Definition command_string (c : command) (param : param_t) : list Z := default [] (f_string_params c !! param).
Definition command_set_string (c : command) (param : param_t) (value : list Z) : result command :=
  if negb (may_be c param PARAM_TYPE_STRING) then Throw type_mismatch
  else Ok (Command (f_command c) (f_bool_params c) (f_int64_params c) (f_int512_params c) (<[param:=value]> (f_string_params c))).

(** ** The types of the parameters *)

(** The type each parameter is used with. *)
Definition param_type (param : param_t) : param_type_t :=
  if decide (param = PARAM_IF_EXISTS) then PARAM_TYPE_BOOL
  else if decide (param ∈ [PARAM_LIMIT; PARAM_TYPE; PARAM_MODE]) then PARAM_TYPE_INT64
  else PARAM_TYPE_STRING.

Definition typed (c : command) : Prop :=
  forall param, is_defined_as c param = PARAM_TYPE_UNKNOWN \/ is_defined_as c param = param_type param.

(** [c'] is [c] with [param] set. *)
Record sets (c : command) (param : param_t) (c' : command) : Prop := {
  sets_command : get_command c' = get_command c;
  sets_type q : is_defined_as c' q = if decide (q = param) then param_type param else is_defined_as c q;
  sets_int64 q : q <> param -> get_int64 c' q = get_int64 c q;
  sets_string q : q <> param -> command_string c' q = command_string c q;
}.

Lemma new_command_undefined cmd param : is_defined_as (new_command cmd) param = PARAM_TYPE_UNKNOWN.
Proof. unfold is_defined_as. cbn. by rewrite !lookup_empty. Qed.

Lemma new_command_typed cmd : typed (new_command cmd).
Proof. intros param. left. apply new_command_undefined. Qed.

Lemma sets_typed c param c' : typed c -> sets c param c' -> typed c'.
Proof. intros Hc Hs q. rewrite (sets_type _ _ _ Hs). destruct (decide _) as [->|]; auto. Qed.


Lemma set_bool_ok c param value : typed c -> param_type param = PARAM_TYPE_BOOL ->
  exists c', set_bool c param value = Ok c' /\ sets c param c' /\ get_bool c' param = value.
Proof.
  intros Hc Ht. unfold set_bool, may_be. specialize (Hc param). rewrite Ht in Hc. rewrite bool_decide_true by tauto.
  eexists. split; [done|]. split; [|unfold get_bool; cbn; by rewrite lookup_insert_eq].
  split; cbn; try done. intros q. rewrite Ht. unfold is_defined_as. cbn. destruct (decide _) as [->|]; [by rewrite lookup_insert_eq|].
  by rewrite lookup_insert_ne.
Qed.

Lemma set_int64_ok c param value : typed c -> param_type param = PARAM_TYPE_INT64 ->
  exists c', set_int64 c param value = Ok c' /\ sets c param c' /\ get_int64 c' param = value.
Proof.
  intros Hc Ht. unfold set_int64, may_be. specialize (Hc param). rewrite Ht in Hc. rewrite bool_decide_true by tauto.
  eexists. split; [done|]. split; [|unfold get_int64; cbn; by rewrite lookup_insert_eq].
  split; cbn; try done.
  - intros q. rewrite Ht. unfold is_defined_as in *. cbn. destruct (decide _) as [->|]; [|by rewrite lookup_insert_ne].
    rewrite lookup_insert_eq. by destruct (f_bool_params c !! param); destruct Hc.
  - intros q Hq. unfold get_int64. cbn. by rewrite lookup_insert_ne.
Qed.

Lemma command_set_string_ok c param value : typed c -> param_type param = PARAM_TYPE_STRING ->
  exists c', command_set_string c param value = Ok c' /\ sets c param c' /\ command_string c' param = value.
Proof.
  intros Hc Ht. unfold command_set_string, may_be. specialize (Hc param). rewrite Ht in Hc. rewrite bool_decide_true by tauto.
  eexists. split; [done|]. split; [|unfold command_string; cbn; by rewrite lookup_insert_eq].
  split; cbn; try done.
  - intros q. rewrite Ht. unfold is_defined_as in *. cbn. destruct (decide _) as [->|]; [|by rewrite lookup_insert_ne].
    rewrite lookup_insert_eq. by destruct (f_bool_params c !! param), (f_int64_params c !! param), (f_int512_params c !! param); destruct Hc.
  - intros q Hq. unfold command_string. cbn. by rewrite lookup_insert_ne.
Qed.

(** Arithmetic on the numbers of the parameters. *)
Ltac numbers :=
  unfold PARAM_TABLE_NAME, PARAM_TABLE, PARAM_COLUMN_NAME, PARAM_EXPRESSION, MAX_EXPRESSIONS, MAX_TABLES in *;
  unfold PARAM_TYPE, PARAM_LIMIT, PARAM_MODE, PARAM_ORDER_BY in *; lia.
