(* ===== verification/Parser.v ===== *)
(** * The statements of the query language (prinbee/pbql/parser.cpp)

    The parser reads the tokens of the lexer and makes commands.  The current
    token, the variable [n] of each function, is the token of the state of the
    expressions ([Expression.expr_state]), which [parse_expression] shares.  A
    function takes the commands made so far and returns the new ones; the loops
    are [while_loop], with the fuel of the expressions.

    The statements that only throw in the code throw here.  [f_user_capture] is
    the function given to set_user_capture(), which belongs to the user of the
    parser; splitting a path and quoting a text are functions of snapdev and
    advgetopt ([ParserLibraries]). *)

From S2P Require Import Prelude Limbs BigLoops Uint512 Int512 BigText Names Input LongDouble Lexer SortedMap StructTypes.
From S2P Require Import Nodes Functions As2js Expression Command.

Definition TOKEN_SEMI_COLON : Z := (chr: ";").

Class ParserLibraries := {
  (* the segments of a path, without the empty ones *)
  tokenize_path : list Z -> list (list Z);
  (* advgetopt::quote(), with the quote *)
  quote : list Z -> Z -> list Z;
}.

Definition MAX_CONTEXT_NAME_SEGMENTS : nat := 4.

(** ** Models of tables (prinbee/data/schema.cpp) *)

Inductive model_t : Type :=
  | TABLE_MODEL_CONTENT
  | TABLE_MODEL_DATA
  | TABLE_MODEL_LOG
  | TABLE_MODEL_QUEUE
  | TABLE_MODEL_SEQUENCIAL
  | TABLE_MODEL_SESSION
  | TABLE_MODEL_TREE.

#[export] Instance model_t_eq_dec : EqDecision model_t.
Proof. solve_decision. Defined.

Definition TABLE_MODEL_DEFAULT : model_t := TABLE_MODEL_CONTENT.

Definition g_model_and_name : list (list Z * model_t) :=
  [((str: "CONTENT"), TABLE_MODEL_CONTENT);
   ((str: "DATA"), TABLE_MODEL_DATA);
   ((str: "DEFAULT"), TABLE_MODEL_DEFAULT);
   ((str: "LOG"), TABLE_MODEL_LOG);
   ((str: "QUEUE"), TABLE_MODEL_QUEUE);
   ((str: "SEQUENCIAL"), TABLE_MODEL_SEQUENCIAL);
   ((str: "SESSION"), TABLE_MODEL_SESSION);
   ((str: "TREE"), TABLE_MODEL_TREE)].

(** [std::is_sorted()]: no name is before the previous one. *)
Fixpoint is_sorted {A} (table : list (list Z * A)) : bool :=
  match table with
  | [] => true
  | (a, _) :: table =>
      match table with
      | [] => true
      | (b, _) :: _ => negb (string_ltb b a) && is_sorted table
      end
  end.

(** The loop of name_to_model(): it goes up when the name is before the entry. *)
Fixpoint model_loop (uc : list Z) (fuel : nat) (i j : Z) : result model_t :=
  match fuel with
  | O => Throw fuel_exhausted
  | S fuel =>
      if decide (i < j)
      then
        let p := (j - i) ÷ 2 + i in
        match g_model_and_name !! Z.to_nat p with
        | Some (name, model) =>
            if string_ltb uc name then model_loop uc fuel (p + 1) j
            else if string_ltb name uc then model_loop uc fuel i p
            else Ok model
        | None => Throw undefined_behavior
        end
      else Throw invalid_name
  end.

Definition name_to_model (debug : bool) (to_upper : list Z -> list Z) (name : list Z) : result model_t :=
  if debug && negb (is_sorted g_model_and_name) then Throw logic_error
  else if decide (name = []) then Ok TABLE_MODEL_DEFAULT
  else model_loop (to_upper name) 9 0 (Z.of_nat (length g_model_and_name)).

(** ** Tokens *)

Section Parser.
Context {F : Type} {libraries : Libraries F} {parser_libraries : ParserLibraries}.
Context (EOS : Z) (is_hexdigit : Z -> bool) (hexdigit_to_number : Z -> Z) (to_u8string : Z -> result (list Z)).
Context (debug : bool) (f_user_capture : option (list Z -> bool)) (fuel : nat).
Abbreviation tree := (Nodes.tree F).
Abbreviation state := (expr_state F).
Abbreviation next_token := (Expression.next_token EOS is_hexdigit hexdigit_to_number to_u8string).
Abbreviation parse_expression := (Expression.parse_expression EOS is_hexdigit hexdigit_to_number to_u8string fuel).

Definition upper (s : state) : list Z := get_string_upper (f_node s).
Definition lower (s : state) : list Z := get_string_lower (f_node s).
Definition text (s : state) : list Z := t_string (f_node s).

(** [n->get_token() == token_t::TOKEN_IDENTIFIER && n->get_string_upper() == word] is
    [is_keyword]; this is [n->get_string_upper() == word]. *)
Definition is_word (s : state) (word : list Z) : bool := bool_decide (upper s = word).

(** The next token must be [token]. *)
Definition next_is (token : Z) (s : state) : result state :=
  let! s := next_token s in
  if is_token s token then Ok s else Throw invalid_token.

(** [expect_semi_colon(command, n)] *)
Definition semi_colon (s : state) : result state :=
  if is_token s TOKEN_SEMI_COLON then Ok s else Throw invalid_token.

(** [expect_semi_colon(command)] *)
Definition expect_semi_colon (s : state) : result state := let! s := next_token s in semi_colon s.

Fixpoint keywords_loop (keywords : list (list Z)) (optional_found : bool) (s : state) : result (bool * state) :=
  match keywords with
  | [] => Ok (optional_found, s)
  | k :: keywords =>
      if debug && bool_decide (k = []) then Throw logic_error
      else
        let optional := bool_decide (head k = Some (chr: "?")) in
        if debug && optional && bool_decide (tail k = []) then Throw logic_error
        else
          let! s := next_is TOKEN_IDENTIFIER s in
          if negb (is_word s k)
          then if optional then keywords_loop keywords optional_found s else Throw invalid_token
          else keywords_loop keywords (optional_found || optional) s
  end.

Definition keyword_string (keywords : list (list Z)) (next_token_type : Z) (s : state) : result (bool * state) :=
  let! '(optional_found, s) := keywords_loop keywords false s in
  let! s := next_token s in
  if decide (next_token_type <> TOKEN_UNKNOWN /\ current s <> next_token_type) then Throw invalid_token
  else Ok (optional_found, s).

(** An optional equal sign after the current token, and the token that follows. *)
Definition skip_equal (s : state) : result state :=
  let! s := next_token s in
  if is_token s TOKEN_EQUAL then next_token s else Ok s.

(** ** ALTER *)

(** ALTER INDEX ... SET; the actions are not implemented. *)
Definition parse_alter_index_set (s : state) : result state :=
  let! s := next_is TOKEN_IDENTIFIER s in
  let negate := is_word s (str: "NOT") in
  let! s := if negate then next_is TOKEN_IDENTIFIER s else Ok s in
  if is_word s (str: "SECURE") || is_word s (str: "SPARSE") then expect_semi_colon s
  else if negate then Throw invalid_token
  else if is_word s (str: "MODEL") then
    let! s := skip_equal s in
    if negb (is_token s TOKEN_IDENTIFIER) then Throw invalid_token
    else let! _ := name_to_model debug to_upper (text s) in expect_semi_colon s
  else if is_word s (str: "COMMENT") then
    let! s := skip_equal s in
    if negb (is_token s TOKEN_STRING) then Throw invalid_token else expect_semi_colon s
  else Throw invalid_token.

(** ALTER INDEX ... ADD and ALTER INDEX ... DROP *)
Definition parse_alter_index_column (drop : bool) (s : state) : result state :=
  let! s := next_token s in
  if is_keyword s (str: "COLUMN") then
    let! s := next_token s in
    if is_token s TOKEN_IDENTIFIER || is_token s TOKEN_INTEGER && drop then Ok s else Throw invalid_token
  else if is_token s TOKEN_IDENTIFIER && negb (is_word s (str: "EXPRESSION")) then Ok s
  else if is_token s TOKEN_OPEN_PARENTHESIS && negb drop then Ok s
  else if is_token s TOKEN_INTEGER && drop then Ok s
  else Throw invalid_token.

Definition parse_alter_index (s : state) : result state :=
  let! s := next_is TOKEN_IDENTIFIER s in
  let! s :=
    if is_word s (str: "IF")
    then let! '(_, s) := keyword_string [(str: "EXISTS")] TOKEN_IDENTIFIER s in Ok s
    else Ok s in
  let! s := next_is TOKEN_IDENTIFIER s in
  if is_word s (str: "ADD") then parse_alter_index_column false s
  else if is_word s (str: "DROP") then parse_alter_index_column true s
  else if is_word s (str: "SET") then parse_alter_index_set s
  else Throw invalid_token.

(** The statement after ALTER. *)
Definition parse_alter (s : state) : result state :=
  let! s := next_is TOKEN_IDENTIFIER s in
  if is_word s (str: "CONTEXT") then Throw not_yet_implemented
  else if is_word s (str: "INDEX") then parse_alter_index s
  else if is_word s (str: "TABLE") then Throw not_yet_implemented
  else if is_word s (str: "TYPE") then Throw not_yet_implemented
  else Throw invalid_token.

(** ** Transactions *)

(** [transaction_t], as it is saved in a parameter *)
Definition TRANSACTION_UNDEFINED : Z := 0.
Definition TRANSACTION_SCHEMA : Z := 1.
Definition TRANSACTION_DATA : Z := 2.

(** [WORK | TRANSACTION] [[ON] SCHEMA | DATA] *)
Definition parse_transaction_type (s : state) : result (Z * state) :=
  let! s := next_token s in
  let! s := if is_keyword s (str: "WORK") || is_keyword s (str: "TRANSACTION") then next_token s else Ok s in
  if is_token s TOKEN_IDENTIFIER
  then
    let schema_data_required := is_word s (str: "ON") in
    let! s := if schema_data_required then next_is TOKEN_IDENTIFIER s else Ok s in
    if is_word s (str: "SCHEMA") then let! s := next_token s in Ok (TRANSACTION_SCHEMA, s)
    else if is_word s (str: "DATA") then let! s := next_token s in Ok (TRANSACTION_DATA, s)
    else if schema_data_required then Throw invalid_token
    else Ok (TRANSACTION_UNDEFINED, s)
  else Ok (TRANSACTION_UNDEFINED, s).

(** [IF <expression> [OTHERWISE COMMIT | ROLLBACK]], after a COMMIT or a ROLLBACK *)
Definition parse_transaction_condition (cmd : command_t) (s : state) : result (list Z * state) :=
  if bool_decide (cmd <> COMMAND_BEGIN) && is_token s TOKEN_IDENTIFIER
  then
    if negb (is_word s (str: "IF")) then Throw invalid_token
    else
      let! s := next_token s in
      let! '(expr, s) := parse_expression s in
      if is_token s TOKEN_IDENTIFIER
      then
        if negb (is_word s (str: "OTHERWISE")) then Throw invalid_token
        else
          let! s := next_token s in
          let expects := if decide (cmd = COMMAND_COMMIT) then (str: "ROLLBACK") else (str: "COMMIT") in
          if negb (is_keyword s expects) then Throw invalid_token
          else let! s := next_token s in Ok (expr, s)
      else Ok (expr, s)
  else Ok ([], s).

Definition is_transaction_command (c : command) : bool :=
  bool_decide (get_command c ∈ [COMMAND_BEGIN; COMMAND_COMMIT; COMMAND_ROLLBACK]).

(** The loops from the last command: the last one that is part of a transaction. *)
Definition last_transaction (commands : list command) : option command :=
  List.find is_transaction_command (rev commands).

(** The checks of BEGIN, COMMIT and ROLLBACK with the commands before them. *)
Definition check_transaction (commands : list command) (transaction_type : Z) (c : command) : result command :=
  let begin :=
    match last_transaction commands with
    | Some b => if decide (get_command b = COMMAND_BEGIN) then Some b else None
    | None => None
    end in
  if decide (get_command c = COMMAND_BEGIN)
  then match begin with Some _ => Throw invalid_entity | None => Ok c end
  else
    match begin with
    | None => Throw invalid_entity
    | Some b =>
        if decide (transaction_type = TRANSACTION_UNDEFINED) then set_int64 c PARAM_TYPE (get_int64 b PARAM_TYPE)
        else if decide (transaction_type <> wrap 8 (get_int64 b PARAM_TYPE)) then Throw invalid_type
        else Ok c
    end.

Definition parse_transaction_command (cmd : command_t) (commands : list command) (s : state) : result (list command * state) :=
  let! '(transaction_type, s) := parse_transaction_type s in
  let! '(expr, s) := parse_transaction_condition cmd s in
  let! s := semi_colon s in
  let! c := set_int64 (new_command cmd) PARAM_TYPE transaction_type in
  let! c := if decide (expr = []) then Ok c else command_set_string c PARAM_CONDITION expr in
  let! c := check_transaction commands transaction_type c in
  Ok (commands ++ [c], s).

(** ** CREATE CONTEXT *)

(** What the clauses of CREATE CONTEXT give. *)
Record context_clauses := ContextClauses {
  cc_path : list Z;
  cc_owner : list Z;
  cc_group : list Z;
  cc_description : list Z;
}.

(** USING <path> *)
Definition parse_using (cc : context_clauses) (s : state) : result (context_clauses * state) :=
  if decide (cc_path cc <> []) then Throw invalid_token
  else
    let! s := next_is TOKEN_STRING s in
    let path := lower s in
    if decide (path = []) then Throw invalid_token
    else if decide (MAX_CONTEXT_NAME_SEGMENTS <= length (tokenize_path path))%nat then Throw invalid_token
    else Ok (ContextClauses path (cc_owner cc) (cc_group cc) (cc_description cc), s).

(** A name or a number. *)
Definition name_or_number (s : state) : result (list Z) :=
  if is_token s TOKEN_IDENTIFIER then Ok (text s)
  else if is_token s TOKEN_INTEGER then int512_to_string (t_integer (f_node s)) 10 false false
  else Throw invalid_token.

(** WITH ( OWNER [=] <owner> ), the current token being the first one of the owner. *)
Definition parse_owner (cc : context_clauses) (s : state) : result (context_clauses * state) :=
  if decide (cc_owner cc <> []) then Throw invalid_token
  else if is_token s TOKEN_STRING
  then
    let! s' := next_token s in
    match span (fun c => negb (Z.eqb c (chr: ":"))) (text s) with
    | (owner, _ :: group) => Ok (ContextClauses (cc_path cc) owner group (cc_description cc), s')
    | (owner, []) => Ok (ContextClauses (cc_path cc) owner (cc_group cc) (cc_description cc), s')
    end
  else
    let! owner := name_or_number s in
    let! s := next_token s in
    if is_token s TOKEN_COLON
    then
      let! s := next_token s in
      let! group := name_or_number s in
      let! s := next_token s in
      Ok (ContextClauses (cc_path cc) owner group (cc_description cc), s)
    else Ok (ContextClauses (cc_path cc) owner (cc_group cc) (cc_description cc), s).

(** WITH ( COMMENT [=] <description> ) *)
Definition parse_comment (cc : context_clauses) (s : state) : result (context_clauses * state) :=
  if decide (cc_description cc <> []) then Throw invalid_token
  else if negb (is_token s TOKEN_STRING) then Throw invalid_token
  else
    let! s' := next_token s in
    Ok (ContextClauses (cc_path cc) (cc_owner cc) (cc_group cc) (text s), s').

(** One feature of a WITH, and what follows it. *)
Definition with_turn (a : context_clauses * state) : result (context_clauses * state + context_clauses * state) :=
  let '(cc, s) := a in
  let! s := next_is TOKEN_IDENTIFIER s in
  let keyword := upper s in
  let! s := skip_equal s in
  let! '(cc, s) :=
    if decide (keyword = (str: "OWNER")) then parse_owner cc s
    else if decide (keyword = (str: "COMMENT")) then parse_comment cc s
    else Ok (cc, s) in
  if is_token s TOKEN_CLOSE_PARENTHESIS then Ok (inr (cc, s))
  else if negb (is_token s TOKEN_COMMA) then Throw invalid_token
  else Ok (inl (cc, s)).

(** One clause of CREATE CONTEXT; the other identifiers are skipped. *)
Definition context_turn (a : context_clauses * state) : result (context_clauses * state + context_clauses * state) :=
  let '(cc, s) := a in
  let! s := next_token s in
  if negb (is_token s TOKEN_IDENTIFIER) then Ok (inr (cc, s))
  else if is_word s (str: "USING") then let! a := parse_using cc s in Ok (inl a)
  else if is_word s (str: "WITH") then
    let! s := next_is TOKEN_OPEN_PARENTHESIS s in
    let! a := while_loop fuel with_turn (cc, s) in Ok (inl a)
  else Ok (inl (cc, s)).

Definition parse_create_context (commands : list command) (s : state) : result (list command * state) :=
  let! s := next_is TOKEN_IDENTIFIER s in
  let if_not_exists := is_word s (str: "IF") in
  let! s :=
    if if_not_exists
    then let! '(_, s) := keyword_string [(str: "NOT"); (str: "EXISTS")] TOKEN_IDENTIFIER s in Ok s
    else Ok s in
  let! c := set_bool (new_command COMMAND_CREATE_CONTEXT) PARAM_IF_EXISTS (negb if_not_exists) in
  let context_name := lower s in
  let! valid := validate_name (Some context_name) 255 in
  if negb valid then Throw invalid_token
  else
    let! c := command_set_string c PARAM_NAME context_name in
    let! '(cc, s) := while_loop fuel context_turn (ContextClauses [] [] [] [], s) in
    let! s := semi_colon s in
    let! c := command_set_string c PARAM_PATH (cc_path cc) in
    let! c := command_set_string c PARAM_USER (cc_owner cc) in
    let! c := command_set_string c PARAM_GROUP (cc_group cc) in
    let! c := command_set_string c PARAM_DESCRIPTION (cc_description cc) in
    Ok (commands ++ [c], s).

(** The statement after CREATE. *)
Definition parse_create (commands : list command) (s : state) : result (list command * state) :=
  let! s := next_is TOKEN_IDENTIFIER s in
  if is_word s (str: "CONTEXT") then parse_create_context commands s
  else if is_word s (str: "INDEX") then Throw not_yet_implemented
  else if is_word s (str: "TABLE") then Throw not_yet_implemented
  else if is_word s (str: "TYPE") then Throw not_yet_implemented
  else Throw invalid_token.

(** ** SELECT *)

(** [AS <name>], when the current token is AS. *)
Definition parse_as (s : state) : result (option state * state) :=
  if is_keyword s (str: "AS")
  then
    let! name := next_is TOKEN_IDENTIFIER s in
    let! s := next_token name in
    Ok (Some name, s)
  else Ok (None, s).

(** One expression, from the current token, with its name. *)
Definition select_turn (a : Z * command * state) : result (Z * command * state + command * state) :=
  let '(count, c, s) := a in
  if is_keyword s (str: "DEFAULT")
  then
    if decide (is_defined_as c PARAM_EXPRESSION = PARAM_TYPE_STRING) then Throw invalid_token
    else
      let! s := next_token s in
      if negb (is_token s TOKEN_IDENTIFIER) && negb (is_word s (str: "VALUES")) then Throw invalid_token
      else let! s := next_token s in Ok (inr (c, s))
  else if decide (count >= MAX_EXPRESSIONS) then Throw invalid_token
  else
    let! '(expr, s) := parse_expression s in
    let! c := command_set_string c (PARAM_EXPRESSION + count) expr in
    let! '(name, s) := parse_as s in
    let! c :=
      command_set_string c (PARAM_COLUMN_NAME + count)
        (match name with
         | Some name => lower name
         | None => (str: "__col") ++ decimal_text (count + 1)
         end) in
    if negb (is_token s TOKEN_COMMA) then Ok (inr (c, s))
    else let! s := next_token s in Ok (inl (count + 1, c, s)).

(** One table, from the current token.  The token after a comma is not read. *)
Definition from_turn (a : Z * command * state) : result (Z * command * state + command * state) :=
  let '(count, c, s) := a in
  if decide (count >= MAX_TABLES) then Throw invalid_token
  else if negb (is_token s TOKEN_IDENTIFIER) then Throw invalid_token
  else
    let! c := command_set_string c (PARAM_TABLE + count) (text s) in
    let! s := next_token s in
    let! '(name, s) := parse_as s in
    let! c :=
      match name with
      | Some name => command_set_string c (PARAM_TABLE_NAME + count) (text name)
      | None => Ok c
      end in
    if negb (is_token s TOKEN_COMMA) then Ok (inr (c, s)) else Ok (inl (count + 1, c, s)).

(** What the clauses after FROM gave. *)
Record select_clauses := SelectClauses { sc_where : list Z; sc_order_by : list Z; sc_limit : Z }.

(** WHERE <expression> *)
Definition parse_where (a : select_clauses * command * state) : result (select_clauses * command * state) :=
  let '(sc, c, s) := a in
  if decide (sc_where sc <> []) then Throw invalid_token
  else
    let! s := next_token s in
    let! '(expr, s) := parse_expression s in
    let! c := command_set_string c PARAM_WHERE expr in
    Ok (SelectClauses expr (sc_order_by sc) (sc_limit sc), c, s).

(** ORDER BY PRIMARY KEY and ORDER BY <index>; the last token is not skipped. *)
Definition parse_order_by (a : select_clauses * command * state) : result (select_clauses * command * state) :=
  let '(sc, c, s) := a in
  if decide (sc_order_by sc <> []) then Throw invalid_token
  else
    let! s := next_token s in
    if negb (is_keyword s (str: "BY")) then Throw invalid_token
    else
      let! s := next_is TOKEN_IDENTIFIER s in
      let! '(order_by, s) :=
        if is_word s (str: "PRIMARY")
        then
          let! s := next_token s in
          if negb (is_keyword s (str: "KEY")) then Throw invalid_token else Ok ((str: "primary_key"), s)
        else Ok (lower s, s) in
      let! c := command_set_string c PARAM_ORDER_BY order_by in
      Ok (SelectClauses (sc_where sc) order_by (sc_limit sc), c, s).

(** LIMIT <integer>; the integer is not skipped. *)
Definition parse_limit (a : select_clauses * command * state) : result (select_clauses * command * state) :=
  let '(sc, c, s) := a in
  if decide (sc_limit sc <> 0) then Throw invalid_token
  else
    let! s := next_is TOKEN_INTEGER s in
    let limit := signed 64 (if_value (t_integer (f_node s)) !!! 0%nat) in
    if decide (limit <= 0 \/ limit > MAX_LIMIT) then Throw invalid_token
    else
      let! c := set_int64 c PARAM_LIMIT limit in
      Ok (SelectClauses (sc_where sc) (sc_order_by sc) limit, c, s).

Definition clause_turn (a : select_clauses * command * state) : result (select_clauses * command * state + command * state) :=
  let '(_, c, s) := a in
  if is_keyword s (str: "WHERE") then let! a := parse_where a in Ok (inl a)
  else if is_keyword s (str: "ORDER") then let! a := parse_order_by a in Ok (inl a)
  else if is_keyword s (str: "LIMIT") then let! a := parse_limit a in Ok (inl a)
  else Ok (inr (c, s)).

(** FROM and what follows it. *)
Definition parse_from (c : command) (s : state) : result (command * state) :=
  if is_keyword s (str: "FROM")
  then
    let! s := next_token s in
    let! '(c, s) := while_loop fuel from_turn (0, c, s) in
    while_loop fuel clause_turn (SelectClauses [] [] 0, c, s)
  else Ok (c, s).

(** OUTPUT <mode>; the mode is not skipped. *)
Definition parse_output (c : command) (s : state) : result (command * state) :=
  if is_keyword s (str: "OUTPUT")
  then
    let! s := next_is TOKEN_IDENTIFIER s in
    let! mode :=
      if is_word s (str: "TABLE") then Ok PARAM_MODE_TABLE
      else if is_word s (str: "PRINT") then Ok PARAM_MODE_PRINT
      else if is_word s (str: "JSON") then Ok PARAM_MODE_JSON
      else Throw invalid_token in
    let! c := set_int64 c PARAM_MODE mode in
    Ok (c, s)
  else Ok (c, s).

Definition parse_select (commands : list command) (s : state) : result (list command * state) :=
  let! s := next_token s in
  let! '(c, s) := while_loop fuel select_turn (0, new_command COMMAND_SELECT, s) in
  let! '(c, s) := parse_from c s in
  let! '(c, s) := parse_output c s in
  let! s := semi_colon s in
  Ok (commands ++ [c], s).

(** ** CONFIG *)

(** CONFIG '<expression>', to search the parameters. *)
Definition config_search (c : command) (s : state) : result (command * state) :=
  let name := text s in
  let! c :=
    if decide (name = []) then Ok c
    else
      command_set_string c PARAM_NAME
        (if decide (head name <> Some (chr: "/") \/ last name <> Some (chr: "/")) then quote name (chr: "/") else name) in
  let! s := next_token s in
  Ok (c, s).

(** CONFIG [<path>::]<name> [= <expression>] *)
Definition config_parameter (c : command) (s : state) : result (command * state) :=
  let name := text s in
  let! s := next_token s in
  let! '(c, name, s) :=
    if is_token s TOKEN_SCOPE
    then
      let! s := next_is TOKEN_IDENTIFIER s in
      let! c := command_set_string c PARAM_PATH name in
      let name := text s in
      let! s := next_token s in
      Ok (c, name, s)
    else Ok (c, name, s) in
  let! c := command_set_string c PARAM_NAME name in
  if is_token s TOKEN_EQUAL
  then
    let! s := next_token s in
    let! '(expr, s) := parse_expression s in
    let! c := command_set_string c PARAM_EXPRESSION expr in
    Ok (c, s)
  else Ok (c, s).

Definition parse_config (commands : list command) (s : state) : result (list command * state) :=
  let c := new_command COMMAND_CONFIG in
  let! s := next_token s in
  if is_token s TOKEN_SEMI_COLON then Ok (commands ++ [c], s)
  else
    let! '(c, s) :=
      if is_token s TOKEN_STRING then config_search c s
      else if is_token s TOKEN_IDENTIFIER then config_parameter c s
      else Throw invalid_token in
    let! s := semi_colon s in
    Ok (commands ++ [c], s).

(** ** Scripts *)

(** One statement: the commands and the state after it, or the end of the script
    with [f_quit]. *)
Definition parse_turn (a : list command * state) : result (list command * state + list command * bool * state) :=
  let '(commands, s) := a in
  let! s := next_token s in
  if is_token s TOKEN_EOF then Ok (inr (commands, false, s))
  else if negb (is_token s TOKEN_IDENTIFIER) then Throw invalid_token
  else if is_word s (str: "ALTER") then let! s := parse_alter s in Ok (inl (commands, s))
  else if is_word s (str: "BEGIN") then let! a := parse_transaction_command COMMAND_BEGIN commands s in Ok (inl a)
  else if is_word s (str: "BYE") then let! s := expect_semi_colon s in Ok (inr (commands, true, s))
  else if is_word s (str: "COMMIT") then let! a := parse_transaction_command COMMAND_COMMIT commands s in Ok (inl a)
  else if is_word s (str: "CONFIG") then let! a := parse_config commands s in Ok (inl a)
  else if is_word s (str: "CREATE") then let! a := parse_create commands s in Ok (inl a)
  else if is_word s (str: "EXIT") then let! s := expect_semi_colon s in Ok (inr (commands, true, s))
  else if is_word s (str: "QUIT") then let! s := expect_semi_colon s in Ok (inr (commands, true, s))
  else if is_word s (str: "ROLLBACK") then let! a := parse_transaction_command COMMAND_ROLLBACK commands s in Ok (inl a)
  else if is_word s (str: "SELECT") then let! a := parse_select commands s in Ok (inl a)
  else if is_word s (str: "SET") then Throw not_yet_implemented
  else
    match f_user_capture with
    | Some capture => if capture (upper s) then Ok (inr (commands, false, s)) else Throw invalid_token
    | None => Throw invalid_token
    end.

(** The parser: its lexer, its commands, and whether parse() was called and the
    script asks to quit. *)
Record parser := NewParser { p_lexer : lexer; f_commands : list command; f_parsed : bool; f_quit : bool }.

Definition new_parser (l : lexer) : parser := NewParser l [] false false.

(** No token was read yet. *)
Definition no_token : tree := make_node TOKEN_UNKNOWN (Location [] 1 1).

Definition parse (p : parser) : result parser :=
  if f_parsed p then Throw fatal_error
  else
    let! '(commands, quit, s) := while_loop fuel parse_turn (f_commands p, ExprState (p_lexer p) no_token) in
    Ok (NewParser (f_lexer s) commands true quit).
End Parser.
Arguments parser : clear implicits.
