(* ===== verification/ParserTotal.v ===== *)
(** * Parsing a script ends

    What each statement does with the commands made so far, when [left m s]: it
    reads at least a token, keeps the commands well formed ([commands_ok]), or
    throws one of the exceptions of [script_error]. *)

From S2P Require Import Prelude Limbs BigLoops Uint512 Int512 BigText Names Input LongDouble Lexer LexerTotal SortedMap StructTypes.
From S2P Require Import Nodes Functions As2js Expression LexerTypes IntegerTypes ExprTypes ActionTypes ExprTotal Command Parser.

(** ** Models *)

(** The search goes the wrong way: only the name in the middle is found. *)
Lemma model_turn uc fuel i j p name model : i < j -> p = (j - i) ÷ 2 + i -> g_model_and_name !! Z.to_nat p = Some (name, model) ->
  model_loop uc (S fuel) i j =
    if string_ltb uc name then model_loop uc fuel (p + 1) j
    else if string_ltb name uc then model_loop uc fuel i p
    else Ok model.
Proof. intros Hij Hp Hl. cbn [model_loop]. rewrite decide_True by done. rewrite <- Hp, Hl. done. Qed.

Lemma name_to_model_found debug to_upper name :
  name_to_model debug to_upper name =
    if decide (name = []) then Ok TABLE_MODEL_DEFAULT
    else if decide (to_upper name = (str: "QUEUE")) then Ok TABLE_MODEL_QUEUE
    else Throw invalid_name.
Proof.
  unfold name_to_model. replace (debug && _) with false by (destruct debug; vm_compute; reflexivity).
  destruct (decide (name = [])); [done|]. generalize (to_upper name). clear. intros uc.
  change (Z.of_nat _) with 8. rewrite (model_turn uc 8 0 8 4 (str: "QUEUE") TABLE_MODEL_QUEUE) by done.
  destruct (string_ltb uc (str: "QUEUE")) eqn:E1; [|destruct (string_ltb (str: "QUEUE") uc) eqn:E2].
  - rewrite decide_False by (intros ->; done).
    change (4 + 1) with 5. rewrite (model_turn uc 7 5 8 6 (str: "SESSION") TABLE_MODEL_SESSION) by done.
    rewrite (ltb_trans (ltb := string_ltb) uc (str: "QUEUE") (str: "SESSION")) by done.
    change (6 + 1) with 7. rewrite (model_turn uc 6 7 8 7 (str: "TREE") TABLE_MODEL_TREE) by done.
    by rewrite (ltb_trans (ltb := string_ltb) uc (str: "QUEUE") (str: "TREE")).
  - rewrite decide_False by (intros ->; done).
    rewrite (model_turn uc 7 0 4 2 (str: "DEFAULT") TABLE_MODEL_DEFAULT) by done.
    pose proof (ltb_trans (ltb := string_ltb) _ _ _ (eq_refl : string_ltb (str: "DEFAULT") (str: "QUEUE") = true) E2) as H.
    rewrite (ltb_asym string_ltb _ _ H), H. rewrite (model_turn uc 6 0 2 1 (str: "DATA") TABLE_MODEL_DATA) by done.
    pose proof (ltb_trans (ltb := string_ltb) _ _ _ (eq_refl : string_ltb (str: "DATA") (str: "DEFAULT") = true) H) as H1.
    rewrite (ltb_asym string_ltb _ _ H1), H1. rewrite (model_turn uc 5 0 1 0 (str: "CONTENT") TABLE_MODEL_CONTENT) by done.
    pose proof (ltb_trans (ltb := string_ltb) _ _ _ (eq_refl : string_ltb (str: "CONTENT") (str: "DATA") = true) H1) as H2.
    by rewrite (ltb_asym string_ltb _ _ H2), H2.
  - by rewrite decide_True by (by apply (ltb_total (ltb := string_ltb))).
Qed.

(** ** Transactions *)

(** The transactions of a script, as a machine: its state is the type of the open
    transaction; [None] is a command that cannot come next. *)
Definition transaction_step (open : option Z) (c : command) : option (option Z) :=
  match get_command c, open with
  | COMMAND_BEGIN, None => Some (Some (get_int64 c PARAM_TYPE))
  | COMMAND_BEGIN, Some _ => None
  | (COMMAND_COMMIT | COMMAND_ROLLBACK), Some type => if decide (get_int64 c PARAM_TYPE = type) then Some None else None
  | (COMMAND_COMMIT | COMMAND_ROLLBACK), None => None
  | _, _ => Some open
  end.

Definition transactions (commands : list command) : option (option Z) :=
  foldl (fun state c => open ← state; transaction_step open c) (Some None) commands.

Lemma transactions_snoc commands c : transactions (commands ++ [c]) = (open ← transactions commands; transaction_step open c).
Proof. unfold transactions. by rewrite foldl_app. Qed.

(** The transaction that the last command of a transaction leaves open. *)
Definition open_transaction (commands : list command) : option Z :=
  match last_transaction commands with
  | Some c => if decide (get_command c = COMMAND_BEGIN) then Some (get_int64 c PARAM_TYPE) else None
  | None => None
  end.

Lemma last_transaction_snoc commands c :
  last_transaction (commands ++ [c]) = if is_transaction_command c then Some c else last_transaction commands.
Proof. unfold last_transaction. by rewrite rev_app_distr. Qed.

Lemma other_command c : is_transaction_command c = false -> forall open, transaction_step open c = Some open.
Proof. unfold is_transaction_command, transaction_step. rewrite bool_decide_eq_false. intros H open. destruct (get_command c); set_solver. Qed.

Lemma open_transaction_snoc commands c open :
  transaction_step (open_transaction commands) c = Some open ->
  open_transaction (commands ++ [c]) = open.
Proof.
  intros Hstep. unfold open_transaction at 1. rewrite last_transaction_snoc.
  destruct (is_transaction_command c) eqn:E; [|rewrite (other_command c E) in Hstep; by injection Hstep].
  unfold is_transaction_command in E. apply bool_decide_eq_true in E. revert Hstep. unfold transaction_step.
  destruct (get_command c), (open_transaction commands); rewrite ?decide_True by done; try destruct (decide _); try congruence; set_solver.
Qed.

(** ** Commands *)

(** What parsing guarantees of a command: the types of its parameters, the type of
    a transaction, and the clauses that a SELECT never has. *)
Record command_ok (c : command) : Prop := {
  ok_typed : typed c;
  ok_transaction : 0 <= get_int64 c PARAM_TYPE <= 2;
  ok_limit : is_defined_as c PARAM_LIMIT = PARAM_TYPE_UNKNOWN;
  ok_mode : is_defined_as c PARAM_MODE = PARAM_TYPE_UNKNOWN;
  ok_tables i : 0 < i < MAX_TABLES -> is_defined_as c (PARAM_TABLE + i) = PARAM_TYPE_UNKNOWN;
  ok_order_by : is_defined_as c PARAM_ORDER_BY <> PARAM_TYPE_UNKNOWN -> is_defined_as c PARAM_WHERE <> PARAM_TYPE_UNKNOWN;
}.

Record commands_ok (commands : list command) : Prop := {
  ok_commands c : c ∈ commands -> command_ok c;
  ok_transactions : transactions commands = Some (open_transaction commands);
}.

Lemma commands_ok_nil : commands_ok [].
Proof. split; [by intros c ?%elem_of_nil|done]. Qed.

Lemma commands_ok_snoc commands c : commands_ok commands -> command_ok c ->
  is_Some (transaction_step (open_transaction commands) c) -> commands_ok (commands ++ [c]).
Proof.
  intros [Hcs Ht] Hc [open Hopen]. split.
  - intros c' [?| ->%list_elem_of_singleton]%elem_of_app; auto.
  - rewrite transactions_snoc, Ht. cbn [mbind option_bind]. rewrite Hopen. f_equal. symmetry. by apply open_transaction_snoc.
Qed.

Lemma commands_ok_other commands c : commands_ok commands -> command_ok c -> is_transaction_command c = false ->
  commands_ok (commands ++ [c]).
Proof. intros Hcs Hc H. apply commands_ok_snoc; [done..|]. by rewrite other_command. Qed.

(** The parameters that any command may have. *)
Definition free_param (param : param_t) : bool :=
  bool_decide (param <> PARAM_TYPE /\ param <> PARAM_LIMIT /\ param <> PARAM_MODE /\ param <> PARAM_ORDER_BY /\
    ~ PARAM_TABLE < param < PARAM_TABLE_NAME).

Lemma new_command_ok cmd : command_ok (new_command cmd).
Proof. split; [apply new_command_typed|done|..]; intros; by rewrite new_command_undefined in *. Qed.

(** A parameter that is set later. *)
Lemma sets_free c param c' : command_ok c -> sets c param c' -> free_param param = true -> command_ok c'.
Proof.
  intros [Ht Hi Hl Hm Htab Ho] Hs (H1 & H2 & H3 & H4 & H5)%bool_decide_eq_true. split.
  - by eapply sets_typed.
  - by rewrite (sets_int64 _ _ _ Hs).
  - rewrite (sets_type _ _ _ Hs). by rewrite decide_False.
  - rewrite (sets_type _ _ _ Hs). by rewrite decide_False.
  - intros i Hr. rewrite (sets_type _ _ _ Hs), decide_False; [by apply Htab|]. intros <-. apply H5. unfold PARAM_TABLE_NAME. lia.
  - rewrite !(sets_type _ _ _ Hs), (decide_False (P := PARAM_ORDER_BY = _)) by done. intros H%Ho.
    destruct (decide _) as [<-|]; [|done]. done.
Qed.

Lemma sets_transaction c c' : command_ok c -> sets c PARAM_TYPE c' -> 0 <= get_int64 c' PARAM_TYPE <= 2 -> command_ok c'.
Proof.
  intros [Ht Hi Hl Hm Htab Ho] Hs Hr. split; [by eapply sets_typed|done|..]; rewrite ?(sets_type _ _ _ Hs).
  - done.
  - done.
  - intros i Hi'. rewrite (sets_type _ _ _ Hs), decide_False; [by apply Htab|]. unfold PARAM_TABLE, PARAM_COLUMN_NAME, PARAM_EXPRESSION, PARAM_TYPE, MAX_EXPRESSIONS. lia.
  - done.
Qed.

(** A text in a parameter that any command may have. *)
Lemma set_string_free c param value : command_ok c -> param_type param = PARAM_TYPE_STRING -> free_param param = true ->
  exists c', command_set_string c param value = Ok c' /\ sets c param c' /\ command_ok c'.
Proof.
  intros Hc Ht Hf. destruct (command_set_string_ok c param value) as (c' & -> & Hs & _); [apply Hc|done|].
  exists c'. split_and!; [done..|]. by apply (sets_free c param).
Qed.

Lemma last_transaction_elem commands c : last_transaction commands = Some c -> c ∈ commands /\ is_transaction_command c = true.
Proof. unfold last_transaction. intros [Hin ?]%List.find_some. split; [|done]. by rewrite list_elem_of_In, in_rev. Qed.

(** ** The statements *)

Section ParserTotal.
Context {F : Type} {libraries : Libraries F} {parser_libraries : ParserLibraries}.
Context (EOS : Z) (is_hexdigit : Z -> bool) (hexdigit_to_number : Z -> Z) (to_u8string : Z -> result (list Z)).
Context (debug : bool) (f_user_capture : option (list Z -> bool)).
Context {eos : EndOfScript EOS} {laws : HexdigitLaws is_hexdigit hexdigit_to_number}.
Abbreviation state := (expr_state F).
Abbreviation left := (ExprTotal.left EOS).
Abbreviation next_token := (Expression.next_token EOS is_hexdigit hexdigit_to_number to_u8string).
Abbreviation next_is := (Parser.next_is EOS is_hexdigit hexdigit_to_number to_u8string).

(** The exceptions of the expressions and those of the statements. *)
Definition script_error (e : error) : Prop :=
  expr_error (F := F) to_u8string e \/ e ∈ [invalid_entity; invalid_type; invalid_name].

Definition ends {A} (r : result A) (Q : A -> Prop) : Prop := outcome script_error r Q.

Lemma ends_bind {A B} (r : result A) (k : A -> result B) P Q :
  ends r P -> (forall a, P a -> ends (k a) Q) -> ends (result_bind r k) Q.
Proof. apply outcome_bind. Qed.

Lemma ends_weaken {A} (r : result A) (P Q : A -> Prop) : ends r P -> (forall a, P a -> Q a) -> ends r Q.
Proof. intros H. by apply (outcome_weaken script_error). Qed.

Lemma ends_total {A} (r : result A) P Q : total (F := F) to_u8string r P -> (forall a, P a -> Q a) -> ends r Q.
Proof. intros H ?. apply (outcome_weaken (expr_error (F := F) to_u8string) _ _ P); [done|by left|done]. Qed.

Lemma ends_throw {A} e (Q : A -> Prop) :
  e ∈ [invalid_token; logic_error; not_yet_implemented; invalid_entity; invalid_type; invalid_name] -> ends (Throw e) Q.
Proof.
  unfold ends, script_error, expr_error. cbn. rewrite !elem_of_cons, elem_of_nil. intuition (subst; auto 10).
Qed.

Ltac throw := apply ends_throw, (bool_decide_unpack _); vm_compute; exact I.

(** One more token; a loop needs that the current one is not the end. *)
Lemma next_ends m s : left m s -> ends (next_token s) (left m).
Proof. intros Hs. eapply ends_total; [by apply next_token_left|]. intros s' H. eapply left_le; [done|]. destruct (decide _); lia. Qed.

Lemma next_strict m s : left m s -> current s <> TOKEN_EOF -> ends (next_token s) (fun s' => (0 < m)%nat /\ left (pred m) s').
Proof. intros Hs Hc. pose proof (left_positive EOS m s Hs Hc). eapply ends_total; [by apply next_token_total|]. auto. Qed.

Lemma next_is_ends token m s : left m s -> ends (next_is token s) (fun s' => left m s' /\ current s' = token).
Proof.
  intros Hs. unfold Parser.next_is. eapply ends_bind; [by apply next_ends|]. intros s' Hs'. cbn beta.
  destruct (is_token s' token) eqn:E; [|throw]. split; [done|by apply token_current].
Qed.

Lemma semi_colon_ends m (s : state) : left m s -> ends (semi_colon s) (fun s' => left m s' /\ s' = s /\ current s' = TOKEN_SEMI_COLON).
Proof. intros Hs. unfold semi_colon. destruct (is_token s _) eqn:E; [|throw]. apply token_current in E. done. Qed.

Lemma parse_expression_ends fuel m s : left m s -> (14 * m + 12 < fuel)%nat ->
  ends (parse_expression EOS is_hexdigit hexdigit_to_number to_u8string fuel s) (fun r => (0 < m)%nat /\ left (pred m) (snd r)).
Proof.
  intros Hs Hf. unfold parse_expression. eapply ends_bind.
  { eapply ends_total; [by apply (parse_expr_total EOS is_hexdigit hexdigit_to_number to_u8string fuel EXPR_LOGICAL_OR s m)|]. intros r Hr. exact Hr. }
  intros [t s'] (Ht & Hm & Hs'). cbn [fst snd] in *. destruct (operand_script t Ht) as [script ->]. done.
Qed.

(** ** ALTER *)

Lemma keywords_loop_ends m keywords b (s : state) : left m s -> current s <> TOKEN_EOF ->
  ends (keywords_loop EOS is_hexdigit hexdigit_to_number to_u8string debug keywords b s)
    (fun r => left m (snd r) /\ current (snd r) <> TOKEN_EOF).
Proof.
  revert b s. induction keywords as [|k keywords IH]; intros b s Hs Hc; [done|]. cbn [keywords_loop].
  destruct (debug && _); [throw|]. destruct (debug && _ && _); [throw|].
  eapply ends_bind; [by apply next_is_ends|]. cbn beta. intros s' [Hs' Hc'].
  destruct (negb _); [destruct (bool_decide _); [|throw]|]; apply IH; rewrite ?Hc'; done.
Qed.

Lemma keyword_string_ends m keywords token (s : state) : left m s -> current s <> TOKEN_EOF ->
  ends (keyword_string EOS is_hexdigit hexdigit_to_number to_u8string debug keywords token s)
    (fun r => left m (snd r) /\ (token <> TOKEN_UNKNOWN -> current (snd r) = token)).
Proof.
  intros Hs Hc. unfold keyword_string. eapply ends_bind; [by apply keywords_loop_ends|]. intros [b s1] [Hs1 Hc1]. cbn [snd] in *.
  eapply ends_bind; [by apply next_ends|]. intros s2 Hs2. destruct (decide _) as [?|Hn]; [throw|]. cbn [ends outcome snd].
  split; [done|]. intros Ht. destruct (decide (current s2 = token)); tauto.
Qed.

Lemma skip_equal_ends m (s : state) : left m s ->
  ends (skip_equal EOS is_hexdigit hexdigit_to_number to_u8string s) (left m).
Proof.
  intros Hs. unfold skip_equal. eapply ends_bind; [by apply next_ends|]. intros s1 Hs1.
  destruct (is_token s1 _); [by apply next_ends|done].
Qed.

(** What a statement leaves: at least a token was read, and the current one is not
    the end. *)
Definition statement (m : nat) (s : state) : Prop := left m s /\ current s <> TOKEN_EOF.

Lemma expect_semi_colon_ends m (s : state) : left m s ->
  ends (expect_semi_colon EOS is_hexdigit hexdigit_to_number to_u8string s) (statement m).
Proof.
  intros Hs. unfold expect_semi_colon. eapply ends_bind; [by apply next_ends|]. intros s1 Hs1.
  eapply ends_weaken; [by apply semi_colon_ends|]. intros s2 (Hs2 & _ & Hc). split; [done|]. by rewrite Hc.
Qed.

Lemma statement_token m (s : state) token : left m s -> is_token s token = true -> token <> TOKEN_EOF -> statement m s.
Proof. intros Hs H%token_current Ht. split; [done|]. by rewrite H. Qed.

Lemma parse_alter_index_set_ends m (s : state) : left m s ->
  ends (parse_alter_index_set EOS is_hexdigit hexdigit_to_number to_u8string debug s) (statement m).
Proof.
  intros Hs. unfold parse_alter_index_set. eapply ends_bind; [by apply next_is_ends|]. intros s1 [Hs1 _].
  eapply ends_bind; [|cbn beta].
  { instantiate (1 := left m). destruct (is_word s1 _); [|done]. eapply ends_weaken; [by apply next_is_ends|]. by intros ? [? _]. }
  intros s2 Hs2. destruct (_ || _); [by apply expect_semi_colon_ends|]. destruct (is_word s1 _); [throw|].
  destruct (is_word s2 _).
  { eapply ends_bind; [by apply skip_equal_ends|]. intros s3 Hs3. destruct (negb _); [throw|]. rewrite name_to_model_found.
    repeat destruct (decide _); [by apply expect_semi_colon_ends..|]. by right; right; right; left. }
  destruct (is_word s2 _); [|throw].
  eapply ends_bind; [by apply skip_equal_ends|]. intros s3 Hs3. destruct (negb _); [throw|]. by apply expect_semi_colon_ends.
Qed.

Lemma parse_alter_index_column_ends m drop (s : state) : left m s ->
  ends (parse_alter_index_column EOS is_hexdigit hexdigit_to_number to_u8string drop s) (statement m).
Proof.
  intros Hs. unfold parse_alter_index_column. eapply ends_bind; [by apply next_ends|]. intros s1 Hs1.
  destruct (is_keyword s1 _).
  { eapply ends_bind; [by apply next_ends|]. intros s2 Hs2. destruct (_ || _) eqn:E; [|throw].
    apply orb_true_iff in E as [E|[E _]%andb_true_iff]; by eapply statement_token. }
  destruct (_ && _) eqn:E1; [apply andb_true_iff in E1 as [E1 _]; by eapply statement_token|].
  destruct (is_token s1 TOKEN_OPEN_PARENTHESIS && _) eqn:E2; [apply andb_true_iff in E2 as [E2 _]; by eapply statement_token|].
  destruct (is_token s1 TOKEN_INTEGER && _) eqn:E3; [apply andb_true_iff in E3 as [E3 _]; by eapply statement_token|throw].
Qed.

Lemma parse_alter_ends m (s : state) : left m s ->
  ends (parse_alter EOS is_hexdigit hexdigit_to_number to_u8string debug s) (statement m).
Proof.
  intros Hs. unfold parse_alter. eapply ends_bind; [by apply next_is_ends|]. intros s1 [Hs1 Hc1].
  destruct (is_word s1 _); [throw|]. destruct (is_word s1 _); [|repeat (destruct (is_word s1 _); [throw|]); throw].
  unfold parse_alter_index. eapply ends_bind; [by apply next_is_ends|]. intros s2 [Hs2 Hc2].
  eapply ends_bind; [|cbn beta].
  { instantiate (1 := left m). destruct (is_word s2 _); [|done]. eapply ends_bind; [apply (keyword_string_ends m); by rewrite ?Hc2|].
    by intros [b s3] [Hs3 _]. }
  intros s3 Hs3. eapply ends_bind; [by apply next_is_ends|]. intros s4 [Hs4 _].
  destruct (is_word s4 _); [by apply parse_alter_index_column_ends|]. destruct (is_word s4 _); [by apply parse_alter_index_column_ends|].
  destruct (is_word s4 _); [by apply parse_alter_index_set_ends|throw].
Qed.

(** ** Transactions *)

Lemma check_transaction_ends commands c : commands_ok commands -> command_ok c -> is_transaction_command c = true ->
  ends (check_transaction commands (get_int64 c PARAM_TYPE) c)
    (fun c' => command_ok c' /\ is_Some (transaction_step (open_transaction commands) c')).
Proof.
  intros Hcs Hc Hk. apply bool_decide_eq_true in Hk. unfold check_transaction, open_transaction, transaction_step.
  destruct (last_transaction commands) as [b|] eqn:E.
  2: { destruct (decide (get_command c = COMMAND_BEGIN)) as [H|H]; [|throw]. split; [done|]. by rewrite H. }
  apply last_transaction_elem in E as [Hb _]. pose proof (ok_transaction b (ok_commands _ Hcs b Hb)) as Hr.
  destruct (decide (get_command b = COMMAND_BEGIN)).
  2: { destruct (decide (get_command c = COMMAND_BEGIN)) as [H|H]; [|throw]. split; [done|]. by rewrite H. }
  destruct (decide (get_command c = COMMAND_BEGIN)) as [H|H]; [throw|].
  assert (get_command c = COMMAND_COMMIT \/ get_command c = COMMAND_ROLLBACK) as Hcmd by set_solver.
  destruct (decide _).
  - destruct (set_int64_ok c PARAM_TYPE (get_int64 b PARAM_TYPE)) as (c' & -> & Hs & Hv); [apply Hc|done|].
    split; [apply (sets_transaction c); rewrite ?Hv; done|]. rewrite (sets_command _ _ _ Hs), Hv.
    destruct Hcmd as [-> | ->]; by rewrite decide_True.
  - destruct (decide _) as [|Hw]; [throw|]. rewrite wrap_small in Hw by (unfold uword; lia). apply dec_stable in Hw.
    split; [done|]. destruct Hcmd as [-> | ->]; by rewrite decide_True.
Qed.

Lemma parse_transaction_type_ends m (s : state) : left m s ->
  ends (parse_transaction_type EOS is_hexdigit hexdigit_to_number to_u8string s) (fun r => 0 <= fst r <= 2 /\ left m (snd r)).
Proof.
  intros Hs. unfold parse_transaction_type. eapply ends_bind; [by apply next_ends|]. intros s1 Hs1.
  eapply ends_bind; [|cbn beta].
  { instantiate (1 := left m). destruct (_ || _); [by apply next_ends|done]. }
  intros s2 Hs2. destruct (is_token s2 _); [|done].
  eapply ends_bind; [|cbn beta].
  { instantiate (1 := left m). destruct (is_word s2 _); [|done]. eapply ends_weaken; [by apply next_is_ends|]. by intros ? [? _]. }
  intros s3 Hs3. destruct (is_word s3 _); [eapply ends_bind; [by apply next_ends|by intros s4 Hs4]|].
  destruct (is_word s3 _); [eapply ends_bind; [by apply next_ends|by intros s4 Hs4]|]. destruct (is_word s2 _); [throw|done].
Qed.

Lemma parse_transaction_condition_ends fuel m cmd (s : state) : left m s -> (14 * m + 12 < fuel)%nat ->
  ends (parse_transaction_condition EOS is_hexdigit hexdigit_to_number to_u8string fuel cmd s) (fun r => left m (snd r)).
Proof.
  intros Hs Hf. unfold parse_transaction_condition. destruct (_ && _); [|done]. destruct (negb _); [throw|].
  eapply ends_bind; [by apply next_ends|]. intros s1 Hs1. eapply ends_bind; [by apply (parse_expression_ends fuel m)|].
  intros [expr s2] [Hm Hs2]. cbn [snd] in *. apply (left_le _ _ m) in Hs2; [|lia].
  destruct (is_token s2 _); [|done]. destruct (negb _); [throw|]. eapply ends_bind; [by apply next_ends|]. intros s3 Hs3.
  destruct (negb _); [throw|]. eapply ends_bind; [by apply next_ends|]. by intros s4 Hs4.
Qed.

(** The commands and the state after a statement. *)
Definition made (m : nat) (r : list command * state) : Prop := commands_ok (fst r) /\ statement m (snd r).

Lemma parse_transaction_command_ends fuel m cmd commands (s : state) :
  cmd ∈ [COMMAND_BEGIN; COMMAND_COMMIT; COMMAND_ROLLBACK] -> commands_ok commands -> left m s -> (14 * m + 12 < fuel)%nat ->
  ends (parse_transaction_command EOS is_hexdigit hexdigit_to_number to_u8string fuel cmd commands s) (made m).
Proof.
  intros Hcmd Hcs Hs Hf. unfold parse_transaction_command. eapply ends_bind; [by apply parse_transaction_type_ends|].
  intros [type s1] [Ht Hs1]. cbn [fst snd] in *. eapply ends_bind; [by apply (parse_transaction_condition_ends fuel m)|].
  intros [expr s2] Hs2. cbn [snd] in *. eapply ends_bind; [by apply semi_colon_ends|]. intros s3 (Hs3 & _ & Hc3).
  destruct (set_int64_ok (new_command cmd) PARAM_TYPE type) as (c & -> & Hsc & Hv); [apply new_command_typed|done|]. cbn [result_bind].
  assert (command_ok c) as Hc by (apply (sets_transaction (new_command cmd)); [apply new_command_ok|done|lia]).
  assert (exists c', (if decide (expr = []) then Ok c else command_set_string c PARAM_CONDITION expr) = Ok c' /\
    command_ok c' /\ get_command c' = cmd /\ get_int64 c' PARAM_TYPE = type) as (c' & -> & Hc' & Hcmd' & <-).
  { destruct (decide _); [exists c; by rewrite (sets_command _ _ _ Hsc)|].
    destruct (command_set_string_ok c PARAM_CONDITION expr) as (c' & -> & Hs' & _); [apply Hc|done|].
    exists c'. rewrite (sets_command _ _ _ Hs'), (sets_command _ _ _ Hsc), (sets_int64 _ _ _ Hs') by done. split_and!; [done| |done..].
    by apply (sets_free c PARAM_CONDITION). }
  cbn [result_bind]. eapply ends_bind; [apply check_transaction_ends; [done..|]|].
  { unfold is_transaction_command. by rewrite Hcmd', bool_decide_true. }
  intros c'' [Hc'' Hstep]. split; [by apply commands_ok_snoc|]. split; [done|]. cbn [snd]. by rewrite Hc3.
Qed.

(** ** CREATE CONTEXT *)

(** The clauses read so far; the current token is not the end. *)
Definition clauses (k : nat) (a : context_clauses * state) : Prop := statement k (snd a).

Lemma parse_using_ends m cc (s : state) : left m s ->
  ends (parse_using EOS is_hexdigit hexdigit_to_number to_u8string cc s) (clauses m).
Proof.
  intros Hs. unfold parse_using. destruct (decide _); [throw|]. eapply ends_bind; [by apply next_is_ends|]. intros s1 [Hs1 Hc1].
  cbv zeta. destruct (decide _); [throw|]. destruct (decide _); [throw|]. split; [done|]. cbn [snd]. by rewrite Hc1.
Qed.

Lemma name_or_number_ends m (s : state) : left m s -> ends (name_or_number s) (fun _ => True).
Proof.
  intros Hs. unfold name_or_number. destruct (is_token s _); [done|]. destruct (is_token s _); [|throw].
  destruct (int512_to_string_10 (t_integer (f_node s))) as [text ->]; [apply Hs|done].
Qed.

Lemma parse_owner_ends m cc (s : state) : left m s ->
  ends (parse_owner EOS is_hexdigit hexdigit_to_number to_u8string cc s) (fun r => left m (snd r)).
Proof.
  intros Hs. unfold parse_owner. destruct (decide _); [throw|]. destruct (is_token s _).
  - eapply ends_bind; [by apply next_ends|]. intros s1 Hs1. destruct (span _ _) as [owner [|? group]]; done.
  - eapply ends_bind; [by apply (name_or_number_ends m)|]. intros owner _. eapply ends_bind; [by apply next_ends|]. intros s1 Hs1.
    destruct (is_token s1 _); [|done]. eapply ends_bind; [by apply next_ends|]. intros s2 Hs2.
    eapply ends_bind; [by apply (name_or_number_ends m)|]. intros group _. eapply ends_bind; [by apply next_ends|]. by intros s3 Hs3.
Qed.

Lemma parse_comment_ends m cc (s : state) : left m s ->
  ends (parse_comment EOS is_hexdigit hexdigit_to_number to_u8string cc s) (fun r => left m (snd r)).
Proof.
  intros Hs. unfold parse_comment. destruct (decide _); [throw|]. destruct (negb _); [throw|].
  eapply ends_bind; [by apply next_ends|]. by intros s1 Hs1.
Qed.

Lemma with_turn_ends k a : clauses k a ->
  ends (with_turn EOS is_hexdigit hexdigit_to_number to_u8string a)
    (fun r => match r with inl a => (0 < k)%nat /\ clauses (pred k) a | inr a => clauses k a end).
Proof.
  destruct a as [cc s]. intros [Hs Hc]. cbn [snd] in *. unfold with_turn, Parser.next_is.
  eapply ends_bind; [eapply ends_bind; [by apply next_strict|]|].
  { intros s1 Hs1. destruct (is_token s1 _); [|throw]. exact Hs1. }
  intros s1 [Hk Hs1]. cbn beta zeta. eapply ends_bind; [by apply skip_equal_ends|]. intros s2 Hs2.
  eapply ends_bind.
  { instantiate (1 := fun r => left (pred k) (snd r)). destruct (decide _); [by apply parse_owner_ends|].
    destruct (decide _); [by apply parse_comment_ends|done]. }
  intros [cc' s3] Hs3. cbn [snd] in *. destruct (is_token s3 _) eqn:E.
  { apply token_current in E. split; cbn [snd]; [eapply left_le; [done|lia]|]. by rewrite E. }
  destruct (is_token s3 TOKEN_COMMA) eqn:E1; [|throw]. cbn [negb ends outcome]. split; [done|]. by eapply statement_token.
Qed.

Lemma statement_le m m' (s : state) : statement m s -> (m <= m')%nat -> statement m' s.
Proof. intros [Hs Hc] ?. split; [by eapply left_le|done]. Qed.

Lemma context_turn_ends fuel k a : clauses k a -> (k < fuel)%nat ->
  ends (context_turn EOS is_hexdigit hexdigit_to_number to_u8string fuel a)
    (fun r => match r with inl a => (0 < k)%nat /\ clauses (pred k) a | inr a => left k (snd a) end).
Proof.
  destruct a as [cc s]. intros [Hs Hc] Hf. cbn [snd] in *. unfold context_turn.
  eapply ends_bind; [by apply next_strict|]. intros s1 [Hk Hs1]. destruct (is_token s1 TOKEN_IDENTIFIER) eqn:E; cbn [negb].
  2: { eapply left_le; [exact Hs1|lia]. }
  destruct (is_word s1 _).
  { eapply ends_bind; [by apply parse_using_ends|]. intros a Ha. by split. }
  destruct (is_word s1 _); [|split; [done|]; by eapply statement_token].
  eapply ends_bind; [by apply next_is_ends|]. intros s2 [Hs2 Hc2].
  eapply ends_bind; [|intros a Ha; by split].
  apply (while_loop_outcome _ fuel _ clauses _ _ (pred k)); [split; [done|cbn [snd]; by rewrite Hc2]|lia|].
  intros k' a Hk' Ha. eapply ends_weaken; [by apply with_turn_ends|]. intros [a'|a'] H; [done|]. eapply statement_le; [exact H|done].
Qed.

(** A command being made. *)
Definition keeps (cmd : command_t) (c : command) : Prop := command_ok c /\ get_command c = cmd.

Lemma set_string_keeps cmd c param value : keeps cmd c -> param_type param = PARAM_TYPE_STRING -> free_param param = true ->
  ends (command_set_string c param value) (keeps cmd).
Proof.
  intros [Hc Hcmd] Ht Hf. destruct (set_string_free c param value) as (c' & -> & Hs & Hc'); [done..|].
  split; [done|]. by rewrite (sets_command _ _ _ Hs).
Qed.

Lemma made_command m cmd c commands (s : state) : cmd ∉ [COMMAND_BEGIN; COMMAND_COMMIT; COMMAND_ROLLBACK] ->
  commands_ok commands -> keeps cmd c -> left m s -> current s = TOKEN_SEMI_COLON -> made m (commands ++ [c], s).
Proof.
  intros Hcmd Hcs [Hc Hk] Hs Hcur. split.
  - apply commands_ok_other; [done..|]. unfold is_transaction_command. rewrite Hk. by apply bool_decide_eq_false.
  - split; [done|]. cbn [snd]. by rewrite Hcur.
Qed.

Lemma create_context_command if_not_exists name :
  ends (let! c := set_bool (new_command COMMAND_CREATE_CONTEXT) PARAM_IF_EXISTS (negb if_not_exists) in command_set_string c PARAM_NAME name)
    (keeps COMMAND_CREATE_CONTEXT).
Proof.
  destruct (set_bool_ok (new_command COMMAND_CREATE_CONTEXT) PARAM_IF_EXISTS (negb if_not_exists)) as (c & -> & Hs & _);
    [apply new_command_typed|done|].
  apply set_string_keeps; [|done..]. split; [apply (sets_free _ _ _ (new_command_ok _) Hs); done|by rewrite (sets_command _ _ _ Hs)].
Qed.

Lemma validate_name_ok name : exists valid, validate_name (Some name) 255 = Ok valid.
Proof.
  unfold validate_name. rewrite decide_False by done. destruct name as [|c name]; [by eexists|].
  change (default [] (Some (c :: name))) with (c :: name). cbn iota. destruct (decide (Z.of_nat _ > 255)); [by eexists|]. destruct (negb _); by eexists.
Qed.

Lemma parse_create_context_ends fuel m commands (s : state) : commands_ok commands -> left m s -> (m < fuel)%nat ->
  ends (parse_create_context EOS is_hexdigit hexdigit_to_number to_u8string debug fuel commands s) (made m).
Proof.
  intros Hcs Hs Hf. unfold parse_create_context. eapply ends_bind; [by apply next_is_ends|]. intros s1 [Hs1 Hc1]. cbv zeta.
  eapply ends_bind.
  { instantiate (1 := fun s => left m s /\ current s = TOKEN_IDENTIFIER). destruct (is_word s1 _); [|done].
    eapply ends_bind; [apply (keyword_string_ends m); by rewrite ?Hc1|]. intros [b s2] [Hs2 Hc2]. cbn [snd] in *. split; [done|]. by apply Hc2. }
  intros s2 [Hs2 Hc2]. cbn beta. destruct (validate_name_ok (lower s2)) as [valid ->].
  pose proof (create_context_command (is_word s1 (str: "IF")) (lower s2)) as Hset.
  destruct (set_bool _ _ _) as [c|e]; [|exact Hset]. cbn [result_bind] in *. destruct valid; cbn [negb]; [|throw].
  eapply ends_bind; [exact Hset|]. intros c1 Hk1.
  eapply ends_bind.
  { apply (while_loop_outcome _ fuel _ clauses (fun a => left m (snd a)) _ m); [split; [done|]; cbn; by rewrite Hc2|done|].
    intros k a Hk' Ha. eapply ends_weaken; [apply context_turn_ends; [done|lia]|]. intros [a'|a'] H; [done|]. by eapply left_le. }
  intros [cc s3] Hs3. cbn [snd] in *. eapply ends_bind; [by apply semi_colon_ends|]. intros s4 (Hs4 & -> & Hc4).
  do 4 (eapply ends_bind; [by apply set_string_keeps|]; intros ? ?).
  apply (made_command m COMMAND_CREATE_CONTEXT); [set_solver|done..].
Qed.

(** ** SELECT *)

Lemma string_param param : PARAM_EXPRESSION <= param -> param_type param = PARAM_TYPE_STRING.
Proof.
  unfold PARAM_EXPRESSION, param_type. intros H. rewrite !decide_False; [done|..|unfold PARAM_IF_EXISTS; lia].
  rewrite !elem_of_cons, elem_of_nil. unfold PARAM_LIMIT, PARAM_TYPE, PARAM_MODE. lia.
Qed.

Lemma free_string_param param : PARAM_EXPRESSION <= param <= PARAM_TABLE \/ PARAM_TABLE_NAME <= param -> free_param param = true.
Proof.
  unfold free_param. intros H. apply bool_decide_eq_true. numbers.
Qed.

Lemma parse_as_ends m (s : state) : left m s ->
  ends (parse_as EOS is_hexdigit hexdigit_to_number to_u8string s) (fun r => left m (snd r)).
Proof.
  intros Hs. unfold parse_as. destruct (is_keyword s _); [|done]. eapply ends_bind; [by apply next_is_ends|]. intros s1 [Hs1 _].
  eapply ends_bind; [by apply next_ends|]. by intros s2 Hs2.
Qed.

Definition select_state (k : nat) (a : Z * command * state) : Prop :=
  let '(count, c, s) := a in 0 <= count /\ keeps COMMAND_SELECT c /\ left k s.

(** A SELECT and the current token. *)
Definition selected (k : nat) (a : command * state) : Prop := keeps COMMAND_SELECT (fst a) /\ left k (snd a).

Lemma select_turn_ends fuel k a : select_state k a -> (14 * k + 12 < fuel)%nat ->
  ends (select_turn EOS is_hexdigit hexdigit_to_number to_u8string fuel a)
    (fun r => match r with inl a => (0 < k)%nat /\ select_state (pred k) a | inr a => selected k a end).
Proof.
  destruct a as [[count c] s]. intros (Hn & Hc & Hs) Hf. unfold select_turn. destruct (is_keyword s _).
  { destruct (decide _); [throw|]. eapply ends_bind; [by apply next_ends|]. intros s1 Hs1. destruct (_ && _); [throw|].
    eapply ends_bind; [by apply next_ends|]. by intros s2 Hs2. }
  destruct (decide (count >= MAX_EXPRESSIONS)) as [|Hmax]; [throw|].
  eapply ends_bind; [by apply (parse_expression_ends fuel k)|]. intros [expr s1] [Hk Hs1]. cbn [snd] in *.
  eapply ends_bind; [apply set_string_keeps; [done|apply string_param|apply free_string_param; left]; numbers|]. intros c1 Hc1.
  eapply ends_bind; [by apply parse_as_ends|]. intros [name s2] Hs2. cbn [snd] in *.
  eapply ends_bind; [apply set_string_keeps; [done|apply string_param|apply free_string_param; left]; numbers|]. intros c2 Hc2.
  destruct (negb _); [split; [done|]; cbn [snd]; by eapply left_le; [exact Hs2|lia]|].
  eapply ends_bind; [by apply next_ends|]. intros s3 Hs3. cbn. split_and!; [done|lia|done..].
Qed.

(** After a comma, the next turn fails: its token was not read. *)
Definition from_state (k : nat) (a : Z * command * state) : Prop :=
  let '(count, c, s) := a in (count = 0 /\ keeps COMMAND_SELECT c \/ current s = TOKEN_COMMA) /\ left k s.

Lemma from_turn_ends k a : from_state k a ->
  ends (from_turn EOS is_hexdigit hexdigit_to_number to_u8string a)
    (fun r => match r with inl a => (0 < k)%nat /\ from_state (pred k) a | inr a => selected k a end).
Proof.
  destruct a as [[count c] s]. intros [Hc Hs]. unfold from_turn. destruct (decide _); [throw|].
  destruct (is_token s TOKEN_IDENTIFIER) eqn:E; [|throw]. cbn [negb]. apply token_current in E.
  destruct Hc as [[-> Hc]|Hc]; [|rewrite Hc in E; discriminate].
  eapply ends_bind; [apply set_string_keeps; [done|apply string_param|apply free_string_param; left]; numbers|]. intros c1 Hc1.
  eapply ends_bind; [apply next_strict; [done|by rewrite E]|]. intros s1 [Hk Hs1].
  eapply ends_bind; [by apply parse_as_ends|]. intros [name s2] Hs2. cbn [snd] in *.
  eapply ends_bind.
  { instantiate (1 := keeps COMMAND_SELECT). destruct name; [|done].
    apply set_string_keeps; [done|apply string_param|apply free_string_param; right]; numbers. }
  intros c2 Hc2. destruct (is_token s2 TOKEN_COMMA) eqn:E2; cbn [negb ends outcome].
  - apply token_current in E2. split; [done|]. split; [by right|done].
  - split; [done|]. eapply left_le; [exact Hs2|lia].
Qed.

(** A SELECT with clauses: what a LIMIT or an ORDER BY leaves as the current token. *)
Record selecting (c : command) (s : state) : Prop := {
  sel_typed : typed c;
  sel_command : get_command c = COMMAND_SELECT;
  sel_type : 0 <= get_int64 c PARAM_TYPE <= 2;
  sel_mode : is_defined_as c PARAM_MODE = PARAM_TYPE_UNKNOWN;
  sel_tables i : 0 < i < MAX_TABLES -> is_defined_as c (PARAM_TABLE + i) = PARAM_TYPE_UNKNOWN;
  sel_limit : is_defined_as c PARAM_LIMIT = PARAM_TYPE_UNKNOWN \/ current s = TOKEN_INTEGER;
  sel_order_by : is_defined_as c PARAM_ORDER_BY = PARAM_TYPE_UNKNOWN \/ is_defined_as c PARAM_WHERE <> PARAM_TYPE_UNKNOWN \/
    current s ∈ [TOKEN_IDENTIFIER; TOKEN_INTEGER];
}.

Lemma selecting_keeps c (s : state) : keeps COMMAND_SELECT c -> selecting c s.
Proof. intros [[Ht Hi Hl Hm Htab Ho] Hcmd]. split; [done..|by left|]. destruct (decide (is_defined_as c PARAM_ORDER_BY = PARAM_TYPE_UNKNOWN)); auto. Qed.

Lemma keeps_selecting c (s : state) : selecting c s -> current s = TOKEN_SEMI_COLON -> keeps COMMAND_SELECT c.
Proof.
  intros [Ht Hcmd Hi Hm Htab Hl Ho] Hc. rewrite Hc in Hl, Ho. split; [|done]. split; [done|done| |done|done|].
  - by destruct Hl.
  - destruct Ho as [H|[H|H]]; [done..|]. exfalso. revert H. by apply (bool_decide_unpack (not _)).
Qed.

(** The clauses set a parameter that does not tell whether there are tables. *)
Lemma selecting_sets c param c' (s s' : state) : selecting c s -> sets c param c' -> current s = TOKEN_IDENTIFIER ->
  param ∈ [PARAM_WHERE; PARAM_ORDER_BY; PARAM_LIMIT] ->
  (param = PARAM_ORDER_BY -> current s' = TOKEN_IDENTIFIER) -> (param = PARAM_LIMIT -> current s' = TOKEN_INTEGER) ->
  selecting c' s'.
Proof.
  intros [Ht Hcmd Hi Hm Htab Hl _] Hs Hc Hp Ho' Hl'.
  assert (param <> PARAM_TYPE /\ param <> PARAM_MODE /\ param < PARAM_TABLE) as (H1 & H2 & H3).
  { revert Hp. rewrite !elem_of_cons, elem_of_nil. intros [->|[->|[->|[]]]]; done. }
  destruct Hl as [Hl|Hl]; [|rewrite Hl in Hc; discriminate].
  split.
  - by eapply sets_typed.
  - by rewrite (sets_command _ _ _ Hs).
  - by rewrite (sets_int64 _ _ _ Hs).
  - rewrite (sets_type _ _ _ Hs). by rewrite decide_False.
  - intros i Hr. rewrite (sets_type _ _ _ Hs), decide_False by lia. by apply Htab.
  - rewrite (sets_type _ _ _ Hs). destruct (decide _); auto.
  - rewrite !(sets_type _ _ _ Hs). destruct (decide (param = PARAM_WHERE)) as [->|]; [right; left; by rewrite decide_True|].
    right; right. revert Hp. rewrite !elem_of_cons, elem_of_nil. intros [?|[?|[?|[]]]]; [done|left|right; left]; auto.
Qed.

Definition clause_state (k : nat) (a : select_clauses * command * state) : Prop :=
  let '(_, c, s) := a in selecting c s /\ left k s.

(** A clause starts with its keyword. *)
Lemma keyword_identifier (s : state) word : is_keyword s word = true -> current s = TOKEN_IDENTIFIER.
Proof. unfold is_keyword. by intros [?%token_current _]%andb_true_iff. Qed.

Lemma parse_where_ends fuel k a : clause_state k a -> current (snd a) = TOKEN_IDENTIFIER -> (14 * k + 12 < fuel)%nat ->
  ends (parse_where EOS is_hexdigit hexdigit_to_number to_u8string fuel a) (fun a => (0 < k)%nat /\ clause_state (pred k) a).
Proof.
  destruct a as [[sc c] s]. intros [Hc Hs] Hcur Hf. cbn [snd] in *. unfold parse_where. destruct (decide _); [throw|].
  eapply ends_bind; [apply next_strict; [done|by rewrite Hcur]|]. intros s1 [Hk Hs1].
  eapply ends_bind; [apply (parse_expression_ends fuel (pred k)); [done|lia]|]. intros [expr s2] [_ Hs2]. cbn [snd] in *.
  destruct (command_set_string_ok c PARAM_WHERE expr) as (c' & -> & Hset & _); [apply Hc|done|].
  split; [done|]. split; [|eapply left_le; [exact Hs2|lia]].
  by apply (selecting_sets c PARAM_WHERE _ s); [..|set_solver| |].
Qed.

Lemma parse_order_by_ends k a : clause_state k a -> current (snd a) = TOKEN_IDENTIFIER ->
  ends (parse_order_by EOS is_hexdigit hexdigit_to_number to_u8string a) (fun a => (0 < k)%nat /\ clause_state (pred k) a).
Proof.
  destruct a as [[sc c] s]. intros [Hc Hs] Hcur. cbn [snd] in *. unfold parse_order_by. destruct (decide _); [throw|].
  eapply ends_bind; [apply next_strict; [done|by rewrite Hcur]|]. intros s1 [Hk Hs1]. destruct (negb _); [throw|].
  eapply ends_bind; [by apply next_is_ends|]. intros s2 [Hs2 Hc2].
  eapply ends_bind.
  { instantiate (1 := fun r => left (pred k) (snd r) /\ current (snd r) = TOKEN_IDENTIFIER). destruct (is_word s2 _); [|done].
    eapply ends_bind; [by apply next_ends|]. intros s3 Hs3. destruct (is_keyword s3 _) eqn:E; [|throw].
    split; [done|]. by apply keyword_identifier in E. }
  intros [order_by s3] [Hs3 Hc3]. cbn [snd] in *.
  destruct (command_set_string_ok c PARAM_ORDER_BY order_by) as (c' & -> & Hset & _); [apply Hc|done|].
  split; [done|]. split; [|done]. by apply (selecting_sets c PARAM_ORDER_BY _ s); [..|set_solver| |].
Qed.

Lemma parse_limit_ends k a : clause_state k a -> current (snd a) = TOKEN_IDENTIFIER ->
  ends (parse_limit EOS is_hexdigit hexdigit_to_number to_u8string a) (fun a => (0 < k)%nat /\ clause_state (pred k) a).
Proof.
  destruct a as [[sc c] s]. intros [Hc Hs] Hcur. cbn [snd] in *. unfold parse_limit, Parser.next_is. destruct (decide _); [throw|].
  eapply ends_bind; [eapply ends_bind; [apply next_strict; [done|by rewrite Hcur]|]|].
  { intros s1 Hs1. cbn beta. instantiate (1 := fun s => ((0 < k)%nat /\ left (pred k) s) /\ current s = TOKEN_INTEGER).
    destruct (is_token s1 _) eqn:E; [|throw]. by apply token_current in E. }
  intros s1 [[Hk Hs1] Hc1]. cbn beta zeta. destruct (decide _); [throw|].
  destruct (set_int64_ok c PARAM_LIMIT (signed 64 (if_value (t_integer (f_node s1)) !!! 0%nat))) as (c' & -> & Hset & _); [apply Hc|done|].
  split; [done|]. split; [|done]. by apply (selecting_sets c PARAM_LIMIT _ s); [..|set_solver| |].
Qed.

Lemma clause_turn_ends fuel k a : clause_state k a -> (14 * k + 12 < fuel)%nat ->
  ends (clause_turn EOS is_hexdigit hexdigit_to_number to_u8string fuel a)
    (fun r => match r with inl a => (0 < k)%nat /\ clause_state (pred k) a | inr a => selecting (fst a) (snd a) /\ left k (snd a) end).
Proof.
  destruct a as [[sc c] s]. intros Ha Hf. unfold clause_turn.
  destruct (is_keyword s (str: "WHERE")) eqn:E1; [eapply ends_bind; [apply (parse_where_ends fuel k); [done|by eapply keyword_identifier|done]|done]|].
  destruct (is_keyword s (str: "ORDER")) eqn:E2; [eapply ends_bind; [by apply parse_order_by_ends; [|eapply keyword_identifier]|done]|].
  destruct (is_keyword s (str: "LIMIT")) eqn:E3; [eapply ends_bind; [by apply parse_limit_ends; [|eapply keyword_identifier]|done]|].
  done.
Qed.

Lemma parse_from_ends fuel m c (s : state) : keeps COMMAND_SELECT c -> left m s -> (14 * m + 12 < fuel)%nat ->
  ends (parse_from EOS is_hexdigit hexdigit_to_number to_u8string fuel c s) (fun a => selecting (fst a) (snd a) /\ left m (snd a)).
Proof.
  intros Hc Hs Hf. unfold parse_from. destruct (is_keyword s _) eqn:E; [|split; [by apply selecting_keeps|done]].
  eapply ends_bind; [by apply next_ends|]. intros s1 Hs1.
  eapply ends_bind.
  { apply (while_loop_outcome _ fuel _ from_state (selected m) _ m); [split; [by left|done]|lia|].
    intros k a Hk Ha. eapply ends_weaken; [by apply from_turn_ends|]. intros [a'|a'] H; [done|]. destruct H. split; [done|by eapply left_le]. }
  intros [c2 s2] [Hc2 Hs2]. cbn [fst snd] in *.
  apply (while_loop_outcome _ fuel _ clause_state _ _ m); [split; [by apply selecting_keeps|done]|lia|].
  intros k a Hk Ha. eapply ends_weaken; [apply clause_turn_ends; [done|lia]|]. intros [a'|a'] H; [done|]. destruct H. split; [done|by eapply left_le].
Qed.

Lemma parse_output_ends m c (s : state) : selecting c s -> left m s ->
  ends (parse_output EOS is_hexdigit hexdigit_to_number to_u8string c s)
    (fun a => (current (snd a) = TOKEN_SEMI_COLON -> keeps COMMAND_SELECT (fst a)) /\ left m (snd a)).
Proof.
  intros Hc Hs. unfold parse_output. destruct (is_keyword s _); [|split; [by apply keeps_selecting|done]].
  eapply ends_bind; [by apply next_is_ends|]. intros s1 [Hs1 Hc1].
  eapply ends_bind; [instantiate (1 := fun _ => True); repeat (destruct (is_word s1 _); [done|]); throw|]. intros mode _.
  destruct (set_int64_ok c PARAM_MODE mode) as (c' & -> & _ & _); [apply Hc|done|]. split; [|done]. cbn [snd]. by rewrite Hc1.
Qed.

Lemma parse_select_ends fuel m commands (s : state) : commands_ok commands -> left m s -> (14 * m + 12 < fuel)%nat ->
  ends (parse_select EOS is_hexdigit hexdigit_to_number to_u8string fuel commands s) (made m).
Proof.
  intros Hcs Hs Hf. unfold parse_select. eapply ends_bind; [by apply next_ends|]. intros s1 Hs1.
  eapply ends_bind.
  { apply (while_loop_outcome _ fuel _ select_state (selected m) _ m); [split; [done|split; [split; [apply new_command_ok|done]|done]]|lia|].
    intros k a Hk Ha. eapply ends_weaken; [apply select_turn_ends; [done|lia]|]. intros [a'|a'] H; [done|].
    destruct H. split; [done|by eapply left_le]. }
  intros [c2 s2] [Hc2 Hs2]. cbn [fst snd] in *. eapply ends_bind; [by apply (parse_from_ends fuel m)|]. intros [c3 s3] [Hc3 Hs3].
  eapply ends_bind; [by apply (parse_output_ends m)|]. intros [c4 s4] [Hc4 Hs4]. cbn [fst snd] in *.
  eapply ends_bind; [by apply semi_colon_ends|]. intros s5 (Hs5 & -> & Hc5).
  apply (made_command m COMMAND_SELECT); [set_solver|done|by apply Hc4|done..].
Qed.

(** ** CONFIG *)

Lemma config_parameter_ends fuel m c (s : state) : keeps COMMAND_CONFIG c -> left m s -> (14 * m + 12 < fuel)%nat ->
  ends (config_parameter EOS is_hexdigit hexdigit_to_number to_u8string fuel c s) (fun a => keeps COMMAND_CONFIG (fst a) /\ left m (snd a)).
Proof.
  intros Hc Hs Hf. unfold config_parameter. eapply ends_bind; [by apply next_ends|]. intros s1 Hs1.
  eapply ends_bind.
  { instantiate (1 := fun '(c, _, s) => keeps COMMAND_CONFIG c /\ left m s). destruct (is_token s1 _); [|done].
    eapply ends_bind; [by apply next_is_ends|]. intros s2 [Hs2 _]. eapply ends_bind; [by apply set_string_keeps|]. intros c2 Hc2.
    cbv zeta. eapply ends_bind; [by apply next_ends|]. by intros s3 Hs3. }
  intros [[c1 name] s2] [Hc1 Hs2]. eapply ends_bind; [by apply set_string_keeps|]. intros c2 Hc2. destruct (is_token s2 _); [|done].
  eapply ends_bind; [by apply next_ends|]. intros s3 Hs3. eapply ends_bind; [by apply (parse_expression_ends fuel m)|].
  intros [expr s4] [Hk Hs4]. cbn [snd] in *. eapply ends_bind; [by apply set_string_keeps|]. intros c3 Hc3. split; [done|].
  eapply left_le; [exact Hs4|lia].
Qed.

Lemma parse_config_ends fuel m commands (s : state) : commands_ok commands -> left m s -> (14 * m + 12 < fuel)%nat ->
  ends (parse_config EOS is_hexdigit hexdigit_to_number to_u8string fuel commands s) (made m).
Proof.
  intros Hcs Hs Hf. unfold parse_config. cbv zeta. assert (keeps COMMAND_CONFIG (new_command COMMAND_CONFIG)) as Hn by (split; [apply new_command_ok|done]).
  eapply ends_bind; [by apply next_ends|]. intros s1 Hs1. destruct (is_token s1 TOKEN_SEMI_COLON) eqn:E.
  { apply token_current in E. apply (made_command m COMMAND_CONFIG); [set_solver|done..]. }
  eapply ends_bind.
  { instantiate (1 := fun a => keeps COMMAND_CONFIG (fst a) /\ left m (snd a)). destruct (is_token s1 TOKEN_STRING).
    - unfold config_search. eapply ends_bind.
      { instantiate (1 := keeps COMMAND_CONFIG). destruct (decide _); [done|by apply set_string_keeps]. }
      intros c Hc. eapply ends_bind; [by apply next_ends|]. by intros s2 Hs2.
    - destruct (is_token s1 TOKEN_IDENTIFIER); [by apply (config_parameter_ends fuel m)|throw]. }
  intros [c s2] [Hc Hs2]. cbn [fst snd] in *. eapply ends_bind; [by apply semi_colon_ends|]. intros s3 (Hs3 & -> & Hc3).
  apply (made_command m COMMAND_CONFIG); [set_solver|done..].
Qed.

(** ** Scripts *)

Lemma parse_create_ends fuel m commands (s : state) : commands_ok commands -> left m s -> (m < fuel)%nat ->
  ends (parse_create EOS is_hexdigit hexdigit_to_number to_u8string debug fuel commands s) (made m).
Proof.
  intros Hcs Hs Hf. unfold parse_create. eapply ends_bind; [by apply next_is_ends|]. intros s1 [Hs1 _].
  destruct (is_word s1 _); [by apply parse_create_context_ends|]. repeat (destruct (is_word s1 _); [throw|]). throw.
Qed.

(** A statement, or the end of the script. *)
Lemma parse_turn_ends fuel k a : made k a -> (14 * k + 12 < fuel)%nat ->
  ends (parse_turn EOS is_hexdigit hexdigit_to_number to_u8string debug f_user_capture fuel a)
    (fun r => match r with inl a => (0 < k)%nat /\ made (pred k) a | inr (commands, _, _) => commands_ok commands end).
Proof.
  destruct a as [commands s]. intros [Hcs [Hs Hc]] Hf. cbn [fst snd] in *. unfold parse_turn.
  eapply ends_bind; [by apply next_strict|]. intros s1 [Hk Hs1].
  destruct (is_token s1 TOKEN_EOF); [done|]. destruct (negb _); [throw|].
  destruct (is_word s1 _); [eapply ends_bind; [by apply parse_alter_ends|done]|].
  destruct (is_word s1 _); [eapply ends_bind; [apply (parse_transaction_command_ends fuel (pred k)); [set_solver|done|done|lia]|done]|].
  destruct (is_word s1 _); [eapply ends_bind; [by apply expect_semi_colon_ends|done]|].
  destruct (is_word s1 _); [eapply ends_bind; [apply (parse_transaction_command_ends fuel (pred k)); [set_solver|done|done|lia]|done]|].
  destruct (is_word s1 _); [eapply ends_bind; [apply (parse_config_ends fuel (pred k)); [done|done|lia]|done]|].
  destruct (is_word s1 _); [eapply ends_bind; [apply (parse_create_ends fuel (pred k)); [done|done|lia]|done]|].
  destruct (is_word s1 _); [eapply ends_bind; [by apply expect_semi_colon_ends|done]|].
  destruct (is_word s1 _); [eapply ends_bind; [by apply expect_semi_colon_ends|done]|].
  destruct (is_word s1 _); [eapply ends_bind; [apply (parse_transaction_command_ends fuel (pred k)); [set_solver|done|done|lia]|done]|].
  destruct (is_word s1 _); [eapply ends_bind; [apply (parse_select_ends fuel (pred k)); [done|done|lia]|done]|].
  destruct (is_word s1 _); [throw|]. destruct f_user_capture as [capture|]; [|throw]. destruct (capture _); [done|throw].
Qed.

Lemma parse_ends fuel m (p : parser) : f_parsed p = false -> commands_ok (f_commands p) ->
  left m (ExprState (p_lexer p) no_token) -> (14 * m + 12 < fuel)%nat ->
  ends (parse EOS is_hexdigit hexdigit_to_number to_u8string debug f_user_capture fuel p)
    (fun p' => f_parsed p' = true /\ commands_ok (f_commands p')).
Proof.
  intros Hp Hcs Hs Hf. unfold parse. rewrite Hp. eapply ends_bind.
  { apply (while_loop_outcome _ fuel _ made (fun '(commands, _, _) => commands_ok commands) _ m); [split; [done|by split]|lia|].
    intros k a Hk Ha. apply parse_turn_ends; [done|lia]. }
  intros [[commands quit] s] H. done.
Qed.

(** Before the first token. *)
Lemma no_token_left i str : gives EOS 1 i str -> left (S (length str)) (ExprState (Some i) no_token).
Proof.
  intros Hg. split; [|done|by apply (bool_decide_unpack _); vm_compute]. exists i, str. split_and!; [done..|].
  rewrite decide_False by done. lia.
Qed.

Lemma script_ends fuel i str : gives EOS 1 i str -> (14 * S (length str) + 12 < fuel)%nat ->
  ends (parse EOS is_hexdigit hexdigit_to_number to_u8string debug f_user_capture fuel (new_parser (Some i)))
    (fun p => f_parsed p = true /\ commands_ok (f_commands p)).
Proof. intros Hg Hf. by apply (parse_ends fuel (S (length str))); [|apply commands_ok_nil|apply no_token_left|]. Qed.
End ParserTotal.
