(* ===== verification/ParserGrammar.v ===== *)
(** * What SELECT means

    A SELECT as its tokens: a list of expressions, with or without a name, and
    possibly FROM one table and WHERE an expression.  The command has the scripts
    and the names as parameters. *)

From S2P Require Import Prelude Limbs BigLoops Uint512 Int512 BigText Names Input LongDouble Lexer LexerTotal SortedMap StructTypes.
From S2P Require Import Nodes Functions As2js Expression LexerTypes IntegerTypes ExprTypes ActionTypes ExprTotal ExprGrammar ExprParse.
From S2P Require Import Command Parser ParserTotal.

Section Grammar.
Context {F : Type} {libraries : Libraries F}.
Context (is_hexdigit : Z -> bool) (hexdigit_to_number : Z -> Z).
Abbreviation tree := (Nodes.tree F).

(** ** Syntax *)

(** An expression, [AS] and its name, and the comma when another one follows. *)
Record item := Item { it_expr : expr F; it_as : option (tree * tree); it_comma : tree }.

Definition as_tokens (i : item) : list tree := match it_as i with Some (keyword, name) => [keyword; name] | None => [] end.
Definition item_tokens (i : item) : list tree := tokens (it_expr i) ++ as_tokens i.

Fixpoint items_tokens (items : list item) : list tree :=
  match items with
  | [] => []
  | i :: items =>
      match items with
      | [] => item_tokens i
      | _ :: _ => item_tokens i ++ it_comma i :: items_tokens items
      end
  end.

(** [FROM], a table, [WHERE] and an expression *)
Record from_clause := FromClause { fr_from : tree; fr_table : tree; fr_where : option (tree * expr F) }.

Definition where_tokens (fr : from_clause) : list tree := match fr_where fr with Some (keyword, e) => keyword :: tokens e | None => [] end.
Definition from_tokens (fr : option from_clause) : list tree :=
  match fr with Some fr => fr_from fr :: fr_table fr :: where_tokens fr | None => [] end.

(** ** Well-formed statements *)

Definition sentence_ok (e : expr F) : Prop := well_formed e = true /\ Forall token_ok (tokens e) /\ (prec e <= 12)%nat.

Definition item_ok (i : item) : Prop :=
  sentence_ok (it_expr i) /\ (forall n ts, tokens (it_expr i) = n :: ts -> node_keyword n (str: "DEFAULT") = false) /\
  match it_as i with
  | Some (keyword, name) => node_keyword keyword (str: "AS") = true /\ t_token name = TOKEN_IDENTIFIER
  | None => True
  end /\ t_token (it_comma i) = TOKEN_COMMA.

Definition from_ok (fr : from_clause) : Prop :=
  node_keyword (fr_from fr) (str: "FROM") = true /\ t_token (fr_table fr) = TOKEN_IDENTIFIER /\
  match fr_where fr with
  | Some (keyword, e) => node_keyword keyword (str: "WHERE") = true /\ sentence_ok e
  | None => True
  end.

(** ** Meaning *)

(** The script of an expression before the token [next]. *)
Definition script_of (e : expr F) (next : tree) (script : list Z) : Prop :=
  exists t, elab is_hexdigit hexdigit_to_number e (t_location next) = Ok t /\ to_as2js t = Ok script.

Definition item_script (i : item) (next : tree) (script : list Z) : Prop :=
  script_of (it_expr i) (match it_as i with Some (keyword, _) => keyword | None => next end) script.

Fixpoint items_scripts (items : list item) (last : tree) (scripts : list (list Z)) : Prop :=
  match items, scripts with
  | [], [] => True
  | i :: items, script :: scripts =>
      item_script i (match items with [] => last | _ :: _ => it_comma i end) script /\ items_scripts items last scripts
  | _, _ => False
  end.

Definition column_name (count : Z) (i : item) : list Z :=
  match it_as i with Some (_, name) => get_string_lower name | None => (str: "__col") ++ decimal_text (count + 1) end.
End Grammar.

(** ** The parser reads a SELECT *)

Lemma set_string_value cmd c param value : keeps cmd c -> param_type param = PARAM_TYPE_STRING -> free_param param = true ->
  exists c', command_set_string c param value = Ok c' /\ keeps cmd c' /\ command_string c' param = value /\
    forall q, q <> param -> command_string c' q = command_string c q.
Proof.
  intros [Hc Hcmd] Ht Hf. destruct (command_set_string_ok c param value) as (c' & -> & Hs & Hv); [apply Hc|done|].
  exists c'. split_and!; [done| |done|apply (sets_string _ _ _ Hs)].
  split; [by apply (sets_free c param)|]. by rewrite (sets_command _ _ _ Hs).
Qed.

Section Parsing.
Context {F : Type} {libraries : Libraries F}.
Context (EOS : Z) (is_hexdigit : Z -> bool) (hexdigit_to_number : Z -> Z) (to_u8string : Z -> result (list Z)).
Context {laws : HexdigitLaws is_hexdigit hexdigit_to_number}.
Abbreviation tree := (Nodes.tree F).
Abbreviation state := (expr_state F).
Abbreviation next_token := (Expression.next_token EOS is_hexdigit hexdigit_to_number to_u8string).
Abbreviation path := (ExprParse.path EOS is_hexdigit hexdigit_to_number to_u8string).
Abbreviation script_of := (ParserGrammar.script_of is_hexdigit hexdigit_to_number).
Abbreviation items_scripts := (ParserGrammar.items_scripts is_hexdigit hexdigit_to_number).

Lemma keyword_state (s : state) word : node_keyword (f_node s) word = is_keyword s word.
Proof. done. Qed.

(** A keyword is not another one. *)
Lemma other_keyword (s : state) word word' : is_keyword s word = true -> word <> word' -> is_keyword s word' = false.
Proof.
  unfold is_keyword. rewrite andb_true_iff. intros [_ H%bool_decide_eq_true] Hw. rewrite H. apply andb_false_iff. right.
  by apply bool_decide_eq_false.
Qed.

Lemma keyword_continues (s : state) word : is_keyword s word = true -> keyword_rank word = 14%nat -> continues (f_node s) = 14%nat.
Proof.
  unfold is_keyword, continues. rewrite andb_true_iff. intros [H%token_current Hw%bool_decide_eq_true] Hr.
  rewrite decide_True by done. by rewrite Hw.
Qed.

Lemma token_continues (s : state) token : current s = token -> token <> TOKEN_IDENTIFIER -> token_rank token = 14%nat -> continues (f_node s) = 14%nat.
Proof. unfold current, continues. intros -> Hw Hr. by rewrite decide_False. Qed.

Lemma sentence_parses fuel e s s' script : sentence_ok e -> path s (tokens e) s' -> script_of e (f_node s') script ->
  continues (f_node s') = 14%nat -> (14 * length (tokens e) + 12 < fuel)%nat ->
  parse_expression EOS is_hexdigit hexdigit_to_number to_u8string fuel s = Ok (script, s').
Proof.
  intros (Hw & Ht & Hp) Hpath (t & He & Hs) Hc Hf. unfold parse_expression.
  destruct (parse_all EOS is_hexdigit hexdigit_to_number to_u8string fuel) as [Hparse _].
  rewrite (Hparse e EXPR_LOGICAL_OR s s' t); [cbn [result_bind]; by rewrite Hs|done|cbn [rank]; lia|cbn [rank]|done].
  unfold follow. rewrite Hc. lia.
Qed.

(** What may follow the expressions. *)
Definition items_end (s : state) : Prop :=
  continues (f_node s) = 14%nat /\ is_keyword s (str: "AS") = false /\ is_token s TOKEN_COMMA = false.

(** The name of an expression, and the token after it. *)
Lemma as_parses (i : item) s s' : item_ok i -> path s (as_tokens i) s' -> is_keyword s' (str: "AS") = false ->
  exists name, parse_as EOS is_hexdigit hexdigit_to_number to_u8string s = Ok (name, s') /\
    (forall count, column_name count i = match name with Some n => lower n | None => (str: "__col") ++ decimal_text (count + 1) end) /\
    (continues (f_node s') = 14%nat -> continues (f_node s) = 14%nat).
Proof.
  intros (_ & _ & Ha & _) Hp Hs'. unfold as_tokens in Hp. unfold parse_as, column_name. destruct (it_as i) as [[keyword name]|].
  - destruct Ha as [Hk Hn]. apply path_cons_inv in Hp as (<- & s1 & Hs1 & (<- & s2 & Hs2 & ->%path_nil_inv)%path_cons_inv).
    rewrite keyword_state in Hk. rewrite Hk. unfold next_is. rewrite Hs1. cbn [result_bind].
    rewrite (proj2 (bool_decide_eq_true _) Hn : is_token s1 _ = true). cbn [result_bind]. rewrite Hs2. cbn [result_bind].
    exists (Some s1). split_and!; [done..|]. intros _. by apply (keyword_continues s (str: "AS")).
  - apply path_nil_inv in Hp as ->. rewrite Hs'. by exists None.
Qed.

(** The parameters of the expressions from [count] to [count + n]. *)
Definition column_param (count : Z) (n : nat) (param : Z) : Prop :=
  PARAM_EXPRESSION + count <= param < PARAM_EXPRESSION + count + Z.of_nat n \/
  PARAM_COLUMN_NAME + count <= param < PARAM_COLUMN_NAME + count + Z.of_nat n.

Lemma item_turn fuel i count c (s s' : state) script : item_ok i -> keeps COMMAND_SELECT c -> 0 <= count < MAX_EXPRESSIONS ->
  path s (item_tokens i) s' -> item_script is_hexdigit hexdigit_to_number i (f_node s') script ->
  continues (f_node s') = 14%nat -> is_keyword s' (str: "AS") = false -> (14 * length (item_tokens i) + 12 < fuel)%nat ->
  exists c', keeps COMMAND_SELECT c' /\
    command_string c' (PARAM_EXPRESSION + count) = script /\ command_string c' (PARAM_COLUMN_NAME + count) = column_name count i /\
    (forall q, ~ column_param count 1 q -> command_string c' q = command_string c q) /\
    select_turn EOS is_hexdigit hexdigit_to_number to_u8string fuel (count, c, s) =
      if negb (is_token s' TOKEN_COMMA) then Ok (inr (c', s')) else let! s := next_token s' in Ok (inl (count + 1, c', s)).
Proof.
  intros Hi Hc Hn Hp Hscript Hend Has Hf. pose proof Hi as ((Hw & Ht & Hprec) & Hd & _). unfold item_tokens in *. rewrite length_app in Hf.
  apply path_app in Hp as (s1 & Hp1 & Hp2). unfold select_turn.
  assert (is_keyword s (str: "DEFAULT") = false) as ->.
  { rewrite <- keyword_state. pose proof (tokens_nonempty _ Hw). destruct (tokens (it_expr i)) as [|n ts] eqn:E; [cbn in *; lia|].
    apply path_cons_inv in Hp1 as [-> _]. by apply (Hd n ts). }
  rewrite decide_False by lia. destruct (as_parses i s1 s' Hi Hp2 Has) as (name & Hname & Hcol & Hcont).
  rewrite (sentence_parses fuel (it_expr i) s s1 script); [|done|done| |by apply Hcont|lia].
  2: { unfold item_script in Hscript. unfold as_tokens in Hp2. destruct (it_as i) as [[keyword n]|]; [|by apply path_nil_inv in Hp2 as ->].
    by apply path_cons_inv in Hp2 as [<- _]. }
  cbn [result_bind]. destruct (set_string_value COMMAND_SELECT c (PARAM_EXPRESSION + count) script) as (c1 & -> & Hc1 & Hv1 & Hfr1);
    [done|apply string_param; numbers|apply free_string_param; left; numbers|].
  cbn [result_bind]. rewrite Hname. cbn [result_bind]. rewrite <- Hcol.
  destruct (set_string_value COMMAND_SELECT c1 (PARAM_COLUMN_NAME + count) (column_name count i)) as (c2 & -> & Hc2 & Hv2 & Hfr2);
    [done|apply string_param; numbers|apply free_string_param; left; numbers|].
  exists c2. split_and!; [done| |done| |done].
  - rewrite Hfr2; [done|numbers].
  - intros q Hq. unfold column_param in Hq. rewrite Hfr2, Hfr1; [done|numbers..].
Qed.

Lemma column_param_S count n q : ~ column_param count (S n) q -> ~ column_param count 1 q /\ ~ column_param (count + 1) n q.
Proof. unfold column_param. lia. Qed.

Lemma select_items fuel items : Forall item_ok items -> items <> [] -> forall turns count c (s s' : state) scripts,
  keeps COMMAND_SELECT c -> 0 <= count -> count + Z.of_nat (length items) <= MAX_EXPRESSIONS -> (length items <= turns)%nat ->
  path s (items_tokens items) s' -> items_scripts items (f_node s') scripts -> items_end s' ->
  (14 * length (items_tokens items) + 12 < fuel)%nat ->
  exists c', while_loop turns (select_turn EOS is_hexdigit hexdigit_to_number to_u8string fuel) (count, c, s) = Ok (c', s') /\
    keeps COMMAND_SELECT c' /\
    (forall j i script, items !! j = Some i -> scripts !! j = Some script ->
      command_string c' (PARAM_EXPRESSION + (count + Z.of_nat j)) = script /\
      command_string c' (PARAM_COLUMN_NAME + (count + Z.of_nat j)) = column_name (count + Z.of_nat j) i) /\
    (forall q, ~ column_param count (length items) q -> command_string c' q = command_string c q).
Proof.
  induction 1 as [|i items Hi Hitems IH]; intros Hne turns count c s s' scripts Hc Hcount Hmax Hturns Hp Hs Hend Hf; [done|].
  destruct turns as [|turns]; [cbn in Hturns; lia|]. destruct scripts as [|script scripts]; [done|]. destruct Hs as [Hs1 Hs].
  destruct Hend as (Hcont & Has & Hcomma). destruct items as [|i2 items].
  - destruct scripts; [|done]. cbn [items_tokens] in Hp, Hf. cbn [while_loop].
    destruct (item_turn fuel i count c s s' script) as (c' & Hc' & Hv1 & Hv2 & Hfr & ->); [done|done|cbn in Hmax; lia|done..|].
    rewrite Hcomma. cbn [negb result_bind]. exists c'. split_and!; [done|done| |by intros q ?; apply Hfr].
    intros [|j] i' script' Hi' Hs'; [|done]. injection Hi' as <-. injection Hs' as <-. by rewrite Z.add_0_r.
  - set (rest := i2 :: items) in *. change (items_tokens (i :: rest)) with (item_tokens i ++ it_comma i :: items_tokens rest) in Hp, Hf.
    change (length (i :: rest)) with (S (length rest)) in *. rewrite length_app in Hf. cbn [length] in Hf. apply path_app in Hp as (s1 & Hp1 & (Hcm & s2 & Hs2 & Hp2)%path_cons_inv).
    rewrite <- Hcm in Hs1. assert (current s1 = TOKEN_COMMA) as Hcur by (unfold current; rewrite Hcm; apply Hi). cbn [while_loop].
    destruct (item_turn fuel i count c s s1 script) as (c1 & Hc1 & Hv1 & Hv2 & Hfr1 & ->);
      [done|done|lia|done|done|by apply (token_continues s1 TOKEN_COMMA)|by apply not_keyword_token; rewrite Hcur|lia|].
    rewrite token_true by done. cbn [negb]. rewrite Hs2. cbn [result_bind].
    destruct (IH ltac:(done) turns (count + 1) c1 s2 s' scripts) as (c' & -> & Hc' & Hv & Hfr);
      [done|lia|lia|lia|done|done|done|lia|].
    exists c'. split_and!; [done|done| |].
    + intros [|j] i' script' Hi' Hs'.
      * injection Hi' as <-. injection Hs' as <-. rewrite !Z.add_0_r, !Hfr; [done|unfold column_param; numbers..].
      * cbn [lookup list_lookup] in Hi', Hs'. destruct (Hv j i' script' Hi' Hs') as [H1 H2].
        replace (count + Z.of_nat (S j)) with (count + 1 + Z.of_nat j) by lia. done.
    + intros q [Hq1 Hq2]%column_param_S. by rewrite Hfr, Hfr1.
Qed.

Lemma from_keyword_end (s : state) word : is_keyword s word = true -> word <> (str: "AS") -> keyword_rank word = 14%nat -> items_end s.
Proof.
  intros Hk Hw Hr. split; [by eapply keyword_continues|]. split; [by eapply other_keyword|].
  unfold is_token. apply bool_decide_eq_false. by rewrite (keyword_identifier s word).
Qed.

Lemma token_end (s : state) token : current s = token -> token <> TOKEN_IDENTIFIER -> token <> TOKEN_COMMA -> token_rank token = 14%nat -> items_end s.
Proof.
  intros Hc Hi Hcomma Hr. split; [by eapply token_continues|]. split; [apply not_keyword_token; by rewrite Hc|].
  unfold is_token. apply bool_decide_eq_false. by rewrite Hc.
Qed.

(** One table, not followed by a name nor a comma. *)
Lemma table_turn c (s s' : state) : keeps COMMAND_SELECT c -> current s = TOKEN_IDENTIFIER -> next_token s = Ok s' -> items_end s' ->
  exists c', from_turn EOS is_hexdigit hexdigit_to_number to_u8string (0, c, s) = Ok (inr (c', s')) /\ keeps COMMAND_SELECT c' /\
    command_string c' PARAM_TABLE = text s /\ forall q, q <> PARAM_TABLE -> command_string c' q = command_string c q.
Proof.
  intros Hc Hs Hs' (_ & Has & Hcomma). unfold from_turn. rewrite decide_False by numbers. rewrite token_true by done. cbn [negb].
  destruct (set_string_value COMMAND_SELECT c PARAM_TABLE (text s)) as (c' & Hset & Hc' & Hv & Hfr); [done..|].
  change (PARAM_TABLE + 0) with PARAM_TABLE. rewrite Hset. cbn [result_bind]. rewrite Hs'. cbn [result_bind].
  unfold parse_as. rewrite Has. cbn [result_bind]. rewrite Hcomma. by exists c'.
Qed.

(** No clause. *)
Lemma clause_end fuel sc c (s : state) : current s <> TOKEN_IDENTIFIER ->
  clause_turn EOS is_hexdigit hexdigit_to_number to_u8string fuel (sc, c, s) = Ok (inr (c, s)).
Proof. intros Hs. unfold clause_turn. by rewrite !not_keyword_token. Qed.

Lemma where_loop fuel turns fr c (s s' : state) script : from_ok fr -> keeps COMMAND_SELECT c -> path s (where_tokens fr) s' ->
  match fr_where fr with Some (_, e) => script_of e (f_node s') script | None => script = [] end ->
  current s' = TOKEN_SEMI_COLON -> (14 * length (where_tokens fr) + 12 < fuel)%nat -> (2 <= turns)%nat ->
  exists c', while_loop turns (clause_turn EOS is_hexdigit hexdigit_to_number to_u8string fuel) (SelectClauses [] [] 0, c, s) = Ok (c', s') /\
    keeps COMMAND_SELECT c' /\ (fr_where fr <> None -> command_string c' PARAM_WHERE = script) /\
    (forall q, q <> PARAM_WHERE -> command_string c' q = command_string c q).
Proof.
  intros (_ & _ & Hw) Hc Hp Hscript Hend Hf Hturns. assert (current s' <> TOKEN_IDENTIFIER) as Hni by (by rewrite Hend).
  destruct turns as [|[|turns]]; [lia..|]. unfold where_tokens in *. destruct (fr_where fr) as [[keyword e]|].
  - destruct Hw as [Hk He]. apply path_cons_inv in Hp as (<- & s1 & Hs1 & Hp). rewrite keyword_state in Hk. cbn [length] in Hf.
    cbn [while_loop]. unfold clause_turn at 1. rewrite Hk. unfold parse_where. cbn [sc_where]. rewrite decide_False by tauto. rewrite Hs1. cbn [result_bind].
    rewrite (sentence_parses fuel e s1 s' script); [|done|done|done|by apply (token_continues s' TOKEN_SEMI_COLON)|lia]. cbn [result_bind].
    destruct (set_string_value COMMAND_SELECT c PARAM_WHERE script) as (c' & -> & Hc' & Hv & Hfr); [done..|]. cbn [result_bind].
    rewrite clause_end by done. cbn [result_bind]. exists c'. split_and!; auto.
  - apply path_nil_inv in Hp as ->. cbn [while_loop]. rewrite clause_end by done. cbn [result_bind]. by exists c.
Qed.

Lemma from_parses fuel fr c (s s' : state) script : from_ok fr -> keeps COMMAND_SELECT c -> path s (from_tokens (Some fr)) s' ->
  match fr_where fr with Some (_, e) => script_of e (f_node s') script | None => script = [] end ->
  current s' = TOKEN_SEMI_COLON -> (14 * length (from_tokens (Some fr)) + 12 < fuel)%nat ->
  exists c', parse_from EOS is_hexdigit hexdigit_to_number to_u8string fuel c s = Ok (c', s') /\ keeps COMMAND_SELECT c' /\
    command_string c' PARAM_TABLE = t_string (fr_table fr) /\ (fr_where fr <> None -> command_string c' PARAM_WHERE = script) /\
    (forall q, q <> PARAM_TABLE -> q <> PARAM_WHERE -> command_string c' q = command_string c q).
Proof.
  intros Hfr Hc Hp Hscript Hend Hf. pose proof Hfr as (Hk & Ht & Hw). cbn [from_tokens length] in Hp, Hf.
  apply path_cons_inv in Hp as (Hfrom & s1 & Hs1 & (Htable & s2 & Hs2 & Hp)%path_cons_inv). rewrite <- Hfrom, keyword_state in Hk.
  unfold parse_from. rewrite Hk, Hs1. cbn [result_bind]. rewrite <- Htable in *.
  assert (items_end s2) as Hs2'.
  { unfold where_tokens in Hp. destruct (fr_where fr) as [[keyword e]|].
    - apply path_cons_inv in Hp as [<- _]. destruct Hw as [Hw _]. rewrite keyword_state in Hw. by eapply from_keyword_end.
    - apply path_nil_inv in Hp as <-. by eapply token_end. }
  destruct (table_turn c s1 s2) as (c1 & Hturn & Hc1 & Hv1 & Hfr1); [done..|].
  destruct fuel as [|fuel]; [lia|]. cbn [while_loop]. rewrite Hturn. cbn [result_bind].
  destruct (where_loop (S fuel) (S fuel) fr c1 s2 s' script) as (c' & Hloop & Hc' & Hv & Hfr'); [done..|lia|lia|].
  exists c'. split; [exact Hloop|]. split_and!; [done|by rewrite Hfr'|done|]. intros q H1 H2. by rewrite Hfr', Hfr1.
Qed.

Lemma length_items_tokens (items : list (item (F := F))) : Forall item_ok items -> (length items <= length (items_tokens items))%nat.
Proof.
  induction 1 as [|i items Hi _ IH]; [done|]. pose proof (tokens_nonempty _ (proj1 (proj1 Hi))).
  destruct items as [|i2 items].
  - cbn [items_tokens length]. unfold item_tokens. rewrite length_app. lia.
  - set (rest := i2 :: items) in *. change (items_tokens (i :: rest)) with (item_tokens i ++ it_comma i :: items_tokens rest).
    rewrite length_app. cbn [length]. lia.
Qed.
End Parsing.
