(* ===== verification/ParserProps.v ===== *)
(** * What the parser of statements guarantees

    The properties of the statements, each applied to a script with the concrete
    libraries of [ExprDemo], and examples of the statements that the parser
    refuses. *)

From S2P Require Import Prelude Limbs BigLoops Uint512 Int512 BigText Names Input LongDouble Lexer LexerTotal SortedMap StructTypes.
From S2P Require Import Nodes Functions As2js Expression ExprDemo LexerTypes IntegerTypes ExprTypes ActionTypes ExprTotal ExprGrammar ExprParse ExprProps.
From S2P Require Import Command Parser ParserTotal ParserGrammar.

(** ** Concrete libraries *)

Fixpoint path_segments (path segment : list Z) : list (list Z) :=
  match path with
  | [] => if decide (segment = []) then [] else [segment]
  | c :: path =>
      if decide (c = (chr: "/"))
      then (if decide (segment = []) then [] else [segment]) ++ path_segments path []
      else path_segments path (segment ++ [c])
  end.

#[export] Instance demo_parser_libraries : ParserLibraries := {|
  tokenize_path := fun path => path_segments path [];
  quote := fun text q => q :: text ++ [q];
|}.

(** The commands of a script. *)
Definition demo_parse (s : list Z) : result parser :=
  parse (F := Z) example_eos ascii_is_hexdigit ascii_hexdigit_to_number example_to_u8string true None 1000 (new_parser (Some (input_init s []))).

Definition demo_commands (s : list Z) : result (list command_t) := let! p := demo_parse s in Ok (get_command <$> f_commands p).

(** ** Theorems *)

(** C14: Parsing a script ends, whatever its characters: it returns the commands, or
    throws one of the exceptions of the expressions, [invalid_entity],
    [invalid_type] or [invalid_name]; it never runs out of fuel.  A parser that was
    used is refused. *)
Theorem script_total {F} {libraries : Libraries F} {parser_libraries : ParserLibraries} EOS is_hexdigit hexdigit_to_number to_u8string
    (eos : EndOfScript EOS) (laws : HexdigitLaws is_hexdigit hexdigit_to_number) debug capture i s fuel :
  gives EOS 1 i s -> (14 * S (length s) + 12 < fuel)%nat ->
  match parse (F := F) EOS is_hexdigit hexdigit_to_number to_u8string debug capture fuel (new_parser (Some i)) with
  | Ok p => f_parsed p = true /\
      parse (F := F) EOS is_hexdigit hexdigit_to_number to_u8string debug capture fuel p = Throw fatal_error
  | Throw e => script_error (F := F) to_u8string e
  end.
Proof.
  intros Hg Hf.
  pose proof (script_ends EOS is_hexdigit hexdigit_to_number to_u8string debug capture fuel i s Hg Hf) as H.
  destruct (parse _ _ _ _ _ _ _ _) as [p|e]; [|exact H]. destruct H as [Hp _]. split; [done|]. unfold parse. by rewrite Hp.
Qed.

(** C15: In the commands of a script, the transactions alternate: a BEGIN is only
    followed by a COMMIT or a ROLLBACK of the same type before another BEGIN, and
    the parameters have the types they are used with. *)
Theorem script_transactions {F} {libraries : Libraries F} {parser_libraries : ParserLibraries} EOS is_hexdigit hexdigit_to_number to_u8string
    (eos : EndOfScript EOS) (laws : HexdigitLaws is_hexdigit hexdigit_to_number) debug capture i s fuel p :
  gives EOS 1 i s -> (14 * S (length s) + 12 < fuel)%nat ->
  parse (F := F) EOS is_hexdigit hexdigit_to_number to_u8string debug capture fuel (new_parser (Some i)) = Ok p ->
  is_Some (transactions (f_commands p)) /\ forall c, c ∈ f_commands p -> typed c.
Proof.
  intros Hg Hf Hp.
  pose proof (script_ends EOS is_hexdigit hexdigit_to_number to_u8string debug capture fuel i s Hg Hf) as H.
  rewrite Hp in H. destruct H as [_ [Hc Ht]]. split; [by rewrite Ht|]. intros c Hin. by apply ok_typed, Hc.
Qed.

(** No script gives a SELECT with a LIMIT, an OUTPUT, or a second table, nor
    with an ORDER BY without a WHERE: the parser does not read the token after
    these clauses, and refuses the statement. *)
Theorem select_clauses_refused {F} {libraries : Libraries F} {parser_libraries : ParserLibraries} EOS is_hexdigit hexdigit_to_number to_u8string
    (eos : EndOfScript EOS) (laws : HexdigitLaws is_hexdigit hexdigit_to_number) debug capture i s fuel p c :
  gives EOS 1 i s -> (14 * S (length s) + 12 < fuel)%nat ->
  parse (F := F) EOS is_hexdigit hexdigit_to_number to_u8string debug capture fuel (new_parser (Some i)) = Ok p ->
  c ∈ f_commands p ->
  is_defined_as c PARAM_LIMIT = PARAM_TYPE_UNKNOWN /\ is_defined_as c PARAM_MODE = PARAM_TYPE_UNKNOWN /\
  (forall n, 0 < n < MAX_TABLES -> is_defined_as c (PARAM_TABLE + n) = PARAM_TYPE_UNKNOWN) /\
  (is_defined_as c PARAM_WHERE = PARAM_TYPE_UNKNOWN -> is_defined_as c PARAM_ORDER_BY = PARAM_TYPE_UNKNOWN).
Proof.
  intros Hg Hf Hp Hin.
  pose proof (script_ends EOS is_hexdigit hexdigit_to_number to_u8string debug capture fuel i s Hg Hf) as H.
  rewrite Hp in H. destruct H as [_ [Hc _]]. destruct (Hc c Hin) as [_ _ Hl Hm Ht Ho]. split_and!; [done..|].
  intros Hw. destruct (decide (is_defined_as c PARAM_ORDER_BY = PARAM_TYPE_UNKNOWN)) as [|H]; [done|]. by apply Ho in H.
Qed.

(** C16: [SELECT e1 AS n1, e2, ... FROM t WHERE e;] gives one command, with the
    script of each expression, its name (or [__col] and its position), the table
    and the script of the condition. *)
Theorem select_statement {F} {libraries : Libraries F} EOS is_hexdigit hexdigit_to_number to_u8string
    (laws : HexdigitLaws is_hexdigit hexdigit_to_number) (items : list (item (F := F))) fr select commands (s s' : expr_state F)
    scripts condition fuel :
  items <> [] -> Z.of_nat (length items) <= MAX_EXPRESSIONS -> Forall item_ok items -> match fr with Some fr => from_ok fr | None => True end ->
  path EOS is_hexdigit hexdigit_to_number to_u8string s (select :: items_tokens items ++ from_tokens fr) s' ->
  current s' = TOKEN_SEMI_COLON ->
  items_scripts is_hexdigit hexdigit_to_number items (match fr with Some fr => fr_from fr | None => f_node s' end) scripts ->
  match fr with
  | Some (FromClause _ _ (Some (_, e))) => script_of is_hexdigit hexdigit_to_number e (f_node s') condition
  | _ => condition = []
  end ->
  (14 * length (items_tokens items ++ from_tokens fr) + 12 < fuel)%nat ->
  exists c, parse_select EOS is_hexdigit hexdigit_to_number to_u8string fuel commands s = Ok (commands ++ [c], s') /\
    get_command c = COMMAND_SELECT /\
    (forall j i script, items !! j = Some i -> scripts !! j = Some script ->
      command_string c (PARAM_EXPRESSION + Z.of_nat j) = script /\
      command_string c (PARAM_COLUMN_NAME + Z.of_nat j) = column_name (Z.of_nat j) i) /\
    (forall f, fr = Some f -> command_string c PARAM_TABLE = t_string (fr_table f) /\
      (fr_where f <> None -> command_string c PARAM_WHERE = condition)).
Proof.
  intros Hne Hmax Hitems Hfr Hp Hend Hs Hcond Hf. rewrite length_app in Hf.
  apply path_cons_inv in Hp as (_ & s1 & Hs1 & (s2 & Hp1 & Hp2)%path_app). unfold parse_select. rewrite Hs1. cbn [result_bind].
  assert (items_end s2 /\ items_scripts is_hexdigit hexdigit_to_number items (f_node s2) scripts) as [Hend2 Hs2].
  { destruct fr as [fr|]; [|apply path_nil_inv in Hp2 as <-; split; [by apply (token_end s' TOKEN_SEMI_COLON)|done]].
    destruct Hfr as [Hk _]. apply path_cons_inv in Hp2 as [Hn _]. rewrite <- Hn in *. split; [by apply (from_keyword_end s2 (str: "FROM"))|done]. }
  destruct (select_items EOS is_hexdigit hexdigit_to_number to_u8string fuel items Hitems Hne fuel 0 (new_command COMMAND_SELECT) s1 s2 scripts)
    as (c1 & -> & Hc1 & Hv & _); [split; [apply new_command_ok|done]|lia|lia| |done..|lia|].
  { pose proof (length_items_tokens items Hitems). lia. }
  cbn [result_bind].
  assert (exists c, parse_from EOS is_hexdigit hexdigit_to_number to_u8string fuel c1 s2 = Ok (c, s') /\ keeps COMMAND_SELECT c /\
    (forall f, fr = Some f -> command_string c PARAM_TABLE = t_string (fr_table f) /\
      (fr_where f <> None -> command_string c PARAM_WHERE = condition)) /\
    forall q, q <> PARAM_TABLE -> q <> PARAM_WHERE -> command_string c q = command_string c1 q) as (c & -> & Hc & Ht & Hfrm).
  { destruct fr as [fr|].
    - destruct (from_parses EOS is_hexdigit hexdigit_to_number to_u8string fuel fr c1 s2 s' condition) as (c & -> & Hc & Ht & Hw & Hfrm); [done..| |done|lia|].
      { destruct fr as [? ? [[? ?]|]]; done. }
      exists c. split_and!; [done..| |done]. intros f [= <-]. done.
    - apply path_nil_inv in Hp2 as ->. unfold parse_from. rewrite not_keyword_token by (by rewrite Hend). exists c1. by split_and!. }
  cbn [result_bind]. unfold parse_output. rewrite not_keyword_token by (by rewrite Hend). cbn [result_bind].
  unfold semi_colon. rewrite token_true by done. cbn [result_bind]. exists c. split_and!; [done|apply Hc| |done].
  intros j i script Hi Hsc. destruct (Hv j i script Hi Hsc) as [H1 H2]. rewrite Z.add_0_l in H1, H2.
  pose proof (lookup_lt_Some _ _ _ Hi). rewrite !Hfrm; [done|unfold PARAM_WHERE; numbers..].
Qed.

(** The model of a table is only found by its name for QUEUE: the binary search
    goes up when the name is before the one it looks at. *)
Theorem name_to_model_queue debug to_upper name :
  name_to_model debug to_upper name =
    if decide (name = []) then Ok TABLE_MODEL_CONTENT
    else if decide (to_upper name = (str: "QUEUE")) then Ok TABLE_MODEL_QUEUE
    else Throw invalid_name.
Proof. apply name_to_model_found. Qed.

(** ** Witnesses *)

Definition demo_statements : list Z :=
  (str: "begin data; select a + 1 as b, c from t where d > 2; commit if x; create context if not exists u using 'p/q';").

Example demo_statements_commands : demo_commands demo_statements = Ok [COMMAND_BEGIN; COMMAND_SELECT; COMMAND_COMMIT; COMMAND_CREATE_CONTEXT].
Proof. vm_compute. reflexivity. Qed.

(** The clauses that are refused: their last token is read again. *)
Example refused_clauses :
  demo_commands (str: "select a from t limit 5;") = Throw invalid_token /\
  demo_commands (str: "select a from t order by primary key;") = Throw invalid_token /\
  demo_commands (str: "select a from t output json;") = Throw invalid_token /\
  demo_commands (str: "select a from t, u;") = Throw invalid_token.
Proof. vm_compute. done. Qed.

(** The only ORDER BY that is read has an index of the name of the next clause. *)
Example order_by_where : demo_commands (str: "select a from t order by where d > 2;") = Ok [COMMAND_SELECT].
Proof. vm_compute. reflexivity. Qed.

(** SELECT DEFAULT takes any identifier for VALUES, and ALTER INDEX does not look for
    the semicolon of ADD and DROP. *)
Example accepted_by_mistake :
  demo_commands (str: "select default anything;") = Ok [COMMAND_SELECT] /\
  demo_commands (str: "alter index i add c") = Ok [] /\
  demo_commands (str: "create context c any words are skipped;") = Ok [COMMAND_CREATE_CONTEXT].
Proof. vm_compute. done. Qed.

(** After ADD EXPRESSION, the parenthesis is not read. *)
Example add_expression_refused : demo_commands (str: "alter index i add expression (a + b)") = Throw invalid_token.
Proof. vm_compute. reflexivity. Qed.

Lemma demo_gives : gives example_eos 1 (input_init demo_statements []) demo_statements.
Proof. apply (gives_weaken _ 0); [lia|]. apply gives_init. closed_decide. Qed.

Abbreviation demo_run := (
  parse (F := Z) example_eos ascii_is_hexdigit ascii_hexdigit_to_number example_to_u8string true None 2000
    (new_parser (Some (input_init demo_statements [])))).

Lemma script_total_witness :
  match demo_run with
  | Ok p => f_parsed p = true /\
      parse (F := Z) example_eos ascii_is_hexdigit ascii_hexdigit_to_number example_to_u8string true None 2000 p = Throw fatal_error
  | Throw e => script_error (F := Z) example_to_u8string e
  end.
Proof.
  apply (script_total example_eos ascii_is_hexdigit ascii_hexdigit_to_number example_to_u8string example_end_of_script ascii_hexdigit_laws
    true None (input_init demo_statements []) demo_statements); [exact demo_gives|]. apply Nat.ltb_lt. vm_compute. reflexivity.
Defined.

Lemma script_transactions_witness : exists p, demo_run = Ok p /\ length (f_commands p) = 4%nat /\
  is_Some (transactions (f_commands p)) /\ forall c, c ∈ f_commands p -> typed c.
Proof.
  destruct demo_run as [p|] eqn:E; [|vm_compute in E; discriminate]. exists p. split; [reflexivity|]. split.
  - vm_compute in E. injection E as <-. reflexivity.
  - apply (script_transactions example_eos ascii_is_hexdigit ascii_hexdigit_to_number example_to_u8string example_end_of_script ascii_hexdigit_laws
      true None (input_init demo_statements []) demo_statements 2000); [exact demo_gives| |exact E]. apply Nat.ltb_lt. vm_compute. reflexivity.
Defined.

Lemma select_clauses_refused_witness : exists p c, demo_run = Ok p /\ f_commands p !! 1%nat = Some c /\ get_command c = COMMAND_SELECT /\
  is_defined_as c PARAM_LIMIT = PARAM_TYPE_UNKNOWN /\ is_defined_as c PARAM_WHERE = PARAM_TYPE_STRING.
Proof.
  destruct demo_run as [p|] eqn:E; [|vm_compute in E; discriminate]. pose proof E as E'. vm_compute in E'. injection E' as Ep.
  destruct (f_commands p !! 1%nat) as [c|] eqn:Ec; [|rewrite <- Ep in Ec; discriminate]. exists p, c. split; [reflexivity|]. split; [exact Ec|].
  assert (get_command c = COMMAND_SELECT /\ is_defined_as c PARAM_WHERE = PARAM_TYPE_STRING) as [H1 H2].
  { rewrite <- Ep in Ec. cbn in Ec. injection Ec as <-. split; vm_compute; reflexivity. }
  split; [exact H1|]. split; [|exact H2].
  apply (select_clauses_refused example_eos ascii_is_hexdigit ascii_hexdigit_to_number example_to_u8string example_end_of_script ascii_hexdigit_laws
    true None (input_init demo_statements []) demo_statements 2000 p c); [exact demo_gives| |exact E|by eapply list_elem_of_lookup_2].
  apply Nat.ltb_lt. vm_compute. reflexivity.
Defined.

(** [select a + 1 as b, c from t where d > 2;] *)
Definition demo_select : list Z := (str: "select a + 1 as b, c from t where d > 2;").

Definition demo_node (ts : list (Nodes.tree Z)) (i : nat) : Nodes.tree Z := default (make_node TOKEN_EOF (Location [] 1 1)) (ts !! i).

Definition demo_items (ts : list (Nodes.tree Z)) : list (item (F := Z)) :=
  [Item (Binary (Atom (demo_node ts 1)) (demo_node ts 2) (Atom (demo_node ts 3))) (Some (demo_node ts 4, demo_node ts 5)) (demo_node ts 6);
   Item (Atom (demo_node ts 7)) None (demo_node ts 6)].

Definition demo_from (ts : list (Nodes.tree Z)) : from_clause (F := Z) :=
  FromClause (demo_node ts 8) (demo_node ts 9)
    (Some (demo_node ts 10, Binary (Atom (demo_node ts 11)) (demo_node ts 12) (Atom (demo_node ts 13)))).

Lemma demo_script_of e next script :
  (let! t := elab ascii_is_hexdigit ascii_hexdigit_to_number e (t_location next) in to_as2js t) = Ok script ->
  script_of (F := Z) ascii_is_hexdigit ascii_hexdigit_to_number e next script.
Proof. intros (t & Ht & Hs)%result_bind_ok. by exists t. Qed.

Lemma select_statement_witness : exists c s', parse_select example_eos ascii_is_hexdigit ascii_hexdigit_to_number example_to_u8string 1000 []
    (demo_start demo_select) = Ok ([c], s') /\
  command_string c PARAM_EXPRESSION = (str: "a+1") /\ command_string c (PARAM_COLUMN_NAME + 1) = (str: "__col2") /\
  command_string c PARAM_TABLE = (str: "t") /\ command_string c PARAM_WHERE = (str: "d>2").
Proof.
  destruct (demo_tokens 14 (demo_start demo_select)) as [[ts s']|] eqn:E; [|vm_compute in E; discriminate].
  pose proof (demo_tokens_path _ _ _ _ E) as Hp. vm_compute in E. injection E as Hts Hs'.
  assert (demo_node ts 0 :: items_tokens (demo_items ts) ++ from_tokens (Some (demo_from ts)) = ts) as Htokens by (subst ts; vm_compute; reflexivity).
  rewrite <- Htokens in Hp.
  destruct (select_statement example_eos ascii_is_hexdigit ascii_hexdigit_to_number example_to_u8string ascii_hexdigit_laws
    (demo_items ts) (Some (demo_from ts)) (demo_node ts 0) [] (demo_start demo_select) s' [(str: "a+1"); (str: "c")] (str: "d>2") 1000)
    as (c & Hc & _ & Hcols & Hfrom); [discriminate|vm_compute; discriminate| | |exact Hp|subst s'; reflexivity| | | |].
  - subst ts. repeat constructor; try closed_decide; intros n ts [= <- _]; vm_compute; reflexivity.
  - subst ts. repeat constructor; closed_decide.
  - subst. split; [|split; [|exact I]]; apply demo_script_of; vm_compute; reflexivity.
  - subst. apply demo_script_of. vm_compute. reflexivity.
  - subst ts. apply Nat.ltb_lt. vm_compute. reflexivity.
  - exists c, s'. split; [exact Hc|].
    destruct (Hcols 0%nat _ _ eq_refl eq_refl) as [H1 _]. destruct (Hcols 1%nat _ _ eq_refl eq_refl) as [_ H2].
    destruct (Hfrom _ eq_refl) as [H3 H4]. split; [exact H1|]. split; [exact H2|]. split; [rewrite H3; subst ts; reflexivity|].
    apply H4. discriminate.
Defined.
