(* ===== verification/IndirectIndex.v ===== *)
(** * The indirect index of a table

    The rows of a table are numbered from 1: their object identifiers.  The
    indirect index gives the reference of a row from its number.  It is a tree of
    pages: an INDR page holds references of rows, a TIND page of level [n]
    references of pages, each of which covers [max_count ^ n] rows
    (prinbee/block/block_indirect_index.cpp, block_top_indirect_index.cpp).  The
    tree grows when a row is inserted (prinbee/database/table.cpp), with pages of
    the list of free pages, to which sixteen pages at a time are added at the end
    of the file (prinbee/data/dbfile.cpp).  The pages that are added to a file that
    is not sparse have four bytes too many: they start out of the multiples of the
    size of a page, where the list of free pages has its references.

    A table is the pages of its file, by offset, and the fields of the header that
    the index uses.  The blocks that were loaded once are kept by the code, so that
    the type of a page that is allocated is always verified.  At an offset where no
    page starts, the code takes for a type what the bytes there are: this is
    undefined behaviour here.  The state is lost with an exception. *)

From S2P Require Import Prelude Names.

Definition NULL_FILE_ADDR : Z := 0.
Definition MISSING_FILE_ADDR : Z := 1.
Definition NULL_OID : Z := 0.

Inductive page :=
  | FREE (next_free_block : Z)
  | INDR (references : list Z)
  | TIND (block_level : Z) (references : list Z)
  | DATA (bytes : list Z)
  | FSPC (references : list Z)
  | OTHER_BLOCK.

(** What allocate_new_block() is asked for here. *)
Inductive new_block := NEW_INDIRECT_INDEX | NEW_TOP_INDIRECT_INDEX | NEW_DATA | NEW_FREE_SPACE.

Record table := Table {
  f_pages : gmap Z page;
  file_size : Z;
  first_free_block : Z;
  indirect_index : Z;
  last_oid : Z;
  first_free_oid : Z;
  blobs_with_free_space : Z;
  f_sparse_file : bool;
}.

Definition with_page (offset : Z) (p : page) (t : table) : table :=
  Table (<[offset := p]> (f_pages t)) (file_size t) (first_free_block t) (indirect_index t) (last_oid t) (first_free_oid t) (blobs_with_free_space t) (f_sparse_file t).
Definition with_file_size (size : Z) (t : table) : table :=
  Table (f_pages t) size (first_free_block t) (indirect_index t) (last_oid t) (first_free_oid t) (blobs_with_free_space t) (f_sparse_file t).
Definition set_first_free_block (offset : Z) (t : table) : table :=
  Table (f_pages t) (file_size t) offset (indirect_index t) (last_oid t) (first_free_oid t) (blobs_with_free_space t) (f_sparse_file t).
Definition set_indirect_index (offset : Z) (t : table) : table :=
  Table (f_pages t) (file_size t) (first_free_block t) offset (last_oid t) (first_free_oid t) (blobs_with_free_space t) (f_sparse_file t).
Definition set_last_oid (oid : Z) (t : table) : table :=
  Table (f_pages t) (file_size t) (first_free_block t) (indirect_index t) oid (first_free_oid t) (blobs_with_free_space t) (f_sparse_file t).
Definition set_blobs_with_free_space (offset : Z) (t : table) : table :=
  Table (f_pages t) (file_size t) (first_free_block t) (indirect_index t) (last_oid t) (first_free_oid t) offset (f_sparse_file t).

Section IndirectIndex.
Context (page_size : Z).

(** ** Pages *)

(** The static sizes of the structures of INDR and TIND pages: the magic and the
    version, and the level of a TIND. *)
Definition INDR_SIZE : Z := 4 + 4.
Definition TIND_SIZE : Z := 4 + 4 + 1.

Definition get_start_offset (static_size : Z) : Z := default 0 (match round_up static_size 8 with Ok n => Some n | Throw _ => None end).

(** The same for both. *)
Definition get_max_count : Z := (page_size - Z.max (get_start_offset INDR_SIZE) (get_start_offset TIND_SIZE)) / 8.

Definition no_references : list Z := replicate (Z.to_nat get_max_count) NULL_FILE_ADDR.

(** [block::get_dbtype()] *)
Definition get_block (t : table) (offset : Z) : result page :=
  if decide (offset <> 0 /\ offset >= file_size t) then Throw logic_error
  else match f_pages t !! offset with Some p => Ok p | None => Throw undefined_behavior end.

(** A page at the end of the file: its magic, version and reference, then zeroes
    or a hole. *)
Definition append_free_block (next : Z) (t : table) : table * Z :=
  let p := file_size t in
  let size := if f_sparse_file t then page_size else 4 + 4 + 8 + (page_size - 4 - 8) in
  (with_file_size (p + size) (with_page p (FREE next) t), p).

Fixpoint append_free_blocks (n : nat) (next : Z) (t : table) : table :=
  match n with
  | O => t
  | S n => append_free_blocks n (next + page_size) (fst (append_free_block next t))
  end.

(** allocate_block() of a page that is free, then clear_block(). *)
Definition allocate_block (type : new_block) (offset : Z) (t : table) : result table :=
  match f_pages t !! offset, type with
  | Some (FREE _), NEW_INDIRECT_INDEX | Some (INDR _), NEW_INDIRECT_INDEX => Ok (with_page offset (INDR no_references) t)
  | Some (FREE _), NEW_TOP_INDIRECT_INDEX => Ok (with_page offset (TIND 0 no_references) t)
  | Some (TIND level _), NEW_TOP_INDIRECT_INDEX => Ok (with_page offset (TIND level no_references) t)
  | Some (FREE _), NEW_DATA | Some (DATA _), NEW_DATA => Ok (with_page offset (DATA (replicate (Z.to_nat page_size) 0)) t)
  | Some (FREE _), NEW_FREE_SPACE | Some (FSPC _), NEW_FREE_SPACE =>
      Ok (with_page offset (FSPC (replicate (Z.to_nat (page_size / 8)) NULL_FILE_ADDR)) t)
  | Some _, _ => Throw logic_error
  | None, _ => Throw undefined_behavior
  end.

Definition allocate_new_block (type : new_block) (t : table) : result (table * Z) :=
  if decide (file_size t = 0) then Throw logic_error
  else
    let! '(t, offset) :=
      if decide (first_free_block t = NULL_FILE_ADDR)
      then
        let '(t, offset) := append_free_block NULL_FILE_ADDR t in
        let t := append_free_blocks 14 (offset + page_size * 2) t in
        let '(t, _) := append_free_block NULL_FILE_ADDR t in
        Ok (set_first_free_block (offset + page_size) t, offset)
      else
        let offset := first_free_block t in
        let! p := get_block t offset in
        match p with
        | FREE next => Ok (set_first_free_block next t, offset)
        | _ => Throw undefined_behavior
        end in
    let! t := allocate_block type offset t in
    Ok (t, offset).

(** free_block(), with or without clear_block(). *)
Definition free_block (offset : Z) (t : table) : result table :=
  match f_pages t !! offset with
  | Some _ => Ok (set_first_free_block offset (with_page offset (FREE (first_free_block t)) t))
  | None => Throw undefined_behavior
  end.

(** ** Positions *)

Fixpoint power_loop (n : nat) (power : Z) : Z :=
  match n with
  | O => power
  | S n => power_loop n (wrap 64 (power * get_max_count))
  end.

(** block_top_indirect_index::get_position(): the position, [None] when it is out
    of bounds, and the identifier in the page of that position. *)
Definition tind_get_position (level id : Z) : result (option Z * Z) :=
  let power := power_loop (Z.to_nat (level - 1)) get_max_count in
  if decide (power = 0) then Throw undefined_behavior
  else
    let id := wrap 64 (id - 1) in
    let position := id / power in
    let id := wrap 64 (id mod power + 1) in
    Ok (if decide (position >= get_max_count) then None else Some position, id).

Definition reference_at (references : list Z) (position : Z) : result Z :=
  match references !! Z.to_nat position with Some r => Ok r | None => Throw undefined_behavior end.

Definition tind_get_reference (level : Z) (references : list Z) (id : Z) (must_exist : bool) : result (Z * Z) :=
  let! '(position, id) := tind_get_position level id in
  match position with
  | None => if must_exist then Throw logic_error else Ok (MISSING_FILE_ADDR, id)
  | Some position => let! r := reference_at references position in Ok (r, id)
  end.

(** [set_reference()] of the TIND page at [p]. *)
Definition tind_set_reference (p : Z) (id offset : Z) (t : table) : result (table * Z) :=
  match f_pages t !! p with
  | Some (TIND level references) =>
      let! '(position, id) := tind_get_position level id in
      match position with
      | None => Throw logic_error
      | Some position =>
          let! _ := reference_at references position in
          Ok (with_page p (TIND level (<[Z.to_nat position := offset]> references)) t, id)
      end
  | _ => Throw undefined_behavior
  end.

Definition set_block_level (p : Z) (level : Z) (t : table) : result table :=
  match f_pages t !! p with
  | Some (TIND _ references) => Ok (with_page p (TIND level references) t)
  | _ => Throw undefined_behavior
  end.

(** block_indirect_index::get_position() *)
Definition indr_get_position (id : Z) : option Z :=
  let position := wrap 64 (id - 1) in
  if decide (position >= get_max_count) then None else Some position.

Definition indr_get_reference (references : list Z) (id : Z) (must_exist : bool) : result Z :=
  match indr_get_position id with
  | None => if must_exist then Throw logic_error else Ok MISSING_FILE_ADDR
  | Some position => reference_at references position
  end.

Definition indr_set_reference (p : Z) (id offset : Z) (t : table) : result table :=
  match f_pages t !! p with
  | Some (INDR references) =>
      match indr_get_position id with
      | None => Throw logic_error
      | Some position =>
          let! _ := reference_at references position in
          Ok (with_page p (INDR (<[Z.to_nat position := offset]> references)) t)
      end
  | _ => Throw undefined_behavior
  end.

(** ** The place of a new row (table_impl::row_insert) *)

(** The levels between a TIND page and the INDR page that is full below it. *)
Fixpoint add_levels (fuel : nat) (parent_tind block_level position_oid top_tind : Z) (t : table) : result (table * Z) :=
  match fuel with
  | O => Throw fuel_exhausted
  | S fuel =>
      let block_level := block_level - 1 in
      let! t := set_block_level top_tind block_level t in
      let! '(t, position_oid) := tind_set_reference parent_tind position_oid top_tind t in
      if decide (block_level <= 1) then Ok (t, top_tind)
      else
        let! '(t, new_tind) := allocate_new_block NEW_TOP_INDIRECT_INDEX t in
        add_levels fuel top_tind block_level position_oid new_tind t
  end.

(** The page [old] in the first position of [top_tind], a new INDR page in the
    second: the page of the row and its position there. *)
Definition split_page (top_tind save_oid old : Z) (t : table) : result (table * Z * Z) :=
  let! '(t, _) := tind_set_reference top_tind (wrap 64 (save_oid - 1)) old t in
  let! '(t, indr) := allocate_new_block NEW_INDIRECT_INDEX t in
  let! '(t, position_oid) := tind_set_reference top_tind save_oid indr t in
  Ok (t, indr, position_oid).

(** The INDR page [block] is full. *)
Definition full_indr (block position_oid : Z) (parent_tind : option Z) (parent_oid : Z) (t : table) : result (table * Z * Z) :=
  let! '(t, top_tind) := allocate_new_block NEW_TOP_INDIRECT_INDEX t in
  let! '(t, top_tind) :=
    match parent_tind with
    | None =>
        let! t := set_block_level top_tind 1 t in
        Ok (set_indirect_index top_tind t, top_tind)
    | Some parent =>
        match f_pages t !! parent with
        | Some (TIND block_level _) =>
            if decide (block_level <= 1) then Throw logic_error
            else add_levels (Z.to_nat block_level) parent block_level parent_oid top_tind t
        | _ => Throw undefined_behavior
        end
    end in
  split_page top_tind position_oid block t.

(** The TIND page [tind] is full. *)
Definition full_tind (tind level save_oid : Z) (parent_tind : option Z) (parent_oid : Z) (t : table) : result (table * Z * Z) :=
  if decide (level >= 255) then Throw out_of_bounds
  else
    let! '(t, top_tind) := allocate_new_block NEW_TOP_INDIRECT_INDEX t in
    let! t := set_block_level top_tind (level + 1) t in
    let! t :=
      match parent_tind with
      | Some parent => let! '(t, _) := tind_set_reference parent parent_oid tind t in Ok t
      | None => Ok (set_indirect_index top_tind t)
      end in
    split_page top_tind save_oid tind t.

Fixpoint find_place (fuel : nat) (must_exist : bool) (block position_oid : Z) (parent_tind : option Z) (parent_oid : Z) (t : table) :
    result (table * Z * Z) :=
  match fuel with
  | O => Throw fuel_exhausted
  | S fuel =>
      let! p := get_block t block in
      match p with
      | TIND level references =>
          let! '(offset, id) := tind_get_reference level references position_oid must_exist in
          if decide (offset = NULL_FILE_ADDR)
          then
            let! '(t, indr) := allocate_new_block NEW_INDIRECT_INDEX t in
            let! '(t, id) := tind_set_reference block position_oid indr t in
            Ok (t, indr, id)
          else if decide (offset = MISSING_FILE_ADDR) then full_tind block level position_oid parent_tind parent_oid t
          else find_place fuel must_exist offset id (Some block) position_oid t
      | INDR _ =>
          if decide (position_oid > get_max_count) then full_indr block position_oid parent_tind parent_oid t
          else Ok (t, block, position_oid)
      | _ => Throw type_mismatch
      end
  end.

(** The levels are numbers of eight bits. *)
Definition LEVELS : nat := 257.

Definition insert_place (oid : Z) (must_exist : bool) (t : table) : result (table * Z * Z) :=
  if decide (indirect_index t = NULL_FILE_ADDR)
  then
    if decide (oid <> 1) then Throw logic_error
    else
      let! '(t, indr) := allocate_new_block NEW_INDIRECT_INDEX t in
      Ok (set_indirect_index indr t, indr, oid)
  else find_place LEVELS must_exist (indirect_index t) oid None oid t.

(** The number of a new row. *)
Definition new_oid (t : table) : table * Z * bool :=
  let must_exist := negb (bool_decide (first_free_oid t = NULL_OID)) in
  let oid := if must_exist then first_free_oid t else last_oid t in
  (if must_exist then t else set_last_oid (wrap 64 (oid + 1)) t, oid, must_exist).

(** What row_insert() does to the index, with the reference of the data of the row. *)
Definition insert_reference (reference : Z) (t : table) : result (table * Z) :=
  let '(t, oid, must_exist) := new_oid t in
  let! '(t, indr, position_oid) := insert_place oid must_exist t in
  let! t := indr_set_reference indr position_oid reference t in
  Ok (t, oid).

(** ** The reference of a row *)

Fixpoint get_indirect_loop (fuel : nat) (offset oid : Z) (t : table) : result Z :=
  match fuel with
  | O => Throw fuel_exhausted
  | S fuel =>
      let! p := get_block t offset in
      match p with
      | TIND level references =>
          let! '(offset, oid) := tind_get_reference level references oid true in
          if decide (offset = NULL_FILE_ADDR) then Throw logic_error
          else get_indirect_loop fuel offset oid t
      | INDR references => indr_get_reference references oid true
      | _ => Throw type_mismatch
      end
  end.

Definition get_indirect_reference (oid : Z) (t : table) : result Z :=
  if decide (indirect_index t = NULL_FILE_ADDR) then Throw logic_error
  else get_indirect_loop LEVELS (indirect_index t) oid t.

(** ** A new file *)

(** The fields of the header (prinbee/file/file_table.cpp). *)
Definition header_fields : list (list Z) :=
  [(str: "first_free_block"); (str: "indirect_index"); (str: "last_oid"); (str: "first_free_oid"); (str: "update_last_oid"); (str: "update_oid");
   (str: "blobs_with_free_space"); (str: "first_compactable_block"); (str: "primary_index_block"); (str: "primary_index_reference_zero");
   (str: "top_branch_index_block"); (str: "top_revision_index_block"); (str: "expiration_index_block"); (str: "secondary_index_block");
   (str: "tree_index_block"); (str: "deleted_rows"); (str: "bloom_filter_flags")].

(** [set_uinteger()] of a field of the header that is not one of those of [table]. *)
Definition set_header_field (name : list Z) (t : table) : result table :=
  if decide (name ∈ header_fields) then Ok t else Throw field_not_found.

(** Sixteen pages, of which the first is the header. *)
Definition new_pages (sparse : bool) : table :=
  let t := Table ∅ 0 0 NULL_FILE_ADDR 0 NULL_OID NULL_FILE_ADDR sparse in
  let '(t, header) := append_free_block NULL_FILE_ADDR t in
  let t := append_free_blocks 14 (page_size * 2) t in
  let '(t, _) := append_free_block NULL_FILE_ADDR t in
  with_page header OTHER_BLOCK t.

(** open_file() of a file that is not there. *)
Definition new_table (sparse : bool) : result table :=
  let t := set_first_free_block page_size (new_pages sparse) in
  let! t := set_header_field (str: "block_size") t in
  let! t := set_header_field (str: "file_version") t in
  Ok (set_last_oid 1 t).
End IndirectIndex.
