(* ===== verification/IndirectIndexProps.v ===== *)
(** * Properties of the indirect index

    The tree of pages gives the reference of each row that was inserted, however
    many there are; it only takes pages that are free. *)

From S2P Require Import Prelude Names IndirectIndex.

Section Properties.
Context (page_size : Z) (page_large : 32 <= page_size).

Notation c := (get_max_count page_size).

Lemma max_count_value : c = (page_size - 16) / 8.
Proof. done. Qed.

Lemma max_count_range : 2 <= c.
Proof. rewrite max_count_value. pose proof (Z.div_le_mono 16 (page_size - 16) 8). change (16 / 8) with 2 in *. lia. Qed.

(** ** Free pages *)

Fixpoint free_list (pages : gmap Z page) (l : list Z) (first : Z) : Prop :=
  match l with
  | [] => first = NULL_FILE_ADDR
  | x :: l => first = x /\ exists next, pages !! x = Some (FREE next) /\ free_list pages l next
  end.

(** A page of the file. *)
Definition mapped (t : table) (x : Z) : Prop := is_Some (f_pages t !! x) /\ x mod page_size = 0.

(** The pages [used] are not in the list of free pages, and [n] more can be
    allocated: they are in that list, or the file is sparse and can grow. *)
Record alloc_wf (n : nat) (t : table) (used : list Z) : Prop := {
  aw_free : exists l, free_list (f_pages t) l (first_free_block t) /\ NoDup (used ++ l) /\
    Forall (fun x => page_size <= x < file_size t /\ mapped t x) (used ++ l) /\ (f_sparse_file t = true \/ n <= length l)%nat;
  aw_size : page_size <= file_size t /\ file_size t mod page_size = 0;
}.

Definition same_header (t t' : table) : Prop :=
  indirect_index t' = indirect_index t /\ last_oid t' = last_oid t /\ first_free_oid t' = first_free_oid t /\
  blobs_with_free_space t' = blobs_with_free_space t /\ f_sparse_file t' = f_sparse_file t.

(** The pages of [l] are the same. *)
Definition same_pages (l : list Z) (t t' : table) : Prop := forall x, x ∈ l -> f_pages t' !! x = f_pages t !! x.

Lemma same_header_trans t t' t'' : same_header t t' -> same_header t' t'' -> same_header t t''.
Proof. unfold same_header. intros (? & ? & ? & ? & ?) (? & ? & ? & ? & ?). split_and!; congruence. Qed.

Lemma same_pages_trans l t t' t'' : same_pages l t t' -> same_pages l t' t'' -> same_pages l t t''.
Proof. intros H H' x Hx. by rewrite H', H. Qed.

Lemma same_pages_sub l l' t t' : same_pages l t t' -> l' ⊆ l -> same_pages l' t t'.
Proof. intros H Hl x Hx. by apply H, Hl. Qed.

Lemma free_list_same pages pages' l first : free_list pages l first -> (forall x, x ∈ l -> pages' !! x = pages !! x) -> free_list pages' l first.
Proof.
  revert first. induction l as [|x l IH]; intros first; [done|]. cbn. intros (-> & next & Hx & Hl) H. split; [done|]. exists next.
  split; [by rewrite H by left|]. apply IH; [done|]. intros y Hy. apply H. by right.
Qed.

Lemma alloc_wf_perm {n} t used used' : alloc_wf n t used -> used ≡ₚ used' -> alloc_wf n t used'.
Proof. intros [(l & Hl & Hnd & Hall & Hn) Hs] Hp. split; [|done]. exists l. by rewrite <- Hp. Qed.

Lemma alloc_wf_used {n} t used x : alloc_wf n t used -> x ∈ used -> page_size <= x < file_size t /\ mapped t x.
Proof. intros [(l & _ & _ & Hall & _) _] Hx. rewrite Forall_app, Forall_forall in Hall. by apply Hall. Qed.

Lemma alloc_wf_nodup {n} t used : alloc_wf n t used -> NoDup used.
Proof. intros [(l & _ & Hnd & _) _]. by apply NoDup_app in Hnd as [? _]. Qed.

Lemma alloc_wf_le {n} n' t used : alloc_wf n t used -> (n' <= n)%nat -> alloc_wf n' t used.
Proof. intros [(l & Hl & Hnd & Hall & Hn) Hs] Hle. split; [|done]. exists l. split_and!; try done. destruct Hn; [by left|right; lia]. Qed.

(** A page in use is changed. *)
Lemma alloc_wf_page {n} t used x p : alloc_wf n t used -> x ∈ used -> alloc_wf n (with_page x p t) used.
Proof.
  intros [(l & Hl & Hnd & Hall & Hn) Hs] Hx. split; [|done]. exists l. cbn. split; [|split; [done|split; [|done]]].
  - eapply free_list_same; [exact Hl|]. intros y Hy. apply lookup_insert_ne. intros ->.
    apply NoDup_app in Hnd as (_ & H & _). by apply (H y).
  - eapply Forall_impl; [exact Hall|]. intros y [Hy [Hq Ha]]. split; [done|]. split; [|done]. cbn. destruct (decide (x = y)) as [->|].
    + rewrite lookup_insert_eq. eauto.
    + by rewrite lookup_insert_ne.
Qed.

(** A page that is not used any more. *)
Lemma free_block_ok {n} t used x : alloc_wf n t (x :: used) ->
  exists t', free_block x t = Ok t' /\ alloc_wf (S n) t' used /\ same_header t t' /\ same_pages used t t'.
Proof.
  intros [(l & Hl & Hnd & Hall & Hn) Hs]. rewrite <- app_comm_cons in Hnd, Hall. apply NoDup_cons in Hnd as [Hout Hnd]. apply Forall_cons in Hall as [[Hx [[p Hp] Ha]] Hall].
  unfold free_block. rewrite Hp. eexists. split; [done|]. split; [|split; [done|]].
  - split; [|done]. exists (x :: l). cbn. split; [split; [done|]|split; [|split; [|destruct Hn; [by left|right; lia]]]].
    + exists (first_free_block t). split; [apply lookup_insert_eq|]. eapply free_list_same; [exact Hl|]. intros y Hy. apply lookup_insert_ne. set_solver.
    + rewrite <- Permutation_middle. by apply NoDup_cons.
    + assert (forall y, page_size <= y < file_size t /\ mapped t y -> mapped (with_page x (FREE (first_free_block t)) t) y) as Hmap.
      { intros y [_ [[q Hq] Hy]]. split; [|done]. cbn. destruct (decide (x = y)) as [->|]; [rewrite lookup_insert_eq; eauto|rewrite lookup_insert_ne by done; eauto]. }
      apply Forall_app in Hall as [Hu Hf]. apply Forall_app. split; [|constructor].
      * eapply Forall_impl; [exact Hu|]. intros y Hy. split; [apply Hy|by apply Hmap].
      * split; [done|]. apply Hmap. split; [done|]. split; [by exists p|done].
      * eapply Forall_impl; [exact Hf|]. intros y Hy. split; [apply Hy|by apply Hmap].
  - intros y Hy. cbn. apply lookup_insert_ne. intros ->. apply Hout, elem_of_app. by left.
Qed.

Lemma same_pages_page x p t l : x ∉ l -> same_pages l t (with_page x p t).
Proof. intros Hx y Hy. cbn. apply lookup_insert_ne. by intros ->. Qed.

(** The pages added at the end of a sparse file. *)
Lemma append_sparse next t : f_sparse_file t = true ->
  append_free_block page_size next t = (with_file_size (file_size t + page_size) (with_page (file_size t) (FREE next) t), file_size t).
Proof. intros E. unfold append_free_block. by rewrite E. Qed.

Lemma append_free_blocks_spec n next t : f_sparse_file t = true ->
  let t' := append_free_blocks page_size n next t in
  same_header t t' /\ first_free_block t' = first_free_block t /\ file_size t' = file_size t + Z.of_nat n * page_size /\
  (forall x, x < file_size t -> f_pages t' !! x = f_pages t !! x) /\
  (forall i, (i < n)%nat -> f_pages t' !! (file_size t + Z.of_nat i * page_size) = Some (FREE (next + Z.of_nat i * page_size))).
Proof.
  cbv zeta. revert next t. induction n as [|n IH]; intros next t Hsp.
  - cbn [append_free_blocks]. split_and!; [by split_and!|done|lia|done|lia].
  - cbn [append_free_blocks]. rewrite append_sparse by done. cbn [fst]. set (t1 := with_file_size _ _).
    destruct (IH (next + page_size) t1 Hsp) as (Hh & Hf & Hs & Hx & Hi). unfold t1 in Hh, Hf, Hs, Hx, Hi.
    cbn [with_page with_file_size file_size first_free_block f_pages] in *. fold t1 in Hh, Hf, Hs, Hx, Hi.
    split; [|split; [done|split; [lia|split]]].
    + by destruct Hh as (? & ? & ? & ? & ?).
    + intros x Hlt. rewrite Hx by lia. apply lookup_insert_ne. lia.
    + intros i Hlt. destruct i as [|i].
      * rewrite Hx by lia. rewrite Z.mul_0_l, !Z.add_0_r. apply lookup_insert_eq.
      * specialize (Hi i ltac:(lia)). replace (file_size t + Z.of_nat (S i) * page_size) with (file_size t + page_size + Z.of_nat i * page_size) by lia.
        rewrite Hi. do 2 f_equal. lia.
Qed.

Lemma free_list_run pages a k : (forall i, (i < k)%nat -> pages !! (a + Z.of_nat i * page_size) = Some (FREE (a + Z.of_nat (S i) * page_size))) ->
  pages !! (a + Z.of_nat k * page_size) = Some (FREE NULL_FILE_ADDR) ->
  free_list pages ((fun i => a + Z.of_nat i * page_size) <$> seq 0 (S k)) a.
Proof.
  revert a. induction k as [|k IH]; intros a Hi Hk.
  - cbn. rewrite Z.mul_0_l, Z.add_0_r in *. split; [done|]. by exists NULL_FILE_ADDR.
  - rewrite <- cons_seq. cbn [fmap list_fmap free_list]. split; [lia|]. exists (a + page_size).
    split; [rewrite (Hi 0%nat) by lia; do 2 f_equal; lia|]. rewrite <- fmap_S_seq.
    change (list_fmap _ _ ?f ?l) with (f <$> l). rewrite <- list_fmap_compose.
    assert ((fun i => a + Z.of_nat i * page_size) ∘ S <$> seq 0 (S k) = (fun i => a + page_size + Z.of_nat i * page_size) <$> seq 0 (S k)) as ->.
    { apply list_fmap_ext. intros i x _. unfold compose. lia. }
    apply IH.
    + intros i Hlt. specialize (Hi (S i) ltac:(lia)). replace (a + page_size + Z.of_nat i * page_size) with (a + Z.of_nat (S i) * page_size) by lia.
      rewrite Hi. do 2 f_equal. lia.
    + replace (a + page_size + Z.of_nat k * page_size) with (a + Z.of_nat (S k) * page_size) by lia. done.
Qed.

Definition fresh (type : new_block) : page :=
  match type with
  | NEW_INDIRECT_INDEX => INDR (no_references page_size)
  | NEW_TOP_INDIRECT_INDEX => TIND 0 (no_references page_size)
  | NEW_DATA => DATA (replicate (Z.to_nat page_size) 0)
  | NEW_FREE_SPACE => FSPC (replicate (Z.to_nat (page_size / 8)) NULL_FILE_ADDR)
  end.

(** The sixteen pages that are added when no page is free. *)
Definition grown_file (t : table) : table :=
  let '(t1, offset) := append_free_block page_size NULL_FILE_ADDR t in
  let '(t2, _) := append_free_block page_size NULL_FILE_ADDR (append_free_blocks page_size 14 (offset + page_size * 2) t1) in
  set_first_free_block (offset + page_size) t2.

Lemma grown_file_spec t : f_sparse_file t = true -> page_size <= file_size t ->
  let t' := grown_file t in
  same_header t t' /\ file_size t' = file_size t + 16 * page_size /\
  (forall x, x < file_size t -> f_pages t' !! x = f_pages t !! x) /\ f_pages t' !! file_size t = Some (FREE NULL_FILE_ADDR) /\
  free_list (f_pages t') ((fun i => file_size t + page_size + Z.of_nat i * page_size) <$> seq 0 15) (first_free_block t').
Proof.
  intros Hsp Hs. cbv zeta. unfold grown_file. rewrite append_sparse by done.
  set (t1 := with_file_size _ (with_page (file_size t) _ t)).
  destruct (append_free_blocks_spec 14 (file_size t + page_size * 2) t1 Hsp) as (Hh & Hf & Hsize & Hx & Hi).
  set (t2 := append_free_blocks page_size 14 (file_size t + page_size * 2) t1) in *.
  rewrite append_sparse by (destruct Hh as (_ & _ & _ & _ & ->); done).
  assert (file_size t1 = file_size t + page_size) as E1 by done. rewrite E1 in *.
  assert (forall x, f_pages t1 !! x = <[file_size t := FREE NULL_FILE_ADDR]> (f_pages t) !! x) as Ep by done.
  cbn [set_first_free_block with_file_size with_page f_pages file_size first_free_block].
  split; [by destruct Hh as (? & ? & ? & ? & ?)|]. split; [lia|]. split; [|split].
  - intros x Hlt. rewrite lookup_insert_ne, Hx, Ep by lia. apply lookup_insert_ne. lia.
  - rewrite lookup_insert_ne, Hx, Ep by lia. apply lookup_insert_eq.
  - apply free_list_run.
    + intros i Hlt. specialize (Hi i ltac:(lia)). rewrite lookup_insert_ne by (rewrite Hsize; nia). rewrite Hi. do 2 f_equal. lia.
    + replace (file_size t + page_size + Z.of_nat 14 * page_size) with (file_size t2) by lia. apply lookup_insert_eq.
Qed.

Lemma free_list_pages pages l first x : free_list pages l first -> x ∈ l -> is_Some (pages !! x).
Proof.
  revert first. induction l as [|y l IH]; intros first; [by intros _ ?%elem_of_nil|]. cbn. intros (-> & next & Hy & Hl) Hx.
  apply elem_of_cons in Hx as [->|Hx]; [by exists (FREE next)|]. by apply (IH next).
Qed.

(** The page at [offset] of [t1] is the first that is free. *)
Lemma allocate_block_ok n type t t1 offset next used l : f_pages t1 !! offset = Some (FREE next) -> same_header t t1 -> same_pages used t t1 ->
  page_size <= offset < file_size t1 -> offset mod page_size = 0 -> free_list (f_pages t1) l (first_free_block t1) -> NoDup (offset :: used ++ l) ->
  Forall (fun x => page_size <= x < file_size t1 /\ mapped t1 x) (used ++ l) -> (f_sparse_file t1 = true \/ n <= length l)%nat -> page_size <= file_size t1 /\ file_size t1 mod page_size = 0 ->
  exists t' offset', (let! t := allocate_block page_size type offset t1 in Ok (t, offset)) = Ok (t', offset') /\ alloc_wf n t' (offset' :: used) /\
    f_pages t' !! offset' = Some (fresh type) /\ same_header t t' /\ same_pages used t t' /\ offset' ∉ used.
Proof.
  intros Hoff Hh Hp Hr Ha Hl [Hout Hnd]%NoDup_cons Hall Hn Hs. exists (with_page offset (fresh type) t1), offset.
  assert (offset ∉ used) as Hou by (intros ?; apply Hout, elem_of_app; by left).
  split; [unfold allocate_block; rewrite Hoff; by destruct type|]. split; [|split; [apply lookup_insert_eq|split; [done|split; [|done]]]].
  - assert (alloc_wf n t1 (offset :: used)) as Hwf1.
    { split; [|done]. exists l. split; [done|]. split; [by apply NoDup_cons|]. split; [|done]. cbn. constructor; [|done]. split; [done|]. split; [eauto|done]. }
    apply alloc_wf_page; [done|by left].
  - eapply same_pages_trans; [exact Hp|]. by apply same_pages_page.
Qed.

Lemma allocate_at_end n type t used : alloc_wf (S n) t used -> first_free_block t = NULL_FILE_ADDR ->
  exists t' offset, (let! t1 := allocate_block page_size type (file_size t) (grown_file t) in Ok (t1, file_size t)) = Ok (t', offset) /\
    alloc_wf n t' (offset :: used) /\ f_pages t' !! offset = Some (fresh type) /\ same_header t t' /\ same_pages used t t' /\ offset ∉ used.
Proof.
  intros [(l & Hl & Hnd & Hall & Hn) [Hsize Hmod]] Hnull. assert (l = []) as ->.
  { destruct l as [|x l]; [done|]. cbn in Hl. destruct Hl as [Hx _]. rewrite Forall_app, Forall_cons in Hall.
    destruct Hall as (_ & [Hr _] & _). unfold NULL_FILE_ADDR in *. lia. }
  destruct Hn as [Hsp|Hn]; [|cbn in Hn; lia]. rewrite app_nil_r in *. destruct (grown_file_spec t Hsp Hsize) as (Hh & Hs & Hx & Ho & Hfree). rewrite Forall_forall in Hall.
  set (new := (fun i => file_size t + page_size + Z.of_nat i * page_size) <$> seq 0 15) in *.
  assert (forall k, (file_size t + k * page_size) mod page_size = 0) as Hk by (intros k; rewrite Z.mod_add by lia; done).
  assert (forall x, x ∈ new -> file_size t < x < file_size t + 16 * page_size /\ x mod page_size = 0) as Hnew.
  { intros x (i & -> & Hi%elem_of_seq)%list_elem_of_fmap. split; [nia|].
    replace (file_size t + page_size + Z.of_nat i * page_size) with (file_size t + (Z.of_nat i + 1) * page_size) by ring. apply Hk. }
  apply (allocate_block_ok n type t (grown_file t) (file_size t) NULL_FILE_ADDR used new); [done|done| |lia|done|done| | |left; by destruct Hh as (_ & _ & _ & _ & ->)|split; [lia|rewrite Hs; apply Hk]].
  - intros x Hin. apply Hx. destruct (Hall x Hin). lia.
  - apply NoDup_cons. split.
    + rewrite elem_of_app. intros [Hin|Hin]; [destruct (Hall _ Hin); lia|apply Hnew in Hin; lia].
    + apply NoDup_app. split; [done|]. split.
      * intros x Hin Hin'. destruct (Hall x Hin). apply Hnew in Hin'. lia.
      * apply NoDup_fmap_2; [intros i j E; nia|apply NoDup_seq].
  - apply Forall_app. split; apply Forall_forall.
    + intros x Hin. destruct (Hall x Hin) as [? [Hsome ?]]. split; [lia|]. split; [|done]. by rewrite Hx by lia.
    + intros x Hin. pose proof (Hnew x Hin). split; [lia|]. split; [|tauto]. by apply (free_list_pages _ new (first_free_block (grown_file t))).
Qed.

(** A page that was free, and is not in use, whatever its source. *)
Lemma allocate_new_block_ok {n} type t used : alloc_wf (S n) t used ->
  exists t' offset, allocate_new_block page_size type t = Ok (t', offset) /\ alloc_wf n t' (offset :: used) /\
    f_pages t' !! offset = Some (fresh type) /\ same_header t t' /\ same_pages used t t' /\ offset ∉ used.
Proof.
  intros Hwf. pose proof Hwf as [(l & Hl & Hnd & Hall & Hn) [Hsize Hmod]]. unfold allocate_new_block. rewrite decide_False by lia.
  destruct (decide (first_free_block t = NULL_FILE_ADDR)) as [Hnull|Hsome].
  - exact (allocate_at_end n type t used Hwf Hnull).
  - destruct l as [|x l]; [done|]. cbn in Hl. destruct Hl as (Hx & next & Hpage & Hl). rewrite Hx.
    assert (page_size <= x < file_size t /\ mapped t x) as [Hr [_ Ha]] by (rewrite Forall_app, Forall_cons in Hall; tauto).
    unfold get_block. rewrite decide_False by lia. rewrite Hpage. cbn [result_bind].
    apply (allocate_block_ok n type t (set_first_free_block next t) x next used l); [done|done|by intros ? ?|done|done|done| | | |done].
    + by rewrite <- Permutation_middle in Hnd.
    + rewrite Forall_app, Forall_cons in Hall. apply Forall_app. tauto.
    + destruct Hn as [Hn|Hn]; [by left|right; cbn in Hn; lia].
Qed.

(** The file has at most sixteen more pages. *)
Lemma allocate_grown type t : file_size t <> 0 -> first_free_block t = NULL_FILE_ADDR ->
  allocate_new_block page_size type t = let! t1 := allocate_block page_size type (file_size t) (grown_file t) in Ok (t1, file_size t).
Proof.
  intros Hs Hnull. unfold allocate_new_block. rewrite decide_False, decide_True by done. unfold grown_file.
  destruct (append_free_block page_size NULL_FILE_ADDR t) as [t1 x] eqn:E. assert (x = file_size t) as -> by (by injection E as _ <-).
  by destruct (append_free_block page_size NULL_FILE_ADDR (append_free_blocks _ _ _ _)) as [t2 y].
Qed.

Lemma allocate_block_size type offset t1 t' x : (let! t2 := allocate_block page_size type offset t1 in Ok (t2, offset)) = Ok (t', x) ->
  file_size t' = file_size t1.
Proof. unfold allocate_block. destruct (f_pages t1 !! offset) as [[]|], type; cbn [result_bind]; try done; by intros [= <- _]. Qed.

Lemma allocate_new_block_size n type t used t' x : alloc_wf (S n) t used -> allocate_new_block page_size type t = Ok (t', x) ->
  file_size t <= file_size t' <= file_size t + 16 * page_size.
Proof.
  intros [(l & Hl & _ & Hall & Hn) [Hs _]]. destruct (decide (first_free_block t = NULL_FILE_ADDR)) as [Hnull|Hsome].
  - assert (f_sparse_file t = true) as Hsp.
    { destruct Hn as [|Hn]; [done|]. destruct l as [|y l]; [cbn in Hn; lia|]. destruct Hl as [Hy _]. rewrite Forall_app, Forall_cons in Hall.
      destruct Hall as (_ & [Hr _] & _). unfold NULL_FILE_ADDR in *. lia. }
    rewrite allocate_grown by (done || lia). intros E%allocate_block_size.
    destruct (grown_file_spec t Hsp Hs) as (_ & Hsize & _). rewrite Hsize in E. clear Hsize. lia.
  - unfold allocate_new_block. rewrite !decide_False by (done || lia).
    unfold get_block. destruct (decide _); [done|]. destruct (f_pages t !! first_free_block t) as [[]|]; cbn [result_bind]; try done.
    intros E%allocate_block_size. cbn in E. lia.
Qed.

(** The pages of [n] allocations at most were added. *)
Definition file_within (t t' : table) (n : Z) : Prop := file_size t' <= file_size t + n * (16 * page_size).

Lemma file_within_trans t t' t'' n n' : file_within t t' n -> file_within t' t'' n' -> file_within t t'' (n + n').
Proof. unfold file_within. lia. Qed.

Lemma file_within_le t t' n n' : file_within t t' n -> n <= n' -> file_within t t' n'.
Proof. unfold file_within. nia. Qed.

Lemma allocate_new_block_within {n} type t used t' x : alloc_wf (S n) t used -> allocate_new_block page_size type t = Ok (t', x) -> file_within t t' 1.
Proof. intros Hwf E. pose proof (allocate_new_block_size _ _ _ _ _ _ Hwf E). unfold file_within. lia. Qed.

(** ** Positions *)

Lemma power_loop_value n x : 0 < x -> x * c ^ Z.of_nat n < 2 ^ 64 -> power_loop page_size n x = x * c ^ Z.of_nat n.
Proof.
  pose proof max_count_range. revert x. induction n as [|n IH]; intros x Hx Hlt; [cbn; lia|]. cbn [power_loop].
  rewrite Nat2Z.inj_succ, Z.pow_succ_r in Hlt |- * by lia. assert (0 < c ^ Z.of_nat n) by (apply Z.pow_pos_nonneg; lia).
  rewrite wrap_small by (unfold uword; split; [lia|]; nia). rewrite IH by nia. ring.
Qed.

Lemma tind_position L id : (1 <= L)%nat -> c ^ Z.of_nat L < 2 ^ 64 -> 1 <= id < 2 ^ 64 ->
  tind_get_position page_size (Z.of_nat L) id =
    Ok (if decide ((id - 1) / c ^ Z.of_nat L >= c) then None else Some ((id - 1) / c ^ Z.of_nat L), (id - 1) mod c ^ Z.of_nat L + 1).
Proof.
  intros HL Hp Hid. pose proof max_count_range. unfold tind_get_position.
  replace (Z.to_nat (Z.of_nat L - 1)) with (L - 1)%nat by lia.
  assert (c * c ^ Z.of_nat (L - 1) = c ^ Z.of_nat L) as E.
  { rewrite <- Z.pow_succ_r by lia. f_equal. lia. }
  rewrite power_loop_value by lia. rewrite E. assert (0 < c ^ Z.of_nat L) by (apply Z.pow_pos_nonneg; lia).
  rewrite decide_False by lia. rewrite (wrap_small 64 (id - 1)) by (unfold uword; lia).
  pose proof (Z.mod_pos_bound (id - 1) (c ^ Z.of_nat L) ltac:(lia)). by rewrite wrap_small by (unfold uword; lia).
Qed.

Lemma indr_position id : 1 <= id < 2 ^ 64 -> indr_get_position page_size id = if decide (id - 1 >= c) then None else Some (id - 1).
Proof. intros Hid. unfold indr_get_position. by rewrite wrap_small by (unfold uword; lia). Qed.

(** ** The tree *)

Notation slots := (Z.to_nat c).

(** The pages [offs], in order, each with the references of [p] rows: all the
    references, and all the pages below. *)
Inductive kids (P : Z -> list Z -> list Z -> Prop) (p : Z) : list Z -> list Z -> list Z -> Prop :=
  | kids_nil : kids P p [] [] []
  | kids_cons o g fpo offs f fp : P o g fpo -> Z.of_nat (length g) = p -> kids P p offs f fp ->
      kids P p (o :: offs) (g ++ f) (fpo ++ fp).

(** The tree at [off] holds the references [f], in the pages [fp].  A tree of
    [L] levels is a single INDR page as long as it can hold them.  The last page of
    a TIND page may not be full. *)
Fixpoint rep (pages : gmap Z page) (L : nat) (off : Z) (f fp : list Z) : Prop :=
  (pages !! off = Some (INDR (f ++ replicate (slots - length f) NULL_FILE_ADDR)) /\ 1 <= Z.of_nat (length f) <= c /\ fp = [off]) \/
  match L with
  | O => False
  | S L' => exists offs lo f1 f2 fp1 fp2,
      pages !! off = Some (TIND (Z.of_nat L) (offs ++ lo :: replicate (slots - 1 - length offs) NULL_FILE_ADDR)) /\
      (length offs < slots)%nat /\ kids (rep pages L') (c ^ Z.of_nat L) offs f1 fp1 /\ rep pages L' lo f2 fp2 /\
      Z.of_nat (length f2) <= c ^ Z.of_nat L /\ c < Z.of_nat (length f) /\ f = f1 ++ f2 /\ fp = off :: fp1 ++ fp2
  end.

Lemma kids_impl (P Q : Z -> list Z -> list Z -> Prop) p offs f fp : kids P p offs f fp ->
  (forall o g fpo, fpo ⊆ fp -> P o g fpo -> Q o g fpo) -> kids Q p offs f fp.
Proof.
  induction 1 as [|o g fpo offs f fp HP Hg Hk IH]; intros H; [constructor|]. constructor; [|done|].
  - apply H; [set_solver|done].
  - apply IH. intros o' g' fp' Hsub. apply H. set_solver.
Qed.

Lemma kids_snoc P p offs f fp o g fpo : kids P p offs f fp -> P o g fpo -> Z.of_nat (length g) = p ->
  kids P p (offs ++ [o]) (f ++ g) (fp ++ fpo).
Proof.
  intros Hk HP Hg. induction Hk as [|o' g' fpo' offs f fp HP' Hg' Hk IH].
  - cbn. rewrite <- (app_nil_r g), <- (app_nil_r fpo). constructor; [done|done|constructor].
  - rewrite <- !app_assoc. by constructor.
Qed.

Lemma kids_length P p offs f fp : kids P p offs f fp -> Z.of_nat (length f) = Z.of_nat (length offs) * p.
Proof. induction 1 as [|o g fpo offs f fp HP Hg Hk IH]; [done|]. rewrite length_app. cbn [length]. lia. Qed.

Lemma rep_frame pages pages' L off f fp : rep pages L off f fp -> (forall x, x ∈ fp -> pages' !! x = pages !! x) -> rep pages' L off f fp.
Proof.
  revert off f fp. induction L as [|L IH]; intros off f fp Hrep Hsame; cbn in *.
  - destruct Hrep as [(Hp & Hf & ->)|[]]. left. by rewrite Hsame by set_solver.
  - destruct Hrep as [(Hp & Hf & ->)|(offs & lo & f1 & f2 & fp1 & fp2 & Hp & Ho & Hk & Hlo & Hf2 & Hf & -> & ->)].
    + left. by rewrite Hsame by set_solver.
    + right. exists offs, lo, f1, f2, fp1, fp2. rewrite Hsame by set_solver. split_and!; try done.
      * eapply kids_impl; [exact Hk|]. intros o g fpo Hsub H. apply IH; [done|]. intros x Hx. apply Hsame. set_solver.
      * apply IH; [done|]. intros x Hx. apply Hsame. set_solver.
Qed.

Lemma rep_nonempty pages L off f fp : rep pages L off f fp -> off ∈ fp /\ 1 <= Z.of_nat (length f).
Proof.
  pose proof max_count_range. destruct L; cbn; intros [(_ & Hf & ->)|H']; [split; [set_solver|lia]|done|split; [set_solver|lia]|].
  destruct H' as (offs & lo & f1 & f2 & fp1 & fp2 & _ & _ & _ & _ & _ & Hf & _ & ->). split; [set_solver|lia].
Qed.

Lemma rep_length pages L off f fp : rep pages L off f fp -> Z.of_nat (length f) <= c ^ Z.of_nat (S L).
Proof.
  pose proof max_count_range. intros Hrep. assert (c <= c ^ Z.of_nat (S L)) as Hc.
  { rewrite Nat2Z.inj_succ, Z.pow_succ_r by lia. pose proof (Z.pow_pos_nonneg c (Z.of_nat L)). nia. }
  destruct L as [|L]; cbn [rep] in Hrep; destruct Hrep as [(_ & Hf & _)|Hn]; [lia|done|lia|].
  destruct Hn as (offs & lo & f1 & f2 & fp1 & fp2 & _ & Ho & Hk & _ & Hf2 & _ & -> & _). apply kids_length in Hk.
  rewrite length_app, Nat2Z.inj_add, Hk. rewrite (Nat2Z.inj_succ (S L)), Z.pow_succ_r by lia. nia.
Qed.

Lemma kids_lookup P p offs f fp k o : kids P p offs f fp -> offs !! k = Some o -> exists g fpo, P o g fpo /\ Z.of_nat (length g) = p /\ fpo ⊆ fp /\
  forall i, (i < length g)%nat -> f !! (k * length g + i)%nat = g !! i.
Proof.
  intros Hk. revert k. induction Hk as [|o' g fpo offs f fp HP Hg Hk IH]; intros k Hok; [done|]. destruct k as [|k]; cbn in Hok.
  - injection Hok as ->. exists g, fpo. split_and!; [done|done|set_solver|]. intros i Hi. cbn [Nat.mul Nat.add]. by rewrite lookup_app_l.
  - destruct (IH k Hok) as (g' & fpo' & HP' & Hg' & Hsub & Hi). exists g', fpo'. split_and!; [done|done|set_solver|]. intros i Hlt.
    rewrite lookup_app_r by nia. rewrite <- Hi by done. f_equal. nia.
Qed.

(** ** Reading *)

Lemma get_block_used t x p : f_pages t !! x = Some p -> page_size <= x < file_size t -> get_block t x = Ok p.
Proof. intros Hx Hr. unfold get_block. rewrite decide_False by lia. by rewrite Hx. Qed.

Definition lookup_ok (f : list Z) (i : Z) (r : result Z) : Prop :=
  match f !! Z.to_nat i with
  | Some x => r = Ok x
  | None => r = Ok NULL_FILE_ADDR \/ r = Throw logic_error
  end.

Lemma rep_inv pages L off f fp : rep pages L off f fp ->
  (pages !! off = Some (INDR (f ++ replicate (slots - length f) NULL_FILE_ADDR)) /\ 1 <= Z.of_nat (length f) <= c /\ fp = [off]) \/
  exists L', L = S L' /\ exists offs lo f1 f2 fp1 fp2,
    pages !! off = Some (TIND (Z.of_nat L) (offs ++ lo :: replicate (slots - 1 - length offs) NULL_FILE_ADDR)) /\
    (length offs < slots)%nat /\ kids (rep pages L') (c ^ Z.of_nat L) offs f1 fp1 /\ rep pages L' lo f2 fp2 /\
    Z.of_nat (length f2) <= c ^ Z.of_nat L /\ c < Z.of_nat (length f) /\ f = f1 ++ f2 /\ fp = off :: fp1 ++ fp2.
Proof. destruct L as [|L]; cbn [rep]; intros [H|H]; [by left|done|by left|]. right. by exists L. Qed.

(** The slot of a TIND page where the reference [i] is sought. *)
Lemma node_slot pages L offs lo f1 f2 fp1 fp2 i : let p := c ^ Z.of_nat (S L) in
  (length offs < slots)%nat -> kids (rep pages L) p offs f1 fp1 -> rep pages L lo f2 fp2 -> Z.of_nat (length f2) <= p ->
  0 <= i -> i / p < c ->
  exists r, (offs ++ lo :: replicate (slots - 1 - length offs) NULL_FILE_ADDR) !! Z.to_nat (i / p) = Some r /\
    (r = NULL_FILE_ADDR /\ (f1 ++ f2) !! Z.to_nat i = None \/
     exists g fpo, rep pages L r g fpo /\ fpo ⊆ fp1 ++ fp2 /\ (f1 ++ f2) !! Z.to_nat i = g !! Z.to_nat (i mod p)).
Proof.
  pose proof max_count_range as Hc. intros p Ho Hk Hlo Hf2 Hi Hq. assert (0 < p) as Hp0 by (apply Z.pow_pos_nonneg; lia).
  pose proof (kids_length _ _ _ _ _ Hk) as Hf1. pose proof (Z.div_mod i p ltac:(lia)) as Hdm.
  pose proof (Z.mod_pos_bound i p ltac:(lia)) as Hm. pose proof (Z.div_pos i p ltac:(lia) ltac:(lia)) as Hq0.
  set (q := i / p) in *. set (m := i mod p) in *.
  destruct (decide (q < Z.of_nat (length offs))) as [Hlt|Hge]; [|destruct (decide (q = Z.of_nat (length offs))) as [Heq|Hgt]].
  - destruct (offs !! Z.to_nat q) as [o|] eqn:Eo; [|apply lookup_ge_None in Eo; lia]. exists o.
    split; [by apply lookup_app_l_Some|]. right. destruct (kids_lookup _ _ _ _ _ _ _ Hk Eo) as (g & fpo & Hg & Hgl & Hsub & Hlook).
    exists g, fpo. split; [done|]. split; [set_solver|]. rewrite lookup_app_l by nia. rewrite <- Hlook by lia. f_equal. nia.
  - exists lo. rewrite lookup_app_r by lia. replace (Z.to_nat q - length offs)%nat with 0%nat by lia. split; [done|]. right.
    exists f2, fp2. split; [done|]. split; [set_solver|]. rewrite lookup_app_r by nia. f_equal. nia.
  - exists NULL_FILE_ADDR. rewrite lookup_app_r by lia. destruct (Z.to_nat q - length offs)%nat as [|j] eqn:Ej; [lia|]. split.
    + change ((lo :: ?l) !! S j) with (l !! j). apply lookup_replicate_2. lia.
    + left. split; [done|]. apply lookup_ge_None. rewrite length_app. nia.
Qed.

Lemma cap_below L : c ^ Z.of_nat (S L) < 2 ^ 64 -> c ^ Z.of_nat L < 2 ^ 64.
Proof. pose proof max_count_range. intros H'. eapply Z.le_lt_trans; [|exact H']. apply Z.pow_le_mono_r; lia. Qed.

Lemma get_indirect_loop_ok t L off f fp i fuel : rep (f_pages t) L off f fp -> Forall (fun x => page_size <= x < file_size t) fp ->
  c ^ Z.of_nat L < 2 ^ 64 -> 0 <= i < 2 ^ 64 - 1 -> (L < fuel)%nat -> lookup_ok f i (get_indirect_loop page_size fuel off (i + 1) t).
Proof.
  pose proof max_count_range as Hc. revert off f fp i fuel. induction L as [L IH] using lt_wf_ind. intros off f fp i fuel Hrep Hfp Hcap Hi Hfuel.
  rewrite Forall_forall in Hfp. assert (page_size <= off < file_size t) as Hoff by (apply Hfp; by apply rep_nonempty in Hrep as [? _]).
  destruct fuel as [|fuel]; [lia|]. cbn [get_indirect_loop].
  destruct (rep_inv _ _ _ _ _ Hrep) as [(Hp & Hf & _)|(L' & -> & offs & lo & f1 & f2 & fp1 & fp2 & Hp & Ho & Hk & Hlo & Hf2 & _ & -> & ->)].
  - rewrite (get_block_used t off _ Hp Hoff). cbn [result_bind]. unfold indr_get_reference. rewrite indr_position by lia.
    replace (i + 1 - 1) with i by lia. unfold lookup_ok. destruct (decide (i >= c)).
    + rewrite (proj2 (lookup_ge_None f (Z.to_nat i))) by lia. by right.
    + unfold reference_at. destruct (f !! Z.to_nat i) as [x|] eqn:E; [by rewrite (lookup_app_l_Some _ _ _ _ E)|].
      apply lookup_ge_None in E. rewrite lookup_app_r by lia. rewrite lookup_replicate_2 by lia. by left.
  - rewrite (get_block_used t off _ Hp Hoff). cbn [result_bind]. unfold tind_get_reference. rewrite tind_position by lia. cbn [result_bind].
    replace (i + 1 - 1) with i by lia. pose proof (kids_length _ _ _ _ _ Hk) as Hf1.
    assert (0 < c ^ Z.of_nat (S L')) as Hp0 by (apply Z.pow_pos_nonneg; lia).
    destruct (decide (i / c ^ Z.of_nat (S L') >= c)) as [Hover|Hin].
    { unfold lookup_ok. rewrite (proj2 (lookup_ge_None _ (Z.to_nat i))); [by right|]. rewrite length_app.
      pose proof (Z.mul_div_le i (c ^ Z.of_nat (S L')) ltac:(lia)). nia. }
    destruct (node_slot (f_pages t) L' offs lo f1 f2 fp1 fp2 i Ho Hk Hlo Hf2 ltac:(lia) ltac:(lia)) as (r & Hr & Hcase).
    unfold reference_at. rewrite Hr. cbn [result_bind]. unfold lookup_ok in *. destruct Hcase as [(-> & ->)|(g & fpo & Hg & Hsub & ->)].
    { rewrite decide_True by done. by right. }
    assert (forall x, x ∈ fpo -> page_size <= x < file_size t) as Hfpo by (intros x Hx; apply Hfp; set_solver).
    rewrite decide_False by (apply rep_nonempty in Hg as [Hg _]; apply Hfpo in Hg; unfold NULL_FILE_ADDR; lia).
    pose proof (Z.mod_pos_bound i (c ^ Z.of_nat (S L')) ltac:(lia)).
    by apply (IH L' ltac:(lia) r g fpo); [..|apply Forall_forall|apply cap_below|lia|lia].
Qed.

(** ** Writing *)

Lemma length_no_references : length (no_references page_size) = slots.
Proof. apply length_replicate. Qed.

Lemma tind_set_ok L t p id v refs : f_pages t !! p = Some (TIND (Z.of_nat L) refs) -> length refs = slots -> (1 <= L)%nat ->
  c ^ Z.of_nat L < 2 ^ 64 -> 1 <= id < 2 ^ 64 -> (id - 1) / c ^ Z.of_nat L < c ->
  tind_set_reference page_size p id v t =
    Ok (with_page p (TIND (Z.of_nat L) (<[Z.to_nat ((id - 1) / c ^ Z.of_nat L) := v]> refs)) t, (id - 1) mod c ^ Z.of_nat L + 1).
Proof.
  intros Hp Hlen HL Hcap Hid Hq. pose proof max_count_range. unfold tind_set_reference. rewrite Hp, tind_position by done. cbn [result_bind].
  rewrite decide_False by lia. assert (0 < c ^ Z.of_nat L) by (apply Z.pow_pos_nonneg; lia).
  pose proof (Z.div_pos (id - 1) (c ^ Z.of_nat L) ltac:(lia) ltac:(lia)).
  unfold reference_at. destruct (refs !! _) eqn:E; [done|]. apply lookup_ge_None in E. lia.
Qed.

Lemma leaf_insert (g : list Z) v : Z.of_nat (length g) < c ->
  <[length g := v]> (g ++ replicate (slots - length g) NULL_FILE_ADDR) = (g ++ [v]) ++ replicate (slots - length (g ++ [v])) NULL_FILE_ADDR.
Proof.
  intros Hg. rewrite insert_app_r_alt by lia. rewrite Nat.sub_diag, length_app, <- app_assoc. cbn [length]. f_equal.
  replace (slots - length g)%nat with (S (slots - (length g + 1))) by lia. done.
Qed.

Lemma indr_set_ok t p g v : f_pages t !! p = Some (INDR (g ++ replicate (slots - length g) NULL_FILE_ADDR)) -> Z.of_nat (length g) < c ->
  c < 2 ^ 64 -> indr_set_reference page_size p (Z.of_nat (length g) + 1) v t =
    Ok (with_page p (INDR ((g ++ [v]) ++ replicate (slots - length (g ++ [v])) NULL_FILE_ADDR)) t).
Proof.
  intros Hp Hg Hc. unfold indr_set_reference. rewrite Hp, indr_position by lia. rewrite decide_False by lia.
  replace (Z.of_nat (length g) + 1 - 1) with (Z.of_nat (length g)) by lia. unfold reference_at. rewrite Nat2Z.id.
  rewrite lookup_app_r, Nat.sub_diag, lookup_replicate_2 by lia. cbn [result_bind]. by rewrite leaf_insert.
Qed.

(** The place of a row, then the reference of the row there. *)
Definition inserted (place : result (table * Z * Z)) (reference : Z) : result table :=
  let! '(t, indr, position_oid) := place in indr_set_reference page_size indr position_oid reference t.

(** The tree at [off] has one more reference, after [n] allocations at most, and the
    pages [rest] are the same; [m] more pages can be allocated. *)
Definition grown (t : table) (place : result (table * Z * Z)) (L : nat) (off : Z) (f rest : list Z) (reference n : Z) (m : nat) : Prop :=
  exists t' fp', inserted place reference = Ok t' /\ alloc_wf m t' (fp' ++ rest) /\ rep (f_pages t') L off (f ++ [reference]) fp' /\
    same_header t t' /\ same_pages rest t t' /\ file_within t t' n.

Lemma grown_le t place L off f rest reference n n' m m' : grown t place L off f rest reference n m -> n <= n' -> (m' <= m)%nat ->
  grown t place L off f rest reference n' m'.
Proof.
  intros (t' & fp' & H1 & H2 & H3 & H4 & H5 & Hfile) Hn Hm. exists t', fp'. split; [done|]. split; [by eapply alloc_wf_le|]. do 3 (split; [done|]). by eapply file_within_le.
Qed.

Lemma rep_page pages L off f fp x p : rep pages L off f fp -> x ∉ fp -> rep (<[x := p]> pages) L off f fp.
Proof. intros Hrep Hx. eapply rep_frame; [exact Hrep|]. intros y Hy. apply lookup_insert_ne. by intros ->. Qed.

Lemma rep_same t t' L off f fp rest : rep (f_pages t) L off f fp -> same_pages rest t t' -> fp ⊆ rest -> rep (f_pages t') L off f fp.
Proof. intros Hrep Hs Hsub. eapply rep_frame; [exact Hrep|]. intros x Hx. by apply Hs, Hsub. Qed.

Lemma leaf_new pages L i v : c < 2 ^ 64 -> pages !! i = Some (INDR ([v] ++ replicate (slots - length [v]) NULL_FILE_ADDR)) -> rep pages L i [v] [i].
Proof. pose proof max_count_range. intros Hc Hi. destruct L; left; (split; [done|]; split; [cbn; lia|done]). Qed.

(** A new INDR page with the first reference. *)
Lemma new_leaf_ok t i v : f_pages t !! i = Some (fresh NEW_INDIRECT_INDEX) -> c < 2 ^ 64 ->
  indr_set_reference page_size i 1 v t = Ok (with_page i (INDR ([v] ++ replicate (slots - length [v]) NULL_FILE_ADDR)) t).
Proof.
  intros Hi Hc. pose proof max_count_range. apply (indr_set_ok t i [] v); [|cbn; lia|done]. rewrite Hi. cbn. by rewrite Nat.sub_0_r.
Qed.

Lemma two_slots (a b : Z) : <[1%nat := b]> (<[0%nat := a]> (no_references page_size)) = [a] ++ b :: replicate (slots - 1 - length [a]) NULL_FILE_ADDR.
Proof.
  pose proof max_count_range. unfold no_references. destruct slots as [|[|n]] eqn:E; [lia..|]. cbn. by rewrite !Nat.sub_0_r.
Qed.

Lemma one_slot (a : Z) : <[0%nat := a]> (no_references page_size) = [] ++ a :: replicate (slots - 1 - length (@nil Z)) NULL_FILE_ADDR.
Proof. pose proof max_count_range. unfold no_references. destruct slots as [|n] eqn:E; [lia|]. cbn. by rewrite !Nat.sub_0_r. Qed.

Lemma split_page_ok m L t top old f fpo rest reference : alloc_wf (S m) t (top :: fpo ++ rest) ->
  f_pages t !! top = Some (TIND (Z.of_nat (S L)) (no_references page_size)) -> rep (f_pages t) L old f fpo ->
  Z.of_nat (length f) = c ^ Z.of_nat (S L) -> Z.of_nat (length f) + 1 < 2 ^ 64 ->
  grown t (split_page page_size top (Z.of_nat (length f) + 1) old t) (S L) top f rest reference 1 m.
Proof.
  intros Hwf Htop Hold Hf Hcap. pose proof max_count_range as Hc. pose proof (rep_nonempty _ _ _ _ _ Hold) as [_ Hne].
  assert (c < 2 ^ 64) as Hc64.
  { rewrite Nat2Z.inj_succ, Z.pow_succ_r in Hf by lia. pose proof (Z.pow_pos_nonneg c (Z.of_nat L) ltac:(lia) ltac:(lia)). nia. }
  unfold grown, inserted, split_page. rewrite (wrap_small 64) by (unfold uword; lia). replace (Z.of_nat (length f) + 1 - 1) with (Z.of_nat (length f)) by lia.
  rewrite (tind_set_ok (S L) t top _ old _ Htop length_no_references) by (try lia; rewrite Z.div_small; lia).
  rewrite (Z.div_small (Z.of_nat (length f) - 1)) by lia. cbn [result_bind]. set (t1 := with_page top _ t).
  assert (alloc_wf (S m) t1 (top :: fpo ++ rest)) as Hwf1 by (apply alloc_wf_page; [done|by left]).
  destruct (allocate_new_block_ok NEW_INDIRECT_INDEX t1 _ Hwf1) as (t2 & i & E2 & Hwf2 & Hi & Hh2 & Hs2 & Hout).
  pose proof (allocate_new_block_within _ _ _ _ _ Hwf1 E2) as Hfile. rewrite E2. cbn [result_bind].
  assert (f_pages t2 !! top = Some (TIND (Z.of_nat (S L)) (<[0%nat := old]> (no_references page_size)))) as Htop2.
  { rewrite Hs2 by by left. apply lookup_insert_eq. }
  assert ((Z.of_nat (length f) + 1 - 1) / c ^ Z.of_nat (S L) = 1) as Ediv.
  { rewrite Hf. replace (c ^ Z.of_nat (S L) + 1 - 1) with (c ^ Z.of_nat (S L)) by lia. apply Z.div_same. lia. }
  rewrite (tind_set_ok (S L) t2 top _ i _ Htop2) by (rewrite ?length_insert, ?length_no_references; lia). rewrite Ediv.
  change (Z.to_nat 1) with 1%nat. change (Z.to_nat 0) with 0%nat. rewrite two_slots. cbn [result_bind].
  replace ((Z.of_nat (length f) + 1 - 1) mod c ^ Z.of_nat (S L) + 1) with 1 by (rewrite Hf, Z.add_simpl_r, Z.mod_same; lia).
  set (t3 := with_page top _ t2). pose proof (alloc_wf_nodup _ _ Hwf2) as Hnd.
  rewrite !NoDup_cons, !elem_of_cons, !elem_of_app in Hnd. destruct Hnd as (Hni & Hnt & Hnd).
  assert (top <> i) as Hti by (intros ->; tauto).
  assert (f_pages t3 !! i = Some (fresh NEW_INDIRECT_INDEX)) as Hi3 by (unfold t3; cbn; rewrite lookup_insert_ne by done; done).
  rewrite (new_leaf_ok t3 i reference Hi3 Hc64). cbn [result_bind]. set (t4 := with_page i _ t3). exists t4, (top :: fpo ++ [i]).
  assert (same_pages (fpo ++ rest) t t4) as Hs4.
  { eapply same_pages_trans; [apply (same_pages_page top (TIND (Z.of_nat (S L)) (<[0%nat := old]> (no_references page_size)))); rewrite elem_of_app; tauto|].
    eapply same_pages_trans; [eapply same_pages_sub; [exact Hs2|set_solver]|].
    eapply same_pages_trans; apply same_pages_page; rewrite elem_of_app; tauto. }
  split; [done|]. split; [|split; [|split]].
  - apply (alloc_wf_perm _ (i :: top :: fpo ++ rest)); [|cbn; rewrite <- app_assoc; cbn; by rewrite Permutation_swap, <- Permutation_middle].
    apply alloc_wf_page; [|by left]. apply alloc_wf_page; [done|by right; left].
  - right. exists [old], i, f, [reference], fpo, [i]. split; [|split; [cbn; lia|split; [|split; [|split; [|split; [|split; [done|done]]]]]]].
    + unfold t4, t3. cbn [with_page f_pages]. rewrite lookup_insert_ne by done. apply lookup_insert_eq.
    + rewrite <- (app_nil_r f), <- (app_nil_r fpo). constructor; [|done|constructor]. eapply rep_same; [exact Hold|exact Hs4|set_solver].
    + apply leaf_new; [done|]. apply lookup_insert_eq.
    + cbn. lia.
    + rewrite length_app. cbn. rewrite Nat2Z.inj_add, Hf. rewrite Nat2Z.inj_succ, Z.pow_succ_r by lia.
      pose proof (Z.pow_pos_nonneg c (Z.of_nat L) ltac:(lia) ltac:(lia)). nia.
  - done.
  - split; [eapply same_pages_sub; [exact Hs4|set_solver]|exact Hfile].
Qed.

Lemma rep_leaf_any pages L L' off f : rep pages L off f [off] -> Z.of_nat (length f) <= c -> rep pages L' off f [off].
Proof.
  intros Hrep Hf. destruct (rep_inv _ _ _ _ _ Hrep) as [H|(L1 & -> & offs & lo & f1 & f2 & fp1 & fp2 & _ & _ & _ & _ & _ & Hlt & _)]; [|lia].
  destruct L'; by left.
Qed.

(** The first page of a level, which has a single page below. *)
Lemma single_page pages L top lo f fpo : pages !! top = Some (TIND (Z.of_nat (S L)) (<[0%nat := lo]> (no_references page_size))) ->
  rep pages L lo f fpo -> c < Z.of_nat (length f) -> rep pages (S L) top f (top :: fpo).
Proof.
  intros Htop Hlo Hf. pose proof max_count_range. right. exists [], lo, [], f, [], fpo. rewrite one_slot in Htop.
  split; [done|]. split; [cbn; lia|]. split; [constructor|]. split; [done|]. split; [by apply rep_length in Hlo|]. done.
Qed.

Lemma set_block_level_ok t p l level refs : f_pages t !! p = Some (TIND l refs) -> set_block_level p level t = Ok (with_page p (TIND level refs) t).
Proof. intros Hp. unfold set_block_level. by rewrite Hp. Qed.

Lemma add_levels_ok m lvl t parent refs oid top l0 old f rest fuel reference :
  (1 <= lvl)%nat -> alloc_wf (lvl + m) t (top :: old :: parent :: rest) -> f_pages t !! top = Some (TIND l0 (no_references page_size)) ->
  f_pages t !! parent = Some (TIND (Z.of_nat (S lvl)) refs) -> length refs = slots -> rep (f_pages t) 0 old f [old] -> Z.of_nat (length f) = c ->
  c ^ Z.of_nat (S lvl) < 2 ^ 64 -> 1 <= oid < 2 ^ 64 -> (oid - 1) / c ^ Z.of_nat (S lvl) < c -> (oid - 1) mod c ^ Z.of_nat (S lvl) = c ->
  (lvl <= fuel)%nat ->
  exists t' fp', inserted (let! '(t, top) := add_levels page_size fuel parent (Z.of_nat (S lvl)) oid top t in split_page page_size top (c + 1) old t) reference = Ok t' /\
    alloc_wf m t' (fp' ++ parent :: rest) /\ rep (f_pages t') lvl top (f ++ [reference]) fp' /\
    f_pages t' !! parent = Some (TIND (Z.of_nat (S lvl)) (<[Z.to_nat ((oid - 1) / c ^ Z.of_nat (S lvl)) := top]> refs)) /\
    same_header t t' /\ same_pages rest t t' /\ file_within t t' (Z.of_nat lvl).
Proof.
  pose proof max_count_range as Hc. revert t parent refs oid top l0 rest fuel. induction lvl as [|lvl IH]; [lia|].
  intros t parent refs oid top l0 rest fuel _ Hwf Htop Hparent Hrefs Hold Hf Hcap Hoid Hq Hm Hfuel. destruct fuel as [|fuel]; [lia|]. cbn [add_levels].
  replace (Z.of_nat (S (S lvl)) - 1) with (Z.of_nat (S lvl)) by lia. rewrite (set_block_level_ok _ _ _ _ _ Htop). cbn [result_bind].
  pose proof (alloc_wf_nodup _ _ Hwf) as Hnd. rewrite !NoDup_cons, !elem_of_cons in Hnd. destruct Hnd as (Hn1 & Hn2 & Hn3 & _).
  assert (top <> parent) as Htp by tauto. assert (old <> parent) as Hop by tauto. assert (top <> old) as Hto by tauto.
  set (t1 := with_page top _ t). assert (f_pages t1 !! parent = f_pages t !! parent) as E1 by (unfold t1; cbn; by rewrite lookup_insert_ne).
  rewrite (tind_set_ok (S (S lvl)) t1 parent oid top refs) by (rewrite ?E1; done || lia). cbn [result_bind]. rewrite Hm.
  set (slot := Z.to_nat ((oid - 1) / c ^ Z.of_nat (S (S lvl)))). set (t2 := with_page parent _ t1).
  assert (f_pages t2 !! top = Some (TIND (Z.of_nat (S lvl)) (no_references page_size))) as Htop2.
  { unfold t2, t1. cbn. rewrite lookup_insert_ne by done. by rewrite lookup_insert_eq. }
  assert (rep (f_pages t2) 0 old f [old]) as Hold2.
  { apply rep_page; [|set_solver]. apply rep_page; [done|set_solver]. }
  assert (alloc_wf (S lvl + m) t2 (top :: old :: parent :: rest)) as Hwf2 by (apply alloc_wf_page; [apply alloc_wf_page; [done|set_solver]|set_solver]).
  assert (same_pages rest t t2) as Hs2 by (eapply same_pages_trans; apply same_pages_page; tauto).
  assert (f_pages t2 !! parent = Some (TIND (Z.of_nat (S (S lvl))) (<[slot := top]> refs))) as Hparent2 by apply lookup_insert_eq.
  destruct (decide (Z.of_nat (S lvl) <= 1)) as [Hlast|Hmore].
  - destruct lvl; [|lia]. cbn [result_bind].
    destruct (split_page_ok m 0 t2 top old f [old] (parent :: rest) reference) as (t' & fp' & Eins & Hwf' & Hrep' & Hh' & Hs' & Hfile); [done|done|done|cbn; lia|lia|].
    exists t', fp'. rewrite Hf in Eins. split; [done|]. split; [done|]. split; [done|]. split; [by rewrite Hs' by by left|]. split; [done|].
    split; [|exact Hfile]. eapply same_pages_trans; [done|]. eapply same_pages_sub; [done|set_solver].
  - destruct (allocate_new_block_ok NEW_TOP_INDIRECT_INDEX t2 _ Hwf2) as (t3 & top2 & E3 & Hwf3 & Htop3 & Hh3 & Hs3 & Hout).
    pose proof (allocate_new_block_within _ _ _ _ _ Hwf2 E3) as Hfile3. rewrite E3. cbn [result_bind].
    assert (0 < c ^ Z.of_nat lvl) by (apply Z.pow_pos_nonneg; lia).
    assert (c < c ^ Z.of_nat (S lvl)) as Hlt.
    { rewrite Nat2Z.inj_succ, Z.pow_succ_r by lia. assert (c ^ 1 <= c ^ Z.of_nat lvl) by (apply Z.pow_le_mono_r; lia). nia. }
    pose proof (cap_below _ Hcap) as Hcap'.
    destruct (IH t3 top (no_references page_size) (c + 1) top2 0 (parent :: rest) fuel) as (t' & fp' & Eins & Hwf' & Hrep' & Htop' & Hh' & Hs' & Hfile');
      try lia; try done.
    { eapply alloc_wf_perm; [exact Hwf3|]. apply perm_skip, Permutation_swap. }
    { by rewrite Hs3 by by left. }
    { apply length_no_references. }
    { eapply rep_same; [exact Hold2|exact Hs3|set_solver]. }
    { rewrite Z.add_simpl_r, Z.div_small by lia. lia. }
    { rewrite Z.add_simpl_r, Z.mod_small by lia. done. }
    exists t', (top :: fp'). rewrite Z.add_simpl_r, Z.div_small in Htop' by lia. split; [exact Eins|]. split; [|split; [|split; [|split]]].
    + eapply alloc_wf_perm; [exact Hwf'|]. cbn. by rewrite <- Permutation_middle.
    + apply (single_page _ _ _ top2); [exact Htop'|done|]. rewrite length_app. cbn. lia.
    + rewrite Hs' by by left. rewrite Hs3 by set_solver. exact Hparent2.
    + exact (same_header_trans t t3 t' Hh3 Hh').
    + split; [|eapply file_within_le; [eapply file_within_trans; [exact Hfile3|exact Hfile']|lia]].
      eapply same_pages_trans; [exact Hs2|]. eapply same_pages_trans; [eapply same_pages_sub; [exact Hs3|set_solver]|]. eapply same_pages_sub; [exact Hs'|set_solver].
Qed.

(** The contents of a TIND page of level [S L]. *)
Definition tind_node (pages : gmap Z page) (L : nat) (off : Z) (offs : list Z) (lo : Z) (f1 f2 fp1 fp2 : list Z) : Prop :=
  pages !! off = Some (TIND (Z.of_nat (S L)) (offs ++ lo :: replicate (slots - 1 - length offs) NULL_FILE_ADDR)) /\
  (length offs < slots)%nat /\ kids (rep pages L) (c ^ Z.of_nat (S L)) offs f1 fp1 /\ rep pages L lo f2 fp2 /\
  Z.of_nat (length f2) <= c ^ Z.of_nat (S L) /\ c < Z.of_nat (length (f1 ++ f2)).

Lemma node_rep pages L off offs lo f1 f2 fp1 fp2 : tind_node pages L off offs lo f1 f2 fp1 fp2 -> rep pages (S L) off (f1 ++ f2) (off :: fp1 ++ fp2).
Proof. intros (? & ? & ? & ? & ? & ?). right. exists offs, lo, f1, f2, fp1, fp2. by split_and!. Qed.

(** The position of the next row. *)
Lemma node_next pages L off offs lo f1 f2 fp1 fp2 : tind_node pages L off offs lo f1 f2 fp1 fp2 ->
  let n := Z.of_nat (length (f1 ++ f2)) in let p := c ^ Z.of_nat (S L) in
  0 < p /\ 1 <= Z.of_nat (length f2) <= p /\ n = Z.of_nat (length offs) * p + Z.of_nat (length f2) /\
  (Z.of_nat (length f2) < p -> n / p = Z.of_nat (length offs) /\ n mod p = Z.of_nat (length f2)) /\
  (Z.of_nat (length f2) = p -> n / p = Z.of_nat (length offs) + 1 /\ n mod p = 0).
Proof.
  intros (_ & Ho & Hk & Hlo & Hf2 & _). cbv zeta. pose proof max_count_range. assert (0 < c ^ Z.of_nat (S L)) by (apply Z.pow_pos_nonneg; lia).
  pose proof (rep_nonempty _ _ _ _ _ Hlo) as [_ Hne]. pose proof (kids_length _ _ _ _ _ Hk) as Hf1. rewrite length_app, Nat2Z.inj_add, Hf1.
  set (p := c ^ Z.of_nat (S L)) in *. split_and!; [done|done|done|done| |].
  - intros Hlt. rewrite (Z.add_comm (_ * p)), Z.div_add, Z.mod_add, Z.div_small, Z.mod_small by lia. lia.
  - intros ->. replace (Z.of_nat (length offs) * p + p) with ((Z.of_nat (length offs) + 1) * p) by ring. by rewrite Z.div_mul, Z.mod_mul by lia.
Qed.

(** The last page below is now [lo'], with one reference more. *)
Lemma node_last t t' L off offs lo lo' f1 f2 fp1 fp2 fp2' reference : tind_node (f_pages t) L off offs lo f1 f2 fp1 fp2 ->
  f_pages t' !! off = Some (TIND (Z.of_nat (S L)) (offs ++ lo' :: replicate (slots - 1 - length offs) NULL_FILE_ADDR)) ->
  same_pages fp1 t t' -> rep (f_pages t') L lo' (f2 ++ [reference]) fp2' -> Z.of_nat (length f2) < c ^ Z.of_nat (S L) ->
  rep (f_pages t') (S L) off ((f1 ++ f2) ++ [reference]) (off :: fp1 ++ fp2').
Proof.
  intros (_ & Ho & Hk & _ & _ & Hf) Hoff Hs Hlo' Hf2. rewrite <- app_assoc. apply (node_rep _ _ _ offs lo'). split_and!; [done|done| |done| |].
  - eapply kids_impl; [exact Hk|]. intros o g fpo Hsub Hr. by eapply rep_same.
  - rewrite length_app. cbn. lia.
  - rewrite app_assoc, length_app. lia.
Qed.

Lemma last_slot (offs : list Z) a b n : <[length offs := b]> (offs ++ a :: replicate n NULL_FILE_ADDR) = offs ++ b :: replicate n NULL_FILE_ADDR.
Proof. rewrite insert_app_r_alt, Nat.sub_diag by lia. done. Qed.

Lemma next_slot (offs : list Z) a b : (length offs + 1 < slots)%nat ->
  <[(length offs + 1)%nat := b]> (offs ++ a :: replicate (slots - 1 - length offs) NULL_FILE_ADDR) =
    (offs ++ [a]) ++ b :: replicate (slots - 1 - length (offs ++ [a])) NULL_FILE_ADDR.
Proof.
  intros H. rewrite insert_app_r_alt by lia. replace (length offs + 1 - length offs)%nat with 1%nat by lia. rewrite length_app, <- app_assoc. cbn [length].
  replace (slots - 1 - length offs)%nat with (S (slots - 1 - (length offs + 1))) by lia. done.
Qed.

Lemma node_refs_length offs (lo : Z) : (length offs < slots)%nat -> length (offs ++ lo :: replicate (slots - 1 - length offs) NULL_FILE_ADDR) = slots.
Proof. intros H. rewrite length_app. cbn [length]. rewrite length_replicate. lia. Qed.

(** The pages below are full: a new one is added. *)
Lemma node_add_leaf m t L off offs lo f1 f2 fp1 fp2 rest reference : tind_node (f_pages t) L off offs lo f1 f2 fp1 fp2 ->
  alloc_wf (S m) t ((off :: fp1 ++ fp2) ++ rest) -> c ^ Z.of_nat (S L) < 2 ^ 64 -> Z.of_nat (length (f1 ++ f2)) + 1 < 2 ^ 64 ->
  Z.of_nat (length f2) = c ^ Z.of_nat (S L) -> Z.of_nat (length (f1 ++ f2)) < c ^ Z.of_nat (S (S L)) ->
  grown t (let! '(t, indr) := allocate_new_block page_size NEW_INDIRECT_INDEX t in
           let! '(t, id) := tind_set_reference page_size off (Z.of_nat (length (f1 ++ f2)) + 1) indr t in Ok (t, indr, id))
    (S L) off (f1 ++ f2) rest reference 1 m.
Proof.
  intros Hn Hwf Hcap Hlen Hfull Hcount. pose proof max_count_range as Hc. destruct (node_next _ _ _ _ _ _ _ _ _ Hn) as (Hp & Hne & En & _ & Hnext).
  destruct (Hnext Hfull) as [Ediv Emod]. pose proof Hn as (Hoff & Ho & Hk & Hlo & Hf2 & Hf).
  assert (c <= c ^ Z.of_nat (S L)) as Hcp.
  { rewrite Nat2Z.inj_succ, Z.pow_succ_r by lia. pose proof (Z.pow_pos_nonneg c (Z.of_nat L) ltac:(lia) ltac:(lia)). nia. }
  assert (Z.of_nat (length offs) + 1 < c) as Hlast.
  { rewrite (Nat2Z.inj_succ (S L)), Z.pow_succ_r in Hcount by lia. nia. }
  unfold grown, inserted. destruct (allocate_new_block_ok NEW_INDIRECT_INDEX t _ Hwf) as (t1 & i & E & Hwf1 & Hi & Hh1 & Hs1 & Hout).
  pose proof (allocate_new_block_within _ _ _ _ _ Hwf E) as Hfile. rewrite E. cbn [result_bind].
  assert (f_pages t1 !! off = f_pages t !! off) as E1 by (apply Hs1; set_solver).
  rewrite (tind_set_ok (S L) t1 off _ i _ ltac:(rewrite E1; exact Hoff)) by (rewrite ?node_refs_length, ?Z.add_simpl_r; lia).
  rewrite Z.add_simpl_r, Ediv, Emod. cbn [result_bind]. replace (Z.to_nat (Z.of_nat (length offs) + 1)) with (length offs + 1)%nat by lia.
  rewrite next_slot by lia. change (0 + 1) with 1. set (t2 := with_page off _ t1).
  assert (off <> i) as Hoi by (intros ->; set_solver). pose proof (alloc_wf_nodup _ _ Hwf1) as Hnd. cbn [app] in Hnd.
  rewrite !NoDup_cons in Hnd. destruct Hnd as (_ & Hno & _).
  assert (f_pages t2 !! i = Some (fresh NEW_INDIRECT_INDEX)) as Hi2 by (unfold t2; cbn; by rewrite lookup_insert_ne).
  rewrite (new_leaf_ok t2 i reference Hi2) by lia. set (t3 := with_page i _ t2).
  assert (same_pages (fp1 ++ fp2 ++ rest) t t3) as Hs3.
  { eapply same_pages_trans; [eapply same_pages_sub; [exact Hs1|set_solver]|]. eapply same_pages_trans; apply same_pages_page; set_solver. }
  exists t3, (off :: (fp1 ++ fp2) ++ [i]). split; [done|]. split; [|split; [|split; [done|split; [eapply same_pages_sub; [exact Hs3|set_solver]|exact Hfile]]]].
  - apply (alloc_wf_perm _ (i :: off :: (fp1 ++ fp2) ++ rest)).
    + apply alloc_wf_page; [|by left]. apply alloc_wf_page; [exact Hwf1|by right; left].
    + cbn. rewrite <- !app_assoc. cbn. rewrite Permutation_swap. apply perm_skip. rewrite !(app_assoc fp1). apply Permutation_middle.
  - apply (node_rep _ _ _ (offs ++ [lo]) i). split_and!.
    + unfold t3, t2. cbn [with_page f_pages]. rewrite lookup_insert_ne by done. apply lookup_insert_eq.
    + rewrite length_app. cbn. lia.
    + apply kids_snoc; [|eapply rep_same; [exact Hlo|exact Hs3|set_solver]|done].
      eapply kids_impl; [exact Hk|]. intros o g fpo Hsub Hr. eapply rep_same; [exact Hr|exact Hs3|set_solver].
    + apply leaf_new; [lia|]. apply lookup_insert_eq.
    + cbn. lia.
    + rewrite length_app. lia.
Qed.

(** The last page below is an INDR page that is not full. *)
Lemma leaf_room_ok m t L off f rest reference : alloc_wf m t (off :: rest) -> c < 2 ^ 64 ->
  f_pages t !! off = Some (INDR (f ++ replicate (slots - length f) NULL_FILE_ADDR)) -> Z.of_nat (length f) < c ->
  exists t', indr_set_reference page_size off (Z.of_nat (length f) + 1) reference t = Ok t' /\ alloc_wf m t' (off :: rest) /\
    rep (f_pages t') L off (f ++ [reference]) [off] /\ same_header t t' /\ same_pages rest t t' /\ file_within t t' 0.
Proof.
  intros Hwf Hc Hoff Hf. rewrite (indr_set_ok t off f reference Hoff Hf Hc). eexists. split; [done|]. split; [apply alloc_wf_page; [done|by left]|].
  split; [|split; [done|]].
  - assert (Z.of_nat (length (f ++ [reference])) <= c) by (rewrite length_app; cbn; lia).
    destruct L; left; (split; [apply lookup_insert_eq|]; split; [rewrite length_app in *; cbn in *; lia|done]).
  - split; [|unfold file_within; cbn; lia]. apply same_pages_page. pose proof (alloc_wf_nodup _ _ Hwf) as Hnd. by apply NoDup_cons in Hnd as [? _].
Qed.

(** It is full: TIND pages down to it, and a new INDR page next to it. *)
Lemma full_indr_ok m t L off offs lo f1 f2 fp1 rest reference : tind_node (f_pages t) L off offs lo f1 f2 fp1 [lo] ->
  alloc_wf (S L + m) t ((off :: fp1 ++ [lo]) ++ rest) -> c ^ Z.of_nat (S L) < 2 ^ 64 -> Z.of_nat (length (f1 ++ f2)) + 1 < 2 ^ 64 ->
  Z.of_nat (length f2) = c -> Z.of_nat (length f2) < c ^ Z.of_nat (S L) ->
  grown t (full_indr page_size lo (c + 1) (Some off) (Z.of_nat (length (f1 ++ f2)) + 1) t) (S L) off (f1 ++ f2) rest reference (Z.of_nat (S L)) m.
Proof.
  intros Hn Hwf Hcap Hlen Hfull Hroom. pose proof max_count_range as Hc. destruct (node_next _ _ _ _ _ _ _ _ _ Hn) as (Hp & Hne & En & Hnext & _).
  destruct (Hnext Hroom) as [Ediv Emod]. pose proof Hn as (Hoff & Ho & Hk & Hlo & _ & _).
  assert (1 <= L)%nat as HL by (destruct L; [cbn in Hroom; lia|lia]).
  unfold grown, inserted, full_indr. destruct (allocate_new_block_ok NEW_TOP_INDIRECT_INDEX t _ Hwf) as (t1 & top & E & Hwf1 & Htop & Hh1 & Hs1 & Hout).
  pose proof (allocate_new_block_within _ _ _ _ _ Hwf E) as Hfile1. rewrite E. clear E. cbn [result_bind]. assert (f_pages t1 !! off = f_pages t !! off) as E1 by (apply Hs1; set_solver). rewrite E1, Hoff, decide_False by lia.
  assert (alloc_wf (L + m) t1 (top :: lo :: off :: fp1 ++ rest)) as Hwf1'.
  { eapply alloc_wf_perm; [exact Hwf1|]. apply perm_skip. cbn. rewrite <- app_assoc. cbn. rewrite <- Permutation_middle. apply Permutation_swap. }
  assert (rep (f_pages t1) 0 lo f2 [lo]) as Hlo1.
  { apply (rep_leaf_any _ L); [|lia]. eapply rep_same; [exact Hlo|exact Hs1|set_solver]. }
  destruct (add_levels_ok m L t1 off _ (Z.of_nat (length (f1 ++ f2)) + 1) top 0 lo f2 (fp1 ++ rest) (Z.to_nat (Z.of_nat (S L))) reference HL Hwf1' Htop
    ltac:(rewrite E1; exact Hoff) (node_refs_length offs lo Ho) Hlo1 Hfull Hcap ltac:(lia)) as (t' & fp' & Eins & Hwf' & Hrep' & Hoff' & Hh' & Hs' & Hfile').
  { rewrite Z.add_simpl_r, Ediv. lia. }
  { by rewrite Z.add_simpl_r, Emod. }
  { lia. }
  rewrite Z.add_simpl_r, Ediv, Nat2Z.id, last_slot in Hoff'. exists t', (off :: fp1 ++ fp'). split; [|split; [|split; [|split]]].
  - unfold inserted in Eins. destruct (add_levels _ _ _ _ _ _ _) as [[t2 top2]|]; [|done]. exact Eins.
  - eapply alloc_wf_perm; [exact Hwf'|]. cbn. rewrite <- app_assoc, <- Permutation_middle. apply perm_skip. rewrite !app_assoc. apply Permutation_app_tail, Permutation_app_comm.
  - apply (node_last t t' L off offs lo top f1 f2 fp1 [lo] fp' reference Hn); [exact Hoff'| |exact Hrep'|done].
    eapply same_pages_trans; [eapply same_pages_sub; [exact Hs1|set_solver]|eapply same_pages_sub; [exact Hs'|set_solver]].
  - by eapply same_header_trans.
  - split; [|eapply file_within_le; [eapply file_within_trans; [exact Hfile1|exact Hfile']|lia]].
    eapply same_pages_trans; [eapply same_pages_sub; [exact Hs1|set_solver]|eapply same_pages_sub; [exact Hs'|set_solver]].
Qed.

(** The row after those of a TIND page that is not full. *)
Lemma find_place_ok m L t off offs lo f1 f2 fp1 fp2 rest parent parent_oid fuel reference : tind_node (f_pages t) L off offs lo f1 f2 fp1 fp2 ->
  alloc_wf (S L + m) t ((off :: fp1 ++ fp2) ++ rest) -> c ^ Z.of_nat (S L) < 2 ^ 64 -> Z.of_nat (length (f1 ++ f2)) + 1 < 2 ^ 64 ->
  Z.of_nat (length (f1 ++ f2)) < c ^ Z.of_nat (S (S L)) -> (S L < fuel)%nat ->
  grown t (find_place page_size fuel false off (Z.of_nat (length (f1 ++ f2)) + 1) parent parent_oid t) (S L) off (f1 ++ f2) rest reference (Z.of_nat (S L)) m.
Proof.
  pose proof max_count_range as Hc. revert m t off offs lo f1 f2 fp1 fp2 rest parent parent_oid fuel. induction L as [L IH] using lt_wf_ind.
  intros m t off offs lo f1 f2 fp1 fp2 rest parent parent_oid fuel Hn Hwf Hcap Hlen Hcount Hfuel. destruct fuel as [|fuel]; [lia|].
  destruct (node_next _ _ _ _ _ _ _ _ _ Hn) as (Hp & Hne & En & Hnext & Hnext'). pose proof Hn as (Hoff & Ho & Hk & Hlo & Hf2 & Hf).
  pose proof (alloc_wf_used _ _ off Hwf ltac:(set_solver)) as [Hroff _]. cbn [find_place]. rewrite (get_block_used t off _ Hoff Hroff). cbn [result_bind].
  unfold tind_get_reference. rewrite tind_position by lia. cbn [result_bind]. rewrite !Z.add_simpl_r.
  assert (Z.of_nat (length (f1 ++ f2)) / c ^ Z.of_nat (S L) < c) as Hq.
  { apply Z.div_lt_upper_bound; [lia|]. rewrite (Nat2Z.inj_succ (S L)), Z.pow_succ_r in Hcount by lia. lia. }
  rewrite decide_False by lia. unfold reference_at. destruct (decide (Z.of_nat (length f2) = c ^ Z.of_nat (S L))) as [Hfull|Hroom].
  { destruct (Hnext' Hfull) as [Ediv Emod]. rewrite Ediv in Hq |- *. rewrite lookup_app_r by lia.
    replace (Z.to_nat (Z.of_nat (length offs) + 1) - length offs)%nat with 1%nat by lia. change ((lo :: ?l) !! 1%nat) with (l !! 0%nat).
    rewrite lookup_replicate_2 by lia. cbn [result_bind]. rewrite decide_True by done. eapply (grown_le _ _ _ _ _ _ _ 1 _ (L + m)); [by apply (node_add_leaf _ t L off offs lo f1 f2 fp1 fp2)|lia|lia]. }
  destruct (Hnext ltac:(lia)) as [Ediv Emod]. rewrite Ediv, Emod, Nat2Z.id. rewrite lookup_app_r, Nat.sub_diag by lia. cbn [lookup list_lookup result_bind].
  pose proof (rep_nonempty _ _ _ _ _ Hlo) as [Hin _]. pose proof (alloc_wf_used _ _ lo Hwf ltac:(set_solver)) as [Hrlo _].
  rewrite !decide_False by (unfold NULL_FILE_ADDR, MISSING_FILE_ADDR; lia).
  assert (forall place n k, grown t place L lo f2 (off :: fp1 ++ rest) reference n k -> grown t place (S L) off (f1 ++ f2) rest reference n k) as Hup.
  { intros place n k (t' & fp' & Eins & Hwf' & Hrep' & Hh' & Hs' & Hfile'). exists t', (off :: fp1 ++ fp'). split; [done|]. split; [|split; [|split; [done|]]].
    - eapply alloc_wf_perm; [exact Hwf'|]. cbn. rewrite <- app_assoc, <- Permutation_middle. apply perm_skip. rewrite !app_assoc. apply Permutation_app_tail, Permutation_app_comm.
    - apply (node_last t t' L off offs lo lo f1 f2 fp1 fp2 fp' reference Hn); [|eapply same_pages_sub; [exact Hs'|set_solver]|done|lia].
      rewrite Hs' by by left. exact Hoff.
    - split; [eapply same_pages_sub; [exact Hs'|set_solver]|done]. }
  destruct fuel as [|fuel]; [lia|]. pose proof (cap_below _ Hcap) as Hcap'.
  assert (alloc_wf (S L + m) t (fp2 ++ (off :: fp1 ++ rest))) as Hwf2.
  { eapply alloc_wf_perm; [exact Hwf|]. cbn. rewrite <- (app_assoc fp1), <- Permutation_middle. apply perm_skip. rewrite !app_assoc. apply Permutation_app_tail, Permutation_app_comm. }
  destruct (rep_inv _ _ _ _ _ Hlo) as [(Hlop & Hlof & ->)|(L' & -> & offs' & lo' & g1 & g2 & gp1 & gp2 & Hlop & Ho' & Hk' & Hlo' & Hg2 & Hg & -> & ->)].
  - cbn [find_place]. rewrite (get_block_used t lo _ Hlop Hrlo). cbn [result_bind]. destruct (decide (Z.of_nat (length f2) + 1 > c)) as [Hover|Hleft].
    + replace (Z.of_nat (length f2) + 1) with (c + 1) by lia. apply (full_indr_ok m t L off offs lo f1 f2 fp1); try done; lia.
    + eapply (grown_le _ _ _ _ _ _ _ 0 _ (S L + m)); [|lia|lia]. apply Hup. assert (c < 2 ^ 64) as Hc64.
      { eapply Z.le_lt_trans; [|exact Hcap]. rewrite Nat2Z.inj_succ, Z.pow_succ_r by lia. pose proof (Z.pow_pos_nonneg c (Z.of_nat L) ltac:(lia) ltac:(lia)). nia. }
      destruct (leaf_room_ok _ t L lo f2 (off :: fp1 ++ rest) reference Hwf2 Hc64 Hlop ltac:(lia)) as (t' & E & Hwf' & Hrep' & Hh' & Hs' & Hfile').
      exists t', [lo]. unfold inserted. cbn [result_bind]. by split_and!.
  - eapply (grown_le _ _ _ _ _ _ _ (Z.of_nat (S L')) _ (S m)); [|lia|lia]. apply Hup. apply (IH L' ltac:(lia) (S m) t lo offs' lo' g1 g2 gp1 gp2); [by split_and!|eapply alloc_wf_le; [exact Hwf2|lia]|done| |lia|lia].
    rewrite length_app in Hlen |- *. rewrite length_app in Hlen. lia.
Qed.

(** ** The table *)

Context (page_small : page_size < 2 ^ 64).

Lemma max_count_small : c < 2 ^ 64.
Proof. rewrite max_count_value. apply Z.div_lt_upper_bound; lia. Qed.

(** The levels are those that are needed.  The pages [rest] have another use. *)
Definition tree_rep (n : nat) (t : table) (f rest : list Z) : Prop :=
  if decide (f = []) then indirect_index t = NULL_FILE_ADDR /\ alloc_wf n t rest
  else exists L fp, rep (f_pages t) L (indirect_index t) f fp /\ alloc_wf n t (fp ++ rest) /\ (L = 0%nat \/ c ^ Z.of_nat L < Z.of_nat (length f)).

(** The rows of a table have the references [f], in the order of their numbers; [n]
    more pages can be allocated. *)
Record table_rep (n : nat) (t : table) (f rest : list Z) : Prop := {
  tr_last : last_oid t = Z.of_nat (length f) + 1;
  tr_free : first_free_oid t = NULL_OID;
  tr_tree : tree_rep n t f rest;
}.

Lemma levels_bound L n : c ^ Z.of_nat L < n -> n < 2 ^ 64 -> (L < 64)%nat.
Proof.
  intros H Hn. pose proof max_count_range. destruct (decide (L < 64)%nat); [done|]. exfalso.
  assert (2 ^ 64 <= 2 ^ Z.of_nat L) by (apply Z.pow_le_mono_r; lia). assert (2 ^ Z.of_nat L <= c ^ Z.of_nat L) by (apply Z.pow_le_mono_l; lia). lia.
Qed.

Definition same_counters (t t' : table) : Prop :=
  last_oid t' = last_oid t /\ first_free_oid t' = first_free_oid t /\ blobs_with_free_space t' = blobs_with_free_space t /\
  f_sparse_file t' = f_sparse_file t.

(** What an insertion does to a table, but for the number of the row. *)
Definition inserts (m : nat) (t : table) (f rest : list Z) (reference : Z) : Prop :=
  exists t' L fp, inserted (insert_place page_size (Z.of_nat (length f) + 1) false t) reference = Ok t' /\
    rep (f_pages t') L (indirect_index t') (f ++ [reference]) fp /\ alloc_wf m t' (fp ++ rest) /\ (L = 0%nat \/ c ^ Z.of_nat L < Z.of_nat (length f) + 1) /\
    same_counters t t' /\ same_pages rest t t' /\ file_within t t' 65.

Lemma insert_first m t rest reference : indirect_index t = NULL_FILE_ADDR -> alloc_wf (S m) t rest -> inserts m t [] rest reference.
Proof.
  intros Hroot Hwf. unfold inserts, inserted, insert_place. change (Z.of_nat (length (@nil Z)) + 1) with 1.
  rewrite decide_True by done. rewrite decide_False by lia. destruct (allocate_new_block_ok NEW_INDIRECT_INDEX t rest Hwf) as (t1 & i & E & Hwf1 & Hi & (Hh1 & Hh2 & Hh3 & Hh4 & Hh5) & Hs1 & Hout).
  pose proof (allocate_new_block_within _ _ _ _ _ Hwf E) as Hfile. rewrite E. cbn [result_bind]. rewrite (new_leaf_ok (set_indirect_index i t1) i reference Hi max_count_small). eexists _, 0%nat, [i]. split; [done|].
  split; [apply leaf_new; [apply max_count_small|apply lookup_insert_eq]|]. split; [|split; [by left|split; [by split_and!|]]].
  - apply alloc_wf_page; [|by left]. destruct Hwf1 as [Hfree Hsize]. by split.
  - split; [|eapply (file_within_le _ _ 1); [exact Hfile|lia]]. eapply same_pages_trans; [exact Hs1|]. by apply (same_pages_page i _ (set_indirect_index i t1)).
Qed.

(** A new top page over a tree that is full. *)
Lemma insert_over m t t1 L top f fp rest reference : alloc_wf (S m) t1 (top :: fp ++ rest) -> f_pages t1 !! top = Some (TIND (Z.of_nat (S L)) (no_references page_size)) ->
  rep (f_pages t1) L (indirect_index t) f fp -> Z.of_nat (length f) = c ^ Z.of_nat (S L) -> Z.of_nat (length f) + 1 < 2 ^ 64 ->
  indirect_index t1 = top -> same_counters t t1 -> same_pages rest t t1 -> file_within t t1 1 ->
  insert_place page_size (Z.of_nat (length f) + 1) false t = split_page page_size top (Z.of_nat (length f) + 1) (indirect_index t) t1 ->
  inserts m t f rest reference.
Proof.
  intros Hwf Htop Hrep Hf Hlen Hroot (Hc1 & Hc2 & Hc3 & Hc4) Hs Hfile E. unfold inserts. rewrite E.
  destruct (split_page_ok m L t1 top (indirect_index t) f fp rest reference) as (t' & fp' & Eins & Hwf' & Hrep' & (H1 & H2 & H3 & H4 & H5) & Hs' & Hfile'); try done.
  exists t', (S L), fp'. split; [done|]. rewrite H1, Hroot. split; [done|]. split; [done|]. split; [right; lia|].
  split; [split_and!; congruence|]. split; [by eapply same_pages_trans|]. eapply file_within_le; [by eapply file_within_trans|lia].
Qed.

Lemma find_place_leaf t root oid f : f_pages t !! root = Some (INDR f) -> page_size <= root < file_size t ->
  find_place page_size LEVELS false root oid None oid t =
    if decide (oid > c) then full_indr page_size root oid None oid t else Ok (t, root, oid).
Proof. intros Hp Hr. unfold LEVELS. cbn [find_place]. by rewrite (get_block_used t _ _ Hp Hr). Qed.

(** A new top page of level [S L]. *)
Lemma new_top_ok m L t fp f rest : alloc_wf (S m) t (fp ++ rest) -> rep (f_pages t) L (indirect_index t) f fp ->
  exists t1 top, allocate_new_block page_size NEW_TOP_INDIRECT_INDEX t = Ok (t1, top) /\
    set_block_level top (Z.of_nat (S L)) t1 = Ok (with_page top (TIND (Z.of_nat (S L)) (no_references page_size)) t1) /\
    let t2 := set_indirect_index top (with_page top (TIND (Z.of_nat (S L)) (no_references page_size)) t1) in
    alloc_wf m t2 (top :: fp ++ rest) /\ f_pages t2 !! top = Some (TIND (Z.of_nat (S L)) (no_references page_size)) /\
    rep (f_pages t2) L (indirect_index t) f fp /\ same_counters t t2 /\ same_pages rest t t2 /\ file_within t t2 1.
Proof.
  intros Hwf Hrep. destruct (allocate_new_block_ok NEW_TOP_INDIRECT_INDEX t _ Hwf) as (t1 & top & E1 & Hwf1 & Htop & (H1 & H2 & H3 & H4 & H5) & Hs1 & Hout).
  pose proof (allocate_new_block_within _ _ _ _ _ Hwf E1) as Hfile. exists t1, top. split; [done|]. split; [by apply (set_block_level_ok _ _ 0)|]. cbv zeta. rewrite elem_of_app in Hout.
  assert (alloc_wf m (with_page top (TIND (Z.of_nat (S L)) (no_references page_size)) t1) (top :: fp ++ rest)) as [Hx Hy] by (apply alloc_wf_page; [done|by left]).
  split; [by split|]. split; [apply lookup_insert_eq|]. split.
  - apply rep_page; [|tauto]. eapply rep_same; [exact Hrep|exact Hs1|set_solver].
  - split; [by split_and!|]. split; [|exact Hfile]. eapply same_pages_trans; [eapply same_pages_sub; [exact Hs1|set_solver]|]. apply (same_pages_page top _ t1). tauto.
Qed.

Lemma insert_in_leaf m t L f fp rest reference : alloc_wf (65 + m) t (fp ++ rest) -> rep (f_pages t) L (indirect_index t) f fp -> Z.of_nat (length f) <= c ->
  f_pages t !! indirect_index t = Some (INDR (f ++ replicate (slots - length f) NULL_FILE_ADDR)) -> fp = [indirect_index t] ->
  insert_place page_size (Z.of_nat (length f) + 1) false t =
    find_place page_size LEVELS false (indirect_index t) (Z.of_nat (length f) + 1) None (Z.of_nat (length f) + 1) t ->
  Z.of_nat (length f) + 1 < 2 ^ 64 -> inserts m t f rest reference.
Proof.
  intros Hwf Hrep Hf Hp -> Eplace Hlen. pose proof max_count_small as Hc64. pose proof (alloc_wf_used _ _ _ Hwf ltac:(by left)) as [Hroot _].
  rewrite (find_place_leaf t _ _ _ Hp Hroot) in Eplace. destruct (decide (Z.of_nat (length f) + 1 > c)) as [Hover|Hleft].
  - destruct (new_top_ok _ 0 t [indirect_index t] f rest Hwf ltac:(by apply (rep_leaf_any _ L))) as (t1 & top & E1 & E2 & Hwf2 & Htop2 & Hrep2 & H1 & H2 & H3).
    eapply (insert_over m t _ 0 top f [indirect_index t]); [eapply alloc_wf_le; [exact Hwf2|lia]|done|done|cbn; lia|done|done|done|done|done|].
    rewrite Eplace. unfold full_indr. rewrite E1. cbn [result_bind]. change (set_block_level top 1 t1) with (set_block_level top (Z.of_nat 1) t1). by rewrite E2.
  - unfold inserts. rewrite Eplace. unfold inserted. cbn [result_bind].
    destruct (leaf_room_ok _ t 0 (indirect_index t) f rest reference Hwf Hc64 Hp ltac:(lia)) as (t' & E & Hwf' & Hrep' & (H1 & H2) & Hs' & Hfile).
    exists t', 0%nat, [indirect_index t]. rewrite H1. split_and!; try done; [eapply alloc_wf_le; [exact Hwf'|lia]|by left|apply H2..|eapply file_within_le; [exact Hfile|lia]].
Qed.

Lemma insert_in_node m t L offs lo f1 f2 fp1 fp2 rest reference : tind_node (f_pages t) L (indirect_index t) offs lo f1 f2 fp1 fp2 ->
  alloc_wf (65 + m) t ((indirect_index t :: fp1 ++ fp2) ++ rest) -> c ^ Z.of_nat (S L) < Z.of_nat (length (f1 ++ f2)) -> Z.of_nat (length (f1 ++ f2)) + 1 < 2 ^ 64 ->
  insert_place page_size (Z.of_nat (length (f1 ++ f2)) + 1) false t =
    find_place page_size LEVELS false (indirect_index t) (Z.of_nat (length (f1 ++ f2)) + 1) None (Z.of_nat (length (f1 ++ f2)) + 1) t ->
  inserts m t (f1 ++ f2) rest reference.
Proof.
  intros Hn Hwf HL Hlen Eplace. pose proof max_count_range as Hc. pose proof (levels_bound (S L) _ HL ltac:(lia)) as HL64.
  pose proof (alloc_wf_used _ _ _ Hwf ltac:(by left)) as [Hroot _]. pose proof (node_rep _ _ _ _ _ _ _ _ _ Hn) as Hrep.
  pose proof (rep_length _ _ _ _ _ Hrep) as Hmax. destruct (decide (Z.of_nat (length (f1 ++ f2)) < c ^ Z.of_nat (S (S L)))) as [Hroom|Hfull].
  - unfold inserts. rewrite Eplace.
    destruct (find_place_ok m L t (indirect_index t) offs lo f1 f2 fp1 fp2 rest None (Z.of_nat (length (f1 ++ f2)) + 1) LEVELS reference)
      as (t' & fp' & Eins & Hwf' & Hrep' & (H1 & H2) & Hs' & Hfile); [done|eapply alloc_wf_le; [exact Hwf|lia]|lia|done|done|unfold LEVELS; lia|].
    exists t', (S L), fp'. rewrite H1. split_and!; try done; [right; lia|apply H2..|eapply file_within_le; [exact Hfile|lia]].
  - assert (Z.of_nat (length (f1 ++ f2)) = c ^ Z.of_nat (S (S L))) as Ef by lia.
    destruct (new_top_ok _ (S L) t _ _ rest Hwf Hrep) as (t1 & top & E1 & E2 & Hwf2 & Htop2 & Hrep2 & H1 & H2 & H3).
    eapply (insert_over m t _ (S L) top); [eapply alloc_wf_le; [exact Hwf2|lia]|done|done|done|done|done|done|done|done|].
    rewrite Eplace. unfold LEVELS. cbn [find_place]. destruct Hn as (Hp & _). rewrite (get_block_used t _ _ Hp Hroot). cbn [result_bind].
    unfold tind_get_reference. rewrite tind_position by lia. cbn [result_bind]. rewrite !Z.add_simpl_r.
    assert (0 < c ^ Z.of_nat (S L)) as Hpos by (apply Z.pow_pos_nonneg; lia).
    rewrite decide_True by (rewrite Ef, (Nat2Z.inj_succ (S L)), Z.pow_succ_r, Z.div_mul; lia). cbn [result_bind].
    rewrite decide_False, decide_True by done. unfold full_tind. rewrite decide_False by lia. rewrite E1. cbn [result_bind].
    replace (Z.of_nat (S L) + 1) with (Z.of_nat (S (S L))) by lia. by rewrite E2.
Qed.

Lemma insert_ok m t f rest reference : tree_rep (65 + m) t f rest -> Z.of_nat (length f) + 1 < 2 ^ 64 -> inserts m t f rest reference.
Proof.
  unfold tree_rep. intros Htree Hlen. destruct (decide (f = [])) as [->|Hne]; [destruct Htree as [Hroot Hwf]; apply insert_first; [done|eapply alloc_wf_le; [exact Hwf|lia]]|].
  destruct Htree as (L & fp & Hrep & Hwf & HL). pose proof (rep_nonempty _ _ _ _ _ Hrep) as [Hin _].
  pose proof (alloc_wf_used _ _ _ Hwf ltac:(apply elem_of_app; by left)) as [Hroot _].
  assert (insert_place page_size (Z.of_nat (length f) + 1) false t =
    find_place page_size LEVELS false (indirect_index t) (Z.of_nat (length f) + 1) None (Z.of_nat (length f) + 1) t) as Eplace.
  { unfold insert_place. rewrite decide_False by (unfold NULL_FILE_ADDR; lia). done. }
  destruct (rep_inv _ _ _ _ _ Hrep) as [(Hp & Hf & Hfp)|(L' & -> & offs & lo & f1 & f2 & fp1 & fp2 & Hp & Ho & Hk & Hlo & Hf2 & Hf & -> & ->)].
  - apply (insert_in_leaf m t L f fp rest); try done. lia.
  - destruct HL as [|HL]; [done|]. apply (insert_in_node m t L' offs lo f1 f2 fp1 fp2); try done.
Qed.

Lemma tree_rep_last n t f rest oid : tree_rep n t f rest -> tree_rep n (set_last_oid oid t) f rest.
Proof.
  unfold tree_rep. destruct (decide (f = [])); [intros [? [Hx Hy]]; split; [done|by split]|].
  intros (L & fp & Hrep & [Hx Hy] & HL). exists L, fp. split; [done|]. split; [by split|done].
Qed.

(** The rows are numbered in order. *)
Lemma new_oid_value n t f rest : table_rep n t f rest -> Z.of_nat (length f) + 2 < 2 ^ 64 ->
  new_oid t = (set_last_oid (Z.of_nat (length f) + 2) t, Z.of_nat (length f) + 1, false).
Proof.
  intros [Hlast Hfree _] Hlen. unfold new_oid. rewrite Hfree, bool_decide_eq_true_2 by done. cbn [negb]. rewrite Hlast.
  rewrite (wrap_small 64) by (unfold uword; lia). do 3 f_equal. lia.
Qed.

Lemma insert_reference_ok m t f rest reference : table_rep (65 + m) t f rest -> Z.of_nat (length f) + 2 < 2 ^ 64 ->
  exists t', insert_reference page_size reference t = Ok (t', Z.of_nat (length f) + 1) /\ table_rep m t' (f ++ [reference]) rest /\
    same_pages rest t t'.
Proof.
  intros Ht Hlen. unfold insert_reference. rewrite (new_oid_value _ t f rest Ht Hlen). destruct Ht as [Hlast Hfree Htree]. set (t1 := set_last_oid _ t).
  destruct (insert_ok m t1 f rest reference) as (t' & L & fp & Eins & Hrep & Hwf & HL & (H1 & H2 & _) & Hs & _); [by apply tree_rep_last|lia|].
  exists t'. unfold inserted in Eins. destruct (insert_place _ _ _ _) as [[[t2 indr] pos]|]; [|done]. cbn [result_bind] in *. rewrite Eins. split; [done|]. split; [|exact Hs].
  split; [rewrite H1, length_app; cbn; lia|by rewrite H2|]. unfold tree_rep. rewrite decide_False by by destruct f.
  exists L, fp. split; [done|]. split; [done|]. rewrite length_app. cbn. destruct HL; [by left|right; lia].
Qed.

Lemma get_indirect_reference_ok n t f rest i : table_rep n t f rest -> Z.of_nat (length f) < 2 ^ 64 -> 0 <= i < 2 ^ 64 - 1 ->
  lookup_ok f i (get_indirect_reference page_size (i + 1) t).
Proof.
  intros [_ _ Htree] Hlen Hi. unfold get_indirect_reference, tree_rep in *. destruct (decide (f = [])) as [->|Hne].
  - destruct Htree as [-> _]. rewrite decide_True by done. by right.
  - destruct Htree as (L & fp & Hrep & Hwf & HL). pose proof (rep_nonempty _ _ _ _ _ Hrep) as [Hin _].
    pose proof (alloc_wf_used _ _ _ Hwf ltac:(apply elem_of_app; by left)) as [Hroot _]. rewrite decide_False by (unfold NULL_FILE_ADDR; lia).
    assert (c ^ Z.of_nat L < 2 ^ 64 /\ (L < LEVELS)%nat) as [Hcap HL'].
    { unfold LEVELS. destruct HL as [->|HL]; [cbn; lia|]. pose proof (levels_bound L _ HL ltac:(lia)). lia. }
    apply (get_indirect_loop_ok t L _ f fp); try done. apply Forall_forall. intros x Hx. apply (alloc_wf_used t (fp ++ rest) x Hwf). apply elem_of_app. by left.
Qed.

(** ** A row whose reference is known later *)

Lemma indr_set_shape i pos v t t' : indr_set_reference page_size i pos v t = Ok t' ->
  exists refs k, f_pages t !! i = Some (INDR refs) /\
    forall w t3, f_pages t3 !! i = Some (INDR refs) -> indr_set_reference page_size i pos w t3 = Ok (with_page i (INDR (<[k := w]> refs)) t3).
Proof.
  unfold indr_set_reference. destruct (f_pages t !! i) as [[]|] eqn:E; try done. destruct (indr_get_position page_size pos) as [k|]; [|done].
  unfold reference_at. destruct (references !! Z.to_nat k) eqn:Ek; [|done]. intros _. exists references, (Z.to_nat k). split; [done|].
  intros w t3 ->. by rewrite Ek.
Qed.

(** The reference of the last row. *)
Lemma last_reference t L root f v fp : rep (f_pages t) L root (f ++ [v]) fp -> Forall (fun x => page_size <= x < file_size t) fp ->
  (L = 0%nat \/ c ^ Z.of_nat L < Z.of_nat (length f) + 1) -> Z.of_nat (length f) + 2 < 2 ^ 64 ->
  get_indirect_loop page_size LEVELS root (Z.of_nat (length f) + 1) t = Ok v.
Proof.
  intros Hrep Hfp HL Hlen. assert (c ^ Z.of_nat L < 2 ^ 64 /\ (L < LEVELS)%nat) as [Hcap HL'].
  { unfold LEVELS. destruct HL as [->|HL]; [cbn; lia|]. pose proof (levels_bound L _ HL ltac:(lia)). lia. }
  pose proof (get_indirect_loop_ok t L root _ fp (Z.of_nat (length f)) LEVELS Hrep Hfp Hcap ltac:(lia) HL') as H. unfold lookup_ok in H.
  by rewrite Nat2Z.id, list_lookup_middle in H.
Qed.

(** The pages [fp] are those of the tree once the reference of the row is set to
    [v], whatever happens to the other pages before. *)
Definition awaits (m : nat) (t2 : table) (f rest : list Z) (i pos v : Z) (fp : list Z) : Prop :=
  alloc_wf m t2 (fp ++ rest) /\
  forall n t3 rest', same_pages fp t2 t3 -> indirect_index t3 = indirect_index t2 -> last_oid t3 = last_oid t2 -> first_free_oid t3 = first_free_oid t2 ->
    alloc_wf n t3 (fp ++ rest') ->
    exists p, indr_set_reference page_size i pos v t3 = Ok (with_page i p t3) /\ table_rep n (with_page i p t3) (f ++ [v]) rest' /\ i ∉ rest'.

Lemma insert_place_ok m t f rest : table_rep (65 + m) t f rest -> Z.of_nat (length f) + 2 < 2 ^ 64 ->
  exists t2 i pos, insert_place page_size (Z.of_nat (length f) + 1) false (set_last_oid (Z.of_nat (length f) + 2) t) = Ok (t2, i, pos) /\
    blobs_with_free_space t2 = blobs_with_free_space t /\ same_pages rest t t2 /\ file_within t t2 65 /\
    forall v, exists fp, awaits m t2 f rest i pos v fp.
Proof.
  intros [Hlast Hfree Htree] Hlen. set (t1 := set_last_oid _ t). assert (tree_rep (65 + m) t1 f rest) as Htree1 by by apply tree_rep_last.
  pose proof (fun v => insert_ok m t1 f rest v Htree1 ltac:(lia)) as Hins. unfold inserts, inserted in Hins.
  destruct (insert_place page_size (Z.of_nat (length f) + 1) false t1) as [[[t2 i] pos]|]; [|by destruct (Hins 0) as (? & ? & ? & ? & _)].
  exists t2, i, pos. split; [done|]. cbn [result_bind] in Hins. destruct (Hins 0) as (t0 & _ & _ & E0 & _ & _ & _ & Hcount & Hs & Hfile).
  destruct (indr_set_shape _ _ _ _ _ E0) as (refs & k & Hi & Hset). rewrite (Hset 0 t2 Hi) in E0. injection E0 as <-.
destruct Hcount as (Hlast2 & Hfree2 & Hblobs2 & _).
  set (W := fun v => with_page i (INDR (<[k := v]> refs)) t2) in *.
  assert (forall v, exists L fp, rep (f_pages (W v)) L (indirect_index t2) (f ++ [v]) fp /\ alloc_wf m (W v) (fp ++ rest) /\
    (L = 0%nat \/ c ^ Z.of_nat L < Z.of_nat (length f) + 1) /\ same_pages rest t (W v)) as Hall.
  { intros v. destruct (Hins v) as (t' & L & fp & E & Hrep & Hwf & HL & _ & Hsame & _). rewrite (Hset v t2 Hi) in E. injection E as <-. by exists L, fp. }
  clear Hins. assert (forall v x, x <> i -> f_pages (W v) !! x = f_pages t2 !! x) as HW by (intros v x Hx; cbn; by apply lookup_insert_ne).
  assert (forall v L fp, rep (f_pages (W v)) L (indirect_index t2) (f ++ [v]) fp -> alloc_wf m (W v) (fp ++ rest) ->
    (L = 0%nat \/ c ^ Z.of_nat L < Z.of_nat (length f) + 1) -> i ∈ fp) as Hin.
  { intros v L fp Hrep Hwf HL. destruct (decide (i ∈ fp)) as [|Hout]; [done|]. exfalso.
    destruct (Hall (v + 1)) as (L' & fp' & Hrep' & Hwf' & HL' & _).
    assert (rep (f_pages (W (v + 1))) L (indirect_index t2) (f ++ [v]) fp) as Hrep2.
    { eapply rep_frame; [exact Hrep|]. intros x Hx. by rewrite !HW by by intros ->. }
    assert (forall v l, alloc_wf m (W v) (l ++ rest) -> Forall (fun x => page_size <= x < file_size (W (v + 1))) l) as Hrange.
    { intros w l Hl. apply Forall_forall. intros x Hx. by apply (alloc_wf_used _ _ x Hl), elem_of_app; left. }
    pose proof (last_reference _ _ _ _ _ _ Hrep2 (Hrange v fp Hwf) HL Hlen) as H1.
    pose proof (last_reference _ _ _ _ _ _ Hrep' (Hrange (v + 1) fp' Hwf') HL' Hlen) as H2. rewrite H1 in H2. injection H2. lia. }
  assert (forall fp x, NoDup (fp ++ rest) -> i ∈ fp -> x ∈ rest -> x <> i) as Hne by (intros fp x (_ & Hd & _)%NoDup_app Hfp Hx ->; by apply (Hd i)).
  split; [exact Hblobs2|]. split; [|split; [exact Hfile|]].
  { intros x Hx. destruct (Hall 0) as (L & fp & Hrep & Hwf & HL & Hsame). rewrite <- (Hsame x Hx). symmetry. apply HW.
    apply (Hne fp); [by apply alloc_wf_nodup in Hwf|by apply (Hin 0 L)|done]. }
  intros v. destruct (Hall v) as (L & fp & Hrep & Hwf & HL & _). pose proof (Hin v L fp Hrep Hwf HL) as Hifp. exists fp. split.
  - assert (with_page i (INDR refs) (W v) = t2) as E by (unfold W, with_page; destruct t2; cbn in *; f_equal; rewrite insert_insert_eq; by apply insert_id).
    rewrite <- E. apply alloc_wf_page; [exact Hwf|]. apply elem_of_app. by left.
  - intros n t3 rest' Hsame Hroot Hl3 Hf3 Hwf3. exists (INDR (<[k := v]> refs)). split; [apply Hset; by rewrite Hsame|]. split.
    + split; [cbn; rewrite Hl3, length_app; cbn in *; lia|cbn; rewrite Hf3; by rewrite <- Hfree|]. unfold tree_rep. rewrite decide_False by by destruct f.
      exists L, fp. split; [|split; [apply alloc_wf_page; [done|apply elem_of_app; by left]|rewrite length_app; cbn; destruct HL; [by left|right; lia]]].
      cbn [with_page indirect_index]. rewrite Hroot. eapply rep_frame; [exact Hrep|]. intros x Hx. cbn. destruct (decide (x = i)) as [->|Nx].
      * by rewrite !lookup_insert_eq.
      * rewrite !lookup_insert_ne by done. by apply Hsame.
    + apply alloc_wf_nodup in Hwf3. apply NoDup_app in Hwf3 as (_ & Hd & _). by apply Hd.
Qed.

(** open_file() does not make a new table: two of the fields it sets are not in the
    header. *)
Lemma new_table_throws sparse : new_table page_size sparse = Throw field_not_found.
Proof. done. Qed.

(** The table without rows that it is to make, in a sparse file. *)
Definition empty_table : table := set_last_oid 1 (set_first_free_block page_size (new_pages page_size true)).

Lemma empty_table_ok n : table_rep n empty_table [] [] /\ blobs_with_free_space empty_table = NULL_FILE_ADDR.
Proof.
  unfold empty_table, new_pages. rewrite append_sparse by done. set (t1 := with_file_size _ _).
  destruct (append_free_blocks_spec 14 (page_size * 2) t1 eq_refl) as ((H1 & H2 & H3 & H4 & H5) & Hfirst & Hsize & Hx & Hi).
  set (t2 := append_free_blocks page_size 14 (page_size * 2) t1) in *.
  clearbody t2. assert (file_size t1 = page_size) as E1 by (cbn; lia). rewrite E1 in *.
  assert (indirect_index t1 = NULL_FILE_ADDR /\ first_free_oid t1 = NULL_OID /\ blobs_with_free_space t1 = NULL_FILE_ADDR /\ f_sparse_file t1 = true) as (Ei1 & Eo1 & Eb1 & Es1) by done.
  clearbody t1. rewrite append_sparse by congruence. set (t3 := set_last_oid 1 _).
  assert (f_pages t3 = <[0 := OTHER_BLOCK]> (<[file_size t2 := FREE NULL_FILE_ADDR]> (f_pages t2))) as Ep by done.
  assert (first_free_block t3 = page_size) as Ef by done. assert (file_size t3 = file_size t2 + page_size) as Es by done.
  assert (indirect_index t3 = indirect_index t1) as Ei by (rewrite <- H1; done).
  assert (last_oid t3 = 1 /\ first_free_oid t3 = first_free_oid t1 /\ blobs_with_free_space t3 = blobs_with_free_space t1 /\ f_sparse_file t3 = true) as (El & Eo & Eb & Esp) by (rewrite <- H3, <- H4, <- Es1, <- H5; done).
  clearbody t3. split; [|congruence]. split; [done|congruence|]. unfold tree_rep. rewrite decide_True by done. split; [congruence|].
  assert (forall k, (k * page_size) mod page_size = 0) as Hk by (intros k; apply Z.mod_mul; lia).
  assert (file_size t3 = 16 * page_size) as Es3 by lia. split; [|rewrite Es3; split; [lia|apply Hk]].
  set (l := (fun i => page_size + Z.of_nat i * page_size) <$> seq 0 15). exists l. rewrite Ef.
  assert (free_list (f_pages t3) l page_size) as Hfree.
  { apply free_list_run.
    - intros i Hlt. specialize (Hi i ltac:(lia)). rewrite Ep, !lookup_insert_ne by nia. rewrite Hi. do 2 f_equal. lia.
    - rewrite Ep, lookup_insert_ne by nia. replace (page_size + Z.of_nat 14 * page_size) with (file_size t2) by lia. apply lookup_insert_eq. }
  split; [exact Hfree|]. split; [apply NoDup_fmap_2; [intros i j E; nia|apply NoDup_seq]|].
  split; [|by left]. apply Forall_forall. intros x Hin. split.
  - apply list_elem_of_fmap in Hin as (i & -> & Hlt%elem_of_seq). rewrite Es. nia.
  - split; [by apply (free_list_pages _ l page_size)|]. apply list_elem_of_fmap in Hin as (i & -> & _).
    replace (page_size + Z.of_nat i * page_size) with ((Z.of_nat i + 1) * page_size) by ring. apply Hk.
Qed.
End Properties.

(** ** Main theorems *)

Fixpoint insert_references (page_size : Z) (references : list Z) (t : table) : result (table * list Z) :=
  match references with
  | [] => Ok (t, [])
  | r :: references =>
      let! '(t, oid) := insert_reference page_size r t in
      let! '(t, oids) := insert_references page_size references t in
      Ok (t, oid :: oids)
  end.

(** C21: the indirect index of a table refines the list of the references of its
    rows.  The reference of a row is found from its number, whatever the levels of
    the tree; for a number that no row has, the reference is null or logic_error is
    thrown.  When 65 pages can be allocated, that is to say when the list of free
    pages has as many or the file is sparse, inserting a row succeeds, gives it the
    number after the last one and adds its reference at the end of the list: the
    other rows keep theirs, and the pages [rest] that the table uses for something
    else are not touched. *)
Theorem indirect_index_refines page_size n t references rest : 32 <= page_size < 2 ^ 64 -> table_rep page_size n t references rest ->
  Z.of_nat (length references) + 2 < 2 ^ 64 ->
  (forall oid, 1 <= oid < 2 ^ 64 ->
    match references !! Z.to_nat (oid - 1) with
    | Some reference => get_indirect_reference page_size oid t = Ok reference
    | None => get_indirect_reference page_size oid t = Ok NULL_FILE_ADDR \/ get_indirect_reference page_size oid t = Throw logic_error
    end) /\
  (forall m reference, n = (65 + m)%nat -> exists t', insert_reference page_size reference t = Ok (t', Z.of_nat (length references) + 1) /\
    table_rep page_size m t' (references ++ [reference]) rest /\ same_pages rest t t').
Proof.
  intros Hps Ht Hlen. split.
  - intros oid Hoid. pose proof (get_indirect_reference_ok page_size ltac:(lia) n t references rest (oid - 1) Ht ltac:(lia) ltac:(lia)) as H.
    unfold lookup_ok in H. by rewrite Z.sub_add in H.
  - intros m reference ->. apply insert_reference_ok; [lia|lia|done|lia].
Qed.

Lemma indirect_index_refines_witness : exists t', insert_reference 32 1000 (empty_table 32) = Ok (t', 1) /\ table_rep 32 5 t' [1000] [] /\ same_pages [] (empty_table 32) t'.
Proof. destruct (indirect_index_refines 32 70 (empty_table 32) [] []) as [_ H]; [lia|apply empty_table_ok; lia|done|]. exact (H 5%nat 1000 eq_refl). Defined.

Lemma insert_references_ok page_size n t f l rest : 32 <= page_size < 2 ^ 64 -> table_rep page_size (65 * length l + n) t f rest ->
  Z.of_nat (length (f ++ l)) + 2 < 2 ^ 64 ->
  exists t', insert_references page_size l t = Ok (t', seqZ (Z.of_nat (length f) + 1) (Z.of_nat (length l))) /\ table_rep page_size n t' (f ++ l) rest /\
    same_pages rest t t'.
Proof.
  intros Hps. revert t f. induction l as [|r l IH]; intros t f Ht Hl; cbn [insert_references].
  - rewrite app_nil_r. by exists t.
  - rewrite length_app in Hl. cbn [length] in Hl, Ht. replace (65 * S (length l) + n)%nat with (65 + (65 * length l + n))%nat in Ht by lia.
    destruct (insert_reference_ok page_size ltac:(lia) ltac:(lia) _ t f rest r Ht ltac:(lia)) as (t1 & -> & Ht1 & Hs1). cbn [result_bind].
    destruct (IH t1 (f ++ [r]) Ht1) as (t' & -> & Ht' & Hs'); [rewrite !length_app; cbn; lia|]. cbn [result_bind]. exists t'. rewrite <- app_assoc in Ht'.
    split; [|split; [exact Ht'|by eapply same_pages_trans]]. rewrite length_app. cbn [length]. rewrite (seqZ_cons (Z.of_nat (length f) + 1)) by lia. do 4 f_equal; lia.
Qed.

(** C22: however many rows are inserted in a table without rows where 65 pages can
    be allocated for each one (in a sparse file, always), no insertion fails, the rows
    are numbered from 1, and then each number gives the reference of its row. *)
Theorem indirect_index_rows page_size n t rest references : 32 <= page_size < 2 ^ 64 -> table_rep page_size (65 * length references + n) t [] rest ->
  Z.of_nat (length references) + 2 < 2 ^ 64 ->
  exists t', insert_references page_size references t = Ok (t', seqZ 1 (Z.of_nat (length references))) /\ same_pages rest t t' /\
    forall i reference, references !! i = Some reference -> get_indirect_reference page_size (Z.of_nat i + 1) t' = Ok reference.
Proof.
  intros Hps Ht Hlen. destruct (insert_references_ok page_size n t [] references rest Hps Ht Hlen) as (t' & E & Ht' & Hs'). exists t'. split; [exact E|]. split; [exact Hs'|].
  intros i r Hr. pose proof (lookup_lt_Some _ _ _ Hr). pose proof (get_indirect_reference_ok page_size ltac:(lia) _ t' references rest (Z.of_nat i) Ht' ltac:(lia) ltac:(lia)) as Hget.
  unfold lookup_ok in Hget. by rewrite Nat2Z.id, Hr in Hget.
Qed.

Lemma indirect_index_rows_witness :
  exists t, insert_references 32 (seqZ 1000 9) (empty_table 32) = Ok (t, seqZ 1 9) /\ get_indirect_reference 32 9 t = Ok 1008.
Proof.
  destruct (indirect_index_rows 32 0 (empty_table 32) [] (seqZ 1000 9)) as (t & E & _ & H); [lia|apply empty_table_ok; lia|done|].
  exists t. split; [exact E|]. by apply (H 8%nat).
Defined.

(** The pages of the references of nine rows, two in a page: a tree of four levels. *)
Example nine_rows : (let! '(t, _) := insert_references 32 (seqZ 1000 9) (empty_table 32) in Ok (f_pages t !! indirect_index t)) =
  Ok (Some (TIND 3 [128; 288])).
Proof. by vm_compute. Qed.

(** When a file that is not sparse grows, only the first of the new pages is where
    the list of free pages has it: the next allocation reads four zeroes, then the
    start of a page. *)
Definition full_file : table := set_first_free_block NULL_FILE_ADDR (new_pages 32 true).
Example dense_file : (let t := Table (f_pages full_file) (file_size full_file) NULL_FILE_ADDR NULL_FILE_ADDR 1 NULL_OID NULL_FILE_ADDR false in
    let! '(t, x) := allocate_new_block 32 NEW_INDIRECT_INDEX t in
    Ok (x, first_free_block t, f_pages t !! 544, f_pages t !! 548, allocate_new_block 32 NEW_INDIRECT_INDEX t)) =
  Ok (512, 544, None, Some (FREE 576), Throw undefined_behavior).
Proof. by vm_compute. Qed.
