(* ===== verification/FreeSpace.v ===== *)
(** * Free space of the data of rows (prinbee/block/block_free_space.cpp)

    The pages of the data of the rows of a table are cut in spaces.  The first four
    bytes of a space are its size, of 24 bits, and its flags; a free space goes on
    with four bytes that are not used and the references of the next and previous
    free spaces of the same size.  The FSPC page has the reference of the first
    free space of each size, at the position of the size.

    The pages are those of the file of the table ([IndirectIndex]); a pointer is a
    page and a position in it, and an access out of the page, or to a page of
    another type, is undefined behaviour.  The first eight bytes of a page are
    those of its magic and version.  The pages are mapped in memory: get_block()
    of a reference in a page that is not mapped yet reads the magic at the wrong
    place.  The total space of a page is computed once by the code, for all the
    tables: their pages have the same size here. *)

From S2P Require Import Prelude Names Bytes IndirectIndex.

Definition FREE_SPACE_OFFSET : Z := 4 + 4.
Definition FREE_SPACE_JUMP : Z := 8 * 32.
Definition SPACE_BITS : Z := 24.
Definition FREE_SPACE_FLAG_ALLOCATED : Z := 0x01.
Definition ALLOCATED_SPACE_FLAG_MOVED : Z := 0x10.
Definition ALLOCATED_SPACE_FLAG_DELETED : Z := 0x20.

(** The sizes of [free_space_meta_t] and [free_space_link_t]. *)
Definition META_SIZE : Z := 4.
Definition LINK_SIZE : Z := 4 + 4 + 8 + 8.

(** The header of a DATA page. *)
Definition HEADER_SIZE : Z := 8.

Record free_space_t := FreeSpace {
  f_reference : Z;
  f_space_size : Z;
}.

Record pointer := Pointer {
  p_page : Z;
  p_position : Z;
}.

Definition shift (p : pointer) (n : Z) : pointer := Pointer (p_page p) (p_position p + n).

Section FreeSpace.
Context (page_size : Z).

(** ** Access to the pages *)

Definition read_page (p : pointer) (n : Z) (t : table) : result (list Z) :=
  match f_pages t !! p_page p with
  | Some (DATA bytes) => read_buffer bytes (p_position p) n
  | _ => Throw undefined_behavior
  end.

Definition write_page (p : pointer) (bytes : list Z) (t : table) : result table :=
  match f_pages t !! p_page p with
  | Some (DATA page) => let! page := write_buffer page (p_position p) bytes in Ok (with_page (p_page p) (DATA page) t)
  | _ => Throw undefined_behavior
  end.

Definition get_field (p : pointer) (n : Z) (t : table) : result Z := let! b := read_page p n t in Ok (of_le b).
Definition set_field (p : pointer) (n : Z) (value : Z) (t : table) : result table := write_page p (le (Z.to_nat n) value) t.

(** The fields of [free_space_link_t]. *)
Definition get_link_size (p : pointer) : table -> result Z := get_field p 3.
Definition set_link_size (p : pointer) : Z -> table -> result table := set_field p 3.
Definition get_link_flags (p : pointer) : table -> result Z := get_field (shift p 3) 1.
Definition set_link_flags (p : pointer) : Z -> table -> result table := set_field (shift p 3) 1.
Definition set_link_padding (p : pointer) : Z -> table -> result table := set_field (shift p 4) 4.
Definition get_link_next (p : pointer) : table -> result Z := get_field (shift p 8) 8.
Definition set_link_next (p : pointer) : Z -> table -> result table := set_field (shift p 8) 8.
Definition get_link_previous (p : pointer) : table -> result Z := get_field (shift p 16) 8.
Definition set_link_previous (p : pointer) : Z -> table -> result table := set_field (shift p 16) 8.

(** The references of the FSPC page [fspc]. *)
Definition get_first_space (fspc d : Z) (t : table) : result Z :=
  match f_pages t !! fspc with
  | Some (FSPC references) => reference_at references d
  | _ => Throw undefined_behavior
  end.

Definition set_first_space (fspc d reference : Z) (t : table) : result table :=
  match f_pages t !! fspc with
  | Some (FSPC references) =>
      let! _ := reference_at references d in
      Ok (with_page fspc (FSPC (<[Z.to_nat d := reference]> references)) t)
  | _ => Throw undefined_behavior
  end.

(** [block::data()]: the position of an offset in its page. *)
Definition position_of (offset : Z) : Z := offset mod page_size.

(** The position of the first free space of a size. *)
Definition get_free_space_pointer (size : Z) : result Z :=
  if decide (size < FREE_SPACE_OFFSET) then Throw logic_error
  else let! size := round_up size 8 in Ok (position_of (wrap 32 size) / 8).

Definition get_link (r : Z) (t : table) : result pointer :=
  if decide (r = NULL_FILE_ADDR) then Throw logic_error
  else if decide (r >= file_size t) then Throw logic_error
  else Ok (Pointer (r - position_of r) (position_of r)).

(** ** The lists *)

Definition link_space (fspc link_offset : Z) (link : pointer) (t : table) : result table :=
  let! size := get_link_size link t in
  let! d := get_free_space_pointer size in
  let! flags := get_link_flags link t in
  let! t := set_link_flags link (Z.land flags (Z.lnot FREE_SPACE_FLAG_ALLOCATED)) t in
  let! t := set_link_padding link 0 t in
  let! next := get_first_space fspc d t in
  let! t := set_link_next link next t in
  let! t := set_link_previous link NULL_FILE_ADDR t in
  let! t := if decide (next <> NULL_FILE_ADDR) then let! q := get_link next t in set_link_previous q link_offset t else Ok t in
  set_first_space fspc d link_offset t.

Definition unlink_space (fspc : Z) (link : pointer) (t : table) : result table :=
  let! previous := get_link_previous link t in
  let! t :=
    if decide (previous <> NULL_FILE_ADDR)
    then
      let! p := get_link previous t in
      let! next := get_link_next link t in
      set_link_next p next t
    else
      let! size := get_link_size link t in
      let! d := get_free_space_pointer size in
      let! next := get_link_next link t in
      set_first_space fspc d next t in
  let! next := get_link_next link t in
  if decide (next <> NULL_FILE_ADDR)
  then
    let! n := get_link next t in
    let! previous := get_link_previous link t in
    set_link_previous n previous t
  else Ok t.

(** ** Allocation *)

Definition total_space_available : result Z := let! n := round_down (wrap 32 (page_size - HEADER_SIZE)) 8 in Ok (wrap 32 n).

(** [link] is cut after [minimum_size] bytes and the end is a new free space. *)
Definition break_space (fspc r : Z) (link : pointer) (minimum_size remaining_size : Z) (t : table) : result table :=
  let new_link := shift link minimum_size in
  let! t := set_link_size new_link remaining_size t in
  let! t := set_link_size link minimum_size t in
  let! t := set_link_flags new_link 0 t in
  link_space fspc (r + minimum_size) new_link t.

Definition allocated (link : pointer) (t : table) : result table :=
  let! flags := get_link_flags link t in
  set_link_flags link (Z.lor flags FREE_SPACE_FLAG_ALLOCATED) t.

(** A free space of the size that is wanted. *)
Definition take_space (fspc r minimum_size : Z) (t : table) : result (table * free_space_t) :=
  let! link := get_link r t in
  let! t := unlink_space fspc link t in
  let! t := set_link_size link minimum_size t in
  let! t := allocated link t in
  Ok (t, FreeSpace (wrap 64 (r + META_SIZE)) minimum_size).

(** A larger one. *)
Definition take_part (fspc r minimum_size : Z) (t : table) : result (table * free_space_t) :=
  let! link := get_link r t in
  let! t := unlink_space fspc link t in
  let! size := get_link_size link t in
  let remaining_size := wrap 32 (size - minimum_size) in
  let! '(t, size) :=
    if decide (remaining_size >= LINK_SIZE)
    then let! t := break_space fspc r link minimum_size remaining_size t in Ok (t, minimum_size)
    else Ok (t, size) in
  let! t := allocated link t in
  Ok (t, FreeSpace (wrap 64 (r + META_SIZE)) size).

(** The loop over the larger sizes. *)
Fixpoint search_space (fuel : nat) (fspc d last minimum_size : Z) (t : table) : result (option (table * free_space_t)) :=
  match fuel with
  | O => Throw fuel_exhausted
  | S fuel =>
      if decide (d < last)
      then
        let! r := get_first_space fspc d t in
        if decide (r <> NULL_FILE_ADDR) then let! s := take_part fspc r minimum_size t in Ok (Some s)
        else search_space fuel fspc (d + 1) last minimum_size t
      else Ok None
  end.

(** A space at the start of a new page. *)
Definition new_space (fspc total_space minimum_size : Z) (t : table) : result (table * free_space_t) :=
  let! '(t, block) := allocate_new_block page_size NEW_DATA t in
  let r := block + (page_size - total_space) in
  let link := Pointer block (position_of r) in
  let remaining_size := wrap 32 (total_space - minimum_size) in
  let! t :=
    if decide (remaining_size >= META_SIZE)
    then
      let new_link := shift link minimum_size in
      let! t := set_link_size new_link remaining_size t in
      let! t := set_link_flags new_link 0 t in
      let! t := link_space fspc (r + minimum_size) new_link t in
      set_link_size link (total_space - remaining_size) t
    else set_link_size link total_space t in
  let! t := set_link_flags link FREE_SPACE_FLAG_ALLOCATED t in
  Ok (t, FreeSpace (wrap 64 (r + META_SIZE)) minimum_size).

Definition get_free_space (fspc minimum_size : Z) (t : table) : result (table * free_space_t) :=
  let! minimum_size := round_up (minimum_size + META_SIZE) 8 in
  let minimum_size := wrap 32 minimum_size in
  let! total_space := total_space_available in
  if decide (minimum_size > total_space) then Throw not_yet_implemented
  else if decide (minimum_size >= 2 ^ SPACE_BITS) then Throw logic_error
  else
    let! d := get_free_space_pointer minimum_size in
    let! r := get_first_space fspc d t in
    if decide (r <> NULL_FILE_ADDR) then take_space fspc r minimum_size t
    else
      let! d := if decide (minimum_size < FREE_SPACE_JUMP) then get_free_space_pointer FREE_SPACE_JUMP else Ok (d + 1) in
      let! last := get_free_space_pointer page_size in
      let last := last + page_size / 8 in
      let! s := search_space (S (Z.to_nat last)) fspc d last minimum_size t in
      match s with
      | Some s => Ok s
      | None => new_space fspc total_space minimum_size t
      end.

(** ** The size and the flags of the space of some data *)

Definition get_flag (ptr : pointer) (flag : Z) (t : table) : result bool :=
  let! flags := get_link_flags (shift ptr (- META_SIZE)) t in Ok (negb (bool_decide (Z.land flags flag = 0))).
Definition set_flag (ptr : pointer) (flag : Z) (t : table) : result table :=
  let link := shift ptr (- META_SIZE) in
  let! flags := get_link_flags link t in set_link_flags link (Z.lor flags flag) t.
Definition clear_flag (ptr : pointer) (flag : Z) (t : table) : result table :=
  let link := shift ptr (- META_SIZE) in
  let! flags := get_link_flags link t in set_link_flags link (Z.land flags (Z.lnot flag)) t.
Definition get_space_size (ptr : pointer) : table -> result Z := get_link_size (shift ptr (- META_SIZE)).
End FreeSpace.
