(* ===== verification/FreeSpaceMemory.v ===== *)
(** * The memory of the spaces of rows

    The pages of data as disjoint spaces of bytes, by their reference: what is
    read in a space is its bytes, and writing in a space changes nothing else. *)

From S2P Require Import Prelude Names Bytes IndirectIndex IndirectIndexProps FreeSpace.

(** ** Bytes of a buffer *)

Lemma bytes_at_parts c p b : 0 <= p -> b <> [] ->
  bytes_at c p (Z.of_nat (length b)) = Some b <-> exists a x, c = a ++ b ++ x /\ Z.of_nat (length a) = p.
Proof.
  intros Hp Hb. split.
  - unfold bytes_at. destruct (decide _) as [E|]; [by destruct b|]. destruct (decide _) as [Hr|]; [|done].
    rewrite Nat2Z.id. intros [= E]. exists (take (Z.to_nat p) c), (drop (length b) (drop (Z.to_nat p) c)).
    split; [|rewrite length_take; lia]. rewrite <- E at 1. by rewrite !take_drop.
  - intros (a & x & -> & <-). apply bytes_at_split.
Qed.

Lemma bytes_at_sub c p b off n y : 0 <= p -> 0 <= off -> 0 < n -> bytes_at c p (Z.of_nat (length b)) = Some b -> bytes_at b off n = Some y ->
  bytes_at c (p + off) n = Some y.
Proof.
  intros Hp Hoff Hn Hc Hb. pose proof (bytes_at_length b off n y ltac:(lia) Hb) as Hy.
  assert (n = Z.of_nat (length y)) as -> by lia. assert (y <> []) as Hne by (intros ->; cbn in *; lia).
  apply bytes_at_parts in Hb as (a & x & -> & Ha); [|done|done].
  apply bytes_at_parts in Hc as (a' & x' & -> & Ha'); [|done|by destruct a, y].
  apply bytes_at_parts; [lia|done|]. exists (a' ++ a), (x ++ x'). split; [by rewrite <- !app_assoc|rewrite length_app; lia].
Qed.

Lemma overwrite_part a b x p y : p = Z.of_nat (length a) -> length b = length y -> overwrite (a ++ b ++ x) p y = a ++ y ++ x.
Proof. intros ->. apply overwrite_split. Qed.

Lemma bytes_at_part a b x p n : p = Z.of_nat (length a) -> n = Z.of_nat (length b) -> bytes_at (a ++ b ++ x) p n = Some b.
Proof. intros -> ->. apply bytes_at_split. Qed.

Lemma bytes_at_overwrite_in c p b off w : 0 <= p -> 0 <= off -> off + Z.of_nat (length w) <= Z.of_nat (length b) -> b <> [] ->
  bytes_at c p (Z.of_nat (length b)) = Some b ->
  bytes_at (overwrite c (p + off) w) p (Z.of_nat (length b)) = Some (overwrite b off w).
Proof.
  intros Hp Hoff Hlen Hne Hc. destruct (decide (w = [])) as [->|Hw]; [done|]. apply bytes_at_parts in Hc as (a & x & -> & Ha); [|done|done].
  pose proof (take_drop (Z.to_nat off) b) as E. set (b1 := take _ b) in *. set (b' := drop _ b) in *.
  pose proof (take_drop (length w) b') as E'. set (b2 := take _ b') in *. set (b3 := drop _ b') in *. rewrite <- E' in E.
  assert (length b1 = Z.to_nat off) as H1 by (unfold b1; rewrite length_take; lia).
  assert (length b2 = length w) as H2 by (unfold b2, b'; rewrite length_take, length_drop; lia).
  rewrite <- E. rewrite (overwrite_part b1 b2 b3 off w) by lia.
  replace (a ++ (b1 ++ b2 ++ b3) ++ x) with ((a ++ b1) ++ b2 ++ (b3 ++ x)) by (by rewrite <- !app_assoc).
  rewrite overwrite_part by (rewrite ?length_app; lia). replace ((a ++ b1) ++ w ++ b3 ++ x) with (a ++ (b1 ++ w ++ b3) ++ x) by (by rewrite <- !app_assoc).
  apply bytes_at_part; [done|]. rewrite !length_app. lia.
Qed.

Lemma bytes_at_overwrite_out c p b q w : 0 <= p -> 0 <= q -> q + Z.of_nat (length w) <= Z.of_nat (length c) -> b <> [] ->
  p + Z.of_nat (length b) <= q \/ q + Z.of_nat (length w) <= p ->
  bytes_at c p (Z.of_nat (length b)) = Some b -> bytes_at (overwrite c q w) p (Z.of_nat (length b)) = Some b.
Proof.
  intros Hp Hq Hlen Hne Hout Hc. destruct (decide (w = [])) as [->|Hw]; [done|]. apply bytes_at_parts in Hc as (a & x & -> & Ha); [|done|done].
  rewrite !length_app in Hlen. destruct Hout as [Hout|Hout].
  - pose proof (take_drop (Z.to_nat (q - p) - length b) x) as E. set (x1 := take _ x) in *. set (x' := drop _ x) in *.
    pose proof (take_drop (length w) x') as E'. set (x2 := take _ x') in *. set (x3 := drop _ x') in *.
    assert (length x1 = Z.to_nat (q - p) - length b)%nat as H1 by (unfold x1; rewrite length_take; lia).
    assert (length x2 = length w) as H2 by (unfold x2, x'; rewrite length_take, length_drop; lia).
    rewrite <- E, <- E'. replace (a ++ b ++ x1 ++ x2 ++ x3) with ((a ++ b ++ x1) ++ x2 ++ x3) by (by rewrite <- !app_assoc).
    rewrite overwrite_part by (rewrite ?length_app; lia). rewrite <- !app_assoc. by apply bytes_at_part.
  - pose proof (take_drop (Z.to_nat q) a) as E. set (a1 := take _ a) in *. set (a' := drop _ a) in *.
    pose proof (take_drop (length w) a') as E'. set (a2 := take _ a') in *. set (a3 := drop _ a') in *.
    assert (length a1 = Z.to_nat q) as H1 by (unfold a1; rewrite length_take; lia).
    assert (length a2 = length w) as H2 by (unfold a2, a'; rewrite length_take, length_drop; lia).
    assert (length a3 = length a - Z.to_nat q - length w)%nat as H3 by (unfold a3, a'; rewrite !length_drop; lia).
    rewrite <- E, <- E'. replace ((a1 ++ a2 ++ a3) ++ b ++ x) with (a1 ++ a2 ++ (a3 ++ b ++ x)) by (by rewrite <- !app_assoc).
    rewrite overwrite_part by lia. replace (a1 ++ w ++ a3 ++ b ++ x) with ((a1 ++ w ++ a3) ++ b ++ x) by (by rewrite <- !app_assoc).
    apply bytes_at_part; [rewrite !length_app; lia|done].
Qed.

Section Memory.
Context (page_size : Z) (page_positive : 8 < page_size).

Notation position_of := (position_of page_size).

(** The pointer of a reference. *)
Definition ptr (r : Z) : pointer := Pointer (r - position_of r) (position_of r).

Lemma ptr_shift r m : 0 <= m -> position_of r + m < page_size -> shift (ptr r) m = ptr (r + m).
Proof.
  intros Hm Hr. unfold shift, ptr. cbn. assert (position_of (r + m) = position_of r + m) as ->; [|f_equal; lia].
  unfold position_of in *. pose proof (Z.mod_pos_bound r page_size ltac:(lia)). rewrite Z.add_mod by lia. rewrite (Z.mod_small m) by lia.
  by rewrite Z.mod_small by lia.
Qed.

(** ** Disjoint spaces *)

Record mem_rep (t : table) (pages : list Z) (sigma : gmap Z (list Z)) : Prop := {
  mr_pages x : x ∈ pages -> exists bytes, f_pages t !! x = Some (DATA bytes) /\ Z.of_nat (length bytes) = page_size;
  mr_range r b : sigma !! r = Some b -> r - position_of r ∈ pages /\ HEADER_SIZE <= position_of r /\
    8 <= Z.of_nat (length b) /\ position_of r + Z.of_nat (length b) <= page_size;
  mr_bytes r b bytes : sigma !! r = Some b -> f_pages t !! (r - position_of r) = Some (DATA bytes) ->
    bytes_at bytes (position_of r) (Z.of_nat (length b)) = Some b;
  mr_disjoint r b r' b' : sigma !! r = Some b -> sigma !! r' = Some b' -> r < r' -> r + Z.of_nat (length b) <= r';
}.

Lemma position_range r : 0 <= position_of r < page_size.
Proof. apply Z.mod_pos_bound. lia. Qed.

Lemma mem_page t pages sigma r b : mem_rep t pages sigma -> sigma !! r = Some b ->
  exists bytes, f_pages t !! (r - position_of r) = Some (DATA bytes) /\ Z.of_nat (length bytes) = page_size /\
    bytes_at bytes (position_of r) (Z.of_nat (length b)) = Some b.
Proof.
  intros Hm Hr. destruct (mr_range _ _ _ Hm r b Hr) as (Hp & _). destruct (mr_pages _ _ _ Hm _ Hp) as (bytes & Hb & Hl).
  exists bytes. split; [done|]. split; [done|]. by eapply (mr_bytes _ _ _ Hm).
Qed.

(** Reading in a space. *)
Lemma read_ok t pages sigma r b off n y : mem_rep t pages sigma -> sigma !! r = Some b -> 0 <= off -> 0 < n -> bytes_at b off n = Some y ->
  read_page (shift (ptr r) off) n t = Ok y.
Proof.
  intros Hm Hr Hoff Hn Hy. destruct (mem_page _ _ _ _ _ Hm Hr) as (bytes & Hb & Hl & Hat). unfold read_page. cbn. rewrite Hb. unfold read_buffer.
  by rewrite (bytes_at_sub _ _ _ _ _ _ (proj1 (position_range r)) Hoff Hn Hat Hy).
Qed.

Lemma read_field_ok t pages sigma r b off n y : mem_rep t pages sigma -> sigma !! r = Some b -> 0 <= off -> 0 < n -> bytes_at b off n = Some y ->
  get_field (shift (ptr r) off) n t = Ok (of_le y).
Proof. intros. unfold get_field. by erewrite read_ok. Qed.

(** Two spaces of the same page do not overlap. *)
Lemma spaces_apart t pages sigma r b r' b' : mem_rep t pages sigma -> sigma !! r = Some b -> sigma !! r' = Some b' -> r <> r' ->
  r - position_of r = r' - position_of r' ->
  position_of r + Z.of_nat (length b) <= position_of r' \/ position_of r' + Z.of_nat (length b') <= position_of r.
Proof.
  intros Hm Hr Hr' Hne Hpage. destruct (decide (r < r')) as [Hlt|Hge].
  - pose proof (mr_disjoint _ _ _ Hm _ _ _ _ Hr Hr' Hlt). lia.
  - pose proof (mr_disjoint _ _ _ Hm _ _ _ _ Hr' Hr ltac:(lia)). lia.
Qed.

(** Writing in a space. *)
Lemma write_ok t pages sigma r b off w : mem_rep t pages sigma -> sigma !! r = Some b -> 0 <= off -> off + Z.of_nat (length w) <= Z.of_nat (length b) ->
  exists bytes, write_page (shift (ptr r) off) w t = Ok (with_page (r - position_of r) (DATA bytes) t) /\
    mem_rep (with_page (r - position_of r) (DATA bytes) t) pages (<[r := overwrite b off w]> sigma).
Proof.
  intros Hm Hr Hoff Hlen. destruct (mem_page _ _ _ _ _ Hm Hr) as (bytes & Hb & Hl & Hat). pose proof (position_range r) as Hpos.
  destruct (mr_range _ _ _ Hm r b Hr) as (Hp & Hh & H8 & Hend). exists (overwrite bytes (position_of r + off) w).
  assert (b <> []) as Hne by (intros ->; cbn in *; lia).
  assert (length (overwrite b off w) = length b) as Elen by (rewrite length_overwrite; lia).
  split; [unfold write_page; cbn; rewrite Hb; unfold write_buffer; by rewrite decide_True by lia|]. split.
  - intros x Hx. cbn. destruct (decide (r - position_of r = x)) as [<-|Hx'].
    + rewrite lookup_insert_eq. eexists. split; [done|]. rewrite length_overwrite by lia. lia.
    + rewrite lookup_insert_ne by done. by apply (mr_pages _ _ _ Hm).
  - intros r' b' Hr'. destruct (decide (r = r')) as [<-|Hrr].
    + rewrite lookup_insert_eq in Hr'. injection Hr' as <-. by rewrite Elen.
    + rewrite lookup_insert_ne in Hr' by done. by apply (mr_range _ _ _ Hm).
  - intros r' b' bytes' Hr' Hb'. cbn in Hb'. destruct (decide (r = r')) as [<-|Hrr].
    + rewrite lookup_insert_eq in Hr'. rewrite lookup_insert_eq in Hb'. injection Hr' as <-. injection Hb' as <-. rewrite Elen. apply bytes_at_overwrite_in; done || lia.
    + rewrite lookup_insert_ne in Hr' by done. destruct (decide (r - position_of r = r' - position_of r')) as [Hpg|Hpg].
      * rewrite Hpg, lookup_insert_eq in Hb'. injection Hb' as <-. pose proof (spaces_apart _ _ _ _ _ _ _ Hm Hr Hr' Hrr Hpg).
        rewrite Hpg in Hb. pose proof (mr_bytes _ _ _ Hm _ _ _ Hr' Hb) as Hat'. pose proof (position_range r'). destruct (mr_range _ _ _ Hm r' b' Hr') as (_ & _ & H8' & _).
        apply bytes_at_overwrite_out; try done; try lia. by intros ->.
      * rewrite lookup_insert_ne in Hb' by done. by apply (mr_bytes _ _ _ Hm).
  - intros r1 b1 r2 b2 H1 H2 Hlt. apply lookup_insert_Some in H1 as [[<- <-]|[N1 H1]]; apply lookup_insert_Some in H2 as [[<- <-]|[N2 H2]]; [lia|..].
    + rewrite Elen. by apply (mr_disjoint _ _ _ Hm _ _ _ _ Hr H2).
    + by apply (mr_disjoint _ _ _ Hm _ _ _ _ H1 Hr).
    + by apply (mr_disjoint _ _ _ Hm _ _ _ _ H1 H2).
Qed.

(** A space is two spaces. *)
Lemma mem_split t pages sigma r a b : mem_rep t pages sigma -> sigma !! r = Some (a ++ b) -> (8 <= length a)%nat -> (8 <= length b)%nat ->
  mem_rep t pages (<[r + Z.of_nat (length a) := b]> (<[r := a]> sigma)) /\ sigma !! (r + Z.of_nat (length a)) = None.
Proof.
  intros Hm Hr Ha Hb. destruct (mr_range _ _ _ Hm r _ Hr) as (Hp & Hh & _ & Hend). rewrite length_app in Hend. pose proof (position_range r).
  set (r' := r + Z.of_nat (length a)). assert (position_of r' = position_of r + Z.of_nat (length a)) as Er.
  { pose proof (f_equal p_position (ptr_shift r (Z.of_nat (length a)) ltac:(lia) ltac:(lia))) as E. by cbn in E. }
  assert (r' - position_of r' = r - position_of r) as Epage by (unfold r' in *; lia).
  assert (forall x c, sigma !! x = Some c -> x <> r -> x < r -> x + Z.of_nat (length c) <= r) as Hbefore by (intros x c Hx Hne Hlt; by apply (mr_disjoint _ _ _ Hm _ _ _ _ Hx Hr)).
  assert (forall x c, sigma !! x = Some c -> r < x -> r' + Z.of_nat (length b) <= x) as Hafter.
  { intros x c Hx Hlt. pose proof (mr_disjoint _ _ _ Hm _ _ _ _ Hr Hx Hlt) as H1. rewrite length_app in H1. unfold r'. lia. }
  split.
  2:{ destruct (sigma !! r') as [c|] eqn:E; [|done]. pose proof (Hafter r' c E ltac:(unfold r'; lia)). lia. }
  split.
  - apply (mr_pages _ _ _ Hm).
  - intros x c Hx. destruct (decide (r' = x)) as [<-|N']; [|destruct (decide (r = x)) as [<-|N]].
    + rewrite lookup_insert_eq in Hx. injection Hx as <-. rewrite Epage, Er. split; [done|]. lia.
    + rewrite lookup_insert_ne, lookup_insert_eq in Hx by done. injection Hx as <-. split; [done|]. lia.
    + rewrite !lookup_insert_ne in Hx by done. by apply (mr_range _ _ _ Hm).
  - intros x c bytes Hx Hbytes. destruct (decide (r' = x)) as [<-|N']; [|destruct (decide (r = x)) as [<-|N]].
    + rewrite lookup_insert_eq in Hx. injection Hx as <-. rewrite Epage in Hbytes. pose proof (mr_bytes _ _ _ Hm _ _ _ Hr Hbytes) as Hat.
      rewrite Er. eapply bytes_at_sub; [..|exact Hat|]; [lia|lia|lia|]. rewrite <- (app_nil_r b) at 1. by apply bytes_at_part.
    + rewrite lookup_insert_ne, lookup_insert_eq in Hx by done. injection Hx as <-. pose proof (mr_bytes _ _ _ Hm _ _ _ Hr Hbytes) as Hat.
      rewrite <- (Z.add_0_r (position_of r)). eapply bytes_at_sub; [..|exact Hat|]; [lia|lia|lia|]. apply (bytes_at_part [] a b); done.
    + rewrite !lookup_insert_ne in Hx by done. by apply (mr_bytes _ _ _ Hm).
  - intros x c y d Hx Hy Hlt.
    assert ((x = r' /\ c = b) \/ (x = r /\ c = a) \/ (x <> r /\ x <> r' /\ sigma !! x = Some c)) as Cx.
    { apply lookup_insert_Some in Hx as [[<- <-]|[N' Hx]]; [tauto|]. apply lookup_insert_Some in Hx as [[<- <-]|[N Hx]]; [tauto|].
      right; right. by split_and!. }
    assert ((y = r' /\ d = b) \/ (y = r /\ d = a) \/ (y <> r /\ y <> r' /\ sigma !! y = Some d)) as Cy.
    { apply lookup_insert_Some in Hy as [[<- <-]|[N' Hy]]; [tauto|]. apply lookup_insert_Some in Hy as [[<- <-]|[N Hy]]; [tauto|].
      right; right. by split_and!. }
    destruct Cx as [(-> & ->)|[(-> & ->)|(Nx & Nx' & Hx')]]; destruct Cy as [(-> & ->)|[(-> & ->)|(Ny & Ny' & Hy')]]; unfold r' in *; try lia.
    + specialize (Hafter _ _ Hy' ltac:(lia)). lia.
    + specialize (Hafter _ _ Hy' ltac:(lia)). lia.
    + destruct (decide (x < r)) as [Hxr|Hxr]; [specialize (Hbefore _ _ Hx' Nx Hxr); lia|].
      specialize (Hafter _ _ Hx' ltac:(lia)). lia.
    + by apply (Hbefore _ _ Hx').
    + by apply (mr_disjoint _ _ _ Hm _ _ _ _ Hx' Hy').
Qed.

(** What the pages of another use are does not matter. *)
Lemma mem_same t t' pages sigma : mem_rep t pages sigma -> same_pages pages t t' -> mem_rep t' pages sigma.
Proof.
  intros [H1 H2 H3 H4] Hs. split; [|done| |done].
  - intros x Hx. rewrite Hs by done. by apply H1.
  - intros r b bytes Hr. rewrite Hs by by apply (H2 r b Hr). by apply H3.
Qed.

(** A new page. *)
Lemma mem_new t pages sigma x h b : mem_rep t pages sigma -> x ∉ pages -> f_pages t !! x = Some (DATA (h ++ b)) ->
  Z.of_nat (length (h ++ b)) = page_size -> Z.of_nat (length h) = HEADER_SIZE -> (8 <= length b)%nat -> x mod page_size = 0 ->
  mem_rep t (x :: pages) (<[x + HEADER_SIZE := b]> sigma) /\ sigma !! (x + HEADER_SIZE) = None.
Proof.
  intros [H1 H2 H3 H4] Hx Hp Hlen Hh Hb Hmod. rewrite length_app in Hlen.
  assert (position_of (x + HEADER_SIZE) = HEADER_SIZE) as Epos.
  { unfold position_of. rewrite Z.add_mod, Hmod, Z.add_0_l, Z.mod_mod by lia. apply Z.mod_small. unfold HEADER_SIZE. lia. }
  assert (forall r c, sigma !! r = Some c -> r + Z.of_nat (length c) <= x \/ x + page_size <= r) as Hother.
  { intros r c Hr. destruct (H2 r c Hr) as (Hpr & Hr8 & _ & Hend). assert (r - position_of r <> x) as Hne by (intros <-; done).
    pose proof (Z.div_mod r page_size ltac:(lia)) as Ed. pose proof (Z.div_mod x page_size ltac:(lia)) as Ex. rewrite Hmod in Ex. unfold position_of in *.
    assert (r / page_size < x / page_size \/ x / page_size < r / page_size) as [Hlt|Hlt]; [|left|right].
    - destruct (Z.lt_trichotomy (r / page_size) (x / page_size)) as [?|[E|?]]; [by left| |by right]. exfalso. apply Hne. rewrite E in Ed. lia.
    - nia.
    - unfold HEADER_SIZE in *. nia. }
  split.
  2:{ destruct (sigma !! (x + HEADER_SIZE)) as [c|] eqn:E; [|done]. specialize (Hother _ _ E). unfold HEADER_SIZE in *. lia. }
  split.
  - intros y [->|Hy]%elem_of_cons; [|by apply H1]. exists (h ++ b). split; [done|]. rewrite length_app. lia.
  - intros r c Hr. apply lookup_insert_Some in Hr as [[<- <-]|[_ Hr]].
    + rewrite Epos. split; [apply elem_of_cons; left; lia|]. unfold HEADER_SIZE in *. lia.
    + destruct (H2 r c Hr) as (? & ?). split; [by right|done].
  - intros r c bytes Hr Hbytes. apply lookup_insert_Some in Hr as [[<- <-]|[_ Hr]]; [|by eapply H3].
    rewrite Epos in *. replace (x + HEADER_SIZE - HEADER_SIZE) with x in Hbytes by lia. rewrite Hp in Hbytes. injection Hbytes as <-.
    rewrite <- (app_nil_r b) at 1. by apply bytes_at_part.
  - intros r c r' c' Hr Hr' Hlt. apply lookup_insert_Some in Hr as [[<- <-]|[_ Hr]]; apply lookup_insert_Some in Hr' as [[<- <-]|[_ Hr']].
    + lia.
    + specialize (Hother _ _ Hr'). unfold HEADER_SIZE in *. lia.
    + specialize (Hother _ _ Hr). unfold HEADER_SIZE in *. lia.
    + by apply (H4 _ _ _ _ Hr Hr').
Qed.

(** ** The bytes of a space with links *)

Definition link_bytes (size flags padding next previous rest : list Z) : list Z := size ++ flags ++ padding ++ next ++ previous ++ rest.

(** The fields at their positions. *)
Record link_shape (size flags padding next previous : list Z) : Prop := {
  ls_size : length size = 3%nat;
  ls_flags : length flags = 1%nat;
  ls_padding : length padding = 4%nat;
  ls_next : length next = 8%nat;
  ls_previous : length previous = 8%nat;
}.

Lemma link_length s f d n p rest : link_shape s f d n p -> length (link_bytes s f d n p rest) = (24 + length rest)%nat.
Proof. intros []. unfold link_bytes. rewrite !length_app. lia. Qed.

Lemma shift_0 q : shift q 0 = q.
Proof. destruct q. unfold shift. cbn. by rewrite Z.add_0_r. Qed.

(** A field of the space [r] is written. *)
Definition wrote (t : table) (pages : list Z) (sigma : gmap Z (list Z)) (r : Z) (set : Z -> table -> result table) (value : Z) (b : list Z) : Prop :=
  exists bytes, set value t = Ok (with_page (r - position_of r) (DATA bytes) t) /\
    mem_rep (with_page (r - position_of r) (DATA bytes) t) pages (<[r := b]> sigma).

Lemma set_field_ok t pages sigma r b off k value b' : mem_rep t pages sigma -> sigma !! r = Some b -> 0 <= off ->
  off + Z.of_nat k <= Z.of_nat (length b) -> overwrite b off (le k value) = b' ->
  wrote t pages sigma r (set_field (shift (ptr r) off) (Z.of_nat k)) value b'.
Proof.
  intros Hm Hr Hoff Hk <-. unfold wrote, set_field. rewrite Nat2Z.id. eapply write_ok; [done|done|done|]. rewrite length_le. lia.
Qed.

(** The size and the flags of any space. *)
Section Meta.
Context (t : table) (pages : list Z) (sigma : gmap Z (list Z)) (r : Z) (s f d : list Z).
Context (mem : mem_rep t pages sigma) (size_length : length s = 3%nat) (flags_length : length f = 1%nat) (space : sigma !! r = Some (s ++ f ++ d)).

Lemma get_size_ok : get_link_size (ptr r) t = Ok (of_le s).
Proof.
  unfold get_link_size. rewrite <- (shift_0 (ptr r)). eapply read_field_ok; [done|done|lia|lia|].
  apply (bytes_at_part [] s); [done|lia].
Qed.

Lemma get_flags_ok : get_link_flags (ptr r) t = Ok (of_le f).
Proof. eapply read_field_ok; [done|done|lia|lia|]. apply (bytes_at_part s f); lia. Qed.

Lemma set_size_ok value : wrote t pages sigma r (set_link_size (ptr r)) value (le 3 value ++ f ++ d).
Proof.
  unfold set_link_size. rewrite <- (shift_0 (ptr r)). eapply (set_field_ok _ _ _ _ _ 0 3); [done|done|lia|rewrite !length_app; lia|].
  apply (overwrite_part [] s); [done|by rewrite length_le].
Qed.

Lemma set_flags_ok value : wrote t pages sigma r (set_link_flags (ptr r)) value (s ++ le 1 value ++ d).
Proof. eapply (set_field_ok _ _ _ _ _ 3 1); [done|done|lia|rewrite !length_app; lia|]. apply (overwrite_part s f); [lia|by rewrite length_le]. Qed.
End Meta.

Section Fields.
Context (t : table) (pages : list Z) (sigma : gmap Z (list Z)) (r : Z) (s f d n p rest : list Z).
Context (mem : mem_rep t pages sigma) (shape : link_shape s f d n p) (space : sigma !! r = Some (link_bytes s f d n p rest)).

Lemma get_next_ok : get_link_next (ptr r) t = Ok (of_le n).
Proof.
  destruct shape. eapply read_field_ok; [done|done|lia|lia|]. unfold link_bytes. rewrite (app_assoc f), (app_assoc s).
  apply bytes_at_part; rewrite ?length_app; lia.
Qed.

Lemma get_previous_ok : get_link_previous (ptr r) t = Ok (of_le p).
Proof.
  destruct shape. eapply read_field_ok; [done|done|lia|lia|]. unfold link_bytes. rewrite (app_assoc d), (app_assoc f), (app_assoc s).
  apply bytes_at_part; rewrite ?length_app; lia.
Qed.

Lemma set_link_ok off k value b : 0 <= off -> off + Z.of_nat k <= 24 -> overwrite (link_bytes s f d n p rest) off (le k value) = b ->
  wrote t pages sigma r (set_field (shift (ptr r) off) (Z.of_nat k)) value b.
Proof. intros Hoff Hk Hb. eapply set_field_ok; [done|done|done| |done]. rewrite link_length by done. lia. Qed.

Lemma set_padding_ok value : wrote t pages sigma r (set_link_padding (ptr r)) value (link_bytes s f (le 4 value) n p rest).
Proof.
  destruct shape. apply (set_link_ok 4 4); [lia|lia|]. unfold link_bytes. rewrite !(app_assoc s).
  apply overwrite_part; rewrite ?length_app, ?length_le; lia.
Qed.

Lemma set_next_ok value : wrote t pages sigma r (set_link_next (ptr r)) value (link_bytes s f d (le 8 value) p rest).
Proof.
  destruct shape. apply (set_link_ok 8 8); [lia|lia|]. unfold link_bytes. rewrite !(app_assoc f), !(app_assoc s).
  apply overwrite_part; rewrite ?length_app, ?length_le; lia.
Qed.

Lemma set_previous_ok value : wrote t pages sigma r (set_link_previous (ptr r)) value (link_bytes s f d n (le 8 value) rest).
Proof.
  destruct shape. apply (set_link_ok 16 8); [lia|lia|]. unfold link_bytes. rewrite !(app_assoc d), !(app_assoc f), !(app_assoc s).
  apply overwrite_part; rewrite ?length_app, ?length_le; lia.
Qed.
End Fields.
End Memory.
