(* ===== verification/FreeSpaceLists.v ===== *)
(** * The lists of free spaces

    Each space of the pages of data is free or used.  The free spaces of each size
    are a doubly linked list, of which the FSPC page has the first: what
    link_space() and unlink_space() do to these lists. *)

From S2P Require Import Prelude Names Bytes IndirectIndex IndirectIndexProps FreeSpace FreeSpaceMemory.

(** A free space, with its links and the bytes after them, or the data of a used one. *)
Inductive cell :=
  | Free (next previous : Z) (rest : list Z)
  | Used (data : list Z).

Definition cell_size (c : cell) : Z :=
  match c with
  | Free _ _ rest => 24 + Z.of_nat (length rest)
  | Used data => 4 + Z.of_nat (length data)
  end.

Definition encode (c : cell) : list Z :=
  match c with
  | Free n p rest => link_bytes (le 3 (cell_size c)) (le 1 0) (le 4 0) (le 8 n) (le 8 p) rest
  | Used data => le 3 (cell_size c) ++ le 1 1 ++ data
  end.

Lemma encode_shape s f d n p : link_shape (le 3 s) (le 1 f) (le 4 d) (le 8 n) (le 8 p).
Proof. split; apply length_le. Qed.

Lemma length_cell c : Z.of_nat (length (encode c)) = cell_size c.
Proof.
  destruct c; cbn [encode cell_size]; [rewrite link_length by apply encode_shape; lia|]. rewrite !length_app, !length_le. lia.
Qed.

Definition with_previous (v : Z) (c : cell) : cell := match c with Free n _ rest => Free n v rest | Used data => Used data end.

Lemma with_previous_size v c : cell_size (with_previous v c) = cell_size c.
Proof. by destruct c. Qed.

(** The space [next], if there is one, comes after [v]. *)
Definition relink (next v : Z) (cells : gmap Z cell) : gmap Z cell :=
  if decide (next = NULL_FILE_ADDR) then cells else alter (with_previous v) next cells.

Lemma relink_lookup next v cells r :
  relink next v cells !! r = if decide (next <> NULL_FILE_ADDR /\ next = r) then with_previous v <$> cells !! r else cells !! r.
Proof.
  unfold relink. destruct (decide (next = NULL_FILE_ADDR)) as [E|E]; [by rewrite decide_False by tauto|].
  destruct (decide (next = r)) as [->|N]; [rewrite lookup_alter_eq, decide_True by done; done|].
  by rewrite lookup_alter_ne, decide_False by tauto.
Qed.

(** The list [l] of the free spaces of [s] bytes, after the space [previous]. *)
Fixpoint chain (cells : gmap Z cell) (s previous : Z) (l : list Z) : Prop :=
  match l with
  | [] => True
  | r :: l => (exists rest, cells !! r = Some (Free (hd 0 l) previous rest) /\ 24 + Z.of_nat (length rest) = s) /\ chain cells s r l
  end.

Lemma chain_ext cells cells' s previous l : chain cells s previous l -> (forall r, r ∈ l -> cells' !! r = cells !! r) -> chain cells' s previous l.
Proof.
  revert previous. induction l as [|r l IH]; intros previous; [done|]. cbn. intros [(rest & Hr & Hs) Hl] H. split.
  - exists rest. by rewrite H by by left.
  - apply IH; [done|]. intros x Hx. apply H. by right.
Qed.

Lemma chain_member cells s previous l r : chain cells s previous l -> r ∈ l ->
  exists n p rest, cells !! r = Some (Free n p rest) /\ 24 + Z.of_nat (length rest) = s.
Proof.
  revert previous. induction l as [|x l IH]; intros previous; [by intros _ ?%elem_of_nil|]. cbn. intros [(rest & Hx & Hs) Hl] [->|Hr]%elem_of_cons.
  - eauto.
  - by eapply IH.
Qed.

(** The first of a list has another space before it. *)
Lemma chain_relink cells s v v' l : chain cells s v l -> NoDup l -> (forall r, r ∈ l -> r <> 0) -> chain (relink (hd 0 l) v' cells) s v' l.
Proof.
  destruct l as [|r l]; [done|]. cbn [hd chain]. intros [(rest & Hr & Hs) Hl] [Hout Hnd]%NoDup_cons Hne. split.
  - exists rest. rewrite relink_lookup, decide_True by (split; [apply Hne; by left|done]). by rewrite Hr.
  - eapply chain_ext; [exact Hl|]. intros x Hx. rewrite relink_lookup, decide_False; [done|]. intros [_ ->]. done.
Qed.

(** The sizes of pages. *)
Class PageSize (page_size : Z) : Prop := {
  page_large : 256 < page_size <= 2 ^ 24;
  page_aligned : page_size mod 8 = 0;
}.

Section Lists.
Context (page_size : Z) {page_ok : PageSize page_size}.
Let large : 256 < page_size <= 2 ^ 24 := page_large.
Let aligned : page_size mod 8 = 0 := page_aligned.

Notation ptr := (ptr page_size).
Notation position_of := (position_of page_size).
Notation mem_rep := (mem_rep page_size).

Lemma page_more : 8 < page_size.
Proof. lia. Qed.
Hint Resolve page_more : core.

(** ** What a change of some pages keeps *)

Record changes (l : list Z) (t t' : table) : Prop := {
  ch_pages x : x ∉ l -> f_pages t' !! x = f_pages t !! x;
  ch_header : same_header t t';
  ch_size : file_size t' = file_size t;
  ch_wf n used : l ⊆ used -> alloc_wf page_size n t used -> alloc_wf page_size n t' used;
}.

Lemma changes_refl l t : changes l t t.
Proof. by split. Qed.

Lemma changes_trans l t t' t'' : changes l t t' -> changes l t' t'' -> changes l t t''.
Proof.
  intros [H1 H2 H3 H4] [K1 K2 K3 K4]. split; [|by eapply same_header_trans|congruence|auto].
  intros x Hx. by rewrite K1, H1.
Qed.

Lemma changes_page l t x p : x ∈ l -> changes l t (with_page x p t).
Proof.
  intros Hx. split; [|done|done|].
  - intros y Hy. cbn. apply lookup_insert_ne. by intros ->.
  - intros n used Hl Hwf. apply alloc_wf_page; [done|]. by apply Hl.
Qed.

(** ** The heap *)

(** The spaces [cells] of the memory [sigma], which may have others, and the first
    of each list [fl]. *)
Record spaces (t : table) (fspc : Z) (pages : list Z) (sigma : gmap Z (list Z)) (cells : gmap Z cell) (fl : Z -> list Z) : Prop := {
  h_mem : mem_rep t pages sigma;
  h_cells r c : cells !! r = Some c -> sigma !! r = Some (encode c);
  h_size r c : cells !! r = Some c -> cell_size c mod 8 = 0;
  h_first : exists references, f_pages t !! fspc = Some (FSPC references) /\ Z.of_nat (length references) = page_size / 8 /\
    forall i, 1 <= i < page_size / 8 -> references !! Z.to_nat i = Some (hd 0 (fl (8 * i)));
  h_pages x : x ∈ pages -> 0 < x /\ x + page_size <= file_size t;
  h_fspc : fspc ∉ pages;
  h_file : file_size t <= 2 ^ 64;
}.

(** The lists are those of the free spaces, by size. *)
Record lists (cells : gmap Z cell) (fl : Z -> list Z) : Prop := {
  h_chain s : chain cells s 0 (fl s);
  h_free r n p rest : cells !! r = Some (Free n p rest) -> r ∈ fl (24 + Z.of_nat (length rest));
  h_nodup s : NoDup (fl s);
}.

Definition set_list (fl : Z -> list Z) (s : Z) (l : list Z) : Z -> list Z := fun x => if decide (x = s) then l else fl x.

Lemma relink_free next v cells r n p rest : relink next v cells !! r = Some (Free n p rest) -> exists p', cells !! r = Some (Free n p' rest).
Proof.
  rewrite relink_lookup. destruct (decide _); [|eauto]. destruct (cells !! r) as [[n' p' rest'|]|]; cbn; [|done|done].
  intros [= -> _ ->]. eauto.
Qed.

(** The first space of a list is taken. *)
Lemma lists_pop cells fl s r l : lists cells fl -> fl s = r :: l -> (forall x, x ∈ fl s -> x <> 0) ->
  lists (relink (hd 0 l) 0 (delete r cells)) (set_list fl s l).
Proof.
  intros [Hc Hf Hn] E Hne. pose proof (Hc s) as Hcs. pose proof (Hn s) as Hns. rewrite E in Hcs, Hns, Hne. cbn [chain] in Hcs.
  destruct Hcs as [(rest & Hr & Hsize) Hl]. apply NoDup_cons in Hns as [Hout Hnd]. split.
  - intros x. unfold set_list. destruct (decide (x = s)) as [->|Nx].
    + eapply chain_ext; [apply (chain_relink cells s r 0 l Hl Hnd); intros y Hy; apply Hne; by right|].
      intros y Hy. rewrite !relink_lookup, lookup_delete_ne by (intros ->; done). done.
    + eapply chain_ext; [apply Hc|]. intros y Hy. destruct (chain_member _ _ _ _ _ (Hc x) Hy) as (n & p & rest' & Hy' & Hs').
      assert (y <> r) as Nr by (intros ->; rewrite Hr in Hy'; injection Hy' as _ _ <-; lia).
      rewrite relink_lookup, lookup_delete_ne, decide_False; [done| |done]. intros [Hn0 <-]. destruct l as [|y l]; [done|]. cbn in Hy, Hy'.
      cbn in Hl. destruct Hl as [(rest2 & Hy2 & Hs2) _]. rewrite Hy2 in Hy'. injection Hy' as _ _ <-. lia.
  - intros y n p rest' Hy. apply relink_free in Hy as (p' & Hy). apply lookup_delete_Some in Hy as [Ny Hy]. apply Hf in Hy. unfold set_list.
    destruct (decide _) as [Es|]; [|done]. rewrite Es, E in Hy. by apply elem_of_cons in Hy as [->|].
  - intros x. unfold set_list. destruct (decide _); [done|apply Hn].
Qed.

(** A space is put at the start of a list. *)
Lemma lists_push cells fl s q rest : lists cells fl -> cells !! q = None -> 24 + Z.of_nat (length rest) = s -> (forall x, x ∈ fl s -> x <> 0) ->
  lists (<[q := Free (hd 0 (fl s)) 0 rest]> (relink (hd 0 (fl s)) q cells)) (set_list fl s (q :: fl s)).
Proof.
  intros [Hc Hf Hn] Hq Hsize Hne. assert (forall x, q ∉ fl x) as Hout.
  { intros x Hx. destruct (chain_member _ _ _ _ _ (Hc x) Hx) as (n & p & rest' & Hy & _). congruence. }
  split.
  - intros x. unfold set_list. destruct (decide (x = s)) as [->|Nx].
    + cbn [chain]. split; [exists rest; by rewrite lookup_insert_eq|].
      eapply chain_ext; [apply (chain_relink cells s 0 q (fl s) (Hc s) (Hn s) Hne)|]. intros y Hy. apply lookup_insert_ne. intros ->. by apply (Hout s).
    + eapply chain_ext; [apply Hc|]. intros y Hy. rewrite lookup_insert_ne by (intros ->; by apply (Hout x)).
      rewrite relink_lookup, decide_False; [done|]. intros [Hn0 Ey]. destruct (fl s) as [|z l] eqn:El; [done|]. cbn in Ey. subst z.
      pose proof (Hc s) as Hcs. rewrite El in Hcs. destruct Hcs as [(rest2 & Hy2 & Hs2) _].
      destruct (chain_member _ _ _ _ _ (Hc x) Hy) as (n & p & rest' & Hy' & Hs'). rewrite Hy2 in Hy'. injection Hy' as _ _ <-. lia.
  - intros y n p rest' Hy. unfold set_list. apply lookup_insert_Some in Hy as [[<- [= _ _ <-]]|[Ny Hy]].
    + rewrite decide_True by done. by left.
    + apply relink_free in Hy as (p' & Hy). apply Hf in Hy. destruct (decide _) as [Es|]; [|done]. rewrite <- Es. by right.
  - intros x. unfold set_list. destruct (decide _); [|apply Hn]. apply NoDup_cons. split; [apply Hout|apply Hn].
Qed.

Section Heap.
Context (t : table) (fspc : Z) (pages : list Z) (sigma : gmap Z (list Z)) (cells : gmap Z cell) (fl : Z -> list Z).
Context (h : spaces t fspc pages sigma cells fl).

Lemma space_range r b : sigma !! r = Some b -> 0 < r /\ r < file_size t /\ uword 64 r.
Proof.
  intros Hr. destruct (mr_range _ _ _ _ (h_mem _ _ _ _ _ _ h) r b Hr) as (Hp & _ & Hb & Hend). destruct (h_pages _ _ _ _ _ _ h _ Hp).
  pose proof (position_range page_size page_more r). pose proof (h_file _ _ _ _ _ _ h). unfold uword. lia.
Qed.

Lemma cell_range r c : cells !! r = Some c -> 8 <= cell_size c < page_size.
Proof.
  intros Hr. apply (h_cells _ _ _ _ _ _ h) in Hr. destruct (mr_range _ _ _ _ (h_mem _ _ _ _ _ _ h) _ _ Hr) as (_ & Hh & Hb & Hend).
  rewrite length_cell in *. unfold HEADER_SIZE in *. lia.
Qed.

Lemma get_link_ok r b : sigma !! r = Some b -> get_link page_size r t = Ok (ptr r).
Proof.
  intros Hr. destruct (space_range r b Hr) as (H0 & Hf & _). unfold get_link. by rewrite !decide_False by (unfold NULL_FILE_ADDR; lia).
Qed.

Lemma free_pointer_ok s : 8 <= s < page_size -> s mod 8 = 0 -> get_free_space_pointer page_size s = Ok (s / 8).
Proof.
  intros Hs Hmod. unfold get_free_space_pointer, FREE_SPACE_OFFSET, round_up, round_down. rewrite decide_False by lia. rewrite decide_False by done.
  cbn [result_bind]. rewrite (wrap_small 64 (s + 8 - 1)) by (unfold uword; lia).
  assert ((s + 8 - 1) mod 8 = 7) as ->.
  { replace (s + 8 - 1) with (7 + s) by lia. rewrite Z.add_mod, Hmod by done. done. }
  rewrite !wrap_small by (unfold uword; rewrite ?wrap_small; unfold uword; lia). replace (s + 8 - 1 - 7) with s by lia.
  unfold FreeSpace.position_of. by rewrite Z.mod_small by lia.
Qed.

Lemma size_index s : 8 <= s < page_size -> s mod 8 = 0 -> 1 <= s / 8 < page_size / 8 /\ 8 * (s / 8) = s.
Proof.
  intros Hs Hmod. pose proof (Z.div_mod s 8 ltac:(lia)). pose proof (Z.div_mod page_size 8 ltac:(lia)). lia.
Qed.

Lemma get_first_ok s : 8 <= s < page_size -> s mod 8 = 0 -> get_first_space fspc (s / 8) t = Ok (hd 0 (fl s)).
Proof.
  intros Hs Hmod. destruct (size_index s Hs Hmod) as [Hi E]. destruct (h_first _ _ _ _ _ _ h) as (refs & Hp & _ & Hrefs).
  unfold get_first_space. rewrite Hp. unfold reference_at. by rewrite Hrefs, E by done.
Qed.

Lemma set_first_ok s l : 8 <= s < page_size -> s mod 8 = 0 ->
  exists references, set_first_space fspc (s / 8) (hd 0 l) t = Ok (with_page fspc (FSPC references) t) /\
    Z.of_nat (length references) = page_size / 8 /\
    forall i, 1 <= i < page_size / 8 -> references !! Z.to_nat i = Some (hd 0 (set_list fl s l (8 * i))).
Proof.
  intros Hs Hmod. destruct (size_index s Hs Hmod) as [Hi E]. destruct (h_first _ _ _ _ _ _ h) as (refs & Hp & Hlen & Hrefs).
  exists (<[Z.to_nat (s / 8) := hd 0 l]> refs). unfold set_first_space. rewrite Hp. unfold reference_at. rewrite Hrefs by done. cbn [result_bind].
  split; [done|]. split; [by rewrite length_insert|]. intros i Hr. unfold set_list. destruct (decide (8 * i = s)) as [Ei|Ni].
  - replace i with (s / 8) by lia. apply list_lookup_insert_eq. lia.
  - rewrite list_lookup_insert_ne by lia. by apply Hrefs.
Qed.

(** The members of a list are spaces. *)
Lemma member_space s r : lists cells fl -> r ∈ fl s -> exists n p rest, cells !! r = Some (Free n p rest) /\ cell_size (Free n p rest) = s /\
  0 < r /\ uword 64 r /\ 8 <= s < page_size /\ s mod 8 = 0.
Proof.
  intros hl Hr. destruct (chain_member _ _ _ _ _ (h_chain _ _ hl s) Hr) as (n & p & rest & Hc & Hs). exists n, p, rest.
  pose proof (cell_range _ _ Hc) as Hrange. pose proof (h_size _ _ _ _ _ _ h _ _ Hc) as Hmod. cbn [cell_size] in *. rewrite Hs in Hrange, Hmod.
  destruct (space_range r _ (h_cells _ _ _ _ _ _ h _ _ Hc)) as (? & _ & ?). by repeat (split; [done|]).
Qed.

(** ** Writing *)

Lemma page_of_space r b : sigma !! r = Some b -> r - position_of r ∈ pages.
Proof. intros Hr. by apply (mr_range _ _ _ _ (h_mem _ _ _ _ _ _ h) r b). Qed.

Lemma spaces_wrote cells' r set v b b0 : wrote page_size t pages sigma r set v b -> sigma !! r = Some b0 ->
  (forall x c, cells' !! x = Some c -> cell_size c mod 8 = 0 /\ <[r := b]> sigma !! x = Some (encode c)) ->
  exists t', set v t = Ok t' /\ changes pages t t' /\ spaces t' fspc pages (<[r := b]> sigma) cells' fl.
Proof.
  intros (bytes & Eset & Hmem) Hr Hcells. pose proof (page_of_space _ _ Hr) as Hp. eexists. split; [exact Eset|].
  split; [by apply changes_page|]. split; [exact Hmem|intros; by apply Hcells|intros; by eapply Hcells| | | |].
  - destruct (h_first _ _ _ _ _ _ h) as (refs & Hf & Hrest). exists refs. split; [|done]. cbn. rewrite lookup_insert_ne; [done|].
    intros E. apply (h_fspc _ _ _ _ _ _ h). by rewrite <- E.
  - apply (h_pages _ _ _ _ _ _ h).
  - apply (h_fspc _ _ _ _ _ _ h).
  - apply (h_file _ _ _ _ _ _ h).
Qed.

(** In a space that is not one of [cells]. *)
Lemma write_raw r set v b b0 : wrote page_size t pages sigma r set v b -> sigma !! r = Some b0 -> cells !! r = None ->
  exists t', set v t = Ok t' /\ changes pages t t' /\ spaces t' fspc pages (<[r := b]> sigma) cells fl.
Proof.
  intros Hw Hr Hc. apply (spaces_wrote cells r set v b b0 Hw Hr). intros x c Hx. split; [by eapply (h_size _ _ _ _ _ _ h)|].
  rewrite lookup_insert_ne by congruence. by apply (h_cells _ _ _ _ _ _ h).
Qed.

(** The link of a free space to the one before. *)
Lemma write_previous r n p rest v : cells !! r = Some (Free n p rest) ->
  exists t', set_link_previous (ptr r) v t = Ok t' /\ changes pages t t' /\
    spaces t' fspc pages (<[r := encode (Free n v rest)]> sigma) (alter (with_previous v) r cells) fl.
Proof.
  intros Hc. pose proof (h_cells _ _ _ _ _ _ h _ _ Hc) as Hr. eapply spaces_wrote; [|exact Hr|].
  - eapply set_previous_ok; [done|apply (h_mem _ _ _ _ _ _ h)|apply encode_shape|exact Hr].
  - intros x c Hx. destruct (decide (r = x)) as [<-|N].
    + rewrite lookup_alter_eq, Hc in Hx. injection Hx as <-. rewrite lookup_insert_eq. split; [by apply (h_size _ _ _ _ _ _ h _ _ Hc)|done].
    + rewrite lookup_alter_ne in Hx by done. rewrite lookup_insert_ne by done. split; [by eapply (h_size _ _ _ _ _ _ h)|by apply (h_cells _ _ _ _ _ _ h)].
Qed.

(** The first of a list. *)
Lemma write_first s l : 8 <= s < page_size -> s mod 8 = 0 ->
  exists t', set_first_space fspc (s / 8) (hd 0 l) t = Ok t' /\ changes [fspc] t t' /\ spaces t' fspc pages sigma cells (set_list fl s l).
Proof.
  intros Hs Hmod. destruct (set_first_ok s l Hs Hmod) as (refs & E & Hlen & Hrefs). eexists. split; [exact E|].
  split; [apply changes_page; by left|]. split; try apply h.
  - eapply mem_same; [apply h|]. intros x Hx. cbn. apply lookup_insert_ne. intros <-. by apply (h_fspc _ _ _ _ _ _ h).
  - exists refs. split; [apply lookup_insert_eq|done].
Qed.
End Heap.

Lemma spaces_sub t fspc pages sigma cells cells' fl : spaces t fspc pages sigma cells fl ->
  (forall x c, cells' !! x = Some c -> cells !! x = Some c) -> spaces t fspc pages sigma cells' fl.
Proof. intros [H1 H2 H3 H4 H5 H6 H7] H. split; eauto. Qed.

Lemma changes_sub l l' t t' : changes l t t' -> l ⊆ l' -> changes l' t t'.
Proof. intros [H1 H2 H3 H4] Hl. split; [|done|done|]; [intros x Hx; apply H1; set_solver|intros ? used Hu; apply H4; set_solver]. Qed.

Lemma of_le_small (k : nat) x w : 8 * Z.of_nat k = w -> 0 <= x < 2 ^ w -> of_le (le k x) = x.
Proof. intros <- Hx. by apply of_le_le_small. Qed.

(** unlink_space() of the first space of a list. *)
Lemma unlink_ok t fspc pages sigma cells fl s r l : spaces t fspc pages sigma cells fl -> lists cells fl -> fl s = r :: l ->
  exists t' sigma', unlink_space page_size fspc (ptr r) t = Ok t' /\ changes (fspc :: pages) t t' /\
    spaces t' fspc pages sigma' (relink (hd 0 l) 0 (delete r cells)) (set_list fl s l) /\
    lists (relink (hd 0 l) 0 (delete r cells)) (set_list fl s l) /\
    (forall x, cells !! x = None \/ x = r -> sigma' !! x = sigma !! x).
Proof.
  intros h hl E. assert (r ∈ fl s) as Hin by (rewrite E; by left).
  destruct (member_space _ _ _ _ _ _ h s r hl Hin) as (_ & _ & _ & _ & _ & Hr0 & _ & Hs & Hmod).
  pose proof (h_chain _ _ hl s) as Hc. rewrite E in Hc. destruct Hc as [(rest & Hcell & Hsize) _].
  assert (forall x, x ∈ fl s -> x <> 0) as Hne by (intros x Hx; destruct (member_space _ _ _ _ _ _ h s x hl Hx) as (_ & _ & _ & _ & _ & ? & _); lia).
  assert (uword 64 (hd 0 l)) as Hn64.
  { destruct l as [|r2 l]; [done|]. by destruct (member_space _ _ _ _ _ _ h s r2 hl ltac:(rewrite E; right; left)) as (_ & _ & _ & _ & _ & _ & ? & _). }
  pose proof (lists_pop cells fl s r l hl E Hne) as Hlists. pose proof (h_cells _ _ _ _ _ _ h _ _ Hcell) as Hr. cbn [encode cell_size] in Hr. rewrite Hsize in Hr.
  unfold unlink_space. rewrite (get_previous_ok _ page_more _ _ _ _ _ _ _ _ _ _ (h_mem _ _ _ _ _ _ h) (encode_shape _ _ _ _ _) Hr).
  rewrite (of_le_small 8 0 64) by done. cbn [result_bind]. rewrite decide_False by (intros Hx; by apply Hx).
  rewrite (get_size_ok _ page_more _ _ _ _ _ _ _ (h_mem _ _ _ _ _ _ h) (length_le _ _) (length_le _ _) Hr), (of_le_small 3 s 24) by lia. cbn [result_bind].
  rewrite free_pointer_ok by done. cbn [result_bind].
  rewrite (get_next_ok _ page_more _ _ _ _ _ _ _ _ _ _ (h_mem _ _ _ _ _ _ h) (encode_shape _ _ _ _ _) Hr), (of_le_small 8 _ 64) by (done || apply Hn64). cbn [result_bind].
  destruct (write_first _ _ _ _ _ _ h s l Hs Hmod) as (t1 & -> & Hch1 & h1). cbn [result_bind].
  rewrite (get_next_ok _ page_more _ _ _ _ _ _ _ _ _ _ (h_mem _ _ _ _ _ _ h1) (encode_shape _ _ _ _ _) Hr), (of_le_small 8 _ 64) by (done || apply Hn64). cbn [result_bind].
  destruct (decide (hd 0 l <> NULL_FILE_ADDR)) as [Hnext|Hnull].
  - destruct l as [|r2 l2]; [done|]. cbn [hd] in *.
    destruct (member_space _ _ _ _ _ _ h s r2 hl ltac:(rewrite E; right; left)) as (n2 & p2 & rest2 & Hc2 & _).
    rewrite (get_link_ok _ _ _ _ _ _ h1 r2 _ (h_cells _ _ _ _ _ _ h1 _ _ Hc2)). cbn [result_bind].
    rewrite (get_previous_ok _ page_more _ _ _ _ _ _ _ _ _ _ (h_mem _ _ _ _ _ _ h1) (encode_shape _ _ _ _ _) Hr), (of_le_small 8 0 64) by done. cbn [result_bind].
    destruct (write_previous _ _ _ _ _ _ h1 r2 n2 p2 rest2 0 Hc2) as (t2 & E2 & Hch2 & h2). exists t2, (<[r2 := encode (Free n2 0 rest2)]> sigma).
    assert (r <> r2) as Nr. { pose proof (h_nodup _ _ hl s) as Hnd. rewrite E in Hnd. apply NoDup_cons in Hnd as [Hout _]. intros ->. apply Hout. by left. }
    split; [exact E2|]. split; [|split; [|split; [done|]]].
    + eapply changes_trans; [eapply changes_sub; [exact Hch1|set_solver]|eapply changes_sub; [exact Hch2|set_solver]].
    + eapply spaces_sub; [exact h2|]. intros x c. rewrite relink_lookup. destruct (decide _) as [[_ <-]|Hx].
      * rewrite lookup_delete_ne by done. by rewrite lookup_alter_eq.
      * intros Hx'. apply lookup_delete_Some in Hx' as [_ Hx']. rewrite lookup_alter_ne by (intros ->; tauto). done.
    + intros x Hx. apply lookup_insert_ne. intros ->. destruct Hx; congruence.
  - apply dec_stable in Hnull. exists t1, sigma. split; [done|]. split; [eapply changes_sub; [exact Hch1|set_solver]|]. split; [|split; [done|done]].
    eapply spaces_sub; [exact h1|]. intros x c. unfold relink. rewrite decide_True by done. by intros [_ ?]%lookup_delete_Some.
Qed.

(** link_space() of a space that is not in the lists. *)
Lemma link_ok t fspc pages sigma cells fl s q d n p rest : spaces t fspc pages sigma cells fl -> lists cells fl ->
  sigma !! q = Some (link_bytes (le 3 s) (le 1 0) d n p rest) -> link_shape (le 3 s) (le 1 0) d n p -> cells !! q = None ->
  24 + Z.of_nat (length rest) = s -> s mod 8 = 0 -> s < page_size ->
  let cells' := <[q := Free (hd 0 (fl s)) 0 rest]> (relink (hd 0 (fl s)) q cells) in
  exists t' sigma', link_space page_size fspc q (ptr q) t = Ok t' /\ changes (fspc :: pages) t t' /\
    spaces t' fspc pages sigma' cells' (set_list fl s (q :: fl s)) /\ lists cells' (set_list fl s (q :: fl s)) /\
    (forall x, cells !! x = None -> x <> q -> sigma' !! x = sigma !! x).
Proof.
  intros h hl Hq Hshape Hcq Hsize Hmod Hs cells'.
  assert (forall x, x ∈ fl s -> x <> 0) as Hne by (intros x Hx; destruct (member_space _ _ _ _ _ _ h s x hl Hx) as (_ & _ & _ & _ & _ & ? & _); lia).
  pose proof (lists_push cells fl s q rest hl Hcq Hsize Hne) as Hlists. fold cells' in Hlists.
  assert (forall y, hd 0 (fl s) = y -> y <> 0 -> y ∈ fl s) as Hhd by (intros y <- Hy; destruct (fl s); [done|by left]).
  unfold link_space. rewrite (get_size_ok _ page_more _ _ _ _ _ _ _ (h_mem _ _ _ _ _ _ h) (length_le _ _) (length_le _ _) Hq), (of_le_small 3 s 24) by lia. cbn [result_bind].
  rewrite free_pointer_ok by (done || lia). cbn [result_bind].
  rewrite (get_flags_ok _ page_more _ _ _ _ _ _ _ (h_mem _ _ _ _ _ _ h) (length_le _ _) (length_le _ _) Hq), (of_le_small 1 0 8) by done. cbn [result_bind].
  destruct (write_raw _ _ _ _ _ _ h q _ _ _ _ (set_flags_ok _ page_more _ _ _ _ _ _ _ (h_mem _ _ _ _ _ _ h) (length_le _ _) (length_le _ _) Hq (Z.land 0 (Z.lnot FREE_SPACE_FLAG_ALLOCATED))) Hq Hcq) as (t1 & -> & Hch1 & h1).
  cbn [result_bind]. rewrite Z.land_0_l in h1. change (le 3 s ++ le 1 0 ++ d ++ n ++ p ++ rest) with (link_bytes (le 3 s) (le 1 0) d n p rest) in h1. rewrite (insert_id _ _ _ Hq) in h1.
  destruct (write_raw _ _ _ _ _ _ h1 q _ _ _ _ (set_padding_ok _ page_more _ _ _ _ _ _ _ _ _ _ (h_mem _ _ _ _ _ _ h1) Hshape Hq 0) Hq Hcq) as (t2 & -> & Hch2 & h2).
  cbn [result_bind]. rewrite (get_first_ok _ _ _ _ _ _ h2 s) by (done || lia). cbn [result_bind].
  assert (link_shape (le 3 s) (le 1 0) (le 4 0) n p) as Hshape2 by (destruct Hshape; split; done).
  pose proof (lookup_insert_eq sigma q (link_bytes (le 3 s) (le 1 0) (le 4 0) n p rest)) as Hq2.
  destruct (write_raw _ _ _ _ _ _ h2 q _ _ _ _ (set_next_ok _ page_more _ _ _ _ _ _ _ _ _ _ (h_mem _ _ _ _ _ _ h2) Hshape2 Hq2 (hd 0 (fl s))) Hq2 Hcq) as (t3 & -> & Hch3 & h3).
  cbn [result_bind]. rewrite insert_insert_eq in h3. pose proof (lookup_insert_eq sigma q (link_bytes (le 3 s) (le 1 0) (le 4 0) (le 8 (hd 0 (fl s))) p rest)) as Hq3.
  assert (link_shape (le 3 s) (le 1 0) (le 4 0) (le 8 (hd 0 (fl s))) p) as Hshape3 by (destruct Hshape; split; try done; apply length_le).
  destruct (write_raw _ _ _ _ _ _ h3 q _ _ _ _ (set_previous_ok _ page_more _ _ _ _ _ _ _ _ _ _ (h_mem _ _ _ _ _ _ h3) Hshape3 Hq3 NULL_FILE_ADDR) Hq3 Hcq) as (t4 & -> & Hch4 & h4).
  cbn [result_bind]. rewrite insert_insert_eq in h4.
  assert (changes (fspc :: pages) t t4) as Hch.
  { apply (changes_sub pages); [|set_solver]. eapply changes_trans; [exact Hch1|]. eapply changes_trans; [exact Hch2|]. by eapply changes_trans. }
  clear h1 h2 h3 Hch1 Hch2 Hch3 Hch4 Hq2 Hq3 Hshape2 Hshape3 t1 t2 t3.
  change (link_bytes _ _ _ _ _ _) with (link_bytes (le 3 s) (le 1 0) (le 4 0) (le 8 (hd 0 (fl s))) (le 8 0) rest) in h4.
  assert (link_bytes (le 3 s) (le 1 0) (le 4 0) (le 8 (hd 0 (fl s))) (le 8 0) rest = encode (Free (hd 0 (fl s)) 0 rest)) as Eenc by (cbn [encode cell_size]; by rewrite Hsize).
  rewrite Eenc in h4. set (sigma4 := <[q := encode (Free (hd 0 (fl s)) 0 rest)]> sigma) in *.
  assert (exists t5 sigma5, (if decide (hd 0 (fl s) <> NULL_FILE_ADDR) then let! q0 := get_link page_size (hd 0 (fl s)) t4 in set_link_previous q0 q t4 else Ok t4) = Ok t5 /\
    changes (fspc :: pages) t4 t5 /\ spaces t5 fspc pages sigma5 (relink (hd 0 (fl s)) q cells) fl /\ sigma5 !! q = Some (encode (Free (hd 0 (fl s)) 0 rest)) /\
    (forall x, cells !! x = None -> x <> q -> sigma5 !! x = sigma !! x)) as (t5 & sigma5 & -> & Hch5 & h5 & Hq5 & Hother).
  { destruct (decide (hd 0 (fl s) <> NULL_FILE_ADDR)) as [Hnext|Hnull].
    - destruct (member_space _ _ _ _ _ _ h s (hd 0 (fl s)) hl ltac:(by apply Hhd)) as (n2 & p2 & rest2 & Hc2 & _).
      rewrite (get_link_ok _ _ _ _ _ _ h4 _ _ (h_cells _ _ _ _ _ _ h4 _ _ Hc2)). cbn [result_bind].
      destruct (write_previous _ _ _ _ _ _ h4 _ n2 p2 rest2 q Hc2) as (t5 & E5 & Hch5 & h5). assert (hd 0 (fl s) <> q) as Nq by congruence.
      eexists t5, _. split; [exact E5|]. split; [eapply changes_sub; [exact Hch5|set_solver]|]. split; [unfold relink; rewrite decide_False by done; exact h5|].
      split; [rewrite lookup_insert_ne by done; apply lookup_insert_eq|]. intros x Hx Nx. rewrite lookup_insert_ne by congruence. by apply lookup_insert_ne.
    - apply dec_stable in Hnull. exists t4, sigma4. split; [done|]. split; [apply changes_refl|]. split; [unfold relink; by rewrite decide_True|].
      split; [apply lookup_insert_eq|]. intros x Hx Nx. by apply lookup_insert_ne. }
  cbn [result_bind]. destruct (write_first _ _ _ _ _ _ h5 s (q :: fl s)) as (t6 & E6 & Hch6 & h6); [lia|done|]. cbn [hd] in E6. exists t6, sigma5.
  split; [exact E6|]. split; [eapply changes_trans; [exact Hch|]; eapply changes_trans; [exact Hch5|]; eapply changes_sub; [exact Hch6|set_solver]|].
  split; [|by split]. destruct h6 as [H1 H2 H3 H4 H5 H6 H7]. split; try done.
  - intros x c Hx. apply lookup_insert_Some in Hx as [[<- <-]|[_ Hx]]; [done|by apply H2].
  - intros x c Hx. apply lookup_insert_Some in Hx as [[<- <-]|[_ Hx]]; [cbn [cell_size]; by rewrite Hsize|by eapply H3].
Qed.
End Lists.
