(* ===== verification/FreeSpaceProps.v ===== *)
(** * Properties of the free space of rows

    get_free_space() gives a part of a free space, of the size that is wanted or of
    the first larger size that has one, or a part of a new page; the other used
    spaces keep their data. *)

From S2P Require Import Prelude Names Bytes IndirectIndex IndirectIndexProps FreeSpace FreeSpaceMemory FreeSpaceLists.

Section Properties.
Context (page_size : Z) {page_ok : PageSize page_size}.
Let large : 256 < page_size <= 2 ^ 24 := page_large.
Let aligned : page_size mod 8 = 0 := page_aligned.

Notation ptr := (ptr page_size).
Notation position_of := (position_of page_size).
Notation spaces := (spaces page_size).
Notation alloc_wf := (alloc_wf page_size).
Notation changes := (changes page_size).

Lemma page_over_8 : 8 < page_size.
Proof. lia. Qed.
Hint Resolve page_over_8 : core.

(** The spaces of the pages [pages] are [cells]. *)
Definition heap_rep (t : table) (fspc : Z) (pages : list Z) (cells : gmap Z cell) : Prop :=
  exists sigma fl, spaces t fspc pages sigma cells fl /\ lists cells fl.

Lemma lists_used cells fl r data : lists cells fl -> cells !! r = None -> lists (<[r := Used data]> cells) fl.
Proof.
  intros [Hc Hf Hn] Hr. split; [|intros x n p rest [[_ [=]]|[_ Hx]]%lookup_insert_Some; by eapply Hf|done].
  intros s. eapply chain_ext; [apply Hc|]. intros x Hx. destruct (chain_member _ _ _ _ _ (Hc s) Hx) as (n & p & rest & Hx' & _).
  apply lookup_insert_ne. congruence.
Qed.

Lemma spaces_add t fspc pages sigma cells fl r c : spaces t fspc pages sigma cells fl -> sigma !! r = Some (encode c) -> cell_size c mod 8 = 0 ->
  spaces t fspc pages sigma (<[r := c]> cells) fl.
Proof.
  intros [H1 H2 H3 H4 H5 H6 H7] Hr Hc. split; try done; intros x d [[<- <-]|[_ Hx]]%lookup_insert_Some; eauto.
Qed.

(** The flag is set last. *)
Lemma allocated_ok t fspc pages sigma cells fl r s f d flags : spaces t fspc pages sigma cells fl -> lists cells fl ->
  sigma !! r = Some (le 3 s ++ le 1 f ++ d) -> cells !! r = None -> s = 4 + Z.of_nat (length d) -> s mod 8 = 0 -> Z.lor flags 1 = 1 ->
  exists t', set_link_flags (ptr r) (Z.lor flags FREE_SPACE_FLAG_ALLOCATED) t = Ok t' /\ changes pages t t' /\
    heap_rep t' fspc pages (<[r := Used d]> cells).
Proof.
  intros h hl Hr Hc Hs Hmod Hf. unfold FREE_SPACE_FLAG_ALLOCATED. rewrite Hf.
  destruct (write_raw _ _ _ _ _ _ _ h r _ _ _ _ (set_flags_ok _ page_over_8 _ _ _ _ _ _ _ (h_mem _ _ _ _ _ _ _ h) (length_le _ _) (length_le _ _) Hr 1) Hr Hc)
    as (t' & E & Hch & h'). exists t'. split; [exact E|]. split; [exact Hch|]. eexists _, fl. split; [|by apply lists_used].
  apply spaces_add; [exact h'| |by cbn [cell_size]; rewrite <- Hs]. rewrite lookup_insert_eq. cbn [encode cell_size]. by rewrite Hs.
Qed.

Lemma get_flags_0 t fspc pages sigma cells fl r s d : spaces t fspc pages sigma cells fl -> sigma !! r = Some (le 3 s ++ le 1 0 ++ d) ->
  get_link_flags (ptr r) t = Ok 0.
Proof.
  intros h Hr. rewrite (get_flags_ok _ page_over_8 _ _ _ _ _ _ _ (h_mem _ _ _ _ _ _ _ h) (length_le _ _) (length_le _ _) Hr). done.
Qed.

Lemma changes_more fspc pages t t' : changes pages t t' -> changes (fspc :: pages) t t'.
Proof. intros H. eapply changes_sub; [done|exact H|set_solver]. Qed.

(** The reference of the data of a space. *)
Lemma reference_ok t fspc pages sigma cells fl r b : spaces t fspc pages sigma cells fl -> sigma !! r = Some b -> wrap 64 (r + META_SIZE) = r + 4.
Proof.
  intros h Hr. unfold META_SIZE. destruct (space_range _ _ _ _ _ _ _ h r _ Hr) as (H0 & _ & _).
  destruct (mr_range _ _ _ _ (h_mem _ _ _ _ _ _ _ h) _ _ Hr) as (Hp & _ & Hb & Hend). destruct (h_pages _ _ _ _ _ _ _ h _ Hp). pose proof (h_file _ _ _ _ _ _ _ h).
  apply wrap_small. unfold uword. lia.
Qed.

(** ** A free space *)

(** The free space [r], the first of its list, is not in the lists any more. *)
Definition without (cells : gmap Z cell) (r : Z) (l : list Z) : gmap Z cell := relink (hd 0 l) 0 (delete r cells).

Lemma without_self cells r l : without cells r l !! r = None.
Proof. unfold without. rewrite relink_lookup, lookup_delete_eq. by destruct (decide _). Qed.

Lemma without_none cells r l x : cells !! x = None -> without cells r l !! x = None.
Proof.
  intros Hx. unfold without. rewrite relink_lookup. assert (delete r cells !! x = None) as -> by (by apply lookup_delete_None; right). by destruct (decide _).
Qed.

Lemma without_used cells r l x data : cells !! x = Some (Used data) -> (forall d, cells !! r <> Some (Used d)) -> without cells r l !! x = Some (Used data).
Proof.
  intros Hx Hr. unfold without. rewrite relink_lookup, lookup_delete_ne by (intros <-; by eapply Hr). rewrite Hx. by destruct (decide _).
Qed.

Lemma take_space_ok t fspc pages sigma cells fl r l m : spaces t fspc pages sigma cells fl -> lists cells fl -> fl m = r :: l ->
  exists t' data, take_space page_size fspc r m t = Ok (t', FreeSpace (r + 4) m) /\ changes (fspc :: pages) t t' /\
    heap_rep t' fspc pages (<[r := Used data]> (without cells r l)) /\ cell_size (Used data) = m.
Proof.
  intros h hl E. assert (r ∈ fl m) as Hin by (rewrite E; by left).
  destruct (member_space _ _ _ _ _ _ _ h m r hl Hin) as (n & p & rest & Hc & Hs & Hr0 & Hr64 & Hm & Hmod).
  pose proof (h_cells _ _ _ _ _ _ _ h _ _ Hc) as Hr.
  destruct (unlink_ok _ _ _ _ _ _ _ m r l h hl E) as (t1 & sigma1 & Eun & Hch1 & h1 & hl1 & Hsame1).
  unfold take_space. rewrite (get_link_ok _ _ _ _ _ _ _ h _ _ Hr). cbn [result_bind]. rewrite Eun. cbn [result_bind]. fold (without cells r l) in *.
  assert (sigma1 !! r = Some (le 3 m ++ le 1 0 ++ le 4 0 ++ le 8 n ++ le 8 p ++ rest)) as Hr1 by (rewrite Hsame1, Hr by tauto; cbn [encode]; by rewrite Hs).
  destruct (write_raw _ _ _ _ _ _ _ h1 r _ _ _ _ (set_size_ok _ page_over_8 _ _ _ _ _ _ _ (h_mem _ _ _ _ _ _ _ h1) (length_le _ _) (length_le _ _) Hr1 m) Hr1 (without_self _ _ _))
    as (t2 & -> & Hch2 & h2). cbn [result_bind]. rewrite (insert_id _ _ _ Hr1) in h2. unfold allocated. rewrite (get_flags_0 _ _ _ _ _ _ _ _ _ h2 Hr1). cbn [result_bind].
  destruct (allocated_ok _ _ _ _ _ _ r m 0 _ 0 h2 hl1 Hr1 (without_self _ _ _)) as (t3 & -> & Hch3 & h3); [|done|done|].
  { cbn [cell_size] in Hs. rewrite !length_app, !length_le. lia. }
  cbn [result_bind]. eexists t3, _. split; [|split; [|split; [exact h3|]]].
  - by rewrite (reference_ok _ _ _ _ _ _ _ _ h Hr).
  - eapply changes_trans; [exact Hch1|]. eapply changes_trans; apply changes_more; [exact Hch2|exact Hch3].
  - cbn [cell_size] in *. rewrite !length_app, !length_le. lia.
Qed.

(** ** A space that is cut *)

Lemma cut_list (k : nat) (b : list Z) : (k <= length b)%nat -> exists x y, b = x ++ y /\ length x = k.
Proof. intros Hk. exists (take k b), (drop k b). rewrite take_drop, length_take. split; [done|lia]. Qed.

Lemma cut_link (b : list Z) : (24 <= length b)%nat -> exists xs xf xd xn xp rest, b = link_bytes xs xf xd xn xp rest /\ link_shape xs xf xd xn xp.
Proof.
  intros Hb. destruct (cut_list 3 b) as (xs & b1 & -> & H1); [lia|]. rewrite length_app in Hb.
  destruct (cut_list 1 b1) as (xf & b2 & -> & H2); [lia|]. rewrite length_app in Hb. destruct (cut_list 4 b2) as (xd & b3 & -> & H3); [lia|]. rewrite length_app in Hb.
  destruct (cut_list 8 b3) as (xn & b4 & -> & H4); [lia|]. rewrite length_app in Hb. destruct (cut_list 8 b4) as (xp & rest & -> & H5); [lia|].
  by exists xs, xf, xd, xn, xp, rest.
Qed.

(** The space [r] of [s] bytes as two spaces, the second of which is large enough
    for links. *)
Lemma split_ok t fspc pages sigma cells fl r s z f d m : spaces t fspc pages sigma cells fl -> sigma !! r = Some (le 3 z ++ le 1 f ++ d) ->
  cells !! r = None -> s = 4 + Z.of_nat (length d) -> 8 <= m -> 24 <= s - m ->
  exists sigma' d1 xs xf xd xn xp rest, spaces t fspc pages sigma' cells fl /\ sigma' !! r = Some (le 3 z ++ le 1 f ++ d1) /\
    4 + Z.of_nat (length d1) = m /\ sigma' !! (r + m) = Some (link_bytes xs xf xd xn xp rest) /\ link_shape xs xf xd xn xp /\
    24 + Z.of_nat (length rest) = s - m /\ cells !! (r + m) = None /\ shift (ptr r) m = ptr (r + m).
Proof.
  intros h Hr Hc Hs Hm Hrem. destruct (mr_range _ _ _ _ (h_mem _ _ _ _ _ _ _ h) _ _ Hr) as (_ & _ & _ & Hend). rewrite !length_app, !length_le in Hend.
  destruct (cut_list (Z.to_nat m - 4) d) as (d1 & b & -> & Hd1); [lia|]. rewrite length_app in Hs, Hend.
  destruct (cut_link b) as (xs & xf & xd & xn & xp & rest & Eb & Hshape); [lia|].
  assert (le 3 z ++ le 1 f ++ d1 ++ b = (le 3 z ++ le 1 f ++ d1) ++ b) as E by (by rewrite <- !app_assoc). rewrite E in Hr.
  destruct (mem_split _ page_over_8 _ _ _ _ _ _ (h_mem _ _ _ _ _ _ _ h) Hr) as [Hmem Hnone]; [rewrite !length_app, !length_le; lia|lia|].
  replace (r + Z.of_nat (length (le 3 z ++ le 1 f ++ d1))) with (r + m) in * by (rewrite !length_app, !length_le; lia).
  assert (cells !! (r + m) = None) as Hcm. { destruct (cells !! (r + m)) eqn:Ec; [|done]. apply (h_cells _ _ _ _ _ _ _ h) in Ec. congruence. }
  exists (<[r + m := b]> (<[r := le 3 z ++ le 1 f ++ d1]> sigma)), d1, xs, xf, xd, xn, xp, rest.
  split; [|split; [|split; [lia|split; [rewrite lookup_insert_eq; by rewrite Eb|split; [done|split; [|split; [done|]]]]]]].
  - destruct h as [H1 H2 H3 H4 H5 H6 H7]. split; [exact Hmem| |exact H3|exact H4|exact H5|exact H6|exact H7]. intros x c Hx. rewrite !lookup_insert_ne by congruence. by apply H2.
  - rewrite lookup_insert_ne by lia. apply lookup_insert_eq.
  - rewrite Eb, link_length in Hs by done. lia.
  - apply ptr_shift; lia.
Qed.

(** A space that is given its size and is linked. *)
Lemma link_new_ok t fspc pages sigma cells fl q s xf xd xn xp rest : spaces t fspc pages sigma cells fl -> lists cells fl ->
  sigma !! q = Some (link_bytes (le 3 s) xf xd xn xp rest) -> link_shape (le 3 s) xf xd xn xp -> cells !! q = None ->
  24 + Z.of_nat (length rest) = s -> s mod 8 = 0 -> s < page_size ->
  let cells' := <[q := Free (hd 0 (fl s)) 0 rest]> (relink (hd 0 (fl s)) q cells) in
  exists t' sigma' fl', (let! t := set_link_flags (ptr q) 0 t in link_space page_size fspc q (ptr q) t) = Ok t' /\ changes (fspc :: pages) t t' /\
    spaces t' fspc pages sigma' cells' fl' /\ lists cells' fl' /\
    (forall x, cells !! x = None -> x <> q -> sigma' !! x = sigma !! x).
Proof.
  intros h hl Hq Hshape Hc Hs Hmod Hlt cells'. pose proof Hshape as [Hl1 Hl2 Hl3 Hl4 Hl5].
  destruct (write_raw _ _ _ _ _ _ _ h q _ _ _ _ (set_flags_ok _ page_over_8 _ _ _ _ _ _ _ (h_mem _ _ _ _ _ _ _ h) Hl1 Hl2 Hq 0) Hq Hc) as (t1 & -> & Hch1 & h1). cbn [result_bind].
  destruct (link_ok _ _ _ _ _ _ fl s q xd xn xp rest h1 hl (lookup_insert_eq _ _ _)) as (t2 & sigma2 & E2 & Hch2 & h2 & hl2 & Hsame); [by split; rewrite ?length_le|done..|].
  exists t2, sigma2, (set_list fl s (q :: fl s)). split; [exact E2|]. split; [eapply changes_trans; [by apply changes_more|done]|]. split; [done|]. split; [done|].
  intros x Hx Nx. rewrite Hsame by done. by apply lookup_insert_ne.
Qed.

(** The spaces after the space [r] is cut. *)
Definition after_cut (cells : gmap Z cell) (r m s : Z) (cells' : gmap Z cell) : Prop :=
  exists h rest, cells' = <[r + m := Free h 0 rest]> (relink h (r + m) cells) /\ 24 + Z.of_nat (length rest) = s - m /\ cells !! (r + m) = None.

Lemma after_cut_none cells r m s cells' x : after_cut cells r m s cells' -> cells !! x = None -> x <> r + m -> cells' !! x = None.
Proof.
  intros (h & rest & -> & _) Hx Nx. rewrite lookup_insert_ne by done. rewrite relink_lookup, Hx. by destruct (decide _).
Qed.

Lemma break_space_ok t fspc pages sigma cells fl r s f d m : spaces t fspc pages sigma cells fl -> lists cells fl ->
  sigma !! r = Some (le 3 s ++ le 1 f ++ d) -> cells !! r = None -> s = 4 + Z.of_nat (length d) -> 8 <= m -> 24 <= s - m -> m mod 8 = 0 -> s mod 8 = 0 ->
  exists t' sigma' cells' fl' d1, break_space page_size fspc r (ptr r) m (s - m) t = Ok t' /\ changes (fspc :: pages) t t' /\
    spaces t' fspc pages sigma' cells' fl' /\ lists cells' fl' /\ after_cut cells r m s cells' /\
    sigma' !! r = Some (le 3 m ++ le 1 f ++ d1) /\ m = 4 + Z.of_nat (length d1).
Proof.
  intros h hl Hr Hc Hs Hm Hrem Hmod Hsmod. destruct (mr_range _ _ _ _ (h_mem _ _ _ _ _ _ _ h) _ _ Hr) as (_ & Hh & _ & Hend).
  rewrite !length_app, !length_le in Hend. unfold HEADER_SIZE in Hh.
  destruct (split_ok _ _ _ _ _ _ r s s f d m h Hr Hc Hs Hm Hrem) as (sigma1 & d1 & xs & xf & xd & xn & xp & rest & h1 & Hr1 & Hd1 & Hq1 & Hshape & Hrest & Hcq & Eptr).
  pose proof Hshape as [Hl1 Hl2 Hl3 Hl4 Hl5]. assert (r <> r + m) as Nq by lia. unfold break_space. rewrite Eptr.
  destruct (write_raw _ _ _ _ _ _ _ h1 (r + m) _ _ _ _ (set_size_ok _ page_over_8 _ _ _ _ _ _ _ (h_mem _ _ _ _ _ _ _ h1) Hl1 Hl2 Hq1 (s - m)) Hq1 Hcq) as (t2 & -> & Hch2 & h2).
  cbn [result_bind]. assert (<[r + m := le 3 (s - m) ++ xf ++ xd ++ xn ++ xp ++ rest]> sigma1 !! r = Some (le 3 s ++ le 1 f ++ d1)) as Hr2 by (by rewrite lookup_insert_ne).
  destruct (write_raw _ _ _ _ _ _ _ h2 r _ _ _ _ (set_size_ok _ page_over_8 _ _ _ _ _ _ _ (h_mem _ _ _ _ _ _ _ h2) (length_le _ _) (length_le _ _) Hr2 m) Hr2 Hc) as (t3 & -> & Hch3 & h3).
  cbn [result_bind]. set (sigma3 := <[r := _]> _) in h3.
  assert (sigma3 !! (r + m) = Some (link_bytes (le 3 (s - m)) xf xd xn xp rest)) as Hq3 by (unfold sigma3; rewrite lookup_insert_ne by done; apply lookup_insert_eq).
  destruct (link_new_ok _ _ _ _ _ _ _ (s - m) xf xd xn xp rest h3 hl Hq3) as (t4 & sigma4 & fl4 & E4 & Hch4 & h4 & hl4 & Hsame); [by split; rewrite ?length_le|done|done| |lia|].
  { rewrite Zminus_mod, Hmod, Hsmod. done. }
  eexists t4, sigma4, _, fl4, d1. split; [exact E4|]. split; [eapply changes_trans; [apply changes_more; eapply changes_trans; [exact Hch2|exact Hch3]|done]|].
  split; [exact h4|]. split; [exact hl4|]. split; [by eexists _, rest|]. split; [|lia]. rewrite Hsame by done. apply lookup_insert_eq.
Qed.

(** The first free space of [s] bytes, or the start of it. *)
Lemma take_part_ok t fspc pages sigma cells fl r l s m : spaces t fspc pages sigma cells fl -> lists cells fl -> fl s = r :: l ->
  8 <= m <= s -> m mod 8 = 0 ->
  exists t' data cells', take_part page_size fspc r m t = Ok (t', FreeSpace (r + 4) (cell_size (Used data))) /\ changes (fspc :: pages) t t' /\
    heap_rep t' fspc pages (<[r := Used data]> cells') /\
    if decide (24 <= s - m) then cell_size (Used data) = m /\ after_cut (without cells r l) r m s cells'
    else cell_size (Used data) = s /\ cells' = without cells r l.
Proof.
  intros h hl E Hm Hmod. assert (r ∈ fl s) as Hin by (rewrite E; by left).
  destruct (member_space _ _ _ _ _ _ _ h s r hl Hin) as (n & p & rest & Hc & Hs & Hr0 & Hr64 & Hrange & Hsmod).
  pose proof (h_cells _ _ _ _ _ _ _ h _ _ Hc) as Hr.
  destruct (unlink_ok _ _ _ _ _ _ _ s r l h hl E) as (t1 & sigma1 & Eun & Hch1 & h1 & hl1 & Hsame1).
  unfold take_part. rewrite (get_link_ok _ _ _ _ _ _ _ h _ _ Hr), (reference_ok _ _ _ _ _ _ _ _ h Hr). cbn [result_bind]. rewrite Eun. cbn [result_bind]. fold (without cells r l) in *.
  assert (exists d, sigma1 !! r = Some (le 3 s ++ le 1 0 ++ d) /\ s = 4 + Z.of_nat (length d)) as (d & Hr1 & Hd).
  { exists (le 4 0 ++ le 8 n ++ le 8 p ++ rest). rewrite Hsame1, Hr by tauto. cbn [encode cell_size] in *. rewrite Hs. split; [done|]. rewrite !length_app, !length_le. lia. }
  rewrite (get_size_ok _ page_over_8 _ _ _ _ _ _ _ (h_mem _ _ _ _ _ _ _ h1) (length_le _ _) (length_le _ _) Hr1), (of_le_small 3 s 24) by lia. cbn [result_bind].
  rewrite (wrap_small 32 (s - m)) by (unfold uword; lia). pose proof (without_self cells r l) as Hc1. unfold LINK_SIZE. destruct (decide (24 <= s - m)) as [Hcut|Hall].
  - rewrite decide_True by lia.
    destruct (break_space_ok _ _ _ _ _ _ r s 0 d m h1 hl1 Hr1 Hc1 Hd) as (t2 & sigma2 & cells2 & fl2 & d2 & -> & Hch2 & h2 & hl2 & Hafter & Hr2 & Hd2); [lia|done|done|done|].
    cbn [result_bind]. unfold allocated. rewrite (get_flags_0 _ _ _ _ _ _ _ _ _ h2 Hr2). cbn [result_bind].
    pose proof (after_cut_none _ _ _ _ _ r Hafter Hc1 ltac:(lia)) as Hc2.
    destruct (allocated_ok _ _ _ _ _ _ r m 0 _ 0 h2 hl2 Hr2 Hc2 Hd2 Hmod eq_refl) as (t3 & -> & Hch3 & h3). cbn [result_bind].
    exists t3, d2, cells2. cbn [cell_size]. rewrite <- Hd2. split; [done|]. split; [|done].
    eapply changes_trans; [exact Hch1|]. eapply changes_trans; [exact Hch2|]. by apply changes_more.
  - rewrite decide_False by lia. cbn [result_bind]. unfold allocated. rewrite (get_flags_0 _ _ _ _ _ _ _ _ _ h1 Hr1). cbn [result_bind].
    destruct (allocated_ok _ _ _ _ _ _ r s 0 _ 0 h1 hl1 Hr1 Hc1 Hd Hsmod eq_refl) as (t3 & -> & Hch3 & h3). cbn [result_bind].
    exists t3, d, (without cells r l). cbn [cell_size]. rewrite <- Hd. split; [done|]. split; [|done].
    eapply changes_trans; [exact Hch1|]. by apply changes_more.
Qed.

(** The sizes are searched in order. *)
Lemma search_space_ok t fspc pages sigma cells fl m d fuel : spaces t fspc pages sigma cells fl -> lists cells fl -> 1 <= d ->
  (Z.to_nat (page_size / 8 - d) < fuel)%nat ->
  (exists i r l, d <= i < page_size / 8 /\ fl (8 * i) = r :: l /\ (forall j, d <= j < i -> fl (8 * j) = []) /\
    search_space page_size fuel fspc d (page_size / 8) m t = let! s := take_part page_size fspc r m t in Ok (Some s)) \/
  (forall j, d <= j < page_size / 8 -> fl (8 * j) = []) /\ search_space page_size fuel fspc d (page_size / 8) m t = Ok None.
Proof.
  intros h hl. revert d. induction fuel as [|fuel IH]; intros d Hd Hfuel; [lia|]. cbn [search_space]. destruct (decide (d < page_size / 8)) as [Hlt|Hge].
  2:{ right. split; [intros; lia|done]. }
  pose proof (get_first_ok _ _ _ _ _ _ _ h (8 * d)) as Hget. rewrite (Z.mul_comm 8 d), Z.div_mul, Z.mod_mul in Hget by done.
  assert (8 * (page_size / 8) <= page_size) by (apply Z.mul_div_le; lia). rewrite Hget by (done || lia). rewrite (Z.mul_comm d 8). cbn [result_bind].
  destruct (fl (8 * d)) as [|r l] eqn:E.
  - cbn [hd]. rewrite decide_False by (intros Hx; by apply Hx). destruct (IH (d + 1)) as [(i & r & l & Hi & Ei & Hj & Es)|[Hj Es]]; [lia|lia| |].
    + left. exists i, r, l. split; [lia|]. split; [done|]. split; [|done]. intros j Hjr. destruct (decide (j = d)) as [->|]; [done|]. apply Hj. lia.
    + right. split; [|done]. intros j Hjr. destruct (decide (j = d)) as [->|]; [done|]. apply Hj. lia.
  - left. exists d, r, l. split; [lia|]. split; [done|]. split; [intros; lia|]. cbn [hd].
    destruct (member_space _ _ _ _ _ _ _ h (8 * d) r hl ltac:(rewrite E; by left)) as (_ & _ & _ & _ & _ & Hr & _). by rewrite decide_True by (unfold NULL_FILE_ADDR; lia).
Qed.

(** The pages of another use are the same. *)
Lemma changes_rest {n} t t' t0 fspc pages rest : changes (fspc :: pages) t t' -> alloc_wf n t0 (fspc :: pages ++ rest) -> same_pages rest t t'.
Proof.
  intros Hch Hwf x Hx. apply (ch_pages _ _ _ _ Hch). apply alloc_wf_nodup in Hwf. rewrite app_comm_cons in Hwf. apply NoDup_app in Hwf as (_ & Hd & _).
  intros Hin. by apply (Hd x).
Qed.

(** ** A new page *)

(** The new page is a space, after its header. *)
Lemma new_page_ok n t fspc pages rest sigma cells fl : spaces t fspc pages sigma cells fl -> alloc_wf (S n) t (fspc :: pages ++ rest) ->
  file_size t + 16 * page_size <= 2 ^ 64 ->
  exists t' x, allocate_new_block page_size NEW_DATA t = Ok (t', x) /\ alloc_wf n t' (fspc :: (x :: pages) ++ rest) /\ same_header t t' /\ same_pages rest t t' /\
    x ∉ fspc :: pages ++ rest /\ x mod page_size = 0 /\ cells !! (x + 8) = None /\
    spaces t' fspc (x :: pages) (<[x + 8 := le 3 0 ++ le 1 0 ++ replicate (Z.to_nat page_size - 12) 0]> sigma) cells fl.
Proof.
  intros h Hwf Hfile. destruct (allocate_new_block_ok page_size ltac:(lia) NEW_DATA t _ Hwf) as (t' & x & E & Hwf' & Hx & Hh & Hsame & Hout).
  destruct (alloc_wf_used _ _ _ x Hwf' ltac:(by left)) as [Hr [_ Hmod]]. destruct (aw_size _ _ _ _ Hwf') as [_ Hsmod'].
  pose proof (allocate_new_block_size page_size ltac:(lia) _ _ _ _ _ _ Hwf E) as Hgrow. exists t', x. split; [done|].
  split; [eapply alloc_wf_perm; [exact Hwf'|apply Permutation_swap]|]. split; [done|]. split; [eapply same_pages_sub; [exact Hsame|set_solver]|]. split; [done|]. split; [done|].
  assert (f_pages t' !! x = Some (DATA (replicate 8 0 ++ le 3 0 ++ le 1 0 ++ replicate (Z.to_nat page_size - 12) 0))) as Hbytes.
  { rewrite Hx. cbn [fresh]. change (le 3 0) with (replicate 3 0). change (le 1 0) with (replicate 1 0).
    rewrite <- !replicate_add. repeat f_equal. lia. }
  assert (x ∉ pages) as Hxp by set_solver.
  assert (mem_rep page_size t' pages sigma) as Hmem by (eapply mem_same; [apply (h_mem _ _ _ _ _ _ _ h)|eapply same_pages_sub; [exact Hsame|set_solver]]).
  destruct (mem_new _ page_over_8 _ _ _ _ _ _ Hmem Hxp Hbytes) as [Hmem' Hnone]; [rewrite !length_app, !length_le, !length_replicate; lia|done| |done|].
  { rewrite !length_app, !length_le, length_replicate. lia. }
  unfold HEADER_SIZE in *. assert (cells !! (x + 8) = None) as Hc.
  { destruct (cells !! (x + 8)) eqn:Ec; [|done]. apply (h_cells _ _ _ _ _ _ _ h) in Ec. congruence. }
  split; [done|]. destruct h as [H1 H2 H3 H4 H5 H6 H7]. split; [exact Hmem'| |exact H3| | |set_solver|lia].
  - intros r c Hc'. rewrite lookup_insert_ne by congruence. by apply H2.
  - rewrite Hsame by (by left). exact H4.
  - intros y [->|Hy]%elem_of_cons; [|specialize (H5 y Hy); lia]. split; [lia|].
    apply Z.mod_divide in Hmod as [a Ea]; [|lia]. apply Z.mod_divide in Hsmod' as [b Eb]; [|lia]. rewrite Ea, Eb in Hr |- *.
    clear - Hr large. assert (a < b) by nia. nia.
Qed.

(** The end of a page has no room for links. *)
Lemma write_over t pages sigma q b off k v : mem_rep page_size t pages sigma -> sigma !! q = Some b -> position_of q + Z.of_nat (length b) = page_size ->
  Z.of_nat (length b) < off + Z.of_nat k -> set_field (shift (ptr q) off) (Z.of_nat k) v t = Throw undefined_behavior.
Proof.
  intros Hm Hq Hend Hover. destruct (mem_page _ _ _ _ _ _ Hm Hq) as (bytes & Hb & Hl & _). unfold set_field, write_page. cbn. rewrite Hb.
  unfold write_buffer. rewrite decide_False; [done|]. rewrite length_le. lia.
Qed.

Lemma link_over_ok t fspc pages sigma cells fl q s b : spaces t fspc pages sigma cells fl -> sigma !! q = Some (le 3 s ++ le 1 0 ++ b) -> cells !! q = None ->
  s = 4 + Z.of_nat (length b) -> s = 8 \/ s = 16 -> position_of q + s = page_size -> link_space page_size fspc q (ptr q) t = Throw undefined_behavior.
Proof.
  intros h Hq Hc Hs H816 Hend. assert (s mod 8 = 0) as Hmod by (by destruct H816 as [-> | ->]). unfold link_space.
  rewrite (get_size_ok _ page_over_8 _ _ _ _ _ _ _ (h_mem _ _ _ _ _ _ _ h) (length_le _ _) (length_le _ _) Hq), (of_le_small 3 s 24) by lia. cbn [result_bind].
  rewrite free_pointer_ok by (done || lia). cbn [result_bind]. rewrite (get_flags_0 _ _ _ _ _ _ _ _ _ h Hq). cbn [result_bind].
  destruct (write_raw _ _ _ _ _ _ _ h q _ _ _ _ (set_flags_ok _ page_over_8 _ _ _ _ _ _ _ (h_mem _ _ _ _ _ _ _ h) (length_le _ _) (length_le _ _) Hq (Z.land 0 (Z.lnot FREE_SPACE_FLAG_ALLOCATED))) Hq Hc) as (t1 & -> & _ & h1).
  cbn [result_bind]. rewrite Z.land_0_l, (insert_id _ _ _ Hq) in h1.
  destruct (cut_list 4 b) as (b1 & b2 & -> & Hb1); [lia|]. rewrite length_app in Hs.
  assert (length (le 3 s ++ le 1 0 ++ b1 ++ b2) = Z.to_nat s) as Hlen by (rewrite !length_app, !length_le; lia).
  assert (exists bytes, length bytes = Z.to_nat s /\ wrote page_size t1 pages sigma q (set_link_padding (ptr q)) 0 bytes) as (b3 & Hlen3 & Hw).
  { exists (overwrite (le 3 s ++ le 1 0 ++ b1 ++ b2) 4 (le 4 0)). split; [rewrite length_overwrite, Hlen, length_le by lia; lia|].
    eapply (set_field_ok _ page_over_8 _ _ _ _ _ 4 4); [apply (h_mem _ _ _ _ _ _ _ h1)|exact Hq|lia|lia|done]. }
  destruct (write_raw _ _ _ _ _ _ _ h1 q _ _ _ _ Hw Hq Hc) as (t2 & -> & _ & h2). cbn [result_bind].
  rewrite (get_first_ok _ _ _ _ _ _ _ h2 s) by (done || lia). cbn [result_bind].
  destruct (decide (s = 8)) as [->|N8].
  { unfold set_link_next. by rewrite (write_over _ _ _ q b3 8 8 _ (h_mem _ _ _ _ _ _ _ h2) (lookup_insert_eq _ _ _)) by lia. }
  assert (exists bytes, length bytes = Z.to_nat s /\ wrote page_size t2 pages (<[q := b3]> sigma) q (set_link_next (ptr q)) (hd 0 (fl s)) bytes) as (b4 & Hlen4 & Hw4).
  { exists (overwrite b3 8 (le 8 (hd 0 (fl s)))). split; [rewrite length_overwrite, Hlen3, length_le by lia; lia|].
    eapply (set_field_ok _ page_over_8 _ _ _ _ _ 8 8); [apply (h_mem _ _ _ _ _ _ _ h2)|apply lookup_insert_eq|lia|lia|done]. }
  destruct (write_raw _ _ _ _ _ _ _ h2 q _ _ _ _ Hw4 (lookup_insert_eq _ _ _) Hc) as (t3 & -> & _ & h3). cbn [result_bind].
  unfold set_link_previous. by rewrite (write_over _ _ _ q b4 16 8 _ (h_mem _ _ _ _ _ _ _ h3) (lookup_insert_eq _ _ _)) by lia.
Qed.

(** The size of a space of a new page, then its flags. *)
Lemma finish_ok t fspc pages sigma cells fl r z f d m : spaces t fspc pages sigma cells fl -> lists cells fl ->
  sigma !! r = Some (le 3 z ++ le 1 f ++ d) -> cells !! r = None -> m = 4 + Z.of_nat (length d) -> m mod 8 = 0 ->
  exists t1 t', set_link_size (ptr r) m t = Ok t1 /\ set_link_flags (ptr r) FREE_SPACE_FLAG_ALLOCATED t1 = Ok t' /\
    changes (fspc :: pages) t t' /\ heap_rep t' fspc pages (<[r := Used d]> cells).
Proof.
  intros h hl Hr Hc Hm Hmod.
  destruct (write_raw _ _ _ _ _ _ _ h r _ _ _ _ (set_size_ok _ page_over_8 _ _ _ _ _ _ _ (h_mem _ _ _ _ _ _ _ h) (length_le _ _) (length_le _ _) Hr m) Hr Hc) as (t1 & E1 & Hch1 & h1).
  destruct (allocated_ok _ _ _ _ _ _ r m f d 0 h1 hl (lookup_insert_eq _ _ _) Hc Hm Hmod eq_refl) as (t2 & E2 & Hch2 & h2).
  exists t1, t2. split; [done|]. split; [done|]. split; [|done]. apply changes_more. by eapply changes_trans.
Qed.

Lemma new_over_ok t fspc pages sigma cells fl r z f d m s : spaces t fspc pages sigma cells fl -> sigma !! r = Some (le 3 z ++ le 1 f ++ d) ->
  cells !! r = None -> position_of r = 8 -> 4 + Z.of_nat (length d) = page_size - 8 -> 8 <= m -> s = page_size - 8 - m -> s = 8 \/ s = 16 ->
  exists t1 t2, set_link_size (shift (ptr r) m) s t = Ok t1 /\ set_link_flags (shift (ptr r) m) 0 t1 = Ok t2 /\
    link_space page_size fspc (r + m) (shift (ptr r) m) t2 = Throw undefined_behavior.
Proof.
  intros h Hr Hc Hpos Hd Hm -> H816. assert (shift (ptr r) m = ptr (r + m)) as Eptr by (apply ptr_shift; lia).
  assert (position_of (r + m) = 8 + m) as Hpos' by (pose proof (f_equal p_position Eptr) as E; cbn in E; lia). rewrite Eptr.
  destruct (cut_list (Z.to_nat m - 4) d) as (d1 & b & -> & Hd1); [lia|]. rewrite length_app in Hd.
  destruct (cut_list 3 b) as (xs & b1 & -> & Hxs); [lia|]. rewrite length_app in Hd. destruct (cut_list 1 b1) as (xf & b2 & -> & Hxf); [lia|]. rewrite length_app in Hd.
  assert (le 3 z ++ le 1 f ++ d1 ++ xs ++ xf ++ b2 = (le 3 z ++ le 1 f ++ d1) ++ xs ++ xf ++ b2) as E by (by rewrite <- !app_assoc). rewrite E in Hr.
  destruct (mem_split _ page_over_8 _ _ _ _ _ _ (h_mem _ _ _ _ _ _ _ h) Hr) as [Hmem Hnone]; [rewrite !length_app, !length_le; lia|rewrite !length_app; lia|].
  replace (r + Z.of_nat (length (le 3 z ++ le 1 f ++ d1))) with (r + m) in * by (rewrite !length_app, !length_le; lia).
  assert (cells !! (r + m) = None) as Hcm. { destruct (cells !! (r + m)) eqn:Ec; [|done]. apply (h_cells _ _ _ _ _ _ _ h) in Ec. congruence. }
  assert (spaces t fspc pages (<[r + m := xs ++ xf ++ b2]> (<[r := le 3 z ++ le 1 f ++ d1]> sigma)) cells fl) as h1.
  { destruct h as [H1 H2 H3 H4 H5 H6 H7]. split; [exact Hmem| |exact H3|exact H4|exact H5|exact H6|exact H7]. intros x c Hx. rewrite !lookup_insert_ne by congruence. by apply H2. }
  pose proof (lookup_insert_eq (<[r := le 3 z ++ le 1 f ++ d1]> sigma) (r + m) (xs ++ xf ++ b2)) as Hq.
  destruct (write_raw _ _ _ _ _ _ _ h1 (r + m) _ _ _ _ (set_size_ok _ page_over_8 _ _ _ _ _ _ _ (h_mem _ _ _ _ _ _ _ h1) Hxs Hxf Hq (page_size - 8 - m)) Hq Hcm) as (t2 & E2 & _ & h2).
  pose proof (lookup_insert_eq (<[r + m := xs ++ xf ++ b2]> (<[r := le 3 z ++ le 1 f ++ d1]> sigma)) (r + m) (le 3 (page_size - 8 - m) ++ xf ++ b2)) as Hq2.
  destruct (write_raw _ _ _ _ _ _ _ h2 (r + m) _ _ _ _ (set_flags_ok _ page_over_8 _ _ _ _ _ _ _ (h_mem _ _ _ _ _ _ _ h2) (length_le _ _) Hxf Hq2 0) Hq2 Hcm) as (t3 & E3 & _ & h3).
  exists t2, t3. split; [done|]. split; [done|]. eapply link_over_ok; [exact h3|apply lookup_insert_eq|done|lia|lia|lia].
Qed.

(** The data of [m] bytes is at the start of a new page. *)
Lemma new_space_ok n t fspc pages rest sigma cells fl m : spaces t fspc pages sigma cells fl -> lists cells fl -> alloc_wf (S n) t (fspc :: pages ++ rest) ->
  file_size t + 16 * page_size <= 2 ^ 64 -> 8 <= m <= page_size - 8 -> m mod 8 = 0 ->
  if decide (page_size - 8 - m = 8 \/ page_size - 8 - m = 16) then new_space page_size fspc (page_size - 8) m t = Throw undefined_behavior
  else exists t' x data cells', new_space page_size fspc (page_size - 8) m t = Ok (t', FreeSpace (x + 8 + 4) m) /\ cell_size (Used data) = m /\
    x ∉ fspc :: pages ++ rest /\ alloc_wf n t' (fspc :: (x :: pages) ++ rest) /\ same_header t t' /\ same_pages rest t t' /\
    heap_rep t' fspc (x :: pages) (<[x + 8 := Used data]> cells') /\ cells !! (x + 8) = None /\
    (cells' = cells /\ m = page_size - 8 \/ after_cut cells (x + 8) m (page_size - 8) cells').
Proof.
  intros h hl Hwf Hfile Hm Hmod. destruct (new_page_ok _ _ _ _ rest _ _ _ h Hwf Hfile) as (t1 & x & E & Hwf1 & Hh1 & Hsame1 & Hout & Hx & Hc & h1).
  assert (position_of (x + 8) = 8) as Hpos by (unfold FreeSpace.position_of; rewrite Z.add_mod, Hx, Z.add_0_l, Z.mod_mod by lia; apply Z.mod_small; lia).
  unfold new_space. rewrite E. cbn [result_bind]. replace (x + (page_size - (page_size - 8))) with (x + 8) by lia.
  assert (Pointer x (position_of (x + 8)) = ptr (x + 8)) as -> by (unfold FreeSpaceMemory.ptr; rewrite Hpos; f_equal; lia).
  rewrite (wrap_small 32 (page_size - 8 - m)) by (unfold uword; lia). unfold META_SIZE.
  pose proof (lookup_insert_eq sigma (x + 8) (le 3 0 ++ le 1 0 ++ replicate (Z.to_nat page_size - 12) 0)) as Hr.
  assert (page_size - 8 = 4 + Z.of_nat (length (replicate (Z.to_nat page_size - 12) 0))) as Hd by (rewrite length_replicate; lia).
  assert ((page_size - 8 - m) mod 8 = 0) as Hrem by (rewrite Zminus_mod, Hmod, (Zminus_mod page_size), aligned; done).
  assert ((page_size - 8) mod 8 = 0) as Htotal by (rewrite Zminus_mod, aligned; done).
  destruct (decide _) as [H816|Hrest].
  { rewrite decide_True by lia. destruct (new_over_ok _ _ _ _ _ _ _ _ _ _ m _ h1 Hr Hc Hpos (eq_sym Hd) (proj1 Hm) eq_refl H816) as (t2 & t3 & -> & E3 & E4).
    cbn [result_bind]. rewrite E3. cbn [result_bind]. by rewrite E4. }
  pose proof (reference_ok _ _ _ _ _ _ _ _ h1 Hr) as Href. unfold META_SIZE in Href. rewrite Href. destruct (decide (page_size - 8 - m >= 4)) as [Hcut|Hall].
  - assert (24 <= page_size - 8 - m) as H24 by (apply Z.mod_divide in Hrem as [k Ek]; lia).
    destruct (split_ok _ _ _ _ _ _ _ _ _ _ _ m h1 Hr Hc Hd) as (sigma2 & d1 & xs & xf & xd & xn & xp & b & h2 & Hr2 & Hd1 & Hq2 & Hshape & Hb & Hcq & Eptr); [lia|lia|].
    rewrite Eptr. pose proof Hshape as [Hl1 Hl2 Hl3 Hl4 Hl5].
    destruct (write_raw _ _ _ _ _ _ _ h2 (x + 8 + m) _ _ _ _ (set_size_ok _ page_over_8 _ _ _ _ _ _ _ (h_mem _ _ _ _ _ _ _ h2) Hl1 Hl2 Hq2 (page_size - 8 - m)) Hq2 Hcq) as (t3 & -> & Hch3 & h3).
    cbn [result_bind].
    destruct (link_new_ok _ _ _ _ _ _ _ (page_size - 8 - m) xf xd xn xp b h3 hl (lookup_insert_eq _ _ _)) as (t4 & sigma4 & fl4 & E4 & Hch4 & h4 & hl4 & Hsame4); [by split; rewrite ?length_le|done|done|done|lia|].
    assert (after_cut cells (x + 8) m (page_size - 8) (<[x + 8 + m := Free (hd 0 (fl (page_size - 8 - m))) 0 b]> (relink (hd 0 (fl (page_size - 8 - m))) (x + 8 + m) cells))) as Hafter by (by eexists _, b).
    set (cells' := <[x + 8 + m := Free _ _ _]> _) in *.
    destruct (finish_ok _ _ _ _ _ _ (x + 8) 0 0 d1 m h4 hl4) as (t5 & t6 & E5 & E6 & Hch6 & h6); [| |lia|done|].
    { rewrite Hsame4 by (done || lia). by rewrite lookup_insert_ne by lia. }
    { eapply after_cut_none; [exact Hafter|done|lia]. }
    destruct (set_link_flags (ptr (x + 8 + m)) 0 t3) as [t3'|] eqn:E3; [|done]. cbn [result_bind] in E4 |- *. rewrite E4. cbn [result_bind].
    replace (page_size - 8 - (page_size - 8 - m)) with m by lia. rewrite E5. cbn [result_bind]. rewrite E6. cbn [result_bind].
    assert (changes (fspc :: x :: pages) t1 t6) as Hch by (eapply changes_trans; [apply changes_more; exact Hch3|]; by eapply changes_trans).
    eexists t6, x, d1, cells'. split; [done|]. split; [cbn; lia|]. split; [done|]. split; [eapply (ch_wf _ _ _ _ Hch); [set_solver|done]|].
    split; [eapply same_header_trans; [done|apply Hch]|]. split; [|by split; [|split; [|right]]].
    eapply same_pages_trans; [exact Hsame1|]. by eapply changes_rest.
  - assert (m = page_size - 8) as -> by (apply Z.mod_divide in Hrem as [k Ek]; lia).
    destruct (finish_ok _ _ _ _ _ _ (x + 8) 0 0 _ (page_size - 8) h1 hl Hr Hc Hd Htotal) as (t5 & t6 & -> & E6 & Hch & h6). cbn [result_bind]. rewrite E6. cbn [result_bind].
    exists t6, x, (replicate (Z.to_nat page_size - 12) 0), cells. split; [done|]. split; [cbn [cell_size]; lia|]. split; [done|]. split; [eapply (ch_wf _ _ _ _ Hch); [set_solver|done]|].
    split; [eapply same_header_trans; [done|apply Hch]|]. split; [|by split; [|split; [|left]]].
    eapply same_pages_trans; [exact Hsame1|]. by eapply changes_rest.
Qed.

(** ** Allocation *)

(** The size of the space of some data, with its meta data. *)
Definition space_size (minimum_size : Z) : Z := (minimum_size + 11) / 8 * 8.

Lemma space_size_range n : 0 <= n -> n + 4 <= space_size n < n + 12 /\ space_size n mod 8 = 0.
Proof.
  intros Hn. unfold space_size. rewrite Z.mod_mul by done. pose proof (Z.div_mod (n + 11) 8 ltac:(done)). pose proof (Z.mod_pos_bound (n + 11) 8 ltac:(done)). lia.
Qed.

Lemma space_size_ok n : 0 <= n -> n + 11 < 2 ^ 32 -> round_up (n + META_SIZE) 8 = Ok (space_size n).
Proof.
  intros Hn Hlt. unfold META_SIZE, round_up, round_down. rewrite (wrap_small 64 (n + 4 + 8 - 1)) by (unfold uword; lia). replace (n + 4 + 8 - 1) with (n + 11) by lia.
  rewrite decide_False by done. pose proof (Z.div_mod (n + 11) 8 ltac:(done)). pose proof (Z.mod_pos_bound (n + 11) 8 ltac:(done)).
  rewrite wrap_small by (unfold uword; lia). unfold space_size. f_equal. lia.
Qed.

Lemma total_space_ok : total_space_available page_size = Ok (page_size - 8).
Proof.
  unfold total_space_available, round_down, HEADER_SIZE. rewrite decide_False by done. cbn [result_bind]. rewrite (wrap_small 32 (page_size - 8)) by (unfold uword; lia).
  rewrite Zminus_mod, aligned, Z.sub_0_r. rewrite !wrap_small; [done|unfold uword; lia|rewrite wrap_small; unfold uword; lia].
Qed.

(** The sizes of the free spaces that are used for [m] bytes. *)
Definition candidate (m s : Z) : Prop := s = m \/ (if decide (m < FREE_SPACE_JUMP) then FREE_SPACE_JUMP else m + 8) <= s.

Definition free_space (cells : gmap Z cell) (s r : Z) : Prop := exists n p rest, cells !! r = Some (Free n p rest) /\ cell_size (Free n p rest) = s.

Lemma list_free t fspc pages sigma cells fl s r : spaces t fspc pages sigma cells fl -> lists cells fl -> r ∈ fl s <-> free_space cells s r.
Proof.
  intros h hl. split.
  - intros Hr. destruct (member_space _ _ _ _ _ _ _ h s r hl Hr) as (n & p & rest & Hc & Hs & _). by exists n, p, rest.
  - intros (n & p & rest & Hc & <-). by apply (h_free _ _ hl) in Hc.
Qed.

(** The spaces of [cells], but for [r], are those of [cells'], with the same data or size. *)
Definition keeps (cells : gmap Z cell) (r : Z) (cells' : gmap Z cell) : Prop :=
  (forall x d, cells !! x = Some (Used d) -> x <> r /\ cells' !! x = Some (Used d)) /\
  (forall x s, free_space cells s x -> x <> r -> free_space cells' s x).

(** [m] bytes, or a few more, are given at the start [r] of a space of [s] bytes,
    among those of [pages']; the end of it is a free space. *)
Definition allocates (room : nat) (t : table) (fspc : Z) (rest : list Z) (cells : gmap Z cell) (m s r : Z) (pages' : list Z) (outcome : result (table * free_space_t)) : Prop :=
  exists t' data cells', outcome = Ok (t', FreeSpace (r + 4) (cell_size (Used data))) /\ m <= cell_size (Used data) < m + 24 /\
    heap_rep t' fspc pages' (<[r := Used data]> cells') /\ keeps cells r cells' /\
    (cell_size (Used data) = s \/ cell_size (Used data) = m /\ free_space cells' (s - m) (r + m)) /\
    alloc_wf room t' (fspc :: pages' ++ rest) /\ same_header t t' /\ same_pages rest t t'.

Lemma relink_free_space next v cells s x : free_space cells s x -> free_space (relink next v cells) s x.
Proof.
  intros (n & p & rest & Hx & Hs). unfold free_space. rewrite relink_lookup, Hx. destruct (decide _); cbn; eauto.
Qed.

Lemma without_keeps cells r l : (forall d, cells !! r <> Some (Used d)) -> keeps cells r (without cells r l).
Proof.
  intros Hr. split.
  - intros x d Hx. split; [by intros ->; apply (Hr d)|by apply without_used].
  - intros x s (n & p & rest & Hx & Hs) Nx. apply relink_free_space. exists n, p, rest. by rewrite lookup_delete_ne.
Qed.

Lemma after_cut_keeps cells r m s cells' : after_cut cells r m s cells' -> (forall d, cells !! r <> Some (Used d)) -> keeps cells r cells'.
Proof.
  intros (h & rest & -> & _ & Hn) Hr. split.
  - intros x d Hx. split; [by intros ->; apply (Hr d)|]. rewrite lookup_insert_ne by congruence. rewrite relink_lookup, Hx. by destruct (decide _).
  - intros x s' Hx _. destruct (relink_free_space h (r + m) _ _ _ Hx) as (n & p & b & Hx' & Hs). exists n, p, b. rewrite lookup_insert_ne; [done|].
    intros <-. destruct Hx as (? & ? & ? & Hx & _). congruence.
Qed.

Lemma after_cut_free cells r m s cells' : after_cut cells r m s cells' -> free_space cells' (s - m) (r + m).
Proof. intros (h & rest & -> & Hs & _). exists h, 0, rest. by rewrite lookup_insert_eq. Qed.

Lemma keeps_trans cells r cells1 cells2 : keeps cells r cells1 -> keeps cells1 r cells2 -> keeps cells r cells2.
Proof.
  intros [H1 H2] [K1 K2]. split; [|eauto]. intros x d Hx. destruct (H1 x d Hx) as [? Hx1]. split; [done|by apply K1].
Qed.

Lemma allocates_same_pages room t t' fspc pages rest cells cells' m s r data : changes (fspc :: pages) t t' -> alloc_wf room t (fspc :: pages ++ rest) ->
  heap_rep t' fspc pages (<[r := Used data]> cells') -> m <= cell_size (Used data) < m + 24 -> keeps cells r cells' ->
  cell_size (Used data) = s \/ cell_size (Used data) = m /\ free_space cells' (s - m) (r + m) ->
  allocates room t fspc rest cells m s r pages (Ok (t', FreeSpace (r + 4) (cell_size (Used data)))).
Proof.
  intros Hch Hwf Hheap Hsize Hkeep Hend. exists t', data, cells'. do 5 (split; [done|]).
  split; [eapply (ch_wf _ _ _ _ Hch); [set_solver|done]|]. split; [apply Hch|]. by eapply changes_rest.
Qed.

Lemma take_space_allocates room t fspc pages rest sigma cells fl r l m : spaces t fspc pages sigma cells fl -> lists cells fl -> alloc_wf room t (fspc :: pages ++ rest) ->
  fl m = r :: l -> allocates room t fspc rest cells m m r pages (take_space page_size fspc r m t).
Proof.
  intros h hl Hwf E. assert (free_space cells m r) as (n & p & b & Hr & _) by (eapply list_free; [done|done|]; rewrite E; by left).
  destruct (take_space_ok _ _ _ _ _ _ _ _ _ h hl E) as (t' & data & -> & Hch & Hheap & Hsize). rewrite <- Hsize.
  eapply allocates_same_pages; [done|done|exact Hheap|lia| |by left]. apply without_keeps. congruence.
Qed.

Lemma take_part_allocates room t fspc pages rest sigma cells fl r l s m : spaces t fspc pages sigma cells fl -> lists cells fl -> alloc_wf room t (fspc :: pages ++ rest) ->
  fl s = r :: l -> 8 <= m <= s -> m mod 8 = 0 -> allocates room t fspc rest cells m s r pages (take_part page_size fspc r m t).
Proof.
  intros h hl Hwf E Hm Hmod. assert (free_space cells s r) as (n & p & b & Hr & _) by (eapply list_free; [done|done|]; rewrite E; by left).
  destruct (take_part_ok _ _ _ _ _ _ _ _ _ _ h hl E Hm Hmod) as (t' & data & cells' & -> & Hch & Hheap & Hcut).
  assert (keeps cells r (without cells r l)) as Hkeep by (apply without_keeps; congruence).
  eapply allocates_same_pages; [done|done|exact Hheap|destruct (decide _); lia|..]; destruct (decide _); destruct Hcut as [Hs Hcut].
  - eapply keeps_trans; [exact Hkeep|]. eapply after_cut_keeps; [done|]. intros d. by rewrite without_self.
  - by subst.
  - right. split; [done|by eapply after_cut_free].
  - by left.
Qed.

Lemma page_pointer_ok : get_free_space_pointer page_size page_size = Ok 0.
Proof.
  unfold get_free_space_pointer, FREE_SPACE_OFFSET. rewrite decide_False by lia. unfold round_up, round_down. rewrite decide_False by done.
  rewrite (wrap_small 64 (page_size + 8 - 1)) by (unfold uword; lia).
  assert ((page_size + 8 - 1) mod 8 = 7) as -> by (replace (page_size + 8 - 1) with (7 + page_size) by lia; rewrite Z.add_mod, aligned; done).
  cbn [result_bind]. replace (page_size + 8 - 1 - 7) with page_size by lia. rewrite !wrap_small; [|unfold uword; lia..|rewrite wrap_small; unfold uword; lia].
  unfold FreeSpace.position_of. by rewrite Z.mod_same by lia.
Qed.

(** The first list of [l] that the loop finds is the one of the smallest size. *)
Lemma first_candidate t fspc pages sigma cells fl m i : spaces t fspc pages sigma cells fl -> lists cells fl -> fl m = [] ->
  (forall j, (if decide (m < FREE_SPACE_JUMP) then FREE_SPACE_JUMP else m + 8) / 8 <= j < i -> fl (8 * j) = []) ->
  forall s r, candidate m s -> free_space cells s r -> 8 * i <= s.
Proof.
  intros h hl Hm Hj s r [-> | Hs] Hr; pose proof (proj2 (list_free _ _ _ _ _ _ _ _ h hl) Hr) as Hin; [by rewrite Hm in Hin; apply elem_of_nil in Hin|].
  destruct (member_space _ _ _ _ _ _ _ h s r hl Hin) as (_ & _ & _ & _ & _ & _ & _ & Hrange & Hmod). destruct (size_index _ s Hrange Hmod) as [Hi E].
  destruct (decide (8 * i <= s)) as [|Hlt]; [done|]. rewrite <- E, Hj in Hin; [by apply elem_of_nil in Hin|]. split; [|lia]. apply Z.div_le_mono; [done|exact Hs].
Qed.

Lemma get_free_space_ok room t fspc pages rest cells minimum_size : heap_rep t fspc pages cells -> alloc_wf (S room) t (fspc :: pages ++ rest) ->
  0 <= minimum_size -> minimum_size + 11 < 2 ^ 32 -> file_size t + 16 * page_size <= 2 ^ 64 -> space_size minimum_size <= page_size - 8 ->
  let m := space_size minimum_size in
  let outcome := get_free_space page_size fspc minimum_size t in
  (exists s r, candidate m s /\ free_space cells s r /\ (forall s' r', candidate m s' -> free_space cells s' r' -> s <= s') /\
     allocates room t fspc rest cells m s r pages outcome) \/
  (forall s r, candidate m s -> ~ free_space cells s r) /\
  (if decide (page_size - 8 - m = 8 \/ page_size - 8 - m = 16) then outcome = Throw undefined_behavior
   else exists x, x ∉ fspc :: pages ++ rest /\ allocates room t fspc rest cells m (page_size - 8) (x + 8) (x :: pages) outcome).
Proof.
  intros (sigma & fl & h & hl) Hwf Hn Hlt Hfile Hbig m outcome. pose proof (alloc_wf_le _ room _ _ Hwf ltac:(lia)) as Hwf1. destruct (space_size_range minimum_size Hn) as [Hm Hmod]. unfold outcome, get_free_space.
  rewrite space_size_ok by done. unfold m. clear m outcome. revert Hm Hmod Hbig. generalize (space_size minimum_size) as m. intros m Hm Hmod Hbig. cbn [result_bind]. rewrite total_space_ok. cbn [result_bind].
  rewrite (wrap_small 32 m) by (unfold uword; lia). rewrite decide_False by lia. rewrite decide_False by (unfold SPACE_BITS; lia).
  assert (8 <= m < page_size) as Hrange by (apply Z.mod_divide in Hmod as [k Ek]; lia). rewrite free_pointer_ok by done. cbn [result_bind].
  rewrite (get_first_ok _ _ _ _ _ _ _ h m) by done. cbn [result_bind]. destruct (fl m) as [|r l] eqn:E; cbn [hd].
  2:{ left. assert (r ∈ fl m) as Hin by (rewrite E; by left). destruct (member_space _ _ _ _ _ _ _ h m r hl Hin) as (_ & _ & _ & _ & _ & Hr & _).
      rewrite decide_True by (unfold NULL_FILE_ADDR; lia). exists m, r. split; [by left|]. split; [by eapply list_free|]. split; [|eapply take_space_allocates; [done|done|exact Hwf1|done]].
      intros s' r' [-> | Hs'] _; [done|]. unfold FREE_SPACE_JUMP in Hs'. destruct (decide _); lia. }
  rewrite decide_False by (intros Hx; by apply Hx).
  set (d := (if decide (m < FREE_SPACE_JUMP) then FREE_SPACE_JUMP else m + 8) / 8).
  assert ((if decide (m < FREE_SPACE_JUMP) then get_free_space_pointer page_size FREE_SPACE_JUMP else Ok (m / 8 + 1)) = Ok d /\ 1 <= d /\ m <= 8 * d) as (-> & Hd & Hmd).
  { unfold d, FREE_SPACE_JUMP. destruct (decide _); [rewrite free_pointer_ok by (done || lia); change (8 * 32 / 8) with 32; split; [done|unfold FREE_SPACE_JUMP in *; lia]|].
    apply Z.mod_divide in Hmod as [k ->]; [|done]. replace (k * 8 + 8) with ((k + 1) * 8) by lia. rewrite !Z.div_mul by done. split; [done|lia]. }
  cbn [result_bind].
  rewrite page_pointer_ok. cbn [result_bind]. rewrite Z.add_0_l.
  destruct (search_space_ok _ _ _ _ _ _ m d (S (Z.to_nat (page_size / 8))) h hl Hd) as [(i & r & l & Hi & Ei & Hj & ->)|[Hj ->]]; [lia|left|right]; cbn [result_bind].
  - exists (8 * i), r. assert (r ∈ fl (8 * i)) as Hin by (rewrite Ei; by left).
    split; [|split; [by eapply list_free|split; [by eapply first_candidate|]]].
    + right. unfold d, FREE_SPACE_JUMP in *. destruct (decide _); [change (8 * 32 / 8) with 32 in *; lia|]. apply Z.mod_divide in Hmod as [k ->]; [|done].
      replace (k * 8 + 8) with ((k + 1) * 8) in * by lia. rewrite Z.div_mul in * by done. lia.
    + pose proof (take_part_allocates room _ _ _ rest _ _ _ _ _ _ m h hl Hwf1 Ei ltac:(lia) Hmod) as Htake.
      destruct (take_part page_size fspc r m t) as [[t' s]|]; exact Htake.
  - split.
    + intros s r Hs Hr. pose proof (first_candidate _ _ _ _ _ _ m (page_size / 8) h hl E Hj s r Hs Hr) as Hle.
      pose proof (proj2 (list_free _ _ _ _ _ _ _ _ h hl) Hr) as Hin.
      destruct (member_space _ _ _ _ _ _ _ h s r hl Hin) as (_ & _ & _ & _ & _ & _ & _ & Hr' & Hs'). destruct (size_index _ s Hr' Hs') as [Hi Es]. lia.
    + pose proof (new_space_ok room _ _ _ rest _ _ _ m h hl Hwf Hfile ltac:(lia) Hmod) as Hnew.
      destruct (decide (page_size - 8 - m = 8 \/ page_size - 8 - m = 16)) as [H816|_]; [exact Hnew|].
      destruct Hnew as (t' & x & data & cells' & -> & <- & Hout & Hwf' & Hh & Hsame & Hheap & Hc & Hcut). exists x. split; [done|].
      exists t', data, cells'. split; [done|]. split; [lia|]. split; [done|].
      destruct Hcut as [[-> ?] |Hcut]; [split; [|split; [by left|done]]|split; [|split; [right|done]]].
      * split; [|done]. intros y b Hy. split; [by intros ->; congruence|done].
      * eapply after_cut_keeps; [done|]. intros d'. congruence.
      * split; [done|by eapply after_cut_free].
Qed.

Lemma get_free_space_big t fspc minimum_size : 0 <= minimum_size -> minimum_size + 11 < 2 ^ 32 -> space_size minimum_size > page_size - 8 ->
  get_free_space page_size fspc minimum_size t = Throw not_yet_implemented.
Proof.
  intros Hn Hlt Hbig. unfold get_free_space. rewrite space_size_ok by done. cbn [result_bind]. rewrite total_space_ok. cbn [result_bind].
  pose proof (space_size_range minimum_size Hn) as [Hm _]. rewrite (wrap_small 32 (space_size _)) by (unfold uword; lia). by rewrite decide_True.
Qed.

(** A new FSPC page: there are no spaces. *)
Lemma new_heap_ok n t rest : alloc_wf (S n) t rest -> file_size t + 16 * page_size <= 2 ^ 64 ->
  exists t' fspc, allocate_new_block page_size NEW_FREE_SPACE t = Ok (t', fspc) /\ heap_rep t' fspc [] ∅ /\ alloc_wf n t' (fspc :: rest) /\
    file_size t' <= file_size t + 16 * page_size.
Proof.
  intros Hwf Hfile. destruct (allocate_new_block_ok page_size ltac:(lia) NEW_FREE_SPACE t _ Hwf) as (t' & x & E & Hwf' & Hx & _).
  pose proof (allocate_new_block_size page_size ltac:(lia) _ _ _ _ _ _ Hwf E) as Hgrow. exists t', x. split; [done|].
  split; [|split; [done|lia]]. exists ∅, (fun _ => []). split.
  - split; [split; [by intros ? ?%elem_of_nil|..]; set_solver by done|set_solver by done|set_solver by done| |by intros ? ?%elem_of_nil|by intros ?%elem_of_nil|lia]. exists (replicate (Z.to_nat (page_size / 8)) NULL_FILE_ADDR). split; [exact Hx|].
    assert (0 <= page_size / 8) by (apply Z.div_pos; lia). split; [rewrite length_replicate; lia|]. intros i Hi. apply lookup_replicate_2. lia.
  - split; [done|done|]. intros s. apply NoDup_nil_2.
Qed.

Lemma empty_table_wf n : alloc_wf n (empty_table page_size) [].
Proof. destruct (empty_table_ok page_size ltac:(lia) ltac:(lia) n) as [[_ _ Htree] _]. unfold tree_rep in Htree. rewrite decide_True in Htree by done. apply Htree. Qed.
End Properties.


Instance page_size_4096 : PageSize 4096.
Proof. by split. Qed.


(** The first space of a page, and the one after it. *)
Example two_spaces : (let! '(t, fspc) := allocate_new_block 4096 NEW_FREE_SPACE (empty_table 4096) in
    let! '(t, s1) := get_free_space 4096 fspc 100 t in let! '(t, s2) := get_free_space 4096 fspc 1000 t in Ok (fspc, s1, s2)) =
  Ok (4096, FreeSpace (8192 + 8 + 4) 104, FreeSpace (8192 + 8 + 104 + 4) 1008).
Proof. by vm_compute. Qed.

(** A row of 4061 bytes: 16 bytes would be left. *)
Example no_room_for_links : (let! '(t, fspc) := allocate_new_block 4096 NEW_FREE_SPACE (empty_table 4096) in get_free_space 4096 fspc 4061 t) =
  Throw undefined_behavior.
Proof. by vm_compute. Qed.
