(* ===== verification/Rows.v ===== *)
(** * The rows of a table (prinbee/database/table.cpp)

    row_insert() gives a row a number, its place in the indirect index and a space
    in the pages of data, where its binary form is written; get_indirect_row() reads
    it from its number.  A row is its binary form, once the column of its number is
    set.  The index of the keys of the rows is apart ([EntryIndex]): what
    row_insert() adds to it comes last and depends on a cursor. *)

From S2P Require Import Prelude Names Bytes IndirectIndex FreeSpace.

Section Rows.
Context (page_size : Z).

(** [data()] of the block of a reference. *)
Definition data_pointer (reference : Z) : pointer := Pointer (reference - position_of page_size reference) (position_of page_size reference).

(** The FSPC page of the table. *)
Definition free_space_block (t : table) : result (table * Z) :=
  if decide (blobs_with_free_space t = NULL_FILE_ADDR)
  then
    let! '(t, fspc) := allocate_new_block page_size NEW_FREE_SPACE t in
    Ok (set_blobs_with_free_space fspc t, fspc)
  else
    let fspc := blobs_with_free_space t in
    let! p := get_block t fspc in
    match p with FSPC _ => Ok (t, fspc) | _ => Throw undefined_behavior end.

Definition row_insert (row : Z -> list Z) (t : table) : result (table * Z) :=
  let '(t, oid, must_exist) := new_oid t in
  let! '(t, indr, position_oid) := insert_place page_size oid must_exist t in
  let! '(t, fspc) := free_space_block t in
  let blob := row oid in
  let! '(t, free_space) := get_free_space page_size fspc (wrap 32 (Z.of_nat (length blob))) t in
  let! _ := if decide (f_space_size free_space >= Z.of_nat (length blob)) then Ok () else Throw undefined_behavior in
  let! t := write_page (data_pointer (f_reference free_space)) blob t in
  let! t := indr_set_reference page_size indr position_oid (f_reference free_space) t in
  Ok (t, oid).

(** The bytes that are given to from_binary(). *)
Definition get_row (reference : Z) (t : table) : result (list Z) :=
  if decide (reference <> 0 /\ reference >= file_size t) then Throw logic_error
  else
    let ptr := data_pointer reference in
    let! size := get_space_size ptr t in
    read_page ptr size t.

Definition get_indirect_row (oid : Z) (t : table) : result (list Z) :=
  let! reference := get_indirect_reference page_size oid t in
  get_row reference t.
End Rows.
