(* ===== verification/RowsProps.v ===== *)
(** * Properties of the rows of a table

    A table refines the list of the rows that were inserted, over the indirect
    index and the spaces of data. *)

From S2P Require Import Prelude Names Bytes IndirectIndex IndirectIndexProps FreeSpace FreeSpaceMemory FreeSpaceLists FreeSpaceProps Rows.

Section Properties.
Context (page_size : Z) {page_ok : PageSize page_size}.
Let large : 256 < page_size <= 2 ^ 24 := page_large.

Notation ptr := (ptr page_size).
Notation position_of := (position_of page_size).
Notation alloc_wf := (alloc_wf page_size).
Notation heap_rep := (heap_rep page_size).
Notation table_rep := (table_rep page_size).
Notation changes := (changes page_size).
Notation spaces := (spaces page_size).

Lemma page_above_8 : 8 < page_size.
Proof. lia. Qed.
Hint Resolve page_above_8 : core.

(** ** The spaces of data among the other pages *)

Lemma alloc_wf_whole {n} t used x : alloc_wf n t used -> x ∈ used -> 0 < x /\ x + page_size <= file_size t.
Proof.
  intros Hwf Hx. destruct (alloc_wf_used _ _ _ x Hwf Hx) as [Hr [_ Hmod]]. destruct (aw_size _ _ _ _ Hwf) as [_ Hsmod].
  apply Z.mod_divide in Hmod as [a Ea]; [|lia]. apply Z.mod_divide in Hsmod as [b Eb]; [|lia]. rewrite Ea, Eb in Hr |- *.
  clear - Hr large. split; [lia|]. assert (a < b) by nia. nia.
Qed.

(** Pages of another use are changed. *)
Lemma heap_rep_frame {n} t t' fspc pages cells used : heap_rep t fspc pages cells -> same_pages (fspc :: pages) t t' -> alloc_wf n t' used -> pages ⊆ used ->
  file_size t' <= 2 ^ 64 -> heap_rep t' fspc pages cells.
Proof.
  intros (sigma & fl & [H1 H2 H3 H4 H5 H6 H7] & hl) Hsame Hwf Hsub Hfile. exists sigma, fl. split; [|done]. split; [|done|done| | |done|done].
  - eapply mem_same; [exact H1|]. eapply same_pages_sub; [exact Hsame|set_solver].
  - rewrite Hsame by by left. exact H4.
  - intros x Hx. by apply (alloc_wf_whole _ used _ Hwf), Hsub.
Qed.

Lemma lists_used_again cells fl r data data' : lists (<[r := Used data]> cells) fl -> lists (<[r := Used data']> cells) fl.
Proof.
  intros [Hc Hf Hn]. split; [|intros x n p rest [[_ [=]]|[Nx Hx]]%lookup_insert_Some; eapply Hf; by rewrite lookup_insert_ne|done].
  intros s. eapply chain_ext; [apply Hc|]. intros x Hx. destruct (chain_member _ _ _ _ _ (Hc s) Hx) as (n & p & rest & Hx' & _).
  apply lookup_insert_Some in Hx' as [[_ [=]]|[Nx Hx']]. by rewrite !lookup_insert_ne.
Qed.

(** The data of a used space is written. *)
Lemma write_used_ok t fspc pages cells r data blob : heap_rep t fspc pages (<[r := Used data]> cells) -> (length blob <= length data)%nat ->
  exists t', write_page (ptr (r + 4)) blob t = Ok t' /\ changes pages t t' /\
    heap_rep t' fspc pages (<[r := Used (blob ++ drop (length blob) data)]> cells).
Proof.
  intros (sigma & fl & h & hl) Hlen. pose proof (h_cells _ _ _ _ _ _ _ h r _ (lookup_insert_eq _ _ _)) as Hr.
  destruct (mr_range _ _ _ _ (h_mem _ _ _ _ _ _ _ h) _ _ Hr) as (_ & _ & H8 & Hend).
  assert (ptr (r + 4) = shift (ptr r) 4) as -> by (symmetry; apply ptr_shift; lia).
  set (d := blob ++ drop (length blob) data). assert (length d = length data) as Hd by (unfold d; rewrite length_app, length_drop; lia).
  assert (wrote page_size t pages sigma r (fun _ => write_page (shift (ptr r) 4) blob) 0 (encode (Used d))) as Hw.
  { assert (overwrite (encode (Used data)) 4 blob = encode (Used d)) as <-.
    { cbn [encode cell_size]. rewrite Hd. unfold d. rewrite <- (take_drop (length blob) data) at 2. rewrite !(app_assoc (le 3 _)).
      apply overwrite_part; [by rewrite length_app, !length_le|rewrite length_take; lia]. }
    eapply write_ok; [done|apply (h_mem _ _ _ _ _ _ _ h)|exact Hr|lia|]. rewrite length_cell. cbn [cell_size]. lia. }
  destruct (spaces_wrote _ _ _ _ _ _ _ h (<[r := Used d]> cells) r _ _ _ _ Hw Hr) as (t' & E & Hch & h').
  { intros x c [[<- <-]|[Nx Hx]]%lookup_insert_Some.
    - rewrite lookup_insert_eq. split; [|done]. pose proof (h_size _ _ _ _ _ _ _ h r _ (lookup_insert_eq _ _ _)) as Hs. cbn [cell_size] in *. by rewrite Hd.
    - rewrite lookup_insert_ne by done. split; [eapply (h_size _ _ _ _ _ _ _ h x)|apply (h_cells _ _ _ _ _ _ _ h)]; by rewrite lookup_insert_ne. }
  exists t'. split; [exact E|]. split; [exact Hch|]. exists (<[r := encode (Used d)]> sigma), fl. split; [exact h'|]. by eapply lists_used_again.
Qed.

(** ** The rows *)

(** The row is in the space of its reference, which may be a little larger. *)
Definition holds (cells : gmap Z cell) (reference : Z) (row : list Z) : Prop :=
  exists slack, cells !! (reference - 4) = Some (Used (row ++ slack)) /\ (length slack < 32)%nat.

(** The spaces of the rows are in the pages [rest]: the FSPC page, which comes with
    the first row, and the pages of data. *)
Definition stored (t : table) (rest : list Z) (cells : gmap Z cell) : Prop :=
  if decide (blobs_with_free_space t = NULL_FILE_ADDR) then rest = [] /\ cells = ∅
  else exists pages, rest = blobs_with_free_space t :: pages /\ heap_rep t (blobs_with_free_space t) pages cells.

(** The table [t] has the rows [rows], in the order of their numbers, and [n] more
    pages can be allocated. *)
Definition rows_rep (n : nat) (t : table) (rows : list (list Z)) : Prop :=
  exists references rest cells, table_rep n t references rest /\ stored t rest cells /\ Forall2 (holds cells) references rows.

(** *** Reading *)

Lemma get_row_ok {n} t fspc pages cells used reference d : heap_rep t fspc pages cells -> alloc_wf n t used -> pages ⊆ used ->
  cells !! (reference - 4) = Some (Used d) ->
  if decide (position_of reference + 4 + Z.of_nat (length d) <= page_size)
  then exists extra, get_row page_size reference t = Ok (d ++ extra) /\ length extra = 4%nat
  else get_row page_size reference t = Throw undefined_behavior.
Proof.
  intros (sigma & fl & h & hl) Hwf Hsub Hc. pose proof (h_cells _ _ _ _ _ _ _ h _ _ Hc) as Hr. set (r := reference - 4) in *.
  replace reference with (r + 4) by (unfold r; lia). clearbody r.
  destruct (mr_range _ _ _ _ (h_mem _ _ _ _ _ _ _ h) _ _ Hr) as (Hp & Hh & H8 & Hend). destruct (space_range _ _ _ _ _ _ _ h _ _ Hr) as (H0 & _ & _).
  destruct (alloc_wf_whole t used (r - position_of r) Hwf ltac:(by apply Hsub)) as [Hx0 Hxend].
  rewrite length_cell in *. pose proof (cell_range _ _ _ _ _ _ _ h _ _ Hc) as Hrange. cbn [cell_size] in *.
  assert (shift (ptr r) 4 = ptr (r + 4)) as Eptr by (apply ptr_shift; lia). assert (position_of (r + 4) = position_of r + 4) as Epos by (pose proof (f_equal p_position Eptr) as E; cbn in E; lia).
  assert (shift (ptr (r + 4)) (- META_SIZE) = ptr r) as Eback by (rewrite <- Eptr; destruct (ptr r); unfold shift, META_SIZE; cbn; f_equal; lia).
  cbn [encode cell_size] in Hr. assert (get_row page_size (r + 4) t = read_page (ptr (r + 4)) (4 + Z.of_nat (length d)) t) as ->.
  { unfold get_row. rewrite decide_False by lia. change (data_pointer page_size (r + 4)) with (ptr (r + 4)). unfold get_space_size. rewrite Eback.
    by rewrite (get_size_ok _ page_above_8 _ _ _ _ _ _ _ (h_mem _ _ _ _ _ _ _ h) (length_le _ _) (length_le _ _) Hr), (of_le_small 3 _ 24) by lia. }
  destruct (mem_page _ _ _ _ _ _ (h_mem _ _ _ _ _ _ _ h) Hr) as (bytes & Hb & Hl & Hat). rewrite <- Eptr. unfold read_page. cbn [shift p_page p_position FreeSpaceMemory.ptr]. rewrite Hb. unfold read_buffer.
  rewrite Epos. apply bytes_at_parts in Hat as (a & x & Ebytes & Ha); [|pose proof (position_range page_size page_above_8 r); lia|by destruct d].
  rewrite Ebytes in *. rewrite !length_app, !length_le in Hl. replace (a ++ (le 3 (4 + Z.of_nat (length d)) ++ le 1 1 ++ d) ++ x) with ((a ++ le 3 (4 + Z.of_nat (length d)) ++ le 1 1) ++ (d ++ x)) by (by rewrite <- !app_assoc).
  destruct (decide _) as [Hin|Hout].
  - exists (take 4 x). split; [|rewrite length_take; lia].
    destruct (cut_list 4 x) as (x1 & x2 & -> & Hx1); [lia|]. rewrite (app_assoc d). rewrite (bytes_at_part _ (d ++ x1)); [|rewrite !length_app, !length_le; lia|rewrite length_app; lia].
    rewrite take_app_le, firstn_all2 by lia. done.
  - unfold bytes_at. rewrite !decide_False; [done| |lia]. rewrite !length_app, !length_le. lia.
Qed.

(** *** Inserting *)

Lemma stored_frame {n} t t' rest cells used : stored t rest cells -> blobs_with_free_space t' = blobs_with_free_space t -> same_pages rest t t' ->
  alloc_wf n t' used -> rest ⊆ used -> file_size t' <= 2 ^ 64 -> stored t' rest cells.
Proof.
  unfold stored. intros Hst -> Hsame Hwf Hsub Hfile. destruct (decide _); [done|]. destruct Hst as (pages & -> & Hheap). exists pages. split; [done|].
  eapply heap_rep_frame; [done|done|exact Hwf|set_solver|done].
Qed.

(** The FSPC page is there, or is a new page. *)
Lemma free_space_block_ok n t rest cells fp0 : stored t rest cells -> alloc_wf (S n) t (fp0 ++ rest) -> file_size t + 16 * page_size <= 2 ^ 64 ->
  exists t' fspc pages, free_space_block page_size t = Ok (t', fspc) /\ heap_rep t' fspc pages cells /\ blobs_with_free_space t' = fspc /\ 0 < fspc /\
    indirect_index t' = indirect_index t /\ last_oid t' = last_oid t /\ first_free_oid t' = first_free_oid t /\ file_size t' <= file_size t + 16 * page_size /\
    forall fp, alloc_wf (S n) t (fp ++ rest) -> alloc_wf n t' (fspc :: pages ++ fp) /\ same_pages fp t t'.
Proof.
  unfold stored, free_space_block. intros Hst Hwf Hfile. destruct (decide (blobs_with_free_space t = NULL_FILE_ADDR)) as [Hnull|Hsome].
  - destruct Hst as [-> ->]. destruct (new_heap_ok page_size n t _ Hwf Hfile) as (t' & fspc & E & Hheap & Hwf' & Hsize). rewrite E. cbn [result_bind].
    assert (forall fp, alloc_wf (S n) t (fp ++ []) -> alloc_wf n t' (fspc :: fp) /\ same_header t t' /\ same_pages fp t t') as Hall.
    { intros fp Hfp. destruct (allocate_new_block_ok page_size ltac:(lia) NEW_FREE_SPACE t _ Hfp) as (t1 & x & E1 & Hwf1 & _ & Hh & Hs & _).
      rewrite E in E1. injection E1 as <- <-. by rewrite app_nil_r in *. }
    destruct (Hall _ Hwf) as (Hwf1 & (H1 & H2 & H3 & H4 & H5) & _). exists (set_blobs_with_free_space fspc t'), fspc, []. split; [done|].
    split; [|split; [done|split; [by apply (alloc_wf_whole _ _ fspc Hwf1); left|]]].
    + destruct Hheap as (sigma & fl & [] & hl). exists sigma, fl. split; [|done]. split; try done. destruct h_mem. by split.
    + split; [done|]. split; [done|]. split; [done|]. split; [exact Hsize|]. intros fp Hfp. destruct (Hall fp Hfp) as ([Ha Hb] & _ & Hs). split; [by split|exact Hs].
  - destruct Hst as (pages & -> & Hheap). set (fspc := blobs_with_free_space t) in *. destruct (alloc_wf_used _ _ _ fspc Hwf) as [Hr _]; [apply elem_of_app; right; by left|].
    pose proof Hheap as (sigma & fl & h & _). destruct (h_first _ _ _ _ _ _ _ h) as (refs & Hp & _).
    rewrite (get_block_used page_size t fspc _ Hp Hr). cbn [result_bind]. exists t, fspc, pages. do 3 (split; [done|]). split; [lia|]. do 3 (split; [done|]). split; [lia|].
    intros fp Hfp. split; [|by intros ? ?]. eapply alloc_wf_perm; [eapply (alloc_wf_le _ n); [exact Hfp|lia]|]. by rewrite Permutation_app_comm.
Qed.

(** The space that is given does not depend on the other pages. *)
Lemma space_ok room t fspc pages fp0 cells n : heap_rep t fspc pages cells -> alloc_wf (S room) t (fspc :: pages ++ fp0) -> 0 <= n -> n + 11 < 2 ^ 32 ->
  file_size t + 16 * page_size <= 2 ^ 64 -> space_size n <= page_size - 8 ->
  let m := space_size n in
  (page_size - 8 - m = 8 \/ page_size - 8 - m = 16) /\ get_free_space page_size fspc n t = Throw undefined_behavior \/
  exists t' r size, get_free_space page_size fspc n t = Ok (t', FreeSpace (r + 4) size) /\
    forall fp, alloc_wf (S room) t (fspc :: pages ++ fp) -> exists pages' data cells', size = cell_size (Used data) /\ m <= size < m + 24 /\
      heap_rep t' fspc pages' (<[r := Used data]> cells') /\ keeps cells r cells' /\ alloc_wf room t' (fspc :: pages' ++ fp) /\ same_header t t' /\ same_pages fp t t'.
Proof.
  intros Hheap Hwf0 Hn Hlt Hfile Hbig m.
  assert (forall fp, alloc_wf (S room) t (fspc :: pages ++ fp) -> (page_size - 8 - m = 8 \/ page_size - 8 - m = 16) /\ get_free_space page_size fspc n t = Throw undefined_behavior \/
    exists s r pages', allocates page_size room t fspc fp cells m s r pages' (get_free_space page_size fspc n t)) as Hall.
  { intros fp Hwf. destruct (get_free_space_ok page_size room t fspc pages fp cells n Hheap Hwf Hn Hlt Hfile Hbig) as [(s & r & _ & _ & _ & H)|[_ H]]; [right; by exists s, r, pages|].
    fold m in H. destruct (decide _) as [Hm|_]; [left; done|]. destruct H as (x & _ & H). right. by eexists _, _, _. }
  destruct (Hall _ Hwf0) as [H|(s & r & pages' & t' & data & cells' & E & _)]; [by left|right]. exists t', r, (cell_size (Used data)). split; [done|].
  intros fp Hwf. destruct (Hall _ Hwf) as [[_ E']|(s2 & r2 & pages2 & t2 & data2 & cells2 & E2 & Hs & Hh & Hk & _ & Hw & Hsh & Hsp)]; [congruence|].
  rewrite E in E2. injection E2 as <- Er Es. assert (r2 = r) as -> by lia. exists pages2, data2, cells2. split; [exact Es|]. split; [cbn [cell_size] in *; lia|done].
Qed.

Lemma holds_keeps cells cells' r d references rows : keeps cells r cells' -> Forall2 (holds cells) references rows ->
  Forall2 (holds (<[r := Used d]> cells')) references rows.
Proof.
  intros [Hk _] Hall. eapply Forall2_impl; [exact Hall|]. intros reference row (slack & Hr & Hslack). destruct (Hk _ _ Hr) as [Hne Hr']. exists slack.
  by rewrite lookup_insert_ne.
Qed.

(** The data is written in its space, then its reference in the index. *)
Lemma store_row_ok n t2 f rest0 i pos references rows t3 fspc pages blob size r t4 cells :
  (forall v, exists fp, awaits page_size (2 + n) t2 f rest0 i pos v fp) -> f = references ->
  (forall fp, alloc_wf (2 + n) t2 (fp ++ rest0) -> alloc_wf (S n) t3 (fspc :: pages ++ fp) /\ same_pages fp t2 t3) ->
  indirect_index t3 = indirect_index t2 -> last_oid t3 = last_oid t2 -> first_free_oid t3 = first_free_oid t2 -> blobs_with_free_space t3 = fspc -> 0 < fspc ->
  (forall fp, alloc_wf (S n) t3 (fspc :: pages ++ fp) -> exists pages' data cells', size = cell_size (Used data) /\ 4 + Z.of_nat (length blob) <= size < 36 + Z.of_nat (length blob) /\
      heap_rep t4 fspc pages' (<[r := Used data]> cells') /\ keeps cells r cells' /\ alloc_wf n t4 (fspc :: pages' ++ fp) /\ same_header t3 t4 /\ same_pages fp t3 t4) ->
  Forall2 (holds cells) references rows ->
  exists t5 t6, write_page (data_pointer page_size (r + 4)) blob t4 = Ok t5 /\ indr_set_reference page_size i pos (r + 4) t5 = Ok t6 /\ rows_rep n t6 (rows ++ [blob]).
Proof.
  intros Hawait -> Hfspc Hi3 Hl3 Hf3 Hb3 Hpos Hspace Hrows. destruct (Hawait (r + 4)) as (fp & Hwf2 & Hset). destruct (Hfspc fp Hwf2) as [Hwf3 Hs3].
  destruct (Hspace fp Hwf3) as (pages' & data & cells' & Esize & Hsize & Hheap & Hkeep & Hwf4 & (Hi4 & Hl4 & Hf4 & Hb4 & _) & Hs4).
  destruct (write_used_ok t4 fspc pages' cells' r data blob Hheap) as (t5 & Ew & Hch & Hheap5); [rewrite Esize in Hsize; cbn [cell_size] in Hsize; lia|].
  pose proof (ch_wf _ _ _ _ Hch n (fspc :: pages' ++ fp) ltac:(set_solver) Hwf4) as Hwf5.
  assert (alloc_wf n t5 (fp ++ fspc :: pages')) as Hwf5' by (eapply alloc_wf_perm; [exact Hwf5|]; by rewrite app_comm_cons, Permutation_app_comm).
  destruct (ch_header _ _ _ _ Hch) as (Hi5 & Hl5 & Hf5 & Hb5 & _).
  assert (same_pages fp t2 t5) as Hs5.
  { eapply same_pages_trans; [exact Hs3|]. eapply same_pages_trans; [exact Hs4|]. eapply (changes_rest _ _ _ _ fspc pages'); [by apply changes_more|exact Hwf4]. }
  destruct (Hset n t5 (fspc :: pages') Hs5) as (p & Eset & Htable & Hout); [congruence..|exact Hwf5'|]. exists t5, (with_page i p t5). split; [exact Ew|]. split; [exact Eset|].
  exists (references ++ [r + 4]), (fspc :: pages'), (<[r := Used (blob ++ drop (length blob) data)]> cells'). split; [exact Htable|]. split.
  - unfold stored. cbn [with_page blobs_with_free_space]. assert (blobs_with_free_space t5 = fspc) as -> by congruence. rewrite decide_False by (unfold NULL_FILE_ADDR; lia).
    exists pages'. split; [done|]. destruct Hheap5 as (sigma & fl & h5 & hl5).
    assert (exists fp', alloc_wf n (with_page i p t5) (fp' ++ fspc :: pages')) as (fp' & Hwf6).
    { destruct Htable as [_ _ Htree]. unfold tree_rep in Htree. destruct (decide _); [by destruct references|]. destruct Htree as (L & fp' & _ & Hwf6 & _). by exists fp'. }
    eapply (heap_rep_frame t5); [by exists sigma, fl|by apply same_pages_page|exact Hwf6|set_solver|cbn; apply (h_file _ _ _ _ _ _ _ h5)].
  - apply Forall2_app; [by apply (holds_keeps cells)|]. constructor; [|constructor]. exists (drop (length blob) data). replace (r + 4 - 4) with r by lia.
    split; [apply lookup_insert_eq|]. rewrite length_drop. rewrite Esize in Hsize. cbn [cell_size] in Hsize. lia.
Qed.

Lemma row_insert_ok n t rows row : rows_rep (67 + n) t rows -> Z.of_nat (length rows) + 2 < 2 ^ 64 -> file_size t + 67 * (16 * page_size) <= 2 ^ 64 ->
  let oid := Z.of_nat (length rows) + 1 in
  Z.of_nat (length (row oid)) + 11 < 2 ^ 32 ->
  let m := space_size (Z.of_nat (length (row oid))) in
  if decide (m > page_size - 8) then row_insert page_size row t = Throw not_yet_implemented
  else (page_size - 8 - m = 8 \/ page_size - 8 - m = 16) /\ row_insert page_size row t = Throw undefined_behavior \/
    exists t', row_insert page_size row t = Ok (t', oid) /\ rows_rep n t' (rows ++ [row oid]).
Proof.
  intros (references & rest & cells & Htable & Hstored & Hrows) Hlen Hfile oid Hblob m. pose proof (Forall2_length _ _ _ Hrows) as Hcount.
  destruct (insert_place_ok page_size ltac:(lia) ltac:(lia) (2 + n) t references rest Htable ltac:(lia)) as (t2 & i & pos & Eplace & Hb2 & Hs2 & Hfile2 & Hawait).
  destruct (Hawait 0) as (fp0 & Hwf2 & _). unfold file_within in Hfile2.
  assert (stored t2 rest cells) as Hstored2 by (eapply stored_frame; [exact Hstored|done|done|exact Hwf2|set_solver|lia]).
  destruct (free_space_block_ok (S n) t2 rest cells fp0 Hstored2 Hwf2 ltac:(lia)) as (t3 & fspc & pages & Efspc & Hheap3 & Hb3 & Hpos & Hi3 & Hl3 & Hf3 & Hfile3 & Hall3).
  destruct (Hall3 fp0 Hwf2) as [Hwf3 _]. unfold row_insert. rewrite (new_oid_value page_size (67 + n) t references rest Htable ltac:(lia)). rewrite Hcount in *. fold oid in Eplace |- *.
  rewrite Eplace. cbn [result_bind]. rewrite Efspc. cbn [result_bind]. rewrite (wrap_small 32 (Z.of_nat (length (row oid)))) by (unfold uword; lia).
  pose proof (space_size_range (Z.of_nat (length (row oid))) ltac:(lia)) as [Hm _]. fold m in Hm. destruct (decide (m > page_size - 8)) as [Hbig|Hsmall].
  - by rewrite get_free_space_big by (done || lia).
  - destruct (space_ok n t3 fspc pages fp0 cells (Z.of_nat (length (row oid))) Hheap3 Hwf3 ltac:(lia) Hblob ltac:(lia) ltac:(unfold m in Hsmall; lia))
      as [[Hrem E]|(t4 & r & size & E & Hspace)]; [left; split; [done|by rewrite E]|right]. rewrite E. cbn [result_bind f_space_size f_reference].
    destruct (store_row_ok n t2 references rest i pos references rows t3 fspc pages (row oid) size r t4 cells) as (t5 & t6 & Ew & Es & Hrep); try done.
    { intros fp Hfp. destruct (Hspace fp Hfp) as (pages' & data & cells' & H1 & H2 & H3). exists pages', data, cells'. split; [done|]. split; [|done]. fold m in H2. lia. }
    destruct (Hspace fp0 Hwf3) as (_ & data & _ & Esize & Hsize & _). fold m in Hsize. rewrite decide_True by lia. cbn [result_bind]. rewrite Ew. cbn [result_bind]. rewrite Es. cbn [result_bind].
    by exists t6.
Qed.

Lemma get_indirect_row_ok n t rows i row : rows_rep n t rows -> Z.of_nat (length rows) + 2 < 2 ^ 64 -> rows !! i = Some row ->
  exists reference slack, get_indirect_reference page_size (Z.of_nat i + 1) t = Ok reference /\ (length slack < 32)%nat /\
    if decide (position_of reference + 4 + Z.of_nat (length (row ++ slack)) <= page_size)
    then exists extra, get_indirect_row page_size (Z.of_nat i + 1) t = Ok ((row ++ slack) ++ extra) /\ length extra = 4%nat
    else get_indirect_row page_size (Z.of_nat i + 1) t = Throw undefined_behavior.
Proof.
  intros (references & rest & cells & Htable & Hstored & Hrows) Hlen Hi. pose proof (Forall2_length _ _ _ Hrows) as Hcount. pose proof (lookup_lt_Some _ _ _ Hi) as Hlt.
  destruct (Forall2_lookup_r _ _ _ _ _ Hrows Hi) as (reference & Hr & slack & Hc & Hslack).
  pose proof (get_indirect_reference_ok page_size ltac:(lia) n t references rest (Z.of_nat i) Htable ltac:(lia) ltac:(lia)) as Hget.
  unfold lookup_ok in Hget. rewrite Nat2Z.id, Hr in Hget. exists reference, slack. split; [done|]. split; [done|]. unfold get_indirect_row. rewrite Hget. cbn [result_bind].
  unfold stored in Hstored. destruct (decide (blobs_with_free_space t = NULL_FILE_ADDR)); [destruct Hstored as [_ ->]; done|]. destruct Hstored as (pages & -> & Hheap).
  assert (exists fp, alloc_wf n t (fp ++ blobs_with_free_space t :: pages)) as (fp & Hwf).
  { destruct Htable as [_ _ Htree]. unfold tree_rep in Htree. destruct (decide _); [by subst|]. destruct Htree as (L & fp & _ & Hwf & _). by exists fp. }
  eapply get_row_ok; [exact Hheap|exact Hwf|set_solver|exact Hc].
Qed.

Lemma empty_table_rows n : rows_rep n (empty_table page_size) [].
Proof.
  destruct (empty_table_ok page_size ltac:(lia) ltac:(lia) n) as [Htable Hnull]. exists [], [], ∅. split; [exact Htable|]. split; [|constructor].
  unfold stored. by rewrite decide_True.
Qed.
End Properties.



(** Two rows, and what is read for the first one: the five bytes that are not its
    own are the one that pads its space and the size and flags of the next space. *)
Example two_rows : (let! '(t, oid1) := row_insert 4096 (fun oid => [oid; 2; 3]) (empty_table 4096) in
    let! '(t, oid2) := row_insert 4096 (fun oid => [oid; 5; 6; 7]) t in
    let! row1 := get_indirect_row 4096 oid1 t in Ok (oid1, oid2, row1)) = Ok (1, 2, [1; 2; 3] ++ [0; 8; 0; 0; 1]).
Proof. by vm_compute. Qed.

(** A row that takes a whole page. *)
Example whole_page : (let! '(t, oid) := row_insert 4096 (fun oid => replicate 4084 oid) (empty_table 4096) in get_indirect_row 4096 oid t) =
  Throw undefined_behavior.
Proof. by vm_compute. Qed.
