(* ===== verification/EntryIndex.v ===== *)
(** * Blocks of the entries of an index (prinbee/block/block_entry_index.cpp)

    An EIDX block is an array of entries sorted by key: a byte of flags, the number
    of a row and the first bytes of its key, all of the same size.  A TIDX block
    (block_top_index.cpp) is a sorted array of references of blocks and keys.

    The fields of the header are kept as numbers and the array as bytes, from the
    end of the header to the end of the page.  An access out of these bytes, or of
    the key, is undefined behaviour: that is also the case of the sixteen bytes of
    the key, and of the 25 bytes of an entry, that find_entry() prints.  The state
    is lost with an exception. *)

From S2P Require Import Prelude Bytes SortedMap IndirectIndex.

(** The sign of the result is all that is used. *)
Definition memcmp (a b : list Z) : Z := if string_ltb a b then -1 else if string_ltb b a then 1 else 0.

Definition ENTRY_INDEX_FLAG_COMPLETE : Z := 0x01.

(** The sizes of the flags and of a reference (and of an oid_t). *)
Definition FLAG_SIZE : Z := 1.
Definition REFERENCE_SIZE : Z := 8.

Record block_entry_index := EntryIndex {
  f_count : Z;
  f_size : Z;
  f_next : Z;
  f_previous : Z;
  f_entries : list Z;
  f_position : Z;
}.

Definition get_count (b : block_entry_index) : Z := f_count b.
Definition get_size (b : block_entry_index) : Z := f_size b.
Definition get_next (b : block_entry_index) : Z := f_next b.
Definition get_previous (b : block_entry_index) : Z := f_previous b.
Definition get_position (b : block_entry_index) : Z := f_position b.
Definition set_count (count : Z) (b : block_entry_index) : block_entry_index :=
  EntryIndex count (f_size b) (f_next b) (f_previous b) (f_entries b) (f_position b).
Definition set_size (size : Z) (b : block_entry_index) : result block_entry_index :=
  if decide (size < FLAG_SIZE + REFERENCE_SIZE + 1) then Throw logic_error
  else Ok (EntryIndex (f_count b) size (f_next b) (f_previous b) (f_entries b) (f_position b)).
Definition set_key_size (size : Z) (b : block_entry_index) : result block_entry_index :=
  set_size (wrap 32 (FLAG_SIZE + REFERENCE_SIZE + size)) b.
Definition set_next (offset : Z) (b : block_entry_index) : block_entry_index :=
  EntryIndex (f_count b) (f_size b) offset (f_previous b) (f_entries b) (f_position b).
Definition set_previous (offset : Z) (b : block_entry_index) : block_entry_index :=
  EntryIndex (f_count b) (f_size b) (f_next b) offset (f_entries b) (f_position b).
Definition with_entries (entries : list Z) (b : block_entry_index) : block_entry_index :=
  EntryIndex (f_count b) (f_size b) (f_next b) (f_previous b) entries (f_position b).
Definition with_position (position : Z) (b : block_entry_index) : block_entry_index :=
  EntryIndex (f_count b) (f_size b) (f_next b) (f_previous b) (f_entries b) position.

(** ** Search *)

(** The offset of an entry, computed with 32 bits. *)
Definition entry_offset (size position : Z) : Z := wrap 32 (position * size).

(** The loop of find_entry(): the position and the reference. *)
Fixpoint find_loop (b : block_entry_index) (key : list Z) (length : Z) (fuel : nat) (i j position : Z) : result (Z * Z) :=
  match fuel with
  | O => Throw fuel_exhausted
  | S fuel =>
      if decide (i < j)
      then
        let position := (j - i) / 2 + i in
        let ptr := entry_offset (f_size b) position in
        let! _ := read_buffer (f_entries b) ptr (1 + 8 + 16) in
        let! entry_key := read_buffer (f_entries b) (ptr + FLAG_SIZE + REFERENCE_SIZE) length in
        let! start := read_buffer key 0 length in
        let r := memcmp entry_key start in
        if decide (r < 0) then find_loop b key length fuel (position + 1) j (position + 1)
        else if decide (r > 0) then find_loop b key length fuel i position position
        else let! reference := read_buffer (f_entries b) (ptr + FLAG_SIZE) REFERENCE_SIZE in Ok (position, of_le reference)
      else Ok (position, NULL_FILE_ADDR)
  end.

Definition find_entry (key : list Z) (b : block_entry_index) : result (block_entry_index * Z) :=
  let count := get_count b in
  if decide (count = 0) then Ok (with_position 0 b, NULL_FILE_ADDR)
  else
    let! _ := read_buffer key 0 16 in
    let length := wrap 32 (Z.min (wrap 64 (get_size b - FLAG_SIZE - REFERENCE_SIZE)) (Z.of_nat (length key))) in
    let! '(position, reference) := find_loop b key length (S (Z.to_nat count)) 0 count (f_position b) in
    Ok (with_position position b, reference).

(** ** Insertion *)

(** The loop of add_entry(): the position. *)
Fixpoint add_entry_loop (b : block_entry_index) (key : list Z) (min_length : Z) (fuel : nat) (i j close_position : Z) : result Z :=
  match fuel with
  | O => Throw fuel_exhausted
  | S fuel =>
      if decide (i < j)
      then
        let close_position := (j - i) / 2 + i in
        let ptr := entry_offset (f_size b) close_position in
        let! entry_key := read_buffer (f_entries b) (ptr + FLAG_SIZE + REFERENCE_SIZE) min_length in
        let! start := read_buffer key 0 min_length in
        let r := memcmp entry_key start in
        if decide (r < 0) then add_entry_loop b key min_length fuel (close_position + 1) j (close_position + 1)
        else if decide (r > 0) then add_entry_loop b key min_length fuel i close_position close_position
        else Throw not_yet_implemented
      else Ok close_position
  end.

(** A negative [close_position] is one that is not known. *)
Definition add_entry (page_size static_size : Z) (key : list Z) (position_oid close_position : Z) (b : block_entry_index) : result block_entry_index :=
  let count := get_count b in
  let size := get_size b in
  let key_length := wrap 32 (size - FLAG_SIZE - REFERENCE_SIZE) in
  let min_length := Z.min key_length (wrap 32 (Z.of_nat (length key))) in
  if decide (size < FLAG_SIZE + REFERENCE_SIZE + 1) then Throw logic_error
  else
    let! close_position :=
      if decide (close_position < 0) then add_entry_loop b key min_length (S (Z.to_nat count)) 0 count 0 else Ok close_position in
    let max_count := (page_size - static_size) / size in
    if decide (count >= max_count)
    then if decide (close_position >= max_count) then Throw not_yet_implemented else Throw not_yet_implemented
    else
      let! moved :=
        if decide (wrap 32 (count - close_position) > 0)
        then
          let! after := read_buffer (f_entries b) (entry_offset size close_position) (wrap 32 ((count - close_position) * size)) in
          write_buffer (f_entries b) (entry_offset size (close_position + 1)) after
        else Ok (f_entries b) in
      let ptr := entry_offset size close_position in
      let! moved := write_buffer moved ptr [if decide (Z.of_nat (length key) <= key_length) then ENTRY_INDEX_FLAG_COMPLETE else 0] in
      let! moved := write_buffer moved (ptr + FLAG_SIZE) (le 8 position_oid) in
      let! start := read_buffer key 0 min_length in
      let! moved := write_buffer moved (ptr + FLAG_SIZE + REFERENCE_SIZE) start in
      let! moved :=
        if decide (Z.of_nat (length key) < key_length)
        then write_buffer moved (ptr + FLAG_SIZE + REFERENCE_SIZE + Z.of_nat (length key)) (replicate (Z.to_nat (key_length - Z.of_nat (length key))) 0)
        else Ok moved in
      Ok (set_count (wrap 32 (count + 1)) (with_entries moved b)).

(** ** Blocks of references (block_top_index.cpp) *)

Record block_top_index := TopIndex {
  ti_count : Z;
  ti_size : Z;
  ti_indexes : list Z;
  ti_position : Z;
}.

Definition ti_set_count (count : Z) (b : block_top_index) : block_top_index := TopIndex count (ti_size b) (ti_indexes b) (ti_position b).
Definition ti_set_size (size : Z) (b : block_top_index) : block_top_index := TopIndex (ti_count b) size (ti_indexes b) (ti_position b).

(** Unlike that of find_entry(), the loop does not move the position after an
    index that is below the key. *)
Fixpoint find_index_loop (b : block_top_index) (key : list Z) (length : Z) (fuel : nat) (i j position : Z) : result (Z * Z) :=
  match fuel with
  | O => Throw fuel_exhausted
  | S fuel =>
      if decide (i < j)
      then
        let position := (j - i) / 2 + i in
        let ptr := entry_offset (ti_size b) position in
        let! index_key := read_buffer (ti_indexes b) (ptr + REFERENCE_SIZE) length in
        let! start := read_buffer key 0 length in
        let r := memcmp index_key start in
        if decide (r < 0) then find_index_loop b key length fuel (position + 1) j position
        else if decide (r > 0) then find_index_loop b key length fuel i position position
        else let! reference := read_buffer (ti_indexes b) ptr REFERENCE_SIZE in Ok (position, of_le reference)
      else Ok (position, NULL_FILE_ADDR)
  end.

Definition find_index (key : list Z) (b : block_top_index) : result (block_top_index * Z) :=
  let length := wrap 32 (Z.min (Z.of_nat (length key)) (wrap 64 (ti_size b - REFERENCE_SIZE))) in
  let! '(position, reference) := find_index_loop b key length (S (Z.to_nat (ti_count b))) 0 (ti_count b) (ti_position b) in
  Ok (TopIndex (ti_count b) (ti_size b) (ti_indexes b) position, reference).
