(* ===== verification/EntryIndexProps.v ===== *)
(** * Properties of the blocks of the entries of an index

    An EIDX block represents a sorted map of keys: find_entry() searches it,
    add_entry() inserts in it and keeps it sorted. *)

From S2P Require Import Prelude Bytes SortedMap IndirectIndex EntryIndex.

(** ** Prefixes of keys *)

Lemma ltb_prefix L a b : string_ltb (take L a) (take L b) = true -> string_ltb a b = true.
Proof.
  revert a b. induction L as [|L IH]; intros [|x a] [|y b]; cbn; try done. intros H. rewrite orb_true_iff, andb_true_iff in *.
  destruct H as [?|[? ?]]; [by left|]. right. split; [done|by apply IH].
Qed.

Lemma prefix_ltb L a b : string_ltb a b = true -> string_ltb (take L b) (take L a) = false.
Proof.
  intros Hab. destruct (string_ltb (take L b) (take L a)) eqn:E; [|done]. apply ltb_prefix in E.
  pose proof (ltb_asym string_ltb _ _ Hab). congruence.
Qed.

Section Keys.
Context {V : Type}.
Implicit Types m : list (list Z * V).

(** The entries below a prefix, those that have it, and those above. *)
Definition split_at (L : nat) (y : list Z) (lo eq hi : list (list Z * V)) : Prop :=
  Forall (fun e => string_ltb (take L (fst e)) y = true) lo /\ Forall (fun e => take L (fst e) = y) eq /\
  Forall (fun e => string_ltb y (take L (fst e)) = true) hi.

Lemma split_sorted L y m : length y = L -> sorted string_ltb m -> Forall (fun e => L <= length (fst e))%nat m ->
  exists lo eq hi, m = lo ++ eq ++ hi /\ split_at L y lo eq hi.
Proof.
  intros Hy. induction m as [|[k v] m IH]; intros Hs Hk; [exists [], [], []; by split_and!|]. cbn in Hs. destruct Hs as [Hkm Hs].
  apply Forall_cons in Hk as [Hkl Hk]. destruct (IH Hs Hk) as (lo & eq & hi & -> & Hlo & Heq & Hhi).
  destruct (string_ltb (take L k) y) eqn:E1; [|destruct (string_ltb y (take L k)) eqn:E2].
  - exists ((k, v) :: lo), eq, hi. split; [done|]. split_and!; [by constructor|done|done].
  - exists [], [], ((k, v) :: lo ++ eq ++ hi). split; [done|]. split_and!; [done|done|]. constructor; [done|].
    eapply Forall_impl; [exact Hkm|]. intros [k' v'] Hk'. cbn in *. apply (prefix_ltb L) in Hk'.
    destruct (string_ltb y (take L k')) eqn:E3; [done|]. exfalso. destruct (string_ltb (take L k') y) eqn:E4.
    + pose proof (ltb_trans _ _ _ E4 E2). congruence.
    + pose proof (ltb_total _ _ E4 E3) as E5. congruence.
  - pose proof (ltb_total _ _ E1 E2) as E. assert (lo = []) as ->.
    { destruct lo as [|[k' v'] lo]; [done|]. exfalso. apply Forall_cons in Hkm as [Hk' _]. apply Forall_cons in Hlo as [Hl _]. cbn in *.
      apply (prefix_ltb L) in Hk'. congruence. }
    exists [], ((k, v) :: eq), hi. split; [done|]. split_and!; [done|by constructor|done].
Qed.

(** Insertion between the entries below and those above. *)
Lemma put_between k (v : V) lo hi : Forall (fun e => string_ltb (fst e) k = true) lo -> Forall (fun e => string_ltb k (fst e) = true) hi ->
  put string_ltb k v (lo ++ hi) = lo ++ (k, v) :: hi.
Proof.
  intros Hlo Hhi. induction Hlo as [|[k' v'] lo Hk' Hlo IH]; cbn [app put].
  - destruct hi as [|[k' v'] hi]; [done|]. apply Forall_cons in Hhi as [Hk' _]. cbn in *. by rewrite Hk'.
  - cbn in Hk'. rewrite (ltb_asym string_ltb _ _ Hk'), Hk'. by rewrite IH.
Qed.
End Keys.

Lemma memcmp_lt a b : string_ltb a b = true -> memcmp a b = -1.
Proof. unfold memcmp. by intros ->. Qed.

Lemma memcmp_gt a b : string_ltb b a = true -> memcmp a b = 1.
Proof. unfold memcmp. intros H. by rewrite (ltb_asym string_ltb _ _ H), H. Qed.

Lemma memcmp_eq a : memcmp a a = 0.
Proof. unfold memcmp. by rewrite !(ltb_irrefl (ltb := string_ltb)). Qed.

(** ** Entries *)

Section Entries.
Context (page_size static_size : Z) (K : nat).

Notation entry := (list Z * (Z * Z))%type.
Notation size := (9 + Z.of_nat K).

(** The bytes of the entry of a key, with its flags and number of row. *)
Definition encode (e : entry) : list Z := fst (snd e) :: le 8 (snd (snd e)) ++ fst e.

Definition entry_ok (e : entry) : Prop := length (fst e) = K /\ uword 64 (snd (snd e)).

(** The block represents a map. *)
Record index_rep (b : block_entry_index) (m : list entry) : Prop := {
  ir_key : (1 <= K)%nat;
  ir_size : f_size b = size;
  ir_width : size < 2 ^ 32;
  ir_count : f_count b = Z.of_nat (length m);
  ir_bytes : exists rest, f_entries b = concat (encode <$> m) ++ rest;
  ir_page : Z.of_nat (length (f_entries b)) = page_size - static_size;
  ir_small : page_size - static_size < 2 ^ 32;
  ir_entries : Forall entry_ok m;
  ir_sorted : sorted string_ltb m;
}.

Lemma length_encode e : entry_ok e -> Z.of_nat (length (encode e)) = size.
Proof. intros [Hk _]. unfold encode. cbn [length]. rewrite length_app, length_le, Hk. lia. Qed.

Lemma length_encoded m : Forall entry_ok m -> Z.of_nat (length (concat (encode <$> m))) = Z.of_nat (length m) * size.
Proof.
  induction 1 as [|e m He Hm IH]; [done|]. cbn [fmap list_fmap concat length]. rewrite length_app, Nat2Z.inj_add, length_encode by done.
  change (list_fmap _ _ encode m) with (encode <$> m). lia.
Qed.

Lemma read_at_split a x y : read_buffer (a ++ x ++ y) (Z.of_nat (length a)) (Z.of_nat (length x)) = Ok x.
Proof. unfold read_buffer. by rewrite bytes_at_split. Qed.

Lemma read_at_inside l pos n : 0 <= pos -> 0 <= n -> pos + n <= Z.of_nat (length l) -> exists x, read_buffer l pos n = Ok x.
Proof. intros Hp Hn Hl. unfold read_buffer, bytes_at. destruct (decide (n = 0)); [eauto|]. rewrite decide_True by lia. eauto. Qed.

(** The three parts of an entry, and the beginning of its key. *)
Lemma read_entry b m p e L : index_rep b m -> m !! p = Some e -> (L <= K)%nat ->
  entry_offset (f_size b) (Z.of_nat p) = Z.of_nat p * size /\ Z.of_nat p * size + size <= page_size - static_size /\
  read_buffer (f_entries b) (Z.of_nat p * size + FLAG_SIZE) REFERENCE_SIZE = Ok (le 8 (snd (snd e))) /\
  read_buffer (f_entries b) (Z.of_nat p * size + FLAG_SIZE + REFERENCE_SIZE) (Z.of_nat L) = Ok (take L (fst e)).
Proof.
  intros [HK Hsize Hwidth Hcount [rest Hb] Hpage Hsmall Hent _] He HL. pose proof (list_elem_of_split_length _ _ _ He) as (m1 & m2 & -> & Hp).
  apply Forall_app in Hent as [Hm1 [Hek Hm2]%Forall_cons]. rewrite fmap_app, concat_app in Hb. cbn [fmap list_fmap concat] in Hb.
  pose proof (length_encoded m1 Hm1) as Hl1. rewrite <- Hp in Hl1. set (a := concat (encode <$> m1)) in *. pose proof (length_encode e Hek) as Hle.
  rewrite <- Hl1. assert (f_entries b = a ++ encode e ++ (concat (encode <$> m2) ++ rest)) as Hb' by (rewrite Hb, <- !app_assoc; done).
  assert (Z.of_nat (length a) + size <= page_size - static_size) as Hin by (rewrite <- Hpage, Hb', !length_app; lia).
  split; [|split; [done|]].
  - unfold entry_offset. rewrite Hsize, <- Hl1. apply wrap_small. unfold uword. lia.
  - rewrite Hb'. set (y := concat (encode <$> m2) ++ rest). unfold encode. destruct Hek as [Hk _]. split.
    + assert (Z.of_nat (length a) + FLAG_SIZE = Z.of_nat (length (a ++ [fst (snd e)]))) as -> by (rewrite length_app; cbn; unfold FLAG_SIZE; lia).
      change REFERENCE_SIZE with (Z.of_nat (length (le 8 (snd (snd e))))).
      replace (a ++ (fst (snd e) :: le 8 (snd (snd e)) ++ fst e) ++ y) with ((a ++ [fst (snd e)]) ++ le 8 (snd (snd e)) ++ (fst e ++ y))
        by (rewrite <- !app_assoc; done). exact (read_at_split (a ++ [fst (snd e)]) (le 8 (snd (snd e))) (fst e ++ y)).
    + assert (Z.of_nat (length a) + FLAG_SIZE + REFERENCE_SIZE = Z.of_nat (length (a ++ fst (snd e) :: le 8 (snd (snd e))))) as ->
        by (rewrite length_app; cbn [length]; rewrite length_le; unfold FLAG_SIZE, REFERENCE_SIZE; lia).
      replace (a ++ (fst (snd e) :: le 8 (snd (snd e)) ++ fst e) ++ y) with ((a ++ fst (snd e) :: le 8 (snd (snd e))) ++ take L (fst e) ++ (drop L (fst e) ++ y))
        by (rewrite (app_assoc (take L _)), take_drop, <- !app_assoc; done).
      replace (Z.of_nat L) with (Z.of_nat (length (take L (fst e)))) by (rewrite length_take; lia). apply read_at_split.
Qed.

(** ** Searches *)

(** How the entry at [p] compares with the start of the key. *)
Lemma compare_entry L y (lo eq hi : list entry) p e : split_at L y lo eq hi -> (lo ++ eq ++ hi) !! p = Some e ->
  (p < length lo)%nat /\ memcmp (take L (fst e)) y = -1 \/
  (length lo <= p < length lo + length eq)%nat /\ e ∈ eq /\ memcmp (take L (fst e)) y = 0 \/
  (length lo + length eq <= p)%nat /\ memcmp (take L (fst e)) y = 1.
Proof.
  intros (Hlo & Heq & Hhi) He. rewrite Forall_forall in Hlo, Heq, Hhi. apply lookup_app_Some in He as [He|[Hp He]].
  - left. split; [by eapply lookup_lt_Some|]. apply memcmp_lt, Hlo. by eapply list_elem_of_lookup_2.
  - right. apply lookup_app_Some in He as [He|[Hp' He]].
    + left. split; [apply lookup_lt_Some in He; lia|]. apply list_elem_of_lookup_2 in He. split; [done|]. rewrite (Heq e He). apply memcmp_eq.
    + right. split; [lia|]. apply memcmp_gt, Hhi. by eapply list_elem_of_lookup_2.
Qed.

Lemma middle i j : i < j -> i <= (j - i) / 2 + i < j.
Proof. intros H. pose proof (Z.div_mod (j - i) 2 ltac:(done)). pose proof (Z.mod_pos_bound (j - i) 2 ltac:(lia)). lia. Qed.

Lemma read_key key L : (L <= length key)%nat -> read_buffer key 0 (Z.of_nat L) = Ok (take L key).
Proof.
  intros HL. rewrite <- (take_drop L key) at 1. replace (Z.of_nat L) with (Z.of_nat (length (take L key))) by (rewrite length_take; lia).
  exact (read_at_split [] (take L key) (drop L key)).
Qed.

(** The entry in the middle, when the loop goes on. *)
Lemma middle_entry (b : block_entry_index) m i j : index_rep b m -> 0 <= i -> i < j -> j <= Z.of_nat (length m) ->
  exists p e, (j - i) / 2 + i = Z.of_nat p /\ m !! p = Some e /\ i <= Z.of_nat p < j.
Proof.
  intros Hb Hi Hij Hj. pose proof (middle i j Hij). destruct (m !! Z.to_nat ((j - i) / 2 + i)) as [e|] eqn:E; [|apply lookup_ge_None in E; lia].
  exists (Z.to_nat ((j - i) / 2 + i)), e. split; [lia|]. split; [done|lia].
Qed.

Lemma find_loop_ok b m key L lo eq hi fuel i j position : index_rep b m -> m = lo ++ eq ++ hi -> (L <= K)%nat -> (L <= length key)%nat ->
  split_at L (take L key) lo eq hi -> (Z.of_nat (length m) - 1) * size + 25 <= page_size - static_size ->
  0 <= i <= Z.of_nat (length lo) -> Z.of_nat (length lo + length eq) <= j <= Z.of_nat (length m) -> (i = j -> position = Z.of_nat (length lo)) ->
  j - i < Z.of_nat fuel ->
  match eq with
  | [] => find_loop b key (Z.of_nat L) fuel i j position = Ok (Z.of_nat (length lo), NULL_FILE_ADDR)
  | _ => exists p e, m !! p = Some e /\ e ∈ eq /\ find_loop b key (Z.of_nat L) fuel i j position = Ok (Z.of_nat p, snd (snd e))
  end.
Proof.
  intros Hb Hm HL Hkey Hsplit Hprint. revert i j position. induction fuel as [|fuel IH]; intros i j position Hi Hj Hpos Hfuel; [lia|].
  cbn [find_loop]. destruct (decide (i < j)) as [Hij|Hij].
  2: { destruct eq; cbn [length] in Hj; [by rewrite Hpos by lia|lia]. }
  destruct (middle_entry b m i j Hb ltac:(lia) Hij ltac:(lia)) as (p & e & -> & He & Hp).
  destruct (read_entry b m p e L Hb He HL) as (Hoff & Hin & Href & Hstart). rewrite Hoff.
  pose proof (lookup_lt_Some _ _ _ He) as Hpm. destruct Hb as [HK Hsize Hwidth Hcount Hbytes Hpage Hsmall Hent Hsorted].
  destruct (read_at_inside (f_entries b) (Z.of_nat p * size) (1 + 8 + 16)) as [x ->]; [lia|lia|nia|]. cbn [result_bind].
  rewrite Hstart. cbn [result_bind]. rewrite read_key by done. cbn [result_bind]. rewrite Hm in He.
  destruct (compare_entry _ _ _ _ _ _ _ Hsplit He) as [[Hlt ->]|[(Hr & Heq & ->)|[Hge ->]]].
  - rewrite decide_True by lia. apply IH; lia.
  - rewrite !decide_False by lia. rewrite Href. cbn [result_bind]. rewrite Forall_forall in Hent.
    assert (of_le (le 8 (snd (snd e))) = snd (snd e)) as ->.
    { apply of_le_le_small. apply (Hent e). rewrite Hm. by eapply list_elem_of_lookup_2. }
    destruct eq as [|e0 eq]; [by apply elem_of_nil in Heq|]. exists p, e. rewrite Hm. by split_and!.
  - rewrite decide_False, decide_True by lia. apply IH; lia.
Qed.

Lemma add_loop_ok b m key L lo eq hi fuel i j position : index_rep b m -> m = lo ++ eq ++ hi -> (L <= K)%nat -> (L <= length key)%nat ->
  split_at L (take L key) lo eq hi ->
  0 <= i <= Z.of_nat (length lo) -> Z.of_nat (length lo + length eq) <= j <= Z.of_nat (length m) -> (i = j -> position = Z.of_nat (length lo)) ->
  j - i < Z.of_nat fuel ->
  add_entry_loop b key (Z.of_nat L) fuel i j position = match eq with [] => Ok (Z.of_nat (length lo)) | _ => Throw not_yet_implemented end.
Proof.
  intros Hb Hm HL Hkey Hsplit. revert i j position. induction fuel as [|fuel IH]; intros i j position Hi Hj Hpos Hfuel; [lia|].
  cbn [add_entry_loop]. destruct (decide (i < j)) as [Hij|Hij].
  2: { destruct eq; cbn [length] in Hj; [by rewrite Hpos by lia|lia]. }
  destruct (middle_entry b m i j Hb ltac:(lia) Hij ltac:(lia)) as (p & e & -> & He & Hp).
  destruct (read_entry b m p e L Hb He HL) as (Hoff & Hin & Href & Hstart). rewrite Hoff.
  rewrite Hstart. cbn [result_bind]. rewrite read_key by done. cbn [result_bind]. rewrite Hm in He.
  destruct (compare_entry _ _ _ _ _ _ _ Hsplit He) as [[Hlt ->]|[(Hr & Heq & ->)|[Hge ->]]].
  - rewrite decide_True by lia. apply IH; lia.
  - rewrite !decide_False by lia. destruct eq as [|e0 eq]; [by apply elem_of_nil in Heq|done].
  - rewrite decide_False, decide_True by lia. apply IH; lia.
Qed.

(** ** Insertion *)

(** The entry of a key: as much of it as there is room for, then zeros. *)
Definition key_of (key : list Z) : list Z := take K key ++ replicate (K - length key) 0.
Definition flags_of (key : list Z) : Z := if decide (length key <= K)%nat then ENTRY_INDEX_FLAG_COMPLETE else 0.

Lemma length_key_of key : length (key_of key) = K.
Proof. unfold key_of. rewrite length_app, length_take, length_replicate. lia. Qed.

Lemma take_min (key : list Z) : take (Nat.min K (length key)) key = take K key.
Proof. destruct (decide (K <= length key)%nat); [by rewrite Nat.min_l by lia|]. rewrite Nat.min_r by lia. by rewrite !take_ge by lia. Qed.

Lemma take_key_of key : take (Nat.min K (length key)) (key_of key) = take (Nat.min K (length key)) key.
Proof.
  unfold key_of. rewrite take_app_le by (rewrite length_take; lia). rewrite take_take. f_equal. lia.
Qed.

Lemma write_at_split a x y z : length x = length y -> write_buffer (a ++ x ++ z) (Z.of_nat (length a)) y = Ok (a ++ y ++ z).
Proof.
  intros Hl. unfold write_buffer. rewrite decide_True by (rewrite !length_app; lia). by rewrite overwrite_split.
Qed.

(** The parts of the new entry are written in turn over the bytes [old]. *)
Lemma write_entry a old z key oid : Z.of_nat (length old) = size ->
  (let! moved := write_buffer (a ++ old ++ z) (Z.of_nat (length a)) [flags_of key] in
   let! moved := write_buffer moved (Z.of_nat (length a) + FLAG_SIZE) (le 8 oid) in
   let! moved := write_buffer moved (Z.of_nat (length a) + FLAG_SIZE + REFERENCE_SIZE) (take K key) in
   if decide (Z.of_nat (length key) < Z.of_nat K)
   then write_buffer moved (Z.of_nat (length a) + FLAG_SIZE + REFERENCE_SIZE + Z.of_nat (length key)) (replicate (Z.to_nat (Z.of_nat K - Z.of_nat (length key))) 0)
   else Ok moved) = Ok (a ++ encode (key_of key, (flags_of key, oid)) ++ z).
Proof.
  intros Hold. rewrite <- (take_drop 1 old), <- (take_drop 8 (drop 1 old)), <- (take_drop (length (take K key)) (drop 8 (drop 1 old))).
  set (o1 := take 1 old). set (o2 := take 8 (drop 1 old)). set (o3 := take (length (take K key)) _). set (o4 := drop (length (take K key)) _).
  assert (length o1 = 1%nat) by (unfold o1; rewrite length_take; lia).
  assert (length o2 = 8%nat) by (unfold o2; rewrite length_take, length_drop; lia).
  assert (length o3 = length (take K key)) by (unfold o3; rewrite length_take, !length_drop, length_take; lia).
  assert (length o4 = (K - length key)%nat) as Ho4 by (unfold o4; rewrite !length_drop, length_take; lia).
  rewrite <- !app_assoc. rewrite write_at_split by done. cbn [result_bind].
  assert (Z.of_nat (length a) + FLAG_SIZE = Z.of_nat (length (a ++ [flags_of key]))) as -> by (rewrite length_app; unfold FLAG_SIZE; cbn; lia).
  rewrite (app_assoc a). rewrite write_at_split by by rewrite length_le. cbn [result_bind].
  assert (Z.of_nat (length (a ++ [flags_of key])) + REFERENCE_SIZE = Z.of_nat (length ((a ++ [flags_of key]) ++ le 8 oid))) as ->
    by (rewrite (length_app (a ++ _)), length_le; unfold REFERENCE_SIZE; lia).
  rewrite (app_assoc (a ++ _)). rewrite write_at_split by done. cbn [result_bind]. unfold encode, key_of. cbn [fst snd].
  destruct (decide _) as [Hlt|Hge].
  - assert (Z.of_nat (length ((a ++ [flags_of key]) ++ le 8 oid)) + Z.of_nat (length key) =
      Z.of_nat (length (((a ++ [flags_of key]) ++ le 8 oid) ++ take K key))) as -> by (rewrite (length_app (_ ++ le 8 oid)), length_take; lia).
    rewrite (app_assoc (_ ++ le 8 oid)). rewrite write_at_split by (rewrite length_replicate; lia).
    replace (Z.to_nat (Z.of_nat K - Z.of_nat (length key))) with (K - length key)%nat by lia.
    rewrite <- !app_assoc. cbn [app]. by rewrite <- !app_assoc.
  - replace (K - length key)%nat with 0%nat in * by lia. apply nil_length_inv in Ho4 as ->. cbn [replicate]. rewrite !app_nil_r, app_nil_l.
    rewrite <- !app_assoc. cbn [app]. by rewrite <- !app_assoc.
Qed.

Lemma sorted_between (lo hi : list entry) k v : sorted string_ltb (lo ++ hi) -> Forall (fun e => string_ltb (fst e) k = true) lo ->
  Forall (fun e => string_ltb k (fst e) = true) hi -> sorted string_ltb (lo ++ (k, v) :: hi).
Proof. intros Hs Hlo Hhi. rewrite <- put_between by done. apply (sorted_put string_ltb). done. Qed.

(** The entries after the place of the new one are moved by one entry. *)
Lemma move_entries b lo hi : index_rep b (lo ++ hi) -> (Z.of_nat (length (lo ++ hi)) + 1) * size <= page_size - static_size ->
  exists old z, length old = Z.to_nat size /\
    length (concat (encode <$> lo) ++ old ++ concat (encode <$> hi) ++ z) = length (f_entries b) /\
    (if decide (wrap 32 (f_count b - Z.of_nat (length lo)) > 0)
     then let! after := read_buffer (f_entries b) (entry_offset (f_size b) (Z.of_nat (length lo))) (wrap 32 ((f_count b - Z.of_nat (length lo)) * f_size b)) in
       write_buffer (f_entries b) (entry_offset (f_size b) (Z.of_nat (length lo) + 1)) after
     else Ok (f_entries b)) = Ok (concat (encode <$> lo) ++ old ++ concat (encode <$> hi) ++ z).
Proof.
  intros [HK Hsize Hwidth Hcount [rest Hb] Hpage Hsmall Hent _] Hroom. apply Forall_app in Hent as [Hlo Hhi]. rewrite fmap_app, concat_app in Hb.
  pose proof (length_encoded lo Hlo) as Hla. pose proof (length_encoded hi Hhi) as Hlh. rewrite Hcount, Hsize. rewrite length_app in Hroom |- *.
  set (A := concat (encode <$> lo)) in *. set (H := concat (encode <$> hi)) in *.
  replace (Z.of_nat (length lo + length hi) - Z.of_nat (length lo)) with (Z.of_nat (length hi)) by lia.
  assert (length (A ++ H ++ rest) = Z.to_nat (page_size - static_size)) as Hl by (rewrite app_assoc, <- Hb; lia).
  rewrite !length_app in Hl. assert (size <= Z.of_nat (length rest)) as Hrest by nia.
  unfold entry_offset. rewrite (wrap_small 32 (Z.of_nat (length hi))) by (unfold uword; nia).
  destruct (decide (Z.of_nat (length hi) > 0)) as [Hmove|Hnone].
  - rewrite !wrap_small by (unfold uword; nia). rewrite Hb, <- app_assoc.
    replace (Z.of_nat (length lo) * size) with (Z.of_nat (length A)) by lia. replace (Z.of_nat (length hi) * size) with (Z.of_nat (length H)) by lia.
    rewrite read_at_split. cbn [result_bind]. set (W := H ++ take (Z.to_nat size) rest).
    assert (length W = (length H + Z.to_nat size)%nat) as HW by (unfold W; rewrite length_app, length_take; lia).
    exists (take (Z.to_nat size) W), (drop (Z.to_nat size) rest). split; [rewrite length_take; lia|].
    split; [rewrite !length_app, length_take, length_drop; lia|].
    assert (A ++ H ++ rest = (A ++ take (Z.to_nat size) W) ++ drop (Z.to_nat size) W ++ drop (Z.to_nat size) rest) as ->.
    { rewrite <- app_assoc. f_equal. rewrite (app_assoc (take _ W)), take_drop. unfold W. by rewrite <- app_assoc, take_drop. }
    replace ((Z.of_nat (length lo) + 1) * size) with (Z.of_nat (length (A ++ take (Z.to_nat size) W))) by (rewrite length_app, length_take; lia).
    rewrite write_at_split by (rewrite length_drop; lia). by rewrite <- app_assoc.
  - assert (hi = []) as E by (destruct hi; [done|cbn in Hnone; lia]). unfold H. rewrite E. cbn [fmap list_fmap concat app].
    exists (take (Z.to_nat size) rest), (drop (Z.to_nat size) rest). split; [rewrite length_take; lia|].
    rewrite take_drop, Hb. unfold H. rewrite E. rewrite app_nil_r. split; [done|]. done.
Qed.

(** The entries with the new one. *)
Lemma inserted_rep b lo hi key oid z : index_rep b (lo ++ hi) -> uword 64 oid ->
  split_at (Nat.min K (length key)) (take (Nat.min K (length key)) key) lo [] hi ->
  length (concat (encode <$> lo) ++ encode (key_of key, (flags_of key, oid)) ++ concat (encode <$> hi) ++ z) = length (f_entries b) ->
  index_rep (set_count (Z.of_nat (length (lo ++ hi)) + 1)
    (with_entries (concat (encode <$> lo) ++ encode (key_of key, (flags_of key, oid)) ++ concat (encode <$> hi) ++ z) b))
    (put string_ltb (key_of key) (flags_of key, oid) (lo ++ hi)).
Proof.
  intros [HK Hsize Hwidth Hcount Hbytes Hpage Hsmall Hent Hsorted] Hoid (Hlo & _ & Hhi) Hlen.
  assert (Forall (fun e : entry => string_ltb (fst e) (key_of key) = true) lo) as Hlo'.
  { eapply Forall_impl; [exact Hlo|]. intros e He. apply (ltb_prefix (Nat.min K (length key))). by rewrite take_key_of. }
  assert (Forall (fun e : entry => string_ltb (key_of key) (fst e) = true) hi) as Hhi'.
  { eapply Forall_impl; [exact Hhi|]. intros e He. apply (ltb_prefix (Nat.min K (length key))). by rewrite take_key_of. }
  rewrite put_between by done. apply Forall_app in Hent as [Hel Heh].
  split; cbn [set_count with_entries f_size f_count f_entries]; try done.
  - rewrite !length_app. cbn [length]. lia.
  - exists z. rewrite fmap_app, concat_app. cbn [fmap list_fmap concat]. by rewrite <- !app_assoc.
  - rewrite Hlen. exact Hpage.
  - apply Forall_app_2; [done|]. constructor; [|done]. split; [apply length_key_of|done].
  - by apply sorted_between.
Qed.

Lemma add_entry_ok b lo hi key oid close_position : index_rep b (lo ++ hi) -> uword 64 oid -> Z.of_nat (length key) < 2 ^ 32 ->
  split_at (Nat.min K (length key)) (take (Nat.min K (length key)) key) lo [] hi ->
  (Z.of_nat (length (lo ++ hi)) + 1) * size <= page_size - static_size -> close_position = -1 \/ close_position = Z.of_nat (length lo) ->
  exists entries, add_entry page_size static_size key oid close_position b = Ok (set_count (Z.of_nat (length (lo ++ hi)) + 1) (with_entries entries b)) /\
    index_rep (set_count (Z.of_nat (length (lo ++ hi)) + 1) (with_entries entries b)) (put string_ltb (key_of key) (flags_of key, oid) (lo ++ hi)).
Proof.
  intros Hb Hoid Hkey Hsplit Hroom Hclose. destruct (move_entries b lo hi Hb Hroom) as (old & z & Hold & Hlen & Emove).
  pose proof Hb as [HK Hsize Hwidth Hcount Hbytes Hpage Hsmall Hent Hsorted]. unfold add_entry, get_count, get_size. rewrite decide_False by (unfold FLAG_SIZE, REFERENCE_SIZE; lia).
  assert (wrap 32 (f_size b - FLAG_SIZE - REFERENCE_SIZE) = Z.of_nat K) as ->.
  { unfold FLAG_SIZE, REFERENCE_SIZE. rewrite Hsize. replace (size - 1 - 8) with (Z.of_nat K) by lia. apply wrap_small. unfold uword. lia. }
  rewrite (wrap_small 32 (Z.of_nat (length key))) by (unfold uword; lia). rewrite <- Nat2Z.inj_min.
  assert ((if decide (close_position < 0) then add_entry_loop b key (Z.of_nat (Nat.min K (length key))) (S (Z.to_nat (f_count b))) 0 (f_count b) 0 else Ok close_position)
    = Ok (Z.of_nat (length lo))) as ->.
  { destruct Hclose as [->| ->]; [rewrite decide_True by done|by rewrite decide_False by lia].
    rewrite (add_loop_ok b (lo ++ hi) key _ lo [] hi) by (rewrite ?Hcount, ?length_app; done || (cbn; lia)). done. }
  cbn [result_bind]. assert (f_count b < (page_size - static_size) / f_size b) as Hmax.
  { rewrite Hsize, Hcount. apply Z.le_succ_l. unfold Z.succ. apply Z.div_le_lower_bound; lia. }
  rewrite decide_False by lia. rewrite Emove. cbn [result_bind].
  assert (entry_offset (f_size b) (Z.of_nat (length lo)) = Z.of_nat (length (concat (encode <$> lo)))) as ->.
  { apply Forall_app in Hent as [Hlo _]. unfold entry_offset. rewrite length_encoded, Hsize by done. apply wrap_small. unfold uword. rewrite length_app in Hroom. nia. }
  assert ((if decide (Z.of_nat (length key) <= Z.of_nat K) then ENTRY_INDEX_FLAG_COMPLETE else 0) = flags_of key) as ->.
  { unfold flags_of. destruct (decide (length key <= K)%nat); [by rewrite decide_True by lia|by rewrite decide_False by lia]. }
  pose proof (write_entry (concat (encode <$> lo)) old (concat (encode <$> hi) ++ z) key oid ltac:(lia)) as Hw.
  destruct (write_buffer _ _ [flags_of key]) as [w1|]; [|done]. cbn [result_bind] in *. destruct (write_buffer w1 _ (le 8 oid)) as [w2|]; [|done]. cbn [result_bind] in *.
  rewrite read_key by lia. cbn [result_bind]. rewrite take_min.
  destruct (write_buffer w2 _ (take K key)) as [w3|]; [|done]. cbn [result_bind] in *. rewrite Hw. cbn [result_bind].
  rewrite wrap_small by (unfold uword; rewrite Hcount; nia). rewrite Hcount. eexists. split; [done|].
  apply inserted_rep; [done|done|done|]. rewrite <- Hlen, !length_app. apply Nat2Z.inj. rewrite !Nat2Z.inj_add, length_encode; [lia|].
  split; [apply length_key_of|done].
Qed.
End Entries.

(** ** Main theorems *)

(** The entries that are below the start [y] of a key, and those that have it. *)
Definition entries_below (y : list Z) (m : list (list Z * (Z * Z))) : nat :=
  length (filter (fun e => string_ltb (take (length y) (fst e)) y = true) m).
Definition has_prefix (y : list Z) (e : list Z * (Z * Z)) : Prop := take (length y) (fst e) = y.

#[export] Instance has_prefix_dec y e : Decision (has_prefix y e).
Proof. unfold has_prefix. apply _. Defined.

(** What is compared of a key. *)
Definition sought (K : nat) (key : list Z) : list Z := take (Nat.min K (length key)) key.

Lemma length_sought K key : length (sought K key) = Nat.min K (length key).
Proof. unfold sought. rewrite length_take. lia. Qed.

Lemma filter_all {A} (P : A -> Prop) `{!forall x, Decision (P x)} l : Forall P l -> filter P l = l.
Proof. induction 1 as [|x l Hx Hl IH]; [done|]. by rewrite filter_cons_True, IH. Qed.

Lemma filter_none {A} (P : A -> Prop) `{!forall x, Decision (P x)} l : Forall (fun x => ~ P x) l -> filter P l = [].
Proof. induction 1 as [|x l Hx Hl IH]; [done|]. by rewrite filter_cons_False. Qed.

Lemma entries_below_split y (lo eq hi : list (list Z * (Z * Z))) : split_at (length y) y lo eq hi -> entries_below y (lo ++ eq ++ hi) = length lo.
Proof.
  intros (Hlo & Heq & Hhi). unfold entries_below. rewrite !filter_app, !length_app. rewrite filter_all by done. rewrite !filter_none; [cbn; lia|..].
  - eapply Forall_impl; [exact Hhi|]. intros e He H. pose proof (ltb_asym string_ltb _ _ H). congruence.
  - eapply Forall_impl; [exact Heq|]. intros e He H. cbn in He. rewrite He, (ltb_irrefl (ltb := string_ltb)) in H. done.
Qed.

Lemma index_split page_size static_size K b m key : index_rep page_size static_size K b m ->
  exists lo eq hi, m = lo ++ eq ++ hi /\ split_at (length (sought K key)) (sought K key) lo eq hi /\ entries_below (sought K key) m = length lo /\
    (Exists (has_prefix (sought K key)) m <-> eq <> []).
Proof.
  intros Hb. destruct (split_sorted (length (sought K key)) (sought K key) m) as (lo & eq & hi & -> & Hsplit); [done|apply Hb| |].
  - eapply Forall_impl; [apply Hb|]. intros e [He _]. rewrite length_sought. lia.
  - exists lo, eq, hi. split; [done|]. split; [done|]. split; [by apply entries_below_split|]. destruct Hsplit as (Hlo & Heq & Hhi). split.
    + intros (e & He & Hp)%Exists_exists ->. unfold has_prefix in Hp. rewrite Forall_forall in Hlo, Hhi. rewrite !elem_of_app in He. destruct He as [He|[He|He]].
      * apply Hlo in He. rewrite Hp, (ltb_irrefl (ltb := string_ltb)) in He. done.
      * by apply elem_of_nil in He.
      * apply Hhi in He. rewrite Hp, (ltb_irrefl (ltb := string_ltb)) in He. done.
    + intros Hne. destruct eq as [|e eq]; [done|]. apply Forall_cons in Heq as [Hp _]. apply Exists_exists. exists e. split; [set_solver|exact Hp].
Qed.

(** What find_entry() gives, by the parts of the map. *)
Lemma find_entry_ok page_size static_size K b key lo eq hi : index_rep page_size static_size K b (lo ++ eq ++ hi) ->
  split_at (length (sought K key)) (sought K key) lo eq hi -> (16 <= length key)%nat -> Z.of_nat (length key) < 2 ^ 32 ->
  (Z.of_nat (length (lo ++ eq ++ hi)) - 1) * (9 + Z.of_nat K) + 25 <= page_size - static_size ->
  exists position reference, find_entry key b = Ok (with_position position b, reference) /\
    match eq with
    | [] => reference = NULL_FILE_ADDR /\ position = Z.of_nat (length lo)
    | _ => exists k flags, (k, (flags, reference)) ∈ eq
    end.
Proof.
  intros Hb Hsplit Hkey Hsmall Hprint. unfold find_entry, get_count, get_size. pose proof Hb as [HK Hsize Hwidth Hcount _ _ _ _ _]. rewrite Hcount.
  destruct (decide (Z.of_nat (length (lo ++ eq ++ hi)) = 0)) as [Hnil|Hnn].
  { rewrite !length_app in Hnil. destruct lo, eq; cbn in Hnil; try lia. by exists 0, NULL_FILE_ADDR. }
  destruct (read_at_inside key 0 16) as [x ->]; [lia..|]. cbn [result_bind].
  assert (wrap 32 (Z.min (wrap 64 (f_size b - FLAG_SIZE - REFERENCE_SIZE)) (Z.of_nat (length key))) = Z.of_nat (Nat.min K (length key))) as ->.
  { unfold FLAG_SIZE, REFERENCE_SIZE. rewrite Hsize. replace (9 + Z.of_nat K - 1 - 8) with (Z.of_nat K) by lia.
    rewrite (wrap_small 64) by (unfold uword; lia). rewrite <- Nat2Z.inj_min. apply wrap_small. unfold uword. lia. }
  rewrite length_sought in Hsplit. unfold sought in Hsplit.
  pose proof (find_loop_ok page_size static_size K b _ key (Nat.min K (length key)) lo eq hi (S (Z.to_nat (Z.of_nat (length (lo ++ eq ++ hi))))) 0
    (Z.of_nat (length (lo ++ eq ++ hi))) (f_position b) Hb eq_refl ltac:(lia) ltac:(lia) Hsplit Hprint ltac:(lia) ltac:(rewrite !length_app; lia)
    ltac:(lia) ltac:(lia)) as H.
  destruct eq as [|e0 eq]; [rewrite H; by eexists _, _|]. destruct H as (p & [k [fl oid]] & _ & He & ->). eexists _, _. split; [done|]. by exists k, fl.
Qed.

(** A key of the size of those of the block is in the map when an entry starts with
    it. *)
Lemma full_key_find page_size static_size K b key lo eq hi : index_rep page_size static_size K b (lo ++ eq ++ hi) ->
  split_at (length (sought K key)) (sought K key) lo eq hi -> (K <= length key)%nat ->
  match eq with
  | [] => find_key string_ltb (take K key) (lo ++ eq ++ hi) = None
  | _ => forall k v, (k, v) ∈ eq -> find_key string_ltb (take K key) (lo ++ eq ++ hi) = Some v
  end.
Proof.
  intros Hb (Hlo & Heq & Hhi) HK. pose proof Hb as [_ _ _ _ _ _ _ Hent Hsorted].
  assert (sought K key = take K key) as Es by (unfold sought; by rewrite Nat.min_l by lia).
  assert (length (take K key) = K) as Hl by (rewrite length_take; lia). rewrite Es, Hl in *. rewrite Forall_forall in Hlo, Heq, Hhi, Hent.
  assert (forall e, e ∈ lo ++ eq ++ hi -> take K (fst e) = fst e) as Hfull by (intros e He; destruct (Hent e He) as [Hk _]; apply take_ge; lia).
  destruct eq as [|e0 eq].
  - destruct (find_key string_ltb (take K key) (lo ++ [] ++ hi)) as [v|] eqn:E; [|done]. exfalso. apply (find_elem string_ltb) in E; [|done].
    pose proof (Hfull _ E) as Hf. cbn [fst] in Hf. rewrite !elem_of_app in E. destruct E as [E|[E|E]]; [|by apply elem_of_nil in E|].
    + apply Hlo in E. cbn [fst] in E. rewrite Hf, (ltb_irrefl (ltb := string_ltb)) in E. done.
    + apply Hhi in E. cbn [fst] in E. rewrite Hf, (ltb_irrefl (ltb := string_ltb)) in E. done.
  - intros k v Hv. pose proof (Heq _ Hv) as Ek. cbn [fst] in Ek. assert ((k, v) ∈ lo ++ (e0 :: eq) ++ hi) as Hin by set_solver.
    pose proof (Hfull _ Hin) as Hf. cbn [fst] in Hf. rewrite Hf in Ek. subst k. by apply (find_elem string_ltb).
Qed.

(** A block of four entries, one in use, with keys of 16 bytes. *)
Definition example_entry : list Z * (Z * Z) := (repeat 5 16, (ENTRY_INDEX_FLAG_COMPLETE, 7)).
Definition example_block : block_entry_index := EntryIndex 1 25 0 0 (encode example_entry ++ replicate 75 0) 0.

Lemma example_rep : index_rep 132 32 16 example_block [example_entry].
Proof.
  split; try done; [lia| |].
  - exists (replicate 75 0). cbn [fmap list_fmap concat]. by rewrite app_nil_r.
  - constructor; [by split|done].
Qed.

(** C25: find_entry() ends and searches the map that a block represents.  When the
    key has at least the size of those of the block, it gives the number of the row
    of the first bytes of the key, or null.  A shorter key finds one of the entries
    that start with it.  When there is none, the position is that of the insertion. *)
Theorem entry_index_find page_size static_size K b m key : index_rep page_size static_size K b m ->
  (16 <= length key)%nat -> Z.of_nat (length key) < 2 ^ 32 -> (Z.of_nat (length m) - 1) * (9 + Z.of_nat K) + 25 <= page_size - static_size ->
  exists position reference, find_entry key b = Ok (with_position position b, reference) /\
    (if decide (Exists (has_prefix (sought K key)) m)
     then exists k flags, (k, (flags, reference)) ∈ m /\ take (length (sought K key)) k = sought K key
     else reference = NULL_FILE_ADDR /\ position = Z.of_nat (entries_below (sought K key) m)) /\
    ((K <= length key)%nat -> reference = match find_key string_ltb (take K key) m with Some (_, oid) => oid | None => NULL_FILE_ADDR end).
Proof.
  intros Hb Hkey Hsmall Hprint. destruct (index_split _ _ _ _ _ key Hb) as (lo & eq & hi & -> & Hsplit & Hbelow & Hex).
  destruct (find_entry_ok page_size static_size K b key lo eq hi) as (position & reference & Efind & Hfound); try done.
  exists position, reference. split; [done|]. split.
  - destruct (decide _) as [Hp|Hp]; rewrite Hex in Hp.
    + destruct eq as [|e0 eq]; [done|]. destruct Hfound as (k & fl & He). exists k, fl. split; [set_solver|].
      destruct Hsplit as (_ & Heq & _). rewrite Forall_forall in Heq. by apply (Heq _ He).
    + destruct eq; [|by destruct Hp]. by rewrite Hbelow.
  - intros HK. pose proof (full_key_find _ _ _ _ _ _ _ _ Hb Hsplit HK) as Hfull. destruct eq as [|e0 eq].
    + rewrite Hfull. by destruct Hfound.
    + destruct Hfound as (k & fl & He). by rewrite (Hfull _ _ He).
Qed.

Lemma entry_index_find_witness : exists position reference,
  find_entry (repeat 5 16) example_block = Ok (with_position position example_block, reference) /\ reference = 7.
Proof.
  destruct (entry_index_find 132 32 16 example_block [example_entry] (repeat 5 16) example_rep) as (position & reference & E & _ & H); [cbn; lia|done|done|].
  exists position, reference. split; [exact E|]. rewrite H by (cbn; lia). by vm_compute.
Defined.

(** C26: add_entry() refuses a key when an entry of the block starts with what is
    compared of it, and when the block is full.  Otherwise it succeeds, and the
    block represents the map with one more entry, for the first bytes of the key,
    completed with zeros; it makes no difference whether the position is searched
    or is the one where find_entry() did not find the key. *)
Theorem entry_index_add page_size static_size K b m key oid : index_rep page_size static_size K b m -> uword 64 oid ->
  Z.of_nat (length key) < 2 ^ 32 ->
  if decide (Exists (has_prefix (sought K key)) m) then add_entry page_size static_size key oid (-1) b = Throw not_yet_implemented
  else forall close_position, close_position = -1 \/ close_position = Z.of_nat (entries_below (sought K key) m) ->
    if decide ((Z.of_nat (length m) + 1) * (9 + Z.of_nat K) <= page_size - static_size)
    then exists b', add_entry page_size static_size key oid close_position b = Ok b' /\
      index_rep page_size static_size K b' (put string_ltb (key_of K key) (flags_of K key, oid) m)
    else add_entry page_size static_size key oid close_position b = Throw not_yet_implemented.
Proof.
  intros Hb Hoid Hkey. destruct (index_split _ _ _ _ _ key Hb) as (lo & eq & hi & -> & Hsplit & Hbelow & Hex).
  rewrite length_sought in Hsplit. unfold sought in Hsplit. pose proof Hb as [HK Hsize Hwidth Hcount _ _ _ _ _].
  assert (forall close_position, close_position < 0 ->
    add_entry page_size static_size key oid close_position b = match eq with [] => add_entry page_size static_size key oid (Z.of_nat (length lo)) b | _ => Throw not_yet_implemented end) as Hloop.
  { intros cp Hcp. unfold add_entry, get_count, get_size. rewrite !(decide_False (P := f_size b < _)) by (unfold FLAG_SIZE, REFERENCE_SIZE; lia).
    assert (wrap 32 (f_size b - FLAG_SIZE - REFERENCE_SIZE) = Z.of_nat K) as ->.
    { unfold FLAG_SIZE, REFERENCE_SIZE. rewrite Hsize. replace (9 + Z.of_nat K - 1 - 8) with (Z.of_nat K) by lia. apply wrap_small. unfold uword. lia. }
    rewrite (wrap_small 32 (Z.of_nat (length key))) by (unfold uword; lia). rewrite <- Nat2Z.inj_min.
    rewrite (decide_True (P := cp < 0)) by done. rewrite (decide_False (P := Z.of_nat (length lo) < 0)) by lia.
    rewrite (add_loop_ok page_size static_size K b _ key _ lo eq hi) by (rewrite ?Hcount, ?length_app; done || (rewrite ?length_app; lia)). by destruct eq. }
  destruct (decide _) as [Hp|Hp]; rewrite Hex in Hp; [rewrite Hloop by done; by destruct eq|]. destruct eq; [|by destruct Hp]. cbn [app] in *.
  rewrite Hbelow. intros cp Hcp. destruct (decide _) as [Hroom|Hfull].
  - destruct (add_entry_ok page_size static_size K b lo hi key oid cp) as (entries & E & Hb'); [done..|]. by eexists.
  - assert (add_entry page_size static_size key oid (Z.of_nat (length lo)) b = Throw not_yet_implemented) as E.
    { unfold add_entry, get_count, get_size. rewrite !(decide_False (P := f_size b < _)) by (unfold FLAG_SIZE, REFERENCE_SIZE; lia).
      rewrite (decide_False (P := Z.of_nat (length lo) < 0)) by lia. cbn [result_bind]. rewrite (decide_True (P := f_count b >= _)); [by destruct (decide _)|].
      rewrite Hsize, Hcount. apply Z.le_ge, Z.lt_succ_r. apply Z.div_lt_upper_bound; lia. }
    destruct Hcp as [->| ->]; [|done]. by rewrite Hloop.
Qed.

Lemma entry_index_add_witness : exists b', add_entry 132 32 (repeat 3 20) 8 (-1) example_block = Ok b' /\
  index_rep 132 32 16 b' [(repeat 3 16, (0, 8)); example_entry].
Proof.
  pose proof (entry_index_add 132 32 16 example_block [example_entry] (repeat 3 20) 8 example_rep ltac:(done) ltac:(done)) as H.
  rewrite decide_False in H by (apply (bool_decide_unpack _); vm_compute; exact I). specialize (H (-1) (or_introl eq_refl)).
  rewrite decide_True in H by done. exact H.
Defined.

(** A key that is longer than those of the block is found for another one with the
    same first bytes. *)
Example truncated_key :
  (let! '(_, reference) := find_entry (repeat 5 16 ++ [1; 2; 3]) example_block in Ok reference) = Ok 7.
Proof. by vm_compute. Qed.

(** Searching a key of less than 16 bytes reads past its end. *)
Example short_key : find_entry (repeat 5 15) example_block = Throw undefined_behavior.
Proof. by vm_compute. Qed.
