(* ===== verification/PrimaryIndex.v ===== *)
(** * The primary index (prinbee/block/block_primary_index.cpp)

    The page of a PIDX block is an array of references of the blocks where to search
    for a key, by the last bits of the key.  The first one would be where the magic
    and the version of the block are: it is a field of the header of the table.
    [snapdev::log2()] is a parameter. *)

From S2P Require Import Prelude Names Bytes ConvertText EntryIndex IndirectIndex.

Record block_primary_index := PrimaryIndex {
  pi_references : list Z;
  primary_index_reference_zero : Z;
}.

Section PrimaryIndex.
Context (snapdev_log2 : Z -> Z) (page_size : Z).

(** The number of bits. *)
Definition pi_get_size : Z := wrap 8 (Z.min (snapdev_log2 page_size - snapdev_log2 REFERENCE_SIZE) 32).

(** The bytes at the end of the key, the last one first. *)
Fixpoint key_loop (key : list Z) (bytes idx : nat) (shift k : Z) : Z :=
  match bytes with
  | O => k
  | S bytes =>
      let idx := (idx - 1)%nat in
      key_loop key bytes idx (shift + 8) (Z.lor k (wrap 32 (Z.shiftl (key !!! idx) shift)))
  end.

(** Shifting the mask by all its bits is undefined. *)
Definition key_to_index (key : list Z) : result Z :=
  let! bytes := divide_rounded_up pi_get_size 8 in
  let k := key_loop key (Nat.min (Z.to_nat bytes) (length key)) (length key) 0 0 in
  if decide (pi_get_size >= 32) then Throw undefined_behavior
  else
    let mask := wrap 32 (Z.shiftl (2 ^ 32 - 1) pi_get_size) in
    Ok (Z.land k (wrap 32 (Z.lnot mask))).

Definition pi_get_top_index (key : list Z) (b : block_primary_index) : result Z :=
  let! k := key_to_index key in
  if decide (k = 0) then Ok (primary_index_reference_zero b) else reference_at (pi_references b) k.

Definition pi_set_top_index (key : list Z) (offset : Z) (b : block_primary_index) : result block_primary_index :=
  let! k := key_to_index key in
  if decide (k = 0) then Ok (PrimaryIndex (pi_references b) offset)
  else
    let! _ := reference_at (pi_references b) k in
    Ok (PrimaryIndex (<[Z.to_nat k := offset]> (pi_references b)) (primary_index_reference_zero b)).
End PrimaryIndex.

(** ** The index of a key *)

Lemma testbit_small k s i : 0 <= k < 2 ^ s -> 0 <= s <= i -> Z.testbit k i = false.
Proof.
  intros Hk Hs. destruct (decide (k = 0)) as [->|]; [apply Z.bits_0|]. apply Z.bits_above_log2; [lia|].
  apply Z.log2_lt_pow2; [lia|]. pose proof (Z.pow_le_mono_r 2 s i ltac:(lia) ltac:(lia)). lia.
Qed.

Lemma lor_shiftl k x s : 0 <= s -> 0 <= k < 2 ^ s -> Z.lor k (Z.shiftl x s) = k + 2 ^ s * x.
Proof.
  intros Hs Hk. rewrite Z.shiftl_mul_pow2, (Z.mul_comm x) by done. symmetry.
  assert (forall i, 0 <= i -> Z.testbit k i && Z.testbit (2 ^ s * x) i = false) as Hsep.
  { intros i Hi. destruct (decide (i < s)).
    - rewrite (Z.mul_comm (2 ^ s)), Z.mul_pow2_bits_low by lia. apply andb_false_r.
    - by rewrite (testbit_small k s) by lia. }
  rewrite Z.add_nocarry_lxor.
  - apply Z.bits_inj'. intros i Hi. rewrite Z.lxor_spec, Z.lor_spec. specialize (Hsep i Hi).
    by destruct (Z.testbit k i), (Z.testbit _ i).
  - apply Z.bits_inj'. intros i Hi. rewrite Z.land_spec, Z.bits_0. by apply Hsep.
Qed.

Lemma key_loop_value key bytes idx shift k : Forall byte key -> (bytes <= idx <= length key)%nat -> 0 <= shift -> 0 <= k < 2 ^ shift ->
  shift + 8 * Z.of_nat bytes <= 32 -> key_loop key bytes idx shift k = k + 2 ^ shift * of_le (take bytes (rev (take idx key))).
Proof.
  intros Hkey. revert idx shift k. induction bytes as [|bytes IH]; intros idx shift k Hidx Hs Hk Hmax; [cbn; rewrite Z.mul_0_r; lia|]. cbn [key_loop].
  destruct (lookup_lt_is_Some_2 key (idx - 1)) as [x Hx]; [lia|]. rewrite (list_lookup_total_correct _ _ _ Hx).
  assert (byte x) as Hb by (rewrite Forall_forall in Hkey; apply Hkey; by eapply list_elem_of_lookup_2). unfold byte, uword in Hb. change (2 ^ 8) with 256 in Hb.
  assert (take idx key = take (idx - 1) key ++ [x]) as ->.
  { replace idx with (S (idx - 1)) at 1 by lia. by apply take_S_r. }
  rewrite rev_app_distr. cbn [rev app firstn of_le]. assert (2 ^ (shift + 8) = 2 ^ shift * 256) as Hp by (rewrite Z.pow_add_r by lia; done).
  assert (2 ^ shift * 256 <= 2 ^ 32) by (rewrite <- Hp; apply Z.pow_le_mono_r; lia). assert (0 < 2 ^ shift) by (apply Z.pow_pos_nonneg; lia).
  rewrite wrap_small by (unfold uword; rewrite Z.shiftl_mul_pow2 by lia; nia). rewrite lor_shiftl by done.
  rewrite IH by (rewrite ?Hp; lia || nia). rewrite Hp. ring.
Qed.

(** What is known of the parameter. *)
Class Log2Spec (snapdev_log2 : Z -> Z) : Prop := snapdev_log2_value x : 0 < x -> snapdev_log2 x = Z.log2 x.

Section Index.
Context `{spec : Log2Spec snapdev_log2} (page_size : Z) (page_range : 8 <= page_size < 2 ^ 34).

Lemma pi_size_value : pi_get_size snapdev_log2 page_size = Z.log2 page_size - 3 /\ 0 <= Z.log2 page_size - 3 < 31.
Proof.
  pose proof (Z.log2_le_mono 8 page_size ltac:(lia)) as Hlow. change (Z.log2 8) with 3 in Hlow.
  assert (Z.log2 page_size < 34) as Hhigh by (apply Z.log2_lt_pow2; lia). split; [|lia].
  unfold pi_get_size, REFERENCE_SIZE. rewrite !(snapdev_log2_value (snapdev_log2 := snapdev_log2)) by lia. change (Z.log2 8) with 3. rewrite Z.min_l by lia.
  apply wrap_small. unfold uword. change (2 ^ 8) with 256. lia.
Qed.

(** The last bits of the key. *)
Definition last_bits (key : list Z) : Z := of_le (rev key) mod 2 ^ (Z.log2 page_size - 3).

Lemma of_le_take n l s : 0 <= s <= 8 * Z.of_nat n -> of_le (take n l) mod 2 ^ s = of_le l mod 2 ^ s.
Proof.
  intros Hs. destruct (decide (length l <= n)%nat); [by rewrite take_ge by lia|].
  rewrite <- (take_drop n l) at 2. rewrite of_le_app, length_take, Nat.min_l by lia.
  replace (256 ^ Z.of_nat n) with (2 ^ (8 * Z.of_nat n - s) * 2 ^ s).
  - rewrite (Z.mul_comm (_ * _)), Z.mul_assoc, Z.mod_add by (pose proof (Z.pow_pos_nonneg 2 s); lia). done.
  - rewrite <- Z.pow_add_r by lia. change 256 with (2 ^ 8). rewrite <- Z.pow_mul_r by lia. f_equal. lia.
Qed.

Lemma key_to_index_value key : Forall byte key -> key_to_index snapdev_log2 page_size key = Ok (last_bits key).
Proof.
  intros Hkey. destruct pi_size_value as [Es Hs]. unfold key_to_index, last_bits. rewrite Es. set (s := Z.log2 page_size - 3) in *.
  unfold divide_rounded_up. rewrite decide_False by done. cbn [result_bind]. rewrite wrap_small by (unfold uword; lia).
  rewrite decide_False by lia. f_equal. set (q := (s + 8 - 1) / 8).
  assert (s <= 8 * q <= 32) as Hq by (subst q; pose proof (Z.div_mod (s + 8 - 1) 8); pose proof (Z.mod_pos_bound (s + 8 - 1) 8); lia).
  rewrite key_loop_value by (done || lia). rewrite Z.pow_0_r, Z.add_0_l, Z.mul_1_l, firstn_all.
  replace (take (Nat.min (Z.to_nat q) (length key)) (rev key)) with (take (Z.to_nat q) (rev key)).
  2: { destruct (decide (Z.to_nat q <= length key)%nat); [by rewrite Nat.min_l by lia|].
       by rewrite Nat.min_r, !take_ge by (rewrite ?length_rev; lia). }
  rewrite <- (of_le_take (Z.to_nat q) (rev key) s) by lia. apply Z.bits_inj'. intros i Hi.
  rewrite Z.land_spec. unfold wrap. rewrite <- !Z.land_ones by lia. rewrite !Z.land_spec, Z.lnot_spec, Z.land_spec, Z.shiftl_spec, !Z.testbit_ones_nonneg by lia.
  change (2 ^ 32 - 1) with (Z.ones 32). f_equal. destruct (Z.ltb_spec i s).
  - rewrite Z.testbit_neg_r by lia. by destruct (Z.ltb_spec i 32); [|lia].
  - rewrite Z.testbit_ones_nonneg by lia. destruct (Z.ltb_spec i 32); [|by rewrite andb_false_r].
    by destruct (Z.ltb_spec (i - s) 32); [|lia].
Qed.

(** The table of the tops of the searches: by the last bits of the keys. *)
Definition top_of (b : block_primary_index) (k : Z) : Z :=
  if decide (k = 0) then primary_index_reference_zero b else pi_references b !!! Z.to_nat k.

Lemma last_bits_range key : 0 <= last_bits key < 2 ^ (Z.log2 page_size - 3).
Proof. apply Z.mod_pos_bound. pose proof pi_size_value. apply Z.pow_pos_nonneg; lia. Qed.

Lemma get_top_index_value key b : Forall byte key -> page_size <= 8 * Z.of_nat (length (pi_references b)) ->
  pi_get_top_index snapdev_log2 page_size key b = Ok (top_of b (last_bits key)).
Proof.
  intros Hkey Hlen. unfold pi_get_top_index, top_of. rewrite key_to_index_value by done. cbn [result_bind].
  destruct (decide _); [done|]. pose proof (last_bits_range key). destruct pi_size_value as [_ Hs].
  assert (2 ^ (Z.log2 page_size - 3) * 8 <= page_size).
  { change 8 with (2 ^ 3). rewrite <- Z.pow_add_r by lia. replace (Z.log2 page_size - 3 + 3) with (Z.log2 page_size) by lia. apply Z.log2_spec. lia. }
  unfold reference_at. destruct (lookup_lt_is_Some_2 (pi_references b) (Z.to_nat (last_bits key))) as [r Hr]; [lia|].
  by rewrite Hr, (list_lookup_total_correct _ _ _ Hr).
Qed.

(** C27: the primary index implements a table by the last bits of the keys: setting the top of a
    key changes the top of all the keys that end with the same bits (log2 of the size of a page,
    less 3), and of no other key; the top of keys whose last bits are zeros is in the header. *)
Theorem primary_index_refines key offset b :
  Forall byte key -> page_size <= 8 * Z.of_nat (length (pi_references b)) ->
  exists b', pi_set_top_index snapdev_log2 page_size key offset b = Ok b' /\
    length (pi_references b') = length (pi_references b) /\
    (forall key', Forall byte key' ->
       pi_get_top_index snapdev_log2 page_size key' b' =
         (if decide (last_bits key' = last_bits key) then Ok offset else pi_get_top_index snapdev_log2 page_size key' b)) /\
    (last_bits key = 0 -> pi_references b' = pi_references b) /\
    (last_bits key <> 0 -> primary_index_reference_zero b' = primary_index_reference_zero b /\ pi_references b' !! 0%nat = pi_references b !! 0%nat).
Proof.
  intros Hkey Hlen. pose proof (get_top_index_value key b Hkey Hlen) as Hget. pose proof (last_bits_range key).
  unfold pi_get_top_index in Hget. unfold pi_set_top_index. rewrite key_to_index_value in Hget |- * by done. cbn [result_bind] in *.
  destruct (decide (last_bits key = 0)) as [E0|E0].
  - eexists. split; [done|]. cbn. split_and!; try done. intros key' Hkey'. rewrite !get_top_index_value by done. rewrite E0.
    unfold top_of. cbn. by destruct (decide _).
  - rewrite Hget. cbn [result_bind]. eexists. split; [done|]. cbn. rewrite length_insert.
    split_and!; try done; [|intros _; split; [done|by apply list_lookup_insert_ne; lia]].
    intros key' Hkey'. pose proof (last_bits_range key'). rewrite !get_top_index_value by (cbn; rewrite ?length_insert; done).
    unfold reference_at in Hget. destruct (pi_references b !! Z.to_nat (last_bits key)) eqn:Hx; [|done]. apply lookup_lt_Some in Hx.
    unfold top_of. cbn. destruct (decide (last_bits key' = last_bits key)) as [->|].
    + rewrite decide_False by done. by rewrite list_lookup_total_insert_eq by lia.
    + destruct (decide _); [done|]. by rewrite list_lookup_total_insert_ne by lia.
Qed.
End Index.

Lemma primary_index_refines_witness : exists b',
  pi_set_top_index Z.log2 64 [7; 1; 5] 4096 (PrimaryIndex (replicate 8 0) 0) = Ok b' /\
  pi_get_top_index Z.log2 64 [200; 13] b' = Ok 4096 /\ pi_get_top_index Z.log2 64 [8] b' = Ok 0.
Proof.
  assert (Log2Spec Z.log2) as Hspec by by intros x _.
  destruct (primary_index_refines (spec := Hspec) 64 ltac:(lia) [7; 1; 5] 4096 (PrimaryIndex (replicate 8 0) 0)) as (b' & Hset & _ & Hget & _).
  - repeat constructor; vm_compute; done.
  - cbn. lia.
  - exists b'. split; [exact Hset|]. rewrite !Hget by (repeat constructor; vm_compute; done). split; vm_compute; reflexivity.
Defined.
